(* ===== verification/_CoqProject ===== *)
-Q . S2P
Prelude.v
PyFloat.v
FloatDiv.v
PyStr.v
Regex.v
PyTime.v
Json.v
Events.v
Morse.v
Decoder.v
DecoderFacts.v
Timing.v
Bridge.v
Stream.v
Live.v
Abbrev.v
Fldigi.v
Credentials.v
Logbook.v
LogbookFacts.v
Sync.v
SyncFacts.v
Radio.v
RadioDaemon.v
RadioDaemonFacts.v
BandScan.v
BandScanFacts.v
Rig.v
RigDaemon.v
BandPlan.v
PyLib.v
Stores.v
StoresFacts.v
Simulate.v
Services.v
Station.v
StationFacts.v
Schedules.v
SchedulesFacts.v
Scheduler.v
SchedulerSync.v
SchedulerFacts.v
SchedulerSyncFacts.v
Retries.v
RetriesFacts.v
SchedulerTasks.v
Approvals.v
ApprovalsFacts.v
ApprovalsSteps.v
Tables.v
CaseInsensitiveDict.v
WebhookHooks.v
Webhooks.v
WebhookPairing.v
WebhooksFacts.v
WebhookLinksFacts.v
Heartbeat.v
HeartbeatFacts.v
HeartbeatViews.v
HeartbeatOverview.v
HeartbeatCalendars.v
HeartbeatPages.v
Runbook.v
RunbookService.v
RunbookSound.v
RunbookSteps.v
RunbookApi.v
RunbookViews.v
RunbookFacts.v
RunbookApiFacts.v
RunbookHistory.v
RunbookDemo.v
Tokens.v
TokensFacts.v
OAuth.v
OAuthFacts.v
TokensDemo.v
StationApi.v
StationKeeping.v
StationApiFacts.v
