(* ===== verification/Prelude.v ===== *)
(** * CW Station: a verification development

    CW Station (src/apps/cw) is a Morse telegraphy station behind a web
    server: it synthesizes and decodes Morse audio, keeps a contact log,
    drives a transmitter and a software receiver, and talks to the services
    an operator uses. Under it, SmallStack (the other packages of src/apps)
    schedules jobs, runs background tasks, asks people for approval, exchanges
    webhooks with other servers, watches its own services, keeps the station's
    runbooks of documents, and issues the keys that people, programs and
    language models call it with. This library models the engine, the
    application logic of the station and that machinery in Rocq, operation by
    operation, and proves what makes each part correct.

    ** The program and the files that model it

    Foundations, used by everything below.
    - Prelude: record update, the [result] of computations that may raise,
      decision by computation, Python slices.
    - PyFloat: Python's numbers. A class [Num] of the arithmetic the program
      uses, with two instances: binary64 by the Standard Library's SpecFloat
      and exact rationals. A model is written once over [Num]; a bound that
      needs real arithmetic is proved at the rationals, a bound on what the
      machine stores at the doubles, and the rest for every instance.
      FloatDiv: floor division of doubles, and when it is that of integers.
    - PyStr, Regex, PyTime, Json: strings as code points with the methods the
      program calls, a backtracking matcher for its regular expressions with a
      declarative semantics it is sound and complete for, UTC datetimes, and
      decoded request bodies with Python's conversions.
    - PyLib: what is taken from the standard library: UTF-8 and what it cannot
      encode ([encodable]: a lone surrogate, which a JSON body may carry and a
      column or a cipher refuses), SHA-256 and HMAC, constant-time comparison,
      glob patterns, dictionaries.
    - Tables: a table of the database as rows by primary key, with the next
      key, and the laws of insertion, update, deletion and lookup.

    The engine (src/apps/cw/engine).
    - Events (events.py, audio_io.py): results, and the choice of a tone.
    - Morse (morse.py, synth.py): the code tables, [encode_text],
      [decode_symbol]; keying and edge shaping, its [Section Synth], [None] where
      a speed, a count of samples or an array raises.
    - Decoder, DecoderFacts (cw.py): every method of [CWDecoder]; a method
      takes the state and returns the new state with the characters it emits.
    - Timing: the two ends composed, [Synth] into [Decoder].
    - Bridge (bridge.py), Stream (stream.py): callsigns and log drafts from a
      growing copy; batches that carry every event once.
    - Live (manager.py, sources.py, live.py, export.py): demodulators behind
      an interface ([Demodulator], [LawfulDemodulator]) which [Decoder]
      implements; the manager, block sources, tone calibration, and sessions
      of bounded size.
    - Fldigi (fldigi.py): the tap on an external decoder.
    - Simulate (simulate.py): the simulated band.

    The station (src/apps/cw).
    - Abbrev (abbrev.py), Credentials (fieldcrypto.py, qrz.py), Logbook and
      LogbookFacts (logbook.py), Sync and SyncFacts (qrzlogbook.py, eqsl.py
      and their endpoints in api.py).
    - Radio, RadioDaemon, RadioDaemonFacts (radiodaemon.py): bands,
      sweeps and seeking; the supervisor of the receiver process over an
      explicit operating system of processes, with a pidfile that is not
      written, a [ps] that is silent and a kill that is refused ([Write],
      [Reaping]); a ghost set names the receivers such a failure has lost.
    - BandScan, BandScanFacts (bandscan.py), BandPlan (bandplan.py).
    - Rig (rigctl.py, transmit.py), RigDaemon (rigdaemon.py): the
      rigctld client over an arbitrary byte stream, the transmission, and the
      supervisor of a local rigctld.
    - Stores, StoresFacts (api.py, models.py): message memories, tags and
      saved stations, as tables of rows with a uniqueness constraint; a text
      the driver cannot encode raises.
    - Services (services.py): stored sessions.
    - Station, StationFacts (api.py, services.py, models.py): settings, live
      knobs, and the rig endpoints, where sessions, rig client, transmitter
      and supervisor meet.
    - StationApi (api.py, views.py, forms.py, consumers.py, models.py): the
      endpoints and pages about what the station keeps for an operator: the
      log and its edit form, sessions, credentials, rig photos and their files,
      receiver, antenna surveys, live tape. Each handler takes the parts it
      touches; [serve] is one request on the whole [Station], with the survey's
      worker and a restart as events of their own, so a history is a list of
      requests of any operators. [StationLib] is what it takes from outside,
      [StationLaws] what is documented of it. StationKeeping: what one request
      leaves of each part ([log_change], [desk_change], [tidy_photos],
      [job_ok]), put together in [serve_step]; StationApiFacts: the theorems on
      histories, and a station of two operators.

    Jobs (src/apps/scheduler, src/apps/tasks).
    - Schedules, SchedulesFacts (schedules.py): intervals, cron and single
      dates; the next run and the periods missed. [CronLaws] is what croniter
      documents of the instants an expression names.
    - Scheduler, SchedulerFacts (services.py, models.py): a tick as a program
      whose actions are single statements on the database, and the world in
      which ticks and run-now buttons interleave between them.
    - SchedulerSync, SchedulerSyncFacts (models.py, forms.py, decorators.py,
      registry.py, services.py): saving and validating rows, the operator's
      form, the reconciliation with jobs declared in code, the outcome of runs.
    - Retries, RetriesFacts (reliability.py, reaper.py, heartbeat.py,
      signals.py): attempts and their links, retry decisions, late
      completions, the reaper; a world of workers, reapers and sweeps in which
      every operation that is not one transaction may be cut anywhere.
    - SchedulerTasks: the two composed. The scheduler is written against an
      interface ([TaskEngine]); the task tables implement it.

    Approvals and webhooks (src/apps/approvals, src/apps/webhooks).
    - Approvals (models.py, permissions.py, registry.py, services.py and the
      queue of views.py): requests, who may see and decide them, kinds and
      their callbacks, filing, deciding, withdrawing and expiring.
    - ApprovalsFacts: the world in which these interleave between statements,
      and with the deletion of accounts;
      ApprovalsSteps: each whole operation is a run of that world.
    - CaseInsensitiveDict (hooks.py): the mapping
      that carries header names.
    - WebhookHooks (hooks.py, services.py, registry.py,
      context.py and the models): settings, signatures, the seams a project
      can replace, and the handlers of received events.
    - Webhooks, WebhooksFacts (services.py, tasks.py, signals.py,
      views.py): the outbox and its deliveries, the tick, retries and replay,
      and the endpoint that receives. Libraries it calls are the class
      [WebLib]; the world has workers, ticks and a broker of queued jobs.
    - WebhookPairing, WebhookLinksFacts (pair_smallstack of services.py,
      management/commands/webhook.py, sc.py, config/urls.py): both halves of a
      link, the command a pairing prints and how the peer's command line reads
      it, the route a posted URL takes; the two ends composed, one delivering to
      the other; what a receiver lets in.

    Status (src/apps/heartbeat, src/apps/smallstack/monitors.py).
    - Heartbeat (models.py, services.py, maintenance.py, status.py): one beat
      per monitor and minute, epochs, maintenance windows, the fold of old
      beats into daily summaries, uptime over a window, the live state and the
      timelines, over an abstract time zone ([LocalZone], [LawfulZone]).
    - HeartbeatFacts: counting, excluded time, and the world of checks,
      prunings, windows and resets with its invariant.
    - HeartbeatViews (monitors.py, views.py, status.py and the command): the
      registry of services and monitors, the overview and its roll-ups, the
      public page, the calendars, the ping endpoint and the repairs.
    - HeartbeatOverview, HeartbeatCalendars, HeartbeatPages: what the pages
      show; HeartbeatPages has a monitor with its history for the witnesses.

    Documents (src/apps/runbook).
    - Runbook (models.py, permissions.py, signals.py): tables of rows by primary
      key for runbooks, sections, documents, versions and images, what goes
      with a row that is deleted, front matter, and who may see and edit what.
    - RunbookService (service.py): every operation of the one write path, as a
      function from an actor, a clock and the tables to its answer and the new
      tables, or to the error it raises; [after_error] is what an error leaves,
      a file that was opened for writing included. [Section.save] makes an
      empty slug from the name each time and may meet the constraint. The class [RunbookLib] has
      what Django and the database contribute: slugs, the text match, the URL
      prefix.
    - RunbookSound: the contract of the tables ([sound]), kept by each primitive
      change; RunbookSteps: the operations as chains of such changes, of
      documents their actor may write.
    - RunbookService, second half (retention.py, conf.py, receivers.py, subscriptions.py,
      tasks.py): policies, pruning, expiry, the sweep, what a write enqueues.
    - RunbookApi (api.py): the REST endpoints, with the search engine as a
      parameter. RunbookViews (views.py, forms.py): the pages that change
      something, on the cleaned data of their forms.
    - RunbookFacts, RunbookApiFacts, RunbookHistory: the theorems; RunbookDemo:
      a small library of two owners on which they are applied.

    Accounts and keys (src/apps/smallstack, accounts, tokenmgr, mcp).
    - Tokens (smallstack/models.py and api.py, accounts/backends.py, tokenmgr):
      API tokens and how a key authenticates, the gate in front of REST views,
      the endpoints under /api/auth/, pagination, and the pages on which people
      mint, see and revoke tokens. The class [AuthLib] has what Django
      contributes: password hashing and validation, the text matches of the
      database, URL parsing.
    - OAuth (mcp/oauth.py, oauth_views.py, models.py, auth.py, views.py,
      server.py; accounts/models.py and views.py): PKCE over the SHA-256 of
      PyLib, consent, the exchange of a code as the two statements it is,
      revocation, the JSON-RPC endpoint with its registry of tools and their
      access rules, and the one-time sign-in codes, verified in three
      statements.
    - TokensFacts: how a token may change ([evolves]), that every endpoint keeps
      to it, and the theorems on keys; OAuthFacts: the worlds in which requests
      interleave with redemptions and sign-ins between their statements;
      TokensDemo: a server of two accounts for the witnesses.

    State is a record threaded through definitions; an exception is a value of
    [result] or [option]; a thread that another operation interrupts is a
    step of a relation with its reachable states (RadioDaemonFacts, RigDaemon,
    SchedulerFacts, RetriesFacts, ApprovalsFacts, WebhooksFacts,
    HeartbeatFacts, OAuthFacts).
    Other web requests are handled one at a time. Text that only reaches an operator
    is kept where it is computed from data, and dropped otherwise.

    ** What the theorems show

    - Copy: what is keyed is decoded ([Timing.keying_decodes],
      [Morse.encode_decode_roundtrip]); the copy does not depend on how audio
      is cut into blocks ([DecoderFacts.chunking_invariant],
      [Live.calibration_lossless]); it is the
      emitted characters ([DecoderFacts.session_copy]) and reaches each
      listener once ([Stream.stream_exactly_once], [Bridge.log_bridge_streams]).
    - The log: export and parsing are inverse, parsing ends on every input,
      imports are idempotent (LogbookFacts); each contact is sent out exactly
      once however often the export is repeated, and a service that answers is
      enough for it to finish (SyncFacts); secrets survive restarts
      (Credentials).
    - Processes: no receiver is orphaned but by the failures named there, and the
      status tells what plays (RadioDaemonFacts), there is one managed rigctld and its command line was
      checked (RigDaemon), a survey always ends (BandScanFacts).
    - The transmitter: it is unkeyed after every transmission and free again,
      whatever rigctld does (Rig), also as a whole request for a stored
      session, the one exception being a session the synthesis raises on,
      and the rig panel cannot be made to send another command
      (StationFacts).
    - Data at rest: the stores are well typed under any requests and one
      operator cannot touch another's rows (StoresFacts); settings and knobs
      stay in bounds (StationFacts); the audio of a session comes back as it
      was (Services).
    - Operators: after any requests the station's rows are in order and those
      of an operator who asks nothing are as they were; a photo shown is the
      one uploaded, a secret entered is the one used until another is entered,
      a survey ends and is saved when it should be whatever is asked meanwhile,
      and a tab is sent its own operator's tape only (StationApiFacts).
    - Tables against specifications: sweeps and stations (Radio), survey
      scores and charts (BandScanFacts, BandPlan), the ground truth of the
      simulated band against what is heard (Simulate).

    - Jobs: a cadence fires at the first instant of its series, or named by its
      cron expression in its own zone, after the tick
      and missed periods are counted exactly (SchedulesFacts); no period fires
      twice however ticks overlap, and a tick leaves nothing due
      (SchedulerFacts); a sync keeps what the operator decided
      (SchedulerSyncFacts).
    - Tasks: no chain of attempts outgrows its budget, a cancelled retry stays
      cancelled, the outcome of a chain is its last attempt's, an execution
      that was given up too early and came back is noticed, and a reaper
      spares whoever beats (RetriesFacts); hence a scheduled run makes at most
      [max_retries + 1] attempts, and its message says when it ran more than
      once (SchedulerTasks).
    - Approvals: a request is decided once and its callback runs at most once,
      by someone entitled to it, whatever interleaves and raises; every surface
      counts the same queue and sweeps drain the backlog (ApprovalsFacts); the
      whole operations are such runs, report success exactly when their own
      transition won, and keep a requester within the cap (ApprovalsSteps).
    - Webhooks: each attempt of a delivery is sent at most once and no more of
      them than allowed, whatever interleaves, and whole operations are steps
      of that world (WebhooksFacts); a signed body verifies and only that body, seams resolve
      to what was registered (WebhookHooks); posts go only to addresses
      the guard admits, what a receiver records and queues was let in by its
      rules, and only that, pairing twice changes nothing, and of two servers
      paired by the printed command what one delivers arrives at the other's
      receiver, which verifies, records and dispatches it, unless it is its own
      echo (WebhookLinksFacts).
    - Status: pruning beats changes no day's uptime, whatever came before, and
      excluded time is exactly the time of the windows, counted once
      (HeartbeatFacts); every monitor gets its beat whatever the others do,
      bars account for every beat, and a window masks its minutes and no more
      (HeartbeatPages); the overview shows each monitor once and its roll-ups are
      exactly the worst of what they sum up, the core tier apart, whose rule is
      stated (HeartbeatOverview); calendars are whole and
      agree with the strip of days (HeartbeatCalendars).

    - Documents: whatever is called, by whom, and whichever calls fail, the
      tables keep their contract, and a call leaves alone what its caller may
      not write, from the pages too (RunbookFacts); a write adds to or replaces
      the end of the list of a document's contents and touches no other's,
      restoring brings a content back, no optimistic update is lost, pruning
      keeps the newest and a second sweep does nothing (RunbookHistory); a
      runbook one may not see is answered for as one there is not where a
      path names it, and what is listed is what may be read (RunbookApiFacts); the search for a free slug
      ends (RunbookSteps).
    - Keys: a login's key opens its account until it expires and no longer than
      allowed, nobody mints above their role, a REST view is reached by a live
      caller with the rights it asks for, and the pages of a list are the list
      (TokensFacts); whatever interleaves, a code is redeemed once, by whoever
      holds its verifier, for its own token's key, a consent followed up in time
      gets a key that works unless its code was taken or given up meanwhile, the tokens of a deactivated account are dead for
      good, a tool answers to those its definition lets, and a sign-in code takes
      five guesses and opens once (OAuthFacts).

    Where the code does something else than its comments say, a lemma shows
    it: a dangling mark's characters lost by [flush], a pending key that
    always opens (DecoderFacts), the unfinished first word scanned (Stream), a
    failed seek that silences the receiver (RadioDaemonFacts), a lost
    acknowledgement that leaves the rig keyed (Rig), an unwritten pidfile and a
    silent ps that lose a receiver (RadioDaemonFacts), a stale sweep scored
    (BandScanFacts), bands the log does not know (BandPlan), a paused
    station claimed (Simulate), defaults that return and a text that raises in the save
    (StoresFacts), NaN past the clamp and a stored session that keeps the
    transmitter (StationFacts), a password that adds a contact to an upload
    (SyncFacts), credentials that raise and are not kept, a session of the old account, a boolean that
    is a model number, a file without a row, a lookup that writes, numbers
    that raise and a UTC time refused for the zone of the server
    (StationApiFacts), intervals that overflow past every handler
    (SchedulesFacts), a form that saves a stale cursor so a period fires twice
    (SchedulerFacts), an operator's row rewired by a spec of the same name
    (SchedulerSyncFacts), staff deciding before the assignees are set and a
    callback that fails to import in silence (ApprovalsFacts), a delivery
    stranded when the broker refuses its job and a superscript that raises
    (WebhooksFacts), a static header that wins over the signature, a
    documented pairing that works one way and a printed command its own parser
    refuses (WebhookLinksFacts), a day of 23 hours shown as down, a day half folded
    that is expected twice, an orphaned monitor that turns the board red, a core
    tier that averages and a calendar parameter that raises (HeartbeatPages), a
    filter and a creation that tell a hidden runbook from none
    (RunbookApiFacts), a lifetime that stops the
    sweep (RunbookHistory), locks that do not outlive their runbook and a
    renamed section that raises (RunbookFacts), a head emptied by a body that cannot be encoded, a
    page filed where no listing finds it and an appended version that is not
    pruned for (RunbookDemo), and a redemption that is handed a dead key, a key
    shown under another token's name, a demoted superuser who still manages
    users, a read-only token that writes, and requests that raise (TokensDemo).

    ** Bounds and fuel

    Recursion is structural except in the ADIF parser, whose fuel is the
    length of the body ([LogbookFacts.parse_adif_terminates] shows it is never
    short), the printing of decimals (as many digits as bits), and the cutting
    of audio into blocks (as many blocks as samples). Two loops are bounded in
    the code itself and keep its bounds: 10,000 steps of a calendar
    ([MAX_STEPS]) and 1,000 attempts of a chain ([MAX_CHAIN]); the theorems
    about them say for which inputs that is enough. The search for a free slug
    has one try more than there are runbooks, which is always enough
    ([RunbookSteps.unique_slug_ends]). Instants are microseconds;
    [GAP_BOUND] is the distance up to which the division of a gap by a period
    in doubles is exact. Integers are unbounded,
    as in Python; doubles round to nearest even, and decimal literals and
    [round] are exact. Case mapping and alphabetic classes are exact on
    Latin-1 and the identity beyond it.

    ** Outside the model

    Parameters, with what the theorems assume of them stated as hypotheses or
    classes: numpy's transforms and random numbers, the modulation of the
    tone, Fernet, XML-RPC, HTTP exchanges, HTML entities, sockets and the
    rigctld behind them, the sound device, subprocesses and their output, the
    database's reading of posted keys and its collation, the random source,
    calendar arithmetic, cron expressions and the time zone database
    ([ScheduleLib], [CronLaws], [ZoneLib]), how much memory holds ([np_room]),
    the shell's splitting of a printed line, what task modules declare ([TaskLib],
    [TaskObjects]), approval callbacks and hooks, and the JSON, URL, DNS and
    HTTP client libraries of the webhooks ([WebLib]), and what the documents take
    from Django ([RunbookLib]) and the search engine, what accounts take from it
    ([AuthLib]), the verdicts of django-axes, the keys and codes that are drawn,
    what a tool does, and for the station's
    endpoints Django's zone and file storage ([StationLib]). Webhook jobs are queued
    without engine retries, and the engine runs a queued job at most once.

    Not modelled: Django views, forms and routing and the WebSocket fan-out,
    which only move data
    (the pages that change the log and the tape's group are in StationApi); WAV and compressed audio files; the management
    commands; the SmallStack framework under src/apps beside cw, tasks and
    scheduler, approvals, webhooks, heartbeat, runbook, tokens and the OAuth
    exchange (profiles, invitations, CRUD and API factories, search,
    notifications, telemetry), a base the station is built on and rarely
    calls; settings, scripts and deployment. Of the
    scheduler, the tasks, the approvals, the webhooks and the heartbeat,
    pages, forms, calendar texts, log receivers, HTTP probes and the listing
    of exposed surfaces. Of the runbook, the pages that only read, rendering,
    zip bundles, the MCP tools and the OpenAPI registration. Of the accounts,
    metadata and client registration of OAuth, mail, statistics, and the order
    of the list of users. Of the station's api.py, the setup page's data, which
    only reads, and the shorthand dictionary, which [Abbrev] has; of
    radiodaemon.py, the raw audio reader. What the station's pages render, and
    the forms in front of [Services], are left out too. *)
From stdpp Require Export base list option gmap.
From Stdlib Require Export ZArith Lia.

(** ** Record update: [r <| f := v |>]

    [Eta R] names the constructor of a record and its projections; a setter
    for a field is read off that expansion. *)
Class Eta (R : Type) := eta : R -> R.
Class Setter {R T : Type} (f : R -> T) := upd : T -> R -> R.
Arguments upd {R T} f {_} v r /.

Ltac solve_setter :=
  match goal with
  | |- @Setter ?R ?T ?f =>
      let i := constr:(_ : Eta R) in
      let b := eval hnf in i in
      let p := eval pattern f in b in
      match p with
      | ?g f =>
          let t := eval cbv beta in (fun (v : T) (r : R) => g (fun _ => v) r) in
          exact t
      end
  end.

#[export] Hint Extern 0 (Setter _) => solve_setter : typeclass_instances.

Declare Scope rec_scope.
Delimit Scope rec_scope with rec.
Notation "r <| f := v |>" := (upd f v r)
  (at level 12, f at next level, left associativity) : rec_scope.
Open Scope rec_scope.

(** ** Computations that may raise *)

Inductive result (E A : Type) : Type :=
| Ok (a : A)
| Err (e : E).
Arguments Ok {E A} a.
Arguments Err {E A} e.

#[export] Instance result_ret {E} : MRet (result E) := fun A a => Ok a.
#[export] Instance result_bind {E} : MBind (result E) := fun A B f m =>
  match m with Ok a => f a | Err e => Err e end.
#[export] Instance result_fmap {E} : FMap (result E) := fun A B f m =>
  match m with Ok a => Ok (f a) | Err e => Err e end.

Definition is_ok {E A} (r : result E A) : bool :=
  match r with Ok _ => true | Err _ => false end.

(** ** Tactics *)

(** Split on the scrutinee of a [match] or [if] of the goal or a hypothesis. *)
Ltac case_match_eqn :=
  match goal with
  | |- context [match ?x with _ => _ end] => destruct x eqn:?
  | _ : context [match ?x with _ => _ end] |- _ => destruct x eqn:?
  end.

Ltac bool_to_prop :=
  repeat match goal with
  | H : (_ && _)%bool = true |- _ => apply andb_true_iff in H as [? ?]
  | H : (_ || _)%bool = false |- _ => apply orb_false_iff in H as [? ?]
  | H : negb _ = true |- _ => apply negb_true_iff in H
  | H : negb _ = false |- _ => apply negb_false_iff in H
  | H : (_ =? _)%Z = true |- _ => apply Z.eqb_eq in H
  | H : (_ =? _)%Z = false |- _ => apply Z.eqb_neq in H
  | H : (_ <? _)%Z = true |- _ => apply Z.ltb_lt in H
  | H : (_ <? _)%Z = false |- _ => apply Z.ltb_ge in H
  | H : (_ <=? _)%Z = true |- _ => apply Z.leb_le in H
  | H : (_ <=? _)%Z = false |- _ => apply Z.leb_gt in H
  | H : bool_decide _ = true |- _ => apply bool_decide_eq_true in H
  | H : bool_decide _ = false |- _ => apply bool_decide_eq_false in H
  end.

(** Decidable facts about concrete data, by evaluation. *)
Lemma decide_by_compute (P : Prop) {D : Decision P} : bool_decide P = true -> P.
Proof. apply bool_decide_eq_true_1. Qed.

Ltac by_compute :=
  match goal with
  | |- ?P => refine (decide_by_compute P _); vm_cast_no_check (eq_refl true)
  end.

Ltac by_eval := vm_cast_no_check (eq_refl true).

(** ** Lists *)

Section Lists.
Context {A : Type}.
Implicit Types (l k : list A) (x : A).

(** Python's [l[i:]], [l[:i]] and [l[i:j]] for [0 <= i], [0 <= j]. *)
Definition slice_from (i : Z) l : list A := drop (Z.to_nat i) l.
Definition slice_to (j : Z) l : list A := take (Z.to_nat j) l.
Definition slice (i j : Z) l : list A := take (Z.to_nat (j - i)) (drop (Z.to_nat i) l).

Definition zlen l : Z := Z.of_nat (length l).

Lemma zlen_nonneg l : (0 <= zlen l)%Z.
Proof. unfold zlen; lia. Qed.

Lemma zlen_app l k : zlen (l ++ k) = (zlen l + zlen k)%Z.
Proof. unfold zlen. rewrite length_app. lia. Qed.

Lemma zlen_cons x l : zlen (x :: l) = (1 + zlen l)%Z.
Proof. unfold zlen. cbn [length]. lia. Qed.

Lemma forallb_Forall (p : A -> bool) l : forallb p l = true <-> Forall (fun x => p x = true) l.
Proof. by rewrite forallb_forall, List.Forall_forall. Qed.
End Lists.

Create HintDb zlen.
#[export] Hint Rewrite @zlen_app @zlen_cons : zlen.
#[export] Hint Resolve zlen_nonneg : core.
