(* ===== verification/PyFloat.v ===== *)
(** * Python numbers

    [Num F] is the arithmetic a component uses, so that the definitions that
    compute with Python floats can be read at two instances: [float], IEEE 754
    binary64 with round-to-nearest-even (the arithmetic the program runs on),
    and [Q], exact rationals, at which timing arguments are stated. *)
From Stdlib Require Import SpecFloat QArith Qround.
From S2P Require Import Prelude.
Open Scope Z_scope.

(** Round-half-even of the rational [n / d]. *)
Definition round_half_even (n : Z) (d : positive) : Z :=
  let q := n / Zpos d in
  let r := n mod Zpos d in
  match 2 * r ?= Zpos d with
  | Lt => q
  | Gt => q + 1
  | Eq => if Z.even q then q else q + 1
  end.

(** [num_trunc] and [num_rint] are [int(x)] and [round(x)]: [None] where
    Python raises (NaN and the infinities). [num_ratio n d] is a literal or an
    integer true division, [num_round k x] is [round(x, k)]. *)
Class Num (F : Type) := {
  num_add : F -> F -> F;
  num_sub : F -> F -> F;
  num_mul : F -> F -> F;
  num_div : F -> F -> F;
  num_ltb : F -> F -> bool;
  num_leb : F -> F -> bool;
  num_eqb : F -> F -> bool;
  num_ratio : Z -> positive -> F;
  num_round : Z -> F -> F;
  num_rint : F -> option Z;
  num_trunc : F -> option Z;
}.

Declare Scope num_scope.
Delimit Scope num_scope with num.
Infix "+" := num_add : num_scope.
Infix "-" := num_sub : num_scope.
Infix "*" := num_mul : num_scope.
Infix "/" := num_div : num_scope.
Infix "<?" := num_ltb : num_scope.
Infix "<=?" := num_leb : num_scope.
Infix "=?" := num_eqb : num_scope.

Definition num_of_Z {F} `{Num F} (z : Z) : F := num_ratio z 1.
(** [n # d] as a Python literal, e.g. [lit 3 10] for 0.3. *)
Definition lit {F} `{Num F} (n : Z) (d : positive) : F := num_ratio n d.
(** Python's [max(a, b)] and [min(a, b)]: the first argument wins a tie. *)
Definition num_max {F} `{Num F} (a b : F) : F := if num_ltb a b then b else a.
Definition num_min {F} `{Num F} (a b : F) : F := if num_ltb b a then b else a.

(** ** binary64 *)

Definition float := spec_float.
Definition prec := 53.
Definition emax := 1024.

Definition float_is_nan (x : float) : bool :=
  match x with S754_nan => true | _ => false end.

(** The double nearest to [n / d]. *)
Definition float_ratio (n : Z) (d : positive) : float :=
  match n with
  | Z0 => S754_zero false
  | Zpos p =>
      let '(m, e, l) := SFdiv_core_binary prec emax (Zpos p) 0 (Zpos d) 0 in
      binary_round_aux prec emax false m e l
  | Zneg p =>
      let '(m, e, l) := SFdiv_core_binary prec emax (Zpos p) 0 (Zpos d) 0 in
      binary_round_aux prec emax true m e l
  end.

(** The exact value of a finite double, as numerator and denominator. *)
Definition float_exact (m : positive) (e : Z) : Z * positive :=
  match e with
  | Z0 => (Zpos m, 1%positive)
  | Zpos p => (Zpos m * 2 ^ Zpos p, 1%positive)
  | Zneg p => (Zpos m, (2 ^ p)%positive)
  end.

(** The digits of [|x| * 10^k] rounded half-even: what [round(x, k)] and the
    ["%.kf"] formats print. *)
Definition float_scaled (k : Z) (m : positive) (e : Z) : Z :=
  let '(n, d) := float_exact m e in round_half_even (n * 10 ^ k) d.

Definition float_round (k : Z) (x : float) : float :=
  match x with
  | S754_finite s m e =>
      match float_scaled k m e with
      | Z0 => S754_zero s
      | n => let y := float_ratio n (Z.to_pos (10 ^ k)) in if s then SFopp y else y
      end
  | _ => x
  end.

Definition float_rint (x : float) : option Z :=
  match x with
  | S754_zero _ => Some 0
  | S754_finite s m e =>
      let n := float_scaled 0 m e in Some (if s then - n else n)
  | _ => None
  end.

Definition float_trunc (x : float) : option Z :=
  match x with
  | S754_zero _ => Some 0
  | S754_finite s m e =>
      let '(n, d) := float_exact m e in
      Some (if s then - (n / Zpos d) else n / Zpos d)
  | _ => None
  end.

(** Division by zero raises in Python; the callers below guard it, and the
    IEEE result stands here. *)
#[export] Instance float_num : Num float := {
  num_add := SFadd prec emax;
  num_sub := SFsub prec emax;
  num_mul := SFmul prec emax;
  num_div := SFdiv prec emax;
  num_ltb := SFltb;
  num_leb := SFleb;
  num_eqb := SFeqb;
  num_ratio := float_ratio;
  num_round := float_round;
  num_rint := float_rint;
  num_trunc := float_trunc;
}.

(** ** Exact rationals *)

#[export] Instance Q_num : Num Q := {
  num_add := Qplus;
  num_sub := Qminus;
  num_mul := Qmult;
  num_div := Qdiv;
  num_ltb := fun x y => negb (Qle_bool y x);
  num_leb := Qle_bool;
  num_eqb := Qeq_bool;
  num_ratio := Qmake;
  num_round := fun k x => round_half_even (Qnum x * 10 ^ k) (Qden x) # Z.to_pos (10 ^ k);
  num_rint := fun x => Some (round_half_even (Qnum x) (Qden x));
  num_trunc := fun x => Some (Z.quot (Qnum x) (Zpos (Qden x)));
}.

(** ** The order of the doubles

    Every non-NaN double has a key in a lexicographic order on triples of
    integers, so [<=] is a total preorder on them. *)

Definition float_key (x : float) : Z * Z * Z :=
  match x with
  | S754_infinity true => (-2, 0, 0)
  | S754_finite true m e => (-1, - e, - Zpos m)
  | S754_zero _ | S754_nan => (0, 0, 0)
  | S754_finite false m e => (1, e, Zpos m)
  | S754_infinity false => (2, 0, 0)
  end.

Definition key_leb (a b : Z * Z * Z) : bool :=
  let '(a1, a2, a3) := a in
  let '(b1, b2, b3) := b in
  (a1 <? b1) || ((a1 =? b1) && ((a2 <? b2) || ((a2 =? b2) && (a3 <=? b3)))).

Lemma float_leb_key x y :
  float_is_nan x = false -> float_is_nan y = false ->
  SFleb x y = key_leb (float_key x) (float_key y).
Proof.
  intros Hx Hy.
  destruct x as [[]|[]| |[] mx ex], y as [[]|[]| |[] my ey]; try discriminate; cbn;
    try reflexivity; unfold SFleb; cbn;
    destruct (Z.compare_spec ex ey) as [->|?|?]; cbn;
    try change (Pos.compare_cont Eq mx my) with (Pos.compare mx my);
    try destruct (Pos.compare_spec mx my) as [->|?|?]; cbn; lia.
Qed.

Lemma float_ltb_leb x y :
  float_is_nan x = false -> float_is_nan y = false ->
  SFltb x y = negb (SFleb y x).
Proof.
  intros Hx Hy.
  destruct x as [[]|[]| |[] mx ex], y as [[]|[]| |[] my ey]; try discriminate; cbn;
    try reflexivity; unfold SFltb, SFleb; cbn;
    rewrite (Z.compare_antisym ex ey); destruct (ex ?= ey); cbn; try reflexivity;
    change (Pos.compare_cont Eq mx my) with (Pos.compare mx my);
    change (Pos.compare_cont Eq my mx) with (Pos.compare my mx);
    rewrite (Pos.compare_antisym mx my); destruct (mx ?= my)%positive; reflexivity.
Qed.

Lemma float_leb_refl x : float_is_nan x = false -> SFleb x x = true.
Proof.
  intros Hx. rewrite float_leb_key by done.
  destruct (float_key x) as [[a b] c]. cbn. lia.
Qed.

Lemma float_leb_nan x y : SFleb x y = true -> float_is_nan x = false /\ float_is_nan y = false.
Proof. by destruct x, y; cbn. Qed.

Lemma float_leb_trans x y z : SFleb x y = true -> SFleb y z = true -> SFleb x z = true.
Proof.
  intros H1 H2.
  destruct (float_leb_nan _ _ H1), (float_leb_nan _ _ H2).
  rewrite float_leb_key in * by done.
  destruct (float_key x) as [[? ?] ?], (float_key y) as [[? ?] ?], (float_key z) as [[? ?] ?].
  unfold key_leb in *. lia.
Qed.

Lemma float_leb_total x y :
  float_is_nan x = false -> float_is_nan y = false ->
  SFleb x y = true \/ SFleb y x = true.
Proof.
  intros Hx Hy. rewrite !float_leb_key by done.
  destruct (float_key x) as [[? ?] ?], (float_key y) as [[? ?] ?].
  unfold key_leb. lia.
Qed.

(** [min(max(x, lo), hi)] lands in [lo, hi] for every [x], NaN included only
    when the bounds are not. *)
Definition clamp {F} `{Num F} (x lo hi : F) : F := num_min (num_max x lo) hi.

Lemma float_ltb_true x y : SFltb x y = true -> SFleb x y = true /\ SFleb y x = false.
Proof.
  intros E. assert (float_is_nan x = false /\ float_is_nan y = false) as [Hx Hy]
    by (by destruct x, y).
  rewrite float_ltb_leb in E by done. apply negb_true_iff in E. split; [|done].
  destruct (float_leb_total x y Hx Hy); congruence.
Qed.

Lemma float_ltb_false x y :
  float_is_nan x = false -> float_is_nan y = false -> SFltb x y = false -> SFleb y x = true.
Proof. intros Hx Hy. rewrite float_ltb_leb by done. apply negb_false_iff. Qed.

(** [max(lo, min(x, hi))] lands in [lo, hi] for every double [x], NaN included. *)
Lemma max_min_range (lo hi x : float) :
  SFleb lo hi = true ->
  SFleb lo (num_max lo (num_min x hi)) = true /\ SFleb (num_max lo (num_min x hi)) hi = true.
Proof.
  intros Hb. destruct (float_leb_nan _ _ Hb) as [Hlo Hhi]. unfold num_max, num_min. cbn.
  destruct (SFltb hi x) eqn:E1.
  - destruct (SFltb lo hi) eqn:E2; split; auto using float_leb_refl.
  - destruct (SFltb lo x) eqn:E2; [|split; auto using float_leb_refl].
    apply float_ltb_true in E2 as [H1 _]. destruct (float_leb_nan _ _ H1) as [_ Hx].
    split; [done|]. by apply float_ltb_false.
Qed.

(** [min(max(x, lo), hi)] for a number [x]. *)
Lemma clamp_range (lo hi x : float) :
  SFleb lo hi = true -> float_is_nan x = false ->
  SFleb lo (clamp x lo hi) = true /\ SFleb (clamp x lo hi) hi = true.
Proof.
  intros Hb Hx. destruct (float_leb_nan _ _ Hb) as [Hlo Hhi]. unfold clamp, num_max, num_min. cbn.
  destruct (SFltb x lo) eqn:E1.
  - destruct (SFltb hi lo) eqn:E2; split; auto using float_leb_refl.
  - apply float_ltb_false in E1; [|done..].
    destruct (SFltb hi x) eqn:E2; split; auto using float_leb_refl.
    by apply float_ltb_false.
Qed.

Lemma clamp_fixed (lo hi x : float) :
  SFleb lo x = true -> SFleb x hi = true -> clamp x lo hi = x.
Proof.
  intros H1 H2. destruct (float_leb_nan _ _ H1), (float_leb_nan _ _ H2).
  unfold clamp, num_max, num_min. cbn.
  assert (SFltb x lo = false) as -> by (rewrite float_ltb_leb by done; by rewrite H1).
  by assert (SFltb hi x = false) as -> by (rewrite float_ltb_leb by done; by rewrite H2).
Qed.

(** ** Exact arithmetic *)

Lemma round_half_even_bound n d :
  2 * n - Zpos d <= 2 * Zpos d * round_half_even n d <= 2 * n + Zpos d.
Proof.
  unfold round_half_even.
  pose proof (Z.div_mod n (Zpos d) ltac:(lia)) as E.
  pose proof (Z.mod_pos_bound n (Zpos d) ltac:(lia)) as B.
  destruct (Z.compare_spec (2 * (n mod Zpos d)) (Zpos d));
    try destruct (Z.even (n / Zpos d)); nia.
Qed.

Lemma rint_bound (y : Q) :
  (y - (1 # 2) <= inject_Z (round_half_even (Qnum y) (Qden y)) <= y + (1 # 2))%Q.
Proof.
  destruct y as [n d]. pose proof (round_half_even_bound n d) as B. cbn [Qnum Qden].
  generalize dependent (round_half_even n d). intros R B.
  split; unfold Qle, inject_Z, Qminus, Qplus, Qopp; cbn [Qnum Qden]; lia.
Qed.

Lemma Q_ltb_true (a b : Q) : num_ltb a b = true <-> (a < b)%Q.
Proof.
  cbn. rewrite negb_true_iff, <- not_true_iff_false, Qle_bool_iff.
  split; [apply Qnot_le_lt|apply Qlt_not_le].
Qed.

Lemma Q_ltb_false (a b : Q) : num_ltb a b = false <-> (b <= a)%Q.
Proof. cbn. rewrite negb_false_iff. apply Qle_bool_iff. Qed.

Lemma Q_leb_true (a b : Q) : num_leb a b = true <-> (a <= b)%Q.
Proof. apply Qle_bool_iff. Qed.

Lemma Q_leb_false (a b : Q) : num_leb a b = false <-> (b < a)%Q.
Proof.
  rewrite <- not_true_iff_false, Q_leb_true. split; [apply Qnot_le_lt|apply Qlt_not_le].
Qed.
