(* ===== verification/FloatDiv.v ===== *)
(** * Float division of durations

    [int(x // y)] on doubles, and that it is exact on the durations the
    scheduler divides: rounding a count of microseconds to a double never
    carries it over a whole number of periods. *)
From Stdlib Require Import SpecFloat QArith.
From S2P Require Import Prelude PyFloat.
Open Scope Z_scope.

(** [int(x // y)] for [0 <= x] and [0 < y]; elsewhere [None]. As CPython
    computes it: [fmod] is exact, then a subtraction, a division, and the
    nearest integer below, each rounded. *)
Definition float_floordiv (x y : float) : option Z :=
  match x, y with
  | S754_zero _, S754_finite false _ _ => Some 0
  | S754_finite false mx ex, S754_finite false my ey =>
      let '(xn, xd) := float_exact mx ex in
      let '(yn, yd) := float_exact my ey in
      let k := xn * Zpos yd / (yn * Zpos xd) in
      if k =? 0 then Some 0 else
      match float_ratio (k * yn) yd with
      | S754_finite _ ma ea =>
          let '(an, ad) := float_exact ma ea in
          match float_ratio (an * Zpos yd) (ad * Z.to_pos yn) with
          | S754_finite _ mq eq =>
              let '(qn, qd) := float_exact mq eq in
              let f := qn / Zpos qd in
              Some (if Zpos qd <? 2 * (qn - f * Zpos qd) then f + 1 else f)
          | _ => None
          end
      | _ => None
      end
  | _, _ => None
  end.

Lemma digits2_bounds p : 2 ^ (Zpos (digits2_pos p) - 1) <= Zpos p < 2 ^ Zpos (digits2_pos p).
Proof.
  induction p as [p IH|p IH|]; cbn [digits2_pos]; rewrite ?Pos2Z.inj_succ.
  - replace (Z.succ _ - 1) with (Zpos (digits2_pos p)) by lia.
    rewrite Z.pow_succ_r by lia.
    replace (Zpos (digits2_pos p)) with (Z.succ (Zpos (digits2_pos p) - 1)) at 1 by lia.
    rewrite Z.pow_succ_r by lia. lia.
  - replace (Z.succ _ - 1) with (Zpos (digits2_pos p)) by lia.
    rewrite Z.pow_succ_r by lia.
    replace (Zpos (digits2_pos p)) with (Z.succ (Zpos (digits2_pos p) - 1)) at 1 by lia.
    rewrite Z.pow_succ_r by lia. lia.
  - cbn. lia.
Qed.

Lemma digits2_unique p k : 0 < k -> 2 ^ (k - 1) <= Zpos p < 2 ^ k -> Zpos (digits2_pos p) = k.
Proof.
  intros Hk Hp. pose proof (digits2_bounds p) as Hd.
  destruct (Z.lt_trichotomy (Zpos (digits2_pos p)) k) as [H|[H|H]]; [|done|].
  - assert (2 ^ Zpos (digits2_pos p) <= 2 ^ (k - 1)) by (apply Z.pow_le_mono_r; lia). lia.
  - assert (2 ^ k <= 2 ^ (Zpos (digits2_pos p) - 1)) by (apply Z.pow_le_mono_r; lia). lia.
Qed.

(** Rounding a 53- or 54-bit quotient [q] with remainder location [l]. *)
Lemma round_aux_53 q e l :
  2 ^ 52 <= q < 2 ^ 53 -> -1000 <= e <= 900 ->
  binary_round_aux prec emax false q e l =
    let m := round_nearest_even q l in
    if m =? 2 ^ 53 then S754_finite false (2 ^ 52) (e + 1) else S754_finite false (Z.to_pos m) e.
Proof.
  intros Hq He. unfold binary_round_aux, shr_fexp.
  destruct q as [|p|p]; try lia.
  assert (Zpos (digits2_pos p) = 53) as Hd by (apply digits2_unique; lia).
  assert (fexp prec emax (Zdigits2 (Zpos p) + e) - e = 0) as ->.
  { cbn [Zdigits2]. rewrite Hd. unfold fexp, emin, prec, emax. lia. }
  cbn [shr].
  assert (round_nearest_even (shr_m (shr_record_of_loc (Zpos p) l))
            (loc_of_shr_record (shr_record_of_loc (Zpos p) l)) = round_nearest_even (Zpos p) l) as ->.
  { by destruct l as [|[]]. }
  set (m := round_nearest_even (Zpos p) l).
  assert (2 ^ 52 <= m <= 2 ^ 53) as Hm.
  { subst m. destruct l as [|[]]; cbn [round_nearest_even]; try destruct (Z.even _); lia. }
  clearbody m. cbn zeta. destruct (Z.eqb_spec m (2 ^ 53)) as [->|Hne].
  - change (fexp prec emax (Zdigits2 (2 ^ 53) + e)) with (fexp prec emax (54 + e)).
    assert (fexp prec emax (54 + e) - e = 1) as ->.
    { unfold fexp, emin, prec, emax. lia. }
    cbn -[Z.leb]. unfold emax, prec. destruct (Z.leb_spec (e + 1) (1024 - 53)); [done|lia].
  - destruct m as [|m|m]; try lia.
    assert (Zpos (digits2_pos m) = 53) as Hd' by (apply digits2_unique; lia).
    assert (fexp prec emax (Zdigits2 (Zpos m) + e) - e = 0) as ->.
    { cbn [Zdigits2]. rewrite Hd'. unfold fexp, emin, prec, emax. lia. }
    cbn -[Z.leb]. unfold emax, prec. destruct (Z.leb_spec e (1024 - 53)); [done|lia].
Qed.

(** One bit too many: the quotient is halved, its last bit joining the remainder. *)
Lemma round_aux_54 q e l :
  2 ^ 53 <= q < 2 ^ 54 -> -1000 <= e <= 900 ->
  binary_round_aux prec emax false q e l =
    binary_round_aux prec emax false (q / 2) (e + 1)
      (if Z.even q then match l with loc_Exact => loc_Exact | _ => loc_Inexact Lt end
       else match l with loc_Exact => loc_Inexact Eq | _ => loc_Inexact Gt end).
Proof.
  intros Hq He.
  assert (2 ^ 52 <= q / 2 < 2 ^ 53) as Hh by (split; [apply Z.div_le_lower_bound|apply Z.div_lt_upper_bound]; lia).
  destruct q as [|p|p]; try lia. destruct (Zpos p / 2) as [|h|h] eqn:Eh; try lia.
  set (l' := if Z.even (Zpos p) then _ else _).
  assert (shr_fexp prec emax (Zpos p) e l = (shr_record_of_loc (Zpos h) l', e + 1)) as E1.
  { unfold shr_fexp. cbn [Zdigits2].
    assert (Zpos (digits2_pos p) = 54) as -> by (apply digits2_unique; lia).
    assert (fexp prec emax (54 + e) - e = 1) as -> by (unfold fexp, emin, prec, emax; lia).
    cbn [shr iter_pos]. f_equal. subst l'. destruct p as [p|p|]; [| |lia].
    - assert (h = p) as -> by (rewrite <- Z.div2_div in Eh; cbn in Eh; congruence). by destruct l as [|[]].
    - assert (h = p) as -> by (rewrite <- Z.div2_div in Eh; cbn in Eh; congruence). by destruct l as [|[]]. }
  assert (shr_fexp prec emax (Zpos h) (e + 1) l' = (shr_record_of_loc (Zpos h) l', e + 1)) as E2.
  { unfold shr_fexp. cbn [Zdigits2].
    assert (Zpos (digits2_pos h) = 53) as -> by (apply digits2_unique; lia).
    by assert (fexp prec emax (53 + (e + 1)) - (e + 1) = 0) as -> by (unfold fexp, emin, prec, emax; lia). }
  unfold binary_round_aux. by rewrite E1, E2.
Qed.

(** [v = m * 2^e] is a double nearest to [n / d]. *)
Definition nearest (n : Z) (d : positive) (m : positive) (k : Z) : Prop :=
  2 ^ 52 <= Zpos m < 2 ^ 53 /\ 2 * Z.abs (Zpos m * Zpos d - n * 2 ^ k) <= Zpos d.

Lemma round_location q d r :
  0 <= r < Zpos d ->
  2 * Z.abs (round_nearest_even q (new_location (Zpos d) r) * Zpos d - (q * Zpos d + r)) <= Zpos d.
Proof.
  intros Hr. unfold new_location, new_location_even, new_location_odd.
  pose proof (Z.odd_spec (Zpos d)) as Ho. rewrite <- Z.negb_even in Ho.
  destruct (Z.even (Zpos d)) eqn:Ev; destruct (Z.eqb_spec r 0) as [->|Hr0]; cbn [round_nearest_even]; try lia.
  - destruct (Z.compare_spec (2 * r) (Zpos d)); cbn [round_nearest_even]; try destruct (Z.even q); lia.
  - destruct (proj1 Ho eq_refl) as [h Hh].
    destruct (Z.compare_spec (2 * r + 1) (Zpos d)); cbn [round_nearest_even]; lia.
Qed.

Lemma round_location_odd q d r :
  0 <= r < Zpos d ->
  let l := if Z.even q then match new_location (Zpos d) r with loc_Exact => loc_Exact | _ => loc_Inexact Lt end
           else match new_location (Zpos d) r with loc_Exact => loc_Inexact Eq | _ => loc_Inexact Gt end in
  Z.abs (2 * round_nearest_even (q / 2) l * Zpos d - (q * Zpos d + r)) <= Zpos d.
Proof.
  intros Hr. cbn zeta.
  assert (match new_location (Zpos d) r with loc_Exact => r = 0 | _ => 0 < r end) as Hl.
  { unfold new_location, new_location_even, new_location_odd.
    destruct (Z.even (Zpos d)); destruct (Z.eqb_spec r 0); lia. }
  pose proof (Z.div_mod q 2 ltac:(lia)) as Hq. rewrite Zmod_even in Hq.
  destruct (new_location (Zpos d) r), (Z.even q); cbn [round_nearest_even];
    try destruct (Z.even (q / 2)); nia.
Qed.

Lemma float_ratio_nearest (n d : positive) :
  Zpos n <= 2 ^ 51 * Zpos d -> Zpos d <= 2 ^ 900 * Zpos n ->
  exists m k, float_ratio (Zpos n) d = S754_finite false m (- k) /\ 0 <= k /\ nearest (Zpos n) d m k.
Proof.
  intros Hhi Hlo. unfold float_ratio, SFdiv_core_binary. cbn [Zdigits2].
  pose proof (digits2_bounds n) as Hn. pose proof (digits2_bounds d) as Hd.
  set (dn := Zpos (digits2_pos n)) in *. set (dd := Zpos (digits2_pos d)) in *.
  assert (dn - 1 < 51 + dd) as B1.
  { apply (Z.pow_lt_mono_r_iff 2); [lia|lia|].
    rewrite Z.pow_add_r by lia. nia. }
  assert (dd - 1 < 900 + dn) as B2.
  { apply (Z.pow_lt_mono_r_iff 2); [lia|lia|].
    rewrite Z.pow_add_r by lia. nia. }
  assert (Z.min (fexp prec emax (dn + 0 - (dd + 0))) (0 - 0) = - (53 - dn + dd)) as ->.
  { unfold fexp, emin, prec, emax. lia. }
  set (k := 53 - dn + dd). assert (1 < k < 954) as Hk by lia.
  assert (0 - 0 - - k = k) as -> by lia.
  destruct k as [|k'|k'] eqn:Ek; try lia. rewrite Z.shiftl_mul_pow2 by lia. rewrite <- Ek in *.
  pose proof (Z_div_mod (Zpos n * 2 ^ k) (Zpos d) ltac:(lia)) as Hdm.
  destruct (Z.div_eucl (Zpos n * 2 ^ k) (Zpos d)) as [q r]. destruct Hdm as [Hdm Hr].
  rewrite (Z.mul_comm (Zpos d) q) in Hdm.
  assert (2 ^ 52 <= q < 2 ^ 54) as Hq.
  { assert (Zpos n * 2 ^ k < 2 ^ 54 * 2 ^ (dd - 1)) as U.
    { rewrite <- Z.pow_add_r by lia. replace (54 + (dd - 1)) with (dn + k) by lia.
      rewrite Z.pow_add_r by lia. nia. }
    assert (2 ^ 52 * 2 ^ dd <= Zpos n * 2 ^ k) as L.
    { rewrite <- Z.pow_add_r by lia. replace (52 + dd) with (dn - 1 + k) by lia.
      rewrite Z.pow_add_r by lia. nia. }
    generalize dependent (2 ^ k). generalize dependent (2 ^ dd). generalize dependent (2 ^ (dd - 1)).
    intros; split; nia. }
  assert (forall m e, 2 * Z.abs (m * Zpos d - Zpos n * 2 ^ (- e)) <= Zpos d -> 2 ^ 52 <= m <= 2 ^ 53 ->
    - 954 < e < 0 ->
    exists m' k', (if m =? 2 ^ 53 then S754_finite false (2 ^ 52) (e + 1) else S754_finite false (Z.to_pos m) e)
      = S754_finite false m' (- k') /\ 0 <= k' /\ nearest (Zpos n) d m' k') as Hfin.
  { intros m e Hm Hb He. destruct (Z.eqb_spec m (2 ^ 53)) as [->|Hne].
    - exists (2 ^ 52)%positive, (- e - 1). split; [f_equal; lia|]. split; [lia|]. split; [lia|].
      replace (2 ^ - e) with (2 * 2 ^ (- e - 1)) in Hm
        by (rewrite <- Z.pow_succ_r by lia; f_equal; lia). lia.
    - exists (Z.to_pos m), (- e). split; [f_equal; lia|]. split; [lia|].
      unfold nearest. rewrite Z2Pos.id by lia. split; [lia|exact Hm]. }
  destruct (Z_lt_le_dec q (2 ^ 53)) as [Hs|Hs].
  - rewrite round_aux_53 by lia. cbn zeta. apply Hfin; [| |lia].
    + rewrite Z.opp_involutive, Hdm. by apply round_location.
    + destruct (new_location (Zpos d) r) as [|[]]; cbn [round_nearest_even]; try destruct (Z.even q); lia.
  - assert (2 ^ 52 <= q / 2 < 2 ^ 53) by (split; [apply Z.div_le_lower_bound|apply Z.div_lt_upper_bound]; lia).
    rewrite round_aux_54, round_aux_53 by lia. cbn zeta. apply Hfin; [| |lia].
    + pose proof (round_location_odd q d r Hr) as Hl. cbn zeta in Hl.
      match goal with |- context [round_nearest_even ?a ?b] => set (m := round_nearest_even a b) in * end.
      replace (- (- k + 1)) with (k - 1) by lia.
      replace (2 ^ k) with (2 * 2 ^ (k - 1)) in Hdm by (rewrite <- Z.pow_succ_r by lia; f_equal; lia). lia.
    + match goal with |- context [round_nearest_even ?a ?b] => destruct b as [|[]] end;
        cbn [round_nearest_even]; try destruct (Z.even (q / 2)); lia.
Qed.

Lemma float_exact_neg m k : 0 <= k -> exists d, float_exact m (- k) = (Zpos m, d) /\ Zpos d = 2 ^ k.
Proof.
  intros Hk. destruct k as [|k|k]; [| |lia].
  - by exists 1%positive.
  - exists (2 ^ k)%positive. split; [done|]. by rewrite Pos2Z.inj_pow.
Qed.

(** The quotient of integers that divide is the integer, up to [2^51]. *)
Lemma float_ratio_int (c d : positive) :
  Zpos c <= 2 ^ 51 ->
  exists m k e, float_ratio (Zpos c * Zpos d) d = S754_finite false m (- k)
    /\ float_exact m (- k) = (Zpos c * Zpos e, e).
Proof.
  intros Hc. assert (Zpos d <= Zpos (c * d)) as Hcd by (rewrite Pos2Z.inj_mul; nia).
  destruct (float_ratio_nearest (c * d) d) as (m & k & E & Hk & _ & Hn).
  - rewrite Pos2Z.inj_mul. apply Z.mul_le_mono_nonneg_r; lia.
  - transitivity (1 * Zpos (c * d)); [lia|]. apply Z.mul_le_mono_nonneg_r; lia.
  - destruct (float_exact_neg m k Hk) as (e & Ee & He). exists m, k, e. split; [exact E|].
    rewrite Ee. f_equal. rewrite He. rewrite Pos2Z.inj_mul in Hn.
    generalize dependent (2 ^ k). intros. nia.
Qed.

(** Rounding a duration to a double does not carry it over a whole period. *)
Lemma floor_unmoved m g u s P :
  0 < P -> 0 < u -> 2 * Z.abs (m * u - g * s) <= u -> u < 2 * s ->
  m / (P * s) = g / (P * u).
Proof.
  intros HP Hu Hm Hs.
  pose proof (Z.mul_div_le g (P * u) ltac:(nia)) as L.
  pose proof (Z.mul_succ_div_gt g (P * u) ltac:(nia)) as U.
  set (q := g / (P * u)) in *. clearbody q. symmetry.
  apply Z.div_unique_pos with (m - P * s * q); [|ring].
  assert (0 < s) by lia.
  assert (q * P * s - 1 < m).
  { apply (Z.mul_lt_mono_pos_r u); [lia|]. assert (q * (P * u) * s <= g * s) by (apply Z.mul_le_mono_nonneg_r; lia). lia. }
  assert (m < (q + 1) * P * s).
  { apply (Z.mul_lt_mono_pos_r u); [lia|].
    assert ((g + 1) * s <= P * u * Z.succ q * s) by (apply Z.mul_le_mono_nonneg_r; lia). lia. }
  lia.
Qed.

(** A duration of [g] microseconds as [total_seconds()] gives it, divided by
    whole seconds: exact for durations under [2^33] seconds (272 years). *)
Lemma floordiv_seconds g (P : positive) :
  0 <= g < 2 ^ 33 * 1000000 -> Zpos P <= 2 ^ 51 ->
  float_floordiv (float_ratio g 1000000) (float_ratio (Zpos P * 1000000) 1000000) = Some (g / (Zpos P * 1000000)).
Proof.
  intros Hg HP.
  destruct (float_ratio_int P 1000000 HP) as (my & ky & yd & Ey & Xy).
  rewrite Ey. destruct g as [|g|g]; [by rewrite Zdiv_0_l| |lia].
  destruct (float_ratio_nearest g 1000000) as (mx & kx & Ex & Hkx & Hmx & Hx); [lia..|].
  destruct (float_exact_neg mx kx Hkx) as (xd & Xx & Hxd).
  rewrite Ex. unfold float_floordiv. rewrite Xx, Xy.
  assert (Zpos mx * Zpos yd / (Zpos P * Zpos yd * Zpos xd) = Zpos g / (Zpos P * 1000000)) as ->.
  { rewrite <- (Z.mul_assoc (Zpos P)), (Z.mul_comm (Zpos yd)), Z.mul_assoc, Z.div_mul_cancel_r by lia.
    rewrite Hxd. apply floor_unmoved; [lia|lia|exact Hx|].
    destruct (Z_lt_le_dec kx 19) as [Hs|Hs].
    - assert (2 ^ kx <= 2 ^ 18) by (apply Z.pow_le_mono_r; lia). nia.
    - assert (2 ^ 19 <= 2 ^ kx) by (apply Z.pow_le_mono_r; lia). lia. }
  set (q := Zpos g / (Zpos P * 1000000)).
  assert (0 <= q /\ q * Zpos P <= 2 ^ 33) as [Hq0 Hq].
  { pose proof (Z.mul_div_le (Zpos g) (Zpos P * 1000000) ltac:(lia)). fold q in H.
    split; [apply Z.div_pos; lia|nia]. }
  clearbody q. destruct (Z.eqb_spec q 0) as [->|Hqn]; [done|].
  destruct q as [|q|q]; try lia.
  rewrite Z.mul_assoc.
  destruct (float_ratio_int (q * P) yd) as (ma & ka & ad & Ea & Xa); [lia|].
  rewrite Pos2Z.inj_mul in Ea, Xa. rewrite Ea, Xa.
  replace (Zpos q * Zpos P * Zpos ad * Zpos yd)
    with (Zpos q * Zpos (ad * Z.to_pos (Zpos P * Zpos yd))) by (rewrite Pos2Z.inj_mul, Z2Pos.id by lia; ring).
  destruct (float_ratio_int q (ad * Z.to_pos (Zpos P * Zpos yd))) as (mq & kq & qd & Eq & Xq); [nia|].
  rewrite Eq, Xq, Z.div_mul by lia. rewrite Z.sub_diag. done.
Qed.
