(* ===== verification/PyStr.v ===== *)
(** * Python strings

    A [str] is the list of its code points. Character classes and case
    mapping are exact on Latin-1 (code points below 256) and the identity
    beyond it; whitespace and line boundaries are complete. *)
From stdpp Require Export strings.
From Stdlib Require Import SpecFloat.
From S2P Require Import Prelude PyFloat.
Open Scope Z_scope.

Notation pystr := (list Z).

(** ** Literals: [u "..."] decodes the UTF-8 bytes of a Rocq string *)

Fixpoint utf8_decode (bs : list Z) : pystr :=
  match bs with
  | [] => []
  | b :: r =>
      if b <? 128 then b :: utf8_decode r
      else if b <? 224 then
        match r with
        | b1 :: r' => ((b - 192) * 64 + (b1 - 128)) :: utf8_decode r'
        | _ => [65533]
        end
      else if b <? 240 then
        match r with
        | b1 :: b2 :: r' =>
            ((b - 224) * 4096 + (b1 - 128) * 64 + (b2 - 128)) :: utf8_decode r'
        | _ => [65533]
        end
      else
        match r with
        | b1 :: b2 :: b3 :: r' =>
            ((b - 240) * 262144 + (b1 - 128) * 4096 + (b2 - 128) * 64 + (b3 - 128))
              :: utf8_decode r'
        | _ => [65533]
        end
  end.

Definition u (s : string) : pystr :=
  utf8_decode (map (fun c => Z.of_N (Ascii.N_of_ascii c)) (String.list_ascii_of_string s)).
Arguments u s%_string.

Definition ch (s : string) : Z := default 0 (head (u s)).
Arguments ch s%_string.

Definition str_eqb (a b : pystr) : bool := bool_decide (a = b).

(** String order, by code point. *)
Fixpoint str_ltb (a b : pystr) : bool :=
  match a, b with
  | _, [] => false
  | [], _ :: _ => true
  | x :: a', y :: b' => (x <? y) || ((x =? y) && str_ltb a' b')
  end.

(** ** Character classes *)

Definition is_decimal (c : Z) : bool := (48 <=? c) && (c <=? 57).
(** [str.isdigit] also accepts the superscript digits. *)
Definition is_digit (c : Z) : bool :=
  is_decimal c || (c =? 178) || (c =? 179) || (c =? 185).
Definition is_ascii_upper (c : Z) : bool := (65 <=? c) && (c <=? 90).
Definition is_ascii_lower (c : Z) : bool := (97 <=? c) && (c <=? 122).
Definition is_latin1_alpha (c : Z) : bool :=
  is_ascii_upper c || is_ascii_lower c || (c =? 170) || (c =? 181) || (c =? 186)
  || ((192 <=? c) && (c <=? 255) && negb (c =? 215) && negb (c =? 247)).
Definition is_alnum (c : Z) : bool :=
  is_latin1_alpha c || is_digit c || ((188 <=? c) && (c <=? 190)).
(** [\w] *)
Definition is_word (c : Z) : bool := is_alnum c || (c =? 95).

Definition is_space (c : Z) : bool :=
  ((9 <=? c) && (c <=? 13)) || ((28 <=? c) && (c <=? 32)) || (c =? 133) || (c =? 160)
  || (c =? 5760) || ((8192 <=? c) && (c <=? 8202)) || (c =? 8232) || (c =? 8233)
  || (c =? 8239) || (c =? 8287) || (c =? 12288).

Definition is_line_break (c : Z) : bool :=
  ((10 <=? c) && (c <=? 13)) || ((28 <=? c) && (c <=? 30)) || (c =? 133)
  || (c =? 8232) || (c =? 8233).

(** ** Case *)

Definition upper_char (c : Z) : pystr :=
  if is_ascii_lower c then [c - 32]
  else if ((224 <=? c) && (c <=? 254) && negb (c =? 247)) then [c - 32]
  else if c =? 223 then [83; 83]
  else if c =? 255 then [376]
  else if c =? 181 then [924]
  else [c].

Definition lower_char (c : Z) : Z :=
  if is_ascii_upper c then c + 32
  else if ((192 <=? c) && (c <=? 222) && negb (c =? 215)) then c + 32
  else c.

Definition upper (s : pystr) : pystr := mjoin (upper_char <$> s).
Definition lower (s : pystr) : pystr := lower_char <$> s.

(** ** Methods *)

Fixpoint lstrip_by (p : Z -> bool) (s : pystr) : pystr :=
  match s with
  | c :: s' => if p c then lstrip_by p s' else s
  | [] => []
  end.
Definition rstrip_by (p : Z -> bool) (s : pystr) : pystr := rev (lstrip_by p (rev s)).
Definition strip_by (p : Z -> bool) (s : pystr) : pystr := rstrip_by p (lstrip_by p s).
Definition strip : pystr -> pystr := strip_by is_space.
Definition rstrip : pystr -> pystr := rstrip_by is_space.
(** [s.strip(chars)] *)
Definition strip_chars (chars s : pystr) : pystr :=
  strip_by (fun c => bool_decide (c ∈ chars)) s.
Definition rstrip_chars (chars s : pystr) : pystr :=
  rstrip_by (fun c => bool_decide (c ∈ chars)) s.
Definition lstrip_chars (chars s : pystr) : pystr :=
  lstrip_by (fun c => bool_decide (c ∈ chars)) s.

Fixpoint startswith (s p : pystr) {struct p} : bool :=
  match p, s with
  | [], _ => true
  | a :: p', b :: s' => (a =? b) && startswith s' p'
  | _ :: _, [] => false
  end.
Definition endswith (s p : pystr) : bool := startswith (rev s) (rev p).

(** [s.find(p)], as the number of characters before the first occurrence. *)
Fixpoint find (p s : pystr) : option nat :=
  if startswith s p then Some O
  else match s with
       | [] => None
       | _ :: s' => S <$> find p s'
       end.
(** [p in s] *)
Definition contains (p s : pystr) : bool := bool_decide (is_Some (find p s)).

Definition nonempty (s : pystr) : bool := match s with [] => false | _ => true end.

(** [s.split()] *)
Fixpoint words_aux (acc s : pystr) : list pystr :=
  match s with
  | [] => if nonempty acc then [acc] else []
  | c :: s' =>
      if is_space c then (if nonempty acc then [acc] else []) ++ words_aux [] s'
      else words_aux (acc ++ [c]) s'
  end.
Definition words (s : pystr) : list pystr := words_aux [] s.

(** [s.split(c)] for a one-character separator. *)
Fixpoint split_char_aux (sep : Z) (acc s : pystr) : list pystr :=
  match s with
  | [] => [acc]
  | c :: s' =>
      if c =? sep then acc :: split_char_aux sep [] s'
      else split_char_aux sep (acc ++ [c]) s'
  end.
Definition split_char (sep : Z) (s : pystr) : list pystr := split_char_aux sep [] s.

Fixpoint splitlines_aux (cr : bool) (acc s : pystr) : list pystr :=
  match s with
  | [] => if nonempty acc then [acc] else []
  | c :: s' =>
      if cr && (c =? 10) then splitlines_aux false acc s'
      else if is_line_break c then
        (* a line feed after a carriage return belongs to the same break *)
        acc :: splitlines_aux (c =? 13) [] s'
      else splitlines_aux false (acc ++ [c]) s'
  end.
Definition splitlines (s : pystr) : list pystr := splitlines_aux false [] s.

Fixpoint join (sep : pystr) (l : list pystr) : pystr :=
  match l with
  | [] => []
  | [s] => s
  | s :: l' => s ++ sep ++ join sep l'
  end.

(** [s.replace(p, r)] for a non-empty [p]; [skip] counts the characters of a
    match still to be consumed. *)
Fixpoint replace_aux (p r : pystr) (skip : nat) (s : pystr) : pystr :=
  match s with
  | [] => []
  | c :: s' =>
      match skip with
      | S k => replace_aux p r k s'
      | O => if startswith s p then r ++ replace_aux p r (length p - 1) s'
             else c :: replace_aux p r 0 s'
      end
  end.
Definition replace (p r s : pystr) : pystr := replace_aux p r 0 s.

Definition ljust (w : Z) (c : Z) (s : pystr) : pystr :=
  s ++ repeat c (Z.to_nat (w - zlen s)).
Definition rjust (w : Z) (c : Z) (s : pystr) : pystr :=
  repeat c (Z.to_nat (w - zlen s)) ++ s.

Definition isdigit (s : pystr) : bool := nonempty s && forallb is_digit s.

(** ** Numbers *)

Fixpoint dec_aux (fuel : nat) (n : Z) (acc : pystr) : pystr :=
  match fuel with
  | O => acc
  | S f =>
      let acc := (48 + n mod 10) :: acc in
      if n <? 10 then acc else dec_aux f (n / 10) acc
  end.
(** Decimal digits of [n >= 0]; [log2 n + 1] digits always suffice. *)
Definition dec (n : Z) : pystr := dec_aux (S (Z.to_nat (Z.log2 n))) n [].
Definition str_of_Z (n : Z) : pystr := if n <? 0 then u "-" ++ dec (- n) else dec n.

(** A run of decimal digits in which single underscores may separate digits.
    [us] says the last character was not a digit. *)
Fixpoint digits_aux (acc : Z) (us : bool) (s : pystr) : option Z :=
  match s with
  | [] => if us then None else Some acc
  | c :: s' =>
      if is_decimal c then digits_aux (10 * acc + (c - 48)) false s'
      else if (c =? 95) && negb us then digits_aux acc true s'
      else None
  end.
Definition digits (s : pystr) : option Z := digits_aux 0 true s.

Definition take_sign (s : pystr) : bool * pystr :=
  match s with
  | c :: s' => if c =? 45 then (true, s') else if c =? 43 then (false, s') else (false, s)
  | [] => (false, s)
  end.

(** [int(s)]; [None] is ValueError. *)
Definition parse_int (s : pystr) : option Z :=
  let '(neg, d) := take_sign (strip s) in
  (fun n => if neg : bool then - n else n) <$> digits d.

Fixpoint span (p : Z -> bool) (s : pystr) : pystr * pystr :=
  match s with
  | c :: s' => if p c then (c :: (span p s').1, (span p s').2) else ([], s)
  | [] => ([], [])
  end.

Definition decimal_float (neg : bool) (m e : Z) : float :=
  let x := if 0 <=? e then float_ratio (m * 10 ^ e) 1
           else float_ratio m (Z.to_pos (10 ^ (- e))) in
  if neg then SFopp x else x.

Definition is_digit_us (c : Z) : bool := is_decimal c || (c =? 95).

(** [float(s)]; [None] is ValueError. *)
Definition parse_float (s : pystr) : option float :=
  let '(neg, d) := take_sign (strip s) in
  let low := lower d in
  if bool_decide (low ∈ [u "inf"; u "infinity"]) then Some (S754_infinity neg)
  else if bool_decide (low = u "nan") then Some S754_nan
  else
    let '(ip, r) := span is_digit_us d in
    let '(fp, r) := match r with
      | c :: r' => if c =? 46 then span is_digit_us r' else ([], r)
      | [] => ([], r)
      end in
    let part p := if nonempty p then digits p else Some 0 in
    if nonempty ip || nonempty fp then
      i ← part ip; f ← part fp;
      let nf := Z.of_nat (length (List.filter is_decimal fp)) in
      let m := i * 10 ^ nf + f in
      match r with
      | [] => Some (decimal_float neg m (- nf))
      | c :: r' =>
          if (c =? 101) || (c =? 69) then
            let '(eneg, ed) := take_sign r' in
            e ← digits ed;
            Some (decimal_float neg m ((if eneg : bool then - e else e) - nf))
          else None
      end
    else None.

(** ["%.kf"] *)
Definition fmt_fixed (k : Z) (x : float) : pystr :=
  let body s n :=
    (if s : bool then u "-" else []) ++ dec (n / 10 ^ k)
    ++ (if k =? 0 then [] else u "." ++ rjust k 48 (dec (n mod 10 ^ k))) in
  match x with
  | S754_nan => u "nan"
  | S754_infinity s => if s then u "-inf" else u "inf"
  | S754_zero s => body s 0
  | S754_finite s m e => body s (float_scaled k m e)
  end.

(** [n / d] scaled by [10^k] and rounded half-even. *)
Definition scale10 (n : Z) (d : positive) (k : Z) : Z :=
  if 0 <=? k then round_half_even (n * 10 ^ k) d
  else round_half_even n (d * Z.to_pos (10 ^ (- k))).

(** The decimal exponent of [n / d > 0]. *)
Definition exp10 (n : Z) (d : positive) : Z :=
  if Zpos d <=? n then zlen (dec (n / Zpos d)) - 1
  else - Z.of_nat (length (fst (span (fun k => n * 10 ^ k <? Zpos d) (seqZ 0 400)))).

Definition strip_zeros (s : pystr) : pystr := rstrip_chars (u ".") (rstrip_chars (u "0") s).

(** ["%g"]: six significant digits, trailing zeros dropped. *)
Definition fmt_g (x : float) : pystr :=
  match x with
  | S754_nan => u "nan"
  | S754_infinity s => if s then u "-inf" else u "inf"
  | S754_zero s => if s then u "-0" else u "0"
  | S754_finite s m ex =>
      let '(n, d) := float_exact m ex in
      let e := exp10 n d in
      let digits := scale10 n d (5 - e) in
      let '(digits, e) := if digits =? 10 ^ 6 then (10 ^ 5, e + 1) else (digits, e) in
      (if s then u "-" else []) ++
      if (-4 <=? e) && (e <? 6) then
        let k := 5 - e in
        let body := dec (digits / 10 ^ k) ++ u "." ++ rjust k 48 (dec (digits mod 10 ^ k)) in
        strip_zeros body
      else
        strip_zeros (dec (digits / 10 ^ 5) ++ u "." ++ rjust 5 48 (dec (digits mod 10 ^ 5)))
        ++ u "e" ++ (if e <? 0 then u "-" else u "+") ++ rjust 2 48 (dec (Z.abs e))
  end.

Lemma span_app p w s :
  Forall (fun c => p c = true) w -> match s with c :: _ => p c | [] => false end = false ->
  span p (w ++ s) = (w, s).
Proof.
  intros Hw Hs. induction Hw as [|c w Hc Hw IH]; cbn.
  - destruct s as [|c s]; [done|]. cbn. by rewrite Hs.
  - by rewrite Hc, IH.
Qed.

Lemma span_spec p s :
  s = (span p s).1 ++ (span p s).2 /\ Forall (fun c => p c = true) (span p s).1.
Proof.
  induction s as [|c s [IH1 IH2]]; cbn; [by split|].
  destruct (p c) eqn:Hc; cbn; [|by split]. split; [congruence|by constructor].
Qed.

Lemma nonempty_true s : nonempty s = true <-> s <> [].
Proof. by destruct s. Qed.

(** Words of a copy are split at each space. *)
Lemma words_aux_space acc a b :
  words_aux acc (a ++ 32 :: b) = words_aux acc (a ++ [32]) ++ words b.
Proof.
  revert acc. induction a as [|c a IH]; intros acc; cbn [app words_aux].
  - change (is_space 32) with true. cbn [words_aux]. by rewrite app_nil_r.
  - destruct (is_space c); rewrite IH; [by rewrite app_assoc|done].
Qed.

Notation no_space w := (Forall (fun c => is_space c = false) w).

Lemma words_aux_word acc w : no_space w -> words_aux acc (w ++ [32]) = if nonempty (acc ++ w) then [acc ++ w] else [].
Proof.
  intros Hw. revert acc. induction Hw as [|c w Hc Hw IH]; intros acc; cbn [app words_aux].
  - change (is_space 32) with true. cbn [words_aux]. by rewrite !app_nil_r.
  - rewrite Hc, IH. by rewrite <- app_assoc.
Qed.

(** A word and the space that completes it. *)
Lemma words_snoc_word a w :
  a = [] \/ last a = Some 32 -> no_space w ->
  words (a ++ w ++ [32]) = words a ++ (if nonempty w then [w] else []).
Proof.
  intros Ha Hw. unfold words. destruct Ha as [->|Ha].
  - cbn [app]. by rewrite words_aux_word.
  - apply last_Some in Ha as [a' ->]. rewrite <- app_assoc. cbn [app].
    rewrite words_aux_space. unfold words. by rewrite (words_aux_word [] w).
Qed.

Lemma lstrip_no_space w : no_space w -> lstrip_by is_space w = w.
Proof. intros Hw. destruct Hw as [|c v Hc _]; cbn [lstrip_by]; [done|]. by rewrite Hc. Qed.

Lemma strip_no_space w : no_space w -> strip w = w.
Proof.
  intros Hw. unfold strip, strip_by, rstrip_by. rewrite (lstrip_no_space w) by done.
  rewrite lstrip_no_space; [apply rev_involutive|]. by apply List.Forall_rev.
Qed.

(** ** Decimal digits round trip *)

Lemma dec_aux_spec f n acc :
  0 <= n < 10 ^ Z.of_nat f ->
  exists ds, dec_aux f n acc = ds ++ acc /\ (f <> O -> ds <> []) /\ Forall (fun c => is_decimal c = true) ds
    /\ forall a us, f <> O ->
         digits_aux a us (ds ++ acc) = digits_aux (a * 10 ^ zlen ds + n) false acc.
Proof.
  revert n acc. induction f as [|f IH]; intros n acc Hn.
  { exists []. cbn in *. by split_and!. }
  cbn [dec_aux]. set (d := 48 + n mod 10).
  pose proof (Z.mod_pos_bound n 10 ltac:(lia)) as Hm. pose proof (Z.div_mod n 10 ltac:(lia)) as Hd.
  assert (is_decimal d = true) as Hdec by (subst d; unfold is_decimal; lia).
  assert (forall a us, digits_aux a us (d :: acc) = digits_aux (a * 10 + n mod 10) false acc) as Hstep.
  { intros a us. cbn [digits_aux]. rewrite Hdec. f_equal. subst d. lia. }
  destruct (Z.ltb_spec n 10) as [Hlt|Hge].
  - exists [d]. cbn [app]. split_and!; try done; [by constructor|]. intros a us _. rewrite Hstep.
    f_equal. change (10 ^ zlen [d]) with 10. rewrite (Z.mod_small n 10) by lia. done.
  - rewrite Nat2Z.inj_succ, Z.pow_succ_r in Hn by lia.
    assert (0 <= n / 10 < 10 ^ Z.of_nat f) as Hq by (split; [apply Z.div_pos; lia|apply Z.div_lt_upper_bound; lia]).
    destruct (IH (n / 10) (d :: acc) Hq) as (ds & -> & Hne & Hall & Hval).
    assert (f <> O) as Hf by (intros ->; cbn in Hq; lia).
    exists (ds ++ [d]). rewrite <- app_assoc. split_and!.
    + done.
    + intros _. by destruct ds.
    + apply Forall_app. split; [done|]. by constructor.
    + intros a us _. cbn [app]. rewrite Hval by done. rewrite Hstep. f_equal.
      unfold zlen. rewrite length_app. cbn [length]. rewrite Nat2Z.inj_add, Z.pow_add_r by lia.
      change (10 ^ Z.of_nat 1) with 10. lia.
Qed.

Lemma dec_spec n :
  0 <= n -> dec n <> [] /\ Forall (fun c => is_decimal c = true) (dec n) /\ digits (dec n) = Some n.
Proof.
  intros Hn. unfold dec. set (f := S _).
  assert (n < 10 ^ Z.of_nat f) as Hlt.
  { subst f. rewrite Nat2Z.inj_succ, Z2Nat.id by apply Z.log2_nonneg.
    destruct (Z.eq_dec n 0) as [->|]; [cbn; lia|].
    pose proof (Z.log2_spec n ltac:(lia)) as [_ H2]. pose proof (Z.log2_nonneg n).
    eapply Z.lt_le_trans; [exact H2|]. apply Z.pow_le_mono_l. lia. }
  destruct (dec_aux_spec f n [] ltac:(lia)) as (ds & -> & Hne & Hall & Hval).
  rewrite app_nil_r in *. split_and!; [by apply Hne|done|]. unfold digits.
  specialize (Hval 0 true ltac:(done)). rewrite Hval. done.
Qed.

Lemma decimal_no_space c : is_decimal c = true -> is_space c = false.
Proof. unfold is_decimal, is_space. lia. Qed.

Lemma parse_int_digits ds n :
  ds <> [] -> Forall (fun c => is_decimal c = true) ds -> digits ds = Some n -> parse_int ds = Some n.
Proof.
  intros Hne Hall Hn. unfold parse_int. rewrite strip_no_space.
  2: { eapply Forall_impl; [exact Hall|]. apply decimal_no_space. }
  destruct ds as [|c ds]; [done|]. apply Forall_cons in Hall as [Hc _].
  unfold take_sign. unfold is_decimal in Hc. bool_to_prop.
  rewrite (proj2 (Z.eqb_neq c 45)), (proj2 (Z.eqb_neq c 43)) by lia. by rewrite Hn.
Qed.

Lemma parse_int_dec n : 0 <= n -> parse_int (dec n) = Some n.
Proof. intros (Hne & Hall & Hd)%dec_spec. by apply parse_int_digits. Qed.

Lemma slice_from_app (p s : pystr) : slice_from (zlen p) (p ++ s) = s.
Proof. unfold slice_from, zlen. rewrite Nat2Z.id. apply drop_app_length. Qed.

Lemma slice_to_app (p s : pystr) : slice_to (zlen p) (p ++ s) = p.
Proof. unfold slice_to, zlen. rewrite Nat2Z.id. apply take_app_length. Qed.

Lemma startswith_app p s : startswith (p ++ s) p = true.
Proof. induction p as [|c p IH]; [by destruct s|]. cbn. by rewrite Z.eqb_refl. Qed.

(** ** Case mapping settles after one pass *)

Lemma upper_char_upper c : upper (upper_char c) = upper_char c.
Proof.
  unfold upper_char, is_ascii_lower.
  assert (forall d, ((97 <=? d) && (d <=? 122) = false) -> ((224 <=? d) && (d <=? 254) && negb (d =? 247) = false) ->
    d <> 223 -> d <> 255 -> d <> 181 -> upper [d] = [d]) as Hfix.
  { intros d H1 H2 H3 H4 H5. unfold upper. cbn [fmap list_fmap]. unfold upper_char, is_ascii_lower. rewrite H1, H2.
    rewrite !(proj2 (Z.eqb_neq _ _)) by done. done. }
  repeat case_match; bool_to_prop; subst; try done; apply Hfix; lia.
Qed.

Lemma upper_app s s' : upper (s ++ s') = upper s ++ upper s'.
Proof. unfold upper. by rewrite fmap_app, join_app. Qed.

Lemma upper_upper s : upper (upper s) = upper s.
Proof.
  induction s as [|c s IH]; [done|]. change (upper (c :: s)) with (upper_char c ++ upper s).
  by rewrite upper_app, IH, upper_char_upper.
Qed.

Lemma upper_nonempty s : s <> [] -> upper s <> [].
Proof.
  destruct s as [|c s]; [done|]. intros _. change (upper (c :: s)) with (upper_char c ++ upper s).
  unfold upper_char. by repeat case_match.
Qed.
