(* ===== verification/Regex.v ===== *)
(** * The fragment of Python's [re] the program uses

    Every repetition in the program's patterns is of a single character class,
    so the backtracking matcher is structurally recursive. [run] is the
    declarative reading of a pattern; [exec] is the engine, which tries
    alternatives in Python's order. Groups are recorded with the text they
    matched, last match first. *)
From S2P Require Import Prelude PyFloat PyStr.
Open Scope Z_scope.

Notation groups := (list (nat * pystr)).

Inductive regex : Type :=
| REmpty
| RClass (p : Z -> bool)
| RRep (greedy : bool) (p : Z -> bool) (lo : nat) (hi : option nat)
| RSeq (a b : regex)
| RAlt (a b : regex)
| RGroup (n : nat) (a : regex)
| RBound.

(** Pattern pieces. *)
Definition r_char (c : Z) : regex := RClass (Z.eqb c).
Definition r_plus (p : Z -> bool) : regex := RRep true p 1 None.
Definition r_star (p : Z -> bool) : regex := RRep true p 0 None.
Definition r_opt (a : regex) : regex := RAlt a REmpty.
Fixpoint r_seq (l : list regex) : regex :=
  match l with
  | [] => REmpty
  | [a] => a
  | a :: l' => RSeq a (r_seq l')
  end.
Definition r_lit (s : pystr) : regex := r_seq (r_char <$> s).
(** A literal under [re.IGNORECASE]. *)
Definition r_lit_ci (s : pystr) : regex :=
  r_seq ((fun c => RClass (fun d => lower_char d =? lower_char c)) <$> s).

(** [\b] between the previous character and the next one. *)
Definition at_bound (prev : option Z) (s : pystr) : bool :=
  let before := match prev with Some c => is_word c | None => false end in
  let after := match s with c :: _ => is_word c | [] => false end in
  xorb before after.

Definition last_or (prev : option Z) (w : pystr) : option Z :=
  match last w with Some c => Some c | None => prev end.

(** ** The engine *)

Section Exec.
Context {X : Type}.
Implicit Types k : option Z -> pystr -> groups -> option X.

Definition orelse (a b : option X) : option X :=
  match a with Some x => Some x | None => b end.

Fixpoint exec_rep (greedy : bool) (p : Z -> bool) (lo : nat) (hi : option nat)
    (prev : option Z) (s : pystr) (g : groups) k : option X :=
  let stop := match lo with O => k prev s g | S _ => None end in
  let more :=
    match s with
    | c :: s' =>
        if p c && negb (bool_decide (hi = Some O)) then
          exec_rep greedy p (pred lo) (pred <$> hi) (Some c) s' g k
        else None
    | [] => None
    end in
  if greedy then orelse more stop else orelse stop more.

Fixpoint exec (r : regex) (prev : option Z) (s : pystr) (g : groups) k : option X :=
  match r with
  | REmpty => k prev s g
  | RClass p => match s with c :: s' => if p c then k (Some c) s' g else None | [] => None end
  | RRep greedy p lo hi => exec_rep greedy p lo hi prev s g k
  | RSeq a b => exec a prev s g (fun prev' s' g' => exec b prev' s' g' k)
  | RAlt a b => orelse (exec a prev s g k) (exec b prev s g k)
  | RGroup n a =>
      exec a prev s g (fun prev' s' g' =>
        k prev' s' ((n, take (length s - length s') s) :: g'))
  | RBound => if at_bound prev s then k prev s g else None
  end.
End Exec.

(** A match: its text, what follows it, and its groups. *)
Record rmatch := { m_text : pystr; m_rest : pystr; m_groups : groups }.

Definition match_at (r : regex) (prev : option Z) (s : pystr) : option rmatch :=
  exec r prev s [] (fun _ s' g =>
    Some {| m_text := take (length s - length s') s; m_rest := s'; m_groups := g |}).

Definition group (n : nat) (m : rmatch) : pystr :=
  default [] (snd <$> List.find (fun x => Nat.eqb (fst x) n) (m_groups m)).

(** [p.search(s)]: the offset of the leftmost match, and the match. *)
Fixpoint search_from (r : regex) (prev : option Z) (s : pystr) : option (nat * rmatch) :=
  match match_at r prev s with
  | Some m => Some (O, m)
  | None =>
      match s with
      | [] => None
      | c :: s' => (fun x => (S x.1, x.2)) <$> search_from r (Some c) s'
      end
  end.
Definition search (r : regex) (s : pystr) : option (nat * rmatch) := search_from r None s.

(** [p.fullmatch(s)]: backtracks until nothing is left over. *)
Definition fullmatch (r : regex) (s : pystr) : option rmatch :=
  exec r None s [] (fun _ s' g =>
    match s' with
    | [] => Some {| m_text := s; m_rest := []; m_groups := g |}
    | _ => None
    end).

(** [p.match(s)] *)
Definition re_match (r : regex) (s : pystr) : option rmatch := match_at r None s.

(** [p.finditer(s)]: leftmost, non-overlapping. [skip] characters belong to
    the previous match. The program's patterns never match the empty text. *)
Fixpoint finditer_aux (r : regex) (skip : nat) (prev : option Z) (s : pystr) : list rmatch :=
  match s with
  | [] => []
  | c :: s' =>
      match skip with
      | S k => finditer_aux r k (Some c) s'
      | O =>
          match match_at r prev s with
          | Some m => m :: finditer_aux r (pred (length (m_text m))) (Some c) s'
          | None => finditer_aux r 0 (Some c) s'
          end
      end
  end.
Definition finditer (r : regex) (s : pystr) : list rmatch := finditer_aux r 0 None s.
(** [p.findall(s)] for a pattern with one group. *)
Definition findall (r : regex) (s : pystr) : list pystr := group 1 <$> finditer r s.

(** ** Declarative semantics *)

Inductive run : regex -> option Z -> pystr -> groups -> option Z -> pystr -> groups -> Prop :=
| run_empty prev s g : run REmpty prev s g prev s g
| run_class p prev c s g : p c = true -> run (RClass p) prev (c :: s) g (Some c) s g
| run_rep greedy p lo hi prev w s g :
    Forall (fun c => p c = true) w ->
    (lo <= length w)%nat ->
    (forall h, hi = Some h -> length w <= h)%nat ->
    run (RRep greedy p lo hi) prev (w ++ s) g (last_or prev w) s g
| run_seq a b prev s g prev1 s1 g1 prev2 s2 g2 :
    run a prev s g prev1 s1 g1 -> run b prev1 s1 g1 prev2 s2 g2 ->
    run (RSeq a b) prev s g prev2 s2 g2
| run_alt_l a b prev s g prev1 s1 g1 :
    run a prev s g prev1 s1 g1 -> run (RAlt a b) prev s g prev1 s1 g1
| run_alt_r a b prev s g prev1 s1 g1 :
    run b prev s g prev1 s1 g1 -> run (RAlt a b) prev s g prev1 s1 g1
| run_group n a prev w s1 g prev1 g1 :
    run a prev (w ++ s1) g prev1 s1 g1 ->
    run (RGroup n a) prev (w ++ s1) g prev1 s1 ((n, w) :: g1)
| run_bound prev s g : at_bound prev s = true -> run RBound prev s g prev s g.

Lemma last_or_cons prev c w : last_or (Some c) w = last_or prev (c :: w).
Proof. unfold last_or. rewrite last_cons. by destruct (last w). Qed.

Lemma run_suffix r prev s g prev' s' g' :
  run r prev s g prev' s' g' -> exists w, s = w ++ s' /\ prev' = last_or prev w.
Proof.
  induction 1 as [|p prev c s g Hc| |a b prev s g p1 s1 g1 p2 s2 g2 _ IH1 _ IH2| | | |];
    try (exists []; done); eauto.
  - by exists [c].
  - destruct IH1 as (w1 & -> & ->), IH2 as (w2 & -> & ->).
    exists (w1 ++ w2). rewrite <- app_assoc. split; [done|].
    unfold last_or. rewrite last_app. by destruct (last w2).
Qed.

Lemma orelse_Some {X} (a b : option X) x :
  orelse a b = Some x -> a = Some x \/ b = Some x.
Proof. destruct a; cbn; auto. Qed.

Lemma orelse_is_Some {X} (a b : option X) :
  is_Some (orelse a b) <-> is_Some a \/ is_Some b.
Proof. destruct a; cbn; split; eauto; intros [[? [=]]|?]; done. Qed.

Lemma take_app_diff {A} (w s : list A) : take (length (w ++ s) - length s) (w ++ s) = w.
Proof.
  rewrite length_app. replace (length w + length s - length s)%nat with (length w) by lia.
  apply take_app_length.
Qed.

Section Soundness.
Context {X : Type}.
Implicit Types k : option Z -> pystr -> groups -> option X.

Lemma exec_rep_sound greedy p lo hi prev s g k x :
  exec_rep greedy p lo hi prev s g k = Some x ->
  exists prev' s' g', run (RRep greedy p lo hi) prev s g prev' s' g' /\ k prev' s' g' = Some x.
Proof.
  revert lo hi prev. induction s as [|c s IH]; intros lo hi prev E.
  - assert (lo = O /\ k prev [] g = Some x) as [-> Ek].
    { cbn in E. destruct greedy, lo; cbn in E; try done.
      unfold orelse in E. by case_match. }
    exists prev, [], g. split; [|done].
    apply (run_rep greedy p 0 hi prev []); [constructor|cbn; lia|cbn; lia].
  - cbn [exec_rep] in E.
    assert ((lo = O /\ k prev (c :: s) g = Some x) \/
            ((p c && negb (bool_decide (hi = Some O)))%bool = true /\
             exec_rep greedy p (pred lo) (pred <$> hi) (Some c) s g k = Some x)) as H.
    { destruct greedy; apply orelse_Some in E as [E|E];
        repeat case_match; simplify_eq; auto. }
    destruct H as [[-> Ek]|[Hc E']].
    + exists prev, (c :: s), g. split; [|done].
      apply (run_rep greedy p 0 hi prev []); [constructor|cbn; lia|cbn; lia].
    + apply andb_true_iff in Hc as [Hc Hhi].
      apply IH in E' as (prev' & s' & g' & Hr & Ek).
      exists prev', s', g'. split; [|done].
      inversion Hr as [| |? ? ? ? ? w ? ? Hw Hlo Hup| | | | |]; subst.
      rewrite (last_or_cons prev). apply (run_rep greedy p lo hi prev (c :: w)).
      * by constructor.
      * cbn. lia.
      * intros h ->. cbn in *. specialize (Hup _ eq_refl).
        case_bool_decide; [done|]. destruct h; [congruence|lia].
Qed.

(** Every match the engine reports is a match. *)
Lemma exec_sound r prev s g k x :
  exec r prev s g k = Some x ->
  exists prev' s' g', run r prev s g prev' s' g' /\ k prev' s' g' = Some x.
Proof.
  revert prev s g k x.
  induction r as [|p|gr p lo hi|a IHa b IHb|a IHa b IHb|n a IHa|];
    intros prev s g k x E; cbn in E.
  - eauto 10 using run_empty.
  - destruct s as [|c s]; [done|]. destruct (p c) eqn:?; [|done].
    eauto 10 using run_class.
  - by apply exec_rep_sound.
  - apply IHa in E as (p1 & s1 & g1 & Ha & E).
    apply IHb in E as (p2 & s2 & g2 & Hb & E). eauto 10 using run_seq.
  - apply orelse_Some in E as [E|E].
    + apply IHa in E as (? & ? & ? & ? & ?). eauto 10 using run_alt_l.
    + apply IHb in E as (? & ? & ? & ? & ?). eauto 10 using run_alt_r.
  - apply IHa in E as (p1 & s1 & g1 & Ha & E).
    destruct (run_suffix _ _ _ _ _ _ _ Ha) as (w & -> & ->).
    rewrite take_app_diff in E. eauto 10 using run_group.
  - destruct (at_bound prev s) eqn:?; [|done]. eauto 10 using run_bound.
Qed.

Lemma exec_rep_complete greedy p lo hi prev w s g k :
  Forall (fun c => p c = true) w -> (lo <= length w)%nat ->
  (forall h, hi = Some h -> length w <= h)%nat ->
  is_Some (k (last_or prev w) s g) ->
  is_Some (exec_rep greedy p lo hi prev (w ++ s) g k).
Proof.
  revert lo hi prev. induction w as [|c w IH]; intros lo hi prev Hw Hlo Hhi Hk.
  - cbn in Hlo. destruct lo; [|lia]. destruct s, greedy; cbn;
      rewrite ?orelse_is_Some; auto.
  - inversion Hw as [|? ? Hc Hw']; subst.
    assert (is_Some (exec_rep greedy p (pred lo) (pred <$> hi) (Some c) (w ++ s) g k)) as Hm.
    { apply IH; [done|cbn in Hlo; lia| |by rewrite (last_or_cons prev)].
      intros h Hh. destruct hi as [h'|]; [|done]. cbn in *. simplify_eq.
      specialize (Hhi _ eq_refl). lia. }
    cbn [exec_rep app]. rewrite Hc. case_bool_decide as Hz.
    + subst hi. specialize (Hhi _ eq_refl). cbn in Hhi. lia.
    + cbn [andb negb]. destruct greedy; rewrite orelse_is_Some; auto.
Qed.

(** If the pattern can match in a way the continuation accepts, the engine
    finds some match. *)
Lemma exec_complete r prev s g prev' s' g' k :
  run r prev s g prev' s' g' -> is_Some (k prev' s' g') -> is_Some (exec r prev s g k).
Proof.
  intros H. revert k.
  induction H; intros k Hk; cbn; rewrite ?orelse_is_Some;
    try match goal with E : _ = true |- _ => rewrite E end;
    eauto using exec_rep_complete.
  apply IHrun. by rewrite take_app_diff.
Qed.
End Soundness.

(** ** What a reported match is *)

Lemma match_at_sound r prev s m :
  match_at r prev s = Some m ->
  s = m_text m ++ m_rest m /\
  exists prev', run r prev s [] prev' (m_rest m) (m_groups m).
Proof.
  intros E. apply exec_sound in E as (prev' & s' & g' & Hr & [= <-]). cbn.
  destruct (run_suffix _ _ _ _ _ _ _ Hr) as (w & Hw & ->). rewrite Hw, take_app_diff.
  rewrite <- Hw. eauto.
Qed.

Lemma fullmatch_sound r s m :
  fullmatch r s = Some m -> exists prev', run r None s [] prev' [] (m_groups m).
Proof.
  intros E. apply exec_sound in E as (prev' & s' & g' & Hr & E').
  destruct s'; [|done]. injection E' as <-. eauto.
Qed.

Lemma finditer_aux_sound r skip prev s m :
  m ∈ finditer_aux r skip prev s ->
  exists pre prev', s = pre ++ m_text m ++ m_rest m /\
    match_at r prev' (m_text m ++ m_rest m) = Some m.
Proof.
  revert skip prev. induction s as [|c s IH]; intros skip prev Hin; cbn in Hin.
  { by apply not_elem_of_nil in Hin. }
  destruct skip as [|skip].
  - destruct (match_at r prev (c :: s)) as [m'|] eqn:E.
    + apply elem_of_cons in Hin as [->|Hin].
      * exists [], prev. destruct (match_at_sound _ _ _ _ E) as [Hs _].
        rewrite <- Hs. eauto.
      * apply IH in Hin as (pre & pv & -> & H). exists (c :: pre), pv. eauto.
    + apply IH in Hin as (pre & pv & -> & H). exists (c :: pre), pv. eauto.
  - apply IH in Hin as (pre & pv & -> & H). exists (c :: pre), pv. eauto.
Qed.

Lemma finditer_sound r s m :
  m ∈ finditer r s ->
  exists pre prev', s = pre ++ m_text m ++ m_rest m /\
    match_at r prev' (m_text m ++ m_rest m) = Some m.
Proof. apply finditer_aux_sound. Qed.

Lemma search_from_sound r prev s i m :
  search_from r prev s = Some (i, m) ->
  exists pre prev', length pre = i /\ s = pre ++ m_text m ++ m_rest m /\
    match_at r prev' (m_text m ++ m_rest m) = Some m.
Proof.
  revert prev i. induction s as [|c s IH]; intros prev i E; cbn in E.
  - destruct (match_at r prev []) as [m'|] eqn:Em; [|done]. simplify_eq.
    destruct (match_at_sound _ _ _ _ Em) as [Hs _].
    exists [], prev. rewrite <- Hs. eauto.
  - destruct (match_at r prev (c :: s)) as [m'|] eqn:Em.
    + simplify_eq. destruct (match_at_sound _ _ _ _ Em) as [Hs _].
      exists [], prev. rewrite <- Hs. eauto.
    + destruct (search_from r (Some c) s) as [[j m']|] eqn:Es; [|done]. cbn in E. simplify_eq.
      apply IH in Es as (pre & pv & <- & -> & H). exists (c :: pre), pv. eauto.
Qed.

(** ** Whole words

    A pattern [\b(body)\b] whose body matches only word characters finds
    exactly the maximal words of the text that match the body. *)

(** The maximal runs of word characters, [acc] being the one in progress. *)
Fixpoint word_tokens_aux (acc s : pystr) : list pystr :=
  match s with
  | [] => if nonempty acc then [acc] else []
  | c :: s' =>
      if is_word c then word_tokens_aux (acc ++ [c]) s'
      else (if nonempty acc then [acc] else []) ++ word_tokens_aux [] s'
  end.
Definition word_tokens (s : pystr) : list pystr := word_tokens_aux [] s.

Definition wordy (prev : option Z) : bool :=
  match prev with Some c => is_word c | None => false end.
Definition word_start (s : pystr) : bool := match s with c :: _ => is_word c | [] => false end.
Notation all_word w := (Forall (fun c => is_word c = true) w).

Lemma word_split_unique w s w' s' :
  all_word w -> all_word w' -> word_start s = false -> word_start s' = false ->
  w ++ s = w' ++ s' -> w = w' /\ s = s'.
Proof.
  intros Hw. revert w'. induction Hw as [|c w Hc Hw IH]; intros [|c' w'] Hw' Hs Hs' E; [done| | |].
  - cbn in E. subst s. apply Forall_cons in Hw' as [Hc' _]. cbn in Hs. congruence.
  - cbn in E. subst s'. cbn in Hs'. congruence.
  - injection E as -> E. apply Forall_cons in Hw' as [_ Hw'].
    by destruct (IH w' Hw' Hs Hs' E) as [-> ->].
Qed.

Section Words.
Variables (body : regex) (P : pystr -> Prop).
Context `{!forall w, Decision (P w)}.
Hypothesis body_sound : forall prev s g prev' s' g',
  run body prev s g prev' s' g' -> exists w, s = w ++ s' /\ P w /\ g' = g /\ prev' = last_or prev w.
Hypothesis body_complete : forall prev w s g, P w -> run body prev (w ++ s) g (last_or prev w) s g.
Hypothesis P_word : forall w, P w -> w <> [] /\ Forall (fun c => is_word c = true) w.

Definition whole : regex := r_seq [RBound; RGroup 1 body; RBound].

Lemma run_whole prev s g prev' s' g' :
  run whole prev s g prev' s' g' ->
  exists w, s = w ++ s' /\ P w /\ g' = (1%nat, w) :: g
            /\ wordy prev = false /\ word_start s' = false.
Proof.
  intros Hrun. inversion Hrun as [| | |? ? ? ? ? ? ? ? ? ? ? Ha Hb| | | |]; subst; clear Hrun.
  inversion Ha; subst; clear Ha.
  inversion Hb as [| | |? ? ? ? ? ? ? ? ? ? ? Hg Hc| | | |]; subst; clear Hb.
  inversion Hc; subst; clear Hc.
  inversion Hg as [| | | | | |? ? ? w ? ? ? ? Hr|]; subst; clear Hg.
  destruct (body_sound _ _ _ _ _ _ Hr) as (w' & Hw & HP & -> & ->).
  apply app_inv_tail in Hw as <-. exists w. split_and!; try done.
  all: destruct (P_word w HP) as [Hne Hw]; destruct w as [|c w]; [done|].
  - apply Forall_cons in Hw as [Hc _].
    match goal with E : at_bound ?p _ = true |- wordy ?p = _ =>
      revert E; unfold at_bound, wordy; cbn; rewrite Hc; destruct p as [z|]; [|done] end.
    by destruct (is_word z).
  - match goal with E : at_bound (last_or _ _) _ = true |- _ => revert E end.
    unfold at_bound, last_or.
    destruct (exists_last Hne) as (w0 & c0 & E0). rewrite E0, last_snoc.
    assert (is_word c0 = true) as -> by (rewrite E0 in Hw; by apply Forall_app, proj2, Forall_cons in Hw as [? _]).
    unfold word_start. destruct s' as [|c' s']; [done|]. destruct (is_word c'); cbn; congruence.
Qed.

Lemma run_whole_complete prev w s :
  P w -> wordy prev = false -> word_start s = false ->
  run whole prev (w ++ s) [] (last_or prev w) s [(1%nat, w)].
Proof.
  intros HP Hprev Hs. destruct (P_word w HP) as [Hne Hw].
  eapply run_seq.
  { apply run_bound. unfold at_bound. destruct w as [|c w]; [done|].
    apply Forall_cons in Hw as [Hc _]. cbn. rewrite Hc.
    unfold wordy in Hprev. by destruct prev; [rewrite Hprev|]. }
  eapply run_seq; [by apply run_group, body_complete|].
  apply run_bound. unfold at_bound, last_or.
  destruct (exists_last Hne) as (w0 & c0 & ->). rewrite last_snoc.
  apply Forall_app, proj2, Forall_cons in Hw as [-> _].
  unfold word_start in Hs. by destruct s; [|rewrite Hs].
Qed.

(** At the start of a word the pattern matches exactly the words of [P]. *)
Lemma match_at_word prev w s :
  w <> [] -> Forall (fun c => is_word c = true) w -> wordy prev = false -> word_start s = false ->
  match_at whole prev (w ++ s)
  = if decide (P w) then Some {| m_text := w; m_rest := s; m_groups := [(1%nat, w)] |} else None.
Proof.
  intros Hne Hw Hprev Hs. destruct (match_at whole prev (w ++ s)) as [m|] eqn:E.
  - destruct (match_at_sound _ _ _ _ E) as (Et & prev' & Hr).
    apply run_whole in Hr as (w' & Ew & HP & Hg & _ & Hs').
    destruct (P_word w' HP) as [Hne' Hw'].
    destruct (word_split_unique w s w' (m_rest m)) as [-> ->]; try done.
    rewrite decide_True by done. destruct m as [t rest g]. cbn in *. subst g.
    apply app_inv_tail in Et as <-. done.
  - destruct (decide (P w)) as [HP|]; [|done]. exfalso.
    destruct (exec_complete whole prev (w ++ s) [] (last_or prev w) s [(1%nat, w)] (fun _ s' g =>
      Some {| m_text := take (length (w ++ s) - length s') (w ++ s); m_rest := s'; m_groups := g |}))
      as [x Hx].
    + by apply run_whole_complete.
    + eauto.
    + unfold match_at in E. congruence.
Qed.

Lemma match_at_elsewhere prev s :
  wordy prev = true \/ word_start s = false -> match_at whole prev s = None.
Proof.
  intros Hp. destruct (match_at whole prev s) as [m|] eqn:E; [|done]. exfalso.
  destruct (match_at_sound _ _ _ _ E) as (_ & prev' & Hr).
  apply run_whole in Hr as (w & -> & HP & _ & Hprev & _).
  destruct (P_word w HP) as [Hne Hw]. destruct w as [|c w]; [done|].
  apply Forall_cons in Hw as [Hc _]. destruct Hp; [congruence|]. cbn in *. congruence.
Qed.

Lemma finditer_skip prev w s :
  w <> [] -> finditer_aux whole (length w) prev (w ++ s) = finditer_aux whole 0 (last w) s.
Proof.
  revert prev. induction w as [|c w IH]; intros prev Hne; [done|]. cbn [length app finditer_aux].
  destruct w as [|c' w]; [done|]. rewrite last_cons_cons. by apply IH.
Qed.

Lemma finditer_inside prev w s :
  wordy prev = true -> all_word w ->
  finditer_aux whole 0 prev (w ++ s) = finditer_aux whole 0 (last_or prev w) s.
Proof.
  intros Hp Hw. revert prev Hp. induction Hw as [|c w Hc Hw IH]; intros prev Hp; [done|].
  cbn [app finditer_aux]. rewrite match_at_elsewhere by auto.
  rewrite IH by done. by rewrite last_or_cons with (prev := prev).
Qed.

Lemma word_tokens_word acc w s :
  all_word w -> word_start s = false ->
  word_tokens_aux acc (w ++ s)
  = (if nonempty (acc ++ w) then [acc ++ w] else [])
    ++ match s with [] => [] | _ :: s' => word_tokens_aux [] s' end.
Proof.
  intros Hw Hs. revert acc. induction Hw as [|c w Hc Hw IH]; intros acc.
  - cbn [app]. rewrite app_nil_r. destruct s as [|c s]; cbn in *; [by rewrite app_nil_r|].
    by rewrite Hs.
  - cbn [app word_tokens_aux]. rewrite Hc, IH. by rewrite <- app_assoc.
Qed.

Lemma word_prefix c s :
  is_word c = true ->
  exists w s', c :: s = w ++ s' /\ w <> [] /\ all_word w /\ word_start s' = false.
Proof.
  revert c. induction s as [|c' s IH]; intros c Hc.
  - exists [c], []. by repeat constructor.
  - destruct (is_word c') eqn:Hc'.
    + destruct (IH c' Hc') as (w & s' & -> & _ & Hw & Hs). exists (c :: w), s'.
      split_and!; try done. by constructor.
    + exists [c], (c' :: s). split_and!; try done. by repeat constructor.
Qed.

Lemma finditer_words n prev s :
  (length s < n)%nat -> wordy prev = false ->
  group 1 <$> finditer_aux whole 0 prev s = filter P (word_tokens s).
Proof.
  revert prev s. induction n as [|n IH]; intros prev s Hlen Hprev; [lia|].
  destruct s as [|c s]; [done|]. destruct (is_word c) eqn:Hc.
  - destruct (word_prefix c s Hc) as (w & s' & E & Hne & Hw & Hs'). rewrite E in *. clear E Hc c s.
    unfold word_tokens. rewrite word_tokens_word by done. cbn [app].
    assert (nonempty w = true) as -> by by destruct w.
    assert (group 1 <$> finditer_aux whole 0 (last w) s'
            = filter P (match s' with [] => [] | _ :: s'' => word_tokens_aux [] s'' end)) as Hrest.
    { destruct s' as [|c' s']; [done|]. cbn [finditer_aux]. rewrite match_at_elsewhere by auto.
      apply (IH (Some c')); [|done]. rewrite length_app in Hlen. destruct w; [done|]. cbn in *. lia. }
    rewrite filter_app, filter_cons, filter_nil, <- Hrest.
    pose proof (match_at_word prev w s' Hne Hw Hprev Hs') as Hm.
    destruct w as [|c w]; [done|]. cbn [app finditer_aux]. cbn [app] in Hm. rewrite Hm.
    apply Forall_cons in Hw as [Hc Hw].
    destruct (decide (P (c :: w))) as [HP|HP].
    + cbn [m_text length pred]. rewrite fmap_cons. cbn [app]. f_equal.
      destruct w as [|c' w]; [done|]. f_equal. rewrite last_cons_cons. by apply finditer_skip.
    + cbn [app]. f_equal. rewrite finditer_inside by done.
      unfold last_or. rewrite last_cons. by destruct (last w).
  - cbn [finditer_aux]. rewrite match_at_elsewhere by auto.
    rewrite (IH (Some c)) by (cbn in *; first [lia|done]).
    unfold word_tokens. cbn [word_tokens_aux]. by rewrite Hc.
Qed.

Lemma findall_whole s : findall whole s = filter P (word_tokens s).
Proof. apply (finditer_words (S (length s))); [lia|done]. Qed.

Lemma fullmatch_whole w : is_Some (fullmatch whole w) <-> P w.
Proof.
  split.
  - intros [m (prev' & Hr)%fullmatch_sound]. apply run_whole in Hr as (w' & -> & HP & _).
    by rewrite app_nil_r.
  - intros HP. unfold fullmatch.
    eapply (exec_complete whole None w [] (last_or None w) [] [(1%nat, w)]); [|by eexists].
    rewrite <- (app_nil_r w) at 1. by apply run_whole_complete.
Qed.
End Words.

(** ** Deterministic matching *)

(** A greedy repetition takes all it can when what follows then matches. *)
Lemma exec_rep_all {X} p lo prev w s g (k : option Z -> pystr -> groups -> option X) x :
  Forall (fun c => p c = true) w -> (lo <= length w)%nat ->
  match s with c :: _ => p c | [] => false end = false ->
  k (last_or prev w) s g = Some x ->
  exec_rep true p lo None prev (w ++ s) g k = Some x.
Proof.
  intros Hw. revert lo prev. induction Hw as [|c w Hc Hw IH]; intros lo prev Hlo Hs Hk.
  - cbn in Hlo. destruct lo; [|lia]. destruct s as [|c s]; cbn; [done|]. by rewrite Hs.
  - cbn [app exec_rep]. rewrite Hc. cbn [andb negb bool_decide]. rewrite bool_decide_eq_false_2 by done.
    cbn [negb fmap option_fmap option_map]. rewrite (IH (pred lo) (Some c)); [done|cbn in *; lia|done|].
    by rewrite last_or_cons with (prev := prev).
Qed.

(** A pattern that can only start at [c] skips everything else. *)
Lemma search_skip r c p prev s :
  (forall prev s, head s <> Some c -> match_at r prev s = None) ->
  c ∉ p ->
  search_from r prev (p ++ s) = (fun x => (length p + x.1, x.2)%nat) <$> search_from r (last_or prev p) s.
Proof.
  intros Hr. revert prev. induction p as [|d p IH]; intros prev Hc.
  - cbn [app length]. change (last_or prev []) with prev.
    destruct (search_from r prev s) as [[i m]|]; done.
  - apply not_elem_of_cons in Hc as [Hd Hp]. cbn [app search_from].
    rewrite Hr by (cbn; congruence). rewrite (IH (Some d)) by done.
    rewrite last_or_cons with (prev := prev).
    by destruct (search_from r (last_or prev (d :: p)) s) as [[i m]|].
Qed.
