(* ===== verification/PyTime.v ===== *)
(** * Python's [datetime], in UTC

    An aware datetime is kept as its UTC fields. *)
From S2P Require Import Prelude PyFloat PyStr.
Open Scope Z_scope.

Record datetime := {
  dt_year : Z;
  dt_month : Z;
  dt_day : Z;
  dt_hour : Z;
  dt_minute : Z;
  dt_second : Z;
  dt_micro : Z;
}.

#[global] Instance eta_datetime : Eta datetime := fun d =>
  Build_datetime (dt_year d) (dt_month d) (dt_day d) (dt_hour d) (dt_minute d) (dt_second d) (dt_micro d).

#[global] Instance datetime_eq_dec : EqDecision datetime.
Proof. solve_decision. Defined.

Definition is_leap (y : Z) : bool :=
  (y mod 4 =? 0) && (negb (y mod 100 =? 0) || (y mod 400 =? 0)).

Definition days_in_month (y m : Z) : Z :=
  if m =? 2 then (if is_leap y then 29 else 28)
  else if (m =? 4) || (m =? 6) || (m =? 9) || (m =? 11) then 30 else 31.

Definition within (lo x hi : Z) : bool := (lo <=? x) && (x <=? hi).

Definition dt_valid (d : datetime) : bool :=
  within 1 (dt_year d) 9999 && within 1 (dt_month d) 12
  && within 1 (dt_day d) (days_in_month (dt_year d) (dt_month d))
  && within 0 (dt_hour d) 23 && within 0 (dt_minute d) 59 && within 0 (dt_second d) 59
  && within 0 (dt_micro d) 999999.

(** [datetime(y, m, d, hh, mm, ss)]; [None] is ValueError. *)
Definition mk_datetime (y m d hh mm ss : Z) : option datetime :=
  let t := Build_datetime y m d hh mm ss 0 in
  if dt_valid t then Some t else None.

(** Days before the first of month [m]. *)
Definition days_before_month (y m : Z) : Z :=
  foldl Z.add 0 (days_in_month y <$> seqZ 1 (m - 1)).

(** [toordinal()] *)
Definition dt_ordinal (d : datetime) : Z :=
  let y := dt_year d - 1 in
  y * 365 + y / 4 - y / 100 + y / 400 + days_before_month (dt_year d) (dt_month d) + dt_day d.

(** Microseconds since year 1: the order of aware datetimes. *)
Definition dt_stamp (d : datetime) : Z :=
  (((dt_ordinal d * 24 + dt_hour d) * 60 + dt_minute d) * 60 + dt_second d) * 1000000 + dt_micro d.

(** The last representable instant. *)
Definition MAX_STAMP : Z := dt_stamp (Build_datetime 9999 12 31 23 59 59 999999).

(** Two digits, as [strftime] and the two-character fields print them. *)
Definition pad2 (n : Z) : pystr := rjust 2 48 (dec n).

(** [strftime("%Y%m%d")] and [strftime("%H%M%S")]; glibc does not pad [%Y]. *)
Definition fmt_date (d : datetime) : pystr := dec (dt_year d) ++ pad2 (dt_month d) ++ pad2 (dt_day d).
Definition fmt_time (d : datetime) : pystr := pad2 (dt_hour d) ++ pad2 (dt_minute d) ++ pad2 (dt_second d).

(** ** The printed fields read back *)

Lemma pad2_spec n :
  0 <= n < 100 ->
  length (pad2 n) = 2%nat /\ forallb is_decimal (pad2 n) = true /\ parse_int (pad2 n) = Some n.
Proof.
  intros Hn.
  assert (Forall (fun n => length (pad2 n) = 2%nat /\ forallb is_decimal (pad2 n) = true
                           /\ parse_int (pad2 n) = Some n) (seqZ 0 100)) as HF by by_compute.
  rewrite Forall_forall in HF. apply HF, elem_of_seqZ. lia.
Qed.

Lemma year_spec n :
  1000 <= n <= 9999 -> length (dec n) = 4%nat /\ forallb is_decimal (dec n) = true.
Proof.
  intros Hn.
  assert (forallb (fun n => Nat.eqb (length (dec n)) 4) (seqZ 1000 9000) = true) as HF by by_eval.
  split.
  - rewrite forallb_forall in HF. apply Nat.eqb_eq, HF, list_elem_of_In, elem_of_seqZ. lia.
  - apply forallb_Forall, dec_spec. lia.
Qed.
