(* ===== verification/Json.v ===== *)
(** * Request bodies and their conversions

    A request body is a decoded JSON value. [int], [float], [str] and truth
    follow Python on every shape a client can send; an exception a handler
    does not catch is the outcome [Uncaught], which the framework answers with
    a 500. *)
From S2P Require Import Prelude PyFloat PyStr.
From Stdlib Require Import SpecFloat.
Open Scope Z_scope.

Inductive json : Type :=
| JNull
| JBool (b : bool)
| JInt (n : Z)
| JFloat (x : float)
| JStr (s : pystr)
| JArr (l : list json)
| JObj (d : list (pystr * json)).

Notation jobj := (list (pystr * json)).

(** [data.get(key)], [None] when the key is absent. A decoded object has one
    entry per key. *)
Fixpoint jget (key : pystr) (d : jobj) : option json :=
  match d with
  | [] => None
  | (k, j) :: d' => if str_eqb k key then Some j else jget key d'
  end.
(** [data.get(key)] where the handler takes an absent key for [None]. *)
Definition jget_null (key : pystr) (d : jobj) : json := default JNull (jget key d).

(** [bool(j)] *)
Definition jtruthy (j : json) : bool :=
  match j with
  | JNull => false
  | JBool b => b
  | JInt n => negb (n =? 0)
  | JFloat x => negb (SFeqb x (S754_zero false))
  | JStr s => nonempty s
  | JArr l => match l with [] => false | _ => true end
  | JObj d => match d with [] => false | _ => true end
  end.

(** How a conversion fails: the pair the handlers catch, or the one they do
    not. *)
Inductive ConvErr := TypeOrValueError | OverflowError.

(** [int(j)] *)
Definition jint (j : json) : result ConvErr Z :=
  match j with
  | JInt n => Ok n
  | JBool b => Ok (if b then 1 else 0)
  | JFloat x =>
      match x with
      | S754_nan => Err TypeOrValueError
      | _ => match num_trunc x with Some n => Ok n | None => Err OverflowError end
      end
  | JStr s => match parse_int s with Some n => Ok n | None => Err TypeOrValueError end
  | _ => Err TypeOrValueError
  end.

(** [float(j)] *)
Definition jfloat (j : json) : result ConvErr float :=
  match j with
  | JInt n =>
      match float_ratio n 1 with S754_infinity _ => Err OverflowError | x => Ok x end
  | JBool b => Ok (num_of_Z (if b then 1 else 0))
  | JFloat x => Ok x
  | JStr s => match parse_float s with Some x => Ok x | None => Err TypeOrValueError end
  | _ => Err TypeOrValueError
  end.

(** [str(j)]; [repr] prints the shapes whose text no handler looks into. *)
Definition jstr (repr : json -> pystr) (j : json) : pystr :=
  match j with
  | JStr s => s
  | JInt n => str_of_Z n
  | JBool b => if b then u "True" else u "False"
  | JNull => u "None"
  | _ => repr j
  end.

(** What a handler ends with instead of its answer: [api_error], or an
    exception it let through. *)
Inductive Failure :=
| ApiError (message : pystr) (status : Z)
| Uncaught.

(** [try: ... except (TypeError, ValueError): return api_error(...)] *)
Definition or_error {A} (e : Failure) (x : result ConvErr A) : result Failure A :=
  match x with
  | Ok a => Ok a
  | Err TypeOrValueError => Err e
  | Err OverflowError => Err Uncaught
  end.

(** No [try]: any exception goes through. *)
Definition unguarded {A} (x : result ConvErr A) : result Failure A :=
  match x with Ok a => Ok a | Err _ => Err Uncaught end.

Lemma or_error_Ok {A} e (x : result ConvErr A) a : or_error e x = Ok a -> x = Ok a.
Proof. destruct x as [|[]]; cbn; congruence. Qed.

Lemma jget_in key d j : jget key d = Some j -> (key, j) ∈ d.
Proof.
  induction d as [|[k x] d IH]; cbn; [done|].
  unfold str_eqb. case_bool_decide as E; [intros [= ->]; subst; left|right; auto].
Qed.
