(* ===== verification/Events.v ===== *)
(** * engine/events.py and engine/audio_io.py: the event contract and tone finding

    [Numpy S F] collects the numpy routines the engine calls: [S] is a sample
    (a float32), [F] a Python float. *)
From S2P Require Import Prelude PyFloat PyStr.
Open Scope Z_scope.

(** ** Events *)

Section Events.
Context {F : Type}.

Record KeyRun := { kr_on : bool; kr_t_start : F; kr_dur_ms : F }.

Record ElementEvent := { el_kind : Z; el_t_start : F; el_dur_ms : F }.

Record CharEvent := {
  ce_char : pystr;
  ce_morse : pystr;
  ce_t_start : F;
  ce_t_end : F;
  ce_wpm : F;
  ce_snr_db : F;
  ce_confidence : F;
}.

Record DecodeResult := {
  r_text : pystr;
  r_engine : pystr;
  r_chars : list CharEvent;
  r_elements : list ElementEvent;
  r_key_runs : list KeyRun;
  r_envelope_t : list F;
  r_envelope_mag : list F;
  r_envelope_thr : list F;
  r_sample_rate : Z;
  r_tone_hz : F;
  r_wpm_final : F;
}.

#[global] Instance eta_result : Eta DecodeResult := fun r =>
  Build_DecodeResult (r_text r) (r_engine r) (r_chars r) (r_elements r) (r_key_runs r)
    (r_envelope_t r) (r_envelope_mag r) (r_envelope_thr r) (r_sample_rate r)
    (r_tone_hz r) (r_wpm_final r).

(** [DecodeResult(sample_rate=fs, tone_hz=tone)]; [zero] is [0.0]. *)
Definition new_result (zero : F) (fs : Z) (tone : F) : DecodeResult :=
  {| r_text := []; r_engine := u "cw"; r_chars := []; r_elements := []; r_key_runs := [];
     r_envelope_t := []; r_envelope_mag := []; r_envelope_thr := [];
     r_sample_rate := fs; r_tone_hz := tone; r_wpm_final := zero |}.
End Events.
Arguments KeyRun F : clear implicits.
Arguments ElementEvent F : clear implicits.
Arguments CharEvent F : clear implicits.
Arguments DecodeResult F : clear implicits.

(** ** numpy *)

(** [np_scale]: a sample times a gain; [np_bin f fs blk]: the magnitude of the
    single-bin transform of [blk] at [f] Hz; [np_rfft_mag] and [np_rfftfreq]:
    the magnitudes and frequencies of the real spectrum; [np_rms]: the root
    mean square of a segment. *)
Class Numpy (S F : Type) := {
  np_scale : F -> S -> S;
  np_bin : F -> Z -> list S -> F;
  np_log10 : F -> F;
  np_rfft_mag : list S -> list F;
  np_rfftfreq : Z -> Z -> list F;
  np_rms : list S -> F;
}.

Section Stats.
Context {F : Type} `{Num F}.

Fixpoint num_insert (x : F) (l : list F) : list F :=
  match l with
  | [] => [x]
  | y :: l' => if num_leb x y then x :: l else y :: num_insert x l'
  end.
Definition num_sort (l : list F) : list F := foldr num_insert [] l.

Definition num_nth (i : Z) (l : list F) : F := default (num_of_Z 0) (l !! Z.to_nat i).

(** [statistics.median] and [np.median]: the middle value, or the mean of
    the two middle values. *)
Definition median (l : list F) : F :=
  let s := num_sort l in
  let n := zlen l in
  if Z.odd n then num_nth (n / 2) s
  else num_div (num_add (num_nth (n / 2 - 1) s) (num_nth (n / 2) s)) (num_of_Z 2).

(** The least element, the first one on ties. *)
Definition num_min_list (l : list F) : option F :=
  match l with [] => None | x :: l' => Some (foldl num_min x l') end.

(** [np.argmax]: the first index of a largest element, with that element. *)
Definition argmax_step (best : nat * F) (ix : nat * F) : nat * F :=
  if num_ltb best.2 ix.2 then ix else best.
Definition argmax (l : list F) : option (nat * F) :=
  match imap (fun i x => (i, x)) l with
  | [] => None
  | b :: l' => Some (foldl argmax_step b l')
  end.
End Stats.

Section AudioIO.
Context {S F : Type} `{Num F} `{Numpy S F}.

Definition detect_tone_peak (samples : list S) (sample_rate : Z) (lo_hz hi_hz : F) : F * F :=
  let nothing := (num_of_Z 600, num_of_Z 0) in
  if zlen samples <? 256 then nothing
  else
    let bins := zip (np_rfftfreq (zlen samples) sample_rate) (np_rfft_mag samples) in
    let band := List.filter (fun b => num_leb lo_hz b.1 && num_leb b.1 hi_hz) bins in
    match argmax band.*2 with
    | None => nothing
    | Some (peak_i, peak) =>
        let med := num_add (median band.*2) (lit 1 1000000000000) in
        match band !! peak_i with
        | Some (f, _) => (f, num_div peak med)
        | None => nothing
        end
    end.

(** The window starts of [range(n_win, max(len - n_win, 1), n_win)]. *)
Fixpoint window_starts (fuel : nat) (start stop n_win : Z) : list Z :=
  match fuel with
  | O => []
  | Datatypes.S f =>
      if start <? stop then start :: window_starts f (start + n_win) stop n_win else []
  end.

Definition louder (best : list S * F) (seg : list S) : list S * F :=
  let rms := np_rms seg in if num_ltb best.2 rms then (seg, rms) else best.

Definition detect_tone (samples : list S) (sample_rate : Z) (lo_hz hi_hz window_s : F) : F :=
  let n_win := Z.min (zlen samples)
    (default 0 (num_trunc (num_mul window_s (num_of_Z sample_rate)))) in
  if n_win <? 256 then num_of_Z 600
  else
    let first := slice_to n_win samples in
    let starts :=
      window_starts (length samples) n_win (Z.max (zlen samples - n_win) 1) n_win in
    let best := foldl louder (first, np_rms first)
      ((fun start => slice start (start + n_win) samples) <$> starts) in
    let '(freq, prominence) := detect_tone_peak best.1 sample_rate lo_hz hi_hz in
    if num_leb prominence (num_of_Z 0) then num_of_Z 600 else freq.
End AudioIO.
