(* ===== verification/Morse.v ===== *)
(** * engine/morse.py and engine/synth.py: the Morse tables, the text <-> element mapping, the keying *)
From S2P Require Import Prelude PyFloat PyStr Events.
Open Scope Z_scope.

Definition UNKNOWN_CHAR : pystr := u "�".

Definition CHAR_TO_MORSE_items : list (pystr * pystr) := [
  (u "A", u ".-"); (u "B", u "-..."); (u "C", u "-.-."); (u "D", u "-.."); (u "E", u ".");
  (u "F", u "..-."); (u "G", u "--."); (u "H", u "...."); (u "I", u ".."); (u "J", u ".---");
  (u "K", u "-.-"); (u "L", u ".-.."); (u "M", u "--"); (u "N", u "-."); (u "O", u "---");
  (u "P", u ".--."); (u "Q", u "--.-"); (u "R", u ".-."); (u "S", u "..."); (u "T", u "-");
  (u "U", u "..-"); (u "V", u "...-"); (u "W", u ".--"); (u "X", u "-..-"); (u "Y", u "-.--");
  (u "Z", u "--..");
  (u "0", u "-----"); (u "1", u ".----"); (u "2", u "..---"); (u "3", u "...--");
  (u "4", u "....-"); (u "5", u "....."); (u "6", u "-...."); (u "7", u "--...");
  (u "8", u "---.."); (u "9", u "----.");
  (u ".", u ".-.-.-"); (u ",", u "--..--"); (u "?", u "..--.."); (u "'", u ".----.");
  (u "!", u "-.-.--"); (u "/", u "-..-."); (u "(", u "-.--."); (u ")", u "-.--.-");
  (u "&", u ".-..."); (u ":", u "---..."); (u ";", u "-.-.-."); (u "=", u "-...-");
  (u "+", u ".-.-."); (u "-", u "-....-"); (u "_", u "..--.-");
  ([34], u ".-..-."); (u "@", u ".--.-.");
  (u "<AR>", u ".-.-."); (u "<SK>", u "...-.-"); (u "<BT>", u "-...-"); (u "<KN>", u "-.--.");
  (u "<BK>", u "-...-.-"); (u "<AS>", u ".-..."); (u "<CT>", u "-.-.-"); (u "<KA>", u "-.-.-")
].

Definition CHAR_TO_MORSE : gmap pystr pystr := list_to_map CHAR_TO_MORSE_items.

(** The body of the loop that builds the reverse table. *)
Definition add_reverse (m : gmap pystr pystr) (item : pystr * pystr) : gmap pystr pystr :=
  let '(c, code) := item in
  if bool_decide (m !! code = None) || negb (startswith c (u "<"))
  then <[code := c]> m else m.

Definition MORSE_TO_CHAR : gmap pystr pystr :=
  foldl add_reverse ∅ CHAR_TO_MORSE_items.

Definition decode_symbol (code : pystr) : pystr :=
  default UNKNOWN_CHAR (MORSE_TO_CHAR !! code).

(** The prosign written at the head of [s], with the number of characters
    after the [<] it takes. *)
Definition prosign_at (s : pystr) : option (pystr * nat) :=
  match s with
  | c :: _ =>
      if c =? 60 then
        n ← find (u ">") s;
        code ← CHAR_TO_MORSE !! take (S n) s;
        Some (code, n)
      else None
  | [] => None
  end.

(** The [while i < len(up)] loop; [skip] counts the characters [i] jumps over. *)
Fixpoint encode_aux (skip : nat) (s : pystr) : list pystr :=
  match s with
  | [] => []
  | c :: s' =>
      match skip with
      | S k => encode_aux k s'
      | O =>
          if c =? 32 then u " " :: encode_aux 0 s'
          else
            match prosign_at s with
            | Some (code, n) => code :: encode_aux n s'
            | None =>
                match CHAR_TO_MORSE !! [c] with
                | Some code => code :: encode_aux 0 s'
                | None => encode_aux 0 s'
                end
            end
      end
  end.

Definition encode_text (text : pystr) : list pystr := encode_aux 0 (upper text).

(** ** The tables *)

(** A code element. *)
Definition is_element (c : Z) : bool := (c =? 46) || (c =? 45).

(** What decoding a keyed symbol shows: a word gap for [" "]. *)
Definition show_symbol (sym : pystr) : pystr :=
  if str_eqb sym (u " ") then u " " else decode_symbol sym.

(** A character that is keyed as itself. *)
Definition keyable (c : Z) : bool :=
  (c =? 32) || bool_decide (is_Some (CHAR_TO_MORSE !! [c])).

(** The plain character that shares a prosign's code, when there is one. *)
Definition reading_of (key : pystr) : pystr :=
  match CHAR_TO_MORSE !! key with
  | Some code =>
      match List.find (fun it => str_eqb it.2 code) CHAR_TO_MORSE_items with
      | Some (c, _) => c
      | None => key
      end
  | None => key
  end.

Lemma items_NoDup : NoDup (CHAR_TO_MORSE_items.*1).
Proof. by_compute. Qed.

Lemma items_lookup c code :
  CHAR_TO_MORSE !! c = Some code <-> (c, code) ∈ CHAR_TO_MORSE_items.
Proof. symmetry. apply elem_of_list_to_map, items_NoDup. Qed.

#[global] Opaque CHAR_TO_MORSE MORSE_TO_CHAR.

Lemma items_Forall (P : pystr * pystr -> bool) :
  forallb P CHAR_TO_MORSE_items = true ->
  forall c code, CHAR_TO_MORSE !! c = Some code -> P (c, code) = true.
Proof.
  intros HP c code Hc%items_lookup. rewrite forallb_forall in HP.
  apply HP. by apply list_elem_of_In.
Qed.

(** Every code is a non-empty word over dots and dashes. *)
Lemma code_elements c code :
  CHAR_TO_MORSE !! c = Some code -> code <> [] /\ Forall (fun e => is_element e = true) code.
Proof.
  intros H.
  apply (items_Forall (fun it => nonempty it.2 && forallb is_element it.2)) in H;
    [|by_eval].
  apply andb_true_iff in H as [H1 H2].
  split; [by destruct code|]. apply Forall_forall. intros x Hx.
  rewrite forallb_forall in H2. apply H2. by apply list_elem_of_In.
Qed.

Lemma code_not_space c code : CHAR_TO_MORSE !! c = Some code -> code <> u " ".
Proof. intros H ->. apply code_elements in H as [_ H]. by inversion H. Qed.

Lemma decode_plain (c : Z) code :
  CHAR_TO_MORSE !! [c] = Some code -> decode_symbol code = [c].
Proof.
  intros H.
  apply (items_Forall (fun it =>
    negb (bool_decide (length it.1 = 1%nat)) || str_eqb (decode_symbol it.2) it.1)) in H;
    [|by_eval].
  apply orb_true_iff in H as [H|H]; [done|]. by apply bool_decide_eq_true in H.
Qed.

(** ** Encoding *)

Lemma prosign_at_no_lt s : head s <> Some 60 -> prosign_at s = None.
Proof.
  destruct s as [|c s]; [done|]. intros H. unfold prosign_at.
  destruct (Z.eqb_spec c 60) as [->|]; [done|]. done.
Qed.

Lemma encode_aux_cons c s :
  c <> 60 ->
  encode_aux 0 (c :: s) =
    (if c =? 32 then [u " "] else option_list (CHAR_TO_MORSE !! [c])) ++ encode_aux 0 s.
Proof.
  intros Hc. cbn [encode_aux]. rewrite prosign_at_no_lt by (cbn; congruence).
  destruct (c =? 32); [done|]. by destruct (CHAR_TO_MORSE !! [c]).
Qed.

Lemma encode_aux_app s1 s2 :
  60 ∉ s1 -> encode_aux 0 (s1 ++ s2) = encode_aux 0 s1 ++ encode_aux 0 s2.
Proof.
  induction s1 as [|c s1 IH]; intros Hs; [done|].
  apply not_elem_of_cons in Hs as [Hc Hs]. cbn [app].
  rewrite !encode_aux_cons by congruence. by rewrite IH, app_assoc.
Qed.

Lemma encode_aux_symbols skip s sym :
  sym ∈ encode_aux skip s -> sym = u " " \/ exists c, CHAR_TO_MORSE !! c = Some sym.
Proof.
  revert skip. induction s as [|c s IH]; intros skip Hin; cbn [encode_aux] in Hin.
  { by apply not_elem_of_nil in Hin. }
  destruct skip; [|eauto].
  destruct (c =? 32).
  { apply elem_of_cons in Hin as [->|?]; eauto. }
  destruct (prosign_at (c :: s)) as [[code n]|] eqn:E.
  - apply elem_of_cons in Hin as [->|?]; [|eauto]. right.
    unfold prosign_at in E. destruct (c =? 60); [|done].
    apply bind_Some in E as (n' & _ & E). apply bind_Some in E as (code' & E & [= <- <-]). eauto.
  - destruct (CHAR_TO_MORSE !! [c]) eqn:E'; [|eauto].
    apply elem_of_cons in Hin as [->|?]; eauto.
Qed.

Lemma encode_text_app a b :
  60 ∉ upper a -> encode_text (a ++ b) = encode_text a ++ encode_text b.
Proof. intros H. unfold encode_text. by rewrite upper_app, encode_aux_app. Qed.

Lemma show_symbol_code c code : CHAR_TO_MORSE !! c = Some code -> show_symbol code = decode_symbol code.
Proof.
  intros H. unfold show_symbol, str_eqb.
  by rewrite bool_decide_eq_false_2 by (by eapply code_not_space).
Qed.

(** ** Properties *)

(** keying a text that writes no prosign and reading the symbols back
    through the reverse table gives the upper-cased text with exactly the
    characters the table does not know left out: word gaps, order and every
    keyable character survive, and no plain character is read as a prosign or
    as another character that shares its code. *)
Theorem encode_decode_roundtrip (text : pystr) :
  60 ∉ upper text ->
  mjoin (show_symbol <$> encode_text text) = List.filter keyable (upper text).
Proof.
  unfold encode_text. generalize (upper text) as s.
  induction s as [|c s IH]; intros Hs; [done|].
  apply not_elem_of_cons in Hs as [Hc Hs].
  rewrite encode_aux_cons by congruence. rewrite fmap_app, join_app, IH by done.
  unfold keyable. cbn [List.filter].
  destruct (Z.eqb_spec c 32) as [->|Hsp]; [done|]. cbn [orb].
  destruct (CHAR_TO_MORSE !! [c]) as [code|] eqn:E.
  - rewrite bool_decide_eq_true_2 by eauto. cbn.
    rewrite (show_symbol_code _ _ E), (decode_plain _ _ E). done.
  - rewrite bool_decide_eq_false_2 by (by intros [? ?]). done.
Qed.

Example encode_decode_roundtrip_witness :
  60 ∉ upper (u "cq de w1aw ~ k") /\
  mjoin (show_symbol <$> encode_text (u "cq de w1aw ~ k"))
  = List.filter keyable (upper (u "cq de w1aw ~ k")).
Proof.
  assert (H : 60 ∉ upper (u "cq de w1aw ~ k")) by by_compute.
  exact (conj H (encode_decode_roundtrip _ H)).
Defined.

(** the reverse table inverts the forward one on every key, prosigns
    included: a code is read as the plain character that owns it when there is
    one, and as the first prosign with that code otherwise. *)
Theorem decode_inverts_table (c code : pystr) :
  CHAR_TO_MORSE !! c = Some code -> decode_symbol code = reading_of c.
Proof.
  intros H.
  apply (items_Forall (fun it => str_eqb (decode_symbol it.2) (reading_of it.1))) in H;
    [|by_eval].
  by apply bool_decide_eq_true in H.
Qed.

Example decode_inverts_table_witness :
  CHAR_TO_MORSE !! u "<BT>" = Some (u "-...-") /\
  decode_symbol (u "-...-") = reading_of (u "<BT>") /\ reading_of (u "<BT>") = u "=".
Proof.
  assert (H : CHAR_TO_MORSE !! u "<BT>" = Some (u "-...-")) by (vm_compute; reflexivity).
  split; [exact H|]. split; [exact (decode_inverts_table _ _ H)|vm_compute; reflexivity].
Defined.

(** A prosign at the head of a text is one symbol. *)
Lemma encode_prosign_head key code rest :
  (key, code) ∈ List.filter (fun it => startswith it.1 (u "<")) CHAR_TO_MORSE_items ->
  encode_aux 0 (key ++ rest) = code :: encode_aux 0 rest.
Proof.
  intros Hin.
  assert (exists k, key = 60 :: k /\ CHAR_TO_MORSE !! key = Some code /\
    find (u ">") (key ++ rest) = Some (length k)) as (k & -> & Hl & Hf).
  { setoid_rewrite items_lookup. apply list_elem_of_In in Hin. vm_compute in Hin.
    repeat (destruct Hin as [[= <- <-]|Hin];
      [eexists; split; [reflexivity|split; [by_compute|reflexivity]]|]). done. }
  assert (take (S (length k)) (60 :: k ++ rest) = 60 :: k) as Ht
    by exact (take_app_length (60 :: k) rest).
  assert (prosign_at (60 :: k ++ rest) = Some (code, length k)) as E.
  { unfold prosign_at. change (60 =? 60) with true. cbn [app] in Hf. rewrite Hf.
    cbn [mbind option_bind]. by rewrite Ht, Hl. }
  cbn [app encode_aux]. change (60 =? 32) with false. rewrite E. f_equal.
  clear. induction k as [|x k IH]; [done|]. exact IH.
Qed.

(** a prosign written inline, in either case, is keyed as its own single
    run-together symbol between the symbols of the text before and after it. *)
Theorem encode_inline_prosign (a p b key code : pystr) :
  60 ∉ upper a -> upper p = key -> startswith key (u "<") = true ->
  CHAR_TO_MORSE !! key = Some code ->
  encode_text (a ++ p ++ b) = encode_text a ++ code :: encode_text b.
Proof.
  intros Ha Hp Hlt Hc. rewrite encode_text_app by done. f_equal.
  unfold encode_text. rewrite upper_app, Hp. apply encode_prosign_head.
  apply list_elem_of_In, filter_In. split; [|done].
  by apply list_elem_of_In, items_lookup.
Qed.

Example encode_inline_prosign_witness :
  encode_text (u "TU " ++ u "<sk>" ++ u " E") = encode_text (u "TU ") ++ u "...-.-" :: encode_text (u " E").
Proof.
  apply (encode_inline_prosign (u "TU ") (u "<sk>") (u " E") (u "<SK>") (u "...-.-")).
  - by_compute.
  - vm_compute; reflexivity.
  - vm_compute; reflexivity.
  - vm_compute; reflexivity.
Defined.

(** * engine/synth.py: PARIS-timed keying *)

Section Synth.
Context {F : Type} `{Num F}.
Local Open Scope num_scope.

(** [dit_seconds]; it raises for a speed of zero, see [segments]. *)
Definition dit_seconds (wpm : F) : F := lit 12 10 / wpm.

(** [n_samples]: [int(round(seconds * fs))], which raises for a product that is
    no finite number. *)
Definition n_samples (fs : Z) (seconds : F) : option Z := num_rint (seconds * num_of_Z fs).

(** The state of the key and how long it is held, in seconds: one symbol's
    marks and the gaps between them. *)
Fixpoint mark_segments (unit : F) (sym : pystr) : list (bool * F) :=
  match sym with
  | [] => []
  | el :: r =>
      (true, if Z.eqb el (ch ".") then unit else num_of_Z 3 * unit)
      :: (if nonempty r then [(false, unit)] else []) ++ mark_segments unit r
  end.

(** One pass of the [for sym in symbols] loop. *)
Definition symbol_segments (unit : F) (sym : pystr) : list (bool * F) :=
  if str_eqb sym (u " ") then [(false, num_of_Z 4 * unit)]
  else mark_segments unit sym ++ [(false, num_of_Z 3 * unit)].

(** A segment as the code appends it, in samples. *)
Definition counted (fs : Z) (s : bool * F) : option (bool * Z) := n ← n_samples fs s.2; Some (s.1, n).

(** [None]: dividing by a speed of zero, or counting the samples of a segment,
    raises. *)
Definition segments (text : pystr) (wpm : F) (fs : Z) (lead_ms : F) : option (list (bool * Z)) :=
  if num_eqb wpm (num_of_Z 0) then None
  else
    let unit := dit_seconds wpm in
    let lead := (false, lead_ms / num_of_Z 1000) in
    mapM (counted fs) (lead :: mjoin (symbol_segments unit <$> encode_text text) ++ [lead]).

(** [env[i:j] = 1.0], whatever the sign of the two ends. *)
Definition slice_end (n i : Z) : Z := if (i <? 0)%Z then Z.max 0 (i + n) else Z.min i n.
Definition key_down (i j : Z) (env : list F) : list F :=
  let n := zlen env in
  imap (fun k x => if (slice_end n i <=? Z.of_nat k)%Z && (Z.of_nat k <? slice_end n j)%Z
                   then num_of_Z 1 else x) env.

(** The 0/1 keying envelope: [np.zeros(total)], which raises for a negative
    size and for one that [np_room] says memory does not hold, and the loop that
    keys the segments. *)
Definition keying (np_room : Z -> bool) (segs : list (bool * Z)) : option (list F) :=
  let total := foldr Z.add 0%Z segs.*2 in
  if (0 <=? total)%Z && np_room total then
    Some (foldl (fun '(idx, env) s => ((idx + s.2)%Z, if s.1 : bool then key_down idx (idx + s.2) env else env))
            (0%Z, repeat (num_of_Z 0) (Z.to_nat total)) segs).2
  else None.

(** [_shape_edges]: the positions where the envelope rises or falls. *)
Fixpoint edges (rising : bool) (i : nat) (env : list F) : list nat :=
  match env with
  | a :: ((b :: _) as r) =>
      (if if rising then a <? b else b <? a then [S i] else []) ++ edges rising (S i) r
  | _ => []
  end.

(** [out[s] = ramp[: s.stop - s.start]] *)
Definition paste (ramp : list F) (out : list F) (at_ : nat) : list F :=
  take at_ out ++ take (length out - at_) ramp ++ drop (at_ + length ramp) out.

Definition shape_edges (ramp_up : list F) (ramp_n : Z) (env : list F) : list F :=
  if Z.leb ramp_n 1 then env
  else
    let out := foldl (paste ramp_up) env (edges true 0 env) in
    foldl (paste (rev ramp_up)) out (edges false 0 env).

Record SynthResult (A : Type) := {
  sy_audio : A;
  sy_sample_rate : Z;
  sy_tone_hz : F;
  sy_wpm : F;
  sy_text : pystr;
  sy_keying : list F;
}.

(** [synthesize_cw]. [np_ramp n] is the raised cosine on [n] points and
    [np_modulate] the vectorised tone, amplitude and noise arithmetic, [None]
    where it raises (the power of ten of a huge [snr_db] overflows). [None] is
    an exception on the way. *)
Definition synthesize_cw {A : Type} (np_room : Z -> bool) (np_ramp : Z -> list F)
    (np_modulate : F -> list F -> F -> Z -> option F -> option A)
    (text : pystr) (wpm tone_hz : F) (sample_rate : Z) (snr_db : option F)
    (rise_ms amplitude lead_ms : F) : option (SynthResult A) :=
  segs ← segments text wpm sample_rate lead_ms;
  env ← keying np_room segs;
  rise ← n_samples sample_rate (rise_ms / num_of_Z 1000);
  let ramp_n := Z.max 1 rise in
  let shaped := shape_edges (np_ramp ramp_n) ramp_n env in
  audio ← np_modulate amplitude shaped tone_hz sample_rate snr_db;
  Some
  {| sy_audio := audio;
     sy_sample_rate := sample_rate; sy_tone_hz := tone_hz; sy_wpm := wpm;
     sy_text := upper text; sy_keying := env |}.
End Synth.
Arguments SynthResult F A : clear implicits.

(** ** Shape of the keying *)

Section Facts.
Context {F : Type} `{Num F}.

(** Consecutive segments of one symbol alternate; the keyed ones spell it. *)
Lemma mark_segments_marks (unit : F) sym :
  List.filter fst (mark_segments unit sym)
  = (fun el => (true, if Z.eqb el (ch ".") then unit else num_mul (num_of_Z 3) unit)) <$> sym.
Proof.
  induction sym as [|el r IH]; [done|]. cbn [mark_segments fmap list_fmap List.filter fst].
  f_equal. rewrite List.filter_app, IH. by destruct r.
Qed.

Lemma paste_length ramp (out : list F) i :
  (i <= length out)%nat -> length (paste ramp out i) = length out.
Proof.
  intros Hi. unfold paste. rewrite !length_app, !length_take, length_drop. lia.
Qed.

Lemma edges_bound up i (env : list F) j : j ∈ edges up i env -> (i < j < i + length env)%nat.
Proof.
  revert i. induction env as [|a env IH]; intros i Hj; [by apply not_elem_of_nil in Hj|].
  destruct env as [|b env]; [by apply not_elem_of_nil in Hj|].
  cbn [edges] in Hj. apply elem_of_app in Hj as [Hj|Hj].
  - destruct (if up then _ else _); [|by apply not_elem_of_nil in Hj].
    apply list_elem_of_singleton in Hj as ->. cbn. lia.
  - apply IH in Hj. cbn in *. lia.
Qed.

Lemma foldl_paste_length ramp idx (out : list F) :
  (forall i, i ∈ idx -> (i <= length out)%nat) ->
  length (foldl (paste ramp) out idx) = length out.
Proof.
  revert out. induction idx as [|i idx IH]; intros out Hi; [done|]. cbn [foldl].
  rewrite IH.
  - apply paste_length, Hi, list_elem_of_here.
  - intros j Hj. rewrite paste_length by apply Hi, list_elem_of_here.
    by apply Hi, list_elem_of_further.
Qed.

(** Shaping keeps the length of the envelope. *)
Lemma shape_edges_length ramp n (env : list F) : length (shape_edges ramp n env) = length env.
Proof.
  unfold shape_edges. destruct (n <=? 1)%Z; [done|].
  assert (length (foldl (paste ramp) env (edges true 0 env)) = length env) as E
    by (apply foldl_paste_length; intros i Hi%edges_bound; lia).
  rewrite foldl_paste_length; [done|]. intros i Hi%edges_bound. lia.
Qed.
End Facts.
