(* ===== verification/Decoder.v ===== *)
(** * engine/cw.py: the streaming CW decoder

    Definitions of [CWConfig] and [CWDecoder], one per method. A method takes
    the decoder's state and returns the new state with the characters it
    emits. *)
From S2P Require Import Prelude PyFloat PyStr Morse Events.
Open Scope Z_scope.

(** A buffered key run: (keyed, t_start_s, duration_s). *)
Notation BootRun F := (bool * F * F)%type.

Section Config.
Context {F : Type} `{Num F}.

Record CWConfig := {
  tone_hz : F;
  block_ms : F;
  expected_wpm : option F;
  min_wpm : F;
  max_wpm : F;
  env_smooth : F;
  attack : F;
  peak_release : F;
  floor_rise : F;
  hysteresis : F;
  debounce_ms : F;
  boot_marks_n : Z;
  input_gain : F;
  squelch_db : F;
  afc : bool;
  afc_interval_s : F;
  afc_window_s : F;
  afc_band : F * F;
  afc_min_prominence : F;
  afc_min_shift_hz : F;
}.

#[global] Instance eta_config : Eta CWConfig := fun c =>
  Build_CWConfig (tone_hz c) (block_ms c) (expected_wpm c) (min_wpm c) (max_wpm c)
    (env_smooth c) (attack c) (peak_release c) (floor_rise c) (hysteresis c) (debounce_ms c)
    (boot_marks_n c) (input_gain c) (squelch_db c) (afc c) (afc_interval_s c)
    (afc_window_s c) (afc_band c) (afc_min_prominence c) (afc_min_shift_hz c).

Definition default_config : CWConfig := {|
  tone_hz := num_of_Z 600;
  block_ms := num_of_Z 4;
  expected_wpm := None;
  min_wpm := num_of_Z 5;
  max_wpm := num_of_Z 60;
  env_smooth := lit 3 10;
  attack := lit 1 2;
  peak_release := lit 3 1000;
  floor_rise := lit 4 1000;
  hysteresis := lit 2 10;
  debounce_ms := num_of_Z 3;
  boot_marks_n := 8;
  input_gain := num_of_Z 1;
  squelch_db := num_of_Z 0;
  afc := false;
  afc_interval_s := lit 1 2;
  afc_window_s := num_of_Z 1;
  afc_band := (num_of_Z 300, num_of_Z 1200);
  afc_min_prominence := num_of_Z 6;
  afc_min_shift_hz := num_of_Z 15;
|}.
End Config.
Arguments CWConfig F : clear implicits.

Section State.
Context {S F : Type}.

Record CWDecoder := {
  d_fs : Z;
  d_cfg : CWConfig F;
  d_block : Z;
  d_tw : list F;               (** the frequency of each twiddle row *)
  d_carry : list S;
  d_t_samples : Z;
  d_env : option F;
  d_peak : option F;
  d_floor : option F;
  d_state : bool;
  d_cand : bool;
  d_run_start_s : F;
  d_debounce_n : Z;
  d_cand_count : Z;
  d_dit : option F;
  d_boot_runs : list (BootRun F);
  d_boot_marks : list F;
  d_cur : pystr;
  d_cur_start : F;
  d_wpm : F;
  d_snr : F;
  d_flushed : bool;
  d_afc_buf : list S;
  d_afc_last_s : F;
  d_result : DecodeResult F;
}.

#[global] Instance eta_decoder : Eta CWDecoder := fun d =>
  Build_CWDecoder (d_fs d) (d_cfg d) (d_block d) (d_tw d) (d_carry d) (d_t_samples d)
    (d_env d) (d_peak d) (d_floor d) (d_state d) (d_cand d) (d_run_start_s d)
    (d_debounce_n d) (d_cand_count d) (d_dit d) (d_boot_runs d) (d_boot_marks d)
    (d_cur d) (d_cur_start d) (d_wpm d) (d_snr d) (d_flushed d) (d_afc_buf d)
    (d_afc_last_s d) (d_result d).
End State.
Arguments CWDecoder S F : clear implicits.

Section Methods.
Context {S F : Type} `{Num F} `{Numpy S F}.
Local Notation dec := (CWDecoder S F).
Local Notation ev := (CharEvent F).
Local Open Scope num_scope.

(** [_build_twiddles]: one row per bin around the tone. *)
Definition build_twiddles (d : dec) : dec :=
  d <| d_tw := (fun df => tone_hz (d_cfg d) + num_of_Z df * num_ratio (d_fs d) (Z.to_pos (d_block d)))
                 <$> [-1; 0; 1]%Z |>.

(** [reset]: [None] where [round] would raise, on a non-finite ratio. *)
Definition reset (d : dec) : option dec :=
  let c := d_cfg d in
  n ← num_rint (debounce_ms c / block_ms c);
  Some {|
    d_fs := d_fs d; d_cfg := c; d_block := d_block d; d_tw := d_tw d;
    d_carry := []; d_t_samples := 0;
    d_env := None; d_peak := None; d_floor := None;
    d_state := false; d_cand := false; d_run_start_s := num_of_Z 0;
    d_debounce_n := Z.max 1 n; d_cand_count := 0;
    d_dit := match expected_wpm c with
             | Some w => if w =? num_of_Z 0 then None else Some (lit 12 10 / w)
             | None => None
             end;
    d_boot_runs := []; d_boot_marks := [];
    d_cur := []; d_cur_start := num_of_Z 0;
    d_wpm := default (num_of_Z 0) (expected_wpm c); d_snr := num_of_Z 0;
    d_flushed := false; d_afc_buf := []; d_afc_last_s := num_of_Z 0;
    d_result := new_result (num_of_Z 0) (d_fs d) (tone_hz c);
  |}.

(** [CWDecoder(sample_rate, config)] *)
Definition init (sample_rate : Z) (config : CWConfig F) : option dec :=
  b ← num_rint (block_ms config / num_of_Z 1000 * num_of_Z sample_rate);
  reset (build_twiddles {|
    d_fs := sample_rate; d_cfg := config; d_block := Z.max 8 b; d_tw := [];
    d_carry := []; d_t_samples := 0; d_env := None; d_peak := None; d_floor := None;
    d_state := false; d_cand := false; d_run_start_s := num_of_Z 0; d_debounce_n := 1;
    d_cand_count := 0; d_dit := None; d_boot_runs := []; d_boot_marks := []; d_cur := [];
    d_cur_start := num_of_Z 0; d_wpm := num_of_Z 0; d_snr := num_of_Z 0; d_flushed := false;
    d_afc_buf := []; d_afc_last_s := num_of_Z 0;
    d_result := new_result (num_of_Z 0) sample_rate (tone_hz config) |}).

(** ** Runs -> elements -> characters *)

(** [_update_wpm] *)
Definition update_wpm (d : dec) : dec :=
  match d_dit d with
  | Some dit =>
      if dit =? num_of_Z 0 then d
      else d <| d_wpm := num_min (num_max (lit 12 10 / dit) (min_wpm (d_cfg d)))
                                 (max_wpm (d_cfg d)) |>
  | None => d
  end.

(** [_add_element]; [dit] is the value the assertion guarantees. *)
Definition add_element (t_start dur dit : F) (d : dec) : dec :=
  let kind := if dur <? num_of_Z 2 * dit then ch "." else ch "-" in
  let target := if Z.eqb kind (ch ".") then dur else dur / num_of_Z 3 in
  let d := d <| d_dit := Some (lit 8 10 * dit + lit 2 10 * target) |> in
  let d := update_wpm d in
  let d := if nonempty (d_cur d) then d else d <| d_cur_start := t_start |> in
  let d := d <| d_cur := d_cur d ++ [kind] |> in
  let e := {| el_kind := kind; el_t_start := num_round 4 t_start;
              el_dur_ms := num_round 2 (dur * num_of_Z 1000) |} in
  d <| d_result := d_result d <| r_elements := r_elements (d_result d) ++ [e] |> |>.

(** Append a character event to the result. *)
Definition push_char (e : ev) (d : dec) : dec :=
  d <| d_result := d_result d
         <| r_chars := r_chars (d_result d) ++ [e] |>
         <| r_text := r_text (d_result d) ++ ce_char e |> |>.

Definition char_event (t_end : F) (d : dec) : ev :=
  let c := decode_symbol (d_cur d) in
  {| ce_char := c; ce_morse := d_cur d; ce_t_start := num_round 4 (d_cur_start d);
     ce_t_end := num_round 4 t_end; ce_wpm := num_round 1 (d_wpm d);
     ce_snr_db := num_round 1 (d_snr d);
     ce_confidence := if str_eqb c UNKNOWN_CHAR then lit 4 10 else num_of_Z 1 |}.

Definition space_event (t_end : F) (d : dec) : ev :=
  {| ce_char := u " "; ce_morse := []; ce_t_start := num_round 4 t_end;
     ce_t_end := num_round 4 t_end; ce_wpm := num_round 1 (d_wpm d);
     ce_snr_db := num_round 1 (d_snr d); ce_confidence := num_of_Z 1 |}.

(** [_flush_char] *)
Definition flush_char (t_end : F) (word : bool) (d : dec) : dec * list ev :=
  let '(d, out) :=
    if nonempty (d_cur d) then
      let e := char_event t_end d in
      ((push_char e d) <| d_cur := [] |>, [e])
    else (d, []) in
  if word && nonempty (r_text (d_result d))
     && negb (endswith (r_text (d_result d)) (u " ")) then
    let e := space_event t_end d in
    (push_char e d, out ++ [e])
  else (d, out).

(** [_space_logic] *)
Definition space_logic (dur t_end dit : F) (d : dec) : dec * list ev :=
  if dur <? num_of_Z 2 * dit then (d, [])
  else if dur <? num_of_Z 5 * dit then flush_char t_end false d
  else flush_char t_end true d.

(** [_estimate_dit]: the median of the marks near the shortest one. *)
Definition estimate_dit (d : dec) : F :=
  let marks := d_boot_marks d in
  let lo := default (num_of_Z 0) (num_min_list marks) in
  median (List.filter (fun m => m <=? lit 16 10 * lo) marks).

(** One iteration of the replay loop; [d_dit] is set throughout it. *)
Definition replay_run (acc : dec * list ev) (run : BootRun F) : dec * list ev :=
  let '(d, out) := acc in
  let '(on, t_start, dur) := run in
  match d_dit d with
  | Some dit =>
      if on : bool then (add_element t_start dur dit d, out)
      else
        let '(d, out') := space_logic dur (t_start + dur) dit d in (d, out ++ out')
  | None => (d, out)
  end.

(** [_replay_boot] *)
Definition replay_boot (d : dec) : dec * list ev :=
  let d := update_wpm d in
  let '(d, out) := foldl replay_run (d, []) (d_boot_runs d) in
  (d <| d_boot_runs := [] |> <| d_boot_marks := [] |>, out).

(** [_on_mark_end] *)
Definition on_mark_end (t_start dur : F) (d : dec) : dec * list ev :=
  let kr := {| kr_on := true; kr_t_start := num_round 4 t_start;
               kr_dur_ms := num_round 2 (dur * num_of_Z 1000) |} in
  let d := d <| d_result := d_result d <| r_key_runs := r_key_runs (d_result d) ++ [kr] |> |> in
  match d_dit d with
  | None =>
      let d := d <| d_boot_runs := d_boot_runs d ++ [(true, t_start, dur)] |> in
      let d := d <| d_boot_marks := d_boot_marks d ++ [dur] |> in
      if Z.leb (boot_marks_n (d_cfg d)) (zlen (d_boot_marks d)) then
        replay_boot (d <| d_dit := Some (estimate_dit d) |>)
      else (d, [])
  | Some dit => (add_element t_start dur dit d, [])
  end.

(** [_on_space_end] *)
Definition on_space_end (dur : F) (d : dec) : dec * list ev :=
  match d_dit d with
  | None =>
      (if negb (bool_decide (d_boot_marks d = []%list)) then
         d <| d_boot_runs := d_boot_runs d ++ [(false, d_run_start_s d, dur)] |>
       else d, [])
  | Some dit => space_logic dur (d_run_start_s d + dur) dit d
  end.

(** ** Envelope and adaptive keyed state *)

(** [_commit] *)
Definition commit (new_state : bool) (t_s : F) (d : dec) : dec * list ev :=
  let dur := t_s - d_run_start_s d in
  let '(d, out) :=
    if d_state d then on_mark_end (d_run_start_s d) dur d else on_space_end dur d in
  (d <| d_run_start_s := t_s |> <| d_state := new_state |> <| d_cand_count := 0 |>, out).

Definition smooth (mag : F) (d : dec) : F :=
  match d_env d with
  | None => mag
  | Some e => e + env_smooth (d_cfg d) * (mag - e)
  end.

(** The peak and floor after a block with envelope [e]. *)
Definition track (e : F) (d : dec) : F * F :=
  let '(peak, floor) :=
    match d_peak d, d_floor d with
    | Some p, Some f => (p, f)
    | _, _ => (e, e)
    end in
  (if peak <? e then e else peak + peak_release (d_cfg d) * (e - peak),
   if e <? floor then e else floor + floor_rise (d_cfg d) * (e - floor)).

Definition tracker_range (peak floor : F) : F := num_max (peak - floor) (lit 1 1000000000).

(** The envelope, tracker, SNR and telemetry updates at the head of [_step]. *)
Definition observe (mag t_s : F) (d : dec) : dec :=
  let e := smooth mag d in
  let '(peak, floor) := track e d in
  let rng := tracker_range peak floor in
  let snr := num_of_Z 10 * np_log10 ((peak + lit 1 1000000000) / (floor + lit 1 1000000000)) in
  let d := d <| d_env := Some e |> <| d_peak := Some peak |> <| d_floor := Some floor |>
             <| d_snr := snr |> in
  let r := d_result d in
  d <| d_result := r
         <| r_envelope_t := r_envelope_t r ++ [num_round 4 t_s] |>
         <| r_envelope_mag := r_envelope_mag r ++ [num_round 4 ((e - floor) / rng)] |>
         <| r_envelope_thr := r_envelope_thr r ++ [lit 1 2] |> |>.

Definition squelched (d : dec) : bool :=
  let c := d_cfg d in (num_of_Z 0 <? squelch_db c) && (d_snr d <? squelch_db c).

(** The candidate keyed state, with hysteresis around the threshold. *)
Definition candidate (d : dec) : bool :=
  match d_env d, d_peak d, d_floor d with
  | Some e, Some peak, Some floor =>
      let rng := tracker_range peak floor in
      let thr := floor + lit 1 2 * rng in
      let hi := thr + hysteresis (d_cfg d) * rng in
      let lo := thr - hysteresis (d_cfg d) * rng in
      if negb (d_state d) && (hi <? e) && negb (squelched d) then true
      else if d_state d && ((e <? lo) || squelched d) then false
      else d_cand d
  | _, _, _ => d_cand d
  end.

(** The candidate must persist before it is committed. *)
Definition debounce (cand : bool) (t_s : F) (d : dec) : dec * list ev :=
  if negb (Bool.eqb cand (d_state d)) then
    let d :=
      if Bool.eqb cand (d_cand d) then d <| d_cand_count := (d_cand_count d + 1)%Z |>
      else d <| d_cand := cand |> <| d_cand_count := 1%Z |> in
    if Z.leb (d_debounce_n d) (d_cand_count d) then commit cand t_s d else (d, [])
  else (d <| d_cand := d_state d |> <| d_cand_count := 0%Z |>, []).

(** [_step] *)
Definition step (mag t_s : F) (d : dec) : dec * list ev :=
  let d := observe mag t_s d in
  debounce (candidate d) t_s d.

(** ** Public *)

Definition now_s (d : dec) : F := num_ratio (d_t_samples d) (Z.to_pos (d_fs d)).

(** [_afc_append] *)
Definition afc_append (samples : list S) (d : dec) : dec :=
  let cap := default 0%Z (num_trunc (afc_window_s (d_cfg d) * num_of_Z (d_fs d))) in
  let buf := d_afc_buf d ++ samples in
  (* [buf[-0:]] is the whole buffer *)
  d <| d_afc_buf := if Z.eqb cap 0 then buf else drop (length buf - Z.to_nat cap) buf |>.

(** [_afc_maybe_retune] *)
Definition afc_maybe_retune (d : dec) : dec :=
  let c := d_cfg d in
  let now := now_s d in
  if d_state d || (now - d_afc_last_s d <? afc_interval_s c) then d
  else if Z.ltb (zlen (d_afc_buf d))
            (default 0%Z (num_trunc (lit 1 2 * afc_window_s c * num_of_Z (d_fs d)))) then d
  else
    let d := d <| d_afc_last_s := now |> in
    let '(freq, prominence) :=
      detect_tone_peak (d_afc_buf d) (d_fs d) (afc_band c).1 (afc_band c).2 in
    let shift := if freq <? tone_hz c then tone_hz c - freq else freq - tone_hz c in
    if prominence <? afc_min_prominence c then d
    else if shift <? afc_min_shift_hz c then d
    else
      let d := build_twiddles (d <| d_cfg := c <| tone_hz := freq |> |>) in
      d <| d_result := d_result d <| r_tone_hz := freq |> |>.

(** The magnitude of one block: the strongest of the three bins. *)
Definition block_mag (blk : list S) (d : dec) : F :=
  match (fun f => np_bin f (d_fs d) blk) <$> d_tw d with
  | [] => num_of_Z 0
  | m :: ms => foldl num_max m ms / num_of_Z (d_block d)
  end.

Definition do_block (blk : list S) (d : dec) : dec * list ev :=
  let '(d', out) := step (block_mag blk d) (now_s d) d in
  (d' <| d_t_samples := (d_t_samples d' + d_block d')%Z |>, out).

(** The loop over the [nb] whole blocks of [buf]; returns what is left. *)
Fixpoint do_blocks (nb : nat) (buf : list S) (d : dec) : dec * list ev * list S :=
  match nb with
  | O => (d, [], buf)
  | Datatypes.S n =>
      let '(d1, out1) := do_block (slice_to (d_block d) buf) d in
      let '(d2, out2, rest) := do_blocks n (slice_from (d_block d) buf) d1 in
      (d2, out1 ++ out2, rest)
  end.

(** [if self.cfg.input_gain != 1.0: samples = samples * self.cfg.input_gain] *)
Definition apply_gain (c : CWConfig F) (samples : list S) : list S :=
  if input_gain c =? num_of_Z 1 then samples else np_scale (input_gain c) <$> samples.

(** [process] *)
Definition process (samples : list S) (d : dec) : dec * list ev :=
  let c := d_cfg d in
  let samples := apply_gain c samples in
  let d := if afc c then afc_append samples d else d in
  let buf := d_carry d ++ samples in
  let nb := Z.to_nat (zlen buf / d_block d) in
  let '(d, out, rest) := do_blocks nb buf d in
  let d := d <| d_carry := rest |> in
  (if afc c then afc_maybe_retune d else d, out).

(** [flush]. The characters [_on_mark_end] returns for a dangling mark are
    dropped, as in the source. *)
Definition flush (d : dec) : dec * list ev :=
  if d_flushed d then (d, [])
  else
    let now := now_s d in
    let dur := now - d_run_start_s d in
    let d := if d_state d then
               (on_mark_end (d_run_start_s d) dur d).1 <| d_state := false |>
             else d in
    let '(d, out) :=
      if bool_decide (d_dit d = None) && negb (bool_decide (d_boot_marks d = []%list)) then
        replay_boot (d <| d_dit := Some (estimate_dit d) |>)
      else (d, []) in
    let '(d, out') := flush_char now true d in
    let d := d <| d_result := d_result d
                    <| r_text := rstrip (r_text (d_result d)) |>
                    <| r_wpm_final := num_round 1 (d_wpm d) |> |> in
    (d <| d_flushed := true |>, out ++ out').

Definition finalize (d : dec) : dec * DecodeResult F :=
  let d := (flush d).1 in (d, d_result d).

Definition decode_array (samples : list S) (sample_rate : Z) (config : CWConfig F) :
    option (DecodeResult F) :=
  d ← init sample_rate config;
  Some (finalize (process samples d).1).2.
End Methods.
