(* ===== verification/DecoderFacts.v ===== *)
(** * The decoder: structural theorems

    What holds of [CWDecoder] for any arithmetic and any signal: streaming is
    independent of how the audio is cut, no element is lost or duplicated, the
    copied text is tidy, and end of stream is handled once. *)
From S2P Require Import Prelude PyFloat PyStr Morse Events Decoder.
Open Scope Z_scope.

(** ** Tidy text: no leading space and no two spaces in a row *)

Fixpoint tidy_from (sp : bool) (s : pystr) : bool :=
  match s with
  | [] => true
  | c :: s' => if c =? 32 then negb sp && tidy_from true s' else tidy_from false s'
  end.
Definition tidy (s : pystr) : bool := tidy_from true s.

Lemma tidy_from_weaken sp s : tidy_from true s = true -> tidy_from sp s = true.
Proof. destruct s as [|c s], sp; cbn; try done. destruct (c =? 32); done. Qed.

Lemma tidy_from_app_word sp s w :
  tidy_from sp s = true -> 32 ∉ w -> tidy_from sp (s ++ w) = true.
Proof.
  revert sp. induction s as [|c s IH]; intros sp Hs Hw; cbn in *.
  - revert sp Hs. induction w as [|c w IH]; intros sp Hs; [done|].
    apply not_elem_of_cons in Hw as [Hc Hw]. cbn.
    destruct (Z.eqb_spec c 32); [congruence|]. by apply IH.
  - destruct (c =? 32); bool_to_prop; [rewrite H; cbn|]; by apply IH.
Qed.

Lemma tidy_from_app_space sp s :
  tidy_from sp s = true -> s <> [] -> endswith s [32] = false -> tidy_from sp (s ++ [32]) = true.
Proof.
  revert sp. induction s as [|c s IH]; intros sp Hs Hne He; [done|].
  destruct s as [|c' s].
  - cbn. destruct (Z.eqb_spec c 32); [by subst|done].
  - assert (endswith (c' :: s) [32] = false) as He'.
    { unfold endswith in *. cbn [rev] in He |- *. destruct (rev s ++ [c']) eqn:E.
      - by destruct (rev s).
      - done. }
    cbn [tidy_from app] in Hs |- *. destruct (c =? 32); bool_to_prop.
    + rewrite H; cbn [andb negb]. by apply (IH true).
    + by apply (IH false).
Qed.

Lemma decode_symbol_word code : 32 ∉ decode_symbol code /\ decode_symbol code <> [].
Proof.
  unfold decode_symbol. destruct (MORSE_TO_CHAR !! code) as [c|] eqn:E.
  - assert (map_Forall (fun _ v => 32 ∉ v /\ v <> []) MORSE_TO_CHAR) as HF by by_compute.
    by apply (HF code).
  - split; [by_compute|done].
Qed.

Section Facts.
Context {S F : Type} `{Num F} `{Numpy S F}.
Local Notation dec := (CWDecoder S F).
Local Notation ev := (CharEvent F).
Implicit Types d : dec.

(** ** The copy invariant

    The text is what the character events spell, and their element strings
    followed by the pending symbol are exactly the elements heard. *)
Record copy_ok (d : dec) : Prop := {
  copy_text : r_text (d_result d) = mjoin (ce_char <$> r_chars (d_result d));
  copy_elements :
    mjoin (ce_morse <$> r_chars (d_result d)) ++ d_cur d = el_kind <$> r_elements (d_result d);
  copy_kinds : Forall (fun e => is_element (el_kind e) = true) (r_elements (d_result d));
  copy_tidy : tidy (r_text (d_result d)) = true;
}.

(** [emits d d' out]: going from [d] to [d'] appended exactly [out] to the
    recorded characters and kept the copy invariant. *)
Definition emits (d d' : dec) (out : list ev) : Prop :=
  r_chars (d_result d') = r_chars (d_result d) ++ out /\ (copy_ok d -> copy_ok d').

(** Same copy: the fields the invariant reads are unchanged. *)
Definition same_copy (d d' : dec) : Prop :=
  r_text (d_result d') = r_text (d_result d) /\ r_chars (d_result d') = r_chars (d_result d) /\
  r_elements (d_result d') = r_elements (d_result d) /\ d_cur d' = d_cur d.

Lemma same_copy_emits d d' : same_copy d d' -> emits d d' [].
Proof.
  intros (Ht & Hc & He & Hu). split; [by rewrite Hc, app_nil_r|].
  intros []. split; rewrite ?Ht, ?Hc, ?He, ?Hu; done.
Qed.

Lemma emits_refl d : emits d d [].
Proof. by apply same_copy_emits. Qed.

Lemma emits_trans d1 d2 d3 out1 out2 :
  emits d1 d2 out1 -> emits d2 d3 out2 -> emits d1 d3 (out1 ++ out2).
Proof.
  intros [E1 C1] [E2 C2]. split; [by rewrite E2, E1, app_assoc|auto].
Qed.

Lemma emits_nil_l d1 d2 d3 out : emits d1 d2 [] -> emits d2 d3 out -> emits d1 d3 out.
Proof. apply emits_trans. Qed.

Lemma emits_nil_r d1 d2 d3 out : emits d1 d2 out -> emits d2 d3 [] -> emits d1 d3 out.
Proof. intros A B. rewrite <- (app_nil_r out). by eapply emits_trans. Qed.

Lemma update_wpm_same d : same_copy d (update_wpm d).
Proof. unfold update_wpm. repeat case_match; done. Qed.

Lemma add_element_emits t dur dit d : emits d (add_element t dur dit d) [].
Proof.
  unfold add_element. cbv zeta.
  set (k := if num_ltb _ _ then ch "." else ch "-").
  assert (is_element k = true) as Hk by (subst k; by case_match).
  set (d1 := update_wpm _).
  assert (same_copy d d1) as (Ht & Hc & He & Hu).
  { subst d1. unfold update_wpm. repeat case_match; done. }
  clearbody d1 k. split.
  - destruct (nonempty (d_cur d1)); cbn; by rewrite Hc, app_nil_r.
  - intros [C1 C2 C3 C4].
    destruct (nonempty (d_cur d1)); split; cbn; rewrite ?Ht, ?Hc, ?He, ?Hu; try done.
    all: try (rewrite fmap_app, <- C2, app_assoc; done).
    all: apply Forall_app; split; [done|]; by repeat constructor.
Qed.

Lemma push_symbol_emits t d :
  nonempty (d_cur d) = true ->
  emits d (push_char (char_event t d) d <| d_cur := [] |>) [char_event t d].
Proof.
  intros Hne. split; [done|]. intros [C1 C2 C3 C4].
  destruct (decode_symbol_word (d_cur d)) as [Hsp Hnil].
  split; cbn; [| |done|].
  - by rewrite fmap_app, join_app, C1, <- (app_nil_r (decode_symbol _)).
  - rewrite app_nil_r, fmap_app, join_app. cbn. by rewrite app_nil_r.
  - by apply tidy_from_app_word.
Qed.

Lemma push_space_emits t d :
  nonempty (r_text (d_result d)) = true -> endswith (r_text (d_result d)) (u " ") = false ->
  emits d (push_char (space_event t d) d) [space_event t d].
Proof.
  intros Hne Hend. split; [done|]. intros [C1 C2 C3 C4].
  split; cbn; [| |done|].
  - by rewrite fmap_app, join_app, C1.
  - rewrite fmap_app, join_app. cbn. by rewrite app_nil_r.
  - apply tidy_from_app_space; [done| |done]. by destruct (r_text _).
Qed.

Lemma flush_char_emits t w d : emits d (flush_char t w d).1 (flush_char t w d).2.
Proof.
  unfold flush_char. set (p := if nonempty (d_cur d) then _ else _).
  assert (emits d p.1 p.2) as Hp.
  { subst p. destruct (nonempty (d_cur d)) eqn:E; [by apply push_symbol_emits|apply emits_refl]. }
  destruct p as [d1 out]. cbn in Hp. case_match eqn:E; [|done].
  apply andb_true_iff in E as [E1 E2]. apply andb_true_iff in E1 as [_ E1].
  apply negb_true_iff in E2. eapply emits_trans; [exact Hp|]. by apply push_space_emits.
Qed.

Lemma space_logic_emits dur t dit d :
  emits d (space_logic dur t dit d).1 (space_logic dur t dit d).2.
Proof.
  unfold space_logic. destruct (num_ltb _ _); [apply emits_refl|].
  destruct (num_ltb _ _); apply flush_char_emits.
Qed.

Lemma replay_run_emits d out run :
  exists out', (replay_run (d, out) run).2 = out ++ out' /\ emits d (replay_run (d, out) run).1 out'.
Proof.
  destruct run as [[on t] dur]. cbn. destruct (d_dit d) as [dit|].
  2: { exists []. rewrite app_nil_r. auto using emits_refl. }
  destruct on.
  { exists []. rewrite app_nil_r. split; [done|apply add_element_emits]. }
  pose proof (space_logic_emits dur (num_add t dur) dit d) as Hs.
  destruct (space_logic _ _ _ _) as [d' o]. exists o. done.
Qed.

Lemma replay_runs_emits runs d out :
  exists out', (foldl replay_run (d, out) runs).2 = out ++ out' /\
    emits d (foldl replay_run (d, out) runs).1 out'.
Proof.
  revert d out. induction runs as [|run runs IH]; intros d out; cbn [foldl].
  { exists []. rewrite app_nil_r. auto using emits_refl. }
  destruct (replay_run_emits d out run) as (o1 & E1 & H1).
  destruct (replay_run (d, out) run) as [d1 out1]. cbn in E1, H1. subst out1.
  destruct (IH d1 (out ++ o1)) as (o2 & -> & H2).
  exists (o1 ++ o2). rewrite app_assoc. eauto using emits_trans.
Qed.

Lemma replay_boot_emits d : emits d (replay_boot d).1 (replay_boot d).2.
Proof.
  unfold replay_boot.
  destruct (replay_runs_emits (d_boot_runs (update_wpm d)) (update_wpm d) []) as (o & E & Hm).
  destruct (foldl _ _ _) as [d' out]. cbn in E, Hm. subst out.
  apply (emits_nil_l _ (update_wpm d)); [apply same_copy_emits, update_wpm_same|].
  apply (emits_nil_r _ d'); [done|by apply same_copy_emits].
Qed.

Lemma on_mark_end_emits t dur d : emits d (on_mark_end t dur d).1 (on_mark_end t dur d).2.
Proof.
  unfold on_mark_end. cbv zeta.
  set (d1 := d <| d_result := _ |>).
  assert (emits d d1 []) as H1 by by apply same_copy_emits.
  destruct (d_dit d1) as [dit|].
  { eapply emits_nil_l; [exact H1|]. apply add_element_emits. }
  case_match.
  - eapply emits_nil_l; [|apply replay_boot_emits]. by apply same_copy_emits.
  - by apply same_copy_emits.
Qed.

Lemma on_space_end_emits dur d : emits d (on_space_end dur d).1 (on_space_end dur d).2.
Proof.
  unfold on_space_end. destruct (d_dit d); [apply space_logic_emits|].
  case_match; by apply same_copy_emits.
Qed.

Lemma commit_emits st t d : emits d (commit st t d).1 (commit st t d).2.
Proof.
  unfold commit. set (p := if d_state d then _ else _).
  assert (emits d p.1 p.2) as Hp.
  { subst p. destruct (d_state d); auto using on_mark_end_emits, on_space_end_emits. }
  destruct p as [d' out]. apply (emits_nil_r _ d'); [done|by apply same_copy_emits].
Qed.

Lemma observe_same mag t d : same_copy d (observe mag t d).
Proof. unfold observe. destruct (track _ _). done. Qed.

Lemma debounce_emits c t d : emits d (debounce c t d).1 (debounce c t d).2.
Proof.
  unfold debounce. cbv zeta. destruct (negb _); [|by apply same_copy_emits].
  set (d1 := if Bool.eqb c (d_cand d) then _ else _).
  assert (emits d d1 []) as H1 by (subst d1; case_match; by apply same_copy_emits).
  case_match; [|done]. eapply emits_nil_l; [exact H1|apply commit_emits].
Qed.

Lemma step_emits mag t d : emits d (step mag t d).1 (step mag t d).2.
Proof.
  unfold step. eapply emits_nil_l; [apply same_copy_emits, observe_same|apply debounce_emits].
Qed.

Lemma do_block_emits blk d : emits d (do_block blk d).1 (do_block blk d).2.
Proof.
  unfold do_block. pose proof (step_emits (block_mag blk d) (now_s d) d) as Hs.
  destruct (step _ _ _) as [d' out]. apply (emits_nil_r _ d'); [done|by apply same_copy_emits].
Qed.

Lemma do_blocks_emits n buf d :
  emits d (do_blocks n buf d).1.1 (do_blocks n buf d).1.2.
Proof.
  revert buf d. induction n as [|n IH]; intros buf d; cbn; [apply emits_refl|].
  pose proof (do_block_emits (slice_to (d_block d) buf) d) as H1.
  destruct (do_block _ _) as [d1 out1].
  specialize (IH (slice_from (d_block d) buf) d1).
  destruct (do_blocks _ _ _) as [[d2 out2] rest]. cbn in *. eauto using emits_trans.
Qed.

Lemma afc_maybe_retune_same d : same_copy d (afc_maybe_retune d).
Proof. unfold afc_maybe_retune. repeat case_match; done. Qed.

Lemma process_emits samples d : emits d (process samples d).1 (process samples d).2.
Proof.
  unfold process. cbv zeta.
  set (d1 := if afc (d_cfg d) then afc_append _ d else d).
  assert (emits d d1 []) as H1 by (subst d1; case_match; by apply same_copy_emits).
  set (buf := d_carry d1 ++ _). set (n := Z.to_nat _).
  pose proof (do_blocks_emits n buf d1) as H2.
  destruct (do_blocks n buf d1) as [[d2 out] rest]. cbn in H2 |- *.
  apply (emits_nil_l _ d1); [exact H1|]. apply (emits_nil_r _ d2); [exact H2|].
  case_match; [|by apply same_copy_emits].
  apply (emits_nil_l _ (d2 <| d_carry := rest |>)); [by apply same_copy_emits|].
  apply same_copy_emits, afc_maybe_retune_same.
Qed.

(** ** Feeding a stream *)

(** Successive [process] calls, with every event they return. *)
Fixpoint feed (chunks : list (list S)) (d : dec) : dec * list ev :=
  match chunks with
  | [] => (d, [])
  | c :: cs =>
      let '(d1, out1) := process c d in
      let '(d2, out2) := feed cs d1 in
      (d2, out1 ++ out2)
  end.

Lemma feed_emits chunks d : emits d (feed chunks d).1 (feed chunks d).2.
Proof.
  revert d. induction chunks as [|c cs IH]; intros d; cbn [feed]; [apply emits_refl|].
  pose proof (process_emits c d) as H1. destruct (process c d) as [d1 o1].
  specialize (IH d1). destruct (feed cs d1) as [d2 o2]. eauto using emits_trans.
Qed.

Lemma init_fresh fs cfg d :
  init fs cfg = Some d -> copy_ok d /\ r_chars (d_result d) = [] /\ 0 < d_block d.
Proof.
  unfold init, reset. intros (b & _ & E)%bind_Some.
  apply bind_Some in E as (n & _ & [= <-]). split; [|split; [done|cbn; lia]].
  by split.
Qed.

(** ** Independence from the carry buffer *)

Local Notation wc c d := (d <| d_carry := c |>).
Local Notation wcp c p := (p.1 <| d_carry := c |>, p.2).

Lemma update_wpm_carry c d : update_wpm (wc c d) = wc c (update_wpm d).
Proof.
  unfold update_wpm. change (d_dit (wc c d)) with (d_dit d).
  destruct (d_dit d); [|done]. by destruct (num_eqb _ _).
Qed.

Lemma add_element_carry c t dur dit d :
  add_element t dur dit (wc c d) = wc c (add_element t dur dit d).
Proof.
  unfold add_element. cbv zeta. set (k := if num_ltb _ _ then _ else _).
  set (x := Some _). change (wc c d <| d_dit := x |>) with (wc c (d <| d_dit := x |>)).
  rewrite update_wpm_carry. generalize (update_wpm (d <| d_dit := x |>)). intros d1.
  change (d_cur (wc c d1)) with (d_cur d1). by destruct (nonempty (d_cur d1)).
Qed.

Lemma flush_char_carry c t w d : flush_char t w (wc c d) = wcp c (flush_char t w d).
Proof.
  unfold flush_char. change (d_cur (wc c d)) with (d_cur d).
  destruct (nonempty (d_cur d)); cbn; by destruct (w && _ && _).
Qed.

Lemma space_logic_carry c dur t dit d :
  space_logic dur t dit (wc c d) = wcp c (space_logic dur t dit d).
Proof.
  unfold space_logic. rewrite !flush_char_carry.
  destruct (num_ltb _ _); [done|]. by destruct (num_ltb _ _).
Qed.

Lemma replay_run_carry c d out run :
  replay_run (wc c d, out) run = wcp c (replay_run (d, out) run).
Proof.
  destruct run as [[on t] dur]. unfold replay_run.
  change (d_dit (wc c d)) with (d_dit d). destruct (d_dit d) as [dit|]; [|done].
  rewrite add_element_carry, space_logic_carry. destruct on; [done|].
  by destruct (space_logic dur (num_add t dur) dit d).
Qed.

Lemma replay_runs_carry c runs d out :
  foldl replay_run (wc c d, out) runs = wcp c (foldl replay_run (d, out) runs).
Proof.
  revert d out. induction runs as [|r runs IH]; intros d out; [done|]. cbn [foldl].
  rewrite replay_run_carry. destruct (replay_run (d, out) r) as [d' o]. apply IH.
Qed.

Lemma replay_boot_carry c d : replay_boot (wc c d) = wcp c (replay_boot d).
Proof.
  unfold replay_boot.
  rewrite update_wpm_carry, replay_runs_carry.
  change (d_boot_runs (wc c (update_wpm d))) with (d_boot_runs (update_wpm d)).
  by destruct (foldl _ _ _).
Qed.

Lemma on_mark_end_carry c t dur d : on_mark_end t dur (wc c d) = wcp c (on_mark_end t dur d).
Proof.
  unfold on_mark_end. cbv zeta. set (kr := Build_KeyRun _ _ _).
  change (d_result (wc c d)) with (d_result d).
  set (r := d_result d <| r_key_runs := _ |>).
  change (wc c d <| d_result := r |>) with (wc c (d <| d_result := r |>)).
  generalize (d <| d_result := r |>). intros d1.
  change (d_dit (wc c d1)) with (d_dit d1). destruct (d_dit d1) as [dit|].
  - by rewrite add_element_carry.
  - change (d_boot_runs (wc c d1)) with (d_boot_runs d1).
    set (runs := d_boot_runs d1 ++ _).
    change (wc c d1 <| d_boot_runs := runs |>) with (wc c (d1 <| d_boot_runs := runs |>)).
    generalize (d1 <| d_boot_runs := runs |>). intros d2.
    change (d_boot_marks (wc c d2)) with (d_boot_marks d2).
    set (marks := d_boot_marks d2 ++ _).
    change (wc c d2 <| d_boot_marks := marks |>) with (wc c (d2 <| d_boot_marks := marks |>)).
    generalize (d2 <| d_boot_marks := marks |>). intros d3.
    change (d_cfg (wc c d3)) with (d_cfg d3). change (d_boot_marks (wc c d3)) with (d_boot_marks d3).
    change (estimate_dit (wc c d3)) with (estimate_dit d3).
    case_match; [|done]. set (x := Some _).
    change (wc c d3 <| d_dit := x |>) with (wc c (d3 <| d_dit := x |>)).
    apply replay_boot_carry.
Qed.

Lemma commit_carry c st t d : commit st t (wc c d) = wcp c (commit st t d).
Proof.
  unfold commit. change (d_state (wc c d)) with (d_state d).
  change (d_run_start_s (wc c d)) with (d_run_start_s d). rewrite on_mark_end_carry.
  destruct (d_state d).
  - by destruct (on_mark_end _ _ _).
  - unfold on_space_end. change (d_dit (wc c d)) with (d_dit d).
    change (d_boot_marks (wc c d)) with (d_boot_marks d).
    destruct (d_dit d) as [dit|].
    + rewrite space_logic_carry. by destruct (space_logic _ _ _ _).
    + by case_match.
Qed.

Lemma debounce_tail_carry c k t d :
  (if d_debounce_n (wc c d) <=? d_cand_count (wc c d) then commit k t (wc c d) else (wc c d, []))
  = wcp c (if d_debounce_n d <=? d_cand_count d then commit k t d else (d, [])).
Proof.
  change (d_debounce_n (wc c d)) with (d_debounce_n d).
  change (d_cand_count (wc c d)) with (d_cand_count d).
  destruct (_ <=? _); [apply commit_carry|done].
Qed.

Lemma step_carry c mag t d : step mag t (wc c d) = wcp c (step mag t d).
Proof.
  unfold step.
  assert (observe mag t (wc c d) = wc c (observe mag t d)) as ->.
  { unfold observe. change (smooth mag (wc c d)) with (smooth mag d).
    change (track (smooth mag d) (wc c d)) with (track (smooth mag d) d).
    by destruct (track _ d). }
  generalize (observe mag t d) as d0. intros d0.
  change (candidate (wc c d0)) with (candidate d0). generalize (candidate d0) as k. intros k.
  unfold debounce. change (d_state (wc c d0)) with (d_state d0).
  change (d_cand (wc c d0)) with (d_cand d0). destruct (negb _); [|done].
  destruct (Bool.eqb k (d_cand d0)); cbv zeta.
  - set (n := (d_cand_count d0 + 1)%Z).
    change (wc c d0 <| d_cand_count := (d_cand_count (wc c d0) + 1)%Z |>)
      with (wc c (d0 <| d_cand_count := n |>)).
    generalize (d0 <| d_cand_count := n |>). apply debounce_tail_carry.
  - change (wc c d0 <| d_cand := k |> <| d_cand_count := 1 |>)
      with (wc c (d0 <| d_cand := k |> <| d_cand_count := 1 |>)).
    generalize (d0 <| d_cand := k |> <| d_cand_count := 1 |>). apply debounce_tail_carry.
Qed.

Lemma do_block_carry c blk d : do_block blk (wc c d) = wcp c (do_block blk d).
Proof.
  unfold do_block. change (block_mag blk (wc c d)) with (block_mag blk d).
  change (now_s (wc c d)) with (now_s d). rewrite step_carry.
  by destruct (step _ _ _).
Qed.

(** ** What the run -> character stages leave alone *)

(** Everything but the timing and decode state. *)
Definition same_signal (d d' : dec) : Prop :=
  (d_cfg d' = d_cfg d /\ d_block d' = d_block d /\ d_fs d' = d_fs d) /\
  (d_state d' = d_state d /\ d_cand d' = d_cand d /\ d_debounce_n d' = d_debounce_n d) /\
  (d_env d' = d_env d /\ d_peak d' = d_peak d /\ d_floor d' = d_floor d /\ d_snr d' = d_snr d) /\
  d_t_samples d' = d_t_samples d /\ d_run_start_s d' = d_run_start_s d.

Lemma same_signal_trans d1 d2 d3 : same_signal d1 d2 -> same_signal d2 d3 -> same_signal d1 d3.
Proof. unfold same_signal. intros; intuition congruence. Qed.

Lemma update_wpm_signal d : same_signal d (update_wpm d).
Proof. unfold update_wpm. destruct (d_dit d); [|done]. by destruct (num_eqb _ _). Qed.

Lemma add_element_signal t dur dit d : same_signal d (add_element t dur dit d).
Proof.
  unfold add_element. cbv zeta. set (x := Some _).
  apply (same_signal_trans _ (update_wpm (d <| d_dit := x |>))).
  - apply (same_signal_trans _ (d <| d_dit := x |>)); [done|apply update_wpm_signal].
  - generalize (update_wpm (d <| d_dit := x |>)). intros d1. by destruct (nonempty (d_cur d1)).
Qed.

Lemma flush_char_signal t w d : same_signal d (flush_char t w d).1.
Proof. unfold flush_char. destruct (nonempty (d_cur d)); by destruct (w && _ && _). Qed.

Lemma space_logic_signal dur t dit d : same_signal d (space_logic dur t dit d).1.
Proof.
  unfold space_logic. repeat (destruct (num_ltb _ _)); try apply flush_char_signal. done.
Qed.

Lemma replay_runs_signal runs d out : same_signal d (foldl replay_run (d, out) runs).1.
Proof.
  revert d out. induction runs as [|[[on t] dur] runs IH]; intros d out; [done|].
  cbn [foldl]. unfold replay_run at 2. destruct (d_dit d) as [dit|]; [|apply IH].
  destruct on.
  - eapply same_signal_trans; [apply add_element_signal|apply IH].
  - pose proof (space_logic_signal dur (num_add t dur) dit d) as Hs.
    destruct (space_logic _ _ _ _). eapply same_signal_trans; [exact Hs|apply IH].
Qed.

Lemma replay_boot_signal d : same_signal d (replay_boot d).1.
Proof.
  unfold replay_boot.
  pose proof (replay_runs_signal (d_boot_runs (update_wpm d)) (update_wpm d) []) as Hr.
  destruct (foldl _ _ _) as [d' o]. cbn in *.
  eapply same_signal_trans; [apply update_wpm_signal|exact Hr].
Qed.

Lemma on_mark_end_signal t dur d : same_signal d (on_mark_end t dur d).1.
Proof.
  unfold on_mark_end. cbv zeta. set (d1 := d <| d_result := _ |>).
  apply (same_signal_trans _ d1); [done|]. clearbody d1. destruct (d_dit d1).
  - apply add_element_signal.
  - case_match; [|done]. eapply same_signal_trans; [|apply replay_boot_signal]. done.
Qed.

Lemma on_space_end_signal dur d : same_signal d (on_space_end dur d).1.
Proof.
  unfold on_space_end. destruct (d_dit d); [apply space_logic_signal|by case_match].
Qed.

(** A commit changes the keyed state to the one committed, and nothing else
    of the signal state. *)
Lemma commit_signal st t d :
  let d' := (commit st t d).1 in
  d_state d' = st /\ d_cand d' = d_cand d /\ d_cfg d' = d_cfg d /\ d_block d' = d_block d /\
  d_fs d' = d_fs d /\ d_debounce_n d' = d_debounce_n d.
Proof.
  unfold commit.
  set (p := if d_state d then _ else _).
  assert (same_signal d p.1) as Hp
    by (subst p; destruct (d_state d); [apply on_mark_end_signal|apply on_space_end_signal]).
  destruct p as [d' out]. unfold same_signal in Hp. cbn in *. intuition.
Qed.

(** ** The configuration is constant while no retuning happens *)

Definition same_setup (d d' : dec) : Prop :=
  d_cfg d' = d_cfg d /\ d_block d' = d_block d /\ d_fs d' = d_fs d /\
  d_debounce_n d' = d_debounce_n d.

Lemma same_setup_trans d1 d2 d3 : same_setup d1 d2 -> same_setup d2 d3 -> same_setup d1 d3.
Proof. unfold same_setup. intros; intuition congruence. Qed.

Lemma commit_setup st t d : same_setup d (commit st t d).1.
Proof. destruct (commit_signal st t d) as (? & ? & ? & ? & ? & ?). by repeat split. Qed.

Lemma debounce_setup k t d : same_setup d (debounce k t d).1.
Proof.
  unfold debounce. destruct (negb _); [|done]. cbv zeta.
  set (d1 := if Bool.eqb _ _ then _ else _).
  apply (same_setup_trans _ d1); [subst d1; by destruct (Bool.eqb _ _)|].
  clearbody d1. destruct (_ <=? _); [apply commit_setup|done].
Qed.

Lemma do_block_setup blk d : same_setup d (do_block blk d).1.
Proof.
  unfold do_block, step. set (m := block_mag blk d). set (t := now_s d).
  pose proof (debounce_setup (candidate (observe m t d)) t (observe m t d)) as H2.
  destruct (debounce _ _ _) as [d' o]. cbn in H2.
  apply (same_setup_trans _ (observe m t d)); [|done].
  unfold observe. by destruct (track _ d).
Qed.

(** ** Chunking *)

Lemma do_blocks_carry c n buf d :
  do_blocks n buf (wc c d) =
    (wc c (do_blocks n buf d).1.1, (do_blocks n buf d).1.2, (do_blocks n buf d).2).
Proof.
  revert buf d. induction n as [|n IH]; intros buf d; [done|]. cbn [do_blocks].
  change (d_block (wc c d)) with (d_block d).
  rewrite do_block_carry. destruct (do_block _ d) as [d1 o1]. cbn [fst snd]. rewrite IH.
  by destruct (do_blocks n _ d1) as [[d2 o2] r].
Qed.

Lemma do_blocks_setup n buf d : same_setup d (do_blocks n buf d).1.1.
Proof.
  revert buf d. induction n as [|n IH]; intros buf d; [done|]. cbn.
  pose proof (do_block_setup (slice_to (d_block d) buf) d) as H1.
  destruct (do_block _ d) as [d1 o1]. specialize (IH (slice_from (d_block d) buf) d1).
  destruct (do_blocks _ _ _) as [[d2 o2] r]. by eapply same_setup_trans.
Qed.

(** Running [n + m] blocks is running [n], then [m] on what is left. *)
Lemma do_blocks_add n m buf extra d :
  0 < d_block d -> Z.of_nat n * d_block d <= zlen buf ->
  do_blocks (n + m) (buf ++ extra) d =
    let '(d1, o1, r1) := do_blocks n buf d in
    let '(d2, o2, r2) := do_blocks m (r1 ++ extra) d1 in
    (d2, o1 ++ o2, r2).
Proof.
  intros Hb. revert buf d Hb. induction n as [|n IH]; intros buf d Hb Hn; cbn [Nat.add do_blocks].
  { by destruct (do_blocks m (buf ++ extra) d) as [[d2 o2] r2]. }
  unfold slice_to, slice_from. unfold zlen in Hn.
  rewrite take_app_le by lia. rewrite drop_app_le by lia.
  pose proof (do_block_setup (take (Z.to_nat (d_block d)) buf) d) as (_ & Hb1 & _ & _).
  destruct (do_block _ d) as [d1 o1]. cbn in Hb1. rewrite IH; [|lia|].
  - destruct (do_blocks n _ d1) as [[d2 o2] r2].
    destruct (do_blocks m _ d2) as [[d3 o3] r3]. by rewrite app_assoc.
  - unfold zlen. rewrite length_drop, Hb1. lia.
Qed.

Lemma do_blocks_rest n buf d :
  0 < d_block d -> (do_blocks n buf d).2 = drop (n * Z.to_nat (d_block d)) buf.
Proof.
  revert buf d. induction n as [|n IH]; intros buf d Hb; [done|]. cbn.
  pose proof (do_block_setup (slice_to (d_block d) buf) d) as (_ & Hb1 & _ & _).
  destruct (do_block _ d) as [d1 o1]. cbn in Hb1.
  specialize (IH (slice_from (d_block d) buf) d1 ltac:(lia)).
  destruct (do_blocks _ _ _) as [[d2 o2] r]. cbn in *. rewrite IH, Hb1.
  unfold slice_from. rewrite drop_drop. done.
Qed.

Lemma process_no_afc xs d :
  afc (d_cfg d) = false ->
  process xs d =
    let buf := d_carry d ++ apply_gain (d_cfg d) xs in
    let '(d', out, rest) := do_blocks (Z.to_nat (zlen buf / d_block d)) buf d in
    (wc rest d', out).
Proof. intros Hafc. unfold process. cbv zeta. by rewrite Hafc. Qed.

Lemma process_app xs ys d :
  afc (d_cfg d) = false -> 0 < d_block d ->
  process (xs ++ ys) d =
    let '(d1, o1) := process xs d in
    let '(d2, o2) := process ys d1 in (d2, o1 ++ o2).
Proof.
  intros Hafc Hb. rewrite !process_no_afc by done. cbv zeta.
  set (sc := apply_gain (d_cfg d)).
  assert (forall l k, sc (l ++ k) = sc l ++ sc k) as Hsc
    by (intros; subst sc; unfold apply_gain; case_match; by rewrite ?fmap_app).
  rewrite Hsc, app_assoc.
  set (buf := d_carry d ++ sc xs). set (n1 := Z.to_nat (zlen buf / d_block d)).
  pose proof (do_blocks_setup n1 buf d) as (Hc1 & Hb1 & _ & _).
  pose proof (do_blocks_rest n1 buf d Hb) as Hr.
  assert (Z.of_nat n1 = zlen buf / d_block d) as Hn1.
  { subst n1. rewrite Z2Nat.id; [done|]. apply Z.div_pos; [|lia]. apply zlen_nonneg. }
  assert (Z.of_nat n1 * d_block d <= zlen buf) as Hle
    by (rewrite Hn1, Z.mul_comm; by apply Z.mul_div_le).
  set (n2 := Z.to_nat (zlen (drop (n1 * Z.to_nat (d_block d)) buf ++ sc ys) / d_block d)).
  assert (Z.to_nat (zlen (buf ++ sc ys) / d_block d) = n1 + n2)%nat as ->.
  { subst n2. rewrite !zlen_app. unfold zlen at 3. rewrite length_drop.
    replace (Z.of_nat (length buf - n1 * Z.to_nat (d_block d)))
      with (zlen buf - Z.of_nat n1 * d_block d) by (unfold zlen in *; lia).
    replace (zlen buf + zlen (sc ys))
      with (zlen buf - Z.of_nat n1 * d_block d + zlen (sc ys) + Z.of_nat n1 * d_block d) by lia.
    rewrite Z.div_add by lia. rewrite Z2Nat.inj_add; [lia| |lia].
    apply Z.div_pos; [|lia]. pose proof (zlen_nonneg (sc ys)). lia. }
  rewrite do_blocks_add by done.
  destruct (do_blocks n1 buf d) as [[d1 o1] r1]. cbn in Hc1, Hb1, Hr.
  subst r1. set (r1 := drop _ buf) in *.
  rewrite process_no_afc by (change (d_cfg (wc r1 d1)) with (d_cfg d1); by rewrite Hc1).
  change (d_carry (wc r1 d1)) with r1. change (d_cfg (wc r1 d1)) with (d_cfg d1).
  change (d_block (wc r1 d1)) with (d_block d1). rewrite Hc1, Hb1. fold sc. cbv zeta. fold n2.
  rewrite do_blocks_carry. by destruct (do_blocks n2 _ d1) as [[d2 o2] r2].
Qed.

Lemma feed_app cs1 cs2 d :
  feed (cs1 ++ cs2) d =
    let '(d1, o1) := feed cs1 d in let '(d2, o2) := feed cs2 d1 in (d2, o1 ++ o2).
Proof.
  revert d. induction cs1 as [|c cs1 IH]; intros d; cbn [feed app].
  { by destruct (feed cs2 d). }
  destruct (process c d) as [d1 o1]. rewrite IH.
  destruct (feed cs1 d1) as [d2 o2]. destruct (feed cs2 d2) as [d3 o3]. by rewrite app_assoc.
Qed.

Lemma process_setup xs d : afc (d_cfg d) = false -> same_setup d (process xs d).1.
Proof.
  intros Hafc. rewrite process_no_afc by done. cbv zeta.
  pose proof (do_blocks_setup
    (Z.to_nat (zlen (d_carry d ++ apply_gain (d_cfg d) xs) / d_block d))
    (d_carry d ++ apply_gain (d_cfg d) xs) d) as Hs.
  by destruct (do_blocks _ _ _) as [[d' out] rest].
Qed.

(** ** End of stream *)

(** The characters recorded while [flush] closes a dangling mark, which it
    does not return. *)
Definition flush_lost (d : dec) : list ev :=
  if d_state d then (on_mark_end (d_run_start_s d) (num_sub (now_s d) (d_run_start_s d)) d).2
  else [].

Lemma flush_char_cur t w d : d_cur (flush_char t w d).1 = [].
Proof.
  unfold flush_char. destruct (nonempty (d_cur d)) eqn:E.
  - by destruct (w && _ && _).
  - destruct (w && _ && _); cbn; by destruct (d_cur d).
Qed.

(** [flush], with the last bookkeeping step left out. *)
Lemma flush_body d :
  d_flushed d = false ->
  exists d1, emits d d1 (flush_lost d ++ (flush d).2) /\ d_cur d1 = [] /\
    (flush d).1 = d1 <| d_result := d_result d1 <| r_text := rstrip (r_text (d_result d1)) |>
                          <| r_wpm_final := num_round 1 (d_wpm d1) |> |>
                     <| d_flushed := true |>.
Proof.
  intros Hf. unfold flush. rewrite Hf. cbv zeta. unfold flush_lost.
  set (dur := num_sub (now_s d) (d_run_start_s d)).
  set (da := if d_state d then _ else d).
  assert (emits d da (if d_state d then (on_mark_end (d_run_start_s d) dur d).2 else [])) as Ha.
  { subst da. destruct (d_state d); [|apply emits_refl].
    eapply emits_nil_r; [apply on_mark_end_emits|by apply same_copy_emits]. }
  clearbody da. set (p := if bool_decide (d_dit da = None) && _ then _ else _).
  assert (emits da p.1 p.2) as Hp.
  { subst p. destruct (_ && _); [|apply emits_refl].
    eapply emits_nil_l; [|apply replay_boot_emits]. by apply same_copy_emits. }
  destruct p as [db out]. cbn in Hp.
  pose proof (flush_char_emits (now_s d) true db) as Hc.
  pose proof (flush_char_cur (now_s d) true db) as Hcur.
  destruct (flush_char (now_s d) true db) as [dc out'].
  exists dc. eauto using emits_trans.
Qed.

(** ** Properties *)

(** a whole session, fed in any pieces and then flushed. The recorded
    characters are the events the calls returned, in order (with the ones
    [flush] fails to return in their place); the final copy is exactly what
    they spell, stripped at the end; their element strings, joined, are
    exactly the elements heard, so no dot or dash is lost, repeated or moved
    between characters; and every element is a dot or a dash. *)
Theorem session_copy (fs : Z) (cfg : CWConfig F) (chunks : list (list S)) (d0 : dec) :
  init fs cfg = Some d0 ->
  let '(d1, out1) := feed chunks d0 in
  let '(d2, out2) := flush d1 in
  d_flushed d1 = false ->
  let r := d_result d2 in
  r_chars r = out1 ++ flush_lost d1 ++ out2 /\
  r_text r = rstrip (mjoin (ce_char <$> r_chars r)) /\
  mjoin (ce_morse <$> r_chars r) = el_kind <$> r_elements r /\
  Forall (fun e => is_element (el_kind e) = true) (r_elements r).
Proof.
  intros Hi. destruct (init_fresh _ _ _ Hi) as (Hok & Hch & _).
  pose proof (feed_emits chunks d0) as [Hc1 Hk1].
  destruct (feed chunks d0) as [d1 out1]. cbn in Hc1, Hk1.
  destruct (flush d1) as [d2 out2] eqn:E. intros Hf.
  destruct (flush_body d1 Hf) as (dx & [Hcx Hkx] & Hcur & E2). rewrite E in E2, Hcx. cbn in E2, Hcx.
  destruct (Hkx (Hk1 Hok)) as [T1 T2 T3 _]. rewrite E2. cbn.
  rewrite Hcx, Hc1, Hch. split; [done|]. rewrite <- Hch, <- Hc1, <- Hcx, <- T1.
  rewrite Hcur, app_nil_r in T2. done.
Qed.

(** while the stream runs, the copy never starts with a space and never
    has two spaces in a row, whatever the signal. *)
Theorem live_copy_tidy (fs : Z) (cfg : CWConfig F) (chunks : list (list S)) (d0 : dec) :
  init fs cfg = Some d0 ->
  let text := r_text (d_result (feed chunks d0).1) in
  tidy text = true /\ text = mjoin (ce_char <$> (feed chunks d0).2).
Proof.
  intros Hi. destruct (init_fresh _ _ _ Hi) as (Hok & Hch & _).
  pose proof (feed_emits chunks d0) as [Hc1 Hk1].
  destruct (feed chunks d0) as [d1 out1]. cbn in *.
  destruct (Hk1 Hok) as [T1 _ _ T4]. split; [done|]. by rewrite T1, Hc1, Hch.
Qed.

(** C4: streaming and one-shot decoding agree. With the frequency control
    off, however the audio is cut into chunks, the decoder ends in the same
    state (carried samples included) and returns the same events. *)
Theorem chunking_invariant (chunks : list (list S)) (d : dec) :
  afc (d_cfg d) = false -> 0 < d_block d -> chunks <> [] ->
  feed chunks d = process (mjoin chunks) d.
Proof.
  revert d. induction chunks as [|c cs IH]; intros d Hafc Hb Hne; [done|].
  destruct cs as [|c2 cs].
  - cbn. rewrite app_nil_r. destruct (process c d) as [d1 o1]. by rewrite app_nil_r.
  - change (mjoin (c :: c2 :: cs)) with (c ++ mjoin (c2 :: cs)).
    rewrite process_app by done.
    change (feed (c :: c2 :: cs) d) with
      (let '(d1, out1) := process c d in
       let '(d2, out2) := feed (c2 :: cs) d1 in (d2, out1 ++ out2)).
    destruct (process_setup c d Hafc) as (Hc & Hb' & _).
    destruct (process c d) as [d1 o1]. cbn in Hc, Hb'.
    by rewrite (IH d1) by (rewrite ?Hc; done || lia).
Qed.

(** ending the stream twice is ending it once: the second [flush]
    returns nothing and changes nothing. *)
Theorem flush_idempotent (d : dec) : flush (flush d).1 = ((flush d).1, []).
Proof.
  destruct (d_flushed d) eqn:Hf.
  - unfold flush. by rewrite Hf; cbn; rewrite Hf.
  - destruct (flush_body d Hf) as (d1 & _ & _ & ->). done.
Qed.

(** The next keyed state with a debounce of one block. *)
Definition next_state (d : dec) : bool :=
  match d_env d, d_peak d, d_floor d with
  | Some e, Some peak, Some floor =>
      let rng := tracker_range peak floor in
      let thr := num_add floor (num_mul (lit 1 2) rng) in
      let hi := num_add thr (num_mul (hysteresis (d_cfg d)) rng) in
      let lo := num_sub thr (num_mul (hysteresis (d_cfg d)) rng) in
      if d_state d then negb (num_ltb e lo || squelched d)
      else num_ltb hi e && negb (squelched d)
  | _, _, _ => d_state d
  end.

Lemma observe_signal mag t d :
  d_state (observe mag t d) = d_state d /\ d_cand (observe mag t d) = d_cand d /\
  d_debounce_n (observe mag t d) = d_debounce_n d.
Proof. unfold observe. by destruct (track _ d). Qed.

Lemma candidate_settled d : d_cand d = d_state d -> candidate d = next_state d.
Proof.
  intros Hc. unfold candidate, next_state. rewrite Hc.
  destruct (d_env d), (d_peak d), (d_floor d); try done.
  destruct (d_state d); cbn [negb andb].
  - by destruct (num_ltb _ _ || _).
  - by destruct (num_ltb _ _ && _).
Qed.

(** with the default one-block debounce, the key line follows the
    hysteresis band exactly: it opens on a block whose envelope exceeds the
    upper threshold and passes the squelch gate, closes on one below the
    lower threshold or the gate, and holds otherwise; and the decoder is
    again settled, so this describes every block of a run. *)
Theorem key_follows_threshold (mag t : F) (d : dec) :
  d_debounce_n d <= 1 -> d_cand d = d_state d ->
  let d' := (step mag t d).1 in
  d_state d' = next_state (observe mag t d) /\ d_cand d' = d_state d'.
Proof.
  intros Hn Hc. unfold step.
  destruct (observe_signal mag t d) as (Es & Ec & En).
  rewrite candidate_settled by congruence. revert Es Ec En.
  generalize (observe mag t d). intros d1 Es Ec En.
  generalize (next_state d1). intros k. unfold debounce.
  destruct (Bool.eqb k (d_state d1)) eqn:E; cbn [negb].
  - apply Bool.eqb_prop in E. done.
  - replace (Bool.eqb k (d_cand d1)) with false by (rewrite Ec, Hc, <- Es; done).
    cbv zeta. cbn [d_debounce_n d_cand_count upd].
    rewrite (proj2 (Z.leb_le _ _)) by lia.
    pose proof (commit_signal k t (d1 <| d_cand := k |> <| d_cand_count := 1 |>)) as Hs.
    cbv zeta in Hs. destruct Hs as (Hs1 & Hs2 & _). split; [exact Hs1|].
    etransitivity; [exact Hs2|]. symmetry. exact Hs1.
Qed.

(** a pending candidate is never withdrawn. Once a block has started a
    state change, the change is committed when the count reaches the
    debounce length whatever the blocks in between contain, even silence
    below the squelch gate: the debounce delays a glitch but does not
    reject it. *)
Theorem pending_key_always_opens (mag t : F) (d : dec) :
  d_state d = false -> d_cand d = true ->
  let d' := (step mag t d).1 in
  (d_debounce_n d <= d_cand_count d + 1 -> d_state d' = true) /\
  (d_cand_count d + 1 < d_debounce_n d ->
     d_state d' = false /\ d_cand d' = true /\ d_cand_count d' = d_cand_count d + 1).
Proof.
  intros Hst Hc. unfold step.
  destruct (observe_signal mag t d) as (Es & Ec & En).
  assert (d_cand_count (observe mag t d) = d_cand_count d) as Ek
    by (unfold observe; by destruct (track _ d)).
  revert Es Ec En Ek. generalize (observe mag t d). intros d1 Es Ec En Ek.
  assert (candidate d1 = true) as ->.
  { unfold candidate. rewrite Es, Ec, Hst, Hc. by repeat case_match. }
  unfold debounce. rewrite Es, Ec, Hst, Hc. cbn [negb Bool.eqb]. cbv zeta.
  rewrite Ek. set (n := d_cand_count d + 1). set (d2 := d1 <| d_cand_count := n |>).
  assert ((d_debounce_n d2 <=? d_cand_count d2) = (d_debounce_n d <=? n)) as ->
    by (cbn; by rewrite En).
  split; intros Hle.
  - rewrite (proj2 (Z.leb_le _ _)) by lia.
    by destruct (commit_signal true t d2) as (Hs & _).
  - rewrite (proj2 (Z.leb_gt _ _)) by lia. cbn. by rewrite Es, Ec.
Qed.
End Facts.

(** ** A concrete receiver

    numpy replaced by a concrete function: a block's bin magnitude is its
    first sample. *)
Module Demo.
#[global] Instance demo_numpy : Numpy float float := {|
  np_scale := num_mul;
  np_bin := fun _ _ blk => default (num_of_Z 0) (head blk);
  np_log10 := fun x => x;
  np_rfft_mag := fun l => l;
  np_rfftfreq := fun n _ => num_of_Z <$> seqZ 0 n;
  np_rms := fun l => default (num_of_Z 0) (head l);
|}.

Definition one : float := num_of_Z 1.
Definition zero : float := num_of_Z 0.

(** [n] blocks of eight samples. *)
Definition blocks (n : nat) (x : float) : list float := repeat x (8 * n).

(** Silence, then eight dits, the last still keyed when the stream ends. *)
Definition eight_dits : list float :=
  blocks 6 zero ++ mjoin (repeat (blocks 6 one ++ blocks 6 zero) 3)
  ++ blocks 6 one ++ blocks 20 zero
  ++ mjoin (repeat (blocks 6 one ++ blocks 6 zero) 3) ++ blocks 6 one.

Definition cfg : CWConfig float := default_config.

Definition decoder : CWDecoder float float :=
  match init 1000 cfg with
  | Some d => d
  | None => Build_CWDecoder 0 cfg 0 [] [] 0 None None None false false zero 0 0 None [] []
              [] zero zero zero true [] zero (new_result zero 0 zero)
  end.

Lemma decoder_init : init 1000 cfg = Some decoder.
Proof. vm_cast_no_check (eq_refl (Some decoder)). Qed.
End Demo.

Example session_copy_witness :
  let '(d1, out1) := feed [Demo.eight_dits] Demo.decoder in
  let '(d2, out2) := flush d1 in
  d_flushed d1 = false ->
  let r := d_result d2 in
  r_chars r = out1 ++ flush_lost d1 ++ out2 /\
  r_text r = rstrip (mjoin (ce_char <$> r_chars r)) /\
  mjoin (ce_morse <$> r_chars r) = el_kind <$> r_elements r /\
  Forall (fun e => is_element (el_kind e) = true) (r_elements r).
Proof.
  pose proof (@session_copy float float _ _ 1000 Demo.cfg [Demo.eight_dits] Demo.decoder
    Demo.decoder_init) as W.
  exact W.
Defined.

Example live_copy_tidy_witness :
  let text := r_text (d_result (feed [Demo.eight_dits] Demo.decoder).1) in
  tidy text = true /\ text = mjoin (ce_char <$> (feed [Demo.eight_dits] Demo.decoder).2).
Proof.
  pose proof (@live_copy_tidy float float _ _ 1000 Demo.cfg [Demo.eight_dits] Demo.decoder
    Demo.decoder_init) as W.
  exact W.
Defined.

Example chunking_invariant_witness :
  feed [take 13 Demo.eight_dits; []; drop 13 Demo.eight_dits] Demo.decoder
  = process (mjoin [take 13 Demo.eight_dits; []; drop 13 Demo.eight_dits]) Demo.decoder.
Proof.
  apply chunking_invariant.
  - vm_compute; reflexivity.
  - vm_compute; reflexivity.
  - discriminate.
Defined.

Example key_follows_threshold_witness :
  let d' := (step Demo.one Demo.zero Demo.decoder).1 in
  d_state d' = next_state (observe Demo.one Demo.zero Demo.decoder) /\ d_cand d' = d_state d'.
Proof.
  apply key_follows_threshold.
  - vm_compute; discriminate.
  - vm_compute; reflexivity.
Defined.

(** A decoder with a longer debounce, one block into a glitch. *)
Definition pending_decoder : CWDecoder float float :=
  Demo.decoder <| d_debounce_n := 3 |> <| d_cand := true |> <| d_cand_count := 1 |>.

Example pending_key_always_opens_witness :
  let d' := (step Demo.zero Demo.zero pending_decoder).1 in
  (d_debounce_n pending_decoder <= d_cand_count pending_decoder + 1 -> d_state d' = true) /\
  (d_cand_count pending_decoder + 1 < d_debounce_n pending_decoder ->
     d_state d' = false /\ d_cand d' = true /\
     d_cand_count d' = d_cand_count pending_decoder + 1).
Proof. apply pending_key_always_opens; vm_compute; reflexivity. Defined.

(** on this recording the eighth mark is still keyed when the stream
    ends. [flush] closes it, which completes the speed bootstrap and decodes
    the first character; that character is in the result but in neither the
    events [process] returned nor the ones [flush] returns, so a subscriber
    never hears it. *)
Theorem flush_loses_bootstrap_characters :
  let '(d1, out1) := feed [Demo.eight_dits] Demo.decoder in
  let '(d2, out2) := flush d1 in
  ce_char <$> r_chars (d_result d2) = [u "H"; u "H"; u " "] /\
  ce_char <$> (out1 ++ out2) = [u "H"; u " "].
Proof. by vm_compute. Qed.
