(* ===== verification/Timing.v ===== *)
(** * Keying and decoding meet: the timing theorem

    In exact arithmetic ([Q]), a decoder that follows the key line of
    [synthesize_cw] recovers the text, at every speed with at least two
    samples per dit: sample rounding and the decoder's own speed tracking never
    move an element or a gap across a decision threshold. *)
From Stdlib Require Import QArith Lqa.
From S2P Require Import Prelude PyFloat PyStr Morse Events Decoder DecoderFacts.
Open Scope Z_scope.

(** ** Key runs of a keying *)

(** Join neighbouring segments of equal state. *)
Fixpoint merge_runs (cur : bool * Z) (segs : list (bool * Z)) : list (bool * Z) :=
  match segs with
  | [] => [cur]
  | s :: r =>
      if Bool.eqb s.1 cur.1 then merge_runs (cur.1, cur.2 + s.2) r
      else cur :: merge_runs s r
  end.

(** The symbol-level reading: what a listener who hears the symbols writes. *)
Definition copy_symbol (acc sym : pystr) : pystr :=
  if str_eqb sym (u " ") then
    if nonempty acc && negb (endswith acc (u " ")) then acc ++ u " " else acc
  else acc ++ decode_symbol sym.

Lemma copy_symbol_space acc :
  copy_symbol acc (u " ")
  = if nonempty acc && negb (endswith acc (u " ")) then acc ++ u " " else acc.
Proof. unfold copy_symbol, str_eqb. by rewrite bool_decide_eq_true_2. Qed.

Lemma copy_symbol_word acc sym : sym <> u " " -> copy_symbol acc sym = acc ++ decode_symbol sym.
Proof. intros H. unfold copy_symbol, str_eqb. by rewrite bool_decide_eq_false_2. Qed.

Section Play.
Context {S F : Type} `{Num F} `{Numpy S F}.

(** Follow the key line: commit every change of state at its sample, [t]
    being the start of the current run. The last run never ends. *)
Fixpoint play (fs t : Z) (rs : list (bool * Z)) (d : CWDecoder S F) : CWDecoder S F :=
  match rs with
  | [] => d
  | r :: rs' =>
      match rs' with
      | [] => d
      | _ => play fs (t + r.2) rs' (commit (negb r.1) (num_ratio (t + r.2) (Z.to_pos fs)) d).1
      end
  end.

(** [None]: the segments cannot be built. *)
Definition play_keying (text : pystr) (wpm : F) (fs : Z) (lead_ms : F) (d : CWDecoder S F) :
    option (CWDecoder S F) :=
  segs ← segments text wpm fs lead_ms;
  Some match segs with
       | [] => d
       | s :: r => play fs 0 (merge_runs s r) d
       end.

Lemma play_cons fs t r r' rs d :
  play fs t (r :: r' :: rs) d
  = play fs (t + r.2) (r' :: rs) (commit (negb r.1) (num_ratio (t + r.2) (Z.to_pos fs)) d).1.
Proof. done. Qed.

Lemma merge_runs_cons cur segs : exists n rs, merge_runs cur segs = (cur.1, n) :: rs.
Proof.
  revert cur. induction segs as [|s r IH]; intros [b n]; cbn; [eauto|].
  destruct (Bool.eqb s.1 b); eauto.
Qed.

(** A change of state ends the current run. *)
Lemma play_merge_flip fs t b n m segs d :
  play fs t (merge_runs (b, n) ((negb b, m) :: segs)) d
  = play fs (t + n) (merge_runs (negb b, m) segs)
      (commit (negb b) (num_ratio (t + n) (Z.to_pos fs)) d).1.
Proof.
  cbn [merge_runs fst snd]. destruct (Bool.eqb (negb b) b) eqn:E; [by destruct b|].
  destruct (merge_runs_cons (negb b, m) segs) as (n' & rs & ->). apply play_cons.
Qed.
End Play.

(** ** Rounding *)

(** In exact arithmetic a count of samples never fails. *)
Definition whole (fs : Z) (x : Q) : Z := default 0 (n_samples fs x).

Lemma n_samples_whole fs (x : Q) : n_samples fs x = Some (whole fs x).
Proof. done. Qed.

Lemma whole_bound fs (x : Q) :
  (x * inject_Z fs - (1 # 2) <= inject_Z (whole fs x) <= x * inject_Z fs + (1 # 2))%Q.
Proof. exact (rint_bound (x * inject_Z fs)). Qed.

Definition in_samples (fs : Z) (l : list (bool * Q)) : list (bool * Z) := (fun s => (s.1, whole fs s.2)) <$> l.

Definition symbol_samples (fs : Z) (unit : Q) (sym : pystr) : list (bool * Z) :=
  in_samples fs (symbol_segments unit sym).

Lemma mapM_counted fs (l : list (bool * Q)) : mapM (counted fs) l = Some (in_samples fs l).
Proof. induction l as [|s l IH]; [done|]. cbn [mapM]. by rewrite IH. Qed.

Lemma in_samples_app fs l l' : in_samples fs (l ++ l') = in_samples fs l ++ in_samples fs l'.
Proof. apply fmap_app. Qed.

Lemma in_samples_symbols fs unit syms :
  in_samples fs (mjoin (symbol_segments unit <$> syms)) = mjoin (symbol_samples fs unit <$> syms).
Proof.
  induction syms as [|sym syms IH]; [done|]. cbn [fmap list_fmap mjoin list_join].
  rewrite in_samples_app. f_equal. exact IH.
Qed.

Lemma segments_samples text wpm fs lead_ms :
  num_eqb wpm (num_of_Z 0) = false ->
  let lead := (false, whole fs (num_div lead_ms (num_of_Z 1000))) in
  segments text wpm fs lead_ms
  = Some (lead :: mjoin (symbol_samples fs (dit_seconds wpm) <$> encode_text text) ++ [lead]).
Proof.
  intros Hw. unfold segments. rewrite Hw, mapM_counted. cbv zeta. f_equal.
  unfold in_samples at 1. rewrite fmap_cons, fmap_app. f_equal. f_equal. apply in_samples_symbols.
Qed.

(** ** Text ends *)

Lemma endswith_app_word x w : 32 ∉ w -> w <> [] -> endswith (x ++ w) (u " ") = false.
Proof.
  intros Hw Hn. destruct (exists_last Hn) as (w' & c & ->).
  apply not_elem_of_app in Hw as [_ Hc]. apply not_elem_of_cons in Hc as [Hc _].
  unfold endswith. rewrite rev_app_distr, rev_unit. cbn.
  destruct c as [|[p|p|]|p]; try done. by repeat (destruct p; try done).
Qed.

Lemma nonempty_app_r (x w : pystr) : w <> [] -> nonempty (x ++ w) = true.
Proof. by destruct x, w. Qed.

Lemma endswith_app_space x : endswith (x ++ u " ") (u " ") = true.
Proof. unfold endswith. by rewrite rev_app_distr. Qed.

Lemma rstrip_app_space x : rstrip (x ++ u " ") = rstrip x.
Proof. unfold rstrip, rstrip_by. by rewrite rev_app_distr. Qed.


(** ** One commit *)

Section Commit.
Context {S F : Type} `{Num F} `{Numpy S F}.
Implicit Types d : CWDecoder S F.

Definition kind_of (dur dit : F) : Z := if num_ltb dur (num_mul (num_of_Z 2) dit) then ch "." else ch "-".

(** The part of the state the timing depends on. *)
Definition clock d : F * option F * pystr * pystr * bool * bool :=
  (d_run_start_s d, d_dit d, d_cur d, r_text (d_result d), d_state d, d_flushed d).

Lemma update_wpm_clock d : clock (update_wpm d) = clock d.
Proof. unfold update_wpm. destruct (d_dit d); [|done]. by destruct (num_eqb _ _). Qed.

Lemma add_element_clock t dur q d :
  let kind := kind_of dur q in
  let target := if Z.eqb kind (ch ".") then dur else num_div dur (num_of_Z 3) in
  clock (add_element t dur q d)
  = (d_run_start_s d, Some (num_add (num_mul (lit 8 10) q) (num_mul (lit 2 10) target)),
     d_cur d ++ [kind], r_text (d_result d), d_state d, d_flushed d).
Proof.
  cbv zeta. unfold add_element. cbv zeta. fold (kind_of dur q). set (k := kind_of dur q).
  set (x := Some _). pose proof (update_wpm_clock (d <| d_dit := x |>)) as E.
  revert E. generalize (update_wpm (d <| d_dit := x |>)). intros d1.
  unfold clock. cbn. intros [= <- <- <- <- <- <-]. by destruct (nonempty (d_cur d1)).
Qed.

Lemma commit_mark st t q d :
  d_state d = true -> d_dit d = Some q ->
  let dur := num_sub t (d_run_start_s d) in
  let kind := kind_of dur q in
  let target := if Z.eqb kind (ch ".") then dur else num_div dur (num_of_Z 3) in
  clock (commit st t d).1
  = (t, Some (num_add (num_mul (lit 8 10) q) (num_mul (lit 2 10) target)),
     d_cur d ++ [kind], r_text (d_result d), st, d_flushed d).
Proof.
  intros Hs Hq. cbv zeta. unfold commit. rewrite Hs. unfold on_mark_end. cbv zeta.
  change (d_dit (_ <| d_result := _ |>)) with (d_dit d). rewrite Hq.
  set (d0 := d <| d_result := _ |>). set (dur := num_sub t _).
  pose proof (add_element_clock (d_run_start_s d) dur q d0) as E. cbv zeta in E.
  revert E. generalize (add_element (d_run_start_s d) dur q d0). intros d1 E.
  injection E as E1 E2 E3 E4 E5 E6. unfold clock.
  by rewrite <- E2, <- E3, <- E4, <- E6.
Qed.

(** What the end of a gap leaves in [d_text]. *)
Definition gap_text (dur dit : F) d : pystr :=
  let text := r_text (d_result d) ++ (if nonempty (d_cur d) then decode_symbol (d_cur d) else []) in
  if num_ltb dur (num_mul (num_of_Z 5) dit) then text
  else if nonempty text && negb (endswith text (u " ")) then text ++ u " " else text.

Lemma flush_char_clock t w d :
  let text := r_text (d_result d) ++ (if nonempty (d_cur d) then decode_symbol (d_cur d) else []) in
  clock (flush_char t w d).1
  = (d_run_start_s d, d_dit d, [],
     if w && nonempty text && negb (endswith text (u " ")) then text ++ u " " else text,
     d_state d, d_flushed d).
Proof.
  cbn zeta. unfold flush_char. destruct (nonempty (d_cur d)) eqn:E.
  - cbn -[decode_symbol nonempty]. by destruct (w && _ && _).
  - destruct (d_cur d) as [|] eqn:Ec; [|done]. rewrite !app_nil_r.
    destruct (w && _ && _); cbn; unfold clock; cbn; by rewrite ?Ec.
Qed.

Lemma commit_gap st t q d :
  d_state d = false -> d_dit d = Some q ->
  let dur := num_sub t (d_run_start_s d) in
  clock (commit st t d).1
  = if num_ltb dur (num_mul (num_of_Z 2) q)
    then (t, Some q, d_cur d, r_text (d_result d), st, d_flushed d)
    else (t, Some q, [], gap_text dur q d, st, d_flushed d).
Proof.
  intros Hs Hq. unfold commit. rewrite Hs. unfold on_space_end. rewrite Hq. cbn zeta.
  unfold space_logic. set (dur := num_sub t _). unfold gap_text.
  destruct (num_ltb dur (num_mul (num_of_Z 2) q)).
  { unfold clock. cbn. by rewrite Hq. }
  set (te := num_add _ _). destruct (num_ltb dur _).
  - pose proof (flush_char_clock te false d) as E. destruct (flush_char te false d) as [d' o].
    injection E as E1 E2 E3 E4 E5 E6. unfold clock. cbn. by rewrite E2, E3, E4, E6, Hq.
  - pose proof (flush_char_clock te true d) as E. destruct (flush_char te true d) as [d' o].
    injection E as E1 E2 E3 E4 E5 E6. unfold clock. cbn. by rewrite E2, E3, E4, E6, Hq.
Qed.
End Commit.

(** ** Thresholds *)

Section Thresholds.
Variables (fs : Z) (unit : Q).
Hypothesis Hfs : 0 < fs.
Local Notation U := (unit * inject_Z fs)%Q.
Hypothesis HU : (2 <= U)%Q.

Definition at_sample (t : Z) (x : Q) : Prop := (x * inject_Z fs == inject_Z t)%Q.

(** [n] samples is [k] dits up to rounding. *)
Definition dits (k n : Z) : Prop :=
  (inject_Z k * U - (1 # 2) <= inject_Z n <= inject_Z k * U + (1 # 2))%Q.

(** The tracked dit is within half a sample of the keyed one. *)
Definition tracked (q : Q) : Prop :=
  (U - (1 # 2) <= q * inject_Z fs <= U + (1 # 2))%Q.

Lemma fs_pos : (0 < inject_Z fs)%Q.
Proof. unfold Qlt, inject_Z. cbn. lia. Qed.

Lemma at_ratio t : at_sample t (num_ratio t (Z.to_pos fs)).
Proof.
  unfold at_sample, Qeq. change (num_ratio t (Z.to_pos fs)) with (t # Z.to_pos fs).
  unfold inject_Z. cbn [Qmult Qnum Qden]. rewrite Pos.mul_1_r, Z2Pos.id by lia. lia.
Qed.

Lemma at_sub t n x y : at_sample (t + n) x -> at_sample t y -> at_sample n (num_sub x y).
Proof.
  unfold at_sample. intros Hx Hy. change (num_sub x y) with (x - y)%Q.
  rewrite inject_Z_plus in Hx. lra.
Qed.

(** Comparing a run of [n] samples with [k] tracked dits. *)
Lemma run_ltb n dur k q :
  at_sample n dur ->
  num_ltb dur (num_mul (num_of_Z k) q) = true
  <-> (inject_Z n < inject_Z k * (q * inject_Z fs))%Q.
Proof.
  unfold at_sample. intros Hn. rewrite Q_ltb_true, <- Hn.
  change (num_mul (num_of_Z k) q) with (inject_Z k * q)%Q.
  rewrite Qmult_assoc. symmetry. apply Qmult_lt_r, fs_pos.
Qed.

Lemma run_ltb_false n dur k q :
  at_sample n dur ->
  num_ltb dur (num_mul (num_of_Z k) q) = false
  <-> (inject_Z k * (q * inject_Z fs) <= inject_Z n)%Q.
Proof.
  intros Hn. rewrite <- not_true_iff_false, (run_ltb n) by done.
  split; [apply Qnot_lt_le|apply Qle_not_lt].
Qed.

Lemma dot_run n dur q :
  dits 1 n -> at_sample n dur -> tracked q ->
  num_ltb dur (num_mul (num_of_Z 2) q) = true
  /\ tracked (num_add (num_mul (lit 8 10) q) (num_mul (lit 2 10) dur)).
Proof.
  unfold dits, tracked. intros Hn Hd Hq. split.
  - apply (run_ltb n); [done|]. change (inject_Z 2) with (2 # 1). change (inject_Z 1) with (1 # 1) in Hn. lra.
  - unfold at_sample in Hd. change (inject_Z 1) with (1 # 1) in Hn.
    change (num_add (num_mul (lit 8 10) q) (num_mul (lit 2 10) dur))
      with ((8 # 10) * q + (2 # 10) * dur)%Q. lra.
Qed.

Lemma dash_run n dur q :
  dits 3 n -> at_sample n dur -> tracked q ->
  num_ltb dur (num_mul (num_of_Z 2) q) = false
  /\ num_ltb dur (num_mul (num_of_Z 5) q) = true
  /\ tracked (num_add (num_mul (lit 8 10) q) (num_mul (lit 2 10) (num_div dur (num_of_Z 3)))).
Proof.
  unfold dits, tracked. intros Hn Hd Hq. change (inject_Z 3) with (3 # 1) in Hn. split_and!.
  1: apply (run_ltb_false n); [done|]; change (inject_Z 2) with (2 # 1); lra.
  1: apply (run_ltb n); [done|]; change (inject_Z 5) with (5 # 1); lra.
  all: unfold at_sample in Hd;
    change (num_add (num_mul (lit 8 10) q) (num_mul (lit 2 10) (num_div dur (num_of_Z 3))))
      with ((8 # 10) * q + (2 # 10) * (dur / (3 # 1)))%Q.
  all: assert (dur / (3 # 1) == dur * (1 # 3))%Q as -> by (unfold Qdiv; reflexivity); lra.
Qed.

Lemma word_run n dur q :
  ((7 # 1) * U - 1 <= inject_Z n)%Q -> at_sample n dur -> tracked q ->
  num_ltb dur (num_mul (num_of_Z 2) q) = false /\ num_ltb dur (num_mul (num_of_Z 5) q) = false.
Proof.
  unfold tracked. intros Hn Hd Hq.
  split; apply (run_ltb_false n); try done;
    change (inject_Z 2) with (2 # 1); change (inject_Z 5) with (5 # 1); lra.
Qed.

Lemma whole_dits k (x : Q) : (x == inject_Z k * unit)%Q -> dits k (whole fs x).
Proof.
  unfold dits. intros Hx. pose proof (whole_bound fs x) as B.
  assert (x * inject_Z fs == inject_Z k * U)%Q as E by (rewrite Hx; symmetry; apply Qmult_assoc).
  lra.
Qed.

Lemma dits_unit : dits 1 (whole fs unit).
Proof. apply whole_dits. symmetry. apply Qmult_1_l. Qed.

(** ** The marks of one symbol *)

Context {S : Type} `{Numpy S Q}.
Implicit Types d : CWDecoder S Q.

(** The state at sample [t], a run having started there. *)
Definition at_run (st : bool) (t : Z) (cur text : pystr) d : Prop :=
  exists s q, clock d = (s, Some q, cur, text, st, false) /\ at_sample t s /\ tracked q.

Local Notation marks_of sym := (in_samples fs (mark_segments unit sym)).
Local Notation symbol_of := (symbol_samples fs unit).
Local Notation mark_dits el := (whole fs (if Z.eqb el (ch ".") then unit else num_mul (num_of_Z 3) unit)).
Local Notation commit_at st t d := (commit st (num_ratio t (Z.to_pos fs)) d).1.

Lemma commit_mark_run el t cur text d :
  is_element el = true -> at_run true t cur text d ->
  at_run false (t + mark_dits el) (cur ++ [el]) text (commit_at false (t + mark_dits el) d).
Proof.
  intros Hel (s & q & Hc & Hs & Hq). injection Hc as Es Eq Ecur Etext Est Efl.
  set (n := mark_dits el). set (now := num_ratio (t + n) _).
  pose proof (commit_mark false now q d Est Eq) as E. cbv zeta in E.
  rewrite Es, Ecur, Etext, Efl in E.
  assert (at_sample n (num_sub now s)) as Hn by (apply (at_sub t); [apply at_ratio|done]).
  assert (kind_of (num_sub now s) q = el
          /\ tracked (num_add (num_mul (lit 8 10) q) (num_mul (lit 2 10)
               (if Z.eqb el (ch ".") then num_sub now s else num_div (num_sub now s) (num_of_Z 3)))))
    as [Hk Ht].
  { unfold kind_of. subst n. unfold is_element in Hel. change (ch ".") with 46 in *.
    destruct (Z.eqb_spec el 46) as [->|Hne].
    - destruct (dot_run (whole fs unit) (num_sub now s) q) as [-> ?]; try done.
      apply dits_unit.
    - apply Z.eqb_eq in Hel as ->.
      destruct (dash_run (whole fs (num_mul (num_of_Z 3) unit)) (num_sub now s) q)
        as (-> & _ & ?); try done.
      by apply whole_dits. }
  rewrite Hk in E. eexists _, _. split; [exact E|]. split; [apply at_ratio|done].
Qed.

Lemma commit_short_gap n t cur text d :
  dits 1 n -> at_run false t cur text d -> at_run true (t + n) cur text (commit_at true (t + n) d).
Proof.
  intros Hn (s & q & Hc & Hs & Hq). injection Hc as Es Eq Ecur Etext Est Efl.
  set (now := num_ratio (t + n) _).
  pose proof (commit_gap true now q d Est Eq) as E. cbv zeta in E.
  rewrite Es, Ecur, Etext, Efl in E.
  assert (at_sample n (num_sub now s)) as Hd by (apply (at_sub t); [apply at_ratio|done]).
  destruct (dot_run n (num_sub now s) q) as [Hlt _]; try done.
  rewrite Hlt in E. eexists _, _. split; [exact E|]. split; [apply at_ratio|done].
Qed.

Lemma play_marks el r tail t cur text d :
  Forall (fun e => is_element e = true) (el :: r) ->
  at_run true t cur text d ->
  let gap := whole fs (num_mul (num_of_Z 3) unit) in
  exists t' d',
    play fs t (merge_runs (true, mark_dits el)
                (drop 1 (marks_of (el :: r)) ++ (false, gap) :: tail)) d
    = play fs t' (merge_runs (false, gap) tail) d'
    /\ at_run false t' (cur ++ el :: r) text d'.
Proof.
  cbv zeta. revert el t cur d. induction r as [|el' r IH]; intros el t cur d He Hd.
  all: apply Forall_cons in He as [He Hr]; cbn [mark_segments nonempty in_samples fmap list_fmap drop app fst snd];
    rewrite (play_merge_flip fs t true).
  - eexists _, _. split; [reflexivity|]. by apply commit_mark_run.
  - rewrite (play_merge_flip fs _ false). cbn [negb].
    assert (dits 1 (whole fs unit)) as H1 by apply dits_unit.
    pose proof (commit_mark_run el t cur text d He Hd) as A.
    apply (commit_short_gap _ _ _ _ _ H1) in A.
    destruct (IH el' _ _ _ Hr A) as (t' & d' & E & B).
    exists t', d'. split; [exact E|]. by rewrite <- app_assoc in B.
Qed.

(** ** Between symbols

    A gap of [g] samples has run since [t]. The last symbol is still open in
    the decoder, and the length of the gap decides how it will be closed. *)
Definition resting (copied : pystr) (t g : Z) d : Prop :=
  exists cur text, at_run false t cur text d /\
    ((cur = [] /\ text = [] /\ copied = [])
     \/ (cur <> [] /\ copied = text ++ decode_symbol cur /\ dits 3 g)
     \/ (cur <> [] /\ copied = text ++ decode_symbol cur ++ u " "
         /\ ((7 # 1) * U - 1 <= inject_Z g)%Q)).

Lemma copied_word text cur :
  nonempty (text ++ decode_symbol cur) && negb (endswith (text ++ decode_symbol cur) (u " ")) = true.
Proof.
  destruct (decode_symbol_word cur) as [H1 H2]. rewrite endswith_app_word by done.
  by rewrite nonempty_app_r.
Qed.

Lemma key_after_gap copied t g d :
  resting copied t g d -> at_run true (t + g) [] copied (commit_at true (t + g) d).
Proof.
  intros (cur & text & (s & q & Hc & Hs & Hq) & Hcase). injection Hc as Es Eq Ecur Etext Est Efl.
  set (now := num_ratio (t + g) _).
  pose proof (commit_gap true now q d Est Eq) as E. cbv zeta in E.
  unfold gap_text in E. rewrite Es, Ecur, Etext, Efl in E.
  assert (at_sample g (num_sub now s)) as Hd by (apply (at_sub t); [apply at_ratio|done]).
  eexists now, q. split; [|split; [apply at_ratio|done]]. rewrite E.
  destruct Hcase as [(-> & -> & ->)|[(Hn & -> & Hg)|(Hn & -> & Hg)]].
  - destruct (num_ltb _ _); [done|]. by destruct (num_ltb _ _).
  - destruct (dash_run g (num_sub now s) q) as (-> & -> & _); try done. by destruct cur.
  - destruct (word_run g (num_sub now s) q) as (-> & ->); try done.
    destruct cur as [|c cur]; [done|]. cbn [nonempty].
    by rewrite copied_word, <- app_assoc.
Qed.

Lemma space_gap copied t g d :
  resting copied t g d ->
  resting (copy_symbol copied (u " ")) t (g + whole fs (num_mul (num_of_Z 4) unit)) d.
Proof.
  intros (cur & text & Hrun & Hcase). exists cur, text. split; [done|].
  assert (dits 4 (whole fs (num_mul (num_of_Z 4) unit))) as H4 by by apply whole_dits.
  unfold dits in *. rewrite inject_Z_plus.
  change (inject_Z 4) with (4 # 1) in H4. change (inject_Z 3) with (3 # 1) in *.
  rewrite copy_symbol_space.
  destruct Hcase as [(-> & -> & ->)|[(Hn & -> & Hg)|(Hn & -> & Hg)]].
  - by left.
  - right; right. rewrite copied_word, <- app_assoc. split_and!; [done|done|lra].
  - right; right. rewrite (app_assoc text), endswith_app_space, andb_false_r.
    split_and!; [done|done|lra].
Qed.

Definition symbol_ok (sym : pystr) : Prop :=
  sym = u " " \/ (sym <> [] /\ Forall (fun e => is_element e = true) sym).

Lemma symbol_of_word el r :
  el :: r <> u " " ->
  symbol_of (el :: r) = (true, mark_dits el) :: drop 1 (marks_of (el :: r))
                        ++ [(false, whole fs (num_mul (num_of_Z 3) unit))].
Proof.
  intros Hns. unfold symbol_samples, symbol_segments, str_eqb.
  by rewrite bool_decide_eq_false_2, in_samples_app by done.
Qed.

Lemma play_symbols syms copied t g lead d :
  Forall symbol_ok syms -> resting copied t g d ->
  exists t' g' d',
    play fs t (merge_runs (false, g)
                (mjoin (symbol_of <$> syms) ++ [(false, lead)])) d = d'
    /\ resting (foldl copy_symbol copied syms) t' g' d'.
Proof.
  revert copied t g d. induction syms as [|sym syms IH]; intros copied t g d Hsyms Hrest.
  { exists t, g, d. split; [reflexivity|done]. }
  apply Forall_cons in Hsyms as [Hsym Hsyms]. cbn [fmap list_fmap mjoin list_join foldl].
  rewrite <- app_assoc. destruct (decide (sym = u " ")) as [->|Hns].
  { change (symbol_of (u " ")) with [(false, whole fs (num_mul (num_of_Z 4) unit))].
    cbn [app merge_runs]. apply (IH (copy_symbol copied (u " "))); [done|]. by apply space_gap. }
  destruct Hsym as [?|[Hne Hel]]; [done|]. destruct sym as [|el r]; [done|].
  rewrite symbol_of_word, copy_symbol_word by done. cbn [app]. rewrite <- app_assoc, (play_merge_flip fs t false). cbn [negb app].
  destruct (play_marks el r (mjoin (symbol_of <$> syms) ++ [(false, lead)])
              _ _ _ _ Hel (key_after_gap _ _ _ _ Hrest)) as (t' & d' & E & Hrun).
  destruct (IH (copied ++ decode_symbol (el :: r)) t' (whole fs (num_mul (num_of_Z 3) unit)) d')
    as (t'' & g'' & d'' & E' & Hrest'); [done| |].
  - exists (el :: r), copied. split; [done|]. right; left.
    split_and!; [done|done|by apply whole_dits].
  - exists t'', g'', d''. split; [|done]. by etrans.
Qed.
End Thresholds.

Lemma encode_text_ok text : Forall symbol_ok (encode_text text).
Proof.
  apply Forall_forall. intros sym Hs%encode_aux_symbols.
  destruct Hs as [->|[c Hc%code_elements]]; [by left|by right].
Qed.

Section Main.
Context {S : Type} `{Numpy S Q}.

Lemma init_clock fs cfg wpm (d : CWDecoder S Q) :
  expected_wpm cfg = Some wpm -> num_eqb wpm (num_of_Z 0) = false -> init fs cfg = Some d ->
  clock d = (num_of_Z 0, Some (dit_seconds wpm), [], [], false, false).
Proof.
  unfold init, reset. intros Hw H0 Hi.
  apply bind_Some in Hi as (b & _ & Hi). apply bind_Some in Hi as (n & _ & [= <-]).
  unfold clock. cbn -[num_eqb num_of_Z]. rewrite Hw.
  change (num_eqb wpm (num_of_Z 0)) with (Qeq_bool wpm 0) in H0.
  change (0 # 1)%Q with 0%Q. by rewrite H0.
Qed.

(** What [flush] leaves of a decoder whose key is up. *)
Lemma flush_resting fs unit copied t g (d : CWDecoder S Q) :
  resting fs unit copied t g d -> r_text (d_result (flush d).1) = rstrip copied.
Proof.
  intros (cur & text & (s & q & Hc & _ & _) & Hcase). injection Hc as Es Eq Ecur Etext Est Efl.
  unfold flush. rewrite Efl, Est. cbv zeta. rewrite Eq, bool_decide_eq_false_2 by done. cbn [andb].
  pose proof (flush_char_clock (now_s d) true d) as E. cbv zeta in E.
  destruct (flush_char (now_s d) true d) as [d1 o]. unfold clock in E. cbn [fst] in E.
  injection E as _ _ _ Et _ _. rewrite Ecur, Etext in Et. cbn [fst].
  change (r_text (d_result _)) with (rstrip (r_text (d_result d1))). rewrite Et.
  destruct Hcase as [(-> & -> & ->)|[(Hn & -> & _)|(Hn & -> & _)]]; [done| |];
    (destruct cur as [|c cur]; [done|]); cbn [nonempty andb]; rewrite copied_word.
  - apply rstrip_app_space.
  - by rewrite (app_assoc text), !rstrip_app_space.
Qed.

(** C1: in exact arithmetic, a decoder told the speed and keyed with the
    segments [synthesize_cw] builds for a text copies that text: at every
    speed whose dit is at least two samples long, the rounding of segments to
    whole samples, which never fails, and the decoder's own speed tracking never
    move a mark or a gap across a decision threshold, so the final text is the symbols of
    [encode_text] read back one by one, word gaps collapsed. *)
Theorem keying_decodes (text : pystr) (wpm : Q) (fs : Z) (lead_ms : Q) (cfg : CWConfig Q)
    (d0 : CWDecoder S Q) :
  0 < fs -> (2 <= dit_seconds wpm * inject_Z fs)%Q ->
  expected_wpm cfg = Some wpm -> init fs cfg = Some d0 ->
  exists d, play_keying text wpm fs lead_ms d0 = Some d
    /\ r_text (d_result (flush d).1) = rstrip (foldl copy_symbol [] (encode_text text)).
Proof.
  intros Hfs HU Hw Hi.
  assert (num_eqb wpm (num_of_Z 0) = false) as Hw0.
  { destruct (num_eqb wpm (num_of_Z 0)) eqn:E; [|done]. apply Qeq_bool_iff in E.
    exfalso. revert HU. unfold dit_seconds.
    change (num_div (lit 12 10) wpm) with ((12 # 10) / wpm)%Q.
    change (num_of_Z 0 : Q) with 0%Q in E. rewrite E.
    assert ((12 # 10) / 0 == 0)%Q as -> by reflexivity. intros HU'. lra. }
  pose proof (init_clock _ _ _ _ Hw Hw0 Hi) as Hc.
  unfold play_keying. rewrite segments_samples by done. cbn [mbind option_bind].
  eexists. split; [reflexivity|].
  set (lead := whole fs _).
  destruct (play_symbols fs (dit_seconds wpm) Hfs HU (encode_text text) [] 0 lead lead d0)
    as (t' & g' & d' & -> & Hr).
  - apply encode_text_ok.
  - exists [], []. split; [|by left]. eexists _, _. split; [exact Hc|].
    split; [unfold at_sample; reflexivity|]. unfold tracked.
    generalize (dit_seconds wpm * inject_Z fs)%Q. intros y. split; lra.
  - by eapply flush_resting.
Qed.
End Main.

#[local] Instance silent_numpy : Numpy unit Q := {|
  np_scale := fun _ s => s;
  np_bin := fun _ _ _ => 0%Q;
  np_log10 := fun x => x;
  np_rfft_mag := fun _ => [];
  np_rfftfreq := fun _ _ => [];
  np_rms := fun _ => 0%Q;
|}.

Definition cfg_20wpm : CWConfig Q := default_config <| expected_wpm := Some 20%Q |>.

(** 20 words a minute at 8 kHz: a dit is 480 samples. *)
Example keying_decodes_witness :
  exists d0 d : CWDecoder unit Q,
    init 8000 cfg_20wpm = Some d0
    /\ play_keying (u "CQ  de <AR> K1ABC/5 ") 20%Q 8000 100%Q d0 = Some d
    /\ r_text (d_result (flush d).1) = u "CQ DE + K1ABC/5".
Proof.
  destruct (init 8000 cfg_20wpm) as [d0|] eqn:Ei; [|discriminate Ei].
  destruct (keying_decodes (u "CQ  de <AR> K1ABC/5 ") 20%Q 8000 100%Q cfg_20wpm d0) as (d & E & T);
    [lia|unfold Qle; cbn; lia|reflexivity|exact Ei|].
  exists d0, d. split; [reflexivity|]. split; [exact E|]. rewrite T. by_compute.
Defined.
