(* ===== verification/Bridge.v ===== *)
(** * engine/bridge.py: callsigns and reports from the copy

    The filter that turns decoded copy into callsigns, and the subscriber that
    builds a QSO draft from the character stream. *)
From S2P Require Import Prelude PyFloat PyStr Regex Events.
Open Scope Z_scope.

(** ** The patterns *)

(** [[A-Z]{1,2}\d[A-Z]{1,4}] *)
Definition call_body : regex :=
  r_seq [RRep true is_ascii_upper 1 (Some 2%nat); RClass is_decimal;
         RRep true is_ascii_upper 1 (Some 4%nat)].

Definition CALLSIGN_RE : regex := r_seq [RBound; RGroup 1 call_body; RBound].

Definition is_1_5 (c : Z) : bool := (49 <=? c) && (c <=? 53).
Definition is_1_9 (c : Z) : bool := (49 <=? c) && (c <=? 57).

Definition RST_RE : regex :=
  r_seq [RBound; RGroup 1 (r_seq [RClass is_1_5; RClass is_1_9; RClass is_1_9]); RBound].

Definition DE_CALL_RE : regex :=
  r_seq [RBound; r_lit (u "DE"); r_plus is_space; RGroup 1 call_body; RBound].

Definition SINGLE_LETTER_PREFIXES : list pystr :=
  [u "B"; u "F"; u "G"; u "I"; u "K"; u "M"; u "N"; u "R"; u "W"].
Definition MIN_UNCORROBORATED_LEN : Z := 4.

(** ** Admission *)

(** [has_plausible_prefix]; [None] where [next] finds no digit and raises. *)
Definition has_plausible_prefix (call : pystr) : option bool :=
  let '(prefix, r) := span (fun c => negb (is_digit c)) call in
  match r with
  | [] => None
  | _ => Some ((1 <? zlen prefix) || bool_decide (prefix ∈ SINGLE_LETTER_PREFIXES))
  end.

Definition plausible (call : pystr) : bool := default false (has_plausible_prefix call).

Definition count (m : pystr) (l : list pystr) : Z := zlen (List.filter (str_eqb m) l).

(** One pass of the loop of [extract_callsigns]. *)
Definition admit_token (tokens after_de seen : list pystr) (m : pystr) : list pystr :=
  if bool_decide (m ∈ seen) || negb (plausible m) then seen
  else
    let corroborated := bool_decide (m ∈ after_de) || (1 <? count m tokens) in
    if (zlen m <? MIN_UNCORROBORATED_LEN) && negb corroborated then seen
    else seen ++ [m].

Definition extract_callsigns (text : pystr) : list pystr :=
  let upper := upper text in
  let tokens := findall CALLSIGN_RE upper in
  let after_de := findall DE_CALL_RE upper in
  foldl (admit_token tokens after_de) [] tokens.

(** ** The log bridge *)

Record QSODraft := {
  q_raw : pystr;
  q_callsigns : list pystr;
  q_rst : list pystr;
}.

#[global] Instance eta_draft : Eta QSODraft := fun q =>
  Build_QSODraft (q_raw q) (q_callsigns q) (q_rst q).

Record DraftDict := {
  dd_raw : pystr;
  dd_call : pystr;
  dd_rst : pystr;
  dd_callsigns_seen : list pystr;
  dd_rst_seen : list pystr;
}.

(** [QSODraft.as_dict] *)
Definition as_dict (q : QSODraft) : DraftDict :=
  {| dd_raw := strip (q_raw q);
     dd_call := default [] (last (q_callsigns q));
     dd_rst := default [] (last (q_rst q));
     dd_callsigns_seen := q_callsigns q;
     dd_rst_seen := q_rst q |}.

Record CWLogBridge := {
  b_draft : QSODraft;
  b_word : pystr;
  b_space_run : Z;
  b_gap_close : Z;
  b_prev_word : pystr;
}.

#[global] Instance eta_bridge : Eta CWLogBridge := fun b =>
  Build_CWLogBridge (b_draft b) (b_word b) (b_space_run b) (b_gap_close b) (b_prev_word b).

Definition new_bridge (gap_close_words : Z) : CWLogBridge :=
  {| b_draft := {| q_raw := []; q_callsigns := []; q_rst := [] |};
     b_word := []; b_space_run := 0; b_gap_close := gap_close_words; b_prev_word := [] |}.

(** [_flush_word] *)
Definition flush_word (b : CWLogBridge) : CWLogBridge :=
  let w := strip (b_word b) in
  let b := b <| b_word := [] |> in
  if negb (nonempty w) then b
  else
    let prev := b_prev_word b in
    let b := b <| b_prev_word := w |> in
    let q := b_draft b in
    if bool_decide (is_Some (fullmatch CALLSIGN_RE w)) then
      let corroborated := str_eqb prev (u "DE") || bool_decide (w ∈ q_callsigns q) in
      if plausible w && ((MIN_UNCORROBORATED_LEN <=? zlen w) || corroborated) then
        b <| b_draft := q <| q_callsigns := q_callsigns q ++ [w] |> |>
      else b
    else if bool_decide (is_Some (fullmatch RST_RE w)) then
      b <| b_draft := q <| q_rst := q_rst q ++ [w] |> |>
    else b.

(** [on_char]: the new bridge and the drafts passed to [on_qso_ready]. *)
Definition on_char {F} (ev : CharEvent F) (b : CWLogBridge) : CWLogBridge * list QSODraft :=
  let b := b <| b_draft := b_draft b <| q_raw := q_raw (b_draft b) ++ ce_char ev |> |> in
  if str_eqb (ce_char ev) (u " ") then
    let b := flush_word b in
    let b := b <| b_space_run := b_space_run b + 1 |> in
    (b, if (b_gap_close b <=? b_space_run b) && nonempty (strip (q_raw (b_draft b)))
        then [b_draft b] else [])
  else
    (b <| b_space_run := 0 |> <| b_word := b_word b ++ ce_char ev |>, []).

Fixpoint hear {F} (evs : list (CharEvent F)) (b : CWLogBridge) : CWLogBridge * list QSODraft :=
  match evs with
  | [] => (b, [])
  | ev :: evs' =>
      let '(b1, out1) := on_char ev b in
      let '(b2, out2) := hear evs' b1 in (b2, out1 ++ out2)
  end.

(** ** Callsign shape *)

(** One or two letters, a digit, one to four letters. *)
Definition is_call (w : pystr) : bool :=
  let '(p, r) := span is_ascii_upper w in
  match r with
  | d :: s => (1 <=? zlen p) && (zlen p <=? 2) && is_decimal d
              && forallb is_ascii_upper s && (1 <=? zlen s) && (zlen s <=? 4)
  | [] => false
  end.

Notation all_upper w := (Forall (fun c => is_ascii_upper c = true) w).

Lemma decimal_not_upper d : is_decimal d = true -> is_ascii_upper d = false.
Proof. unfold is_decimal, is_ascii_upper. lia. Qed.

Lemma is_call_parts w :
  is_call w = true <->
  exists p d s, w = p ++ d :: s /\ all_upper p /\ 1 <= zlen p <= 2 /\ is_decimal d = true
                /\ all_upper s /\ 1 <= zlen s <= 4.
Proof.
  unfold is_call. split.
  - destruct (span_spec is_ascii_upper w) as [E Hp]. destruct (span is_ascii_upper w) as [p [|d s]]; [done|].
    intros Hc. bool_to_prop. cbn in *. exists p, d, s.
    split_and!; try done; try lia. by apply forallb_Forall.
  - intros (p & d & s & -> & Hp & Hlp & Hd & Hs & Hls).
    rewrite span_app by (try done; by apply decimal_not_upper). rewrite Hd.
    assert (forallb is_ascii_upper s = true) as -> by by apply forallb_Forall.
    lia.
Qed.

Lemma run_call_body prev s g prev' s' g' :
  run call_body prev s g prev' s' g' ->
  exists w, s = w ++ s' /\ is_call w = true /\ g' = g /\ prev' = last_or prev w.
Proof.
  intros H. destruct (run_suffix _ _ _ _ _ _ _ H) as (w & -> & ->). exists w.
  cut (is_call w = true /\ g' = g); [tauto|].
  inversion H as [| | |? ? ? ? ? ? ? ? ? ? ? Ha Hb| | | |]; subst; clear H.
  inversion Hb as [| | |? ? ? ? ? ? ? ? ? ? ? Hc Hd| | | |]; subst; clear Hb.
  inversion Hd as [| |? ? ? ? ? w3 ? ? Hw3 Hlo3 Hhi3| | | | |]; subst; clear Hd.
  inversion Hc as [|? ? d ? ? Hdig| | | | | |]; subst; clear Hc.
  inversion Ha as [| |? ? ? ? ? w1 ? ? Hw1 Hlo1 Hhi1 E| | | | |]; subst; clear Ha.
  assert (w = w1 ++ d :: w3) as -> by (apply (app_inv_tail s'); by rewrite <- app_assoc).
  split; [|done]. apply is_call_parts. exists w1, d, w3.
  specialize (Hhi1 _ eq_refl). specialize (Hhi3 _ eq_refl). unfold zlen. split_and!; try done; lia.
Qed.

Lemma run_call_body_complete prev w s g :
  is_call w = true -> run call_body prev (w ++ s) g (last_or prev w) s g.
Proof.
  intros (p & d & x & -> & Hp & Hlp & Hd & Hx & Hlx)%is_call_parts.
  assert (last_or prev (p ++ d :: x) = last_or (Some d) x) as ->.
  { rewrite (last_or_cons (last_or prev p)). unfold last_or. rewrite last_app.
    destruct (last (d :: x)) eqn:E; [done|]. by apply last_None in E. }
  rewrite <- app_assoc. unfold zlen in *. cbn [app].
  eapply run_seq; [apply run_rep; [done|lia|intros ? [= <-]; lia]|].
  eapply run_seq; [by apply run_class|].
  apply run_rep; [done|lia|intros ? [= <-]; lia].
Qed.

Lemma is_call_word w : is_call w = true -> w <> [] /\ Forall (fun c => is_word c = true) w.
Proof.
  intros (p & d & x & -> & Hp & _ & Hd & Hx & _)%is_call_parts.
  assert (forall c, is_ascii_upper c = true -> is_word c = true) as Hup.
  { intros c Hc. unfold is_word, is_alnum, is_latin1_alpha. by rewrite Hc. }
  split; [by destruct p|]. apply Forall_app. split; [by eapply Forall_impl|].
  constructor; [|by eapply Forall_impl]. unfold is_word, is_alnum, is_digit. rewrite Hd.
  by destruct (is_latin1_alpha d).
Qed.

(** The pattern finds exactly the call-shaped words. *)
Lemma callsign_tokens s : findall CALLSIGN_RE s = filter (fun w => is_call w = true) (word_tokens s).
Proof.
  apply (findall_whole call_body); [|intros; by apply run_call_body_complete|apply is_call_word].
  intros prev s0 g prev' s' g' H. by apply run_call_body in H.
Qed.

(** Three digits, none of them zero, the first at most five. *)
Definition is_rst (w : pystr) : bool :=
  match w with
  | [a; b; c] => is_1_5 a && is_1_9 b && is_1_9 c
  | _ => false
  end.

Lemma fullmatch_callsign w : is_Some (fullmatch CALLSIGN_RE w) <-> is_call w = true.
Proof.
  apply (fullmatch_whole call_body (fun w => is_call w = true));
    [|intros; by apply run_call_body_complete|apply is_call_word].
  intros prev s0 g prev' s' g' H. by apply run_call_body in H.
Qed.

Lemma digit_word c lo hi : 48 <= lo -> hi <= 57 -> (lo <=? c) && (c <=? hi) = true -> is_word c = true.
Proof.
  intros Hlo Hhi Hc. bool_to_prop. unfold is_word, is_alnum, is_digit.
  assert (is_decimal c = true) as -> by (unfold is_decimal; lia). by destruct (is_latin1_alpha c).
Qed.

Lemma fullmatch_rst w : is_Some (fullmatch RST_RE w) <-> is_rst w = true.
Proof.
  apply (fullmatch_whole _ (fun w => is_rst w = true)).
  - intros prev s g prev' s' g' H. destruct (run_suffix _ _ _ _ _ _ _ H) as (v & -> & ->).
    exists v. cut (is_rst v = true /\ g' = g); [tauto|].
    inversion H as [| | |? ? ? ? ? ? ? ? ? ? ? Ha Hb| | | |]; subst; clear H.
    inversion Hb as [| | |? ? ? ? ? ? ? ? ? ? ? Hc Hd| | | |]; subst; clear Hb.
    inversion Ha as [|? ? a ? ? Ha1| | | | | |]; subst; clear Ha.
    inversion Hc as [|? ? b ? ? Hb1| | | | | |]; subst; clear Hc.
    inversion Hd as [|? ? c ? ? Hc1| | | | | |]; subst; clear Hd.
    assert (v = [a; b; c]) as -> by (apply (app_inv_tail s'); done).
    cbn. by rewrite Ha1, Hb1, Hc1.
  - intros prev v s g Hv. destruct v as [|a [|b [|c [|]]]]; try done. cbn in Hv. bool_to_prop.
    cbn [app]. eapply run_seq; [by apply run_class|]. eapply run_seq; by apply run_class.
  - intros v Hv. destruct v as [|a [|b [|c [|]]]]; try done. cbn in Hv.
    apply andb_true_iff in Hv as [[Ha Hb]%andb_true_iff Hc].
    split; [done|]. repeat constructor; (eapply digit_word; [| |eassumption]; lia).
Qed.

(** A call-shaped word has a digit, so the prefix test never raises on it. *)
Lemma plausible_total w : is_call w = true -> is_Some (has_plausible_prefix w).
Proof.
  intros (p & d & x & -> & _ & _ & Hd & _)%is_call_parts. unfold has_plausible_prefix.
  destruct (span_spec (fun c => negb (is_digit c)) (p ++ d :: x)) as [E Hs].
  destruct (span _ _) as [q [|r rs]]; [|by eexists]. exfalso. cbn in *.
  rewrite app_nil_r in E. rewrite <- E in Hs. apply Forall_app, proj2, Forall_cons in Hs as [Hs _].
  unfold is_digit in Hs. by rewrite Hd in Hs.
Qed.

(** ** Admission *)

Definition corroborated (tokens after_de : list pystr) (m : pystr) : Prop :=
  MIN_UNCORROBORATED_LEN <= zlen m \/ m ∈ after_de \/ 1 < count m tokens.

Lemma admit_token_spec tokens after_de seen m x :
  x ∈ admit_token tokens after_de seen m
  <-> x ∈ seen \/ (x = m /\ plausible m = true /\ corroborated tokens after_de m).
Proof.
  unfold admit_token, corroborated.
  destruct (bool_decide_reflect (m ∈ seen)), (plausible m);
    destruct (Z.ltb_spec (zlen m) MIN_UNCORROBORATED_LEN);
    destruct (bool_decide_reflect (m ∈ after_de));
    destruct (Z.ltb_spec 1 (count m tokens)); cbn;
    rewrite ?elem_of_app, ?list_elem_of_singleton;
    naive_solver lia.
Qed.

Lemma admit_token_NoDup tokens after_de seen m :
  NoDup seen -> NoDup (admit_token tokens after_de seen m).
Proof.
  intros Hs. unfold admit_token. case_bool_decide; cbn; [done|].
  repeat case_match; try done. apply NoDup_app. split_and!; [done| |apply NoDup_singleton].
  intros y Hy ->%list_elem_of_singleton. done.
Qed.

Lemma admit_tokens_spec tokens after_de ts seen x :
  x ∈ foldl (admit_token tokens after_de) seen ts
  <-> x ∈ seen \/ (x ∈ ts /\ plausible x = true /\ corroborated tokens after_de x).
Proof.
  revert seen. induction ts as [|t ts IH]; intros seen; cbn [foldl].
  - rewrite elem_of_nil. tauto.
  - rewrite IH, admit_token_spec, elem_of_cons. naive_solver.
Qed.

Lemma admit_tokens_NoDup tokens after_de ts seen :
  NoDup seen -> NoDup (foldl (admit_token tokens after_de) seen ts).
Proof. revert seen. induction ts; cbn; eauto using admit_token_NoDup. Qed.

Lemma count_call words m :
  is_call m = true ->
  count m (filter (fun w => is_call w = true) words) = zlen (filter (fun w => w = m) words).
Proof.
  intros Hm. unfold count. induction words as [|w ws IH]; [done|].
  rewrite !filter_cons. destruct (decide (w = m)) as [->|Hne].
  - rewrite decide_True by done. cbn [List.filter]. unfold str_eqb at 1.
    rewrite bool_decide_eq_true_2 by done. autorewrite with zlen. by rewrite IH.
  - destruct (decide (is_call w = true)); [|done]. cbn [List.filter]. unfold str_eqb at 1.
    by rewrite bool_decide_eq_false_2 by congruence.
Qed.

(** [extract_callsigns] returns, without duplicates, exactly the words of
    the upper-cased copy that have the callsign shape (one or two letters, a
    digit, one to four letters), an allocated prefix, and either at least four
    characters or corroboration: sent after DE, or heard more than once. On
    none of them does the prefix test raise. *)
Theorem extract_callsigns_spec (text : pystr) :
  let words := word_tokens (upper text) in
  NoDup (extract_callsigns text)
  /\ (forall m, m ∈ extract_callsigns text <->
        m ∈ words /\ is_call m = true /\ has_plausible_prefix m = Some true
        /\ (MIN_UNCORROBORATED_LEN <= zlen m
            \/ m ∈ findall DE_CALL_RE (upper text)
            \/ 1 < zlen (filter (fun w => w = m) words)))
  /\ (forall m, m ∈ findall CALLSIGN_RE (upper text) -> is_Some (has_plausible_prefix m)).
Proof.
  cbn zeta. unfold extract_callsigns. split_and!.
  - apply admit_tokens_NoDup, NoDup_nil_2.
  - intros m. rewrite admit_tokens_spec, callsign_tokens, elem_of_nil, list_elem_of_filter.
    unfold corroborated, plausible. split.
    + intros [[]|((Hc & Hm) & Hp & Hcor)]. rewrite count_call in Hcor by done.
      destruct (plausible_total m Hc) as [b Hb]. rewrite Hb in *. cbn in Hp. by subst b.
    + intros (Hm & Hc & Hp & Hcor). right. rewrite count_call by done. by rewrite Hp.
  - intros m. rewrite callsign_tokens, list_elem_of_filter. intros [Hc _]. by apply plausible_total.
Qed.

Example extract_callsigns_example :
  extract_callsigns (u "cq cq de w1aw w1aw o1e k1a de g4x n0call 599")
  = [u "W1AW"; u "G4X"; u "N0CALL"].
Proof. by_compute. Qed.

(** ** The draft *)

Record admitted := { a_prev : pystr; a_calls : list pystr; a_rst : list pystr }.

(** What the bridge makes of the next completed word. *)
Definition admit_word (a : admitted) (w : pystr) : admitted :=
  {| a_prev := w;
     a_calls :=
       if is_call w && plausible w
          && ((MIN_UNCORROBORATED_LEN <=? zlen w) || str_eqb (a_prev a) (u "DE")
              || bool_decide (w ∈ a_calls a))
       then a_calls a ++ [w] else a_calls a;
     a_rst := if negb (is_call w) && is_rst w then a_rst a ++ [w] else a_rst a |}.

Definition nothing_admitted : admitted := {| a_prev := []; a_calls := []; a_rst := [] |}.

Definition bridge_admitted (b : CWLogBridge) : admitted :=
  {| a_prev := b_prev_word b; a_calls := q_callsigns (b_draft b); a_rst := q_rst (b_draft b) |}.

Lemma bool_decide_is_call w : bool_decide (is_Some (fullmatch CALLSIGN_RE w)) = is_call w.
Proof. apply eq_true_iff_eq. rewrite bool_decide_eq_true. apply fullmatch_callsign. Qed.

Lemma bool_decide_is_rst w : bool_decide (is_Some (fullmatch RST_RE w)) = is_rst w.
Proof. apply eq_true_iff_eq. rewrite bool_decide_eq_true. apply fullmatch_rst. Qed.

Lemma flush_word_spec b :
  no_space (b_word b) ->
  let b' := flush_word b in
  bridge_admitted b'
  = foldl admit_word (bridge_admitted b) (if nonempty (b_word b) then [b_word b] else [])
  /\ b_word b' = [] /\ q_raw (b_draft b') = q_raw (b_draft b)
  /\ b_space_run b' = b_space_run b /\ b_gap_close b' = b_gap_close b.
Proof.
  destruct b as [[raw calls rst] w run gap prev]. cbn [b_word]. intros Hw. cbn zeta.
  unfold flush_word. cbn -[nonempty is_call plausible is_rst str_eqb zlen Z.leb bool_decide fullmatch strip u].
  rewrite strip_no_space by done. destruct (nonempty w); cbn [negb]; [|done].
  rewrite bool_decide_is_call, bool_decide_is_rst. cbn [foldl]. unfold admit_word, bridge_admitted.
  cbn [a_prev a_calls a_rst b_prev_word b_draft q_callsigns q_rst].
  rewrite <- orb_assoc. generalize ((MIN_UNCORROBORATED_LEN <=? zlen w)
    || (str_eqb prev (u "DE") || bool_decide (w ∈ calls))). intros c.
  by destruct (is_call w), (plausible w), (is_rst w), c.
Qed.

Section Stream.
Context {F : Type}.
Implicit Types (ev : CharEvent F) (b : CWLogBridge).

(** A character event: a word gap, or text without white space. *)
Definition clean ev : Prop := ce_char ev = u " " \/ (ce_char ev <> [] /\ no_space (ce_char ev)).

Definition copied (evs : list (CharEvent F)) : pystr := mjoin (ce_char <$> evs).

(** The bridge after the copy [t]: all but the word in progress is admitted. *)
Definition caught_up (t : pystr) b : Prop :=
  exists dn, t = dn ++ b_word b /\ (dn = [] \/ last dn = Some 32) /\ no_space (b_word b)
    /\ q_raw (b_draft b) = t
    /\ bridge_admitted b = foldl admit_word nothing_admitted (words dn).

Lemma on_char_caught_up t ev b :
  clean ev -> caught_up t b -> caught_up (t ++ ce_char ev) (on_char ev b).1.
Proof.
  intros Hev (dn & -> & Hdn & Hw & Hraw & Ha). unfold on_char. cbv zeta.
  destruct Hev as [->|[Hne Hns]].
  - change (str_eqb (u " ") (u " ")) with true. change (u " ") with [32]. cbn [fst].
    set (b0 := b <| b_draft := _ |>).
    destruct (flush_word_spec b0 Hw) as (Ha' & Hw' & Hraw' & _). revert Ha' Hw' Hraw'.
    generalize (flush_word b0). intros b' Ha' Hw' Hraw'.
    exists (dn ++ b_word b ++ [32]). cbn. rewrite Hw', app_nil_r, Hraw'.
    split_and!; [by rewrite <- app_assoc|right; by rewrite app_assoc, last_snoc|done| |].
    { cbn. by rewrite Hraw, <- app_assoc. }
    rewrite words_snoc_word, foldl_app by done. rewrite <- Ha. exact Ha'.
  - unfold str_eqb. rewrite bool_decide_eq_false_2.
    2: { intros E. rewrite E in Hns. by apply Forall_cons in Hns as [? _]. }
    exists dn. cbn. rewrite Hraw.
    split_and!; [by rewrite <- app_assoc|done|by apply Forall_app|done|done].
Qed.

Lemma hear_caught_up t evs b :
  Forall clean evs -> caught_up t b -> caught_up (t ++ copied evs) (hear evs b).1.
Proof.
  intros Hevs. revert t b. induction Hevs as [|ev evs Hev Hevs IH]; intros t b Hb.
  - by rewrite app_nil_r.
  - cbn [hear]. pose proof (on_char_caught_up t ev b Hev Hb) as H1.
    destruct (on_char ev b) as [b1 out1]. specialize (IH _ _ H1). cbn [fst] in IH.
    destruct (hear evs b1) as [b2 out2]. change (copied (ev :: evs)) with (ce_char ev ++ copied evs). by rewrite app_assoc.
Qed.

(** whatever characters the decoder streams, the bridge's draft is the one
    a batch reading gives: its raw copy is everything heard, and its calls and
    reports are what [admit_word] makes of the words completed by a space, in
    order; the word in progress (a call still being sent) is in neither. *)
Theorem log_bridge_streams (gap : Z) (evs : list (CharEvent F)) :
  Forall clean evs ->
  let b := (hear evs (new_bridge gap)).1 in
  exists completed,
    copied evs = completed ++ b_word b /\ (completed = [] \/ last completed = Some 32)
    /\ no_space (b_word b) /\ q_raw (b_draft b) = copied evs
    /\ q_callsigns (b_draft b) = a_calls (foldl admit_word nothing_admitted (words completed))
    /\ q_rst (b_draft b) = a_rst (foldl admit_word nothing_admitted (words completed)).
Proof.
  intros Hevs b.
  assert (caught_up [] (new_bridge gap)) as H0.
  { exists []. split_and!; try done; by left. }
  destruct (hear_caught_up [] evs _ Hevs H0) as (dn & Ht & Hdn & Hw & Hraw & Ha).
  exists dn. fold b in Ht, Hw, Hraw, Ha. cbn [app] in Ht.
  split_and!; try done.
  - change (q_callsigns (b_draft b)) with (a_calls (bridge_admitted b)). by rewrite Ha.
  - change (q_rst (b_draft b)) with (a_rst (bridge_admitted b)). by rewrite Ha.
Qed.

Lemma flush_word_frame b :
  q_raw (b_draft (flush_word b)) = q_raw (b_draft b)
  /\ b_space_run (flush_word b) = b_space_run b /\ b_gap_close (flush_word b) = b_gap_close b.
Proof.
  destruct b as [[raw calls rst] w run gap prev].
  unfold flush_word. cbn -[nonempty plausible str_eqb zlen Z.leb bool_decide fullmatch strip u].
  by repeat case_match.
Qed.

(** The copy ends with the spaces counted in [b_space_run]. *)
Definition gap_counted (gap : Z) b : Prop :=
  b_gap_close b = gap /\ 0 <= b_space_run b
  /\ exists t, q_raw (b_draft b) = t ++ repeat 32 (Z.to_nat (b_space_run b)).

Lemma on_char_gap gap ev b :
  gap_counted gap b ->
  gap_counted gap (on_char ev b).1
  /\ Forall (fun q => strip (q_raw q) <> []
              /\ exists t, q_raw q = t ++ repeat 32 (Z.to_nat gap)) (on_char ev b).2.
Proof.
  intros (Hg & Hr & t & Ht). unfold on_char, gap_counted. cbv zeta. set (b0 := b <| b_draft := _ |>).
  destruct (bool_decide_reflect (ce_char ev = u " ")) as [E|E];
    unfold str_eqb; [rewrite bool_decide_eq_true_2 by done|rewrite bool_decide_eq_false_2 by done].
  - destruct (flush_word_frame b0) as (Hraw & Hrun & Hgap). revert Hraw Hrun Hgap.
    generalize (flush_word b0). intros b1 Hraw Hrun Hgap. cbn in Hraw, Hrun, Hgap.
    rewrite Ht, E, <- app_assoc in Hraw. change (u " ") with (repeat 32 1) in Hraw.
    rewrite <- repeat_app in Hraw.
    replace (Z.to_nat (b_space_run b) + 1)%nat with (Z.to_nat (b_space_run b + 1)) in Hraw by lia.
    cbn. rewrite Hrun, Hgap, Hg. split.
    + split_and!; [done|lia|by exists t].
    + destruct (Z.leb_spec gap (b_space_run b + 1)) as [Hle|]; cbn [andb]; [|constructor].
      destruct (nonempty _) eqn:Hne; constructor; [|constructor].
      apply nonempty_true in Hne. cbn. split; [done|]. rewrite Hraw.
      exists (t ++ repeat 32 (Z.to_nat (b_space_run b + 1) - Z.to_nat gap)).
      rewrite <- app_assoc, <- repeat_app. do 2 f_equal. lia.
  - cbn. split; [|constructor]. split_and!; [done|lia|].
    eexists. by rewrite app_nil_r.
Qed.

(** [on_qso_ready] never fires on an empty draft or inside a word: every
    draft handed over has copy in it, and its copy ends with a run of at least
    [gap_close_words] spaces. *)
Theorem qso_ready_after_gap (gap : Z) (evs : list (CharEvent F)) :
  Forall (fun q => strip (q_raw q) <> []
                   /\ exists t, q_raw q = t ++ repeat 32 (Z.to_nat gap))
         (hear evs (new_bridge gap)).2.
Proof.
  assert (gap_counted gap (new_bridge gap)) as H0 by (split_and!; [done|cbn; lia|by exists []]).
  revert H0. generalize (new_bridge gap). induction evs as [|ev evs IH]; intros b Hb; [constructor|].
  cbn [hear]. destruct (on_char_gap gap ev b Hb) as [H1 H2].
  destruct (on_char ev b) as [b1 out1]. specialize (IH b1 H1).
  destruct (hear evs b1) as [b2 out2]. by apply Forall_app.
Qed.
End Stream.

(** A copy with a call after DE, a report, and a call still being sent. *)
Definition heard (s : pystr) : list (CharEvent float) :=
  (fun c => {| ce_char := [c]; ce_morse := []; ce_t_start := num_of_Z 0; ce_t_end := num_of_Z 0;
               ce_wpm := num_of_Z 20; ce_snr_db := num_of_Z 20; ce_confidence := num_of_Z 1 |}) <$> s.

#[export] Instance clean_dec {F} (ev : CharEvent F) : Decision (clean ev).
Proof. unfold clean. apply _. Defined.

Example log_bridge_streams_witness :
  let evs := heard (u "DE K1A 599 N0CA") in
  let b := (hear evs (new_bridge 3)).1 in
  Forall clean evs /\ q_raw (b_draft b) = copied evs
  /\ q_callsigns (b_draft b) = [u "K1A"] /\ q_rst (b_draft b) = [u "599"].
Proof.
  cbv zeta. assert (Forall clean (heard (u "DE K1A 599 N0CA"))) as Hc by by_compute.
  pose proof (log_bridge_streams 3 _ Hc) as (dn & _ & _ & _ & Hraw & _).
  split; [exact Hc|]. split; [exact Hraw|]. split; by_compute.
Defined.
