(* ===== verification/Stream.v ===== *)
(** * engine/stream.py: incremental delivery of a live result

    The streamer diffs the growing result against its three counters. The
    result object is shared with the decoder: each tick sees its state then. *)
From S2P Require Import Prelude PyFloat PyStr Regex Events Bridge.
Open Scope Z_scope.

Section Stream.
Context {F : Type} `{Num F}.
Local Open Scope num_scope.

Record Meta := {
  me_tone_hz : F;
  me_wpm : F;
  me_snr : F;
  me_source : pystr;
  me_feed : pystr;
  me_calls : list pystr;
}.

(** A batch; [chars] and [key_runs] carry the events' fields under short names. *)
Record Batch := {
  ba_chars : list (CharEvent F);
  ba_key_runs : list (KeyRun F);
  ba_env_t : list F;
  ba_env_mag : list F;
  ba_meta : Meta;
}.

Record ResultStreamer := {
  st_interval_s : F;
  st_source : pystr;
  st_feed_id : pystr;
  st_chars : Z;
  st_runs : Z;
  st_env : Z;
  st_last_flush : F;
}.

#[global] Instance eta_streamer : Eta ResultStreamer := fun s =>
  Build_ResultStreamer (st_interval_s s) (st_source s) (st_feed_id s) (st_chars s) (st_runs s)
    (st_env s) (st_last_flush s).

Definition new_streamer (feed_id : pystr) (interval_s : F) (source : pystr) : ResultStreamer :=
  {| st_interval_s := interval_s; st_source := source; st_feed_id := feed_id;
     st_chars := 0; st_runs := 0; st_env := 0; st_last_flush := num_of_Z 0 |}.

(** [text.rsplit(" ", 1)[0]]: the text itself when it has no space. *)
Definition before_last_space (text : pystr) : pystr :=
  if contains (u " ") text then
    rev (drop 1 (span (fun c => negb (Z.eqb c 32)) (rev text)).2)
  else text.

(** The part of the copy scanned for callsigns. *)
Definition scanned (text : pystr) : pystr :=
  if endswith text (u " ") then text else before_last_space text.

(** [next((c for c in reversed(r.chars) if c.char != " "), None)] *)
Definition last_char (r : DecodeResult F) : option (CharEvent F) :=
  List.find (fun c => negb (str_eqb (ce_char c) (u " "))) (rev (r_chars r)).

(** [_diff] *)
Definition diff (r : DecodeResult F) (s : ResultStreamer) : ResultStreamer * option Batch :=
  let chars := slice_from (st_chars s) (r_chars r) in
  let runs := slice_from (st_runs s) (r_key_runs r) in
  let env_t := slice_from (st_env s) (r_envelope_t r) in
  let env_mag := slice_from (st_env s) (r_envelope_mag r) in
  match chars, runs, env_t with
  | [], [], [] => (s, None)
  | _, _, _ =>
      (s <| st_chars := zlen (r_chars r) |> <| st_runs := zlen (r_key_runs r) |>
         <| st_env := zlen (r_envelope_t r) |>,
       Some {| ba_chars := chars; ba_key_runs := runs; ba_env_t := env_t; ba_env_mag := env_mag;
               ba_meta := {|
                 me_tone_hz := r_tone_hz r;
                 me_wpm := from_option ce_wpm (num_of_Z 0) (last_char r);
                 me_snr := from_option ce_snr_db (num_of_Z 0) (last_char r);
                 me_source := if nonempty (st_source s) then st_source s else r_engine r;
                 me_feed := st_feed_id s;
                 me_calls := extract_callsigns (scanned (r_text r)) |} |})
  end.

Definition stream_time (r : DecodeResult F) : F :=
  match last (r_envelope_t r) with
  | Some t => t
  | None => from_option ce_t_end (num_of_Z 0) (last (r_chars r))
  end.

(** [tick]: the batch handed to [send], if any. *)
Definition tick (force : bool) (r : DecodeResult F) (s : ResultStreamer) :
    ResultStreamer * option Batch :=
  let now := stream_time r in
  if negb force && (now - st_last_flush s <? st_interval_s s) then (s, None)
  else
    let '(s, batch) := diff r s in
    (s <| st_last_flush := now |>, batch).

(** Ticks as the result grows, then the final [flush]. *)
Fixpoint stream (rs : list (DecodeResult F)) (final : DecodeResult F) (s : ResultStreamer) :
    ResultStreamer * list Batch :=
  match rs with
  | [] => let '(s, b) := tick true final s in (s, option_list b)
  | r :: rs' =>
      let '(s, b) := tick false r s in
      let '(s, bs) := stream rs' final s in (s, option_list b ++ bs)
  end.

(** [r'] has everything [r] has, and more. *)
Definition extends (r r' : DecodeResult F) : Prop :=
  r_chars r `prefix_of` r_chars r' /\ r_key_runs r `prefix_of` r_key_runs r'
  /\ r_envelope_t r `prefix_of` r_envelope_t r'
  /\ r_envelope_mag r `prefix_of` r_envelope_mag r'.

(** The envelope arrays are written together. *)
Definition in_step (r : DecodeResult F) : Prop :=
  length (r_envelope_mag r) = length (r_envelope_t r).

(** Each result extends the one before it. *)
Fixpoint growing (r : DecodeResult F) (rs : list (DecodeResult F)) (final : DecodeResult F) : Prop :=
  match rs with
  | [] => extends r final /\ in_step final
  | r' :: rs' => extends r r' /\ in_step r' /\ growing r' rs' final
  end.

(** A counter into a list that has only grown since it was set. *)
Definition counts {A} (n : Z) (l : list A) : Prop := 0 <= n <= zlen l.

Record counted (r : DecodeResult F) (s : ResultStreamer) : Prop := {
  counted_chars : counts (st_chars s) (r_chars r);
  counted_runs : counts (st_runs s) (r_key_runs r);
  counted_env : counts (st_env s) (r_envelope_t r);
  counted_step : in_step r;
}.

(** The batches [bs] are what the counters of [s] still owe of [final]. *)
Record owes (final : DecodeResult F) (s : ResultStreamer) (bs : list Batch) : Prop := {
  owes_chars : mjoin (ba_chars <$> bs) = slice_from (st_chars s) (r_chars final);
  owes_runs : mjoin (ba_key_runs <$> bs) = slice_from (st_runs s) (r_key_runs final);
  owes_env_t : mjoin (ba_env_t <$> bs) = slice_from (st_env s) (r_envelope_t final);
  owes_env_mag : mjoin (ba_env_mag <$> bs) = slice_from (st_env s) (r_envelope_mag final);
}.

Lemma slice_from_all {A} n (l : list A) : counts n l -> slice_from n l = [] -> n = zlen l.
Proof.
  unfold counts, slice_from, zlen. intros Hn E. apply (f_equal length) in E.
  rewrite length_drop in E. cbn in E. lia.
Qed.

Lemma slice_from_zlen {A} (l : list A) : slice_from (zlen l) l = [].
Proof. unfold slice_from, zlen. rewrite Nat2Z.id. apply drop_all. Qed.

Lemma slice_from_prefix {A} n (l l' : list A) :
  counts n l -> l `prefix_of` l' ->
  slice_from n l' = slice_from n l ++ slice_from (zlen l) l'.
Proof.
  unfold counts, slice_from, zlen. intros Hn [k ->]. rewrite Nat2Z.id, drop_app_length.
  apply drop_app_le. lia.
Qed.

Lemma mjoin_batch {A} (f : Batch -> list A) b bs :
  mjoin (f <$> (option_list (Some b) ++ bs)) = f b ++ mjoin (f <$> bs).
Proof. done. Qed.

Lemma counted_extends r r' s : counted r s -> extends r r' -> in_step r' -> counted r' s.
Proof.
  intros [H1 H2 H3 _] (P1 & P2 & P3 & _) Hs. unfold counts, zlen in *.
  apply prefix_length in P1, P2, P3. split; unfold counts, zlen; try done; lia.
Qed.

Lemma extends_refl r : extends r r.
Proof. by repeat split. Qed.

Lemma extends_trans r1 r2 r3 : extends r1 r2 -> extends r2 r3 -> extends r1 r3.
Proof. intros (?&?&?&?) (?&?&?&?). repeat split; etrans; eauto. Qed.

Lemma diff_counted r s : counted r s -> counted r (diff r s).1.
Proof.
  intros Hc. unfold diff.
  assert (forall A (l : list A), counts (zlen l) l) as Hz by (intros; unfold counts; split; [apply zlen_nonneg|done]).
  by repeat case_match; try done; split; try apply Hz; destruct Hc.
Qed.

(** A batch and what is owed after it make up what was owed before it. *)
Lemma diff_owes r final s bs :
  counted r s -> extends r final ->
  owes final (diff r s).1 bs -> owes final s (option_list (diff r s).2 ++ bs).
Proof.
  intros [H1 H2 H3 Hst] (P1 & P2 & P3 & P4).
  assert (counts (st_env s) (r_envelope_mag r)) as H4 by (unfold counts, zlen in *; by rewrite Hst).
  assert (zlen (r_envelope_mag r) = zlen (r_envelope_t r)) as E4 by (unfold zlen; by rewrite Hst).
  unfold diff.
  destruct (slice_from (st_chars s) (r_chars r)) as [|c1 l1] eqn:E1;
    [destruct (slice_from (st_runs s) (r_key_runs r)) as [|c2 l2] eqn:E2;
      [destruct (slice_from (st_env s) (r_envelope_t r)) as [|c3 l3] eqn:E3; [done|]|]|].
  all: intros [O1 O2 O3 O4]; cbn in O1, O2, O3, O4; split; cbn [snd];
    rewrite mjoin_batch; cbn [ba_chars ba_key_runs ba_env_t ba_env_mag]; rewrite ?O1, ?O2, ?O3, ?O4;
    rewrite ?(slice_from_prefix _ _ _ H1 P1), ?(slice_from_prefix _ _ _ H2 P2),
      ?(slice_from_prefix _ _ _ H3 P3), ?(slice_from_prefix _ _ _ H4 P4), ?E4;
    by rewrite ?E1, ?E2, ?E3.
Qed.

Lemma tick_counted force r s : counted r s -> counted r (tick force r s).1.
Proof.
  intros Hc. unfold tick. destruct (negb force && _); [done|].
  pose proof (diff_counted r s Hc) as Hd. destruct (diff r s) as [s' b]. by destruct Hd.
Qed.

Lemma tick_owes force r final s bs :
  counted r s -> extends r final ->
  owes final (tick force r s).1 bs -> owes final s (option_list (tick force r s).2 ++ bs).
Proof.
  intros Hc Hx. unfold tick. destruct (negb force && _); [done|].
  pose proof (diff_owes r final s bs Hc Hx) as Hd. destruct (diff r s) as [s' b].
  intros [O1 O2 O3 O4]. apply Hd. by split.
Qed.

(** After a forced tick nothing is owed. *)
Lemma flush_owes r s : counted r s -> owes r (tick true r s).1 [].
Proof.
  intros [H1 H2 H3 Hst]. unfold tick, diff. cbn [negb andb].
  assert (counts (st_env s) (r_envelope_mag r)) as H4 by (unfold counts, zlen in *; by rewrite Hst).
  assert (zlen (r_envelope_mag r) = zlen (r_envelope_t r)) as E4 by (unfold zlen; by rewrite Hst).
  destruct (slice_from (st_chars s) (r_chars r)) as [|c1 l1] eqn:E1;
    [destruct (slice_from (st_runs s) (r_key_runs r)) as [|c2 l2] eqn:E2;
      [destruct (slice_from (st_env s) (r_envelope_t r)) as [|c3 l3] eqn:E3|]|].
  { split; cbn; try done. apply slice_from_all in E3 as ->; [|done].
    by rewrite <- E4, slice_from_zlen. }
  all: split; cbn; rewrite ?slice_from_zlen, <- ?E4, ?slice_from_zlen; done.
Qed.

(** Whether a batch carries anything. *)
Definition carries (b : Batch) : Prop :=
  ba_chars b <> [] \/ ba_key_runs b <> [] \/ ba_env_t b <> [].

Lemma tick_carries force r s b : (tick force r s).2 = Some b -> carries b.
Proof.
  unfold tick, diff, carries. destruct (negb force && _); [done|].
  destruct (slice_from (st_chars s) (r_chars r)) as [|c1 l1];
    [destruct (slice_from (st_runs s) (r_key_runs r)) as [|c2 l2];
      [destruct (slice_from (st_env s) (r_envelope_t r)) as [|c3 l3]|]|];
    cbn; intros [= <-]; cbn; auto.
Qed.

Lemma growing_extends r rs final : growing r rs final -> extends r final /\ in_step final.
Proof.
  revert r. induction rs as [|r' rs IH]; intros r; [done|]. intros (Hx & _ & Hg).
  apply IH in Hg as [Hx' ?]. split; [by eapply extends_trans|done].
Qed.

Lemma stream_owes r rs final s :
  counted r s -> growing r rs final ->
  owes final s (stream rs final s).2 /\ Forall carries (stream rs final s).2.
Proof.
  revert r s. induction rs as [|r' rs IH]; intros r s Hc Hg; cbn [stream].
  - destruct Hg as [Hx Hs]. apply (counted_extends _ final) in Hc; [|done..].
    pose proof (flush_owes _ _ Hc) as O. apply (tick_owes true) in O; [|done|apply extends_refl].
    rewrite app_nil_r in O. destruct (tick true final s) as [s' b] eqn:E. split; [done|].
    destruct b as [b|]; [|constructor]. constructor; [|constructor].
    apply (tick_carries true final s). by rewrite E.
  - destruct Hg as (Hx & Hs & Hg). apply (counted_extends _ r') in Hc; [|done..].
    pose proof (tick_counted false r' s Hc) as Hc'. destruct (growing_extends _ _ _ Hg) as [Hxf _].
    destruct (IH _ _ Hc' Hg) as [O Hcar]. apply (tick_owes false) in O; [|done|done].
    pose proof (tick_carries false r' s) as Ht.
    destruct (tick false r' s) as [s' b]. cbn [fst] in *.
    destruct (stream rs final s') as [s'' bs]. split; [done|].
    apply Forall_app. split; [|done]. destruct b as [b|]; [|constructor].
    constructor; [by apply Ht|constructor].
Qed.

(** C34: however a result grows between ticks, the batches the streamer sends
    up to the final flush deliver every character, key run and envelope point
    exactly once and in order, and no empty batch is sent: rate limiting only
    delays, and no point of the envelope is lost or repeated. *)
Theorem stream_exactly_once (feed_id source : pystr) (interval : F)
    (rs : list (DecodeResult F)) (r0 final : DecodeResult F) :
  in_step r0 -> growing r0 rs final ->
  let batches := (stream rs final (new_streamer feed_id interval source)).2 in
  mjoin (ba_chars <$> batches) = r_chars final
  /\ mjoin (ba_key_runs <$> batches) = r_key_runs final
  /\ mjoin (ba_env_t <$> batches) = r_envelope_t final
  /\ mjoin (ba_env_mag <$> batches) = r_envelope_mag final
  /\ Forall carries batches.
Proof.
  intros Hs Hg. cbn zeta.
  assert (counted r0 (new_streamer feed_id interval source)) as Hc.
  { split; [| | |done]; (split; [done|apply zlen_nonneg]). }
  destruct (stream_owes _ _ _ _ Hc Hg) as [[O1 O2 O3 O4] Hcar]. by split_and!.
Qed.
End Stream.
Arguments Meta F : clear implicits.
Arguments Batch F : clear implicits.
Arguments ResultStreamer F : clear implicits.

(** ** A result that grows *)

Definition sample_char (c : pystr) (t : Z) : CharEvent float :=
  {| ce_char := c; ce_morse := []; ce_t_start := num_of_Z t; ce_t_end := num_of_Z (t + 1);
     ce_wpm := num_of_Z 20; ce_snr_db := num_of_Z 15; ce_confidence := num_of_Z 1 |}.

Definition sample_result (n : Z) : DecodeResult float :=
  new_result (num_of_Z 0) 8000 (num_of_Z 600)
    <| r_text := take (Z.to_nat n) (u "N0CALL K") |>
    <| r_chars := (fun c => sample_char [c] 1) <$> take (Z.to_nat n) (u "N0CALL K") |>
    <| r_envelope_t := num_of_Z <$> seqZ 0 n |> <| r_envelope_mag := num_of_Z <$> seqZ 0 n |>.

Example stream_exactly_once_witness :
  let batches := (stream [sample_result 2; sample_result 3; sample_result 6] (sample_result 8)
                    (new_streamer (u "f") (num_of_Z 2) [])).2 in
  mjoin (ba_chars <$> batches) = r_chars (sample_result 8) /\ length batches = 3%nat.
Proof.
  cbv zeta. split; [|vm_compute; reflexivity].
  pose proof (stream_exactly_once (u "f") [] (num_of_Z 2 : float)
    [sample_result 2; sample_result 3; sample_result 6] (sample_result 0) (sample_result 8)) as W.
  apply W; [reflexivity|]. repeat split; try (eexists; vm_compute; reflexivity).
Defined.

(** the chips are computed from the text before its last space only when it
    has one: while the first word of a session is still being sent, the filter
    already sees it, and a call cut short is offered ([N0CALL] after five
    letters offers [N0CAL]). *)
Theorem first_word_scanned_early :
  (me_calls ∘ ba_meta <$> (tick true (sample_result 5) (new_streamer (u "f") (num_of_Z 0) [])).2)
  = Some [u "N0CAL"]
  /\ (me_calls ∘ ba_meta <$> (tick true (sample_result 8) (new_streamer (u "f") (num_of_Z 0) [])).2)
  = Some [u "N0CALL"].
Proof. split; vm_compute; reflexivity. Qed.
