(* ===== verification/Live.v ===== *)
(** * engine/manager.py, engine/live.py, engine/sources.py, engine/export.py

    The seam between audio sources, engines and subscribers, the live loop that
    drives one decoder, and the session a result is stored as. *)
From S2P Require Import Prelude PyFloat PyStr Morse Events Decoder DecoderFacts.
Open Scope Z_scope.

(** ** The engine interface

    [AudioDemodulator] and [NetworkTapEngine] as the manager sees them. *)
Class Demodulator (S E D : Type) := {
  dem_process : list S -> D -> D * list E;
  dem_flush : D -> D * list E;
}.

Class TapEngine (E T : Type) := { tap_poll : T -> T * list E }.

(** The law the manager's clients rely on: cutting the audio differently makes
    no difference to an engine in a [steady] state. *)
Class LawfulDemodulator (S E D : Type) `{Demodulator S E D} := {
  steady : D -> Prop;
  steady_process d xs : steady d -> steady (dem_process xs d).1;
  steady_app d xs ys :
    steady d ->
    dem_process (xs ++ ys) d
    = let '(d1, o1) := dem_process xs d in
      let '(d2, o2) := dem_process ys d1 in (d2, o1 ++ o2);
}.

(** ** AudioEngineManager

    Subscribers act on a shared world [X]. *)
Section Manager.
Context {S E D T X : Type} `{Demodulator S E D} `{TapEngine E T}.

Record AudioEngineManager := {
  mg_sample_rate : Z;
  mg_demods : list D;
  mg_taps : list T;
  mg_subs : list (E -> X -> X);
}.

#[global] Instance eta_manager : Eta AudioEngineManager := fun m =>
  Build_AudioEngineManager (mg_sample_rate m) (mg_demods m) (mg_taps m) (mg_subs m).

Definition new_manager (sample_rate : Z) : AudioEngineManager :=
  {| mg_sample_rate := sample_rate; mg_demods := []; mg_taps := []; mg_subs := [] |}.

Definition add_demodulator (d : D) (m : AudioEngineManager) := m <| mg_demods := mg_demods m ++ [d] |>.
Definition add_tap (t : T) (m : AudioEngineManager) := m <| mg_taps := mg_taps m ++ [t] |>.
Definition subscribe (fn : E -> X -> X) (m : AudioEngineManager) := m <| mg_subs := mg_subs m ++ [fn] |>.

(** [_emit] *)
Definition emit (subs : list (E -> X -> X)) (events : list E) (x : X) : X :=
  foldl (fun x ev => foldl (fun x fn => fn ev x) x subs) x events.

(** One loop of [pump] or [finalize]: run each engine, emit what it returns. *)
Fixpoint run_each {A} (f : A -> A * list E) (subs : list (E -> X -> X)) (l : list A) (x : X) :
    list A * X :=
  match l with
  | [] => ([], x)
  | a :: l' =>
      let '(a', events) := f a in
      let '(l'', x') := run_each f subs l' (emit subs events x) in (a' :: l'', x')
  end.

Definition pump (samples : list S) (m : AudioEngineManager) (x : X) : AudioEngineManager * X :=
  let '(ds, x) := run_each (dem_process samples) (mg_subs m) (mg_demods m) x in
  let '(ts, x) := run_each tap_poll (mg_subs m) (mg_taps m) x in
  (m <| mg_demods := ds |> <| mg_taps := ts |>, x).

Definition finalize (m : AudioEngineManager) (x : X) : AudioEngineManager * X :=
  let '(ds, x) := run_each dem_flush (mg_subs m) (mg_demods m) x in
  let '(ts, x) := run_each tap_poll (mg_subs m) (mg_taps m) x in
  (m <| mg_demods := ds |> <| mg_taps := ts |>, x).

Fixpoint pump_all (blocks : list (list S)) (m : AudioEngineManager) (x : X) : AudioEngineManager * X :=
  match blocks with
  | [] => (m, x)
  | b :: bs => let '(m, x) := pump b m x in pump_all bs m x
  end.

(** [run_source], for a source that yields [blocks]. *)
Definition run_source (blocks : list (list S)) (m : AudioEngineManager) (x : X) :
    AudioEngineManager * X :=
  let '(m, x) := pump_all blocks m x in finalize m x.

Lemma emit_app subs e1 e2 x : emit subs (e1 ++ e2) x = emit subs e2 (emit subs e1 x).
Proof. apply foldl_app. Qed.
End Manager.
Arguments AudioEngineManager E D T X : clear implicits.

(** ** ArraySource *)

Section Sources.
Context {A : Type}.

Fixpoint cut (fuel : nat) (bs : nat) (l : list A) : list (list A) :=
  match fuel with
  | O => []
  | Datatypes.S f =>
      match l with
      | [] => []
      | _ => take bs l :: cut f bs (drop bs l)
      end
  end.

(** [ArraySource.blocks]; [None] where [range] refuses a zero step. *)
Definition array_blocks (block_size : Z) (audio : list A) : option (list (list A)) :=
  if block_size =? 0 then None
  else if block_size <? 0 then Some []
  else Some (cut (length audio) (Z.to_nat block_size) audio).

Lemma cut_join fuel bs (l : list A) :
  (0 < bs)%nat -> (length l <= fuel)%nat -> mjoin (cut fuel bs l) = l.
Proof.
  intros Hbs. revert l. induction fuel as [|f IH]; intros l Hl.
  - by destruct l; [|cbn in Hl; lia].
  - cbn [cut]. destruct l as [|a l]; [done|].
    change (mjoin (take bs (a :: l) :: ?x)) with (take bs (a :: l) ++ mjoin x).
    rewrite IH; [apply take_drop|]. rewrite length_drop. cbn in *. lia.
Qed.

Lemma cut_sizes fuel bs (l : list A) :
  (0 < bs)%nat -> Forall (fun b => 0 < length b <= bs)%nat (cut fuel bs l).
Proof.
  intros Hbs. revert l. induction fuel as [|f IH]; intros l; cbn [cut]; [constructor|].
  destruct l as [|a l]; [constructor|]. constructor; [|done]. rewrite length_take. cbn. lia.
Qed.

Lemma array_blocks_join bs audio blocks :
  0 < bs -> array_blocks bs audio = Some blocks -> mjoin blocks = audio.
Proof.
  unfold array_blocks. intros Hbs. rewrite (proj2 (Z.eqb_neq _ _)), (proj2 (Z.ltb_ge _ _)) by lia.
  intros [= <-]. apply cut_join; lia.
Qed.
End Sources.

(** ** The decoder as an engine *)

Section DecoderEngine.
Context {S F : Type} `{Num F} `{Numpy S F}.

#[export] Instance decoder_engine : Demodulator S (CharEvent F) (CWDecoder S F) := {|
  dem_process := process; dem_flush := flush;
|}.

(** With the frequency control off, the decoder does not see how the audio
    was cut. *)
#[export] Program Instance decoder_lawful :
  LawfulDemodulator S (CharEvent F) (CWDecoder S F) := {|
    steady := fun d => afc (d_cfg d) = false /\ 0 < d_block d;
  |}.
Next Obligation.
  intros d xs [Hafc Hb]. destruct (process_setup xs d Hafc) as (Hc & Hb' & _).
  cbn [dem_process decoder_engine]. by rewrite Hc, Hb'.
Qed.
Next Obligation. intros d xs ys [Hafc Hb]. by apply process_app. Qed.
End DecoderEngine.

(** ** Clients of the interface *)

Section ManagerFacts.
Context {S E D T X : Type} `{LawfulDemodulator S E D} `{TapEngine E T}.
Local Notation mgr := (AudioEngineManager E D T X).

(** A manager with one audio engine and no taps. *)
Definition solo (fs : Z) (d : D) (subs : list (E -> X -> X)) : mgr :=
  {| mg_sample_rate := fs; mg_demods := [d]; mg_taps := []; mg_subs := subs |}.

Lemma pump_solo fs d subs xs x :
  pump xs (solo fs d subs) x
  = (solo fs (dem_process xs d).1 subs, emit subs (dem_process xs d).2 x).
Proof. unfold pump. cbn. by destruct (dem_process xs d). Qed.

Lemma pump_all_solo fs blocks d subs x :
  steady d -> blocks <> [] ->
  pump_all blocks (solo fs d subs) x = pump (mjoin blocks) (solo fs d subs) x.
Proof.
  revert d x. induction blocks as [|b bs IH]; intros d x Hd Hne; [done|].
  cbn [pump_all]. rewrite pump_solo. destruct bs as [|b' bs].
  - cbn [pump_all]. change (mjoin [b]) with (b ++ []). by rewrite app_nil_r, pump_solo.
  - rewrite IH; [|by apply steady_process|done].
    change (mjoin (b :: b' :: bs)) with (b ++ mjoin (b' :: bs)).
    rewrite !pump_solo, (steady_app d) by done.
    destruct (dem_process b d) as [d1 o1]. cbn [fst snd].
    destruct (dem_process (mjoin (b' :: bs)) d1) as [d2 o2]. cbn [fst snd]. by rewrite emit_app.
Qed.

(** the block size of a source is invisible: a recording played through
    the manager in blocks of any two sizes leaves the engine in the same
    state and calls every subscriber with the same events in the same
    order. Proved against the engine interface; the CW decoder satisfies it
    with its frequency control off. *)
Theorem block_size_irrelevant (fs : Z) (d : D) (subs : list (E -> X -> X)) (x : X)
    (audio : list S) (bs1 bs2 : Z) (blocks1 blocks2 : list (list S)) :
  steady d -> audio <> [] -> 0 < bs1 -> 0 < bs2 ->
  array_blocks bs1 audio = Some blocks1 -> array_blocks bs2 audio = Some blocks2 ->
  run_source blocks1 (solo fs d subs) x = run_source blocks2 (solo fs d subs) x.
Proof.
  intros Hd Hne Hb1 Hb2 E1 E2.
  apply array_blocks_join in E1, E2; [|done..].
  assert (forall bs, mjoin bs = audio -> bs <> []) as Hbs by (by intros [|??] <-).
  unfold run_source. by rewrite !pump_all_solo, E1, E2 by eauto.
Qed.
End ManagerFacts.

(** ** monitor_live *)

Section Monitor.
Context {S F : Type} `{Num F} `{Numpy S F}.
Local Notation dec := (CWDecoder S F).
Local Notation ev := (CharEvent F).

(** The calibration loop: read blocks until [target] samples are in. *)
Fixpoint calibrate (target have : Z) (blocks : list (list S)) : list (list S) * list (list S) :=
  match blocks with
  | [] => ([], [])
  | b :: bs =>
      let have := have + zlen b in
      if target <=? have then ([b], bs)
      else let '(buffered, rest) := calibrate target have bs in (b :: buffered, rest)
  end.

(** The decode loop: the events [on_char] saw and the results [on_tick] saw. *)
Fixpoint monitor_loop (blocks : list (list S)) (d : dec) : dec * list ev * list (DecodeResult F) :=
  match blocks with
  | [] => (d, [], [])
  | b :: bs =>
      let '(d, out) := process b d in
      let tick := d_result d in
      let '(d, outs, ticks) := monitor_loop bs d in (d, out ++ outs, tick :: ticks)
  end.

(** What the live loop hears, calls back and returns. [on_tone] is called
    only when the tone was measured. *)
Record Monitored := {
  mo_result : DecodeResult F;
  mo_on_char : list ev;
  mo_on_tone : option F;
  mo_on_tick : list (DecodeResult F);
}.

(** The decoder run once the tone is known: the buffered blocks first. *)
Definition monitor_with (fs : Z) (blocks : list (list S)) (tone : F) (expected_wpm : option F)
    (config : CWConfig F) (on_tone : option F) : option Monitored :=
  d ← init fs (config <| tone_hz := tone |> <| Decoder.expected_wpm := expected_wpm |>);
  let '(d, outs, ticks) := monitor_loop blocks d in
  let '(d, last) := flush d in
  Some {| mo_result := d_result d <| r_tone_hz := tone |>; mo_on_char := outs ++ last;
          mo_on_tone := on_tone; mo_on_tick := ticks |}.

(** The measured tone. [int(calibrate_s * fs)] samples are buffered for it. *)
Definition measured_tone (fs : Z) (buffered : list (list S)) : F :=
  match buffered with
  | [] => num_of_Z 600
  | _ => detect_tone (mjoin buffered) fs (num_of_Z 300) (num_of_Z 1200) (num_of_Z 30)
  end.

Definition monitor_live (fs : Z) (blocks : list (list S)) (tone_hz : option F) (calibrate_s : F)
    (expected_wpm : option F) (config : option (CWConfig F)) : option Monitored :=
  let config := default default_config config in
  match tone_hz with
  | Some tone => monitor_with fs blocks tone expected_wpm config None
  | None =>
      target ← num_trunc (num_mul calibrate_s (num_of_Z fs));
      let '(buffered, rest) := calibrate target 0 blocks in
      let tone := measured_tone fs buffered in
      monitor_with fs (buffered ++ rest) tone expected_wpm config (Some tone)
  end.

Lemma calibrate_split target have blocks :
  let '(buffered, rest) := calibrate target have blocks in
  buffered ++ rest = blocks
  /\ (rest <> [] -> target <= have + zlen (mjoin buffered)).
Proof.
  revert have. induction blocks as [|b bs IH]; intros have; cbn [calibrate]; [done|].
  destruct (Z.leb_spec target (have + zlen b)) as [Hle|Hgt].
  - split; [done|]. intros _. change (mjoin [b]) with (b ++ []). by rewrite app_nil_r.
  - specialize (IH (have + zlen b)). destruct (calibrate target (have + zlen b) bs) as [bu re].
    destruct IH as [<- IH]. split; [done|]. intros Hre.
    change (mjoin (b :: bu)) with (b ++ mjoin bu). rewrite zlen_app.
    specialize (IH Hre). lia.
Qed.

Lemma monitor_loop_feed blocks d :
  (monitor_loop blocks d).1 = feed blocks d
  /\ length (monitor_loop blocks d).2 = length blocks.
Proof.
  revert d. induction blocks as [|b bs IH]; intros d; [done|]. cbn [monitor_loop feed].
  destruct (process b d) as [d1 o1]. destruct (IH d1) as [E L].
  destruct (monitor_loop bs d1) as [[d2 o2] t2], (feed bs d1) as [d3 o3].
  cbn in *. simplify_eq. by rewrite L.
Qed.

(** nothing heard while the tone is being measured is lost: the live loop
    on an unknown tone gives the result, the character callbacks and the
    ticks of the loop told the measured tone from the start, the result
    reports that tone, and [on_tick] runs once per block. *)
Theorem calibration_lossless (fs : Z) (blocks : list (list S)) (calibrate_s : F)
    (expected_wpm : option F) (config : option (CWConfig F)) (m : Monitored) :
  monitor_live fs blocks None calibrate_s expected_wpm config = Some m ->
  exists tone m',
    mo_on_tone m = Some tone
    /\ monitor_live fs blocks (Some tone) calibrate_s expected_wpm config = Some m'
    /\ mo_result m = mo_result m' /\ mo_on_char m = mo_on_char m' /\ mo_on_tick m = mo_on_tick m'
    /\ r_tone_hz (mo_result m) = tone /\ length (mo_on_tick m) = length blocks.
Proof.
  unfold monitor_live. intros (target & _ & E)%bind_Some.
  pose proof (calibrate_split target 0 blocks) as Hs.
  destruct (calibrate target 0 blocks) as [buffered rest]. destruct Hs as [Hbr _]. rewrite Hbr in E.
  set (tone := measured_tone fs buffered) in *. clearbody tone. exists tone.
  unfold monitor_with in *. apply bind_Some in E as (d & -> & E). cbn [mbind option_bind].
  pose proof (proj2 (monitor_loop_feed blocks d)) as L.
  destruct (monitor_loop blocks d) as [[d1 outs] ticks], (flush d1) as [d2 out].
  injection E as <-. eexists. cbn in *. by split_and!.
Qed.
End Monitor.

(** ** Sessions

    [session_from_result]: the envelope traces are decimated to the stored-size
    cap, the events are kept. *)
Section SessionExport.
Context {F : Type}.

Record Session := {
  se_engine : pystr;
  se_sample_rate : Z;
  se_tone_hz : F;
  se_wpm_final : F;
  se_truth : pystr;
  se_decoded : pystr;
  se_env_t : list F;
  se_env_mag : list F;
  se_key_runs : list (KeyRun F);
  se_chars : list (CharEvent F);
}.

(** [l[::stride]] for a positive stride; [skip] elements separate the kept ones. *)
Fixpoint every (stride : nat) (skip : nat) (l : list F) : list F :=
  match l with
  | [] => []
  | x :: l' => match skip with O => x :: every stride (pred stride) l' | Datatypes.S k => every stride k l' end
  end.

(** [-(-n // m)] *)
Definition ceil_div (n m : Z) : Z := - (- n / m).

Definition session_from_result (result : DecodeResult F) (truth : pystr) (max_env_points : Z) :
    Session :=
  let env_t := r_envelope_t result in
  let env_mag := r_envelope_mag result in
  let '(env_t, env_mag) :=
    if negb (max_env_points =? 0) && (max_env_points <? zlen env_t) then
      let stride := Z.to_nat (ceil_div (zlen env_t) max_env_points) in
      (every stride 0 env_t, every stride 0 env_mag)
    else (env_t, env_mag) in
  {| se_engine := r_engine result; se_sample_rate := r_sample_rate result;
     se_tone_hz := r_tone_hz result; se_wpm_final := r_wpm_final result;
     se_truth := upper truth; se_decoded := r_text result;
     se_env_t := env_t; se_env_mag := env_mag;
     se_key_runs := r_key_runs result; se_chars := r_chars result |}.

Lemma every_lookup stride skip l i :
  (0 < stride)%nat -> every stride skip l !! i = l !! (skip + i * stride)%nat.
Proof.
  intros Hs. revert skip i. induction l as [|x l IH]; intros skip i; cbn [every].
  { by rewrite !lookup_nil. }
  destruct skip as [|k]; [|by rewrite IH].
  destruct i as [|i]; [done|]. cbn [lookup list_lookup]. rewrite IH.
  replace (0 + Datatypes.S i * stride)%nat with (Datatypes.S (pred stride + i * stride)) by lia. done.
Qed.

Lemma every_length stride skip l :
  (0 < stride)%nat -> (skip < stride)%nat ->
  (length (every stride skip l) * stride <= length l + stride - 1 - skip)%nat.
Proof.
  intros Hs. revert skip. induction l as [|x l IH]; intros skip Hk; cbn [every]; [cbn; lia|].
  destruct skip as [|k]; cbn [length].
  - specialize (IH (pred stride) ltac:(lia)). cbn. lia.
  - specialize (IH k ltac:(lia)). lia.
Qed.

Lemma every_same_length stride skip l l' :
  length l = length l' -> length (every stride skip l) = length (every stride skip l').
Proof.
  revert skip l'. induction l as [|x l IH]; intros skip [|y l'] E; try done.
  injection E as E.
  cbn [every]. destruct skip as [|k]; cbn [length]; by rewrite (IH _ l').
Qed.

Lemma ceil_div_bound n m : 0 < m -> m < n -> 1 < ceil_div n m /\ n <= ceil_div n m * m.
Proof.
  unfold ceil_div. intros Hm Hn.
  pose proof (Z.div_mod (- n) m ltac:(lia)). pose proof (Z.mod_pos_bound (- n) m Hm). nia.
Qed.

(** a stored session holds at most [max_env_points] envelope points, at
    least one of every run of [stride] of them, evenly spaced from the first,
    its two traces stay in step, and its characters, key runs and text are
    those of the result. *)
Theorem session_bounded (result : DecodeResult F) (truth : pystr) (max_env_points : Z) :
  0 < max_env_points -> length (r_envelope_mag result) = length (r_envelope_t result) ->
  let s := session_from_result result truth max_env_points in
  zlen (se_env_t s) <= max_env_points
  /\ length (se_env_mag s) = length (se_env_t s)
  /\ (exists stride, (0 < stride)%nat /\
       (forall i, se_env_t s !! i = r_envelope_t result !! (i * stride)%nat) /\
       (forall i, se_env_mag s !! i = r_envelope_mag result !! (i * stride)%nat))
  /\ se_chars s = r_chars result /\ se_key_runs s = r_key_runs result
  /\ se_decoded s = r_text result.
Proof.
  intros Hm Hlen. cbn zeta. unfold session_from_result.
  rewrite (proj2 (Z.eqb_neq max_env_points 0)) by lia. cbn [negb andb].
  destruct (Z.ltb_spec max_env_points (zlen (r_envelope_t result))) as [Hlt|Hge]; cbn.
  - destruct (ceil_div_bound _ _ Hm Hlt) as [Hs Hn].
    set (q := ceil_div _ _) in *. clearbody q.
    pose proof (every_length (Z.to_nat q) 0 (r_envelope_t result) ltac:(lia) ltac:(lia)) as Hle.
    split_and!; [|by apply every_same_length| |done..].
    + unfold zlen in *. nia.
    + exists (Z.to_nat q). split_and!; [lia| |]; intros i; by rewrite every_lookup by lia.
  - split_and!; try done. exists 1%nat. split_and!; [lia| |]; intros i; f_equal; lia.
Qed.
End SessionExport.
Arguments Session F : clear implicits.

(** ** Concrete runs *)

#[local] Instance no_tap : TapEngine (CharEvent float) unit := {| tap_poll := fun t => (t, []) |}.

(** A subscriber that writes down what it hears. *)
Definition scribe (e : CharEvent float) (x : pystr) : pystr := x ++ ce_char e.

Example block_size_irrelevant_witness :
  let m : AudioEngineManager (CharEvent float) (CWDecoder float float) unit pystr :=
    solo 1000 Demo.decoder [scribe] in
  run_source (cut 1000 64 Demo.eight_dits) m [] = run_source (cut 1000 100 Demo.eight_dits) m [].
Proof.
  cbv zeta.
  apply (block_size_irrelevant 1000 Demo.decoder [scribe] [] Demo.eight_dits 64 100);
    vm_compute; (reflexivity || done || by split).
Defined.

Example calibration_lossless_witness :
  exists m, monitor_live 1000 (cut 1000 64 Demo.eight_dits) None (lit 1 10) None (Some Demo.cfg) = Some m
  /\ length (mo_on_tick m) = length (cut 1000 64 Demo.eight_dits).
Proof.
  destruct (monitor_live 1000 (cut 1000 64 Demo.eight_dits) None (lit 1 10) None (Some Demo.cfg))
    as [m|] eqn:E; [|exfalso; revert E; vm_compute; discriminate].
  exists m. split; [reflexivity|].
  by destruct (calibration_lossless _ _ _ _ _ _ E) as (? & ? & ? & ? & ? & ? & ? & ? & ?).
Defined.

Example session_bounded_witness :
  let r := new_result (num_of_Z 0 : float) 8000 (num_of_Z 600)
             <| r_envelope_t := num_of_Z <$> seqZ 0 10 |> <| r_envelope_mag := num_of_Z <$> seqZ 5 10 |> in
  zlen (se_env_t (session_from_result r [] 4)) <= 4
  /\ se_env_t (session_from_result r [] 4) = num_of_Z <$> [0; 3; 6; 9].
Proof.
  cbv zeta. split; [|vm_compute; reflexivity].
  apply session_bounded; [lia|reflexivity].
Defined.
