(* ===== verification/Abbrev.v ===== *)
(** * abbrev.py: shorthand glossing for tutor mode *)
From S2P Require Import Prelude PyFloat PyStr Morse.
Open Scope Z_scope.

(** [ABBREVIATIONS], in the order of the source. *)
Definition ABBREVIATIONS : list (pystr * list (pystr * pystr)) := [
  (u "Q-codes",
    [(u "QRL", u "is this frequency in use? / I'm busy");
     (u "QRM", u "interference (from other stations)");
     (u "QRN", u "static / natural noise");
     (u "QRO", u "increase power");
     (u "QRP", u "low power operating");
     (u "QRQ", u "send faster");
     (u "QRS", u "send more slowly");
     (u "QRT", u "stop sending / going off the air");
     (u "QRV", u "ready / standing by");
     (u "QRX", u "wait / stand by");
     (u "QRZ", u "who is calling me?");
     (u "QSB", u "your signal is fading");
     (u "QSL", u "acknowledged / I confirm");
     (u "QSO", u "a contact / conversation");
     (u "QSY", u "change frequency");
     (u "QTH", u "location / station address");
     (u "QTR", u "the time")]);
  (u "Calling & procedure",
    [(u "CQ", u "calling any station");
     (u "DE", u "from / this is");
     (u "K", u "over — go ahead, anyone");
     (u "KN", u "over — named station only");
     (u "AR", u "end of message");
     (u "SK", u "end of contact — signing off");
     (u "BK", u "break — quick back-and-forth");
     (u "BT", u "separator / new paragraph");
     (u "AS", u "wait / stand by");
     (u "CT", u "start of message");
     (u "R", u "roger — received OK");
     (u "CL", u "closing station")]);
  (u "Prosigns — as they appear in copy",
    [(u "+", u "end of message (AR)");
     (u "=", u "separator (BT) — new thought");
     (u "(", u "go ahead — named station only (KN)");
     (u "&", u "wait / stand by (AS)");
     (u "<SK>", u "end of contact — signing off");
     (u "<BK>", u "break-in — over to you");
     (u "<CT>", u "start of message (KA)")]);
  (u "Common words",
    [(u "ABT", u "about");
     (u "AGN", u "again");
     (u "ANT", u "antenna");
     (u "BCNU", u "be seeing you");
     (u "BTU", u "back to you");
     (u "CFM", u "confirm");
     (u "CPY", u "copy");
     (u "CUL", u "see you later");
     (u "CUAGN", u "see you again");
     (u "DR", u "dear");
     (u "DX", u "distant / long-distance station");
     (u "ES", u "and");
     (u "FB", u "fine business — excellent");
     (u "FER", u "for");
     (u "FM", u "from");
     (u "GA", u "good afternoon");
     (u "GB", u "goodbye");
     (u "GE", u "good evening");
     (u "GL", u "good luck");
     (u "GM", u "good morning");
     (u "GN", u "good night");
     (u "GUD", u "good");
     (u "HI", u "laughter (ham 'ha ha')");
     (u "HR", u "here");
     (u "HW", u "how do you copy?");
     (u "MNI", u "many");
     (u "NIL", u "nothing / I have nothing for you");
     (u "NR", u "number");
     (u "NW", u "now");
     (u "OM", u "old man — any operator");
     (u "OP", u "operator / name");
     (u "PSE", u "please");
     (u "PWR", u "power");
     (u "RIG", u "radio equipment");
     (u "RST", u "signal report (readability-strength-tone)");
     (u "SRI", u "sorry");
     (u "TKS", u "thanks");
     (u "TNX", u "thanks");
     (u "TU", u "thank you");
     (u "UR", u "your / you are");
     (u "VY", u "very");
     (u "WID", u "with");
     (u "WKD", u "worked");
     (u "WL", u "well / will");
     (u "WUD", u "would");
     (u "WX", u "weather");
     (u "XYL", u "wife");
     (u "YL", u "young lady — female operator")]);
  (u "Numbers & signs",
    [(u "73", u "best regards");
     (u "88", u "love and kisses");
     (u "5NN", u "599 — a perfect report")])
].

Definition SIGN_TOKENS : list pystr := [u "+"; u "="; u "("; u ")"; u "&"].

(** [LOOKUP]: a later entry for a token would win, as in a dict display. *)
Definition LOOKUP : gmap pystr pystr :=
  foldl (fun m kv => <[kv.1 := kv.2]> m) ∅ (mjoin (snd <$> ABBREVIATIONS)).

(** [_clean] *)
Definition clean (token : pystr) : pystr :=
  if bool_decide (token ∈ SIGN_TOKENS) then token
  else upper (strip_chars (u ".,?!;:/") token).

(** One pass of the loop of [gloss]: the tokens seen are those of [out]. *)
Definition gloss_word (out : list (pystr * pystr)) (raw : pystr) : list (pystr * pystr) :=
  let token := clean raw in
  match LOOKUP !! token with
  | Some meaning =>
      if nonempty token && negb (bool_decide (token ∈ out.*1)) then out ++ [(token, meaning)] else out
  | None => out
  end.

Definition gloss (text : pystr) : list (pystr * pystr) := foldl gloss_word [] (words text).

#[global] Opaque LOOKUP.

(** The distinct elements of a list, in order of first appearance. *)
Fixpoint firsts (seen l : list pystr) : list pystr :=
  match l with
  | [] => []
  | x :: l' => if bool_decide (x ∈ seen) then firsts seen l' else x :: firsts (seen ++ [x]) l'
  end.

Definition known (token : pystr) : bool := nonempty token && bool_decide (is_Some (LOOKUP !! token)).

Lemma gloss_word_tokens out raw :
  (gloss_word out raw).*1
  = out.*1 ++ (if known (clean raw) && negb (bool_decide (clean raw ∈ out.*1)) then [clean raw] else []).
Proof.
  unfold gloss_word, known. destruct (LOOKUP !! clean raw) as [m|] eqn:E; cbn.
  - destruct (nonempty (clean raw)); cbn; [|by rewrite app_nil_r].
    destruct (bool_decide _); cbn; [by rewrite app_nil_r|by rewrite fmap_app].
  - by rewrite andb_false_r, app_nil_r.
Qed.

Lemma gloss_words_tokens ws out :
  (foldl gloss_word out ws).*1 = out.*1 ++ firsts out.*1 (List.filter known (clean <$> ws)).
Proof.
  revert out. induction ws as [|w ws IH]; intros out; cbn [foldl fmap list_fmap List.filter firsts].
  { by rewrite app_nil_r. }
  rewrite IH, gloss_word_tokens. destruct (known (clean w)); cbn [andb firsts]; [|by rewrite app_nil_r].
  destruct (bool_decide_reflect (clean w ∈ out.*1)); cbn [negb].
  - by rewrite app_nil_r.
  - by rewrite <- app_assoc.
Qed.

Lemma gloss_word_meanings out raw :
  Forall (fun tm => LOOKUP !! tm.1 = Some tm.2) out ->
  Forall (fun tm => LOOKUP !! tm.1 = Some tm.2) (gloss_word out raw).
Proof.
  intros Ho. unfold gloss_word. destruct (LOOKUP !! clean raw) eqn:E; [|done].
  destruct (_ && _); [|done]. apply Forall_app. split; [done|]. by constructor.
Qed.

Lemma firsts_NoDup seen l : NoDup seen -> NoDup (seen ++ firsts seen l).
Proof.
  revert seen. induction l as [|x l IH]; intros seen Hs; cbn [firsts]; [by rewrite app_nil_r|].
  case_bool_decide as Hx; [by apply IH|].
  change (x :: firsts (seen ++ [x]) l) with ([x] ++ firsts (seen ++ [x]) l).
  rewrite app_assoc. apply IH, NoDup_app. split_and!; [done| |apply NoDup_singleton].
  by intros y Hy ->%list_elem_of_singleton.
Qed.

(** [gloss] explains exactly the known words of the copy, each once and in
    order of first appearance, with the meaning the table gives. *)
Theorem gloss_spec (text : pystr) :
  (gloss text).*1 = firsts [] (List.filter known (clean <$> words text))
  /\ NoDup (gloss text).*1
  /\ Forall (fun tm => LOOKUP !! tm.1 = Some tm.2) (gloss text).
Proof.
  unfold gloss. rewrite gloss_words_tokens. cbn [fmap list_fmap app]. split_and!.
  - done.
  - apply (firsts_NoDup []), NoDup_nil_2.
  - generalize (words text). intros ws. assert (Forall (fun tm => LOOKUP !! tm.1 = Some tm.2) []) as H by constructor.
    revert H. generalize (@nil (pystr * pystr)). induction ws; cbn; eauto using gloss_word_meanings.
Qed.

(** The prosigns of the code table, and what the decoder shows for each. *)
Definition prosigns : list pystr := List.filter (fun c => startswith c (u "<")) CHAR_TO_MORSE_items.*1.

Definition glosses_itself (t : pystr) : bool :=
  match gloss t with [(t', _)] => str_eqb t' t | _ => false end.

Lemma glosses_itself_spec t : glosses_itself t = true -> exists meaning, gloss t = [(t, meaning)].
Proof.
  unfold glosses_itself. destruct (gloss t) as [|[t' m] [|]]; try done.
  intros ->%bool_decide_eq_true. by exists m.
Qed.

(** every run-together prosign of the code is explained in the form the
    decoder shows it: keying any of them, reading the symbol back and glossing
    it gives exactly one entry; and every token of the table glosses itself,
    so no entry is unreachable through [_clean]. *)
Theorem copied_prosigns_glossed :
  (forall p code, p ∈ prosigns -> CHAR_TO_MORSE !! p = Some code ->
     exists meaning, gloss (decode_symbol code) = [(decode_symbol code, meaning)])
  /\ (forall token meaning, (token, meaning) ∈ mjoin (snd <$> ABBREVIATIONS) ->
        gloss token = [(token, meaning)]).
Proof.
  split.
  - intros p code Hp Hc.
    assert (forallb (fun p => from_option glosses_itself true (decode_symbol <$> CHAR_TO_MORSE !! p))
              prosigns = true) as HF by by_eval.
    rewrite forallb_forall in HF. specialize (HF p (proj1 (list_elem_of_In _ _) Hp)).
    rewrite Hc in HF. by apply glosses_itself_spec.
  - intros token meaning Hin.
    assert (Forall (fun tm => gloss tm.1 = [tm]) (mjoin (snd <$> ABBREVIATIONS))) as HF by by_compute.
    rewrite Forall_forall in HF. apply (HF _ Hin).
Qed.

Example copied_prosigns_glossed_witness :
  gloss (decode_symbol (default [] (CHAR_TO_MORSE !! u "<KN>")))
  = [(u "(", u "go ahead — named station only (KN)")]
  /\ exists m, gloss (decode_symbol (default [] (CHAR_TO_MORSE !! u "<KN>")))
               = [(decode_symbol (default [] (CHAR_TO_MORSE !! u "<KN>")), m)].
Proof.
  split; [by_compute|].
  apply (proj1 copied_prosigns_glossed (u "<KN>")); by_compute.
Defined.
