(* ===== verification/Fldigi.v ===== *)
(** * engine/fldigi.py: the tap on a running fldigi

    The fldigi process and the clock are the world [W] of the section: an
    XML-RPC call either answers or fails with a transport or protocol error. *)
From S2P Require Import Prelude PyFloat PyStr Events.
Open Scope Z_scope.

(** An XML-RPC answer. *)
Inductive Answer := AText (s : pystr) | ABinary (bs : list Z) | AFloat (x : float) | ANone.

(** [FldigiError], and [float()] on an answer that is not a number. *)
Inductive FldigiErr := FldigiError (method : pystr) | BadNumber.

Section Tap.
Context {W : Type}.
Variable fl_call : pystr -> W -> option Answer * W.
Variable fl_clock : W -> float * W.
(** [bytes.decode("utf-8", "replace")] and [str()] of a number. *)
Variable decode_replace : list Z -> pystr.
Variable str_of_float : float -> pystr.

Record FldigiTap := {
  tp_t0 : option float;
  tp_modem : pystr;
  tp_carrier_hz : float;
}.

#[global] Instance eta_tap : Eta FldigiTap := fun t =>
  Build_FldigiTap (tp_t0 t) (tp_modem t) (tp_carrier_hz t).

Definition new_tap : FldigiTap := {| tp_t0 := None; tp_modem := []; tp_carrier_hz := num_of_Z 0 |}.

(** [_call] *)
Definition call (method : pystr) (w : W) : result FldigiErr Answer * W :=
  let '(a, w) := fl_call method w in
  (match a with Some a => Ok a | None => Err (FldigiError method) end, w).

(** [float(answer)] *)
Definition float_of (a : Answer) : result FldigiErr float :=
  match a with
  | AFloat x => Ok x
  | AText s => match parse_float s with Some x => Ok x | None => Err BadNumber end
  | _ => Err BadNumber
  end.

(** [str(answer)] *)
Definition str_of (a : Answer) : pystr :=
  match a with
  | AText s => s
  | AFloat x => str_of_float x
  | ABinary bs => decode_replace bs
  | ANone => u "None"
  end.

Record Info := { in_version : pystr; in_modem : pystr; in_carrier_hz : float; in_dial_hz : float }.

(** A result and the world after it. *)
Definition bind_io {A B} (m : result FldigiErr A * W) (k : A -> W -> result FldigiErr B * W) :
    result FldigiErr B * W :=
  match m.1 with Ok a => k a m.2 | Err e => (Err e, m.2) end.

Definition call_float (method : pystr) (w : W) : result FldigiErr float * W :=
  bind_io (call method w) (fun a w => (float_of a, w)).

(** [connect] *)
Definition connect (t : FldigiTap) (w : W) : result FldigiErr (Info * FldigiTap) * W :=
  bind_io (call (u "fldigi.version") w) (fun version w =>
  bind_io (call (u "modem.get_name") w) (fun modem w =>
  bind_io (call_float (u "modem.get_carrier") w) (fun carrier w =>
  bind_io (call_float (u "main.get_frequency") w) (fun dial w =>
  let '(t0, w) := fl_clock w in
  (Ok ({| in_version := str_of version; in_modem := str_of modem; in_carrier_hz := carrier;
          in_dial_hz := dial |},
       {| tp_t0 := Some t0; tp_modem := str_of modem; tp_carrier_hz := carrier |}), w))))).

(** [reset] *)
Definition reset (t : FldigiTap) (w : W) : FldigiTap * W :=
  let '(t0, w) := fl_clock w in (t <| tp_t0 := Some t0 |>, w).

(** The text of an [rx.get_data] answer. *)
Definition data_text (a : Answer) : pystr :=
  match a with
  | ABinary bs => decode_replace bs
  | AText s => s
  | AFloat x => if num_eqb x (num_of_Z 0) then [] else str_of_float x
  | ANone => []
  end.

(** Line breaks become word gaps. *)
Definition flatten (text : pystr) : pystr :=
  replace [10] (u " ") (replace [13] (u " ") (replace [13; 10] (u " ") text)).

Definition tap_event (now quality confidence : float) (c : Z) : CharEvent float :=
  {| ce_char := if c =? 32 then u " " else upper [c]; ce_morse := [];
     ce_t_start := num_round 4 now; ce_t_end := num_round 4 now; ce_wpm := num_of_Z 0;
     ce_snr_db := num_round 1 quality; ce_confidence := confidence |}.

Definition confidence_of (quality : float) : float :=
  num_max (num_of_Z 0) (num_min (num_div quality (num_of_Z 100)) (num_of_Z 1)).

(** [try: float(self._call(...)) except FldigiError: default]; a bad number
    is not caught. *)
Definition or_default (m : result FldigiErr float * W) (dflt : float) : result FldigiErr float * W :=
  match m.1 with Err (FldigiError _) => (Ok dflt, m.2) | _ => m end.

(** [poll]. An error leaves what [connect] has stored in place. *)
Definition poll (t : FldigiTap) (w : W) : (FldigiTap * result FldigiErr (list (CharEvent float))) * W :=
  let '(r, w) :=
    match tp_t0 t with
    | None => bind_io (connect t w) (fun it w => (Ok it.2, w))
    | Some _ => (Ok t, w)
    end in
  match r with
  | Err e => ((t, Err e), w)
  | Ok t =>
      let '(raw, w) := call (u "rx.get_data") w in
      match raw with
      | Err e => ((t, Err e), w)
      | Ok raw =>
          let text := data_text raw in
          if negb (nonempty text) then ((t, Ok []), w)
          else
            let text := flatten text in
            let '(q, w) := or_default (call_float (u "modem.get_quality") w) (num_of_Z 100) in
            match q with
            | Err e => ((t, Err e), w)
            | Ok quality =>
                let '(c, w) := or_default (call_float (u "modem.get_carrier") w) (tp_carrier_hz t) in
                match c with
                | Err e => ((t, Err e), w)
                | Ok carrier =>
                    let t := t <| tp_carrier_hz := carrier |> in
                    let '(clk, w) := fl_clock w in
                    let now := num_sub clk (default (num_of_Z 0) (tp_t0 t)) in
                    ((t, Ok (tap_event now quality (confidence_of quality) <$> text)), w)
                end
            end
      end
  end.

(** [status] *)
Definition status (w : W) : result FldigiErr (pystr * float * float) * W :=
  bind_io (call (u "modem.get_name") w) (fun modem w =>
  bind_io (call_float (u "modem.get_carrier") w) (fun carrier w =>
  bind_io (call_float (u "main.get_frequency") w) (fun dial w =>
  (Ok (str_of modem, carrier, dial), w)))).

(** [result.chars.append(ev); result.text += ev.char] *)
Definition hear (r : DecodeResult float) (e : CharEvent float) : DecodeResult float :=
  r <| r_chars := r_chars r ++ [e] |> <| r_text := r_text r ++ ce_char e |>.

(** One pass of [tap_loop] before its sleep: the result with what was heard. *)
Definition absorb (t : FldigiTap) (evs : list (CharEvent float)) (r : DecodeResult float) :
    DecodeResult float :=
  let r := foldl hear r evs in
  r <| r_tone_hz := tp_carrier_hz t |>
    <| r_engine := u "fldigi:" ++ (if nonempty (tp_modem t) then tp_modem t else u "?") |>.

(** [tap_loop] with at most [fuel] polls. [fl_sleep] advances the world;
    [None] when the fuel runs out first. The events are those [on_char]
    gets. *)
Variable fl_sleep : W -> W.

Fixpoint tap_loop (fuel : nat) (duration : option float) (started : float) (t : FldigiTap)
    (r : DecodeResult float) (w : W) :
    option (result FldigiErr (DecodeResult float) * list (CharEvent float)) :=
  match fuel with
  | O => None
  | S f =>
      let '((t, evs), w) := poll t w in
      match evs with
      | Err e => Some (Err e, [])
      | Ok evs =>
          let r := absorb t evs r in
          let '(over, w) :=
            match duration with
            | Some limit => let '(now, w) := fl_clock w in (num_leb limit (num_sub now started), w)
            | None => (false, w)
            end in
          if over then Some (Ok (r <| r_text := strip (r_text r) |>), evs)
          else
            match tap_loop f duration started t r (fl_sleep w) with
            | Some (res, evs') => Some (res, evs ++ evs')
            | None => None
            end
      end
  end.
End Tap.

(** ** What a poll delivers *)

Lemma replace_char c d s : replace [c] [d] s = (fun x => if x =? c then d else x) <$> s.
Proof.
  unfold replace. induction s as [|x s IH]; [done|]. cbn -[Z.eqb].
  rewrite (Z.eqb_sym c x), andb_true_r. destruct (x =? c); cbn; by rewrite IH.
Qed.

Lemma flatten_no_break text : Forall (fun c => c <> 10 /\ c <> 13) (flatten text).
Proof.
  unfold flatten. change (u " ") with [32]. rewrite !replace_char.
  apply Forall_fmap, Forall_fmap, Forall_true. intros c. cbn.
  destruct (Z.eqb_spec c 13); cbn; [lia|]. destruct (Z.eqb_spec c 10); lia.
Qed.

Lemma upper_no_break c : c <> 10 /\ c <> 13 -> 10 ∉ upper [c] /\ 13 ∉ upper [c].
Proof.
  intros Hc. unfold upper. cbn -[upper_char]. rewrite app_nil_r.
  unfold upper_char, is_ascii_lower.
  repeat case_match; rewrite ?not_elem_of_cons; split; split_and?; try apply not_elem_of_nil; lia.
Qed.

(** One event of a poll. *)
Definition tap_event_ok (e : CharEvent float) : Prop :=
  10 ∉ ce_char e /\ 13 ∉ ce_char e /\ ce_morse e = [] /\ ce_t_start e = ce_t_end e
  /\ num_leb (num_of_Z 0) (ce_confidence e) = true /\ num_leb (ce_confidence e) (num_of_Z 1) = true.

Section Facts.
Context {W : Type}.
Variable fl_call : pystr -> W -> option Answer * W.
Variable fl_clock : W -> float * W.
Variable decode_replace : list Z -> pystr.
Variable str_of_float : float -> pystr.
Variable fl_sleep : W -> W.
Local Notation poll := (poll fl_call fl_clock decode_replace str_of_float).
Local Notation tap_loop := (tap_loop fl_call fl_clock decode_replace str_of_float fl_sleep).

Lemma tap_event_fine now quality c :
  c <> 10 /\ c <> 13 -> tap_event_ok (tap_event now quality (confidence_of quality) c).
Proof.
  intros Hc. pose proof (max_min_range (num_of_Z 0) (num_of_Z 1)
    (num_div quality (num_of_Z 100)) eq_refl) as [H1 H2].
  destruct (upper_no_break c Hc). unfold tap_event_ok, tap_event, confidence_of. cbn -[upper num_max num_min num_of_Z num_div].
  destruct (c =? 32); split_and!; try done; by_compute.
Qed.

(** whatever fldigi answers, the characters a poll delivers fit the event
    contract: no line break survives, no element string is claimed, the two
    times agree, and the confidence is in [0, 1] even when the quality metric
    is out of range or not a number. *)
Theorem poll_contract (t : FldigiTap) (w : W) :
  match poll t w with
  | ((_, Ok evs), _) => Forall tap_event_ok evs
  | ((_, Err _), _) => True
  end.
Proof.
  unfold Fldigi.poll. set (init := match tp_t0 t with None => _ | Some _ => _ end).
  destruct init as [[t1|e] w1]; [|done].
  destruct (call fl_call (u "rx.get_data") w1) as [[raw|e] w2]; [|done].
  set (text := data_text _ _ raw). destruct (nonempty text); cbn [negb]; [|constructor].
  destruct (or_default _ (num_of_Z 100)) as [[quality|e] w3]; [|done].
  destruct (or_default _ (tp_carrier_hz t1)) as [[carrier|e] w4]; [|done].
  destruct (fl_clock w4) as [clk w5]. apply Forall_fmap.
  eapply Forall_impl; [apply flatten_no_break|]. intros c Hc. by apply tap_event_fine.
Qed.

Lemma absorb_copy t evs r :
  r_chars (absorb t evs r) = r_chars r ++ evs
  /\ r_text (absorb t evs r) = r_text r ++ mjoin (ce_char <$> evs).
Proof.
  change (r_chars (absorb t evs r)) with (r_chars (foldl hear r evs)).
  change (r_text (absorb t evs r)) with (r_text (foldl hear r evs)).
  revert r. induction evs as [|e evs IH]; intros r; cbn [foldl]; [by rewrite !app_nil_r|].
  destruct (IH (hear r e)) as [-> ->]. cbn. by rewrite <- !app_assoc.
Qed.

Lemma tap_loop_copy fuel duration started t r w r' evs :
  tap_loop fuel duration started t r w = Some (Ok r', evs) ->
  r_chars r' = r_chars r ++ evs /\ r_text r' = strip (r_text r ++ mjoin (ce_char <$> evs)).
Proof.
  revert t r w evs. induction fuel as [|f IH]; intros t r w evs; cbn [Fldigi.tap_loop]; [done|].
  destruct (poll t w) as [[t1 [evs1|e]] w1]; [|done].
  destruct (absorb_copy t1 evs1 r) as [Hc Ht]. revert Hc Ht. cbv zeta. generalize (absorb t1 evs1 r). intros ra Hc Ht.
  destruct (match duration with Some _ => _ | None => _ end) as [over w2].
  destruct over.
  - intros [= <- <-]. cbn. by rewrite Hc, Ht.
  - destruct (tap_loop f _ _ _ _ _) as [[res evs']|] eqn:E; [|done]. intros [= -> <-].
    apply IH in E as [-> ->]. rewrite Hc, Ht, fmap_app, join_app, <- !app_assoc. done.
Qed.

(** C35: a timed tap session ends, and then its result holds exactly the
    characters [on_char] got, after what it held, with the text they spell,
    stripped. It ends as soon as enough polls are allowed for a clock that,
    between polls, either passes the limit or comes closer to it. *)
Theorem tap_session (limit started : float) (todo : W -> nat) (t : FldigiTap)
    (r : DecodeResult float) (w : W) :
  (forall t w, let w1 := (poll t w).2 in
     num_leb limit (num_sub (fl_clock w1).1 started) = true
     \/ (todo (fl_sleep (fl_clock w1).2) < todo w)%nat) ->
  exists res evs,
    (forall fuel, (todo w < fuel)%nat ->
      tap_loop fuel (Some limit) started t r w = Some (res, evs))
    /\ forall r', res = Ok r' ->
         r_chars r' = r_chars r ++ evs /\ r_text r' = strip (r_text r ++ mjoin (ce_char <$> evs)).
Proof.
  intros Hclock.
  assert (exists x, forall fuel, (todo w < fuel)%nat ->
            tap_loop fuel (Some limit) started t r w = Some x) as [[res evs] Hx].
  { remember (todo w) as n eqn:En. assert (todo w <= n)%nat as Hn by lia. clear En.
    revert t r w Hn. induction n as [n IH] using lt_wf_ind. intros t r w Hn.
    pose proof (Hclock t w) as Hc. cbv zeta in Hc.
    destruct (poll t w) as [[t1 evs1] w1] eqn:Ep. cbn [snd] in Hc.
    destruct evs1 as [evs1|e].
    2: { exists (Err e, []). intros [|fuel] Hf; [lia|]. cbn [Fldigi.tap_loop]. by rewrite Ep. }
    destruct (fl_clock w1) as [now w2] eqn:Ek. cbn [fst snd] in Hc.
    destruct (num_leb limit (num_sub now started)) eqn:El.
    - eexists. intros [|fuel] Hf; [lia|]. cbn [Fldigi.tap_loop]. rewrite Ep, Ek, El. reflexivity.
    - destruct Hc as [?|Hc]; [done|].
      destruct (IH (todo (fl_sleep w2)) ltac:(lia) t1 (absorb t1 evs1 r) (fl_sleep w2) ltac:(lia))
        as [[res evs] Hx].
      exists (res, evs1 ++ evs). intros [|fuel] Hf; [lia|]. cbn [Fldigi.tap_loop].
      rewrite Ep, Ek, El, Hx; [done|lia]. }
  exists res, evs. split; [done|]. intros r' ->.
  apply (tap_loop_copy (S (todo w)) (Some limit) started t r w). apply Hx. lia.
Qed.
End Facts.

(** A fldigi that answers every call; the world counts the sleeps, and the
    clock passes the limit at the third. *)
Module TapDemo.
Definition answers (m : pystr) (w : Z) : option Answer * Z :=
  (Some (if str_eqb m (u "rx.get_data") then AText (u "cq de" ++ [13; 10] ++ u "k1abc ")
         else if str_eqb m (u "modem.get_name") then AText (u "BPSK31") else AFloat (num_of_Z 1500)), w).
Definition clock (w : Z) : float * Z := ((if w <? 3 then num_of_Z 0 else num_of_Z 10), w).
Definition nothing {A} (_ : A) : pystr := [].
Definition tap_poll := poll answers clock nothing nothing.
Definition loop := tap_loop answers clock nothing nothing Z.succ.

Lemma poll_world t w : (tap_poll t w).2 = w.
Proof. unfold tap_poll, poll. destruct (tp_t0 t); reflexivity. Qed.
End TapDemo.

Example poll_example :
  let '((t, r), w) := TapDemo.tap_poll new_tap 0 in
  match r with
  | Ok evs => mjoin (ce_char <$> evs) = u "CQ DE K1ABC " /\ tp_modem t = u "BPSK31"
  | Err _ => False
  end.
Proof. vm_compute. by split. Qed.

Example tap_session_witness :
  exists r', (exists evs, TapDemo.loop 5 (Some (num_of_Z 1)) (num_of_Z 0) new_tap
                            (new_result (num_of_Z 0) 8000 (num_of_Z 0)) 0 = Some (Ok r', evs))
  /\ r_text r' = strip (mjoin (repeat (u "CQ DE K1ABC ") 4)).
Proof.
  destruct (tap_session TapDemo.answers TapDemo.clock TapDemo.nothing TapDemo.nothing Z.succ
    (num_of_Z 1) (num_of_Z 0) (fun w => Z.to_nat (3 - w)) new_tap
    (new_result (num_of_Z 0) 8000 (num_of_Z 0)) 0) as (res & evs & Hx & Hr).
  - intros t w. cbv zeta. fold TapDemo.tap_poll. rewrite TapDemo.poll_world.
    unfold TapDemo.clock. cbn [fst snd]. destruct (Z.ltb_spec w 3); [right; lia|left; reflexivity].
  - specialize (Hx 5%nat ltac:(cbn; lia)). destruct res as [r'|e].
    + exists r'. split; [by exists evs|]. destruct (Hr r' eq_refl) as [_ ->].
      fold TapDemo.loop in Hx. vm_compute in Hx. injection Hx as _ <-. by vm_compute.
    + exfalso. revert Hx. vm_compute. discriminate.
Defined.
