(* ===== verification/Credentials.v ===== *)
(** * fieldcrypto.py, the credential mixin of models.py, and qrz.py

    Secrets at rest and the callbook lookup that uses them. Fernet and the QRZ
    server are parameters. *)
From S2P Require Import Prelude PyFloat PyStr.
Open Scope Z_scope.

(** ** fieldcrypto.py *)

Definition PREFIX : pystr := u "enc:".

(** The process's cached key and the key file next to the project. *)
Record KeyStore (K : Type) := { ks_cache : option K; ks_file : option K }.
Arguments Build_KeyStore {K} _ _.
Arguments ks_cache {K} _.
Arguments ks_file {K} _.

Section FieldCrypto.
(** [fernet_encrypt k n s]: the token of the UTF-8 text [s] under key [k] with
    the random part [n]; [fernet_decrypt] is [None] on [InvalidToken];
    [fresh_key] is what [Fernet.generate_key] would return. *)
Context {K N : Type}.
Variable fernet_encrypt : K -> N -> pystr -> pystr.
Variable fernet_decrypt : K -> pystr -> option pystr.
Variable fresh_key : K.

(** [_get_fernet]: the cached key, else the file's, else a new file. *)
Definition get_fernet (s : KeyStore K) : K * KeyStore K :=
  match ks_cache s with
  | Some k => (k, s)
  | None =>
      match ks_file s with
      | Some k => (k, Build_KeyStore (Some k) (Some k))
      | None => (fresh_key, Build_KeyStore (Some fresh_key) (Some fresh_key))
      end
  end.

Definition reset_cache (s : KeyStore K) : KeyStore K := Build_KeyStore None (ks_file s).

Definition encrypt (n : N) (value : pystr) (s : KeyStore K) : pystr * KeyStore K :=
  if nonempty value then
    let '(k, s) := get_fernet s in (PREFIX ++ fernet_encrypt k n value, s)
  else ([], s).

Definition decrypt (stored : pystr) (s : KeyStore K) : pystr * KeyStore K :=
  if nonempty stored then
    if startswith stored PREFIX then
      let '(k, s) := get_fernet s in
      (default [] (fernet_decrypt k (slice_from (zlen PREFIX) stored)), s)
    else (stored, s)
  else ([], s).

(** [_CredentialMixin.get_password]: the password, the stored field (upgraded
    when it was plain text) and whether the row was saved. *)
Definition get_password (n : N) (password : pystr) (s : KeyStore K) :
    pystr * pystr * bool * KeyStore K :=
  let '(raw, s) := decrypt password s in
  if nonempty raw && negb (startswith password (u "enc:")) then
    let '(p, s) := encrypt n raw s in (raw, p, true, s)
  else (raw, password, false, s).

(** A process that still has the key it wrote, or has just restarted. *)
Definition coherent (s : KeyStore K) : Prop := ks_cache s = None \/ ks_cache s = ks_file s.

Hypothesis fernet_roundtrip : forall k n s, fernet_decrypt k (fernet_encrypt k n s) = Some s.

Lemma get_fernet_file s :
  coherent s -> ks_file (get_fernet s).2 = Some (get_fernet s).1 /\ coherent (get_fernet s).2.
Proof.
  intros [Hc|Hc]; unfold get_fernet; rewrite ?Hc.
  - destruct (ks_file s); split; try done; by right.
  - destruct (ks_file s) eqn:E; cbn; rewrite ?E; split; try done; right; by rewrite ?E.
Qed.

Lemma get_fernet_later s s' :
  coherent s' -> ks_file s' = ks_file (get_fernet s).2 -> coherent s ->
  (get_fernet s').1 = (get_fernet s).1.
Proof.
  intros Hs' Hf Hs. destruct (get_fernet_file s Hs) as [Hk _]. rewrite Hk in Hf.
  unfold get_fernet at 1. rewrite Hf. destruct Hs' as [-> | ->]; [done|]. by rewrite Hf.
Qed.

Lemma get_fernet_stable s : get_fernet (get_fernet s).2 = get_fernet s.
Proof.
  unfold get_fernet at 2 3. destruct (ks_cache s) eqn:Ec; [unfold get_fernet; cbn; by rewrite Ec|].
  by destruct (ks_file s).
Qed.

Lemma decrypt_stable stored s : decrypt stored (decrypt stored s).2 = decrypt stored s.
Proof.
  unfold decrypt. destruct (nonempty stored); [|done].
  destruct (startswith stored PREFIX); [|done].
  pose proof (get_fernet_stable s) as E. destruct (get_fernet s) as [k s1]. cbn in *. by rewrite E.
Qed.

Lemma decrypt_encrypt n v s s' :
  coherent s -> coherent s' -> ks_file s' = ks_file (encrypt n v s).2 ->
  (decrypt (encrypt n v s).1 s').1 = v.
Proof.
  intros Hs Hs' Hf. unfold encrypt in *. destruct v as [|c v]; [done|]. cbn [nonempty] in *.
  assert (ks_file s' = ks_file (get_fernet s).2) as Hf' by (by destruct (get_fernet s)).
  pose proof (get_fernet_later s s' Hs' Hf' Hs) as Hk.
  destruct (get_fernet s) as [k s1]. cbn [fst snd] in *. unfold decrypt.
  change (nonempty (PREFIX ++ _)) with true. rewrite startswith_app, slice_from_app.
  destruct (get_fernet s') as [k2 s2']. cbn in Hk. subst k2. cbn [fst]. by rewrite fernet_roundtrip.
Qed.

Lemma encrypt_marked n v s : v <> [] -> startswith (encrypt n v s).1 PREFIX = true.
Proof.
  intros Hv. unfold encrypt. destruct v; [done|]. cbn [nonempty].
  destruct (get_fernet s). apply startswith_app.
Qed.

(** a secret survives: whatever text was encrypted, decrypting the stored
    value gives it back, in this process or after a restart that forgot the
    cached key; and a non-empty secret is stored behind the marker. *)
Theorem secret_survives_restart (n : N) (value : pystr) (s s' : KeyStore K) :
  coherent s -> coherent s' -> ks_file s' = ks_file (encrypt n value s).2 ->
  let stored := (encrypt n value s).1 in
  (decrypt stored s').1 = value
  /\ (decrypt stored (reset_cache s')).1 = value
  /\ (value <> [] -> startswith stored PREFIX = true).
Proof.
  intros Hs Hs' Hf. cbn zeta. split_and!; [by apply decrypt_encrypt| |apply encrypt_marked].
  apply decrypt_encrypt; [done|by left|done].
Qed.

(** reading a password never changes what later reads return: a legacy
    plain-text row gives its text and is saved encrypted, an encrypted row is
    left alone, and the next read gives the same password and saves nothing. *)
Theorem password_upgrade (n n' : N) (password : pystr) (s : KeyStore K) :
  coherent s ->
  let '(raw, password', saved, s1) := get_password n password s in
  let '(raw', password'', saved', _) := get_password n' password' s1 in
  raw' = raw /\ password'' = password' /\ saved' = false
  /\ saved = negb (startswith password PREFIX) && nonempty password
  /\ (saved = true -> raw = password /\ startswith password' PREFIX = true).
Proof.
  intros Hs. unfold get_password. change (u "enc:") with PREFIX.
  destruct (startswith password PREFIX) eqn:Ep.
  - pose proof (decrypt_stable password s) as Hd.
    destruct (decrypt password s) as [raw s1]. cbn in Hd. rewrite andb_false_r, Hd, Ep, andb_false_r.
    by split_and!.
  - assert (decrypt password s = (password, s)) as ->.
    { unfold decrypt. destruct password; [done|]. cbn [nonempty]. by rewrite Ep. }
    destruct (nonempty password) eqn:En; cbn [andb negb].
    + apply nonempty_true in En. pose proof (encrypt_marked n password s En) as Hm.
      pose proof (fun s' => decrypt_encrypt n password s s' Hs) as Hd.
      assert (coherent (encrypt n password s).2) as Hc.
      { unfold encrypt. destruct password; [done|]. cbn [nonempty].
        destruct (get_fernet_file s Hs) as [_ Hc]. by destruct (get_fernet s). }
      destruct (encrypt n password s) as [p s1]. cbn [fst snd] in *.
      specialize (Hd s1 Hc eq_refl). destruct (decrypt p s1) as [raw' s2]. cbn in Hd. subst raw'.
      rewrite Hm, andb_false_r. by split_and!.
    + destruct password; [|done]. cbn. by split_and!.
Qed.
End FieldCrypto.

(** A cipher for the examples: the key is a shift, the random part a first
    character. *)
Module CryptoDemo.
Definition enc (k n : Z) (s : pystr) : pystr := n :: (Z.add k <$> s).
Definition dec (k : Z) (t : pystr) : option pystr :=
  match t with [] => None | _ :: t => Some ((fun c => c - k) <$> t) end.
Lemma roundtrip k n s : dec k (enc k n s) = Some s.
Proof.
  cbn. f_equal. rewrite <- list_fmap_compose. rewrite <- (list_fmap_id s) at 2.
  apply list_fmap_ext. intros i x _. cbn. lia.
Qed.
End CryptoDemo.

Example secret_survives_restart_witness :
  let s := Build_KeyStore None None in
  let stored := (encrypt CryptoDemo.enc 7 1 (u "s3cret") s).1 in
  (decrypt CryptoDemo.dec 8 stored (Build_KeyStore None (Some 7))).1 = u "s3cret".
Proof.
  cbv zeta.
  apply (secret_survives_restart CryptoDemo.enc CryptoDemo.dec 7 CryptoDemo.roundtrip 1 (u "s3cret")
    (Build_KeyStore None None) (Build_KeyStore None (Some 7))); [by left|by left|reflexivity].
Defined.

Example password_upgrade_witness :
  let '(raw, p, saved, s1) := get_password CryptoDemo.enc CryptoDemo.dec 7 1 (u "plain") (Build_KeyStore None None) in
  raw = u "plain" /\ saved = true /\ p <> u "plain"
  /\ (get_password CryptoDemo.enc CryptoDemo.dec 7 2 p s1).1.1.1 = raw.
Proof.
  pose proof (password_upgrade CryptoDemo.enc CryptoDemo.dec 7 CryptoDemo.roundtrip 1 2 (u "plain")
    (Build_KeyStore None None) (or_introl eq_refl)) as W.
  destruct (get_password _ _ _ 1 _ _) as [[[raw p] saved] s1] eqn:E.
  vm_compute in E. injection E as <- <- <- <-.
  split_and!; [done|done|done|].
  destruct (get_password _ _ _ 2 _ _) as [[[raw' p'] saved'] s2]. by destruct W as [-> _].
Defined.

(** ** qrz.py

    [qrz_fetch params] is the answer of the server at [_base_url()]: the texts
    of the nodes of the namespace-free XML document by path, or the [QRZError]
    that an unreachable server or malformed XML is turned into. *)
Section QRZ.
Context {W : Type}.
Notation xml := (pystr -> option pystr).
Variable qrz_fetch : list (pystr * pystr) -> W -> result pystr xml * W.

Record QRZInfo := {
  qi_call : pystr;
  qi_name : pystr;
  qi_qth : pystr;
  qi_grid : pystr;
  qi_country : pystr;
}.

(** [_text] *)
Definition text (root : xml) (path : pystr) : pystr := strip (default [] (root path)).

(** [authenticate] *)
Definition authenticate (username password : pystr) (w : W) : result pystr pystr * W :=
  let '(r, w) := qrz_fetch [(u "username", username); (u "password", password);
                            (u "agent", u "cwstation")] w in
  (root ← r;
   let key := text root (u "Session/Key") in
   if nonempty key then Ok key
   else
     let e := text root (u "Session/Error") in
     Err (if nonempty e then e else u "QRZ login failed"), w).

(** [lookup]; [Ok None] is a call QRZ does not know. *)
Definition lookup (session_key call : pystr) (w : W) : result pystr (option QRZInfo) * W :=
  let '(r, w) := qrz_fetch [(u "s", session_key); (u "callsign", call)] w in
  (root ← r;
   let error := text root (u "Session/Error") in
   if nonempty error then
     if contains (u "Session Timeout") error || contains (u "Invalid session key") error
     then Err (u "session expired") else Ok None
   else
     match root (u "Callsign") with
     | None => Ok None
     | Some _ =>
         let first := text root (u "Callsign/fname") in
         let last := text root (u "Callsign/name") in
         let c := text root (u "Callsign/call") in
         Ok (Some {|
           qi_call := if nonempty c then c else upper call;
           qi_name := strip (first ++ u " " ++ last);
           qi_qth := join (u ", ") (List.filter nonempty
                       [text root (u "Callsign/addr2"); text root (u "Callsign/state")]);
           qi_grid := text root (u "Callsign/grid");
           qi_country := text root (u "Callsign/country") |})
     end, w).

(** The operator's row; [qp_password] is what [get_password] returns. *)
Record QRZProfile := { qp_username : pystr; qp_password : pystr; qp_session_key : pystr }.

#[global] Instance eta_qrz_profile : Eta QRZProfile := fun p =>
  Build_QRZProfile (qp_username p) (qp_password p) (qp_session_key p).

(** A fresh login: the key is stored in the row. *)
Definition login (p : QRZProfile) (w : W) : result pystr QRZProfile * W :=
  let '(r, w) := authenticate (qp_username p) (qp_password p) w in
  ((fun key => p <| qp_session_key := key |>) <$> r, w).

(** The inner [try]: a stale session gets one fresh login and one retry. *)
Definition lookup_retrying (p : QRZProfile) (call : pystr) (w : W) :
    option QRZInfo * QRZProfile * W :=
  let '(r, w) := lookup (qp_session_key p) call w in
  match r with
  | Ok info => (info, p, w)
  | Err _ =>
      let '(r, w) := login p w in
      match r with
      | Err _ => (None, p, w)
      | Ok p =>
          let '(r, w) := lookup (qp_session_key p) call w in
          (match r with Ok info => info | Err _ => None end, p, w)
      end
  end.

(** [lookup_for_user]: the enrichment, the row afterwards, the world. *)
Definition lookup_for_user (profile : option QRZProfile) (call : pystr) (w : W) :
    option QRZInfo * option QRZProfile * W :=
  match profile with
  | None => (None, None, w)
  | Some p =>
      if negb (nonempty (qp_username p)) || negb (nonempty (qp_password p)) then (None, Some p, w)
      else
        let '(r, w) := if nonempty (qp_session_key p) then (Ok p, w) else login p w in
        match r with
        | Err _ => (None, Some p, w)
        | Ok p => let '(info, p, w) := lookup_retrying p call w in (info, Some p, w)
        end
  end.
End QRZ.

(** A server whose requests are written down. *)
Definition logged {W} (fetch : list (pystr * pystr) -> W -> result pystr (pystr -> option pystr) * W)
    (params : list (pystr * pystr)) (lw : list (list (pystr * pystr)) * W) :
    result pystr (pystr -> option pystr) * (list (list (pystr * pystr)) * W) :=
  let '(r, w) := fetch params lw.2 in (r, (lw.1 ++ [params], w)).

(** A request that carries the password. *)
Definition is_login (params : list (pystr * pystr)) : bool :=
  existsb (fun kv => str_eqb kv.1 (u "password")) params.

Lemma logged_split {W} fetch params (lw : list (list (pystr * pystr)) * W) :
  exists r w, logged fetch params lw = (r, (lw.1 ++ [params], w)).
Proof. unfold logged. destruct (fetch params lw.2) as [r w]. eauto. Qed.

Definition login_request (p : QRZProfile) : list (pystr * pystr) :=
  [(u "username", qp_username p); (u "password", qp_password p); (u "agent", u "cwstation")].

Definition lookup_request (key call : pystr) : list (pystr * pystr) :=
  [(u "s", key); (u "callsign", call)].

Lemma is_login_login p : is_login (login_request p) = true.
Proof. reflexivity. Qed.

Lemma is_login_lookup key call : is_login (lookup_request key call) = false.
Proof. reflexivity. Qed.

Ltac count_requests :=
  cbn [app length List.filter]; rewrite ?is_login_login, ?is_login_lookup; cbn [length]; lia.

Lemma logged_login {W} fetch p (lw : list (list (pystr * pystr)) * W) :
  exists r w, login (logged fetch) p lw = (r, (lw.1 ++ [login_request p], w))
    /\ forall p', r = Ok p' -> exists key, key <> [] /\ p' = p <| qp_session_key := key |>.
Proof.
  unfold login, authenticate. fold (login_request p).
  destruct (logged_split fetch (login_request p) lw) as (r & w & ->).
  eexists _, w. split; [reflexivity|]. intros p'. destruct r as [root|e]; [|done].
  cbv [mbind result_bind fmap result_fmap].
  match goal with |- context [nonempty ?k] => generalize k end. intros key.
  destruct key as [|c key]; cbn [nonempty]; [done|]. intros [= <-]. by exists (c :: key).
Qed.

Lemma logged_lookup {W} fetch key call (lw : list (list (pystr * pystr)) * W) :
  exists r w, lookup (logged fetch) key call lw
              = (r, (lw.1 ++ [lookup_request key call], w)).
Proof.
  unfold lookup. fold (lookup_request key call). destruct (logged_split fetch (lookup_request key call) lw) as (r & w & ->).
  eauto.
Qed.

(** Only the session key of the row differs, and the new one is not empty. *)
Definition rekeyed (p q : QRZProfile) : Prop :=
  q = p \/ exists key, key <> [] /\ q = p <| qp_session_key := key |>.

Lemma rekeyed_trans p q r : rekeyed p q -> rekeyed q r -> rekeyed p r.
Proof.
  unfold rekeyed. intros [-> | (k1 & H1 & ->)] [-> | (k2 & H2 & ->)]; eauto.
Qed.

Lemma logged_retrying {W} fetch p call (lw : list (list (pystr * pystr)) * W) :
  exists info q log' w',
    lookup_retrying (logged fetch) p call lw = (info, q, (lw.1 ++ log', w'))
    /\ log' <> [] /\ (length log' <= 3)%nat /\ (length (List.filter is_login log') <= 1)%nat
    /\ rekeyed p q.
Proof.
  unfold lookup_retrying, rekeyed.
  destruct (logged_lookup fetch (qp_session_key p) call lw) as (r1 & w1 & ->).
  destruct r1 as [info|e1].
  { eexists _, _, _, _. split; [reflexivity|]. split_and!; [done|count_requests|count_requests|by left]. }
  set (l1 := [lookup_request (qp_session_key p) call]).
  destruct (logged_login fetch p (lw.1 ++ l1, w1)) as (r2 & w2 & -> & Hr2). cbn [fst].
  destruct r2 as [q|e2].
  - destruct (Hr2 q eq_refl) as (key & Hkey & ->).
    destruct (logged_lookup fetch (qp_session_key (p <| qp_session_key := key |>)) call
      ((lw.1 ++ l1) ++ [login_request p], w2)) as (r3 & w3 & ->). cbn [fst].
    rewrite <- !app_assoc. eexists _, _, _, _. split; [reflexivity|]. subst l1.
    split_and!; [done|count_requests|count_requests|eauto].
  - rewrite <- !app_assoc. eexists _, _, _, _. split; [reflexivity|]. subst l1.
    split_and!; [done|count_requests|count_requests|by left].
Qed.

(** enrichment never costs more than two logins and two lookups whatever
    the server answers, asks nothing without a user name and a password, and
    only ever replaces the stored session key by a non-empty one; without a
    request there is no enrichment. *)
Theorem lookup_for_user_bounded {W}
    (fetch : list (pystr * pystr) -> W -> result pystr (pystr -> option pystr) * W)
    (p : QRZProfile) (call : pystr) (w : W) :
  exists info q log w',
    lookup_for_user (logged fetch) (Some p) call ([], w) = (info, Some q, (log, w'))
    /\ (length log <= 4)%nat /\ (length (List.filter is_login log) <= 2)%nat
    /\ (log = [] <-> qp_username p = [] \/ qp_password p = [])
    /\ (log = [] -> info = None)
    /\ rekeyed p q.
Proof.
  unfold lookup_for_user.
  destruct (qp_username p) as [|c1 us] eqn:Eu; cbn [nonempty negb orb].
  { eexists _, _, _, _. split; [reflexivity|]. split_and!; try done; try count_requests; [tauto|by left]. }
  destruct (qp_password p) as [|c2 pw] eqn:Ep; cbn [nonempty negb orb].
  { eexists _, _, _, _. split; [reflexivity|]. split_and!; try done; try count_requests; [tauto|by left]. }
  destruct (nonempty (qp_session_key p)).
  - destruct (logged_retrying fetch p call ([], w)) as (info & q & log & w' & -> & Hne & Hl & Hf & Hq).
    eexists _, _, _, _. split; [reflexivity|]. cbn [fst app].
    split_and!; [lia|lia|by split; [|intros [|]]|done|done].
  - destruct (logged_login fetch p ([], w)) as (r & w1 & -> & Hr). cbn [fst app].
    destruct r as [p1|e].
    + destruct (Hr p1 eq_refl) as (key & Hkey & ->).
      destruct (logged_retrying fetch (p <| qp_session_key := key |>) call ([login_request p], w1))
        as (info & q & log & w' & -> & Hne & Hl & Hf & Hq). cbn [fst app].
      eexists _, _, _, _. split; [reflexivity|].
      split_and!; [count_requests|count_requests|by split; [|intros [|]]|done|].
      eapply rekeyed_trans; [|exact Hq]. right. eauto.
    + eexists _, _, _, _. split; [reflexivity|].
      split_and!; [count_requests|count_requests|by split; [|intros [|]]|done|by left].
Qed.
