(* ===== verification/Logbook.v ===== *)
(** * logbook.py: the contact log and ADIF

    Times are UTC; the database is the list of QSO rows in insertion order, and
    the callbook lookup of [quick_log] is the one of [Credentials]. *)
From S2P Require Import Prelude PyFloat PyStr Regex PyTime Credentials.
Open Scope Z_scope.

(** ** Rows *)

Record Session := {
  ss_id : Z;
  ss_created_at : datetime;
  ss_engine : option pystr;      (** [telemetry["meta"]["engine"]], where present *)
}.

Record QSO := {
  qs_user : Z;
  qs_call : pystr;
  qs_when : datetime;
  qs_freq_mhz : option float;
  qs_band : pystr;
  qs_mode : pystr;
  qs_rst_sent : pystr;
  qs_rst_rcvd : pystr;
  qs_name : pystr;
  qs_qth : pystr;
  qs_gridsquare : pystr;
  qs_country : pystr;
  qs_comment : pystr;
  qs_session : option Z;
  qs_source : pystr;
}.

#[global] Instance eta_qso : Eta QSO := fun q =>
  Build_QSO (qs_user q) (qs_call q) (qs_when q) (qs_freq_mhz q) (qs_band q) (qs_mode q)
    (qs_rst_sent q) (qs_rst_rcvd q) (qs_name q) (qs_qth q) (qs_gridsquare q) (qs_country q)
    (qs_comment q) (qs_session q) (qs_source q).

(** ** Bands and modes *)

Definition BANDS : list (float * float * pystr) := [
  (lit 18 10, num_of_Z 2, u "160m");
  (lit 35 10, num_of_Z 4, u "80m");
  (lit 53 10, lit 541 100, u "60m");
  (num_of_Z 7, lit 73 10, u "40m");
  (lit 101 10, lit 1015 100, u "30m");
  (num_of_Z 14, lit 1435 100, u "20m");
  (lit 18068 1000, lit 18168 1000, u "17m");
  (num_of_Z 21, lit 2145 100, u "15m");
  (lit 2489 100, lit 2499 100, u "12m");
  (num_of_Z 28, lit 297 10, u "10m");
  (num_of_Z 50, num_of_Z 54, u "6m");
  (num_of_Z 144, num_of_Z 148, u "2m");
  (num_of_Z 420, num_of_Z 450, u "70cm")
].

Definition in_band (f : float) (b : float * float * pystr) : bool :=
  num_leb b.1.1 f && num_leb f b.1.2.

(** [freq] is a number other than zero. *)
Definition truthy (x : option float) : option float :=
  match x with
  | Some f => if num_eqb f (num_of_Z 0) then None else Some f
  | None => None
  end.

Definition band_for_freq (freq_mhz : option float) : pystr :=
  match truthy freq_mhz with
  | None => []
  | Some f => match List.find (in_band f) BANDS with Some b => b.2 | None => [] end
  end.

Definition mode_for_session (session : option Session) : pystr :=
  match session with
  | None => u "CW"
  | Some s =>
      let engine := default (u "cw") (ss_engine s) in
      if startswith engine (u "fldigi:") then
        let modem := upper (slice_from (zlen (u "fldigi:")) engine) in
        if contains (u "PSK") modem then
          if contains (u "31") modem then u "PSK31" else u "PSK"
        else if contains (u "RTTY") modem then u "RTTY"
        else slice_to 12 modem
      else u "CW"
  end.

(** [worked_before(user, call).first()], newest first. *)
Definition later (a b : QSO) : QSO :=
  if dt_stamp (qs_when a) <? dt_stamp (qs_when b) then b else a.

Definition worked_before (db : list QSO) (user : Z) (call : pystr) : list QSO :=
  List.filter (fun q => (qs_user q =? user) && str_eqb (qs_call q) (upper call)) db.

Definition newest (qs : list QSO) : option QSO :=
  match qs with [] => None | q :: qs => Some (foldl later q qs) end.

(** ** quick_log *)

Section QuickLog.
Context {W : Type}.
Variable lookup_for_user : Z -> pystr -> W -> option QRZInfo * W.
Variable now : datetime.

Definition quick_log (db : list QSO) (user : Z) (call : pystr) (session : option Session)
    (freq_hz : option float) (source rst_sent : pystr) (w : W) : QSO * list QSO * W :=
  let call := upper (strip call) in
  let freq_mhz :=
    (fun f => num_round 4 (num_div f (num_of_Z 1000000))) <$> truthy freq_hz in
  let qso := {|
    qs_user := user; qs_call := call;
    qs_when := from_option ss_created_at now session;
    qs_freq_mhz := freq_mhz; qs_band := band_for_freq freq_mhz;
    qs_mode := mode_for_session session; qs_rst_sent := rst_sent; qs_rst_rcvd := [];
    qs_name := []; qs_qth := []; qs_gridsquare := []; qs_country := []; qs_comment := [];
    qs_session := ss_id <$> session; qs_source := source |} in
  let qso :=
    match newest (worked_before db user call) with
    | Some p => qso <| qs_name := qs_name p |> <| qs_qth := qs_qth p |>
                    <| qs_gridsquare := qs_gridsquare p |> <| qs_country := qs_country p |>
    | None => qso
    end in
  let '(qso, w) :=
    if nonempty (qs_name qso) then (qso, w)
    else
      let '(info, w) := lookup_for_user user call w in
      (match info with
       | Some i => qso <| qs_name := slice_to 120 (qi_name i) |> <| qs_qth := slice_to 120 (qi_qth i) |>
                       <| qs_gridsquare := slice_to 8 (qi_grid i) |>
                       <| qs_country := slice_to 64 (qi_country i) |>
       | None => qso
       end, w) in
  (qso, db ++ [qso], w).
End QuickLog.

(** ** ADIF import *)

(** A tag: its name, its length and an optional type, which is ignored. *)
Definition ADIF_TAG : regex :=
  r_seq [r_char 60; RGroup 1 (r_plus is_word); r_char 58; RGroup 2 (r_plus is_decimal);
         r_opt (RSeq (r_char 58) (r_star (fun c => negb (c =? 62)))); r_char 62].
Definition EOR : regex := r_lit_ci (u "<eor>").
Definition EOH : regex := r_lit_ci (u "<eoh>").

Notation adif_record := (gmap pystr pystr).

Definition keep (current : adif_record) (records : list adif_record) : list adif_record :=
  if bool_decide (current = ∅) then records else records ++ [current].

(** The loop of [parse_adif] on what is left of the body. *)
Fixpoint parse_loop (fuel : nat) (s : pystr) (current : adif_record) (records : list adif_record) :
    list adif_record :=
  match fuel with
  | O => records
  | S f =>
      match search EOR s, search ADIF_TAG s with
      | None, None => keep current records
      | Some (_, eor), None => parse_loop f (m_rest eor) ∅ (keep current records)
      | eor, Some (tag_start, tag) =>
          match eor with
          | Some (eor_start, eor) =>
              if Nat.ltb eor_start tag_start then
                parse_loop f (m_rest eor) ∅ (keep current records)
              else
                let length := default 0 (parse_int (group 2 tag)) in
                parse_loop f (slice_from length (m_rest tag))
                  (<[lower (group 1 tag) := slice_to length (m_rest tag)]> current) records
          | None =>
              let length := default 0 (parse_int (group 2 tag)) in
              parse_loop f (slice_from length (m_rest tag))
                (<[lower (group 1 tag) := slice_to length (m_rest tag)]> current) records
          end
      end
  end.

(** [parse_adif]: every pass of the loop consumes a tag, so the length of the
    body bounds the passes. *)
Definition parse_adif (text : pystr) : list adif_record :=
  let body := match search EOH text with Some (_, eoh) => m_rest eoh | None => text end in
  parse_loop (S (length body)) body ∅ [].

Definition get (record : adif_record) (field : pystr) : pystr := default [] (record !! field).

(** [_parse_adif_when] *)
Definition parse_adif_when (record : adif_record) : option datetime :=
  let date := strip (get record (u "qso_date")) in
  let t := strip (get record (u "time_on")) in
  let time_on := ljust 6 48 (if nonempty t then t else u "0000") in
  if negb (zlen date =? 8) || negb (isdigit date) then None
  else
    y ← parse_int (slice_to 4 date); m ← parse_int (slice 4 6 date); d ← parse_int (slice 6 8 date);
    hh ← parse_int (slice_to 2 time_on); mm ← parse_int (slice 2 4 time_on);
    ss ← parse_int (slice 4 6 time_on);
    mk_datetime y m d hh mm ss.

Record Counts := { created : Z; duplicates : Z; errors : Z }.
#[global] Instance eta_counts : Eta Counts := fun c =>
  Build_Counts (created c) (duplicates c) (errors c).

(** The start of the minute of [when]. *)
Definition minute_lo (when : datetime) : Z := dt_stamp (when <| dt_second := 0 |>).
Definition one_minute : Z := 60000000.

(** [QSO.objects.filter(user=user, call=call, when__gte=lo, when__lt=hi).exists()] *)
Definition logged (db : list QSO) (user : Z) (call : pystr) (when : datetime) : bool :=
  existsb (fun q => (qs_user q =? user) && str_eqb (qs_call q) call
                    && (minute_lo when <=? dt_stamp (qs_when q))
                    && (dt_stamp (qs_when q) <? minute_lo when + one_minute)) db.

(** The frequency of a record: [None] where it is missing or not a number. *)
Definition adif_freq (record : adif_record) : option float :=
  let f := get record (u "freq") in
  if nonempty f then num_round 4 <$> parse_float f else None.

Definition or_else (a b : pystr) : pystr := if nonempty a then a else b.

Definition imported (user : Z) (call : pystr) (when : datetime) (record : adif_record) : QSO :=
  let freq := adif_freq record in
  {| qs_user := user; qs_call := call; qs_when := when; qs_freq_mhz := freq;
     qs_band := or_else (lower (get record (u "band"))) (band_for_freq freq);
     qs_mode := or_else (slice_to 12 (upper (default (u "CW") (record !! u "mode")))) (u "CW");
     qs_rst_sent := slice_to 8 (get record (u "rst_sent"));
     qs_rst_rcvd := slice_to 8 (get record (u "rst_rcvd"));
     qs_name := slice_to 120 (get record (u "name"));
     qs_qth := slice_to 120 (get record (u "qth"));
     qs_gridsquare := slice_to 8 (get record (u "gridsquare"));
     qs_country := slice_to 64 (get record (u "country"));
     qs_comment := get record (u "comment"); qs_session := None; qs_source := u "import" |}.

(** One record of [import_adif]; [None] where [minute_lo + timedelta(minutes=1)]
    is past the last representable time and raises OverflowError. *)
Definition import_record (user : Z) (record : adif_record) (st : Counts * list QSO) :
    option (Counts * list QSO) :=
  let '(c, db) := st in
  let call := upper (strip (get record (u "call"))) in
  match parse_adif_when record with
  | Some when =>
      if negb (nonempty call) then Some (c <| errors := errors c + 1 |>, db)
      else if MAX_STAMP <? minute_lo when + one_minute then None
      else if logged db user call when then Some (c <| duplicates := duplicates c + 1 |>, db)
      else Some (c <| created := created c + 1 |>, db ++ [imported user call when record])
  | None => Some (c <| errors := errors c + 1 |>, db)
  end.

(** [Err] has the log as it is when a record raises: the rows before it stay. *)
Fixpoint import_records (user : Z) (records : list adif_record) (st : Counts * list QSO) :
    result (list QSO) (Counts * list QSO) :=
  match records with
  | [] => Ok st
  | r :: rs => match import_record user r st with Some st => import_records user rs st | None => Err st.2 end
  end.

Definition import_adif (user : Z) (text : pystr) (db : list QSO) : result (list QSO) (Counts * list QSO) :=
  import_records user (parse_adif text) (Build_Counts 0 0 0, db).

(** ** ADIF export *)

(** [_adif_field] *)
Definition adif_field (f : pystr * pystr) : pystr :=
  u "<" ++ f.1 ++ u ":" ++ str_of_Z (zlen f.2) ++ u ">" ++ f.2.

Definition opt_field (name value : pystr) : list (pystr * pystr) :=
  if nonempty value then [(name, value)] else [].

(** The fields of one contact. *)
Definition fields (station_call : pystr) (q : QSO) : list (pystr * pystr) :=
  [(u "call", qs_call q); (u "qso_date", fmt_date (qs_when q)); (u "time_on", fmt_time (qs_when q));
   (u "mode", qs_mode q)]
  ++ opt_field (u "band") (qs_band q)
  ++ (match truthy (qs_freq_mhz q) with Some f => [(u "freq", fmt_fixed 4 f)] | None => [] end)
  ++ opt_field (u "rst_sent") (qs_rst_sent q) ++ opt_field (u "rst_rcvd") (qs_rst_rcvd q)
  ++ opt_field (u "name") (qs_name q) ++ opt_field (u "qth") (qs_qth q)
  ++ opt_field (u "gridsquare") (qs_gridsquare q) ++ opt_field (u "country") (qs_country q)
  ++ opt_field (u "station_callsign") station_call
  ++ (if nonempty (qs_comment q) then [(u "comment", join (u " ") (words (qs_comment q)))] else []).

Definition record_line (station_call : pystr) (q : QSO) : pystr :=
  join (u " ") (adif_field <$> fields station_call q) ++ u " <EOR>".

Definition adif_header : list pystr :=
  [u "CW Station log export"; adif_field (u "adif_ver", u "3.1.4");
   adif_field (u "programid", u "CW Station"); u "<EOH>"; []].

Definition adif_export (qsos : list QSO) (station_call : pystr) : pystr :=
  join [10] (adif_header ++ (record_line station_call <$> qsos)) ++ [10].
