(* ===== verification/LogbookFacts.v ===== *)
(** * The contact log: ADIF round trip and import *)
From S2P Require Import Prelude PyFloat PyStr Regex PyTime Credentials Logbook.
Open Scope Z_scope.

(** ** The patterns *)

Lemma angle_first r prev s g prev' s' g' :
  run (RSeq (r_char 60) r) prev s g prev' s' g' -> (length s' < length s)%nat /\ head s = Some 60.
Proof.
  intros H. inversion H as [| | |? ? ? ? ? ? ? ? ? ? ? Ha Hb| | | |]; subst; clear H.
  inversion Ha as [|? ? c ? ? Hc| | | | | |]; subst; clear Ha. apply Z.eqb_eq in Hc as <-.
  destruct (run_suffix _ _ _ _ _ _ _ Hb) as (w & -> & _). cbn. rewrite length_app. split; [lia|done].
Qed.

(** The three patterns start with an angle bracket. *)
Definition angled (r : regex) : Prop :=
  forall prev s g prev' s' g', run r prev s g prev' s' g' -> (length s' < length s)%nat /\ head s = Some 60.

Lemma tag_angled : angled ADIF_TAG.
Proof. intros ?????? H. by apply angle_first in H. Qed.

Lemma ci_angled r : r = EOR \/ r = EOH -> angled r.
Proof.
  intros Hr prev s g prev' s' g' H.
  assert (exists r', r = RSeq (RClass (fun d => lower_char d =? lower_char 60)) r') as [r' ->]
    by (destruct Hr as [-> | ->]; by eexists).
  inversion H as [| | |? ? ? ? ? ? ? ? ? ? ? Ha Hb| | | |]; subst; clear H.
  inversion Ha as [|? ? c ? ? Hc| | | | | |]; subst; clear Ha.
  assert (c = 60) as ->.
  { revert Hc. unfold lower_char at 2. cbn. unfold lower_char, is_ascii_upper.
    repeat case_match; intros Hc; bool_to_prop; lia. }
  destruct (run_suffix _ _ _ _ _ _ _ Hb) as (w & -> & _). cbn. rewrite length_app. split; [lia|done].
Qed.

Lemma eor_angled : angled EOR.
Proof. apply ci_angled; by left. Qed.

Lemma angled_no_match r prev s : angled r -> head s <> Some 60 -> match_at r prev s = None.
Proof.
  intros Hr Hs. destruct (match_at r prev s) as [m|] eqn:E; [|done]. exfalso.
  apply match_at_sound in E as [_ [prev' H]]. by apply Hr in H as [_ ?].
Qed.

Lemma search_shorter r s i m : angled r -> search r s = Some (i, m) -> (length (m_rest m) < length s)%nat.
Proof.
  intros Hr Hs. apply search_from_sound in Hs as (pre & prev' & _ & -> & E).
  apply match_at_sound in E as [_ [pv H]]. apply Hr in H as [H _].
  rewrite !length_app in *. lia.
Qed.

Lemma search_angled r p s :
  angled r -> 60 ∉ p ->
  search r (p ++ s) = (fun x => (length p + x.1, x.2)%nat) <$> search_from r (last_or None p) s.
Proof. intros Hr. apply search_skip. intros. by apply angled_no_match. Qed.

(** ** Termination of the parser

    The loop never needs more passes than the body has characters. *)
Lemma parse_loop_fuel f1 f2 s current records :
  (length s < f1)%nat -> (length s < f2)%nat ->
  parse_loop f1 s current records = parse_loop f2 s current records.
Proof.
  revert f2 s current records. induction f1 as [|f1 IH]; intros f2 s current records H1 H2; [lia|].
  destruct f2 as [|f2]; [lia|]. cbn [parse_loop].
  assert (forall i m, search EOR s = Some (i, m) -> forall c r,
            parse_loop f1 (m_rest m) c r = parse_loop f2 (m_rest m) c r) as He.
  { intros i m E c r. pose proof (search_shorter _ _ _ _ eor_angled E). apply IH; lia. }
  assert (forall i m, search ADIF_TAG s = Some (i, m) -> forall n c r,
            parse_loop f1 (slice_from n (m_rest m)) c r = parse_loop f2 (slice_from n (m_rest m)) c r) as Ht.
  { intros i m E n c r. pose proof (search_shorter _ _ _ _ tag_angled E).
    assert (length (slice_from n (m_rest m)) <= length (m_rest m))%nat
      by (unfold slice_from; rewrite length_drop; lia).
    apply IH; lia. }
  destruct (search EOR s) as [[ie me]|] eqn:Ee, (search ADIF_TAG s) as [[it mt]|] eqn:Et; try done.
  - destruct (Nat.ltb ie it); [by eapply He|by eapply Ht].
  - by eapply He.
  - by eapply Ht.
Qed.

(** ** Matching what the exporter writes *)

(** Every record kept used up at least one character of the body. *)
Lemma parse_loop_records f s current records :
  (length (parse_loop f s current records)
   <= length records + length s + if bool_decide (current = ∅) then 0 else 1)%nat.
Proof.
  revert s current records. induction f as [|f IH]; intros s current records; cbn [parse_loop]; [lia|].
  assert (forall current : adif_record, length (keep current records) = length records + if bool_decide (current = ∅) then 0 else 1)%nat
    as Hkeep by (intros c; unfold keep; case_bool_decide; rewrite ?length_app; cbn; lia).
  assert (forall (c : adif_record) s', (length s' < length s)%nat ->
    length (parse_loop f s' c records) <= length records + length s)%nat as Htag.
  { intros c s' Hs. specialize (IH s' c records). case_bool_decide; lia. }
  assert (forall c i m, search EOR s = Some (i, m) ->
    length (parse_loop f (m_rest m) ∅ (keep c records)) <= length records + length s + if bool_decide (c = ∅) then 0 else 1)%nat as Heor.
  { intros c i m Hm. apply search_shorter in Hm; [|apply eor_angled]. specialize (IH (m_rest m) ∅ (keep c records)).
    rewrite Hkeep in IH. rewrite (bool_decide_eq_true_2 ((∅ : adif_record) = ∅)) in IH by done. lia. }
  assert (forall i m n (c : adif_record), search ADIF_TAG s = Some (i, m) ->
    length (parse_loop f (slice_from n (m_rest m)) c records) <= length records + length s)%nat as Ht.
  { intros i m n c Hm. apply search_shorter in Hm; [|apply tag_angled]. apply Htag.
    unfold slice_from. rewrite length_drop. lia. }
  destruct (search EOR s) as [[es eor]|] eqn:E1; destruct (search ADIF_TAG s) as [[ts tag]|] eqn:E2.
  - case_match; [by eapply Heor|]. etransitivity; [by eapply Ht|lia].
  - by eapply Heor.
  - etransitivity; [by eapply Ht|lia].
  - rewrite Hkeep. lia.
Qed.

(** Reading an ADIF file ends on every input, well-formed or not: any number
    of passes beyond the length of the body gives the same records as the
    bound the model uses, and there are never more records than characters. *)
Theorem parse_adif_terminates (text : pystr) (fuel : nat) :
  let body := match search EOH text with Some (_, eoh) => m_rest eoh | None => text end in
  (length body < fuel)%nat ->
  parse_loop fuel body ∅ [] = parse_adif text /\ (length (parse_adif text) <= length text)%nat.
Proof.
  intros body Hf. unfold parse_adif. fold body. split; [apply parse_loop_fuel; lia|].
  etransitivity; [apply parse_loop_records|]. rewrite bool_decide_eq_true_2 by done. cbn [length].
  assert (length body <= length text)%nat; [|lia]. subst body. destruct (search EOH text) as [[i m]|] eqn:E; [|done].
  apply search_shorter in E; [lia|]. apply ci_angled. by right.
Qed.

Theorem parse_adif_terminates_witness :
  parse_loop 100 (u "<call:4>W1AW<eor><bad<eor>") ∅ [] = parse_adif (u "<call:4>W1AW<eor><bad<eor>").
Proof.
  assert (search EOH (u "<call:4>W1AW<eor><bad<eor>") = None) as E by (vm_compute; reflexivity).
  pose proof (parse_adif_terminates (u "<call:4>W1AW<eor><bad<eor>") 100) as T. cbv zeta in T. rewrite E in T.
  apply T. vm_compute. lia.
Defined.

Lemma match_tag prev name ds rest :
  name <> [] -> Forall (fun c => is_word c = true) name ->
  ds <> [] -> Forall (fun c => is_decimal c = true) ds ->
  match_at ADIF_TAG prev (60 :: name ++ 58 :: ds ++ 62 :: rest)
  = Some {| m_text := 60 :: name ++ 58 :: ds ++ [62]; m_rest := rest;
            m_groups := [(2%nat, ds); (1%nat, name)] |}.
Proof.
  intros Hn Hname Hd Hds. unfold match_at, ADIF_TAG. set (total := length (60 :: name ++ _)).
  assert (forall l s : pystr, take (length (l ++ s) - length s) (l ++ s) = l) as Htake
    by (intros; apply take_app_diff).
  cbn [r_seq exec r_char]. change (60 =? 60) with true. cbv iota.
  apply exec_rep_all; [done|by destruct name; [|cbn; lia]|done|].
  cbn [exec]. change (58 =? 58) with true. cbv iota.
  apply exec_rep_all; [done|by destruct ds; [|cbn; lia]|done|].
  unfold r_opt. cbn [exec r_char orelse].
  change (58 =? 62) with false. change (62 =? 62) with true. cbv iota. cbn [orelse].
  rewrite !Htake. do 2 f_equal. subst total.
  replace (60 :: name ++ 58 :: ds ++ 62 :: rest) with ((60 :: name ++ 58 :: ds ++ [62]) ++ rest).
  - apply Htake.
  - cbn. by rewrite <- !app_assoc, <- app_comm_cons, <- app_assoc.
Qed.

Lemma match_tag_eor prev rest : match_at ADIF_TAG prev (u "<EOR>" ++ rest) = None.
Proof. reflexivity. Qed.

Lemma match_eor prev rest :
  exists t g, match_at EOR prev (u "<EOR>" ++ rest) = Some {| m_text := t; m_rest := rest; m_groups := g |}.
Proof. eexists _, _. reflexivity. Qed.

Lemma search_from_here r prev s m : match_at r prev s = Some m -> search_from r prev s = Some (O, m).
Proof. intros E. destruct s; cbn [search_from]; by rewrite E. Qed.

(** ** One field, one end of record *)

Lemma parse_field f p name v s current records :
  60 ∉ p -> name <> [] -> Forall (fun c => is_word c = true) name ->
  parse_loop (S f) (p ++ adif_field (name, v) ++ s) current records
  = parse_loop f s (<[lower name := v]> current) records.
Proof.
  intros Hp Hn Hname. pose proof (dec_spec (zlen v) (zlen_nonneg v)) as (Hd & Hds & _).
  set (s0 := adif_field (name, v) ++ s).
  assert (s0 = 60 :: name ++ 58 :: dec (zlen v) ++ 62 :: (v ++ s)) as E0.
  { subst s0. unfold adif_field, str_of_Z. cbn [fst snd].
    rewrite (proj2 (Z.ltb_ge _ _)) by apply zlen_nonneg.
    change (u "<") with [60]. change (u ":") with [58]. change (u ">") with [62].
    cbn [app]. by rewrite <- !app_assoc, <- !app_comm_cons, <- !app_assoc. }
  assert (search ADIF_TAG (p ++ s0) = Some (length p, {|
    m_text := 60 :: name ++ 58 :: dec (zlen v) ++ [62]; m_rest := v ++ s;
    m_groups := [(2%nat, dec (zlen v)); (1%nat, name)] |})) as Ht.
  { rewrite search_angled by (done || apply tag_angled). rewrite E0.
    rewrite (search_from_here ADIF_TAG _ _ _ (match_tag _ name _ (v ++ s) Hn Hname Hd Hds)).
    cbn. by rewrite Nat.add_0_r. }
  assert (forall i m, search EOR (p ++ s0) = Some (i, m) -> Nat.ltb i (length p) = false) as He.
  { intros i m E. rewrite search_angled in E by (done || apply eor_angled).
    destruct (search_from EOR _ s0) as [[j m']|]; [|done]. injection E as <- _. apply Nat.ltb_ge. cbn. lia. }
  clearbody s0. cbn [parse_loop]. rewrite Ht.
  assert (group 1 {| m_text := 60 :: name ++ 58 :: dec (zlen v) ++ [62]; m_rest := v ++ s;
    m_groups := [(2%nat, dec (zlen v)); (1%nat, name)] |} = name) as -> by done.
  assert (group 2 {| m_text := 60 :: name ++ 58 :: dec (zlen v) ++ [62]; m_rest := v ++ s;
    m_groups := [(2%nat, dec (zlen v)); (1%nat, name)] |} = dec (zlen v)) as -> by done.
  cbn [m_rest]. rewrite parse_int_dec by apply zlen_nonneg. cbv zeta. change (default 0 (Some (zlen v))) with (zlen v).
  assert (slice_from (zlen v) (v ++ s) = s) as -> by apply slice_from_app.
  assert (slice_to (zlen v) (v ++ s) = v) as -> by apply slice_to_app.
  destruct (search EOR (p ++ s0)) as [[i m]|] eqn:E; [|done]. by rewrite (He i m).
Qed.

Lemma parse_eor f p s current records :
  60 ∉ p ->
  parse_loop (S f) (p ++ u "<EOR>" ++ s) current records = parse_loop f s ∅ (keep current records).
Proof.
  intros Hp. destruct (match_eor (last_or None p) s) as (t & g & Em).
  assert (search EOR (p ++ u "<EOR>" ++ s) = Some (length p, {| m_text := t; m_rest := s; m_groups := g |})) as He.
  { rewrite search_angled by (done || apply eor_angled). rewrite (search_from_here _ _ _ _ Em).
    cbn. by rewrite Nat.add_0_r. }
  assert (forall i m, search ADIF_TAG (p ++ u "<EOR>" ++ s) = Some (i, m) -> Nat.ltb (length p) i = true) as Ht.
  { intros i m E. rewrite search_angled in E by (done || apply tag_angled).
    change (u "<EOR>" ++ s) with (60 :: (u "EOR>" ++ s)) in E. cbn [search_from] in E.
    change (60 :: (u "EOR>" ++ s)) with (u "<EOR>" ++ s) in E. rewrite match_tag_eor in E.
    destruct (search_from ADIF_TAG (Some 60) _) as [[j m']|]; [|done].
    injection E as <- _. apply Nat.ltb_lt. cbn. lia. }
  cbn [parse_loop]. rewrite He.
  destruct (search ADIF_TAG _) as [[i m]|] eqn:E; [|done]. by rewrite (Ht i m).
Qed.

(** ** Records *)

Definition set_field (r : adif_record) (f : pystr * pystr) : adif_record := <[lower f.1 := f.2]> r.
Definition record_of (fs : list (pystr * pystr)) : adif_record := foldl set_field ∅ fs.

Definition field_ok (f : pystr * pystr) : Prop :=
  f.1 <> [] /\ Forall (fun c => is_word c = true) f.1.

(** The fields of a record after its first, each behind a space. *)
Lemma parse_more f fs s current records :
  Forall field_ok fs ->
  parse_loop (length fs + f) (mjoin ((fun x => u " " ++ adif_field x) <$> fs) ++ s) current records
  = parse_loop f s (foldl set_field current fs) records.
Proof.
  intros Hfs. revert current. induction Hfs as [|[name v] fs [Hn Hw] Hfs IH]; intros current; [done|].
  change (mjoin ((fun x => u " " ++ adif_field x) <$> (name, v) :: fs))
    with (([32] ++ adif_field (name, v)) ++ mjoin ((fun x => u " " ++ adif_field x) <$> fs)).
  rewrite <- !app_assoc. change (length ((name, v) :: fs) + f)%nat with (S (length fs + f)).
  rewrite parse_field by (done || by_compute). apply IH.
Qed.

Lemma join_cons_space (x : pystr) l : join (u " ") (x :: l) = x ++ mjoin ((fun y => u " " ++ y) <$> l).
Proof.
  revert x. induction l as [|y l IH]; intros x; [by rewrite app_nil_r|].
  change (join (u " ") (x :: y :: l)) with (x ++ u " " ++ join (u " ") (y :: l)).
  rewrite IH. change (mjoin ((fun y => u " " ++ y) <$> y :: l)) with ((u " " ++ y) ++ mjoin ((fun y => u " " ++ y) <$> l)).
  by rewrite <- app_assoc.
Qed.

Lemma fields_ok station q : Forall field_ok (fields station q).
Proof.
  unfold fields, opt_field.
  assert (forall n v, field_ok (n, v) <-> nonempty n && forallb is_word n = true) as Hdec.
  { intros n v. unfold field_ok. rewrite andb_true_iff, nonempty_true, forallb_Forall. done. }
  repeat (apply Forall_app; split).
  all: try (repeat (apply Forall_cons; split; [by apply Hdec|]); constructor).
  all: repeat case_match; try (apply Forall_cons; split; [by apply Hdec|]); constructor.
Qed.

Lemma fields_cons station q : exists f fs, fields station q = f :: fs.
Proof. unfold fields. eexists _, _. reflexivity. Qed.

(** The text of a record, up to its end mark. *)
Lemma parse_record f p station q s current records :
  60 ∉ p ->
  parse_loop (S (length (fields station q)) + f) (p ++ record_line station q ++ s) current records
  = parse_loop f s ∅ (keep (foldl set_field current (fields station q)) records).
Proof.
  intros Hp. unfold record_line. pose proof (fields_ok station q) as Hok.
  destruct (fields_cons station q) as ([name v] & fs & E). rewrite E in *.
  apply Forall_cons in Hok as [[Hn Hw] Hfs]. cbn [fmap list_fmap]. rewrite join_cons_space.
  rewrite <- list_fmap_compose. rewrite <- !app_assoc.
  cbn [length]. change (S (S (length fs)) + f)%nat with (S (S (length fs + f))).
  replace (S (length fs + f)) with (length fs + S f)%nat by lia.
  rewrite parse_field by done. change ((fun y => u " " ++ y) ∘ adif_field) with (fun x => u " " ++ adif_field x).
  rewrite parse_more by done. change (u " <EOR>" ++ s) with ([32] ++ u "<EOR>" ++ s).
  rewrite parse_eor by by_compute. done.
Qed.

Lemma foldl_set_nonempty current f fs : foldl set_field current (f :: fs) <> ∅.
Proof.
  cbn [foldl]. assert (forall fs (m : adif_record), m <> ∅ -> foldl set_field m fs <> ∅) as H.
  { clear. induction fs as [|g gs IH]; intros m Hm; [done|]. cbn [foldl]. apply IH.
    unfold set_field. apply insert_non_empty. }
  apply H, insert_non_empty.
Qed.

Lemma keep_fields station q records :
  keep (foldl set_field ∅ (fields station q)) records = records ++ [record_of (fields station q)].
Proof.
  unfold keep, record_of. destruct (fields_cons station q) as (f & fs & ->).
  by rewrite bool_decide_eq_false_2 by apply foldl_set_nonempty.
Qed.

(** Passes the body of a log takes. *)
Definition passes (station : pystr) (qs : list QSO) : nat :=
  sum_list ((fun q => S (length (fields station q))) <$> qs).

Lemma search_none r s : angled r -> 60 ∉ s -> search r s = None.
Proof.
  intros Hr Hs. rewrite <- (app_nil_r s), search_angled by done. cbn [search_from].
  by rewrite angled_no_match.
Qed.

Lemma parse_body station qs p f records :
  60 ∉ p ->
  parse_loop (passes station qs + S f)
    (p ++ mjoin ((fun q => [10] ++ record_line station q) <$> qs) ++ [10]) ∅ records
  = records ++ ((fun q => record_of (fields station q)) <$> qs).
Proof.
  revert p records. induction qs as [|q qs IH]; intros p records Hp.
  - change (passes station [] + S f)%nat with (S f). cbn [parse_loop fmap list_fmap].
    change (mjoin [] ++ [10]) with [10].
    assert (60 ∉ p ++ [10]) as Hp'.
    { apply not_elem_of_app. split; [done|by_compute]. }
    rewrite !search_none by (done || apply eor_angled || apply tag_angled).
    by rewrite app_nil_r.
  - change (passes station (q :: qs)) with (S (length (fields station q)) + passes station qs)%nat.
    change (mjoin ((fun q => [10] ++ record_line station q) <$> q :: qs))
      with (([10] ++ record_line station q) ++ mjoin ((fun q => [10] ++ record_line station q) <$> qs)).
    rewrite <- !(app_assoc [10]), <- app_assoc, (app_assoc p).
    rewrite <- Nat.add_assoc, parse_record.
    2: { apply not_elem_of_app. split; [done|by_compute]. }
    rewrite keep_fields. rewrite (IH []) by by_compute. by rewrite <- app_assoc.
Qed.

Lemma join_prefix sep (a l : list pystr) :
  a <> [] -> join sep (a ++ l) = join sep a ++ mjoin ((fun x => sep ++ x) <$> l).
Proof.
  intros Ha. revert Ha. induction a as [|x a IH]; intros Ha; [done|]. destruct a as [|y a].
  - cbn [app]. clear Ha IH. revert x. induction l as [|z l IH]; intros x; [by rewrite app_nil_r|].
    change (join sep (x :: z :: l)) with (x ++ sep ++ join sep (z :: l)). rewrite IH.
    change (mjoin ((fun x => sep ++ x) <$> z :: l)) with ((sep ++ z) ++ mjoin ((fun x => sep ++ x) <$> l)).
    cbn [join]. by rewrite <- !app_assoc.
  - change (join sep ((x :: y :: a) ++ l)) with (x ++ sep ++ join sep ((y :: a) ++ l)).
    rewrite IH by done. change (join sep (x :: y :: a)) with (x ++ sep ++ join sep (y :: a)).
    by rewrite <- !app_assoc.
Qed.

Lemma parse_export (qsos : list QSO) (station_call : pystr) :
  parse_adif (adif_export qsos station_call)
  = (fun q => record_of (fields station_call q)) <$> qsos.
Proof.
  unfold parse_adif, adif_export. rewrite join_prefix by done.
  rewrite <- list_fmap_compose. rewrite <- app_assoc.
  set (body := mjoin _ ++ [10]).
  assert ((fun x => m_rest x.2) <$> search EOH (join [10] adif_header ++ body) = Some (10 :: body)) as E
    by (clearbody body; vm_compute; reflexivity).
  destruct (search EOH (join [10] adif_header ++ body)) as [[i m]|]; [|done].
  cbn [fmap option_fmap option_map snd] in E. injection E as ->.
  change (10 :: body) with ([10] ++ body).
  rewrite (parse_loop_fuel _ (passes station_call qsos + S (length ([10] ++ body)))) by lia.
  subst body. by rewrite (parse_body station_call qsos [10]) by by_compute.
Qed.

(** C3: ADIF export and parsing are inverse: for every log and station call,
    parsing the exported text gives one record per contact, in order, holding
    exactly the exported fields with the exported values. Values are framed by
    their length, so one that contains tags, end-of-record marks or line breaks
    changes nothing. *)
Theorem adif_roundtrip (qsos : list QSO) (station_call : pystr) :
  parse_adif (adif_export qsos station_call)
  = (fun q => record_of (fields station_call q)) <$> qsos.
Proof. apply parse_export. Qed.

(** ** Importing *)

Lemma dt_valid_second d : dt_valid d = true -> 0 <= dt_second d <= 59 /\ 0 <= dt_micro d <= 999999.
Proof. unfold dt_valid, within. intros H. bool_to_prop. lia. Qed.

Lemma stamp_in_minute d :
  minute_lo d = dt_stamp d - dt_second d * 1000000.
Proof. unfold minute_lo, dt_stamp, dt_ordinal. cbn [dt_year dt_month dt_day dt_hour dt_minute dt_second dt_micro]. cbn. lia. Qed.

Lemma logged_true db user call when :
  logged db user call when = true <->
  exists q, q ∈ db /\ qs_user q = user /\ qs_call q = call
    /\ minute_lo when <= dt_stamp (qs_when q) < minute_lo when + one_minute.
Proof.
  unfold logged. rewrite existsb_exists. setoid_rewrite <- list_elem_of_In.
  split; intros (q & Hq & Hin); exists q; (split; [done|]).
  - bool_to_prop. unfold str_eqb in *. bool_to_prop. done.
  - destruct Hin as (-> & <- & H1 & H2). rewrite Z.eqb_refl. unfold str_eqb.
    rewrite bool_decide_eq_true_2 by done. cbn [andb]. lia.
Qed.

Lemma parse_adif_when_valid r when : parse_adif_when r = Some when -> dt_valid when = true /\ dt_micro when = 0.
Proof.
  unfold parse_adif_when. destruct (negb _ || negb _); [done|].
  intros E. repeat (apply bind_Some in E as (? & _ & E)).
  unfold mk_datetime in E. destruct (dt_valid _) eqn:Hv; [|done]. by injection E as <-.
Qed.

Definition total (c : Counts) : Z := created c + duplicates c + errors c.

(** What one record does to the counts and the log. *)
Lemma import_record_cases user r c db c' db' :
  import_record user r (c, db) = Some (c', db') ->
  total c' = total c + 1 /\
  ((c' = c <| errors := errors c + 1 |> /\ db' = db
    /\ forall c2 db2, import_record user r (c2, db2) = Some (c2 <| errors := errors c2 + 1 |>, db2))
   \/ ((c' = c <| duplicates := duplicates c + 1 |> /\ db' = db
        \/ exists q, c' = c <| created := created c + 1 |> /\ db' = db ++ [q])
       /\ forall c2 ext, import_record user r (c2, db' ++ ext)
            = Some (c2 <| duplicates := duplicates c2 + 1 |>, db' ++ ext))).
Proof.
  unfold import_record. destruct (parse_adif_when r) as [when|] eqn:Ew.
  2: { intros [= <- <-]. split; [unfold total; cbn; lia|]. by left. }
  destruct (nonempty _) eqn:En; cbn [negb].
  2: { intros [= <- <-]. split; [unfold total; cbn; lia|]. by left. }
  destruct (MAX_STAMP <? _); [done|].
  set (call := upper (strip (get r (u "call")))) in *.
  destruct (logged db user call when) eqn:El; intros [= <- <-].
  - split; [unfold total; cbn; lia|]. right. split; [by left|]. intros c2 ext.
    rewrite (proj2 (logged_true (db ++ ext) user call when)); [done|].
    apply logged_true in El as (q & Hq & H). exists q. split; [|done]. apply elem_of_app. by left.
  - split; [unfold total; cbn; lia|]. right. split; [right; by eexists|]. intros c2 ext.
    rewrite (proj2 (logged_true _ user call when)); [done|].
    exists (imported user call when r). split_and!; try done.
    { rewrite !elem_of_app, list_elem_of_singleton. auto. }
    all: cbn; rewrite stamp_in_minute; apply parse_adif_when_valid in Ew as [Hv _];
      apply dt_valid_second in Hv; unfold one_minute; lia.
Qed.

Lemma import_records_again user rs c db c' db' :
  import_records user rs (c, db) = Ok (c', db') ->
  total c' = total c + zlen rs /\ errors c <= errors c' /\ (exists ext, db' = db ++ ext)
  /\ forall c2 ext, import_records user rs (c2, db' ++ ext)
       = Ok (Build_Counts (created c2)
                 (duplicates c2 + (created c' - created c) + (duplicates c' - duplicates c))
                 (errors c2 + (errors c' - errors c)), db' ++ ext).
Proof.
  revert c db. induction rs as [|r rs IH]; intros c db E; cbn [import_records] in E.
  { injection E as <- <-. split_and!; [change (zlen []) with 0; lia|lia|exists []; by rewrite app_nil_r|].
    intros [cr du er] ext. cbn. do 3 f_equal; lia. }
  destruct (import_record user r (c, db)) as [[c1 db1]|] eqn:E1; [|done]. rename E into E2.
  apply import_record_cases in E1 as (Ht & Hcase).
  apply IH in E2 as (Ht2 & He & [ext0 ->] & Hagain).
  rewrite zlen_cons. cbn [import_records].
  destruct Hcase as [(-> & -> & Hr)|(Hdb & Hr)].
  - split_and!; [lia|cbn in He; lia|by eexists|]. intros c2 ext. rewrite Hr.
    rewrite Hagain. cbn. do 3 f_equal; lia.
  - split_and!; [lia| | |].
    + destruct Hdb as [[-> _]|(q & -> & _)]; cbn in He; lia.
    + destruct Hdb as [[_ ->]|(q & _ & ->)]; rewrite <- ?app_assoc; by eexists.
    + intros c2 ext. rewrite <- app_assoc, Hr. rewrite app_assoc, Hagain.
      destruct Hdb as [[-> _]|(q & -> & _)]; cbn; do 3 f_equal; lia.
Qed.

(** importing is idempotent: importing the same ADIF text again changes
    nothing and reports as duplicates everything the first import created or
    found, with the same errors; every record is counted once. *)
Theorem import_idempotent (user : Z) (text : pystr) (db db' : list QSO) (c : Counts) :
  import_adif user text db = Ok (c, db') ->
  import_adif user text db' = Ok (Build_Counts 0 (created c + duplicates c) (errors c), db')
  /\ total c = zlen (parse_adif text)
  /\ exists ext, db' = db ++ ext.
Proof.
  unfold import_adif. generalize (parse_adif text). intros records E.
  apply import_records_again in E as (Ht & _ & Hext & Hagain).
  specialize (Hagain (Build_Counts 0 0 0) []). rewrite app_nil_r in Hagain.
  cbn [created duplicates errors] in Hagain. unfold total in *. cbn [created duplicates errors] in Ht.
  rewrite Hagain. split_and!; [do 3 f_equal; lia|lia|done].
Qed.

(** ** Re-importing one's own log *)

Lemma lookup_set_fields (fs : list (pystr * pystr)) (m : adif_record) k :
  k ∉ (fun f => lower f.1) <$> fs -> foldl set_field m fs !! k = m !! k.
Proof.
  revert m. induction fs as [|f fs IH]; intros m Hk; [done|].
  apply not_elem_of_cons in Hk as [Hk Hk']. cbn [foldl]. rewrite IH by done.
  unfold set_field. by rewrite lookup_insert_ne.
Qed.

(** The optional fields never shadow the first four. *)
Lemma optional_names station q k :
  k ∈ [u "call"; u "qso_date"; u "time_on"; u "mode"] ->
  k ∉ (fun f => lower f.1) <$> drop 4 (fields station q).
Proof.
  intros Hk Hin. assert (Forall (fun f : pystr * pystr => lower f.1 ∉
    [u "call"; u "qso_date"; u "time_on"; u "mode"]) (drop 4 (fields station q))) as HF.
  { unfold fields, opt_field. cbn [drop app]. repeat (apply Forall_app; split).
    all: repeat case_match; try (apply Forall_cons; split; [by_compute|]); constructor. }
  apply list_elem_of_fmap in Hin as (f & -> & Hf). rewrite Forall_forall in HF. by apply (HF f Hf).
Qed.

Lemma record_of_get station q :
  get (record_of (fields station q)) (u "call") = qs_call q
  /\ get (record_of (fields station q)) (u "qso_date") = fmt_date (qs_when q)
  /\ get (record_of (fields station q)) (u "time_on") = fmt_time (qs_when q).
Proof.
  unfold get, record_of.
  assert (fields station q = [(u "call", qs_call q); (u "qso_date", fmt_date (qs_when q));
    (u "time_on", fmt_time (qs_when q)); (u "mode", qs_mode q)] ++ drop 4 (fields station q)) as E by done.
  rewrite E, foldl_app. cbn [foldl].
  split_and!; rewrite lookup_set_fields by (apply optional_names; by_compute); unfold set_field; cbn [fst snd].
  - change (lower (u "call")) with (u "call"). rewrite 3!lookup_insert_ne by by_compute. by rewrite lookup_insert_eq.
  - change (lower (u "qso_date")) with (u "qso_date"). rewrite 2!lookup_insert_ne by by_compute. by rewrite lookup_insert_eq.
  - change (lower (u "time_on")) with (u "time_on"). rewrite 1!lookup_insert_ne by by_compute. by rewrite lookup_insert_eq.
Qed.

Lemma decimals_no_space w : forallb is_decimal w = true -> no_space w.
Proof. intros H%forallb_Forall. eapply Forall_impl; [exact H|]. apply decimal_no_space. Qed.

Lemma slice_parts (a b c : pystr) :
  slice_to (zlen a) (a ++ b ++ c) = a
  /\ slice (zlen a) (zlen a + zlen b) (a ++ b ++ c) = b
  /\ slice (zlen a + zlen b) (zlen a + zlen b + zlen c) (a ++ b ++ c) = c.
Proof.
  unfold slice_to, slice, zlen. rewrite !Nat2Z.id. split_and!.
  - apply take_app_length.
  - rewrite drop_app_length. replace (Z.to_nat _) with (length b) by lia. apply take_app_length.
  - replace (Z.to_nat (Z.of_nat (length a) + Z.of_nat (length b))) with (length (a ++ b)) by (rewrite length_app; lia).
    rewrite app_assoc, drop_app_length. replace (Z.to_nat _) with (length c) by lia. apply firstn_all.
Qed.

(** Reading back the date and time of a contact. *)
Lemma when_roundtrip station q :
  dt_valid (qs_when q) = true -> 1000 <= dt_year (qs_when q) ->
  parse_adif_when (record_of (fields station q)) = Some (qs_when q <| dt_micro := 0 |>).
Proof.
  intros Hv Hy. destruct (record_of_get station q) as (_ & Hd & Ht).
  unfold parse_adif_when. rewrite Hd, Ht. destruct (qs_when q) as [y m d hh mm ss us].
  unfold fmt_date, fmt_time. cbn [dt_year dt_month dt_day dt_hour dt_minute dt_second dt_micro] in *.
  unfold dt_valid, within in Hv. cbn [dt_year dt_month dt_day dt_hour dt_minute dt_second dt_micro] in Hv.
  assert (days_in_month y m <= 31) as Hdm by (unfold days_in_month; repeat case_match; lia).
  bool_to_prop.
  destruct (year_spec y) as [Ly Dy]; [lia|]. pose proof (parse_int_dec y ltac:(lia)) as Py.
  destruct (pad2_spec m) as (Lm & Dm & Pm); [lia|]. destruct (pad2_spec d) as (Ld & Dd & Pd); [lia|].
  destruct (pad2_spec hh) as (Lh & Dh & Ph); [lia|]. destruct (pad2_spec mm) as (Lmm & Dmm & Pmm); [lia|].
  destruct (pad2_spec ss) as (Ls & Ds & Ps); [lia|].
  assert (forallb is_decimal (dec y ++ pad2 m ++ pad2 d) = true) as Ddate
    by (rewrite !forallb_app; by rewrite Dy, Dm, Dd).
  assert (forallb is_decimal (pad2 hh ++ pad2 mm ++ pad2 ss) = true) as Dtime
    by (rewrite !forallb_app; by rewrite Dh, Dmm, Ds).
  rewrite !strip_no_space by by apply decimals_no_space.
  assert (zlen (dec y) = 4 /\ zlen (pad2 m) = 2 /\ zlen (pad2 d) = 2 /\ zlen (pad2 hh) = 2
          /\ zlen (pad2 mm) = 2 /\ zlen (pad2 ss) = 2) as (Zy & Zm & Zd & Zh & Zmm & Zs)
    by (unfold zlen; lia).
  assert (zlen (dec y ++ pad2 m ++ pad2 d) = 8) as Z8 by (rewrite !zlen_app; lia).
  assert (zlen (pad2 hh ++ pad2 mm ++ pad2 ss) = 6) as Z6 by (rewrite !zlen_app; lia).
  assert (nonempty (pad2 hh ++ pad2 mm ++ pad2 ss) = true) as Hne by (by destruct (pad2 hh)).
  assert (isdigit (dec y ++ pad2 m ++ pad2 d) = true) as Hdig.
  { unfold isdigit. apply andb_true_iff. split; [by destruct (dec y)|].
    apply forallb_Forall. apply forallb_Forall in Ddate. eapply Forall_impl; [exact Ddate|].
    intros c Hc. unfold is_digit. by rewrite Hc. }
  rewrite Hne, Z8, Hdig. cbn [negb orb Z.eqb Pos.eqb].
  unfold ljust. rewrite Z6. change (repeat 48 (Z.to_nat (6 - 6))) with (@nil Z). rewrite !app_nil_r.
  pose proof (slice_parts (dec y) (pad2 m) (pad2 d)) as (S1 & S2 & S3).
  pose proof (slice_parts (pad2 hh) (pad2 mm) (pad2 ss)) as (T1 & T2 & T3).
  rewrite Zy, Zm in S2; rewrite Zy, Zm, Zd in S3; rewrite Zy in S1.
  rewrite Zh, Zmm in T2; rewrite Zh, Zmm, Zs in T3; rewrite Zh in T1.
  change (4 + 2 + 2) with 8 in S3. change (4 + 2) with 6 in S2, S3. change (2 + 2 + 2) with 6 in T3. change (2 + 2) with 4 in T2, T3.
  rewrite S1, S2, S3, T1, T2, T3, Py, Pm, Pd, Ph, Pmm, Ps. cbn [mbind option_bind].
  unfold mk_datetime, dt_valid, within.
  cbn [dt_year dt_month dt_day dt_hour dt_minute dt_second dt_micro].
  rewrite !(proj2 (Z.leb_le _ _)) by lia. done.
Qed.

(** A contact the export writes without loss of identity. *)
Definition exportable (user : Z) (q : QSO) : Prop :=
  qs_user q = user /\ qs_call q <> [] /\ upper (strip (qs_call q)) = qs_call q
  /\ dt_valid (qs_when q) = true /\ 1000 <= dt_year (qs_when q)
  /\ minute_lo (qs_when q <| dt_micro := 0 |>) + one_minute <= MAX_STAMP.

Lemma reimport_record user station q c db :
  exportable user q -> q ∈ db ->
  import_record user (record_of (fields station q)) (c, db)
  = Some (c <| duplicates := duplicates c + 1 |>, db).
Proof.
  intros (Hu & Hne & Hup & Hv & Hy & Hmax) Hin. unfold import_record.
  rewrite when_roundtrip by done. destruct (record_of_get station q) as (-> & _ & _). rewrite Hup.
  assert (nonempty (qs_call q) = true) as -> by (by apply nonempty_true). cbn [negb].
  rewrite (proj2 (Z.ltb_ge _ _)) by lia.
  rewrite (proj2 (logged_true _ _ _ _)); [done|]. exists q. split_and!; try done.
  all: apply dt_valid_second in Hv; rewrite stamp_in_minute; unfold dt_stamp, dt_ordinal, one_minute;
    destruct (qs_when q) as [y m d h mi s us]; cbn [dt_year dt_month dt_day dt_hour dt_minute dt_second dt_micro] in *; cbn; lia.
Qed.

(** exporting a log and importing the text back into it changes nothing and
    counts every contact as a duplicate: the exported date, time and call
    identify the row they came from, whatever the other fields hold. *)
Theorem reimport_own_export (user : Z) (station_call : pystr) (qsos db : list QSO) :
  Forall (exportable user) qsos -> qsos ⊆ db ->
  import_adif user (adif_export qsos station_call) db = Ok (Build_Counts 0 (zlen qsos) 0, db).
Proof.
  unfold import_adif. rewrite parse_export. intros Hq Hdb.
  cut (forall n, import_records user ((fun q => record_of (fields station_call q)) <$> qsos)
                   (Build_Counts 0 n 0, db) = Ok (Build_Counts 0 (n + zlen qsos) 0, db)).
  { intros H. by rewrite H. }
  induction Hq as [|q qs Hq Hqs IH]; intros n.
  { unfold zlen. cbn. by rewrite Z.add_0_r. }
  cbn [fmap list_fmap import_records]. rewrite reimport_record by (done || apply Hdb, list_elem_of_here).
  cbn [created duplicates errors].
  change (Build_Counts 0 n 0 <| duplicates := n + 1 |>) with (Build_Counts 0 (n + 1) 0).
  rewrite IH by (intros x Hx; by apply Hdb, list_elem_of_further). rewrite zlen_cons. do 3 f_equal. lia.
Qed.

(** ** Bands *)

(** Two bands that contain the same frequency have the same name. *)
Lemma in_band_name f b b' :
  b ∈ BANDS -> b' ∈ BANDS -> in_band f b = true -> in_band f b' = true -> b.2 = b'.2.
Proof.
  intros Hb Hb' Hin Hin'.
  assert (Forall (fun b => Forall (fun b' => str_eqb b.2 b'.2 || negb (num_leb b.1.1 b'.1.2)
                                             || negb (num_leb b'.1.1 b.1.2) = true) BANDS) BANDS) as HF
    by by_compute.
  rewrite Forall_forall in HF. specialize (HF _ Hb). rewrite Forall_forall in HF.
  specialize (HF _ Hb'). unfold in_band in *. apply andb_true_iff in Hin as [H1 H2], Hin' as [H3 H4].
  assert (num_leb b.1.1 b'.1.2 = true) as E1 by exact (float_leb_trans _ _ _ H1 H4).
  assert (num_leb b'.1.1 b.1.2 = true) as E2 by exact (float_leb_trans _ _ _ H3 H2).
  rewrite E1, E2 in HF. cbn [negb] in HF. rewrite !orb_false_r in HF.
  unfold str_eqb in HF. by bool_to_prop.
Qed.

Lemma band_found f b :
  b ∈ BANDS -> in_band f b = true -> num_eqb f (num_of_Z 0) = false -> band_for_freq (Some f) = b.2.
Proof.
  intros Hb Hin Hz. unfold band_for_freq, truthy. rewrite Hz.
  destruct (List.find (in_band f) BANDS) as [b'|] eqn:E.
  - apply List.find_some in E as [Hb' Hin']. apply list_elem_of_In in Hb'. by apply (in_band_name f).
  - exfalso. apply list_elem_of_In in Hb. apply (List.find_none _ _ E) in Hb. congruence.
Qed.

Lemma band_not_found f : (forall b, b ∈ BANDS -> in_band f b = false) -> band_for_freq (Some f) = [].
Proof.
  intros Hn. unfold band_for_freq, truthy. destruct (num_eqb f (num_of_Z 0)); [done|].
  destruct (List.find (in_band f) BANDS) as [b|] eqn:Eb; [|done].
  apply List.find_some in Eb as [Hb Hin]. apply list_elem_of_In in Hb. by rewrite (Hn b) in Hin.
Qed.

(** a frequency is in at most one band, so the order of the table never
    matters: the band found is the only one whose limits, both included,
    contain the frequency; and a missing, zero or not-a-number frequency has
    no band. *)
Theorem band_for_freq_unique (freq : option float) :
  (forall f b, freq = Some f -> b ∈ BANDS -> in_band f b = true ->
     num_eqb f (num_of_Z 0) = false -> band_for_freq freq = b.2)
  /\ ((forall b f, freq = Some f -> b ∈ BANDS -> in_band f b = false) -> band_for_freq freq = []).
Proof.
  split; [intros f b ->; apply band_found|]. intros Hn. destruct freq as [f|]; [|done].
  apply band_not_found. intros b. by apply Hn.
Qed.

(** ** Concrete logs *)

Definition sample_qso : QSO := {|
  qs_user := 1; qs_call := u "W1AW"; qs_when := Build_datetime 2024 2 29 13 5 9 1234;
  qs_freq_mhz := Some (lit 14055 1000); qs_band := u "20m"; qs_mode := u "CW";
  qs_rst_sent := u "599"; qs_rst_rcvd := []; qs_name := u "Hiram <EOR> Maxim"; qs_qth := [];
  qs_gridsquare := []; qs_country := []; qs_comment := u "wind  <call:3>up"; qs_session := None;
  qs_source := u "manual" |}.

Example reimport_own_export_witness :
  import_adif 1 (adif_export [sample_qso; sample_qso] (u "K1A")) [sample_qso]
  = Ok (Build_Counts 0 2 0, [sample_qso]).
Proof.
  apply (reimport_own_export 1 (u "K1A") [sample_qso; sample_qso] [sample_qso]).
  - assert (exportable 1 sample_qso) as H by (unfold exportable; split_and!; by_compute).
    by repeat constructor.
  - intros q Hq. rewrite !elem_of_cons in *. tauto.
Defined.

Example import_idempotent_witness :
  exists c db, import_adif 1 (adif_export [sample_qso] []) [] = Ok (c, db)
  /\ import_adif 1 (adif_export [sample_qso] []) db = Ok (Build_Counts 0 1 0, db).
Proof.
  destruct (import_adif 1 (adif_export [sample_qso] []) []) as [[c db]|db] eqn:E;
    [|exfalso; revert E; vm_compute; discriminate].
  exists c, db. split; [reflexivity|]. apply import_idempotent in E as H. destruct H as [H _].
  vm_compute in E. injection E as <- <-. exact H.
Defined.

Example band_for_freq_unique_witness :
  band_for_freq (Some (lit 7030 1000)) = u "40m".
Proof.
  pose proof (proj1 (band_for_freq_unique (Some (lit 7030 1000))) (lit 7030 1000)
    (num_of_Z 7, lit 73 10, u "40m") eq_refl) as W.
  apply W; [|reflexivity|reflexivity].
  do 3 apply list_elem_of_further. apply list_elem_of_here.
Defined.
