(* ===== verification/Sync.v ===== *)
(** * qrzlogbook.py, eqsl.py and the sync endpoints of api.py

    Sending the log to QRZ.com record by record and to eQSL.cc as one file,
    and fetching it back. The services are reached through one exchange with
    the outside world each; what the program does with their answers is here. *)
From S2P Require Import Prelude PyFloat PyStr Json Regex PyTime Credentials Logbook.
Open Scope Z_scope.

(** A row of the log as the two services see it. *)
Record Entry := {
  en_pk : Z;
  en_qso : QSO;
  en_qrz_sent : option datetime;
  en_eqsl_sent : option datetime;
}.
#[export] Instance eta_entry : Eta Entry := fun e =>
  Build_Entry (en_pk e) (en_qso e) (en_qrz_sent e) (en_eqsl_sent e).

(** [ordering = ["-when"]] *)
Fixpoint insert_newest (x : Entry) (l : list Entry) : list Entry :=
  match l with
  | [] => [x]
  | y :: l' => if dt_stamp (qs_when (en_qso y)) <? dt_stamp (qs_when (en_qso x)) then x :: l
               else y :: insert_newest x l'
  end.
Definition newest_first (l : list Entry) : list Entry := foldl (fun l x => insert_newest x l) [] l.

(** ** logbook.qrz.com *)

Definition not_amp (c : Z) : bool := negb (c =? 38).

(** [_field]: [re.search(rf"{name}=([^&]*)", body)] *)
Definition field (body name : pystr) : pystr :=
  match search (RSeq (r_lit (name ++ u "=")) (RGroup 1 (r_star not_amp))) body with
  | Some (_, m) => group 1 m
  | None => []
  end.

Inductive Outcome := Inserted | Duplicate.

Section QRZLogbook.
Context {W : Type}.
(** One form POST: the answer's text, or the text of the transport error. *)
Context (post_form : list (pystr * pystr) -> W -> result pystr pystr * W).
(** [html.unescape] *)
Context (unescape : pystr -> pystr).

(** [_call] *)
Definition call (params : list (pystr * pystr)) (w : W) : result pystr pystr * W :=
  match post_form params w with
  | (Ok body, w) => (Ok body, w)
  | (Err e, w) => (Err (u "logbook.qrz.com unreachable (" ++ e ++ u ")"), w)
  end.

Definition fetch_adif (key : pystr) (w : W) : result pystr pystr * W :=
  match call [(u "KEY", key); (u "ACTION", u "FETCH"); (u "OPTION", u "TYPE:ADIF")] w with
  | (Err e, w) => (Err e, w)
  | (Ok body, w) =>
      if negb (bool_decide (field body (u "RESULT") ∈ [u "OK"; u "AUTH"])) then
        (Err (u "QRZ logbook fetch failed: " ++ or_else (unescape (field body (u "REASON"))) (slice_to 120 body)), w)
      else
        match search (RSeq (r_lit (u "ADIF=")) (RGroup 1 (r_star (fun _ => true)))) body with
        | None => (Ok [], w)
        | Some (_, m) => (Ok (unescape (group 1 m)), w)
        end
  end.

(** What an answer to an INSERT says. *)
Definition insert_verdict (body : pystr) : result pystr Outcome :=
  let result := field body (u "RESULT") in
  if str_eqb result (u "OK") then Ok Inserted
  else
    let reason := unescape (field body (u "REASON")) in
    if bool_decide (result ∈ [u "FAIL"; u "REPLACE"]) && contains (u "duplicate") (lower reason)
    then Ok Duplicate
    else Err (u "QRZ logbook insert failed: " ++ or_else reason (slice_to 120 body)).

Definition insert_params (key adif_record : pystr) : list (pystr * pystr) :=
  [(u "KEY", key); (u "ACTION", u "INSERT"); (u "ADIF", adif_record)].

Definition insert_record (key adif_record : pystr) (w : W) : result pystr Outcome * W :=
  match call (insert_params key adif_record) w with
  | (Err e, w) => (Err e, w)
  | (Ok body, w) => (insert_verdict body, w)
  end.

(** ** qrz_logbook_sync *)

(** [adif.split("<EOH>", 1)[-1]] *)
Definition after_eoh (adif : pystr) : pystr :=
  match find (u "<EOH>") adif with
  | Some i => drop (i + length (u "<EOH>")) adif
  | None => adif
  end.

Definition posted_record (q : QSO) : pystr := strip (after_eoh (adif_export [q] [])).

(** [qso.qrz_sent_at = now; qso.save(update_fields=["qrz_sent_at"])] *)
Definition mark_qrz (now : datetime) (pk : Z) (db : list Entry) : list Entry :=
  (fun e => if en_pk e =? pk then e <| en_qrz_sent := Some now |> else e) <$> db.

(** The loop of the export, up to its end or the first failure. *)
Fixpoint export_loop (now : datetime) (key : pystr) (todo : list Entry) (exported duplicates : Z)
    (db : list Entry) (w : W) : option pystr * Z * Z * list Entry * W :=
  match todo with
  | [] => (None, exported, duplicates, db, w)
  | qso :: todo =>
      match insert_record key (posted_record (en_qso qso)) w with
      | (Err e, w) => (Some e, exported, duplicates, db, w)
      | (Ok outcome, w) =>
          let '(exported, duplicates) :=
            match outcome with Duplicate => (exported, duplicates + 1) | Inserted => (exported + 1, duplicates) end in
          export_loop now key todo exported duplicates (mark_qrz now (en_pk qso) db) w
      end
  end.

(** [QSO.objects.filter(user=user, qrz_sent_at__isnull=True)] *)
Definition unsent_qrz (user : Z) (db : list Entry) : list Entry :=
  newest_first (List.filter (fun e => (qs_user (en_qso e) =? user) && bool_decide (en_qrz_sent e = None)) db).

Inductive SyncAnswer :=
| ImportedFromQrz (counts : Counts)
| Exported (exported duplicates : Z)
| NothingNew.

Definition qrz_export (now : datetime) (key : pystr) (user : Z) (db : list Entry) (w : W) :
    result Failure SyncAnswer * list Entry * W :=
  match unsent_qrz user db with
  | [] => (Ok NothingNew, db, w)
  | qsos =>
      match export_loop now key qsos 0 0 db w with
      | (None, exported, duplicates, db, w) => (Ok (Exported exported duplicates), db, w)
      | (Some e, exported, duplicates, db, w) =>
          (Err (ApiError (e ++ u " — " ++ str_of_Z (exported + duplicates) ++ u " of "
                          ++ str_of_Z (zlen qsos) ++ u " sent before the failure") 502), db, w)
      end
  end.

(** Rows an import creates get the keys from [next] on. *)
Definition numbered (next : Z) (qs : list QSO) : list Entry :=
  imap (fun i q => {| en_pk := next + Z.of_nat i; en_qso := q; en_qrz_sent := None; en_eqsl_sent := None |}) qs.

Definition qrz_import (key : pystr) (user next : Z) (db : list Entry) (w : W) :
    result Failure SyncAnswer * list Entry * W :=
  match fetch_adif key w with
  | (Err e, w) => (Err (ApiError e 502), db, w)
  | (Ok adif, w) =>
      match import_adif user adif (en_qso <$> db) with
      | Err qs => (Err Uncaught, db ++ numbered next (drop (length db) qs), w)
      | Ok (counts, qs) => (Ok (ImportedFromQrz counts), db ++ numbered next (drop (length db) qs), w)
      end
  end.

(** [key] is the operator's decrypted logbook key, empty without one. *)
Definition qrz_logbook_sync (now : datetime) (key : pystr) (user next : Z) (data : json) (db : list Entry) (w : W) :
    result Failure SyncAnswer * list Entry * W :=
  if negb (nonempty key) then (Err (ApiError (u "No QRZ logbook API key configured yet.") 400), db, w)
  else
    let action := match data with JObj d => jget_null (u "action") d | _ => JNull end in
    match action with
    | JStr a =>
        if str_eqb a (u "import") then qrz_import key user next db w
        else if str_eqb a (u "export") then qrz_export now key user db w
        else (Err (ApiError (u "action must be 'import' or 'export'") 400), db, w)
    | _ => (Err (ApiError (u "action must be 'import' or 'export'") 400), db, w)
    end.
End QRZLogbook.

(** ** eQSL.cc *)

(** [_with_credentials] *)
Definition eqsl_header (username password : pystr) : pystr :=
  adif_field (u "EQSL_USER", username) ++ u " " ++ adif_field (u "EQSL_PSWD", password) ++ [10].

Definition with_credentials (adif username password : pystr) : pystr :=
  let header := eqsl_header username password in
  match search EOH adif with
  | Some (i, _) => take i adif ++ header ++ drop i adif
  | None => header ++ u "<EOH>" ++ [10] ++ adif
  end.

(** [re.sub(r"<[^>]+>", " ", html)] *)
Definition HTML_TAG : regex := r_seq [r_char 60; r_plus (fun c => negb (c =? 62)); r_char 62].
Fixpoint sub_space (r : regex) (skip : nat) (prev : option Z) (s : pystr) : pystr :=
  match s with
  | [] => []
  | c :: s' =>
      match skip with
      | S k => sub_space r k (Some c) s'
      | O =>
          match match_at r prev s with
          | Some m => 32 :: sub_space r (pred (length (m_text m))) (Some c) s'
          | None => c :: sub_space r 0 (Some c) s'
          end
      end
  end.
Definition page_text (html : pystr) : pystr := join (u " ") (words (sub_space HTML_TAG 0 None html)).

Definition not_line_feed (c : Z) : bool := negb (c =? 10).
Definition EQSL_REJECTED : regex :=
  RAlt (r_lit_ci (u "no such username"))
    (RAlt (RSeq (r_lit_ci (u "password")) (RSeq (RRep true not_line_feed 0 (Some 20%nat)) (r_lit_ci (u "incorrect"))))
       (r_lit_ci (u "error:"))).
Definition EQSL_RESULT : regex :=
  r_seq [r_lit_ci (u "Result:"); r_star is_space; RGroup 1 (r_plus is_decimal); r_star is_space;
         r_lit_ci (u "out of"); r_star is_space; RGroup 2 (r_plus is_decimal)].

Record EqslVerdict := { ev_added : option Z; ev_of : option Z; ev_message : pystr }.

Definition eqsl_verdict (html : pystr) : result pystr EqslVerdict :=
  match search EQSL_REJECTED html with
  | Some _ => Err (u "eQSL rejected the upload: " ++ slice_to 160 (page_text html))
  | None =>
      match search EQSL_RESULT html with
      | Some (_, m) =>
          Ok {| ev_added := parse_int (group 1 m); ev_of := parse_int (group 2 m); ev_message := m_text m |}
      | None => Ok {| ev_added := None; ev_of := None; ev_message := slice_to 200 (page_text html) |}
      end
  end.

Section EQSL.
Context {W : Type}.
(** One multipart POST of the payload as a file. *)
Context (post_file : pystr -> W -> result pystr pystr * W).
(** The database's case-blind [icontains]. *)
Context (icontains : pystr -> pystr -> bool).

Definition upload_adif (username password adif : pystr) (w : W) : result pystr EqslVerdict * W :=
  match post_file (with_credentials adif username password) w with
  | (Err e, w) => (Err (u "eQSL unreachable (" ++ e ++ u ")"), w)
  | (Ok html, w) => (eqsl_verdict html, w)
  end.

(** [_filtered_qsos]: the query parameters [q], [band] and [mode]. *)
Record LogFilter := { lf_q : pystr; lf_band : pystr; lf_mode : pystr }.

Definition passes_filter (user : Z) (lf : LogFilter) (e : Entry) : bool :=
  let qso := en_qso e in
  let q := strip (lf_q lf) in let band := strip (lf_band lf) in let mode := strip (lf_mode lf) in
  (qs_user qso =? user)
  && (negb (nonempty q) || icontains q (qs_call qso) || icontains q (qs_name qso)
      || icontains q (qs_qth qso) || icontains q (qs_comment qso))
  && (negb (nonempty band) || str_eqb (qs_band qso) band)
  && (negb (nonempty mode) || str_eqb (qs_mode qso) mode).

Definition filtered_qsos (user : Z) (lf : LogFilter) (db : list Entry) : list Entry :=
  newest_first (List.filter (passes_filter user lf) db).

Definition log_adif (user : Z) (lf : LogFilter) (station_call : pystr) (db : list Entry) : pystr :=
  adif_export (en_qso <$> filtered_qsos user lf db) station_call.

(** The rows an upload takes: [.filter(eqsl_sent_at__isnull=True)] unless the
    operator asked for a resend. *)
Definition eqsl_todo (user : Z) (lf : LogFilter) (data : json) (db : list Entry) : list Entry :=
  let resend := match data with JObj d => jtruthy (jget_null (u "resend") d) | _ => false end in
  newest_first (List.filter (fun e => passes_filter user lf e && (resend || bool_decide (en_eqsl_sent e = None))) db).

(** [QSO.objects.filter(pk__in=[...]).update(eqsl_sent_at=now)] *)
Definition mark_eqsl (now : datetime) (pks : list Z) (db : list Entry) : list Entry :=
  (fun e => if bool_decide (en_pk e ∈ pks) then e <| en_eqsl_sent := Some now |> else e) <$> db.

(** The number uploaded, with eQSL's message when something was. *)
Definition log_eqsl_upload (now : datetime) (profile : option (pystr * pystr)) (station_call : pystr) (user : Z)
    (lf : LogFilter) (data : json) (db : list Entry) (w : W) :
    result Failure (Z * pystr) * list Entry * W :=
  match profile with
  | Some (username, password) =>
      if negb (nonempty username) || negb (nonempty password)
      then (Err (ApiError (u "eQSL credentials aren't configured yet.") 400), db, w)
      else
        match eqsl_todo user lf data db with
        | [] => (Ok (0, u "Nothing new to send."), db, w)
        | qsos =>
            match upload_adif username password (adif_export (en_qso <$> qsos) station_call) w with
            | (Err e, w) => (Err (ApiError e 502), db, w)
            | (Ok verdict, w) =>
                (Ok (zlen qsos, ev_message verdict), mark_eqsl now (en_pk <$> qsos) db, w)
            end
        end
  | None => (Err (ApiError (u "eQSL credentials aren't configured yet.") 400), db, w)
  end.
End EQSL.
