(* ===== verification/SyncFacts.v ===== *)
(** * Sending the log out: each contact once, credentials beside the records *)
From stdpp Require Import sorting.
From S2P Require Import Prelude PyFloat PyStr Json Regex PyTime Credentials Logbook LogbookFacts Sync.
Open Scope Z_scope.

(** ** The order of the rows *)

Local Notation stamp e := (dt_stamp (qs_when (en_qso e))).
Local Notation newer := (fun x y => stamp y <= stamp x).

Lemma insert_newest_in x y l : y ∈ insert_newest x l <-> y = x \/ y ∈ l.
Proof.
  induction l as [|z l IH]; cbn; [by rewrite list_elem_of_singleton, elem_of_nil; tauto|].
  case_match; rewrite !elem_of_cons; [done|]. rewrite IH. tauto.
Qed.

Lemma insert_newest_sorted x l : StronglySorted newer l -> StronglySorted newer (insert_newest x l).
Proof.
  induction 1 as [|y l Hl IH Hy]; cbn; [by repeat constructor|].
  rewrite Forall_forall in Hy. destruct (Z.ltb_spec (stamp y) (stamp x)) as [Hlt|Hge].
  - constructor; [by constructor; [|rewrite Forall_forall]|]. rewrite Forall_forall.
    intros z [->|Hz]%elem_of_cons; [lia|]. specialize (Hy z Hz). cbn in Hy. lia.
  - constructor; [done|]. rewrite Forall_forall. intros z [->|Hz]%insert_newest_in; [lia|]. by apply Hy.
Qed.

Lemma insert_newest_head x l : Forall (fun y => stamp y < stamp x) l -> insert_newest x l = x :: l.
Proof. intros H. destruct H as [|y l Hy _]; cbn; [done|]. by rewrite (proj2 (Z.ltb_lt _ _)). Qed.

Lemma filter_insert (p : Entry -> bool) x l :
  StronglySorted newer l ->
  List.filter p (insert_newest x l) = if p x then insert_newest x (List.filter p l) else List.filter p l.
Proof.
  induction 1 as [|y l Hl IH Hy]; cbn; [done|]. destruct (Z.ltb_spec (stamp y) (stamp x)) as [Hlt|Hge].
  - cbn [List.filter]. destruct (p x); [|done]. symmetry. apply insert_newest_head.
    rewrite Forall_forall in Hy |- *. intros z Hz. change (z ∈ List.filter p (y :: l)) in Hz.
    rewrite list_elem_of_In, filter_In, <- list_elem_of_In in Hz. destruct Hz as [[->|Hz]%elem_of_cons _]; [done|].
    specialize (Hy z Hz). cbn in Hy. lia.
  - cbn [List.filter]. rewrite IH. destruct (p y), (p x); try done. cbn. by rewrite (proj2 (Z.ltb_ge _ _)).
Qed.

Lemma newest_first_filter (p : Entry -> bool) l : newest_first (List.filter p l) = List.filter p (newest_first l).
Proof.
  unfold newest_first. cut (forall acc, StronglySorted newer acc ->
    foldl (fun l x => insert_newest x l) (List.filter p acc) (List.filter p l)
    = List.filter p (foldl (fun l x => insert_newest x l) acc l)); [intros H; apply (H []); constructor|].
  induction l as [|x l IH]; intros acc Hacc; [done|]. cbn [List.filter foldl].
  rewrite <- IH by by apply insert_newest_sorted. rewrite filter_insert by done. by destruct (p x).
Qed.

Lemma newest_first_perm l : newest_first l ≡ₚ l.
Proof.
  unfold newest_first. cut (forall acc, foldl (fun l x => insert_newest x l) acc l ≡ₚ acc ++ l); [intros H; apply H|].
  assert (forall x acc, insert_newest x acc ≡ₚ x :: acc) as Hins.
  { intros x acc. induction acc as [|y acc IH]; cbn; [done|]. case_match; [done|]. rewrite IH. apply Permutation_swap. }
  induction l as [|x l IH]; intros acc; cbn; [by rewrite app_nil_r|]. rewrite IH, Hins. apply Permutation_middle.
Qed.

Lemma filter_all_true {A} (p : A -> bool) l : Forall (fun x => p x = true) l -> List.filter p l = l.
Proof. induction 1 as [|x l Hx _ IH]; cbn; [done|]. by rewrite Hx, IH. Qed.

(** ** One record of the export *)

Lemma strip_between a w b c d :
  forallb is_space a = true -> forallb is_space b = true -> head w = Some c -> last w = Some d ->
  is_space c = false -> is_space d = false -> strip (a ++ w ++ b) = w.
Proof.
  intros Ha Hb Hc Hd Hsc Hsd.
  assert (forall a w c, forallb is_space a = true -> head w = Some c -> is_space c = false ->
    lstrip_by is_space (a ++ w) = w) as Hl.
  { clear. intros a w c Ha Hc Hs. apply forallb_Forall in Ha. induction Ha as [|x a Hx _ IH]; cbn.
    - destruct w as [|y w]; [done|]. cbn in *. injection Hc as ->. by rewrite Hs.
    - by rewrite Hx. }
  unfold strip, strip_by, rstrip_by. rewrite (Hl a (w ++ b) c) by (done || by destruct w).
  rewrite rev_app_distr, (Hl (rev b) (rev w) d); [apply rev_involutive|..|done].
  - rewrite forallb_Forall in *. by apply List.Forall_rev.
  - apply last_Some in Hd as [l ->]. by rewrite rev_app_distr.
Qed.

Lemma record_line_head station q : head (record_line station q) = Some 60.
Proof.
  unfold record_line. destruct (fields_cons station q) as (f & fs & ->). rewrite fmap_cons, join_cons_space. done.
Qed.

Lemma record_line_last station q : last (record_line station q) = Some 62.
Proof. unfold record_line. rewrite last_app. done. Qed.

(** The export posts exactly the line of the contact. *)
Lemma posted_record_line q : posted_record q = record_line [] q.
Proof.
  unfold posted_record, adif_export. rewrite join_prefix by done. cbn [fmap list_fmap].
  pose proof (record_line_head [] q) as Hh. pose proof (record_line_last [] q) as Hl.
  generalize dependent (record_line [] q). intros line Hh Hl.
  change (mjoin [[10] ++ line]) with (([10] ++ line) ++ []). rewrite app_nil_r.
  assert (after_eoh ((join [10] adif_header ++ [10] ++ line) ++ [10]) = [10; 10] ++ line ++ [10]) as ->.
  { unfold after_eoh.
    assert (find (u "<EOH>") ((join [10] adif_header ++ [10] ++ line) ++ [10]) = find (u "<EOH>") (join [10] adif_header)) as ->
      by (vm_compute; reflexivity).
    vm_compute. reflexivity. }
  by eapply strip_between.
Qed.

(** ** The export loop *)

(** The pages exchanged with the service, in order. *)
Notation history := (list (list (pystr * pystr) * result pystr pystr)).

Definition recorded {W} (post : list (pystr * pystr) -> W -> result pystr pystr * W)
    (params : list (pystr * pystr)) (lw : history * W) : result pystr pystr * (history * W) :=
  let '(r, w) := post params lw.2 in (r, (lw.1 ++ [(params, r)], w)).

Section ExportLoop.
Context {W : Type} (post : list (pystr * pystr) -> W -> result pystr pystr * W).
Context (unescape : pystr -> pystr) (key : pystr) (user : Z).
Implicit Types (db todo : list Entry) (log : history).

(** The posts the service took: as new, or as one it had. *)
Definition taken (x : list (pystr * pystr) * result pystr pystr) : option (list (pystr * pystr)) :=
  match x.2 with Ok body => if is_ok (insert_verdict unescape body) then Some x.1 else None | Err _ => None end.
Definition accepted log : list (list (pystr * pystr)) := omap taken log.

Definition post_of (e : Entry) : list (pystr * pystr) := insert_params key (posted_record (en_qso e)).

Lemma accepted_snoc log x : accepted (log ++ [x]) = accepted log ++ option_list (taken x).
Proof. unfold accepted. rewrite omap_app. cbn. by destruct (taken x). Qed.

Lemma insert_record_spec e log w r lw' :
  insert_record (recorded post) unescape key (posted_record (en_qso e)) (log, w) = (r, lw') ->
  exists x, lw'.1 = log ++ [x] /\ option_list (taken x) = if is_ok r then [post_of e] else [].
Proof.
  unfold insert_record, call, recorded. cbn [fst snd].
  destruct (post _ w) as [[body|err] w1]; intros [= <- <-]; eexists; (split; [reflexivity|]); [|done].
  unfold taken. cbn [fst snd]. by destruct (insert_verdict unescape body).
Qed.

Definition mark_all (now : datetime) (pks : list Z) db : list Entry := foldl (fun db pk => mark_qrz now pk db) db pks.

Lemma export_loop_spec now todo e d db log w err e' d' db' lw' :
  export_loop (recorded post) unescape now key todo e d db (log, w) = (err, e', d', db', lw') ->
  exists k, (k <= length todo)%nat
    /\ db' = mark_all now (en_pk <$> take k todo) db
    /\ accepted lw'.1 = accepted log ++ (post_of <$> take k todo)
    /\ e' + d' = e + d + Z.of_nat k
    /\ (err = None -> k = length todo)
    /\ (err <> None -> (k < length todo)%nat)
    /\ (length lw'.1 = length log + k + if err then 1 else 0)%nat.
Proof.
  revert e d db log w. induction todo as [|q todo IH]; intros e d db log w; cbn [export_loop].
  { intros [= <- <- <- <- <-]. exists O. cbn. rewrite app_nil_r. split_and!; (done || lia). }
  destruct (insert_record _ _ _ _ _) as [r lw1] eqn:E. apply insert_record_spec in E as (x & Hlog & Hx).
  destruct lw1 as [log1 w1]. cbn [fst] in Hlog. subst log1. destruct r as [out|err1].
  - destruct (match out with Duplicate => _ | Inserted => _ end) as [e1 d1] eqn:Hc.
    assert (e1 + d1 = e + d + 1) as He by (destruct out; simplify_eq; lia).
    intros H. apply IH in H as (k & Hk & -> & Ha & Hs & H1 & H2 & Hl). exists (S k).
    rewrite accepted_snoc, Hx in Ha. rewrite length_app in Hl. cbn [take fmap list_fmap length is_ok] in *.
    split_and!; try lia; try done.
    + rewrite Ha. by rewrite <- app_assoc.
    + intros Hn. by rewrite H1.
    + intros Hn. specialize (H2 Hn). lia.
  - intros [= <- <- <- <- <-]. exists O. cbn [take fmap list_fmap fst].
    rewrite accepted_snoc, Hx, length_app. cbn. split_and!; (done || lia).
Qed.

(** ** Marking *)

Definition pending (e : Entry) : bool := (qs_user (en_qso e) =? user) && bool_decide (en_qrz_sent e = None).

Lemma pending_mark now pk db :
  List.filter pending (mark_qrz now pk db) = List.filter (fun e => negb (en_pk e =? pk)) (List.filter pending db).
Proof.
  unfold mark_qrz. induction db as [|e db IH]; [done|]. rewrite fmap_cons. cbn [List.filter].
  rewrite IH. destruct (en_pk e =? pk) eqn:Hpk.
  - assert (pending (e <| en_qrz_sent := Some now |>) = false) as -> by (unfold pending; cbn; apply andb_false_r).
    destruct (pending e); [|done]. cbn. by rewrite Hpk.
  - destruct (pending e); [|done]. cbn. by rewrite Hpk.
Qed.

Lemma mark_qrz_pks now pk db : en_pk <$> mark_qrz now pk db = en_pk <$> db.
Proof. unfold mark_qrz. rewrite <- list_fmap_compose. apply list_fmap_ext. intros _ e _. cbn. by case_match. Qed.
Lemma mark_qrz_qsos now pk db : en_qso <$> mark_qrz now pk db = en_qso <$> db.
Proof. unfold mark_qrz. rewrite <- list_fmap_compose. apply list_fmap_ext. intros _ e _. cbn. by case_match. Qed.

Lemma unsent_mark now q todo db :
  NoDup (en_pk <$> db) -> unsent_qrz user db = q :: todo -> unsent_qrz user (mark_qrz now (en_pk q) db) = todo.
Proof.
  unfold unsent_qrz. change (fun e => _ && _) with pending. intros Hn Hq.
  rewrite pending_mark, newest_first_filter, Hq. cbn [List.filter]. rewrite Z.eqb_refl. cbn [negb].
  apply filter_all_true.
  assert (NoDup (en_pk <$> q :: todo)) as Hn'.
  { rewrite <- Hq. eapply NoDup_Permutation_proper; [apply fmap_Permutation, newest_first_perm|].
    clear Hq. induction db as [|e db IH]; [constructor|]. cbn [fmap list_fmap] in Hn. apply NoDup_cons in Hn as [He Hn].
    cbn [List.filter]. destruct (pending e); [|by apply IH]. cbn [fmap list_fmap]. apply NoDup_cons. split; [|by apply IH].
    intros Hin. apply He. apply list_elem_of_fmap in Hin as (y & Hy & Hin). apply list_elem_of_fmap. exists y.
    split; [done|]. apply list_elem_of_In, filter_In in Hin as [Hin _]. by apply list_elem_of_In. }
  cbn [fmap list_fmap] in Hn'. apply NoDup_cons in Hn' as [Hq' _]. rewrite Forall_forall. intros e He.
  apply negb_true_iff, Z.eqb_neq. intros Heq. apply Hq'. rewrite <- Heq. by apply list_elem_of_fmap_2.
Qed.

Lemma mark_all_spec now k db :
  NoDup (en_pk <$> db) -> (k <= length (unsent_qrz user db))%nat ->
  let db' := mark_all now (en_pk <$> take k (unsent_qrz user db)) db in
  unsent_qrz user db' = drop k (unsent_qrz user db) /\ en_pk <$> db' = en_pk <$> db /\ en_qso <$> db' = en_qso <$> db.
Proof.
  revert db. induction k as [|k IH]; intros db Hn Hk; [by rewrite drop_0|].
  destruct (unsent_qrz user db) as [|q todo] eqn:Hq; [cbn in Hk; lia|].
  pose proof (unsent_mark now q todo db Hn Hq) as Hm.
  specialize (IH (mark_qrz now (en_pk q) db)). rewrite Hm, mark_qrz_pks, mark_qrz_qsos in IH.
  cbn [take fmap list_fmap mark_all foldl drop]. apply IH; [done|cbn in Hk; lia].
Qed.
End ExportLoop.

(** ** Export requests, repeated *)

Section Exports.
Context {W : Type} (post : list (pystr * pystr) -> W -> result pystr pystr * W).
Context (unescape : pystr -> pystr) (key : pystr) (user : Z).

(** One export request after another, each at its own time. *)
Definition exports (nows : list datetime) (db : list Entry) (lw : history * W) : list Entry * (history * W) :=
  foldl (fun s now => let '(_, db, lw) := qrz_export (recorded post) unescape now key user s.1 s.2 in (db, lw)) (db, lw) nows.

Lemma qrz_export_spec now db log w r db' lw' :
  NoDup (en_pk <$> db) ->
  qrz_export (recorded post) unescape now key user db (log, w) = (r, db', lw') ->
  let todo := unsent_qrz user db in
  exists k, (k <= length todo)%nat
    /\ accepted unescape lw'.1 = accepted unescape log ++ (post_of key <$> take k todo)
    /\ unsent_qrz user db' = drop k todo
    /\ en_pk <$> db' = en_pk <$> db /\ en_qso <$> db' = en_qso <$> db
    /\ (length lw'.1 <= length log + k + 1)%nat
    /\ (is_ok r = true -> k = length todo).
Proof.
  intros Hn. unfold qrz_export. set (todo := unsent_qrz user db).
  destruct todo as [|q qs] eqn:Ht.
  { intros [= <- <- <-]. exists O. cbn. rewrite app_nil_r. split_and!; (done || lia). }
  rewrite <- Ht. destruct (export_loop _ _ _ _ _ _ _ _ _) as [[[[err e'] d'] db1] lw1] eqn:E.
  apply export_loop_spec in E as (k & Hk & Hdb & Ha & _ & H1 & _ & Hl).
  destruct (mark_all_spec user now k db Hn Hk) as (Hu & Hp & Hq). fold todo in Hu, Hp, Hq. rewrite <- Hdb in Hu, Hp, Hq.
  intros H. exists k. assert (db' = db1 /\ lw' = lw1 /\ (is_ok r = true -> err = None)) as (-> & -> & Hr)
    by (destruct err; by simplify_eq).
  split_and!; try done; [destruct err; lia|]. intros Hok. by apply H1, Hr.
Qed.

(** C38: Exporting the log to QRZ, whatever the service answers to each post and
    however often the operator repeats the export: the records the service
    took are exactly the first unsent contacts, newest first, each once and in
    order; what is left unsent is exactly the rest; no contact changes
    otherwise; and beside one post per contact taken there was at most one
    failed post per request, so every request ends. *)
Theorem export_exactly_once (nows : list datetime) (db db' : list Entry) (w w' : W) (log' : history) :
  NoDup (en_pk <$> db) -> exports nows db ([], w) = (db', (log', w')) ->
  let todo := unsent_qrz user db in
  exists k, (k <= length todo)%nat
    /\ accepted unescape log' = (fun e => insert_params key (record_line [] (en_qso e))) <$> take k todo
    /\ unsent_qrz user db' = drop k todo
    /\ en_qso <$> db' = en_qso <$> db
    /\ (length log' <= k + length nows)%nat.
Proof.
  intros Hn E todo.
  cut (exists k, (k <= length todo)%nat
    /\ accepted unescape log' = accepted (unescape) [] ++ (post_of key <$> take k todo)
    /\ unsent_qrz user db' = drop k todo /\ en_qso <$> db' = en_qso <$> db
    /\ (length log' <= length (@nil (list (pystr * pystr) * result pystr pystr)) + k + length nows)%nat).
  { intros (k & H1 & H2 & H3 & H4 & H5). exists k. split_and!; try done. rewrite H2.
    apply list_fmap_ext. intros i e _. unfold post_of. by rewrite posted_record_line. }
  subst todo. revert db w Hn E. generalize (@nil (list (pystr * pystr) * result pystr pystr)) as log.
  induction nows as [|now nows IH]; intros log db w Hn; cbn [exports foldl].
  - intros [= <- <- <-]. exists O. cbn. rewrite app_nil_r. split_and!; (done || lia).
  - cbn [fst snd]. destruct (qrz_export _ _ _ _ _ _ _) as [[r db1] [log1 w1]] eqn:E1.
    apply qrz_export_spec in E1 as (k1 & Hk1 & Ha1 & Hu1 & Hp1 & Hq1 & Hl1 & _); [|done]. intros E.
    apply IH in E as (k2 & Hk2 & Ha2 & Hu2 & Hq2 & Hl2); [|by rewrite Hp1]. cbn [fst] in *.
    rewrite Hu1 in Hk2, Ha2, Hu2. rewrite length_drop in Hk2. exists (k1 + k2)%nat. split_and!.
    + lia. + rewrite Ha2, Ha1, <- app_assoc, <- fmap_app. f_equal. by rewrite take_take_drop.
    + by rewrite Hu2, drop_drop. + congruence. + cbn [length]. lia.
Qed.

Lemma export_loop_accepted now todo e d db log w :
  (forall params w, exists body w', post params w = (Ok body, w') /\ is_ok (insert_verdict unescape body) = true) ->
  (export_loop (recorded post) unescape now key todo e d db (log, w)).1.1.1.1 = None.
Proof.
  intros Hpost. revert e d db log w. induction todo as [|q todo IH]; intros e d db log w; [done|].
  cbn [export_loop]. unfold insert_record, call, recorded at 1. cbn [fst snd].
  destruct (Hpost (insert_params key (posted_record (en_qso q))) w) as (body & w1 & -> & Hok).
  destruct (insert_verdict unescape body) as [[]|]; [apply IH..|done].
Qed.

(** Against a service that takes every record, one request finishes the job:
    it ends with an answer and nothing unsent, and the next request has
    nothing to send and does not contact the service. *)
Theorem export_completes (now now' : datetime) (db : list Entry) (log : history) (w : W) :
  NoDup (en_pk <$> db) ->
  (forall params w, exists body w', post params w = (Ok body, w') /\ is_ok (insert_verdict unescape body) = true) ->
  let '(r, db', lw') := qrz_export (recorded post) unescape now key user db (log, w) in
  is_ok r = true /\ unsent_qrz user db' = []
  /\ qrz_export (recorded post) unescape now' key user db' lw' = (Ok NothingNew, db', lw').
Proof.
  intros Hn Hpost. destruct (qrz_export _ _ _ _ _ _ _) as [[r db'] lw'] eqn:E.
  assert (is_ok r = true) as Hr.
  { unfold qrz_export in E. destruct (unsent_qrz user db) as [|q qs]; [by simplify_eq|].
    pose proof (export_loop_accepted now (q :: qs) 0 0 db log w Hpost) as Hnone.
    destruct (export_loop _ _ _ _ _ _ _ _ _) as [[[[err e'] d'] db1] lw1]. cbn in Hnone. subst err. by simplify_eq. }
  apply qrz_export_spec in E as (k & _ & _ & Hu & _ & _ & _ & Hk); [|done]. specialize (Hk Hr). subst k.
  assert (unsent_qrz user db' = []) as Hnone by (rewrite Hu; apply drop_ge; lia).
  split_and!; [done..|]. unfold qrz_export. by rewrite Hnone.
Qed.
End Exports.

(** ** eQSL: the credentials and the records *)

(** Every opening bracket of [p] is followed, inside [p], by something that
    does not start an end-of-header mark. *)
Fixpoint no_eoh (p : pystr) : bool :=
  match p with
  | [] => true
  | c :: p' =>
      (if c =? 60 then match p' with _ :: d :: _ => negb (lower_char d =? 111) | _ => false end else true) && no_eoh p'
  end.

Lemma no_eoh_app p q : no_eoh p = true -> no_eoh q = true -> no_eoh (p ++ q) = true.
Proof.
  intros Hp Hq. induction p as [|c p IH]; [done|]. cbn [no_eoh app] in *. apply andb_true_iff in Hp as [Hc Hp].
  rewrite (IH Hp), andb_true_r. destruct (c =? 60); [|done]. destruct p as [|x [|d p]]; done.
Qed.

Lemma no_eoh_plain p : 60 ∉ p -> no_eoh p = true.
Proof.
  induction p as [|c p IH]; [done|]. intros [Hc Hp]%not_elem_of_cons. cbn.
  rewrite (proj2 (Z.eqb_neq c 60)) by congruence. by apply IH.
Qed.

Lemma eoh_not_here prev c d s : lower_char d <> 111 -> match_at EOH prev (60 :: c :: d :: s) = None.
Proof.
  intros Hd. destruct (match_at EOH prev _) as [m|] eqn:E; [|done]. exfalso.
  apply match_at_sound in E as [_ [pv H]].
  inversion H as [| | |? ? ? ? ? ? ? ? ? ? ? Ha Hb| | | |]; subst; clear H.
  inversion Ha; subst; clear Ha.
  inversion Hb as [| | |? ? ? ? ? ? ? ? ? ? ? Ha Hb'| | | |]; subst; clear Hb.
  inversion Ha; subst; clear Ha.
  inversion Hb' as [| | |? ? ? ? ? ? ? ? ? ? ? Ha _| | | |]; subst; clear Hb'.
  inversion Ha as [|? ? ? ? ? Hc| | | | | |]; subst; clear Ha. by apply Z.eqb_eq in Hc.
Qed.

Lemma eoh_skip prev p s :
  no_eoh p = true ->
  search_from EOH prev (p ++ s) = (fun x => (length p + x.1, x.2)%nat) <$> search_from EOH (last_or prev p) s.
Proof.
  revert prev. induction p as [|c p IH]; intros prev Hp.
  - cbn [app length]. change (last_or prev []) with prev. by destruct (search_from EOH prev s) as [[i m]|].
  - cbn [no_eoh] in Hp. apply andb_true_iff in Hp as [Hc Hp]. cbn [app search_from].
    assert (match_at EOH prev (c :: p ++ s) = None) as ->.
    { destruct (Z.eqb_spec c 60) as [->|Hne].
      - destruct p as [|x [|d p]]; try done. cbn [app]. apply eoh_not_here. by apply negb_true_iff, Z.eqb_neq in Hc.
      - apply angled_no_match; [by apply ci_angled; right|]. cbn. congruence. }
    rewrite (IH (Some c)) by done. rewrite last_or_cons with (prev := prev).
    by destruct (search_from EOH (last_or prev (c :: p)) s) as [[i m]|].
Qed.

Definition before_eoh : pystr := join [10] (take 3 adif_header) ++ [10].

Lemma before_eoh_no : no_eoh before_eoh = true.
Proof. by_eval. Qed.

Lemma export_shape qsos station :
  exists rest, adif_export qsos station = before_eoh ++ u "<EOH>" ++ rest.
Proof.
  unfold adif_export. rewrite join_prefix by done. rewrite <- app_assoc. set (body := mjoin _ ++ [10]). clearbody body.
  exists (10 :: body). change (join [10] adif_header) with ((before_eoh ++ u "<EOH>") ++ [10]).
  by rewrite <- !app_assoc.
Qed.

Lemma search_eoh p s : no_eoh p = true ->
  exists m, search EOH (p ++ u "<EOH>" ++ s) = Some (length p, m) /\ m_rest m = s.
Proof.
  intros Hp. unfold search. rewrite eoh_skip by done. generalize (last_or None p) as prev. intros prev.
  assert ((fun x => (x.1, m_rest x.2)) <$> search_from EOH prev (u "<EOH>" ++ s) = Some (O, s)) as E
    by (vm_compute; reflexivity).
  destruct (search_from EOH prev (u "<EOH>" ++ s)) as [[i m]|]; [|done].
  cbn [fmap option_fmap option_map fst snd] in *. injection E as -> E. exists m. by rewrite Nat.add_0_r.
Qed.

Lemma parse_adif_body p s : no_eoh p = true -> parse_adif (p ++ u "<EOH>" ++ s) = parse_loop (S (length s)) s ∅ [].
Proof. intros Hp. unfold parse_adif. by destruct (search_eoh p s Hp) as (m & -> & ->). Qed.

Lemma eqsl_header_no username password : 60 ∉ username -> 60 ∉ password -> no_eoh (eqsl_header username password) = true.
Proof.
  intros Hu Hp. unfold eqsl_header, adif_field. cbn [fst snd].
  assert (forall n : pystr, 60 ∉ str_of_Z (zlen n)) as Hdec.
  { intros n Hin. pose proof (zlen_nonneg n) as Hz. unfold str_of_Z in Hin. rewrite (proj2 (Z.ltb_ge _ _)) in Hin by lia.
    destruct (dec_spec (zlen n) Hz) as (_ & Hd & _). rewrite Forall_forall in Hd. by apply Hd in Hin. }
  assert (forall name v, no_eoh (u "<" ++ name) = true -> 60 ∉ name -> 60 ∉ v ->
    no_eoh (u "<" ++ name ++ u ":" ++ str_of_Z (zlen v) ++ u ">" ++ v) = true) as Hfield.
  { intros name v Hn Hname Hv. rewrite (app_assoc (u "<")). apply no_eoh_app; [done|].
    apply no_eoh_plain. rewrite !not_elem_of_app. split_and!; [by_compute|done|by_compute|done]. }
  apply no_eoh_app; [apply Hfield; [by_compute|by_compute|done]|]. apply no_eoh_app; [by_compute|].
  apply no_eoh_app; [apply Hfield; [by_compute|by_compute|done]|]. by_compute.
Qed.

(** The payload is the export with the credentials put in front of its
    end-of-header mark, and it still reads as the same records. *)
Lemma with_credentials_export qsos station username password :
  60 ∉ username -> 60 ∉ password ->
  exists rest, adif_export qsos station = before_eoh ++ u "<EOH>" ++ rest
    /\ with_credentials (adif_export qsos station) username password
       = before_eoh ++ eqsl_header username password ++ u "<EOH>" ++ rest
    /\ parse_adif (with_credentials (adif_export qsos station) username password)
       = (fun q => record_of (fields station q)) <$> qsos.
Proof.
  intros Hu Hp. destruct (export_shape qsos station) as [rest E]. exists rest. split; [done|].
  assert (with_credentials (adif_export qsos station) username password
          = before_eoh ++ eqsl_header username password ++ u "<EOH>" ++ rest) as Hw.
  { unfold with_credentials. rewrite E. destruct (search_eoh before_eoh rest before_eoh_no) as (m & -> & _).
    rewrite take_app_length, drop_app_length. reflexivity. }
  split; [done|]. rewrite Hw, app_assoc, parse_adif_body by (apply no_eoh_app; [apply before_eoh_no|by apply eqsl_header_no]).
  rewrite <- (parse_adif_body before_eoh) by apply before_eoh_no. rewrite <- E. apply parse_export.
Qed.

Section EqslUpload.
Context {W : Type} (post_file : pystr -> W -> result pystr pystr * W) (icontains : pystr -> pystr -> bool).
Context (now : datetime) (username password station_call : pystr) (user : Z) (lf : LogFilter).

Lemma mark_eqsl_qsos pks db : en_qso <$> mark_eqsl now pks db = en_qso <$> db.
Proof. unfold mark_eqsl. rewrite <- list_fmap_compose. apply list_fmap_ext. intros _ e _. cbn. by case_match. Qed.

Lemma eqsl_todo_in data db e : e ∈ eqsl_todo icontains user lf data db -> e ∈ db.
Proof.
  unfold eqsl_todo. rewrite newest_first_perm. intros H. apply list_elem_of_In, filter_In in H as [H _].
  by apply list_elem_of_In.
Qed.

(** Marking what was taken leaves nothing to take, short of a resend. *)
Lemma eqsl_todo_marked data db :
  (match data with JObj d => jtruthy (jget_null (u "resend") d) | _ => false end) = false ->
  eqsl_todo icontains user lf data (mark_eqsl now (en_pk <$> eqsl_todo icontains user lf data db) db) = [].
Proof.
  intros Hr. unfold eqsl_todo at 1. rewrite Hr.
  set (pks := en_pk <$> _). set (p := fun e => _ && (false || _)).
  assert (forall l, l ⊆ db -> List.filter p (mark_eqsl now pks l) = []) as Hnone; [|by rewrite Hnone].
  intros l. induction l as [|e l IH]; intros Hl; [done|].
  change (mark_eqsl now pks (e :: l)) with ((if bool_decide (en_pk e ∈ pks) then e <| en_eqsl_sent := Some now |> else e)
                                             :: mark_eqsl now pks l).
  cbn [List.filter]. rewrite IH by (intros x Hx; apply Hl; by right).
  case_bool_decide as Hin; subst p; cbv beta.
  - change (en_eqsl_sent (e <| en_eqsl_sent := Some now |>)) with (Some now).
    rewrite (bool_decide_eq_false_2 (Some now = None)) by done. by rewrite andb_false_r.
  - destruct (passes_filter _ _ _ _ && _) eqn:Hp; [|done]. exfalso. apply Hin. subst pks.
    apply list_elem_of_fmap_2. unfold eqsl_todo. rewrite newest_first_perm, Hr.
    apply list_elem_of_In, filter_In. split; [apply list_elem_of_In, Hl; by left|done].
Qed.

(** C39: Uploading to eQSL is all or nothing: either the log is left as it was,
    and the answer says why or that nothing was new; or eQSL took one file, the
    export of the selected contacts with the credentials in its header; exactly
    the selected contacts are then marked as sent, no contact changes otherwise,
    and without a resend nothing is left to send. Where neither the user name
    nor the password holds a less-than sign, the file reads as one record per
    selected contact, in order; one that does may close the header and add
    records of its own. *)
Theorem eqsl_all_or_nothing (data : json) (db db' : list Entry) (w w' : W) (r : result Failure (Z * pystr)) :
  log_eqsl_upload post_file icontains now (Some (username, password)) station_call user lf data db w = (r, db', w') ->
  let todo := eqsl_todo icontains user lf data db in
  (db' = db /\ (forall n msg, r = Ok (n, msg) -> n = 0 /\ todo = []))
  \/ exists payload html msg,
       payload = with_credentials (adif_export (en_qso <$> todo) station_call) username password
       /\ post_file payload w = (Ok html, w') /\ is_ok (eqsl_verdict html) = true /\ r = Ok (zlen todo, msg)
       /\ (60 ∉ username -> 60 ∉ password ->
           parse_adif payload = (fun e => record_of (fields station_call (en_qso e))) <$> todo)
       /\ db' = mark_eqsl now (en_pk <$> todo) db
       /\ en_qso <$> db' = en_qso <$> db
       /\ ((match data with JObj d => jtruthy (jget_null (u "resend") d) | _ => false end) = false ->
           eqsl_todo icontains user lf data db' = []).
Proof.
  cbn zeta. unfold log_eqsl_upload.
  destruct (negb (nonempty username) || negb (nonempty password)).
  { intros [= <- <- <-]. left. split; [done|]. intros n msg. done. }
  destruct (eqsl_todo icontains user lf data db) as [|q qs] eqn:Ht.
  { intros [= <- <- <-]. left. split; [done|]. by intros n msg [= <- _]. }
  rewrite <- Ht. unfold upload_adif.
  pose proof (with_credentials_export (en_qso <$> eqsl_todo icontains user lf data db) station_call username password)
    as Hexport.
  set (payload := with_credentials _ username password) in *. clearbody payload.
  destruct (post_file payload w) as [[html|e] w1] eqn:Ep.
  - destruct (eqsl_verdict html) as [v|e] eqn:Ev; intros [= <- <- <-]; [right|left; split; [done|]; by intros n msg].
    exists payload, html, (ev_message v). rewrite Ev. split_and!; try done.
    + intros Hu Hp. destruct (Hexport Hu Hp) as (rest & _ & _ & Hparse). by rewrite Hparse, <- list_fmap_compose.
    + apply mark_eqsl_qsos.
    + apply eqsl_todo_marked.
  - intros [= <- <- <-]. left. split; [done|]. by intros n msg.
Qed.
End EqslUpload.

(** ** Concrete logs *)

Module SyncDemo.
Definition entry (pk : Z) (call : pystr) (hour : Z) : Entry :=
  {| en_pk := pk; en_qso := sample_qso <| qs_call := call |> <| qs_when := Build_datetime 2024 2 29 hour 0 0 0 |>;
     en_qrz_sent := None; en_eqsl_sent := None |}.
Definition db : list Entry := [entry 1 (u "W1AW") 8; entry 2 (u "K1A") 9].
Definition now : datetime := Build_datetime 2024 3 1 0 0 0 0.
(** A service that is down for the first post and has the second contact. *)
Definition post (params : list (pystr * pystr)) (n : Z) : result pystr pystr * Z :=
  (if n =? 0 then Err (u "timed out")
   else if n =? 1 then Ok (u "RESULT=FAIL&REASON=Unable to add QSO: duplicate")
   else Ok (u "RESULT=OK&LOGID=9"), n + 1).
Definition steady (params : list (pystr * pystr)) (n : Z) : result pystr pystr * Z := (Ok (u "RESULT=OK"), n).
Definition eqsl (payload : pystr) (n : Z) : result pystr pystr * Z :=
  (Ok (u "<html>Result: 2 out of 2 records added</html>"), n + 1).
Definition no_filter : LogFilter := {| lf_q := []; lf_band := []; lf_mode := [] |}.
(** The file uploaded for both contacts. *)
Definition payload : pystr :=
  with_credentials (adif_export (en_qso <$> eqsl_todo (fun _ _ => true) 1 no_filter JNull db) (u "K1A"))
    (u "K1A") (u "secret").
End SyncDemo.

Theorem export_exactly_once_witness :
  let s := exports SyncDemo.post id (u "KEY") 1 [SyncDemo.now; SyncDemo.now] SyncDemo.db ([], 0) in
  NoDup (en_pk <$> SyncDemo.db)
  /\ (length (accepted id s.2.1) = 2 /\ length s.2.1 = 3)%nat
  /\ exists k, (k <= 2)%nat /\ unsent_qrz 1 s.1 = drop k (unsent_qrz 1 SyncDemo.db).
Proof.
  cbn zeta. set (s := exports _ _ _ _ _ _ _).
  assert (NoDup (en_pk <$> SyncDemo.db)) as Hn by by_compute.
  destruct (export_exactly_once SyncDemo.post id (u "KEY") 1 [SyncDemo.now; SyncDemo.now] SyncDemo.db s.1 0 s.2.2 s.2.1 Hn)
    as (k & Hk & _ & Hu & _).
  { subst s. by destruct (exports _ _ _ _ _ _ _) as [? [? ?]]. }
  split; [exact Hn|]. split; [split; vm_compute; reflexivity|].
  exists k. split; [|exact Hu]. replace 2%nat with (length (unsent_qrz 1 SyncDemo.db)); [exact Hk|vm_compute; reflexivity].
Defined.

Theorem export_completes_witness :
  let '(r, db', lw') := qrz_export (recorded SyncDemo.steady) id SyncDemo.now (u "KEY") 1 SyncDemo.db ([], 0) in
  is_ok r = true /\ unsent_qrz 1 db' = []
  /\ qrz_export (recorded SyncDemo.steady) id SyncDemo.now (u "KEY") 1 db' lw' = (Ok NothingNew, db', lw').
Proof.
  apply (export_completes SyncDemo.steady id (u "KEY") 1 SyncDemo.now SyncDemo.now SyncDemo.db [] 0).
  - by_compute.
  - intros params w. exists (u "RESULT=OK"), w. split; [reflexivity|vm_compute; reflexivity].
Defined.

Theorem eqsl_all_or_nothing_witness :
  let up := log_eqsl_upload SyncDemo.eqsl (fun _ _ => true) SyncDemo.now (Some (u "K1A", u "secret")) (u "K1A") 1
    SyncDemo.no_filter JNull SyncDemo.db 0 in
  up.1.1 = Ok (2, u "Result: 2 out of 2")
  /\ eqsl_todo (fun _ _ => true) 1 SyncDemo.no_filter JNull up.1.2 = []
  /\ length (parse_adif SyncDemo.payload) = 2%nat.
Proof.
  cbn zeta. set (up := log_eqsl_upload _ _ _ _ _ _ _ _ _ _).
  assert (up.1.1 = Ok (2, u "Result: 2 out of 2")) as Hr by (vm_compute; reflexivity).
  split; [exact Hr|].
  destruct (eqsl_all_or_nothing SyncDemo.eqsl (fun _ _ => true) SyncDemo.now (u "K1A") (u "secret") (u "K1A") 1
    SyncDemo.no_filter JNull SyncDemo.db up.1.2 0 up.2 up.1.1) as [[_ H]|(payload & html & msg & H1 & _ & _ & _ & H2 & _ & _ & H3)].
  - fold up. by destruct up as [[? ?] ?].
  - destruct (H _ _ Hr) as [H0 _]. discriminate H0.
  - split; [apply H3; reflexivity|]. change SyncDemo.payload with
      (with_credentials (adif_export (en_qso <$> eqsl_todo (fun _ _ => true) 1 SyncDemo.no_filter JNull SyncDemo.db)
        (u "K1A")) (u "K1A") (u "secret")).
    rewrite <- H1, H2 by by_compute. reflexivity.
Defined.

(** The credentials are framed by their length, but eQSL's header ends at the
    first end-of-header mark, as our own reading of a log does: a password that
    closes the header adds a contact to the file. *)
Lemma password_adds_a_contact :
  length (parse_adif (with_credentials (adif_export (en_qso <$> SyncDemo.db) (u "K1A")) (u "K1A")
    (u "<EOH><CALL:3>ABC<EOR>"))) = 3%nat
  /\ length (parse_adif (adif_export (en_qso <$> SyncDemo.db) (u "K1A"))) = 2%nat.
Proof. split; by vm_compute. Qed.
