(* ===== verification/Radio.v ===== *)
(** * radiodaemon.py, the tuning half: bands, sweeps and seeking

    Everything that does not touch a process: which band a frequency is in, how
    an rtl_power sweep becomes stations, and which station a seek tunes. *)
From Stdlib Require Import QArith Lqa Qabs Sorted.
From S2P Require Import Prelude PyFloat PyStr Regex Events.
Open Scope Z_scope.

(** ** Bands *)

Section Bands.
Context {F : Type} `{Num F}.

Record RadioBand := {
  rb_key : pystr;
  rb_label : pystr;
  rb_low : F;
  rb_high : F;
  rb_mode : pystr;
  rb_step : F;
  rb_decimals : Z;
  rb_sweep_bin_khz : F;
  rb_seek_separation_mhz : F;
  rb_seek_eps_mhz : F;
}.

Definition fm_band : RadioBand :=
  {| rb_key := u "fm"; rb_label := u "FM"; rb_low := num_of_Z 88; rb_high := num_of_Z 108;
     rb_mode := u "wbfm"; rb_step := lit 1 10; rb_decimals := 1; rb_sweep_bin_khz := num_of_Z 100;
     rb_seek_separation_mhz := lit 1 4; rb_seek_eps_mhz := lit 15 100 |}.

Definition air_band : RadioBand :=
  {| rb_key := u "air"; rb_label := u "AIR"; rb_low := num_of_Z 118; rb_high := num_of_Z 137;
     rb_mode := u "am"; rb_step := lit 25 1000; rb_decimals := 3; rb_sweep_bin_khz := num_of_Z 25;
     rb_seek_separation_mhz := lit 2 100; rb_seek_eps_mhz := lit 2 100 |}.

Definition RADIO_BANDS : list RadioBand := [fm_band; air_band].

Definition SEEK_THRESHOLD_DB : F := num_of_Z 12.

(** [band_for] *)
Definition band_for (freq_mhz : F) : option RadioBand :=
  List.find (fun b => num_leb (rb_low b) freq_mhz && num_leb freq_mhz (rb_high b)) RADIO_BANDS.

(** [band_cfg]; [None] is the unknown-band [RadioError]. *)
Definition band_cfg (band : pystr) : option RadioBand :=
  List.find (fun b => str_eqb (rb_key b) band) RADIO_BANDS.
End Bands.
Arguments RadioBand F : clear implicits.

(** ** Sorting, as [list.sort] does it: stable, tuples compared item by item *)
Section Sorting.
Context {F : Type} `{Num F}.

Definition pair_ltb (a b : F * F) : bool :=
  num_ltb a.1 b.1 || (num_eqb a.1 b.1 && num_ltb a.2 b.2).

(** [before y x]: [y] stays in front of the later-inserted [x]. *)
Fixpoint sort_insert (before : F * F -> F * F -> bool) (x : F * F) (l : list (F * F)) : list (F * F) :=
  match l with
  | [] => [x]
  | y :: l' => if before y x then y :: sort_insert before x l' else x :: l
  end.

Definition sort_asc (l : list (F * F)) : list (F * F) := foldr (sort_insert pair_ltb) [] l.
Definition sort_desc (l : list (F * F)) : list (F * F) :=
  foldr (sort_insert (fun y x => pair_ltb x y)) [] l.
End Sorting.

(** ** Sweeps *)

Definition is_comma (c : Z) : bool := c =? 44.

(** The bins of one rtl_power line; [None] for a line that is skipped. *)
Definition power_line (line : pystr) : option (float * float * list float) :=
  let parts := strip <$> split_char 44 line in
  if zlen parts <? 7 then None
  else
    hz_low ← parse_float (default [] (parts !! 2%nat));
    hz_step ← parse_float (default [] (parts !! 4%nat));
    dbs ← mapM parse_float (slice_from 6 parts);
    Some (hz_low, hz_step, dbs).

Definition power_bins (b : RadioBand float) (row : float * float * list float) : list (float * float) :=
  let '(hz_low, hz_step, dbs) := row in
  omap (fun id : nat * float =>
    let mhz := num_div (num_add hz_low (num_mul (num_add (num_of_Z (Z.of_nat id.1)) (lit 1 2)) hz_step))
                       (num_of_Z 1000000) in
    if num_leb (rb_low b) mhz && num_leb mhz (rb_high b) then Some (mhz, id.2) else None)
    (imap pair dbs).

(** [parse_power_csv] *)
Definition parse_power_csv (text : pystr) (b : RadioBand float) : list (float * float) :=
  sort_asc (mjoin ((fun line => from_option (power_bins b) [] (power_line line)) <$> splitlines text)).

(** ** Stations *)

Section Stations.
Context {F : Type} `{Num F}.

Definition num_abs (x : F) : F := if num_ltb x (num_of_Z 0) then num_sub (num_of_Z 0) x else x.

(** The interior bins that rise above the floor and are local maxima, as
    [(rise, mhz)]. *)
Fixpoint peaks (floor threshold_db : F) (bins : list (F * F)) : list (F * F) :=
  match bins with
  | a :: ((b :: c :: _) as rest) =>
      (if negb (num_ltb (num_sub b.2 floor) threshold_db) && num_leb a.2 b.2 && num_leb c.2 b.2
       then [(num_sub b.2 floor, b.1)] else [])
      ++ peaks floor threshold_db rest
  | _ => []
  end.

(** Snap to the raster of the band. *)
Definition snap (b : RadioBand F) (mhz : F) : F :=
  num_round (rb_decimals b)
    (num_mul (num_of_Z (default 0 (num_rint (num_div mhz (rb_step b))))) (rb_step b)).

Definition near (b : RadioBand F) (mhz : F) (k : F * F) : bool :=
  num_ltb (num_abs (num_sub mhz k.1)) (rb_seek_separation_mhz b).

Definition keep_station (b : RadioBand F) (kept : list (F * F)) (cand : F * F) : list (F * F) :=
  let '(snr, mhz) := cand in
  if existsb (near b mhz) kept then kept else kept ++ [(snap b mhz, num_round 1 snr)].

(** [find_stations] *)
Definition find_stations (bins : list (F * F)) (b : RadioBand F) (threshold_db : F) : list (F * F) :=
  if zlen bins <? 8 then []
  else
    let floor := median bins.*2 in
    let candidates := sort_desc (peaks floor threshold_db bins) in
    sort_asc (foldl (keep_station b) [] candidates).

(** [min(l)] and [max(l)] of a non-empty list. *)
Definition min_of (x : F) (l : list F) : F := foldl num_min x l.
Definition max_of (x : F) (l : list F) : F := foldl num_max x l.

(** [next_station] *)
Definition next_station (freqs : list F) (current : F) (up : bool) (b : RadioBand F) : option F :=
  let eps := rb_seek_eps_mhz b in
  match freqs with
  | [] => None
  | f0 :: fs =>
      let target :=
        if up then
          match List.filter (fun f => num_ltb (num_add current eps) f) freqs with
          | a :: l => min_of a l
          | [] => min_of f0 fs
          end
        else
          match List.filter (fun f => num_ltb f (num_sub current eps)) freqs with
          | a :: l => max_of a l
          | [] => max_of f0 fs
          end in
      if num_leb (num_abs (num_sub target current)) eps then None else Some target
  end.
End Stations.

(** [nearest_gain]: [min(gains, key=...)] keeps the first of equally near steps. *)
Definition nearer (wanted best g : float) : float :=
  if num_ltb (num_abs (num_sub g wanted)) (num_abs (num_sub best wanted)) then g else best.
Definition nearest_gain (wanted : float) (gains : list float) : float :=
  match gains with
  | [] => wanted
  | g :: gs => foldl (nearer wanted) g gs
  end.

(** ** Reading rtl_test *)

(** [^\s*(\d+):\s+(\S.*?)\s*$] *)
Definition not_space (c : Z) : bool := negb (is_space c).

(** The device pattern on one line: the index and the name, stripped. [.] does
    not match a line feed, which no line of [splitlines] holds. *)
Definition device_line (line : pystr) : option (Z * pystr) :=
  let s := lstrip_by is_space line in
  let '(ds, r) := span is_decimal s in
  match r with
  | c :: r' =>
      let name := strip r' in
      if nonempty ds && (c =? 58) && nonempty name
         && match r' with w :: _ => is_space w | [] => false end
      then Some (default 0 (digits ds), name) else None
  | [] => None
  end.

(** The enumeration block: from the line after the first [Found ...] to the
    first line that is no device; further [Found ...] lines are passed over. *)
Fixpoint device_block (in_list : bool) (lines : list pystr) : list (Z * pystr) :=
  match lines with
  | [] => []
  | l :: ls =>
      if startswith l (u "Found ") then device_block true ls
      else if negb in_list then device_block false ls
      else match device_line l with Some d => d :: device_block true ls | None => [] end
  end.

Definition SERIAL_RE : regex := r_seq [r_lit (u "SN:"); r_star is_space; RGroup 1 (r_plus not_space)].
Definition serial_from_name (name : pystr) : pystr :=
  match search SERIAL_RE name with Some (_, m) => group 1 m | None => [] end.

Definition not_newline (c : Z) : bool := negb (c =? 10).
Definition GAINS_RE : regex :=
  r_seq [r_lit (u "Supported gain values ("); r_plus is_decimal; r_lit (u "):"); r_star is_space;
         RGroup 1 (r_plus not_newline)].
Definition TUNER_RE : regex :=
  r_seq [r_lit (u "Found "); RGroup 1 (RRep false not_newline 1 None); r_lit (u " tuner")].

(** The leading numbers of a list of words. *)
Fixpoint leading_floats (l : list pystr) : list float :=
  match l with
  | [] => []
  | w :: l' => match parse_float w with Some x => x :: leading_floats l' | None => [] end
  end.

Definition gains_from_probe (text : pystr) : list float :=
  match search GAINS_RE text with Some (_, m) => leading_floats (words (group 1 m)) | None => [] end.

Definition tuner_from_probe (text : pystr) : pystr :=
  match search TUNER_RE text with Some (_, m) => group 1 m | None => [] end.

Definition DIRECT_SAMPLING_HINTS : list pystr :=
  [u "rtl-sdr blog"; u "rtlsdrblog"; u "blog v3"; u "blog v4"].

Definition supports_direct_sampling (device_name : pystr) : bool :=
  existsb (fun hint => contains hint (lower device_name)) DIRECT_SAMPLING_HINTS.

Record Device := {
  dv_index : Z;
  dv_name : pystr;
  dv_serial : pystr;
  dv_gains : list float;
  dv_tuner : pystr;
  dv_direct_sampling : bool;
}.

(** The devices of an [rtl_test] run: the probe describes the first one only. *)
Definition parse_devices (text : pystr) : list Device :=
  imap (fun i (d : Z * pystr) =>
    {| dv_index := d.1; dv_name := d.2; dv_serial := serial_from_name d.2;
       dv_gains := if Nat.eqb i 0 then gains_from_probe text else [];
       dv_tuner := if Nat.eqb i 0 then tuner_from_probe text else [];
       dv_direct_sampling := supports_direct_sampling d.2 |})
    (device_block false (splitlines text)).

(** * Seeking, in exact arithmetic *)

(** ** Exact comparison and rounding *)

Lemma abs_Q (x : Q) : (num_abs x == Qabs x)%Q.
Proof.
  unfold num_abs. change (num_of_Z 0 : Q) with 0%Q. change (num_sub 0%Q x) with (0 - x)%Q.
  destruct (num_ltb x 0%Q) eqn:E.
  - apply Q_ltb_true in E. rewrite Qabs_neg by lra. lra.
  - apply Q_ltb_false in E. rewrite Qabs_pos by lra. reflexivity.
Qed.

(** Rounding an integer is the integer. *)
Lemma round_half_even_exact n d : round_half_even (n * Zpos d) d = n.
Proof.
  unfold round_half_even. rewrite Z.div_mul, Z.mod_mul by lia. done.
Qed.

(** A band whose raster is a whole number of its printed decimals. *)
Definition on_raster (b : RadioBand Q) : Prop :=
  (0 < rb_step b)%Q /\ 0 <= rb_decimals b /\
  exists n, (rb_step b * inject_Z (10 ^ rb_decimals b) == inject_Z n)%Q.

Lemma raster_round (b : RadioBand Q) k :
  on_raster b -> (num_round (rb_decimals b) (inject_Z k * rb_step b)%Q == inject_Z k * rb_step b)%Q.
Proof.
  intros (Hs & Hd & n & Hn). cbn [num_round Q_num]. set (x := (inject_Z k * rb_step b)%Q).
  assert (0 < 10 ^ rb_decimals b) as Hp by (apply Z.pow_pos_nonneg; lia).
  assert (x * inject_Z (10 ^ rb_decimals b) == inject_Z (k * n))%Q as Hx.
  { subst x. rewrite <- Qmult_assoc, Hn. by rewrite inject_Z_mult. }
  clearbody x. destruct x as [a d]. cbn [Qnum Qden].
  unfold Qeq, inject_Z, Qmult in Hx. cbn [Qnum Qden] in Hx.
  assert (a * 10 ^ rb_decimals b = k * n * Zpos d) as -> by lia.
  rewrite round_half_even_exact. unfold Qeq. cbn [Qnum Qden]. rewrite Z2Pos.id by lia. lia.
Qed.

Lemma snap_near (b : RadioBand Q) mhz :
  on_raster b ->
  exists k, (snap b mhz == inject_Z k * rb_step b)%Q
            /\ (Qabs (mhz - snap b mhz) <= rb_step b / 2)%Q.
Proof.
  intros Hb. unfold snap. set (k := default 0 _). exists k.
  change (num_mul (num_of_Z k) (rb_step b)) with (inject_Z k * rb_step b)%Q.
  rewrite raster_round by done. split; [reflexivity|].
  destruct Hb as (Hs & _). pose proof (rint_bound (mhz / rb_step b)) as [H1 H2].
  change (round_half_even (Qnum (mhz / rb_step b)) (Qden (mhz / rb_step b))) with k in H1, H2.
  assert (mhz == (mhz / rb_step b) * rb_step b)%Q as E by (field; lra).
  set (y := (mhz / rb_step b)%Q) in *. set (kk := inject_Z k) in *. set (s := rb_step b) in *.
  clearbody y kk s. apply Qabs_Qle_condition. rewrite E. unfold Qdiv. change (/ 2)%Q with (1 # 2)%Q.
  split; nra.
Qed.

(** ** Sorting *)

Lemma sort_insert_perm {F} `{Num F} before (x : F * F) l : sort_insert before x l ≡ₚ x :: l.
Proof.
  induction l as [|y l IH]; cbn [sort_insert]; [done|]. destruct (before y x); [|done].
  rewrite IH. constructor.
Qed.

Lemma sort_perm {F} `{Num F} before (l : list (F * F)) : foldr (sort_insert before) [] l ≡ₚ l.
Proof. induction l as [|x l IH]; cbn; [done|]. by rewrite sort_insert_perm, IH. Qed.

(** Frequencies in ascending order. *)
Definition ascending (l : list (Q * Q)) : Prop := StronglySorted (fun a b => (a.1 <= b.1)%Q) l.

Lemma sort_asc_sorted (l : list (Q * Q)) : ascending (sort_asc l).
Proof.
  unfold ascending, sort_asc. induction l as [|x l IH]; cbn; [constructor|].
  induction IH as [|y l' Hl' IHs Hy]; cbn; [repeat constructor|].
  destruct (pair_ltb y x) eqn:E.
  - constructor; [done|]. rewrite sort_insert_perm. constructor; [|done].
    unfold pair_ltb in E. apply orb_true_iff in E as [E|E].
    + apply Q_ltb_true in E. lra.
    + apply andb_true_iff in E as [E _]. apply Qeq_bool_iff in E. rewrite E. apply Qle_refl.
  - constructor; [by constructor|]. unfold pair_ltb in E. apply orb_false_iff in E as [E _].
    apply Q_ltb_false in E. constructor; [done|].
    eapply Forall_impl; [exact Hy|]. cbn. intros z Hz. lra.
Qed.

(** ** Separation *)

(** Any two entries are [gap] apart. *)
Definition apart (gap : Q) (l : list (Q * Q)) : Prop :=
  forall i j a b, i <> j -> l !! i = Some a -> l !! j = Some b -> (gap <= Qabs (a.1 - b.1))%Q.

Lemma apart_perm gap l l' : l ≡ₚ l' -> apart gap l -> apart gap l'.
Proof.
  intros Hp Ha i j a b Hij Hi Hj.
  symmetry in Hp. apply Permutation_inj in Hp as [_ (f & Hf & Hl)].
  rewrite Hl in Hi, Hj. eapply (Ha (f i) (f j)); [|done|done].
  intros E. by apply Hf in E.
Qed.

Lemma apart_snoc gap l x :
  apart gap l -> Forall (fun a => gap <= Qabs (x.1 - a.1))%Q l -> apart gap (l ++ [x]).
Proof.
  intros Ha Hx i j a b Hij Hi Hj. rewrite Forall_lookup in Hx.
  assert (forall k c, (l ++ [x]) !! k = Some c -> l !! k = Some c \/ (k = length l /\ c = x)) as Hk.
  { intros k c Hk. apply lookup_app_Some in Hk as [Hk|[Hle Hk]]; [by left|]. right.
    apply list_lookup_singleton_Some in Hk as [Hz <-]. split; [lia|done]. }
  apply Hk in Hi as [Hi|[-> ->]], Hj as [Hj|[-> ->]]; [by eapply Ha| | |done].
  - rewrite Qabs_Qminus. by eapply Hx.
  - by eapply Hx.
Qed.

Section Seek.
Variable b : RadioBand Q.
Hypothesis Hraster : on_raster b.
Local Notation sep := (rb_seek_separation_mhz b).
Local Notation step := (rb_step b).
Hypothesis Hsep : (step / 2 < sep)%Q.

Lemma near_Q mhz k : near b mhz k = true <-> (Qabs (mhz - k.1) < sep)%Q.
Proof.
  unfold near. rewrite Q_ltb_true. change (num_sub mhz k.1) with (mhz - k.1)%Q. by rewrite abs_Q.
Qed.

(** What the greedy pass has done after the candidates [seen]. *)
Definition greedy (seen kept : list (Q * Q)) : Prop :=
  apart (sep - step / 2) kept
  /\ (forall c, c ∈ seen -> exists k, k ∈ kept /\ (Qabs (c.2 - k.1) < sep)%Q)
  /\ (forall k, k ∈ kept -> exists c, c ∈ seen /\ k = (snap b c.2, num_round 1 c.1)).

Lemma keep_station_greedy seen kept c :
  greedy seen kept -> greedy (seen ++ [c]) (keep_station b kept c).
Proof.
  intros (Ha & Hs & Hk). destruct c as [snr mhz]. cbn [keep_station].
  destruct (snap_near b mhz Hraster) as (n & _ & Hn).
  destruct (existsb (near b mhz) kept) eqn:E.
  - apply existsb_exists in E as (k & Hin & Hnear). apply list_elem_of_In in Hin.
    apply near_Q in Hnear. split_and!; [done| |].
    + intros c [Hc| ->%list_elem_of_singleton]%elem_of_app; [by apply Hs|]. eauto.
    + intros k' Hk'. destruct (Hk k' Hk') as (c & Hc & ->). exists c. split; [|done].
      apply elem_of_app. by left.
  - assert (Forall (fun k => sep <= Qabs (mhz - k.1))%Q kept) as Hfar.
    { apply Forall_forall. intros k Hin. destruct (Qlt_le_dec (Qabs (mhz - k.1)) sep) as [Hlt|]; [|done].
      exfalso. apply near_Q in Hlt. apply list_elem_of_In in Hin.
      assert (existsb (near b mhz) kept = true) by (apply existsb_exists; eauto). congruence. }
    split_and!.
    + apply apart_snoc; [done|]. eapply Forall_impl; [exact Hfar|]. cbn [fst]. intros k Hkf.
      pose proof (Qabs_triangle (mhz - snap b mhz) (snap b mhz - k.1)) as Ht.
      assert (mhz - snap b mhz + (snap b mhz - k.1) == mhz - k.1)%Q as E' by ring.
      rewrite E' in Ht. lra.
    + intros c [Hc| ->%list_elem_of_singleton]%elem_of_app.
      * destruct (Hs c Hc) as (k & Hin & Hlt). exists k. split; [|done]. apply elem_of_app. by left.
      * exists (snap b mhz, num_round 1 snr). split; [apply elem_of_app; right; by apply list_elem_of_singleton|].
        cbn [fst snd]. lra.
    + intros k [Hin| ->%list_elem_of_singleton]%elem_of_app.
      * destruct (Hk k Hin) as (c & Hc & ->). exists c. split; [|done]. apply elem_of_app. by left.
      * exists (snr, mhz). split; [|done]. apply elem_of_app. right. by apply list_elem_of_singleton.
Qed.

Lemma keep_stations_greedy cands seen kept :
  greedy seen kept -> greedy (seen ++ cands) (foldl (keep_station b) kept cands).
Proof.
  revert seen kept. induction cands as [|c cs IH]; intros seen kept Hg; cbn [foldl].
  { by rewrite app_nil_r. }
  replace (seen ++ c :: cs) with ((seen ++ [c]) ++ cs) by (by rewrite <- app_assoc).
  by apply IH, keep_station_greedy.
Qed.
End Seek.

(** The interior local maxima that rise above the floor. *)
Definition is_peak (floor thr : Q) (bins : list (Q * Q)) (c : Q * Q) : Prop :=
  exists i a x z, bins !! i = Some a /\ bins !! S i = Some (c.2, x) /\ bins !! S (S i) = Some z
    /\ c.1 = num_sub x floor /\ (thr <= x - floor)%Q /\ (a.2 <= x)%Q /\ (z.2 <= x)%Q.

Lemma peaks_spec floor thr bins c : c ∈ peaks floor thr bins <-> is_peak floor thr bins c.
Proof.
  unfold is_peak. induction bins as [|a [|m [|z bins]] IH];
    try (split; [intros []%not_elem_of_nil|intros (i & ? & ? & ? & ? & ? & ? & _); by destruct i]).
  cbn [peaks]. rewrite elem_of_app, IH. split.
  - intros [Hc|(i & a' & x & z' & H)].
    + destruct (_ && _ && _) eqn:E; [|by apply not_elem_of_nil in Hc].
      apply list_elem_of_singleton in Hc as ->. bool_to_prop.
      exists 0%nat, a, m.2, z. destruct m as [mf mx]. cbn [fst snd] in *.
      repeat match goal with
      | H : num_ltb _ _ = false |- _ => apply Q_ltb_false in H
      | H : num_leb _ _ = true |- _ => apply Q_leb_true in H
      end. split_and!; done.
    + exists (S i), a', x, z'. exact H.
  - intros ([|i] & a' & x & z' & H1 & H2 & H3 & H4 & H5 & H6 & H7).
    + left. cbn in H1, H2, H3. simplify_eq. destruct c as [cs cf]. cbn [fst snd] in *. subst cs.
      cbn [fst snd]. rewrite (proj2 (Q_ltb_false _ _)) by done. rewrite !(proj2 (Q_leb_true _ _)) by done.
      by apply list_elem_of_singleton.
    + right. exists i, a', x, z'. done.
Qed.

(** what a seek finds, in exact arithmetic, on a band whose raster is finer
    than its separation: the stations come back in frequency order, no two of
    them closer than the separation less half a channel (so one wide carrier is
    never two stations); each is a local maximum of the sweep at least the
    threshold above the median floor, snapped to a whole number of channels at
    most half a channel away; and every such maximum is within the separation
    of a station kept. *)
Theorem find_stations_spec (bins : list (Q * Q)) (b : RadioBand Q) (threshold_db : Q) :
  on_raster b -> (rb_step b / 2 < rb_seek_separation_mhz b)%Q -> 8 <= zlen bins ->
  let stations := find_stations bins b threshold_db in
  let peak := is_peak (median bins.*2) threshold_db bins in
  ascending stations
  /\ apart (rb_seek_separation_mhz b - rb_step b / 2) stations
  /\ (forall s, s ∈ stations -> exists c, peak c /\ s = (snap b c.2, num_round 1 c.1))
  /\ (forall c, peak c -> exists s, s ∈ stations /\ (Qabs (c.2 - s.1) < rb_seek_separation_mhz b)%Q)
  /\ (forall c, peak c -> exists k, (snap b c.2 == inject_Z k * rb_step b)%Q
                                   /\ (Qabs (c.2 - snap b c.2) <= rb_step b / 2)%Q).
Proof.
  intros Hr Hsep Hlen. cbn zeta. unfold find_stations.
  rewrite (proj2 (Z.ltb_ge _ _)) by lia.
  set (cands := sort_desc _).
  assert (greedy b [] []) as H0.
  { split_and!; [by intros i j ? ? ? ?|intros ? []%not_elem_of_nil|intros ? []%not_elem_of_nil]. }
  apply (keep_stations_greedy b Hr Hsep cands) in H0. destruct H0 as (Ha & Hs & Hk). cbn [app] in *.
  assert (forall c, c ∈ cands <-> is_peak (median bins.*2) threshold_db bins c) as Hc.
  { intros c. rewrite <- peaks_spec. subst cands. unfold sort_desc. by rewrite sort_perm. }
  set (kept := foldl _ _ _) in *.
  split_and!.
  - apply sort_asc_sorted.
  - apply (apart_perm _ kept); [|done]. unfold sort_asc. by rewrite sort_perm.
  - intros s. unfold sort_asc. rewrite sort_perm. intros Hin.
    destruct (Hk s Hin) as (c & Hin' & ->). exists c. by rewrite <- Hc.
  - intros c Hp. apply Hc, Hs in Hp as (k & Hin & Hlt). exists k. split; [|done].
    unfold sort_asc. by rewrite sort_perm.
  - intros c _. by apply snap_near.
Qed.

(** ** The next station *)

Lemma min_of_Q x (l : list Q) : min_of x l ∈ x :: l /\ Forall (fun y => (min_of x l <= y)%Q) (x :: l).
Proof.
  unfold min_of. revert x. induction l as [|y l IH]; intros x; cbn [foldl].
  - split; [apply list_elem_of_here|]. constructor; [apply Qle_refl|constructor].
  - destruct (IH (num_min x y)) as [Hin Hle]. apply Forall_cons in Hle as [Hm Hl].
    unfold num_min in *. destruct (num_ltb y x) eqn:E.
    + apply Q_ltb_true in E. split; [by apply list_elem_of_further|].
      constructor; [lra|]. by constructor.
    + apply Q_ltb_false in E. split.
      * apply elem_of_cons in Hin as [->|Hin]; [apply list_elem_of_here|].
        by do 2 apply list_elem_of_further.
      * constructor; [done|]. constructor; [lra|done].
Qed.

Lemma max_of_Q x (l : list Q) : max_of x l ∈ x :: l /\ Forall (fun y => (y <= max_of x l)%Q) (x :: l).
Proof.
  unfold max_of. revert x. induction l as [|y l IH]; intros x; cbn [foldl].
  - split; [apply list_elem_of_here|]. constructor; [apply Qle_refl|constructor].
  - destruct (IH (num_max x y)) as [Hin Hle]. apply Forall_cons in Hle as [Hm Hl].
    unfold num_max in *. destruct (num_ltb x y) eqn:E.
    + apply Q_ltb_true in E. split; [by apply list_elem_of_further|].
      constructor; [lra|]. by constructor.
    + apply Q_ltb_false in E. split.
      * apply elem_of_cons in Hin as [->|Hin]; [apply list_elem_of_here|].
        by do 2 apply list_elem_of_further.
      * constructor; [done|]. constructor; [lra|done].
Qed.

(** Beyond the guard band in the seek direction. *)
Definition beyond (up : bool) (eps current f : Q) : Prop :=
  if up then (current + eps < f)%Q else (f < current - eps)%Q.
Definition nearer_first (up : bool) (t f : Q) : Prop := if up then (t <= f)%Q else (f <= t)%Q.

Lemma filter_beyond (up : bool) eps current (freqs : list Q) f :
  f ∈ List.filter (fun f => if up then num_ltb (num_add current eps) f
                            else num_ltb f (num_sub current eps)) freqs
  <-> f ∈ freqs /\ beyond up eps current f.
Proof.
  rewrite !list_elem_of_In, List.filter_In. unfold beyond. by destruct up; rewrite Q_ltb_true.
Qed.

(** A station that leads the ones beyond the guard band, or all of them when
    there are none, is the one a seek wants. *)
Lemma nearest_or_wrapped (up : bool) (eps current : Q) (freqs : list Q) (target : Q) :
  match List.filter (fun f => if up then num_ltb (num_add current eps) f
                              else num_ltb f (num_sub current eps)) freqs with
  | [] => target ∈ freqs /\ Forall (nearer_first up target) freqs
  | l => target ∈ l /\ Forall (nearer_first up target) l
  end ->
  target ∈ freqs
  /\ ((exists f, f ∈ freqs /\ beyond up eps current f) ->
        beyond up eps current target
        /\ forall f, f ∈ freqs -> beyond up eps current f -> nearer_first up target f)
  /\ ((forall f, f ∈ freqs -> ~ beyond up eps current f) ->
        forall f, f ∈ freqs -> nearer_first up target f).
Proof.
  pose proof (fun f => filter_beyond up eps current freqs f) as Hf.
  destruct (List.filter _ freqs) as [|a l]; intros [Hin Hle]; rewrite Forall_forall in Hle.
  - split_and!; [done| |intros _; exact Hle]. intros (f & Hb). exfalso. apply (not_elem_of_nil f), Hf, Hb.
  - pose proof (proj1 (Hf _) Hin) as [Hin' Hb]. split_and!; [done| |].
    + intros _. split; [done|]. intros f Hfi Hfb. by apply Hle, Hf.
    + intros Hno. exfalso. by apply (Hno _ Hin').
Qed.

(** seeking goes to the nearest station beyond the guard band in the
    direction asked, or wraps to the far end of the band when there is none;
    it reports no station exactly when every station is within the guard band
    of the dial, so it never re-tunes the one it is on. *)
Theorem next_station_spec (freqs : list Q) (current : Q) (up : bool) (b : RadioBand Q) :
  (0 <= rb_seek_eps_mhz b)%Q ->
  let eps := rb_seek_eps_mhz b in
  match next_station freqs current up b with
  | Some t =>
      t ∈ freqs /\ (eps < Qabs (t - current))%Q
      /\ ((exists f, f ∈ freqs /\ beyond up eps current f) ->
          beyond up eps current t
          /\ forall f, f ∈ freqs -> beyond up eps current f -> nearer_first up t f)
      /\ ((forall f, f ∈ freqs -> ~ beyond up eps current f) ->
          forall f, f ∈ freqs -> nearer_first up t f)
  | None => forall f, f ∈ freqs -> (Qabs (f - current) <= eps)%Q
  end.
Proof.
  intros He. cbn zeta. set (eps := rb_seek_eps_mhz b) in *.
  unfold next_station. fold eps. destruct freqs as [|f0 fs] eqn:Ef; [by intros f []%not_elem_of_nil|].
  rewrite <- Ef.
  set (target := if up then _ else _).
  assert (target ∈ freqs
    /\ ((exists f, f ∈ freqs /\ beyond up eps current f) ->
          beyond up eps current target
          /\ forall f, f ∈ freqs -> beyond up eps current f -> nearer_first up target f)
    /\ ((forall f, f ∈ freqs -> ~ beyond up eps current f) ->
          forall f, f ∈ freqs -> nearer_first up target f)) as (H1 & H2 & H3).
  { apply nearest_or_wrapped. subst target. destruct up.
    - destruct (List.filter _ freqs) as [|a l]; [rewrite Ef|]; apply min_of_Q.
    - destruct (List.filter _ freqs) as [|a l]; [rewrite Ef|]; apply max_of_Q. }
  clearbody target. destruct (num_leb _ eps) eqn:E.
  - apply Q_leb_true in E. rewrite abs_Q in E. change (num_sub target current) with (target - current)%Q in E.
    apply Qabs_Qle_condition in E. intros f Hin.
    assert (~ beyond up eps current target) as Hnt by (unfold beyond; destruct up; lra).
    assert (forall f, f ∈ freqs -> ~ beyond up eps current f) as Hno.
    { intros f' Hf' Hb. destruct H2 as [? _]; [by exists f'|done]. }
    pose proof (H3 Hno f Hin) as Hn. pose proof (Hno f Hin) as Hb.
    apply Qabs_Qle_condition. unfold nearer_first, beyond in *. destruct up; lra.
  - apply Q_leb_false in E. rewrite abs_Q in E. done.
Qed.

(** ** A sweep with two carriers *)

Definition fm : RadioBand Q := fm_band.

Lemma fm_raster : on_raster fm.
Proof. split_and!; [reflexivity|done|by exists 1]. Qed.

Definition sweep : list (Q * Q) :=
  imap (fun i db => (88 + inject_Z (Z.of_nat i) * (1 # 10) + (1 # 20), db))%Q
    [-60; -60; -30; -25; -31; -60; -60; -61; -60; -59; -40; -60; -60]%Q.

Example find_stations_spec_witness :
  let stations := find_stations sweep fm SEEK_THRESHOLD_DB in
  ascending stations /\ Forall2 (fun s f => Qeq s.1 f) stations [884 # 10; 890 # 10]%Q.
Proof.
  cbv zeta. split.
  - apply (find_stations_spec sweep fm SEEK_THRESHOLD_DB fm_raster); [reflexivity|by vm_compute].
  - repeat constructor; vm_compute; reflexivity.
Defined.

Example next_station_spec_witness :
  match next_station [884 # 10; 890 # 10]%Q (884 # 10)%Q true fm with
  | Some t => t = (890 # 10)%Q /\ t ∈ [884 # 10; 890 # 10]%Q
  | None => False
  end.
Proof.
  pose proof (next_station_spec [884 # 10; 890 # 10]%Q (884 # 10)%Q true fm) as W.
  cbv zeta in W. specialize (W ltac:(vm_compute; discriminate)).
  destruct (next_station _ _ _ _) as [t|] eqn:E; [|vm_compute in E; discriminate].
  split; [vm_compute in E; congruence|]. by destruct W as (? & _).
Defined.
