(* ===== verification/RadioDaemon.v ===== *)
(** * radiodaemon.py, the lifecycle half: one supervised rtl_fm

    The machine is a table of live processes and the pidfile. Two ghosts:
    [os_ours] is the live processes any generation of the server has spawned,
    [os_lost] those of them that a failure the code swallows may have put out
    of its reach (the pidfile that could not be written, the reaping that did
    not kill). What a start meets (a pid, an early death, a sound device) is
    the [Spawn] it is given, and whether the file system, [ps] and the signals
    do as they are told is the rest of the [Machine]. The public operations
    are atomic, as [_op_lock] makes them. *)
From S2P Require Import Prelude PyFloat PyStr Events Radio.
Open Scope Z_scope.

(** [RadioError], by reason. *)
Inductive RadioErr :=
| OutOfBand (freq : float)
| BadDevice (index : Z)
| NoTools
| AlreadyRunning
| SpawnFailed
| InUse
| ExitedAtOnce (tail : pystr)
| NoAudio (freq : float) (reason : pystr)
| NoPowerTool
| SweepTimedOut
| SweepFailed
| SweepEmpty (tail : pystr)
| NoStation.

(** The module's [_state] and events. [rd_alive] is [proc.poll() is None]. *)
Record Radio := {
  rd_proc : option Z;
  rd_alive : bool;
  rd_freq_mhz : option float;
  rd_log : list pystr;
  rd_error : pystr;
  rd_sink_open : bool;
  rd_sink_gone : bool;
}.

#[global] Instance eta_radio : Eta Radio := fun r =>
  Build_Radio (rd_proc r) (rd_alive r) (rd_freq_mhz r) (rd_log r) (rd_error r) (rd_sink_open r)
    (rd_sink_gone r).

Definition fresh_radio : Radio :=
  {| rd_proc := None; rd_alive := false; rd_freq_mhz := None; rd_log := []; rd_error := [];
     rd_sink_open := false; rd_sink_gone := false |}.

Record OS := {
  os_procs : gmap Z pystr;       (** the command of each live process *)
  os_pidfile : option Z;
  os_ours : gset Z;
  os_lost : gset Z;
}.

#[global] Instance eta_os : Eta OS := fun o => Build_OS (os_procs o) (os_pidfile o) (os_ours o) (os_lost o).

Record Spawn := {
  sp_pid : option Z;             (** [None]: Popen raises OSError *)
  sp_stderr : list pystr;        (** what rtl_fm says in its first second *)
  sp_dies : bool;                (** it has exited when the second is over *)
  sp_opens : bool;               (** the sink opens in time *)
  sp_error : pystr;              (** the error of a sink that does not *)
}.

(** [_PIDFILE.write_text]: done, or an OSError that leaves the file, cut short
    or as it was; [content] is the pid one reads there then, if any. *)
Inductive Write := Written | WriteFailed (content : option Z).

(** What one [_reap_stale] meets. *)
Record Reaping := {
  rp_ps : bool;              (** the first [ps] answers *)
  rp_term : bool;            (** [os.kill(pid, 15)] does not raise *)
  rp_exits : option nat;     (** the polls it outlives the signal; [None]: it ignores it *)
  rp_polls : nat -> bool;    (** whether the [ps] of each poll answers *)
  rp_kill : bool;            (** [os.kill(pid, 9)] does not raise *)
  rp_unlinks : bool;         (** [_PIDFILE.unlink()] does not raise *)
}.

(** A reaping nothing hinders, of a receiver that heeds SIGTERM. *)
Definition willing : Reaping :=
  {| rp_ps := true; rp_term := true; rp_exits := Some 1%nat; rp_polls _ := true; rp_kill := true; rp_unlinks := true |}.

(** What the machine offers an operation; [mc_reap] is for the reaping of its
    stop (0), of its start (1), and of the stop of a start without sound (2). *)
Record Machine := {
  mc_rtl_fm : bool;
  mc_rtl_power : bool;
  mc_spawn : Spawn;
  mc_write : Write;
  mc_reap : nat -> Reaping;
}.

(** [_log] into a deque of at most 120 lines. *)
Definition log_line (line : pystr) (r : Radio) : Radio :=
  let l := rd_log r ++ [rstrip line] in r <| rd_log := drop (length l - 120) l |>.

(** [_process_command]: nothing when [ps] cannot be run or does not answer. *)
Definition process_command (answers : bool) (pid : Z) (o : OS) : pystr :=
  if answers then default [] (os_procs o !! pid) else [].
Definition is_rtl_fm (answers : bool) (pid : Z) (o : OS) : bool :=
  endswith (process_command answers pid o) (u "rtl_fm").

(** A process ends. *)
Definition kill (pid : Z) (o : OS) : OS :=
  o <| os_procs := delete pid (os_procs o) |> <| os_ours := os_ours o ∖ {[pid]} |>
    <| os_lost := os_lost o ∖ {[pid]} |>.

(** The receiver we supervise is alive and has this pid. *)
Definition supervised (r : Radio) (pid : Z) : bool := rd_alive r && bool_decide (rd_proc r = Some pid).

(** [_foreign_rtl_fm] *)
Definition foreign_rtl_fm (answers : bool) (r : Radio) (o : OS) : bool :=
  match os_pidfile o with
  | None => false
  | Some pid => negb (supervised r pid) && (0 <? pid) && is_rtl_fm answers pid o
  end.

(** The polls after SIGTERM, up to 2 s of them, and SIGKILL at the end. *)
Fixpoint await_exit (rp : Reaping) (pid : Z) (polls i : nat) (o : OS) : OS :=
  let o := match rp_exits rp with Some k => if (k <=? i)%nat then kill pid o else o | None => o end in
  match polls with
  | O => if rp_kill rp then kill pid o else o
  | S polls => if negb (is_rtl_fm (rp_polls rp i) pid o) then o else await_exit rp pid polls (S i) o
  end.

Definition terminate (rp : Reaping) (pid : Z) (o : OS) : OS :=
  if rp_term rp then await_exit rp pid 20 0 o else o.

(** The ghost's part: a receiver of ours that is still there is lost. *)
Definition write_off (pid : Z) (o : OS) : OS := o <| os_lost := os_lost o ∪ ({[pid]} ∩ os_ours o) |>.

(** [_reap_stale] *)
Definition reap_stale (rp : Reaping) (r : Radio) (o : OS) : Radio * OS :=
  match os_pidfile o with
  | None => (r, o)
  | Some pid =>
      if supervised r pid then (r, o)
      else
        let '(r, o) :=
          if (0 <? pid) && is_rtl_fm (rp_ps rp) pid o then
            (log_line (u "reaped stale rtl_fm (pid " ++ str_of_Z pid ++ u ")") r, terminate rp pid o)
          else (r, o) in
        let o := write_off pid o in
        (r, if rp_unlinks rp then o <| os_pidfile := None |> else o)
  end.

(** [_PIDFILE.write_text(str(proc.pid))], in its [try]. *)
Definition write_pidfile (w : Write) (pid : Z) (o : OS) : OS :=
  match w with
  | Written => o <| os_pidfile := Some pid |>
  | WriteFailed content => o <| os_pidfile := content |> <| os_lost := os_lost o ∪ {[pid]} |>
  end.

(** The command line of a start. *)
Definition argv (freq : float) (device_index : Z) (gain : option float) (direct_sampling : bool) :
    list pystr :=
  [u "rtl_fm"; u "-M"; u "wbfm"; u "-f"; fmt_fixed 4 freq ++ u "M"; u "-d"; str_of_Z device_index]
  ++ (match gain with Some g => [u "-g"; fmt_fixed 1 g] | None => [] end)
  ++ (if direct_sampling then [u "-E"; u "direct2"] else []) ++ [u "-"].

(** [_stop_locked] *)
Definition stop_locked (rp : Reaping) (r : Radio) (o : OS) : Radio * OS :=
  let o := match rd_proc r with Some pid => if rd_alive r then kill pid o else o | None => o end in
  reap_stale rp (r <| rd_proc := None |> <| rd_alive := false |> <| rd_freq_mhz := None |>) o.

(** [list(_state["log"])[-3:]], joined. *)
Definition log_tail (r : Radio) : pystr := join (u " / ") (drop (length (rd_log r) - 3) (rd_log r)).

(** [_start_locked] *)
Definition start_locked (m : Machine) (freq : float) (device_index : Z) (gain : option float)
    (direct_sampling : bool) (r : Radio) (o : OS) : result RadioErr unit * (Radio * OS) :=
  if device_index <? 0 then (Err (BadDevice device_index), (r, o))
  else if negb (mc_rtl_fm m) then (Err NoTools, (r, o))
  else
    let '(r, o) := reap_stale (mc_reap m 1) r o in
    if rd_alive r then (Err AlreadyRunning, (r, o))
    else
      let r := r <| rd_log := [] |> <| rd_error := [] |> <| rd_sink_open := false |>
                 <| rd_sink_gone := false |> in
      let r := log_line (u "$ " ++ join (u " ") (argv freq device_index gain direct_sampling)) r in
      let sp := mc_spawn m in
      match sp_pid sp with
      | None => (Err SpawnFailed, (r, o))
      | Some pid =>
          let r := r <| rd_proc := Some pid |> <| rd_alive := true |> <| rd_freq_mhz := Some freq |> in
          let o := o <| os_procs := <[pid := u "rtl_fm"]> (os_procs o) |>
                     <| os_ours := os_ours o ∪ {[pid]} |> in
          let o := write_pidfile (mc_write m) pid o in
          (* the pump and the stderr reader run during the second's wait *)
          let r := foldl (fun r l => log_line l r) r (sp_stderr sp) in
          let r := if sp_opens sp then r <| rd_sink_open := true |>
                   else log_line (u "audio sink stopped: " ++ sp_error sp)
                          (r <| rd_error := sp_error sp |> <| rd_sink_gone := true |>) in
          if sp_dies sp then
            let o := kill pid o in
            let r := r <| rd_alive := false |> <| rd_proc := None |> <| rd_freq_mhz := None |> in
            let tail := log_tail r in
            (Err (if contains (u "usb_claim_interface") tail || contains (u "device is busy") (lower tail)
                  then InUse
                  else ExitedAtOnce (if nonempty tail then tail else u "no output")), (r, o))
          else if negb (rd_sink_open r) then
            let reason := if nonempty (rd_error r) then rd_error r
                          else u "the audio device wouldn't open" in
            (Err (NoAudio freq reason), stop_locked (mc_reap m 2) r o)
          else (Ok tt, (r, o))
      end.

(** [_validate_freq] *)
Definition validate_freq (freq : float) : result RadioErr (RadioBand float) :=
  match band_for freq with Some b => Ok b | None => Err (OutOfBand freq) end.

Definition start (m : Machine) (freq : float) (device_index : Z) (gain : option float)
    (direct_sampling : bool) (r : Radio) (o : OS) : result RadioErr unit * (Radio * OS) :=
  match validate_freq freq with
  | Err e => (Err e, (r, o))
  | Ok _ => start_locked m freq device_index gain direct_sampling r o
  end.

Definition stop (m : Machine) (r : Radio) (o : OS) : Radio * OS := stop_locked (mc_reap m 0) r o.

Definition retune (m : Machine) (freq : float) (device_index : Z) (gain : option float)
    (direct_sampling : bool) (r : Radio) (o : OS) : result RadioErr unit * (Radio * OS) :=
  match validate_freq freq with
  | Err e => (Err e, (r, o))
  | Ok _ =>
      let '(r, o) := stop_locked (mc_reap m 0) r o in start_locked m freq device_index gain direct_sampling r o
  end.

(** [status], without the toolchain report. *)
Record Status := {
  su_running : bool;
  su_audio : bool;
  su_pid : option Z;
  su_freq_mhz : option float;
  su_log : list pystr;
  su_error : pystr;
}.

Definition status (r : Radio) : Status :=
  let running := rd_alive r && bool_decide (is_Some (rd_proc r)) in
  {| su_running := running;
     su_audio := running && rd_sink_open r && negb (rd_sink_gone r);
     su_pid := if running then rd_proc r else None;
     su_freq_mhz := if running then rd_freq_mhz r else None;
     su_log := drop (length (rd_log r) - 25) (rd_log r);
     su_error := rd_error r |}.

(** What the [rtl_power] run of a sweep comes to. *)
Inductive Sweep := SwTimeout | SwOSError | SwOutput (stdout stderr : pystr).

Definition sweep_argv (b : RadioBand float) (device_index : Z) : list pystr :=
  [u "rtl_power"; u "-f";
   fmt_g (rb_low b) ++ u "M:" ++ fmt_g (rb_high b) ++ u "M:" ++ fmt_g (rb_sweep_bin_khz b) ++ u "k";
   u "-i"; u "1"; u "-1"; u "-d"; str_of_Z device_index; u "-"].

(** [_run_sweep] *)
Definition run_sweep (m : Machine) (sw : Sweep) (device_index : Z) (b : RadioBand float) (r : Radio) :
    result RadioErr (list (float * float)) * Radio :=
  if negb (mc_rtl_power m) then (Err NoPowerTool, r)
  else
    let r := log_line (u "$ " ++ join (u " ") (sweep_argv b device_index)) r in
    (match sw with
     | SwTimeout => Err SweepTimedOut
     | SwOSError => Err SweepFailed
     | SwOutput stdout stderr =>
         match parse_power_csv stdout b with
         | [] => Err (SweepEmpty (default (u "no output") (last (splitlines (strip stderr)))))
         | bins => Ok bins
         end
     end, r).

(** [seek]: the station found, with all of them. *)
Definition seek (m : Machine) (sw : Sweep) (up : bool) (from_mhz : float) (device_index : Z)
    (r : Radio) (o : OS) : result RadioErr (float * list (float * float)) * (Radio * OS) :=
  match validate_freq from_mhz with
  | Err e => (Err e, (r, o))
  | Ok band =>
      let was_playing := if rd_alive r && bool_decide (is_Some (rd_proc r)) then rd_freq_mhz r else None in
      let '(r, o) := stop_locked (mc_reap m 0) r o in
      let '(bins, r) := run_sweep m sw device_index band r in
      match bins with
      | Err e => (Err e, (r, o))
      | Ok bins =>
          let stations := find_stations bins band SEEK_THRESHOLD_DB in
          match next_station stations.*1 from_mhz up band with
          | None =>
              match was_playing with
              | Some f =>
                  let '(res, (r, o)) := start_locked m f device_index None false r o in
                  (match res with Err e => Err e | Ok _ => Err NoStation end, (r, o))
              | None => (Err NoStation, (r, o))
              end
          | Some target =>
              let '(res, (r, o)) := start_locked m target device_index None false r o in
              (match res with Err e => Err e | Ok _ => Ok (target, stations) end, (r, o))
          end
      end
  end.
