(* ===== verification/RadioDaemonFacts.v ===== *)
(** * The supervised receiver: no rtl_fm is ever left behind *)
From S2P Require Import Prelude PyFloat PyStr Events Radio RadioDaemon.
Open Scope Z_scope.

(** A start meets a pid no live process has. *)
Definition fresh_spawn (m : Machine) (o : OS) : Prop :=
  forall pid, sp_pid (mc_spawn m) = Some pid -> 0 < pid /\ os_procs o !! pid = None.

(** ** Steps: the operations, and what the world does on its own *)
Inductive step (allowed : Machine -> Prop) : Radio * OS -> Radio * OS -> Prop :=
| step_start m freq idx gain ds r o :
    allowed m -> fresh_spawn m o -> step allowed (r, o) (start m freq idx gain ds r o).2
| step_retune m freq idx gain ds r o :
    allowed m -> fresh_spawn m o -> step allowed (r, o) (retune m freq idx gain ds r o).2
| step_seek m sw up from idx r o :
    allowed m -> fresh_spawn m o -> step allowed (r, o) (seek m sw up from idx r o).2
| step_stop m r o : allowed m -> step allowed (r, o) (stop m r o)
(** The receiver exits on its own. *)
| step_exit pid r o :
    rd_alive r = true -> rd_proc r = Some pid -> step allowed (r, o) (r <| rd_alive := false |>, kill pid o)
(** Any other process exits, a receiver of an earlier server included. *)
| step_orphan_exit pid r o :
    supervised r pid = false -> step allowed (r, o) (r, kill pid o)
(** The server restarts: the module state is lost, the machine is not. *)
| step_restart r o : step allowed (r, o) (fresh_radio, o)
(** The sound device goes away. *)
| step_sink_gone r o : step allowed (r, o) (r <| rd_sink_gone := true |>, o)
(** Another program starts. *)
| step_other pid comm r o :
    os_procs o !! pid = None -> step allowed (r, o) (r, o <| os_procs := <[pid := comm]> (os_procs o) |>).

(** What the machine may do to the operations is [allowed]. *)
Inductive reachable (allowed : Machine -> Prop) : Radio * OS -> Prop :=
| reach_init procs : reachable allowed (fresh_radio, Build_OS procs None ∅ ∅)
| reach_step s s' : reachable allowed s -> step allowed s s' -> reachable allowed s'.

(** Nothing hinders a reaping (the pidfile may stay); nothing hinders an
    operation. *)
Definition effective (rp : Reaping) : Prop :=
  rp_ps rp = true /\ rp_term rp = true /\ (forall i, rp_polls rp i = true) /\ rp_kill rp = true.
Definition unhindered (m : Machine) : Prop := mc_write m = Written /\ forall n, effective (mc_reap m n).

(** ** The invariant *)
Record inv (r : Radio) (o : OS) : Prop := {
  inv_ours : forall pid, pid ∈ os_ours o ->
    0 < pid /\ os_procs o !! pid = Some (u "rtl_fm") /\ (pid ∈ os_lost o \/ os_pidfile o = Some pid);
  inv_lost : os_lost o ⊆ os_ours o;
  inv_tracked : rd_alive r = true -> exists pid, rd_proc r = Some pid /\ pid ∈ os_ours o;
}.

Lemma log_lines_same lines r :
  let r' := foldl (fun r l => log_line l r) r lines in
  rd_proc r' = rd_proc r /\ rd_alive r' = rd_alive r /\ rd_freq_mhz r' = rd_freq_mhz r
  /\ rd_sink_open r' = rd_sink_open r /\ rd_sink_gone r' = rd_sink_gone r.
Proof. revert r. induction lines as [|l ls IH]; intros r; [done|]. apply (IH (log_line l r)). Qed.

Lemma inv_ext r r' o :
  inv r o -> rd_proc r' = rd_proc r -> rd_alive r' = rd_alive r -> inv r' o.
Proof. intros [H1 H2 H3] Ep Ea. split; [done|done|]. by rewrite Ea, Ep. Qed.

Lemma rtl_fm_command : endswith (u "rtl_fm") (u "rtl_fm") = true.
Proof. reflexivity. Qed.

(** ** A part of the machine that only loses processes

    Only commands that end in rtl_fm go, none comes, and of ours only what is
    gone from the table is gone from the ghosts; [os_lost] may grow. *)
Record narrows (o o' : OS) : Prop := {
  nw_procs : forall p, os_procs o' !! p = os_procs o !! p
    \/ os_procs o' !! p = None /\ p ∉ os_ours o' /\ (exists comm, os_procs o !! p = Some comm /\ endswith comm (u "rtl_fm") = true);
  nw_ours : forall p, p ∈ os_ours o' -> p ∈ os_ours o;
  nw_kept : forall p, p ∈ os_ours o -> p ∉ os_ours o' -> os_procs o' !! p = None;
}.

Lemma narrows_refl o : narrows o o.
Proof. split; [by left|done|done]. Qed.

Lemma narrows_trans o1 o2 o3 : narrows o1 o2 -> narrows o2 o3 -> narrows o1 o3.
Proof.
  intros [P O K] [P' O' K']. split; [|by eauto|].
  - intros p. destruct (P' p) as [E|(E & N & comm & H)].
    + rewrite E. destruct (P p) as [?|(? & ? & ?)]; [by left|right]. split_and!; [done| |done]. auto.
    + right. split_and!; [done|done|]. exists comm. destruct (P p) as [E'|(E' & _)]; rewrite E' in H; naive_solver.
  - intros p H1 H3. destruct (decide (p ∈ os_ours o2)) as [H2|H2]; [by apply K'|].
    destruct (P' p) as [E|(E & _)]; [|done]. rewrite E. by apply K.
Qed.

Lemma narrows_spares o o' p comm :
  narrows o o' -> os_procs o !! p = Some comm -> endswith comm (u "rtl_fm") = false -> os_procs o' !! p = Some comm.
Proof. intros [P _ _] Hp Hc. destruct (P p) as [->|(_ & _ & c & Hp' & Hc')]; [done|]. congruence. Qed.

Lemma narrows_free o o' p : narrows o o' -> os_procs o !! p = None -> os_procs o' !! p = None.
Proof. intros [P _ _] Hp. destruct (P p) as [->|(-> & _)]; done. Qed.

Lemma kill_narrows ps pid o : is_rtl_fm ps pid o = true -> narrows o (kill pid o).
Proof.
  intros Hr. split; cbn.
  - intros p. destruct (decide (p = pid)) as [->|Hne]; [|left; by rewrite lookup_delete_ne].
    right. rewrite lookup_delete_eq. split_and!; [done|set_solver|].
    unfold is_rtl_fm, process_command in Hr. destruct ps; [|done]. destruct (os_procs o !! pid); [eauto|done].
  - set_solver.
  - intros p H1 H2. destruct (decide (p = pid)) as [->|]; [apply lookup_delete_eq|set_solver].
Qed.

Lemma gone_narrows o o' : os_procs o' = os_procs o -> os_ours o' = os_ours o -> narrows o o'.
Proof. intros E1 E2. split; rewrite ?E1, ?E2; [by left|done|done]. Qed.

(** What goes away keeps the invariant, if the supervised one stays or is given
    up, and if the pidfile still names all that are not lost. *)
Lemma inv_narrows r o o' :
  inv r o -> narrows o o' -> (forall p, p ∈ os_lost o -> p ∈ os_ours o' -> p ∈ os_lost o') ->
  os_lost o' ⊆ os_ours o' ->
  (forall p, p ∈ os_ours o' -> os_pidfile o = Some p -> p ∈ os_lost o' \/ os_pidfile o' = Some p) ->
  (forall p, rd_alive r = true -> rd_proc r = Some p -> p ∈ os_ours o -> p ∈ os_ours o') -> inv r o'.
Proof.
  intros [Ho Hl Ht] [P O K] Hl1 Hl2 Hf Hs. split; [|done|].
  - intros p Hp. destruct (Ho p (O p Hp)) as (Hpos & Hc & Hn). split_and!; [done| |].
    + destruct (P p) as [->|(_ & Hno & _)]; [done|]. contradiction.
    + destruct Hn as [Hn|Hn]; [left; by apply Hl1|by apply Hf].
  - intros Ha. destruct (Ht Ha) as (p & Hp & Hin). exists p. split; [done|]. by apply Hs.
Qed.

Lemma ours_is_rtl_fm r o pid : inv r o -> pid ∈ os_ours o -> is_rtl_fm true pid o = true.
Proof. intros [Ho _ _] Hp. destruct (Ho pid Hp) as (_ & Hc & _). unfold is_rtl_fm, process_command. by rewrite Hc. Qed.

(** ** The wait for a signalled receiver *)

Lemma kill_kill pid o : kill pid (kill pid o) = kill pid o.
Proof.
  unfold kill. cbn. f_equal; [apply delete_delete_eq|apply set_eq; set_solver..].
Qed.

Lemma killed_not_rtl_fm ps pid o : is_rtl_fm ps pid (kill pid o) = false.
Proof. unfold is_rtl_fm, process_command. destruct ps; [|done]. cbn. by rewrite lookup_delete_eq. Qed.

(** The signalled receiver is gone or still there; nothing else changes; and it
    is gone if [ps] answers and SIGKILL works. *)
Lemma await_spec rp pid n i o :
  (await_exit rp pid n i o = o \/ await_exit rp pid n i o = kill pid o)
  /\ (is_rtl_fm true pid o = true -> (forall j, rp_polls rp j = true) -> rp_kill rp = true ->
      await_exit rp pid n i o = kill pid o).
Proof.
  revert i. induction n as [|n IH]; intros i; cbn [await_exit];
    (destruct (rp_exits rp) as [k|]; [destruct (k <=? i)%nat|]).
  1: destruct (rp_kill rp); rewrite ?kill_kill; auto.
  1, 2: destruct (rp_kill rp); split; auto; done.
  1: rewrite killed_not_rtl_fm; auto.
  all: split; [destruct (is_rtl_fm (rp_polls rp i) pid o); cbn [negb]; [apply IH|by left]
    |intros Hr Hp Hk; rewrite Hp, Hr; cbn [negb]; by apply IH].
Qed.

Lemma terminate_spec rp pid o :
  (terminate rp pid o = o \/ terminate rp pid o = kill pid o)
  /\ (is_rtl_fm true pid o = true -> effective rp -> terminate rp pid o = kill pid o).
Proof.
  unfold terminate. destruct (await_spec rp pid 20 0 o) as [H1 H2]. split.
  - destruct (rp_term rp); [done|by left].
  - intros Hr (_ & -> & Hp & Hk). by apply H2.
Qed.

(** [_reap_stale]: whatever it finds and however it fails, it keeps the
    invariant, spares everything that is not an rtl_fm, and leaves none of ours
    but the supervised one and the lost ones; it loses none if nothing hinders
    it. *)
Lemma reap_spec rp r o r' o' :
  inv r o -> reap_stale rp r o = (r', o') ->
  inv r' o' /\ rd_alive r' = rd_alive r /\ rd_proc r' = rd_proc r
  /\ narrows o o' /\ (rd_alive r = false -> os_ours o' ⊆ os_lost o')
  /\ (effective rp -> os_lost o' ⊆ os_lost o).
Proof.
  intros Hi. pose proof Hi as [Ho Hl Ht]. unfold reap_stale.
  destruct (os_pidfile o) as [pid|] eqn:Ef.
  2: { intros [= <- <-]. split_and!; [done|done|done|apply narrows_refl| |done].
       intros _ p Hp. by destruct (Ho p Hp) as (_ & _ & [?|?]). }
  destruct (supervised r pid) eqn:Es.
  { intros [= <- <-]. split_and!; [done|done|done|apply narrows_refl| |done]. intros Ha.
    unfold supervised in Es. by rewrite Ha in Es. }
  set (x := if (0 <? pid) && _ then _ else _).
  assert (rd_alive x.1 = rd_alive r /\ rd_proc x.1 = rd_proc r /\ (x.2 = o \/ x.2 = kill pid o)
    /\ narrows o x.2 /\ (effective rp -> pid ∉ os_ours x.2)) as (Ha & Hp & Hx & Hn & He).
  { subst x. destruct ((0 <? pid) && _) eqn:Ek; cbn [fst snd].
    - apply andb_true_iff in Ek as [_ Ek].
      assert (is_rtl_fm true pid o = true) as Et by (by destruct (rp_ps rp)).
      destruct (terminate_spec rp pid o) as [Hk He]. split_and!; [done|done|done| |].
      + destruct Hk as [->| ->]; [apply narrows_refl|by apply (kill_narrows true)].
      + intros H. rewrite He by done. cbn. set_solver.
    - split_and!; [done|done|by left|apply narrows_refl|]. intros (Hps & _) Hin.
      destruct (Ho pid Hin) as (Hpos & _). rewrite Hps, (ours_is_rtl_fm r o pid Hi Hin) in Ek. lia. }
  clearbody x. destruct x as [r1 o1]. cbn [fst snd] in *.
  set (o2 := if rp_unlinks rp then _ else _). intros [= <- <-].
  assert (os_procs o2 = os_procs o1 /\ os_ours o2 = os_ours o1 /\ os_lost o2 = os_lost o1 ∪ ({[pid]} ∩ os_ours o1))
    as (Q1 & Q2 & Q3) by (subst o2; by destruct (rp_unlinks rp)).
  assert (narrows o o2) as Hn2 by (eapply narrows_trans; [exact Hn|by apply gone_narrows]).
  assert (os_lost o1 = os_lost o /\ os_ours o1 = os_ours o
    \/ os_lost o1 = os_lost o ∖ {[pid]} /\ os_ours o1 = os_ours o ∖ {[pid]}) as Hlo
    by (destruct Hx as [->| ->]; [left|right]; done).
  split_and!; [|done|done|done| |].
  - apply (inv_ext r); [|done|done]. apply (inv_narrows r o); [done|done| | | |].
    + rewrite Q2, Q3. intros p H1 H2. destruct Hlo as [[E1 E2]|[E1 E2]]; set_solver.
    + rewrite Q2, Q3. destruct Hlo as [[E1 E2]|[E1 E2]]; set_solver.
    + rewrite Q2, Q3. intros p H1 H2. left. assert (p = pid) as -> by congruence. set_solver.
    + intros p Hal Hpr Hin. rewrite Q2.
      assert (p <> pid) by (intros ->; unfold supervised in Es; rewrite Hal, Hpr in Es; by rewrite bool_decide_eq_true_2 in Es).
      destruct Hlo as [[_ ->]|[_ ->]]; set_solver.
  - intros _ p. rewrite Q2, Q3. intros H1.
    destruct (Ho p (nw_ours _ _ Hn p H1)) as (_ & _ & [H2|H2]).
    + destruct Hlo as [[E1 E2]|[E1 E2]]; set_solver.
    + assert (p = pid) as -> by congruence. set_solver.
  - intros H. specialize (He H). rewrite Q3. destruct Hlo as [[E1 E2]|[E1 E2]]; set_solver.
Qed.

(** [_stop_locked] leaves nothing of ours alive but lost ones, and never the
    receiver it supervised. *)
Lemma stop_spec rp r o r' o' :
  inv r o -> stop_locked rp r o = (r', o') ->
  inv r' o' /\ rd_alive r' = false /\ rd_proc r' = None /\ narrows o o' /\ os_ours o' ⊆ os_lost o'
  /\ (effective rp -> os_lost o' ⊆ os_lost o)
  /\ (forall p, rd_alive r = true -> rd_proc r = Some p -> p ∉ os_ours o').
Proof.
  intros Hi. unfold stop_locked.
  set (o1 := match rd_proc r with Some _ => _ | None => _ end).
  set (r1 := r <| rd_proc := None |> <| rd_alive := false |> <| rd_freq_mhz := None |>).
  assert (inv r1 o1 /\ narrows o o1 /\ os_lost o1 ⊆ os_lost o
    /\ (forall p, rd_alive r = true -> rd_proc r = Some p -> p ∉ os_ours o1)) as (H1 & Hs & Hl & Hd).
  { subst o1. destruct (rd_proc r) as [pid|] eqn:Ep; [destruct (rd_alive r) eqn:Ea|].
    2,3: split_and!; [split; [apply Hi|apply Hi|done]|apply narrows_refl|done|done].
    pose proof (inv_tracked _ _ Hi Ea) as (p & Hp & Hin). rewrite Ep in Hp. injection Hp as <-.
    assert (narrows o (kill pid o)) as Hn by (by eapply kill_narrows, (ours_is_rtl_fm r)).
    split_and!; [|done|cbn; set_solver|intros p _ [= <-]; cbn; set_solver].
    apply (inv_narrows r1 o); [|done|cbn; set_solver| | |by cbn].
    - split; [apply Hi|apply Hi|done].
    - pose proof (inv_lost _ _ Hi). cbn. set_solver.
    - intros p Hp Hf. by right. }
  intros E. destruct (reap_spec rp r1 o1 r' o' H1 E) as (Hi' & Ha & Hp & Hn & Hlost & He).
  split_and!; [done|done|done|by eapply narrows_trans|by apply Hlost|intros H; specialize (He H); set_solver|].
  intros p Hal Hpr Hin. by apply (Hd p), (nw_ours _ _ Hn).
Qed.

(** ** A start *)

(** An operation touches nothing that is not an rtl_fm. *)
Definition spares (o o' : OS) : Prop :=
  forall pid comm, os_procs o !! pid = Some comm -> endswith comm (u "rtl_fm") = false ->
    os_procs o' !! pid = Some comm.

Lemma spares_refl o : spares o o.
Proof. by intros ???. Qed.
Lemma spares_trans o1 o2 o3 : spares o1 o2 -> spares o2 o3 -> spares o1 o3.
Proof. intros H1 H2 pid comm Hp Hc. by apply H2, Hc; apply H1. Qed.
Lemma spares_narrows o o' : narrows o o' -> spares o o'.
Proof. intros H pid comm. by apply narrows_spares. Qed.

Lemma fresh_narrows m o o' : fresh_spawn m o -> narrows o o' -> fresh_spawn m o'.
Proof. intros Hf Hs pid Hp. destruct (Hf pid Hp). split; [done|by eapply narrows_free]. Qed.

(** The machine right after a spawn. *)
Definition spawned (w : Write) (pid : Z) (o : OS) : OS :=
  write_pidfile w pid (o <| os_procs := <[pid := u "rtl_fm"]> (os_procs o) |> <| os_ours := os_ours o ∪ {[pid]} |>).

Lemma spawn_inv w pid o r r' :
  inv r' o -> os_ours o ⊆ os_lost o -> 0 < pid -> os_procs o !! pid = None -> rd_proc r = Some pid ->
  inv r (spawned w pid o)
  /\ os_ours (spawned w pid o) = os_ours o ∪ {[pid]} /\ os_lost o ⊆ os_lost (spawned w pid o)
  /\ os_procs (spawned w pid o) = <[pid := u "rtl_fm"]> (os_procs o)
  /\ (w = Written -> os_lost (spawned w pid o) = os_lost o).
Proof.
  intros Hi Hn Hpos Hfree Hp.
  assert (pid ∉ os_ours o) as Hnew.
  { intros Hin. destruct (inv_ours _ _ Hi pid Hin) as (_ & E & _). congruence. }
  pose proof (inv_lost _ _ Hi) as Hl.
  assert (os_lost (spawned w pid o) ⊆ os_ours (spawned w pid o)) as Hl' by (destruct w; cbn; set_solver).
  split_and!; [split; [|done|]|by destruct w|destruct w; cbn; set_solver|by destruct w|by intros ->].
  - intros p Hin. assert (p = pid \/ p <> pid /\ p ∈ os_ours o) as [->|[Hne Hp']]
      by (destruct w; cbn in Hin; destruct (decide (p = pid)); set_solver).
    + split_and!; [done|destruct w; cbn; by rewrite lookup_insert_eq|destruct w; cbn; [by right|left; set_solver]].
    + destruct (inv_ours _ _ Hi p Hp') as (H1 & H2 & _). apply Hn in Hp'.
      split_and!; [done|destruct w; cbn; by rewrite lookup_insert_ne|left; destruct w; cbn; set_solver].
  - intros _. exists pid. split; [done|destruct w; cbn; set_solver].
Qed.

(** What a start promises: the invariant, that only rtl_fm processes were
    killed, and that it either plays what was asked with the sink open, or has
    nothing of its own running. *)
Lemma start_spec m freq idx gain ds r o res r' o' :
  inv r o -> fresh_spawn m o -> start_locked m freq idx gain ds r o = (res, (r', o')) ->
  inv r' o' /\ spares o o' /\ (unhindered m -> os_lost o' ⊆ os_lost o)
  /\ match res with
     | Ok _ => rd_alive r = false /\ su_audio (status r') = true
               /\ su_freq_mhz (status r') = Some freq /\ su_pid (status r') = sp_pid (mc_spawn m)
     | Err _ => rd_alive r' = rd_alive r /\ os_ours o' ⊆ os_ours o
     end.
Proof.
  intros Hi Hf. unfold start_locked.
  destruct (idx <? 0); [intros [= <- <- <-]; split_and!; [done|apply spares_refl|done|done|done]|].
  destruct (mc_rtl_fm m); cbn [negb]; [|intros [= <- <- <-]; split_and!; [done|apply spares_refl|done|done|done]].
  destruct (reap_stale (mc_reap m 1) r o) as [r1 o1] eqn:Er.
  destruct (reap_spec _ _ _ _ _ Hi Er) as (Hi1 & Ha1 & Hp1 & Hk1 & Hn1 & He1).
  pose proof (spares_narrows _ _ Hk1) as Hs1.
  assert (unhindered m -> os_lost o1 ⊆ os_lost o) as Hu1 by (intros [_ H]; by apply He1).
  assert (os_ours o1 ⊆ os_ours o) as Ho1 by (intros p; apply Hk1).
  destruct (rd_alive r1) eqn:Ea; [intros [= <- <- <-]; split_and!; [done|done|done|congruence|done]|].
  assert (rd_alive r = false) as Hdead by congruence. specialize (Hn1 Hdead).
  set (r2 := log_line _ _).
  destruct (sp_pid (mc_spawn m)) as [pid|] eqn:Esp.
  2: { intros [= <- <- <-]. split_and!; [by apply (inv_ext r1)|done|done|by rewrite Hdead|done]. }
  destruct (fresh_narrows _ _ _ Hf Hk1 pid Esp) as [Hpos Hnone].
  set (r3 := r2 <| rd_proc := Some pid |> <| rd_alive := true |> <| rd_freq_mhz := Some freq |>).
  change (write_pidfile _ _ _) with (spawned (mc_write m) pid o1).
  destruct (log_lines_same (sp_stderr (mc_spawn m)) r3) as (Lp & La & Lf & Lo & Lg).
  set (r4 := foldl _ r3 _) in *. clearbody r4.
  set (r5 := if sp_opens (mc_spawn m) then _ else _).
  assert (rd_proc r5 = Some pid /\ rd_alive r5 = true /\ rd_freq_mhz r5 = Some freq
          /\ rd_sink_open r5 = sp_opens (mc_spawn m)
          /\ (sp_opens (mc_spawn m) = true -> rd_sink_gone r5 = false)) as (Fp & Fa & Ff & Fo & Fg).
  { subst r5. destruct (sp_opens (mc_spawn m)); cbn; rewrite ?Lp, ?La, ?Lf, ?Lo, ?Lg; split_and!; done. }
  destruct (spawn_inv (mc_write m) pid o1 r5 r1 Hi1 Hn1 Hpos Hnone Fp) as (Hi2 & Eo2 & El2 & Ep2 & Ew2).
  set (o2 := spawned _ _ _) in *. clearbody o2 r5.
  assert (spares o o2) as Hs2.
  { eapply spares_trans; [exact Hs1|]. intros p comm Hp Hc. rewrite Ep2, lookup_insert_ne; [done|congruence]. }
  assert (unhindered m -> os_lost o2 ⊆ os_lost o) as Hu2 by (intros H; rewrite Ew2 by apply H; by apply Hu1).
  destruct (sp_dies (mc_spawn m)).
  { intros [= <- <- <-].
    assert (narrows o2 (kill pid o2)) as Hk2.
    { apply (kill_narrows true), (ours_is_rtl_fm r5); [done|]. set_solver. }
    split_and!; [|by eapply spares_trans, spares_narrows|intros Hu; specialize (Hu2 Hu); cbn; set_solver|by rewrite Hdead|cbn; set_solver].
    apply (inv_narrows _ o2); [split; [apply Hi2|apply Hi2|done]|done|cbn; set_solver| |intros p _; by right|done].
    pose proof (inv_lost _ _ Hi2). cbn. set_solver. }
  destruct (rd_sink_open r5) eqn:Eo; cbn [negb].
  - intros [= <- <- <-]. split_and!; [done|done|done|done| | |].
    all: unfold status; rewrite Fa, Fp; cbn [andb su_audio su_freq_mhz su_pid];
      rewrite ?bool_decide_eq_true_2 by done; try done.
    rewrite Eo, Fg by congruence. done.
  - destruct (stop_locked (mc_reap m 2) r5 o2) as [r6 o6] eqn:Es6. intros [= <- <- <-].
    destruct (stop_spec _ _ _ _ _ Hi2 Es6) as (Hi6 & Ha6 & Hp6 & Hs6 & _ & He6 & Hd6).
    split_and!; [done|by eapply spares_trans, spares_narrows| |by rewrite Ha6, Hdead|].
    + intros Hu. specialize (Hu2 Hu). destruct Hu as [_ Hu]. specialize (He6 (Hu 2%nat)). set_solver.
    + intros p Hp. pose proof (Hd6 pid Fa Fp). apply (nw_ours _ _ Hs6) in Hp as Hp2. set_solver.
Qed.

(** ** Every step keeps the invariant *)
Lemma step_inv allowed s s' :
  step allowed s s' -> inv s.1 s.2 ->
  inv s'.1 s'.2 /\ ((forall m, allowed m -> unhindered m) -> os_lost s'.2 ⊆ os_lost s.2).
Proof.
  intros Hstep Hi. destruct Hstep as [m freq idx gain ds r o Ha Hf|m freq idx gain ds r o Ha Hf
    |m sw up from idx r o Ha Hf|m r o Ha|pid r o Ha Hp|pid r o Hs|r o|r o|pid comm r o Hn]; cbn [fst snd] in *.
  - unfold start. destruct (validate_freq freq); [|done].
    destruct (start_locked _ _ _ _ _ _ _) as [res [r' o']] eqn:E.
    apply start_spec in E as (? & _ & ? & _); auto.
  - unfold retune. destruct (validate_freq freq); [|done].
    destruct (stop_locked _ r o) as [r1 o1] eqn:E1.
    destruct (stop_spec _ _ _ _ _ Hi E1) as (Hi1 & _ & _ & Hk & _ & He & _).
    destruct (start_locked _ _ _ _ _ _ _) as [res [r' o']] eqn:E.
    apply start_spec in E as (? & _ & Hu & _); [|done|by eapply fresh_narrows].
    split; [done|]. intros Hu'. etrans; [by apply Hu, Hu'|]. by apply He, Hu'.
  - unfold seek. destruct (validate_freq from) as [band|]; [|done].
    destruct (stop_locked _ r o) as [r1 o1] eqn:E1.
    destruct (stop_spec _ _ _ _ _ Hi E1) as (Hi1 & _ & _ & Hk & _ & He & _).
    assert (fresh_spawn m o1) as Hf1 by (by eapply fresh_narrows).
    assert ((forall m, allowed m -> unhindered m) -> os_lost o1 ⊆ os_lost o) as He1 by (intros Hu'; by apply He, Hu').
    destruct (run_sweep m sw idx band r1) as [bins r2] eqn:E2.
    assert (inv r2 o1) as Hi2.
    { unfold run_sweep in E2. destruct (negb (mc_rtl_power m)); injection E2 as _ <-; [done|].
      by apply (inv_ext r1). }
    destruct bins as [bins|e]; [|done].
    assert (forall f res r' o', start_locked m f idx None false r2 o1 = (res, (r', o')) ->
      inv r' o' /\ ((forall m, allowed m -> unhindered m) -> os_lost o' ⊆ os_lost o)) as Hstart.
    { intros f res r' o' E. apply start_spec in E as (? & _ & Hu & _); [|done|done]. split; [done|].
      intros Hu'. etrans; [by apply Hu, Hu'|by apply He1]. }
    destruct (next_station _ _ _ _) as [target|].
    + destruct (start_locked _ _ _ _ _ _ _) as [res [r' o']] eqn:E. by apply Hstart in E.
    + destruct (if rd_alive r && _ then rd_freq_mhz r else None) as [f|]; [|done].
      destruct (start_locked _ _ _ _ _ _ _) as [res [r' o']] eqn:E. by apply Hstart in E.
  - unfold stop. destruct (stop_locked _ r o) as [r1 o1] eqn:E1.
    destruct (stop_spec _ _ _ _ _ Hi E1) as (? & _ & _ & _ & _ & He & _).
    split; [done|]. intros Hu'. by apply He, Hu'.
  - pose proof (inv_lost _ _ Hi) as Hl. split; [|intros _; cbn; set_solver]. split; cbn; [|set_solver|done].
    intros q Hq. destruct (inv_ours _ _ Hi q) as (? & ? & ?); [set_solver|].
    split_and!; [done|rewrite lookup_delete_ne; [done|set_solver]|set_solver].
  - pose proof (inv_lost _ _ Hi) as Hl. split; [|intros _; cbn; set_solver]. split; cbn; [|set_solver|].
    + intros q Hq. destruct (inv_ours _ _ Hi q) as (? & ? & ?); [set_solver|].
      split_and!; [done|rewrite lookup_delete_ne; [done|set_solver]|set_solver].
    + intros Ha. destruct (inv_tracked _ _ Hi Ha) as (q & Hq & Hin). exists q. split; [done|].
      unfold supervised in Hs. rewrite Ha, Hq in Hs. apply bool_decide_eq_false in Hs. set_solver.
  - split; [split; [apply Hi|apply Hi|done]|done].
  - split; [by apply (inv_ext r)|done].
  - split; [|done]. split; [|apply Hi|apply Hi]. cbn. intros q Hq. destruct (inv_ours _ _ Hi q Hq) as (? & ? & ?).
    split_and!; [done| |done]. rewrite lookup_insert_ne; [done|congruence].
Qed.

Lemma reachable_inv allowed s :
  reachable allowed s -> inv s.1 s.2 /\ ((forall m, allowed m -> unhindered m) -> os_lost s.2 = ∅).
Proof.
  induction 1 as [procs|s s' _ [IH IHl] Hs]; [split; [split; cbn; [set_solver|set_solver|done]|done]|].
  destruct (step_inv _ _ _ Hs IH) as [Hi Hl]. split; [done|]. intros H. specialize (IHl H). specialize (Hl H). set_solver.
Qed.

(** C2: however tunes, seeks, stops, server restarts, crashes and other
    programs are interleaved, and whichever of the failures occur that the code
    swallows (the pidfile not written or not removed, [ps] without an answer, a
    signal refused): what the status reports as running is a live rtl_fm of
    ours; beside receivers one of those failures has lost, at most one is
    alive, and the pidfile names it; a stop ends the receiver it supervised,
    leaves none alive but lost ones, loses none itself if [ps] answers it and
    its signals are let through, and touches no process that is not an rtl_fm.
    In a history without such a failure none is lost: at most one rtl_fm
    started by this server is ever alive, and a stop that meets none either
    leaves none, not even one an earlier server process left playing. *)
Theorem no_orphan_receiver (allowed : Machine -> Prop) (m : Machine) (r : Radio) (o : OS) :
  reachable allowed (r, o) ->
  (forall p q, p ∈ os_ours o ∖ os_lost o -> q ∈ os_ours o ∖ os_lost o -> p = q /\ os_pidfile o = Some p)
  /\ (forall p, p ∈ os_ours o -> os_procs o !! p = Some (u "rtl_fm"))
  /\ (forall p, su_pid (status r) = Some p -> p ∈ os_ours o)
  /\ ((forall m, allowed m -> unhindered m) -> os_lost o = ∅)
  /\ let '(r', o') := stop m r o in
     su_running (status r') = false
     /\ (forall p, su_pid (status r) = Some p -> os_procs o' !! p = None)
     /\ os_ours o' ⊆ os_lost o'
     /\ (effective (mc_reap m 0) -> os_ours o' ⊆ os_lost o)
     /\ forall p comm, os_procs o !! p = Some comm -> endswith comm (u "rtl_fm") = false ->
          os_procs o' !! p = Some comm.
Proof.
  intros Hr. destruct (reachable_inv _ _ Hr) as [Hi Hlost]. cbn [fst snd] in Hi, Hlost.
  assert (forall p, su_pid (status r) = Some p -> rd_alive r = true /\ rd_proc r = Some p /\ p ∈ os_ours o) as Hs.
  { intros p. unfold status. cbn [su_pid]. destruct (rd_alive r) eqn:Ea; [|done]. cbn [andb].
    destruct (inv_tracked _ _ Hi Ea) as (q & Hq & Hin). rewrite Hq.
    rewrite bool_decide_eq_true_2 by done. by intros [= <-]. }
  split_and!; [| |by intros p (_ & _ & ?)%Hs|done|].
  - intros p q [Hp Np]%elem_of_difference [Hq Nq]%elem_of_difference.
    destruct (inv_ours _ _ Hi p Hp) as (_ & _ & [?|Ep]); [done|].
    destruct (inv_ours _ _ Hi q Hq) as (_ & _ & [?|Eq]); [done|]. split; congruence.
  - intros p Hp. by destruct (inv_ours _ _ Hi p Hp) as (_ & ? & _).
  - unfold stop. destruct (stop_locked _ r o) as [r' o'] eqn:E.
    destruct (stop_spec _ _ _ _ _ Hi E) as (_ & Ha & _ & Hn & Ho & He & Hd).
    split_and!; [unfold status; cbn; by rewrite Ha| |done|intros H; specialize (He H); set_solver|intros p comm; by apply narrows_spares].
    intros p (Hal & Hpr & Hin)%Hs. apply (nw_kept _ _ Hn); [done|by apply Hd].
Qed.

(** what an operation reports is what is so: a start or retune that returns
    normally is playing, with sound, the frequency it was asked for, on the
    process it spawned; one that fails leaves at most what was running before,
    and a rejected frequency leaves the state and the machine untouched. *)
Theorem tune_reports_truth (m : Machine) (freq : float) (idx : Z) (gain : option float) (ds : bool)
    (r : Radio) (o : OS) (allowed : Machine -> Prop) :
  reachable allowed (r, o) -> fresh_spawn m o ->
  (band_for freq = None -> start m freq idx gain ds r o = (Err (OutOfBand freq), (r, o))
                           /\ retune m freq idx gain ds r o = (Err (OutOfBand freq), (r, o)))
  /\ (let '(res, (r', o')) := start m freq idx gain ds r o in
      match res with
      | Ok _ => su_audio (status r') = true /\ su_freq_mhz (status r') = Some freq
                /\ su_pid (status r') = sp_pid (mc_spawn m)
      | Err _ => rd_alive r' = rd_alive r /\ os_ours o' ⊆ os_ours o
      end)
  /\ (let '(res, (r', o')) := retune m freq idx gain ds r o in
      match res with
      | Ok _ => su_audio (status r') = true /\ su_freq_mhz (status r') = Some freq
                /\ su_pid (status r') = sp_pid (mc_spawn m)
      | Err e => e = OutOfBand freq
                 \/ su_running (status r') = false /\ (unhindered m -> os_ours o' ⊆ os_lost o)
      end).
Proof.
  intros Hr Hf. destruct (reachable_inv _ _ Hr) as [Hi _]. cbn [fst snd] in Hi.
  unfold start, retune, validate_freq. destruct (band_for freq) as [b|]; [|split; [done|]; split; [done|by left]].
  split_and!; [done| |].
  - destruct (start_locked m freq idx gain ds r o) as [res [r' o']] eqn:E.
    apply start_spec in E as (_ & _ & _ & Hres); [|done|done]. by destruct res; [destruct Hres as (_ & ? & ? & ?)|].
  - destruct (stop_locked _ r o) as [r1 o1] eqn:E1.
    destruct (stop_spec _ _ _ _ _ Hi E1) as (Hi1 & Ha1 & _ & Hk & Hn & He & _).
    destruct (start_locked m freq idx gain ds r1 o1) as [res [r' o']] eqn:E.
    apply start_spec in E as (_ & _ & _ & Hres); [|done|by eapply fresh_narrows].
    destruct res as [[]|e]; [by destruct Hres as (_ & ? & ? & ?)|]. right.
    destruct Hres as [Ha Hs]. split; [unfold status; cbn; by rewrite Ha, Ha1|].
    intros [_ H]. specialize (He (H 0%nat)). set_solver.
Qed.

(** ** A failed seek or retune is silence

    The receiver has been playing; the operation has already stopped it. *)

(** a seek whose sweep fails, and a retune refused for its device index,
    have already stopped the receiver and do not restart it: what was playing
    is gone. Only a sweep that succeeds and finds no station resumes it. *)
Theorem failed_seek_silences (m : Machine) (sw : Sweep) (up : bool) (freq : float) (idx : Z)
    (gain : option float) (ds : bool) (b : RadioBand float) (r : Radio) (o : OS) :
  band_for freq = Some b ->
  (mc_rtl_power m = false \/ sw = SwTimeout \/ sw = SwOSError ->
     let '(res, (r', o')) := seek m sw up freq idx r o in
     is_ok res = false /\ su_running (status r') = false)
  /\ (idx < 0 ->
     let '(res, (r', o')) := retune m freq idx gain ds r o in
     res = Err (BadDevice idx) /\ su_running (status r') = false).
Proof.
  intros Hb. unfold seek, retune, validate_freq. rewrite Hb.
  destruct (stop_locked _ r o) as [r1 o1] eqn:E1.
  assert (rd_alive r1 = false) as Ha.
  { unfold stop_locked, reap_stale in E1. revert E1.
    destruct (os_pidfile _) as [pid|]; [|by intros [= <- _]].
    destruct (supervised _ pid); [by intros [= <- _]|].
    destruct ((0 <? pid) && _); by intros [= <- _]. }
  split.
  - intros Hsw. unfold run_sweep. destruct (mc_rtl_power m) eqn:Em; cbn [negb].
    + destruct sw; [| |by destruct Hsw as [?|[?|?]]]; cbn [is_ok]; (split; [done|]);
        unfold status; cbn; by rewrite Ha.
    + split; [done|]. unfold status. cbn. by rewrite Ha.
  - intros Hidx. unfold start_locked. rewrite (proj2 (Z.ltb_lt _ _)) by done.
    split; [done|]. unfold status. cbn. by rewrite Ha.
Qed.

(** ** Concrete runs *)

Definition machine (pid : Z) : Machine :=
  {| mc_rtl_fm := true; mc_rtl_power := true;
     mc_spawn := {| sp_pid := Some pid; sp_stderr := [u "Tuned"]; sp_dies := false; sp_opens := true;
                    sp_error := [] |};
     mc_write := Written; mc_reap _ := willing |}.

(** A server tunes, restarts, and forgets its receiver. *)
Definition playing : Radio * OS :=
  (start (machine 41) (num_of_Z 100) 0 None false fresh_radio
     (Build_OS {[7 := u "python"]} None ∅ ∅)).2.
Definition restarted : Radio * OS := (fresh_radio, playing.2).

Lemma machine_unhindered pid : unhindered (machine pid).
Proof. by repeat split. Qed.

Lemma playing_reachable : reachable unhindered playing.
Proof.
  eapply reach_step; [apply (reach_init _ {[7 := u "python"]})|].
  apply step_start; [apply machine_unhindered|]. intros pid [= <-]. split; [lia|reflexivity].
Qed.

Lemma restarted_reachable : reachable unhindered restarted.
Proof.
  eapply reach_step; [apply playing_reachable|]. unfold restarted.
  rewrite (surjective_pairing playing). apply step_restart.
Qed.

Example no_orphan_receiver_witness :
  os_ours restarted.2 = {[41]} /\ os_ours (stop (machine 42) restarted.1 restarted.2).2 = ∅.
Proof.
  split; [by_compute|].
  destruct (no_orphan_receiver unhindered (machine 42) restarted.1 restarted.2 restarted_reachable)
    as (_ & _ & _ & Hl & W).
  destruct (stop _ restarted.1 restarted.2) as [r' o']. destruct W as (_ & _ & _ & W & _).
  specialize (W (proj2 (machine_unhindered 42) 0%nat)). rewrite (Hl (fun _ H => H)) in W. cbn [snd].
  clear - W. set_solver.
Defined.

Example tune_reports_truth_witness :
  let '(res, (r', o')) := retune (machine 42) (lit 1005 10) 0 None false playing.1 playing.2 in
  is_ok res = true /\ su_freq_mhz (status r') = Some (lit 1005 10) /\ os_ours o' = {[42]}.
Proof.
  assert (fresh_spawn (machine 42) playing.2) as Hf by (intros pid [= <-]; split; [lia|by_compute]).
  pose proof playing_reachable as Hr. rewrite (surjective_pairing playing) in Hr.
  destruct (tune_reports_truth (machine 42) (lit 1005 10) 0 None false playing.1 playing.2 unhindered Hr Hf)
    as (_ & _ & W).
  destruct (retune (machine 42) (lit 1005 10) 0 None false playing.1 playing.2) as [res [r' o']] eqn:E.
  assert (is_ok res = true /\ os_ours o' = {[42]}) as [Hok Ho].
  { vm_compute in E. injection E as <- <- <-. split; [done|by_compute]. }
  destruct res; [|done]. destruct W as (_ & W & _). by split_and!.
Defined.

Lemma fm_100 : band_for (num_of_Z 100 : float) = Some fm_band.
Proof. vm_compute. reflexivity. Qed.

Example failed_seek_silences_witness :
  su_running (status playing.1) = true
  /\ let '(res, (r', o')) := seek (machine 42) SwTimeout true (num_of_Z 100) 0 playing.1 playing.2 in
     is_ok res = false /\ su_running (status r') = false.
Proof.
  split; [by_compute|].
  exact (proj1 (failed_seek_silences (machine 42) SwTimeout true (num_of_Z 100) 0 None false fm_band
    playing.1 playing.2 fm_100) (or_intror (or_introl eq_refl))).
Defined.

(** ** What the swallowed failures cost

    A receiver whose pidfile could not be written is out of reach once the
    server restarts: a stop leaves it playing. *)
Definition deaf (m : Machine) (w : Write) : Machine :=
  {| mc_rtl_fm := mc_rtl_fm m; mc_rtl_power := mc_rtl_power m; mc_spawn := mc_spawn m;
     mc_write := w; mc_reap := mc_reap m |}.
Example unwritten_pidfile_orphans :
  let '(_, (_, o)) := start (deaf (machine 41) (WriteFailed None)) (num_of_Z 100) 0 None false fresh_radio
    (Build_OS ∅ None ∅ ∅) in
  os_ours (stop (machine 42) fresh_radio o).2 = {[41]}.
Proof. by_compute. Qed.

(** A [ps] that does not answer is read as no such process: the pidfile goes,
    the receiver stays. *)
Definition silent_ps : Reaping :=
  {| rp_ps := false; rp_term := true; rp_exits := Some 1%nat; rp_polls _ := true; rp_kill := true; rp_unlinks := true |}.
Example silent_ps_orphans :
  let o := (reap_stale silent_ps restarted.1 restarted.2).2 in
  os_pidfile o = None /\ os_ours (stop (machine 42) restarted.1 o).2 = {[41]}.
Proof. split; by_compute. Qed.
