(* ===== verification/BandScan.v ===== *)
(** * bandscan.py: sweeping bands and scoring an antenna

    The band table, the scoring of a sweep, the sweep itself with the CSV file
    rtl_power leaves behind, and the survey worker with the state the page
    polls. *)
From S2P Require Import Prelude PyFloat PyStr Events Radio.
Open Scope Z_scope.

Section Scoring.
Context {F : Type} `{Num F}.

Definition DWELL_S : Z := 2.
Definition DEFAULT_GAIN_DB : F := num_of_Z 40.
Definition SIGNAL_THRESHOLD_DB : F := num_of_Z 6.

Record Band := {
  bn_key : pystr;
  bn_label : pystr;
  bn_low_mhz : F;
  bn_high_mhz : F;
  bn_step_khz : F;
  bn_reference : bool;
  bn_note : pystr;
  bn_hf : bool;
  bn_dwell_s : Z;
  bn_floor_pct : Z;
}.

#[global] Instance eta_band : Eta Band := fun b =>
  Build_Band (bn_key b) (bn_label b) (bn_low_mhz b) (bn_high_mhz b) (bn_step_khz b)
    (bn_reference b) (bn_note b) (bn_hf b) (bn_dwell_s b) (bn_floor_pct b).

(** [Band(key, label, low, high, step)] with the keyword defaults. *)
Definition new_band (key label : pystr) (low high step : F) : Band :=
  {| bn_key := key; bn_label := label; bn_low_mhz := low; bn_high_mhz := high;
     bn_step_khz := step; bn_reference := false; bn_note := []; bn_hf := false;
     bn_dwell_s := DWELL_S; bn_floor_pct := 50 |}.

Definition BANDS : list Band := [
  new_band (u "80m") (u "80 m ham") (lit 35 10) (lit 36 10) (num_of_Z 1)
    <| bn_hf := true |> <| bn_note := u "HF — needs direct sampling or an upconverter" |>;
  new_band (u "40m_cw") (u "40 m CW") (num_of_Z 7) (lit 704 100) (num_of_Z 1)
    <| bn_hf := true |>
    <| bn_note := u "The busiest CW segment — HF, so direct sampling or upconverter" |>;
  new_band (u "20m_cw") (u "20 m CW") (num_of_Z 14) (lit 1407 100) (num_of_Z 1)
    <| bn_hf := true |> <| bn_note := u "HF — needs direct sampling or an upconverter" |>;
  new_band (u "wwv") (u "WWV 10 MHz") (lit 9995 1000) (lit 10005 1000) (num_of_Z 1)
    <| bn_hf := true |> <| bn_reference := true |>
    <| bn_note := u "Time station, transmits 24/7 — the best HF antenna check" |>;
  new_band (u "12m") (u "12 m ham") (lit 2489 100) (lit 2499 100) (num_of_Z 1)
    <| bn_note := u "Right at most dongles' tuner floor — often nothing" |>;
  new_band (u "cb") (u "CB / 11 m") (lit 26965 1000) (lit 27405 1000) (num_of_Z 1)
    <| bn_note := u "Busy in daytime; a decent HF-capable antenna shows traffic" |>;
  new_band (u "10m_cw") (u "10 m CW") (num_of_Z 28) (lit 2807 100) (num_of_Z 1)
    <| bn_note := u "The CW segment — propagation-dependent" |>;
  new_band (u "10m_beacon") (u "10 m beacons") (lit 282 10) (lit 283 10) (num_of_Z 1)
    <| bn_reference := true |>
    <| bn_note := u "IBP beacons transmit around the clock — a good antenna check" |>;
  new_band (u "10m_ssb") (u "10 m SSB") (lit 283 10) (lit 285 10) (num_of_Z 2);
  new_band (u "6m") (u "6 m ham") (num_of_Z 50) (lit 503 10) (num_of_Z 2);
  new_band (u "fm") (u "FM broadcast") (num_of_Z 88) (num_of_Z 108) (num_of_Z 20)
    <| bn_reference := true |>
    <| bn_note := u "Always on and local — the easiest signal there is" |>;
  new_band (u "air") (u "Airband") (num_of_Z 118) (num_of_Z 137) (num_of_Z 20)
    <| bn_note := u "Bursty; low readings may just mean no traffic" |>;
  new_band (u "2m") (u "2 m ham") (num_of_Z 144) (num_of_Z 148) (num_of_Z 5);
  new_band (u "noaa") (u "NOAA weather") (lit 1624 10) (lit 16256 100) (num_of_Z 2)
    <| bn_reference := true |>
    <| bn_note := u "Transmits 24/7 — the single best antenna comparison signal" |>;
  new_band (u "uhf_tv") (u "UHF TV") (num_of_Z 470) (num_of_Z 608) (num_of_Z 250)
    <| bn_reference := true |> <| bn_dwell_s := 12 |> <| bn_floor_pct := 20 |>
    <| bn_note := u "TV channels 14–36 — always on, and the only UHF check here. Wide, so it takes ~14 s on its own" |>
].

(** [BANDS_BY_KEY[key]]; [None] where the key is absent. *)
Definition BANDS_BY_KEY (key : pystr) : option Band :=
  List.find (fun b => str_eqb (bn_key b) key) BANDS.
Definition DEFAULT_BAND_KEYS : list pystr :=
  [u "10m_beacon"; u "10m_cw"; u "fm"; u "noaa"; u "2m"].

(** [_floor_db] *)
Definition floor_db (dbs : list F) (pct : Z) : F :=
  if pct =? 50 then median dbs
  else
    let ordered := num_sort dbs in
    num_nth (Z.min (zlen ordered - 1) (zlen ordered * pct / 100)) ordered.

Record Score := {
  sc_band : Band;
  sc_floor_db : option F;
  sc_peak_db : option F;
  sc_snr_db : option F;
  sc_peak_mhz : option F;
  sc_signals : Z;
  sc_bins : Z;
}.

(** [max(bins, key=...)] keeps the first of equally strong bins. *)
Definition stronger (best bin : F * F) : F * F := if num_ltb best.2 bin.2 then bin else best.
Definition strongest (b : F * F) (bins : list (F * F)) : F * F := foldl stronger b bins.

Definition is_signal (floor db : F) : bool :=
  num_leb SIGNAL_THRESHOLD_DB (num_sub db floor).

Definition summarize (band : Band) (bins : list (F * F)) : Score :=
  match bins with
  | b :: rest =>
      if zlen bins <? 4 then
        {| sc_band := band; sc_floor_db := None; sc_peak_db := None; sc_snr_db := None;
           sc_peak_mhz := None; sc_signals := 0; sc_bins := zlen bins |}
      else
        let dbs := bins.*2 in
        let floor := floor_db dbs (bn_floor_pct band) in
        let '(peak_mhz, peak_db) := strongest b rest in
        {| sc_band := band;
           sc_floor_db := Some (num_round 1 floor);
           sc_peak_db := Some (num_round 1 peak_db);
           sc_snr_db := Some (num_round 1 (num_sub peak_db floor));
           sc_peak_mhz := Some (num_round 4 peak_mhz);
           sc_signals := zlen (List.filter (is_signal floor) dbs);
           sc_bins := zlen bins |}
  | [] => {| sc_band := band; sc_floor_db := None; sc_peak_db := None; sc_snr_db := None;
             sc_peak_mhz := None; sc_signals := 0; sc_bins := 0 |}
  end.

Definition verdict (snr_db : option F) : pystr :=
  match snr_db with
  | None => u "no data"
  | Some x =>
      if num_ltb x (num_of_Z 3) then u "nothing heard"
      else if num_ltb x (num_of_Z 10) then u "faint"
      else if num_ltb x (num_of_Z 20) then u "workable"
      else u "strong"
  end.
End Scoring.
Arguments Band F : clear implicits.
Arguments Score F : clear implicits.

(** [_parse_in_band]: the arithmetic of the receiver's sweep over another table. *)
Definition in_band_bins (band : Band float) (row : float * float * list float) :
    list (float * float) :=
  let '(hz_low, hz_step, dbs) := row in
  omap (fun id : nat * float =>
    let mhz := num_div (num_add hz_low (num_mul (num_add (num_of_Z (Z.of_nat id.1)) (lit 1 2)) hz_step))
                       (num_of_Z 1000000) in
    if num_leb (bn_low_mhz band) mhz && num_leb mhz (bn_high_mhz band) then Some (mhz, id.2) else None)
    (imap pair dbs).

Definition parse_in_band (text : pystr) (band : Band float) : list (float * float) :=
  sort_asc (mjoin ((fun line => from_option (in_band_bins band) [] (power_line line)) <$> splitlines text)).

(** ** The sweep and the survey *)

Inductive ScanErr :=
| NeedAntenna | NoBands | ReceiverPlaying | NoSDR | SurveyRunning
| NoRtlPower | SweepTimeout (label : pystr) | CannotRun (label : pystr) | NoOutput (label : pystr)
| SweepCrashed | SaveFailed.

(** What an rtl_power run does: it may write its CSV ([None] inside: bytes
    that are not text) and then ends, or is killed at the timeout. *)
Inductive PowerRun :=
| PowerTimeout (wrote : option (option pystr))
| PowerOSError
| PowerExit (wrote : option (option pystr)).

(** The state the page polls ([_state]). *)
Record Scan := {
  sn_running : bool;
  sn_done : Z;
  sn_total : Z;
  sn_current : pystr;
  sn_results : list (Score float);
  sn_error : option ScanErr;
  sn_antenna : pystr;
  sn_gain_db : float;
  sn_survey_id : option Z;
  sn_saving : bool;
  sn_device : pystr;
  sn_direct_sampling : bool;
}.

#[global] Instance eta_scan : Eta Scan := fun s =>
  Build_Scan (sn_running s) (sn_done s) (sn_total s) (sn_current s) (sn_results s) (sn_error s)
    (sn_antenna s) (sn_gain_db s) (sn_survey_id s) (sn_saving s) (sn_device s) (sn_direct_sampling s).

Definition idle : Scan :=
  {| sn_running := false; sn_done := 0; sn_total := 0; sn_current := []; sn_results := [];
     sn_error := None; sn_antenna := []; sn_gain_db := DEFAULT_GAIN_DB; sn_survey_id := None;
     sn_saving := false; sn_device := []; sn_direct_sampling := false |}.

(** The temporary CSV files, by band key. *)
Notation Files := (gmap pystr (option pystr)).

Section Survey.
Context {W : Type}.
(** Is rtl_power installed, and what does running it with these arguments do. *)
Variable have_power : bool.
Variable power : list pystr -> W -> PowerRun * W.

Definition wrote (key : pystr) (w : option (option pystr)) (fs : Files) : Files :=
  match w with Some text => <[key := text]> fs | None => fs end.

Definition out_path (band : Band float) : pystr := u "cw-bandscan-" ++ bn_key band ++ u ".csv".

Definition power_argv (band : Band float) (gain_db : float) (device_index : Z) (direct : bool) :
    list pystr :=
  [u "rtl_power"; u "-f";
   fmt_g (bn_low_mhz band) ++ u "M:" ++ fmt_g (bn_high_mhz band) ++ u "M:"
     ++ fmt_g (bn_step_khz band) ++ u "k";
   u "-i"; str_of_Z (bn_dwell_s band); u "-1"; u "-d"; str_of_Z device_index;
   u "-g"; fmt_fixed 1 gain_db]
  ++ (if direct then [u "-D"] else []) ++ [out_path band].

Definition sweep_band (band : Band float) (gain_db : float) (device_index : Z) (direct : bool)
    (st : Files * W) : result ScanErr (Score float) * (Files * W) :=
  let '(fs, w) := st in
  if negb have_power then (Err NoRtlPower, st)
  else
    let '(run, w) := power (power_argv band gain_db device_index direct) w in
    match run with
    | PowerTimeout out => (Err (SweepTimeout (bn_label band)), (wrote (bn_key band) out fs, w))
    | PowerOSError => (Err (CannotRun (bn_label band)), (fs, w))
    | PowerExit out =>
        let fs := wrote (bn_key band) out fs in
        (match fs !! bn_key band with
         | None => Err (NoOutput (bn_label band))
         | Some None => Err SweepCrashed
         | Some (Some text) => Ok (summarize band (parse_in_band text band))
         end, (delete (bn_key band) fs, w))
    end.

(** What a survey was asked to do. *)
Record Job := {
  jb_antenna : pystr;
  jb_bands : list (Band float);
  jb_gain_db : float;
  jb_device_index : Z;
  jb_device : pystr;
  jb_direct_sampling : bool;
  jb_on_finish : option (pystr -> float -> list (Score float) -> pystr -> W -> option Z * W);
}.

(** The device asked for, else the first one. *)
Definition choose_device (device_index : Z) (first : Device) (devices : list Device) : Device :=
  default first (List.find (fun d => dv_index d =? device_index) (first :: devices)).

(** [start], up to the worker thread. *)
Definition start (antenna : pystr) (band_keys : list pystr) (gain_db : float)
    (on_finish : option (pystr -> float -> list (Score float) -> pystr -> W -> option Z * W))
    (device_index : Z) (direct_sampling : bool) (radio_running : bool) (devices : list Device)
    (s : Scan) : result ScanErr Job * Scan :=
  let antenna := strip antenna in
  if bool_decide (is_Some on_finish) && negb (nonempty antenna) then (Err NeedAntenna, s)
  else
    match omap BANDS_BY_KEY band_keys with
    | [] => (Err NoBands, s)
    | (band :: _) as bands =>
        if radio_running then (Err ReceiverPlaying, s)
        else
          match devices with
          | [] => (Err NoSDR, s)
          | d0 :: ds =>
              let device := choose_device device_index d0 ds in
              let gain_db := nearest_gain gain_db (dv_gains device) in
              if sn_running s then (Err SurveyRunning, s)
              else
                (Ok {| jb_antenna := antenna; jb_bands := bands; jb_gain_db := gain_db;
                       jb_device_index := device_index; jb_device := dv_name device;
                       jb_direct_sampling := direct_sampling; jb_on_finish := on_finish |},
                 {| sn_running := true; sn_done := 0; sn_total := zlen bands;
                    sn_current := bn_label band; sn_results := []; sn_error := None;
                    sn_antenna := antenna; sn_gain_db := gain_db; sn_survey_id := None;
                    sn_saving := bool_decide (is_Some on_finish); sn_device := dv_name device;
                    sn_direct_sampling := direct_sampling |})
          end
    end.

(** The worker's loop over the bands: the results so far, and the first error. *)
Fixpoint sweep_bands (job : Job) (bands : list (Band float)) (results : list (Score float))
    (s : Scan) (st : Files * W) : list (Score float) * Scan * (Files * W) :=
  match bands with
  | [] => (results, s, st)
  | band :: bands' =>
      let s := s <| sn_current := bn_label band |> in
      let '(r, st) := sweep_band band (jb_gain_db job) (jb_device_index job)
                        (jb_direct_sampling job && bn_hf band) st in
      match r with
      | Err e => (results, s <| sn_error := Some e |>, st)
      | Ok score =>
          let results := results ++ [score] in
          sweep_bands job bands' results (s <| sn_done := zlen results |> <| sn_results := results |>) st
      end
  end.

(** The worker's [finally]: save a complete survey, then let go. *)
Definition finish (job : Job) (results : list (Score float)) (s : Scan) (w : W) : Scan * W :=
  let '(id, s, w) :=
    match jb_on_finish job with
    | Some save =>
        if negb (bool_decide (results = [])) && bool_decide (sn_error s = None) then
          let '(id, w) := save (jb_antenna job) (jb_gain_db job) results (jb_device job) w in
          match id with
          | Some id => (Some id, s, w)
          | None => (None, s <| sn_error := Some SaveFailed |>, w)
          end
        else (None, s, w)
    | None => (None, s, w)
    end in
  (s <| sn_running := false |> <| sn_current := [] |> <| sn_survey_id := id |>, w).

Definition worker (job : Job) (s : Scan) (st : Files * W) : Scan * (Files * W) :=
  let '(results, s, (fs, w)) := sweep_bands job (jb_bands job) [] s st in
  let '(s, w) := finish job results s w in
  (s, (fs, w)).
End Survey.
