(* ===== verification/BandScanFacts.v ===== *)
(** * Antenna surveys: what a score means and how a survey ends *)
From Stdlib Require Import QArith Lqa Sorted.
From S2P Require Import Prelude PyFloat PyStr Events Radio BandScan.
Open Scope Z_scope.

(** ** Ranks in a sorted list *)

Definition below (x : Q) (l : list Q) : Z := zlen (List.filter (fun y => num_ltb y x) l).
Definition up_to (x : Q) (l : list Q) : Z := zlen (List.filter (fun y => num_leb y x) l).

Lemma num_sort_perm {F} `{Num F} (l : list F) : num_sort l ≡ₚ l.
Proof.
  unfold num_sort. induction l as [|x l IH]; cbn [foldr]; [done|].
  transitivity (x :: foldr num_insert [] l); [|by rewrite IH].
  generalize (foldr num_insert [] l). intros k. induction k as [|y k IHk]; cbn [num_insert]; [done|].
  destruct (num_leb x y); [done|]. rewrite IHk. constructor.
Qed.

Lemma num_sort_sorted (l : list Q) : StronglySorted Qle (num_sort l).
Proof.
  unfold num_sort. induction l as [|x l IH]; cbn [foldr]; [constructor|].
  induction IH as [|y k Hk IHk Hy]; cbn [num_insert]; [repeat constructor|].
  destruct (num_leb x y) eqn:E.
  - apply Q_leb_true in E. constructor; [by constructor|]. constructor; [done|].
    eapply Forall_impl; [exact Hy|]. cbn. intros z Hz. lra.
  - apply Q_leb_false in E. constructor; [done|].
    assert (num_insert x k ≡ₚ x :: k) as ->.
    { clear. induction k as [|z k IH]; cbn [num_insert]; [done|]. destruct (num_leb x z); [done|].
      rewrite IH. constructor. }
    constructor; [lra|done].
Qed.

Lemma filter_perm_zlen {A} (p : A -> bool) l l' :
  l ≡ₚ l' -> zlen (List.filter p l) = zlen (List.filter p l').
Proof.
  intros Hp. unfold zlen. induction Hp as [|x l l' _ IH|x y l|l1 l2 l3 _ IH1 _ IH2]; cbn; [done| | |lia].
  - destruct (p x); cbn; lia.
  - destruct (p x), (p y); done.
Qed.

Lemma filter_none {A} (p : A -> bool) l : Forall (fun x => p x = false) l -> List.filter p l = [].
Proof. induction 1 as [|x l Hx _ IH]; cbn; [done|]. by rewrite Hx. Qed.

Lemma filter_all {A} (p : A -> bool) l : Forall (fun x => p x = true) l -> List.filter p l = l.
Proof. induction 1 as [|x l Hx _ IH]; cbn; [done|]. by rewrite Hx, IH. Qed.

Lemma filter_zlen_le {A} (p q : A -> bool) l :
  (forall x, p x = true -> q x = true) -> zlen (List.filter p l) <= zlen (List.filter q l).
Proof.
  intros Hpq. unfold zlen. induction l as [|x l IH]; cbn; [lia|].
  destruct (p x) eqn:E; [rewrite (Hpq _ E); cbn; lia|destruct (q x); cbn; lia].
Qed.

Lemma filter_zlen_bound {A} (p : A -> bool) l : 0 <= zlen (List.filter p l) <= zlen l.
Proof. unfold zlen. induction l as [|x l IH]; cbn; [lia|]. destruct (p x); cbn; lia. Qed.

Lemma sorted_split (l : list Q) k x :
  StronglySorted Qle l -> l !! k = Some x ->
  Forall (fun y => y <= x)%Q (take k l) /\ Forall (fun y => x <= y)%Q (drop k l).
Proof.
  intros Hs. revert k. induction Hs as [|y l Hl IH Hy]; intros k Hk; [done|].
  destruct k as [|k]; cbn in *.
  - injection Hk as ->. split; [done|]. constructor; [lra|done].
  - destruct (IH _ Hk) as [H1 H2]. split; [|done]. constructor; [|done].
    rewrite Forall_lookup in Hy. eapply Hy, Hk.
Qed.

Lemma sorted_below (l : list Q) k x :
  StronglySorted Qle l -> l !! k = Some x -> below x l <= Z.of_nat k.
Proof.
  intros Hs Hk. destruct (sorted_split l k x Hs Hk) as [_ Hd]. unfold below.
  rewrite <- (take_drop k l), List.filter_app, (filter_none _ (drop k l)), app_nil_r.
  - pose proof (filter_zlen_bound (fun y => num_ltb y x) (take k l)) as B.
    unfold zlen in *. rewrite length_take in B. lia.
  - eapply Forall_impl; [exact Hd|]. cbn beta. intros y Hy. by apply Q_ltb_false.
Qed.

Lemma sorted_up_to (l : list Q) k x :
  StronglySorted Qle l -> l !! k = Some x -> Z.of_nat k < up_to x l.
Proof.
  intros Hs Hk. destruct (sorted_split l k x Hs Hk) as [Ht _]. unfold up_to.
  rewrite <- (take_drop k l), List.filter_app, (filter_all _ (take k l)).
  - rewrite (drop_S _ _ _ Hk). cbn [List.filter]. assert (num_leb x x = true) as ->
      by (apply Q_leb_true; lra).
    apply lookup_lt_Some in Hk. rewrite zlen_app, zlen_cons. unfold zlen.
    rewrite length_take. lia.
  - eapply Forall_impl; [exact Ht|]. cbn beta. intros y Hy. by apply Q_leb_true.
Qed.

Lemma below_mono x y l : (x <= y)%Q -> below x l <= below y l.
Proof.
  intros Hxy. apply filter_zlen_le. intros z. rewrite !Q_ltb_true. lra.
Qed.

Lemma up_to_mono x y l : (x <= y)%Q -> up_to x l <= up_to y l.
Proof.
  intros Hxy. apply filter_zlen_le. intros z. rewrite !Q_leb_true. lra.
Qed.

Lemma num_nth_lookup (l : list Q) i : 0 <= i < zlen l -> l !! Z.to_nat i = Some (num_nth i l).
Proof.
  intros Hi. unfold num_nth, zlen in *.
  destruct (lookup_lt_is_Some_2 l (Z.to_nat i)) as [x E]; [lia|]. by rewrite E.
Qed.

(** The rank a floor percentile stands for among [n] bins. *)
Definition floor_rank (pct n : Z) : Z := if pct =? 50 then n / 2 else Z.min (n - 1) (n * pct / 100).

(** [x] splits [l] at rank [k] and lies in its range. *)
Definition at_rank (k : Z) (x : Q) (l : list Q) : Prop :=
  below x l <= k <= up_to x l
  /\ (exists lo, lo ∈ l /\ lo <= x)%Q /\ (exists hi, hi ∈ l /\ x <= hi)%Q.

Lemma at_rank_perm k x l l' : l ≡ₚ l' -> at_rank k x l -> at_rank k x l'.
Proof.
  intros Hp ([H1 H2] & (lo & Hlo & ?) & hi & Hhi & ?). unfold at_rank, below, up_to in *.
  rewrite !(filter_perm_zlen _ _ _ Hp) in *. rewrite Hp in Hlo, Hhi. eauto 10.
Qed.

Lemma at_rank_nth l k :
  StronglySorted Qle l -> 0 <= k < zlen l -> at_rank k (num_nth k l) l.
Proof.
  intros Hs Hk. pose proof (num_nth_lookup l k Hk) as E.
  pose proof (sorted_below _ _ _ Hs E). pose proof (sorted_up_to _ _ _ Hs E).
  split; [lia|]. apply list_elem_of_lookup_2 in E.
  split; eexists; (split; [exact E|lra]).
Qed.

Lemma at_rank_mid l k :
  StronglySorted Qle l -> 1 <= k < zlen l ->
  at_rank k ((num_nth (k - 1) l + num_nth k l) / 2)%Q l.
Proof.
  intros Hs Hk.
  pose proof (num_nth_lookup l (k - 1) ltac:(lia)) as Ea.
  pose proof (num_nth_lookup l k ltac:(lia)) as Eb.
  set (a := num_nth (k - 1) l) in *. set (b := num_nth k l) in *. clearbody a b.
  assert (a <= b)%Q as Hab.
  { destruct (sorted_split _ _ _ Hs Ea) as [_ Hd]. rewrite Forall_lookup in Hd.
    apply (Hd 1%nat). rewrite lookup_drop. rewrite <- Eb. f_equal. lia. }
  assert (a <= (a + b) / 2)%Q as Ha by (apply Qle_shift_div_l; lra).
  assert ((a + b) / 2 <= b)%Q as Hb by (apply Qle_shift_div_r; lra).
  pose proof (sorted_below _ _ _ Hs Eb). pose proof (sorted_up_to _ _ _ Hs Ea).
  pose proof (below_mono _ _ l Hb). pose proof (up_to_mono _ _ l Ha).
  split; [lia|]. apply list_elem_of_lookup_2 in Ea, Eb. split; eauto.
Qed.

Lemma median_rank (l : list Q) : 1 <= zlen l -> at_rank (zlen l / 2) (median l) l.
Proof.
  intros Hl. apply (at_rank_perm _ _ (num_sort l)); [apply num_sort_perm|].
  assert (zlen (num_sort l) = zlen l) as El by (unfold zlen; by rewrite num_sort_perm).
  unfold median. pose proof (Z.div_mod (zlen l) 2 ltac:(lia)) as E.
  pose proof (Z.mod_pos_bound (zlen l) 2 ltac:(lia)).
  pose proof (Zmod_odd (zlen l)) as Ho. destruct (Z.odd (zlen l)).
  - apply at_rank_nth; [apply num_sort_sorted|lia].
  - apply at_rank_mid; [apply num_sort_sorted|lia].
Qed.

Lemma floor_db_rank (l : list Q) pct :
  1 <= zlen l -> 0 <= pct -> at_rank (floor_rank pct (zlen l)) (floor_db l pct) l.
Proof.
  intros Hl Hp. unfold floor_db, floor_rank. destruct (pct =? 50); [by apply median_rank|].
  apply (at_rank_perm _ _ (num_sort l)); [apply num_sort_perm|].
  assert (zlen (num_sort l) = zlen l) as El by (unfold zlen; by rewrite num_sort_perm).
  rewrite El. apply at_rank_nth; [apply num_sort_sorted|].
  assert (0 <= zlen l * pct / 100) by (apply Z.div_pos; lia). lia.
Qed.

(** ** The score of a band *)

Lemma strongest_spec (b : Q * Q) bins :
  strongest b bins ∈ b :: bins /\ Forall (fun c => c.2 <= (strongest b bins).2)%Q (b :: bins).
Proof.
  unfold strongest. revert b. induction bins as [|c bins IH]; intros b; cbn [foldl].
  - split; [by left|]. repeat constructor; lra.
  - destruct (IH (stronger b c)) as [Hin Hall]. inversion Hall as [|? ? Hb Hc]; subst.
    assert (stronger b c ∈ [b; c] /\ (b.2 <= (stronger b c).2)%Q /\ (c.2 <= (stronger b c).2)%Q)
      as (Hs & H1 & H2).
    { unfold stronger. destruct (num_ltb b.2 c.2) eqn:E.
      - apply Q_ltb_true in E. split; [by right; left|]. lra.
      - apply Q_ltb_false in E. split; [by left|]. lra. }
    split.
    + apply elem_of_cons in Hin as [-> | Hin]; [|by do 2 right].
      apply elem_of_cons in Hs as [-> | Hs]; [by left|right].
      apply elem_of_cons in Hs as [-> | Hs]; [by left|by apply elem_of_nil in Hs].
    + repeat (constructor; [lra|]). exact Hc.
Qed.

(** The bins that clear the gate. *)
Lemma is_signal_Q (floor db : Q) : is_signal floor db = true <-> (6 <= db - floor)%Q.
Proof. unfold is_signal. rewrite Q_leb_true. done. Qed.

(** The score of a swept band: the peak is a bin no other bin exceeds, the floor
    splits the bins at the band's percentile (at most that many are below it, at
    least that many do not exceed it) and never exceeds the peak, the SNR is
    their difference to a tenth of a decibel, and [signals] counts the bins six
    decibels above the floor, so it is zero exactly when the peak is not. *)
Theorem summarize_spec (band : Band Q) (bins : list (Q * Q)) (s : Score Q) :
  4 <= zlen bins -> 0 <= bn_floor_pct band -> summarize band bins = s ->
  exists floor peak_mhz peak_db,
    (peak_mhz, peak_db) ∈ bins
    /\ Forall (fun b => b.2 <= peak_db)%Q bins
    /\ below floor bins.*2 <= floor_rank (bn_floor_pct band) (zlen bins) <= up_to floor bins.*2
    /\ (floor <= peak_db)%Q
    /\ sc_floor_db s = Some (num_round 1 floor)
    /\ sc_peak_db s = Some (num_round 1 peak_db)
    /\ sc_peak_mhz s = Some (num_round 4 peak_mhz)
    /\ sc_snr_db s = Some (num_round 1 (peak_db - floor)%Q)
    /\ sc_signals s = zlen (List.filter (fun b => Qle_bool 6 (b.2 - floor)) bins)
    /\ (sc_signals s = 0 <-> (peak_db - floor < 6)%Q).
Proof.
  intros Hn Hp <-. destruct bins as [|b rest]; [done|]. unfold summarize.
  destruct (zlen (b :: rest) <? 4) eqn:E; [lia|].
  pose proof (strongest_spec b rest) as [Hin Hall].
  set (bins := b :: rest) in *.
  assert (zlen bins.*2 = zlen bins) as El by (unfold zlen; by rewrite length_fmap).
  assert (1 <= zlen bins.*2) as H1 by (rewrite El; lia).
  pose proof (floor_db_rank bins.*2 (bn_floor_pct band) H1 Hp) as Hr. rewrite El in Hr.
  set (floor := floor_db bins.*2 (bn_floor_pct band)) in *.
  destruct (strongest b rest) as [pm pd]. clearbody bins floor. cbn [snd] in Hall.
  exists floor, pm, pd. cbn [sc_floor_db sc_peak_db sc_peak_mhz sc_snr_db sc_signals].
  destruct Hr as (Hr & _ & hi & Hhi & Hfl).
  assert (floor <= pd)%Q as Hfp.
  { apply list_elem_of_fmap in Hhi as (c & -> & Hc). rewrite Forall_forall in Hall.
    pose proof (Hall _ Hc). lra. }
  assert (zlen (List.filter (is_signal floor) bins.*2)
          = zlen (List.filter (fun b : Q * Q => Qle_bool 6 (b.2 - floor)) bins)) as Hs.
  { clear. unfold zlen. f_equal. induction bins as [|c bins IH]; cbn [fmap list_fmap List.filter]; [done|].
    change (is_signal floor c.2) with (Qle_bool 6 (c.2 - floor)).
    destruct (Qle_bool 6 (c.2 - floor)); cbn [length]; by rewrite IH. }
  repeat (split; [done|]). rewrite Hs. split.
  - intros Hz. destruct (Qlt_le_dec (pd - floor) 6) as [?|Hge]; [done|]. exfalso.
    assert ((pm, pd) ∈ List.filter (fun b : Q * Q => Qle_bool 6 (b.2 - floor)) bins) as Hf.
    { apply list_elem_of_In, List.filter_In.
      split; [by apply list_elem_of_In|]. by apply Q_leb_true. }
    destruct (List.filter _ bins); [by inversion Hf|]. rewrite zlen_cons in Hz.
    match type of Hz with (1 + zlen ?l = 0) => pose proof (zlen_nonneg l) end. lia.
  - intros Hlt. rewrite filter_none; [done|]. eapply Forall_impl; [exact Hall|].
    cbn beta. intros c Hc. apply Q_leb_false. lra.
Qed.

(** Five bins of a mostly occupied band, scored at the twentieth percentile. *)
Definition uhf : Band Q :=
  new_band (u "uhf_tv") (u "UHF TV") (num_of_Z 470) (num_of_Z 608) (num_of_Z 250)
    <| bn_floor_pct := 20 |>.
Definition uhf_bins : list (Q * Q) :=
  [(480, -40); (481, -22); (482, -20); (483, -21); (484, -39)]%Q.

Theorem summarize_spec_witness :
  exists floor peak_mhz peak_db,
    (peak_mhz, peak_db) ∈ uhf_bins /\ (floor <= peak_db)%Q
    /\ sc_floor_db (summarize uhf uhf_bins) = Some (num_round 1 floor)
    /\ sc_snr_db (summarize uhf uhf_bins) = Some (num_round 1 (peak_db - floor)%Q).
Proof.
  destruct (summarize_spec uhf uhf_bins _ ltac:(vm_compute; discriminate)
              ltac:(vm_compute; discriminate) eq_refl) as (f & pm & pd & H1 & _ & _ & H2 & H3 & _ & _ & H4 & _).
  exists f, pm, pd. repeat (split; [assumption|]). assumption.
Defined.

(** ** The survey *)

Lemma nearer_in wanted best g (l : list float) : best ∈ l -> g ∈ l -> nearer wanted best g ∈ l.
Proof. intros. unfold nearer. by case_match. Qed.

(** The gain a survey records is one the tuner has. *)
Lemma nearest_gain_in wanted gains : gains <> [] -> nearest_gain wanted gains ∈ gains.
Proof.
  destruct gains as [|g gains]; [done|]. intros _. unfold nearest_gain.
  assert (forall l best, best ∈ g :: gains -> (forall x, x ∈ l -> x ∈ g :: gains) ->
            foldl (nearer wanted) best l ∈ g :: gains) as Hf.
  { induction l as [|x l IH]; intros best Hb Hl; cbn [foldl]; [done|].
    apply IH; [|intros y Hy; apply Hl; by right].
    apply nearer_in; [done|]. apply Hl. by left. }
  apply Hf; [by left|]. intros x Hx. by right.
Qed.

Section Survey.
Context {W : Type} (have_power : bool) (power : list pystr -> W -> PowerRun * W).

Lemma sweep_band_scored (band : Band float) gain dev direct st score st' :
  sweep_band have_power power band gain dev direct st = (Ok score, st') -> sc_band score = band.
Proof.
  unfold sweep_band. destruct st as [fs w], have_power; cbn [negb]; [|done].
  destruct (power _ w) as [[out| |out] w']; [done..|].
  destruct (wrote _ _ _ !! _) as [[text|]|]; [|done..]. intros [= <- _].
  unfold summarize. destruct (parse_in_band text band); [done|]. case_match; [done|].
  by destruct (strongest _ _).
Qed.

(** What holds of the loop's outcome over the bands still to sweep. *)
Definition swept (bands : list (Band float)) (results : list (Score float)) (s0 s : Scan)
    (results' : list (Score float)) : Prop :=
  (exists done left, bands = done ++ left /\ sc_band <$> results' = (sc_band <$> results) ++ done
                     /\ (sn_error s = None <-> left = []))
  /\ sn_results s = results' /\ sn_done s = zlen results'
  /\ sn_total s = sn_total s0 /\ sn_gain_db s = sn_gain_db s0 /\ sn_antenna s = sn_antenna s0
  /\ sn_saving s = sn_saving s0 /\ sn_device s = sn_device s0.

Lemma sweep_bands_swept (job : Job) bands results s st results' s' st' :
  sn_error s = None -> sn_results s = results -> sn_done s = zlen results ->
  sweep_bands have_power power job bands results s st = (results', s', st') ->
  swept bands results s s' results'.
Proof.
  revert results s st. induction bands as [|band bands IH]; intros results s st He Hr Hd Hs.
  - injection Hs as <- <- <-. split; [|done]. exists [], []. rewrite !app_nil_r.
    do 2 (split; [done|]). by split.
  - cbn [sweep_bands] in Hs.
    destruct (sweep_band have_power power band _ _ _ st) as [[score|e] st1] eqn:E.
    + pose proof (sweep_band_scored _ _ _ _ _ _ _ E) as Hb.
      apply IH in Hs as ((dn & left & -> & Hm & Hl) & Hrest); [|done..].
      split; [|exact Hrest]. exists (band :: dn), left. split; [done|]. split; [|done].
      rewrite Hm, fmap_app. cbn. rewrite Hb. by rewrite <- app_assoc.
    + injection Hs as <- <- <-. split; [|done]. exists [], (band :: bands).
      rewrite ?app_nil_r. do 2 (split; [done|]). by split.
Qed.

Notation save_fn := (pystr -> float -> list (Score float) -> pystr -> W -> option Z * W).

Lemma survey_start_spec antenna keys gain (on_finish : option save_fn) dev direct radio devices s r s' :
  start antenna keys gain on_finish dev direct radio devices s = (r, s') ->
  match r with
  | Err _ => s' = s
  | Ok job =>
      sn_running s = false /\ radio = false /\ sn_running s' = true
      /\ jb_bands job = omap BANDS_BY_KEY keys /\ jb_bands job <> []
      /\ jb_on_finish job = on_finish
      /\ (is_Some on_finish -> jb_antenna job <> [])
      /\ jb_device_index job = dev /\ jb_direct_sampling job = direct
      /\ sn_error s' = None /\ sn_results s' = [] /\ sn_done s' = 0
      /\ sn_total s' = zlen (jb_bands job) /\ sn_gain_db s' = jb_gain_db job
      /\ sn_antenna s' = jb_antenna job /\ sn_device s' = jb_device job
      /\ sn_saving s' = bool_decide (is_Some on_finish)
      /\ exists d, d ∈ devices /\ jb_device job = dv_name d
                   /\ (dv_gains d <> [] -> jb_gain_db job ∈ dv_gains d)
  end.
Proof.
  unfold start. destruct (bool_decide (is_Some on_finish) && negb (nonempty (strip antenna))) eqn:Ea.
  { by intros [= <- <-]. }
  destruct (omap BANDS_BY_KEY keys) as [|b bs] eqn:Eb; [by intros [= <- <-]|].
  destruct radio; [by intros [= <- <-]|]. destruct devices as [|d0 ds]; [by intros [= <- <-]|].
  destruct (sn_running s); [by intros [= <- <-]|]. intros [= <- <-].
  cbn [jb_bands jb_on_finish jb_antenna jb_gain_db jb_device jb_device_index jb_direct_sampling].
  repeat (split; [done|]). split.
  { intros Hs Hn. rewrite (bool_decide_eq_true_2 _ Hs), Hn in Ea. done. }
  repeat (split; [done|]). exists (choose_device dev d0 ds). split; [|split; [done|apply nearest_gain_in]].
  unfold choose_device. destruct (List.find _ _) as [d|] eqn:Ef; [|by left].
  apply find_some in Ef as [Hd _]. by apply list_elem_of_In.
Qed.

Lemma finish_spec (job : @Job W) (results : list (Score float)) s w s' w' :
  finish job results s w = (s', w') ->
  sn_running s' = false /\ sn_current s' = [] /\ sn_results s' = sn_results s
  /\ sn_done s' = sn_done s /\ sn_total s' = sn_total s /\ sn_gain_db s' = sn_gain_db s
  /\ (forall e, sn_error s = Some e -> sn_error s' = Some e /\ sn_survey_id s' = None /\ w' = w)
  /\ (sn_error s = None -> sn_error s' = None \/ sn_error s' = Some SaveFailed)
  /\ (forall id, sn_survey_id s' = Some id ->
        sn_error s' = None /\ exists save, jb_on_finish job = Some save
          /\ save (jb_antenna job) (jb_gain_db job) results (jb_device job) w = (Some id, w'))
  /\ (sn_error s' = None -> is_Some (jb_on_finish job) -> results <> [] -> is_Some (sn_survey_id s')).
Proof.
  unfold finish. destruct (jb_on_finish job) as [save|].
  - destruct (negb (bool_decide (results = [])) && bool_decide (sn_error s = None)) eqn:E.
    + apply andb_true_iff in E as [_ E]. apply bool_decide_eq_true in E.
      destruct (save _ _ _ _ w) as [[id|] w1] eqn:Es; intros [= <- <-];
        repeat (split; [done|]); (split; [by intros e He; rewrite E in He|]);
        (split; [by auto|]); (split; [|by eauto]).
      * intros id' [= <-]. eauto.
      * done.
    + intros [= <- <-]. split_and!; try done; [by auto|].
      intros He _ Hr. change (sn_error s = None) in He. apply andb_false_iff in E as [E|E].
      * apply negb_false_iff, bool_decide_eq_true in E. done.
      * apply bool_decide_eq_false in E. done.
  - intros [= <- <-]. split_and!; try done; try (by auto); by intros _ [? ?].
Qed.

(** A survey that [start] accepts always ends with the scanner free again, on
    every path of the worker. What it reports is the score of each requested
    band in order up to the first failure, [done] of [total]; an error is
    reported exactly when a band failed or the save did; only a complete
    error-free survey is saved, under the antenna, the gain and the device
    recorded, that gain is one the chosen tuner has, and a complete survey that
    was to be kept has an id. A refused start changes nothing. *)
Theorem survey_outcome antenna keys gain (on_finish : option save_fn) dev direct radio devices
    s0 r s1 st s2 st2 :
  start antenna keys gain on_finish dev direct radio devices s0 = (r, s1) ->
  match r with
  | Err _ => s1 = s0
  | Ok job =>
      worker have_power power job s1 st = (s2, st2) ->
      sn_running s2 = false /\ sn_current s2 = []
      /\ sn_done s2 = zlen (sn_results s2) /\ sn_total s2 = zlen (jb_bands job)
      /\ (exists left, jb_bands job = (sc_band <$> sn_results s2) ++ left
            /\ (sn_error s2 = None -> left = [])
            /\ (left = [] -> sn_error s2 = None \/ sn_error s2 = Some SaveFailed))
      /\ (forall d, devices = [d] -> dv_gains d <> [] -> sn_gain_db s2 ∈ dv_gains d)
      /\ (forall id, sn_survey_id s2 = Some id ->
            sn_error s2 = None /\ jb_antenna job <> []
            /\ exists save w w', on_finish = Some save
                 /\ save (jb_antenna job) (sn_gain_db s2) (sn_results s2) (jb_device job) w
                    = (Some id, w'))
      /\ (sn_error s2 = None -> is_Some on_finish -> is_Some (sn_survey_id s2))
  end.
Proof.
  intros Hstart. apply survey_start_spec in Hstart. destruct r as [job|e]; [|done].
  destruct Hstart as (_ & _ & _ & Hb & Hne & Hf & Ha & _ & _ & He & Hr & Hd & Ht & Hg & Hsa & Hsd
                      & _ & d & Hdin & _ & Hgain).
  unfold worker. destruct (sweep_bands have_power power job (jb_bands job) [] s1 st)
    as [[results s'] [fs w]] eqn:Es.
  apply sweep_bands_swept in Es as ((dn & left & Hbands & Hm & Hleft) & Hr' & Hd' & Ht' & Hg' & _);
    [|done..].
  cbn [fmap list_fmap app] in Hm.
  destruct (finish job results s' w) as [s2' w2] eqn:Efin. intros [= <- <-].
  apply finish_spec in Efin as (F1 & F2 & F3 & F4 & F5 & F6 & F7 & F8 & F9 & F10).
  rewrite F3, F4, F5, F6, Hr', Hd', Ht', Hg', Ht, Hm, Hg. split_and!; try done.
  - exists left. split; [done|]. destruct (sn_error s') as [e|] eqn:E.
    + destruct (F7 e eq_refl) as (-> & _). split; [done|]. intros Hl. by apply Hleft in Hl.
    + split; [by intros _; apply Hleft|]. intros _. by apply F8.
  - intros d' -> Hgs. apply elem_of_cons in Hdin as [-> | Hdin]; [auto|by apply elem_of_nil in Hdin].
  - intros id Hid. apply F9 in Hid as [H1 (save & Hs & Hcall)]. split; [done|].
    rewrite Hf in Hs. split; [|by eauto]. apply Ha. by rewrite Hs.
  - intros H1 H2. apply F10; [done|by rewrite Hf|].
    intros ->. cbn in Hm. subst dn. destruct (sn_error s') as [e|] eqn:E.
    + destruct (F7 e eq_refl) as (E' & _). congruence.
    + assert (left = []) as -> by (by apply Hleft). done.
Qed.

(** A run that ends leaves no CSV behind, so the next sweep of the band reads
    what its own rtl_power wrote; a run killed at the timeout does leave one,
    and the next sweep of the band scores it as its own when rtl_power then
    exits without writing (a dongle that was unplugged, a device index that is
    not there): an old measurement is reported as a new one. *)
Theorem leftover_csv_is_scored (band : Band float) gain dev direct fs w text w1 gain' dev' direct'
    w2 :
  have_power = true ->
  power (power_argv band gain dev direct) w = (PowerTimeout (Some (Some text)), w1) ->
  power (power_argv band gain' dev' direct') w1 = (PowerExit None, w2) ->
  let '(first, st1) := sweep_band have_power power band gain dev direct (fs, w) in
  let '(second, st2) := sweep_band have_power power band gain' dev' direct' st1 in
  let '(third, _) := sweep_band have_power (fun _ w => (PowerExit None, w)) band gain' dev' direct' st2 in
  first = Err (SweepTimeout (bn_label band))
  /\ second = Ok (summarize band (parse_in_band text band))
  /\ third = Err (NoOutput (bn_label band)).
Proof.
  intros Hp H1 H2. unfold sweep_band. rewrite Hp. cbn [negb]. rewrite H1. cbv beta iota zeta. rewrite H2.
  cbv beta iota zeta. unfold wrote. rewrite lookup_insert_eq, lookup_delete_eq. done.
Qed.
End Survey.

(** ** Demonstration: one of two bands is swept before the dongle goes away *)
Module ScanDemo.
Definition csv : pystr := u "2026-01-01, 00:00:00, 88000000, 89000000, 100000, 4, -50, -50, -20, -50, -50
".
(** The world counts the runs; the second one cannot be started. *)
Definition power (argv : list pystr) (w : Z) : PowerRun * Z :=
  ((if w =? 0 then PowerExit (Some (Some csv)) else PowerOSError), w + 1).
Definition save (antenna : pystr) (gain : float) (results : list (Score float)) (device : pystr)
    (w : Z) : option Z * Z := (Some (zlen results), w).
Definition stick : Device :=
  {| dv_index := 0; dv_name := u "stick"; dv_serial := []; dv_gains := [lit 386 10; lit 402 10];
     dv_tuner := []; dv_direct_sampling := false |}.
Definition started (keys : list pystr) :=
  start (u "dipole") keys DEFAULT_GAIN_DB (Some save) 0 false false [stick] idle.
Definition run (keys : list pystr) : option (Scan * (Files * Z)) :=
  match started keys with
  | (Ok job, s) => Some (worker true power job s (∅, 0))
  | _ => None
  end.
End ScanDemo.

Lemma scan_demo_partial :
  match ScanDemo.run [u "fm"; u "2m"] with
  | Some (s, _) => sn_done s = 1 /\ sn_total s = 2 /\ sn_survey_id s = None
  | None => False
  end.
Proof. vm_compute. repeat split. Qed.

Theorem survey_outcome_witness :
  match ScanDemo.run [u "fm"] with
  | Some (s, _) => sn_running s = false /\ (sn_error s = None -> sn_done s = 1)
  | None => False
  end.
Proof.
  pose proof (survey_outcome true ScanDemo.power (u "dipole") [u "fm"] DEFAULT_GAIN_DB
    (Some ScanDemo.save) 0 false false [ScanDemo.stick] idle) as T.
  unfold ScanDemo.run, ScanDemo.started. destruct (start _ _ _ _ _ _ _ _ _) as [[job|e] s1] eqn:E.
  - specialize (T (Ok job) s1 (∅, 0)). cbv zeta in T.
    destruct (worker true ScanDemo.power job s1 (∅, 0)) as [s2 st2] eqn:E2.
    specialize (T s2 st2 eq_refl E2) as (T1 & _ & T2 & _ & (left & T3 & T4 & _) & _).
    split; [exact T1|]. intros He. rewrite T2. apply T4 in He. subst left. rewrite app_nil_r in T3.
    assert (zlen (jb_bands job) = 1) as Hj.
    { apply (f_equal (fun x => match x.1 with Ok j => zlen (jb_bands j) | Err _ => 0 end)) in E.
      cbn [fst] in E. rewrite <- E. vm_compute. reflexivity. }
    rewrite <- Hj, T3. unfold zlen. by rewrite length_fmap.
  - apply (f_equal (fun x => is_ok x.1)) in E. vm_compute in E. discriminate.
Defined.

Theorem leftover_csv_is_scored_witness :
  let power (_ : list pystr) (w : Z) :=
    ((if w =? 0 then PowerTimeout (Some (Some ScanDemo.csv)) else PowerExit None), w + 1) in
  let band : Band float := new_band (u "fm") (u "FM broadcast") (num_of_Z 88) (num_of_Z 108) (num_of_Z 20) in
  let '(_, st1) := sweep_band true power band DEFAULT_GAIN_DB 0 false (∅, 0) in
  (sweep_band true power band DEFAULT_GAIN_DB 0 false st1).1
  = Ok (summarize band (parse_in_band ScanDemo.csv band)).
Proof.
  intros power band.
  pose proof (leftover_csv_is_scored true power band DEFAULT_GAIN_DB 0 false ∅ 0 ScanDemo.csv 1
                DEFAULT_GAIN_DB 0 false 2 eq_refl eq_refl eq_refl) as T.
  destruct (sweep_band true power band DEFAULT_GAIN_DB 0 false (∅, 0)) as [r1 st1].
  destruct (sweep_band true power band DEFAULT_GAIN_DB 0 false st1) as [r2 st2].
  destruct (sweep_band true _ band DEFAULT_GAIN_DB 0 false st2) as [r3 st3].
  exact (proj1 (proj2 T)).
Defined.
