(* ===== verification/Rig.v ===== *)
(** * rigctl.py and transmit.py: the rig

    A client of Hamlib's rigctld over a byte stream, and the sequence that puts
    a message on the air. rigctld, the radio behind it and the sound device are
    parameters: [serve] is what
    rigctld does with a command line it receives, and the chunks in which its
    reply arrives. *)
From S2P Require Import Prelude PyFloat PyStr Regex.
Open Scope Z_scope.

(** ** The client ([RigctldClient]) *)

(** [RigError], except [RigCrash]: an IndexError, a ValueError or an
    OverflowError, which no [except RigError] catches. *)
Inductive RigErr :=
| Unreachable | ReadFailed | ClosedByPeer | WriteFailed
| Rejected (verb code : pystr)
| AlreadyKeyed
| RigCrash.

Notation bytes := (list Z).

(** What [recv] yields next: some bytes ([[]] at the end of the stream), or an
    OSError. With nothing left the read times out, which is an OSError too. *)
Notation chunk := (option (list Z)).

Inductive Act {R : Type} :=
| Sent (command : pystr)
| Played (rig : R).
Arguments Act R : clear implicits.

(** The socket's far end: what is in flight, the rig, and what was done to it. *)
Record Link (R : Type) := { lk_rx : list chunk; lk_rig : R; lk_log : list (Act R) }.
Arguments Build_Link {R}.
Arguments lk_rx {R}.
Arguments lk_rig {R}.
Arguments lk_log {R}.

Record Client := { cl_open : bool; cl_buf : bytes }.

Definition new_client : Client := {| cl_open := false; cl_buf := [] |}.

(** [b.decode("ascii", "replace")] *)
Definition ascii_decode (b : bytes) : pystr := (fun c => if c <? 128 then c else 65533) <$> b.
Definition is_ascii (s : pystr) : bool := forallb (fun c => c <? 128) s.

Definition not_nl (c : Z) : bool := negb (c =? 10).

Fixpoint readline (buf : bytes) (rx : list chunk) : result RigErr pystr * bytes * list chunk :=
  match span not_nl buf with
  | (line, _ :: rest) => (Ok (strip (ascii_decode line)), rest, rx)
  | (_, []) =>
      match rx with
      | [] => (Err ReadFailed, buf, [])
      | None :: rx' => (Err ReadFailed, buf, rx')
      | Some [] :: rx' => (Err ClosedByPeer, buf, rx')
      | Some more :: rx' => readline (buf ++ more) rx'
      end
  end.

Section Client.
Context {R : Type}.
Variable dial : R -> bool.
Variable serve : pystr -> R -> option (list chunk) * R.

Definition IO (A : Type) := Client * Link R -> result RigErr A * (Client * Link R).

Definition ret {A} (x : A) : IO A := fun s => (Ok x, s).
Definition raise {A} (e : RigErr) : IO A := fun s => (Err e, s).
Definition andthen {A B} (m : IO A) (k : A -> IO B) : IO B := fun s =>
  let '(r, s) := m s in match r with Ok x => k x s | Err e => (Err e, s) end.

Definition connect : IO unit := fun '(c, l) =>
  if dial (lk_rig l) then (Ok tt, ({| cl_open := true; cl_buf := cl_buf c |}, l))
  else (Err Unreachable, (c, l)).

Definition close (s : Client * Link R) : Client * Link R :=
  ({| cl_open := false; cl_buf := cl_buf s.1 |}, s.2).

Definition read_line : IO pystr := fun '(c, l) =>
  let '(r, buf, rx) := readline (cl_buf c) (lk_rx l) in
  (r, ({| cl_open := cl_open c; cl_buf := buf |}, Build_Link rx (lk_rig l) (lk_log l))).

(** [self._sock.sendall] *)
Definition send (command : pystr) : IO unit := fun '(c, l) =>
  if negb (is_ascii command) then (Err RigCrash, (c, l))
  else
    let '(reply, rig) := serve command (lk_rig l) in
    let log := lk_log l ++ [Sent command] in
    match reply with
    | Some chunks => (Ok tt, (c, Build_Link (lk_rx l ++ chunks) rig log))
    | None => (Err WriteFailed, (c, Build_Link (lk_rx l) rig log))
    end.

Fixpoint read_reply (verb : pystr) (n : nat) (lines : list pystr) : IO (list pystr) :=
  match n with
  | O => ret lines
  | S n' =>
      andthen read_line (fun line =>
        if startswith line (u "RPRT") then
          let code := default [] (last (words line)) in
          if str_eqb code (u "0") then ret lines else raise (Rejected verb code)
        else read_reply verb n' (lines ++ [line]))
  end.

(** [_request] *)
Definition request (command : pystr) (reply_lines : nat) : IO (list pystr) :=
  andthen (fun s => if cl_open s.1 then (Ok tt, s) else connect s) (fun _ =>
  andthen (send command) (fun _ =>
  read_reply (default [] (head (words command))) reply_lines [])).

Definition of_option {A} (x : option A) : IO A :=
  match x with Some a => ret a | None => raise RigCrash end.

Definition int_of (s : pystr) : option Z := x ← parse_float s; num_trunc x.

Definition get_freq : IO Z :=
  andthen (request (u "f") 1) (fun lines => of_option (s ← head lines; int_of s)).
Definition set_freq (hz : Z) : IO unit :=
  andthen (request (u "F " ++ str_of_Z hz) 1) (fun _ => ret tt).
Definition get_mode : IO (pystr * Z) :=
  andthen (request (u "m") 2) (fun lines =>
  andthen (match lines !! 1%nat with Some s => of_option (int_of s) | None => ret 0 end) (fun passband =>
  andthen (of_option (head lines)) (fun mode => ret (mode, passband)))).
Definition set_mode (mode : pystr) (passband_hz : Z) : IO unit :=
  andthen (request (u "M " ++ mode ++ u " " ++ str_of_Z passband_hz) 1) (fun _ => ret tt).
Definition get_ptt : IO bool :=
  andthen (request (u "t") 1) (fun lines =>
  andthen (of_option (head lines)) (fun s => ret (str_eqb (strip s) (u "1")))).
Definition set_ptt (on : bool) : IO unit :=
  andthen (request (if on then u "T 1" else u "T 0") 1) (fun _ => ret tt).

Record RigStatus := { rs_freq_hz : Z; rs_mode : pystr; rs_passband_hz : Z; rs_ptt : bool }.

Definition client_status : IO RigStatus :=
  andthen get_mode (fun mp =>
  andthen get_freq (fun f =>
  andthen get_ptt (fun p =>
  ret {| rs_freq_hz := f; rs_mode := mp.1; rs_passband_hz := mp.2; rs_ptt := p |}))).

(** ** Putting a session on the air ([transmit_session]) *)

Record RigConfig := { rg_use_ptt : bool; rg_ptt_lead_ms : Z }.

(** [ts_audio] is what [session_audio_float] returns, [None] when it raises. *)
Record TxSession := { ts_pk : Z; ts_has_audio : bool; ts_audio : option (list Z) }.

Inductive TxErr := TxRig (e : RigErr) | TxFailed.
(** [except RigError] and [except Exception]. *)
Definition tx_err (e : RigErr) : TxErr := match e with RigCrash => TxFailed | _ => TxRig e end.

(** The module's state; [tx_locked] is the transmit lock. *)
Record Tx := { tx_transmitting : bool; tx_session_id : option Z; tx_error : option TxErr; tx_locked : bool }.
Definition tx_idle : Tx :=
  {| tx_transmitting := false; tx_session_id := None; tx_error := None; tx_locked := false |}.

Inductive TxRefused := NoAudioStored | AlreadyTransmitting | AudioRaised.

(** [player] says whether playing this audio with the rig in this state ends
    normally. *)
Variable player : list Z -> R -> bool.

(** [play(...)] and the [finally] that unkeys; the error of the unkeying
    replaces the player's. *)
Definition play_and_unkey (rig : RigConfig) (audio : list Z) : Client * Link R ->
    option TxErr * (Client * Link R) := fun '(c, l) =>
  let played := player audio (lk_rig l) in
  let s := (c, Build_Link (lk_rx l) (lk_rig l) (lk_log l ++ [Played (lk_rig l)])) in
  let after := if played then None else Some TxFailed in
  if rg_use_ptt rig then
    let '(r, s) := set_ptt false s in
    match r with Ok _ => (after, s) | Err e => (Some (tx_err e), s) end
  else (after, s).

(** Key up: refuse a rig that is already transmitting, then PTT on and the
    lead. [time.sleep] of a negative number raises. *)
Definition key_up (rig : RigConfig) : IO unit :=
  if rg_use_ptt rig then
    andthen get_ptt (fun keyed =>
      if keyed then raise AlreadyKeyed
      else andthen (set_ptt true) (fun _ =>
        if rg_ptt_lead_ms rig <? 0 then raise RigCrash else ret tt))
  else ret tt.

(** [run]: the worker of one transmission. *)
Definition run (rig : RigConfig) (audio : list Z) (l : Link R) : option TxErr * (Client * Link R) :=
  let '(r, s) := andthen connect (fun _ => key_up rig) (new_client, l) in
  let '(err, s) :=
    match r with
    | Ok _ => play_and_unkey rig audio s
    | Err e => (Some (tx_err e), s)
    end in
  (err, close s).

(** [transmit_session], blocking. *)
Definition transmit_session (rig : RigConfig) (session : TxSession) (tx : Tx) (l : Link R) :
    result TxRefused unit * Tx * Link R :=
  if negb (ts_has_audio session) then (Err NoAudioStored, tx, l)
  else if tx_locked tx then (Err AlreadyTransmitting, tx, l)
  else
    match ts_audio session with
    | None =>
        (Err AudioRaised, {| tx_transmitting := tx_transmitting tx; tx_session_id := tx_session_id tx;
                             tx_error := tx_error tx; tx_locked := true |}, l)
    | Some audio =>
        let '(err, (_, l)) := run rig audio l in
        (Ok tt, {| tx_transmitting := false; tx_session_id := None; tx_error := err;
                   tx_locked := false |}, l)
    end.
End Client.

(** ** What reaches the rig *)

(** ** The log of a conversation *)

Section Log.
Context {R : Type}.
Variable dial : R -> bool.
Variable serve : pystr -> R -> option (list chunk) * R.
Variable player : list Z -> R -> bool.
Implicit Types (c : Client) (l : Link R) (s : Client * Link R).

(** [m] adds [acts] to the log and leaves an open connection open. *)
Definition adds {A} (m : IO (R := R) A) (acts : list (Act R)) : Prop :=
  forall s r s', cl_open s.1 = true -> m s = (r, s') ->
    cl_open s'.1 = true /\ lk_log s'.2 = lk_log s.2 ++ acts.

Lemma adds_ret {A} (x : A) : adds (ret x) [].
Proof. intros s r s' Ho [= _ <-]. by rewrite app_nil_r. Qed.

Lemma adds_raise {A} e : adds (raise (A := A) e) [].
Proof. intros s r s' Ho [= _ <-]. by rewrite app_nil_r. Qed.

Lemma adds_quiet {A B} (m : IO (R := R) A) (k : A -> IO (R := R) B) acts :
  adds m acts -> (forall x, adds (k x) []) -> adds (andthen m k) acts.
Proof.
  intros Hm Hk s r s' Ho. unfold andthen. destruct (m s) as [[x|e] s1] eqn:E.
  - destruct (Hm _ _ _ Ho E) as [Ho1 Hl1]. intros Ek.
    destruct (Hk x _ _ _ Ho1 Ek) as [? ->]. by rewrite Hl1, app_nil_r.
  - intros [= _ <-]. by apply (Hm _ _ _ Ho E).
Qed.

Lemma adds_read_line : adds read_line [].
Proof.
  intros [c l] r s' Ho. unfold read_line. destruct (readline _ _) as [[? ?] ?].
  intros [= _ <-]. cbn. by rewrite app_nil_r.
Qed.

Lemma adds_read_reply verb n lines : adds (read_reply verb n lines) [].
Proof.
  revert lines. induction n as [|n IH]; intros lines; cbn [read_reply]; [apply adds_ret|].
  apply adds_quiet; [apply adds_read_line|]. intros line.
  destruct (startswith line _); [|apply IH].
  destruct (str_eqb _ _); [apply adds_ret|apply adds_raise].
Qed.

Lemma adds_send command : is_ascii command = true -> adds (send serve command) [Sent command].
Proof.
  intros Ha [c l] r s' Ho. unfold send. rewrite Ha. cbn [negb].
  destruct (serve command _) as [[chunks|] rig]; intros [= _ <-]; done.
Qed.

Lemma adds_request command n :
  is_ascii command = true -> adds (request dial serve command n) [Sent command].
Proof.
  intros Ha s r s' Ho. unfold request, andthen at 1. rewrite Ho.
  apply (adds_quiet (send serve command)); [by apply adds_send| |done].
  intros _. apply adds_read_reply.
Qed.

Lemma adds_of_option {A} (x : option A) : adds (of_option x) [].
Proof. destruct x; [apply adds_ret|apply adds_raise]. Qed.

Lemma adds_get_ptt : adds (get_ptt dial serve) [Sent (u "t")].
Proof.
  apply adds_quiet; [by apply adds_request|]. intros lines.
  apply adds_quiet; [apply adds_of_option|]. intros. apply adds_ret.
Qed.

Lemma adds_set_ptt on : adds (set_ptt dial serve on) [Sent (if on then u "T 1" else u "T 0")].
Proof.
  apply adds_quiet; [apply adds_request; by destruct on|]. intros. apply adds_ret.
Qed.

(** What a transmission can do to a rig, in order. *)
Inductive tx_acts (rig : RigConfig) : list (Act R) -> Prop :=
| tx_no_link : tx_acts rig []
| tx_asked : rg_use_ptt rig = true -> tx_acts rig [Sent (u "t")]
| tx_key_unconfirmed : rg_use_ptt rig = true -> tx_acts rig [Sent (u "t"); Sent (u "T 1")]
| tx_aired r : rg_use_ptt rig = true ->
    tx_acts rig [Sent (u "t"); Sent (u "T 1"); Played r; Sent (u "T 0")]
| tx_vox r : rg_use_ptt rig = false -> tx_acts rig [Played r].

Definition played (acts : list (Act R)) : Prop := exists r, Played r ∈ acts.

Lemma key_up_acts rig s r s' :
  cl_open s.1 = true -> key_up dial serve rig s = (r, s') ->
  cl_open s'.1 = true
  /\ (exists acts, lk_log s'.2 = lk_log s.2 ++ acts
       /\ (is_ok r = true -> acts = if rg_use_ptt rig then [Sent (u "t"); Sent (u "T 1")] else [])
       /\ (is_ok r = false -> rg_use_ptt rig = true
              /\ (acts = [Sent (u "t")] \/ acts = [Sent (u "t"); Sent (u "T 1")]))).
Proof.
  intros Ho. unfold key_up. destruct (rg_use_ptt rig).
  2: { intros [= <- <-]. split; [done|]. exists []. by rewrite app_nil_r. }
  unfold andthen. destruct (get_ptt dial serve s) as [[keyed|e] s1] eqn:E1;
    destruct (adds_get_ptt _ _ _ Ho E1) as [Ho1 Hl1].
  2: { intros [= <- <-]. split; [done|]. exists [Sent (u "t")]. split; [done|]. split; [done|]. by auto. }
  destruct keyed.
  { intros [= <- <-]. split; [done|]. exists [Sent (u "t")]. split; [done|]. split; [done|]. by auto. }
  destruct (set_ptt dial serve true s1) as [[x|e] s2] eqn:E2;
    destruct (adds_set_ptt _ _ _ _ Ho1 E2) as [Ho2 Hl2];
    rewrite Hl1, <- app_assoc in Hl2.
  2: { intros [= <- <-]. split; [done|]. eexists. split; [exact Hl2|]. split; [done|]. by auto. }
  destruct (rg_ptt_lead_ms rig <? 0); intros [= <- <-]; (split; [done|]); eexists;
    (split; [exact Hl2|]); split; auto; done.
Qed.

Lemma run_acts rig audio l err s' :
  run dial serve player rig audio l = (err, s') ->
  cl_open s'.1 = false
  /\ exists acts, lk_log s'.2 = lk_log l ++ acts /\ tx_acts rig acts /\ (err = None -> played acts).
Proof.
  unfold run, andthen at 1. destruct (connect dial (new_client, l)) as [[x|e] s1] eqn:Ec.
  2: { unfold connect in Ec. destruct (dial _); [done|]. injection Ec as <- <-. intros [= <- <-].
       split; [done|]. exists []. rewrite app_nil_r. split; [done|]. split; [constructor|done]. }
  unfold connect in Ec. destruct (dial _); [|done]. injection Ec as _ <-.
  destruct (key_up dial serve rig _) as [r s2] eqn:Ek.
  apply key_up_acts in Ek as (Ho2 & acts & Hl & Hok & Herr); [|done]. cbn [snd lk_log] in Hl.
  destruct r as [[]|e].
  2: { intros [= <- <-]. split; [done|]. exists acts. split; [exact Hl|].
       destruct (Herr eq_refl) as [Hp [-> | ->]]; (split; [by constructor|by destruct e]). }
  rewrite (Hok eq_refl) in Hl. clear acts Hok Herr. destruct s2 as [c2 l2]. cbn [fst snd] in *.
  unfold play_and_unkey. destruct (rg_use_ptt rig) eqn:Hp.
  - destruct (set_ptt dial serve false _) as [r s3] eqn:E3.
    apply adds_set_ptt in E3 as [Ho3 Hl3]; [|done]. cbn [snd lk_log] in Hl3.
    rewrite Hl, <- !app_assoc in Hl3. intros Hend.
    assert (s' = close s3) as -> by (by destruct r; injection Hend as _ <-).
    split; [done|]. eexists. split; [exact Hl3|]. split; [by constructor|].
    intros _. exists (lk_rig l2). do 2 right. by left.
  - intros [= <- <-]. split; [done|]. cbn [close snd lk_log]. exists [Played (lk_rig l2)].
    rewrite Hl, app_nil_r. split; [done|]. split; [by constructor|]. intros _. eexists. by left.
Qed.

(** Whatever rigctld answers, fails to answer or hangs up on, and whatever the
    sound device does: an accepted transmission leaves the transmitter free and
    touches the rig in one of five ways. The message is on the air only between
    a [T 1] that was acknowledged and a [T 0] that is always sent; with VOX no
    PTT command is sent at all; and if no error is reported, the message was
    played. A refused transmission touches nothing. *)
Theorem tx_always_unkeys rig session tx l r tx' l' :
  transmit_session dial serve player rig session tx l = (r, tx', l') ->
  match r with
  | Ok _ =>
      tx_locked tx' = false /\ tx_transmitting tx' = false /\ tx_session_id tx' = None
      /\ exists acts, lk_log l' = lk_log l ++ acts /\ tx_acts rig acts
           /\ (tx_error tx' = None -> played acts)
  | Err AudioRaised => l' = l /\ tx_locked tx' = true
  | Err _ => l' = l /\ tx' = tx
  end.
Proof.
  unfold transmit_session. destruct (ts_has_audio session); cbn [negb].
  2: { by intros [= <- <- <-]. }
  destruct (tx_locked tx) eqn:Hlk; [by intros [= <- <- <-]|].
  destruct (ts_audio session) as [audio|]; [|by intros [= <- <- <-]].
  destruct (run dial serve player rig audio l) as [err [c l2]] eqn:E.
  apply run_acts in E as (_ & acts & H1 & H2 & H3). intros [= <- <- <-]. cbn. eauto 10.
Qed.
End Log.

(** ** A rigctld that keeps its contract *)

(** A reply in any chunking: non-empty pieces that join to [reply]. *)
Definition arrives (chunks : list chunk) (reply : bytes) : Prop :=
  exists pieces, chunks = Some <$> pieces /\ Forall (fun p => p <> []) pieces /\ mjoin pieces = reply.

Lemma span_not_nl_no b : 10 ∉ b -> span not_nl b = (b, []).
Proof.
  induction b as [|c b IH]; intros Hn; [done|]. apply not_elem_of_cons in Hn as [Hc Hn].
  cbn [span]. unfold not_nl at 1. destruct (c =? 10) eqn:E; [lia|]. cbn [negb]. by rewrite IH.
Qed.

Lemma span_not_nl_line line rest : 10 ∉ line -> span not_nl (line ++ 10 :: rest) = (line, 10 :: rest).
Proof.
  induction line as [|c line IH]; intros Hn; [done|]. apply not_elem_of_cons in Hn as [Hc Hn].
  cbn [app span]. unfold not_nl at 1. destruct (c =? 10) eqn:E; [lia|]. cbn [negb]. by rewrite IH.
Qed.

Lemma readline_pieces pieces : forall buf line,
  10 ∉ line -> Forall (fun p => p <> []) pieces -> buf ++ mjoin pieces = line ++ [10] ->
  readline buf (Some <$> pieces) = (Ok (strip (ascii_decode line)), [], []).
Proof.
  induction pieces as [|p pieces IH]; intros buf line Hl Hp Hb.
  - change (mjoin []) with ([] : bytes) in Hb. rewrite app_nil_r in Hb. subst buf. cbn [fmap list_fmap readline].
    by rewrite span_not_nl_line.
  - inversion Hp as [|? ? Hne Hp']; subst. change (mjoin (p :: pieces)) with (p ++ mjoin pieces) in Hb.
    destruct (decide (10 ∈ buf)) as [Hin|Hout].
    + exfalso. apply list_elem_of_split in Hin as (a & b & ->). rewrite <- app_assoc in Hb. cbn [app] in Hb.
      assert (10 ∉ line) as Hl' by done.
      assert (b ++ p ++ mjoin pieces = []) as Hz.
      { clear -Hb Hl. revert line Hb Hl. induction a as [|c a IHa]; intros line Hb Hl.
        - destruct line as [|d line]; cbn in Hb; [by injection Hb|].
          injection Hb as <- _. exfalso. apply Hl. by left.
        - destruct line as [|d line]; cbn in Hb.
          + injection Hb as _ Hb. by destruct a.
          + injection Hb as <- Hb. apply (IHa line Hb). intros ?. apply Hl. by right. }
      apply app_eq_nil in Hz as [_ Hz]. apply app_eq_nil in Hz as [Hz _]. done.
    + cbn [fmap list_fmap readline]. rewrite (span_not_nl_no buf Hout).
      destruct p as [|c p]; [done|]. apply IH; [done|done|]. by rewrite <- app_assoc.
Qed.

Section Lawful.
Context {R : Type} (ptt : R -> bool).
Variable dial : R -> bool.
Variable serve : pystr -> R -> option (list chunk) * R.
Variable player : list Z -> R -> bool.

(** rigctld's protocol for the transmit key: [t] reads it, [T b] sets it. *)
Record ptt_contract : Prop := {
  pc_dial : forall r, dial r = true;
  pc_get : forall r, exists chunks r', serve (u "t") r = (Some chunks, r')
             /\ arrives chunks (if ptt r then u "1" ++ [10] else u "0" ++ [10]) /\ ptt r' = ptt r;
  pc_set : forall b r, exists chunks r',
             serve (if b : bool then u "T 1" else u "T 0") r = (Some chunks, r')
             /\ arrives chunks (u "RPRT 0" ++ [10]) /\ ptt r' = b;
}.

(** A connection with nothing in flight. *)
Definition synced (s : Client * Link R) : Prop := cl_open s.1 = true /\ cl_buf s.1 = [] /\ lk_rx s.2 = [].

Lemma request_reply command n s chunks r' line :
  is_ascii command = true -> synced s -> serve command (lk_rig s.2) = (Some chunks, r') ->
  arrives chunks (line ++ [10]) -> 10 ∉ line ->
  exists s', synced s' /\ lk_rig s'.2 = r' /\ lk_log s'.2 = lk_log s.2 ++ [Sent command]
    /\ request dial serve command (S n) s
       = (let text := strip (ascii_decode line) in
          if startswith text (u "RPRT") then
            let code := default [] (last (words text)) in
            if str_eqb code (u "0") then ret [] else raise (Rejected (default [] (head (words command))) code)
          else read_reply (default [] (head (words command))) n [text]) s'.
Proof.
  destruct s as [c [rx rig log]]. intros Ha (Ho & Hb & Hr) Hs (pieces & -> & Hne & Hj) Hl.
  cbn [fst snd lk_rx lk_rig lk_log cl_open cl_buf] in *. subst rx.
  exists ({| cl_open := true; cl_buf := [] |}, Build_Link [] r' (log ++ [Sent command])).
  split; [done|]. split; [done|]. split; [done|].
  unfold request, andthen at 1. cbn [fst]. rewrite Ho. unfold andthen at 1.
  unfold send. rewrite Ha. cbn [negb lk_rig lk_log lk_rx app]. rewrite Hs.
  cbn [read_reply]. unfold andthen at 1. unfold read_line at 1.
  cbn [lk_rx cl_buf lk_rig lk_log]. rewrite Hb, ?app_nil_l.
  rewrite (readline_pieces pieces [] line Hl Hne Hj). rewrite Ho. cbn [lk_rig lk_log].
  by destruct (startswith _ _).
Qed.

Hypothesis contract : ptt_contract.

Lemma get_ptt_lawful s :
  synced s -> exists s', get_ptt dial serve s = (Ok (ptt (lk_rig s.2)), s') /\ synced s'
    /\ ptt (lk_rig s'.2) = ptt (lk_rig s.2) /\ lk_log s'.2 = lk_log s.2 ++ [Sent (u "t")].
Proof.
  intros Hs. destruct (pc_get contract (lk_rig s.2)) as (chunks & r' & Hserve & Harr & Hp).
  set (line := if ptt (lk_rig s.2) then u "1" else u "0").
  assert (arrives chunks (line ++ [10])) as Harr' by (subst line; by destruct (ptt (lk_rig s.2))).
  assert (10 ∉ line) as Hl.
  { subst line. destruct (ptt (lk_rig s.2)); by_compute. }
  destruct (request_reply (u "t") 0 s chunks r' line eq_refl Hs Hserve Harr' Hl)
    as (s' & Hs' & Hr & Hlog & Heq).
  exists s'. unfold get_ptt, andthen at 1. rewrite Heq. subst line.
  rewrite Hr. split; [|done]. by destruct (ptt (lk_rig s.2)).
Qed.

Lemma set_ptt_lawful b s :
  synced s -> exists s', set_ptt dial serve b s = (Ok tt, s') /\ synced s'
    /\ ptt (lk_rig s'.2) = b
    /\ lk_log s'.2 = lk_log s.2 ++ [Sent (if b then u "T 1" else u "T 0")].
Proof.
  intros Hs. destruct (pc_set contract b (lk_rig s.2)) as (chunks & r' & Hserve & Harr & Hp).
  destruct (request_reply (if b then u "T 1" else u "T 0") 0 s chunks r' (u "RPRT 0"))
    as (s' & Hs' & Hr & Hlog & Heq); [by destruct b|done|done|done|by_compute|].
  exists s'. unfold set_ptt, andthen at 1. rewrite Heq. rewrite Hr. done.
Qed.

(** With a rigctld that keeps the protocol of the transmit key, however its
    replies are cut into packets: a message is played exactly while the rig is
    keyed, the rig is unkeyed afterwards whether or not the player failed, the
    player's failure is what is reported, and the connection is left with
    nothing unread. A rig that somebody else has keyed is left alone: nothing
    is sent but the question, nothing is played, and that is the error. *)
Theorem on_air_while_keyed rig pk audio tx l :
  rg_use_ptt rig = true -> 0 <= rg_ptt_lead_ms rig -> lk_rx l = [] -> tx_locked tx = false ->
  let '(r, tx', l') := transmit_session dial serve player rig
                         {| ts_pk := pk; ts_has_audio := true; ts_audio := Some audio |} tx l in
  r = Ok tt /\ tx_locked tx' = false /\ lk_rx l' = []
  /\ if ptt (lk_rig l) then
       lk_log l' = lk_log l ++ [Sent (u "t")] /\ ptt (lk_rig l') = true
       /\ tx_error tx' = Some (TxRig AlreadyKeyed)
     else
       exists on_air, ptt on_air = true
         /\ lk_log l' = lk_log l ++ [Sent (u "t"); Sent (u "T 1"); Played on_air; Sent (u "T 0")]
         /\ ptt (lk_rig l') = false
         /\ tx_error tx' = if player audio on_air then None else Some TxFailed.
Proof.
  intros Hp Hlead Hrx Hlk. unfold transmit_session. cbn [ts_has_audio ts_audio negb]. rewrite Hlk.
  unfold run, andthen at 1. unfold connect. rewrite (pc_dial contract). unfold key_up. rewrite Hp.
  set (s0 := ({| cl_open := true; cl_buf := cl_buf new_client |}, l)).
  assert (synced s0) as H0 by (by split_and!).
  destruct (get_ptt_lawful s0 H0) as (s1 & E1 & H1 & P1 & L1). unfold andthen at 1. rewrite E1.
  cbn [snd s0] in P1, L1 |- *. destruct (ptt (lk_rig l)).
  { destruct s1 as [c1 l1]. destruct H1 as (_ & _ & H1). by cbn. }
  destruct (set_ptt_lawful true s1 H1) as (s2 & E2 & H2 & P2 & L2). unfold andthen at 1. rewrite E2.
  assert (rg_ptt_lead_ms rig <? 0 = false) as -> by lia. cbn [ret].
  destruct s2 as [c2 l2]. unfold play_and_unkey. rewrite Hp.
  set (s2' := (c2, Build_Link (lk_rx l2) (lk_rig l2) (lk_log l2 ++ [Played (lk_rig l2)]))).
  destruct (set_ptt_lawful false s2' H2) as (s3 & E3 & H3 & P3 & L3). rewrite E3.
  destruct s3 as [c3 l3]. cbn [close fst snd tx_locked tx_error] in *.
  destruct H3 as (_ & _ & H3). split; [done|]. split; [done|]. split; [exact H3|].
  exists (lk_rig l2). split; [exact P2|]. split; [|split; [exact P3|by destruct (player _ _)]].
  cbn [s2' snd lk_log] in L3. cbn [snd] in L2. rewrite L3, L2, L1, <- !app_assoc. done.
Qed.
End Lawful.

(** ** A dummy rig *)
Module RigDemo.
(** The key, answered one byte at a time. *)
Definition serve (command : pystr) (keyed : bool) : option (list chunk) * bool :=
  if str_eqb command (u "t") then (Some [Some (if keyed then u "1" else u "0"); Some [10]], keyed)
  else if str_eqb command (u "T 1") then (Some [Some (u "RPRT"); Some (u " 0" ++ [10])], true)
  else if str_eqb command (u "T 0") then (Some [Some (u "RPRT 0" ++ [10])], false)
  else (Some [Some (u "RPRT -1" ++ [10])], keyed).
(** The same rig behind a link that loses the answer to [T 1]. *)
Definition lossy (command : pystr) (keyed : bool) : option (list chunk) * bool :=
  if str_eqb command (u "T 1") then (Some [], true) else serve command keyed.
Definition rig : RigConfig := {| rg_use_ptt := true; rg_ptt_lead_ms := 150 |}.
Definition session : TxSession := {| ts_pk := 1; ts_has_audio := true; ts_audio := Some [0] |}.
Definition link (keyed : bool) : Link bool := Build_Link [] keyed [].
Definition dial (_ : bool) : bool := true.
Definition player (_ : list Z) (_ : bool) : bool := true.
End RigDemo.

Lemma demo_contract : ptt_contract (fun b => b) RigDemo.dial RigDemo.serve.
Proof.
  split.
  - done.
  - intros r. do 2 eexists. split; [reflexivity|]. split; [|done].
    exists [if r then u "1" else u "0"; [10]]. split; [done|]. split; [|by destruct r].
    repeat constructor; by destruct r.
  - intros [] r; do 2 eexists; (split; [reflexivity|]); (split; [|done]).
    + exists [u "RPRT"; u " 0" ++ [10]]. split; [done|]. split; [by repeat constructor|done].
    + exists [u "RPRT 0" ++ [10]]. split; [done|]. split; [by repeat constructor|done].
Qed.

Theorem on_air_while_keyed_witness :
  let '(r, tx', l') := transmit_session RigDemo.dial RigDemo.serve RigDemo.player RigDemo.rig
                         RigDemo.session tx_idle (RigDemo.link false) in
  r = Ok tt /\ lk_rig l' = false /\ tx_error tx' = None.
Proof.
  pose proof (on_air_while_keyed (fun b => b) RigDemo.dial RigDemo.serve RigDemo.player demo_contract
                RigDemo.rig 1 [0] tx_idle (RigDemo.link false) eq_refl ltac:(vm_compute; discriminate)
                eq_refl eq_refl) as T.
  change {| ts_pk := 1; ts_has_audio := true; ts_audio := Some [0] |} with RigDemo.session in T.
  destruct (transmit_session _ _ _ _ _ _ _) as [[r tx'] l'].
  destruct T as (T1 & _ & _ & a & _ & _ & T2 & T3). split; [exact T1|]. split; [exact T2|exact T3].
Defined.

Theorem tx_always_unkeys_witness :
  exists acts, lk_log (transmit_session RigDemo.dial RigDemo.lossy RigDemo.player RigDemo.rig
                         RigDemo.session tx_idle (RigDemo.link false)).2 = acts
               /\ tx_acts RigDemo.rig acts.
Proof.
  pose proof (tx_always_unkeys RigDemo.dial RigDemo.lossy RigDemo.player RigDemo.rig RigDemo.session
                tx_idle (RigDemo.link false)) as T.
  assert (is_ok (transmit_session RigDemo.dial RigDemo.lossy RigDemo.player RigDemo.rig
                   RigDemo.session tx_idle (RigDemo.link false)).1.1 = true) as Hok by reflexivity.
  destruct (transmit_session _ _ _ _ _ _ _) as [[[r|e] tx'] l']; [|discriminate Hok].
  destruct (T _ _ _ eq_refl) as (_ & _ & _ & acts & T1 & T2 & _).
  exists acts. split; [exact T1|exact T2].
Defined.

(** An acknowledgement that is lost on the way leaves the transmitter keyed: the
    release is in a [finally] that has not been entered yet. *)
Lemma lost_acknowledgement_stays_keyed :
  let '(_, tx', l') := transmit_session RigDemo.dial RigDemo.lossy RigDemo.player RigDemo.rig
                         RigDemo.session tx_idle (RigDemo.link false) in
  lk_rig l' = true /\ lk_log l' = [Sent (u "t"); Sent (u "T 1")]
  /\ tx_error tx' = Some (TxRig ReadFailed) /\ tx_locked tx' = false.
Proof. repeat split. Qed.
