(* ===== verification/RigDaemon.v ===== *)
(** * rigdaemon.py: launching and supervising a local rigctld

    What the operator's machine offers (serial ports, Hamlib's catalogue), the
    checks before anything reaches a command line, and the life of the one
    daemon a server process manages. The processes it has running are part of
    the state, so that losing one would show. *)
From S2P Require Import Prelude PyFloat PyStr Rig Regex.
Open Scope Z_scope.

Definition VALID_BAUDS : list Z := [1200; 2400; 4800; 9600; 19200; 38400; 57600; 115200].
Definition DUMMY_MODEL : Z := 1.

(** [^/dev/[A-Za-z0-9._\-]+$], as a full match. *)
Definition is_device_char (c : Z) : bool :=
  is_ascii_upper c || is_ascii_lower c || is_decimal c || (c =? 46) || (c =? 95) || (c =? 45).
Definition SERIAL_DEVICE_RE : regex := RSeq (r_lit (u "/dev/")) (r_plus is_device_char).
Definition is_serial_device (s : pystr) : bool := bool_decide (is_Some (fullmatch SERIAL_DEVICE_RE s)).

(** ** What is on the machine *)

(** [sorted(set(l))]: insertion that drops what is there already. *)
Fixpoint set_insert (x : pystr) (l : list pystr) : list pystr :=
  match l with
  | [] => [x]
  | y :: l' => if str_eqb x y then l else if str_ltb x y then x :: l else y :: set_insert x l'
  end.
Definition sorted_set (l : list pystr) : list pystr := foldr set_insert [] l.

Definition basename (path : pystr) : pystr := default [] (last (split_char 47 path)).

Definition port_hint (name : pystr) : pystr :=
  let lowered := lower name in
  if contains (u "slab") lowered || contains (u "cp21") lowered
  then u "Silicon Labs bridge — common in Icom/Yaesu USB ports"
  else if contains (u "usbserial") lowered || contains (u "ftdi") lowered
  then u "FTDI/generic USB-serial adapter"
  else if contains (u "usbmodem") lowered || contains (u "ttyacm") lowered
  then u "USB CDC device (some rigs, keyers, Arduinos)"
  else [].

(** [list_serial_ports], from what the three globs find. *)
Definition list_serial_ports (candidates : list pystr) : list (pystr * pystr) :=
  omap (fun dev =>
    let name := basename dev in
    if contains (u "Bluetooth") name || contains (u "debug-console") name then None
    else Some (dev, port_hint name)) (sorted_set candidates).

Definition not_space (c : Z) : bool := negb (is_space c).
Definition not_newline (c : Z) : bool := negb (c =? 10).

(** [^\s*(\d+)\s+(\S.*?)\s{2,}(\S.*?)\s{2,}] *)
Definition column (n : nat) : regex := RGroup n (RSeq (RClass not_space) (RRep false not_newline 0 None)).
Definition MODEL_RE : regex :=
  r_seq [r_star is_space; RGroup 1 (r_plus is_decimal); r_plus is_space;
         column 2; RRep true is_space 2 None; column 3; RRep true is_space 2 None].

Record RigModel := { rm_id : Z; rm_mfg : pystr; rm_model : pystr }.

Definition model_line (line : pystr) : option RigModel :=
  m ← re_match MODEL_RE line;
  Some {| rm_id := default 0 (digits (group 1 m)); rm_mfg := strip (group 2 m);
          rm_model := strip (group 3 m) |}.

Definition parse_models (text : pystr) : list RigModel := omap model_line (splitlines text).

(** [list_models]: the cache, the toolchain and what [rigctl -l] prints
    ([None]: it could not be run). *)
Definition list_models (cache : option (list RigModel)) (refresh have_rigctl : bool)
    (output : option pystr) : list RigModel * option (list RigModel) :=
  match cache with
  | Some models => if negb refresh then (models, cache) else
      if negb have_rigctl then ([], cache)
      else match output with Some text => (parse_models text, Some (parse_models text)) | None => ([], cache) end
  | None =>
      if negb have_rigctl then ([], cache)
      else match output with Some text => (parse_models text, Some (parse_models text)) | None => ([], cache) end
  end.

(** ** The daemon *)

Inductive DaemonErr :=
| NotADevice (path : pystr) | NoSuchDevice (path : pystr) | BadBaud (baud : Z) | NoHamlib
| AlreadyManaged | PortInUse (port : Z) | SpawnRaised | DaemonExited (tail : pystr).

Record Spec := { sp_model : Z; sp_serial_port : pystr; sp_baud : Z; sp_tcp_port : Z }.

(** [_state], the processes running and every command line spawned. *)
Record Daemon := {
  dm_proc : option Z;
  dm_alive : bool;
  dm_spec : option Spec;
  dm_log : list pystr;
  dm_running : gset Z;
  dm_spawned : list (list pystr);
}.

#[global] Instance eta_daemon : Eta Daemon := fun d =>
  Build_Daemon (dm_proc d) (dm_alive d) (dm_spec d) (dm_log d) (dm_running d) (dm_spawned d).

Definition no_daemon : Daemon :=
  {| dm_proc := None; dm_alive := false; dm_spec := None; dm_log := []; dm_running := ∅; dm_spawned := [] |}.

(** [deque(maxlen=120)] *)
Definition append_log (line : pystr) (d : Daemon) : Daemon :=
  d <| dm_log := let l := dm_log d ++ [line] in drop (length l - 120) l |>.

(** The machine a start meets. *)
Record Host := {
  ho_exists : pystr -> bool;
  ho_hamlib : bool;
  ho_port_in_use : Z -> bool;
  ho_pid : option Z;
  ho_output : list pystr;
  ho_dies : bool;
}.

Definition rigctld_argv (model : Z) (serial_port : pystr) (baud : option Z) (tcp_port : Z) : list pystr :=
  [u "rigctld"; u "-m"; str_of_Z model; u "-t"; str_of_Z tcp_port]
  ++ (if nonempty serial_port && negb (model =? DUMMY_MODEL) then [u "-r"; serial_port] else [])
  ++ (match baud with
      | Some b => if negb (b =? 0) && negb (model =? DUMMY_MODEL) then [u "-s"; str_of_Z b] else []
      | None => []
      end).

Definition log_tail (d : Daemon) : pystr := join (u " / ") (drop (length (dm_log d) - 3) (dm_log d)).

Definition start (h : Host) (model : Z) (serial_port : pystr) (baud : option Z) (tcp_port : Z)
    (d : Daemon) : result DaemonErr unit * Daemon :=
  if negb (model =? DUMMY_MODEL) && nonempty serial_port && negb (is_serial_device serial_port)
  then (Err (NotADevice serial_port), d)
  else if negb (model =? DUMMY_MODEL) && nonempty serial_port && negb (ho_exists h serial_port)
  then (Err (NoSuchDevice serial_port), d)
  else if match baud with Some b => negb (bool_decide (b ∈ VALID_BAUDS)) | None => false end
  then (Err (BadBaud (default 0 baud)), d)
  else if negb (ho_hamlib h) then (Err NoHamlib, d)
  else if bool_decide (is_Some (dm_proc d)) && dm_alive d then (Err AlreadyManaged, d)
  else if ho_port_in_use h tcp_port then (Err (PortInUse tcp_port), d)
  else
    let argv := rigctld_argv model serial_port baud tcp_port in
    let d := append_log (u "$ " ++ join (u " ") argv) (d <| dm_log := [] |>) in
    match ho_pid h with
    | None => (Err SpawnRaised, d)
    | Some pid =>
        let d := d <| dm_proc := Some pid |> <| dm_alive := true |>
                   <| dm_spec := Some {| sp_model := model; sp_serial_port := serial_port;
                                         sp_baud := default 0 baud; sp_tcp_port := tcp_port |} |>
                   <| dm_running := {[pid]} ∪ dm_running d |>
                   <| dm_spawned := dm_spawned d ++ [argv] |> in
        (* the reader runs during the wait *)
        let d := foldl (fun d line => append_log (rstrip line) d) d (ho_output h) in
        if ho_dies h then
          let d := d <| dm_alive := false |> <| dm_running := dm_running d ∖ {[pid]} |> in
          (Err (DaemonExited (log_tail d)), d)
        else (Ok tt, d)
    end.

Definition stop (d : Daemon) : Daemon :=
  let d := match dm_proc d with
           | Some pid => if dm_alive d then d <| dm_running := dm_running d ∖ {[pid]} |> else d
           | None => d
           end in
  d <| dm_proc := None |> <| dm_alive := false |> <| dm_spec := None |>.

(** The daemon ends by itself. *)
Definition daemon_exits (d : Daemon) : Daemon :=
  match dm_proc d with
  | Some pid => if dm_alive d then d <| dm_alive := false |> <| dm_running := dm_running d ∖ {[pid]} |> else d
  | None => d
  end.

Record DaemonStatus := {
  ds_running : bool;
  ds_pid : option Z;
  ds_spec : option Spec;
  ds_log : list pystr;
  ds_rig : option RigStatus;
  ds_probe_error : option RigErr;
}.

(** [status]; [None] when the probe raises something that is no [RigError]. *)
Definition status {R} (dial : R -> bool) (serve : pystr -> R -> option (list chunk) * R) (rig : R)
    (d : Daemon) : option DaemonStatus :=
  let running := bool_decide (is_Some (dm_proc d)) && dm_alive d in
  let report rig err :=
    Some {| ds_running := running; ds_pid := if running then dm_proc d else None;
            ds_spec := if running then dm_spec d else None;
            ds_log := drop (length (dm_log d) - 25) (dm_log d); ds_rig := rig; ds_probe_error := err |} in
  if running && bool_decide (is_Some (dm_spec d)) then
    match (andthen (connect dial) (fun _ => client_status dial serve)
             (new_client, Build_Link [] rig [])).1 with
    | Ok st => report (Some st) None
    | Err RigCrash => None
    | Err e => report None (Some e)
    end
  else report None None.

(** ** One daemon at a time, and only with arguments that were checked *)

Definition safe_argv (argv : list pystr) : Prop :=
  exists model tcp_port serial baud,
    argv = [u "rigctld"; u "-m"; str_of_Z model; u "-t"; str_of_Z tcp_port] ++ serial ++ baud
    /\ (serial = [] \/ exists dev, serial = [u "-r"; dev] /\ startswith dev (u "/dev/") = true
          /\ Forall (fun c => is_device_char c = true \/ c = 47) dev)
    /\ (baud = [] \/ exists b, b ∈ VALID_BAUDS /\ baud = [u "-s"; str_of_Z b]).

Inductive step : Daemon -> Daemon -> Prop :=
| step_start h model serial_port baud tcp_port d r d' :
    start h model serial_port baud tcp_port d = (r, d') -> step d d'
| step_stop d : step d (stop d)
| step_exit d : step d (daemon_exits d).

Inductive reachable : Daemon -> Prop :=
| reach_init : reachable no_daemon
| reach_step d d' : reachable d -> step d d' -> reachable d'.

Record inv (d : Daemon) : Prop := {
  inv_running : dm_running d = match dm_proc d with
                               | Some pid => if dm_alive d then {[pid]} else ∅
                               | None => ∅
                               end;
  inv_alive : dm_proc d = None -> dm_alive d = false;
  inv_argv : Forall safe_argv (dm_spawned d);
}.

Lemma run_lit w prev t g prev' t' g' : run (r_lit w) prev t g prev' t' g' -> t = w ++ t'.
Proof.
  unfold r_lit. revert prev t g. induction w as [|c w IH]; intros prev t g Hr.
  - by inversion Hr.
  - destruct w as [|d w].
    + inversion Hr as [|? ? c' ? ? Hc| | | | | |]; subst. by apply Z.eqb_eq in Hc as ->.
    + inversion Hr as [| | |? ? ? ? ? ? ? ? ? ? ? H1 H2| | | |]; subst.
      inversion H1 as [|? ? c' ? ? Hc| | | | | |]; subst. apply Z.eqb_eq in Hc as ->.
      apply IH in H2. cbn. by f_equal.
Qed.

Lemma serial_device_spec s :
  is_serial_device s = true ->
  startswith s (u "/dev/") = true /\ Forall (fun c => is_device_char c = true \/ c = 47) s.
Proof.
  unfold is_serial_device. intros H. apply bool_decide_eq_true in H as [m Hm].
  apply fullmatch_sound in Hm as [prev Hr].
  inversion Hr as [| | |? ? ? ? ? ? ? ? ? ? ? H1 H2| | | |]; subst.
  apply run_lit in H1 as ->. split; [apply startswith_app|].
  inversion H2 as [| |? ? ? ? ? w ? ? Hw| | | | |]; subst. rewrite app_nil_r.
  apply Forall_app. split.
  - by_compute.
  - eapply Forall_impl; [exact Hw|]. auto.
Qed.

Lemma rigctld_argv_safe model serial_port baud tcp_port :
  (negb (model =? DUMMY_MODEL) && nonempty serial_port && negb (is_serial_device serial_port) = false) ->
  (match baud with Some b => negb (bool_decide (b ∈ VALID_BAUDS)) | None => false end = false) ->
  safe_argv (rigctld_argv model serial_port baud tcp_port).
Proof.
  intros Hs Hb. unfold rigctld_argv, safe_argv. do 4 eexists. split; [reflexivity|]. split.
  - destruct (nonempty serial_port) eqn:En; [|by left]. destruct (model =? DUMMY_MODEL); [by left|].
    cbn [negb andb] in *. right. exists serial_port. apply negb_false_iff in Hs.
    split; [done|]. by apply serial_device_spec.
  - destruct baud as [b|]; [|by left]. apply negb_false_iff, bool_decide_eq_true in Hb.
    destruct (negb (b =? 0) && _); [|by left]. right. by exists b.
Qed.

(** The log takes no part in the rest of the state. *)
Lemma append_logs_frame (f : pystr -> pystr) lines d :
  let d' := foldl (fun d line => append_log (f line) d) d lines in
  dm_proc d' = dm_proc d /\ dm_alive d' = dm_alive d /\ dm_running d' = dm_running d
  /\ dm_spawned d' = dm_spawned d /\ dm_spec d' = dm_spec d.
Proof. revert d. induction lines as [|l lines IH]; intros d; [done|]. exact (IH (append_log (f l) d)). Qed.

Lemma start_inv h model serial_port baud tcp_port d r d' :
  inv d -> start h model serial_port baud tcp_port d = (r, d') ->
  inv d' /\ (is_ok r = true -> dm_running d = ∅ /\ is_Some (dm_proc d') /\ dm_alive d' = true).
Proof.
  intros Hi. unfold start.
  destruct (negb (model =? DUMMY_MODEL) && nonempty serial_port && negb (is_serial_device serial_port)) eqn:Hs;
    [by intros [= <- <-]|].
  destruct (_ && negb (ho_exists h serial_port)); [by intros [= <- <-]|].
  destruct (match baud with Some b => negb (bool_decide (b ∈ VALID_BAUDS)) | None => false end) eqn:Hb;
    [by intros [= <- <-]|].
  destruct (negb (ho_hamlib h)); [by intros [= <- <-]|].
  destruct (bool_decide (is_Some (dm_proc d)) && dm_alive d) eqn:Ha; [by intros [= <- <-]|].
  destruct (ho_port_in_use h tcp_port); [by intros [= <- <-]|].
  assert (dm_running d = ∅) as Hnone.
  { rewrite (inv_running d Hi). destruct (dm_proc d); [|done]. by destruct (dm_alive d). }
  pose proof (rigctld_argv_safe _ _ _ tcp_port Hs Hb) as Hargv.
  generalize dependent (rigctld_argv model serial_port baud tcp_port). intros argv Hargv.
  destruct (ho_pid h) as [pid|].
  2: { intros [= <- <-]. split; [|done]. destruct Hi. by split. }
  match goal with |- context [foldl ?f ?d1 (ho_output h)] =>
    pose proof (append_logs_frame rstrip (ho_output h) d1) as (H1 & H2 & H3 & H4 & _);
    generalize dependent (foldl f d1 (ho_output h)) end.
  intros d2 H1 H2 H3 H4. cbn in H1, H2, H3, H4. rewrite Hnone, union_empty_r_L in H3.
  assert (Forall safe_argv (dm_spawned d2)) as Hall.
  { rewrite H4. apply Forall_app. split; [apply Hi|by constructor]. }
  destruct (ho_dies h); intros [= <- <-].
  - split; [|done]. split; [|done|exact Hall]. cbn. rewrite H1, H3. by rewrite difference_diag_L.
  - split; [|intros _; split; [done|]; split; [by rewrite H1|done]].
    split; [by rewrite H1, H2, H3|by rewrite H1|exact Hall].
Qed.

Lemma stop_inv d : inv d -> inv (stop d) /\ dm_running (stop d) = ∅.
Proof.
  intros Hi. assert (dm_running (stop d) = ∅) as Hr.
  { unfold stop. pose proof (inv_running d Hi) as H. destruct (dm_proc d) as [pid|]; [|exact H].
    destruct (dm_alive d); cbn; rewrite H; [by rewrite difference_diag_L|done]. }
  split; [|done]. split; [exact Hr|done|]. unfold stop.
  destruct (dm_proc d) as [pid|]; [destruct (dm_alive d)|]; apply Hi.
Qed.

Lemma exit_inv d : inv d -> inv (daemon_exits d).
Proof.
  intros Hi. unfold daemon_exits. destruct (dm_proc d) as [pid|] eqn:Hp; [|done].
  destruct (dm_alive d) eqn:Ha; [|done]. split; cbn.
  - by rewrite (inv_running d Hi), Hp, Ha, difference_diag_L.
  - done.
  - apply Hi.
Qed.

Lemma daemon_reachable_inv d : reachable d -> inv d.
Proof.
  induction 1 as [|d d' _ IH Hs]; [by split|]. destruct Hs as [h m sp b t d r d' E| |].
  - by apply (start_inv _ _ _ _ _ _ _ _ IH E).
  - by apply stop_inv.
  - by apply exit_inv.
Qed.

(** However starts, stops and crashes of the daemon interleave: there is never
    more than one rigctld of ours, [status] says it runs exactly when it does,
    [stop] leaves none and a start that succeeds had found none, and every
    command line ever spawned was the checked one: a device path under /dev
    without a character a shell or an option parser would read, and a speed from
    the table. *)
Theorem one_managed_daemon d :
  reachable d ->
  (size (dm_running d) <= 1)%nat
  /\ (dm_running d <> ∅ <-> dm_proc d <> None /\ dm_alive d = true)
  /\ dm_running (stop d) = ∅
  /\ (forall h model serial_port baud tcp_port d',
        start h model serial_port baud tcp_port d = (Ok tt, d') ->
        dm_running d = ∅ /\ size (dm_running d') = 1%nat)
  /\ Forall safe_argv (dm_spawned d).
Proof.
  intros Hd%daemon_reachable_inv. split_and!.
  - rewrite (inv_running d Hd). destruct (dm_proc d); [destruct (dm_alive d)|];
      rewrite ?size_singleton, ?size_empty; lia.
  - rewrite (inv_running d Hd). destruct (dm_proc d) as [pid|]; [destruct (dm_alive d)|]; split.
    + done.
    + intros _. apply non_empty_singleton_L.
    + done.
    + by intros [_ ?].
    + done.
    + by intros [? _].
  - by apply stop_inv.
  - intros h m sp b t d' E. destruct (start_inv _ _ _ _ _ _ _ _ Hd E) as [Hi Ho].
    destruct (Ho eq_refl) as (H1 & [pid Hp] & Ha). split; [done|].
    by rewrite (inv_running d' Hi), Hp, Ha, size_singleton.
  - apply Hd.
Qed.

Module DaemonDemo.
Definition host : Host :=
  {| ho_exists := fun _ => true; ho_hamlib := true; ho_port_in_use := fun _ => false;
     ho_pid := Some 4242; ho_output := []; ho_dies := false |}.
Definition started : Daemon := (start host 3085 (u "/dev/ttyUSB0") (Some 19200) 4532 no_daemon).2.
End DaemonDemo.

Theorem one_managed_daemon_witness :
  dm_running DaemonDemo.started <> ∅ /\ dm_running (stop DaemonDemo.started) = ∅
  /\ Forall safe_argv (dm_spawned DaemonDemo.started).
Proof.
  assert (reachable DaemonDemo.started) as Hr.
  { eapply reach_step; [apply reach_init|]. unfold DaemonDemo.started.
    apply (step_start DaemonDemo.host 3085 (u "/dev/ttyUSB0") (Some 19200) 4532 no_daemon
             (start DaemonDemo.host 3085 (u "/dev/ttyUSB0") (Some 19200) 4532 no_daemon).1).
    apply surjective_pairing. }
  destruct (one_managed_daemon DaemonDemo.started Hr) as (_ & T1 & T2 & _ & T3).
  split; [apply T1; split; vm_compute; done|]. split; [exact T2|exact T3].
Defined.
