(* ===== verification/BandPlan.v ===== *)
(** * bandplan.py: the amateur band plan and its chart

    The plan as data (FCC privileges, calling frequencies), and what the chart
    page computes from it: labels, the proportional bar, the entry ticks. *)
From Stdlib Require Import SpecFloat QArith Lqa Sorted.
From S2P Require Import Prelude PyFloat PyStr Logbook LogbookFacts.
Open Scope Z_scope.

Section Plan.
Context {F : Type} `{Num F}.

Definition TUNER_FLOOR_MHZ : F := num_of_Z 24.
Definition LICENSE_CLASSES : list pystr := [u "Extra"; u "Advanced"; u "General"; u "Technician"].

Notation Span := (F * F)%type.

Record Zone := { zn_kind : pystr; zn_label : pystr; zn_left_pct : F; zn_width_pct : F }.

Record Privilege := { pv_license : pystr; pv_cw_data : option Span; pv_phone : option Span }.

Definition has_access (p : Privilege) : bool :=
  bool_decide (is_Some (pv_cw_data p)) || bool_decide (is_Some (pv_phone p)).

Record Calling := { cg_khz : F; cg_label : pystr; cg_band : pystr }.

Record Band := {
  bp_key : pystr;
  bp_name : pystr;
  bp_low_mhz : F;
  bp_high_mhz : F;
  bp_privileges : list Privilege;
  bp_decimals : Z;
  bp_power : pystr;
  bp_note : pystr;
  bp_calling : list Calling;
  bp_vhf : bool;
  bp_channels : list F;
}.

Definition width_mhz (b : Band) : F := num_sub (bp_high_mhz b) (bp_low_mhz b).

Definition privilege_for (license_class : pystr) (b : Band) : Privilege :=
  default (Build_Privilege license_class None None)
    (List.find (fun p => str_eqb (pv_license p) license_class) (bp_privileges b)).

(** A position on the bar, in percent. *)
Definition pct (x : F) (b : Band) : F := num_mul (num_div x (width_mhz b)) (num_of_Z 100).

Definition span_zone (b : Band) (kind label : pystr) (span : option Span) : list Zone :=
  match span with
  | None => []
  | Some (lo, hi) =>
      [{| zn_kind := kind; zn_label := label;
          zn_left_pct := num_round 3 (pct (num_sub lo (bp_low_mhz b)) b);
          zn_width_pct := num_round 3 (pct (num_sub hi lo) b) |}]
  end.

Definition same_span (a b : option Span) : bool :=
  match a, b with
  | Some (x, y), Some (x', y') => num_eqb x x' && num_eqb y y'
  | None, None => true
  | _, _ => false
  end.

Definition zones (b : Band) : list Zone :=
  match bp_channels b with
  | _ :: _ => []
  | [] =>
      let extra := privilege_for (u "Extra") b in
      if bool_decide (is_Some (pv_cw_data extra)) && same_span (pv_cw_data extra) (pv_phone extra) then
        [{| zn_kind := u "both"; zn_label := u "CW & phone — no FCC split";
            zn_left_pct := num_of_Z 0; zn_width_pct := num_of_Z 100 |}]
      else span_zone b (u "cw") (u "CW / data") (pv_cw_data extra)
           ++ span_zone b (u "phone") (u "phone / image") (pv_phone extra)
  end.

(** [by_freq.setdefault(freq, []).append(name)] *)
Fixpoint add_start (freq : F) (name : pystr) (by_freq : list (F * list pystr)) :
    list (F * list pystr) :=
  match by_freq with
  | [] => [(freq, [name])]
  | (f, names) :: rest =>
      if num_eqb f freq then (f, names ++ [name]) :: rest
      else (f, names) :: add_start freq name rest
  end.

Definition first_span (p : Privilege) : option Span :=
  match pv_cw_data p with Some s => Some s | None => pv_phone p end.

Definition class_start (b : Band) (by_freq : list (F * list pystr)) (license_class : pystr) :
    list (F * list pystr) :=
  match first_span (privilege_for license_class b) with
  | None => by_freq
  | Some (lo, _) =>
      if num_leb lo (bp_low_mhz b) then by_freq else add_start lo license_class by_freq
  end.

(** Sorting on distinct frequencies. *)
Fixpoint insert_start (x : F * list pystr) (l : list (F * list pystr)) : list (F * list pystr) :=
  match l with
  | [] => [x]
  | y :: l' => if num_ltb x.1 y.1 then x :: l else y :: insert_start x l'
  end.

Record Tick := { tk_freq : F; tk_left_pct : F; tk_licenses : pystr }.

Definition entry_ticks (b : Band) : list Tick :=
  let by_freq := foldl (class_start b) [] [u "General"; u "Technician"] in
  (fun fn : F * list pystr =>
     {| tk_freq := fn.1; tk_left_pct := num_round 3 (pct (num_sub fn.1 (bp_low_mhz b)) b);
        tk_licenses := join (u " · ") fn.2 |}) <$> foldr insert_start [] by_freq.

Definition needs_upconverter (b : Band) : bool := num_ltb (bp_high_mhz b) TUNER_FLOOR_MHZ.

(** [_all] *)
Definition all_classes (cw_data : Span) (phone : option Span) : list Privilege :=
  (fun c => Build_Privilege c (Some cw_data) phone) <$> LICENSE_CLASSES.

Definition HF_BANDS : list Band := [
  {| bp_key := u "160m"; bp_name := u "160 m"; bp_low_mhz := lit 18 10; bp_high_mhz := num_of_Z 2;
     bp_privileges := [
      Build_Privilege (u "Extra") (Some ((lit 18 10), (num_of_Z 2))) (Some ((lit 18 10), (num_of_Z 2)));
      Build_Privilege (u "Advanced") (Some ((lit 18 10), (num_of_Z 2))) (Some ((lit 18 10), (num_of_Z 2)));
      Build_Privilege (u "General") (Some ((lit 18 10), (num_of_Z 2))) (Some ((lit 18 10), (num_of_Z 2)));
      Build_Privilege (u "Technician") None None];
     bp_decimals := 3; bp_power := u "1500 W PEP";
     bp_note := u "No FCC subbands here — the CW/phone split is band-plan convention, CW at the bottom and phone above about 1.843. A night band; summer static crashes make it hard work.";
     bp_calling := [Build_Calling (num_of_Z 1810) (u "QRP") (u "160 m");
       Build_Calling (num_of_Z 1820) (u "SKCC") (u "160 m")];
     bp_vhf := false; bp_channels := [] |};
  {| bp_key := u "80m"; bp_name := u "80 / 75 m"; bp_low_mhz := lit 35 10; bp_high_mhz := num_of_Z 4;
     bp_privileges := [
      Build_Privilege (u "Extra") (Some ((lit 35 10), (lit 36 10))) (Some ((lit 36 10), (num_of_Z 4)));
      Build_Privilege (u "Advanced") (Some ((lit 3525 1000), (lit 36 10))) (Some ((lit 37 10), (num_of_Z 4)));
      Build_Privilege (u "General") (Some ((lit 3525 1000), (lit 36 10))) (Some ((lit 38 10), (num_of_Z 4)));
      Build_Privilege (u "Technician") (Some ((lit 3525 1000), (lit 36 10))) None];
     bp_decimals := 3; bp_power := u "1500 W PEP";
     bp_note := u "A Technician's first HF band, CW only. Regional at night, short-range by day.";
     bp_calling := [Build_Calling (num_of_Z 3550) (u "SKCC") (u "80 m");
       Build_Calling (num_of_Z 3558) (u "FISTS") (u "80 m");
       Build_Calling (num_of_Z 3560) (u "QRP") (u "80 m")];
     bp_vhf := false; bp_channels := [] |};
  {| bp_key := u "60m"; bp_name := u "60 m"; bp_low_mhz := lit 53305 10000; bp_high_mhz := lit 54065 10000;
     bp_privileges := [
      Build_Privilege (u "Extra") (Some ((lit 53305 10000), (lit 54065 10000))) (Some ((lit 53305 10000), (lit 54065 10000)));
      Build_Privilege (u "Advanced") (Some ((lit 53305 10000), (lit 54065 10000))) (Some ((lit 53305 10000), (lit 54065 10000)));
      Build_Privilege (u "General") (Some ((lit 53305 10000), (lit 54065 10000))) (Some ((lit 53305 10000), (lit 54065 10000)));
      Build_Privilege (u "Technician") None None];
     bp_decimals := 4; bp_power := u "100 W PEP ERP";
     bp_note := u "Channelised, not a band. Five channels, 2.8 kHz maximum bandwidth, USB only for phone — and CW is sent on the channel centre frequency, not anywhere in a segment.";
     bp_calling := [];
     bp_vhf := false; bp_channels := [lit 5332 1000; lit 5348 1000; lit 53585 10000; lit 5373 1000; lit 5405 1000] |};
  {| bp_key := u "40m"; bp_name := u "40 m"; bp_low_mhz := num_of_Z 7; bp_high_mhz := lit 73 10;
     bp_privileges := [
      Build_Privilege (u "Extra") (Some ((num_of_Z 7), (lit 7125 1000))) (Some ((lit 7125 1000), (lit 73 10)));
      Build_Privilege (u "Advanced") (Some ((lit 7025 1000), (lit 7125 1000))) (Some ((lit 7125 1000), (lit 73 10)));
      Build_Privilege (u "General") (Some ((lit 7025 1000), (lit 7125 1000))) (Some ((lit 7175 1000), (lit 73 10)));
      Build_Privilege (u "Technician") (Some ((lit 7025 1000), (lit 7125 1000))) None];
     bp_decimals := 3; bp_power := u "1500 W PEP";
     bp_note := u "The busiest CW band in the world and the most dependable one, day or night. Regions 1 and 3 stop at 7.200 — listen before you call DX up there.";
     bp_calling := [Build_Calling (num_of_Z 7030) (u "QRP") (u "40 m");
       Build_Calling (num_of_Z 7055) (u "SKCC") (u "40 m");
       Build_Calling (num_of_Z 7058) (u "FISTS") (u "40 m")];
     bp_vhf := false; bp_channels := [] |};
  {| bp_key := u "30m"; bp_name := u "30 m"; bp_low_mhz := lit 101 10; bp_high_mhz := lit 1015 100;
     bp_privileges := [
      Build_Privilege (u "Extra") (Some ((lit 101 10), (lit 1015 100))) None;
      Build_Privilege (u "Advanced") (Some ((lit 101 10), (lit 1015 100))) None;
      Build_Privilege (u "General") (Some ((lit 101 10), (lit 1015 100))) None;
      Build_Privilege (u "Technician") None None];
     bp_decimals := 3; bp_power := u "200 W PEP";
     bp_note := u "CW and data only — no phone, for any license class. A WARC band, so contests stay off it: quiet when 40 and 20 are a wall of noise.";
     bp_calling := [Build_Calling (num_of_Z 10106) (u "QRP") (u "30 m");
       Build_Calling (num_of_Z 10118) (u "FISTS") (u "30 m");
       Build_Calling (num_of_Z 10120) (u "SKCC") (u "30 m")];
     bp_vhf := false; bp_channels := [] |};
  {| bp_key := u "20m"; bp_name := u "20 m"; bp_low_mhz := num_of_Z 14; bp_high_mhz := lit 1435 100;
     bp_privileges := [
      Build_Privilege (u "Extra") (Some ((num_of_Z 14), (lit 1415 100))) (Some ((lit 1415 100), (lit 1435 100)));
      Build_Privilege (u "Advanced") (Some ((lit 14025 1000), (lit 1415 100))) (Some ((lit 14175 1000), (lit 1435 100)));
      Build_Privilege (u "General") (Some ((lit 14025 1000), (lit 1415 100))) (Some ((lit 14225 1000), (lit 1435 100)));
      Build_Privilege (u "Technician") None None];
     bp_decimals := 3; bp_power := u "1500 W PEP";
     bp_note := u "The DX workhorse — open somewhere for most daylight hours. No Technician privileges at all.";
     bp_calling := [Build_Calling (num_of_Z 14050) (u "SKCC") (u "20 m");
       Build_Calling (num_of_Z 14058) (u "FISTS") (u "20 m");
       Build_Calling (num_of_Z 14060) (u "QRP") (u "20 m")];
     bp_vhf := false; bp_channels := [] |};
  {| bp_key := u "17m"; bp_name := u "17 m"; bp_low_mhz := lit 18068 1000; bp_high_mhz := lit 18168 1000;
     bp_privileges := [
      Build_Privilege (u "Extra") (Some ((lit 18068 1000), (lit 1811 100))) (Some ((lit 1811 100), (lit 18168 1000)));
      Build_Privilege (u "Advanced") (Some ((lit 18068 1000), (lit 1811 100))) (Some ((lit 1811 100), (lit 18168 1000)));
      Build_Privilege (u "General") (Some ((lit 18068 1000), (lit 1811 100))) (Some ((lit 1811 100), (lit 18168 1000)));
      Build_Privilege (u "Technician") None None];
     bp_decimals := 3; bp_power := u "1500 W PEP";
     bp_note := u "WARC band — no contests. Narrow, civil, and often open when 20 m is crowded.";
     bp_calling := [Build_Calling (num_of_Z 18080) (u "SKCC") (u "17 m");
       Build_Calling (num_of_Z 18085) (u "FISTS") (u "17 m");
       Build_Calling (num_of_Z 18096) (u "QRP") (u "17 m")];
     bp_vhf := false; bp_channels := [] |};
  {| bp_key := u "15m"; bp_name := u "15 m"; bp_low_mhz := num_of_Z 21; bp_high_mhz := lit 2145 100;
     bp_privileges := [
      Build_Privilege (u "Extra") (Some ((num_of_Z 21), (lit 212 10))) (Some ((lit 212 10), (lit 2145 100)));
      Build_Privilege (u "Advanced") (Some ((lit 21025 1000), (lit 212 10))) (Some ((lit 21225 1000), (lit 2145 100)));
      Build_Privilege (u "General") (Some ((lit 21025 1000), (lit 212 10))) (Some ((lit 21275 1000), (lit 2145 100)));
      Build_Privilege (u "Technician") (Some ((lit 21025 1000), (lit 212 10))) None];
     bp_decimals := 3; bp_power := u "1500 W PEP";
     bp_note := u "Daytime DX that rises and falls with the solar cycle. A Technician's second CW band.";
     bp_calling := [Build_Calling (num_of_Z 21050) (u "SKCC") (u "15 m");
       Build_Calling (num_of_Z 21058) (u "FISTS") (u "15 m");
       Build_Calling (num_of_Z 21060) (u "QRP") (u "15 m")];
     bp_vhf := false; bp_channels := [] |};
  {| bp_key := u "12m"; bp_name := u "12 m"; bp_low_mhz := lit 2489 100; bp_high_mhz := lit 2499 100;
     bp_privileges := [
      Build_Privilege (u "Extra") (Some ((lit 2489 100), (lit 2493 100))) (Some ((lit 2493 100), (lit 2499 100)));
      Build_Privilege (u "Advanced") (Some ((lit 2489 100), (lit 2493 100))) (Some ((lit 2493 100), (lit 2499 100)));
      Build_Privilege (u "General") (Some ((lit 2489 100), (lit 2493 100))) (Some ((lit 2493 100), (lit 2499 100)));
      Build_Privilege (u "Technician") None None];
     bp_decimals := 3; bp_power := u "1500 W PEP";
     bp_note := u "WARC band. Sits right at a bare RTL stick's tuner floor — the lowest band on this chart a plain dongle can even try to hear.";
     bp_calling := [Build_Calling (num_of_Z 24906) (u "QRP") (u "12 m");
       Build_Calling (num_of_Z 24910) (u "SKCC") (u "12 m");
       Build_Calling (num_of_Z 24918) (u "FISTS") (u "12 m")];
     bp_vhf := false; bp_channels := [] |};
  {| bp_key := u "10m"; bp_name := u "10 m"; bp_low_mhz := num_of_Z 28; bp_high_mhz := lit 297 10;
     bp_privileges := [
      Build_Privilege (u "Extra") (Some ((num_of_Z 28), (lit 283 10))) (Some ((lit 283 10), (lit 297 10)));
      Build_Privilege (u "Advanced") (Some ((num_of_Z 28), (lit 283 10))) (Some ((lit 283 10), (lit 297 10)));
      Build_Privilege (u "General") (Some ((num_of_Z 28), (lit 283 10))) (Some ((lit 283 10), (lit 297 10)));
      Build_Privilege (u "Technician") (Some ((num_of_Z 28), (lit 283 10))) (Some ((lit 283 10), (lit 285 10)))];
     bp_decimals := 3; bp_power := u "1500 W PEP";
     bp_note := u "The one HF band where a Technician gets phone. Flat at solar minimum, worldwide on a dipole at maximum. The IBP beacons live around 28.2 and are the best propagation check there is.";
     bp_calling := [Build_Calling (num_of_Z 28050) (u "SKCC") (u "10 m");
       Build_Calling (num_of_Z 28058) (u "FISTS") (u "10 m");
       Build_Calling (num_of_Z 28060) (u "QRP") (u "10 m")];
     bp_vhf := false; bp_channels := [] |}
].

Definition VHF_BANDS : list Band := [
  {| bp_key := u "6m"; bp_name := u "6 m"; bp_low_mhz := num_of_Z 50; bp_high_mhz := num_of_Z 54;
     bp_privileges := (all_classes ((num_of_Z 50), (num_of_Z 54)) (Some ((lit 501 10), (num_of_Z 54))));
     bp_decimals := 1; bp_power := u "1500 W PEP";
     bp_note := u "“The magic band” — dead for weeks, then sporadic-E opens it coast to coast. 50.0–50.1 is CW only.";
     bp_calling := [Build_Calling (num_of_Z 50090) (u "CW calling") (u "6 m")];
     bp_vhf := true; bp_channels := [] |};
  {| bp_key := u "2m"; bp_name := u "2 m"; bp_low_mhz := num_of_Z 144; bp_high_mhz := num_of_Z 148;
     bp_privileges := (all_classes ((num_of_Z 144), (num_of_Z 148)) (Some ((lit 1441 10), (num_of_Z 148))));
     bp_decimals := 1; bp_power := u "1500 W PEP";
     bp_note := u "Mostly repeaters and FM simplex, but the bottom 100 kHz is CW only and carries real weak-signal work.";
     bp_calling := [Build_Calling (num_of_Z 144050) (u "CW calling") (u "2 m")];
     bp_vhf := true; bp_channels := [] |};
  {| bp_key := u "1.25m"; bp_name := u "1.25 m"; bp_low_mhz := num_of_Z 222; bp_high_mhz := num_of_Z 225;
     bp_privileges := (all_classes ((num_of_Z 222), (num_of_Z 225)) (Some ((num_of_Z 222), (num_of_Z 225))));
     bp_decimals := 1; bp_power := u "1500 W PEP";
     bp_note := u "A US-only allocation. Quiet, and radios for it are scarce.";
     bp_calling := [];
     bp_vhf := true; bp_channels := [] |};
  {| bp_key := u "70cm"; bp_name := u "70 cm"; bp_low_mhz := num_of_Z 420; bp_high_mhz := num_of_Z 450;
     bp_privileges := (all_classes ((num_of_Z 420), (num_of_Z 450)) (Some ((num_of_Z 420), (num_of_Z 450))));
     bp_decimals := 1; bp_power := u "1500 W PEP";
     bp_note := u "Shared with government radiolocation — power and use are restricted in some areas. Heavy repeater and satellite activity.";
     bp_calling := [Build_Calling (num_of_Z 432100) (u "CW / SSB calling") (u "70 cm")];
     bp_vhf := true; bp_channels := [] |};
  {| bp_key := u "33cm"; bp_name := u "33 cm"; bp_low_mhz := num_of_Z 902; bp_high_mhz := num_of_Z 928;
     bp_privileges := (all_classes ((num_of_Z 902), (num_of_Z 928)) (Some ((num_of_Z 902), (num_of_Z 928))));
     bp_decimals := 1; bp_power := u "1500 W PEP";
     bp_note := u "Shares the ISM band with every unlicensed gadget in the house.";
     bp_calling := [];
     bp_vhf := true; bp_channels := [] |};
  {| bp_key := u "23cm"; bp_name := u "23 cm"; bp_low_mhz := num_of_Z 1240; bp_high_mhz := num_of_Z 1300;
     bp_privileges := (all_classes ((num_of_Z 1240), (num_of_Z 1300)) (Some ((num_of_Z 1240), (num_of_Z 1300))));
     bp_decimals := 1; bp_power := u "1500 W PEP";
     bp_note := u "The top of what a common RTL-SDR stick can tune.";
     bp_calling := [];
     bp_vhf := true; bp_channels := [] |}
].

Definition BANDS : list Band := HF_BANDS ++ VHF_BANDS.

Definition BANDS_BY_KEY (key : pystr) : option Band :=
  List.find (fun b => str_eqb (bp_key b) key) BANDS.

Fixpoint insert_calling (c : Calling) (l : list Calling) : list Calling :=
  match l with
  | [] => [c]
  | d :: l' => if num_ltb (cg_khz d) (cg_khz c) then d :: insert_calling c l' else c :: l
  end.

(** [cw_calling_table] *)
Definition cw_calling_table : list Calling := foldr insert_calling [] (mjoin (bp_calling <$> BANDS)).
End Plan.
Arguments Band F : clear implicits.
Arguments Privilege F : clear implicits.
Arguments Zone F : clear implicits.
Arguments Tick F : clear implicits.
Arguments Calling F : clear implicits.

(** ** Labels *)

Definition fmt (mhz : float) (decimals : Z) : pystr := fmt_fixed decimals mhz.

Definition span_label (span : option (float * float)) (decimals : Z) : pystr :=
  match span with
  | None => []
  | Some (lo, hi) => fmt lo decimals ++ u "–" ++ fmt hi decimals
  end.

(** [Calling.mhz] *)
Definition calling_mhz (c : Calling float) : pystr := fmt_fixed 3 (num_div (cg_khz c) (num_of_Z 1000)).

Definition range_label (b : Band float) : pystr :=
  fmt (bp_low_mhz b) (bp_decimals b) ++ u "–" ++ fmt (bp_high_mhz b) (bp_decimals b) ++ u " MHz".

Record Row := { rw_license : pystr; rw_cw_data : pystr; rw_phone : pystr; rw_none : pystr }.

Definition rows (b : Band float) : list Row :=
  (fun p => {| rw_license := pv_license p; rw_cw_data := span_label (pv_cw_data p) (bp_decimals b);
               rw_phone := span_label (pv_phone p) (bp_decimals b);
               rw_none := if has_access p then [] else u "no privileges on this band" |})
  <$> bp_privileges b.

Definition tick_label (b : Band float) (t : Tick float) : pystr := fmt (tk_freq t) (bp_decimals b).

Definition technician_access (b : Band float) : pystr :=
  let tech := privilege_for (u "Technician") b in
  if negb (has_access tech) then []
  else
    join (u " · ")
      ((match pv_cw_data tech with
        | Some s => [span_label (Some s) (bp_decimals b) ++ u " CW/data"] | None => [] end)
       ++ (match pv_phone tech with
           | Some s => [span_label (Some s) (bp_decimals b) ++ u " phone"] | None => [] end)).

(** ** The chart stays on its bar, and the plan agrees with the log *)

(** ** The bar *)

Lemma round3_range (x : Q) :
  (0 <= x <= 100 -> 0 <= num_round 3 x <= 100 /\ num_round 3 x <= x + (1 # 2000))%Q.
Proof.
  destruct x as [n d]. intros [H0 H1]. unfold Qle in H0, H1. cbn [Qnum Qden] in H0, H1.
  cbn [num_round Q_num Qnum Qden]. change (10 ^ 3) with 1000. change (Z.to_pos 1000) with 1000%positive.
  pose proof (round_half_even_bound (n * 1000) d) as [B1 B2].
  generalize dependent (round_half_even (n * 1000) d). intros r B1 B2.
  assert (0 <= r <= 100000) as Hr by nia.
  split; [split|]; unfold Qle, Qplus; cbn [Qnum Qden]; lia.
Qed.

Lemma pct_range (b : Band Q) x :
  (bp_low_mhz b < bp_high_mhz b -> 0 <= x <= bp_high_mhz b - bp_low_mhz b ->
   0 <= pct x b <= 100)%Q.
Proof.
  intros Hw [H0 H1]. unfold pct. change (width_mhz b) with (bp_high_mhz b - bp_low_mhz b)%Q.
  set (w := (bp_high_mhz b - bp_low_mhz b)%Q) in *. assert (0 < w)%Q as Hp by (subst w; lra).
  clearbody w. change (num_mul (num_div x w) (num_of_Z 100)) with (x / w * 100)%Q.
  assert (0 <= x / w)%Q by (apply Qle_shift_div_l; lra).
  assert (x / w <= 1)%Q by (apply Qle_shift_div_r; lra). lra.
Qed.

Lemma pct_add (b : Band Q) x y :
  (bp_low_mhz b < bp_high_mhz b -> pct (x + y) b == pct x b + pct y b)%Q.
Proof.
  intros Hw. unfold pct. change (width_mhz b) with (bp_high_mhz b - bp_low_mhz b)%Q.
  change (((x + y) / (bp_high_mhz b - bp_low_mhz b) * 100
           == x / (bp_high_mhz b - bp_low_mhz b) * 100 + y / (bp_high_mhz b - bp_low_mhz b) * 100)%Q).
  field. lra.
Qed.

(** Every class's segments lie within the band's edges. *)
Definition inside (b : Band Q) (s : option (Q * Q)) : Prop :=
  forall lo hi, s = Some (lo, hi) -> (bp_low_mhz b <= lo /\ lo <= hi /\ hi <= bp_high_mhz b)%Q.

Definition well_drawn (b : Band Q) : Prop :=
  (bp_low_mhz b < bp_high_mhz b)%Q
  /\ forall p, p ∈ bp_privileges b -> inside b (pv_cw_data p) /\ inside b (pv_phone p).

Lemma privilege_inside b c :
  well_drawn b -> inside b (pv_cw_data (privilege_for c b)) /\ inside b (pv_phone (privilege_for c b)).
Proof.
  intros [_ Hp]. unfold privilege_for. destruct (List.find _ _) as [p|] eqn:E; [|by split].
  apply List.find_some in E as [Hin _]. apply Hp. by apply list_elem_of_In.
Qed.

Definition on_bar (z : Zone Q) : Prop :=
  (0 <= zn_left_pct z /\ 0 <= zn_width_pct z /\ zn_left_pct z + zn_width_pct z <= 100 + (1 # 1000))%Q.

Lemma span_zone_on_bar b kind label span :
  well_drawn b -> inside b span -> Forall on_bar (span_zone b kind label span).
Proof.
  intros [Hw _] Hs. destruct span as [[lo hi]|]; [|constructor]. destruct (Hs lo hi eq_refl) as (H1 & H2 & H3).
  cbn [span_zone]. constructor; [|constructor]. unfold on_bar. cbn [zn_left_pct zn_width_pct].
  change (num_sub lo (bp_low_mhz b)) with (lo - bp_low_mhz b)%Q. change (num_sub hi lo) with (hi - lo)%Q.
  destruct (pct_range b (lo - bp_low_mhz b) Hw ltac:(lra)) as [L1 L2].
  destruct (pct_range b (hi - lo) Hw ltac:(lra)) as [W1 W2].
  destruct (pct_range b (lo - bp_low_mhz b + (hi - lo)) Hw ltac:(lra)) as [_ S2].
  rewrite pct_add in S2 by done.
  destruct (round3_range _ (conj L1 L2)) as [[? ?] ?]. destruct (round3_range _ (conj W1 W2)) as [[? ?] ?].
  repeat split; lra.
Qed.

(** ** The entry ticks *)

(** The class's privileges start above the band's lower edge, at [lo]. *)
Definition starts_at (b : Band Q) (c : pystr) (lo : Q) : Prop :=
  exists hi, first_span (privilege_for c b) = Some (lo, hi) /\ (bp_low_mhz b < lo)%Q.

Definition names_at (c : pystr) (lo : Q) (l : list (Q * list pystr)) : Prop :=
  exists names f, (f, names) ∈ l /\ c ∈ names /\ (f == lo)%Q.

Definition starts_ok (b : Band Q) (l : list (Q * list pystr)) : Prop :=
  Forall (fun fn => bp_low_mhz b < fn.1 <= bp_high_mhz b)%Q l
  /\ StronglySorted (fun x y => x.1 < y.1)%Q l
  /\ forall c lo, c ∈ [u "General"; u "Technician"] -> starts_at b c lo -> names_at c lo l.

Lemma first_span_inside b c lo hi :
  well_drawn b -> first_span (privilege_for c b) = Some (lo, hi) ->
  (bp_low_mhz b <= lo <= bp_high_mhz b)%Q.
Proof.
  intros Hb Hs. destruct (privilege_inside b c Hb) as [H1 H2]. unfold first_span in Hs.
  destruct (pv_cw_data _) as [s|]; [injection Hs as ->; destruct (H1 lo hi eq_refl)|destruct (H2 lo hi Hs)];
    lra.
Qed.

(** What one class contributes: nothing, or a start inside the band. *)
Lemma class_start_cases b c l :
  well_drawn b ->
  (class_start b l c = l /\ forall lo, ~ starts_at b c lo)
  \/ exists lo, class_start b l c = add_start lo c l /\ (bp_low_mhz b < lo <= bp_high_mhz b)%Q
       /\ forall lo', starts_at b c lo' -> lo' = lo.
Proof.
  intros Hb. unfold class_start. destruct (first_span (privilege_for c b)) as [[lo hi]|] eqn:E.
  2: { left. split; [done|]. intros lo (hi & Hs & _). congruence. }
  destruct (num_leb lo (bp_low_mhz b)) eqn:El.
  - left. split; [done|]. intros lo' (hi' & Hs & Hlt). apply Q_leb_true in El.
    rewrite E in Hs. injection Hs as <- <-. lra.
  - right. exists lo. apply Q_leb_false in El. pose proof (first_span_inside b c lo hi Hb E).
    split; [done|]. split; [lra|]. intros lo' (hi' & Hs & _). congruence.
Qed.

(** Short lists, element by element. *)
Ltac forall_list :=
  repeat first [apply Forall_nil_2 | apply Forall_cons_2 | apply SSorted_nil | apply SSorted_cons];
  try assumption.

Lemma starts_sorted b :
  well_drawn b -> starts_ok b (foldr insert_start [] (foldl (class_start b) [] [u "General"; u "Technician"])).
Proof.
  intros Hb. cbn [foldl]. set (G := u "General"). set (T := u "Technician").
  assert (forall c lo, c ∈ [G; T] -> starts_at b c lo -> (c = G \/ c = T)) as Hc.
  { intros c lo Hin _. apply elem_of_cons in Hin as [-> | Hin]; [by left|right].
    apply elem_of_cons in Hin as [-> | Hin]; [done|]. by apply elem_of_nil in Hin. }
  destruct (class_start_cases b T (class_start b [] G) Hb) as [[-> Ht]|(t & -> & Ht1 & Ht2)];
    destruct (class_start_cases b G [] Hb) as [[-> Hg]|(g & -> & Hg1 & Hg2)].
  - split; [constructor|]. split; [constructor|]. intros c lo Hin Hs.
    destruct (Hc c lo Hin Hs) as [-> | ->]; [by apply Hg in Hs|by apply Ht in Hs].
  - cbn. split; [forall_list|]. split; [forall_list|]. intros c lo Hin Hs.
    destruct (Hc c lo Hin Hs) as [-> | ->]; [|by apply Ht in Hs]. rewrite (Hg2 _ Hs).
    exists [G], g. split; [by left|]. split; [by left|reflexivity].
  - cbn. split; [forall_list|]. split; [forall_list|]. intros c lo Hin Hs.
    destruct (Hc c lo Hin Hs) as [-> | ->]; [by apply Hg in Hs|]. rewrite (Ht2 _ Hs).
    exists [T], t. split; [by left|]. split; [by left|reflexivity].
  - cbn [add_start]. destruct (num_eqb g t) eqn:E.
    + apply Qeq_bool_iff in E. cbn. split; [forall_list|]. split; [forall_list|].
      intros c lo Hin Hs. exists [G; T], g. split; [by left|].
      destruct (Hc c lo Hin Hs) as [-> | ->].
      * rewrite (Hg2 _ Hs). split; [by left|reflexivity].
      * rewrite (Ht2 _ Hs). split; [by right; left|exact E].
    + assert (~ g == t)%Q as Hne by (intros Hq; apply Qeq_bool_iff in Hq; cbn in E; congruence).
      cbn [foldr insert_start fst]. destruct (num_ltb g t) eqn:El.
      * apply Q_ltb_true in El. split; [forall_list|]. split; [forall_list|].
        intros c lo Hin Hs. destruct (Hc c lo Hin Hs) as [-> | ->].
        -- rewrite (Hg2 _ Hs). exists [G], g. split; [by left|]. split; [by left|reflexivity].
        -- rewrite (Ht2 _ Hs). exists [T], t. split; [by right; left|]. split; [by left|reflexivity].
      * apply Q_ltb_false in El. assert (t < g)%Q as Hlt.
        { apply Qle_lteq in El as [?|He]; [done|]. exfalso. apply Hne. by rewrite He. }
        split; [forall_list|]. split; [forall_list|].
        intros c lo Hin Hs. destruct (Hc c lo Hin Hs) as [-> | ->].
        -- rewrite (Hg2 _ Hs). exists [G], g. split; [by right; left|]. split; [by left|reflexivity].
        -- rewrite (Ht2 _ Hs). exists [T], t. split; [by left|]. split; [by left|reflexivity].
Qed.

(** For any band whose segments lie within its edges: every coloured block of
    the chart is on the bar (to the thousandth of a percent it is rounded to),
    the entry ticks are on it too, in strictly ascending order of frequency so
    that no two are drawn at one position of the band, none repeats the lower
    edge, and each of the two entry classes whose privileges start above that
    edge is named at exactly where they start. *)
Theorem chart_on_bar (b : Band Q) :
  well_drawn b ->
  Forall on_bar (zones b)
  /\ Forall (fun t => bp_low_mhz b < tk_freq t /\ 0 <= tk_left_pct t <= 100)%Q (entry_ticks b)
  /\ StronglySorted (fun t t' => tk_freq t < tk_freq t')%Q (entry_ticks b)
  /\ forall c lo, c ∈ [u "General"; u "Technician"] -> starts_at b c lo ->
       exists t names, t ∈ entry_ticks b /\ (tk_freq t == lo)%Q
         /\ tk_licenses t = join (u " · ") names /\ c ∈ names.
Proof.
  intros Hb. split.
  - unfold zones. destruct (bp_channels b); [|constructor].
    destruct (bool_decide _ && same_span _ _).
    + constructor; [|constructor]. unfold on_bar. cbn. lra.
    + destruct (privilege_inside b (u "Extra") Hb). apply Forall_app.
      split; by apply span_zone_on_bar.
  - destruct (starts_sorted b Hb) as (H1 & H2 & H3). unfold entry_ticks.
    set (l := foldr insert_start [] _) in *. clearbody l. split; [|split].
    + apply Forall_fmap. eapply Forall_impl; [exact H1|]. cbn beta. intros [f names] [Hlo Hhi].
      cbn [compose tk_freq tk_left_pct fst] in *. split; [done|]. destruct Hb as [Hw _].
      change (num_sub f (bp_low_mhz b)) with (f - bp_low_mhz b)%Q.
      destruct (round3_range (pct (f - bp_low_mhz b)%Q b)) as [? _]; [|done].
      apply pct_range; [done|]. lra.
    + clear -H2. induction H2 as [|x l _ IH Hx]; cbn [fmap list_fmap]; constructor; [done|].
      apply Forall_fmap. eapply Forall_impl; [exact Hx|]. done.
    + intros c lo Hin Hs. destruct (H3 c lo Hin Hs) as (names & f & Hel & Hn & He).
      eexists _, names. split; [apply list_elem_of_fmap; eexists; split; [reflexivity|exact Hel]|].
      split; [exact He|done].
Qed.

Example chart_on_bar_witness :
  exists b, BANDS_BY_KEY (F := Q) (u "15m") = Some b
    /\ Forall on_bar (zones b)
    /\ exists t names, t ∈ entry_ticks b /\ tk_licenses t = join (u " · ") names
         /\ u "Technician" ∈ names.
Proof.
  destruct (BANDS_BY_KEY (F := Q) (u "15m")) as [b|] eqn:E; [|vm_compute in E; discriminate].
  exists b. split; [reflexivity|].
  vm_compute in E. injection E as <-.
  match goal with |- context [zones ?b0] => set (b := b0) end.
  assert (well_drawn b) as Hb.
  { split; [reflexivity|]. intros p Hp. repeat (apply elem_of_cons in Hp as [-> | Hp]);
      [..|by apply elem_of_nil in Hp];
      split; intros lo hi [= <- <-]; repeat split; vm_compute; discriminate. }
  destruct (chart_on_bar b Hb) as (T1 & _ & _ & T2). split; [exact T1|].
  destruct (T2 (u "Technician") (21025 # 1000)%Q) as (t & names & H1 & _ & H2 & H3).
  - right. left.
  - eexists. split; [vm_compute; reflexivity|reflexivity].
  - exists t, names. split; [exact H1|]. split; [exact H2|exact H3].
Defined.

(** ** The plan and the log *)

Lemma float_eqb_leb x y : SFeqb x y = true -> SFleb x y = true.
Proof. unfold SFeqb, SFleb. by destruct (SFcompare x y) as [[]|]. Qed.

(** The bands of the plan the log has no name for. *)
Definition UNLOGGED : list pystr := [u "1.25m"; u "33cm"; u "23cm"].

(** The bands' limits against the log's, and the plan's own order. *)
Definition band_agrees (b : Band float) : bool :=
  num_ltb (num_of_Z 0) (bp_low_mhz b)
  && if bool_decide (bp_key b ∈ UNLOGGED)
     then forallb (fun lb => num_ltb lb.1.2 (bp_low_mhz b) || num_ltb (bp_high_mhz b) lb.1.1)
            Logbook.BANDS
     else existsb (fun lb => str_eqb lb.2 (bp_key b) && num_leb lb.1.1 (bp_low_mhz b)
                             && num_leb (bp_high_mhz b) lb.1.2) Logbook.BANDS.

(** A contact on any frequency of a planned band, edges included, is logged
    under that band's name; on the three bands of the plan that the logbook's
    table leaves out (1.25 m, 33 cm and 23 cm) it is logged without a band. *)
Theorem plan_agrees_with_log (b : Band float) (f : float) :
  b ∈ BandPlan.BANDS -> num_leb (bp_low_mhz b) f = true -> num_leb f (bp_high_mhz b) = true ->
  band_for_freq (Some f) = if bool_decide (bp_key b ∈ UNLOGGED) then [] else bp_key b.
Proof.
  intros Hb Hlo Hhi.
  assert (Forall (fun b => band_agrees b = true) BandPlan.BANDS) as Hall by by_compute.
  rewrite Forall_forall in Hall. specialize (Hall b Hb). unfold band_agrees in Hall.
  apply andb_true_iff in Hall as [Hpos Hall].
  destruct (bool_decide (bp_key b ∈ UNLOGGED)).
  - apply band_not_found. intros lb Hin. rewrite forallb_Forall, Forall_forall in Hall.
    specialize (Hall lb Hin). cbn beta in Hall. unfold in_band.
    destruct (num_leb lb.1.1 f) eqn:E1; [|done]. destruct (num_leb f lb.1.2) eqn:E2; [|done]. exfalso.
    apply orb_true_iff in Hall as [Hs|Hs]; apply float_ltb_true in Hs as [_ Hs].
    + rewrite (float_leb_trans _ _ _ Hlo E2) in Hs. done.
    + rewrite (float_leb_trans _ _ _ E1 Hhi) in Hs. done.
  - apply existsb_exists in Hall as (lb & Hin & Hall). apply list_elem_of_In in Hin.
    apply andb_true_iff in Hall as [Hall H2]. apply andb_true_iff in Hall as [Hname H1].
    apply bool_decide_eq_true in Hname. rewrite <- Hname. apply band_found; [done| |].
    + unfold in_band. apply andb_true_iff. split.
      * exact (float_leb_trans _ _ _ H1 Hlo).
      * exact (float_leb_trans _ _ _ Hhi H2).
    + destruct (num_eqb f (num_of_Z 0)) eqn:E; [|done]. exfalso.
      apply float_eqb_leb in E. apply float_ltb_true in Hpos as [_ Hpos].
      rewrite (float_leb_trans _ _ _ Hlo E) in Hpos. done.
Qed.

Example plan_agrees_with_log_witness :
  band_for_freq (Some (lit 7030 1000)) = u "40m" /\ band_for_freq (Some (num_of_Z 223)) = [].
Proof.
  assert (exists b : Band float, b ∈ BandPlan.BANDS /\ bp_key b = u "40m" /\ num_leb (bp_low_mhz b) (lit 7030 1000) = true
            /\ num_leb (lit 7030 1000) (bp_high_mhz b) = true) as (b & H1 & H2 & H3 & H4).
  { eexists. split; [do 3 apply list_elem_of_further; apply list_elem_of_here|]. repeat split. }
  assert (exists b : Band float, b ∈ BandPlan.BANDS /\ bp_key b = u "1.25m" /\ num_leb (bp_low_mhz b) (num_of_Z 223) = true
            /\ num_leb (num_of_Z 223) (bp_high_mhz b) = true) as (c & C1 & C2 & C3 & C4).
  { eexists. split; [do 12 apply list_elem_of_further; apply list_elem_of_here|]. repeat split. }
  pose proof (plan_agrees_with_log b (lit 7030 1000) H1 H3 H4) as T1. rewrite H2 in T1.
  pose proof (plan_agrees_with_log c (num_of_Z 223) C1 C3 C4) as T2. rewrite C2 in T2.
  split; [exact T1|exact T2].
Defined.

(** Facts of the table itself: the classes nest, every calling frequency is a
    frequency where Extra may send CW, and the first eight HF bands are out of
    reach of a bare stick. *)
Definition span_within (s t : option (float * float)) : bool :=
  match s, t with
  | None, _ => true
  | Some (a, b), Some (c, d) => num_leb c a && num_leb b d
  | Some _, None => false
  end.

Definition class_within (b : Band float) (lower higher : pystr) : bool :=
  let p := privilege_for lower b in
  let q := privilege_for higher b in
  span_within (pv_cw_data p) (pv_cw_data q) && span_within (pv_phone p) (pv_phone q).

Lemma plan_nests :
  forallb (fun b : Band float => class_within b (u "Technician") (u "General")
                    && class_within b (u "General") (u "Advanced")
                    && class_within b (u "Advanced") (u "Extra")) BandPlan.BANDS = true
  /\ forallb (fun b : Band float => forallb (fun c =>
       let mhz := num_div (cg_khz c) (num_of_Z 1000) in
       span_within (Some (mhz, mhz)) (pv_cw_data (privilege_for (u "Extra") b))) (bp_calling b))
       BandPlan.BANDS = true
  /\ bp_key <$> List.filter needs_upconverter (BandPlan.BANDS (F := float))
     = [u "160m"; u "80m"; u "60m"; u "40m"; u "30m"; u "20m"; u "17m"; u "15m"].
Proof. split; [|split]; vm_compute; reflexivity. Qed.
