(* ===== verification/PyLib.v ===== *)
(** * Library functions the webhooks use

    [str.encode], [hashlib.sha256], [hmac], [hmac.compare_digest], [fnmatch] and
    [dict], as the Standard Library of Python has them. The constants of
    SHA-256 are computed from the primes they come from. *)
From S2P Require Import Prelude PyFloat PyStr.
Open Scope Z_scope.

(** ** [str.encode()]: the surrogates raise [UnicodeEncodeError] *)

Definition utf8_char (c : Z) : option (list Z) :=
  if c <? 128 then Some [c]
  else if c <? 2048 then Some [192 + c / 64; 128 + c mod 64]
  else if (55296 <=? c) && (c <=? 57343) then None
  else if c <? 65536 then Some [224 + c / 4096; 128 + c / 64 mod 64; 128 + c mod 64]
  else Some [240 + c / 262144; 128 + c / 4096 mod 64; 128 + c / 64 mod 64; 128 + c mod 64].

Definition utf8_encode (s : pystr) : option (list Z) := mjoin <$> mapM utf8_char s.

(** What can be written as UTF-8: the database driver raises on the rest. *)
Definition encodable (s : pystr) : bool := bool_decide (is_Some (utf8_encode s)).

Lemma encodable_true s : encodable s = true <-> Forall (fun c => is_Some (utf8_char c)) s.
Proof. unfold encodable, utf8_encode. by rewrite bool_decide_eq_true, fmap_is_Some, mapM_is_Some. Qed.

Lemma encodable_incl s t : (forall c, c ∈ s -> c ∈ t) -> encodable t = true -> encodable s = true.
Proof. rewrite !encodable_true, !Forall_forall. auto. Qed.

Lemma lstrip_by_in p s c : c ∈ lstrip_by p s -> c ∈ s.
Proof. induction s as [|x s IH]; cbn; [done|]. destruct (p x); [|done]. intros H. right. auto. Qed.

Lemma strip_in s c : c ∈ strip s -> c ∈ s.
Proof.
  unfold strip, strip_by, rstrip_by. rewrite !list_elem_of_In, <- in_rev, <- list_elem_of_In. intros H%lstrip_by_in.
  revert H. rewrite list_elem_of_In, <- in_rev, <- !list_elem_of_In. apply lstrip_by_in.
Qed.

Lemma encodable_strip s : encodable s = true -> encodable (strip s) = true.
Proof. apply encodable_incl, strip_in. Qed.

Lemma ascii_encodable s : Forall (fun c => c < 128) s -> encodable s = true.
Proof.
  rewrite encodable_true. intros H. eapply Forall_impl; [exact H|]. cbn. intros c Hc. unfold utf8_char.
  rewrite (proj2 (Z.ltb_lt c 128)) by done. by eexists.
Qed.

(** ** [hashlib.sha256] *)

Definition W32 : Z := 2 ^ 32.
Definition add32 (l : list Z) : Z := foldr Z.add 0 l mod W32.
Definition rotr (n x : Z) : Z := Z.lor (Z.shiftr x n) (Z.shiftl x (32 - n) mod W32).
Definition xor3 (x y z : Z) : Z := Z.lxor x (Z.lxor y z).

Definition prime (n : Z) : bool := forallb (fun d => negb (n mod d =? 0)) (seqZ 2 (n - 2)).
Definition primes : list Z := List.filter prime (seqZ 2 310).

(** The greatest [r < 2 ^ 36] with [r ^ 3 <= n]. *)
Definition cube_root (n : Z) : Z :=
  foldl (fun r b => let r' := r + 2 ^ b in if r' ^ 3 <=? n then r' else r) 0 (reverse (seqZ 0 36)).

Definition round_constants : list Z := Eval vm_compute in (fun p => cube_root (p * 2 ^ 96) mod W32) <$> primes.
Definition initial_hash : list Z := Eval vm_compute in (fun p => Z.sqrt (p * 2 ^ 64) mod W32) <$> take 8 primes.

(** One round on the eight words, with the window of the next sixteen words of
    the schedule. *)
Definition sha_round (hw : list Z * list Z) (k : Z) : list Z * list Z :=
  match hw with
  | ([a; b; c; d; e; f; g; h], w) =>
      let x i := nth i w 0 in
      let s0 := xor3 (rotr 2 a) (rotr 13 a) (rotr 22 a) in
      let s1 := xor3 (rotr 6 e) (rotr 11 e) (rotr 25 e) in
      let choice := Z.lxor (Z.land e f) (Z.land (W32 - 1 - e) g) in
      let major := xor3 (Z.land a b) (Z.land a c) (Z.land b c) in
      let t := add32 [h; s1; choice; k; x 0%nat] in
      let v0 := xor3 (rotr 7 (x 1%nat)) (rotr 18 (x 1%nat)) (Z.shiftr (x 1%nat) 3) in
      let v1 := xor3 (rotr 17 (x 14%nat)) (rotr 19 (x 14%nat)) (Z.shiftr (x 14%nat) 10) in
      ([add32 [t; s0; major]; a; b; c; add32 [d; t]; e; f; g],
       drop 1 w ++ [add32 [x 0%nat; v0; x 9%nat; v1]])
  | _ => hw
  end.

Fixpoint chunks {A} (n : nat) (fuel : nat) (l : list A) : list (list A) :=
  match fuel, l with
  | S fuel, _ :: _ => take n l :: chunks n fuel (drop n l)
  | _, _ => []
  end.

Definition big_endian (bs : list Z) : Z := foldl (fun n b => 256 * n + b) 0 bs.
Fixpoint bytes_of (n : nat) (x : Z) : list Z :=
  match n with O => [] | S n => Z.shiftr x (8 * Z.of_nat n) mod 256 :: bytes_of n x end.

Definition sha_block (h : list Z) (block : list Z) : list Z :=
  let h' := (foldl sha_round (h, big_endian <$> chunks 4 16 block) round_constants).1 in
  zip_with (fun x y => add32 [x; y]) h h'.

Definition sha_pad (bs : list Z) : list Z :=
  bs ++ [128] ++ replicate (Z.to_nat ((55 - zlen bs) mod 64)) 0 ++ bytes_of 8 (8 * zlen bs).

Definition sha256 (bs : list Z) : list Z :=
  let p := sha_pad bs in
  mjoin (bytes_of 4 <$> foldl sha_block initial_hash (chunks 64 (length p) p)).

(** [hmac.new(key, msg, hashlib.sha256).digest()] and [hexdigest]. *)
Definition hmac_sha256 (key msg : list Z) : list Z :=
  let key := if 64 <? zlen key then sha256 key else key in
  let key := key ++ replicate (64 - length key) 0 in
  sha256 ((Z.lxor 92 <$> key) ++ sha256 ((Z.lxor 54 <$> key) ++ msg)).

Definition hex_digit (n : Z) : Z := if n <? 10 then 48 + n else 87 + n.
Definition hexdigest (bs : list Z) : pystr := mjoin ((fun b => [hex_digit (b / 16 mod 16); hex_digit (b mod 16)]) <$> bs).

Example sha256_empty :
  hexdigest (sha256 []) = u "e3b0c44298fc1c149afbf4c8996fb92427ae41e4649b934ca495991b7852b855".
Proof. by_compute. Qed.
Example hmac_fox :
  hexdigest (hmac_sha256 (u "key") (u "The quick brown fox jumps over the lazy dog"))
  = u "f7bc83f430538424b13298e6aa6fb143ef4d59a14946175997479dbc2d1a3cd8".
Proof. by_compute. Qed.

(** [hmac.compare_digest] of two [str]: only ASCII, else [TypeError]. *)
Definition ascii (s : pystr) : bool := forallb (fun c => c <? 128) s.
Definition compare_digest (a b : pystr) : option bool :=
  if ascii a && ascii b then Some (str_eqb a b) else None.

(** The digits of a hexdigest. *)
Definition is_hex (c : Z) : bool := is_decimal c || ((97 <=? c) && (c <=? 102)).

Lemma hex_digit_hex n : is_hex (hex_digit (n mod 16)) = true.
Proof.
  pose proof (Z.mod_pos_bound n 16 ltac:(lia)). unfold is_hex, is_decimal, hex_digit.
  destruct (n mod 16 <? 10) eqn:E; bool_to_prop; apply orb_true_iff; [left|right]; lia.
Qed.

Lemma hexdigest_hex bs : Forall (fun c => is_hex c = true) (hexdigest bs).
Proof.
  unfold hexdigest. induction bs as [|b bs IH]; cbn; [constructor|].
  repeat constructor; try apply hex_digit_hex; done.
Qed.

Lemma is_hex_plain c : is_hex c = true -> is_space c = false /\ (c <? 128) = true /\ c <> 61 /\ c <> 115.
Proof.
  unfold is_hex, is_decimal, is_space. intros H.
  assert (48 <= c <= 57 \/ 97 <= c <= 102) by lia. split_and!; lia.
Qed.

(** ** [fnmatch.fnmatch]: the pattern, read as [fnmatch.translate] reads it *)

Inductive Glob := Star | Any | Lit (c : Z) | Set_ (neg : bool) (items : list (Z * Z)).

(** The inside of brackets: ranges and characters. A hyphen first, last or
    after a range stands for itself, and a range the wrong way round is empty. *)
Fixpoint set_items (s : pystr) : list (Z * Z) :=
  match s with
  | a :: ((45 :: b :: s') as rest) => (a, b) :: set_items s'
  | a :: s' => (a, a) :: set_items s'
  | [] => []
  end.

(** What follows a bracket: its inside and the rest, if it is ever closed. *)
Fixpoint until_close (acc s : pystr) : option (pystr * pystr) :=
  match s with
  | [] => None
  | 93 :: s' => Some (acc, s')
  | c :: s' => until_close (acc ++ [c]) s'
  end.

Definition bracket (s : pystr) : option (bool * pystr * pystr) :=
  let '(neg, s1) := match s with 33 :: s' => (true, s') | _ => (false, s) end in
  let '(first, s2) := match s1 with 93 :: s' => ([93], s') | _ => ([], s1) end in
  '(inside, rest) ← until_close [] s2; Some (neg, first ++ inside, rest).

Fixpoint glob_parse (fuel : nat) (s : pystr) : list Glob :=
  match fuel, s with
  | S fuel, c :: s' =>
      if c =? 42 then Star :: glob_parse fuel s'
      else if c =? 63 then Any :: glob_parse fuel s'
      else if c =? 91 then
        match bracket s' with
        | Some (neg, inside, rest) => Set_ neg (set_items inside) :: glob_parse fuel rest
        | None => Lit c :: glob_parse fuel s'
        end
      else Lit c :: glob_parse fuel s'
  | _, _ => []
  end.

Definition glob_char (g : Glob) (c : Z) : bool :=
  match g with
  | Star => false
  | Any => true
  | Lit d => c =? d
  | Set_ neg items => xorb neg (existsb (fun r => (r.1 <=? c) && (c <=? r.2)) items)
  end.

Fixpoint glob_match (g : list Glob) : pystr -> bool :=
  match g with
  | [] => fun s => negb (nonempty s)
  | Star :: g' =>
      fix go s := glob_match g' s || match s with [] => false | _ :: s' => go s' end
  | x :: g' => fun s => match s with c :: s' => glob_char x c && glob_match g' s' | [] => false end
  end.

(** [fnmatch(name, pat)] on a POSIX system, where case counts. *)
Definition fnmatch (name pat : pystr) : bool := glob_match (glob_parse (length pat) pat) name.

Example fnmatch_model : fnmatch (u "scheduler.scheduledjob.created") (u "scheduler.*") = true.
Proof. by_compute. Qed.
Example fnmatch_action : fnmatch (u "support.ticket.deleted") (u "*.[cu]*") = false.
Proof. by_compute. Qed.
Example fnmatch_set : (fun c => fnmatch [c] (u "[!a-c-e]")) <$> u "abcde-" = [false; false; false; true; false; false].
Proof. by_compute. Qed.

Lemma fnmatch_star s : fnmatch s (u "*") = true.
Proof.
  change (glob_match [Star] s = true). induction s as [|c s IH]; [done|]. cbn in *. by rewrite IH.
Qed.

(** ** [dict]: keys are distinct, in the order they came *)

Section Dict.
Context {K A : Type} `{EqDecision K}.
Implicit Types d : list (K * A).

Fixpoint dict_get d (k : K) : option A :=
  match d with
  | [] => None
  | (k', v) :: d' => if decide (k' = k) then Some v else dict_get d' k
  end.

Fixpoint dict_set d (k : K) (v : A) : list (K * A) :=
  match d with
  | [] => [(k, v)]
  | (k', v') :: d' => if decide (k' = k) then (k', v) :: d' else (k', v') :: dict_set d' k v
  end.

Definition dict_del d (k : K) : list (K * A) := filter (fun x => x.1 <> k) d.
Definition dict_update d (e : list (K * A)) : list (K * A) := foldl (fun d x => dict_set d x.1 x.2) d e.

Lemma dict_get_set d k v k' : dict_get (dict_set d k v) k' = if decide (k = k') then Some v else dict_get d k'.
Proof. induction d as [|[k0 v0] d IH]; cbn; repeat (case_decide; cbn); subst; try done. Qed.

Lemma dict_get_None d k : dict_get d k = None <-> k ∉ d.*1.
Proof.
  induction d as [|[k0 v0] d IH]; cbn; [by split; [intros _ ?%elem_of_nil|]|].
  rewrite not_elem_of_cons, <- IH. case_decide; naive_solver.
Qed.

Lemma dict_get_elem d k v : NoDup d.*1 -> dict_get d k = Some v <-> (k, v) ∈ d.
Proof.
  induction d as [|[k0 v0] d IH]; cbn; intros Hnd; [by split; [|intros ?%elem_of_nil]|].
  apply NoDup_cons in Hnd as [Hk Hnd]. rewrite elem_of_cons, <- IH by done. case_decide as Hc; [subst|naive_solver].
  split; [intros [= ->]; by left|]. intros [[= ->]|Hin]; [done|].
  apply IH in Hin; [|done]. destruct Hk. by apply (list_elem_of_fmap_2 fst) in Hin.
Qed.

Lemma dict_set_keys d k v : (dict_set d k v).*1 = if decide (k ∈ d.*1) then d.*1 else d.*1 ++ [k].
Proof.
  induction d as [|[k0 v0] d IH]; cbn; [done|].
  destruct (decide (k0 = k)) as [->|Hne]; cbn.
  - rewrite decide_True; [done|by left].
  - rewrite IH. destruct (decide (k ∈ d.*1)) as [Hin|Hin].
    + rewrite decide_True; [done|by right].
    + rewrite decide_False; [done|]. rewrite not_elem_of_cons. by split; [intros ->|].
Qed.

Lemma dict_set_new d k v : k ∉ d.*1 -> dict_set d k v = d ++ [(k, v)].
Proof.
  induction d as [|[k0 v0] d IH]; intros Hk; [done|]. cbn in *. apply not_elem_of_cons in Hk as [Hne Hk].
  rewrite decide_False by congruence. by rewrite IH.
Qed.

Lemma dict_update_new d e : NoDup (d.*1 ++ e.*1) -> dict_update d e = d ++ e.
Proof.
  revert d. induction e as [|[k v] e IH]; intros d Hnd; [by rewrite app_nil_r|].
  unfold dict_update. cbn [foldl]. change (foldl _ ?x e) with (dict_update x e). cbn [fst snd].
  rewrite dict_set_new.
  - rewrite IH; [by rewrite <- app_assoc|]. rewrite fmap_app. cbn. by rewrite <- app_assoc.
  - apply NoDup_app in Hnd as (_ & Hdis & _). intros Hk. apply (Hdis k Hk). apply list_elem_of_here.
Qed.

Lemma dict_set_NoDup d k v : NoDup d.*1 -> NoDup (dict_set d k v).*1.
Proof.
  intros H. rewrite dict_set_keys. destruct (decide _); [done|].
  apply NoDup_app. split_and!; [done|intros x Hx ->%list_elem_of_singleton; done|apply NoDup_singleton].
Qed.

Lemma dict_del_NoDup d k : NoDup d.*1 -> NoDup (dict_del d k).*1.
Proof.
  intros H. eapply sublist_NoDup; [exact H|]. unfold dict_del. apply fmap_sublist, sublist_filter.
Qed.

Lemma dict_get_del d k k' : dict_get (dict_del d k) k' = if decide (k = k') then None else dict_get d k'.
Proof.
  unfold dict_del. induction d as [|[k0 v0] d IH]; cbn [dict_get]; [by case_decide|].
  rewrite filter_cons. cbn. repeat (case_decide; cbn); subst; try done; naive_solver.
Qed.
End Dict.
