(* ===== verification/Stores.v ===== *)
(** * api.py and models.py: the operator's message memories, tags and stations

    Three tables of the same shape, each row with an owner, a name unique to
    that owner, a value and a place in the list; three handlers that list,
    create, change and delete rows. A handler is one request: it returns its
    answer or the way it failed, and the table it leaves. *)
From S2P Require Import Prelude PyFloat PyStr Json Regex Radio PyLib.
Open Scope Z_scope.

(** ** Rows and tables *)

Section Tables.
Context {V : Type}.

(** [rw_pk] is [None] on an instance not saved yet. *)
Record Row := {
  rw_pk : option Z;
  rw_user : Z;
  rw_name : pystr;
  rw_value : V;
  rw_order : Z;
}.
#[export] Instance eta_row : Eta Row := fun r =>
  Build_Row (rw_pk r) (rw_user r) (rw_name r) (rw_value r) (rw_order r).

(** The rows, and the key the next insertion gets. *)
Record Table := { tb_rows : list Row; tb_next : Z }.

Definition empty_table : Table := {| tb_rows := []; tb_next := 1 |}.

(** [user.cw_macros] and its kin, [.filter(user=...)] *)
Definition owned (user : Z) (t : Table) : list Row :=
  List.filter (fun r => rw_user r =? user) (tb_rows t).

(** [filter(user=user, pk=pk).first()] *)
Definition row_of (user pk : Z) (t : Table) : option Row :=
  List.find (fun r => bool_decide (rw_pk r = Some pk)) (owned user t).

(** [filter(user=user, name=name).exclude(pk=pk).exists()]; excluding the
    missing key of an unsaved row excludes nothing. *)
Definition clash (user : Z) (name : pystr) (pk : option Z) (t : Table) : bool :=
  existsb (fun r => str_eqb (rw_name r) name && negb (bool_decide (is_Some pk /\ rw_pk r = pk))) (owned user t).

(** [row.delete()] *)
Definition delete_row (r : Row) (t : Table) : Table :=
  {| tb_rows := List.filter (fun x => negb (bool_decide (rw_pk x = rw_pk r))) (tb_rows t); tb_next := tb_next t |}.

(** [row.save()]: an insertion or an update, refused by the table's
    uniqueness constraint on (user, name), and by the driver when a text does
    not encode ([encodes] of the value), with exceptions no handler catches. *)
Definition save_row (encodes : V -> bool) (r : Row) (t : Table) : result Failure (Row * Table) :=
  if negb (encodable (rw_name r) && encodes (rw_value r)) then Err Uncaught
  else if clash (rw_user r) (rw_name r) (rw_pk r) t then Err Uncaught
  else match rw_pk r with
  | Some _ =>
      Ok (r, {| tb_rows := map (fun x => if bool_decide (rw_pk x = rw_pk r) then r else x) (tb_rows t);
                tb_next := tb_next t |})
  | None =>
      let r := r <| rw_pk := Some (tb_next t) |> in
      Ok (r, {| tb_rows := tb_rows t ++ [r]; tb_next := tb_next t + 1 |})
  end.

(** [ordering = ["order", "name"]] *)
Definition row_before (a b : Row) : bool :=
  (rw_order a <? rw_order b) || ((rw_order a =? rw_order b) && str_ltb (rw_name a) (rw_name b)).
Fixpoint insert_row (x : Row) (l : list Row) : list Row :=
  match l with
  | [] => [x]
  | y :: l' => if row_before y x then y :: insert_row x l' else x :: l
  end.
(** [list(user.cw_macros.all())] *)
Definition listing (user : Z) (t : Table) : list Row := foldr insert_row [] (owned user t).

(** What a POST answers: the row it wrote, or [{"deleted": True}]. *)
Inductive Answer := Wrote (r : Row) | Deleted.

(** The row a POST is about. [pk_of] is the database layer's reading of a key
    off the wire, [None] the exception it raises on a value that is not one. *)
Definition target (pk_of : json -> option Z) (missing : pystr) (unset : V) (user : Z) (d : jobj) (t : Table) :
    result Failure Row :=
  match jget_null (u "id") d with
  | JNull =>
      Ok {| rw_pk := None; rw_user := user; rw_name := []; rw_value := unset;
            rw_order := zlen (owned user t) |}
  | id =>
      match pk_of id with
      | None => Err Uncaught
      | Some pk => match row_of user pk t with Some r => Ok r | None => Err (ApiError missing 404) end
      end
  end.

(** [data.get("id") is not None and data.get("delete")] *)
Definition deleting (d : jobj) : bool :=
  match jget_null (u "id") d with JNull => false | _ => jtruthy (jget_null (u "delete") d) end.

(** The name a POST gives, cleaned and checked against the owner's others. The
    query for those carries the name, so the driver has to encode it. *)
Definition renamed (clean : pystr -> result Failure pystr) (exists_ : pystr -> pystr)
    (repr : json -> pystr) (d : jobj) (t : Table) (r : Row) : result Failure Row :=
  match jget (u "name") d with
  | None => Ok r
  | Some j =>
      name ← clean (jstr repr j);
      if negb (encodable name) then Err Uncaught
      else if clash (rw_user r) name (rw_pk r) t then Err (ApiError (exists_ name) 409)
      else Ok (r <| rw_name := name |>)
  end.

Definition revalued (key : pystr) (clean : json -> result Failure V) (d : jobj) (r : Row) : result Failure Row :=
  match jget key d with
  | None => Ok r
  | Some j => v ← clean j; Ok (r <| rw_value := v |>)
  end.

Definition saved (encodes : V -> bool) (t : Table) (r : result Failure Row) : result Failure Answer * Table :=
  match (r ← r; save_row encodes r t) with
  | Ok (r, t') => (Ok (Wrote r), t')
  | Err e => (Err e, t)
  end.
End Tables.
Arguments Row V : clear implicits.
Arguments Table V : clear implicits.
Arguments Answer V : clear implicits.

(** ** Names *)

(** [^[a-z0-9][a-z0-9-]{0,23}$], matched in full. *)
Definition is_name_head (c : Z) : bool := is_ascii_lower c || is_decimal c.
Definition is_name_char (c : Z) : bool := is_name_head c || (c =? 45).
Definition MACRO_NAME_RE : regex := RSeq (RClass is_name_head) (RRep true is_name_char 0 (Some 23%nat)).
Definition name_ok (name : pystr) : bool := bool_decide (is_Some (fullmatch MACRO_NAME_RE name)).

Definition expected_object : Failure := ApiError (u "Expected a JSON object") 400.

Section Handlers.
(** Python's text of a list, an object or a float, and the database layer's
    reading of a primary key. *)
Context (repr : json -> pystr) (pk_of : json -> option Z).

(** ** Message memories *)

Definition DEFAULT_MACROS : list (pystr * pystr) := [
  (u "cq", u "CQ CQ CQ DE {mycall} {mycall} K");
  (u "qrz", u "QRZ? DE {mycall} K");
  (u "rst", u "{call} DE {mycall} UR RST {rst} {rst} BK");
  (u "73", u "73 TU ES GL {call} DE {mycall} <SK>");
  (u "agn", u "AGN AGN PSE {call} DE {mycall} BK");
  (u "qth", u "QTH IS {qth} {qth} BK")].

(** The six memories of a new operator, numbered from the table's next key. *)
Definition default_rows (user next : Z) : list (Row pystr) :=
  imap (fun i m => {| rw_pk := Some (next + Z.of_nat i); rw_user := user; rw_name := m.1;
                      rw_value := m.2; rw_order := Z.of_nat i |}) DEFAULT_MACROS.

Definition seed_defaults (user : Z) (t : Table pystr) : Table pystr :=
  match owned user t with
  | _ :: _ => t
  | [] => {| tb_rows := tb_rows t ++ default_rows user (tb_next t); tb_next := tb_next t + zlen DEFAULT_MACROS |}
  end.

Definition macros_get (user : Z) (t : Table pystr) : list (Row pystr) * Table pystr :=
  let t := seed_defaults user t in (listing user t, t).

Definition macro_name (s : pystr) : result Failure pystr :=
  let name := lower (lstrip_chars (u "/") (strip s)) in
  if name_ok name then Ok name
  else Err (ApiError (u "Name must be 1-24 chars: letters, digits, dashes") 400).

Definition bounded_text (limit : Z) (message : pystr) (j : json) : result Failure pystr :=
  let text := strip (jstr repr j) in
  if negb (nonempty text) || (limit <? zlen text) then Err (ApiError message 400) else Ok text.

Definition both_given (message : pystr) (r : Row pystr) : result Failure (Row pystr) :=
  if negb (nonempty (rw_name r)) || negb (nonempty (rw_value r)) then Err (ApiError message 400) else Ok r.

Definition macros_post (user : Z) (data : json) (t : Table pystr) : result Failure (Answer pystr) * Table pystr :=
  match data with
  | JObj d =>
      match target pk_of (u "No such macro") [] user d t with
      | Err e => (Err e, t)
      | Ok macro =>
          if deleting d then (Ok Deleted, delete_row macro t)
          else saved encodable t (
            macro ← renamed macro_name (fun name => u "/" ++ name ++ u " already exists") repr d t macro;
            macro ← revalued (u "text") (bounded_text 280 (u "Text must be 1-280 characters")) d macro;
            both_given (u "Both name and text are required") macro)
      end
  | _ => (Err expected_object, t)
  end.

(** ** Tags *)

Definition RESERVED_VARIABLE_NAMES : list pystr := [u "mycall"; u "call"; u "rst"].

Definition braced (name : pystr) : pystr := u "{" ++ name ++ u "}".

Definition var_name (s : pystr) : result Failure pystr :=
  let name := lower (rstrip_chars (u "}") (lstrip_chars (u "{") (strip s))) in
  if negb (name_ok name) then Err (ApiError (u "Tag must be 1-24 chars: letters, digits, dashes") 400)
  else if bool_decide (name ∈ RESERVED_VARIABLE_NAMES)
  then Err (ApiError (braced name ++ u " is filled by the station — pick another name") 400)
  else Ok name.

Definition station_vars_get (user : Z) (t : Table pystr) : list (Row pystr) := listing user t.

Definition station_vars_post (user : Z) (data : json) (t : Table pystr) :
    result Failure (Answer pystr) * Table pystr :=
  match data with
  | JObj d =>
      match target pk_of (u "No such tag") [] user d t with
      | Err e => (Err e, t)
      | Ok var =>
          if deleting d then (Ok Deleted, delete_row var t)
          else saved encodable t (
            var ← renamed var_name (fun name => braced name ++ u " already exists") repr d t var;
            var ← revalued (u "value") (bounded_text 200 (u "Value must be 1-200 characters")) d var;
            both_given (u "Both a tag name and a value are required") var)
      end
  | _ => (Err expected_object, t)
  end.

(** ** Saved stations *)

Definition tunable_ranges : pystr :=
  join (u " or ") ((fun b : RadioBand float =>
    fmt_g (rb_low b) ++ u "–" ++ fmt_g (rb_high b) ++ u " MHz (" ++ rb_label b ++ u ")") <$> RADIO_BANDS).

Definition station_name (s : pystr) : result Failure pystr :=
  let name := strip s in
  if negb (nonempty name) || (32 <? zlen name) then Err (ApiError (u "Name must be 1-32 characters") 400)
  else Ok name.

Definition station_freq (j : json) : result Failure (option float) :=
  freq ← or_error (ApiError (u "Frequency must be a number") 400) (jfloat j);
  match band_for freq with
  | None => Err (ApiError (u "Frequency must be within " ++ tunable_ranges) 400)
  | Some _ => Ok (Some freq)
  end.

Definition station_given (r : Row (option float)) : result Failure (Row (option float)) :=
  if negb (nonempty (rw_name r)) || negb (bool_decide (is_Some (rw_value r)))
  then Err (ApiError (u "Both name and freq_mhz are required") 400) else Ok r.

Definition radio_stations_get (user : Z) (t : Table (option float)) : list (Row (option float)) := listing user t.

Definition radio_stations_post (user : Z) (data : json) (t : Table (option float)) :
    result Failure (Answer (option float)) * Table (option float) :=
  match data with
  | JObj d =>
      match target pk_of (u "No such station") None user d t with
      | Err e => (Err e, t)
      | Ok station =>
          if deleting d then (Ok Deleted, delete_row station t)
          else saved (fun _ => true) t (
            station ← renamed station_name (fun name => name ++ u " already exists") repr d t station;
            station ← revalued (u "freq_mhz") station_freq d station;
            station_given station)
      end
  | _ => (Err expected_object, t)
  end.
End Handlers.
