(* ===== verification/StoresFacts.v ===== *)
(** * The operator's stores: typed rows, unique names, no one else's rows touched *)
From S2P Require Import Prelude PyFloat PyStr Json Regex Radio PyLib Stores.
From stdpp Require Import sorting.
Open Scope Z_scope.

Section TableFacts.
Context {V : Type} (valid_name : pystr -> Prop) (valid : V -> Prop).
Implicit Types (t : Table V) (r : Row V).

Record table_ok t : Prop := {
  ok_pk : Forall (fun r => exists k, rw_pk r = Some k /\ k < tb_next t) (tb_rows t);
  ok_pks : NoDup (rw_pk <$> tb_rows t);
  ok_names : NoDup ((fun r => (rw_user r, rw_name r)) <$> tb_rows t);
  ok_rows : Forall (fun r => valid_name (rw_name r) /\ valid (rw_value r)) (tb_rows t);
}.

Lemma empty_ok : table_ok empty_table.
Proof. split; cbn; constructor. Qed.

Lemma elem_filter (p : Row V -> bool) r l : r ∈ List.filter p l <-> r ∈ l /\ p r = true.
Proof. rewrite !list_elem_of_In. apply filter_In. Qed.

Lemma NoDup_fmap_filter {B} (f : Row V -> B) p l : NoDup (f <$> l) -> NoDup (f <$> List.filter p l).
Proof.
  intros H. eapply sublist_NoDup; [exact H|]. clear H.
  induction l as [|x l IH]; cbn; [done|]. destruct (p x); by constructor.
Qed.

Lemma owned_in user r t : r ∈ owned user t <-> r ∈ tb_rows t /\ rw_user r = user.
Proof. unfold owned. rewrite elem_filter, Z.eqb_eq. done. Qed.

Lemma row_of_in user pk r t :
  row_of user pk t = Some r -> r ∈ tb_rows t /\ rw_user r = user /\ rw_pk r = Some pk.
Proof.
  unfold row_of. intros H. apply find_some in H as [Hin Hpk].
  apply list_elem_of_In, owned_in in Hin as [? ?]. by apply bool_decide_eq_true in Hpk.
Qed.

Lemma clash_false user name pk t :
  clash user name pk t = false <->
  forall x, x ∈ tb_rows t -> rw_user x = user -> rw_name x = name -> is_Some pk /\ rw_pk x = pk.
Proof.
  unfold clash. rewrite <- not_true_iff_false, existsb_exists. split.
  - intros H x Hin Hu Hn. destruct (decide (is_Some pk /\ rw_pk x = pk)) as [|Hpk]; [done|].
    exfalso. apply H. exists x. rewrite <- list_elem_of_In, owned_in. split; [done|].
    unfold str_eqb. rewrite bool_decide_eq_true_2, bool_decide_eq_false_2 by done. done.
  - intros H (x & Hin & Hx). apply list_elem_of_In, owned_in in Hin as [Hin Hu]. bool_to_prop.
    unfold str_eqb in *. bool_to_prop. naive_solver.
Qed.

(** Two rows of a good table with the same key, or the same owner and name,
    are one row. *)
Lemma NoDup_fmap_inj {A B} (f : A -> B) (l : list A) x y : NoDup (f <$> l) -> x ∈ l -> y ∈ l -> f x = f y -> x = y.
Proof.
  intros Hn Hx Hy Hf. apply list_elem_of_lookup in Hx as [i Hi], Hy as [j Hj].
  assert (i = j) as ->; [|congruence].
  eapply NoDup_lookup; [exact Hn| |]; rewrite list_lookup_fmap; [by rewrite Hi|]. rewrite Hj. cbn. congruence.
Qed.

Lemma row_no_clash r t : table_ok t -> r ∈ tb_rows t -> clash (rw_user r) (rw_name r) (rw_pk r) t = false.
Proof.
  intros Ht Hr. apply clash_false. intros x Hx Hu Hn.
  assert (x = r) as ->; [|split; [|done]].
  - eapply NoDup_fmap_inj; [apply ok_names, Ht|done..|]. cbn. congruence.
  - pose proof (ok_pk t Ht) as H. rewrite Forall_forall in H. destruct (H r Hr) as (k & -> & _). by eexists.
Qed.

Lemma delete_row_ok r t : table_ok t -> table_ok (delete_row r t).
Proof.
  intros [H1 H2 H3 H4]. unfold delete_row. split; cbn.
  - rewrite Forall_forall in H1 |- *. intros x [Hx _]%elem_filter. auto.
  - by apply NoDup_fmap_filter.
  - by apply NoDup_fmap_filter.
  - rewrite Forall_forall in H4 |- *. intros x [Hx _]%elem_filter. auto.
Qed.

(** The row a handler edits: its own, unsaved, or one of the table's. *)
Definition editable r t : Prop :=
  rw_pk r = None \/ exists r0, r0 ∈ tb_rows t /\ rw_pk r0 = rw_pk r /\ rw_user r0 = rw_user r.

Definition replaced r (l : list (Row V)) : list (Row V) :=
  map (fun x => if bool_decide (rw_pk x = rw_pk r) then r else x) l.

Lemma replaced_in x r l : x ∈ replaced r l -> x = r \/ (x ∈ l /\ rw_pk x <> rw_pk r).
Proof.
  intros Hx. apply list_elem_of_In, in_map_iff in Hx as (y & Hy & Hin). apply list_elem_of_In in Hin.
  case_bool_decide; subst; auto.
Qed.

Lemma replaced_pks r l : rw_pk <$> replaced r l = rw_pk <$> l.
Proof.
  induction l as [|x l IH]; [done|]. cbn [replaced map]. rewrite !fmap_cons. unfold replaced in IH.
  rewrite IH. f_equal. by case_bool_decide.
Qed.

Lemma replaced_names r t :
  table_ok t -> clash (rw_user r) (rw_name r) (rw_pk r) t = false ->
  NoDup ((fun r => (rw_user r, rw_name r)) <$> replaced r (tb_rows t)).
Proof.
  intros Ht Hc. pose proof (proj1 (clash_false _ _ _ _) Hc) as Hfree. destruct Ht as [_ Hpks Hnames _].
  apply NoDup_alt. intros i j k Hi Hj. unfold replaced in *.
  rewrite list_lookup_fmap in Hi, Hj. change (map ?f ?l) with (f <$> l) in *.
  rewrite list_lookup_fmap in Hi, Hj.
  destruct (tb_rows t !! i) as [x|] eqn:Ei; [|done]. destruct (tb_rows t !! j) as [y|] eqn:Ej; [|done].
  cbn in Hi, Hj. assert (x ∈ tb_rows t /\ y ∈ tb_rows t) as [Hx Hy] by (split; by eapply list_elem_of_lookup_2).
  assert (forall a b z, tb_rows t !! a = Some z -> forall w, tb_rows t !! b = Some w -> rw_pk z = rw_pk w -> a = b) as Hpk.
  { intros a b z Ha w Hb Hzw. eapply NoDup_lookup; [exact Hpks| |]; rewrite list_lookup_fmap; [by rewrite Ha|].
    rewrite Hb. cbn. congruence. }
  case_bool_decide as Bx; case_bool_decide as By; simplify_eq.
  - eapply Hpk; eauto. congruence.
  - exfalso. naive_solver.
  - exfalso. naive_solver.
  - eapply NoDup_lookup; [exact Hnames| |]; rewrite list_lookup_fmap; [by rewrite Ei|]. rewrite Ej. cbn. congruence.
Qed.

Lemma replaced_owned r r0 t v :
  NoDup (rw_pk <$> tb_rows t) -> r0 ∈ tb_rows t -> rw_pk r0 = rw_pk r -> rw_user r0 = rw_user r -> v <> rw_user r ->
  owned v {| tb_rows := replaced r (tb_rows t); tb_next := tb_next t |} = owned v t.
Proof.
  intros H2 Hr0 Hk0 Hu0 Hv'. unfold owned, replaced. cbn.
  assert (forall x, x ∈ tb_rows t -> rw_pk x = rw_pk r -> rw_user x = rw_user r) as Hown.
  { intros x Hx Hxk. assert (x = r0) as ->; [|done].
    eapply NoDup_fmap_inj; [exact H2|done..|congruence]. }
  clear Hr0 H2. revert Hown. generalize (tb_rows t) as l.
  induction l as [|x l IH]; intros Hown; [done|]. cbn [map List.filter].
  rewrite (IH (fun y Hy => Hown y (list_elem_of_further _ _ _ Hy))).
  case_bool_decide as Hx; [|done].
  assert (rw_user x = rw_user r) as Hxu by (apply Hown; [left|done]).
  rewrite (proj2 (Z.eqb_neq (rw_user r) v)), (proj2 (Z.eqb_neq (rw_user x) v)) by congruence. done.
Qed.

Lemma save_row_spec encodes r t :
  encodable (rw_name r) = true -> encodes (rw_value r) = true -> table_ok t -> editable r t -> valid_name (rw_name r) -> valid (rw_value r) ->
  clash (rw_user r) (rw_name r) (rw_pk r) t = false ->
  exists r' t', save_row encodes r t = Ok (r', t') /\ table_ok t' /\ r' ∈ tb_rows t'
    /\ rw_user r' = rw_user r /\ rw_name r' = rw_name r /\ rw_value r' = rw_value r
    /\ forall v, v <> rw_user r -> owned v t' = owned v t.
Proof.
  intros En Ev Ht He Hn Hv Hc. unfold save_row. rewrite En, Ev, Hc. cbn [andb negb].
  pose proof (proj1 (clash_false _ _ _ _) Hc) as Hfree. pose proof Ht as [H1 H2 H3 H4].
  destruct (rw_pk r) as [pk|] eqn:Hpk.
  - destruct He as [|(r0 & Hr0 & Hk0 & Hu0)]; [congruence|].
    rewrite <- Hpk in *. do 2 eexists. split; [reflexivity|].
    change (map _ (tb_rows t)) with (replaced r (tb_rows t)).
    split; [split; cbn|cbn; split_and!; try done].
    + rewrite Forall_forall in H1 |- *. intros x [->|[Hx _]]%replaced_in; [|auto].
      destruct (H1 r0 Hr0) as (k & ? & ?). exists k. split; [congruence|done].
    + by rewrite replaced_pks.
    + by apply replaced_names.
    + rewrite Forall_forall in H4 |- *. intros x [->|[Hx _]]%replaced_in; auto.
    + apply list_elem_of_In, in_map_iff. exists r0. rewrite <- list_elem_of_In.
      by rewrite bool_decide_eq_true_2.
    + intros v Hv'. by apply (replaced_owned r r0).
  - do 2 eexists. split; [reflexivity|].
    assert (Forall (fun x => rw_pk x <> Some (tb_next t)) (tb_rows t)) as Hnew.
    { eapply Forall_impl; [exact H1|]. cbn. intros x (k & -> & ?) [= ->]. lia. }
    split; [split; cbn|cbn; split_and!; try done].
    + apply Forall_app. split.
      * eapply Forall_impl; [exact H1|]. cbn. intros x (k & ? & ?). exists k. split; [done|lia].
      * constructor; [|done]. exists (tb_next t). split; [done|lia].
    + rewrite fmap_app. apply NoDup_app. split_and!; [done| |apply NoDup_singleton].
      intros k Hk ->%list_elem_of_singleton. apply list_elem_of_fmap in Hk as (x & Hx & Hin).
      rewrite Forall_forall in Hnew. by apply (Hnew x Hin).
    + rewrite fmap_app. apply NoDup_app. split_and!; [done| |apply NoDup_singleton].
      intros k Hk ->%list_elem_of_singleton. apply list_elem_of_fmap in Hk as (x & Hx & Hin).
      cbn in Hx. injection Hx as Hu Hxn. by destruct (Hfree x Hin (eq_sym Hu) (eq_sym Hxn)) as [[] _].
    + apply Forall_app. split; [done|]. by constructor.
    + apply elem_of_app. right. by left.
    + intros v Hv'. unfold owned. cbn. rewrite List.filter_app. cbn [List.filter].
      cbn. rewrite (proj2 (Z.eqb_neq (rw_user r) v)) by congruence. apply app_nil_r.
Qed.
End TableFacts.

(** ** One handler for the three tables *)

Section Post.
Context {V : Type} (valid_name : pystr -> Prop) (valid : V -> Prop).
Context (repr : json -> pystr) (pk_of : json -> option Z) (missing : pystr) (unset : V).
Context (clean_name : pystr -> result Failure pystr) (taken : pystr -> pystr).
Context (key : pystr) (clean_value : json -> result Failure V) (check : Row V -> result Failure (Row V)).
Context (encodes : V -> bool).
Context (name_valid : forall s n, clean_name s = Ok n -> encodable n = true -> valid_name n).
Context (name_encodes : forall n, valid_name n -> encodable n = true).
Context (name_caught : forall s, clean_name s <> Err Uncaught).
Context (value_valid : forall j v, clean_value j = Ok v -> encodes v = true -> valid v).
Context (value_encodes : forall v, valid v -> encodes v = true).
Context (check_valid : forall r r', check r = Ok r' -> r' = r /\ rw_name r <> [] /\ rw_value r <> unset).
Context (check_caught : forall r, check r <> Err Uncaught).

Definition edit (d : jobj) (t : Table V) (r : Row V) : result Failure (Row V) :=
  r ← renamed clean_name taken repr d t r; r ← revalued key clean_value d r; check r.

Definition post (user : Z) (data : json) (t : Table V) : result Failure (Answer V) * Table V :=
  match data with
  | JObj d =>
      match target pk_of missing unset user d t with
      | Err e => (Err e, t)
      | Ok r => if deleting d then (Ok Deleted, delete_row r t) else saved encodes t (edit d t r)
      end
  | _ => (Err expected_object, t)
  end.

(** A request that fails on something no handler catches: a key the database
    layer cannot read, a value whose conversion overflows, and a name or a
    value the driver cannot encode. *)
Definition unstorable (d : jobj) : Prop :=
  (exists j n, jget (u "name") d = Some j /\ clean_name (jstr repr j) = Ok n /\ encodable n = false)
  \/ (exists j, jget key d = Some j /\ (clean_value j = Err Uncaught \/ exists v, clean_value j = Ok v /\ encodes v = false)).
Definition unreadable (data : json) : Prop :=
  exists d, data = JObj d /\
    ((jget_null (u "id") d <> JNull /\ pk_of (jget_null (u "id") d) = None) \/ unstorable d).

Local Notation ok := (table_ok valid_name valid).

Lemma target_spec user d t r :
  target pk_of missing unset user d t = Ok r ->
  rw_user r = user /\ ((rw_pk r = None /\ rw_name r = [] /\ rw_value r = unset) \/ r ∈ tb_rows t).
Proof.
  unfold target. destruct (jget_null (u "id") d); [by intros [= <-]; auto|..];
    (case_match; [|done]; case_match; [|done]; intros [= <-];
     match goal with H : row_of _ _ _ = _ |- _ => apply row_of_in in H as (? & ? & ?) end; auto).
Qed.

Lemma edit_spec user d t r0 r :
  ok t -> target pk_of missing unset user d t = Ok r0 -> edit d t r0 = Ok r ->
  rw_user r = user /\ editable r t /\ valid_name (rw_name r)
  /\ clash (rw_user r) (rw_name r) (rw_pk r) t = false
  /\ (valid (rw_value r) \/ encodes (rw_value r) = false /\ unstorable d).
Proof.
  intros Ht H0 E. apply target_spec in H0 as [Hu H0]. unfold edit, renamed, revalued in E.
  assert (forall x, rw_pk x = rw_pk r0 -> rw_user x = user -> editable x t) as Hedit.
  { intros x Hxk Hxu. destruct H0 as [(Hk & _)|Hin]; [left; congruence|right]. exists r0. split_and!; congruence. }
  assert (forall j v, jget key d = Some j -> clean_value j = Ok v -> valid v \/ encodes v = false /\ unstorable d) as Hval.
  { intros j v Hj Hv. destruct (encodes v) eqn:Ev; [left; eauto|right]. split; [done|]. right. exists j. eauto. }
  destruct (jget (u "name") d) as [jn|] eqn:En; cbn in E.
  - destruct (clean_name _) as [n|] eqn:Hn; [|done]. cbn in E. destruct (encodable n) eqn:Hne; [|done]. cbn in E.
    destruct (clash (rw_user r0) n (rw_pk r0) t) eqn:Hc; [done|]. cbn in E.
    destruct (jget key d) as [jv|] eqn:Ej; cbn in E.
    + destruct (clean_value jv) as [v|] eqn:Hv; [|done]. cbn in E.
      apply check_valid in E as (-> & _ & _). cbn. split_and!; eauto.
    + apply check_valid in E as (-> & _ & Hset). cbn in *. split_and!; eauto. left.
      destruct H0 as [(_ & _ & ?)|Hin]; [done|]. pose proof (ok_rows _ _ _ Ht) as Hall.
      rewrite Forall_forall in Hall. by apply Hall.
  - destruct (jget key d) as [jv|] eqn:Ej; cbn in E.
    + destruct (clean_value jv) as [v|] eqn:Hv; [|done]. cbn in E.
      apply check_valid in E as (-> & Hname & _). cbn in *.
      destruct H0 as [(_ & ? & _)|Hin]; [done|]. pose proof (ok_rows _ _ _ Ht) as Hall.
      rewrite Forall_forall in Hall. split_and!; eauto; [by apply Hall|]. by eapply row_no_clash.
    + apply check_valid in E as (-> & Hname & _).
      destruct H0 as [(_ & ? & _)|Hin]; [done|]. pose proof (ok_rows _ _ _ Ht) as Hall.
      rewrite Forall_forall in Hall. split_and!; eauto; [by apply Hall|by eapply row_no_clash|]. left. by apply Hall.
Qed.

Lemma edit_caught d t r : edit d t r = Err Uncaught -> unstorable d.
Proof.
  unfold edit, renamed, revalued, unstorable. intros E.
  assert (forall x, (match jget key d with None => Ok x | Some j => v ← clean_value j; Ok (x <| rw_value := v |>) end ≫= check)
    = Err Uncaught -> exists j, jget key d = Some j /\ clean_value j = Err Uncaught) as Hval.
  { intros x Ex. destruct (jget key d) as [jv|]; cbn in Ex; [|by apply check_caught in Ex].
    destruct (clean_value jv) eqn:Hv; cbn in Ex; [by apply check_caught in Ex|]. eexists. split; [done|congruence]. }
  destruct (jget (u "name") d) as [jn|]; cbn in E.
  - destruct (clean_name _) as [n|e] eqn:Hn; [|injection E as ->; by apply name_caught in Hn]. cbn in E.
    destruct (encodable n) eqn:Hne; [|left; eauto]. cbn in E.
    destruct (clash _ _ _ _); [done|]. apply Hval in E as (j & ? & ?). right. eauto.
  - apply Hval in E as (j & ? & ?). right. eauto.
Qed.

(** A request keeps the table typed, leaves everyone else's rows as they are,
    changes nothing when it is refused, and a row it says it wrote is there. *)
Lemma post_spec user data t res t' :
  ok t -> post user data t = (res, t') ->
  ok t' /\ (forall v, v <> user -> owned v t' = owned v t)
  /\ (forall e, res = Err e -> t' = t)
  /\ (res = Err Uncaught -> unreadable data)
  /\ (forall r, res = Ok (Wrote r) -> r ∈ owned user t').
Proof.
  intros Ht. unfold post. destruct data as [| | | | | |d]; try by intros [= <- <-].
  destruct (target pk_of missing unset user d t) as [r0|e] eqn:H0.
  2: { intros [= <- <-]. split_and!; try done. intros [= ->]. exists d. split; [done|left].
       unfold target in H0. destruct (jget_null (u "id") d); [done|..];
         (split; [done|]; case_match; [by case_match|done]). }
  pose proof (target_spec _ _ _ _ H0) as [Hu Hr0]. destruct (deleting d) eqn:Hd.
  - intros [= <- <-]. split_and!; try done; [by apply delete_row_ok|]. intros v Hv.
    destruct Hr0 as [(Hk & _)|Hin].
    + exfalso. unfold deleting in Hd. unfold target in H0. destruct (jget_null (u "id") d); [done|..];
        (case_match; [|done]; case_match; [|done]; simplify_eq;
         match goal with H : row_of _ _ _ = _ |- _ => apply row_of_in in H as (? & ? & ?) end; congruence).
    + unfold owned, delete_row. cbn. pose proof (ok_pks _ _ _ Ht) as Hpks.
      assert (forall x, x ∈ tb_rows t -> rw_pk x = rw_pk r0 -> rw_user x = user) as Hown.
      { intros x Hx Hxk. assert (x = r0) as ->; [|done]. by eapply NoDup_fmap_inj. }
      clear -Hown Hv. revert Hown. generalize (tb_rows t) as l.
      induction l as [|x l IH]; intros Hown; [done|]. cbn [List.filter].
      pose proof (IH (fun y Hy => Hown y (list_elem_of_further _ _ _ Hy))) as IH'.
      case_bool_decide as Hx; cbn [negb].
      * rewrite IH'. rewrite (Hown x (list_elem_of_here _ _) Hx), (proj2 (Z.eqb_neq user v)) by congruence. done.
      * cbn [List.filter]. by rewrite IH'.
  - unfold saved. destruct (edit d t r0) as [r|e] eqn:He; cbn.
    + destruct (edit_spec _ _ _ _ _ Ht H0 He) as (Hru & Hed & Hn & Hc & [Hv|[Hv Hun]]).
      2: { unfold save_row. rewrite Hv, andb_false_r. intros [= <- <-]. split_and!; try done. intros _. exists d. auto. }
      destruct (save_row_spec valid_name valid encodes r t (name_encodes _ Hn) (value_encodes _ Hv) Ht Hed Hn Hv Hc) as (r' & t1 & -> & Hok & Hin & Hu' & _ & _ & Hoth).
      intros [= <- <-]. rewrite Hru in *. split_and!; try done. intros x [= <-]. by apply owned_in.
    + intros [= <- <-]. split_and!; try done. intros [= ->]. exists d. split; [done|right]. by eapply edit_caught.
Qed.
End Post.

(** ** What the three tables hold *)

(** Literals stay folded in the case analyses below. *)
#[local] Opaque u band_for tunable_ranges.

Definition slug (s : pystr) : Prop :=
  exists c w, s = c :: w /\ is_name_head c = true /\ Forall (fun c => is_name_char c = true) w /\ (length w <= 23)%nat.
Definition text_within (limit : Z) (s : pystr) : Prop := 1 <= zlen s <= limit.
(** What the driver takes too. *)
Definition storable (limit : Z) (s : pystr) : Prop := text_within limit s /\ encodable s = true.
Definition tunable (f : option float) : Prop := exists x, f = Some x /\ band_for x <> None.

Abbreviation macros_ok := (table_ok slug (storable 280)).
Abbreviation vars_ok := (table_ok (fun n => slug n /\ n ∉ RESERVED_VARIABLE_NAMES) (storable 200)).
Abbreviation stations_ok := (table_ok (storable 32) tunable).

Lemma name_ok_slug s : name_ok s = true -> slug s.
Proof.
  unfold name_ok. intros H. apply bool_decide_eq_true in H as [m Hm].
  apply fullmatch_sound in Hm as [prev Hr].
  inversion Hr as [| | |? ? ? ? ? ? ? ? ? ? ? H1 H2| | | |]; subst.
  inversion H1 as [|? ? c ? ? Hc| | | | | |]; subst.
  inversion H2 as [| |? ? ? ? ? w ? ? Hw _ Hhi| | | | |]; subst.
  exists c, w. rewrite app_nil_r. split_and!; try done. by apply Hhi.
Qed.

Lemma slug_encodable s : slug s -> encodable s = true.
Proof.
  assert (forall c, is_name_char c = true -> c < 128) as Hc.
  { intros c. unfold is_name_char, is_name_head, is_ascii_lower, is_decimal. rewrite !orb_true_iff, !andb_true_iff. lia. }
  intros (c & w & -> & Hh & Hw & _). apply ascii_encodable. constructor.
  - apply Hc. unfold is_name_char. by rewrite Hh.
  - eapply Forall_impl; [exact Hw|]. exact Hc.
Qed.

Lemma macro_name_slug s n : macro_name s = Ok n -> slug n.
Proof. unfold macro_name. case_match eqn:H; [|done]. intros [= <-]. by apply name_ok_slug. Qed.

Lemma var_name_slug s n : var_name s = Ok n -> slug n /\ n ∉ RESERVED_VARIABLE_NAMES.
Proof.
  unfold var_name. case_match eqn:H; [done|]. case_bool_decide as Hr; [done|]. intros [= <-].
  bool_to_prop. split; [by apply name_ok_slug|done].
Qed.

Lemma nonempty_within (limit : Z) s : negb (nonempty s) || (limit <? zlen s) = false -> text_within limit s.
Proof.
  intros H. bool_to_prop. unfold text_within. split; [|done]. destruct s; [done|]. rewrite zlen_cons.
  pose proof (zlen_nonneg s). lia.
Qed.

Lemma bounded_text_within repr limit message j s : bounded_text repr limit message j = Ok s -> text_within limit s.
Proof. unfold bounded_text. case_match eqn:H; [done|]. intros [= <-]. by apply nonempty_within. Qed.

Lemma station_name_within s n : station_name s = Ok n -> text_within 32 n.
Proof. unfold station_name. case_match eqn:H; [done|]. intros [= <-]. by apply nonempty_within. Qed.

Lemma station_freq_tunable j f : station_freq j = Ok f -> tunable f.
Proof.
  unfold station_freq. destruct (or_error _ (jfloat j)) as [x|]; cbn; [|done].
  destruct (band_for x) eqn:Hb; [|done]. intros [= <-]. exists x. by rewrite Hb.
Qed.

Lemma both_given_set message r r' : both_given message r = Ok r' -> r' = r /\ rw_name r <> [] /\ rw_value r <> [].
Proof.
  unfold both_given. case_match eqn:H; [done|]. intros [= <-]. bool_to_prop. by rewrite !nonempty_true in *.
Qed.

Lemma station_given_set r r' : station_given r = Ok r' -> r' = r /\ rw_name r <> [] /\ rw_value r <> None.
Proof.
  unfold station_given. case_match eqn:H; [done|]. intros [= <-]. bool_to_prop. rewrite nonempty_true in *.
  split_and!; try done. by intros Hv; match goal with H : is_Some _ |- _ => rewrite Hv in H; destruct H end.
Qed.

Section Requests.
Context (repr : json -> pystr) (pk_of : json -> option Z).

(** A value that does not encode was already so in the request. *)
Lemma bounded_text_encodes limit message j s :
  bounded_text repr limit message j = Ok s -> encodable s = false -> encodable (jstr repr j) = false.
Proof.
  unfold bounded_text. case_match; [done|]. intros [= <-] E. destruct (encodable (jstr repr j)) eqn:F; [|done].
  by rewrite encodable_strip in E.
Qed.

(** A field of the request that is text the driver does not encode. *)
Definition unencodable (key : pystr) (d : jobj) : Prop :=
  exists j, jget key d = Some j /\ encodable (jstr repr j) = false.

(** What all three handlers do with a good table. *)
Definition kept {V} (ok : Table V -> Prop) (uncaught : jobj -> Prop) (user : Z) (data : json) (t : Table V)
    (res : result Failure (Answer V)) (t' : Table V) : Prop :=
  ok t' /\ (forall v, v <> user -> owned v t' = owned v t) /\ (forall e, res = Err e -> t' = t)
  /\ (res = Err Uncaught -> exists d, data = JObj d /\
        ((jget_null (u "id") d <> JNull /\ pk_of (jget_null (u "id") d) = None) \/ uncaught d))
  /\ (forall r, res = Ok (Wrote r) -> r ∈ owned user t').

Lemma kept_if {V} (ok : Table V -> Prop) (P Q : jobj -> Prop) user data t res t' :
  (forall d, P d -> Q d) -> kept ok P user data t res t' -> kept ok Q user data t res t'.
Proof.
  intros PQ (H1 & H2 & H3 & H4 & H5). unfold kept. split_and!; try done. intros E.
  destruct (H4 E) as (d & -> & [H|H]); exists d; auto.
Qed.

Lemma macros_post_spec user data t res t' :
  macros_ok t -> macros_post repr pk_of user data t = (res, t') ->
  kept macros_ok (unencodable (u "text")) user data t res t'.
Proof.
  intros Ht E. eapply kept_if; [|refine (post_spec slug (storable 280) repr pk_of (u "No such macro") [] macro_name
    (fun name => u "/" ++ name ++ u " already exists") (u "text")
    (bounded_text repr 280 (u "Text must be 1-280 characters")) (both_given (u "Both name and text are required"))
    encodable _ slug_encodable _ _ (fun v H => proj2 H) (both_given_set _) _ user data t res t' Ht E)].
  - intros d [(j & n & _ & Hn & He)|(j & Hj & [Hv|(v & Hv & He)])].
    + by rewrite (slug_encodable n (macro_name_slug _ _ Hn)) in He.
    + unfold bounded_text in Hv. by case_match.
    + exists j. split; [done|]. by eapply bounded_text_encodes.
  - intros s n H _. by eapply macro_name_slug.
  - intros s. unfold macro_name. by case_match.
  - intros j v H He. split; [by eapply bounded_text_within|done].
  - intros r. unfold both_given. by case_match.
Qed.

Lemma vars_post_spec user data t res t' :
  vars_ok t -> station_vars_post repr pk_of user data t = (res, t') ->
  kept vars_ok (unencodable (u "value")) user data t res t'.
Proof.
  intros Ht E. eapply kept_if; [|refine (post_spec (fun n => slug n /\ n ∉ RESERVED_VARIABLE_NAMES) (storable 200) repr pk_of
    (u "No such tag") [] var_name (fun name => braced name ++ u " already exists") (u "value")
    (bounded_text repr 200 (u "Value must be 1-200 characters")) (both_given (u "Both a tag name and a value are required"))
    encodable _ (fun n H => slug_encodable n (proj1 H)) _ _ (fun v H => proj2 H) (both_given_set _) _ user data t res t' Ht E)].
  - intros d [(j & n & _ & Hn & He)|(j & Hj & [Hv|(v & Hv & He)])].
    + by rewrite (slug_encodable n (proj1 (var_name_slug _ _ Hn))) in He.
    + unfold bounded_text in Hv. by case_match.
    + exists j. split; [done|]. by eapply bounded_text_encodes.
  - intros s n H _. by eapply var_name_slug.
  - intros s. unfold var_name. by repeat case_match.
  - intros j v H He. split; [by eapply bounded_text_within|done].
  - intros r. unfold both_given. by case_match.
Qed.

Lemma stations_post_spec user data t res t' :
  stations_ok t -> radio_stations_post repr pk_of user data t = (res, t') ->
  kept stations_ok (fun d => unencodable (u "name") d
    \/ exists j, jget (u "freq_mhz") d = Some j /\ jfloat j = Err OverflowError) user data t res t'.
Proof.
  intros Ht E. eapply kept_if; [|refine (post_spec (storable 32) tunable repr pk_of (u "No such station") None
    station_name (fun name => name ++ u " already exists") (u "freq_mhz") station_freq station_given
    (fun _ => true) _ (fun n H => proj2 H) _ _ (fun _ _ => eq_refl) station_given_set _ user data t res t' Ht E)].
  - intros d [(j & n & Hj & Hn & He)|(j & Hj & [Hv|(v & _ & He)])]; [left|right|done].
    + exists j. split; [done|]. destruct (encodable (jstr repr j)) eqn:F; [|done].
      unfold station_name in Hn. case_match; [done|]. injection Hn as <-. by rewrite encodable_strip in He.
    + exists j. split; [done|]. unfold station_freq in Hv. destruct (jfloat j) as [x|[]]; cbn in Hv; try done.
      by case_match.
  - intros s n H He. split; [by eapply station_name_within|done].
  - intros s. unfold station_name. by case_match.
  - intros j v H _. by eapply station_freq_tunable.
  - intros r. unfold station_given. by case_match.
Qed.
End Requests.

(** ** The defaults *)

Lemma default_rows_lookup user next i r :
  default_rows user next !! i = Some r ->
  rw_pk r = Some (next + Z.of_nat i) /\ rw_user r = user
  /\ DEFAULT_MACROS !! i = Some (rw_name r, rw_value r) /\ rw_order r = Z.of_nat i.
Proof.
  unfold default_rows. rewrite list_lookup_imap. destruct (DEFAULT_MACROS !! i) as [[n v]|]; cbn; [|done].
  by intros [= <-].
Qed.

Lemma default_rows_in user next r :
  r ∈ default_rows user next ->
  exists i, (i < 6)%nat /\ rw_pk r = Some (next + Z.of_nat i) /\ rw_user r = user /\ (rw_name r, rw_value r) ∈ DEFAULT_MACROS.
Proof.
  intros [i Hi]%list_elem_of_lookup. exists i.
  apply default_rows_lookup in Hi as (H1 & H2 & H3 & _). split_and!; try done.
  - apply lookup_lt_Some in H3. exact H3.
  - by eapply list_elem_of_lookup_2.
Qed.

Definition default_ok (m : pystr * pystr) : bool :=
  name_ok m.1 && (1 <=? zlen m.2) && (zlen m.2 <=? 280) && encodable m.2.

Lemma defaults_ok : Forall (fun m => default_ok m = true) DEFAULT_MACROS.
Proof. by_compute. Qed.

Lemma default_names : NoDup DEFAULT_MACROS.*1.
Proof. by_compute. Qed.

Lemma seed_defaults_ok user (t : Table pystr) : macros_ok t -> macros_ok (seed_defaults user t).
Proof.
  intros Ht. unfold seed_defaults. destruct (owned user t) as [|] eqn:Ho; [|done].
  assert (forall x, x ∈ tb_rows t -> rw_user x <> user) as Hnone.
  { intros x Hx Hu. assert (x ∈ owned user t) as Hin by by apply owned_in. rewrite Ho in Hin. by apply not_elem_of_nil in Hin. }
  pose proof Ht as [H1 H2 H3 H4]. rewrite Forall_forall in H1, H4.
  split; cbn [tb_rows tb_next].
  - apply Forall_app. split; rewrite Forall_forall.
    + intros x Hx. destruct (H1 x Hx) as (k & ? & ?). exists k. split; [done|].
      change (zlen DEFAULT_MACROS) with 6. lia.
    + intros x (i & Hi & Hk & _)%default_rows_in. eexists. split; [exact Hk|].
      change (zlen DEFAULT_MACROS) with 6. lia.
  - rewrite fmap_app. apply NoDup_app. split_and!; [done|..].
    + intros k (x & -> & Hx)%list_elem_of_fmap (y & Hxy & Hy)%list_elem_of_fmap.
      destruct (H1 x Hx) as (k & Hk & Hlt). destruct (default_rows_in _ _ _ Hy) as (i & _ & Hi & _).
      rewrite Hk, Hi in Hxy. injection Hxy as ->. lia.
    + apply NoDup_alt. intros i j k. rewrite !list_lookup_fmap.
      destruct (default_rows _ _ !! i) as [x|] eqn:Ei; [|done].
      destruct (default_rows _ _ !! j) as [y|] eqn:Ej; [|done]. cbn.
      apply default_rows_lookup in Ei as (-> & _), Ej as (-> & _). intros [= <-] [= ?]. lia.
  - rewrite fmap_app. apply NoDup_app. split_and!; [done|..].
    + intros k (x & -> & Hx)%list_elem_of_fmap (y & Hxy & Hy)%list_elem_of_fmap.
      destruct (default_rows_in _ _ _ Hy) as (_ & _ & _ & Hyu & _). injection Hxy as Hxu _.
      apply (Hnone x Hx). congruence.
    + apply NoDup_alt. intros i j k. rewrite !list_lookup_fmap.
      destruct (default_rows _ _ !! i) as [x|] eqn:Ei; [|done].
      destruct (default_rows _ _ !! j) as [y|] eqn:Ej; [|done]. cbn.
      apply default_rows_lookup in Ei as (_ & _ & Ei & _), Ej as (_ & _ & Ej & _). intros [= <-] [= _ Hn].
      eapply NoDup_lookup; [exact default_names|..]; rewrite list_lookup_fmap; [by rewrite Ei|].
      rewrite Ej. cbn. congruence.
  - apply Forall_app. split; rewrite Forall_forall; [done|].
    intros x (i & _ & _ & _ & Hin)%default_rows_in. pose proof defaults_ok as Hd. rewrite Forall_forall in Hd.
    specialize (Hd _ Hin). unfold default_ok in Hd. cbn [fst snd] in Hd. bool_to_prop.
    split; [by apply name_ok_slug|]. split; [unfold text_within; lia|done].
Qed.

Lemma seed_defaults_others user v (t : Table pystr) : v <> user -> owned v (seed_defaults user t) = owned v t.
Proof.
  intros Hv. unfold seed_defaults. destruct (owned user t); [|done]. unfold owned. cbn [tb_rows].
  rewrite List.filter_app. assert (List.filter (fun r => rw_user r =? v) (default_rows user (tb_next t)) = []) as ->.
  - assert (forall r, r ∈ default_rows user (tb_next t) -> (rw_user r =? v) = false) as H.
    { intros r (_ & _ & _ & -> & _)%default_rows_in. by apply Z.eqb_neq. }
    revert H. generalize (default_rows user (tb_next t)) as l. induction l as [|x l IH]; intros H; [done|].
    cbn. rewrite (H x (list_elem_of_here _ _)). apply IH. intros r Hr. apply H. by right.
  - apply app_nil_r.
Qed.

(** ** Every request, in any order, from any operator *)

Inductive Request :=
| MacrosGet
| MacrosPost (data : json)
| VarsGet
| VarsPost (data : json)
| StationsGet
| StationsPost (data : json).

Record Stores := {
  so_macros : Table pystr;
  so_vars : Table pystr;
  so_stations : Table (option float);
}.
#[export] Instance eta_stores : Eta Stores := fun s => Build_Stores (so_macros s) (so_vars s) (so_stations s).

Definition no_rows : Stores := {| so_macros := empty_table; so_vars := empty_table; so_stations := empty_table |}.

Section Serving.
Context (repr : json -> pystr) (pk_of : json -> option Z).

Definition outcome {A} (r : result Failure A) : option Failure := match r with Ok _ => None | Err e => Some e end.

Definition serve (user : Z) (q : Request) (s : Stores) : option Failure * Stores :=
  match q with
  | MacrosGet => (None, s <| so_macros := (macros_get user (so_macros s)).2 |>)
  | MacrosPost data =>
      let '(r, t) := macros_post repr pk_of user data (so_macros s) in (outcome r, s <| so_macros := t |>)
  | VarsGet | StationsGet => (None, s)
  | VarsPost data =>
      let '(r, t) := station_vars_post repr pk_of user data (so_vars s) in (outcome r, s <| so_vars := t |>)
  | StationsPost data =>
      let '(r, t) := radio_stations_post repr pk_of user data (so_stations s) in (outcome r, s <| so_stations := t |>)
  end.

Definition serve_all (qs : list (Z * Request)) (s : Stores) : Stores :=
  foldl (fun s q => (serve q.1 q.2 s).2) s qs.

Record stores_ok (s : Stores) : Prop := {
  so_macros_ok : macros_ok (so_macros s);
  so_vars_ok : vars_ok (so_vars s);
  so_stations_ok : stations_ok (so_stations s);
}.

Definition body (q : Request) : json :=
  match q with MacrosPost d | VarsPost d | StationsPost d => d | _ => JNull end.

(** The requests no handler answers: a key the database layer cannot read, a
    frequency too large for a float, a text the driver does not encode. *)
Definition uncaught (q : Request) : Prop :=
  exists d, body q = JObj d /\
    ((jget_null (u "id") d <> JNull /\ pk_of (jget_null (u "id") d) = None)
     \/ (exists j, jget (u "freq_mhz") d = Some j /\ jfloat j = Err OverflowError)
     \/ exists key, key ∈ [u "name"; u "text"; u "value"] /\ unencodable repr key d).

Lemma serve_spec user q s res s' :
  stores_ok s -> serve user q s = (res, s') ->
  stores_ok s'
  /\ (forall v, v <> user -> owned v (so_macros s') = owned v (so_macros s)
        /\ owned v (so_vars s') = owned v (so_vars s) /\ owned v (so_stations s') = owned v (so_stations s))
  /\ (res <> None -> s' = s)
  /\ (res = Some Uncaught -> uncaught q).
Proof.
  intros Hs. pose proof Hs as [Hm Hv Hst]. destruct q as [|data| |data| |data]; cbn [serve body].
  - intros [= <- <-]. cbn. split_and!; try done; [split; try done; by apply seed_defaults_ok|].
    intros v Hne. by rewrite seed_defaults_others.
  - destruct (macros_post _ _ _ _ _) as [r t] eqn:E. intros [= <- <-].
    destruct (macros_post_spec _ _ _ _ _ _ _ Hm E) as (H1 & H2 & H3 & H4 & _). cbn. split_and!.
    + by split. + intros v Hne. by rewrite H2.
    + destruct r as [|e]; [done|]. intros _. rewrite (H3 e eq_refl). by destruct s.
    + destruct r as [|e]; [done|]. intros [= ->]. destruct (H4 eq_refl) as (d & ? & [?|?]); exists d; split; auto. right. right. exists (u "text"). split; [set_solver|done].
  - intros [= <- <-]. split_and!; done.
  - destruct (station_vars_post _ _ _ _ _) as [r t] eqn:E. intros [= <- <-].
    destruct (vars_post_spec _ _ _ _ _ _ _ Hv E) as (H1 & H2 & H3 & H4 & _). cbn. split_and!.
    + by split. + intros v Hne. by rewrite H2.
    + destruct r as [|e]; [done|]. intros _. rewrite (H3 e eq_refl). by destruct s.
    + destruct r as [|e]; [done|]. intros [= ->]. destruct (H4 eq_refl) as (d & ? & [?|?]); exists d; split; auto. right. right. exists (u "value"). split; [set_solver|done].
  - intros [= <- <-]. split_and!; done.
  - destruct (radio_stations_post _ _ _ _ _) as [r t] eqn:E. intros [= <- <-].
    destruct (stations_post_spec _ _ _ _ _ _ _ Hst E) as (H1 & H2 & H3 & H4 & _). cbn. split_and!.
    + by split. + intros v Hne. by rewrite H2.
    + destruct r as [|e]; [done|]. intros _. rewrite (H3 e eq_refl). by destruct s.
    + destruct r as [|e]; [done|]. intros [= ->]. destruct (H4 eq_refl) as (d & ? & [?|[?|?]]); exists d; split; auto. right. right. exists (u "name"). split; [set_solver|done].
Qed.

Lemma serve_all_ok qs s : stores_ok s -> stores_ok (serve_all qs s).
Proof.
  revert s. induction qs as [|[user q] qs IH]; intros s Hs; [done|]. cbn [serve_all foldl]. apply IH.
  destruct (serve user q s) as [r s'] eqn:E. cbn [fst snd]. rewrite E. by destruct (serve_spec _ _ _ _ _ Hs E).
Qed.
End Serving.

(** C36: Whatever operators send, in whatever order, the stores stay typed: within
    each table every key is a row's own, no operator has a name twice, every
    message memory and tag has a slug of 1 to 24 characters and a text within
    its limit, every text is one the driver encodes, no tag takes a name the station fills, and every saved station
    is on a frequency the receiver tunes. *)
Theorem stores_well_typed (repr : json -> pystr) (pk_of : json -> option Z) (qs : list (Z * Request)) :
  stores_ok (serve_all repr pk_of qs no_rows).
Proof. apply serve_all_ok. split; apply empty_ok. Qed.

(** C37: One request to stores reached by any requests: no other operator's row
    changes, a request that fails changes nothing at all, and the only ways
    past the handlers' own answers are a key the database layer cannot read,
    a frequency too large for a float, and a name or a text with a code point
    UTF-8 does not encode, on which the driver raises; the uniqueness
    constraint is never what stops one. *)
Theorem request_isolated (repr : json -> pystr) (pk_of : json -> option Z) (qs : list (Z * Request))
    (user : Z) (q : Request) :
  let s := serve_all repr pk_of qs no_rows in
  let '(res, s') := serve repr pk_of user q s in
  (forall v, v <> user -> owned v (so_macros s') = owned v (so_macros s)
     /\ owned v (so_vars s') = owned v (so_vars s) /\ owned v (so_stations s') = owned v (so_stations s))
  /\ (res <> None -> s' = s)
  /\ (res = Some Uncaught -> uncaught repr pk_of q).
Proof.
  intros s. destruct (serve repr pk_of user q s) as [res s'] eqn:E.
  eapply serve_spec; [|exact E]. apply serve_all_ok. split; apply empty_ok.
Qed.

(** ** What the listing shows *)

Lemma insert_row_perm {V} (x : Row V) l : insert_row x l ≡ₚ x :: l.
Proof.
  induction l as [|y l IH]; cbn; [done|]. destruct (row_before y x); [|done].
  rewrite IH. apply Permutation_swap.
Qed.

Lemma listing_perm {V} user (t : Table V) : listing user t ≡ₚ owned user t.
Proof.
  unfold listing. induction (owned user t) as [|x l IH]; [done|]. cbn. by rewrite insert_row_perm, IH.
Qed.

(** A message memory just written is listed to its owner on the next GET,
    under the name and with the text the answer reported. *)
Theorem macro_listed (repr : json -> pystr) (pk_of : json -> option Z) (user : Z) (data : json)
    (t t' : Table pystr) (r : Row pystr) :
  macros_ok t -> macros_post repr pk_of user data t = (Ok (Wrote r), t') ->
  r ∈ (macros_get user t').1 /\ (macros_get user t').2 = t' /\ rw_user r = user
  /\ forall r', r' ∈ (macros_get user t').1 -> rw_name r' = rw_name r -> r' = r.
Proof.
  intros Ht E. destruct (macros_post_spec _ _ _ _ _ _ _ Ht E) as (Ht' & _ & _ & _ & Hin).
  specialize (Hin r eq_refl). unfold macros_get. cbn [fst snd].
  assert (seed_defaults user t' = t') as ->.
  { unfold seed_defaults. destruct (owned user t'); [by apply not_elem_of_nil in Hin|done]. }
  split_and!; [by rewrite listing_perm|done|by apply owned_in in Hin as []|].
  intros r' Hr' Hn. rewrite listing_perm in Hr'. apply owned_in in Hr' as [Hr' Hu'], Hin as [Hin Hu].
  eapply NoDup_fmap_inj; [apply (ok_names _ _ _ Ht')|done..|]. cbn. congruence.
Qed.

(** ** Concrete requests *)

Module StoreDemo.
Definition repr (_ : json) : pystr := [].
Definition pk_of (j : json) : option Z := match j with JInt n => Some n | _ => None end.
Definition add (name text : pystr) : json := JObj [(u "name", JStr name); (u "text", JStr text)].
Definition remove (id : Z) : json := JObj [(u "id", JInt id); (u "delete", JBool true)].
Definition written : result Failure (Answer pystr) * Table pystr :=
  macros_post repr pk_of 7 (add (u " /Test ") (u " VVV ")) empty_table.
End StoreDemo.

Theorem macro_listed_witness :
  exists r, StoreDemo.written.1 = Ok (Wrote r) /\ rw_name r = u "test" /\ rw_value r = u "VVV"
    /\ r ∈ (macros_get 7 StoreDemo.written.2).1.
Proof.
  set (r := {| rw_pk := Some 1; rw_user := 7; rw_name := u "test"; rw_value := u "VVV"; rw_order := 0 |}).
  assert (StoreDemo.written = (Ok (Wrote r), StoreDemo.written.2)) as E by (vm_compute; reflexivity).
  pose proof (macro_listed StoreDemo.repr StoreDemo.pk_of 7 (StoreDemo.add (u " /Test ") (u " VVV ")) empty_table
    StoreDemo.written.2 r (empty_ok _ _) E) as (H & _).
  exists r. split; [by rewrite E|]. split; [done|]. split; [done|]. exact H.
Defined.

(** A lone surrogate, which the JSON of a request may escape, gets past the
    length checks; the save raises and the request is not answered. *)
Lemma lone_surrogate_uncaught :
  macros_post StoreDemo.repr StoreDemo.pk_of 7 (StoreDemo.add (u "test") [55296]) empty_table = (Err Uncaught, empty_table)
  /\ radio_stations_post StoreDemo.repr StoreDemo.pk_of 7
       (JObj [(u "name", JStr [55296]); (u "freq_mhz", JInt 100)]) empty_table = (Err Uncaught, empty_table).
Proof. split; vm_compute; reflexivity. Qed.

(** An operator who deletes all six default memories gets them back at the
    next listing: the seeding looks at whether any row is left, not at
    whether it is the first call. *)
Lemma deleted_defaults_return :
  let gone := serve_all StoreDemo.repr StoreDemo.pk_of
    ((1, MacrosGet) :: ((fun id => (1, MacrosPost (StoreDemo.remove id))) <$> [1; 2; 3; 4; 5; 6])) no_rows in
  owned 1 (so_macros gone) = [] /\
  (rw_name <$> (macros_get 1 (so_macros gone)).1) = DEFAULT_MACROS.*1.
Proof. split; vm_compute; reflexivity. Qed.
