(* ===== verification/Simulate.v ===== *)
(** * engine/simulate.py: a simulated band

    Noise with stations scheduled on it, block by block. The generator's random
    numbers are parameters over its state; what its consumer turns between
    blocks (the noise level, the pause) is the list of knob settings it runs
    with. *)
From Stdlib Require Import Sorted.
From S2P Require Import Prelude PyFloat PyStr Morse.
Open Scope Z_scope.

Definition DEFAULT_MESSAGES : list pystr := [
  u "CQ CQ CQ DE W1AW W1AW K";
  u "CQ TEST DE K5TR K5TR TEST";
  u "TU 5NN 73 <SK>";
  u "QRL? DE N0CALL";
  u "CQ DX CQ DX DE JA1NUT JA1NUT K";
  u "R R UR 559 559 IN NH BT HW? <BK>";
  u "GM OM UR RST 579 579 NAME IS ED ED <BT>";
  u "73 GL ES GUD DX <AR>"
].

Section Simulate.
Context {F : Type} `{Num F} {W : Type}.

Record SimTransmission := {
  st_text : pystr;
  st_tone_hz : F;
  st_wpm : F;
  st_amplitude : F;
  st_start_sample : Z;
  st_audio : list F;
}.

Definition tx_end (tx : SimTransmission) : Z := st_start_sample tx + zlen (st_audio tx).

(** What a source is built with. *)
Record SimConfig := {
  si_sample_rate : Z;
  si_block_size : Z;
  si_tone_range : F * F;
  si_wpm_range : F * F;
  si_amplitude_range : F * F;
  si_idle_range_s : F * F;
  si_messages : list pystr;
  si_duration_s : option F;
}.

Record SimulatedBandSource := {
  sb_pos : Z;
  sb_current : option SimTransmission;
  sb_next_start : Z;
  sb_log : list SimTransmission;
  sb_rng : W;
}.

#[global] Instance eta_source : Eta SimulatedBandSource := fun s =>
  Build_SimulatedBandSource (sb_pos s) (sb_current s) (sb_next_start s) (sb_log s) (sb_rng s).

(** What the consumer has set when it asks for a block. *)
Record Knob := { kb_noise_level : F; kb_paused_signals : bool }.

(** [rng.uniform], [rng.choice], [rng.integers(0, 2**31)] and [rng.normal]. *)
Variable uniform : F -> F -> W -> F * W.
Variable choice : list pystr -> W -> pystr * W.
Variable integer : W -> Z * W.
Variable normal : F -> Z -> W -> list F * W.
Variable np_room : Z -> bool.
Variable np_ramp : Z -> list F.
Variable np_modulate : F -> list F -> F -> Z -> option F -> option (list F).
Variable c : SimConfig.

(** [_n]; as in the synthesis, [None] is an exception. *)
Definition n_of (seconds : F) : option Z := n_samples (si_sample_rate c) seconds.

Definition new_source (rng : W) : option SimulatedBandSource :=
  let '(idle, rng) := uniform (si_idle_range_s c).1 (si_idle_range_s c).2 rng in
  n ← n_of idle;
  Some {| sb_pos := 0; sb_current := None; sb_next_start := 0 + n; sb_log := []; sb_rng := rng |}.

(** [_schedule_next] *)
Definition schedule_next (s : SimulatedBandSource) : option SimulatedBandSource :=
  let '(text, rng) := choice (si_messages c) (sb_rng s) in
  let '(tone, rng) := uniform (si_tone_range c).1 (si_tone_range c).2 rng in
  let '(wpm, rng) := uniform (si_wpm_range c).1 (si_wpm_range c).2 rng in
  let '(amp, rng) := uniform (si_amplitude_range c).1 (si_amplitude_range c).2 rng in
  let '(_, rng) := integer rng in
  synth ← synthesize_cw np_room np_ramp np_modulate text wpm tone (si_sample_rate c) None
                 (num_of_Z 5) amp (num_of_Z 60);
  let tx := {| st_text := text; st_tone_hz := tone; st_wpm := wpm; st_amplitude := amp;
               st_start_sample := sb_next_start s; st_audio := sy_audio _ synth |} in
  Some (s <| sb_current := Some tx |> <| sb_log := sb_log s ++ [tx] |> <| sb_rng := rng |>).

(** [block[i:i+len(seg)] += seg] *)
Definition add_slice (i : Z) (seg block : list F) : list F :=
  let n := zlen seg in
  slice_to i block ++ zip_with num_add (slice i (i + n) block) seg ++ slice_from (i + n) block.

(** The part of the transmission that falls into [[pos, pos + len(block))]. *)
Definition overlay (pos : Z) (tx : SimTransmission) (block : list F) : list F :=
  let a := Z.max pos (st_start_sample tx) in
  let b := Z.min (pos + zlen block) (tx_end tx) in
  if a <? b then
    add_slice (a - pos) (slice (a - st_start_sample tx) (b - st_start_sample tx) (st_audio tx)) block
  else block.

(** [max(noise_level, 0.0) or 1e-6] *)
Definition noise_scale (level : F) : F :=
  let x := num_max level (num_of_Z 0) in
  if num_eqb x (num_of_Z 0) then lit 1 1000000 else x.

(** One turn of [blocks]: the block yielded, with the noise it was made from. *)
Definition block_step (k : Knob) (s : SimulatedBandSource) : option (SimulatedBandSource * list F * list F) :=
  let bs := si_block_size c in
  let '(noise, rng) := normal (noise_scale (kb_noise_level k)) bs (sb_rng s) in
  let s := s <| sb_rng := rng |> in
  done ←
    if kb_paused_signals k then Some (s, noise)
    else
      s ← (if negb (bool_decide (is_Some (sb_current s))) && (sb_next_start s <=? sb_pos s + bs)
           then schedule_next s else Some s);
      match sb_current s with
      | None => Some (s, noise)
      | Some tx =>
          let block := overlay (sb_pos s) tx noise in
          if tx_end tx <=? sb_pos s + bs then
            let '(idle, rng) := uniform (si_idle_range_s c).1 (si_idle_range_s c).2 (sb_rng s) in
            n ← n_of idle;
            Some (s <| sb_current := None |> <| sb_next_start := tx_end tx + n |> <| sb_rng := rng |>, block)
          else Some (s, block)
      end;
  let '(s, block) := done in
  Some (s <| sb_pos := sb_pos s + bs |>, block, noise).

(** The loop of [blocks]: one setting of the knobs per block asked for, until
    the end is reached. Returns the samples yielded and the noise in them. *)
Fixpoint blocks_until (stop : option Z) (knobs : list Knob) (s : SimulatedBandSource) :
    option (SimulatedBandSource * list F * list F) :=
  let on := match stop with Some e => sb_pos s <? e | None => true end in
  match knobs with
  | k :: knobs' =>
      if on then
        r ← block_step k s;
        let '(s, block, noise) := r in
        r ← blocks_until stop knobs' s;
        let '(s, out, ns) := r in
        Some (s, block ++ out, noise ++ ns)
      else Some (s, [], [])
  | [] => Some (s, [], [])
  end.

Definition blocks (knobs : list Knob) (s : SimulatedBandSource) :
    option (SimulatedBandSource * list F * list F) :=
  match si_duration_s c with
  | Some d => e ← n_of d; blocks_until (Some e) knobs s
  | None => blocks_until None knobs s
  end.

(** [truth] *)
Definition truth (s : SimulatedBandSource) : pystr := join (u " ") (st_text <$> sb_log s).

(** ** What is on the air *)

Definition covers (i : Z) (tx : SimTransmission) : bool :=
  (st_start_sample tx <=? i) && (i <? tx_end tx).

Definition heard_at (log : list SimTransmission) (i : Z) : option F :=
  tx ← List.find (covers i) log; st_audio tx !! Z.to_nat (i - st_start_sample tx).

Definition mix (n : F) (x : option F) : F := match x with Some x => num_add n x | None => n end.

Lemma add_slice_lookup i seg block j n :
  0 <= i -> i + zlen seg <= zlen block -> block !! j = Some n ->
  add_slice i seg block !! j
  = Some (mix n (if (i <=? Z.of_nat j) && (Z.of_nat j <? i + zlen seg)
                 then seg !! Z.to_nat (Z.of_nat j - i) else None)).
Proof.
  intros Hi Hlen Hj. unfold add_slice, slice_to, slice_from, slice, zlen in *.
  assert (length (take (Z.to_nat i) block) = Z.to_nat i) as L1 by (rewrite length_take; lia).
  replace (Z.to_nat (i + Z.of_nat (length seg) - i)) with (length seg) by lia.
  replace (Z.to_nat (i + Z.of_nat (length seg))) with (Z.to_nat i + length seg)%nat by lia.
  assert (length (zip_with num_add (take (length seg) (drop (Z.to_nat i) block)) seg) = length seg) as L2
    by (rewrite length_zip_with, length_take, length_drop; lia).
  destruct (i <=? Z.of_nat j) eqn:E1; cbn [andb].
  - destruct (Z.of_nat j <? i + Z.of_nat (length seg)) eqn:E2.
    + rewrite lookup_app_r, L1, lookup_app_l by lia. rewrite lookup_zip_with, lookup_take_lt by lia.
      rewrite lookup_drop. replace (Z.to_nat i + (j - Z.to_nat i))%nat with j by lia. rewrite Hj. cbn.
      replace (Z.to_nat (Z.of_nat j - i)) with (j - Z.to_nat i)%nat by lia.
      destruct (lookup_lt_is_Some_2 seg (j - Z.to_nat i)) as [x ->]; [lia|]. done.
    + rewrite lookup_app_r, L1, lookup_app_r, L2 by lia. rewrite lookup_drop. cbn [mix].
      rewrite <- Hj. f_equal. lia.
  - rewrite lookup_app_l, lookup_take_lt by lia. done.
Qed.

Lemma overlay_lookup pos tx block j n :
  block !! j = Some n ->
  overlay pos tx block !! j
  = Some (mix n (if covers (pos + Z.of_nat j) tx
                 then st_audio tx !! Z.to_nat (pos + Z.of_nat j - st_start_sample tx) else None)).
Proof.
  intros Hj. unfold overlay, covers, tx_end. set (start := st_start_sample tx). set (audio := st_audio tx).
  pose proof (lookup_lt_Some _ _ _ Hj) as Hl. set (a := Z.max pos start).
  set (b := Z.min (pos + zlen block) (start + zlen audio)). unfold zlen in *.
  destruct (a <? b) eqn:E.
  - assert (length (slice (a - start) (b - start) audio) = Z.to_nat (b - a)) as Ls.
    { subst a b. unfold slice. rewrite length_take, length_drop. lia. }
    rewrite (add_slice_lookup _ _ _ _ n); unfold zlen; rewrite ?Ls; [|subst a b; lia..|done].
    f_equal. f_equal.
    subst a b.
    destruct ((start <=? pos + Z.of_nat j) && (pos + Z.of_nat j <? start + Z.of_nat (length audio))) eqn:E2;
      case_match eqn:E1; bool_to_prop; try lia; try done.
    all: try (apply andb_false_iff in E1 as [E1|E1]; bool_to_prop; lia).
    all: try (apply andb_false_iff in E2 as [E2|E2]; bool_to_prop; lia).
    unfold slice. rewrite lookup_take_lt, lookup_drop by lia. f_equal. lia.
  - rewrite Hj. destruct (_ && _) eqn:E2; [|done]. subst a b. bool_to_prop. lia.
Qed.

Lemma overlay_length pos tx block : length (overlay pos tx block) = length block.
Proof.
  apply Nat.le_antisymm.
  - unfold overlay. destruct (_ <? _) eqn:E; [|lia]. unfold add_slice, slice_to, slice_from, slice, zlen, tx_end in *.
    repeat (rewrite ?length_app, ?length_zip_with, ?length_take, ?length_drop). lia.
  - destruct (decide (length block <= length (overlay pos tx block))%nat); [done|]. exfalso.
    destruct (lookup_lt_is_Some_2 block (length (overlay pos tx block))) as [x Hx]; [lia|].
    pose proof (overlay_lookup pos tx block _ x Hx) as Ho. apply lookup_lt_Some in Ho. lia.
Qed.
End Simulate.

(** ** The simulated band plays what it logs *)

Section Facts.
Context {F : Type} `{Num F} {W : Type}.
Variable uniform : F -> F -> W -> F * W.
Variable choice : list pystr -> W -> pystr * W.
Variable integer : W -> Z * W.
Variable normal : F -> Z -> W -> list F * W.
Variable np_room : Z -> bool.
Variable np_ramp : Z -> list F.
Variable np_modulate : F -> list F -> F -> Z -> option F -> option (list F).
Variable c : SimConfig (F := F).
Implicit Types (s : SimulatedBandSource (F := F) (W := W)) (tx : SimTransmission (F := F)).

Local Notation block_step := (block_step uniform choice integer normal np_room np_ramp np_modulate c).
Local Notation blocks := (blocks uniform choice integer normal np_room np_ramp np_modulate c).
Local Notation blocks_until := (blocks_until uniform choice integer normal np_room np_ramp np_modulate c).
Local Notation new_source := (new_source uniform c).

(** numpy returns as many samples as it is asked for, and every idle time the
    configuration allows is at least one block long. *)
Hypothesis normal_length : forall scale n w, 0 <= n -> zlen (normal scale n w).1 = n.
Hypothesis block_size_pos : 0 < si_block_size c.
Hypothesis idle_a_block : forall w n,
  n_of c (uniform (si_idle_range_s c).1 (si_idle_range_s c).2 w).1 = Some n -> si_block_size c <= n.

(** ** One transmission at a time *)

Definition in_turn (log : list (SimTransmission (F := F))) : Prop :=
  StronglySorted (fun x y => tx_end x <= st_start_sample y) log.

Lemma in_turn_snoc log tx :
  in_turn log -> Forall (fun x => tx_end x <= st_start_sample tx) log -> in_turn (log ++ [tx]).
Proof.
  induction 1 as [|x log Hs IH Hx]; intros Hf; [repeat constructor|].
  inversion Hf as [|? ? Hx' Hf']; subst. constructor; [by apply IH|].
  apply Forall_app. split; [done|]. by constructor.
Qed.

Lemma heard_at_tx log tx i :
  in_turn log -> tx ∈ log -> covers i tx = true ->
  heard_at log i = st_audio tx !! Z.to_nat (i - st_start_sample tx).
Proof.
  unfold heard_at. induction 1 as [|y log Hs IH Hy]; intros Hin Hc; [by apply elem_of_nil in Hin|].
  cbn [List.find]. destruct (covers i y) eqn:E.
  - apply elem_of_cons in Hin as [-> | Hin]; [done|]. exfalso.
    rewrite Forall_forall in Hy. specialize (Hy tx Hin). unfold covers in *. bool_to_prop. lia.
  - apply elem_of_cons in Hin as [-> | Hin]; [congruence|]. by apply IH.
Qed.

Lemma heard_at_none log i : (forall tx, tx ∈ log -> covers i tx = false) -> heard_at log i = None.
Proof.
  intros Hn. unfold heard_at. destruct (List.find (covers i) log) as [tx|] eqn:E; [|done].
  apply find_some in E as [Hin Hc]. apply list_elem_of_In in Hin. rewrite Hn in Hc; done.
Qed.

Lemma find_app {A} (p : A -> bool) l l' :
  List.find p (l ++ l') = match List.find p l with Some x => Some x | None => List.find p l' end.
Proof. induction l as [|x l IH]; cbn; [done|]. by destruct (p x). Qed.

(** Transmissions that start later do not matter yet. *)
Lemma heard_at_later log new i :
  Forall (fun tx => i < st_start_sample tx) new -> heard_at (log ++ new) i = heard_at log i.
Proof.
  intros Hf. unfold heard_at. rewrite find_app. destruct (List.find (covers i) log); [done|].
  pose proof (heard_at_none new i) as Hn. unfold heard_at in Hn. apply Hn.
  rewrite Forall_forall in Hf. intros tx Hin. specialize (Hf tx Hin). unfold covers.
  apply andb_false_iff. left. lia.
Qed.

Lemma heard_at_past log tx i :
  Forall (fun x => tx_end x <= i) log ->
  heard_at (log ++ [tx]) i
  = if covers i tx then st_audio tx !! Z.to_nat (i - st_start_sample tx) else None.
Proof.
  intros Hf. unfold heard_at. rewrite find_app.
  assert (List.find (covers i) log = None) as ->.
  { induction Hf as [|x l Hx _ IH]; cbn; [done|]. unfold covers at 1.
    assert (i <? tx_end x = false) as -> by lia. by rewrite andb_false_r. }
  cbn. by destruct (covers i tx).
Qed.

(** ** The schedule *)

Record on_schedule s : Prop := {
  os_pos : 0 <= sb_pos s;
  os_turn : in_turn (sb_log s);
  os_start : Forall (fun tx => 0 <= st_start_sample tx) (sb_log s);
  os_current :
    match sb_current s with
    | None => sb_pos s <= sb_next_start s
              /\ Forall (fun tx => tx_end tx <= sb_pos s /\ tx_end tx <= sb_next_start s) (sb_log s)
    | Some tx => sb_pos s <= tx_end tx
                 /\ exists past, sb_log s = past ++ [tx] /\ Forall (fun x => tx_end x <= sb_pos s) past
    end;
}.

Lemma new_source_on_schedule rng s : new_source rng = Some s -> on_schedule s /\ sb_pos s = 0.
Proof.
  unfold Simulate.new_source. pose proof (idle_a_block rng) as Hi.
  destruct (uniform _ _ rng) as [idle rng']. cbn [fst] in Hi.
  intros (n & Hn & [= <-])%bind_Some. apply Hi in Hn. split; [|done].
  split; cbn; [lia|constructor|constructor|]. split; [lia|constructor].
Qed.

Local Notation schedule_next := (schedule_next uniform choice integer np_room np_ramp np_modulate c).

Lemma schedule_next_spec s s' :
  schedule_next s = Some s' ->
  exists tx, sb_current s' = Some tx /\ sb_log s' = sb_log s ++ [tx]
    /\ sb_pos s' = sb_pos s /\ st_start_sample tx = sb_next_start s.
Proof.
  unfold Simulate.schedule_next. destruct (choice _ _) as [text r1]. destruct (uniform _ _ r1) as [tone r2].
  destruct (uniform _ _ r2) as [wpm r3]. destruct (uniform _ _ r3) as [amp r4].
  destruct (integer r4) as [seed r5].
  intros (synth & _ & [= <-])%bind_Some. eexists. repeat split.
Qed.

(** Whether or not a station comes up, the block is on schedule. *)
Lemma scheduled s s' :
  on_schedule s ->
  (if negb (bool_decide (is_Some (sb_current s))) && (sb_next_start s <=? sb_pos s + si_block_size c)
   then schedule_next s else Some s) = Some s' ->
  on_schedule s' /\ sb_pos s' = sb_pos s
  /\ (exists new, sb_log s' = sb_log s ++ new /\ Forall (fun tx => sb_pos s <= st_start_sample tx) new)
  /\ (sb_current s' = None -> sb_pos s + si_block_size c < sb_next_start s').
Proof.
  intros Hs. destruct (sb_current s) as [tx|] eqn:Ec.
  { rewrite bool_decide_eq_true_2 by eauto. cbn. intros [= <-]. split; [done|]. split; [done|].
    split; [exists []; by rewrite app_nil_r|]. by rewrite Ec. }
  rewrite bool_decide_eq_false_2 by (by intros [? ?]). cbn [negb andb].
  destruct (_ <=? _) eqn:E.
  2: { intros [= <-]. split; [done|]. split; [done|]. split; [exists []; by rewrite app_nil_r|]. intros _. lia. }
  intros (tx & H1 & H2 & H3 & H4)%schedule_next_spec.
  destruct Hs as [Hp Ht Hst Hc]. rewrite Ec in Hc. destruct Hc as [Hn Hf]. split.
  - split; rewrite ?H1, ?H2, ?H3.
    + done.
    + apply in_turn_snoc; [done|]. eapply Forall_impl; [exact Hf|]. cbn. intros x ?. lia.
    + apply Forall_app. split; [done|]. constructor; [lia|constructor].
    + split; [unfold tx_end; pose proof (zlen_nonneg (st_audio tx)); lia|].
      exists (sb_log s). split; [done|]. eapply Forall_impl; [exact Hf|]. cbn. intros x ?. lia.
  - split; [done|]. split; [|by rewrite H1]. exists [tx]. split; [done|].
    constructor; [lia|constructor].
Qed.

Lemma block_step_spec k s s' block noise :
  on_schedule s -> kb_paused_signals k = false -> block_step k s = Some (s', block, noise) ->
  on_schedule s' /\ sb_pos s' = sb_pos s + si_block_size c /\ zlen noise = si_block_size c
  /\ length block = length noise
  /\ (exists new, sb_log s' = sb_log s ++ new /\ Forall (fun tx => sb_pos s <= st_start_sample tx) new)
  /\ (forall j n, noise !! j = Some n ->
        block !! j = Some (mix n (heard_at (sb_log s') (sb_pos s + Z.of_nat j)))).
Proof.
  intros Hs Hk. unfold Simulate.block_step. rewrite Hk.
  pose proof (normal_length (noise_scale (kb_noise_level k)) (si_block_size c) (sb_rng s) ltac:(lia)) as Hnl.
  destruct (normal _ _ _) as [noise0 rng]. cbn [fst] in Hnl.
  assert (on_schedule (s <| sb_rng := rng |>)) as Hs0 by (destruct Hs; by split).
  set (s0 := s <| sb_rng := rng |>) in *.
  intros ([s2 block2] & (s1 & Hsch & Hbl)%bind_Some & Hend')%bind_Some. revert Hbl Hend'.
  destruct (scheduled s0 s1 Hs0 Hsch) as (Hs1 & Hp1 & (new & Hl1 & Hnew) & Hquiet). clear Hsch.
  change (sb_pos s0) with (sb_pos s) in *. change (sb_log s0) with (sb_log s) in Hl1. clearbody s0.
  destruct Hs1 as [Hpos Hturn Hstart Hcur]. rewrite Hp1 in *.
  destruct (sb_current s1) as [tx|] eqn:Ec.
  - destruct Hcur as (Hend & past & Hlog & Hpast).
    assert (forall j n, noise0 !! j = Some n ->
              overlay (sb_pos s) tx noise0 !! j = Some (mix n (heard_at (sb_log s1) (sb_pos s + Z.of_nat j)))) as Hov.
    { intros j n Hj. rewrite (overlay_lookup _ _ _ _ n Hj), Hlog, heard_at_past; [done|].
      eapply Forall_impl; [exact Hpast|]. cbn. intros x ?. lia. }
    destruct (tx_end tx <=? _) eqn:E.
    + pose proof (idle_a_block (sb_rng s1)) as Hi. destruct (uniform _ _ (sb_rng s1)) as [idle rng2].
      cbn [fst] in Hi. intros (n & Hn%Hi & [= <- <-])%bind_Some [= <- <- <-]. cbn [sb_log sb_pos upd].
      split; [|split; [by rewrite Hp1|split; [done|split; [apply overlay_length|split; [by exists new|exact Hov]]]]].
      split; cbn; rewrite ?Hp1; [lia|done|done|]. split; [lia|]. rewrite Hlog. apply Forall_app. split.
      * assert (Forall (fun x => tx_end x <= st_start_sample tx) past) as Hb.
        { clear -Hturn Hlog. rewrite Hlog in Hturn. clear Hlog. induction past as [|x past IH]; constructor.
          - inversion Hturn as [|? ? ? Hx]; subst. apply Forall_app in Hx as [_ Hx]. by inversion Hx.
          - apply IH. by inversion Hturn. }
        eapply Forall_impl; [apply Forall_and; split; [exact Hpast|exact Hb]|].
        cbn. intros x [? ?]. unfold tx_end in *. pose proof (zlen_nonneg (st_audio tx)). lia.
      * constructor; [lia|constructor].
    + intros [= <- <-] [= <- <- <-]. cbn [sb_log sb_pos upd].
      split; [|split; [by rewrite Hp1|split; [done|split; [apply overlay_length|split; [by exists new|exact Hov]]]]].
      split; cbn; rewrite ?Hp1; [lia|done|done|]. rewrite Ec. split; [lia|]. exists past. split; [done|].
      eapply Forall_impl; [exact Hpast|]. cbn. intros x ?. lia.
  - destruct Hcur as (Hn & Hf). intros [= <- <-] [= <- <- <-]. cbn [sb_log sb_pos upd].
    split; [|split; [by rewrite Hp1|split; [done|split; [done|split; [by exists new|]]]]].
    + split; cbn; rewrite ?Hp1; [lia|done|done|]. rewrite Ec.
      specialize (Hquiet eq_refl). split; [lia|]. eapply Forall_impl; [exact Hf|]. cbn. intros x ?. lia.
    + intros j n Hj. rewrite heard_at_none; [done|]. rewrite Forall_forall in Hf. intros tx Hin.
      destruct (Hf tx Hin). unfold covers. apply andb_false_iff. right. apply Z.ltb_ge. lia.
Qed.
(** ** A run of blocks *)

Definition all_on (knobs : list (Knob (F := F))) : Prop :=
  Forall (fun k => kb_paused_signals k = false) knobs.

Lemma blocks_until_spec stop knobs s s' out ns :
  on_schedule s -> all_on knobs -> blocks_until stop knobs s = Some (s', out, ns) ->
  on_schedule s' /\ length out = length ns /\ sb_pos s' = sb_pos s + zlen ns
  /\ (exists new, sb_log s' = sb_log s ++ new /\ Forall (fun tx => sb_pos s <= st_start_sample tx) new)
  /\ (forall j n, ns !! j = Some n ->
        out !! j = Some (mix n (heard_at (sb_log s') (sb_pos s + Z.of_nat j)))).
Proof.
  revert s s' out ns. induction knobs as [|k knobs IH]; intros s s' out ns Hs Hk.
  - cbn [Simulate.blocks_until]. intros [= <- <- <-]. split; [done|]. split; [done|].
    split; [unfold zlen; cbn; lia|]. split; [|intros j n Hj; by rewrite lookup_nil in Hj].
    exists []. by rewrite app_nil_r.
  - cbn [Simulate.blocks_until]. inversion Hk as [|? ? Hk0 Hk']; subst.
    destruct (match stop with Some e => sb_pos s <? e | None => true end).
    2: { intros [= <- <- <-]. split; [done|]. split; [done|].
         split; [unfold zlen; cbn; lia|]. split; [|intros j n Hj; by rewrite lookup_nil in Hj].
         exists []. by rewrite app_nil_r. }
    intros ([[s1 block] noise] & E1 & ([[s2 out2] ns2] & E2 & [= <- <- <-])%bind_Some)%bind_Some.
    apply block_step_spec in E1 as (Hs1 & Hp1 & Hn1 & Hl1 & (new1 & Hlog1 & Hnew1) & Hout1); [|done..].
    apply IH in E2 as (Hs2 & Hl2 & Hp2 & (new2 & Hlog2 & Hnew2) & Hout2); [|done..].
    split; [done|]. split; [rewrite !length_app; lia|].
    split; [rewrite zlen_app; lia|]. split.
    + exists (new1 ++ new2). split; [by rewrite Hlog2, Hlog1, <- app_assoc|].
      apply Forall_app. split; [done|]. eapply Forall_impl; [exact Hnew2|]. cbn. intros tx ?. lia.
    + intros j n Hj. apply lookup_app_Some in Hj as [Hj|[Hge Hj]].
      * pose proof (lookup_lt_Some _ _ _ Hj) as Hlt. rewrite lookup_app_l by lia.
        rewrite (Hout1 j n Hj), Hlog2, heard_at_later; [done|].
        eapply Forall_impl; [exact Hnew2|]. cbn. intros tx ?. unfold zlen in *. lia.
      * rewrite lookup_app_r by lia. rewrite Hl1, (Hout2 _ n Hj). do 3 f_equal. unfold zlen in *. lia.
Qed.

Lemma blocks_spec knobs s s' out ns :
  on_schedule s -> all_on knobs -> blocks knobs s = Some (s', out, ns) ->
  on_schedule s' /\ length out = length ns /\ sb_pos s' = sb_pos s + zlen ns
  /\ (forall j n, ns !! j = Some n ->
        out !! j = Some (mix n (heard_at (sb_log s') (sb_pos s + Z.of_nat j)))).
Proof.
  intros Hs Hk E. assert (exists stop, blocks_until stop knobs s = Some (s', out, ns)) as [stop E'].
  { unfold Simulate.blocks in E. destruct (si_duration_s c) as [d|]; [|by eauto].
    apply bind_Some in E as (e & _ & E). by eauto. }
  apply blocks_until_spec in E' as (A & B & C & _ & D); done.
Qed.

(** A band whose stations are never paused plays exactly what its log, and so
    [truth], says. The logged transmissions are on the air one after the other,
    never overlapping; every sample of one that falls inside what has been
    yielded was added to the noise at its place; where none is on the air the
    band is noise alone; and every logged transmission has been heard to its end
    except the one still in progress. *)
Theorem truth_on_air rng knobs s0 s out ns :
  all_on knobs -> new_source rng = Some s0 -> blocks knobs s0 = Some (s, out, ns) ->
  in_turn (sb_log s) /\ sb_pos s = zlen out /\ length out = length ns
  /\ (forall tx k x, tx ∈ sb_log s -> st_audio tx !! k = Some x ->
        st_start_sample tx + Z.of_nat k < zlen out ->
        exists n, ns !! Z.to_nat (st_start_sample tx + Z.of_nat k) = Some n
                  /\ out !! Z.to_nat (st_start_sample tx + Z.of_nat k) = Some (num_add n x))
  /\ (forall j n, ns !! j = Some n -> (forall tx, tx ∈ sb_log s -> covers (Z.of_nat j) tx = false) ->
        out !! j = Some n)
  /\ (forall tx, tx ∈ sb_log s -> tx_end tx <= zlen out \/ sb_current s = Some tx).
Proof.
  intros Hk [Hs0 H0]%new_source_on_schedule E. apply blocks_spec in E as (Hs & Hl & Hp & Hout); [|done..].
  rewrite H0 in Hp, Hout. assert (zlen out = zlen ns) as Hz by (unfold zlen; lia). rewrite Hz.
  destruct Hs as [Hpos Hturn Hstart Hcur].
  split; [done|]. split; [lia|]. split; [done|]. split; [|split].
  - intros tx k x Hin Hx Hlt. rewrite Forall_forall in Hstart. pose proof (Hstart tx Hin) as Hst.
    set (i := st_start_sample tx + Z.of_nat k) in *.
    destruct (lookup_lt_is_Some_2 ns (Z.to_nat i)) as [n Hn]; [unfold zlen in Hlt; lia|].
    exists n. split; [done|]. rewrite (Hout _ n Hn). rewrite Z2Nat.id, Z.add_0_l by lia.
    rewrite (heard_at_tx _ tx _ Hturn Hin).
    + subst i. replace (st_start_sample tx + Z.of_nat k - st_start_sample tx) with (Z.of_nat k) by lia.
      by rewrite Nat2Z.id, Hx.
    + apply lookup_lt_Some in Hx. unfold covers, tx_end, zlen. subst i.
      apply andb_true_iff. split; [apply Z.leb_le|apply Z.ltb_lt]; lia.
  - intros j n Hj Hn. rewrite (Hout j n Hj), Z.add_0_l, heard_at_none; done.
  - intros tx Hin. destruct (sb_current s) as [tx'|] eqn:Ec.
    + destruct Hcur as (_ & past & Hlog & Hpast). rewrite Hlog in Hin.
      apply elem_of_app in Hin as [Hin|Hin].
      * left. rewrite Forall_forall in Hpast. specialize (Hpast tx Hin). lia.
      * right. apply elem_of_cons in Hin as [-> | Hin]; [done|by apply elem_of_nil in Hin].
    + left. destruct Hcur as [_ Hf]. rewrite Forall_forall in Hf. destruct (Hf tx Hin). lia.
Qed.
End Facts.

(** ** A small band: four-sample blocks, a station of three samples *)
Module BandDemo.
Definition config : SimConfig (F := float) :=
  {| si_sample_rate := 1; si_block_size := 4; si_tone_range := (num_of_Z 450, num_of_Z 950);
     si_wpm_range := (num_of_Z 20, num_of_Z 20); si_amplitude_range := (num_of_Z 1, num_of_Z 1);
     si_idle_range_s := (num_of_Z 5, num_of_Z 5); si_messages := [u "E"]; si_duration_s := None |}.
Definition uniform (lo hi : float) (w : unit) : float * unit := (lo, w).
Definition choice (l : list pystr) (w : unit) : pystr * unit := (default [] (head l), w).
Definition integer (w : unit) : Z * unit := (0, w).
Definition normal (scale : float) (n : Z) (w : unit) : list float * unit :=
  (repeat (num_of_Z 0) (Z.to_nat n), w).
Definition ramp (n : Z) : list float := [].
Definition room (n : Z) : bool := true.
Definition modulate (a : float) (env : list float) (tone : float) (fs : Z) (snr : option float) :
    option (list float) := Some (repeat (num_of_Z 7) 3).
Definition on : Knob (F := float) := {| kb_noise_level := num_of_Z 0; kb_paused_signals := false |}.
Definition off : Knob (F := float) := {| kb_noise_level := num_of_Z 0; kb_paused_signals := true |}.
Definition play (knobs : list (Knob (F := float))) :=
  s ← new_source uniform config tt;
  blocks uniform choice integer normal room ramp modulate config knobs s.
End BandDemo.

Lemma demo_normal_length scale n w : 0 <= n -> zlen (BandDemo.normal scale n w).1 = n.
Proof. intros Hn. unfold zlen. cbn. rewrite repeat_length. lia. Qed.

Example truth_on_air_witness :
  exists s out ns, BandDemo.play [BandDemo.on; BandDemo.on; BandDemo.on] = Some (s, out, ns)
    /\ in_turn (sb_log s) /\ zlen out = 12 /\ truth s = u "E".
Proof.
  destruct (new_source BandDemo.uniform BandDemo.config tt) as [s0|] eqn:E0; [|discriminate E0].
  assert (match BandDemo.play [BandDemo.on; BandDemo.on; BandDemo.on] with
          | Some (s, _, _) => sb_pos s = 12 /\ truth s = u "E" | None => False end) as P
    by (vm_compute; split; reflexivity).
  destruct (BandDemo.play [BandDemo.on; BandDemo.on; BandDemo.on]) as [[[s out] ns]|] eqn:E; [|destruct P].
  destruct P as [P1 P2]. unfold BandDemo.play in E. rewrite E0 in E.
  pose proof (truth_on_air BandDemo.uniform BandDemo.choice BandDemo.integer BandDemo.normal BandDemo.room
    BandDemo.ramp BandDemo.modulate BandDemo.config demo_normal_length ltac:(vm_compute; reflexivity)
    ltac:(intros [] n [= <-]; vm_compute; discriminate) tt [BandDemo.on; BandDemo.on; BandDemo.on] s0 s out ns) as T.
  specialize (T ltac:(repeat constructor) E0 E). destruct T as (T1 & T2 & _). exists s, out, ns.
  split; [reflexivity|]. split; [exact T1|]. rewrite <- T2. split; [exact P1|exact P2].
Defined.

(** A station whose turn comes while the signals are paused is scheduled, once
    they resume, at a time that has passed: it is logged, and [truth] claims it,
    although not one sample of it is heard. *)
Lemma paused_station_claimed :
  match BandDemo.play [BandDemo.off; BandDemo.off; BandDemo.off; BandDemo.on] with
  | Some (s, out, _) => truth s = u "E" /\ Forall (fun x => x = num_of_Z 0) out
  | None => False
  end.
Proof. vm_compute. split; [reflexivity|repeat constructor]. Qed.
