(* ===== verification/Services.v ===== *)
(** * services.py and models.py: one engine pass per stored session

    Composing, practising and recording run the synthesizer and the decoder
    and keep what a replay needs; the audio itself is regenerated on demand, and comes back as it was. *)
From Stdlib Require Import QArith.
From S2P Require Import Prelude PyFloat PyStr Events Morse Decoder Bridge Live.
Open Scope Z_scope.

Inductive Direction := RECEIVED | SENT.
Inductive Source := SYNTH | WAV | TEXT | LIVE.
#[export] Instance direction_eq_dec : EqDecision Direction.
Proof. solve_decision. Defined.
#[export] Instance source_eq_dec : EqDecision Source.
Proof. solve_decision. Defined.

Section Sessions.
Context {S F : Type} `{Num F} `{Numpy S F}.

Record CWSession := {
  cs_user : Z;
  cs_direction : Direction;
  cs_source : Source;
  cs_text : pystr;
  cs_truth : pystr;
  cs_wpm : F;
  cs_tone_hz : F;
  cs_snr_db : option F;
  cs_callsigns : list pystr;
  cs_telemetry : Live.Session F;
}.

#[global] Instance eta_session : Eta CWSession := fun s =>
  Build_CWSession (cs_user s) (cs_direction s) (cs_source s) (cs_text s) (cs_truth s) (cs_wpm s) (cs_tone_hz s)
    (cs_snr_db s) (cs_callsigns s) (cs_telemetry s).

Definition can_replay (s : CWSession) : bool :=
  match se_key_runs (cs_telemetry s) with [] => false | _ => true end.

Definition has_audio (s : CWSession) : bool := bool_decide (cs_source s ∈ [SYNTH; TEXT]).

Definition matches (got want : pystr) : Z :=
  zlen (List.filter (fun p => p.1 =? p.2) (zip got want)).

Definition accuracy (s : CWSession) : option F :=
  match cs_truth s with
  | [] => None
  | _ =>
      let want := upper (cs_truth s) in
      match want with
      | [] => None
      | _ => Some (num_div (num_of_Z (matches (cs_text s) want)) (num_of_Z (zlen want)))
      end
  end.

(** numpy's ramps and modulation, as in [Synth]; the noise is seeded, so the
    modulation is a function. *)
Context (np_room : Z -> bool) (np_ramp : Z -> list F)
  (np_modulate : F -> list F -> F -> Z -> option F -> option (list S)).

(** [synthesize_cw(text, wpm=..., tone_hz=..., sample_rate=8000, snr_db=...)] *)
Definition synth_8k (text : pystr) (wpm tone_hz : F) (snr_db : option F) : option (SynthResult F (list S)) :=
  synthesize_cw np_room np_ramp np_modulate text wpm tone_hz 8000 snr_db (num_of_Z 5) (lit 7 10) (num_of_Z 60).

Definition tone_config (tone_hz : F) : CWConfig F := default_config <| Decoder.tone_hz := tone_hz |>.

(** [None] where the synthesis raises, or the decoder cannot be built for the
    configuration. *)
Definition decode_practice (user : Z) (text : pystr) (wpm tone_hz : F) (snr_db : option F) : option CWSession :=
  synth ← synth_8k text wpm tone_hz snr_db;
  result ← decode_array (sy_audio _ synth) (sy_sample_rate _ synth) (tone_config tone_hz);
  Some {| cs_user := user; cs_direction := RECEIVED; cs_source := SYNTH;
          cs_text := r_text result; cs_truth := sy_text _ synth;
          cs_wpm := wpm; cs_tone_hz := tone_hz; cs_snr_db := snr_db;
          cs_callsigns := extract_callsigns (r_text result);
          cs_telemetry := session_from_result result (sy_text _ synth) 6000 |}.

Definition RECORDING_SQUELCH_DB : F := lit 45 10.

(** [audio] and its rate are what [load_audio] reads from the upload. *)
Definition decode_recording (user : Z) (audio : list S) (sample_rate : Z) (tone_hz : option F) (squelch : F) :
    option CWSession :=
  let tone := match tone_hz with
              | Some t => t
              | None => detect_tone audio sample_rate (num_of_Z 300) (num_of_Z 1200) (num_of_Z 30)
              end in
  result ← decode_array audio sample_rate (tone_config tone <| squelch_db := squelch |>);
  Some {| cs_user := user; cs_direction := RECEIVED; cs_source := WAV;
          cs_text := r_text result; cs_truth := [];
          cs_wpm := r_wpm_final result; cs_tone_hz := tone; cs_snr_db := None;
          cs_callsigns := extract_callsigns (r_text result);
          cs_telemetry := session_from_result result [] 6000 |}.

Definition compose_send (user : Z) (text : pystr) (wpm tone_hz : F) : option CWSession :=
  synth ← synth_8k text wpm tone_hz None;
  result ← decode_array (sy_audio _ synth) (sy_sample_rate _ synth) (tone_config tone_hz);
  Some {| cs_user := user; cs_direction := SENT; cs_source := TEXT;
          cs_text := sy_text _ synth; cs_truth := [];
          cs_wpm := wpm; cs_tone_hz := tone_hz; cs_snr_db := None;
          cs_callsigns := extract_callsigns (sy_text _ synth);
          cs_telemetry := session_from_result result (sy_text _ synth) 6000 |}.

Definition save_live_session (user : Z) (result : DecodeResult F) (tone_hz : F) : CWSession :=
  {| cs_user := user; cs_direction := RECEIVED; cs_source := LIVE;
     cs_text := r_text result; cs_truth := [];
     cs_wpm := r_wpm_final result; cs_tone_hz := tone_hz; cs_snr_db := None;
     cs_callsigns := extract_callsigns (r_text result);
     cs_telemetry := session_from_result result [] 6000 |}.

(** [x or default] on a float. *)
Definition float_or (x default : F) : F := if num_eqb x (num_of_Z 0) then default else x.

(** [None] is an exception: the ValueError of a session whose audio was never
    stored, or one of the synthesis for the numbers stored. *)
Definition session_audio_float (s : CWSession) : option (list S * Z) :=
  if negb (has_audio s) then None
  else
    let source_text := match cs_truth s with [] => cs_text s | t => t end in
    synth ← synth_8k source_text (float_or (cs_wpm s) (num_of_Z 20)) (cs_tone_hz s) (cs_snr_db s);
    Some (sy_audio _ synth, sy_sample_rate _ synth).

(** [to_wav] is the WAV container of [wav.py]. *)
Definition session_wav_bytes {B} (to_wav : list S -> Z -> B) (s : CWSession) : option B :=
  a ← session_audio_float s; Some (to_wav a.1 a.2).
End Sessions.
Arguments CWSession F : clear implicits.

(** * Sessions regenerated *)

Section Regenerated.
Context {S F : Type} `{Num F} `{Numpy S F}.
Context (np_room : Z -> bool) (np_ramp : Z -> list F)
  (np_modulate : F -> list F -> F -> Z -> option F -> option (list S)).
Local Notation synth := (synth_8k np_room np_ramp np_modulate).

(** The keyed copy is already upper case, so keying it again is the same. *)
Lemma synth_upper text (wpm tone : F) snr : synth (upper text) wpm tone snr = synth text wpm tone snr.
Proof. unfold synth_8k, synthesize_cw, segments, encode_text. by rewrite !upper_upper. Qed.

Lemma synth_fields text (wpm tone : F) snr sy :
  synth text wpm tone snr = Some sy -> sy_text _ sy = upper text /\ sy_sample_rate _ sy = 8000.
Proof.
  unfold synth_8k, synthesize_cw.
  by intros (segs & _ & (env & _ & (rise & _ & (audio & _ & [= <-])%bind_Some)%bind_Some)%bind_Some)%bind_Some.
Qed.

(** Pressing play, downloading or transmitting a composed or practised session
    yields, sample for sample, the audio that was keyed and decoded when the
    session was made: the stored text, speed, tone and noise level say it all,
    so the stored replay is a decoding of exactly that audio, and regenerating
    it does not raise. *)
Theorem audio_regenerated (user : Z) (text : pystr) (wpm tone : F) (snr : option F) (s : CWSession F) :
  text <> [] -> num_eqb wpm (num_of_Z 0) = false ->
  decode_practice np_room np_ramp np_modulate user text wpm tone snr = Some s
  \/ (snr = None /\ compose_send np_room np_ramp np_modulate user text wpm tone = Some s) ->
  exists sy result,
    synth text wpm tone snr = Some sy
    /\ session_audio_float np_room np_ramp np_modulate s = Some (sy_audio _ sy, 8000)
    /\ decode_array (sy_audio _ sy) 8000 (tone_config tone) = Some result
    /\ cs_telemetry s = session_from_result result (upper text) 6000
    /\ se_truth (cs_telemetry s) = upper text
    /\ can_replay s = negb (bool_decide (r_key_runs result = [])).
Proof.
  intros Ht Hw.
  assert (forall (s' : CWSession F) sy, synth text wpm tone snr = Some sy ->
    (cs_truth s' = upper text \/ (cs_truth s' = [] /\ cs_text s' = upper text)) ->
    has_audio s' = true -> cs_wpm s' = wpm -> cs_tone_hz s' = tone -> cs_snr_db s' = snr ->
    session_audio_float np_room np_ramp np_modulate s' = Some (sy_audio _ sy, 8000)) as Haudio.
  { intros s' sy Hsy Hsrc Ha Hwpm Htone Hsnr. unfold session_audio_float. rewrite Ha, Hwpm, Htone, Hsnr. cbn [negb].
    assert (match cs_truth s' with [] => cs_text s' | t => t end = upper text) as ->.
    { pose proof (upper_nonempty text Ht). destruct Hsrc as [->|[-> ->]]; [|done]. by destruct (upper text). }
    unfold float_or. rewrite Hw, synth_upper, Hsy. cbn. by destruct (synth_fields _ _ _ _ _ Hsy) as [_ ->]. }
  assert (forall result : DecodeResult F, se_truth (session_from_result result (upper text) 6000) = upper text
    /\ se_key_runs (session_from_result result (upper text) 6000) = r_key_runs result) as Hse.
  { intros result. unfold session_from_result. case_match. cbn. by rewrite upper_upper. }
  unfold decode_practice, compose_send. intros [E|[-> E]].
  all: apply bind_Some in E as (sy & Hsy & E); destruct (synth_fields _ _ _ _ _ Hsy) as [Htx Hr].
  all: rewrite Hr, Htx in E; apply bind_Some in E as (result & Hd & [= <-]); exists sy, result.
  all: destruct (Hse result) as [H1 H2].
  all: split_and!; [exact Hsy|apply Haudio; cbn; auto|exact Hd|done|exact H1|].
  all: unfold can_replay; cbn [cs_telemetry]; rewrite H2; by destruct (r_key_runs result).
Qed.
End Regenerated.

(** ** The practice score *)

Lemma matches_range got want : 0 <= matches got want <= zlen want.
Proof.
  unfold matches. split; [apply zlen_nonneg|].
  revert got. induction want as [|w want IH]; intros [|g got]; cbn; try apply zlen_nonneg; try done.
  rewrite (zlen_cons w). specialize (IH got). destruct (g =? w); rewrite ?zlen_cons; lia.
Qed.

Lemma matches_all got want : matches got want = zlen want <-> exists rest, got = want ++ rest.
Proof.
  unfold matches. revert got. induction want as [|w want IH]; intros got.
  { split; [intros _; by exists got|]. intros _. by destruct got. }
  destruct got as [|g got]; cbn [zip zip_with List.filter].
  { split; [|by intros [rest ?]]. rewrite (zlen_cons w). change (zlen (@nil (Z * Z))) with 0.
    pose proof (zlen_nonneg want). lia. }
  cbn [fst snd]. rewrite (zlen_cons w). pose proof (matches_range got want) as Hr. unfold matches in Hr.
  destruct (Z.eqb_spec g w) as [->|Hne].
  - rewrite zlen_cons. specialize (IH got). split.
    + intros Heq. destruct (proj1 IH) as [rest ->]; [unfold zip in *; lia|]. by exists rest.
    + intros [rest [= ->]]. rewrite (proj2 IH); [done|]. by exists rest.
  - split; [unfold zip in *; lia|]. intros [rest [= -> _]]. done.
Qed.

(** The accuracy shown for a practice session is a fraction between 0 and 1,
    and it is 1 exactly when the decoded copy starts with the whole of the
    keyed text; a session without ground truth has none. *)
Theorem accuracy_bounds (s : CWSession Q) :
  (accuracy s = None <-> cs_truth s = [])
  /\ forall a, accuracy s = Some a ->
       (0 <= a <= 1)%Q /\ ((a == 1)%Q <-> exists rest, cs_text s = upper (cs_truth s) ++ rest).
Proof.
  unfold accuracy. destruct (cs_truth s) as [|c t] eqn:Et; [done|].
  pose proof (upper_nonempty (c :: t) ltac:(done)) as Hne. destruct (upper (c :: t)) as [|d w]; [done|].
  split; [done|]. intros a [= <-]. pose proof (matches_range (cs_text s) (d :: w)) as Hr.
  pose proof (matches_all (cs_text s) (d :: w)) as Ha.
  assert (0 < zlen (d :: w)) as Hpos by (rewrite zlen_cons; pose proof (zlen_nonneg w); lia).
  generalize dependent (matches (cs_text s) (d :: w)). generalize dependent (zlen (d :: w)). intros n Hpos m Hr Ha.
  unfold num_of_Z. cbn. assert (0 < n # 1)%Q as Hq by (unfold Qlt; cbn; lia).
  split; [split|].
  - apply Qle_shift_div_l; [done|]. unfold Qle. cbn. lia.
  - apply Qle_shift_div_r; [done|]. unfold Qle. cbn. lia.
  - rewrite <- Ha. split.
    + intros Heq. assert ((m # 1) == (n # 1))%Q as Hmn.
      { rewrite <- (Qmult_1_l (n # 1)), <- Heq. field. intros H0. rewrite H0 in Hq. by apply Qlt_irrefl in Hq. }
      unfold Qeq in Hmn. cbn in Hmn. lia.
    + intros ->. field. intros H0. rewrite H0 in Hq. by apply Qlt_irrefl in Hq.
Qed.

(** ** A concrete message *)

Module SessionDemo.
#[local] Instance numpy : Numpy float float := {|
  np_scale := fun _ x => x;
  np_bin := fun _ _ block => default (num_of_Z 0) (head block);
  np_log10 := fun x => x;
  np_rfft_mag := fun _ => [];
  np_rfftfreq := fun _ _ => [];
  np_rms := fun _ => num_of_Z 0;
|}.
Definition ramp (n : Z) : list float := [].
Definition room (n : Z) : bool := n <? 2 ^ 40.
(** The noise of [snr] decibels: [10 ** (snr / 10)] overflows above 3082. *)
Definition modulate (a : float) (env : list float) (tone : float) (fs : Z) (snr : option float) :
    option (list float) :=
  match snr with Some db => if num_of_Z 3082 <? db then None else Some env | None => Some env end%num.
Definition sent : option (CWSession float) := compose_send room ramp modulate 1 (u "e") (num_of_Z 20) (num_of_Z 600).
End SessionDemo.

Theorem audio_regenerated_witness :
  exists s sy, SessionDemo.sent = Some s /\ cs_text s = u "E" /\ can_replay s = true
    /\ synth_8k SessionDemo.room SessionDemo.ramp SessionDemo.modulate (u "e") (num_of_Z 20) (num_of_Z 600) None = Some sy
    /\ session_audio_float SessionDemo.room SessionDemo.ramp SessionDemo.modulate s = Some (sy_audio _ sy, 8000).
Proof.
  assert (match SessionDemo.sent with Some s => bool_decide (cs_text s = u "E") && can_replay s | None => false end = true) as Hs
    by (vm_compute; reflexivity).
  destruct SessionDemo.sent as [s|] eqn:E; [|discriminate Hs].
  apply andb_true_iff in Hs as [Ht Hr]. apply bool_decide_eq_true in Ht.
  destruct (audio_regenerated (H0 := SessionDemo.numpy) SessionDemo.room SessionDemo.ramp SessionDemo.modulate 1 (u "e")
    (num_of_Z 20) (num_of_Z 600) None s ltac:(discriminate) ltac:(vm_compute; reflexivity)
    (or_intror (conj eq_refl E))) as (sy & r & T1 & T2 & _).
  exists s, sy. split; [reflexivity|]. split; [exact Ht|]. split; [exact Hr|]. split; [exact T1|exact T2].
Defined.
