(* ===== verification/Station.v ===== *)
(** * api.py, services.py and models.py: the operator's settings and the rig panel

    What the station knows about its operator (callsign, keying speed and
    tone), the live knobs of a running decoder, and the endpoints that drive
    the rig through [Rig], [RigDaemon] and the stored sessions. *)
From S2P Require Import Prelude PyFloat PyStr Json Events Decoder Rig RigDaemon Simulate Services.
From Stdlib Require Import SpecFloat.
Open Scope Z_scope.

(** ** The operator's rig row ([CWRig]) *)

Record CWRig := {
  cr_callsign : pystr;
  cr_send_wpm : Z;
  cr_send_tone_hz : Z;
  cr_enabled : bool;
  cr_host : pystr;
  cr_port : Z;
  cr_use_ptt : bool;
  cr_rig_model : option Z;
  cr_serial_port : pystr;
  cr_baud : Z;
  cr_audio_output : pystr;
  cr_ptt_lead_ms : Z;
}.
#[export] Instance eta_cwrig : Eta CWRig := fun r =>
  Build_CWRig (cr_callsign r) (cr_send_wpm r) (cr_send_tone_hz r) (cr_enabled r) (cr_host r) (cr_port r)
    (cr_use_ptt r) (cr_rig_model r) (cr_serial_port r) (cr_baud r) (cr_audio_output r)
    (cr_ptt_lead_ms r).

Definition default_rig : CWRig :=
  {| cr_callsign := []; cr_send_wpm := 20; cr_send_tone_hz := 600; cr_enabled := false;
     cr_host := u "127.0.0.1"; cr_port := 4532; cr_use_ptt := true; cr_rig_model := None;
     cr_serial_port := []; cr_baud := 115200; cr_audio_output := []; cr_ptt_lead_ms := 150 |}.

(** [get_or_create] *)
Definition rig_row (rig : option CWRig) : CWRig := default default_rig rig.

Definition station_callsign (rig : option CWRig) (username : pystr) : pystr :=
  let call := from_option cr_callsign [] rig in
  upper (if nonempty call then call else username).

Record Defaults := { df_call : pystr; df_wpm : Z; df_tone_hz : Z }.
Definition station_defaults (rig : option CWRig) (username : pystr) : Defaults :=
  {| df_call := station_callsign rig username;
     df_wpm := from_option cr_send_wpm 20 rig;
     df_tone_hz := from_option cr_send_tone_hz 600 rig |}.

Definition FALLBACK_STREAM_SERVER : pystr := u "http://127.0.0.1:8005".

(** [settings] gives the text of a setting, empty without one. *)
Definition default_stream_server (settings : pystr -> pystr) : pystr :=
  let candidate name :=
    let value := strip (settings name) in
    if startswith value (u "http://") || startswith value (u "https://")
    then Some (rstrip_chars (u "/") value) else None in
  default FALLBACK_STREAM_SERVER (head (omap candidate [u "SITE_URL"; u "SMALLSTACK_SITE_URL"; u "BASE_URL"])).

Section StationConfig.
Context (repr : json -> pystr).

Definition config_callsign (d : jobj) (rig : CWRig) : result Failure CWRig :=
  match jget (u "callsign") d with
  | None => Ok rig
  | Some j =>
      let call := upper (strip (jstr repr j)) in
      if 20 <? zlen call then Err (ApiError (u "Callsign too long (20 chars max)") 400)
      else Ok (rig <| cr_callsign := call |>)
  end.

Definition config_int (key not_a_number : pystr) (lo hi : Z) (out_of_range : pystr) (d : jobj) : result Failure (option Z) :=
  match jget key d with
  | None => Ok None
  | Some j =>
      n ← or_error (ApiError not_a_number 400) (jint j);
      if negb ((lo <=? n) && (n <=? hi)) then Err (ApiError out_of_range 400) else Ok (Some n)
  end.

Definition config_wpm (d : jobj) (rig : CWRig) : result Failure CWRig :=
  n ← config_int (u "wpm") (u "wpm must be a number") 5 60 (u "wpm must be 5–60") d;
  Ok (match n with Some n => rig <| cr_send_wpm := n |> | None => rig end).

Definition config_tone (d : jobj) (rig : CWRig) : result Failure CWRig :=
  n ← config_int (u "tone_hz") (u "tone_hz must be a number") 300 1200 (u "tone_hz must be 300–1200") d;
  Ok (match n with Some n => rig <| cr_send_tone_hz := n |> | None => rig end).

(** The POST: the row to save, or the failure that saves nothing. *)
Definition station_config (data : json) (rig : CWRig) : result Failure CWRig :=
  match data with
  | JObj d => rig ← config_callsign d rig; rig ← config_wpm d rig; config_tone d rig
  | _ => Err (ApiError (u "Expected a JSON object") 400)
  end.
End StationConfig.

(** ** The live knobs ([CWSimControl]) *)

Record CWSimControl := {
  sc_noise_level : float;
  sc_input_gain : float;
  sc_squelch_db : float;
  sc_afc : float;
  sc_paused_signals : float;
}.
#[export] Instance eta_simcontrol : Eta CWSimControl := fun c =>
  Build_CWSimControl (sc_noise_level c) (sc_input_gain c) (sc_squelch_db c) (sc_afc c) (sc_paused_signals c).

(** Both switches are kept as the number they were posted as; [True] is 1. *)
Definition fresh_control : CWSimControl :=
  {| sc_noise_level := lit 8 100; sc_input_gain := num_of_Z 1; sc_squelch_db := num_of_Z 3;
     sc_afc := num_of_Z 1; sc_paused_signals := num_of_Z 0 |}.

Definition clamped (c : CWSimControl) : CWSimControl :=
  c <| sc_noise_level := clamp (sc_noise_level c) (num_of_Z 0) (lit 1 2) |>
    <| sc_input_gain := clamp (sc_input_gain c) (lit 1 10) (num_of_Z 10) |>
    <| sc_squelch_db := clamp (sc_squelch_db c) (num_of_Z 0) (num_of_Z 12) |>.

(** [isinstance(value, (int, float, bool))]. An integer beyond the doubles
    compares with the bounds as an infinity does. *)
Definition knob_value (j : json) : option float :=
  match j with
  | JBool b => Some (num_of_Z (if b then 1 else 0))
  | JInt n => Some (float_ratio n 1)
  | JFloat x => Some x
  | _ => None
  end.

Definition set_knob (name : pystr) (set : float -> CWSimControl -> CWSimControl) (d : jobj) (c : CWSimControl) :
    result Failure CWSimControl :=
  match jget name d with
  | None => Ok c
  | Some j =>
      match knob_value j with
      | None => Err (ApiError (name ++ u " must be a number or boolean") 400)
      | Some x => Ok (set x c)
      end
  end.

(** A BooleanField takes 0 and 1 and nothing else of the numbers. *)
Definition is_switch (x : float) : bool := num_eqb x (num_of_Z 0) || num_eqb x (num_of_Z 1).

(** [save()]; [nan_ok] says whether the database stores a NaN (SQLite makes it
    NULL, which the column refuses). *)
Definition save_control (nan_ok : bool) (c : CWSimControl) : result Failure CWSimControl :=
  let nan := float_is_nan (sc_noise_level c) || float_is_nan (sc_input_gain c) || float_is_nan (sc_squelch_db c) in
  if negb (is_switch (sc_afc c)) || negb (is_switch (sc_paused_signals c)) || (nan && negb nan_ok)
  then Err Uncaught else Ok c.

Definition sim_control (nan_ok : bool) (data : json) (c : CWSimControl) : result Failure CWSimControl :=
  match data with
  | JObj d =>
      c ← set_knob (u "noise_level") (fun x c => c <| sc_noise_level := x |>) d c;
      c ← set_knob (u "input_gain") (fun x c => c <| sc_input_gain := x |>) d c;
      c ← set_knob (u "squelch_db") (fun x c => c <| sc_squelch_db := x |>) d c;
      c ← set_knob (u "afc") (fun x c => c <| sc_afc := x |>) d c;
      c ← set_knob (u "paused_signals") (fun x c => c <| sc_paused_signals := x |>) d c;
      save_control nan_ok (clamped c)
  | _ => Err (ApiError (u "Expected a JSON object") 400)
  end.

(** The configuration a running decoder gets, and the knobs of a simulated
    band beside it. *)
Definition apply_receiver_controls (control : option CWSimControl) (cfg : CWConfig float) (knob : Knob (F := float)) :
    CWConfig float * Knob (F := float) :=
  match control with
  | None => (cfg, knob)
  | Some c =>
      let c := clamped c in
      (cfg <| input_gain := sc_input_gain c |> <| squelch_db := sc_squelch_db c |>
           <| afc := num_eqb (sc_afc c) (num_of_Z 1) |>,
       {| kb_noise_level := sc_noise_level c; kb_paused_signals := num_eqb (sc_paused_signals c) (num_of_Z 1) |})
  end.

(** ** The rig panel *)

Definition VALID_MODES : list pystr :=
  [u "CW"; u "CWR"; u "USB"; u "LSB"; u "AM"; u "FM"; u "RTTY"; u "PKTUSB"; u "PKTLSB"].

(** [min(max(int(x or default), lo), hi)]: the port and the PTT lead. *)
Definition int_setting (posted : option json) (current default lo hi : Z) : result Failure Z :=
  n ← match posted with
      | None => Ok (if current =? 0 then default else current)
      | Some j => if jtruthy j then unguarded (jint j) else Ok default
      end;
  Ok (Z.min (Z.max n lo) hi).

Section Panel.
Context {R : Type} (dial : R -> bool) (serve : pystr -> R -> option (list chunk) * R).
Context (repr : json -> pystr).
(** The text of a rig error, and of an [int] that failed. *)
Context (rig_message : RigErr -> pystr) (bad_int : json -> pystr).

(** One client call inside the [try]: a rig error is the answer, anything
    else goes through. *)
Definition rig_call (m : IO (R := R) unit) (s : Client * Link R) : result Failure unit * (Client * Link R) :=
  let '(r, s) := m s in
  (match r with
   | Ok _ => Ok tt
   | Err RigCrash => Err Uncaught
   | Err e => Err (ApiError (rig_message e) 502)
   end, s).

Definition cat_freq (d : jobj) (s : Client * Link R) : result Failure unit * (Client * Link R) :=
  let j := jget_null (u "freq_hz") d in
  if jtruthy j then
    match jint j with
    | Ok hz => rig_call (set_freq dial serve hz) s
    | Err TypeOrValueError =>
        (* a ValueError is caught with the rig's; the type error of a list is not *)
        (match j with JArr _ | JObj _ => Err Uncaught | _ => Err (ApiError (bad_int j) 502) end, s)
    | Err OverflowError => (Err Uncaught, s)
    end
  else (Ok tt, s).

Definition cat_mode (d : jobj) (s : Client * Link R) : result Failure unit * (Client * Link R) :=
  let j := jget_null (u "mode") d in
  if jtruthy j then
    let mode := upper (jstr repr j) in
    if bool_decide (mode ∈ VALID_MODES) then rig_call (set_mode dial serve mode 0) s
    else (Err (ApiError (u "Unknown mode '" ++ mode ++ u "'") 400), s)
  else (Ok tt, s).

(** The CAT commands of a POST: connect, tune, set the mode, hang up. *)
Definition rig_cat (d : jobj) (l : Link R) : result Failure unit * Link R :=
  let '(r, s) := rig_call (connect dial) (new_client, l) in
  let '(r, s) := match r with Ok _ => cat_freq d s | Err e => (Err e, s) end in
  let '(r, s) := match r with Ok _ => cat_mode d s | Err e => (Err e, s) end in
  (r, (close s).2).

Definition wants_cat (d : jobj) : bool :=
  bool_decide (is_Some (jget (u "freq_hz") d)) || bool_decide (is_Some (jget (u "mode") d)).

(** The switch and text columns, as the database layer reads what was posted
    ([None]: it raises). *)
Context (to_bool : json -> option bool) (to_text : json -> option pystr).

Definition column_of {A} (conv : json -> option A) (key : pystr) (set : A -> CWRig -> CWRig) (d : jobj) (r : CWRig) :
    result Failure CWRig :=
  match jget key d with
  | None => Ok r
  | Some j => match conv j with Some a => Ok (set a r) | None => Err Uncaught end
  end.

Definition rig_save (d : jobj) (config : CWRig) : result Failure CWRig :=
  port ← int_setting (jget (u "port") d) (cr_port config) 4532 1 65535;
  lead ← int_setting (jget (u "ptt_lead_ms") d) (cr_ptt_lead_ms config) 0 0 2000;
  config ← column_of to_bool (u "enabled") (fun b r => r <| cr_enabled := b |>) d config;
  config ← column_of to_text (u "host") (fun h r => r <| cr_host := h |>) d config;
  config ← column_of to_bool (u "use_ptt") (fun b r => r <| cr_use_ptt := b |>) d config;
  config ← column_of to_text (u "audio_output") (fun a r => r <| cr_audio_output := a |>) d config;
  Ok (config <| cr_port := port |> <| cr_ptt_lead_ms := lead |>).

(** What [config.enabled] is after the POST's [setattr], before any reload. *)
Definition enabled_now (d : jobj) (config : CWRig) : bool :=
  match jget (u "enabled") d with Some j => jtruthy j | None => cr_enabled config end.

Definition rig_post (data : json) (config : CWRig) (l : Link R) : result Failure CWRig * CWRig * Link R :=
  match data with
  | JObj d =>
      match rig_save d config with
      | Err e => (Err e, config, l)
      | Ok saved =>
          if enabled_now d config && wants_cat d then
            let '(r, l) := rig_cat d l in
            (match r with Ok _ => Ok saved | Err e => Err e end, saved, l)
          else (Ok saved, saved, l)
      end
  | _ => (Err (ApiError (u "Expected a JSON object") 400), config, l)
  end.

(** ** Transmitting a stored session ([rig_tx]) *)

Context {S F : Type} `{Num F} `{Numpy S F}.
Context (np_room : Z -> bool) (np_ramp : Z -> list F)
  (np_modulate : F -> list F -> F -> Z -> option F -> option (list S)).
(** The sound device's reading of the samples, and whether playing them with
    the rig in this state ends normally. *)
Context (pcm : list S -> list Z) (player : list Z -> R -> bool).
Context (pk_of : json -> option Z) (refused : TxRefused -> pystr).

Definition tx_session (pk : Z) (s : CWSession F) : TxSession :=
  {| ts_pk := pk; ts_has_audio := has_audio s;
     ts_audio := (fun a => pcm a.1) <$> session_audio_float np_room np_ramp np_modulate s |}.

Definition rig_of (r : CWRig) : RigConfig := {| rg_use_ptt := cr_use_ptt r; rg_ptt_lead_ms := cr_ptt_lead_ms r |}.

(** [sessions] are the stored sessions with their keys, of every operator. *)
Definition session_of (sessions : list (Z * CWSession F)) (user pk : Z) : option (CWSession F) :=
  snd <$> List.find (fun x => (x.1 =? pk) && (cs_user x.2 =? user)) sessions.

Definition rig_tx (user : Z) (rig : option CWRig) (sessions : list (Z * CWSession F)) (data : json) (tx : Tx)
    (l : Link R) : result Failure unit * Tx * Link R :=
  match rig with
  | Some config =>
      if negb (cr_enabled config)
      then (Err (ApiError (u "No rig configured — enable it on the Live page first.") 400), tx, l)
      else
        match data with
        | JObj d =>
            let id := jget_null (u "session_id") d in
            if negb (jtruthy id) then (Err (ApiError (u "session_id is required") 400), tx, l)
            else
              match pk_of id with
              | None => (Err Uncaught, tx, l)
              | Some pk =>
                  match session_of sessions user pk with
                  | None => (Err (ApiError (u "No such session") 404), tx, l)
                  | Some s =>
                      match transmit_session dial serve player (rig_of config) (tx_session pk s) tx l with
                      | (Ok _, tx, l) => (Ok tt, tx, l)
                      | (Err AudioRaised, tx, l) => (Err Uncaught, tx, l)
                      | (Err e, tx, l) => (Err (ApiError (refused e) 409), tx, l)
                      end
                  end
              end
        | _ => (Err (ApiError (u "session_id is required") 400), tx, l)
        end
  | None => (Err (ApiError (u "No rig configured — enable it on the Live page first.") 400), tx, l)
  end.
End Panel.

(** ** The managed daemon ([rig_daemon]) *)

Section DaemonEndpoint.
Context (daemon_message : DaemonErr -> pystr).

(** [(data.get("serial_port") or "").strip()]: only a string has [strip]. *)
Definition posted_port (d : jobj) : result Failure pystr :=
  let j := jget_null (u "serial_port") d in
  if jtruthy j then match j with JStr s => Ok (strip s) | _ => Err Uncaught end else Ok [].

(** [data.get("baud") or None], through [int] on the way in. *)
Definition posted_baud (d : jobj) : result Failure (option Z) :=
  let j := jget_null (u "baud") d in
  if jtruthy j then b ← unguarded (jint j); Ok (Some b) else Ok None.

Definition rig_daemon_start (h : Host) (d : jobj) (rig : option CWRig) (dm : Daemon) :
    result Failure unit * option CWRig * Daemon :=
  match or_error (ApiError (u "A rig model number is required (try the dummy rig, model 1)") 400)
          (jint (default (JStr []) (jget (u "model") d))) with
  | Err e => (Err e, rig, dm)
  | Ok model =>
      match posted_port d with
      | Err e => (Err e, rig, dm)
      | Ok serial_port =>
          match posted_baud d with
          | Err e => (Err e, rig, dm)
          | Ok baud =>
              match RigDaemon.start h model serial_port baud 4532 dm with
              | (Err SpawnRaised, dm) => (Err Uncaught, rig, dm)
              | (Err e, dm) => (Err (ApiError (daemon_message e) 409), rig, dm)
              | (Ok _, dm) =>
                  let config := rig_row rig <| cr_enabled := true |> <| cr_host := u "127.0.0.1" |>
                    <| cr_port := from_option sp_tcp_port 0 (dm_spec dm) |> <| cr_rig_model := Some model |>
                    <| cr_serial_port := serial_port |> in
                  (Ok tt, Some (match baud with Some b => config <| cr_baud := b |> | None => config end), dm)
              end
          end
      end
  end.

Definition rig_daemon (h : Host) (data : json) (rig : option CWRig) (dm : Daemon) :
    result Failure unit * option CWRig * Daemon :=
  match data with
  | JObj d =>
      match jget_null (u "action") d with
      | JStr a =>
          if str_eqb a (u "stop") then (Ok tt, rig, RigDaemon.stop dm)
          else if str_eqb a (u "start") then rig_daemon_start h d rig dm
          else (Err (ApiError (u "action must be 'start' or 'stop'") 400), rig, dm)
      | _ => (Err (ApiError (u "action must be 'start' or 'stop'") 400), rig, dm)
      end
  | _ => (Err (ApiError (u "Expected a JSON object") 400), rig, dm)
  end.
End DaemonEndpoint.
