(* ===== verification/StationFacts.v ===== *)
(** * Settings within their bounds, and a rig panel that says only what it may *)
From S2P Require Import Prelude PyFloat PyStr Json Events Decoder Rig RigDaemon Simulate Services Station.
From Stdlib Require Import SpecFloat.
Open Scope Z_scope.

(** Literals stay folded in the case analyses below. *)
#[local] Opaque u.

(** ** Station settings *)

Record settings_ok (r : CWRig) : Prop := {
  so_wpm : 5 <= cr_send_wpm r <= 60;
  so_tone : 300 <= cr_send_tone_hz r <= 1200;
  so_call : zlen (cr_callsign r) <= 20;
  so_upper : upper (cr_callsign r) = cr_callsign r;
}.

(** The rest of the row, which these settings leave alone. *)
Definition rest_of (r : CWRig) : CWRig := r <| cr_callsign := [] |> <| cr_send_wpm := 0 |> <| cr_send_tone_hz := 0 |>.

Lemma config_int_range key m lo hi m' d n : config_int key m lo hi m' d = Ok (Some n) -> lo <= n <= hi.
Proof.
  unfold config_int. destruct (jget key d) as [j|]; [|done]. destruct (or_error _ _) as [k|]; cbn; [|done].
  case_match eqn:E; [done|]. intros [= <-]. bool_to_prop. lia.
Qed.

Lemma station_config_spec repr data r r' :
  settings_ok r -> station_config repr data r = Ok r' -> settings_ok r' /\ rest_of r' = rest_of r.
Proof.
  intros Hr. unfold station_config. destruct data as [| | | | | |d]; try done.
  destruct (config_callsign repr d r) as [r1|] eqn:E1; cbn; [|done].
  assert (settings_ok r1 /\ rest_of r1 = rest_of r) as [H1 K1].
  { unfold config_callsign in E1. destruct (jget _ d) as [j|]; [|by injection E1 as <-].
    case_match eqn:Hl; [done|]. injection E1 as <-. destruct Hr. bool_to_prop. split; [|done].
    split; cbn; try done. apply upper_upper. }
  unfold config_wpm, config_tone.
  destruct (config_int (u "wpm") _ _ _ _ d) as [w|] eqn:E2; cbn; [|done].
  destruct (config_int (u "tone_hz") _ _ _ _ d) as [t|] eqn:E3; cbn; [|done]. intros [= <-].
  destruct H1. destruct w as [w|], t as [t|]; try apply config_int_range in E2; try apply config_int_range in E3;
    (split; [split; cbn; done|exact K1]).
Qed.

(** The row after any POSTs to the settings endpoint, the refused ones
    included. *)
Definition configured (repr : json -> pystr) (posts : list json) (r : CWRig) : CWRig :=
  foldl (fun r data => match station_config repr data r with Ok r' => r' | Err _ => r end) r posts.

(** Whatever is posted to the station settings, in whatever order and shape:
    the keying speed stays within 5 and 60 words a minute, the tone within 300
    and 1200 Hz, the callsign within 20 characters and in capitals, and the
    rig connection kept in the same row is not touched. A page seeded from the
    row shows exactly these values, with the callsign resolved to the stored
    one or to the user name. *)
Theorem settings_bounded (repr : json -> pystr) (posts : list json) (username : pystr) :
  let r := configured repr posts default_rig in
  settings_ok r /\ rest_of r = rest_of default_rig
  /\ station_defaults (Some r) username
     = {| df_call := if nonempty (cr_callsign r) then cr_callsign r else upper username;
          df_wpm := cr_send_wpm r; df_tone_hz := cr_send_tone_hz r |}.
Proof.
  cbn zeta. set (r := configured _ _ _).
  assert (settings_ok r /\ rest_of r = rest_of default_rig) as [Hok Hrest].
  { subst r. unfold configured. cut (forall r, settings_ok r -> rest_of r = rest_of default_rig ->
      settings_ok (foldl (fun r data => match station_config repr data r with Ok r' => r' | Err _ => r end) r posts)
      /\ rest_of (foldl (fun r data => match station_config repr data r with Ok r' => r' | Err _ => r end) r posts)
         = rest_of default_rig); [intros H; apply H; [|done]; split; cbn; (done || lia)|].
    induction posts as [|data posts IH]; intros r Hr Hd; [done|]. cbn [foldl].
    destruct (station_config repr data r) as [r'|] eqn:E; [|by apply IH].
    destruct (station_config_spec _ _ _ _ Hr E) as [? H]. apply IH; congruence. }
  split_and!; [done..|]. unfold station_defaults, station_callsign. cbn [from_option].
  destruct (nonempty (cr_callsign r)); [|done]. by rewrite (so_upper r Hok).
Qed.

(** ** The live knobs *)

Definition numbers (c : CWSimControl) : Prop :=
  float_is_nan (sc_noise_level c) = false /\ float_is_nan (sc_input_gain c) = false
  /\ float_is_nan (sc_squelch_db c) = false.

Definition turned (posts : list json) (c : CWSimControl) : CWSimControl :=
  foldl (fun c data => match sim_control false data c with Ok c' => c' | Err _ => c end) c posts.

Lemma save_control_numbers c c' : save_control false c = Ok c' -> c' = c /\ numbers c'.
Proof.
  unfold save_control. case_match eqn:E; [done|]. intros [= <-]. rewrite andb_true_r in E.
  bool_to_prop. repeat match goal with H : _ || _ = false |- _ => apply orb_false_iff in H as [? ?] end. done.
Qed.

Lemma sim_control_numbers data c c' : sim_control false data c = Ok c' -> numbers c'.
Proof.
  unfold sim_control. destruct data as [| | | | | |d]; try done.
  repeat match goal with |- context [set_knob ?n ?f ?d ?c] => destruct (set_knob n f d c); cbn [mbind result_bind]; [|done] end.
  intros [_ H]%save_control_numbers. done.
Qed.

(** With a database that refuses NaN, as SQLite does: after any sequence of
    knob posts, a running decoder polling the row gets an input gain between
    0.1 and 10 and a squelch between 0 and 12 dB, a simulated band gets a
    noise level between 0 and 0.5, and nothing else of the decoder's
    configuration changes. *)
Theorem knobs_bounded (posts : list json) (cfg cfg' : CWConfig float) (knob knob' : Knob (F := float)) :
  apply_receiver_controls (Some (turned posts fresh_control)) cfg knob = (cfg', knob') ->
  SFleb (lit 1 10) (input_gain cfg') = true /\ SFleb (input_gain cfg') (num_of_Z 10) = true
  /\ SFleb (num_of_Z 0) (squelch_db cfg') = true /\ SFleb (squelch_db cfg') (num_of_Z 12) = true
  /\ SFleb (num_of_Z 0) (kb_noise_level knob') = true /\ SFleb (kb_noise_level knob') (lit 1 2) = true
  /\ cfg' <| input_gain := input_gain cfg |> <| squelch_db := squelch_db cfg |> <| afc := afc cfg |> = cfg.
Proof.
  assert (numbers (turned posts fresh_control)) as (Hn & Hg & Hs).
  { unfold turned. assert (numbers fresh_control) as H by (split_and!; vm_compute; reflexivity).
    revert H. generalize fresh_control as c. induction posts as [|data posts IH]; intros c Hc; [done|].
    cbn [foldl]. apply IH. destruct (sim_control false data c) eqn:E; [|done]. by eapply sim_control_numbers. }
  generalize dependent (turned posts fresh_control). intros c Hn Hg Hs [= <- <-].
  destruct (clamp_range (lit 1 10) (num_of_Z 10) (sc_input_gain c)) as [G1 G2]; [vm_compute; reflexivity|exact Hg|].
  destruct (clamp_range (num_of_Z 0) (num_of_Z 12) (sc_squelch_db c)) as [S1 S2]; [vm_compute; reflexivity|exact Hs|].
  destruct (clamp_range (num_of_Z 0) (lit 1 2) (sc_noise_level c)) as [N1 N2]; [vm_compute; reflexivity|exact Hn|].
  split_and!; [exact G1|exact G2|exact S1|exact S2|exact N1|exact N2|by destruct cfg].
Qed.

(** A NaN, which a JSON body can hold, goes through [clamped] unchanged. *)
Lemma nan_passes_clamped c :
  sc_input_gain c = S754_nan -> sc_input_gain (clamped c) = S754_nan.
Proof. destruct c as [n g s a p]. cbn [sc_input_gain]. intros ->. vm_compute. reflexivity. Qed.

(** ** The rig panel *)

Section PanelFacts.
Context {R : Type} (dial : R -> bool) (serve : pystr -> R -> option (list chunk) * R).
Context (repr : json -> pystr) (rig_message : RigErr -> pystr) (bad_int : json -> pystr).
Context (to_bool : json -> option bool) (to_text : json -> option pystr).
Implicit Types (l : Link R).

(** The command lines a CAT request may put on the wire: at most one [F] with
    a whole number, then at most one [M] with one of the nine modes. *)
Definition freq_line (acts : list (Act R)) : Prop := acts = [] \/ exists hz, acts = [Sent (u "F " ++ str_of_Z hz)].
Definition mode_line (acts : list (Act R)) : Prop :=
  acts = [] \/ exists mode, mode ∈ VALID_MODES /\ acts = [Sent (u "M " ++ mode ++ u " 0")].

Lemma dec_ascii n : 0 <= n -> is_ascii (dec n) = true.
Proof.
  intros (_ & Hd & _)%dec_spec. unfold is_ascii. apply forallb_Forall. eapply Forall_impl; [exact Hd|].
  cbn. unfold is_decimal. intros c Hc. lia.
Qed.

Lemma freq_ascii hz : is_ascii (u "F " ++ str_of_Z hz) = true.
Proof.
  unfold is_ascii. rewrite forallb_app. apply andb_true_intro. split; [vm_compute; reflexivity|].
  unfold str_of_Z. destruct (Z.ltb_spec hz 0).
  - rewrite forallb_app. apply andb_true_intro. split; [vm_compute; reflexivity|]. apply dec_ascii. lia.
  - by apply dec_ascii.
Qed.

Definition mode_command (mode : pystr) : pystr := u "M " ++ mode ++ u " 0".

Lemma mode_ascii mode : mode ∈ VALID_MODES -> is_ascii (mode_command mode) = true.
Proof.
  intros Hin. assert (Forall (fun mode => is_ascii (mode_command mode) = true) VALID_MODES) as H by by_compute.
  rewrite Forall_forall in H. by apply H.
Qed.

Lemma rig_call_adds (m : IO (R := R) unit) acts s r s' :
  adds m acts -> cl_open s.1 = true -> rig_call rig_message m s = (r, s') ->
  cl_open s'.1 = true /\ lk_log s'.2 = lk_log s.2 ++ acts.
Proof.
  intros Hm Ho. unfold rig_call. destruct (m s) as [r1 s1] eqn:E. intros [= _ <-]. by apply (Hm _ _ _ Ho E).
Qed.

Lemma cat_freq_acts d s r s' :
  cl_open s.1 = true -> cat_freq dial serve rig_message bad_int d s = (r, s') ->
  cl_open s'.1 = true /\ exists acts, lk_log s'.2 = lk_log s.2 ++ acts /\ freq_line acts.
Proof.
  intros Ho. unfold cat_freq.
  assert (forall (r : result Failure unit) s', (r, s) = (r, s') -> cl_open s'.1 = true
    /\ exists acts, lk_log s'.2 = lk_log s.2 ++ acts /\ freq_line acts) as Hsame.
  { intros r0 s0 [= <-]. split; [done|]. exists []. rewrite app_nil_r. split; [done|by left]. }
  destruct (jtruthy _); [|intros [= _ <-]; by apply (Hsame (Ok tt))].
  destruct (jint _) as [hz|[]]; [|intros [= _ <-]; by apply (Hsame (Ok tt))..].
  intros E. apply (rig_call_adds _ [Sent (u "F " ++ str_of_Z hz)]) in E as [Ho' Hl]; [|..|done].
  - split; [done|]. eexists. split; [exact Hl|]. right. by exists hz.
  - apply adds_quiet; [by apply adds_request, freq_ascii|]. intros. apply adds_ret.
Qed.

Lemma cat_mode_acts d s r s' :
  cl_open s.1 = true -> cat_mode dial serve repr rig_message d s = (r, s') ->
  cl_open s'.1 = true /\ exists acts, lk_log s'.2 = lk_log s.2 ++ acts /\ mode_line acts.
Proof.
  intros Ho. unfold cat_mode.
  assert (forall (r : result Failure unit) s', (r, s) = (r, s') -> cl_open s'.1 = true
    /\ exists acts, lk_log s'.2 = lk_log s.2 ++ acts /\ mode_line acts) as Hsame.
  { intros r0 s0 [= <-]. split; [done|]. exists []. rewrite app_nil_r. split; [done|by left]. }
  destruct (jtruthy _); [|intros [= _ <-]; by apply (Hsame (Ok tt))].
  set (mode := upper _). case_bool_decide as Hm; [|intros [= _ <-]; by apply (Hsame (Ok tt))].
  intros E. apply (rig_call_adds _ [Sent (mode_command mode)]) in E as [Ho' Hl]; [|..|done].
  - split; [done|]. eexists. split; [exact Hl|]. right. by exists mode.
  - apply adds_quiet; [|intros; apply adds_ret]. apply (adds_request dial serve (mode_command mode)), mode_ascii, Hm.
Qed.

Lemma rig_cat_acts d l r l' :
  rig_cat dial serve repr rig_message bad_int d l = (r, l') ->
  exists f m, lk_log l' = lk_log l ++ f ++ m /\ freq_line f /\ mode_line m.
Proof.
  unfold rig_cat, rig_call at 1, connect. assert (freq_line [] /\ mode_line []) as [Hf0 Hm0] by (by split; left).
  destruct (dial (lk_rig l)).
  2: { intros [= _ <-]. exists [], []. by rewrite !app_nil_r. }
  destruct (cat_freq _ _ _ _ _ _) as [r1 s1] eqn:E1. apply cat_freq_acts in E1 as (Ho1 & f & H1 & Hf); [|done].
  cbn [snd lk_log] in H1. destruct r1 as [[]|e1].
  - destruct (cat_mode _ _ _ _ _ _) as [r2 s2] eqn:E2. apply cat_mode_acts in E2 as (_ & m & H2 & Hm); [|done].
    intros [= _ <-]. exists f, m. cbn [close snd]. by rewrite H2, H1, app_assoc.
  - intros [= _ <-]. exists f, []. cbn [close snd]. by rewrite H1, app_nil_r.
Qed.

Lemma int_setting_range j current default lo hi n :
  lo <= hi -> int_setting j current default lo hi = Ok n -> lo <= n <= hi.
Proof.
  intros Hb. unfold int_setting. destruct (match j with Some _ => _ | None => _ end) as [k|]; cbn; [|done].
  intros [= <-]. lia.
Qed.

(** What a post to the rig panel can do, whatever its body holds and whatever
    rigctld answers. The line protocol cannot be injected: nothing is sent
    beside one [F] line with a whole number followed by one [M] line with one
    of the nine known modes. The port saved is a TCP port and the lead before
    the audio is between 0 and 2 seconds, so keying never waits a negative
    time. A post refused before the rig is reached saves nothing and sends
    nothing; a disabled rig is never contacted. *)
Theorem rig_panel_safe (data : json) (config : CWRig) (l l' : Link R) (r : result Failure CWRig) (saved : CWRig) :
  rig_post dial serve repr rig_message bad_int to_bool to_text data config l = (r, saved, l') ->
  (exists f m, lk_log l' = lk_log l ++ f ++ m /\ freq_line f /\ mode_line m)
  /\ (saved = config \/ (1 <= cr_port saved <= 65535 /\ 0 <= cr_ptt_lead_ms saved <= 2000))
  /\ (settings_ok config -> settings_ok saved)
  /\ (forall d, data = JObj d -> enabled_now d config = false -> l' = l)
  /\ (forall c, r = Ok c -> c = saved /\ 1 <= cr_port saved <= 65535).
Proof.
  unfold rig_post. assert (exists f m, lk_log l = lk_log l ++ f ++ m /\ freq_line f /\ mode_line m) as Hquiet.
  { exists [], []. rewrite !app_nil_r. by split_and!; try left. }
  destruct data as [| | | | | |d]; [intros [= <- <- <-]; split_and!; auto; done..|].
  destruct (rig_save to_bool to_text d config) as [c1|e] eqn:Es; [|by intros [= <- <- <-]; split_and!; auto].
  assert (1 <= cr_port c1 <= 65535 /\ 0 <= cr_ptt_lead_ms c1 <= 2000 /\ (settings_ok config -> settings_ok c1)) as (Hp & Hl & Hset).
  { revert Es. unfold rig_save. destruct (int_setting _ (cr_port config) _ _ _) as [port|] eqn:E1; cbn [mbind result_bind]; [|done].
    destruct (int_setting _ (cr_ptt_lead_ms config) _ _ _) as [lead|] eqn:E2; cbn [mbind result_bind]; [|done].
    apply int_setting_range in E1, E2; [|done..]. unfold column_of.
    repeat (case_match; cbn [mbind result_bind]; try done). all: intros [= <-]; (split_and!; cbn; [lia..|]); by intros []. }
  destruct (enabled_now d config && wants_cat d) eqn:Ew.
  - destruct (rig_cat _ _ _ _ _ d l) as [r1 l1] eqn:Ec. intros [= <- <- <-].
    split_and!; [by eapply rig_cat_acts|by right|done| |].
    + intros d' [= <-] Hd. by rewrite Hd in Ew.
    + intros c. destruct r1; [|done]. by intros [= <-].
  - intros [= <- <- <-]. split_and!; [exact Hquiet|by right|done|done|]. by intros c [= <-].
Qed.
End PanelFacts.

(** ** Transmitting a stored session *)

Section TxFacts.
Context {R : Type} (dial : R -> bool) (serve : pystr -> R -> option (list chunk) * R).
Context {S F : Type} `{Num F} `{Numpy S F}.
Context (np_room : Z -> bool) (np_ramp : Z -> list F)
  (np_modulate : F -> list F -> F -> Z -> option F -> option (list S)).
Context (pcm : list S -> list Z) (player : list Z -> R -> bool).
Context (pk_of : json -> option Z) (refused : TxRefused -> pystr).

Lemma session_of_spec (sessions : list (Z * CWSession F)) user pk s :
  session_of sessions user pk = Some s -> (pk, s) ∈ sessions /\ cs_user s = user.
Proof.
  unfold session_of. destruct (List.find _ sessions) as [[k x]|] eqn:E; [|done]. cbn. intros [= ->].
  apply find_some in E as [Hin Hx]. bool_to_prop. cbn in *. subst k. split; [by apply list_elem_of_In|done].
Qed.

(** C40: Pressing transmit, as the whole request, for stored sessions with any
    numbers in them: only an enabled rig and a session of the operator's own is
    ever keyed, and only one whose audio can be synthesised again; whatever
    rigctld and the sound device do, a transmitter that was free is free again
    after a transmission, and what was done to the rig is one of the five
    sequences of a transmission. A request that is refused, and one for a busy
    transmitter is, leaves rig and transmitter as they were. Two exceptions get
    out, neither touching the rig: a session key the database layer cannot read,
    which leaves the transmitter as it was, and a session of the operator's own
    whose stored numbers the synthesis raises on, which is the one way a free
    transmitter is left taken. *)
Theorem rig_tx_releases (user : Z) (rig : option CWRig) (sessions : list (Z * CWSession F)) (data : json)
    (tx tx' : Tx) (l l' : Link R) (r : result Failure unit) :
  rig_tx dial serve np_room np_ramp np_modulate pcm player pk_of refused user rig sessions data tx l = (r, tx', l') ->
  match r with
  | Ok _ =>
      tx_locked tx = false /\ tx_locked tx' = false
      /\ exists config pk s audio acts,
           rig = Some config /\ cr_enabled config = true /\ (pk, s) ∈ sessions /\ cs_user s = user
           /\ session_audio_float np_room np_ramp np_modulate s = Some audio
           /\ lk_log l' = lk_log l ++ acts /\ tx_acts (rig_of config) acts
           /\ (tx_error tx' = None -> played acts)
  | Err Uncaught =>
      l' = l
      /\ ((tx' = tx /\ exists d, data = JObj d /\ pk_of (jget_null (u "session_id") d) = None)
          \/ (tx_locked tx = false
              /\ tx' = Build_Tx (tx_transmitting tx) (tx_session_id tx) (tx_error tx) true
              /\ exists config pk s,
                   rig = Some config /\ cr_enabled config = true /\ (pk, s) ∈ sessions /\ cs_user s = user
                   /\ has_audio s = true /\ session_audio_float np_room np_ramp np_modulate s = None))
  | Err _ => tx' = tx /\ l' = l
  end.
Proof.
  unfold rig_tx.
  destruct rig as [config|]; [|by intros [= <- <- <-]].
  destruct (cr_enabled config) eqn:He; cbn [negb]; [|by intros [= <- <- <-]].
  destruct data as [| | | | | |d]; try by intros [= <- <- <-].
  destruct (jtruthy (jget_null (u "session_id") d)); cbn [negb]; [|by intros [= <- <- <-]].
  destruct (pk_of _) as [pk|] eqn:Hpk; [|intros [= <- <- <-]; split; [done|]; left; split; [done|]; by exists d].
  destruct (session_of sessions user pk) as [s|] eqn:Hs; [|by intros [= <- <- <-]].
  apply session_of_spec in Hs as [Hin Hu]. unfold transmit_session, tx_session. cbn [ts_has_audio ts_audio ts_pk].
  destruct (has_audio s) eqn:Ha; cbn [negb]; [|by intros [= <- <- <-]].
  destruct (tx_locked tx) eqn:Hlk; [by intros [= <- <- <-]|].
  destruct (session_audio_float np_room np_ramp np_modulate s) as [audio|] eqn:Haudio; cbn [fmap option_fmap option_map].
  - destruct (run _ _ _ _ _ l) as [err [c l2]] eqn:Erun. intros [= <- <- <-]. split; [done|]. split; [done|].
    apply run_acts in Erun as (_ & acts & H1 & H2 & H3). exists config, pk, s, audio, acts. by split_and!.
  - intros [= <- <- <-]. split; [done|]. right. split_and!; [done|done|]. by exists config, pk, s.
Qed.

(** What a taken transmitter means to every later request. *)
Lemma rig_tx_busy (user : Z) (rig : option CWRig) (sessions : list (Z * CWSession F)) (data : json)
    (tx tx' : Tx) (l l' : Link R) (r : result Failure unit) :
  tx_locked tx = true ->
  rig_tx dial serve np_room np_ramp np_modulate pcm player pk_of refused user rig sessions data tx l = (r, tx', l') ->
  is_ok r = false /\ tx' = tx /\ l' = l.
Proof.
  intros Hlk E. unfold rig_tx in E.
  destruct rig as [config|]; [|by simplify_eq].
  destruct (cr_enabled config); cbn [negb] in E; [|by simplify_eq].
  destruct data as [| | | | | |d]; try by simplify_eq.
  destruct (jtruthy _); cbn [negb] in E; [|by simplify_eq].
  destruct (pk_of _); [|by simplify_eq]. destruct (session_of _ _ _); [|by simplify_eq].
  unfold transmit_session in E. rewrite Hlk in E. destruct (negb _); by simplify_eq.
Qed.
End TxFacts.

(** ** The managed daemon *)

(** Starting the managed daemon and pointing the rig panel at it are one
    step: after a request that succeeded, the operator's rig is enabled and
    aimed at the port, model and serial device of the daemon that is running,
    so that a transmission may follow; after any other request the operator's
    row is as it was. *)
Theorem rig_follows_daemon (daemon_message : DaemonErr -> pystr) (h : Host) (d : jobj) (rig rig' : option CWRig)
    (dm dm' : Daemon) (r : result Failure unit) :
  jget_null (u "action") d = JStr (u "start") ->
  rig_daemon daemon_message h (JObj d) rig dm = (r, rig', dm') ->
  match r with
  | Err _ => rig' = rig
  | Ok _ =>
      exists config spec, rig' = Some config /\ dm_spec dm' = Some spec /\ is_Some (dm_proc dm') /\ dm_alive dm' = true
        /\ cr_enabled config = true /\ cr_host config = u "127.0.0.1" /\ cr_port config = sp_tcp_port spec
        /\ cr_rig_model config = Some (sp_model spec) /\ cr_serial_port config = sp_serial_port spec
        /\ (cr_callsign config, cr_send_wpm config, cr_send_tone_hz config, cr_use_ptt config, cr_ptt_lead_ms config)
           = (let old := rig_row rig in
              (cr_callsign old, cr_send_wpm old, cr_send_tone_hz old, cr_use_ptt old, cr_ptt_lead_ms old))
  end.
Proof.
  intros Ha. unfold rig_daemon. rewrite Ha. unfold str_eqb. rewrite bool_decide_eq_false_2, bool_decide_eq_true_2 by by_compute.
  unfold rig_daemon_start.
  destruct (or_error _ _) as [model|]; [|by intros [= <- <- <-]].
  destruct (posted_port d) as [port|]; [|by intros [= <- <- <-]].
  destruct (posted_baud d) as [baud|]; [|by intros [= <- <- <-]].
  destruct (RigDaemon.start h model port baud 4532 dm) as [[[]|e] dm1] eqn:Es.
  2: { destruct e; by intros [= <- <- <-]. }
  intros [= <- <- <-]. assert (is_Some (dm_proc dm1) /\ dm_alive dm1 = true
    /\ dm_spec dm1 = Some {| sp_model := model; sp_serial_port := port; sp_baud := default 0 baud; sp_tcp_port := 4532 |})
    as (Hp & Hal & Hspec).
  { unfold RigDaemon.start in Es. revert Es. destruct (match baud with Some b => _ | None => _ end).
    all: repeat (case_match; try done). all: intros [= <-].
    all: match goal with |- context [foldl ?f ?d1 ?o] =>
      pose proof (append_logs_frame rstrip o d1) as (F1 & F2 & _ & _ & F5); generalize dependent (foldl f d1 o) end.
    all: intros d2 F1 F2 F5; cbn in F1, F2, F5; rewrite F1, F2, F5; by eauto. }
  rewrite Hspec. cbn [from_option]. do 2 eexists. split; [reflexivity|].
  destruct baud; split_and!; reflexivity || done.
Qed.

(** ** Concrete requests *)

Module PanelDemo.
Definition repr (_ : json) : pystr := [].
Definition message (_ : RigErr) : pystr := [].
Definition bad_int (_ : json) : pystr := [].
Definition to_bool (j : json) : option bool := match j with JBool b => Some b | _ => None end.
Definition to_text (j : json) : option pystr := match j with JStr s => Some s | _ => None end.
Definition pk_of (j : json) : option Z := match j with JInt n => Some n | _ => None end.
Definition refused (_ : TxRefused) : pystr := [].
Definition daemon_message (_ : DaemonErr) : pystr := [].
Definition pcm (_ : list float) : list Z := [0].
Definition enabled : CWRig := default_rig <| cr_enabled := true |>.
(** A port out of range, a tuning request and a mode with a line break. *)
Definition body : json :=
  JObj [(u "port", JInt 99999); (u "freq_hz", JInt 14055000); (u "mode", JStr (u "cw" ++ [10] ++ u "T 1"))].
Definition knobs : list json := [JObj [(u "input_gain", JInt 1000)]; JObj [(u "squelch_db", JFloat S754_nan)]; JNull].
Definition stored : list (Z * CWSession float) :=
  match SessionDemo.sent with Some s => [(5, s)] | None => [] end.
Definition tx_body : json := JObj [(u "session_id", JInt 5)].
Definition start_body : jobj := [(u "action", JStr (u "start")); (u "model", JStr (u "1")); (u "baud", JInt 9600)].
End PanelDemo.

Theorem knobs_bounded_witness :
  let k := apply_receiver_controls (Some (turned PanelDemo.knobs fresh_control)) default_config
             {| kb_noise_level := num_of_Z 0; kb_paused_signals := true |} in
  SFleb (input_gain k.1) (num_of_Z 10) = true /\ SFleb (squelch_db k.1) (num_of_Z 12) = true.
Proof.
  cbn zeta. destruct (apply_receiver_controls _ _ _) as [cfg' knob'] eqn:E.
  destruct (knobs_bounded PanelDemo.knobs default_config cfg' _ knob' E) as (_ & T1 & _ & T2 & _).
  split; [exact T1|exact T2].
Defined.

Theorem rig_panel_safe_witness :
  let post := rig_post RigDemo.dial RigDemo.serve PanelDemo.repr PanelDemo.message PanelDemo.bad_int
    PanelDemo.to_bool PanelDemo.to_text PanelDemo.body PanelDemo.enabled (RigDemo.link false) in
  lk_log post.2 = [Sent (u "F 14055000")] /\ cr_port post.1.2 = 65535
  /\ exists f m, lk_log post.2 = f ++ m /\ freq_line f /\ mode_line m.
Proof.
  cbn zeta. set (post := rig_post _ _ _ _ _ _ _ _ _ _).
  split; [vm_compute; reflexivity|]. split; [vm_compute; reflexivity|].
  destruct (rig_panel_safe RigDemo.dial RigDemo.serve PanelDemo.repr PanelDemo.message PanelDemo.bad_int
    PanelDemo.to_bool PanelDemo.to_text PanelDemo.body PanelDemo.enabled (RigDemo.link false) post.2 post.1.1 post.1.2)
    as ((f & m & T1 & T2 & T3) & _).
  { fold post. by destruct post as [[? ?] ?]. }
  exists f, m. split; [exact T1|]. split; [exact T2|exact T3].
Defined.

Theorem rig_tx_releases_witness :
  let tx := rig_tx RigDemo.dial RigDemo.serve SessionDemo.room SessionDemo.ramp SessionDemo.modulate PanelDemo.pcm RigDemo.player
    PanelDemo.pk_of PanelDemo.refused 1 (Some PanelDemo.enabled) PanelDemo.stored PanelDemo.tx_body tx_idle (RigDemo.link false) in
  tx.1.1 = Ok tt /\ tx_locked tx.1.2 = false /\ lk_log tx.2 = [Sent (u "t"); Sent (u "T 1"); Played true; Sent (u "T 0")].
Proof.
  cbn zeta. set (tx := rig_tx _ _ _ _ _ _ _ _ _ _ _ _ _ _ _).
  assert (tx.1.1 = Ok tt) as Hr by (vm_compute; reflexivity).
  split; [exact Hr|]. split; [|vm_compute; reflexivity].
  pose proof (rig_tx_releases RigDemo.dial RigDemo.serve SessionDemo.room SessionDemo.ramp SessionDemo.modulate PanelDemo.pcm
    RigDemo.player PanelDemo.pk_of PanelDemo.refused 1 (Some PanelDemo.enabled) PanelDemo.stored PanelDemo.tx_body
    tx_idle tx.1.2 (RigDemo.link false) tx.2 tx.1.1) as T.
  rewrite Hr in T. apply T. rewrite <- Hr. fold tx. by destruct tx as [[? ?] ?].
Defined.

(** A stored speed that is negative, or a noise level of ten thousand decibels,
    is one the synthesis raises on. The request is answered by the server's own
    500, the transmitter stays taken, and the sound session sent before is
    refused from then on. *)
Definition wrong (wpm : Z) (snr : option float) : list (Z * CWSession float) :=
  (fun x => (6, x.2 <| cs_wpm := num_of_Z wpm |> <| cs_snr_db := snr |>)) <$> PanelDemo.stored.
Definition press (pk : Z) (sessions : list (Z * CWSession float)) (tx : Tx) :=
  rig_tx RigDemo.dial RigDemo.serve SessionDemo.room SessionDemo.ramp SessionDemo.modulate PanelDemo.pcm RigDemo.player
    PanelDemo.pk_of PanelDemo.refused 1 (Some PanelDemo.enabled) sessions (JObj [(u "session_id", JInt pk)]) tx
    (RigDemo.link false).

Lemma unsynthesised_takes_transmitter :
  let sessions := PanelDemo.stored ++ wrong (-1) None in
  let loud := PanelDemo.stored ++ wrong 20 (Some (num_of_Z 10000)) in
  let first := press 6 sessions tx_idle in
  first.1.1 = Err Uncaught /\ tx_locked first.1.2 = true
  /\ (press 5 sessions first.1.2).1 = (Err (ApiError [] 409), first.1.2)
  /\ (press 6 loud tx_idle).1.1 = Err Uncaught.
Proof. by vm_compute. Qed.

Theorem rig_follows_daemon_witness :
  let start := rig_daemon PanelDemo.daemon_message DaemonDemo.host (JObj PanelDemo.start_body) None no_daemon in
  start.1.1 = Ok tt /\ exists config, start.1.2 = Some config /\ cr_enabled config = true /\ cr_port config = 4532.
Proof.
  cbn zeta. set (start := rig_daemon _ _ _ _ _).
  assert (start.1.1 = Ok tt) as Hr by (vm_compute; reflexivity).
  pose proof (rig_follows_daemon PanelDemo.daemon_message DaemonDemo.host PanelDemo.start_body None start.1.2
    no_daemon start.2 start.1.1) as T. rewrite Hr in T.
  destruct T as (config & spec & H1 & H2 & _ & _ & H3 & _ & H4 & _).
  - vm_compute. reflexivity.
  - rewrite <- Hr. fold start. by destruct start as [[? ?] ?].
  - split; [exact Hr|]. exists config. split; [exact H1|]. split; [exact H3|]. rewrite H4.
    assert (dm_spec start.2 = Some {| sp_model := 1; sp_serial_port := []; sp_baud := 9600; sp_tcp_port := 4532 |}) as Hs
      by (vm_compute; reflexivity).
    rewrite Hs in H2. injection H2 as <-. reflexivity.
Defined.
