(* ===== verification/Schedules.v ===== *)
(** * scheduler/schedules.py: when a schedule fires next

    Instants are microseconds since year 1, in UTC, as the database returns
    them. What the third-party packages compute ([dateutil.relativedelta],
    [croniter]) and the time zone database are the operations of an interface,
    [ScheduleLib]; what the scheduler relies on in them is [LawfulLib]. *)
From Stdlib Require Import SpecFloat.
From S2P Require Import Prelude PyFloat FloatDiv PyStr Regex PyTime.
Open Scope Z_scope.

Definition SECOND : Z := 1000000.
Definition DAY : Z := 86400 * SECOND.

(** [ScheduleConfigError] is a [ValueError]; the others are what Python and the
    packages raise. *)
Inductive SchedError := ScheduleConfigError | OverflowError | ValueError | KeyError.

Inductive CalendarUnit := Months | Years.

Inductive IntervalDelta :=
| Fixed (us : Z)
| Calendar (unit : CalendarUnit) (count : Z).

(** [rel_add unit count t] is [t + relativedelta(unit=count)], [cron_get_next
    expr tz t] is [croniter(expr, t.astimezone(tz)).get_next(datetime)]. *)
Class ScheduleLib := {
  rel_add : CalendarUnit -> Z -> Z -> result SchedError Z;
  cron_get_next : pystr -> pystr -> Z -> option Z;
  available_timezones : list pystr;
  current_timezone : pystr;
}.

Class LawfulLib `{ScheduleLib} : Prop := {
  rel_add_advances : forall unit n t t', 0 < n -> rel_add unit n t = Ok t' -> t + 28 * DAY <= t';
  rel_add_range : forall unit n t e, rel_add unit n t = Err e -> e <> ScheduleConfigError;
  cron_advances : forall expr tz t t', cron_get_next expr tz t = Some t' -> t < t';
}.

(** [croniter] searches fifty years ahead; no fifty years are shorter. *)
Definition FIFTY_YEARS : Z := 50 * 365 * DAY.

(** What is relied on in [croniter] for a schedule's cadence. [cron_names expr tz
    t]: on the wall clock of the zone, the instant is one the expression names.
    It finds the first of them after the instant it starts from, and gives up
    ([CroniterError]) when the expression is none or names nothing in sight. *)
Class CronLaws `{ScheduleLib} := {
  cron_names : pystr -> pystr -> Z -> Prop;
  cron_finds : forall expr tz t t', cron_get_next expr tz t = Some t' ->
    cron_names expr tz t' /\ forall t'', cron_names expr tz t'' -> t < t'' -> t' <= t'';
  cron_gives_up : forall expr tz t t', cron_get_next expr tz t = None ->
    cron_names expr tz t' -> t < t' -> t + FIFTY_YEARS < t';
}.

(** ** Intervals *)

(** [_FIXED_UNITS], as seconds, and [_CALENDAR_UNITS]. *)
Definition FIXED_UNITS : list (pystr * Z) :=
  [(u "s", 1); (u "m", 60); (u "h", 3600); (u "d", 86400); (u "w", 604800)].
Definition CALENDAR_UNITS : list (pystr * CalendarUnit) := [(u "mo", Months); (u "y", Years)].

Definition get_key {A} (k : pystr) (d : list (pystr * A)) : option A :=
  snd <$> List.find (fun p => str_eqb k p.1) d.

(** [[smhdwy]] under [re.IGNORECASE], which also takes the long s. *)
Definition is_unit (c : Z) : bool :=
  bool_decide (lower_char c ∈ u "smhdwy") || (c =? 383).

(** [^\s*(\d+)\s*(mo|[smhdwy])\s*$] *)
Definition INTERVAL_RE : regex :=
  r_seq [r_star is_space; RGroup 1 (r_plus is_decimal); r_star is_space;
         RGroup 2 (RAlt (r_lit_ci (u "mo")) (RClass is_unit)); r_star is_space].

(** [timedelta(...)] of so many seconds, of which it holds 999999999 days. *)
Definition timedelta (seconds : Z) : result SchedError IntervalDelta :=
  if seconds / 86400 <=? 999999999 then Ok (Fixed (seconds * SECOND)) else Err OverflowError.

Definition parse_interval (spec : pystr) : result SchedError IntervalDelta :=
  match fullmatch INTERVAL_RE spec with
  | None => Err ScheduleConfigError
  | Some m =>
      let count := default 0 (digits (group 1 m)) in
      let unit := lower (group 2 m) in
      if count <=? 0 then Err ScheduleConfigError
      else match get_key unit FIXED_UNITS with
           | Some s => timedelta (count * s)
           | None => match get_key unit CALENDAR_UNITS with
                     | Some c => Ok (Calendar c count)
                     | None => Err KeyError
                     end
           end
  end.

(** [datetime + timedelta] for a duration that is not negative. *)
Definition dt_add (t us : Z) : result SchedError Z :=
  if t + us <=? MAX_STAMP then Ok (t + us) else Err OverflowError.

(** [.total_seconds()] *)
Definition total_seconds (us : Z) : float := float_ratio us 1000000.

(** [int(gap // period)] *)
Definition whole_periods (gap us : Z) : Z :=
  default 0 (float_floordiv (total_seconds gap) (total_seconds us)).

Definition MAX_STEPS : nat := 10000.

(** A schedule: the duck-typed fields. *)
Record Schedule := {
  schedule_type : pystr;
  interval_spec : pystr;
  anchor_at : option Z;
  cron_expression : pystr;
  run_at : option Z;
  timezone : pystr;
}.

#[global] Instance eta_schedule : Eta Schedule := fun s =>
  Build_Schedule (schedule_type s) (interval_spec s) (anchor_at s) (cron_expression s) (run_at s) (timezone s).

#[global] Instance schedule_eq_dec : EqDecision Schedule.
Proof. solve_decision. Defined.

(** How an aware datetime moves: in UTC for the instants the database returns,
    on the wall clock of its zone for an anchor just read from code. *)
Record Arith := {
  plus_fixed : Z -> Z -> result SchedError Z;
  plus_calendar : CalendarUnit -> Z -> Z -> result SchedError Z;
}.

Section Schedules.
Context `{ScheduleLib}.

Definition utc : Arith := {| plus_fixed := dt_add; plus_calendar := rel_add |}.

(** The calendar loop of [_step_interval]. *)
Fixpoint step_calendar (ar : Arith) (fuel : nat) (unit : CalendarUnit) (count nxt after : Z) : result SchedError Z :=
  match fuel with
  | O => Ok nxt
  | S fuel' =>
      if after <? nxt then Ok nxt
      else nxt' ← plus_calendar ar unit count nxt; step_calendar ar fuel' unit count nxt' after
  end.

Definition step_interval (ar : Arith) (anchor : Z) (spec : pystr) (after : Z) : result SchedError Z :=
  delta ← parse_interval spec;
  match delta with
  | Fixed us =>
      let gap := after - anchor in
      if gap <? 0 then Ok anchor
      else plus_fixed ar anchor ((whole_periods gap us + 1) * us)
  | Calendar unit count => step_calendar ar MAX_STEPS unit count anchor after
  end.

(** [_tz_canonical_map] and [canonical_timezone]: the last of the names that
    are the same in lower case. *)
Definition canonical_timezone (name : pystr) : option pystr :=
  if nonempty name
  then last (filter (fun z => lower z = lower (strip name)) available_timezones)
  else None.

Definition schedule_tz (s : Schedule) : result SchedError pystr :=
  if nonempty (timezone s)
  then match canonical_timezone (timezone s) with Some z => Ok z | None => Err ScheduleConfigError end
  else Ok current_timezone.

Definition cron_next (expr tz : pystr) (after : Z) : result SchedError Z :=
  match cron_get_next expr tz after with Some t => Ok t | None => Err ScheduleConfigError end.

Definition next_run_in (ar : Arith) (s : Schedule) (after : Z) : result SchedError (option Z) :=
  if str_eqb (schedule_type s) (u "once") then
    match run_at s with
    | None => Err ScheduleConfigError
    | Some t => Ok (if after <? t then Some t else None)
    end
  else if str_eqb (schedule_type s) (u "interval") then
    if nonempty (interval_spec s)
    then Some <$> step_interval ar (default after (anchor_at s)) (interval_spec s) after
    else Err ScheduleConfigError
  else if str_eqb (schedule_type s) (u "cron") then
    if nonempty (cron_expression s)
    then tz ← schedule_tz s; Some <$> cron_next (cron_expression s) tz after
    else Err ScheduleConfigError
  else Err ScheduleConfigError.

Definition next_run : Schedule -> Z -> result SchedError (option Z) := next_run_in utc.

(** The counting loops of [missed_periods], with the step a parameter. *)
Fixpoint count_steps (fuel : nat) (step : Z -> result SchedError Z) (now cursor count : Z) : result SchedError Z :=
  match fuel with
  | O => Ok count
  | S fuel' =>
      cursor' ← step cursor;
      if now <? cursor' then Ok count else count_steps fuel' step now cursor' (count + 1)
  end.

Definition missed_periods (s : Schedule) (scheduled_for now : Z) : result SchedError Z :=
  if now <=? scheduled_for then Ok 0
  else if str_eqb (schedule_type s) (u "interval") && nonempty (interval_spec s) then
    delta ← parse_interval (interval_spec s);
    match delta with
    | Fixed us => Ok (whole_periods (now - scheduled_for) us)
    | Calendar unit count => count_steps MAX_STEPS (rel_add unit count) now scheduled_for 0
    end
  else if str_eqb (schedule_type s) (u "cron") && nonempty (cron_expression s) then
    tz ← schedule_tz s;
    count_steps MAX_STEPS (cron_next (cron_expression s) tz) now scheduled_for 0
  else Ok 0.
End Schedules.
