(* ===== verification/SchedulesFacts.v ===== *)
(** * The next run is the next fire of the cadence *)
From Stdlib Require Import SpecFloat.
From S2P Require Import Prelude PyFloat FloatDiv PyStr Regex PyTime Schedules.
Open Scope Z_scope.

(** ** Intervals *)

Lemma get_key_elem {A} k (d : list (pystr * A)) v : get_key k d = Some v -> v ∈ d.*2.
Proof.
  unfold get_key. intros E. apply fmap_Some in E as ([k' v'] & E & ->).
  apply List.find_some in E as [E _]. apply list_elem_of_In in E.
  by apply (list_elem_of_fmap_2 snd) in E.
Qed.

Lemma fixed_unit_bounds k s : get_key k FIXED_UNITS = Some s -> 1 <= s <= 604800.
Proof.
  intros E%get_key_elem. assert (Forall (fun s => 1 <= s <= 604800) FIXED_UNITS.*2) as HF by by_compute.
  rewrite Forall_forall in HF. auto.
Qed.

(** A fixed interval is a whole, positive number of seconds a double holds; a
    calendar interval counts at least one unit. *)
Lemma parse_interval_spec spec delta :
  parse_interval spec = Ok delta ->
  match delta with
  | Fixed us => exists P : positive, us = Zpos P * SECOND /\ Zpos P <= 2 ^ 51
  | Calendar _ n => 0 < n
  end.
Proof.
  unfold parse_interval. destruct (fullmatch _ _) as [m|]; [|done].
  set (count := default 0 _). set (unit := lower _). destruct (Z.leb_spec count 0) as [|Hc]; [done|].
  destruct (get_key unit FIXED_UNITS) as [s|] eqn:Es.
  - apply fixed_unit_bounds in Es. unfold timedelta.
    destruct (Z.leb_spec (count * s / 86400) 999999999) as [Hd|]; [|done]. intros [= <-].
    assert (count * s < 86400 * 1000000000).
    { pose proof (Z.mul_succ_div_gt (count * s) 86400 ltac:(lia)). lia. }
    assert (0 < count * s) by nia.
    exists (Z.to_pos (count * s)). rewrite Z2Pos.id by lia. split; [done|].
    lia.
  - destruct (get_key unit CALENDAR_UNITS); by intros [= <-].
Qed.

Definition GAP_BOUND : Z := 2 ^ 33 * SECOND.

Lemma whole_periods_exact gap (P : positive) :
  0 <= gap < GAP_BOUND -> Zpos P <= 2 ^ 51 ->
  whole_periods gap (Zpos P * SECOND) = gap / (Zpos P * SECOND).
Proof.
  intros Hg HP. unfold whole_periods, total_seconds, SECOND in *.
  by rewrite floordiv_seconds.
Qed.

(** ** The cadence of a schedule *)

Section Cadence.
Context `{Lib : ScheduleLib} `{!LawfulLib}.

(** The first of the instants of [P] after [now]. *)
Definition first_after (P : Z -> Prop) (now t : Z) : Prop :=
  P t /\ now < t /\ forall t', P t' -> now < t' -> t <= t'.

Lemma rtc_advances unit n a b :
  0 < n -> rtc (fun a b => rel_add unit n a = Ok b) a b -> a <= b.
Proof.
  intros Hn. induction 1 as [|a a' b Ha _ IH]; [lia|].
  apply rel_add_advances in Ha; [|done]. unfold DAY, SECOND in *. lia.
Qed.

Lemma step_calendar_first fuel unit n nxt after r :
  0 < n -> after - nxt < Z.of_nat fuel * (28 * DAY) ->
  step_calendar utc fuel unit n nxt after = Ok r ->
  first_after (rtc (fun a b => rel_add unit n a = Ok b) nxt) after r.
Proof.
  intros Hn. revert nxt. induction fuel as [|fuel IH]; intros nxt Hf E.
  - injection E as <-. split; [apply rtc_refl|]. split; [lia|]. intros. by eapply rtc_advances.
  - cbn [step_calendar] in E. destruct (Z.ltb_spec after nxt) as [Hlt|Hge].
    + injection E as <-. split; [apply rtc_refl|]. split; [lia|]. intros. by eapply rtc_advances.
    + cbn [plus_calendar utc] in *; destruct (rel_add unit n nxt) as [nxt'|] eqn:Ea; [|done].
      pose proof (rel_add_advances _ _ _ _ Hn Ea).
      destruct (IH nxt') as (H1 & H2 & H3); [lia|exact E|].
      split; [by eapply rtc_l|]. split; [done|]. intros t' Ht Hlt.
      inversion Ht as [|a b c Hab Hbc]; subst; [lia|]. apply H3; [|done]. congruence.
Qed.

Lemma step_fixed_first anchor spec after us r :
  after - anchor < GAP_BOUND -> parse_interval spec = Ok (Fixed us) ->
  step_interval utc anchor spec after = Ok r ->
  first_after (fun t => exists k, 0 <= k /\ t = anchor + k * us) after r.
Proof.
  intros Hg Hp. destruct (parse_interval_spec _ _ Hp) as (P & -> & HP).
  unfold step_interval. rewrite Hp. cbn [mbind result_bind].
  assert (0 < Zpos P * SECOND) by (unfold SECOND; lia). set (us := Zpos P * SECOND) in *.
  destruct (Z.ltb_spec (after - anchor) 0) as [Hneg|Hpos].
  - intros [= <-]. split; [exists 0; lia|]. split; [lia|]. intros t' (k & Hk & ->) _. nia.
  - cbn [plus_fixed utc]. unfold dt_add, us. rewrite whole_periods_exact by lia. fold us.
    destruct (_ <=? MAX_STAMP); [|done]. intros [= <-].
    pose proof (Z.mul_div_le (after - anchor) us ltac:(lia)).
    pose proof (Z.mul_succ_div_gt (after - anchor) us ltac:(lia)).
    pose proof (Z.div_pos (after - anchor) us ltac:(lia) ltac:(lia)).
    set (q := (after - anchor) / us) in *. clearbody q us.
    split; [exists (q + 1); lia|]. split; [lia|]. intros t' (k & Hk & ->) Hlt.
    assert (q < k) by nia. nia.
Qed.

Lemma step_interval_after anchor spec after r :
  after - anchor < GAP_BOUND -> step_interval utc anchor spec after = Ok r -> after < r.
Proof.
  intros Hg E. destruct (parse_interval spec) as [[us|unit n]|e] eqn:Ep.
  - by eapply step_fixed_first.
  - pose proof (parse_interval_spec _ _ Ep) as Hn. unfold step_interval in E.
    rewrite Ep in E. cbn [mbind result_bind] in E. eapply step_calendar_first; [exact Hn| |exact E].
    assert (Z.of_nat MAX_STEPS = 10000) as -> by (by vm_compute). unfold GAP_BOUND, DAY, SECOND in *. lia.
  - unfold step_interval in E. by rewrite Ep in E.
Qed.

Lemma step_fixed_overflow anchor spec after us e :
  after - anchor < GAP_BOUND -> parse_interval spec = Ok (Fixed us) ->
  step_interval utc anchor spec after = Err e ->
  e = OverflowError
  /\ forall t, (exists k, 0 <= k /\ t = anchor + k * us) -> after < t -> MAX_STAMP < t.
Proof.
  intros Hg Hp. destruct (parse_interval_spec _ _ Hp) as (P & -> & HP).
  unfold step_interval. rewrite Hp. cbn [mbind result_bind].
  assert (0 < Zpos P * SECOND) by (unfold SECOND; lia). set (us := Zpos P * SECOND) in *.
  destruct (Z.ltb_spec (after - anchor) 0) as [Hneg|Hpos]; [done|].
  cbn [plus_fixed utc]. unfold dt_add, us. rewrite whole_periods_exact by lia. fold us.
  destruct (Z.leb_spec (anchor + ((after - anchor) / us + 1) * us) MAX_STAMP) as [|Hmax]; [done|].
  intros [= <-]. split; [done|]. intros t (k & Hk & ->) Hlt.
  pose proof (Z.mul_div_le (after - anchor) us ltac:(lia)).
  set (q := (after - anchor) / us) in *. clearbody q us.
  assert (q < k) by nia. nia.
Qed.
End Cadence.

(** ** Which branch a schedule takes *)

#[local] Opaque u.

Lemma once_not_interval : u "once" <> u "interval".
Proof. by_compute. Qed.
Lemma once_not_cron : u "once" <> u "cron".
Proof. by_compute. Qed.
Lemma interval_not_cron : u "interval" <> u "cron".
Proof. by_compute. Qed.
Lemma no_empty_interval delta : parse_interval [] <> Ok delta.
Proof. by vm_compute. Qed.

Create HintDb kinds.
#[local] Hint Resolve once_not_interval once_not_cron interval_not_cron : kinds.

Section NextRun.
Context `{Lib : ScheduleLib} `{!LawfulLib}.

Lemma next_run_once s now :
  schedule_type s = u "once" ->
  next_run s now = match run_at s with
                   | Some t => Ok (if now <? t then Some t else None)
                   | None => Err ScheduleConfigError
                   end.
Proof. intros E. unfold next_run, next_run_in, str_eqb. by rewrite (bool_decide_eq_true_2 (_ = _) E). Qed.

Lemma next_run_interval s now :
  schedule_type s = u "interval" ->
  next_run s now = Some <$> step_interval utc (default now (anchor_at s)) (interval_spec s) now
  \/ next_run s now = Err ScheduleConfigError /\ interval_spec s = [].
Proof.
  intros E. unfold next_run, next_run_in, str_eqb. rewrite E.
  rewrite (bool_decide_eq_false_2 (u "interval" = u "once")) by (symmetry; auto with kinds).
  rewrite bool_decide_eq_true_2 by done.
  destruct (interval_spec s); [by right|by left].
Qed.

Lemma next_run_cron s now r :
  schedule_type s = u "cron" -> next_run s now = r ->
  r = Err ScheduleConfigError
  \/ exists tz t, cron_expression s <> [] /\ schedule_tz s = Ok tz
       /\ cron_get_next (cron_expression s) tz now = Some t /\ r = Ok (Some t).
Proof.
  intros E. unfold next_run, next_run_in, str_eqb. rewrite E.
  rewrite (bool_decide_eq_false_2 (u "cron" = u "once")) by (symmetry; auto with kinds).
  rewrite (bool_decide_eq_false_2 (u "cron" = u "interval")) by (symmetry; auto with kinds).
  rewrite bool_decide_eq_true_2 by done. intros <-.
  destruct (cron_expression s) as [|c expr]; [by left|]. cbn [nonempty].
  destruct (schedule_tz s) as [tz|[]] eqn:Hz; cbn [mbind result_bind]; unfold cron_next.
  2-5: unfold schedule_tz in Hz; repeat case_match; by simplify_eq; left.
  destruct (cron_get_next _ _ _) eqn:Ec; [|by left]. right. by eauto 10.
Qed.

Lemma next_run_unknown s now :
  schedule_type s <> u "once" -> schedule_type s <> u "interval" -> schedule_type s <> u "cron" ->
  next_run s now = Err ScheduleConfigError.
Proof. intros A B C. unfold next_run, next_run_in, str_eqb. by rewrite !bool_decide_eq_false_2. Qed.

(** Any next run is in the future: what the claim of a tick rests on. *)
Lemma next_run_strict s now t :
  (forall a, anchor_at s = Some a -> now - a < GAP_BOUND) ->
  next_run s now = Ok (Some t) -> now < t.
Proof.
  intros Hb E. assert (now - default now (anchor_at s) < GAP_BOUND) as Hg.
  { destruct (anchor_at s); [by apply Hb|]. unfold GAP_BOUND, SECOND. cbn. lia. }
  destruct (decide (schedule_type s = u "once")) as [E1|E1].
  { rewrite next_run_once in E by done. destruct (run_at s) as [t'|]; [|done].
    destruct (Z.ltb_spec now t'); [congruence|done]. }
  destruct (decide (schedule_type s = u "interval")) as [E2|E2].
  { destruct (next_run_interval s now E2) as [Er | [Er _]]; rewrite Er in E; [|done].
    destruct (step_interval _ _ _ _) as [r|] eqn:Es; [|done].
    assert (r = t) as <- by (cbn in E; congruence). by eapply step_interval_after. }
  destruct (decide (schedule_type s = u "cron")) as [E3|E3].
  - destruct (next_run_cron s now _ E3 eq_refl) as [Er | (tz & t' & _ & _ & Ec & Er)]; rewrite Er in E; [done|].
    pose proof (cron_advances _ _ _ _ Ec). assert (t' = t) by congruence. lia.
  - by rewrite next_run_unknown in E.
Qed.
End NextRun.

(** ** The instants a schedule fires at *)

Section Fires.
Context `{Lib : ScheduleLib} `{!LawfulLib} `{!CronLaws}.

Inductive fires (s : Schedule) (now : Z) : Z -> Prop :=
| fires_once t :
    schedule_type s = u "once" -> run_at s = Some t -> fires s now t
| fires_fixed us k :
    schedule_type s = u "interval" -> parse_interval (interval_spec s) = Ok (Fixed us) ->
    0 <= k -> fires s now (default now (anchor_at s) + k * us)
| fires_calendar unit n t :
    schedule_type s = u "interval" -> parse_interval (interval_spec s) = Ok (Calendar unit n) ->
    rtc (fun a b => rel_add unit n a = Ok b) (default now (anchor_at s)) t -> fires s now t
| fires_cron tz t :
    schedule_type s = u "cron" -> cron_expression s <> [] -> schedule_tz s = Ok tz ->
    cron_names (cron_expression s) tz t -> fires s now t.

(** What a result of [next_run] says of the cadence. *)
Definition run_spec (s : Schedule) (now : Z) (r : result SchedError (option Z)) : Prop :=
  match r with
  | Ok (Some t) => first_after (fires s now) now t
  | Ok None => schedule_type s = u "once" /\ forall t, fires s now t -> t <= now
  | Err ScheduleConfigError => forall t, fires s now t ->
      schedule_type s = u "cron" /\ (now < t -> now + FIFTY_YEARS < t)
  | Err _ => schedule_type s = u "interval" /\
      forall us t, parse_interval (interval_spec s) = Ok (Fixed us) ->
        fires s now t -> now < t -> MAX_STAMP < t
  end.

Lemma fires_of_once s now t : schedule_type s = u "once" -> fires s now t <-> run_at s = Some t.
Proof.
  intros E. split; [|by apply fires_once]. pose proof once_not_interval. pose proof once_not_cron.
  inversion 1; congruence.
Qed.

Lemma fires_of_fixed s now us t :
  schedule_type s = u "interval" -> parse_interval (interval_spec s) = Ok (Fixed us) ->
  fires s now t <-> exists k, 0 <= k /\ t = default now (anchor_at s) + k * us.
Proof.
  intros E Ep. pose proof once_not_interval. pose proof interval_not_cron. split.
  - inversion 1; subst; [congruence| |congruence..].
    assert (us0 = us) as -> by congruence. by eauto.
  - intros (k & Hk & ->). by apply fires_fixed.
Qed.

Lemma fires_of_calendar s now unit n t :
  schedule_type s = u "interval" -> parse_interval (interval_spec s) = Ok (Calendar unit n) ->
  fires s now t <-> rtc (fun a b => rel_add unit n a = Ok b) (default now (anchor_at s)) t.
Proof.
  intros E Ep. pose proof once_not_interval. pose proof interval_not_cron.
  split; [|by apply fires_calendar]. inversion 1; subst; [congruence..| |congruence].
  assert (unit0 = unit /\ n0 = n) as [-> ->] by (split; congruence). done.
Qed.

Lemma first_after_iff P Q now t :
  (forall t, P t <-> Q t) -> first_after P now t -> first_after Q now t.
Proof. intros E (A & B & C). split; [by apply E|]. split; [done|]. intros t' Ht. by apply C, E. Qed.

Lemma step_calendar_error fuel unit n nxt after e :
  step_calendar utc fuel unit n nxt after = Err e -> e <> ScheduleConfigError.
Proof.
  revert nxt. induction fuel as [|fuel IH]; intros nxt; cbn; [done|].
  destruct (_ <? _); [done|]. cbn [plus_calendar utc] in *; destruct (rel_add unit n nxt) eqn:Ea; [apply IH|].
  intros [= <-]. by eapply rel_add_range.
Qed.

Lemma fixed_run_spec s now us :
  schedule_type s = u "interval" -> parse_interval (interval_spec s) = Ok (Fixed us) ->
  now - default now (anchor_at s) < GAP_BOUND ->
  run_spec s now (Some <$> step_interval utc (default now (anchor_at s)) (interval_spec s) now).
Proof.
  intros E Ep Hg. pose proof (fun t => fires_of_fixed s now us t E Ep) as HF.
  destruct (step_interval _ _ _ _) as [r|e] eqn:Er; cbn [fmap result_fmap run_spec].
  - pose proof (step_fixed_first _ _ _ _ _ Hg Ep Er) as Hr.
    eapply first_after_iff; [|exact Hr]. intros t. symmetry. apply HF.
  - apply (step_fixed_overflow _ _ _ _ _ Hg Ep) in Er as [-> Hmax]. split; [done|].
    intros us' t Ep' Ht Hlt. apply HF in Ht. by apply Hmax.
Qed.

Lemma calendar_run_spec s now unit n :
  schedule_type s = u "interval" -> parse_interval (interval_spec s) = Ok (Calendar unit n) ->
  now - default now (anchor_at s) < GAP_BOUND ->
  run_spec s now (Some <$> step_interval utc (default now (anchor_at s)) (interval_spec s) now).
Proof.
  intros E Ep Hg. pose proof (fun t => fires_of_calendar s now unit n t E Ep) as HF.
  unfold step_interval. rewrite Ep. cbn [mbind result_bind].
  destruct (step_calendar _ _ _ _ _ _) as [r|e] eqn:Er; cbn [fmap result_fmap run_spec].
  - apply step_calendar_first in Er.
    + eapply first_after_iff; [|exact Er]. intros t. symmetry. apply HF.
    + by apply parse_interval_spec in Ep.
    + assert (Z.of_nat MAX_STEPS = 10000) as -> by (by vm_compute). unfold GAP_BOUND, DAY, SECOND in *. lia.
  - apply step_calendar_error in Er. destruct e; [done|split; [done|congruence]..].
Qed.

Lemma next_run_interval_spec s now :
  schedule_type s = u "interval" ->
  (forall a, anchor_at s = Some a -> now - a < GAP_BOUND) ->
  run_spec s now (next_run s now).
Proof.
  intros E Hb. pose proof once_not_interval as Hoi. pose proof interval_not_cron as Hic.
  assert (now - default now (anchor_at s) < GAP_BOUND) as Hg.
  { destruct (anchor_at s); [by apply Hb|]. unfold GAP_BOUND, SECOND. cbn. lia. }
  destruct (next_run_interval s now E) as [-> | [-> Hs]].
  2: { intros t Ht. inversion Ht; [congruence| | |congruence]; rewrite Hs in *; by edestruct no_empty_interval. }
  destruct (parse_interval (interval_spec s)) as [[us|unit n]|e] eqn:Ep.
  - by eapply fixed_run_spec.
  - by eapply calendar_run_spec.
  - unfold step_interval. rewrite Ep. cbn [mbind result_bind fmap result_fmap run_spec].
    assert (forall t, ~ fires s now t) as Hno by (intros t Ht; inversion Ht; congruence).
    destruct e; [by intros t ?%Hno|split; [done|congruence]..].
Qed.

Lemma next_run_once_spec s now : schedule_type s = u "once" -> run_spec s now (next_run s now).
Proof.
  intros E. rewrite next_run_once by done. pose proof (fun t => fires_of_once s now t E) as HF.
  destruct (run_at s) as [t|] eqn:Er; cbn.
  - destruct (Z.ltb_spec now t); cbn.
    + split; [by apply HF|]. split; [done|]. intros t' Ht%HF _. assert (t' = t) by congruence. lia.
    + split; [done|]. intros t' Ht%HF. assert (t' = t) by congruence. lia.
  - intros t Ht%HF. congruence.
Qed.

Lemma fires_of_cron s now t :
  schedule_type s = u "cron" -> fires s now t ->
  cron_expression s <> [] /\ exists tz, schedule_tz s = Ok tz /\ cron_names (cron_expression s) tz t.
Proof.
  intros E. pose proof once_not_cron. pose proof interval_not_cron. inversion 1; [congruence..|]. by eauto.
Qed.

(** The one call a cron schedule comes down to, where it names anything. *)
Lemma next_run_cron_call s now tz :
  schedule_type s = u "cron" -> cron_expression s <> [] -> schedule_tz s = Ok tz ->
  next_run s now = match cron_get_next (cron_expression s) tz now with
                   | Some t => Ok (Some t)
                   | None => Err ScheduleConfigError
                   end.
Proof.
  intros E Hx Hz. unfold next_run, next_run_in, str_eqb. rewrite E, Hz.
  rewrite (bool_decide_eq_false_2 (u "cron" = u "once")) by (symmetry; auto with kinds).
  rewrite (bool_decide_eq_false_2 (u "cron" = u "interval")) by (symmetry; auto with kinds).
  rewrite bool_decide_eq_true_2 by done. destruct (cron_expression s) eqn:Ex; [done|].
  cbn [nonempty mbind result_bind]. unfold cron_next. by destruct (cron_get_next _ _ _).
Qed.

Lemma next_run_cron_spec s now : schedule_type s = u "cron" -> run_spec s now (next_run s now).
Proof.
  intros E. destruct (next_run_cron s now _ E eq_refl) as [Er | (tz & t & Hx & Hz & Ec & Er)].
  - rewrite Er. intros t Ht. split; [done|].
    destruct (fires_of_cron s now t E Ht) as (Hx & tz & Hz & Hn).
    rewrite (next_run_cron_call s now tz E Hx Hz) in Er.
    destruct (cron_get_next _ _ _) eqn:Ec; [done|]. by eapply cron_gives_up.
  - rewrite Er. destruct (cron_finds _ _ _ _ Ec) as [Hn Hfirst]. split; [by eapply fires_cron|].
    split; [by eapply cron_advances|]. intros t' Ht'.
    destruct (fires_of_cron s now t' E Ht') as (_ & tz' & Hz' & Hn').
    assert (tz' = tz) as -> by congruence. by apply Hfirst.
Qed.

Lemma next_run_spec s now :
  (forall a, anchor_at s = Some a -> now - a < GAP_BOUND) ->
  run_spec s now (next_run s now).
Proof.
  intros Hb. destruct (decide (schedule_type s = u "once")) as [E|E1]; [by apply next_run_once_spec|].
  destruct (decide (schedule_type s = u "interval")) as [E|E2]; [by apply next_run_interval_spec|].
  destruct (decide (schedule_type s = u "cron")) as [E|E3]; [by apply next_run_cron_spec|].
  rewrite next_run_unknown by done. intros t Ht. by inversion Ht.
Qed.

End Fires.

(** ** Missed periods *)

Section Missed.
Context `{Lib : ScheduleLib} `{!LawfulLib}.

(** From one fire to the next, as [missed_periods] walks. *)
Definition next_fire (s : Schedule) (a b : Z) : Prop :=
  if str_eqb (schedule_type s) (u "interval") && nonempty (interval_spec s) then
    match parse_interval (interval_spec s) with
    | Ok (Fixed us) => b = a + us
    | Ok (Calendar unit n) => rel_add unit n a = Ok b
    | Err _ => False
    end
  else if str_eqb (schedule_type s) (u "cron") && nonempty (cron_expression s) then
    match schedule_tz s with
    | Ok tz => cron_next (cron_expression s) tz a = Ok b
    | Err _ => False
    end
  else False.

Lemma count_steps_spec fuel step now cursor count n :
  cursor <= now -> count_steps fuel step now cursor count = Ok n ->
  exists k t, n = count + Z.of_nat k /\ nsteps (fun a b => step a = Ok b) k cursor t /\ t <= now
    /\ (k <= fuel)%nat /\ ((k < fuel)%nat -> forall t', step t = Ok t' -> now < t').
Proof.
  revert cursor count. induction fuel as [|fuel IH]; intros cursor count Hc E.
  - injection E as <-. exists O, cursor. split_and!; [lia|constructor|done|lia|lia].
  - cbn [count_steps] in E. destruct (step cursor) as [cursor'|] eqn:Es; [|done].
    cbn [mbind result_bind] in E. destruct (Z.ltb_spec now cursor') as [Hlt|Hge].
    + injection E as <-. exists O, cursor. split_and!; [lia|constructor|done|lia|].
      intros _ t' Et. congruence.
    + destruct (IH cursor' (count + 1) Hge E) as (k & t & -> & Hk & Ht & Hf & Hend).
      exists (S k), t. split_and!; [lia|by econstructor|done|lia|]. intros ?. apply Hend. lia.
Qed.

Lemma nsteps_advances unit n k a b :
  0 < n -> nsteps (fun a b => rel_add unit n a = Ok b) k a b -> a + Z.of_nat k * (28 * DAY) <= b.
Proof.
  intros Hn. revert a. induction k as [|k IH]; intros a Hk; inversion Hk as [|? ? a' ? Ha Hr]; subst; [lia|].
  apply rel_add_advances in Ha; [|done]. apply IH in Hr. lia.
Qed.

Lemma nsteps_fixed us k a : nsteps (fun a b => b = a + us) k a (a + Z.of_nat k * us).
Proof.
  revert a. induction k as [|k IH]; intros a.
  - replace (a + Z.of_nat 0 * us) with a by lia. constructor.
  - econstructor; [done|]. replace (a + Z.of_nat (S k) * us) with (a + us + Z.of_nat k * us) by lia. apply IH.
Qed.

Lemma missed_fixed s scheduled_for now us :
  scheduled_for <= now -> now - scheduled_for < GAP_BOUND ->
  parse_interval (interval_spec s) = Ok (Fixed us) ->
  let n := whole_periods (now - scheduled_for) us in
  0 <= n /\ nsteps (fun a b => b = a + us) (Z.to_nat n) scheduled_for (scheduled_for + n * us)
  /\ scheduled_for + n * us <= now < scheduled_for + n * us + us.
Proof.
  intros Hle Hg Ep. destruct (parse_interval_spec _ _ Ep) as (P & -> & HP). cbn zeta.
  rewrite whole_periods_exact by lia.
  assert (0 < Zpos P * SECOND) by (unfold SECOND; lia). set (us := Zpos P * SECOND) in *.
  pose proof (Z.mul_div_le (now - scheduled_for) us ltac:(lia)).
  pose proof (Z.mul_succ_div_gt (now - scheduled_for) us ltac:(lia)).
  pose proof (Z.div_pos (now - scheduled_for) us ltac:(lia) ltac:(lia)).
  set (q := (now - scheduled_for) / us) in *. clearbody q us.
  split; [done|]. split; [|lia]. pose proof (nsteps_fixed us (Z.to_nat q) scheduled_for) as Hs.
  by rewrite Z2Nat.id in Hs.
Qed.

Lemma missed_calendar unit c scheduled_for now n :
  0 < c -> scheduled_for <= now -> now - scheduled_for < GAP_BOUND ->
  count_steps MAX_STEPS (rel_add unit c) now scheduled_for 0 = Ok n ->
  exists t, 0 <= n /\ nsteps (fun a b => rel_add unit c a = Ok b) (Z.to_nat n) scheduled_for t /\ t <= now
    /\ forall t', rel_add unit c t = Ok t' -> now < t'.
Proof.
  intros Hc Hle Hg E. apply count_steps_spec in E as (k & t & -> & Hk & Ht & _ & Hend); [|done].
  exists t. rewrite Z.add_0_l, Nat2Z.id. split_and!; [lia|done|done|]. apply Hend.
  apply nsteps_advances in Hk; [|done]. apply Nat2Z.inj_lt.
  assert (Z.of_nat MAX_STEPS = 10000) as -> by (by vm_compute).
  unfold GAP_BOUND, DAY, SECOND in *. lia.
Qed.

(** [missed_periods] counts the fires after the one that was due, up to
    now: walking that many steps of the cadence from the due instant ends at a
    fire not after now, and the next one is after now. (A cron cadence is walked
    at most ten thousand steps.) *)
Theorem missed_periods_counts s scheduled_for now n :
  now - scheduled_for < GAP_BOUND ->
  missed_periods s scheduled_for now = Ok n ->
  0 <= n /\
  (scheduled_for <= now ->
   exists t, nsteps (next_fire s) (Z.to_nat n) scheduled_for t /\ t <= now
     /\ (n < 10000 \/ schedule_type s = u "interval" ->
         scheduled_for < now -> forall t', next_fire s t t' -> now < t')).
Proof.
  intros Hg. unfold missed_periods. destruct (Z.leb_spec now scheduled_for) as [Hle|Hlt].
  { intros [= <-]. split; [done|]. intros ?. exists scheduled_for. split_and!; [constructor|lia|lia]. }
  unfold next_fire.
  destruct (str_eqb (schedule_type s) (u "interval") && nonempty (interval_spec s)) eqn:Ei.
  - destruct (parse_interval (interval_spec s)) as [[us|unit c]|] eqn:Ep; cbn [mbind result_bind]; [| |done].
    + intros [= <-]. destruct (missed_fixed s scheduled_for now us ltac:(lia) Hg Ep) as (Hn & Hs & Hr).
      split; [done|]. intros _. eexists. split; [exact Hs|]. split; [lia|]. intros _ _ t' ->. lia.
    + intros E. apply parse_interval_spec in Ep.
      destruct (missed_calendar unit c scheduled_for now n Ep ltac:(lia) Hg E) as (t & Hn & Hs & Ht & He).
      split; [done|]. intros _. exists t. by split_and!.
  - destruct (str_eqb (schedule_type s) (u "cron") && nonempty (cron_expression s)) eqn:Ec.
    + destruct (schedule_tz s) as [tz|]; cbn [mbind result_bind]; [|done]. intros E.
      apply count_steps_spec in E as (k & t & -> & Hk & Ht & Hf & Hend); [|lia].
      rewrite Z.add_0_l, Nat2Z.id. split; [lia|]. intros _. exists t. split_and!; [done|done|].
      intros Hn _. apply Hend. apply Nat2Z.inj_lt.
      assert (Z.of_nat MAX_STEPS = 10000) as -> by (by vm_compute).
      destruct Hn as [Hn|Hn]; [done|]. exfalso. rewrite Hn in Ec.
      apply andb_true_iff in Ec as [Ec _]. apply bool_decide_eq_true in Ec. by apply interval_not_cron.
    + intros [= <-]. split; [done|]. intros _. exists scheduled_for. split_and!; [constructor|lia|done].
Qed.
End Missed.

(** ** A concrete library *)

Module ScheduleDemo.
(** Every expression but the thirtieth of February is read as midnight; one of
    the two zones is an hour ahead. *)
Definition ahead (tz : pystr) : Z := if bool_decide (tz = u "Europe/Paris") then 3600 * SECOND else 0.

#[export] Instance lib : ScheduleLib := {|
  rel_add := fun unit n t =>
    let t' := t + n * (match unit with Months => 31 | Years => 366 end) * DAY in
    if t' <=? MAX_STAMP then Ok t' else Err ValueError;
  cron_get_next := fun expr tz t =>
    if bool_decide (expr = u "0 0 30 2 *") then None
    else Some (((t + ahead tz) / DAY + 1) * DAY - ahead tz);
  available_timezones := [u "UTC"; u "Europe/Paris"];
  current_timezone := u "UTC";
|}.

Lemma midnight_after expr tz t t' :
  cron_get_next expr tz t = Some t' ->
  expr <> u "0 0 30 2 *" /\ exists q, t' = (q + 1) * DAY - ahead tz /\ q * DAY <= t + ahead tz < (q + 1) * DAY.
Proof.
  unfold cron_get_next, lib. case_bool_decide as Hx; [done|]. intros E. split; [done|].
  exists ((t + ahead tz) / DAY). split; [congruence|].
  pose proof (Z.mul_succ_div_gt (t + ahead tz) DAY ltac:(by vm_compute)).
  pose proof (Z.mul_div_le (t + ahead tz) DAY ltac:(by vm_compute)). lia.
Qed.

#[export] Instance lawful : LawfulLib.
Proof.
  split.
  - intros unit n t t' Hn. cbn. case_match; [|done]. intros [= <-].
    destruct unit; unfold DAY, SECOND in *; lia.
  - intros unit n t e. cbn. case_match; [done|]. by intros [= <-].
  - intros expr tz t t' E. apply midnight_after in E as (_ & q & -> & Hq). lia.
Qed.

#[export] Instance cron_laws : CronLaws.
Proof.
  refine {| cron_names := fun expr tz t => expr <> u "0 0 30 2 *" /\ (t + ahead tz) mod DAY = 0 |}.
  - intros expr tz t t' E. apply midnight_after in E as (Hx & q & -> & Hq). split; [split; [done|]|].
    + replace (_ - _ + _) with ((q + 1) * DAY) by lia. apply Z.mod_mul. by vm_compute.
    + intros t'' (_ & Hm) Hlt. apply Z.div_exact in Hm; [|by vm_compute].
      set (p := (t'' + ahead tz) / DAY) in *. assert (0 < DAY) by by vm_compute.
      assert (q < p) by nia. nia.
  - intros expr tz t t'. cbn. case_bool_decide; [|done]. by intros _ [? _].
Defined.

(** Midnight in Paris, typed without regard to case. *)
Definition daily (expr : pystr) : Schedule :=
  {| schedule_type := u "cron"; interval_spec := []; anchor_at := None; cron_expression := expr;
     run_at := None; timezone := u "europe/paris" |}.

Definition every (spec : pystr) (anchor : option Z) : Schedule :=
  {| schedule_type := u "interval"; interval_spec := spec; anchor_at := anchor; cron_expression := [];
     run_at := None; timezone := [] |}.
End ScheduleDemo.
Import ScheduleDemo.


Theorem missed_periods_counts_witness :
  let s := ScheduleDemo.every (u "1mo") None in
  let now := 1000000000 + 100 * DAY in
  missed_periods s 1000000000 now = Ok 3
  /\ exists t, nsteps (next_fire s) 3 1000000000 t /\ t <= now.
Proof.
  assert (missed_periods (ScheduleDemo.every (u "1mo") None) 1000000000 (1000000000 + 100 * DAY) = Ok 3) as E
    by (by vm_compute).
  split; [exact E|].
  destruct (missed_periods_counts _ 1000000000 (1000000000 + 100 * DAY) 3 ltac:(by vm_compute) E) as (_ & T).
  destruct (T ltac:(by vm_compute)) as (t & T1 & T2 & _). by exists t.
Defined.

(** ** What the code does that its comments do not say *)

(** An interval longer than Python's durations is not a configuration error. *)
Lemma long_interval_overflows now :
  next_run (ScheduleDemo.every (u "9999999999d") None) now = Err OverflowError.
Proof. unfold next_run, next_run_in, step_interval. by vm_compute. Qed.

(** Nor is one that leads past the last year, or the long s of the regular
    expression's case folding. *)
Lemma far_interval_overflows :
  next_run (ScheduleDemo.every (u "4000000d") None) 63870000000000000 = Err OverflowError
  /\ parse_interval (u "5ſ") = Err KeyError.
Proof. by vm_compute. Qed.
