(* ===== verification/Scheduler.v ===== *)
(** * scheduler/services.py, models.py, registry.py: the ticks

    A tick is a program of database statements. [prog] is that program as a
    tree: a statement and what is done with its answer; [run] executes it alone,
    and SchedulerFacts interleaves any number of them. The task engine is an
    interface, [TaskEngine]; Retries implements it. *)
From stdpp Require Import sorting.
From S2P Require Import Prelude PyFloat PyStr Schedules.
Open Scope Z_scope.

(** ** Rows *)

Inductive Source := CODE | UI.
Inductive CatchUp := RUN_ONCE | SKIP.
Inductive RunStatus := QUEUED | SKIPPED | SUCCESS | FAILED.

#[global] Instance source_eq_dec : EqDecision Source.
Proof. solve_decision. Defined.
#[global] Instance catchup_eq_dec : EqDecision CatchUp.
Proof. solve_decision. Defined.
#[global] Instance runstatus_eq_dec : EqDecision RunStatus.
Proof. solve_decision. Defined.

(** [ScheduledJob]; [last_status] holds a run status, "invalid" or nothing. *)
Inductive LastStatus := NoStatus | Ran (s : RunStatus) | Invalid.

Record Job := {
  job_pk : Z;
  job_name : pystr;
  task_path : pystr;
  job_kwargs : pystr;
  queue_name : pystr;
  cadence : Schedule;
  enabled : bool;
  allow_overlap : bool;
  catch_up : CatchUp;
  max_retries : Z;
  source : Source;
  schedule_overridden : bool;
  auto_retired : bool;
  next_run_at : option Z;
  last_enqueued_at : option Z;
  last_status : LastStatus;
  total_runs : Z;
}.

#[global] Instance eta_job : Eta Job := fun j =>
  Build_Job (job_pk j) (job_name j) (task_path j) (job_kwargs j) (queue_name j) (cadence j) (enabled j)
    (allow_overlap j) (catch_up j) (max_retries j) (source j) (schedule_overridden j) (auto_retired j)
    (next_run_at j) (last_enqueued_at j) (last_status j) (total_runs j).

#[global] Instance laststatus_eq_dec : EqDecision LastStatus.
Proof. solve_decision. Defined.
#[global] Instance job_eq_dec : EqDecision Job.
Proof. solve_decision. Defined.

(** [ScheduledJobRun] *)
Record Run := {
  run_pk : Z;
  run_job : Z;
  run_status : RunStatus;
  scheduled_for : Z;
  created_at : Z;
  task_result_id : pystr;
  message : pystr;
}.

#[global] Instance eta_run : Eta Run := fun r =>
  Build_Run (run_pk r) (run_job r) (run_status r) (scheduled_for r) (created_at r) (task_result_id r) (message r).

(** ** The task engine, as the scheduler sees it *)

(** [Unresolvable] is the [ImportError], [AttributeError] or [ValueError] of a
    bad task path; the rest is [EnqueueFailed]. Each carries its text. *)
Inductive EnqueueErr := Unresolvable (text : pystr) | EnqueueFailed (text : pystr).

(** What [_engine_result] reads from the latest attempt of a run: the status,
    the serialized return value, the traceback, the attempt and the note on a
    double execution. *)
Record EngineResult := {
  er_status : pystr;
  er_return : option pystr;
  er_traceback : pystr;
  er_attempt : Z;
  er_note : pystr;
}.

Class TaskEngine (E : Type) := {
  enqueue_task : Z -> pystr -> pystr -> pystr -> option Z -> E -> result EnqueueErr (pystr * E);
  chain_result : Z -> pystr -> E -> option EngineResult;
}.

(** The tables, the engine's tables and the clock. *)
Record Db (E : Type) := {
  jobs : list Job;
  runs : list Run;
  engine : E;
  clock : Z;
}.
Arguments Build_Db {E}.
Arguments jobs {E}. Arguments runs {E}. Arguments engine {E}. Arguments clock {E}.

#[global] Instance eta_db {E} : Eta (Db E) := fun d => Build_Db (jobs d) (runs d) (engine d) (clock d).

Section Services.
Context {E : Type} `{TaskEngine E} `{ScheduleLib}.
Implicit Types d : Db E.

Definition UNFINISHED : list pystr := [u "READY"; u "RUNNING"; u "RETRYING"].

(** [SMALLSTACK_SCHEDULER_STALE_RUN_SECONDS] *)
Context (stale_run_seconds : Z).

(** ** Statements *)

Inductive stmt : Type :=
| SDue (now : Z)
| SClaim (pk observed : Z) (new_next : option Z)
| SDisable (pk : Z)
| SLastStatus (pk : Z) (s : RunStatus)
| SLastQueued (pk : Z)
| SChain (task_result_id : pystr)
| SEnqueue (job : Job) (scheduled_for : Z)
| SRecord (job : Z) (s : RunStatus) (scheduled_for : Z) (task_result_id message : pystr)
| SBump (pk now : Z).

Definition ans (s : stmt) : Type :=
  match s with
  | SDue _ => list Job
  | SClaim _ _ _ => bool
  | SLastQueued _ => option Run
  | SChain _ => option EngineResult
  | SEnqueue _ _ => result EnqueueErr pystr
  | _ => unit
  end.

Definition update_job (pk : Z) (f : Job -> Job) (l : list Job) : list Job :=
  (fun j => if job_pk j =? pk then f j else j) <$> l.

Definition is_due (now : Z) (j : Job) : bool :=
  enabled j && match next_run_at j with Some t => t <=? now | None => false end.

Definition by_name (a b : Job) : Prop := str_ltb (job_name b) (job_name a) = false.
#[local] Instance by_name_dec a b : Decision (by_name a b).
Proof. unfold by_name. apply _. Defined.

(** [filter(pk=..., next_run_at=observed)] *)
Definition claimable (pk observed : Z) (j : Job) : bool :=
  (job_pk j =? pk) && bool_decide (next_run_at j = Some observed).

(** [order_by("-created_at").first()]: the newest, the first of equals. *)
Definition newest (l : list Run) : option Run :=
  foldl (fun best r => match best with
                       | Some b => if created_at b <? created_at r then Some r else best
                       | None => Some r
                       end) None l.

Definition new_run_pk (l : list Run) : Z := foldr (fun r m => Z.max (run_pk r) m) 0 l + 1.

(** [_enqueue] and [pin_max_attempts], in one transaction: nothing is kept of
    an engine that raised. *)
Definition enqueue (job : Job) (d : Db E) : result EnqueueErr pystr * Db E :=
  let pin := if max_retries job =? 0 then None else Some (max_retries job + 1) in
  match enqueue_task (clock d) (task_path job) (job_kwargs job) (queue_name job) pin (engine d) with
  | Ok (id, e) => (Ok id, d <| engine := e |>)
  | Err e => (Err e, d)
  end.

Definition exec (s : stmt) (d : Db E) : ans s * Db E :=
  match s return ans s * Db E with
  | SDue now => (merge_sort by_name (filter (fun j => is_due now j = true) (jobs d)), d)
  | SClaim pk observed new_next =>
      if existsb (claimable pk observed) (jobs d)
      then (true, d <| jobs := (fun j => if claimable pk observed j then j <| next_run_at := new_next |> else j) <$> jobs d |>)
      else (false, d)
  | SDisable pk =>
      (tt, d <| jobs := update_job pk (fun j => j <| enabled := false |> <| last_status := Invalid |>) (jobs d) |>)
  | SLastStatus pk s => (tt, d <| jobs := update_job pk (fun j => j <| last_status := Ran s |>) (jobs d) |>)
  | SLastQueued pk =>
      (newest (filter (fun r => run_job r = pk /\ run_status r = QUEUED /\ task_result_id r <> []) (runs d)), d)
  | SChain id => (chain_result (clock d) id (engine d), d)
  | SEnqueue job _ => enqueue job d
  | SRecord job s t id msg =>
      (tt, d <| runs := runs d ++ [{| run_pk := new_run_pk (runs d); run_job := job; run_status := s;
                                     scheduled_for := t; created_at := clock d; task_result_id := id;
                                     message := msg |}] |>)
  | SBump pk now =>
      (tt, d <| jobs := update_job pk (fun j =>
                  j <| last_enqueued_at := Some now |> <| last_status := Ran QUEUED |>
                    <| total_runs := total_runs j + 1 |>) (jobs d) |>)
  end.

(** ** Programs *)

Inductive prog (A : Type) : Type :=
| Ret (a : A)
| Act (s : stmt) (k : ans s -> prog A).
Arguments Ret {A} a.
Arguments Act {A} s k.

Fixpoint bind {A B} (p : prog A) (f : A -> prog B) : prog B :=
  match p with
  | Ret a => f a
  | Act s k => Act s (fun a => bind (k a) f)
  end.

Fixpoint run {A} (p : prog A) (d : Db E) : A * Db E :=
  match p with
  | Ret a => (a, d)
  | Act s k => let '(a, d') := exec s d in run (k a) d'
  end.

(** ** A tick *)

(** [TickResult]; its [details] are never written. *)
Record TickResult := { tr_enqueued : Z; tr_skipped : Z; tr_retired : Z; tr_errors : Z }.
#[local] Instance eta_tick : Eta TickResult := fun r =>
  Build_TickResult (tr_enqueued r) (tr_skipped r) (tr_retired r) (tr_errors r).

Definition add_enqueued (r : TickResult) : TickResult := r <| tr_enqueued := tr_enqueued r + 1 |>.
Definition add_skipped (r : TickResult) : TickResult := r <| tr_skipped := tr_skipped r + 1 |>.
Definition add_retired (r : TickResult) : TickResult := r <| tr_retired := tr_retired r + 1 |>.
Definition add_error (r : TickResult) : TickResult := r <| tr_errors := tr_errors r + 1 |>.

(** [_previous_run_active] *)
Definition previous_run_active (job : Job) (now : Z) : prog bool :=
  Act (SLastQueued (job_pk job)) (fun last =>
    match last with
    | None => Ret false
    | Some r =>
        if created_at r <? now - stale_run_seconds * SECOND then Ret false
        else Act (SChain (task_result_id r)) (fun res =>
               Ret match res with
                   | Some e => bool_decide (er_status e ∈ UNFINISHED)
                   | None => false
                   end)
    end).

(** [enqueue_and_record] *)
Definition enqueue_and_record (job : Job) (for_ now : Z) : prog (result EnqueueErr pystr) :=
  Act (SEnqueue job for_) (fun r =>
    match r with
    | Err e => Ret (Err e)
    | Ok id =>
        Act (SRecord (job_pk job) QUEUED for_ id []) (fun _ =>
        Act (SBump (job_pk job) now) (fun _ => Ret (Ok id)))
    end).

Definition record_skip (job : Job) (observed : Z) (msg : pystr) (r : TickResult) : prog (TickResult * bool) :=
  Act (SRecord (job_pk job) SKIPPED observed [] msg) (fun _ => Ret (add_skipped r, false)).

Definition fire (job : Job) (observed now : Z) (r : TickResult) : prog (TickResult * bool) :=
  bind (enqueue_and_record job observed now) (fun out =>
    match out with
    | Ok _ => Ret (add_enqueued r, false)
    | Err (Unresolvable text) =>
        Act (SRecord (job_pk job) FAILED observed [] (take 255 (u "task_path unresolvable: " ++ text))) (fun _ =>
        Act (SDisable (job_pk job)) (fun _ => Ret (add_error r, false)))
    | Err (EnqueueFailed text) =>
        Act (SRecord (job_pk job) FAILED observed [] (take 255 (u "enqueue failed: " ++ text))) (fun _ =>
        Act (SLastStatus (job_pk job) FAILED) (fun _ => Ret (add_error r, false)))
    end).

(** The end of [_process_job_body], once the claim is won. *)
Definition act_on_claim (job : Job) (observed now : Z) (r : TickResult) : prog (TickResult * bool) :=
  bind (if allow_overlap job then Ret false else previous_run_active job now) (fun active =>
    if active then record_skip job observed (u "previous run still active") r
    else
      match catch_up job with
      | SKIP =>
          match missed_periods (cadence job) observed now with
          | Err _ => Ret (r, true)
          | Ok missed =>
              if 1 <=? missed then record_skip job observed (u "missed " ++ str_of_Z missed ++ u " run(s)") r
              else fire job observed now r
          end
      | RUN_ONCE => fire job observed now r
      end).

(** [_process_job_body]: the counters, and whether it raised. *)
Definition process_job (job : Job) (now : Z) (r : TickResult) : prog (TickResult * bool) :=
  match next_run_at job with
  | None => Ret (r, false)
  | Some observed =>
      match next_run (cadence job) now with
      | Err ScheduleConfigError => Act (SDisable (job_pk job)) (fun _ => Ret (add_error r, false))
      | Err _ => Ret (r, true)
      | Ok new_next =>
          Act (SClaim (job_pk job) observed new_next) (fun claimed =>
            if claimed
            then act_on_claim job observed now (match new_next with None => add_retired r | Some _ => r end)
            else Ret (r, false))
      end
  end.

Fixpoint process_all (l : list Job) (now : Z) (r : TickResult) : prog TickResult :=
  match l with
  | [] => Ret r
  | job :: l' =>
      bind (process_job job now r) (fun '(r', raised) =>
        process_all l' now (if raised : bool then add_error r' else r'))
  end.

(** [run_due_jobs], once the code-declared jobs are synced. *)
Definition run_due_jobs (now : Z) : prog TickResult :=
  Act (SDue now) (fun due => process_all due now (Build_TickResult 0 0 0 0)).

(** The "run now" button: the same fire, off schedule. *)
Definition run_now (job : Job) (now : Z) : prog (result EnqueueErr pystr) := enqueue_and_record job now now.
End Services.

Arguments Ret {A} a.
Arguments Act {A} s k.
