(* ===== verification/SchedulerSync.v ===== *)
(** * scheduler/models.py, forms.py, decorators.py, registry.py: rows and their sync

    Saving a schedule, the operator's form, the jobs declared in code and their
    reconciliation with the table, and the promotion of finished runs. *)
From stdpp Require Import sorting.
From S2P Require Import Prelude PyFloat PyStr PyTime Schedules Scheduler.
Open Scope Z_scope.

Section Models.
Context {E : Type} `{ScheduleLib}.
Implicit Types d : Db E.

(** ** Saving *)

(** [save] puts the time zone in its canonical spelling, when it has one. *)
Definition with_canonical_tz (s : Schedule) : Schedule :=
  if nonempty (timezone s) then s <| timezone := default (timezone s) (canonical_timezone (timezone s)) |> else s.

(** [compute_next_run] where a configuration error leaves the row unscheduled. *)
Definition reseed (ar : Arith) (s : Schedule) (now : Z) : result SchedError (option Z) :=
  match next_run_in ar s now with
  | Err ScheduleConfigError => Ok None
  | r => r
  end.

(** [ScheduledJob.save]: [old] is the cadence of the stored row. *)
Definition save (ar : Arith) (now : Z) (old : option Schedule) (j : Job) : result SchedError Job :=
  let j := j <| cadence := with_canonical_tz (cadence j) |> in
  let changed := match old with Some c => negb (bool_decide (c = cadence j)) | None => false end in
  if enabled j && (bool_decide (next_run_at j = None) || changed)
  then t ← reseed ar (cadence j) now; Ok (j <| next_run_at := t |>)
  else Ok j.

Definition find_job (p : Job -> bool) (l : list Job) : option Job := List.find p l.
Definition get_job (pk : Z) (l : list Job) : option Job := find_job (fun j => job_pk j =? pk) l.
Definition get_by_name (name : pystr) (l : list Job) : option Job := find_job (fun j => str_eqb (job_name j) name) l.

(** The UPDATE of a save: the row of that key. *)
Definition store (j : Job) (l : list Job) : list Job := update_job (job_pk j) (fun _ => j) l.

(** ** Validation *)

Inductive CleanErr :=
| BadField (field : pystr)
| CleanRaised (e : SchedError).

(** [clean]: the schedule to keep; [queues] is [_backend_queues(task_path)]. *)
Definition clean (now : Z) (queues : list pystr) (j : Job) : result CleanErr Schedule :=
  let s := cadence j in
  let check (field : pystr) (present : bool) :=
    if negb present then Err (BadField field)
    else
      match (if nonempty (timezone s) then canonical_timezone (timezone s) else Some []) with
      | None => Err (BadField (u "timezone"))
      | Some tz =>
          let s := s <| timezone := tz |> in
          match next_run s now with
          | Err ScheduleConfigError => Err (BadField field)
          | Err e => Err (CleanRaised e)
          | Ok _ =>
              if bool_decide (queues <> []) && negb (bool_decide (queue_name j ∈ queues))
              then Err (BadField (u "queue_name")) else Ok s
          end
      end in
  if str_eqb (schedule_type s) (u "once") then check (u "run_at") (bool_decide (is_Some (run_at s)))
  else if str_eqb (schedule_type s) (u "interval") then check (u "interval_spec") (nonempty (interval_spec s))
  else if str_eqb (schedule_type s) (u "cron") then check (u "cron_expression") (nonempty (cron_expression s))
  else Err (BadField (u "schedule_type")).

(** ** The operator's form *)

(** The fields an operator may change; the definition of the job is locked. *)
Record JobForm := {
  jf_cadence : Schedule;
  jf_enabled : bool;
  jf_allow_overlap : bool;
  jf_catch_up : CatchUp;
  jf_max_retries : Z;
}.

Definition construct (f : JobForm) (j : Job) : Job :=
  j <| cadence := jf_cadence f |> <| enabled := jf_enabled f |> <| allow_overlap := jf_allow_overlap f |>
    <| catch_up := jf_catch_up f |> <| max_retries := jf_max_retries f |>.

(** [ScheduledJobForm.save]: [loaded] is the row as the request read it, [d]
    the database as the request writes it. *)
Definition form_save (loaded : Job) (f : JobForm) (d : Db E) : result SchedError (Db E) :=
  let obj := construct f loaded in
  let prev := get_job (job_pk obj) (jobs d) in
  let obj :=
    if negb (schedule_overridden obj) && match prev with Some p => negb (bool_decide (cadence p = cadence obj)) | None => false end
    then obj <| schedule_overridden := true |> else obj in
  j ← save utc (clock d) (cadence <$> prev) obj;
  Ok (d <| jobs := store j (jobs d) |>).

(** [reset_schedule], before the re-sync. *)
Definition clear_override (pk : Z) (d : Db E) : Db E :=
  d <| jobs := update_job pk (fun j => j <| schedule_overridden := false |>) (jobs d) |>.
End Models.

(** ** Jobs declared in code *)

Record Spec := {
  sp_task_path : pystr;
  sp_name : pystr;
  sp_cadence : Schedule;
  sp_anchor : pystr;
  sp_queue : pystr;
  sp_kwargs : pystr;
  sp_catch_up : CatchUp;
  sp_allow_overlap : bool;
}.

(** [@scheduled(...)] on the task at [path]; [None] is its [ValueError]. *)
Definition scheduled (path every cron : pystr) (at_ : option Z) (anchor name tz queue kwargs : pystr)
    (catch : CatchUp) (overlap : bool) : option Spec :=
  let provided := [nonempty every; nonempty cron; bool_decide (is_Some at_)] in
  if negb (Nat.eqb (length (filter (fun b => b = true) provided)) 1) then None
  else
    let '(stype, spec, expr, at_, anchor) :=
      if nonempty every then (u "interval", every, [], None, anchor)
      else if nonempty cron then (u "cron", [], cron, None, [])
      else (u "once", [], [], at_, []) in
    Some {| sp_task_path := path;
            sp_name := if nonempty name then name else default [] (last (split_char 46 path));
            sp_cadence := {| schedule_type := stype; interval_spec := spec; anchor_at := None;
                             cron_expression := expr; run_at := at_; timezone := tz |};
            sp_anchor := anchor; sp_queue := queue; sp_kwargs := kwargs;
            sp_catch_up := catch; sp_allow_overlap := overlap |}.

(** What the sync reads of time zones and ISO dates: the year of an instant in
    a zone, the instant of a wall-clock time in it, arithmetic on its wall
    clock, and [datetime.fromisoformat] ([inl] a naive time, [inr] an instant). *)
Class ZoneLib := {
  zone_year : pystr -> Z -> Z;
  of_wall : pystr -> Z -> Z;
  wall_arith : pystr -> Arith;
  fromisoformat : pystr -> option (Z + Z);
}.

Section Registry.
Context {E : Type} `{ScheduleLib} `{ZoneLib}.
Implicit Types d : Db E.

Definition resolve_anchor (anchor tz : pystr) (now : Z) : option Z :=
  if negb (nonempty anchor) then None
  else
    if Nat.eqb (length anchor) 5 && bool_decide (anchor !! 2%nat = Some 45) then
      month ← parse_int (slice_to 2 anchor); day ← parse_int (slice_from 3 anchor);
      t ← mk_datetime (zone_year tz now) month day 0 0 0;
      Some (of_wall tz (dt_stamp t))
    else
      match fromisoformat anchor with
      | Some (inl naive) => Some (of_wall tz naive)
      | Some (inr t) => Some t
      | None => None
      end.

Definition set_anchor (a : option Z) (j : Job) : Job :=
  match a with Some t => j <| cadence := cadence j <| anchor_at := Some t |> |> | None => j end.

(** The cadence of a spec leaves the anchor of the row alone. *)
Definition code_cadence (sp : Spec) (s : Schedule) : Schedule := sp_cadence sp <| anchor_at := anchor_at s |>.

Definition new_pk (l : list Job) : Z := foldr (fun j m => Z.max (job_pk j) m) 0 l + 1.

(** The row [get_or_create] inserts. *)
Definition new_job (pk : Z) (sp : Spec) : Job :=
  {| job_pk := pk; job_name := sp_name sp; task_path := sp_task_path sp; job_kwargs := sp_kwargs sp;
     queue_name := sp_queue sp; cadence := sp_cadence sp; enabled := true; allow_overlap := sp_allow_overlap sp;
     catch_up := sp_catch_up sp; max_retries := 0; source := CODE; schedule_overridden := false;
     auto_retired := false; next_run_at := None; last_enqueued_at := None; last_status := NoStatus;
     total_runs := 0 |}.

Definition arith_of (anchor : option Z) (tz : pystr) : Arith :=
  match anchor with Some _ => wall_arith tz | None => utc end.

(** [_reseed_next_run] *)
Definition reseed_next_run (ar : Arith) (now : Z) (j : Job) : result SchedError Job :=
  t ← reseed ar (cadence j) now; Ok (j <| next_run_at := t |>).

Definition sync_created (now : Z) (sp : Spec) (l : list Job) : result SchedError (list Job) :=
  j ← save utc now None (new_job (new_pk l) sp);
  tz ← schedule_tz (cadence j);
  let anchor := resolve_anchor (sp_anchor sp) tz now in
  let ar := arith_of anchor tz in
  j1 ← reseed_next_run ar now (set_anchor anchor j);
  j2 ← save ar now (Some (cadence j)) j1;
  Ok (l ++ [j2]).

(** A partial save leaves the stored spelling of the zone. *)
Definition keep_timezone (stored : Schedule) (j : Job) : Job :=
  j <| cadence := cadence j <| timezone := timezone stored |> |>.

(** The row found: task wiring follows code, the cadence too unless the
    operator overrode it; a row retired automatically comes back. *)
Definition sync_found (now : Z) (sp : Spec) (j : Job) : result SchedError Job :=
  tz ← schedule_tz (cadence j);
  let anchor := resolve_anchor (sp_anchor sp) tz now in
  let j1 := j <| task_path := sp_task_path sp |> <| job_kwargs := sp_kwargs sp |> in
  let j2 := if schedule_overridden j then j1 else j1 <| cadence := code_cadence sp (cadence j) |> in
  let anchored := negb (schedule_overridden j) && bool_decide (is_Some anchor)
                  && negb (bool_decide (anchor_at (cadence j) = anchor)) in
  let j3 := if anchored then set_anchor anchor j2 else j2 in
  let j4 := if auto_retired j then j3 <| enabled := true |> <| auto_retired := false |> else j3 in
  let cadence_changed := negb (bool_decide (cadence j4 = cadence j)) in
  let ar := if anchored then wall_arith tz else utc in
  j5 ← (if enabled j4 && (cadence_changed || bool_decide (next_run_at j4 = None))
        then reseed_next_run ar now j4 else Ok j4);
  if bool_decide (j5 = j) then Ok j
  else
    j6 ← save ar now (Some (cadence j)) j5;
    Ok (if bool_decide (timezone (cadence j4) = timezone (cadence j)) then keep_timezone (cadence j) j6 else j6).

Definition sync_spec (now : Z) (sp : Spec) (l : list Job) : result SchedError (list Job) :=
  match get_by_name (sp_name sp) l with
  | None => sync_created now sp l
  | Some j => j' ← sync_found now sp j; Ok (store j' l)
  end.

Fixpoint sync_specs (now : Z) (specs : list Spec) (l : list Job) : result SchedError (list Job) :=
  match specs with
  | [] => Ok l
  | sp :: specs' => l' ← sync_spec now sp l; sync_specs now specs' l'
  end.

(** [_retirement_is_plausible] *)
Definition retirement_is_plausible (orphans : list Job) (live_names : list pystr) : bool :=
  let known := zlen live_names + zlen orphans in
  zlen orphans * 2 <=? known.

Definition is_orphan (live_names : list pystr) (j : Job) : bool :=
  bool_decide (source j = CODE) && enabled j && negb (bool_decide (job_name j ∈ live_names)).

Definition retire (j : Job) : Job := j <| enabled := false |> <| auto_retired := true |> <| next_run_at := None |>.

Definition retire_orphans (live_names : list pystr) (l : list Job) : list Job :=
  let orphans := filter (fun j => is_orphan live_names j = true) l in
  if bool_decide (live_names = []) then l
  else if bool_decide (orphans <> []) && negb (retirement_is_plausible orphans live_names) then l
  else (fun j => if is_orphan live_names j then retire j else j) <$> l.

(** [sync_code_jobs] *)
Definition sync_code_jobs (specs : list Spec) (d : Db E) : result SchedError (Db E) :=
  l ← sync_specs (clock d) specs (jobs d);
  Ok (d <| jobs := retire_orphans (remove_dups (sp_name <$> specs)) l |>).
End Registry.

(** ** Outcomes *)

Definition MESSAGE_MAX : nat := 255.
Definition SUMMARY_MAX : nat := 240.
Definition NOTE_JOIN : pystr := u " — ".

(** [_with_double_execution_note] *)
Definition with_double_execution_note (message note : pystr) : pystr :=
  if negb (nonempty note) then take MESSAGE_MAX message
  else
    let note := take MESSAGE_MAX note in
    let room := 255 - zlen note - zlen NOTE_JOIN in
    if (room <=? 0) || negb (nonempty message) then note
    else take (Z.to_nat room) message ++ NOTE_JOIN ++ note.

Definition summarize_result (return_value : option pystr) : pystr :=
  match return_value with
  | None => []
  | Some text => take SUMMARY_MAX (join (u " ") (words text))
  end.

Definition summarize_error (traceback : pystr) : pystr :=
  match last (filter (fun l => l <> []) (strip <$> splitlines traceback)) with
  | Some l => take SUMMARY_MAX l
  | None => u "task failed"
  end.

Definition terminal (status : pystr) : option RunStatus :=
  if str_eqb status (u "SUCCESSFUL") then Some SUCCESS
  else if str_eqb status (u "FAILED") then Some FAILED else None.

Definition outcome_message (new : RunStatus) (e : EngineResult) : pystr :=
  let attempt := str_of_Z (er_attempt e) in
  let text :=
    match new with
    | SUCCESS =>
        let m := summarize_result (er_return e) in
        if 1 <? er_attempt e then m ++ u " (attempt " ++ attempt ++ u ")" else m
    | _ =>
        let m := summarize_error (er_traceback e) in
        if 1 <? er_attempt e then u "after " ++ attempt ++ u " attempts: " ++ m else m
    end in
  with_double_execution_note text (er_note e).

Section Reconcile.
Context {E : Type} `{TaskEngine E}.

(** [_notify_failure], best effort: what it leaves of the engine. *)
Context (notify_failure : Run -> E -> E).

Definition newer_first (a b : Run) : Prop := created_at b <= created_at a.
#[local] Instance newer_first_dec a b : Decision (newer_first a b).
Proof. unfold newer_first. apply _. Defined.

Definition is_latest (r : Run) (l : list Run) : bool :=
  negb (existsb (fun x => (run_job x =? run_job r) && (created_at r <? created_at x)) l).

Definition reconcile_run (r : Run) (d : Db E) : Db E * bool :=
  match chain_result (clock d) (task_result_id r) (engine d) with
  | None => (d, false)
  | Some e =>
      match terminal (er_status e) with
      | None => (d, false)
      | Some new =>
          let r' := r <| run_status := new |> <| message := outcome_message new e |> in
          let runs' := (fun x => if run_pk x =? run_pk r
                                 then x <| run_status := new |> <| message := message r' |> else x) <$> runs d in
          let jobs' := if is_latest r runs'
                       then update_job (run_job r) (fun j => j <| last_status := Ran new |>) (jobs d) else jobs d in
          let engine' := match new with FAILED => notify_failure r' (engine d) | _ => engine d end in
          (d <| runs := runs' |> <| jobs := jobs' |> <| engine := engine' |>, true)
      end
  end.

(** [reconcile_run_outcomes] *)
Definition reconcile_run_outcomes (limit : nat) (d : Db E) : Db E * Z :=
  let queued := take limit (merge_sort newer_first
                  (filter (fun r => run_status r = QUEUED /\ task_result_id r <> []) (runs d))) in
  foldl (fun '(d, n) r => let '(d', done_) := reconcile_run r d in (d', if done_ : bool then n + 1 else n)) (d, 0) queued.
End Reconcile.
