(* ===== verification/SchedulerFacts.v ===== *)
(** * Ticks that overlap never act twice on one due instant *)
From stdpp Require Import sorting.
From S2P Require Import Prelude PyFloat PyStr Schedules SchedulesFacts Scheduler SchedulerSync.
Open Scope Z_scope.

(** ** Statements and the cursor

    Only a claim moves [next_run_at]. *)

Definition cursors {E} (d : Db E) : list (Z * option Z * Schedule) :=
  (fun j => (job_pk j, next_run_at j, cadence j)) <$> jobs d.

Lemma update_job_cursors pk f (l : list Job) :
  (forall j, job_pk (f j) = job_pk j /\ next_run_at (f j) = next_run_at j /\ cadence (f j) = cadence j) ->
  (fun j => (job_pk j, next_run_at j, cadence j)) <$> update_job pk f l
  = (fun j => (job_pk j, next_run_at j, cadence j)) <$> l.
Proof.
  intros Hf. unfold update_job. rewrite <- list_fmap_compose. apply list_fmap_ext. intros _ j _. cbn.
  destruct (job_pk j =? pk); [|done]. by destruct (Hf j) as (-> & -> & ->).
Qed.

(** Rows of distinct keys: the key determines the row. *)
Lemma NoDup_fmap_key {A B C} (rows : list (A * B * C)) k b1 c1 b2 c2 :
  NoDup rows.*1.*1 -> (k, b1, c1) ∈ rows -> (k, b2, c2) ∈ rows -> b1 = b2 /\ c1 = c2.
Proof.
  induction rows as [|[[k' b'] c'] rows IH]; [by intros _ ?%elem_of_nil|].
  rewrite !fmap_cons. intros [Hk Hn]%NoDup_cons Hx Hy. cbn in Hk.
  assert (forall b c, (k', b, c) ∈ rows -> False) as Hno.
  { intros b c Hz. apply Hk. apply list_elem_of_fmap. exists (k', b). split; [done|].
    apply list_elem_of_fmap. by exists (k', b, c). }
  apply elem_of_cons in Hx as [[= -> -> ->]|Hx], Hy as [Hy|Hy]; try by (injection Hy as -> ->).
  - exfalso. by eapply Hno.
  - injection Hy as -> -> ->. exfalso. by eapply Hno.
  - by apply IH.
Qed.

(** ** The world: overlapping ticks, buttons, saves and time *)

Inductive Event :=
| Claimed (pk t : Z)
| Recorded (pk t : Z)
| Enqueued (pk t : Z).

Definition event (s : stmt) : ans s -> list Event :=
  match s return ans s -> list Event with
  | SClaim pk t _ => fun won => if won then [Claimed pk t] else []
  | SEnqueue job t => fun r => match r with Ok _ => [Enqueued (job_pk job) t] | Err _ => [] end
  | SRecord pk _ t _ _ => fun _ => [Recorded pk t]
  | _ => fun _ => []
  end.

Definition claims (l : list Event) : list (Z * Z) :=
  omap (fun e => match e with Claimed pk t => Some (pk, t) | _ => None end) l.
Definition records (l : list Event) : list (Z * Z) :=
  omap (fun e => match e with Recorded pk t => Some (pk, t) | _ => None end) l.
Definition enqueues (l : list Event) : list (Z * Z) :=
  omap (fun e => match e with Enqueued pk t => Some (pk, t) | _ => None end) l.

Inductive Thread :=
| Tick (p : prog TickResult)
| Button (p : prog (result EnqueueErr pystr)).

Record World (E : Type) := {
  w_db : Db E;
  w_threads : list Thread;
  w_trace : list Event;
}.
Arguments Build_World {E}.
Arguments w_db {E}. Arguments w_threads {E}. Arguments w_trace {E}.

Section World.
Context {E : Type} `{TaskEngine E} `{Lib : ScheduleLib} `{!LawfulLib}.
Context (stale_run_seconds epoch : Z).

(** All dates lie within [GAP_BOUND] of the oldest anchor. *)
Definition recent (s : Schedule) : Prop := forall a, anchor_at s = Some a -> epoch <= a.

Inductive wstep : World E -> World E -> Prop :=
| ws_tick d ths tr :
    wstep (Build_World d ths tr) (Build_World d (ths ++ [Tick (run_due_jobs stale_run_seconds (clock d))]) tr)
| ws_button d ths tr job :
    job ∈ jobs d ->
    wstep (Build_World d ths tr) (Build_World d (ths ++ [Button (run_now job (clock d))]) tr)
| ws_act_tick d ths tr i s k a d' :
    ths !! i = Some (Tick (Act s k)) -> exec s d = (a, d') ->
    wstep (Build_World d ths tr) (Build_World d' (<[i := Tick (k a)]> ths) (tr ++ event s a))
| ws_act_button d ths tr i s k a d' :
    ths !! i = Some (Button (Act s k)) -> exec s d = (a, d') ->
    wstep (Build_World d ths tr) (Build_World d' (<[i := Button (k a)]> ths) tr)
| ws_form d ths tr j f d' :
    j ∈ jobs d -> recent (jf_cadence f) -> form_save j f d = Ok d' ->
    wstep (Build_World d ths tr) (Build_World d' ths tr)
| ws_reconcile d ths tr notify limit :
    wstep (Build_World d ths tr) (Build_World (reconcile_run_outcomes notify limit d).1 ths tr)
| ws_engine d ths tr e :
    wstep (Build_World d ths tr) (Build_World (d <| engine := e |>) ths tr)
| ws_clock d ths tr c :
    clock d <= c < epoch + GAP_BOUND ->
    wstep (Build_World d ths tr) (Build_World (d <| clock := c |>) ths tr).

Record initial (w : World E) : Prop := {
  ini_threads : w_threads w = [];
  ini_trace : w_trace w = [];
  ini_pks : NoDup (job_pk <$> jobs (w_db w));
  ini_recent : Forall (fun j => recent (cadence j)) (jobs (w_db w));
  ini_clock : clock (w_db w) < epoch + GAP_BOUND;
}.

Inductive reachable : World E -> Prop :=
| reach_init w : initial w -> reachable w
| reach_step w w' : reachable w -> wstep w w' -> reachable w'.

(** ** What a thread may still do

    A claim won gives a thread the right to enqueue once and to record once for
    that job and instant. *)
Record Credit := { cr_slot : Z * Z; cr_enqueue : bool; cr_record : bool }.
Definition no_credit : Credit := {| cr_slot := (0, 0); cr_enqueue := false; cr_record := false |}.

Fixpoint safe {A} (now : Z) (c : Credit) (p : prog A) {struct p} : Prop :=
  match p with
  | Ret _ => True
  | Act s k =>
      match s return (ans s -> prog A) -> Prop with
      | SDue n => fun k =>
          n = now /\ forall l, Forall (fun j => is_due now j = true /\ recent (cadence j)) l -> safe now c (k l)
      | SClaim pk t new => fun k =>
          t <= now /\ (forall n, new = Some n -> now < n)
          /\ safe now {| cr_slot := (pk, t); cr_enqueue := true; cr_record := true |} (k true)
          /\ safe now c (k false)
      | SEnqueue job t => fun k =>
          cr_enqueue c = true /\ cr_slot c = (job_pk job, t)
          /\ forall r, safe now {| cr_slot := cr_slot c; cr_enqueue := false; cr_record := cr_record c |} (k r)
      | SRecord pk _ t _ _ => fun k =>
          cr_record c = true /\ cr_slot c = (pk, t)
          /\ forall a, safe now {| cr_slot := cr_slot c; cr_enqueue := cr_enqueue c; cr_record := false |} (k a)
      | _ => fun k => forall a, safe now c (k a)
      end k
  end.

(** A button's program claims nothing. *)
Fixpoint unclaiming {A} (p : prog A) : Prop :=
  match p with
  | Ret _ => True
  | Act s k =>
      match s with SClaim _ _ _ => False | _ => True end /\ forall a, unclaiming (k a)
  end.

Definition thread_safe (clk : Z) (c : Credit) (th : Thread) : Prop :=
  match th with
  | Tick p => exists now, now <= clk /\ now < epoch + GAP_BOUND /\ safe now c p
  | Button p => c = no_credit /\ unclaiming p
  end.

Lemma safe_bind {A B} now (p : prog A) (f : A -> prog B) c :
  safe now c p -> (forall a c', safe now c' (f a)) -> safe now c (bind p f).
Proof.
  intros Hp Hf. revert c Hp. induction p as [a|s k IH]; intros c Hp; cbn [bind]; [by apply Hf|].
  destruct s; cbn in Hp |- *; naive_solver.
Qed.

Lemma fire_safe now job t r c :
  cr_enqueue c = true -> cr_record c = true -> cr_slot c = (job_pk job, t) -> safe now c (fire job t now r).
Proof.
  intros He Hr Hs. unfold fire, enqueue_and_record. cbn [bind safe]. split_and!; [done..|].
  intros [id|e]; cbn [bind safe cr_record cr_slot].
  - by split_and!.
  - destruct e; cbn [safe cr_record cr_slot]; by split_and!.
Qed.

Lemma claimed_safe now job t r c :
  cr_enqueue c = true -> cr_record c = true -> cr_slot c = (job_pk job, t) ->
  safe now c (act_on_claim stale_run_seconds job t now r).
Proof.
  intros He Hr Hs. unfold act_on_claim.
  assert (forall active : bool, safe now c
    (if active then record_skip job t (u "previous run still active") r
     else match catch_up job with
          | SKIP => match missed_periods (cadence job) t now with
                    | Err _ => Ret (r, true)
                    | Ok missed =>
                        if 1 <=? missed then record_skip job t (u "missed " ++ str_of_Z missed ++ u " run(s)") r
                        else fire job t now r
                    end
          | RUN_ONCE => fire job t now r
          end)) as Hk.
  { intros active. pose proof (fire_safe now job t r c He Hr Hs).
    assert (forall msg, safe now c (record_skip job t msg r)) by (intros msg; by split_and!).
    destruct active; [auto|]. destruct (catch_up job); [auto|].
    destruct (missed_periods _ _ _) as [m|]; [|done]. destruct (1 <=? m); auto. }
  destruct (allow_overlap job); cbn [bind]; [exact (Hk false)|].
  unfold previous_run_active. cbn [bind safe]. intros [run|]; cbn [bind]; [|exact (Hk false)].
  destruct (_ <? _); cbn [bind safe]; [exact (Hk false)|]. intros res. apply Hk.
Qed.

Lemma process_job_safe now job r c :
  now < epoch + GAP_BOUND -> is_due now job = true -> recent (cadence job) ->
  safe now c (process_job stale_run_seconds job now r).
Proof.
  intros Hnow Hd Hrec. unfold process_job. unfold is_due in Hd.
  destruct (next_run_at job) as [t|]; [|done].
  destruct (next_run (cadence job) now) as [new|e] eqn:En; [|by destruct e].
  cbn [safe]. apply andb_true_iff in Hd as [_ Ht%Z.leb_le]. split_and!; [done| |by apply claimed_safe|done].
  intros n ->. eapply next_run_strict; [|exact En]. intros a Ha%Hrec. lia.
Qed.

Lemma process_all_safe now l r c :
  now < epoch + GAP_BOUND -> Forall (fun j => is_due now j = true /\ recent (cadence j)) l ->
  safe now c (process_all stale_run_seconds l now r).
Proof.
  intros Hnow Hl. revert r c. induction Hl as [|j l [Hd Hrec] _ IH]; intros r c; [done|].
  cbn [process_all]. apply safe_bind; [by apply process_job_safe|]. intros [r' raised] c'. apply IH.
Qed.

Lemma run_due_jobs_safe now c :
  now < epoch + GAP_BOUND -> safe now c (run_due_jobs stale_run_seconds now).
Proof. intros Hnow. split; [done|]. intros l Hl. by apply process_all_safe. Qed.

(** ** What statements do to the rows *)

Lemma exec_clock s (d : Db E) : clock (exec s d).2 = clock d.
Proof.
  destruct s; cbn; try done.
  - by destruct (existsb _ _).
  - unfold enqueue. by destruct (enqueue_task _ _ _ _ _ _) as [[]|].
Qed.

Lemma exec_cursors s (d : Db E) :
  (forall pk t n, s <> SClaim pk t n) -> cursors (exec s d).2 = cursors d.
Proof.
  intros Hs. destruct s; unfold cursors; cbn; try done; try by apply update_job_cursors.
  - naive_solver.
  - unfold enqueue. by destruct (enqueue_task _ _ _ _ _ _) as [[]|].
Qed.

Lemma exec_claim pk t new (d : Db E) :
  match exec (SClaim pk t new) d with
  | (true, d') => (exists s, (pk, Some t, s) ∈ cursors d)
      /\ cursors d' = (fun '(k, c, s) => if (k =? pk) && bool_decide (c = Some t) then (k, new, s) else (k, c, s)) <$> cursors d
  | (false, d') => d' = d
  end.
Proof.
  cbn. destruct (existsb (claimable pk t) (jobs d)) eqn:Ex; [|done]. split.
  - apply existsb_exists in Ex as (j & Hj & Hc). unfold claimable in Hc.
    apply andb_true_iff in Hc as [Hpk%Z.eqb_eq Ht%bool_decide_eq_true].
    exists (cadence j). unfold cursors. apply list_elem_of_fmap. exists j.
    split; [by rewrite Hpk, Ht|by apply list_elem_of_In].
  - unfold cursors. cbn. rewrite <- !list_fmap_compose. apply list_fmap_ext. intros _ j _. cbn.
    unfold claimable. by destruct (_ && _).
Qed.

(** ** Credits *)

Definition pending (f : Credit -> bool) (cs : list Credit) : list (Z * Z) :=
  omap (fun c => if f c then Some (cr_slot c) else None) cs.
Definition owed (f : Credit -> bool) (c : Credit) : list (Z * Z) := if f c then [cr_slot c] else [].

Lemma pending_split f cs i c c' :
  cs !! i = Some c ->
  exists rest, pending f cs ≡ₚ owed f c ++ rest /\ pending f (<[i := c']> cs) ≡ₚ owed f c' ++ rest.
Proof.
  intros Hi. exists (pending f (take i cs) ++ pending f (drop (S i) cs)).
  assert (forall x, pending f (take i cs ++ x :: drop (S i) cs)
    ≡ₚ owed f x ++ pending f (take i cs) ++ pending f (drop (S i) cs)) as Hx.
  { intros x. unfold pending, owed. rewrite omap_app. cbn [omap list_omap].
    destruct (f x); [|done]. cbn [app]. by rewrite Permutation_middle. }
  split.
  - rewrite <- Hx. by rewrite take_drop_middle.
  - rewrite <- Hx. rewrite insert_take_drop; [done|]. by apply lookup_lt_Some in Hi.
Qed.

(** A step of one thread: it emits [a], its credit becomes [c'] and [x] is claimed. *)
Lemma pending_step f cs i c c' done_ a claimed x :
  cs !! i = Some c -> a ++ owed f c' ⊆+ owed f c ++ x ->
  done_ ++ pending f cs ⊆+ claimed ->
  (done_ ++ a) ++ pending f (<[i := c']> cs) ⊆+ claimed ++ x.
Proof.
  intros Hi Ha Hd. destruct (pending_split f cs i c c' Hi) as (rest & H1 & H2).
  rewrite H2. rewrite H1 in Hd.
  transitivity ((done_ ++ owed f c ++ rest) ++ x); [|by apply submseteq_skips_r].
  rewrite <- !(assoc_L (++)). apply submseteq_skips_l.
  rewrite (Permutation_app_comm rest x), !(assoc_L (++)). by apply submseteq_skips_r.
Qed.

Record rows_ok (clk : Z) (cl : list (Z * Z)) (rows : list (Z * option Z * Schedule)) : Prop := {
  ro_pks : NoDup (rows.*1.*1);
  ro_recent : forall pk c s, (pk, c, s) ∈ rows -> recent s;
  ro_claims : NoDup cl;
  ro_past : forall pk t, (pk, t) ∈ cl -> t <= clk /\ forall n s, (pk, Some n, s) ∈ rows -> t < n;
}.

Record inv (w : World E) : Prop := {
  inv_clock : clock (w_db w) < epoch + GAP_BOUND;
  inv_rows : rows_ok (clock (w_db w)) (claims (w_trace w)) (cursors (w_db w));
  inv_credits : exists cs,
    Forall2 (thread_safe (clock (w_db w))) cs (w_threads w)
    /\ records (w_trace w) ++ pending cr_record cs ⊆+ claims (w_trace w)
    /\ enqueues (w_trace w) ++ pending cr_enqueue cs ⊆+ claims (w_trace w);
}.

Lemma cursors_pks (d : Db E) : (cursors d).*1.*1 = job_pk <$> jobs d.
Proof. unfold cursors. rewrite <- !list_fmap_compose. by apply list_fmap_ext. Qed.

(** The claim of a tick: nothing earlier of that job was claimed at that
    instant, and the cursor moves past it. *)
Lemma claim_rows_ok clk now cl rows pk t s new :
  rows_ok clk cl rows -> (pk, Some t, s) ∈ rows ->
  t <= now -> now <= clk -> (forall n, new = Some n -> now < n) ->
  rows_ok clk (cl ++ [(pk, t)])
    ((fun '(k, c, s) => if (k =? pk) && bool_decide (c = Some t) then (k, new, s) else (k, c, s)) <$> rows).
Proof.
  intros [Hpk Hrec Hcl Hpast] Hrow Ht Hnow Hnew. split.
  - rewrite <- !list_fmap_compose. erewrite (list_fmap_ext (_ ∘ _) (fst ∘ fst)), list_fmap_compose; [done|].
    intros _ [[k c] s'] _. cbn. by destruct (_ && _).
  - intros k c s' Hin. apply list_elem_of_fmap in Hin as ([[k0 c0] s0] & E0 & Hin).
    apply Hrec in Hin. destruct (_ && _); by injection E0 as ? ? ->.
  - apply NoDup_app. split; [done|]. split; [|apply NoDup_singleton].
    intros [k t'] Hin Hs. apply list_elem_of_singleton in Hs as [= -> ->].
    apply Hpast in Hin as [_ Hlt]. specialize (Hlt _ _ Hrow). lia.
  - intros k t' Hin. apply elem_of_app in Hin.
    assert (t' <= clk) as Hclk.
    { destruct Hin as [Hin|Hin]; [by destruct (Hpast _ _ Hin)|].
      apply list_elem_of_singleton in Hin. injection Hin. lia. }
    split; [done|]. intros n s' Hr. apply list_elem_of_fmap in Hr as ([[k0 c0] s0] & E0 & Hr0).
    destruct (Z.eqb_spec k0 pk) as [->|Hne]; cbn [andb] in E0.
    + assert (c0 = Some t) as ->.
      { by destruct (NoDup_fmap_key _ _ _ _ _ _ Hpk Hr0 Hrow). }
      rewrite bool_decide_eq_true_2 in E0 by done. injection E0 as -> <- ->.
      specialize (Hnew n eq_refl). destruct Hin as [Hin|Hin].
      * apply Hpast in Hin as [_ Hlt]. specialize (Hlt _ _ Hrow). lia.
      * apply list_elem_of_singleton in Hin. injection Hin. lia.
    + injection E0 as -> <- ->. destruct Hin as [Hin|Hin].
      * apply Hpast in Hin as [_ Hlt]. by eapply Hlt.
      * apply list_elem_of_singleton in Hin. by injection Hin as -> ->.
Qed.

(** ** Saves and reconciliation *)

Lemma canonical_tz_anchor s : anchor_at (with_canonical_tz s) = anchor_at s.
Proof. unfold with_canonical_tz. by destruct (nonempty _). Qed.

Lemma save_spec now old j j' :
  now < epoch + GAP_BOUND -> recent (cadence j) -> save utc now old j = Ok j' ->
  job_pk j' = job_pk j /\ recent (cadence j')
  /\ (next_run_at j' = next_run_at j \/ forall n, next_run_at j' = Some n -> now < n).
Proof.
  intros Hnow Hrec. unfold save. set (j1 := j <| cadence := _ |>).
  assert (recent (cadence j1)) as Hrec1 by (intros a; cbn; rewrite canonical_tz_anchor; apply Hrec).
  destruct (enabled j1 && _); [|intros [= <-]; split_and!; [done|done|by left]].
  unfold reseed. destruct (next_run_in utc (cadence j1) now) as [t|e] eqn:En; cbn [mbind result_bind].
  - intros [= <-]. split_and!; [done|done|]. right. intros n Hn. cbn in Hn. subst t. eapply next_run_strict; [|exact En].
    intros a Ha%Hrec1. lia.
  - destruct e; cbn [mbind result_bind]; try done. intros [= <-]. split_and!; [done|done|]. by right.
Qed.

Lemma form_save_spec j f (d d' : Db E) :
  clock d < epoch + GAP_BOUND -> recent (jf_cadence f) -> form_save j f d = Ok d' ->
  clock d' = clock d /\ exists j', jobs d' = store j' (jobs d) /\ job_pk j' = job_pk j /\ recent (cadence j')
    /\ (next_run_at j' = next_run_at j \/ forall n, next_run_at j' = Some n -> clock d < n).
Proof.
  intros Hnow Hrec. unfold form_save. set (obj := if _ && _ then _ else construct f j).
  assert (job_pk obj = job_pk j /\ next_run_at obj = next_run_at j /\ recent (cadence obj)) as (Hp & Hn & Hr).
  { subst obj. by destruct (_ && _). }
  destruct (save utc _ _ obj) as [j'|] eqn:Es; cbn [mbind result_bind]; [|done]. intros [= <-].
  split; [done|]. apply save_spec in Es as (H1 & H2 & H3); [|done..].
  exists j'. rewrite <- Hn. split_and!; [done|congruence|done|done].
Qed.

(** Replacing the row of a key by one whose cursor stays, or is in the future. *)
Lemma store_rows_ok clk cl (d d' : Db E) j j' :
  rows_ok clk cl (cursors d) -> j ∈ jobs d -> jobs d' = store j' (jobs d) ->
  job_pk j' = job_pk j -> recent (cadence j') ->
  next_run_at j' = next_run_at j \/ (forall n, next_run_at j' = Some n -> clk < n) ->
  rows_ok clk cl (cursors d').
Proof.
  intros [Hpk Hrec Hcl Hpast] Hj Hd Hk Hr Hn.
  assert (forall x, x ∈ cursors d' -> x ∈ cursors d \/ x = (job_pk j', next_run_at j', cadence j')) as Hin.
  { intros x. unfold cursors. rewrite Hd. unfold store, update_job.
    intros (y & -> & Hy)%list_elem_of_fmap. apply list_elem_of_fmap in Hy as (z & -> & Hz).
    destruct (job_pk z =? job_pk j'); [by right|left]. apply list_elem_of_fmap. by exists z. }
  split; [|intros pk c s Hx|done|intros pk t Ht].
  - rewrite cursors_pks in *. rewrite Hd. unfold store, update_job. rewrite <- list_fmap_compose.
    erewrite list_fmap_ext; [exact Hpk|]. intros _ x _. cbn.
    destruct (Z.eqb_spec (job_pk x) (job_pk j')); congruence.
  - apply Hin in Hx as [Hx|[= -> -> ->]]; [by eapply Hrec|done].
  - destruct (Hpast _ _ Ht) as [Hclk Hlt]. split; [done|]. intros n s Hx.
    apply Hin in Hx as [Hx|[= -> Hn' ->]]; [by eapply Hlt|].
    destruct Hn as [Hn|Hn]; [|specialize (Hn n (eq_sym Hn')); lia].
    apply (Hlt n (cadence j)). unfold cursors. apply list_elem_of_fmap. exists j. split; [congruence|done].
Qed.

Lemma reconcile_cursors notify limit (d : Db E) :
  cursors (reconcile_run_outcomes notify limit d).1 = cursors d
  /\ clock (reconcile_run_outcomes notify limit d).1 = clock d.
Proof.
  unfold reconcile_run_outcomes. set (q := take limit _). clearbody q.
  assert (forall n, let r := foldl (fun '(d, n) r => let '(d', done_) := reconcile_run notify r d in
            (d', if done_ : bool then n + 1 else n)) (d, n) q in
          cursors r.1 = cursors d /\ clock r.1 = clock d) as Hq; [|apply Hq].
  revert d. induction q as [|r q IH]; intros d n; [done|]. cbn [foldl].
  destruct (reconcile_run notify r d) as [d1 b] eqn:Er.
  assert (cursors d1 = cursors d /\ clock d1 = clock d) as [E1 E2].
  { unfold reconcile_run in Er. destruct (chain_result _ _ _) as [e|]; [|by injection Er as <- _].
    destruct (terminal _) as [new|]; [|by injection Er as <- _]. injection Er as <- _. split; [|done].
    unfold cursors. cbn. destruct (is_latest _ _); [by apply update_job_cursors|done]. }
  destruct (IH d1 (if b then n + 1 else n)) as [-> ->]. done.
Qed.

(** ** The invariant is kept *)

Lemma thread_safe_later clk clk' c th : clk <= clk' -> thread_safe clk c th -> thread_safe clk' c th.
Proof. intros Hle. destruct th as [p|p]; [|done]. intros (now & ? & ? & ?). exists now. split_and!; [lia|done|done]. Qed.

(** A statement of a tick, with the credit it leaves. *)
Lemma act_tick_rows d d' now c s (k : ans s -> prog TickResult) a cl :
  rows_ok (clock d) cl (cursors d) -> now <= clock d -> safe now c (Act s k) -> exec s d = (a, d') ->
  clock d' = clock d
  /\ rows_ok (clock d) (cl ++ claims (event s a)) (cursors d')
  /\ exists c', safe now c' (k a)
     /\ records (event s a) ++ owed cr_record c' ⊆+ owed cr_record c ++ claims (event s a)
     /\ enqueues (event s a) ++ owed cr_enqueue c' ⊆+ owed cr_enqueue c ++ claims (event s a).
Proof.
  intros Hrows Hnow Hsafe Hex.
  pose proof (exec_clock s d) as Hclk. rewrite Hex in Hclk. cbn in Hclk. split; [done|].
  assert ((forall pk t n, s <> SClaim pk t n) -> cursors d' = cursors d) as Hsame.
  { intros Hs. pose proof (exec_cursors s d Hs) as Hc. by rewrite Hex in Hc. }
  destruct s as [n|pk t new|pk|pk st|pk|id|job t|pk st t id msg|pk n].
  2: { pose proof (exec_claim pk t new d) as Hc. rewrite Hex in Hc.
       cbn in Hsafe. destruct Hsafe as (Ht & Hnew & Htrue & Hfalse). destruct a.
       - destruct Hc as [[s Hs] ->]. split; [by eapply claim_rows_ok|].
         eexists. split; [exact Htrue|]. cbn. split; apply submseteq_inserts_l; done.
       - subst d'. cbn. rewrite app_nil_r. split; [done|]. exists c. rewrite !app_nil_r. by split_and!. }
  all: rewrite Hsame by done; cbn in Hsafe.
  1-5,8: cbn; rewrite app_nil_r; (split; [done|]); exists c; rewrite !app_nil_r; (split; [|done]).
  - destruct Hsafe as [-> Hk]. apply Hk. injection Hex as <- _. rewrite merge_sort_Permutation.
    apply Forall_forall. intros j [Hd Hj]%list_elem_of_filter. split; [done|].
    eapply (ro_recent _ _ _ Hrows (job_pk j) (next_run_at j)). unfold cursors. apply list_elem_of_fmap. by exists j.
  - apply Hsafe.
  - apply Hsafe.
  - apply Hsafe.
  - apply Hsafe.
  - apply Hsafe.
  - destruct Hsafe as (He & Hslot & Hk). split; [destruct a; cbn; by rewrite app_nil_r|].
    eexists. split; [apply Hk|]. unfold owed. cbn. rewrite He, Hslot.
    destruct a; cbn; rewrite ?app_nil_r; split; try done. apply submseteq_nil_l.
  - destruct Hsafe as (Hr & Hslot & Hk). cbn. rewrite app_nil_r. split; [done|].
    eexists. split; [apply Hk|]. unfold owed. cbn. rewrite Hr, Hslot. by rewrite !app_nil_r.
Qed.

Lemma rows_ok_later clk clk' cl rows : clk <= clk' -> rows_ok clk cl rows -> rows_ok clk' cl rows.
Proof.
  intros Hle [H1 H2 H3 H4]. split; [done..|]. intros pk t Ht. destruct (H4 _ _ Ht). split; [lia|done].
Qed.

Lemma credits_spawn clk ths th tr c :
  (exists cs, Forall2 (thread_safe clk) cs ths
    /\ records tr ++ pending cr_record cs ⊆+ claims tr /\ enqueues tr ++ pending cr_enqueue cs ⊆+ claims tr) ->
  c = no_credit -> thread_safe clk c th ->
  exists cs, Forall2 (thread_safe clk) cs (ths ++ [th])
    /\ records tr ++ pending cr_record cs ⊆+ claims tr /\ enqueues tr ++ pending cr_enqueue cs ⊆+ claims tr.
Proof.
  intros (cs & H1 & H2 & H3) -> Hth. exists (cs ++ [no_credit]). split; [by apply Forall2_app; [|constructor]|].
  unfold pending in *. rewrite !omap_app. cbn. by rewrite !app_nil_r.
Qed.

Lemma act_tick_inv d ths tr i s k a d' :
  inv (Build_World d ths tr) -> ths !! i = Some (Tick (Act s k)) -> exec s d = (a, d') ->
  inv (Build_World d' (<[i := Tick (k a)]> ths) (tr ++ event s a)).
Proof.
  intros [Hclk Hrows (cs & Hths & Hrec & Henq)] Hi Hex. cbn in *.
  destruct (Forall2_lookup_r _ _ _ _ _ Hths Hi) as (c & Hci & now & Hnow & Hb & Hsafe).
  destruct (act_tick_rows d d' now c s k a _ Hrows Hnow Hsafe Hex) as (Ec & Hrows' & c' & Hk & Hr & He).
  split; cbn; rewrite Ec.
  - done.
  - unfold claims. rewrite omap_app. exact Hrows'.
  - exists (<[i := c']> cs). split; [apply Forall2_insert; [done|by exists now]|].
    unfold records, enqueues, claims. rewrite !omap_app. split; by eapply pending_step.
Qed.

Lemma act_button_inv d ths tr i s k a d' :
  inv (Build_World d ths tr) -> ths !! i = Some (Button (Act s k)) -> exec s d = (a, d') ->
  inv (Build_World d' (<[i := Button (k a)]> ths) tr).
Proof.
  intros [Hclk Hrows (cs & Hths & Hrec & Henq)] Hi Hex. cbn in *.
  destruct (Forall2_lookup_r _ _ _ _ _ Hths Hi) as (c & Hci & -> & Hs & Hk).
  pose proof (exec_clock s d) as Hc. rewrite Hex in Hc. cbn in Hc.
  assert (cursors d' = cursors d) as Hcur.
  { assert (forall pk t n, s <> SClaim pk t n) as Hns by (intros pk t n ->; done).
    pose proof (exec_cursors s d Hns) as Hc'. by rewrite Hex in Hc'. }
  split; cbn; rewrite ?Hc, ?Hcur; [done..|]. exists cs. split; [|done].
  rewrite <- (list_insert_id cs i no_credit Hci). by apply Forall2_insert.
Qed.

Lemma ticks_step_inv w w' : inv w -> wstep w w' -> inv w'.
Proof.
  intros Hi Hs. destruct Hs as [d ths tr|d ths tr job Hj|d ths tr i s k a d' Hth Hex|d ths tr i s k a d' Hth Hex
    |d ths tr j f d' Hj Hf Hsave|d ths tr notify limit|d ths tr e|d ths tr c Hc].
  - destruct Hi as [Hclk Hrows Hcr]. split; [done..|]. apply (credits_spawn _ _ _ _ no_credit Hcr); [done|].
    exists (clock d). split_and!; [done|done|]. by apply run_due_jobs_safe.
  - destruct Hi as [Hclk Hrows Hcr]. split; [done..|]. apply (credits_spawn _ _ _ _ no_credit Hcr); [done|].
    split; [done|]. split; [done|]. by intros [id|e].
  - by eapply act_tick_inv.
  - by eapply act_button_inv.
  - destruct Hi as [Hclk Hrows Hcr]. cbn in *.
    destruct (form_save_spec _ _ _ _ Hclk Hf Hsave) as (Ec & j' & Hd & Hp & Hr & Hn).
    split; cbn; rewrite Ec; [done| |done]. by eapply store_rows_ok.
  - destruct Hi as [Hclk Hrows Hcr]. cbn in *. destruct (reconcile_cursors notify limit d) as [E1 E2].
    split; cbn; by rewrite ?E1, ?E2.
  - destruct Hi as [Hclk Hrows Hcr]. by split.
  - destruct Hi as [Hclk Hrows (cs & Hths & Hcr)]. cbn in *. split; cbn.
    + lia.
    + eapply rows_ok_later; [|exact Hrows]. lia.
    + exists cs. split; [|done]. eapply Forall2_impl; [exact Hths|]. intros c' th. apply thread_safe_later. lia.
Qed.

Lemma ticks_reachable_inv w : reachable w -> inv w.
Proof.
  induction 1 as [w [H1 H2 H3 H4 H5]|w w' _ IH Hs]; [|by eapply ticks_step_inv]. split.
  - done.
  - rewrite H2. split.
    + by rewrite cursors_pks.
    + intros pk c s Hx. unfold cursors in Hx. apply list_elem_of_fmap in Hx as (j & [= _ _ ->] & Hj).
      rewrite Forall_forall in H4. by apply H4.
    + constructor.
    + by intros pk t ?%elem_of_nil.
  - rewrite H1, H2. exists []. split; [constructor|done].
Qed.

Lemma NoDup_submseteq_r (l k k' : list (Z * Z)) : NoDup k -> l ++ k' ⊆+ k -> NoDup l /\ forall x, x ∈ l -> x ∈ k.
Proof.
  intros Hk Hl. pose proof Hl as (k0 & Hp)%submseteq_Permutation. rewrite Hp in Hk.
  apply NoDup_app in Hk as [Hk _]. apply NoDup_app in Hk as [Hk _]. split; [done|].
  intros x Hx. eapply elem_of_submseteq; [|exact Hl]. apply elem_of_app. by left.
Qed.

(** C5: However ticks overlap, statement by statement, with each other, with the
    "run now" button, operators' saves, reconciliations, the task engine and the
    passing of time: no due instant of a job is claimed twice, no two runs are
    recorded by ticks for the same job and instant, its task is enqueued for
    that instant at most once, and nothing is recorded or enqueued that was not
    claimed. (A save happens at one point of the interleaving; see
    [stale_save_fires_twice] for one that does not.) *)
Theorem no_double_fire w :
  reachable w ->
  NoDup (claims (w_trace w)) /\ NoDup (records (w_trace w)) /\ NoDup (enqueues (w_trace w))
  /\ (forall x, x ∈ records (w_trace w) \/ x ∈ enqueues (w_trace w) -> x ∈ claims (w_trace w)).
Proof.
  intros Hw%ticks_reachable_inv. destruct Hw as [_ [_ _ Hcl _] (cs & _ & Hr & He)].
  apply NoDup_submseteq_r in Hr as [Hr1 Hr2]; [|done]. apply NoDup_submseteq_r in He as [He1 He2]; [|done].
  split_and!; [done..|]. intros x [Hx|Hx]; auto.
Qed.

(** One statement of the tick in slot [i]. *)
Definition act (i : nat) (w : World E) : World E :=
  match w_threads w !! i with
  | Some (Tick (Act s k)) =>
      let '(a, d') := exec s (w_db w) in Build_World d' (<[i := Tick (k a)]> (w_threads w)) (w_trace w ++ event s a)
  | _ => w
  end.

Lemma reach_act i w : reachable w -> reachable (act i w).
Proof.
  intros Hw. unfold act. destruct w as [d ths tr]. cbn in *.
  destruct (ths !! i) as [[[|s k]|p]|] eqn:Ei; try done.
  destruct (exec s d) as [a d'] eqn:Ex. eapply reach_step; [exact Hw|]. by eapply ws_act_tick.
Qed.
End World.

(** ** A tick alone *)

Section Alone.
Context {E : Type} `{TaskEngine E} `{Lib : ScheduleLib} `{!LawfulLib}.
Context (stale_run_seconds : Z).

(** A program that touches only the rows of key [p], and claims nothing. *)
Fixpoint local (p : Z) {A} (pr : prog A) : Prop :=
  match pr with
  | Ret _ => True
  | Act s k =>
      match s with
      | SClaim _ _ _ => False
      | SDisable pk | SLastStatus pk _ | SBump pk _ => pk = p
      | _ => True
      end /\ forall a, local p (k a)
  end.

Definition others (p : Z) (d : Db E) : list Job := filter (fun j => job_pk j <> p) (jobs d).
Definition calm (now p : Z) (d : Db E) : Prop := forall j, j ∈ jobs d -> job_pk j = p -> is_due now j = false.

Lemma others_update p f (l : list Job) :
  (forall j, job_pk (f j) = job_pk j) ->
  filter (fun j => job_pk j <> p) ((fun j => if job_pk j =? p then f j else j) <$> l)
  = filter (fun j => job_pk j <> p) l.
Proof.
  intros Hf. induction l as [|j l IH]; [done|]. rewrite fmap_cons, !filter_cons.
  destruct (Z.eqb_spec (job_pk j) p) as [Heq|Hne].
  - rewrite (decide_False (P := job_pk (f j) <> p)) by (rewrite Hf; lia).
    by rewrite (decide_False (P := job_pk j <> p)) by lia.
  - by rewrite !(decide_True (P := job_pk j <> p)), IH by done.
Qed.

Lemma calm_update now p f (d : Db E) :
  (forall j, job_pk (f j) = job_pk j) -> (forall j, is_due now j = false -> is_due now (f j) = false) ->
  calm now p d -> calm now p (d <| jobs := update_job p f (jobs d) |>).
Proof.
  intros Hp Hf Hc j Hj Hk. cbn in Hj. unfold update_job in Hj.
  apply list_elem_of_fmap in Hj as (x & -> & Hx).
  destruct (Z.eqb_spec (job_pk x) p); [apply Hf; by apply Hc|by apply Hc].
Qed.

Lemma local_stmt now p s (d : Db E) :
  match s with
  | SClaim _ _ _ => False
  | SDisable pk | SLastStatus pk _ | SBump pk _ => pk = p
  | _ => True
  end ->
  others p (exec s d).2 = others p d /\ (calm now p d -> calm now p (exec s d).2).
Proof.
  assert (forall f, (forall j, job_pk (f j) = job_pk j) ->
            (forall j, is_due now j = false -> is_due now (f j) = false) ->
            others p (d <| jobs := update_job p f (jobs d) |>) = others p d
            /\ (calm now p d -> calm now p (d <| jobs := update_job p f (jobs d) |>))) as Hupd.
  { intros f H1 H2. split; [by apply others_update|by apply calm_update]. }
  destruct s; cbn [exec snd]; intros Hs; subst; try done; try by apply Hupd.
  unfold enqueue. by destruct (enqueue_task _ _ _ _ _ _) as [[]|].
Qed.

Lemma run_local {A} now p (pr : prog A) (d : Db E) :
  local p pr ->
  others p (run pr d).2 = others p d /\ (calm now p d -> calm now p (run pr d).2).
Proof.
  revert d. induction pr as [a|s k IH]; intros d Hl; [done|]. destruct Hl as [Hs Hk]. cbn [run].
  destruct (local_stmt now p s d Hs) as [H1 H2]. destruct (exec s d) as [a d']. cbn in H1, H2.
  destruct (IH a d' (Hk a)) as [H3 H4]. split; [congruence|auto].
Qed.

Lemma local_bind {A B} p (pr : prog A) (f : A -> prog B) :
  local p pr -> (forall a, local p (f a)) -> local p (bind pr f).
Proof. intros Hp Hf. induction pr as [a|s k IH]; cbn in *; [done|]. destruct Hp. split; auto. Qed.

Lemma act_on_claim_local job t now r :
  local (job_pk job) (act_on_claim stale_run_seconds job t now r).
Proof.
  assert (local (job_pk job) (fire job t now r)) as Hf.
  { apply local_bind; [by split; [|intros [id|e]]|]. by intros [id|[]]. }
  assert (forall msg, local (job_pk job) (record_skip job t msg r)) as Hs by done.
  apply local_bind.
  - destruct (allow_overlap job); [done|]. split; [done|]. intros [x|]; [|done]. cbn. by destruct (_ <? _).
  - intros active. destruct active; [apply Hs|]. destruct (catch_up job); [apply Hf|].
    destruct (missed_periods _ _ _); [|done]. destruct (_ <=? _); [apply Hs|apply Hf].
Qed.

(** A job whose cadence raises something else than a configuration error: the
    tick can neither advance nor disable it. *)
Definition stuck (now : Z) (j : Job) : Prop :=
  exists e, next_run (cadence j) now = Err e /\ e <> ScheduleConfigError.

Definition anchored (now : Z) (j : Job) : Prop := forall a, anchor_at (cadence j) = Some a -> now - a < GAP_BOUND.

Lemma same_pk (d : Db E) j j' : NoDup (job_pk <$> jobs d) -> j ∈ jobs d -> j' ∈ jobs d -> job_pk j = job_pk j' -> j = j'.
Proof.
  intros Hn Hj Hj' Epk. apply list_elem_of_lookup in Hj as [a Ha], Hj' as [b Hb].
  assert (a = b) as ->; [|congruence].
  eapply NoDup_lookup; [exact Hn|by rewrite list_lookup_fmap, Ha|]. by rewrite list_lookup_fmap, Hb, Epk.
Qed.

Lemma claim_spec now j t new (d : Db E) :
  NoDup (job_pk <$> jobs d) -> j ∈ jobs d -> next_run_at j = Some t -> (forall n, new = Some n -> now < n) ->
  exists d', exec (SClaim (job_pk j) t new) d = (true, d') /\ others (job_pk j) d' = others (job_pk j) d
    /\ calm now (job_pk j) d'.
Proof.
  intros Hn Hj Ht Hnew. cbn.
  assert (existsb (claimable (job_pk j) t) (jobs d) = true) as ->.
  { apply existsb_exists. exists j. split; [by apply list_elem_of_In|]. unfold claimable.
    by rewrite Z.eqb_refl, bool_decide_eq_true_2. }
  eexists. split; [done|]. split.
  - unfold others. cbn. clear Hn Hj. induction (jobs d) as [|x l IH]; [done|].
    rewrite fmap_cons, !filter_cons, IH. unfold claimable.
    destruct (Z.eqb_spec (job_pk x) (job_pk j)) as [He|He]; cbn [andb].
    + rewrite !decide_False; [done|lia|]. destruct (bool_decide _); cbn; lia.
    + by rewrite !decide_True.
  - intros y Hy Hk. cbn in Hy. apply list_elem_of_fmap in Hy as (x & -> & Hx). unfold claimable in *.
    destruct (Z.eqb_spec (job_pk x) (job_pk j)) as [He|He]; cbn [andb] in *; [|done].
    rewrite (same_pk d x j Hn Hx Hj He), bool_decide_eq_true_2 by done. unfold is_due. cbn.
    destruct new as [n|]; [|apply andb_false_r]. specialize (Hnew n eq_refl).
    apply andb_false_iff. right. lia.
Qed.

Lemma process_job_settles now j r (d : Db E) :
  NoDup (job_pk <$> jobs d) -> j ∈ jobs d -> is_due now j = true -> anchored now j ->
  let '(_, raised, d') := run (process_job stale_run_seconds j now r) d in
  others (job_pk j) d' = others (job_pk j) d
  /\ (calm now (job_pk j) d' \/ stuck now j /\ d' = d).
Proof.
  intros Hn Hj Hd Ha. unfold process_job. pose proof Hd as Hd'. unfold is_due in Hd'.
  destruct (next_run_at j) as [t|] eqn:Et; [|by rewrite andb_false_r in Hd'].
  destruct (next_run (cadence j) now) as [new|e] eqn:En.
  - destruct (claim_spec now j t new d Hn Hj Et) as (d1 & Ex & Ho & Hc).
    { intros n ->. by eapply next_run_strict. }
    cbn [run]. rewrite Ex.
    pose proof (run_local now _ _ d1 (act_on_claim_local j t now match new with Some _ => r | None => add_retired r end))
      as [H1 H2].
    destruct (run (act_on_claim _ _ _ _ _) d1) as [[r' raised] d2]. cbn in H1, H2.
    split; [congruence|]. left. auto.
  - destruct e; try (cbn; split; [done|]; right; split; [|done]; by eexists).
    cbn [run]. destruct (exec (SDisable (job_pk j)) d) as [a d'] eqn:Ex.
    pose proof (local_stmt now (job_pk j) (SDisable (job_pk j)) d eq_refl) as [H1 _]. rewrite Ex in H1. cbn [run].
    split; [exact H1|]. left. injection Ex as _ <-. intros y Hy Hk. cbn in Hy.
    unfold update_job in Hy. apply list_elem_of_fmap in Hy as (x & -> & Hx).
    destruct (Z.eqb_spec (job_pk x) (job_pk j)); done.
Qed.

(** Due rows are still to be processed, or stuck. *)
Record ticking (now : Z) (todo : list Job) (d : Db E) : Prop := {
  tk_pks : NoDup (job_pk <$> jobs d);
  tk_todo : NoDup (job_pk <$> todo);
  tk_rows : Forall (fun j => j ∈ jobs d /\ is_due now j = true /\ anchored now j) todo;
  tk_due : forall j, j ∈ jobs d -> is_due now j = true -> j ∈ todo \/ stuck now j;
}.

Lemma others_elem p (d d' : Db E) j : others p d' = others p d -> job_pk j <> p -> j ∈ jobs d' <-> j ∈ jobs d.
Proof.
  intros Ho Hp. assert (j ∈ others p d' <-> j ∈ others p d) as Hi by by rewrite Ho.
  unfold others in Hi. rewrite !list_elem_of_filter in Hi. naive_solver.
Qed.

Lemma exec_pks s (d : Db E) : job_pk <$> jobs (exec s d).2 = job_pk <$> jobs d.
Proof.
  assert (forall pk f, (forall j, job_pk (f j) = job_pk j) -> job_pk <$> update_job pk f (jobs d) = job_pk <$> jobs d) as Hu.
  { intros pk f Hf. unfold update_job. rewrite <- list_fmap_compose. apply list_fmap_ext. intros _ j _. cbn.
    by destruct (_ =? _). }
  destruct s; cbn; try done; try by apply Hu.
  - destruct (existsb _ _); [|done]. cbn. rewrite <- list_fmap_compose. apply list_fmap_ext. intros _ j _. cbn.
    by destruct (claimable _ _ _).
  - unfold enqueue. by destruct (enqueue_task _ _ _ _ _ _) as [[]|].
Qed.

Lemma run_pks {A} (p : prog A) (d : Db E) : job_pk <$> jobs (run p d).2 = job_pk <$> jobs d.
Proof.
  revert d. induction p as [a|s k IH]; intros d; [done|]. cbn [run].
  pose proof (exec_pks s d) as H1. destruct (exec s d) as [a d']. cbn in H1. by rewrite IH.
Qed.

Lemma ticking_step now j todo r (d : Db E) :
  ticking now (j :: todo) d ->
  ticking now todo (run (process_job stale_run_seconds j now r) d).2.
Proof.
  intros [H1 H2 H3 H4]. rewrite fmap_cons in H2. apply NoDup_cons in H2 as [Hj H2].
  apply Forall_cons in H3 as [(Hin & Hd & Ha) H3].
  pose proof (process_job_settles now j r d H1 Hin Hd Ha) as Hp.
  pose proof (run_pks (process_job stale_run_seconds j now r) d) as Hpk.
  destruct (run _ d) as [[r' raised] d']. destruct Hp as [Ho Hc]. cbn in *.
  split; [by rewrite Hpk|done| |].
  - apply Forall_forall. intros x Hx. rewrite Forall_forall in H3. destruct (H3 x Hx) as (Hxd & ? & ?).
    split; [|done]. apply (others_elem _ _ _ _ Ho); [|done]. intros Epk. apply Hj.
    apply list_elem_of_fmap. by exists x.
  - intros x Hx Hdx. destruct (decide (job_pk x = job_pk j)) as [Epk|Epk].
    + destruct Hc as [Hc|[Hs ->]]; [by rewrite (Hc x Hx Epk) in Hdx|].
      right. by rewrite (same_pk d x j H1 Hx Hin Epk).
    + apply (others_elem _ _ _ _ Ho) in Hx; [|done]. destruct (H4 x Hx Hdx) as [Hx'|?]; [|by right].
      apply elem_of_cons in Hx' as [->|?]; [done|by left].
Qed.

Lemma run_bind {A B} (p : prog A) (f : A -> prog B) (d : Db E) :
  run (bind p f) d = let '(a, d') := run p d in run (f a) d'.
Proof.
  revert d. induction p as [a|s k IH]; intros d; [done|]. cbn. destruct (exec s d) as [a d']. apply IH.
Qed.

Lemma process_all_settles now todo r (d : Db E) :
  ticking now todo d -> ticking now [] (run (process_all stale_run_seconds todo now r) d).2.
Proof.
  revert r d. induction todo as [|j todo IH]; intros r d Ht; [done|].
  cbn [process_all]. rewrite run_bind. pose proof (ticking_step now j todo r d Ht) as Hs.
  destruct (run (process_job _ _ _ _) d) as [[r' raised] d']. by apply IH.
Qed.

Lemma process_all_stuck now l n (d : Db E) :
  Forall (stuck now) l ->
  (forall j, j ∈ l -> is_Some (next_run_at j)) ->
  run (process_all stale_run_seconds l now (Build_TickResult 0 0 0 n)) d
  = (Build_TickResult 0 0 0 (n + zlen l), d).
Proof.
  intros Hl. revert n. induction Hl as [|j l (e & He & Hne) _ IH]; intros n Hs.
  - cbn. by rewrite Z.add_0_r.
  - cbn [process_all]. rewrite run_bind. unfold process_job. destruct (Hs j (list_elem_of_here _ _)) as [t ->].
    rewrite He. rewrite zlen_cons.
    assert (run (process_all stale_run_seconds l now (Build_TickResult 0 0 0 (n + 1))) d
            = (Build_TickResult 0 0 0 (n + 1 + zlen l), d)) as IH'.
    { apply IH. intros x Hx. apply Hs. by apply list_elem_of_further. }
    replace (n + (1 + zlen l)) with (n + 1 + zlen l) by lia. destruct e; [done|exact IH'..].
Qed.

(** One tick settles everything that was due: afterwards a row is due only
    if its cadence raises something other than a configuration error (an
    interval past Python's dates), and a second tick at the same instant claims,
    records, enqueues and changes nothing; it only counts those rows as errors
    again. *)
Theorem tick_settles (d : Db E) :
  let now := clock d in
  NoDup (job_pk <$> jobs d) -> Forall (anchored now) (jobs d) ->
  let d' := (run (run_due_jobs stale_run_seconds now) d).2 in
  (forall j, j ∈ jobs d' -> is_due now j = true -> stuck now j)
  /\ exists n, run (run_due_jobs stale_run_seconds now) d' = (Build_TickResult 0 0 0 n, d').
Proof.
  intros now Hn Ha d'.
  assert (ticking now [] d') as [_ _ _ Hdue].
  { apply process_all_settles. split; [done| | |].
    - rewrite merge_sort_Permutation. eapply sublist_NoDup; [exact Hn|]. apply fmap_sublist, sublist_filter.
    - apply Forall_forall. intros j. rewrite merge_sort_Permutation, list_elem_of_filter. intros [Hd Hj].
      rewrite Forall_forall in Ha. auto.
    - intros j Hj Hd. left. by rewrite merge_sort_Permutation, list_elem_of_filter. }
  assert (forall j, j ∈ jobs d' -> is_due now j = true -> stuck now j) as Hst.
  { intros j Hj Hd. destruct (Hdue j Hj Hd) as [Hx|]; [by apply elem_of_nil in Hx|done]. }
  split; [exact Hst|]. eexists. cbn [run run_due_jobs exec]. apply process_all_stuck.
  - apply Forall_forall. intros j. rewrite merge_sort_Permutation, list_elem_of_filter. intros [Hd Hj]. auto.
  - intros j. rewrite merge_sort_Permutation, list_elem_of_filter. intros [Hd _]. unfold is_due in Hd.
    destruct (next_run_at j); [by eexists|]. by rewrite andb_false_r in Hd.
Qed.
End Alone.

(** ** A concrete station: one job every five minutes *)

Module TickDemo.
Import ScheduleDemo.

(** An engine that takes every task. *)
#[export] Instance takes_all : TaskEngine (list pystr) := {|
  enqueue_task := fun _ path _ _ _ e => Ok (str_of_Z (zlen e + 1), e ++ [path]);
  chain_result := fun _ _ _ => None;
|}.

Definition now : Z := 1000 * SECOND.

Definition job : Job :=
  {| job_pk := 1; job_name := u "fetch"; task_path := u "apps.feeds.tasks.fetch"; job_kwargs := u "{}";
     queue_name := u "default"; cadence := every (u "5m") (Some 0); enabled := true; allow_overlap := true;
     catch_up := RUN_ONCE; max_retries := 0; source := UI; schedule_overridden := false; auto_retired := false;
     next_run_at := Some (900 * SECOND); last_enqueued_at := None; last_status := NoStatus; total_runs := 7 |}.

Definition db : Db (list pystr) := {| jobs := [job]; runs := []; engine := []; clock := now |}.

Definition two_ticks : World (list pystr) :=
  {| w_db := db; w_threads := [Tick (run_due_jobs 86400 now); Tick (run_due_jobs 86400 now)]; w_trace := [] |}.

(** Both ticks read the due rows before either claims. *)
Definition overlapped : World (list pystr) :=
  foldl (fun w i => act i w) two_ticks [0; 1; 0; 1; 0; 0; 0; 1]%nat.

Lemma two_ticks_reachable : reachable 86400 0 two_ticks.
Proof.
  eapply reach_step; [eapply reach_step; [apply reach_init|]|].
  - instantiate (1 := {| w_db := db; w_threads := []; w_trace := [] |}). split.
    + done.
    + done.
    + apply NoDup_singleton.
    + apply Forall_singleton. by intros a [= <-].
    + by vm_compute.
  - apply ws_tick.
  - apply (ws_tick 86400 0 db [Tick (run_due_jobs 86400 now)] []).
Qed.

Lemma overlapped_reachable : reachable 86400 0 overlapped.
Proof. unfold overlapped. cbn [foldl]. do 8 apply reach_act. apply two_ticks_reachable. Qed.
End TickDemo.
Import ScheduleDemo TickDemo.

Theorem no_double_fire_witness :
  enqueues (w_trace overlapped) = [(1, 900 * SECOND)] /\ length (runs (w_db overlapped)) = 1%nat
  /\ NoDup (enqueues (w_trace overlapped)).
Proof.
  split; [by vm_compute|]. split; [by vm_compute|].
  destruct (no_double_fire 86400 0 overlapped overlapped_reachable) as (_ & _ & T & _). exact T.
Defined.

Theorem tick_settles_witness :
  let d' := (run (run_due_jobs 86400 TickDemo.now) TickDemo.db).2 in
  length (runs d') = 1%nat /\ exists n, run (run_due_jobs 86400 TickDemo.now) d' = (Build_TickResult 0 0 0 n, d').
Proof.
  split; [by vm_compute|].
  destruct (tick_settles 86400 TickDemo.db (NoDup_singleton _)) as [_ T].
  - apply Forall_singleton. intros a [= <-]. by vm_compute.
  - exact T.
Defined.

(** A form that read its row before a tick and writes it after puts back the
    cursor the tick had claimed, and the counters with it: the next tick fires
    the same instant again. *)
Definition same_form (j : Job) : JobForm :=
  {| jf_cadence := cadence j; jf_enabled := enabled j; jf_allow_overlap := allow_overlap j;
     jf_catch_up := catch_up j; jf_max_retries := max_retries j |}.

Lemma stale_save_fires_twice :
  let tick d := (run (run_due_jobs 86400 (clock d)) d).2 in
  let d1 := tick TickDemo.db in
  exists d2, form_save TickDemo.job (same_form TickDemo.job) d1 = Ok d2
    /\ total_runs <$> jobs d1 = [8] /\ total_runs <$> jobs d2 = [7]
    /\ scheduled_for <$> runs (tick d2) = [900 * SECOND; 900 * SECOND].
Proof. cbn zeta. eexists. split; [by vm_compute|]. by vm_compute. Qed.
