(* ===== verification/SchedulerSyncFacts.v ===== *)
(** * What the sync with code may change, and what finished runs report *)
From stdpp Require Import sorting.
From S2P Require Import Prelude PyFloat PyStr PyTime Schedules SchedulesFacts Scheduler SchedulerSync.
Open Scope Z_scope.

(** ** One row, one spec *)

(** A row before and after the specs are applied: identity, history and the
    operator's settings stay; an overridden cadence stays; a row is switched on
    only if the sync itself had retired it. *)
Record kept (j j' : Job) : Prop := {
  kp_pk : job_pk j' = job_pk j;
  kp_name : job_name j' = job_name j;
  kp_source : source j' = source j;
  kp_overlap : allow_overlap j' = allow_overlap j;
  kp_catch_up : catch_up j' = catch_up j;
  kp_retries : max_retries j' = max_retries j;
  kp_overridden : schedule_overridden j' = schedule_overridden j;
  kp_cadence : schedule_overridden j = true -> cadence j' = cadence j;
  kp_runs : total_runs j' = total_runs j;
  kp_status : last_status j' = last_status j;
  kp_enqueued : last_enqueued_at j' = last_enqueued_at j;
  kp_on : enabled j = true -> enabled j' = true;
  kp_operator : enabled j' = true -> enabled j = true \/ auto_retired j = true;
  kp_auto : auto_retired j' = true -> auto_retired j = true;
}.

#[export] Instance kept_refl : Reflexive kept.
Proof. intros j. by split; auto. Qed.

#[export] Instance kept_trans : Transitive kept.
Proof.
  intros a b c H1 H2. split.
  1-7, 9-11: by destruct H1, H2; etransitivity.
  - intros Ho. rewrite (kp_cadence _ _ H2); [by apply H1|]. by rewrite (kp_overridden _ _ H1).
  - intros Ho. by apply H2, H1.
  - intros [Hb|Hb]%H2; [by apply H1|right; by apply H1].
  - intros Hc. by apply H1, H2.
Qed.

Section Sync.
Context {E : Type} `{Lib : ScheduleLib} `{Zone : ZoneLib}.

Lemma save_kept ar now old j j' :
  save ar now old j = Ok j' ->
  exists t, j' = j <| cadence := with_canonical_tz (cadence j) |> <| next_run_at := t |>.
Proof.
  unfold save. destruct (_ && _).
  - destruct (reseed _ _ _) as [t|]; cbn [mbind result_bind]; [|done]. intros [= <-]. by exists t.
  - intros [= <-]. by exists (next_run_at j).
Qed.

Lemma keep_canonical s : with_canonical_tz s <| timezone := timezone s |> = s.
Proof. unfold with_canonical_tz. by destruct (nonempty (timezone s)), s. Qed.

Lemma sync_found_kept now sp j j' :
  sync_found now sp j = Ok j' -> kept j j' /\ (auto_retired j = true -> enabled j' = true) /\ auto_retired j' = false.
Proof.
  unfold sync_found. destruct (schedule_tz _) as [tz|]; cbn [mbind result_bind]; [|done].
  set (anchor := resolve_anchor _ _ _). set (anchored := _ && _ && _).
  set (j1 := j <| task_path := _ |> <| job_kwargs := _ |>).
  set (j2 := if schedule_overridden j then j1 else _).
  set (j3 := if anchored then set_anchor anchor j2 else j2).
  set (j4 := if auto_retired j then _ else j3).
  assert (kept j j4 /\ (auto_retired j = true -> enabled j4 = true) /\ auto_retired j4 = false
          /\ (schedule_overridden j = true -> cadence j4 = cadence j)) as (Hk & Hon & Hauto & Hcad).
  { assert (schedule_overridden j = true -> anchored = false) as Ha by (intros Ho; subst anchored; by rewrite Ho).
    subst j4 j3 j2 j1. destruct (schedule_overridden j) eqn:Ho.
    - rewrite (Ha eq_refl). destruct (auto_retired j) eqn:Er; split_and!; try done; split; cbn; auto; congruence.
    - unfold set_anchor. destruct anchored, anchor, (auto_retired j) eqn:Er; split_and!; try done; split; cbn; auto; congruence. }
  set (ar := if anchored then _ else _). clearbody j4 ar. clear j3 j2 j1.
  assert (forall j5, (exists t, j5 = j4 <| next_run_at := t |>) ->
    (if bool_decide (j5 = j) then Ok j
     else j6 ← save ar now (Some (cadence j)) j5;
          Ok (if bool_decide (timezone (cadence j4) = timezone (cadence j)) then keep_timezone (cadence j) j6 else j6)) = Ok j' ->
    kept j j' /\ (auto_retired j = true -> enabled j' = true) /\ auto_retired j' = false) as Hfin.
  { intros j5 (t & ->). case_bool_decide as Hsame.
    - intros [= <-]. assert (auto_retired j = auto_retired j4) as -> by by rewrite <- Hsame. by split; [|split; congruence].
    - destruct (save _ _ _ _) as [j6|] eqn:Es; cbn [mbind result_bind]; [|done].
      apply save_kept in Es as (t' & ->). intros [= <-].
      case_bool_decide as Htz; (split; [|by split]); destruct Hk; split; cbn; auto.
      + intros Ho. rewrite (Hcad Ho). apply keep_canonical.
      + intros Ho. rewrite (Hcad Ho) in Htz. done. }
  destruct (enabled j4 && _).
  - unfold reseed_next_run. destruct (reseed _ _ _) as [t|]; cbn [mbind result_bind]; [|done].
    apply Hfin. by exists t.
  - cbn [mbind result_bind]. apply Hfin. exists (next_run_at j4). by destruct j4.
Qed.

(** ** The whole table *)

(** What applying the specs of these names does to a row: rows they do not name
    are left alone, and a retired row they name comes back. *)
Record applied (names : list pystr) (j j' : Job) : Prop := {
  ap_kept : kept j j';
  ap_other : job_name j ∉ names -> j' = j;
  ap_back : auto_retired j = true -> job_name j ∈ names -> enabled j' = true /\ auto_retired j' = false;
}.

Lemma applied_same names j : (auto_retired j = true -> job_name j ∉ names) -> applied names j j.
Proof. intros Hn. split; [done|done|]. intros Ha Hi. by destruct (Hn Ha). Qed.

Lemma applied_cons n names a b c : applied [n] a b -> applied names b c -> applied (n :: names) a c.
Proof.
  intros [K1 O1 B1] [K2 O2 B2]. split.
  - by transitivity b.
  - intros [Hn Hns]%not_elem_of_cons. rewrite (O2 ltac:(by rewrite (kp_name _ _ K1))).
    apply O1. by rewrite list_elem_of_singleton.
  - intros Ha Hin. destruct (decide (job_name a = n)) as [<-|Hne].
    + destruct (B1 Ha (list_elem_of_here _ _)) as [He Hr]. split; [by apply K2|].
      destruct (auto_retired c) eqn:Ec; [|done]. by rewrite (kp_auto _ _ K2 Ec) in Hr.
    + assert (b = a) as -> by (apply O1; by rewrite list_elem_of_singleton).
      apply B2; [done|]. by apply elem_of_cons in Hin as [?|?].
Qed.

(** No row is deleted, new ones come last. *)
Definition grown (names : list pystr) (l l' : list Job) : Prop :=
  exists l1 l2, l' = l1 ++ l2 /\ Forall2 (applied names) l l1.

Record keyed (l : list Job) : Prop := {
  kd_pk : NoDup (job_pk <$> l);
  kd_name : NoDup (job_name <$> l);
}.

Lemma same_row {A} (f : Job -> A) (l : list Job) i k x y :
  NoDup (f <$> l) -> l !! i = Some x -> l !! k = Some y -> f x = f y -> x = y.
Proof.
  intros Hn Hx Hy He. assert (i = k) as ->; [|congruence].
  eapply NoDup_lookup; [exact Hn|by rewrite list_lookup_fmap, Hx|by rewrite list_lookup_fmap, Hy, He].
Qed.

Lemma grown_fmap {A} names (f : Job -> A) l l1 :
  (forall j j', kept j j' -> f j' = f j) -> Forall2 (applied names) l l1 -> f <$> l1 = f <$> l.
Proof.
  intros Hf. induction 1 as [|j j' l l1 Hj _ IH]; [done|]. rewrite !fmap_cons, IH. f_equal. apply Hf, Hj.
Qed.

Lemma new_pk_fresh (l : list Job) : new_pk l ∉ job_pk <$> l.
Proof.
  assert (forall j, j ∈ l -> job_pk j <= foldr (fun j m => Z.max (job_pk j) m) 0 l) as Hmax.
  { induction l as [|x l IH]; intros j; [by intros ?%elem_of_nil|].
    intros [->|Hj]%elem_of_cons; cbn; [lia|]. specialize (IH j Hj). lia. }
  intros Hin. apply list_elem_of_fmap in Hin as (j & E1 & Hj). specialize (Hmax j Hj). unfold new_pk in E1. lia.
Qed.

Lemma find_job_spec p (l : list Job) j : find_job p l = Some j -> j ∈ l /\ p j = true.
Proof. intros [H1 H2]%List.find_some. split; [by apply list_elem_of_In|done]. Qed.

Lemma sync_spec_found now sp l j j' :
  keyed l -> j ∈ l -> job_name j = sp_name sp -> sync_found now sp j = Ok j' ->
  Forall2 (applied [sp_name sp]) l (store j' l).
Proof.
  intros [Hpk Hname] Hj Hjn Es. apply sync_found_kept in Es as (Hk & Hon & Hauto).
  apply list_elem_of_lookup in Hj as [k Hjk].
  apply Forall2_same_length_lookup_2; [by unfold store, update_job; rewrite length_fmap|].
  intros i x y Hx Hy. unfold store, update_job in Hy. rewrite list_lookup_fmap, Hx in Hy. injection Hy as <-.
  destruct (Z.eqb_spec (job_pk x) (job_pk j')) as [He|Hne].
  - rewrite (kp_pk _ _ Hk) in He. rewrite (same_row job_pk l i k x j Hpk Hx Hjk He).
    split; [done| |auto]. rewrite list_elem_of_singleton. congruence.
  - apply applied_same. intros _ Hin. apply list_elem_of_singleton in Hin. apply Hne.
    rewrite (kp_pk _ _ Hk). f_equal. apply (same_row job_name l i k); congruence.
Qed.

Lemma sync_spec_grown now sp l l' :
  keyed l -> sync_spec now sp l = Ok l' -> grown [sp_name sp] l l' /\ keyed l'.
Proof.
  intros Hkd. unfold sync_spec. destruct (get_by_name _ l) as [j|] eqn:Ej.
  - apply find_job_spec in Ej as [Hj Hjn]. apply bool_decide_eq_true in Hjn.
    destruct (sync_found now sp j) as [j'|] eqn:Es; cbn [mbind result_bind]; [|done]. intros [= <-].
    pose proof (sync_spec_found now sp l j j' Hkd Hj Hjn Es) as HF. split.
    + exists (store j' l), []. split; [by rewrite app_nil_r|done].
    + split.
      * rewrite (grown_fmap [sp_name sp] job_pk l); [apply Hkd| |exact HF]. apply kp_pk.
      * rewrite (grown_fmap [sp_name sp] job_name l); [apply Hkd| |exact HF]. apply kp_name.
  - unfold sync_created. destruct (save _ _ _ _) as [j|] eqn:E1; cbn [mbind result_bind]; [|done].
    destruct (schedule_tz _) as [tz|]; cbn [mbind result_bind]; [|done].
    unfold reseed_next_run. destruct (reseed _ _ _) as [t|]; cbn [mbind result_bind]; [|done].
    destruct (save _ _ (Some _) _) as [j2|] eqn:E2; cbn [mbind result_bind]; [|done]. intros [= <-].
    apply save_kept in E1 as (t1 & ->). apply save_kept in E2 as (t2 & E2).
    assert (job_pk j2 = new_pk l /\ job_name j2 = sp_name sp) as [Hp Hn].
    { rewrite E2. unfold set_anchor. by destruct (resolve_anchor _ _ _). }
    assert (sp_name sp ∉ job_name <$> l) as Hfresh.
    { intros (x & Hx & Hin)%list_elem_of_fmap. apply list_elem_of_In in Hin.
      apply (List.find_none _ _ Ej) in Hin. unfold str_eqb in Hin. rewrite bool_decide_eq_true_2 in Hin; done. }
    split.
    + exists l, [j2]. split; [done|]. apply Forall2_same_length_lookup_2; [done|]. intros i x y Hx Hy.
      assert (y = x) as -> by congruence. apply applied_same. intros _ Hin. apply list_elem_of_singleton in Hin.
      apply Hfresh. rewrite <- Hin. apply list_elem_of_fmap. exists x. split; [done|]. by eapply list_elem_of_lookup_2.
    + assert (forall {A} (f : Job -> A), NoDup (f <$> l) -> f j2 ∉ f <$> l -> NoDup (f <$> l ++ [j2])) as Hnd.
      { intros A f Hl Hf. rewrite fmap_app. apply NoDup_app. split; [done|]. split; [|apply NoDup_singleton].
        intros x Hx Hs. apply list_elem_of_singleton in Hs. by subst x. }
      split; apply Hnd; [apply Hkd|rewrite Hp; apply new_pk_fresh|apply Hkd|by rewrite Hn].
Qed.

Lemma sync_specs_grown now specs l l' :
  keyed l -> sync_specs now specs l = Ok l' -> grown (sp_name <$> specs) l l'.
Proof.
  revert l. induction specs as [|sp specs IH]; intros l Hl; cbn [sync_specs fmap list_fmap].
  - intros [= <-]. exists l, []. split; [by rewrite app_nil_r|].
    apply Forall2_same_length_lookup_2; [done|]. intros i x y Hx Hy. assert (y = x) as -> by congruence.
    apply applied_same. intros _ ?%elem_of_nil. done.
  - destruct (sync_spec now sp l) as [l1|] eqn:E1; cbn [mbind result_bind]; [|done]. intros E2.
    destruct (sync_spec_grown _ _ _ _ Hl E1) as [(a1 & a2 & -> & Ha) Hk1].
    destruct (IH _ Hk1 E2) as (b1 & b2 & -> & Hb).
    apply Forall2_app_inv_l in Hb as (b11 & b12 & H1 & _ & ->).
    exists b11, (b12 ++ b2). split; [by rewrite (assoc_L (++))|].
    clear - Ha H1. revert b11 H1. induction Ha as [|x y l a1 Hxy _ IHa]; intros b11 Hb.
    + inversion Hb. constructor.
    + inversion Hb as [|? z ? b' Hyz Hb']; subst. constructor; [by eapply applied_cons|by apply IHa].
Qed.

(** ** Retirement *)

(** The rows the sync switched off. *)
Definition retired_by (names : list pystr) (l : list Job) : list Job :=
  filter (fun j => is_orphan names j = true) l.

Lemma retire_orphans_cases names l :
  retire_orphans names l = l
  \/ names <> [] /\ (length (retired_by names l) <= length names)%nat
     /\ retire_orphans names l = (fun j => if is_orphan names j then retire j else j) <$> l.
Proof.
  unfold retire_orphans. case_bool_decide as Hn; [by left|].
  destruct (bool_decide (filter _ l <> []) && _) eqn:Hp; [by left|]. right. split; [done|]. split; [|done].
  fold (retired_by names l) in Hp. apply andb_false_iff in Hp as [Hp|Hp].
  - apply bool_decide_eq_false in Hp. destruct (retired_by names l); [cbn; lia|]. by destruct Hp.
  - apply negb_false_iff in Hp. unfold retirement_is_plausible, zlen in Hp. lia.
Qed.

(** A row before and after a sync with specs of these names. *)
Record respects (names : list pystr) (j j' : Job) : Prop := {
  rs_identity : job_pk j' = job_pk j /\ job_name j' = job_name j /\ source j' = source j;
  rs_history : total_runs j' = total_runs j /\ last_status j' = last_status j
               /\ last_enqueued_at j' = last_enqueued_at j;
  rs_settings : allow_overlap j' = allow_overlap j /\ catch_up j' = catch_up j /\ max_retries j' = max_retries j;
  rs_override : schedule_overridden j = true -> cadence j' = cadence j;
  rs_ui : source j = UI -> job_name j ∉ names -> j' = j;
  rs_operator : enabled j = false -> auto_retired j = false -> enabled j' = false;
  rs_back : auto_retired j = true -> job_name j ∈ names -> enabled j' = true /\ auto_retired j' = false;
  rs_retired : enabled j = true -> enabled j' = false ->
    source j = CODE /\ job_name j ∉ names /\ auto_retired j' = true /\ next_run_at j' = None;
}.

Lemma applied_respects names j j1 :
  applied names j j1 ->
  respects names j j1 /\ (is_orphan names j1 = true -> respects names j (retire j1)).
Proof.
  intros [K O B]. destruct K as [Kpk Knm Ksrc Kov Kcu Kmr Kod Kcad Kruns Kst Kenq Kon Kop Kau]. split.
  - split; auto.
    + intros He Ha. destruct (enabled j1) eqn:E1; [|done]. destruct (Kop eq_refl); congruence.
    + intros He He'. specialize (Kon He). congruence.
  - intros Ho. unfold is_orphan in Ho. apply andb_true_iff in Ho as [Ho Hn].
    apply andb_true_iff in Ho as [Hs He]. apply bool_decide_eq_true in Hs.
    apply negb_true_iff, bool_decide_eq_false in Hn. rewrite Knm in Hn.
    split; cbn; auto; try congruence.
    intros _ _. split_and!; [congruence|done|done|done].
Qed.

(** Of the rows that were on, at most the orphans end up off. *)
Lemma switched_off names l a :
  Forall2 (applied names) l a ->
  (length (filter (fun p => enabled p.1 = true /\ enabled p.2 = false)
     (zip l ((fun j => if is_orphan names j then retire j else j) <$> a))) <= length (retired_by names a))%nat.
Proof.
  unfold retired_by. induction 1 as [|j j1 l a Hj _ IH]; [done|]. rewrite fmap_cons. cbn [zip zip_with].
  rewrite !filter_cons. destruct (is_orphan names j1) eqn:Eo.
  - rewrite (decide_True (P := true = true)) by done. destruct (decide _); cbn [length]; lia.
  - rewrite (decide_False (P := false = true)) by done. rewrite decide_False; [done|]. cbn. intros [He He'].
    pose proof (kp_on _ _ (ap_kept _ _ _ Hj) He). congruence.
Qed.

Lemma nothing_switched_off names l a :
  Forall2 (applied names) l a ->
  filter (fun p => enabled p.1 = true /\ enabled p.2 = false) (zip l a) = [].
Proof.
  induction 1 as [|j j1 l a Hj _ IH]; [done|]. cbn [zip zip_with]. rewrite filter_cons, IH, decide_False; [done|].
  cbn. intros [He He']. pose proof (kp_on _ _ (ap_kept _ _ _ Hj) He). congruence.
Qed.

(** C32: What the sync with code does to the table, whatever the specs and whatever
    rows are there. No row is deleted, and history, run counters and the
    operator's settings of every row stay. A row made in the UI that no spec
    names is untouched; a job an operator switched off stays off; an overridden
    cadence stays. A job the sync itself had retired comes back when a spec
    names it again. Only code jobs that no spec names are switched off, marked
    so that this can be undone, never more of them than code still declares,
    and nothing at all happens when no spec is registered. *)
Theorem sync_respects_operator specs (d d' : Db E) :
  keyed (jobs d) -> sync_code_jobs specs d = Ok d' ->
  let names := remove_dups (sp_name <$> specs) in
  runs d' = runs d /\ engine d' = engine d
  /\ (exists l1 l2, jobs d' = l1 ++ l2 /\ Forall2 (respects names) (jobs d) l1
       /\ (length (filter (fun p => enabled p.1 = true /\ enabled p.2 = false) (zip (jobs d) l1)) <= length names)%nat)
  /\ (specs = [] -> d' = d).
Proof.
  intros Hkd. unfold sync_code_jobs. destruct (sync_specs _ specs (jobs d)) as [l|] eqn:Es; cbn [mbind result_bind]; [|done].
  intros [= <-]. cbn. split; [done|]. split; [done|]. split.
  2: { intros ->. cbn in Es. injection Es as <-. by destruct d. }
  apply sync_specs_grown in Es as (a1 & a2 & -> & Ha); [|done].
  set (names := remove_dups (sp_name <$> specs)).
  assert (Forall2 (applied names) (jobs d) a1) as Hap.
  { eapply Forall2_impl; [exact Ha|]. intros j j' [K O B]. subst names.
    split; [done| |]; rewrite elem_of_remove_dups; auto. }
  destruct (retire_orphans_cases names (a1 ++ a2)) as [->|(_ & Hlen & ->)].
  - exists a1, a2. split; [done|]. split; [|rewrite (nothing_switched_off names) by done; cbn; lia].
    eapply Forall2_impl; [exact Hap|]. intros j j' Hj. by apply applied_respects.
  - rewrite fmap_app. eexists _, _. split; [done|]. split.
    + apply Forall2_fmap_r. eapply Forall2_impl; [exact Hap|]. intros j j' Hj. unfold compose.
      destruct (applied_respects _ _ _ Hj) as [H1 H2]. destruct (is_orphan names j'); auto.
    + pose proof (switched_off names _ _ Hap). unfold retired_by in *. rewrite filter_app, length_app in Hlen. lia.
Qed.
End Sync.

(** ** A sync that retires one job and brings another back *)

Module SyncDemo.
Import ScheduleDemo.

(** Zones without an offset, and no ISO dates. *)
#[export] Instance zones : ZoneLib := {|
  zone_year := fun _ _ => 2026;
  of_wall := fun _ t => t;
  wall_arith := fun _ => utc;
  fromisoformat := fun _ => None;
|}.

Definition spec (name : pystr) : Spec :=
  {| sp_task_path := u "apps.feeds.tasks." ++ name; sp_name := name; sp_cadence := every (u "1h") None;
     sp_anchor := []; sp_queue := u "default"; sp_kwargs := u "{}"; sp_catch_up := RUN_ONCE;
     sp_allow_overlap := false |}.

Definition row (pk : Z) (name : pystr) (src : Source) (on retired : bool) : Job :=
  {| job_pk := pk; job_name := name; task_path := u "apps.feeds.tasks." ++ name; job_kwargs := u "{}";
     queue_name := u "default"; cadence := every (u "1h") None; enabled := on; allow_overlap := false;
     catch_up := RUN_ONCE; max_retries := 0; source := src; schedule_overridden := false;
     auto_retired := retired; next_run_at := if on then Some 3600000000 else None; last_enqueued_at := None;
     last_status := NoStatus; total_runs := pk |}.

Definition db : Db unit :=
  {| jobs := [row 1 (u "gone") CODE true false; row 2 (u "back") CODE false true;
              row 3 (u "off") CODE false false; row 4 (u "mine") UI true false];
     runs := []; engine := tt; clock := 1000000000 |}.

Definition specs : list Spec := [spec (u "back"); spec (u "off"); spec (u "new")].

Definition synced : Db unit := match sync_code_jobs specs db with Ok d => d | Err _ => db end.

(** A UI row whose name a spec takes: the sync rewrites its task. *)
Lemma ui_row_rewired :
  exists d', sync_code_jobs [spec (u "mine")] (db <| jobs := [row 4 (u "mine") UI true false <| task_path := u "apps.mine" |>] |>) = Ok d'
    /\ ((fun j => (source j, task_path j)) <$> jobs d') = [(UI, u "apps.feeds.tasks.mine")].
Proof. eexists. split; by vm_compute. Qed.
End SyncDemo.

Theorem sync_respects_operator_witness :
  ((fun j => (job_pk j, enabled j, auto_retired j)) <$> jobs SyncDemo.synced)
    = [(1, false, true); (2, true, false); (3, false, false); (4, true, false); (5, true, false)]
  /\ runs SyncDemo.synced = runs SyncDemo.db.
Proof.
  split; [by vm_compute|].
  assert (@sync_code_jobs unit SchedulesFacts.ScheduleDemo.lib SyncDemo.zones SyncDemo.specs SyncDemo.db
          = Ok SyncDemo.synced) as Hs by (by vm_compute).
  assert (keyed (jobs SyncDemo.db)) as Hk by (split; by_compute).
  destruct (sync_respects_operator SyncDemo.specs SyncDemo.db SyncDemo.synced Hk Hs) as (T & _). exact T.
Defined.
