(* ===== verification/Retries.v ===== *)
(** * apps/tasks: retries, late completions, lost workers

    reliability.py, reaper.py, heartbeat.py and signals.py over the tables of
    django-tasks-db. An attempt is a row of the engine, [TaskAttempt] rows link
    the attempts of a chain. The operations are cut where the code's statements
    or transactions are, so that RetriesFacts can interleave them. *)
From stdpp Require Import sorting.
From S2P Require Import Prelude PyFloat PyStr.
Open Scope Z_scope.

Definition US : Z := 1000000.

(** ** Tables *)

Inductive TaskStatus := READY | RUNNING | SUCCESSFUL | FAILED.
Inductive Cause := FIRST | RAISED | LOST | INTERRUPTED | MANUAL.

#[global] Instance taskstatus_eq_dec : EqDecision TaskStatus.
Proof. solve_decision. Defined.
#[global] Instance cause_eq_dec : EqDecision Cause.
Proof. solve_decision. Defined.

Definition status_name (s : TaskStatus) : pystr :=
  match s with
  | READY => u "READY" | RUNNING => u "RUNNING" | SUCCESSFUL => u "SUCCESSFUL" | FAILED => u "FAILED"
  end.

(** [DBTaskResult] *)
Record Task := {
  t_status : TaskStatus;
  t_path : pystr;
  t_args : pystr;
  t_queue : pystr;
  t_priority : Z;
  t_backend : pystr;
  t_run_after : option Z;
  t_enqueued_at : Z;
  t_started_at : option Z;
  t_finished_at : option Z;
  t_workers : list pystr;
  t_return : option pystr;
  t_exception : pystr;
  t_traceback : pystr;
}.

#[global] Instance eta_task : Eta Task := fun t =>
  Build_Task (t_status t) (t_path t) (t_args t) (t_queue t) (t_priority t) (t_backend t) (t_run_after t)
    (t_enqueued_at t) (t_started_at t) (t_finished_at t) (t_workers t) (t_return t) (t_exception t) (t_traceback t).

(** [TaskAttempt], but for its [result_id], which is its key. *)
Record Attempt := {
  a_root : pystr;
  a_parent : option pystr;
  a_attempt : Z;
  a_cause : Cause;
  a_max : option Z;
  a_created : Z;
  a_completed : option Z;
  a_parent_status : pystr;
  a_cancelled : bool;
}.

#[global] Instance eta_attempt : Eta Attempt := fun a =>
  Build_Attempt (a_root a) (a_parent a) (a_attempt a) (a_cause a) (a_max a) (a_created a) (a_completed a)
    (a_parent_status a) (a_cancelled a).

(** [WorkerHeartbeat], keyed by [worker_id]. *)
Record Heartbeat := {
  hb_label : pystr;
  hb_hostname : pystr;
  hb_pid : option Z;
  hb_queues : pystr;
  hb_started_at : Z;
  hb_last_seen : Z;
  hb_stopped : option Z;
}.

#[global] Instance eta_heartbeat : Eta Heartbeat := fun h =>
  Build_Heartbeat (hb_label h) (hb_hostname h) (hb_pid h) (hb_queues h) (hb_started_at h) (hb_last_seen h) (hb_stopped h).

(** [serial] counts the identifiers drawn. *)
Record Tables := {
  tasks : gmap pystr Task;
  attempts : gmap pystr Attempt;
  heartbeats : gmap pystr Heartbeat;
  serial : nat;
}.

#[global] Instance eta_tables : Eta Tables := fun s =>
  Build_Tables (tasks s) (attempts s) (heartbeats s) (serial s).

(** ** exceptions.py *)

Definition WORKER_LOST_PATH : pystr := u "apps.tasks.exceptions.WorkerLost".
Definition RETRY_SUPERSEDED_PATH : pystr := u "apps.tasks.exceptions.RetrySuperseded".
Definition BOOKKEEPING_PATHS : list pystr := [RETRY_SUPERSEDED_PATH].
Definition INTERRUPTED_PATHS : list pystr := [u "builtins.SystemExit"; u "builtins.KeyboardInterrupt"].

(** ** Policies *)

Record RetryPolicy (F : Type) := {
  rp_max_attempts : option Z;
  rp_backoff : option F;
  rp_backoff_max : option F;
  rp_retry_on : list pystr;
  rp_retry_lost : bool;
}.
Arguments Build_RetryPolicy {F}.
Arguments rp_max_attempts {F}. Arguments rp_backoff {F}. Arguments rp_backoff_max {F}.
Arguments rp_retry_on {F}. Arguments rp_retry_lost {F}.

Record Settings (F : Type) := {
  st_max_attempts : Z;
  st_backoff : F;
  st_backoff_max : F;
  st_lost_after : Z;
  st_orphan : Z;
}.
Arguments st_max_attempts {F}. Arguments st_backoff {F}. Arguments st_backoff_max {F}.
Arguments st_lost_after {F}. Arguments st_orphan {F}.

(** The tasks' side: the policies their modules declare, which paths import,
    whether an exception is of one of some classes ([None]: its path does not
    import), the identifiers the engine draws, and an instant's ISO text in the
    local time zone, to the second. *)
Class TaskLib (F : Type) := {
  POLICIES : pystr -> option (RetryPolicy F);
  importable : pystr -> bool;
  exception_is : pystr -> list pystr -> option bool;
  uuid : nat -> pystr;
  local_iso : Z -> pystr;
}.

Section Reliability.
Context {F : Type} `{Num F} `{TaskLib F}.
Context (settings : Settings F).
Implicit Types s : Tables.

Definition catch_all : list pystr := [u "builtins.Exception"].

Definition DEFAULT_POLICY : RetryPolicy F := Build_RetryPolicy None None None catch_all true.
Definition IMPLICIT_PINNED_POLICY : RetryPolicy F := Build_RetryPolicy None None None catch_all false.

(** [@retry_policy]: [None] is its [ValueError]. *)
Definition retry_policy (max_attempts : option Z) (backoff backoff_max : option F) (retry_on : list pystr)
    (retry_lost : bool) : option (RetryPolicy F) :=
  match max_attempts with
  | Some n => if n <? 1 then None else Some (Build_RetryPolicy max_attempts backoff backoff_max retry_on retry_lost)
  | None => Some (Build_RetryPolicy max_attempts backoff backoff_max retry_on retry_lost)
  end.

(** [RetryPolicy.attempts] *)
Definition attempts_of (p : RetryPolicy F) : Z := default (st_max_attempts settings) (rp_max_attempts p).

(** [RetryPolicy.delay], in seconds; [random] is what [random.random()] draws. *)
Definition delay_base (p : RetryPolicy F) (attempt : Z) : F :=
  let initial := default (st_backoff settings) (rp_backoff p) in
  let cap := default (st_backoff_max settings) (rp_backoff_max p) in
  num_min cap (initial * num_of_Z (2 ^ Z.max 0 (attempt - 1)))%num.
Definition delay (p : RetryPolicy F) (attempt : Z) (random : F) : F :=
  let base := delay_base p attempt in
  let half := (base / num_of_Z 2)%num in
  (half + (num_of_Z 0 + (half - num_of_Z 0) * random))%num.

(** [timedelta(seconds=x)], in microseconds. *)
Definition seconds_us (x : F) : Z :=
  let whole := default 0 (num_trunc x) in
  whole * US + default 0 (num_rint ((x - num_of_Z whole) * num_of_Z 1000000)%num).

(** [policy_for] *)
Definition policy_for (path : pystr) : RetryPolicy F := default DEFAULT_POLICY (POLICIES path).

(** [AttemptInfo]: root, attempt, pinned budget. *)
Record AttemptInfo := { i_root : pystr; i_attempt : Z; i_max : option Z }.

Definition attempt_info (id : pystr) (s : Tables) : AttemptInfo :=
  match attempts s !! id with
  | Some a => {| i_root := a_root a; i_attempt := a_attempt a; i_max := a_max a |}
  | None => {| i_root := id; i_attempt := 1; i_max := None |}
  end.

(** The attempt row that names [p] as its parent; [parent_id] is unique. *)
Definition child_of (p : pystr) (s : Tables) : option (pystr * Attempt) :=
  List.find (fun x => bool_decide (a_parent x.2 = Some p)) (map_to_list (attempts s)).

Definition retry_of (p : pystr) (s : Tables) : option pystr := fst <$> child_of p s.

(** The engine's enqueue: a new row, ready. *)
Definition new_task (path args queue : pystr) (priority : Z) (backend : pystr) (run_after : option Z) (now : Z) : Task :=
  {| t_status := READY; t_path := path; t_args := args; t_queue := queue; t_priority := priority;
     t_backend := backend; t_run_after := run_after; t_enqueued_at := now; t_started_at := None;
     t_finished_at := None; t_workers := []; t_return := None; t_exception := []; t_traceback := [] |}.

Definition engine_enqueue (t : Task) (s : Tables) : pystr * Tables :=
  let id := uuid (serial s) in
  (id, s <| tasks := <[id := t]> (tasks s) |> <| serial := S (serial s) |>).

(** [pin_max_attempts] *)
Definition pin_max_attempts (id : pystr) (n now : Z) (s : Tables) : Tables :=
  let a := match attempts s !! id with
           | Some a => a <| a_root := id |> <| a_attempt := 1 |> <| a_max := Some n |>
           | None => {| a_root := id; a_parent := None; a_attempt := 1; a_cause := FIRST; a_max := Some n;
                        a_created := now; a_completed := None; a_parent_status := []; a_cancelled := false |}
           end in
  s <| attempts := <[id := a]> (attempts s) |>.

(** An enqueue and its pin, as one transaction. *)
Definition enqueue_pinned (t : Task) (pin : option Z) (now : Z) (s : Tables) : pystr * Tables :=
  let '(id, s') := engine_enqueue t s in
  (id, match pin with Some n => pin_max_attempts id n now s' | None => s' end).

Definition classify (t : Task) (cause : Cause) : Cause :=
  if str_eqb (t_exception t) WORKER_LOST_PATH then LOST
  else if bool_decide (t_exception t ∈ INTERRUPTED_PATHS) then INTERRUPTED
  else cause.

(** [_matches] *)
Definition matches (path : pystr) (retry_on : list pystr) : bool :=
  match exception_is path retry_on with
  | Some b => b
  | None => bool_decide (u "builtins.Exception" ∈ retry_on) || bool_decide (u "builtins.BaseException" ∈ retry_on)
  end.

Record RetryDecision := { d_cause : Cause; d_policy : RetryPolicy F; d_info : AttemptInfo; d_budget : Z }.

(** The policy of a chain: an operator's budget on a task without one of its own
    does not re-run a lost worker. *)
Definition chain_policy (path : pystr) (pinned : option Z) : RetryPolicy F :=
  match POLICIES path, pinned with
  | None, Some _ => IMPLICIT_PINNED_POLICY
  | _, _ => policy_for path
  end.

Definition budget_of (path : pystr) (pinned : option Z) : Z :=
  match pinned with Some n => n | None => attempts_of (chain_policy path pinned) end.

(** [_decide] *)
Definition decide_retry (id : pystr) (t : Task) (cause : Cause) (s : Tables) : option RetryDecision :=
  if negb (bool_decide (t_status t = FAILED)) then None
  else if bool_decide (t_exception t ∈ BOOKKEEPING_PATHS) then None
  else
    let cause := classify t cause in
    let info := attempt_info id s in
    let policy := chain_policy (t_path t) (i_max info) in
    let budget := budget_of (t_path t) (i_max info) in
    if budget <=? i_attempt info then None
    else
      let d := {| d_cause := cause; d_policy := policy; d_info := info; d_budget := budget |} in
      match cause with
      | LOST | INTERRUPTED => if rp_retry_lost policy then Some d else None
      | _ => if matches (t_exception t) (rp_retry_on policy) then Some d else None
      end.

(** The transaction of [maybe_retry]: the new attempt and its link, or nothing
    when another path has retried this one already. *)
Definition commit_retry (id : pystr) (t : Task) (d : RetryDecision) (now : Z) (random : F) (s : Tables)
    : option pystr * Tables :=
  let run_after := now + seconds_us (delay (d_policy d) (i_attempt (d_info d)) random) in
  let '(new, s') := engine_enqueue (new_task (t_path t) (t_args t) (t_queue t) (t_priority t) (t_backend t)
                                      (Some run_after) now) s in
  if bool_decide (is_Some (child_of id s)) then (None, s)
  else
    let a := {| a_root := i_root (d_info d); a_parent := Some id; a_attempt := i_attempt (d_info d) + 1;
                a_cause := d_cause d; a_max := i_max (d_info d); a_created := now; a_completed := None;
                a_parent_status := []; a_cancelled := false |} in
    (Some new, s' <| attempts := <[new := a]> (attempts s') |>).

(** [maybe_retry]; an unimportable task raises. *)
Definition maybe_retry (id : pystr) (cause : Cause) (now : Z) (random : F) (s : Tables)
    : result unit (option pystr) * Tables :=
  match tasks s !! id with
  | None => (Ok None, s)
  | Some t =>
      match decide_retry id t cause s with
      | None => (Ok None, s)
      | Some d =>
          if importable (t_path t)
          then let '(r, s') := commit_retry id t d now random s in (Ok r, s')
          else (Err tt, s)
      end
  end.

(** ** Late completions *)

(** The conditional UPDATE of [_mark_superseded]: the child it stamped. *)
Definition mark_late (p : pystr) (status : TaskStatus) (completed_at : Z) (s : Tables) : option pystr * Tables :=
  match child_of p s with
  | Some (c, a) =>
      if bool_decide (a_cause a = LOST) && bool_decide (a_completed a = None)
      then (Some c, s <| attempts := <[c := a <| a_completed := Some completed_at |>
                                              <| a_parent_status := take 16 (status_name status) |>]> (attempts s) |>)
      else (None, s)
  | None => (None, s)
  end.

(** The best-effort cancel, of a retry that has not started. *)
Definition cancel_retry (p : pystr) (status : TaskStatus) (c : pystr) (now : Z) (s : Tables) : bool * Tables :=
  match tasks s !! c with
  | Some t =>
      if bool_decide (t_status t = READY)
      then
        let text := u "RetrySuperseded: attempt " ++ p ++ u " was declared lost and replaced by this retry, but then completed ("
                    ++ status_name status ++ u ") before this retry started" in
        let t' := t <| t_status := FAILED |> <| t_finished_at := Some now |> <| t_return := None |>
                    <| t_exception := RETRY_SUPERSEDED_PATH |> <| t_traceback := text |> in
        (true, s <| tasks := <[c := t']> (tasks s) |>)
      else (false, s)
  | None => (false, s)
  end.

(** [filter(parent_id=p).update(retry_cancelled=True)] *)
Definition note_cancelled (p : pystr) (s : Tables) : Tables :=
  match child_of p s with
  | Some (c, a) => s <| attempts := <[c := a <| a_cancelled := true |>]> (attempts s) |>
  | None => s
  end.

(** [_mark_superseded]: the retry and whether it was cancelled. *)
Definition mark_superseded (p : pystr) (status : TaskStatus) (completed_at now : Z) (s : Tables)
    : option (pystr * bool) * Tables :=
  let '(c, s1) := mark_late p status completed_at s in
  match c with
  | None => (None, s1)
  | Some c =>
      let '(cancelled, s2) := cancel_retry p status c now s1 in
      (Some (c, cancelled), if cancelled then note_cancelled p s2 else s2)
  end.

(** [record_late_completion] *)
Definition record_late_completion (p : pystr) (now : Z) (s : Tables) : option (pystr * bool) * Tables :=
  match tasks s !! p with
  | None => (None, s)
  | Some t =>
      match t_status t with
      | READY | RUNNING => (None, s)
      | st => mark_superseded p st (default now (t_finished_at t)) now s
      end
  end.

(** [retry_failed_task], the receiver of [task_finished]: the tables it leaves. *)
Definition retry_failed_task (p : pystr) (status : TaskStatus) (now : Z) (random : F) (s : Tables) : Tables :=
  let '(late, s1) := record_late_completion p now s in
  match late, status with
  | None, FAILED => (maybe_retry p RAISED now random s1).2
  | _, _ => s1
  end.

Definition REPAIR_WINDOW : Z := 3600 * US.
Definition REPAIR_GRACE : Z := 30 * US.
Definition REPAIR_BATCH : nat := 100.
Definition LATE_COMPLETION_WINDOW : Z := 86400 * US.

(** A terminal row that no longer carries the reaper's verdict. *)
Definition came_back (t : Task) : bool :=
  match t_status t with
  | SUCCESSFUL => true
  | FAILED => negb (str_eqb (t_exception t) WORKER_LOST_PATH)
  | _ => false
  end.

Definition before_in_chain (x y : pystr * Attempt) : Prop :=
  str_ltb (a_root y.2) (a_root x.2) = false
  /\ (a_root x.2 = a_root y.2 -> a_attempt x.2 <= a_attempt y.2).
#[local] Instance before_in_chain_dec x y : Decision (before_in_chain x y).
Proof. unfold before_in_chain. apply _. Defined.

(** The attempts [detect_late_completions] looks at. *)
Definition late_candidates (now : Z) (limit : nat) (s : Tables) : list pystr :=
  omap (fun x => a_parent x.2)
    (take limit (merge_sort before_in_chain
      (filter (fun x => a_cause x.2 = LOST /\ a_completed x.2 = None /\ is_Some (a_parent x.2)
                        /\ now - LATE_COMPLETION_WINDOW <= a_created x.2) (map_to_list (attempts s))))).

(** The rows its second query reads. *)
Definition late_rows (now : Z) (limit : nat) (s : Tables) : list (pystr * Task) :=
  omap (fun p => t ← tasks s !! p; if came_back t then Some (p, t) else None) (late_candidates now limit s).

Fixpoint detect_loop (rows : list (pystr * Task)) (now : Z) (s : Tables) : list (pystr * bool) * Tables :=
  match rows with
  | [] => ([], s)
  | (p, t) :: rows' =>
      let '(late, s1) := mark_superseded p (t_status t) (default now (t_finished_at t)) now s in
      let '(found, s2) := detect_loop rows' now s1 in
      (match late with Some x => x :: found | None => found end, s2)
  end.

Definition detect_late_completions (now : Z) (limit : nat) (s : Tables) : list (pystr * bool) * Tables :=
  detect_loop (late_rows now limit s) now s.

(** ** Where a chain stands *)

Record ChainOutcome := {
  co_status : pystr;
  co_id : pystr;
  co_row : Task;
  co_attempt : Z;
  co_more_than_once : bool;
  co_superseded : option Z;
  co_superseded_status : pystr;
  co_resurrected : bool;
}.

(** [double_execution_note] *)
Definition double_execution_note (o : ChainOutcome) : pystr :=
  if co_resurrected o then u "ran again unexpectedly: a cancelled retry was re-enqueued and continued"
  else if negb (co_more_than_once o) then []
  else
    let which := match co_superseded o with
                 | Some n => if n =? 0 then u "an earlier attempt" else u "attempt " ++ str_of_Z n
                 | None => u "an earlier attempt"
                 end in
    let ended := if nonempty (co_superseded_status o) then u " (" ++ co_superseded_status o ++ u ")" else [] in
    u "ran more than once: " ++ which ++ u " completed" ++ ended ++ u " after being declared lost".

Definition MAX_CHAIN : nat := 1000.

(** The walk: the attempt reached, its number, the last superseded attempt and
    its status, whether the chain forked, whether a cancelled retry ran on. *)
Record Walk := {
  wk_id : pystr;
  wk_attempt : Z;
  wk_superseded : option Z;
  wk_status : pystr;
  wk_forked : bool;
  wk_resurrected : bool;
}.
#[global] Instance eta_walk : Eta Walk := fun w =>
  Build_Walk (wk_id w) (wk_attempt w) (wk_superseded w) (wk_status w) (wk_forked w) (wk_resurrected w).

Fixpoint walk (fuel : nat) (s : Tables) (w : Walk) : Walk :=
  match fuel with
  | O => w
  | S fuel' =>
      match child_of (wk_id w) s with
      | None => w
      | Some (c, a) =>
          let next w := walk fuel' s (w <| wk_id := c |> <| wk_attempt := a_attempt a |>) in
          match a_completed a with
          | None => next w
          | Some _ =>
              let w := w <| wk_superseded := Some (wk_attempt w) |> <| wk_status := a_parent_status a |> in
              if a_cancelled a then
                if bool_decide (child_of c s = None) then w else next (w <| wk_resurrected := true |>)
              else next (w <| wk_forked := true |>)
          end
      end
  end.

Definition start_walk (id : pystr) : Walk :=
  {| wk_id := id; wk_attempt := 1; wk_superseded := None; wk_status := []; wk_forked := false; wk_resurrected := false |}.

Definition chain_outcome (id : pystr) (now : Z) (s : Tables) : option ChainOutcome :=
  let w := walk MAX_CHAIN s (start_walk id) in
  t ← tasks s !! wk_id w;
  let recent := match t_finished_at t with Some f => now - REPAIR_WINDOW <=? f | None => true end in
  let retrying := bool_decide (t_status t = FAILED) && recent
                  && bool_decide (is_Some (decide_retry (wk_id w) t RAISED s)) in
  Some {| co_status := if retrying then u "RETRYING" else status_name (t_status t);
          co_id := wk_id w; co_row := t; co_attempt := wk_attempt w;
          co_more_than_once := wk_forked w || (wk_resurrected w && negb (bool_decide (t_status t = READY)));
          co_superseded := wk_superseded w; co_superseded_status := wk_status w;
          co_resurrected := wk_resurrected w |}.

(** ** Repair *)

Definition earlier (x y : pystr * Task) : Prop := default 0 (t_finished_at x.2) <= default 0 (t_finished_at y.2).
#[local] Instance earlier_dec x y : Decision (earlier x y).
Proof. unfold earlier. apply _. Defined.

Definition needs_repair (now : Z) (s : Tables) (x : pystr * Task) : bool :=
  let '(id, t) := x in
  bool_decide (t_status t = FAILED)
  && match t_finished_at t with
     | Some f => (now - REPAIR_WINDOW <=? f) && (f <=? now - REPAIR_GRACE)
     | None => false
     end
  && bool_decide (child_of id s = None)
  && negb (bool_decide (t_exception t ∈ BOOKKEEPING_PATHS))
  && ((1 <? attempts_of (policy_for (t_path t)))
      || match attempts s !! id with Some a => match a_max a with Some n => 1 <? n | None => false end | None => false end).

Fixpoint retry_all (ids : list pystr) (cause : Cause) (now : Z) (random : nat -> F) (s : Tables) : Z * Tables :=
  match ids with
  | [] => (0, s)
  | id :: ids' =>
      let '(r, s1) := maybe_retry id cause now (random O) s in
      let '(n, s2) := retry_all ids' cause now (fun k => random (S k)) s1 in
      (match r with Ok (Some _) => n + 1 | _ => n end, s2)
  end.

(** [repair_missed_retries] *)
Definition repair_missed_retries (now : Z) (random : nat -> F) (s : Tables) : Z * Tables :=
  let ids := fst <$> take REPAIR_BATCH (merge_sort earlier
               (filter (fun x => needs_repair now s x = true) (map_to_list (tasks s)))) in
  retry_all ids RAISED now random s.

(** ** reaper.py *)

Definition or_else (a b : pystr) : pystr := if nonempty a then a else b.

(** [_lost_reason]; [db_now] is the database's clock. *)
Definition lost_reason (t : Task) (worker : pystr) (hb : option Heartbeat) (db_now now : Z) : option pystr :=
  match hb with
  | Some h =>
      let pid := match hb_pid h with Some n => if n =? 0 then u "?" else str_of_Z n | None => u "?" end in
      let who := u "worker " ++ or_else (hb_label h) worker ++ u " (host " ++ or_else (hb_hostname h) (u "?")
                 ++ u ", pid " ++ pid ++ u ")" in
      match hb_stopped h with
      | Some at_ => Some (who ++ u " exited at " ++ local_iso at_ ++ u " while this task was running")
      | None =>
          let age := db_now - hb_last_seen h in
          if st_lost_after settings * US <? age
          then Some (who ++ u " stopped heartbeating; last seen " ++ local_iso (hb_last_seen h) ++ u " ("
                     ++ str_of_Z (age `quot` US) ++ u "s ago, threshold " ++ str_of_Z (st_lost_after settings) ++ u "s)")
          else None
      end
  | None =>
      let started := default (t_enqueued_at t) (t_started_at t) in
      if started <? now - st_orphan settings * US
      then Some (u "worker " ++ or_else worker (u "unknown")
                 ++ u " has no heartbeat record and this task has been RUNNING since " ++ local_iso started
                 ++ u " (threshold " ++ str_of_Z (st_orphan settings) ++ u "s)")
      else None
  end.

Definition worker_of (t : Task) : pystr := default [] (last (t_workers t)).

(** [LostTask] *)
Record LostTask := { lt_id : pystr; lt_path : pystr; lt_worker : pystr; lt_reason : pystr }.

(** One round of the loop of [find_lost_tasks]. *)
Definition lost_task (db_now now : Z) (exclude : list pystr) (s : Tables) (x : pystr * Task) : option LostTask :=
  let '(id, t) := x in
  let worker := worker_of t in
  if nonempty worker && bool_decide (worker ∈ exclude) then None
  else
    reason ← lost_reason t worker (heartbeats s !! worker) db_now now;
    Some {| lt_id := id; lt_path := t_path t; lt_worker := worker; lt_reason := reason |}.

(** [find_lost_tasks] *)
Definition find_lost_tasks (db_now now : Z) (exclude : list pystr) (s : Tables) : Z * list LostTask :=
  let running := filter (fun x => t_status x.2 = RUNNING) (map_to_list (tasks s)) in
  (zlen running, omap (lost_task db_now now exclude s) running).

(** The conditional UPDATE of a reap. *)
Definition reap (id reason : pystr) (now : Z) (s : Tables) : bool * Tables :=
  match tasks s !! id with
  | Some t =>
      if bool_decide (t_status t = RUNNING)
      then (true, s <| tasks := <[id := t <| t_status := FAILED |> <| t_finished_at := Some now |> <| t_return := None |>
                                         <| t_exception := WORKER_LOST_PATH |>
                                         <| t_traceback := u "WorkerLost: " ++ reason |>]> (tasks s) |>)
      else (false, s)
  | None => (false, s)
  end.

Record ReapResult := {
  rr_running : Z;
  rr_reaped : list LostTask;
  rr_raced : Z;
  rr_late : Z;
  rr_retried : Z;
  rr_repaired : Z;
  rr_pruned : Z;
}.

Fixpoint reap_loop (lost : list LostTask) (now : Z) (random : nat -> F) (s : Tables)
    : (list LostTask * Z * Z) * Tables :=
  match lost with
  | [] => (([], 0, 0), s)
  | l :: lost' =>
      let '(updated, s1) := reap (lt_id l) (lt_reason l) now s in
      if updated then
        let '(r, s2) := maybe_retry (lt_id l) LOST now (random O) s1 in
        let '((reaped, raced, retried), s3) := reap_loop lost' now (fun k => random (S k)) s2 in
        ((l :: reaped, raced, match r with Ok (Some _) => retried + 1 | _ => retried end), s3)
      else
        let '((reaped, raced, retried), s3) := reap_loop lost' now random s1 in
        ((reaped, raced + 1, retried), s3)
  end.

Definition HEARTBEAT_RETENTION : Z := 7 * 86400 * US.

(** [prune_heartbeats] *)
Definition prune_heartbeats (now : Z) (s : Tables) : Z * Tables :=
  let cutoff := now - HEARTBEAT_RETENTION in
  let old (h : Heartbeat) := (hb_last_seen h <? cutoff) || match hb_stopped h with Some t => t <? cutoff | None => false end in
  let kept := filter (fun x => old x.2 = false) (heartbeats s) in
  (Z.of_nat (size (heartbeats s)) - Z.of_nat (size kept), s <| heartbeats := kept |>).

(** [reap_lost_tasks] *)
Definition reap_lost_tasks (db_now now : Z) (dry_run : bool) (exclude : list pystr) (random repair_random : nat -> F)
    (s : Tables) : ReapResult * Tables :=
  let '(running, lost) := find_lost_tasks db_now now exclude s in
  if dry_run then
    ({| rr_running := running; rr_reaped := lost; rr_raced := 0; rr_late := 0; rr_retried := 0; rr_repaired := 0;
        rr_pruned := 0 |}, s)
  else
    let '((reaped, raced, retried), s1) := reap_loop lost now random s in
    let '(repaired, s2) := repair_missed_retries now repair_random s1 in
    let '(late, s3) := detect_late_completions now REPAIR_BATCH s2 in
    let '(pruned, s4) := prune_heartbeats now s3 in
    ({| rr_running := running; rr_reaped := reaped; rr_raced := raced; rr_late := zlen late; rr_retried := retried;
        rr_repaired := repaired; rr_pruned := pruned |}, s4).
End Reliability.

(** ** heartbeat.py *)

Definition INCARNATION_SEP : pystr := u "#".

(** [new_incarnation]; [hex] is the hexadecimal text of a fresh UUID. *)
Definition new_incarnation (label hex : pystr) : pystr := label ++ INCARNATION_SEP ++ take 12 hex.

(** [register_worker], on the host [hostname] in the process [pid]. *)
Definition register_worker (worker label queues hostname : pystr) (pid now : Z) (s : Tables) : Tables :=
  let started := match heartbeats s !! worker with Some h => hb_started_at h | None => now end in
  s <| heartbeats := <[worker := {| hb_label := take 64 label; hb_hostname := take 255 hostname; hb_pid := Some pid;
                                    hb_queues := take 255 queues; hb_started_at := started; hb_last_seen := now;
                                    hb_stopped := None |}]> (heartbeats s) |>.

Definition beat (worker : pystr) (now : Z) (s : Tables) : Tables :=
  s <| heartbeats := alter (fun h => h <| hb_last_seen := now |>) worker (heartbeats s) |>.

Definition mark_stopped (worker : pystr) (now : Z) (s : Tables) : Tables :=
  s <| heartbeats := alter (fun h => h <| hb_last_seen := now |> <| hb_stopped := Some now |>) worker (heartbeats s) |>.

Definition MAX_MISSED_BEATS_BEFORE_YIELDING : Z := 2.
Definition REAP_EVERY : Z := 4.

(** [HeartbeatThread]: beats made and consecutive failures. One round of its
    loop: a beat that is written or not, and whether it reaps. *)
Record BeatThread := { bt_beats : Z; bt_missed : Z }.

Definition beat_round (reap_every : Z) (written : bool) (th : BeatThread) : BeatThread * bool :=
  let missed := if written then 0 else bt_missed th + 1 in
  let beats := bt_beats th + 1 in
  ({| bt_beats := beats; bt_missed := missed |},
   (beats mod reap_every =? 0) && (missed <? MAX_MISSED_BEATS_BEFORE_YIELDING)).
