(* ===== verification/RetriesFacts.v ===== *)
(** * Chains of attempts: budgets, cancelled retries, double executions

    Workers, the signal receiver, reapers and sweeps interleave: an operation
    that the code does not run in one transaction is in flight between its
    statements. *)
From Stdlib Require Import QArith.
From stdpp Require Import sorting.
From S2P Require Import Prelude PyFloat PyStr Retries.
Open Scope Z_scope.

#[local] Opaque u WORKER_LOST_PATH RETRY_SUPERSEDED_PATH.

(** ** Children *)

Lemma child_of_spec p s c a : child_of p s = Some (c, a) -> attempts s !! c = Some a /\ a_parent a = Some p.
Proof.
  intros [Hin Hp]%List.find_some. apply list_elem_of_In, elem_of_map_to_list in Hin.
  split; [done|]. by apply bool_decide_eq_true in Hp.
Qed.

Lemma child_of_none p s c a : child_of p s = None -> attempts s !! c = Some a -> a_parent a <> Some p.
Proof.
  intros Hn Hc Hp. apply elem_of_map_to_list, list_elem_of_In in Hc.
  apply (List.find_none _ _ Hn) in Hc. cbn in Hc. by rewrite bool_decide_eq_true_2 in Hc.
Qed.

Definition unique_parents (s : Tables) : Prop :=
  forall c a c' a' p, attempts s !! c = Some a -> attempts s !! c' = Some a' ->
    a_parent a = Some p -> a_parent a' = Some p -> c = c'.

Lemma child_of_some p s c a :
  unique_parents s -> attempts s !! c = Some a -> a_parent a = Some p -> child_of p s = Some (c, a).
Proof.
  intros Hu Hc Hp. destruct (child_of p s) as [[c' a']|] eqn:Ec.
  - destruct (child_of_spec _ _ _ _ Ec) as [Hc' Hp'].
    assert (c' = c) as -> by (eapply (Hu c' a' c a); done). congruence.
  - by destruct (child_of_none _ _ _ _ Ec Hc).
Qed.

(** ** The world *)

Section Chains.
Context {F : Type} `{Num F} `{TaskLib F} `{!Inj (=) (=) uuid}.
Context (settings : Settings F).

(** An operation between two of its statements: a decided retry, a late
    completion marked and its retry to be cancelled, a cancel to be noted. *)
Inductive Flight :=
| Retrying (id : pystr) (t : Task) (d : RetryDecision (F := F))
| Cancelling (p c : pystr)
| Noting (p c : pystr).

(** [executing]: the attempts whose task body some worker is running. *)
Record World := { tables : Tables; executing : gset pystr; flights : list Flight }.

Definition terminal_row (t : Task) : Prop := t_status t = SUCCESSFUL \/ t_status t = FAILED.

Inductive step : World -> World -> Prop :=
| s_enqueue s ex fl path args queue prio backend after now pin :
    step (Build_World s ex fl)
      (Build_World (enqueue_pinned (new_task path args queue prio backend after now) pin now s).2 ex fl)
| s_claim s ex fl id t worker now :
    tasks s !! id = Some t -> t_status t = READY ->
    step (Build_World s ex fl)
      (Build_World (s <| tasks := <[id := t <| t_status := RUNNING |> <| t_started_at := Some now |>
                                            <| t_workers := t_workers t ++ [worker] |>]> (tasks s) |>)
         ({[id]} ∪ ex) fl)
| s_finish s ex fl id t st exc ret now :
    id ∈ ex -> tasks s !! id = Some t -> st = SUCCESSFUL \/ st = FAILED ->
    exc ∉ [WORKER_LOST_PATH; RETRY_SUPERSEDED_PATH] ->
    step (Build_World s ex fl)
      (Build_World (s <| tasks := <[id := t <| t_status := st |> <| t_finished_at := Some now |> <| t_return := ret |>
                                            <| t_exception := exc |>]> (tasks s) |>) (ex ∖ {[id]}) fl)
| s_die s ex fl id : step (Build_World s ex fl) (Build_World s (ex ∖ {[id]}) fl)
| s_reap s ex fl id reason now : step (Build_World s ex fl) (Build_World (reap id reason now s).2 ex fl)
| s_decide s ex fl id t cause d :
    tasks s !! id = Some t -> decide_retry settings id t cause s = Some d -> importable (t_path t) = true ->
    step (Build_World s ex fl) (Build_World s ex (Retrying id t d :: fl))
| s_commit s ex fl fl' id t d now random :
    fl ≡ₚ Retrying id t d :: fl' ->
    step (Build_World s ex fl) (Build_World (commit_retry settings id t d now random s).2 ex fl')
| s_mark s ex fl p t c st completed_at s' :
    tasks s !! p = Some t -> terminal_row t -> mark_late p st completed_at s = (Some c, s') ->
    step (Build_World s ex fl) (Build_World s' ex (Cancelling p c :: fl))
| s_cancel s ex fl fl' p st c now s' :
    fl ≡ₚ Cancelling p c :: fl' -> cancel_retry p st c now s = (true, s') ->
    step (Build_World s ex fl) (Build_World s' ex (Noting p c :: fl'))
| s_note s ex fl fl' p c :
    fl ≡ₚ Noting p c :: fl' -> step (Build_World s ex fl) (Build_World (note_cancelled p s) ex fl')
| s_drop s ex fl fl' f : fl ≡ₚ f :: fl' -> step (Build_World s ex fl) (Build_World s ex fl')
| s_workers s ex fl hbs : step (Build_World s ex fl) (Build_World (s <| heartbeats := hbs |>) ex fl).

Definition empty_tables : Tables := Build_Tables ∅ ∅ ∅ 0.

Inductive reachable : World -> Prop :=
| r_init : reachable (Build_World empty_tables ∅ [])
| r_step w w' : reachable w -> step w w' -> reachable w'.

(** ** The invariant *)

(** A row that a retry may hang from: finished, and not a cancelled retry. *)
Definition retryable (t : Task) : Prop := terminal_row t /\ t_exception t <> RETRY_SUPERSEDED_PATH.

Definition superseded (t : Task) : Prop := t_status t = FAILED /\ t_exception t = RETRY_SUPERSEDED_PATH.

Record linked (s : Tables) (c : pystr) (a : Attempt) (p : pystr) : Prop := {
  lk_info : a_root a = i_root (attempt_info p s) /\ a_attempt a = i_attempt (attempt_info p s) + 1
            /\ a_max a = i_max (attempt_info p s);
  lk_parent : exists tp tc, tasks s !! p = Some tp /\ tasks s !! c = Some tc /\ retryable tp /\ t_path tc = t_path tp
                /\ a_attempt a <= budget_of settings (t_path tp) (a_max a);
  lk_two : 2 <= a_attempt a;
}.

Record sound (s : Tables) : Prop := {
  so_serial : forall id, id ∈ dom (tasks s) -> exists n, id = uuid n /\ (n < serial s)%nat;
  so_rows : forall c a, attempts s !! c = Some a -> is_Some (tasks s !! c);
  so_first : forall c a, attempts s !! c = Some a -> a_parent a = None -> a_root a = c /\ a_attempt a = 1;
  so_linked : forall c a p, attempts s !! c = Some a -> a_parent a = Some p -> linked s c a p;
  so_unique : unique_parents s;
  so_superseded : forall id t, tasks s !! id = Some t -> t_exception t = RETRY_SUPERSEDED_PATH -> t_status t = FAILED;
  so_cancelled : forall c a, attempts s !! c = Some a -> a_cancelled a = true ->
    a_completed a <> None /\ exists t, tasks s !! c = Some t /\ superseded t;
}.

Definition flight_ok (s : Tables) (f : Flight) : Prop :=
  match f with
  | Retrying id t d => d_info d = attempt_info id s
      /\ i_attempt (attempt_info id s) + 1 <= budget_of settings (t_path t) (i_max (attempt_info id s))
      /\ exists t', tasks s !! id = Some t' /\ t_path t' = t_path t /\ retryable t'
  | Cancelling p c => exists a, attempts s !! c = Some a /\ a_parent a = Some p /\ a_completed a <> None
  | Noting p c => exists a t, attempts s !! c = Some a /\ a_parent a = Some p /\ a_completed a <> None
      /\ tasks s !! c = Some t /\ superseded t
  end.

Record inv (w : World) : Prop := {
  inv_sound : sound (tables w);
  inv_executing : forall id, id ∈ executing w -> exists t, tasks (tables w) !! id = Some t
    /\ t_status t <> READY /\ t_exception t <> RETRY_SUPERSEDED_PATH;
  inv_flights : Forall (flight_ok (tables w)) (flights w);
}.

(** ** Updates in place *)

Lemma attempt_info_tasks id s ts : attempt_info id (s <| tasks := ts |>) = attempt_info id s.
Proof. done. Qed.

(** A row may change as long as its path, its being retryable and its being
    superseded stay. *)
Record row_update (t t' : Task) : Prop := {
  ru_path : t_path t' = t_path t;
  ru_retryable : retryable t -> retryable t';
  ru_superseded : superseded t -> superseded t';
  ru_exception : t_exception t' = RETRY_SUPERSEDED_PATH -> t_status t' = FAILED;
}.

Lemma update_lookup (ts : gmap pystr Task) id t t' x y :
  ts !! id = Some t -> row_update t t' -> ts !! x = Some y ->
  exists y', <[id := t']> ts !! x = Some y' /\ t_path y' = t_path y
    /\ (retryable y -> retryable y') /\ (superseded y -> superseded y').
Proof.
  intros Ht [] Hx. destruct (decide (x = id)) as [->|Hne].
  - exists t'. rewrite lookup_insert_eq. assert (y = t) as -> by congruence. by split_and!.
  - exists y. by rewrite lookup_insert_ne.
Qed.

Lemma linked_update s id t t' c a p :
  tasks s !! id = Some t -> row_update t t' -> linked s c a p ->
  linked (s <| tasks := <[id := t']> (tasks s) |>) c a p.
Proof.
  intros Ht Hu [Hi (tp & tc & Hp & Hc & Hr & Hpath & Hb) H2]. split; [exact Hi| |exact H2]. cbn.
  destruct (update_lookup _ _ _ _ _ _ Ht Hu Hp) as (tp' & Hp' & Ep & Er & _).
  destruct (update_lookup _ _ _ _ _ _ Ht Hu Hc) as (tc' & Hc' & Ec & _).
  exists tp', tc'. split_and!; [done|done|auto|congruence|by rewrite Ep].
Qed.

Lemma sound_update_task s id t t' :
  sound s -> tasks s !! id = Some t -> row_update t t' -> sound (s <| tasks := <[id := t']> (tasks s) |>).
Proof.
  intros [H1 H2 H3 H4 H5 H6 H7] Ht Hu. split; cbn.
  - intros x. rewrite dom_insert_lookup_L by done. apply H1.
  - intros c a Hc. apply H2 in Hc as [y Hy].
    by destruct (update_lookup _ _ _ _ _ _ Ht Hu Hy) as (y' & -> & _).
  - exact H3.
  - intros c a p Hc Hp. eapply linked_update; [exact Ht|exact Hu|]. by apply H4.
  - exact H5.
  - intros x y. destruct (decide (x = id)) as [->|Hne].
    + rewrite lookup_insert_eq. intros [= <-]. apply Hu.
    + rewrite lookup_insert_ne by done. apply H6.
  - intros c a Hc Ha. destruct (H7 c a Hc Ha) as (Hd & y & Hy & Hs). split; [done|].
    destruct (update_lookup _ _ _ _ _ _ Ht Hu Hy) as (y' & Hy' & _ & _ & Hs'). exists y'. split; [done|auto].
Qed.

Lemma flight_update_task s id t t' f :
  tasks s !! id = Some t -> row_update t t' -> flight_ok s f -> flight_ok (s <| tasks := <[id := t']> (tasks s) |>) f.
Proof.
  intros Ht Hu. destruct f as [x tx d|p c|p c]; cbn.
  - intros (Hd & Hb & y & Hy & Hp & Hr). split; [done|]. split; [done|].
    destruct (update_lookup _ _ _ _ _ _ Ht Hu Hy) as (y' & Hy' & Ep & Er & _).
    exists y'. split_and!; [done|by rewrite Ep|auto].
  - done.
  - intros (a & y & Hc & Hp & Hd & Hy & Hs).
    destruct (update_lookup _ _ _ _ _ _ Ht Hu Hy) as (y' & Hy' & _ & _ & Hs'). exists a, y'. split_and!; auto.
Qed.

(** An attempt row may be stamped: its place in the chain stays. *)
Record stamp (s : Tables) (c : pystr) (a a' : Attempt) : Prop := {
  sp_root : a_root a' = a_root a;
  sp_parent : a_parent a' = a_parent a;
  sp_attempt : a_attempt a' = a_attempt a;
  sp_max : a_max a' = a_max a;
  sp_completed : a_completed a <> None -> a_completed a' <> None;
  sp_cancelled : a_cancelled a' = true -> a_completed a' <> None /\ exists t, tasks s !! c = Some t /\ superseded t;
}.

Lemma stamp_lookup (as_ : gmap pystr Attempt) s c a a' x y :
  as_ !! c = Some a -> stamp s c a a' -> <[c := a']> as_ !! x = Some y ->
  exists y0, as_ !! x = Some y0 /\ a_root y = a_root y0 /\ a_parent y = a_parent y0 /\ a_attempt y = a_attempt y0
    /\ a_max y = a_max y0.
Proof.
  intros Hc [] Hx. destruct (decide (x = c)) as [->|Hne].
  - rewrite lookup_insert_eq in Hx. injection Hx as <-. exists a. by split_and!.
  - rewrite lookup_insert_ne in Hx by done. exists y. by split_and!.
Qed.

Lemma stamp_info s c a a' id :
  attempts s !! c = Some a -> stamp s c a a' ->
  attempt_info id (s <| attempts := <[c := a']> (attempts s) |>) = attempt_info id s.
Proof.
  intros Hc []. unfold attempt_info. cbn. destruct (decide (id = c)) as [->|Hne].
  - rewrite lookup_insert_eq, Hc. by f_equal.
  - by rewrite lookup_insert_ne.
Qed.

Lemma sound_stamp s c a a' :
  sound s -> attempts s !! c = Some a -> stamp s c a a' -> sound (s <| attempts := <[c := a']> (attempts s) |>).
Proof.
  intros [H1 H2 H3 H4 H5 H6 H7] Hc Hst. split; cbn.
  - exact H1.
  - intros x y Hx. destruct (stamp_lookup _ _ _ _ _ _ _ Hc Hst Hx) as (y0 & Hy & _). by eapply H2.
  - intros x y Hx. destruct (stamp_lookup _ _ _ _ _ _ _ Hc Hst Hx) as (y0 & Hy & -> & -> & -> & _). by apply H3.
  - intros x y p Hx Hp. destruct (stamp_lookup _ _ _ _ _ _ _ Hc Hst Hx) as (y0 & Hy & E1 & E2 & E3 & E4).
    rewrite E2 in Hp. destruct (H4 x y0 p Hy Hp) as [Hi (tp & tc & Hl) Htwo].
    split; [rewrite (stamp_info s c a a') by done; by rewrite E1, E3, E4| |by rewrite E3]. exists tp, tc. by rewrite E3, E4.
  - intros x y x' y' p Hx Hx' Hp Hp'.
    destruct (stamp_lookup _ _ _ _ _ _ _ Hc Hst Hx) as (y0 & Hy & _ & E2 & _).
    destruct (stamp_lookup _ _ _ _ _ _ _ Hc Hst Hx') as (y0' & Hy' & _ & E2' & _).
    eapply (H5 x y0 x' y0' p); congruence.
  - exact H6.
  - intros x y Hx Hy. destruct (decide (x = c)) as [->|Hne].
    + rewrite lookup_insert_eq in Hx. injection Hx as <-. by apply Hst.
    + rewrite lookup_insert_ne in Hx by done. by apply (H7 x y).
Qed.

Lemma flight_stamp s c a a' f :
  attempts s !! c = Some a -> stamp s c a a' -> flight_ok s f -> flight_ok (s <| attempts := <[c := a']> (attempts s) |>) f.
Proof.
  intros Hc Hst.
  assert (forall x y p, attempts s !! x = Some y -> a_parent y = Some p -> a_completed y <> None ->
    exists y', <[c := a']> (attempts s) !! x = Some y' /\ a_parent y' = Some p /\ a_completed y' <> None) as Hl.
  { intros x y p Hx Hp Hd. destruct (decide (x = c)) as [->|Hne].
    - exists a'. rewrite lookup_insert_eq. assert (y = a) as -> by congruence.
      split; [done|]. split; [by rewrite (sp_parent _ _ _ _ Hst)|by apply Hst].
    - exists y. by rewrite lookup_insert_ne. }
  destruct f as [x tx d|p x|p x]; cbn -[attempt_info].
  - by rewrite (stamp_info s c a a').
  - intros (y & Hx & Hp & Hd). by apply (Hl x y).
  - intros (y & t & Hx & Hp & Hd & Ht). destruct (Hl x y p Hx Hp Hd) as (y' & ? & ? & ?). by exists y', t.
Qed.

(** ** New rows *)

Definition extend (s : Tables) (t : Task) (oa : option Attempt) : Tables :=
  let new := uuid (serial s) in
  {| tasks := <[new := t]> (tasks s);
     attempts := match oa with Some a => <[new := a]> (attempts s) | None => attempts s end;
     heartbeats := heartbeats s; serial := S (serial s) |}.

(** A first attempt, or the only child of a finished one. *)
Definition may_hang (s : Tables) (t : Task) (a : Attempt) : Prop :=
  a_cancelled a = false /\
  match a_parent a with
  | None => a_root a = uuid (serial s) /\ a_attempt a = 1
  | Some p => child_of p s = None
      /\ (a_root a = i_root (attempt_info p s) /\ a_attempt a = i_attempt (attempt_info p s) + 1
          /\ a_max a = i_max (attempt_info p s))
      /\ exists tp, tasks s !! p = Some tp /\ retryable tp /\ t_path t = t_path tp
          /\ a_attempt a <= budget_of settings (t_path tp) (a_max a)
  end.

Lemma fresh_task s : sound s -> tasks s !! uuid (serial s) = None.
Proof.
  intros Hs. destruct (tasks s !! uuid (serial s)) eqn:E; [|done].
  destruct (so_serial _ Hs (uuid (serial s))) as (n & Hn & Hlt); [by apply elem_of_dom|].
  apply (inj uuid) in Hn. lia.
Qed.

Lemma fresh_attempt s : sound s -> attempts s !! uuid (serial s) = None.
Proof.
  intros Hs. destruct (attempts s !! uuid (serial s)) eqn:E; [|done].
  apply (so_rows _ Hs) in E as [t E]. by rewrite fresh_task in E.
Qed.

Lemma old_id s id t : sound s -> tasks s !! id = Some t -> id <> uuid (serial s).
Proof. intros Hs Ht ->. by rewrite fresh_task in Ht. Qed.

Lemma extend_task s t oa id t0 : sound s -> tasks s !! id = Some t0 -> tasks (extend s t oa) !! id = Some t0.
Proof. intros Hs Ht. cbn. rewrite lookup_insert_ne; [done|]. intros <-. by rewrite fresh_task in Ht. Qed.

Lemma extend_info s t oa id t0 :
  sound s -> tasks s !! id = Some t0 -> attempt_info id (extend s t oa) = attempt_info id s.
Proof.
  intros Hs Ht. unfold attempt_info. cbn. destruct oa as [a|]; [|done].
  rewrite lookup_insert_ne; [done|]. intros <-. by rewrite fresh_task in Ht.
Qed.

Lemma linked_extend s t oa c a p : sound s -> linked s c a p -> linked (extend s t oa) c a p.
Proof.
  intros Hs [Hi (tp & tc & Hp & Hc & Hr) H2]. split; [| |exact H2].
  - by rewrite (extend_info s t oa p tp).
  - exists tp, tc. split; [by apply extend_task|]. split; [by apply extend_task|done].
Qed.

Lemma extend_attempt s t oa c a :
  attempts (extend s t oa) !! c = Some a -> (c = uuid (serial s) /\ oa = Some a) \/ attempts s !! c = Some a.
Proof.
  cbn. destruct oa as [a0|]; [|by right]. destruct (decide (c = uuid (serial s))) as [->|Hne].
  - rewrite lookup_insert_eq. intros [= ->]. by left.
  - rewrite lookup_insert_ne by done. by right.
Qed.

Lemma parent_not_new s t a c a' p :
  sound s -> may_hang s t a -> a_parent a = Some p -> attempts s !! c = Some a' -> a_parent a' <> Some p.
Proof.
  intros Hs [_ Hm] Hp Hc Hp'. rewrite Hp in Hm. destruct Hm as [Hn _]. by eapply child_of_none.
Qed.

Lemma info_pos s id : sound s -> 1 <= i_attempt (attempt_info id s).
Proof.
  intros Hs. unfold attempt_info. destruct (attempts s !! id) as [a|] eqn:Ea; cbn; [|lia].
  destruct (a_parent a) as [p|] eqn:Ep.
  - pose proof (lk_two _ _ _ _ (so_linked _ Hs _ _ _ Ea Ep)). lia.
  - destruct (so_first _ Hs _ _ Ea Ep) as [_ ->]. lia.
Qed.

Lemma sound_extend s t oa :
  sound s -> t_status t = READY -> t_exception t <> RETRY_SUPERSEDED_PATH ->
  (forall a, oa = Some a -> may_hang s t a) -> sound (extend s t oa).
Proof.
  intros Hs Hready Hexc Hm. pose proof Hs as [H1 H2 H3 H4 H5 H6 H7]. split.
  - intros id. cbn. rewrite dom_insert_L, elem_of_union, elem_of_singleton. intros [->|Hid]; [exists (serial s); split; [done|cbn; lia]|].
    apply H1 in Hid as (n & -> & Hn). exists n. split; [done|cbn; lia].
  - intros c a [[-> _]|Hc]%extend_attempt; [cbn; by rewrite lookup_insert_eq|].
    apply H2 in Hc as [t0 Ht]. exists t0. by apply extend_task.
  - intros c a [[-> Ho]|Hc]%extend_attempt Hp; [|by apply H3].
    destruct (Hm a Ho) as [_ Hh]. by rewrite Hp in Hh.
  - intros c a p [[-> Ho]|Hc]%extend_attempt Hp; [|by apply linked_extend; [|apply H4]].
    destruct (Hm a Ho) as [_ Hh]. rewrite Hp in Hh. destruct Hh as (_ & Hi & tp & Htp & Hr & Hpath & Hb). split.
    + by rewrite (extend_info s t oa p tp).
    + exists tp, t. split; [by apply extend_task|]. split; [cbn; by rewrite lookup_insert_eq|done].
    + destruct Hi as (_ & -> & _). pose proof (info_pos s p Hs). lia.
  - intros c a c' a' p Hc Hc' Hp Hp'.
    apply extend_attempt in Hc as [[-> Ho]|Hc], Hc' as [[-> Ho']|Hc']; [done| | |by eapply (H5 c a c' a')].
    + by destruct (parent_not_new s t a c' a' p Hs (Hm a Ho) Hp Hc').
    + by destruct (parent_not_new s t a' c a p Hs (Hm a' Ho') Hp' Hc).
  - intros id t0. cbn. destruct (decide (id = uuid (serial s))) as [->|Hne].
    + rewrite lookup_insert_eq. intros [= <-]. done.
    + rewrite lookup_insert_ne by done. apply H6.
  - intros c a [[-> Ho]|Hc]%extend_attempt Ha.
    + destruct (Hm a Ho) as [Hf _]. congruence.
    + destruct (H7 c a Hc Ha) as (Hd & t0 & Ht & Hsup). split; [done|]. exists t0. split; [by apply extend_task|done].
Qed.

Lemma flight_extend s t oa f : sound s -> flight_ok s f -> flight_ok (extend s t oa) f.
Proof.
  intros Hs. destruct f as [id tx d|p c|p c]; cbn [flight_ok].
  - intros (Hd & Hb & t' & Ht & Hp & Hr). rewrite (extend_info s t oa id t') by done.
    split; [done|]. split; [done|]. exists t'. split; [by apply extend_task|done].
  - intros (a & Hc & Hp & Hd). exists a. split; [|done]. destruct (so_rows _ Hs _ _ Hc) as [tc Htc].
    cbn. destruct oa; [|done]. rewrite lookup_insert_ne; [done|]. intros <-. by rewrite fresh_task in Htc.
  - intros (a & tc & Hc & Hp & Hd & Htc & Hsup). exists a, tc. split; [|split_and!; try done; by apply extend_task].
    cbn. destruct oa; [|done]. rewrite lookup_insert_ne; [done|]. intros <-. by rewrite fresh_task in Htc.
Qed.

Lemma enqueue_pinned_extend t pin now s :
  sound s -> exists oa, (enqueue_pinned t pin now s).2 = extend s t oa
    /\ forall a, oa = Some a -> may_hang s t a.
Proof.
  intros Hs. unfold enqueue_pinned, engine_enqueue. destruct pin as [n|]; cbn [snd].
  - unfold pin_max_attempts. cbn [attempts upd]. cbn. rewrite fresh_attempt by done.
    eexists (Some _). split; [reflexivity|]. by intros a [= <-].
  - exists None. by split.
Qed.

Lemma commit_retry_extend id t d now random s :
  sound s -> flight_ok s (Retrying id t d) ->
  (commit_retry settings id t d now random s).2 = s
  \/ exists t' oa, (commit_retry settings id t d now random s).2 = extend s t' oa
       /\ t_status t' = READY /\ t_exception t' <> RETRY_SUPERSEDED_PATH
       /\ forall a, oa = Some a -> may_hang s t' a.
Proof.
  intros Hs (Hd & Hb & t0 & Ht & Hp & Hr). unfold commit_retry, engine_enqueue.
  case_bool_decide as Hc; [by left|]. right. eexists _, (Some _). split; [reflexivity|].
  split; [done|]. split; [by vm_compute|]. intros a [= <-]. split; [done|]. cbn [a_parent a_root a_attempt a_max].
  rewrite Hd. split; [by destruct (child_of id s); [destruct Hc; eexists|]|]. split; [done|].
  exists t0. split_and!; [done|done|done|]. by rewrite Hp.
Qed.

(** ** Every step keeps the invariant *)

Lemma lost_not_superseded : WORKER_LOST_PATH <> RETRY_SUPERSEDED_PATH.
Proof. by_compute. Qed.

Definition executing_ok (s : Tables) (ex : gset pystr) : Prop :=
  forall id, id ∈ ex -> exists t, tasks s !! id = Some t /\ t_status t <> READY /\ t_exception t <> RETRY_SUPERSEDED_PATH.

(** A change of one task row keeps the invariant when the row's bonds stay. *)
Lemma inv_update_task s ex ex' fl id t t' :
  inv (Build_World s ex fl) -> tasks s !! id = Some t -> row_update t t' ->
  (forall x, x ∈ ex' -> x = id \/ x ∈ ex) ->
  (id ∈ ex' -> t_status t' <> READY /\ t_exception t' <> RETRY_SUPERSEDED_PATH) ->
  inv (Build_World (s <| tasks := <[id := t']> (tasks s) |>) ex' fl).
Proof.
  intros [Hs He Hf] Ht Hu Hex Hid. cbn in *. split; cbn.
  - by eapply sound_update_task.
  - intros x Hx. destruct (decide (x = id)) as [->|Hne].
    + exists t'. rewrite lookup_insert_eq. split; [done|auto].
    + destruct (Hex x Hx) as [|Hx']; [done|]. destruct (He x Hx') as (y & Hy & Hr). exists y. by rewrite lookup_insert_ne.
  - eapply Forall_impl; [exact Hf|]. intros f. by eapply flight_update_task.
Qed.

Lemma decide_retry_spec id t cause s d :
  decide_retry settings id t cause s = Some d ->
  t_status t = FAILED /\ t_exception t <> RETRY_SUPERSEDED_PATH /\ d_info d = attempt_info id s
  /\ i_attempt (attempt_info id s) + 1 <= budget_of settings (t_path t) (i_max (attempt_info id s)).
Proof.
  unfold decide_retry. destruct (negb (bool_decide (t_status t = FAILED))) eqn:Ef; [done|].
  destruct (bool_decide (t_exception t ∈ BOOKKEEPING_PATHS)) eqn:Hb; [done|]. apply bool_decide_eq_false in Hb.
  apply negb_false_iff, bool_decide_eq_true in Ef.
  destruct (Z.leb_spec (budget_of settings (t_path t) (i_max (attempt_info id s))) (i_attempt (attempt_info id s)))
    as [|Hlt]; [done|]. intros Hd.
  assert (d_info d = attempt_info id s) as Hi.
  { revert Hd. set (lost := rp_retry_lost _). set (m := matches _ _). clearbody lost m.
    by destruct (classify t cause), lost, m; intros [= <-]. }
  split_and!; [done| |done|lia]. intros E. apply Hb. rewrite E. apply list_elem_of_here.
Qed.

Lemma mark_late_spec p st completed_at s c s' :
  mark_late p st completed_at s = (Some c, s') ->
  exists a a', attempts s !! c = Some a /\ a_parent a = Some p /\ a_cause a = LOST
    /\ s' = s <| attempts := <[c := a']> (attempts s) |>
    /\ a' = a <| a_completed := Some completed_at |> <| a_parent_status := take 16 (status_name st) |>.
Proof.
  unfold mark_late. destruct (child_of p s) as [[c' a]|] eqn:Ec; [|done].
  destruct (bool_decide (a_cause a = LOST) && bool_decide (a_completed a = None)) eqn:Eb; [|done].
  intros [= <- <-]. apply child_of_spec in Ec as [H1 H2]. apply andb_true_iff in Eb as [Eb _].
  apply bool_decide_eq_true in Eb. by exists a, (a <| a_completed := Some completed_at |> <| a_parent_status := take 16 (status_name st) |>).
Qed.

Lemma inv_stamp s ex fl c a a' :
  inv (Build_World s ex fl) -> attempts s !! c = Some a -> stamp s c a a' ->
  inv (Build_World (s <| attempts := <[c := a']> (attempts s) |>) ex fl).
Proof.
  intros [Hs He Hf] Hc Hst. cbn in *. split; cbn.
  - by eapply sound_stamp.
  - exact He.
  - eapply Forall_impl; [exact Hf|]. intros f. by eapply flight_stamp.
Qed.

Lemma inv_extend s ex fl t oa :
  inv (Build_World s ex fl) -> t_status t = READY -> t_exception t <> RETRY_SUPERSEDED_PATH ->
  (forall a, oa = Some a -> may_hang s t a) -> inv (Build_World (extend s t oa) ex fl).
Proof.
  intros [Hs He Hf] Hr Hexc Hm. split; [by apply sound_extend| |].
  - intros id Hid. destruct (He id Hid) as (t0 & Ht & Hrest). exists t0. split; [by apply extend_task|done].
  - eapply Forall_impl; [exact Hf|]. intros f. by apply flight_extend.
Qed.

Lemma inv_flights_perm s ex fl fl' f :
  inv (Build_World s ex fl) -> fl ≡ₚ f :: fl' -> flight_ok s f /\ inv (Build_World s ex fl').
Proof.
  intros [Hs He Hf] Hp. cbn in *. rewrite Hp in Hf. apply Forall_cons in Hf as [H1 H2]. split; [done|]. by split.
Qed.

Lemma inv_flight_cons s ex fl f : inv (Build_World s ex fl) -> flight_ok s f -> inv (Build_World s ex (f :: fl)).
Proof. intros [Hs He Hf] Hok. split; [done|done|by constructor]. Qed.

Lemma step_reap s ex fl id reason now :
  inv (Build_World s ex fl) -> inv (Build_World (reap id reason now s).2 ex fl).
Proof.
  intros Hi. unfold reap. destruct (tasks s !! id) as [t|] eqn:Ht; [|done].
  case_bool_decide as Hr; [|done]. cbn [snd]. eapply (inv_update_task s ex ex); [exact Hi|exact Ht| | |].
  - split; cbn; [done| | |].
    + intros _. split; [by right|]. apply lost_not_superseded.
    + intros [Hst _]. congruence.
    + done.
  - intros x Hx. by right.
  - intros _. split; [done|]. apply lost_not_superseded.
Qed.

Lemma step_cancel s ex fl fl' p st c now s' :
  inv (Build_World s ex fl) -> fl ≡ₚ Cancelling p c :: fl' -> cancel_retry p st c now s = (true, s') ->
  inv (Build_World s' ex (Noting p c :: fl')).
Proof.
  intros Hi Hp. destruct (inv_flights_perm _ _ _ _ _ Hi Hp) as [(a & Hc & Hpar & Hd) Hi'].
  unfold cancel_retry. destruct (tasks s !! c) as [t|] eqn:Ht; [|done]. case_bool_decide as Hr; [|done].
  intros [= <-]. apply inv_flight_cons.
  - eapply (inv_update_task s ex ex); [exact Hi'|exact Ht| | |].
    + split; cbn; [done| | |done].
      * intros [[Hst|Hst] _]; congruence.
      * intros [Hst _]. congruence.
    + intros x Hx. by right.
    + intros Hx. destruct (inv_executing _ Hi c Hx) as (t0 & Ht0 & Hst & _). cbn in Ht0. congruence.
  - exists a. eexists. split_and!; [done|done|done|cbn; by rewrite lookup_insert_eq|done].
Qed.

Lemma step_note s ex fl fl' p c :
  inv (Build_World s ex fl) -> fl ≡ₚ Noting p c :: fl' -> inv (Build_World (note_cancelled p s) ex fl').
Proof.
  intros Hi Hp. destruct (inv_flights_perm _ _ _ _ _ Hi Hp) as [(a & t & Hc & Hpar & Hd & Ht & Hsup) Hi'].
  unfold note_cancelled. rewrite (child_of_some p s c a (so_unique _ (inv_sound _ Hi)) Hc Hpar).
  eapply (inv_stamp s ex fl' c a); [exact Hi'|exact Hc|]. split; cbn; try done. intros _. split; [done|]. by exists t.
Qed.

Lemma chains_step_inv w w' : inv w -> step w w' -> inv w'.
Proof.
  intros Hi Hs. pose proof (inv_sound _ Hi) as Hsound.
  destruct Hs as [s ex fl path args queue prio backend after now pin|s ex fl id t worker now Ht Hr
    |s ex fl id t st exc ret now Hid Ht Hst Hexc|s ex fl id|s ex fl id reason now|s ex fl id t cause d Ht Hd Himp
    |s ex fl fl' id t d now random Hp|s ex fl p t c st completed_at s' Ht Hterm Hm|s ex fl fl' p st c now s' Hp Hc
    |s ex fl fl' p c Hp|s ex fl fl' f Hp|s ex fl hbs]; cbn in Hsound.
  - destruct (enqueue_pinned_extend (new_task path args queue prio backend after now) pin now s Hsound) as (oa & -> & Hm).
    apply inv_extend; [done|done|by vm_compute|done].
  - assert (t_exception t <> RETRY_SUPERSEDED_PATH) as Hne.
    { intros He. apply (so_superseded _ Hsound _ _ Ht) in He. congruence. }
    eapply (inv_update_task s ex); [exact Hi|exact Ht| | |].
    + split; cbn; [done| | |done].
      * intros [[Hst|Hst] _]; congruence.
      * intros [Hst _]. congruence.
    + intros x [Hx%elem_of_singleton|Hx]%elem_of_union; [by left|by right].
    + by intros _.
  - apply not_elem_of_cons in Hexc as [_ Hne%not_elem_of_cons]. destruct Hne as [Hne _].
    eapply (inv_update_task s ex); [exact Hi|exact Ht| | |].
    + split; cbn; [done|by intros _; split| |done].
      intros [_ Hsup]. destruct (inv_executing _ Hi id Hid) as (t0 & Ht0 & _ & Hno). cbn in Ht0. congruence.
    + intros x [Hx _]%elem_of_difference. by right.
    + intros [_ Hx]%elem_of_difference. by destruct Hx; apply elem_of_singleton.
  - destruct Hi as [H1 H2 H3]. split; [done| |done]. intros x [Hx _]%elem_of_difference. by apply H2.
  - by apply step_reap.
  - apply inv_flight_cons; [done|]. destruct (decide_retry_spec _ _ _ _ _ Hd) as (Hf & Hne & Hinfo & Hb).
    split; [done|]. split; [done|]. exists t. split_and!; [done|done|]. split; [by right|done].
  - destruct (inv_flights_perm _ _ _ _ _ Hi Hp) as [Hok Hi'].
    destruct (commit_retry_extend id t d now random s Hsound Hok) as [->|(t' & oa & -> & Hst & Hexc & Hm)]; [done|].
    by apply inv_extend.
  - destruct (mark_late_spec _ _ _ _ _ _ Hm) as (a & a' & Hc & Hpar & _ & -> & ->).
    apply inv_flight_cons.
    + eapply inv_stamp; [exact Hi|exact Hc|]. split; cbn; try done. intros Hcan. split; [done|].
      by destruct (so_cancelled _ Hsound _ _ Hc Hcan).
    + eexists. cbn. rewrite lookup_insert_eq. by split_and!.
  - by eapply step_cancel.
  - by eapply step_note.
  - by destruct (inv_flights_perm _ _ _ _ _ Hi Hp).
  - destruct Hi as [[A1 A2 A3 A4 A5 A6 A7] H2 H3]. cbn in *. split; [split; try done|done|exact H3].
    intros c a p Hc Hp. destruct (A4 c a p Hc Hp) as [B1 B2 B3]. by split.
Qed.

Lemma chains_reachable_inv w : reachable w -> inv w.
Proof.
  induction 1 as [|w w' _ IH Hs]; [|by eapply chains_step_inv]. split; cbn.
  - split; cbn; unfold unique_parents; cbn; intros *; rewrite ?lookup_empty; try done.
  - intros id Hid. set_solver.
  - constructor.
Qed.

(** ** The shape of a chain *)

Definition root_of (id : pystr) (s : Tables) : pystr := i_root (attempt_info id s).
Definition number_of (id : pystr) (s : Tables) : Z := i_attempt (attempt_info id s).

Lemma first_is_root s id : sound s -> number_of id s = 1 -> root_of id s = id.
Proof.
  intros Hs. unfold number_of, root_of, attempt_info. destruct (attempts s !! id) as [a|] eqn:Ea; cbn; [|done].
  intros Hn. destruct (a_parent a) as [p|] eqn:Ep; [|by apply (so_first _ Hs _ _ Ea)].
  pose proof (lk_two _ _ _ _ (so_linked _ Hs _ _ _ Ea Ep)). lia.
Qed.

Lemma info_of s id a :
  attempts s !! id = Some a -> attempt_info id s = {| i_root := a_root a; i_attempt := a_attempt a; i_max := a_max a |}.
Proof. intros Ea. unfold attempt_info. by rewrite Ea. Qed.

(** A later attempt hangs from the one before. *)
Lemma later_has_parent s id :
  sound s -> 1 < number_of id s ->
  exists a p, attempts s !! id = Some a /\ a_parent a = Some p /\ linked s id a p
    /\ number_of p s = number_of id s - 1 /\ root_of p s = root_of id s
    /\ i_max (attempt_info p s) = i_max (attempt_info id s).
Proof.
  intros Hs Hn. unfold number_of, root_of in *. destruct (attempts s !! id) as [a|] eqn:Ea.
  2: { unfold attempt_info in Hn. rewrite Ea in Hn. cbn in Hn. lia. }
  rewrite (info_of _ _ _ Ea) in *. cbn in *.
  destruct (a_parent a) as [p|] eqn:Ep; [|destruct (so_first _ Hs _ _ Ea Ep); lia].
  pose proof (so_linked _ Hs _ _ _ Ea Ep) as Hl. destruct (lk_info _ _ _ _ Hl) as (H1 & H2 & H3).
  exists a, p. split_and!; try done. lia.
Qed.

Lemma child_info s c a p :
  sound s -> attempts s !! c = Some a -> a_parent a = Some p ->
  number_of c s = number_of p s + 1 /\ root_of c s = root_of p s.
Proof.
  intros Hs Hc Hp. destruct (lk_info _ _ _ _ (so_linked _ Hs _ _ _ Hc Hp)) as (H1 & H2 & _).
  unfold number_of, root_of. by rewrite (info_of _ _ _ Hc).
Qed.

(** Within a chain the number determines the attempt. *)
Lemma number_inj s x y :
  sound s -> root_of x s = root_of y s -> number_of x s = number_of y s -> x = y.
Proof.
  intros Hs. remember (Z.to_nat (number_of x s)) as n eqn:En. revert x y En.
  induction n as [|n IH]; intros x y En Hr Hn.
  { pose proof (info_pos s x Hs). unfold number_of in *. lia. }
  destruct (Z.eq_dec (number_of x s) 1) as [E1|E1].
  - rewrite <- (first_is_root s x), <- (first_is_root s y); congruence.
  - pose proof (info_pos s x Hs) as Hpos. fold (number_of x s) in Hpos.
    destruct (later_has_parent s x Hs ltac:(lia)) as (a & p & Ha & Hp & _ & Np & Rp & _).
    destruct (later_has_parent s y Hs ltac:(lia)) as (a' & p' & Ha' & Hp' & _ & Np' & Rp' & _).
    assert (p = p') as <- by (apply IH; [lia|congruence|lia]).
    by eapply (so_unique _ Hs x a y a' p).
Qed.

(** Path and pinned budget are those of the root. *)
Lemma chain_same s id t r tr :
  sound s -> tasks s !! id = Some t -> root_of id s = r -> tasks s !! r = Some tr ->
  t_path t = t_path tr /\ i_max (attempt_info id s) = i_max (attempt_info r s).
Proof.
  intros Hs. remember (Z.to_nat (number_of id s)) as n eqn:En. revert id t En.
  induction n as [|n IH]; intros id t En Ht Hr Htr.
  { pose proof (info_pos s id Hs). unfold number_of in *. lia. }
  destruct (Z.eq_dec (number_of id s) 1) as [E1|E1].
  - apply first_is_root in E1; [|done]. assert (id = r) as -> by congruence. split; [congruence|done].
  - pose proof (info_pos s id Hs) as Hpos. fold (number_of id s) in Hpos.
    destruct (later_has_parent s id Hs ltac:(lia)) as (a & p & Ha & Hp & Hl & Np & Rp & Mp).
    destruct (lk_parent _ _ _ _ Hl) as (tp & tc & Htp & Htc & _ & Hpath & _).
    destruct (IH p tp) as [H1 H2]; [lia|done|congruence|done|]. split; congruence.
Qed.

Lemma number_budget s id t :
  sound s -> tasks s !! id = Some t ->
  1 <= number_of id s <= Z.max 1 (budget_of settings (t_path t) (i_max (attempt_info id s))).
Proof.
  intros Hs Ht. pose proof (info_pos s id Hs) as Hpos. fold (number_of id s) in Hpos. split; [done|].
  destruct (Z.eq_dec (number_of id s) 1) as [->|E1]; [lia|].
  destruct (later_has_parent s id Hs ltac:(lia)) as (a & p & Ha & Hp & Hl & _).
  destruct (lk_parent _ _ _ _ Hl) as (tp & tc & _ & Htc & _ & Hpath & Hb).
  assert (tc = t) as -> by congruence. unfold number_of, attempt_info. rewrite Ha. cbn. rewrite Hpath. lia.
Qed.

(** The attempts of a chain have distinct numbers, up to the budget. *)
Lemma chain_size s r tr ids :
  sound s -> tasks s !! r = Some tr ->
  NoDup ids -> (forall id, id ∈ ids -> is_Some (tasks s !! id) /\ root_of id s = r) ->
  zlen ids <= Z.max 1 (budget_of settings (t_path tr) (i_max (attempt_info r s))).
Proof.
  intros Hs Htr Hnd Hids. set (B := Z.max 1 _).
  assert ((fun id => number_of id s) <$> ids ⊆+ seqZ 1 B) as Hsub.
  { apply NoDup_submseteq.
    - clear B. induction ids as [|x ids IH]; [constructor|]. rewrite fmap_cons. apply NoDup_cons in Hnd as [Hx Hnd].
      apply NoDup_cons. split.
      + intros (y & Hy & Hin)%list_elem_of_fmap. apply Hx.
        assert (x = y) as ->; [|done]. apply (number_inj s); [done| |done].
        destruct (Hids x (list_elem_of_here _ _)) as [_ ->].
        destruct (Hids y (list_elem_of_further _ _ _ Hin)) as [_ ->]. done.
      + apply IH; [done|]. intros id Hin. apply Hids. by apply list_elem_of_further.
    - intros n (id & -> & Hin)%list_elem_of_fmap. destruct (Hids id Hin) as [[t Ht] Hr].
      pose proof (number_budget s id t Hs Ht) as Hb.
      destruct (chain_same s id t r tr Hs Ht Hr Htr) as [E1 E2]. rewrite E1, E2 in Hb.
      apply elem_of_seqZ. subst B. lia. }
  apply submseteq_length in Hsub. rewrite length_fmap, length_seqZ in Hsub. unfold zlen. lia.
Qed.

(** No chain runs longer than its budget. However workers, crashes, the signal
    receiver, reapers and repair sweeps interleave between their statements,
    no attempt is retried twice, and the attempts made for one enqueued task
    are at most its budget: the one pinned at the enqueue, else that of the
    task's policy, else the setting (and one, for a task that is not retried). *)
Theorem retry_budget w r tr ids :
  reachable w -> tasks (tables w) !! r = Some tr ->
  NoDup ids -> (forall id, id ∈ ids -> is_Some (tasks (tables w) !! id) /\ root_of id (tables w) = r) ->
  unique_parents (tables w)
  /\ zlen ids <= Z.max 1 (budget_of settings (t_path tr) (i_max (attempt_info r (tables w)))).
Proof.
  intros Hw Htr Hnd Hids. apply chains_reachable_inv in Hw as [Hs _ _]. split; [apply Hs|]. by apply chain_size.
Qed.

(** A retry that was cancelled is final. *)
Lemma cancelled_final s c a :
  sound s -> attempts s !! c = Some a -> a_cancelled a = true -> child_of c s = None.
Proof.
  intros Hs Hc Ha. destruct (child_of c s) as [[x ax]|] eqn:Ex; [|done].
  apply child_of_spec in Ex as [Hx Hpx].
  destruct (lk_parent _ _ _ _ (so_linked _ Hs _ _ _ Hx Hpx)) as (tp & _ & Htp & _ & [_ Hne] & _).
  destruct (so_cancelled _ Hs _ _ Hc Ha) as (_ & t & Ht & _ & Hexc). congruence.
Qed.

Lemma walk_not_resurrected s fuel w :
  sound s -> wk_resurrected w = false -> wk_resurrected (walk fuel s w) = false.
Proof.
  intros Hs. revert w. induction fuel as [|fuel IH]; intros w Hw; [done|]. cbn [walk].
  destruct (child_of (wk_id w) s) as [[c a]|] eqn:Ec; [|done].
  destruct (a_completed a); [|by apply IH]. destruct (a_cancelled a) eqn:Ea; [|by apply IH].
  apply child_of_spec in Ec as [Hc _]. rewrite (cancelled_final s c a Hs Hc Ea).
  by rewrite bool_decide_eq_true_2.
Qed.

Lemma outcome_fields id now s o :
  chain_outcome settings id now s = Some o ->
  let w := walk MAX_CHAIN s (start_walk id) in
  co_id o = wk_id w /\ co_attempt o = wk_attempt w /\ co_resurrected o = wk_resurrected w
  /\ tasks s !! co_id o = Some (co_row o)
  /\ co_more_than_once o = wk_forked w || (wk_resurrected w && negb (bool_decide (t_status (co_row o) = READY))).
Proof.
  unfold chain_outcome. set (w := walk _ _ _). clearbody w.
  destruct (tasks s !! wk_id w) as [t|] eqn:Et; cbn [mbind option_bind]; [|discriminate].
  intros E. apply (inj Some) in E. subst o. cbn zeta. split_and!; try reflexivity. exact Et.
Qed.

(** A cancelled retry stays cancelled. Once a retry was cancelled because the
    attempt it replaced came back, no worker ever executes it, its row keeps the
    verdict, and nothing retries it, whatever was in flight; so the state the
    code reports as "should be unreachable", a cancelled retry that ran on, is
    unreachable in every outcome it computes. *)
Theorem cancelled_is_final w c a :
  reachable w -> attempts (tables w) !! c = Some a -> a_cancelled a = true ->
  (exists t, tasks (tables w) !! c = Some t /\ superseded t) /\ c ∉ executing w /\ retry_of c (tables w) = None
  /\ forall id now o, chain_outcome settings id now (tables w) = Some o -> co_resurrected o = false.
Proof.
  intros Hw Hc Ha. apply chains_reachable_inv in Hw as [Hs He _].
  destruct (so_cancelled _ Hs _ _ Hc Ha) as (_ & t & Ht & Hsup). split_and!.
  - by exists t.
  - intros Hx. destruct (He c Hx) as (t' & Ht' & _ & Hne). destruct Hsup as [_ Hsup]. congruence.
  - unfold retry_of. by rewrite (cancelled_final _ c a Hs Hc Ha).
  - intros id now o Ho. apply outcome_fields in Ho as (_ & _ & -> & _).
    by apply walk_not_resurrected.
Qed.

(** ** The walk along a chain *)

(** An attempt that replaced one which completed after all, and that had started. *)
Definition doubled (s : Tables) (r x : pystr) (a : Attempt) : Prop :=
  attempts s !! x = Some a /\ root_of x s = r /\ a_parent a <> None /\ a_completed a <> None /\ a_cancelled a = false.

Record walked (s : Tables) (fuel : nat) (w w' : Walk) : Prop := {
  wd_number : wk_attempt w' = number_of (wk_id w') s;
  wd_root : root_of (wk_id w') s = root_of (wk_id w) s;
  wd_later : wk_attempt w <= wk_attempt w';
  wd_end : child_of (wk_id w') s = None
           \/ (exists c a, child_of (wk_id w') s = Some (c, a) /\ a_cancelled a = true)
           \/ wk_attempt w' = wk_attempt w + Z.of_nat fuel;
  wd_task : is_Some (tasks s !! wk_id w) -> is_Some (tasks s !! wk_id w');
  wd_forked : wk_forked w' = true <-> wk_forked w = true \/
    exists x a, doubled s (root_of (wk_id w) s) x a /\ wk_attempt w < number_of x s <= wk_attempt w';
}.

Lemma walked_stop s fuel w w' :
  wk_id w' = wk_id w -> wk_attempt w' = wk_attempt w -> wk_forked w' = wk_forked w ->
  wk_attempt w = number_of (wk_id w) s ->
  (child_of (wk_id w) s = None \/ (exists c a, child_of (wk_id w) s = Some (c, a) /\ a_cancelled a = true)
   \/ fuel = O) -> walked s fuel w w'.
Proof.
  intros E1 E2 E3 Hn Hend. split; rewrite ?E1, ?E2, ?E3; try done.
  - destruct Hend as [He|[He|He]]; [by left|by right; left|right; right; subst fuel; cbn; lia].
  - split; [by left|]. intros [?|(x & a & _ & ?)]; [done|lia].
Qed.

Lemma walked_next s fuel w w1 w' c a :
  sound s -> wk_attempt w = number_of (wk_id w) s ->
  attempts s !! c = Some a -> a_parent a = Some (wk_id w) ->
  wk_id w1 = c -> wk_attempt w1 = a_attempt a ->
  wk_forked w1 = (wk_forked w || bool_decide (a_completed a <> None /\ a_cancelled a = false)) ->
  walked s fuel w1 w' -> walked s (S fuel) w w'.
Proof.
  intros Hs Hn Hc Hp E1 E2 E3 [W1 W2 W3 W4 W5 W6].
  destruct (child_info s c a (wk_id w) Hs Hc Hp) as [Nc Rc].
  assert (a_attempt a = number_of c s) as Ea by (unfold number_of; by rewrite (info_of _ _ _ Hc)).
  rewrite E1, E2, E3 in *. split.
  - done.
  - by rewrite W2.
  - lia.
  - destruct W4 as [?|[?|E4]]; [by left|by right; left|right; right; lia].
  - intros _. apply W5. by apply (so_rows _ Hs _ _ Hc).
  - rewrite W6, Rc. split.
    + intros [Hf|(x & ax & Hx & Hlt)].
      * apply orb_true_iff in Hf as [Hf|Hd]; [by left|]. apply bool_decide_eq_true in Hd. right. exists c, a. split; [|lia]. destruct Hd. split_and!; try done. by rewrite Hp.
      * right. exists x, ax. split; [done|lia].
    + intros [Hf|(x & ax & Hx & Hlt)]; [left; by rewrite Hf|].
      destruct (Z.eq_dec (number_of x s) (number_of c s)) as [En|En].
      * left. destruct Hx as (Hax & Hr & _ & Hd & Hcan).
        assert (x = c) as -> by (apply (number_inj s); [done|congruence|done]).
        assert (ax = a) as -> by congruence. apply orb_true_iff. right. by apply bool_decide_eq_true.
      * right. exists x, ax. split; [done|lia].
Qed.

Lemma walk_spec s fuel w :
  sound s -> wk_attempt w = number_of (wk_id w) s -> wk_resurrected w = false -> walked s fuel w (walk fuel s w).
Proof.
  intros Hs. revert w. induction fuel as [|fuel IH]; intros w Hn Hr; [apply walked_stop; auto|]. cbn [walk].
  destruct (child_of (wk_id w) s) as [[c a]|] eqn:Ec; [|apply walked_stop; auto].
  destruct (child_of_spec _ _ _ _ Ec) as [Hc Hp].
  assert (a_attempt a = number_of c s) as Ea by (unfold number_of; by rewrite (info_of _ _ _ Hc)).
  destruct (a_completed a) as [t|] eqn:Ed; [destruct (a_cancelled a) eqn:Ex|].
  - rewrite (cancelled_final s c a Hs Hc Ex), bool_decide_eq_true_2 by done.
    apply walked_stop; try done. right. left. by exists c, a.
  - eapply walked_next; [done|done|exact Hc|exact Hp| | | |apply IH; done]; [done|done|].
    cbn. rewrite Ed, Ex, bool_decide_eq_true_2 by done. by rewrite orb_true_r.
  - eapply walked_next; [done|done|exact Hc|exact Hp| | | |apply IH; done]; [done|done|].
    cbn. rewrite Ed, bool_decide_eq_false_2 by (by intros [? _]). by rewrite orb_false_r.
Qed.

(** From any attempt of a chain, the earlier ones. *)
Lemma ancestor s x k :
  sound s -> 1 <= k < number_of x s ->
  exists y z a, number_of y s = k /\ root_of y s = root_of x s /\ attempts s !! z = Some a /\ a_parent a = Some y
    /\ root_of z s = root_of x s.
Proof.
  intros Hs. remember (Z.to_nat (number_of x s - k)) as n eqn:En. revert x En.
  induction n as [|n IH]; intros x En Hk; [lia|].
  destruct (later_has_parent s x Hs ltac:(lia)) as (a & p & Ha & Hp & _ & Np & Rp & _).
  destruct (Z.eq_dec (number_of p s) k) as [Ek|Ek].
  - exists p, x, a. by split_and!.
  - destruct (IH p) as (y & z & az & H1 & H2 & H3 & H4 & H5); [lia|lia|]. exists y, z, az. split_and!; congruence.
Qed.

(** Where the walk ends, the chain ends, but for a cancelled retry. *)
Lemma chain_ends s y x a :
  sound s -> child_of y s = None \/ (exists c ac, child_of y s = Some (c, ac) /\ a_cancelled ac = true) ->
  doubled s (root_of y s) x a -> number_of x s <= number_of y s.
Proof.
  intros Hs Hend (Hx & Hr & _ & _ & Hcan). destruct (Z.le_gt_cases (number_of x s) (number_of y s)) as [|Hgt]; [done|].
  exfalso. pose proof (info_pos s y Hs) as Hpos. fold (number_of y s) in Hpos.
  destruct (ancestor s x (number_of y s) Hs ltac:(lia)) as (y' & z & az & Hn & Hry & Hz & Hpz & Hrz).
  assert (y' = y) as -> by (apply (number_inj s); [done|congruence|done]).
  pose proof (child_of_some y s z az (so_unique _ Hs) Hz Hpz) as Hch.
  destruct Hend as [He|(c & ac & He & Hcc)]; [congruence|].
  assert (z = c /\ az = ac) as [-> ->] by (split; congruence).
  destruct (child_info s c ac y Hs Hz Hpz) as [Nc Rc].
  destruct (Z.eq_dec (number_of x s) (number_of c s)) as [En|En].
  - assert (x = c) as -> by (apply (number_inj s); [done|congruence|done]). congruence.
  - destruct (ancestor s x (number_of c s) Hs ltac:(lia)) as (c' & z & az & Hn' & Hrc & Hz' & Hpz' & _).
    assert (c' = c) as -> by (apply (number_inj s); [done|congruence|done]).
    pose proof (child_of_some c s z az (so_unique _ Hs) Hz' Hpz') as Hch'.
    rewrite (cancelled_final s c ac Hs Hz Hcc) in Hch'. done.
Qed.

Lemma outcome_exact s r tr now :
  sound s -> tasks s !! r = Some tr -> number_of r s = 1 ->
  budget_of settings (t_path tr) (i_max (attempt_info r s)) <= 1000 ->
  exists o, chain_outcome settings r now s = Some o
    /\ root_of (co_id o) s = r /\ co_attempt o = number_of (co_id o) s
    /\ (child_of (co_id o) s = None \/ exists c a, child_of (co_id o) s = Some (c, a) /\ a_cancelled a = true)
    /\ (co_more_than_once o = true <-> exists x a, doubled s r x a).
Proof.
  intros Hs Htr Hr1 Hb. pose proof (first_is_root s r Hs Hr1) as Hrr.
  pose proof (walk_spec s MAX_CHAIN (start_walk r) Hs (eq_sym Hr1) eq_refl) as [W1 W2 W3 W4 W5 W6].
  pose proof (walk_not_resurrected s MAX_CHAIN (start_walk r) Hs eq_refl) as Hres.
  cbn [start_walk wk_id wk_attempt wk_forked] in *. rewrite Hrr in *.
  destruct (W5 (mk_is_Some _ _ Htr)) as [t Ht].
  assert (exists o, chain_outcome settings r now s = Some o) as [o Ho].
  { unfold chain_outcome. rewrite Ht. by eexists. }
  exists o. split; [done|]. apply outcome_fields in Ho as (E1 & E2 & _ & _ & E5).
  set (w := walk MAX_CHAIN s (start_walk r)) in *. clearbody w.
  assert (child_of (wk_id w) s = None \/ (exists c a, child_of (wk_id w) s = Some (c, a) /\ a_cancelled a = true)) as Hend.
  { destruct W4 as [?|[?|Hfull]]; [by left|by right|]. exfalso.
    pose proof (number_budget s (wk_id w) t Hs Ht) as Hnb.
    destruct (chain_same s (wk_id w) t r tr Hs Ht W2 Htr) as [P1 P2]. rewrite P1, P2 in Hnb.
    assert (Z.of_nat MAX_CHAIN = 1000) as E by (by vm_compute). lia. }
  rewrite E1, E2, E5, Hres, orb_false_r. split_and!; [done|done|done|].
  rewrite W6. split.
  - intros [?|(x & a & Hx & _)]; [done|]. by exists x, a.
  - intros (x & a & Hx). right. exists x, a. split; [done|].
    rewrite <- W2 in Hx. pose proof (chain_ends s (wk_id w) x a Hs Hend Hx) as Hle.
    destruct Hx as (Hax & Hrx & Hpx & _). destruct (a_parent a) as [p|] eqn:Ep; [|done].
    destruct (child_info s x a p Hs Hax Ep) as [Nx _]. pose proof (info_pos s p Hs). unfold number_of in *. lia.
Qed.

(** Following the retries of a run reports the truth. In every reachable state,
    for a task whose budget is at most a thousand, the outcome is that of the
    last attempt of its chain, a cancelled retry not counting as one, with its
    number; and it says the task executed more than once exactly when some
    attempt of the chain completed after it had been declared lost and replaced
    by one that had started. *)
Theorem outcome_is_last w r tr now :
  reachable w -> tasks (tables w) !! r = Some tr -> number_of r (tables w) = 1 ->
  budget_of settings (t_path tr) (i_max (attempt_info r (tables w))) <= 1000 ->
  exists o, chain_outcome settings r now (tables w) = Some o
    /\ root_of (co_id o) (tables w) = r /\ co_attempt o = number_of (co_id o) (tables w)
    /\ (child_of (co_id o) (tables w) = None
        \/ exists c a, child_of (co_id o) (tables w) = Some (c, a) /\ a_cancelled a = true)
    /\ (co_more_than_once o = true <-> exists x a, doubled (tables w) r x a).
Proof. intros Hw. apply chains_reachable_inv in Hw as [Hs _ _]. by apply outcome_exact. Qed.

(** ** The operations are sequences of steps *)

Lemma reach w w' : reachable w -> step w w' -> reachable w'.
Proof. apply r_step. Qed.

Lemma mark_late_none p st completed_at s s' : mark_late p st completed_at s = (None, s') -> s' = s.
Proof.
  unfold mark_late. destruct (child_of p s) as [[c a]|]; [|by intros [= <-]].
  destruct (_ && _); [done|]. by intros [= <-].
Qed.

Lemma cancel_retry_false p st c now s s' : cancel_retry p st c now s = (false, s') -> s' = s.
Proof.
  unfold cancel_retry. destruct (tasks s !! c) as [t|]; [|by intros [= <-]].
  case_bool_decide; [done|]. by intros [= <-].
Qed.

Lemma mark_superseded_steps s ex fl p t st completed_at now :
  reachable (Build_World s ex fl) -> tasks s !! p = Some t -> terminal_row t ->
  reachable (Build_World (mark_superseded p st completed_at now s).2 ex fl).
Proof.
  intros Hw Ht Hterm. unfold mark_superseded. destruct (mark_late p st completed_at s) as [[c|] s1] eqn:Em.
  2: { by rewrite (mark_late_none _ _ _ _ _ Em). }
  assert (reachable (Build_World s1 ex (Cancelling p c :: fl))) as H1 by (eapply reach; [exact Hw|by eapply s_mark]).
  destruct (cancel_retry p st c now s1) as [[] s2] eqn:Ec; cbn [snd].
  - eapply reach; [eapply reach; [exact H1|by eapply s_cancel]|]. by eapply s_note.
  - rewrite (cancel_retry_false _ _ _ _ _ _ Ec). eapply reach; [exact H1|]. by eapply s_drop.
Qed.

Lemma maybe_retry_steps s ex fl id cause now random :
  reachable (Build_World s ex fl) -> reachable (Build_World (maybe_retry settings id cause now random s).2 ex fl).
Proof.
  intros Hw. unfold maybe_retry. destruct (tasks s !! id) as [t|] eqn:Ht; [|done].
  destruct (decide_retry settings id t cause s) as [d|] eqn:Ed; [|done].
  destruct (importable (t_path t)) eqn:Ei; [|done].
  pose proof (surjective_pairing (commit_retry settings id t d now random s)) as Ec. rewrite Ec. cbn [snd].
  eapply reach; [eapply reach; [exact Hw|by eapply s_decide]|]. by eapply s_commit.
Qed.

(** Stamps and cancels leave chains, causes and finished rows alone. *)
Record framed (s s' : Tables) : Prop := {
  fr_info : forall id, attempt_info id s' = attempt_info id s;
  fr_tasks : forall id t, tasks s !! id = Some t ->
    exists t', tasks s' !! id = Some t' /\ t_path t' = t_path t /\ (t_status t <> READY -> t' = t);
  fr_attempts : forall c a, attempts s !! c = Some a ->
    exists a', attempts s' !! c = Some a' /\ a_parent a' = a_parent a /\ a_cause a' = a_cause a
      /\ (a_completed a <> None -> a_completed a' <> None);
}.

#[local] Instance framed_refl : Reflexive framed.
Proof. intros s. split; [done|intros id t Ht; by exists t|intros c a Hc; by exists a]. Qed.

#[local] Instance framed_trans : Transitive framed.
Proof.
  intros a b c [A1 A2 A3] [B1 B2 B3]. split.
  - intros id. by rewrite B1, A1.
  - intros id t (t' & Ht' & P1 & S1)%A2. destruct (B2 _ _ Ht') as (t'' & Ht'' & P2 & S2).
    exists t''. split; [done|]. split; [congruence|]. intros Hst. specialize (S1 Hst). subst t'. by apply S2.
  - intros x y (y' & Hy' & P1 & C1 & D1)%A3. destruct (B3 _ _ Hy') as (y'' & Hy'' & P2 & C2 & D2).
    exists y''. split_and!; [done|congruence|congruence|auto].
Qed.

Lemma stamp_framed s c a a' :
  attempts s !! c = Some a -> a_root a' = a_root a -> a_parent a' = a_parent a -> a_attempt a' = a_attempt a ->
  a_max a' = a_max a -> a_cause a' = a_cause a -> (a_completed a <> None -> a_completed a' <> None) ->
  framed s (s <| attempts := <[c := a']> (attempts s) |>).
Proof.
  intros Hc E1 E2 E3 E4 E5 E6. split.
  - intros id. unfold attempt_info. cbn. destruct (decide (id = c)) as [->|Hne].
    + rewrite lookup_insert_eq, Hc. by f_equal.
    + by rewrite lookup_insert_ne.
  - intros id t Ht. by exists t.
  - intros x y Hx. cbn. destruct (decide (x = c)) as [->|Hne].
    + exists a'. rewrite lookup_insert_eq. assert (y = a) as -> by congruence. by split_and!.
    + exists y. by rewrite lookup_insert_ne.
Qed.

Lemma cancel_framed p st c now s : framed s (cancel_retry p st c now s).2.
Proof.
  unfold cancel_retry. destruct (tasks s !! c) as [t|] eqn:Ht; [|reflexivity].
  case_bool_decide as Hr; [|reflexivity]. split; [done| |intros x y Hx; by exists y].
  intros id t0 Ht0. cbn. destruct (decide (id = c)) as [->|Hne].
  - eexists. rewrite lookup_insert_eq. assert (t0 = t) as -> by congruence. by split_and!.
  - exists t0. by rewrite lookup_insert_ne.
Qed.

Lemma mark_superseded_framed p st completed_at now s : framed s (mark_superseded p st completed_at now s).2.
Proof.
  unfold mark_superseded. destruct (mark_late p st completed_at s) as [[c|] s1] eqn:Em.
  2: { rewrite (mark_late_none _ _ _ _ _ Em). reflexivity. }
  apply mark_late_spec in Em as (a & a' & Hc & _ & _ & -> & ->).
  match goal with |- context [cancel_retry p st c now ?x] => set (s1 := x) end.
  assert (framed s s1) as H1 by by eapply stamp_framed.
  pose proof (cancel_framed p st c now s1) as H2. destruct (cancel_retry p st c now s1) as [[] s2]; cbn [snd] in *.
  - transitivity s1; [done|]. transitivity s2; [done|]. unfold note_cancelled.
    destruct (child_of p s2) as [[x y]|] eqn:Ex; [|reflexivity]. apply child_of_spec in Ex as [Hx _].
    by eapply stamp_framed.
  - by transitivity s1.
Qed.

Lemma detect_loop_steps rows now s ex fl :
  reachable (Build_World s ex fl) ->
  Forall (fun x => tasks s !! x.1 = Some x.2 /\ terminal_row x.2) rows ->
  reachable (Build_World (detect_loop rows now s).2 ex fl) /\ framed s (detect_loop rows now s).2.
Proof.
  revert s. induction rows as [|[p t] rows IH]; intros s Hw Hrows; [by split|].
  apply Forall_cons in Hrows as [[Ht Hterm] Hrows]. cbn [detect_loop fst snd] in *.
  pose proof (mark_superseded_steps s ex fl p t (t_status t) (default now (t_finished_at t)) now Hw Ht Hterm) as H1.
  pose proof (mark_superseded_framed p (t_status t) (default now (t_finished_at t)) now s) as H2.
  destruct (mark_superseded _ _ _ _ _) as [late s1]; cbn [snd] in *.
  destruct (IH s1 H1) as [H3 H4].
  - eapply Forall_impl; [exact Hrows|]. intros [x tx] [Hx Hxt]. split; [|done]. cbn in *.
    destruct (fr_tasks _ _ H2 _ _ Hx) as (t' & Ht' & _ & Hsame). rewrite Ht', Hsame; [done|].
    destruct Hxt; congruence.
  - destruct (detect_loop rows now s1) as [found s2]; cbn [snd] in *. split; [done|]. by transitivity s1.
Qed.

Lemma came_back_terminal t : came_back t = true -> terminal_row t.
Proof. unfold came_back, terminal_row. destruct (t_status t); intros Hc; [done|done|by left|by right]. Qed.

Lemma late_rows_ok now limit s :
  Forall (fun x => tasks s !! x.1 = Some x.2 /\ terminal_row x.2) (late_rows now limit s).
Proof.
  apply Forall_forall. intros [p t] Hin. unfold late_rows in Hin. apply list_elem_of_omap in Hin as (q & _ & Hq).
  destruct (tasks s !! q) as [tq|] eqn:Eq; cbn in Hq; [|done].
  destruct (came_back tq) eqn:Ec; [|done]. injection Hq as <- <-. split; [done|]. by apply came_back_terminal.
Qed.

Lemma detect_steps now limit s ex fl :
  reachable (Build_World s ex fl) ->
  reachable (Build_World (detect_late_completions now limit s).2 ex fl)
  /\ framed s (detect_late_completions now limit s).2.
Proof. intros Hw. apply detect_loop_steps; [done|apply late_rows_ok]. Qed.

Lemma mark_superseded_marks s ex fl p st completed_at now c a :
  reachable (Build_World s ex fl) -> attempts s !! c = Some a -> a_parent a = Some p -> a_cause a = LOST ->
  exists a', attempts (mark_superseded p st completed_at now s).2 !! c = Some a' /\ a_completed a' <> None.
Proof.
  intros Hw Hc Hp Hl. pose proof (chains_reachable_inv _ Hw) as [Hs _ _]. cbn in Hs.
  pose proof (mark_superseded_framed p st completed_at now s) as Hf.
  destruct (fr_attempts _ _ Hf _ _ Hc) as (a1 & Ha1 & _ & _ & D1).
  exists a1. split; [done|]. destruct (a_completed a) as [x|] eqn:Ed; [by apply D1|].
  revert Ha1. unfold mark_superseded, mark_late.
  rewrite (child_of_some p s c a (so_unique _ Hs) Hc Hp), Hl, Ed, !bool_decide_eq_true_2 by done. cbn [andb].
  match goal with |- context [cancel_retry p st c now ?x] => set (s1 := x) end.
  assert (exists a2, attempts s1 !! c = Some a2 /\ a_completed a2 <> None) as (a2 & Ha2 & Hd2).
  { subst s1. cbn. rewrite lookup_insert_eq. by eexists. }
  destruct (fr_attempts _ _ (cancel_framed p st c now s1) _ _ Ha2) as (a3 & Ha3 & _ & _ & Hd3).
  destruct (cancel_retry p st c now s1) as [[] s2]; cbn [snd] in *; [|intros; simplify_eq; by auto].
  unfold note_cancelled. destruct (child_of p s2) as [[x y]|] eqn:Ex; [|intros; simplify_eq; by auto].
  cbn. destruct (decide (x = c)) as [->|Hne]; [|rewrite lookup_insert_ne by done; intros; simplify_eq; by auto].
  rewrite lookup_insert_eq. intros [= <-]. cbn. apply child_of_spec in Ex as [Ex _]. simplify_eq. by auto.
Qed.

(** A reaped attempt that the sweep looks at is marked. *)
Lemma detect_loop_marks rows now s ex fl p t c a :
  reachable (Build_World s ex fl) ->
  Forall (fun x => tasks s !! x.1 = Some x.2 /\ terminal_row x.2) rows ->
  attempts s !! c = Some a -> a_parent a = Some p -> a_cause a = LOST ->
  a_completed a <> None \/ (p, t) ∈ rows ->
  exists a', attempts (detect_loop rows now s).2 !! c = Some a' /\ a_completed a' <> None.
Proof.
  revert s a. induction rows as [|[q tq] rows IH]; intros s a Hw Hrows Hc Hp Hl Hin.
  { destruct Hin as [?|Hin%elem_of_nil]; [|done]. by exists a. }
  pose proof Hrows as [[Htq Hterm] Hrows']%Forall_cons. cbn [detect_loop fst snd] in *.
  pose proof (mark_superseded_steps s ex fl q tq (t_status tq) (default now (t_finished_at tq)) now Hw Htq Hterm) as H1.
  pose proof (mark_superseded_framed q (t_status tq) (default now (t_finished_at tq)) now s) as H2.
  destruct (fr_attempts _ _ H2 _ _ Hc) as (a1 & Ha1 & P1 & C1 & D1).
  assert (a_completed a <> None \/ (p, t) ∈ rows \/ q = p) as Hcase.
  { destruct Hin as [?|Hin]; [by left|]. apply elem_of_cons in Hin as [[= -> ->]|?]; auto. }
  assert (q = p -> a_completed a1 <> None) as Hmark.
  { intros ->. destruct (mark_superseded_marks s ex fl p (t_status tq) (default now (t_finished_at tq)) now c a Hw Hc Hp Hl)
      as (a2 & Ha2 & Hd2). congruence. }
  destruct (mark_superseded _ _ _ _ _) as [late s1]; cbn [snd] in *.
  assert (Forall (fun x => tasks s1 !! x.1 = Some x.2 /\ terminal_row x.2) rows) as Hrows1.
  { eapply Forall_impl; [exact Hrows'|]. intros [x tx] [Hx Hxt]. split; [|done]. cbn in *.
    destruct (fr_tasks _ _ H2 _ _ Hx) as (t' & Ht' & _ & Hsame). rewrite Ht', Hsame; [done|]. destruct Hxt; congruence. }
  destruct (IH s1 a1 H1 Hrows1 Ha1) as (a' & Ha' & Hd'); [congruence|congruence| |].
  - destruct Hcase as [?|[?|?]]; [left; auto|by right|left; auto].
  - destruct (detect_loop rows now s1) as [found s2]; cbn [snd] in *. by exists a'.
Qed.

(** An attempt came back: it finished after the reaper had given it up, and the
    sweep has marked it before or looks at it now. *)
Definition to_be_noticed (now : Z) (limit : nat) (s : Tables) (p c : pystr) (a : Attempt) : Prop :=
  attempts s !! c = Some a /\ a_parent a = Some p /\ a_cause a = LOST
  /\ (exists t, tasks s !! p = Some t /\ came_back t = true)
  /\ (a_completed a <> None \/ p ∈ late_candidates now limit s).

Lemma noticed_after_sweep now limit s ex fl r tr p c a now' :
  reachable (Build_World s ex fl) ->
  tasks s !! r = Some tr -> number_of r s = 1 ->
  budget_of settings (t_path tr) (i_max (attempt_info r s)) <= 1000 ->
  root_of p s = r -> to_be_noticed now limit s p c a ->
  let s' := (detect_late_completions now limit s).2 in
  exists o a', chain_outcome settings r now' s' = Some o /\ attempts s' !! c = Some a'
    /\ (a_cancelled a' = true \/ co_more_than_once o = true).
Proof.
  intros Hw Htr Hn Hb Hr (Hc & Hp & Hl & (t & Ht & Hcb) & Hin) s'.
  destruct (detect_steps now limit s ex fl Hw) as [Hw' Hf]. fold s' in Hw', Hf.
  pose proof (chains_reachable_inv _ Hw') as [Hs' _ _]. cbn in Hs'.
  destruct (detect_loop_marks (late_rows now limit s) now s ex fl p t c a Hw (late_rows_ok now limit s) Hc Hp Hl)
    as (a' & Ha' & Hd').
  { destruct Hin as [?|Hin]; [by left|]. right. unfold late_rows. apply list_elem_of_omap.
    exists p. split; [done|]. rewrite Ht. cbn. by rewrite Hcb. }
  change (attempts s' !! c = Some a') in Ha'.
  destruct (fr_tasks _ _ Hf _ _ Htr) as (tr' & Htr' & Hpath & _).
  destruct (outcome_exact s' r tr' now') as (o & Ho & _ & _ & _ & Hmore); [done|done| | |].
  { unfold number_of. by rewrite (fr_info _ _ Hf). }
  { by rewrite Hpath, (fr_info _ _ Hf). }
  exists o, a'. split; [done|]. split; [done|].
  destruct (a_cancelled a') eqn:Ecan; [by left|]. right. apply Hmore. exists c, a'.
  destruct (fr_attempts _ _ Hf _ _ Hc) as (a1 & Ha1 & P1 & _). assert (a1 = a') as -> by congruence.
  split_and!; [done| |congruence|done|done].
  destruct (child_info s' c a' p Hs' Ha' ltac:(congruence)) as [_ ->].
  unfold root_of in *. by rewrite (fr_info _ _ Hf).
Qed.

(** ** A reaper pass *)

(** Rows that are running stay as they are. *)
Definition spares (id : pystr) (t : Task) (s : Tables) : Prop := tasks s !! id = Some t.

Lemma maybe_retry_spares s ex fl id cause now random x t :
  reachable (Build_World s ex fl) -> spares x t s -> spares x t (maybe_retry settings id cause now random s).2.
Proof.
  intros Hw Hx. pose proof (chains_reachable_inv _ Hw) as [Hs _ _]. cbn in Hs. unfold spares, maybe_retry in *.
  destruct (tasks s !! id) as [t0|]; [|done]. destruct (decide_retry settings id t0 cause s) as [d|]; [|done].
  destruct (importable _); [|done]. unfold commit_retry, engine_enqueue.
  case_bool_decide; [done|]. cbn. rewrite lookup_insert_ne; [done|]. intros <-. by rewrite fresh_task in Hx.
Qed.

Lemma retry_all_steps ids cause now random s ex fl x t :
  reachable (Build_World s ex fl) -> spares x t s ->
  reachable (Build_World (retry_all settings ids cause now random s).2 ex fl)
  /\ spares x t (retry_all settings ids cause now random s).2.
Proof.
  revert random s. induction ids as [|id ids IH]; intros random s Hw Hx; [done|]. cbn [retry_all].
  pose proof (maybe_retry_steps s ex fl id cause now (random O) Hw) as H1.
  pose proof (maybe_retry_spares s ex fl id cause now (random O) x t Hw Hx) as H2.
  destruct (maybe_retry settings id cause now (random O) s) as [r s1]; cbn [snd] in *.
  destruct (IH (fun k => random (S k)) s1 H1 H2) as [H3 H4].
  by destruct (retry_all settings ids cause now (fun k => random (S k)) s1) as [n s2].
Qed.

Lemma reap_loop_steps lost now random s ex fl x t :
  reachable (Build_World s ex fl) -> x ∉ (lt_id <$> lost) -> spares x t s ->
  let '((reaped, _, _), s') := reap_loop settings lost now random s in
  reachable (Build_World s' ex fl) /\ spares x t s' /\ (reaped ⊆ lost).
Proof.
  revert random s. induction lost as [|l lost IH]; intros random s Hw Hx Hs; [done|]. cbn [reap_loop].
  rewrite fmap_cons in Hx. set (id := lt_id l) in *.
  apply not_elem_of_cons in Hx as [Hne Hx].
  assert (reachable (Build_World (reap id (lt_reason l) now s).2 ex fl)) as H1 by (eapply reach; [exact Hw|apply s_reap]).
  assert (spares x t (reap id (lt_reason l) now s).2) as H2.
  { unfold spares, reap in *. destruct (tasks s !! id) as [t0|]; [|done]. case_bool_decide; [|done].
    cbn. by rewrite lookup_insert_ne. }
  destruct (reap id (lt_reason l) now s) as [updated s1]; cbn [snd] in *. destruct updated.
  - pose proof (maybe_retry_steps s1 ex fl id LOST now (random O) H1) as H3.
    pose proof (maybe_retry_spares s1 ex fl id LOST now (random O) x t H1 H2) as H4.
    destruct (maybe_retry settings id LOST now (random O) s1) as [r s2]; cbn [snd] in *.
    specialize (IH (fun k => random (S k)) s2 H3 Hx H4).
    destruct (reap_loop settings lost now (fun k => random (S k)) s2) as [[[reaped raced] retried] s3].
    destruct IH as (I1 & I2 & I3). split_and!; [done|done|]. set_solver.
  - specialize (IH random s1 H1 Hx H2).
    destruct (reap_loop settings lost now random s1) as [[[reaped raced] retried] s3].
    destruct IH as (I1 & I2 & I3). split_and!; [done|done|]. set_solver.
Qed.

Lemma not_found_lost db_now now exclude s x t :
  tasks s !! x = Some t -> lost_task settings db_now now exclude s (x, t) = None ->
  x ∉ (lt_id <$> (find_lost_tasks settings db_now now exclude s).2).
Proof.
  intros Ht Hl (l & -> & Hin)%list_elem_of_fmap. apply list_elem_of_omap in Hin as ([y ty] & Hy & Hlost).
  apply list_elem_of_filter in Hy as [_ Hy%elem_of_map_to_list]. unfold lost_task in *. cbn -[lost_reason] in *.
  destruct (_ && _) eqn:Eb in Hlost; [done|]. destruct (lost_reason _ _ _ _ _ _) as [reason|] eqn:Er in Hlost; [|done].
  injection Hlost as <-. cbn in *. assert (t = ty) as -> by congruence. rewrite Eb in Hl.
  match type of Hl with context [lost_reason ?a ?b ?c ?d ?e ?f] => destruct (lost_reason a b c d e f) eqn:Er' end;
    [done|congruence].
Qed.

Lemma reap_pass db_now now exclude random random' s ex fl x t :
  reachable (Build_World s ex fl) -> tasks s !! x = Some t -> t_status t = RUNNING ->
  lost_task settings db_now now exclude s (x, t) = None ->
  let '(r, s') := reap_lost_tasks settings db_now now false exclude random random' s in
  reachable (Build_World s' ex fl) /\ tasks s' !! x = Some t /\ x ∉ (lt_id <$> rr_reaped r).
Proof.
  intros Hw Ht Hrun Hl. pose proof (not_found_lost _ _ _ _ _ _ Ht Hl) as Hnot. unfold reap_lost_tasks.
  destruct (find_lost_tasks settings db_now now exclude s) as [running lost]. cbn [snd] in Hnot.
  pose proof (reap_loop_steps lost now random s ex fl x t Hw Hnot Ht) as H1.
  destruct (reap_loop _ _ _ _ _) as [[[reaped raced] retried] s1]. destruct H1 as (R1 & S1 & I1).
  unfold repair_missed_retries. set (ids := fst <$> take _ _). clearbody ids.
  destruct (retry_all_steps ids RAISED now random' s1 ex fl x t R1 S1) as [R2 S2].
  destruct (retry_all settings ids RAISED now random' s1) as [repaired s2]; cbn [snd] in *.
  destruct (detect_steps now REPAIR_BATCH s2 ex fl R2) as [R3 F3].
  destruct (fr_tasks _ _ F3 _ _ S2) as (t' & Ht' & _ & Hsame).
  destruct (detect_late_completions now REPAIR_BATCH s2) as [late s3]; cbn [snd] in *.
  unfold prune_heartbeats. cbn. split_and!.
  - eapply reach; [exact R3|]. apply s_workers.
  - rewrite Ht', Hsame; [done|congruence].
  - intros Hin. apply Hnot. apply list_elem_of_fmap in Hin as (l & -> & Hin). apply list_elem_of_fmap. eauto.
Qed.

(** C33: A reaper pass spares the living. Whatever else is in the tables, a running
    task is neither failed nor retried by the pass, and its row is not touched,
    when its worker's heartbeat is within the threshold and the worker has not
    exited, when the worker is the one making the pass, or when it has no
    heartbeat and the task is younger than the orphan threshold. The pass
    consists of steps of the world, so every other theorem holds after it. *)
Theorem reaper_spares_the_living db_now now exclude random random' s ex fl x t :
  reachable (Build_World s ex fl) -> tasks s !! x = Some t -> t_status t = RUNNING ->
  match heartbeats s !! worker_of t with
  | Some h => hb_stopped h = None /\ db_now - hb_last_seen h <= st_lost_after settings * US
  | None => now - st_orphan settings * US <= default (t_enqueued_at t) (t_started_at t)
  end \/ (nonempty (worker_of t) = true /\ worker_of t ∈ exclude) ->
  let '(r, s') := reap_lost_tasks settings db_now now false exclude random random' s in
  reachable (Build_World s' ex fl) /\ tasks s' !! x = Some t /\ x ∉ (lt_id <$> rr_reaped r).
Proof.
  intros Hw Ht Hrun Halive. eapply reap_pass; [done|done|done|]. unfold lost_task.
  destruct Halive as [Hhb|[Hne Hex]]; [|by rewrite Hne, (bool_decide_eq_true_2 _ Hex)].
  destruct (_ && _); [done|]. unfold lost_reason. destruct (heartbeats s !! worker_of t) as [h|].
  - destruct Hhb as [-> Hle]. by destruct (Z.ltb_spec (st_lost_after settings * US) (db_now - hb_last_seen h)); [lia|].
  - by destruct (Z.ltb_spec (default (t_enqueued_at t) (t_started_at t)) (now - st_orphan settings * US)); [lia|].
Qed.

(** A double execution does not go unnoticed. When an attempt that was declared
    lost and replaced comes back, the next sweep that looks at it settles the
    matter: its retry is cancelled before it ran, or from then on the outcome of
    the chain says that the task executed more than once. *)
Theorem double_execution_noticed now limit s ex fl r tr p c a now' :
  reachable (Build_World s ex fl) ->
  tasks s !! r = Some tr -> number_of r s = 1 ->
  budget_of settings (t_path tr) (i_max (attempt_info r s)) <= 1000 ->
  root_of p s = r -> to_be_noticed now limit s p c a ->
  let s' := (detect_late_completions now limit s).2 in
  exists o a', chain_outcome settings r now' s' = Some o /\ attempts s' !! c = Some a'
    /\ (a_cancelled a' = true \/ co_more_than_once o = true).
Proof. apply noticed_after_sweep. Qed.
End Chains.

(** ** A lost worker that was only paused *)

Module PauseDemo.
Definition settings : Settings Q :=
  {| st_max_attempts := 1; st_backoff := 5%Q; st_backoff_max := 600%Q; st_lost_after := 90; st_orphan := 86400 |}.

#[export] Instance lib : TaskLib Q := {|
  POLICIES := fun path => if str_eqb path (u "mail.send") then Some (Build_RetryPolicy (Some 3) None None catch_all true) else None;
  importable := fun _ => true;
  exception_is := fun _ _ => Some true;
  uuid := fun n => [Z.of_nat n];
  local_iso := str_of_Z;
|}.

#[export] Instance uuid_inj : Inj (=) (=) uuid.
Proof. intros n m [= E]. lia. Qed.

Definition start (id worker : pystr) (now : Z) (t : Task) : Task :=
  t <| t_status := RUNNING |> <| t_started_at := Some now |> <| t_workers := t_workers t ++ [worker] |>.
Definition succeed (now : Z) (t : Task) : Task :=
  t <| t_status := SUCCESSFUL |> <| t_finished_at := Some now |> <| t_return := None |> <| t_exception := [] |>.
Definition on_task (id : pystr) (f : Task -> Task) (s : Tables) : Tables :=
  s <| tasks := match tasks s !! id with Some t => <[id := f t]> (tasks s) | None => tasks s end |>.

Definition first : pystr := uuid 0.
Definition second : pystr := uuid 1.
Definition mail : Task := new_task (u "mail.send") (u "{}") (u "email") 0 (u "default") None 0.

(** Enqueued, claimed, given up by the reaper and retried. *)
Definition s1 : Tables := (enqueue_pinned mail None 0 empty_tables).2.
Definition s2 : Tables := on_task first (start first (u "w1") 1) s1.
Definition s3 : Tables := (reap first (u "worker w1 stopped heartbeating") (200 * US) s2).2.
Definition s4 : Tables := (maybe_retry settings first LOST (200 * US) 0%Q s3).2.
(** The retry has started when the first attempt comes back, or has not. *)
Definition s5 : Tables := on_task first (succeed (300 * US)) (on_task second (start second (u "w2") (250 * US)) s4).
Definition s5' : Tables := on_task first (succeed (240 * US)) s4.
Definition swept : Tables := (detect_late_completions (310 * US) REPAIR_BATCH s5).2.
Definition swept' : Tables := (detect_late_completions (250 * US) REPAIR_BATCH s5').2.

Lemma claim_reachable s ex fl id worker now t :
  reachable settings (Build_World s ex fl) -> tasks s !! id = Some t -> t_status t = READY ->
  reachable settings (Build_World (on_task id (start id worker now) s) ({[id]} ∪ ex) fl).
Proof. intros Hw Ht Hr. eapply reach; [exact Hw|]. unfold on_task. rewrite Ht. by apply s_claim. Qed.

Lemma finish_reachable s ex fl id now t :
  reachable settings (Build_World s ex fl) -> id ∈ ex -> tasks s !! id = Some t ->
  reachable settings (Build_World (on_task id (succeed now) s) (ex ∖ {[id]}) fl).
Proof.
  intros Hw Hid Ht. eapply reach; [exact Hw|]. unfold on_task. rewrite Ht. apply s_finish; [done|done|by left|].
  by apply (decide_by_compute ([] ∉ [WORKER_LOST_PATH; RETRY_SUPERSEDED_PATH])).
Qed.

(** The worker of [s2] has registered a minute ago. *)
Definition beating : Tables := register_worker (u "w1") (u "w1") (u "email") (u "host") 7 (10 * US) s2.

Lemma s2_reachable : reachable settings (Build_World s2 {[first]} []).
Proof.
  replace {[first]} with ({[first]} ∪ ∅ : gset pystr) by set_solver.
  eapply claim_reachable; [|by vm_compute|by vm_compute]. eapply reach; [apply r_init|apply s_enqueue].
Qed.

Lemma beating_reachable : reachable settings (Build_World beating {[first]} []).
Proof. eapply reach; [exact s2_reachable|apply s_workers]. Qed.

Lemma s4_reachable : reachable settings (Build_World s4 {[first]} []).
Proof. unfold s4. apply maybe_retry_steps. eapply reach; [exact s2_reachable|apply s_reap]. Qed.

Lemma s5_reachable : reachable settings (Build_World s5 (({[second]} ∪ {[first]}) ∖ {[first]}) []).
Proof.
  unfold s5. eapply finish_reachable; [|set_solver|by vm_compute].
  eapply claim_reachable; [exact s4_reachable|by vm_compute|by vm_compute].
Qed.

Lemma s5'_reachable : reachable settings (Build_World s5' ({[first]} ∖ {[first]}) []).
Proof. unfold s5'. eapply finish_reachable; [exact s4_reachable|set_solver|by vm_compute]. Qed.

Lemma swept'_reachable : reachable settings (Build_World swept' ({[first]} ∖ {[first]}) []).
Proof. apply detect_steps, s5'_reachable. Qed.

Definition retried : Attempt := default (Build_Attempt [] None 0 FIRST None 0 None [] false) (attempts s5 !! second).
Definition cancelled : Attempt := default (Build_Attempt [] None 0 FIRST None 0 None [] false) (attempts swept' !! second).


Definition both : list pystr := [first; second].
Definition mail_row : Task := default mail (tasks s5 !! first).
Definition started_row : Task := default mail (tasks beating !! first).
End PauseDemo.

Section Witnesses.
Import PauseDemo.

Lemma retry_budget_witness :
  unique_parents s5 /\ zlen both <= 3.
Proof.
  destruct (retry_budget settings _ first mail_row both s5_reachable) as [H1 H2].
  - by vm_compute.
  - by_compute.
  - intros id [->| ->%list_elem_of_singleton]%elem_of_cons; (split; [by eexists; vm_compute|by vm_compute]).
  - split; [exact H1|]. by vm_compute.
Defined.

Lemma cancelled_is_final_witness :
  retry_of second swept' = None /\ a_cancelled cancelled = true.
Proof.
  destruct (cancelled_is_final settings _ second cancelled swept'_reachable) as (_ & _ & H & _);
    [by vm_compute|by vm_compute|]. split; [exact H|by vm_compute].
Defined.

Lemma outcome_is_last_witness :
  exists o, chain_outcome settings first (320 * US) s5 = Some o /\ co_attempt o = number_of (co_id o) s5.
Proof.
  destruct (outcome_is_last settings _ first mail_row (320 * US) s5_reachable) as (o & Ho & _ & Hn & _);
    [by vm_compute|by vm_compute|by vm_compute|]. by exists o.
Defined.

Lemma double_execution_noticed_witness :
  exists o a', chain_outcome settings first (320 * US) swept = Some o /\ attempts swept !! second = Some a'
    /\ (a_cancelled a' = true \/ co_more_than_once o = true).
Proof.
  eapply (double_execution_noticed settings (310 * US) REPAIR_BATCH s5 _ _ first mail_row first second retried (320 * US) s5_reachable);
    [by vm_compute|by vm_compute|by vm_compute|by vm_compute|].
  split_and!; [by vm_compute|by vm_compute|by vm_compute|exists mail_row; split; by vm_compute|right; by_compute].
Defined.

Lemma reaper_spares_the_living_witness :
  let '(r, s') := reap_lost_tasks settings (60 * US) (60 * US) false [u "w9"] (fun _ => 0%Q) (fun _ => 0%Q) beating in
  rr_reaped r = [] /\ tasks s' !! first = tasks s2 !! first.
Proof.
  pose proof (reaper_spares_the_living settings (60 * US) (60 * US) [u "w9"] (fun _ => 0%Q) (fun _ => 0%Q) beating _ []
    first started_row beating_reachable ltac:(by vm_compute) ltac:(by vm_compute)
    ltac:(left; split; by vm_compute)) as H.
  destruct (reap_lost_tasks _ _ _ _ _ _ _ _) as [r s'] eqn:E. destruct H as (_ & H & _). split; [|rewrite H; by vm_compute].
  apply (f_equal (fun x => rr_reaped x.1)) in E. cbn in E. rewrite <- E. by vm_compute.
Defined.
End Witnesses.
