(* ===== verification/SchedulerTasks.v ===== *)
(** * The scheduler on the task subsystem

    services.py reaches the task tables through [_enqueue], [pin_max_attempts]
    and [chain_outcome]. Here that interface is implemented by the model of
    apps/tasks, and the guarantees of retries are carried over to the runs of
    scheduled jobs. *)
From Stdlib Require Import QArith.
From S2P Require Import Prelude PyFloat PyStr Schedules Scheduler SchedulerSync Retries RetriesFacts.
Open Scope Z_scope.

#[local] Opaque u WORKER_LOST_PATH RETRY_SUPERSEDED_PATH.

(** What resolving a task path raises or what its enqueue refuses (an unknown
    queue), and the options a task object carries, are the tasks' own. *)
Class TaskObjects := {
  refuses : pystr -> pystr -> option EnqueueErr;
  task_priority : pystr -> Z;
  task_backend : pystr -> pystr;
}.

Section Engine.
Context {F : Type} `{Num F} `{TaskLib F} `{!Inj (=) (=) uuid} `{TaskObjects}.
Context (settings : Settings F).

(** [_resolve_task], [_enqueue] and [pin_max_attempts] *)
Definition enqueue_on_tables (now : Z) (path args queue : pystr) (pin : option Z) (s : Tables)
    : result EnqueueErr (pystr * Tables) :=
  match refuses path queue with
  | Some e => Err e
  | None => Ok (enqueue_pinned (new_task path args queue (task_priority path) (task_backend path) None now) pin now s)
  end.

(** [_engine_result]; nothing for a run without an identifier. *)
Definition engine_result (now : Z) (id : pystr) (s : Tables) : option EngineResult :=
  if negb (nonempty id) then None
  else
    o ← chain_outcome settings id now s;
    Some {| er_status := co_status o; er_return := t_return (co_row o); er_traceback := t_traceback (co_row o);
            er_attempt := co_attempt o; er_note := double_execution_note o |}.

#[global] Instance task_tables : TaskEngine Tables :=
  {| enqueue_task := enqueue_on_tables; chain_result := engine_result |}.

(** ** What later steps keep of a chain *)

Definition keeps (s s' : Tables) : Prop :=
  forall id t, tasks s !! id = Some t ->
    attempt_info id s' = attempt_info id s /\ exists t', tasks s' !! id = Some t' /\ t_path t' = t_path t.

#[local] Instance keeps_refl : Reflexive keeps.
Proof. intros s id t Ht. split; [done|by exists t]. Qed.
#[local] Instance keeps_trans : Transitive keeps.
Proof.
  intros s1 s2 s3 H12 H23 id t Ht. destruct (H12 id t Ht) as (E1 & t2 & Ht2 & P1).
  destruct (H23 id t2 Ht2) as (E2 & t3 & Ht3 & P2). split; [congruence|]. exists t3. split; [done|congruence].
Qed.

Lemma keeps_update s id t t' :
  tasks s !! id = Some t -> t_path t' = t_path t -> keeps s (s <| tasks := <[id := t']> (tasks s) |>).
Proof.
  intros Ht Hp x y Hx. split; [done|]. cbn. destruct (decide (x = id)) as [->|Hne].
  - rewrite lookup_insert_eq. exists t'. split; [done|congruence].
  - rewrite lookup_insert_ne by done. by exists y.
Qed.

Lemma keeps_extend s t oa : sound settings s -> keeps s (extend s t oa).
Proof.
  intros Hs x y Hx. split; [by apply (extend_info settings s t oa x y)|].
  exists y. split; [by apply (extend_task settings)|done].
Qed.

Lemma keeps_stamp s c a a' :
  attempts s !! c = Some a -> a_root a' = a_root a -> a_attempt a' = a_attempt a -> a_max a' = a_max a ->
  keeps s (s <| attempts := <[c := a']> (attempts s) |>).
Proof.
  intros Hc E1 E2 E3 x y Hx. split; [|by exists y]. unfold attempt_info. cbn.
  destruct (decide (x = c)) as [->|Hne]; [|by rewrite lookup_insert_ne].
  rewrite lookup_insert_eq, Hc. by rewrite E1, E2, E3.
Qed.

Lemma keeps_reap id reason now s : keeps s (reap id reason now s).2.
Proof.
  unfold reap. destruct (tasks s !! id) as [t|] eqn:Ht; [|done]. case_bool_decide; [|done].
  by eapply keeps_update.
Qed.

Lemma keeps_cancel p st c now s : keeps s (cancel_retry p st c now s).2.
Proof.
  unfold cancel_retry. destruct (tasks s !! c) as [t|] eqn:Ht; [|done]. case_bool_decide; [|done].
  by eapply keeps_update.
Qed.

Lemma keeps_note p s : keeps s (note_cancelled p s).
Proof.
  unfold note_cancelled. destruct (child_of p s) as [[c a]|] eqn:Ec; [|done].
  apply child_of_spec in Ec as [Hc _]. by eapply keeps_stamp.
Qed.

Lemma keeps_step w w' : inv settings w -> step settings w w' -> keeps (tables w) (tables w').
Proof.
  intros Hi Hs. pose proof (inv_sound _ _ Hi) as Hsound.
  destruct Hs as [s ex fl path args queue prio backend after now pin|s ex fl id t worker now Ht Hr
    |s ex fl id t st exc ret now Hid Ht Hst Hexc|s ex fl id|s ex fl id reason now|s ex fl id t cause d Ht Hd Himp
    |s ex fl fl' id t d now random Hp|s ex fl p t c st completed_at s' Ht Hterm Hm|s ex fl fl' p st c now s' Hp Hc
    |s ex fl fl' p c Hp|s ex fl fl' f Hp|s ex fl hbs]; cbn [tables] in *; try reflexivity.
  - destruct (enqueue_pinned_extend settings (new_task path args queue prio backend after now) pin now s Hsound)
      as (oa & -> & _). by apply keeps_extend.
  - by eapply keeps_update.
  - by eapply keeps_update.
  - apply keeps_reap.
  - destruct (inv_flights_perm _ _ _ _ _ _ Hi Hp) as [Hok _].
    destruct (commit_retry_extend settings id t d now random s Hsound Hok) as [->|(t' & oa & -> & _)]; [done|].
    by apply keeps_extend.
  - destruct (mark_late_spec _ _ _ _ _ _ Hm) as (a & a' & Hc & _ & _ & -> & ->). by eapply keeps_stamp.
  - pose proof (keeps_cancel p st c now s) as Hk. by rewrite Hc in Hk.
  - apply keeps_note.
  - intros id t Ht. split; [done|by exists t].
Qed.

Lemma keeps_steps w w' :
  reachable settings w -> rtc (step settings) w w' -> reachable settings w' /\ keeps (tables w) (tables w').
Proof.
  intros Hw. induction 1 as [w|w1 w2 w3 H12 _ IH]; [done|].
  destruct IH as [Hr Hk]; [by eapply r_step|]. split; [done|]. etrans; [|exact Hk].
  apply keeps_step; [|done]. by apply chains_reachable_inv.
Qed.

(** ** Firing a job *)

Lemma fire_on_tables job for_ now (d d' : Db Tables) id :
  run (enqueue_and_record job for_ now) d = (Ok id, d') ->
  let pin := if max_retries job =? 0 then None else Some (max_retries job + 1) in
  (exists r, r ∈ runs d' /\ run_job r = job_pk job /\ run_status r = QUEUED /\ task_result_id r = id)
  /\ exists t, enqueue_pinned t pin (clock d) (engine d) = (id, engine d')
     /\ t = new_task (task_path job) (job_kwargs job) (queue_name job) (task_priority (task_path job))
              (task_backend (task_path job)) None (clock d).
Proof.
  intros Hrun pin. cbn [enqueue_and_record run exec] in Hrun. unfold enqueue in Hrun. fold pin in Hrun.
  cbn [enqueue_task task_tables] in Hrun. unfold enqueue_on_tables in Hrun.
  destruct (refuses _ _) as [e|]; [by inversion Hrun|].
  destruct (enqueue_pinned _ _ _ _) as [id0 s0] eqn:Ee. cbn [run exec] in Hrun. injection Hrun as <- <-.
  split; [|by eexists].
  eexists. split; [cbn; apply elem_of_app; right; by apply list_elem_of_singleton|]. by split_and!.
Qed.

Lemma enqueue_pinned_row t pin now s id s' :
  sound settings s -> enqueue_pinned t pin now s = (id, s') ->
  tasks s' !! id = Some t /\ i_max (attempt_info id s') = pin /\ i_root (attempt_info id s') = id.
Proof.
  intros Hs He. unfold enqueue_pinned, engine_enqueue in He. destruct pin as [n|]; injection He as <- <-; cbn.
  - rewrite lookup_insert_eq. split; [done|]. unfold attempt_info. cbn.
    rewrite lookup_insert_eq, (fresh_attempt settings s Hs). done.
  - rewrite lookup_insert_eq. unfold attempt_info. cbn. by rewrite (fresh_attempt settings s Hs).
Qed.

(** A job's [max_retries] bounds the work of each of its runs, end to end: once
    a fire has enqueued its task and pinned the budget in the same transaction,
    then, whatever workers, reapers, the signal and the sweeps do afterwards,
    the attempts ever made for that run are at most [max_retries + 1]. *)
Theorem run_attempts_bounded job for_ now (d d' : Db Tables) id ex fl w ids :
  reachable settings (Build_World (engine d) ex fl) ->
  run (enqueue_and_record job for_ now) d = (Ok id, d') -> 0 < max_retries job ->
  rtc (step settings) (Build_World (engine d') ex fl) w ->
  NoDup ids -> (forall x, x ∈ ids -> is_Some (tasks (tables w) !! x) /\ root_of x (tables w) = id) ->
  (exists r, r ∈ runs d' /\ run_job r = job_pk job /\ run_status r = QUEUED /\ task_result_id r = id)
  /\ zlen ids <= max_retries job + 1.
Proof.
  intros Hw Hrun Hmax Hsteps Hnd Hids. apply fire_on_tables in Hrun as [Hrec (t & He & Ht)]. split; [done|].
  destruct (Z.eqb_spec (max_retries job) 0) as [E|_]; [lia|].
  assert (reachable settings (Build_World (engine d') ex fl)) as Hw'.
  { eapply r_step; [exact Hw|]. subst t. pose proof (s_enqueue settings (engine d) ex fl (task_path job) (job_kwargs job)
      (queue_name job) (task_priority (task_path job)) (task_backend (task_path job)) None (clock d)
      (Some (max_retries job + 1))) as Hst. by rewrite He in Hst. }
  pose proof (inv_sound _ _ (chains_reachable_inv settings _ Hw)) as Hs. cbn [tables] in Hs.
  destruct (enqueue_pinned_row _ _ _ _ _ _ Hs He) as (Hrow & Hpin & _).
  destruct (keeps_steps _ _ Hw' Hsteps) as [Hrw Hk]. destruct (Hk id t Hrow) as (Einfo & t' & Ht' & _).
  cbn [tables] in Einfo. pose proof (inv_sound _ _ (chains_reachable_inv settings _ Hrw)) as Hsw.
  pose proof (chain_size settings _ id t' ids Hsw Ht' Hnd Hids) as Hb.
  rewrite Einfo, Hpin in Hb. cbn [budget_of] in Hb. lia.
Qed.

(** ** Reporting a run *)

(** The message never outgrows its column, and the note survives at its end. *)
Lemma note_survives message note :
  note <> [] -> (length (with_double_execution_note message note) <= MESSAGE_MAX)%nat
    /\ exists summary, with_double_execution_note message note = summary ++ take MESSAGE_MAX note.
Proof.
  intros Hn. assert (nonempty note = true) as Hne by (by destruct note).
  unfold with_double_execution_note. rewrite Hne. cbn [negb].
  assert (Z.of_nat MESSAGE_MAX = 255) as HM by by vm_compute. assert (zlen NOTE_JOIN = 3) as HJ by by vm_compute.
  pose proof (length_take note MESSAGE_MAX) as Hl. set (n := take MESSAGE_MAX note) in *. clearbody n.
  destruct (_ || _) eqn:Eb; [split; [lia|by exists []]|].
  apply orb_false_iff in Eb as [Hroom%Z.leb_gt _]. split.
  - rewrite !length_app, length_take. unfold zlen in *. lia.
  - eexists. by rewrite app_assoc.
Qed.

Definition MORE_THAN_ONCE : pystr := u "ran more than once: ".

Lemma note_of_doubled o :
  co_resurrected o = false -> co_more_than_once o = true ->
  exists rest, double_execution_note o = MORE_THAN_ONCE ++ rest.
Proof. intros E1 E2. unfold double_execution_note. rewrite E1, E2. cbn [negb]. by eexists. Qed.

Lemma message_reports new e rest :
  er_note e = MORE_THAN_ONCE ++ rest ->
  (length (outcome_message new e) <= MESSAGE_MAX)%nat
  /\ exists summary rest', outcome_message new e = summary ++ MORE_THAN_ONCE ++ rest'.
Proof.
  intros Hn. unfold outcome_message. cbv zeta. set (text := match new with SUCCESS => _ | _ => _ end). clearbody text.
  destruct (note_survives text (er_note e)) as [Hl [summary Hsum]].
  { rewrite Hn. intros [E _]%app_eq_nil. by apply (f_equal (@length _)) in E; vm_compute in E. }
  split; [done|]. exists summary, (take (MESSAGE_MAX - length MORE_THAN_ONCE) rest). rewrite Hsum, Hn, take_app, take_ge; [done|].
  apply Nat2Z.inj_le. by vm_compute.
Qed.

(** A run that executed more than once says so. When an attempt of a scheduled
    run came back after it had been replaced by a retry that started, and the
    chain has ended, reconciliation closes the run with a message that still
    carries the note, whatever the task returned or raised: the summary is what
    gives way to the 255 characters of the column. *)
Theorem double_execution_reported notify_failure r tr x a new o (d : Db Tables) ex fl :
  reachable settings (Build_World (engine d) ex fl) ->
  tasks (engine d) !! task_result_id r = Some tr -> number_of (task_result_id r) (engine d) = 1 ->
  budget_of settings (t_path tr) (i_max (attempt_info (task_result_id r) (engine d))) <= 1000 ->
  task_result_id r <> [] -> doubled (engine d) (task_result_id r) x a ->
  chain_outcome settings (task_result_id r) (clock d) (engine d) = Some o -> terminal (co_status o) = Some new ->
  let '(d', closed) := reconcile_run notify_failure r d in
  closed = true /\ forall r', r' ∈ runs d' -> run_pk r' = run_pk r ->
    run_status r' = new /\ (length (message r') <= MESSAGE_MAX)%nat
    /\ exists summary rest, message r' = summary ++ MORE_THAN_ONCE ++ rest.
Proof.
  intros Hw Htr Hn Hb Hid Hdoubled Ho Hterm.
  pose proof (inv_sound _ _ (chains_reachable_inv settings _ Hw)) as Hs. cbn [tables] in Hs.
  destruct (outcome_exact settings _ _ tr (clock d) Hs Htr Hn Hb) as (o' & Ho' & _ & _ & _ & Hmore).
  assert (o' = o) as -> by congruence.
  destruct (note_of_doubled o) as [rest Hnote]; [|by apply Hmore; exists x, a|].
  { apply outcome_fields in Ho as (_ & _ & -> & _). by apply (walk_not_resurrected settings). }
  unfold reconcile_run. cbn [chain_result task_tables]. unfold engine_result.
  assert (nonempty (task_result_id r) = true) as -> by (by destruct (task_result_id r)).
  rewrite Ho. cbn [negb mbind option_bind er_status]. rewrite Hterm. set (e := Build_EngineResult _ _ _ _ _).
  destruct (message_reports new e rest) as [Hlen Hmsg]; [by rewrite <- Hnote|]. clearbody e.
  split; [done|]. intros r' Hr' Hpk. cbn in Hr'. apply list_elem_of_fmap in Hr' as (y & -> & Hy).
  destruct (Z.eqb_spec (run_pk y) (run_pk r)) as [_|Hne]; [|done]. by split_and!.
Qed.
End Engine.

(** ** A scheduled run whose first attempt came back *)

Module RunDemo.
Import PauseDemo.

#[export] Instance objects : TaskObjects :=
  {| refuses := fun _ _ => None; task_priority := fun _ => 0; task_backend := fun _ => u "default" |}.
#[export] Instance engine_of_tables : TaskEngine Tables := task_tables settings.

Definition job : Job :=
  {| job_pk := 7; job_name := u "Digest"; task_path := u "mail.send"; job_kwargs := u "{}"; queue_name := u "email";
     cadence := Build_Schedule [] [] None [] None []; enabled := true; allow_overlap := false; catch_up := RUN_ONCE;
     max_retries := 2; source := UI; schedule_overridden := false; auto_retired := false; next_run_at := Some 0;
     last_enqueued_at := None; last_status := NoStatus; total_runs := 0 |}.

Definition before : Db Tables := {| jobs := [job]; runs := []; engine := empty_tables; clock := 0 |}.
Definition fired : Db Tables := (run (enqueue_and_record job 0 0) before).2.

(** The retry of [swept] has succeeded too. *)
Definition ended : Tables := on_task second (succeed (330 * US)) swept.
Definition queued_run : Run :=
  {| run_pk := 1; run_job := 7; run_status := QUEUED; scheduled_for := 0; created_at := 0; task_result_id := first;
     message := [] |}.
Definition later : Db Tables := {| jobs := [job]; runs := [queued_run]; engine := ended; clock := 340 * US |}.

Lemma ended_reachable :
  reachable settings (Build_World ended ((({[second]} ∪ {[first]}) ∖ {[first]}) ∖ {[second]}) []).
Proof.
  unfold ended. eapply finish_reachable; [apply detect_steps, s5_reachable|set_solver|by vm_compute].
Qed.
Definition outcome : ChainOutcome :=
  default (Build_ChainOutcome [] [] mail 0 false None [] false) (chain_outcome settings first (340 * US) ended).

Definition superseding : Attempt := default (Build_Attempt [] None 0 FIRST None 0 None [] false) (attempts ended !! second).
Definition mail_ended : Task := default mail (tasks ended !! first).
End RunDemo.

Section Witnesses.
Import PauseDemo RunDemo.

Lemma run_attempts_bounded_witness : zlen [first] <= 3.
Proof.
  eapply (run_attempts_bounded settings job 0 0 before fired first ∅ []
            (Build_World (engine fired) ∅ []) [first]).
  - apply r_init.
  - by vm_compute.
  - done.
  - apply rtc_refl.
  - by_compute.
  - intros x ->%list_elem_of_singleton. split; [by eexists; vm_compute|by vm_compute].
Defined.

Lemma double_execution_reported_witness :
  let '(d', closed) := reconcile_run (fun _ e => e) queued_run later in
  closed = true /\ (length <$> (message <$> runs d')) = [93%nat].
Proof.
  pose proof (double_execution_reported settings (fun _ e => e) queued_run mail_ended second superseding SUCCESS outcome later
    _ [] ended_reachable ltac:(by vm_compute) ltac:(by vm_compute) ltac:(by vm_compute) ltac:(by_compute)
    ltac:(unfold doubled; split_and!; [by vm_compute|by vm_compute|by_compute|by_compute|by vm_compute])
    ltac:(by vm_compute) ltac:(by vm_compute)) as Hr.
  destruct (reconcile_run _ _ _) as [d' closed] eqn:Er. destruct Hr as [Hc _]. split; [exact Hc|].
  apply (f_equal fst) in Er. cbn [fst] in Er. rewrite <- Er. by vm_compute.
Defined.
End Witnesses.
