(* ===== verification/Approvals.v ===== *)
(** * apps/approvals: requests, permissions, kinds and decisions

    models.py, permissions.py, registry.py and services.py. Every transition of
    a request is one conditional UPDATE ([claim]) followed by [finish]; the
    operations are cut there, so that ApprovalsFacts can interleave them. *)
From stdpp Require Import sorting.
From S2P Require Import Prelude PyFloat PyStr Schedules.
Open Scope Z_scope.

(** ** models.py *)

Inductive Status := PENDING | APPROVED | REJECTED | CANCELED | EXPIRED.

#[global] Instance status_eq_dec : EqDecision Status.
Proof. solve_decision. Defined.

(** [get_status_display().lower()] *)
Definition status_word (s : Status) : pystr :=
  match s with
  | PENDING => u "pending" | APPROVED => u "approved" | REJECTED => u "rejected"
  | CANCELED => u "canceled" | EXPIRED => u "expired"
  end.

(** [ApprovalRequest], but for its key. The target is its model, its key as
    text and its name. *)
Record ApprovalRequest := {
  rq_kind : pystr;
  rq_title : pystr;
  rq_description : pystr;
  rq_context : pystr;
  rq_target : option (pystr * pystr);
  rq_target_repr : pystr;
  rq_requested_by : option Z;
  rq_assignees : list Z;
  rq_status : Status;
  rq_decided_by : option Z;
  rq_decided_at : option Z;
  rq_note : pystr;
  rq_expires_at : option Z;
  rq_callback_error : pystr;
  rq_created_at : Z;
  rq_updated_at : Z;
}.

#[global] Instance eta_request : Eta ApprovalRequest := fun r =>
  Build_ApprovalRequest (rq_kind r) (rq_title r) (rq_description r) (rq_context r) (rq_target r) (rq_target_repr r)
    (rq_requested_by r) (rq_assignees r) (rq_status r) (rq_decided_by r) (rq_decided_at r) (rq_note r)
    (rq_expires_at r) (rq_callback_error r) (rq_created_at r) (rq_updated_at r).

Definition is_pending (r : ApprovalRequest) : bool := bool_decide (rq_status r = PENDING).

Definition past (now : Z) (r : ApprovalRequest) : bool :=
  match rq_expires_at r with Some t => t <=? now | None => false end.

Definition is_overdue (now : Z) (r : ApprovalRequest) : bool := is_pending r && past now r.

Definition effective_status (now : Z) (r : ApprovalRequest) : Status :=
  if is_overdue now r then EXPIRED else rq_status r.

(** The queryset's [pending], [overdue], [actionable] and [for_effective_status]. *)
Definition pending (l : list (Z * ApprovalRequest)) : list (Z * ApprovalRequest) :=
  filter (fun x => rq_status x.2 = PENDING) l.
Definition overdue (now : Z) (l : list (Z * ApprovalRequest)) : list (Z * ApprovalRequest) :=
  filter (fun x => past now x.2 = true) (pending l).
Definition actionable (now : Z) (l : list (Z * ApprovalRequest)) : list (Z * ApprovalRequest) :=
  filter (fun x => past now x.2 = false) (pending l).
Definition for_effective_status (value : Status) (now : Z) (l : list (Z * ApprovalRequest)) : list (Z * ApprovalRequest) :=
  match value with
  | PENDING => actionable now l
  | EXPIRED => filter (fun x => rq_status x.2 = EXPIRED \/ x.1 ∈ (overdue now l).*1) l
  | v => filter (fun x => rq_status x.2 = v) l
  end.

(** The deletion of an account: [SET_NULL] on the requester and on who decided,
    and the rows of the relation of assignees go. *)
Definition forget_account (user : Z) (r : ApprovalRequest) : ApprovalRequest :=
  let forget x := if bool_decide (x = Some user) then None else x in
  r <| rq_requested_by := forget (rq_requested_by r) |> <| rq_decided_by := forget (rq_decided_by r) |>
    <| rq_assignees := List.filter (fun x => negb (x =? user)) (rq_assignees r) |>.

(** Whoever acts: the anonymous user and [None] have no key. *)
Record Actor := { ac_pk : option Z; ac_active : bool; ac_staff : bool }.
Definition nobody : Actor := {| ac_pk := None; ac_active := false; ac_staff := false |}.

(** ** registry.py *)

(** A decision callback gets the request object and may raise: what it leaves
    of the object, and the traceback of what it raised. *)
Definition Callback : Type := ApprovalRequest -> ApprovalRequest * option pystr.

Inductive Hook := Callable (f : Callback) | Dotted (path : pystr).

(** The part of [ApprovalKind] that decides: [can_decide] may raise. *)
Record ApprovalKind := {
  k_key : pystr;
  k_on_decision : option Hook;
  k_can_decide : option (Actor -> ApprovalRequest -> option bool);
  k_default_expires_in : option Z;
}.

Definition get_kind (key : pystr) (registry : list ApprovalKind) : option ApprovalKind :=
  List.find (fun k => str_eqb (k_key k) key) registry.

(** [register_kind]: the first registration of a key stays. *)
Definition register_kind (k : ApprovalKind) (registry : list ApprovalKind) : list ApprovalKind :=
  match get_kind (k_key k) registry with
  | Some _ => registry
  | None => registry ++ [k]
  end.

(** [resolve_on_decision]; [import_callable] imports a dotted path. *)
Definition resolve_on_decision (import_callable : pystr -> option Callback) (k : option ApprovalKind) : option Callback :=
  k ← k; h ← k_on_decision k;
  match h with
  | Callable f => Some f
  | Dotted path => import_callable path
  end.

Record ApprovalSettings := {
  st_enabled : bool;
  st_max_pending : Z;
  st_default_minutes : Z;
  st_allow_self : bool;
  st_staff_override : bool;
  st_lazy_limit : Z;
  st_system_user : bool;
}.

Section Approvals.
Context (settings : ApprovalSettings) (registry : list ApprovalKind) (import_callable : pystr -> option Callback).

(** ** permissions.py *)

Definition actor_pk (a : Actor) : option Z := if ac_active a then ac_pk a else None.
Definition is_staff (a : Actor) : bool := ac_staff a && ac_active a.
Definition requested_by (pk : Z) (r : ApprovalRequest) : bool := bool_decide (rq_requested_by r = Some pk).

Definition can_view (a : Actor) (r : ApprovalRequest) : bool :=
  match actor_pk a with
  | None => false
  | Some pk => is_staff a || requested_by pk r || bool_decide (pk ∈ rq_assignees r)
  end.

(** [viewable_requests] *)
Definition viewable_requests (a : Actor) (l : list (Z * ApprovalRequest)) : list (Z * ApprovalRequest) :=
  match actor_pk a with
  | None => []
  | Some pk =>
      if is_staff a then l
      else filter (fun x => rq_requested_by x.2 = Some pk \/ pk ∈ rq_assignees x.2) l
  end.

(** The hook of a kind; one that raises refuses. *)
Definition kind_allows (a : Actor) (r : ApprovalRequest) : bool :=
  match get_kind (rq_kind r) registry with
  | Some k => match k_can_decide k with Some f => default false (f a r) | None => true end
  | None => true
  end.

(** [can_decide]: [assignees] is what the queries on the relation answer. *)
Definition can_decide (a : Actor) (r : ApprovalRequest) (assignees : list Z) : bool :=
  match actor_pk a with
  | None => false
  | Some pk =>
      if negb (is_pending r) then false
      else if requested_by pk r && negb (st_allow_self settings) then false
      else
        let eligible :=
          match assignees with
          | [] => is_staff a
          | _ => bool_decide (pk ∈ assignees) || (is_staff a && st_staff_override settings)
          end in
        if negb eligible then false else kind_allows a r
  end.

Definition can_cancel (a : Actor) (r : ApprovalRequest) : bool :=
  match actor_pk a with
  | None => false
  | Some pk => is_pending r && (requested_by pk r || is_staff a)
  end.

(** ** services.py *)

Inductive ApprovalError :=
| NotEligible (text : pystr)
| NotPending (text : pystr)
| UnknownKind (kind : pystr)
| TooManyPending (outstanding cap : Z)
| ApprovalsDisabled
| ExpiryOverflow.

(** The audit log, where [None] is the reserved system account, and the signals
    sent when the transaction commits. *)
Inductive AuditFlag := ADDITION | CHANGE.
Record AuditEntry := { au_user : option Z; au_request : Z; au_flag : AuditFlag; au_source : pystr }.
Inductive Signal := Requested (pk : Z) | Decided (pk : Z) (source : pystr).

Record Store := {
  requests : gmap Z ApprovalRequest;
  next_pk : Z;
  audit : list AuditEntry;
  signals : list Signal;
}.

#[global] Instance eta_store : Eta Store := fun s => Build_Store (requests s) (next_pk s) (audit s) (signals s).

(** The requests after an account is deleted; its audit entries go with it. *)
Definition account_deleted (user : Z) (s : Store) : Store :=
  s <| requests := forget_account user <$> requests s |>
    <| audit := List.filter (fun e => negb (bool_decide (au_user e = Some user))) (audit s) |>.

(** The order of the table itself is not used: every query orders or counts. *)
Definition rows (s : Store) : list (Z * ApprovalRequest) := map_to_list (requests s).

Definition update_row (pk : Z) (f : ApprovalRequest -> ApprovalRequest) (s : Store) : Store :=
  s <| requests := alter f pk (requests s) |>.

Definition log_write (a : Actor) (pk : Z) (flag : AuditFlag) (source : pystr) (s : Store) : Store :=
  match ac_pk a with
  | Some user => s <| audit := audit s ++ [{| au_user := Some user; au_request := pk; au_flag := flag; au_source := source |}] |>
  | None => s
  end.
Definition log_system_write (pk : Z) (flag : AuditFlag) (source : pystr) (s : Store) : Store :=
  if st_system_user settings
  then s <| audit := audit s ++ [{| au_user := None; au_request := pk; au_flag := flag; au_source := source |}] |>
  else s.

(** [_check_pending_cap] *)
Definition check_pending_cap (kind : pystr) (a : Actor) (now : Z) (s : Store) : option ApprovalError :=
  match ac_pk a with
  | None => None
  | Some pk =>
      if st_max_pending settings <=? 0 then None
      else
        let outstanding := zlen (filter (fun x => rq_requested_by x.2 = Some pk /\ rq_kind x.2 = kind)
                                   (actionable now (rows s))) in
        if st_max_pending settings <=? outstanding
        then Some (TooManyPending outstanding (st_max_pending settings)) else None
  end.

(** When a request expires: the date given, else a duration from now. *)
Definition expiry (kind : pystr) (expires_at expires_in : option Z) (now : Z) : result ApprovalError (option Z) :=
  match expires_at with
  | Some t => Ok (Some t)
  | None =>
      let by_kind := k ← get_kind kind registry; k_default_expires_in k in
      let by_default := if 0 <? st_default_minutes settings then Some (st_default_minutes settings * 60 * SECOND) else None in
      let duration := match expires_in with
                      | Some d => Some d
                      | None => match by_kind with Some d => Some d | None => by_default end
                      end in
      match duration with
      | None => Ok None
      | Some d => match dt_add now d with Ok t => Ok (Some t) | Err _ => Err ExpiryOverflow end
      end
  end.

(** The row [request_approval] inserts; its assignees come in a statement of
    their own, [set_assignees]. *)
Definition new_request (kind title description context : pystr) (target : option (pystr * pystr * pystr)) (a : Actor)
    (expires_at : option Z) (now : Z) : ApprovalRequest :=
  {| rq_kind := kind; rq_title := take 200 title; rq_description := description; rq_context := context;
     rq_target := fst <$> target; rq_target_repr := match target with Some (_, repr) => take 200 repr | None => [] end;
     rq_requested_by := ac_pk a; rq_assignees := []; rq_status := PENDING; rq_decided_by := None;
     rq_decided_at := None; rq_note := []; rq_expires_at := expires_at; rq_callback_error := [];
     rq_created_at := now; rq_updated_at := now |}.

Definition insert_request (r : ApprovalRequest) (s : Store) : Z * Store :=
  (next_pk s, s <| requests := <[next_pk s := r]> (requests s) |> <| next_pk := next_pk s + 1 |>).

(** [assignees.set(...)]: the saved users among them. *)
Definition set_assignees (pk : Z) (users : list (option Z)) (s : Store) : Store :=
  match users with
  | [] => s
  | _ => update_row pk (fun r => r <| rq_assignees := omap id users |>) s
  end.

Definition known (kind : pystr) : bool := match get_kind kind registry with Some _ => true | None => false end.

(** [request_approval] *)
Definition request_approval (kind title description context : pystr) (target : option (pystr * pystr * pystr))
    (a : Actor) (assignees : list (option Z)) (expires_at expires_in : option Z) (require_known : bool)
    (source : pystr) (now : Z) (s : Store) : result ApprovalError Z * Store :=
  if negb (st_enabled settings) then (Err ApprovalsDisabled, s)
  else
    match check_pending_cap kind a now s with
    | Some e => (Err e, s)
    | None =>
        if require_known && negb (known kind) then (Err (UnknownKind kind), s)
        else
          match expiry kind expires_at expires_in now with
          | Err e => (Err e, s)
          | Ok at_ =>
              let '(pk, s1) := insert_request (new_request kind title description context target a at_ now) s in
              let s2 := log_write a pk ADDITION source (set_assignees pk assignees s1) in
              (Ok pk, s2 <| signals := signals s2 ++ [Requested pk] |>)
          end
    end.

(** A transition: its status, its time, and who made it with which note. *)
Record Transition := { tr_status : Status; tr_at : Z; tr_by : option (option Z * pystr) }.

Definition transition (t : Transition) (r : ApprovalRequest) : ApprovalRequest :=
  let r := r <| rq_status := tr_status t |> <| rq_decided_at := Some (tr_at t) |> in
  match tr_by t with
  | Some (by_, note) => r <| rq_decided_by := by_ |> <| rq_note := note |>
  | None => r
  end.

(** [_claim]: the conditional UPDATE, and whether it won. *)
Definition claim (pk : Z) (t : Transition) (s : Store) : bool * Store :=
  match requests s !! pk with
  | Some r => if is_pending r then (true, update_row pk (transition t) s) else (false, s)
  | None => (false, s)
  end.

Definition already (pk : Z) (s : Store) : ApprovalError :=
  NotPending (match requests s !! pk with
              | Some r => u "This request is already " ++ status_word (rq_status r) ++ u "."
              | None => []
              end).

(** [_run_callback] on the object [r]: the object afterwards. A callback that
    raised leaves the object as the row is, with the end of its traceback. *)
Definition TRACEBACK_MAX : nat := 2000.
Definition take_last (n : nat) (x : pystr) : pystr := drop (length x - n) x.

Definition run_callback (pk : Z) (r : ApprovalRequest) (s : Store) : ApprovalRequest * Store :=
  match resolve_on_decision import_callable (get_kind (rq_kind r) registry) with
  | None => (r, s)
  | Some f =>
      match f r with
      | (r', None) => (r', s)
      | (r', Some traceback) =>
          let s' := update_row pk (fun x => x <| rq_callback_error := take_last TRACEBACK_MAX traceback |>) s in
          (default r' (requests s' !! pk), s')
      end
  end.

(** The fields [_finish] saves again, from the object. *)
Definition resave (r : ApprovalRequest) (now : Z) (x : ApprovalRequest) : ApprovalRequest :=
  x <| rq_status := rq_status r |> <| rq_decided_by := rq_decided_by r |> <| rq_decided_at := rq_decided_at r |>
    <| rq_note := rq_note r |> <| rq_callback_error := rq_callback_error r |> <| rq_updated_at := now |>.

Definition after_callback (pk : Z) (r : ApprovalRequest) (a : Actor) (source : pystr) (now : Z) (s : Store) : Store :=
  let s1 := update_row pk (resave r now) s in
  let s2 := match ac_pk a with
            | None => log_system_write pk CHANGE source s1
            | Some _ => log_write a pk CHANGE source s1
            end in
  s2 <| signals := signals s2 ++ [Decided pk source] |>.

(** [_finish] *)
Definition finish (pk : Z) (r : ApprovalRequest) (a : Actor) (source : pystr) (now : Z) (s : Store) : Store :=
  let '(r', s1) := run_callback pk r s in after_callback pk r' a source now s1.

Definition lapse (now : Z) : Transition := {| tr_status := EXPIRED; tr_at := now; tr_by := None |}.

(** What a decision goes on to claim, from the object [r] the caller loaded and
    the assignees read now: an expiry in its place, a transition, or an error. *)
Inductive Verdict := Lapse (t : Transition) | Go (t : Transition) | Refuse (e : ApprovalError).

Definition decide_verdict (r : ApprovalRequest) (assignees : list Z) (a : Actor) (approved : bool) (note : pystr) (now : Z)
    : Verdict :=
  if negb (st_enabled settings) then Refuse ApprovalsDisabled
  else if is_overdue now r then Lapse (lapse now)
  else if negb (is_pending r) then Refuse (NotPending (u "This request is already " ++ status_word (rq_status r) ++ u "."))
  else if negb (can_decide a r assignees) then Refuse (NotEligible (u "You are not eligible to decide this request."))
  else Go {| tr_status := if approved then APPROVED else REJECTED; tr_at := now; tr_by := Some (ac_pk a, note) |}.

Definition cancel_verdict (r : ApprovalRequest) (a : Actor) (note : pystr) (now : Z) : Verdict :=
  if negb (st_enabled settings) then Refuse ApprovalsDisabled
  else if negb (can_cancel a r) then Refuse (NotEligible (u "Only the requester or staff can cancel this request."))
  else Go {| tr_status := CANCELED; tr_at := now; tr_by := Some (ac_pk a, note) |}.

(** The claim of a verdict and what follows it. *)
Definition pursue (v : Verdict) (pk : Z) (a : Actor) (source : pystr) (now : Z) (s : Store)
    : result ApprovalError unit * Store :=
  let carry t a source :=
    match claim pk t s with
    | (true, s1) => (Ok tt, match requests s1 !! pk with Some r => finish pk r a source now s1 | None => s1 end)
    | (false, s1) => (Err (already pk s1), s1)
    end in
  match v with
  | Refuse e => (Err e, s)
  | Go t => carry t a source
  | Lapse t =>
      match carry t nobody (u "expiry") with
      | (Ok _, s1) => (Err (NotPending (u "This request expired before it was decided.")), s1)
      | r => r
      end
  end.

(** [decide] and [cancel], on an object loaded earlier. *)
Definition decide_request (pk : Z) (r : ApprovalRequest) (a : Actor) (approved : bool) (note source : pystr) (now : Z)
    (s : Store) : result ApprovalError unit * Store :=
  let assignees := match requests s !! pk with Some x => rq_assignees x | None => [] end in
  pursue (decide_verdict r assignees a approved note now) pk a source now s.

Definition cancel (pk : Z) (r : ApprovalRequest) (a : Actor) (note source : pystr) (now : Z) (s : Store)
    : result ApprovalError unit * Store :=
  pursue (cancel_verdict r a note now) pk a source now s.

(** [mark_expired]: the keys to expire, oldest expiry first, then each in turn. *)
Definition expires_first (x y : Z * ApprovalRequest) : Prop :=
  default 0 (rq_expires_at x.2) <= default 0 (rq_expires_at y.2).
#[global] Instance expires_first_dec x y : Decision (expires_first x y).
Proof. unfold expires_first. apply _. Defined.

Definition overdue_ids (now : Z) (limit : option nat) (l : list (Z * ApprovalRequest)) : list Z :=
  let ids := (merge_sort expires_first (overdue now l)).*1 in
  match limit with Some n => take n ids | None => ids end.

Fixpoint expire_all (ids : list Z) (now : Z) (s : Store) : Z * Store :=
  match ids with
  | [] => (0, s)
  | pk :: ids' =>
      match claim pk (lapse now) s with
      | (true, s1) =>
          let s2 := match requests s1 !! pk with Some r => finish pk r nobody (u "expiry") now s1 | None => s1 end in
          let '(n, s3) := expire_all ids' now s2 in (n + 1, s3)
      | (false, s1) => expire_all ids' now s1
      end
  end.

Definition mark_expired (among : list (Z * ApprovalRequest)) (limit : option nat) (now : Z) (s : Store) : Z * Store :=
  expire_all (overdue_ids now limit among) now s.

(** [pending_for]: a user's decision queue. *)
Definition pending_for (a : Actor) (now : Z) (s : Store) : list (Z * ApprovalRequest) :=
  viewable_requests a (actionable now (rows s)).

(** The queue page: the rows the user may see, once the oldest overdue of them
    have been expired. *)
Definition get_list_queryset (a : Actor) (now : Z) (s : Store) : Store :=
  let limit := if st_lazy_limit settings <? 0 then None else Some (Z.to_nat (st_lazy_limit settings)) in
  (mark_expired (viewable_requests a (rows s)) limit now s).2.
End Approvals.
