(* ===== verification/ApprovalsFacts.v ===== *)
(** * Approvals: one decision, by someone entitled to it

    Filing, decisions, withdrawals and sweeps interleave between their
    statements; a decision may rest on a row read long ago. *)
From stdpp Require Import sorting.
From S2P Require Import Prelude PyFloat PyStr Schedules Approvals.
Open Scope Z_scope.

#[local] Opaque u.

Section Approvals.
Context (settings : ApprovalSettings) (registry : list ApprovalKind) (import_callable : pystr -> option Callback).

(** ** The world *)

(** An operation between two of its statements: a row filed whose assignees
    are to be set, a row loaded, a transition to claim by an actor who read
    [read] as the assignees, a callback to run, and the save after it. *)
Inductive Flight :=
| Assigning (pk : Z) (users : list (option Z)) (a : Actor) (source : pystr)
| Loaded (pk : Z) (r : ApprovalRequest)
| Claiming (pk : Z) (t : Transition) (a : Actor) (read : list Z) (source : pystr)
| Finishing (pk : Z) (r : ApprovalRequest) (a : Actor) (source : pystr)
| Saving (pk : Z) (r : ApprovalRequest) (a : Actor) (source : pystr).

Record Claimed := { cl_pk : Z; cl_transition : Transition; cl_actor : Actor; cl_read : list Z }.

(** [claims]: the claims won, in order; [called]: the requests whose callback ran. *)
Record World := { store : Store; flights : list Flight; claims : list Claimed; called : list Z }.

Definition assignees_of (pk : Z) (s : Store) : list Z :=
  match requests s !! pk with Some r => rq_assignees r | None => [] end.

(** The rest of a filing: the assignees, the audit entry and the signal. *)
Definition filing_done (pk : Z) (users : list (option Z)) (a : Actor) (source : pystr) (s : Store) : Store :=
  let s := log_write a pk ADDITION source (set_assignees pk users s) in
  s <| signals := signals s ++ [Requested pk] |>.

(** A key a row may refer to: no account of it, or one that was not deleted. A
    statement that breaks this is an IntegrityError: the operation ends there,
    as in [w_drop]. *)
Definition refers (gone : list Z) (x : option Z) : Prop := forall user, x = Some user -> user ∉ gone.
Definition decider (t : Transition) : option Z := by_ ← tr_by t; by_.1.

Inductive step (gone : list Z) : World -> World -> Prop :=
| w_file s fl cs cb r users a source kind title description context target at_ now :
    r = new_request kind title description context target a at_ now -> refers gone (ac_pk a) ->
    step gone (Build_World s fl cs cb)
      (Build_World (insert_request r s).2 (Assigning (insert_request r s).1 users a source :: fl) cs cb)
| w_assign s fl fl' cs cb pk users a source :
    fl ≡ₚ Assigning pk users a source :: fl' -> (forall x, x ∈ users -> refers gone x) ->
    step gone (Build_World s fl cs cb)
      (Build_World (filing_done pk users a source s) fl' cs cb)
| w_load s fl cs cb pk r :
    requests s !! pk = Some r -> step gone (Build_World s fl cs cb) (Build_World s (Loaded pk r :: fl) cs cb)
| w_decide s fl fl' cs cb pk r a approved note source now t :
    fl ≡ₚ Loaded pk r :: fl' ->
    decide_verdict settings registry r (assignees_of pk s) a approved note now = Go t ->
    step gone (Build_World s fl cs cb) (Build_World s (Claiming pk t a (assignees_of pk s) source :: fl') cs cb)
| w_lapse s fl fl' cs cb pk r read a approved note source now t :
    fl ≡ₚ Loaded pk r :: fl' ->
    decide_verdict settings registry r read a approved note now = Lapse t ->
    step gone (Build_World s fl cs cb) (Build_World s (Claiming pk t nobody [] source :: fl') cs cb)
| w_cancel s fl fl' cs cb pk r a note source now t :
    fl ≡ₚ Loaded pk r :: fl' -> cancel_verdict settings r a note now = Go t ->
    step gone (Build_World s fl cs cb) (Build_World s (Claiming pk t a [] source :: fl') cs cb)
| w_sweep s fl cs cb pk r now source :
    requests s !! pk = Some r -> is_overdue now r = true ->
    step gone (Build_World s fl cs cb) (Build_World s (Claiming pk (lapse now) nobody [] source :: fl) cs cb)
| w_claim s s' fl fl' cs cb pk t a read source r :
    fl ≡ₚ Claiming pk t a read source :: fl' -> claim pk t s = (true, s') -> requests s' !! pk = Some r ->
    refers gone (decider t) ->
    step gone (Build_World s fl cs cb)
      (Build_World s' (Finishing pk r a source :: fl') (cs ++ [Build_Claimed pk t a read]) cb)
| w_callback s s' fl fl' cs cb pk r r' a source :
    fl ≡ₚ Finishing pk r a source :: fl' -> run_callback registry import_callable pk r s = (r', s') ->
    step gone (Build_World s fl cs cb) (Build_World s' (Saving pk r' a source :: fl') cs (cb ++ [pk]))
| w_save s fl fl' cs cb pk r a source now :
    fl ≡ₚ Saving pk r a source :: fl' -> refers gone (rq_decided_by r) ->
    step gone (Build_World s fl cs cb) (Build_World (after_callback settings pk r a source now s) fl' cs cb)
| w_drop s fl fl' cs cb f : fl ≡ₚ f :: fl' -> step gone (Build_World s fl cs cb) (Build_World s fl' cs cb).

Definition empty_store : Store := Build_Store ∅ 1 [] [].

(** The worlds, with the accounts deleted so far. *)
Inductive reachable : list Z -> World -> Prop :=
| w_init : reachable [] (Build_World empty_store [] [] [])
| w_step gone w w' : reachable gone w -> step gone w w' -> reachable gone w'
| w_account_deleted user gone s fl cs cb :
    reachable gone (Build_World s fl cs cb) ->
    reachable (user :: gone) (Build_World (account_deleted user s) fl cs cb).

(** What the callbacks of a registry promise: they read the decision and leave
    it as it is. *)
Definition same_decision (r r' : ApprovalRequest) : Prop :=
  rq_status r' = rq_status r /\ rq_decided_by r' = rq_decided_by r /\ rq_decided_at r' = rq_decided_at r
  /\ rq_note r' = rq_note r.

Definition callbacks_read_only : Prop :=
  forall key f r, resolve_on_decision import_callable (get_kind key registry) = Some f -> same_decision r (f r).1.

(** ** The invariant *)

(** The account a column names, as long as it is there. *)
Definition still_named (gone : list Z) (x x' : option Z) : Prop :=
  x' = x \/ exists user, user ∈ gone /\ x = Some user /\ x' = None.

(** The fields nothing but the deletion of an account writes after the filing:
    [r] is the row at some time, [r'] now. *)
Definition same_request (gone : list Z) (r r' : ApprovalRequest) : Prop :=
  rq_kind r' = rq_kind r /\ still_named gone (rq_requested_by r) (rq_requested_by r') /\ rq_expires_at r' = rq_expires_at r.

(** The same of the decision. *)
Definition decision_kept (gone : list Z) (r r' : ApprovalRequest) : Prop :=
  rq_status r' = rq_status r /\ still_named gone (rq_decided_by r) (rq_decided_by r') /\ rq_decided_at r' = rq_decided_at r
  /\ rq_note r' = rq_note r.

(** The transition is one its actor was entitled to, having read [read]. *)
Definition entitled (gone : list Z) (r : ApprovalRequest) (t : Transition) (a : Actor) (read : list Z) : Prop :=
  (forall x, x ∈ read -> x ∈ rq_assignees r \/ x ∈ gone)
  /\ match tr_status t with
     | PENDING => False
     | EXPIRED => past (tr_at t) r = true /\ tr_by t = None
     | CANCELED =>
         exists me, actor_pk a = Some me /\ (rq_requested_by r = Some me \/ me ∈ gone \/ is_staff a = true)
           /\ exists note, tr_by t = Some (Some me, note)
     | _ =>
         exists me, actor_pk a = Some me /\ (rq_requested_by r = Some me -> st_allow_self settings = true)
           /\ match read with
              | [] => is_staff a = true
              | _ => me ∈ read \/ (is_staff a = true /\ st_staff_override settings = true)
              end
           /\ (exists r0, same_request gone r0 r /\ kind_allows registry a r0 = true)
           /\ exists note, tr_by t = Some (Some me, note)
     end.

(** The row shows the transition. *)
Definition shows (gone : list Z) (t : Transition) (r : ApprovalRequest) : Prop :=
  rq_status r = tr_status t /\ rq_decided_at r = Some (tr_at t)
  /\ match tr_by t with
     | Some (by_, note) => still_named gone by_ (rq_decided_by r) /\ rq_note r = note
     | None => rq_decided_by r = None
     end.

Definition flight_ok (gone : list Z) (m : gmap Z ApprovalRequest) (cs : list Claimed) (f : Flight) : Prop :=
  match f with
  | Assigning pk _ _ _ => exists r, m !! pk = Some r /\ rq_assignees r = []
  | Loaded pk r => exists x, m !! pk = Some x /\ same_request gone r x
  | Claiming pk t a read _ => exists x, m !! pk = Some x /\ entitled gone x t a read
  | Finishing pk r _ _ | Saving pk r _ _ =>
      pk ∈ cl_pk <$> cs /\ exists x, m !! pk = Some x /\ decision_kept gone r x
  end.

Definition filing (f : Flight) : option Z := match f with Assigning pk _ _ _ => Some pk | _ => None end.
Definition finishing (f : Flight) : option Z := match f with Finishing pk _ _ _ => Some pk | _ => None end.

Record inv (gone : list Z) (w : World) : Prop := {
  iv_fresh : forall pk r, requests (store w) !! pk = Some r -> pk < next_pk (store w);
  iv_undecided : forall pk r, requests (store w) !! pk = Some r -> rq_status r = PENDING ->
    rq_decided_by r = None /\ rq_decided_at r = None /\ pk ∉ cl_pk <$> claims w;
  iv_once : NoDup (cl_pk <$> claims w);
  iv_claims : forall c, c ∈ claims w -> exists r, requests (store w) !! cl_pk c = Some r
    /\ shows gone (cl_transition c) r /\ entitled gone r (cl_transition c) (cl_actor c) (cl_read c);
  iv_decided : forall pk r, requests (store w) !! pk = Some r -> rq_status r <> PENDING -> pk ∈ cl_pk <$> claims w;
  iv_flights : Forall (flight_ok gone (requests (store w)) (claims w)) (flights w);
  iv_filing : NoDup (omap filing (flights w));
  iv_called : NoDup (called w ++ omap finishing (flights w));
  iv_called_claims : forall pk, pk ∈ called w -> pk ∈ cl_pk <$> claims w;
}.

(** ** What an update keeps *)

Lemma update_row_requests pk f s r :
  requests s !! pk = Some r -> requests (update_row pk f s) = <[pk := f r]> (requests s).
Proof.
  intros Hr. apply map_eq. intros k. cbn. destruct (decide (k = pk)) as [->|Hne].
  - by rewrite lookup_alter_eq, lookup_insert_eq, Hr.
  - by rewrite lookup_alter_ne, lookup_insert_ne by done.
Qed.

Lemma still_named_refl gone x : still_named gone x x.
Proof. by left. Qed.
Lemma still_named_trans gone x y z : still_named gone x y -> still_named gone y z -> still_named gone x z.
Proof. intros [->|(v & Hv & -> & ->)]; [done|]. intros [->|(w & _ & ? & _)]; [right; by exists v|done]. Qed.
Lemma still_named_mono gone gone' x y : gone ⊆ gone' -> still_named gone x y -> still_named gone' x y.
Proof. intros Hg [->|(v & Hv & -> & ->)]; [by left|right; exists v; auto]. Qed.
Lemma still_named_some gone x me : still_named gone x (Some me) -> x = Some me.
Proof. by intros [->|(? & _ & _ & ?)]. Qed.
Lemma still_named_refers gone x y : still_named gone x y -> refers gone x -> y = x.
Proof. intros [->|(v & Hv & -> & _)] Hr; [done|]. by destruct (Hr v). Qed.
#[local] Hint Resolve still_named_refl : core.

Lemma same_request_refl gone r : same_request gone r r.
Proof. by split_and!. Qed.
Lemma same_request_trans gone x y z : same_request gone x y -> same_request gone y z -> same_request gone x z.
Proof. intros (A & B & C) (A' & B' & C'). split_and!; [congruence|by eapply still_named_trans|congruence]. Qed.
Lemma same_request_mono gone gone' x y : gone ⊆ gone' -> same_request gone x y -> same_request gone' x y.
Proof. intros Hg (A & B & C). split_and!; [done|by eapply still_named_mono|done]. Qed.
Lemma decision_kept_refl gone r : decision_kept gone r r.
Proof. by split_and!. Qed.
Lemma decision_kept_trans gone x y z : decision_kept gone x y -> decision_kept gone y z -> decision_kept gone x z.
Proof. intros (A & B & C & D) (A' & B' & C' & D'). split_and!; [congruence|by eapply still_named_trans|congruence|congruence]. Qed.
Lemma decision_kept_mono gone gone' x y : gone ⊆ gone' -> decision_kept gone x y -> decision_kept gone' x y.
Proof. intros Hg (A & B & C & D). split_and!; [done|by eapply still_named_mono|done|done]. Qed.
Lemma same_decision_kept gone r r' : same_decision r r' -> decision_kept gone r r'.
Proof. intros (A & B & C & D). split_and!; [done|by left|done|done]. Qed.
Lemma decision_kept_nil r r' : decision_kept [] r r' -> same_decision r r'.
Proof. intros (A & [B|(? & []%elem_of_nil & _)] & C & D). by split_and!. Qed.
Lemma refers_nil x : refers [] x.
Proof. intros user _. apply not_elem_of_nil. Qed.
#[local] Hint Resolve same_request_refl decision_kept_refl : core.
#[local] Instance same_decision_refl : Reflexive same_decision.
Proof. by intros r. Qed.
#[local] Instance same_decision_trans : Transitive same_decision.
Proof. intros x y z (A & B & C & D) (A' & B' & C' & D'). by split_and!; etrans. Qed.

Lemma entitled_keep gone r r' t a read :
  same_request gone r r' -> (forall x, x ∈ rq_assignees r -> x ∈ rq_assignees r' \/ x ∈ gone) ->
  entitled gone r t a read -> entitled gone r' t a read.
Proof.
  intros Hs Has [Hread Ht]. pose proof Hs as (Hk & Hb & He). split.
  - intros x Hx. destruct (Hread x Hx) as [?|?]; auto.
  - destruct (tr_status t); try done; unfold past in *; rewrite ?He; try done.
    all: destruct Ht as (me & H1 & H2 & H3); exists me; (split; [done|]).
    1, 2: (split; [intros E; apply H2; rewrite E in Hb; by apply still_named_some in Hb|]); destruct H3 as (H3 & (r0 & Hr0 & H4) & H5);
      (split; [done|]); (split; [|done]); exists r0; (split; [by eapply same_request_trans|done]).
    split; [|done]. destruct H2 as [H2|H2]; [|by right]. destruct Hb as [Hb|(user & Hu & Hb & _)]; [left; congruence|].
    right. left. congruence.
Qed.

Lemma shows_keep gone t r r' : decision_kept gone r r' -> shows gone t r -> shows gone t r'.
Proof.
  intros (E1 & E2 & E3 & E4) (H1 & H2 & H3). unfold shows. rewrite E1, E3, E4. split_and!; [done|done|].
  destruct (tr_by t) as [[by_ note]|].
  - destruct H3. split; [by eapply still_named_trans|done].
  - rewrite H3 in E2. by destruct E2 as [?|(? & _ & ? & _)].
Qed.

Lemma entitled_mono gone gone' r t a read : gone ⊆ gone' -> entitled gone r t a read -> entitled gone' r t a read.
Proof.
  intros Hg [Hread Ht]. split; [intros x Hx; destruct (Hread x Hx); auto|].
  destruct (tr_status t); try done.
  all: destruct Ht as (me & H1 & H2 & H3); exists me; (split; [done|]).
  1, 2: (split; [done|]); destruct H3 as (H3 & (r0 & Hr0 & H4) & H5); (split; [done|]); (split; [|done]);
    exists r0; (split; [by eapply same_request_mono|done]).
  split; [|done]. naive_solver.
Qed.

Lemma shows_mono gone gone' t r : gone ⊆ gone' -> shows gone t r -> shows gone' t r.
Proof.
  intros Hg (H1 & H2 & H3). split_and!; [done|done|]. destruct (tr_by t) as [[by_ note]|]; [|done].
  destruct H3. split; [by eapply still_named_mono|done].
Qed.

Lemma inv_store gone s s' fl cs cb :
  requests s' = requests s -> next_pk s' = next_pk s ->
  inv gone (Build_World s fl cs cb) -> inv gone (Build_World s' fl cs cb).
Proof. intros E1 E2 []. split; cbn in *; rewrite ?E1, ?E2; done. Qed.

(** Removing a flight, in any position. *)
Lemma inv_take gone s fl fl' cs cb f :
  fl ≡ₚ f :: fl' -> inv gone (Build_World s fl cs cb) ->
  flight_ok gone (requests s) cs f /\ inv gone (Build_World s fl' cs cb)
  /\ (forall pk, filing f = Some pk -> pk ∉ omap filing fl')
  /\ (forall pk, finishing f = Some pk -> pk ∉ cb ++ omap finishing fl').
Proof.
  intros Hp []. cbn in *. rewrite Hp in iv_flights0, iv_filing0, iv_called0.
  apply Forall_cons in iv_flights0 as [Hf Hfl]. cbn in iv_filing0, iv_called0. split; [done|].
  split; [split; cbn; try done|split].
  - destruct (filing f); [by apply NoDup_cons in iv_filing0 as [_ ?]|done].
  - destruct (finishing f) as [pk|]; [|done]. rewrite <- Permutation_middle in iv_called0.
    by apply NoDup_cons in iv_called0 as [_ ?].
  - intros pk E. rewrite E in iv_filing0. by apply NoDup_cons in iv_filing0 as [? _].
  - intros pk E. rewrite E, <- Permutation_middle in iv_called0. by apply NoDup_cons in iv_called0 as [? _].
Qed.

Lemma inv_put gone s fl cs cb f :
  inv gone (Build_World s fl cs cb) -> flight_ok gone (requests s) cs f ->
  (forall pk, filing f = Some pk -> pk ∉ omap filing fl) ->
  (forall pk, finishing f = Some pk -> pk ∉ cb ++ omap finishing fl) ->
  inv gone (Build_World s (f :: fl) cs cb).
Proof.
  intros [] Hf H1 H2. split; cbn in *; try done.
  - by constructor.
  - destruct (filing f); [apply NoDup_cons; split; [by apply H1|done]|done].
  - destruct (finishing f); [|done]. rewrite <- Permutation_middle. apply NoDup_cons. split; [by apply H2|done].
Qed.

(** An update of one row that leaves the decision as it is. *)
Lemma inv_row gone s s' fl cs cb pk r r' :
  inv gone (Build_World s fl cs cb) -> requests s !! pk = Some r ->
  requests s' = <[pk := r']> (requests s) -> next_pk s' = next_pk s ->
  same_request gone r r' -> decision_kept gone r r' ->
  rq_assignees r' = rq_assignees r \/ (rq_assignees r = [] /\ pk ∉ omap filing fl) ->
  inv gone (Build_World s' fl cs cb).
Proof.
  intros [] Hr E1 E2 Hs Hd Ha. cbn in *.
  assert (forall x, x ∈ rq_assignees r -> x ∈ rq_assignees r' \/ x ∈ gone) as Ha'.
  { intros x Hx. destruct Ha as [->|[E _]]; [by left|]. rewrite E in Hx. by apply elem_of_nil in Hx. }
  assert (forall k x, requests s !! k = Some x -> exists x', <[pk := r']> (requests s) !! k = Some x'
    /\ same_request gone x x' /\ decision_kept gone x x'
    /\ (forall y, y ∈ rq_assignees x -> y ∈ rq_assignees x' \/ y ∈ gone)
    /\ (rq_assignees x' = rq_assignees x \/ k = pk)) as Hkeep.
  { intros k x Hx. destruct (decide (k = pk)) as [->|Hne].
    - exists r'. rewrite lookup_insert_eq. assert (x = r) as -> by congruence. split_and!; auto.
    - exists x. rewrite lookup_insert_ne by done. split_and!; auto; done. }
  split; cbn; rewrite ?E1, ?E2; try done.
  - intros k x. rewrite lookup_insert_Some. intros [[<- <-]|[_ Hx]]; eauto.
  - intros k x. rewrite lookup_insert_Some. intros [[<- <-]|[_ Hx]]; [|eauto].
    destruct Hd as (-> & Hd & -> & _). intros E. destruct (iv_undecided0 _ _ Hr E) as (A & B & C). split_and!; [|done|done].
    rewrite A in Hd. by destruct Hd as [?|(? & _ & ? & _)].
  - intros c Hc. destruct (iv_claims0 c Hc) as (x & Hx & Hsh & Hen).
    destruct (Hkeep _ _ Hx) as (x' & Hx' & A & B & C & _). exists x'.
    split; [done|]. split; [by eapply shows_keep|by eapply entitled_keep].
  - intros k x. rewrite lookup_insert_Some. intros [[<- <-]|[_ Hx]]; [|eauto].
    destruct Hd as (-> & _). eauto.
  - apply Forall_forall. intros f Hf. pose proof (proj1 (Forall_forall _ _) iv_flights0 f Hf) as Hok.
    destruct f as [k us a src|k x|k t a read src|k x a src|k x a src]; cbn in *.
    + destruct Hok as (x & Hx & Hnil). destruct (Hkeep _ _ Hx) as (x' & Hx' & _ & _ & _ & [E| ->]); exists x'; (split; [done|]).
      * congruence.
      * destruct Ha as [E|[_ Hno]]; [|destruct Hno; apply list_elem_of_omap; by eexists].
        rewrite lookup_insert_eq in Hx'. congruence.
    + destruct Hok as (y & Hy & Hsame). destruct (Hkeep _ _ Hy) as (y' & Hy' & A & _). exists y'. split; [done|by eapply same_request_trans].
    + destruct Hok as (y & Hy & Hen). destruct (Hkeep _ _ Hy) as (y' & Hy' & A & _ & C & _). exists y'.
      split; [done|by eapply entitled_keep].
    + destruct Hok as [Hin (y & Hy & Hsame)]. destruct (Hkeep _ _ Hy) as (y' & Hy' & _ & B & _).
      split; [done|]. exists y'. split; [done|by eapply decision_kept_trans].
    + destruct Hok as [Hin (y & Hy & Hsame)]. destruct (Hkeep _ _ Hy) as (y' & Hy' & _ & B & _).
      split; [done|]. exists y'. split; [done|by eapply decision_kept_trans].
Qed.

(** ** Verdicts *)

Lemma can_decide_entitled gone r x a read note at_ approved :
  same_request gone r x -> read = rq_assignees x -> can_decide settings registry a r read = true ->
  entitled gone x {| tr_status := if approved : bool then APPROVED else REJECTED; tr_at := at_; tr_by := Some (ac_pk a, note) |} a read.
Proof.
  intros Hs Hread Hd. split; [intros y Hy; left; by rewrite <- Hread|]. unfold can_decide in Hd.
  destruct (actor_pk a) as [me|] eqn:Eme; [|done]. destruct (is_pending r); [|done]. cbn in Hd.
  assert (ac_pk a = Some me) as Epk by (unfold actor_pk in Eme; by destruct (ac_active a)).
  destruct (requested_by me r && negb (st_allow_self settings)) eqn:Eself; [done|].
  destruct (match read with [] => is_staff a | _ => _ end) eqn:Eel; [|done]. cbn in Hd.
  assert (exists me0, Some me = Some me0 /\ (rq_requested_by x = Some me0 -> st_allow_self settings = true)
    /\ match read with [] => is_staff a = true | _ => me0 ∈ read \/ (is_staff a = true /\ st_staff_override settings = true) end
    /\ (exists r0, same_request gone r0 x /\ kind_allows registry a r0 = true)
    /\ exists n, Some (ac_pk a, note) = Some (Some me0, n)) as Hall.
  { exists me. split_and!; [done| | | |by rewrite Epk; eexists].
    - intros Hx. destruct Hs as (_ & Hb & _). rewrite Hx in Hb. apply still_named_some in Hb. unfold requested_by in Eself.
      rewrite bool_decide_eq_true_2 in Eself by congruence. by destruct (st_allow_self settings).
    - destruct read as [|y read']; [done|]. apply orb_true_iff in Eel as [Eel%bool_decide_eq_true|Eel%andb_true_iff]; [by left|by right].
    - by exists r. }
  destruct approved; exact Hall.
Qed.

Lemma can_cancel_entitled gone r x a note at_ :
  same_request gone r x -> can_cancel a r = true ->
  entitled gone x {| tr_status := CANCELED; tr_at := at_; tr_by := Some (ac_pk a, note) |} a [].
Proof.
  intros (_ & Hb & _) Hc. split; [by intros y ?%elem_of_nil|]. unfold can_cancel in Hc. cbn.
  destruct (actor_pk a) as [me|] eqn:Eme; [|done].
  assert (ac_pk a = Some me) as -> by (unfold actor_pk in Eme; by destruct (ac_active a)).
  apply andb_true_iff in Hc as [_ [Hc%bool_decide_eq_true|Hc]%orb_true_iff]; exists me; split_and!;
    try done; eauto. rewrite Hc in Hb. destruct Hb as [?|(user & Hu & [= ->] & _)]; auto.
Qed.

Lemma lapse_entitled gone r x now : same_request gone r x -> past now r = true -> entitled gone x (lapse now) nobody [].
Proof. intros (_ & _ & He) Hp. split; [by intros y ?%elem_of_nil|]. cbn. unfold past in *. by rewrite He. Qed.

(** ** Every step keeps the invariant *)

Lemma inv_put_quiet gone s fl cs cb f :
  inv gone (Build_World s fl cs cb) -> flight_ok gone (requests s) cs f -> filing f = None -> finishing f = None ->
  inv gone (Build_World s (f :: fl) cs cb).
Proof. intros Hi Hf E1 E2. apply inv_put; [done|done|by rewrite E1|by rewrite E2]. Qed.

Lemma log_write_requests a pk flag source s :
  requests (log_write a pk flag source s) = requests s /\ next_pk (log_write a pk flag source s) = next_pk s.
Proof. unfold log_write. by destruct (ac_pk a). Qed.

Lemma set_assignees_row pk users s r :
  requests s !! pk = Some r ->
  requests (set_assignees pk users s)
    = <[pk := r <| rq_assignees := match users with [] => rq_assignees r | _ => omap id users end |>]> (requests s)
  /\ next_pk (set_assignees pk users s) = next_pk s.
Proof.
  intros Hr. destruct users as [|user users']; cbn [set_assignees].
  - split; [|done]. rewrite insert_id; [done|]. by destruct r.
  - split; [|done]. by rewrite (update_row_requests _ _ _ _ Hr).
Qed.

Lemma inv_file gone s fl cs cb r users a source kind title description context target at_ now :
  inv gone (Build_World s fl cs cb) -> r = new_request kind title description context target a at_ now ->
  inv gone (Build_World (insert_request r s).2 (Assigning (insert_request r s).1 users a source :: fl) cs cb).
Proof.
  intros [] ->. cbn in *. set (r := new_request _ _ _ _ _ _ _ _). set (new := next_pk s) in *.
  assert (requests s !! new = None) as Hnew.
  { destruct (requests s !! new) as [x|] eqn:E; [|done]. apply iv_fresh0 in E. lia. }
  assert (forall k x, requests s !! k = Some x -> <[new := r]> (requests s) !! k = Some x) as Hext.
  { intros k x Hx. rewrite lookup_insert_ne; [done|]. intros <-. congruence. }
  assert (forall c, c ∈ cs -> cl_pk c <> new) as Hno.
  { intros c Hc E. destruct (iv_claims0 c Hc) as (x & Hx & _). congruence. }
  assert (new ∉ cl_pk <$> cs) as Hno' by (intros (c & E & Hc)%list_elem_of_fmap; by eapply Hno).
  apply inv_put; [split; cbn; try done| |intros pk [= <-]|done].
  - intros k x [[<- _]|[_ Hx%iv_fresh0]]%lookup_insert_Some; lia.
  - intros k x [[<- <-]|[_ Hx]]%lookup_insert_Some; [|by eapply iv_undecided0].
    intros _. by split_and!.
  - intros c Hc. destruct (iv_claims0 c Hc) as (x & Hx & Hsh). exists x. split; [by apply Hext|done].
  - intros k x [[<- <-]|[_ Hx]]%lookup_insert_Some; [done|by eapply iv_decided0].
  - eapply Forall_impl; [exact iv_flights0|]. intros f. destruct f; cbn; naive_solver.
  - exists r. cbn. by rewrite lookup_insert_eq.
  - intros (f & Hf & E)%list_elem_of_omap. pose proof (proj1 (Forall_forall _ _) iv_flights0 f Hf) as Hok.
    destruct f; cbn in *; simplify_eq. destruct Hok as (x & Hx & _). congruence.
Qed.

Lemma claim_wins pk t s s' :
  claim pk t s = (true, s') -> exists r, requests s !! pk = Some r /\ rq_status r = PENDING
    /\ requests s' = <[pk := transition t r]> (requests s) /\ next_pk s' = next_pk s.
Proof.
  unfold claim, is_pending. destruct (requests s !! pk) as [r|] eqn:Er; [|done]. case_bool_decide; [|done].
  intros [= <-]. exists r. split_and!; [done|done|by apply update_row_requests|done].
Qed.

Lemma transition_request gone t r : same_request gone r (transition t r).
Proof. unfold transition. destruct (tr_by t) as [[]|]; by split_and!. Qed.

Lemma transition_shows gone t r : rq_decided_by r = None -> shows gone t (transition t r).
Proof. intros Hn. unfold transition, shows. destruct (tr_by t) as [[]|]; by split_and!. Qed.

Lemma inv_claim gone s s' fl cs cb pk t a read source r :
  inv gone (Build_World s fl cs cb) -> flight_ok gone (requests s) cs (Claiming pk t a read source) ->
  claim pk t s = (true, s') -> requests s' !! pk = Some r ->
  inv gone (Build_World s' (Finishing pk r a source :: fl) (cs ++ [Build_Claimed pk t a read]) cb).
Proof.
  intros [] (x & Hx & Hen) Hc Hr'. destruct (claim_wins _ _ _ _ Hc) as (r0 & Hr0 & Hpend & E1 & E2).
  cbn in *. assert (x = r0) as -> by congruence.
  rewrite E1, lookup_insert_eq in Hr'. injection Hr' as <-.
  destruct (iv_undecided0 pk r0 Hr0 Hpend) as (Hby & _ & Hnew).
  pose proof (transition_request gone t r0) as Hsame.
  assert (rq_assignees (transition t r0) = rq_assignees r0) as Has by (unfold transition; by destruct (tr_by t) as [[]|]).
  assert (forall k, k ∈ cl_pk <$> cs -> k ∈ cl_pk <$> (cs ++ [Build_Claimed pk t a read])) as Hmono.
  { intros k Hk. rewrite fmap_app. apply elem_of_app. by left. }
  assert (forall y, y ∈ rq_assignees r0 -> y ∈ rq_assignees (transition t r0) \/ y ∈ gone) as Has' by (intros y; rewrite Has; by left).
  assert (entitled gone (transition t r0) t a read) as Hen' by (by eapply entitled_keep).
  assert (rq_status (transition t r0) <> PENDING) as Hnot.
  { unfold transition. destruct Hen as [_ Hen]. destruct (tr_by t) as [[]|]; cbn; by intros E; rewrite E in Hen. }
  assert (forall y, y ∈ cb ++ omap finishing fl -> y ∈ cl_pk <$> cs) as Hcb.
  { intros y [Hy|Hy]%elem_of_app; [by apply iv_called_claims0|]. apply list_elem_of_omap in Hy as (f & Hf & E).
    pose proof (proj1 (Forall_forall _ _) iv_flights0 f Hf) as Hok. destruct f; cbn in *; simplify_eq. by destruct Hok. }
  apply inv_put; [split; cbn; rewrite ?E1, ?E2; try done| |done|].
  - intros k y [[<- _]|[_ Hy]]%lookup_insert_Some; [by eapply iv_fresh0|by eapply iv_fresh0].
  - intros k y [[<- <-]|[Hne Hy]]%lookup_insert_Some; [by intros E; destruct (Hnot E)|].
    intros E. destruct (iv_undecided0 k y Hy E) as (A & B & C). split_and!; [done|done|].
    rewrite fmap_app. intros [?|E'%list_elem_of_singleton]%elem_of_app; [by apply C|by apply Hne].
  - rewrite fmap_app. apply NoDup_app. split_and!; [done| |by apply NoDup_singleton].
    intros k Hk ->%list_elem_of_singleton. by apply Hnew.
  - intros c [Hcin| ->%list_elem_of_singleton]%elem_of_app.
    + destruct (iv_claims0 c Hcin) as (y & Hy & Hsh & Henc). exists y. split; [|done].
      rewrite lookup_insert_ne; [done|]. intros E. apply Hnew. rewrite E. by apply list_elem_of_fmap_2.
    + exists (transition t r0). cbn. rewrite lookup_insert_eq. split_and!; [done|by apply transition_shows|done].
  - intros k y [[<- <-]|[_ Hy]]%lookup_insert_Some.
    + intros _. rewrite fmap_app. apply elem_of_app. right. by apply list_elem_of_singleton.
    + intros E. apply Hmono. by eapply iv_decided0.
  - eapply Forall_impl; [exact iv_flights0|]. intros f Hok.
    assert (forall k y, requests s !! k = Some y -> exists y', <[pk := transition t r0]> (requests s) !! k = Some y'
      /\ same_request gone y y' /\ rq_assignees y' = rq_assignees y /\ (k <> pk -> y' = y)) as Hkeep.
    { intros k y Hy. destruct (decide (k = pk)) as [->|Hne].
      - rewrite lookup_insert_eq. assert (y = r0) as -> by congruence. exists (transition t r0). by split_and!.
      - rewrite lookup_insert_ne by done. exists y. by split_and!. }
    destruct f as [k us a' src|k y|k t' a' read' src|k y a' src|k y a' src]; cbn in *.
    + destruct Hok as (y & Hy & E). destruct (Hkeep _ _ Hy) as (y' & Hy' & _ & E' & _). exists y'. split; [done|congruence].
    + destruct Hok as (z & Hz & E). destruct (Hkeep _ _ Hz) as (y' & Hy' & E' & _). exists y'. split; [done|by eapply same_request_trans].
    + destruct Hok as (z & Hz & E). destruct (Hkeep _ _ Hz) as (y' & Hy' & E' & Ha & _). exists y'.
      split; [done|]. eapply entitled_keep; [exact E'|intros w; rewrite Ha; by left|done].
    + destruct Hok as [Hin (z & Hz & E)]. destruct (Hkeep _ _ Hz) as (y' & Hy' & _ & _ & Hsm). split; [by apply Hmono|].
      exists y'. split; [done|]. rewrite Hsm; [done|]. intros ->. by apply Hnew.
    + destruct Hok as [Hin (z & Hz & E)]. destruct (Hkeep _ _ Hz) as (y' & Hy' & _ & _ & Hsm). split; [by apply Hmono|].
      exists y'. split; [done|]. rewrite Hsm; [done|]. intros ->. by apply Hnew.
  - intros k Hk. apply Hmono. by apply iv_called_claims0.
  - cbn. split; [rewrite fmap_app; apply elem_of_app; right; by apply list_elem_of_singleton|].
    exists (transition t r0). rewrite E1, lookup_insert_eq. done.
  - intros k [= <-] Hk. by apply Hnew, Hcb.
Qed.

Context (Hcallbacks : callbacks_read_only).

Lemma run_callback_keeps gone pk r s r' s' x :
  requests s !! pk = Some x -> decision_kept gone r x -> run_callback registry import_callable pk r s = (r', s') ->
  exists x', requests s' = <[pk := x']> (requests s) /\ next_pk s' = next_pk s /\ same_request gone x x'
    /\ decision_kept gone x x' /\ rq_assignees x' = rq_assignees x /\ decision_kept gone r' x'.
Proof.
  intros Hx Hd. unfold run_callback.
  destruct (resolve_on_decision import_callable (get_kind (rq_kind r) registry)) as [f|] eqn:Ef.
  - pose proof (Hcallbacks _ _ r Ef) as Hf. destruct (f r) as [r1 [tb|]]; cbn in Hf.
    + intros [= <- <-]. rewrite (update_row_requests _ _ _ _ Hx). eexists. split_and!; try done.
      by rewrite lookup_alter_eq, Hx.
    + intros [= <- <-]. exists x. rewrite insert_id by done. split_and!; try done.
      destruct Hf as (E1 & E2 & E3 & E4), Hd as (F1 & F2 & F3 & F4).
      split_and!; [congruence|by rewrite E2|congruence|congruence].
  - intros [= <- <-]. exists x. rewrite insert_id by done. by split_and!.
Qed.

Lemma after_callback_requests pk r a source now s :
  requests (after_callback settings pk r a source now s) = requests (update_row pk (resave r now) s)
  /\ next_pk (after_callback settings pk r a source now s) = next_pk s.
Proof.
  unfold after_callback. destruct (ac_pk a) eqn:Ea; unfold log_write, log_system_write; rewrite ?Ea; [done|].
  by destruct (st_system_user settings).
Qed.

Lemma approvals_step_inv gone w w' : inv gone w -> step gone w w' -> inv gone w'.
Proof.
  intros Hi Hstep. destruct Hstep as [s fl cs cb r users a source kind title description context target at_ now -> _
    |s fl fl' cs cb pk users a source Hp _|s fl cs cb pk r Hr|s fl fl' cs cb pk r a approved note source now t Hp Hv
    |s fl fl' cs cb pk r read a approved note source now t Hp Hv|s fl fl' cs cb pk r a note source now t Hp Hv
    |s fl cs cb pk r now source Hr Ho|s s' fl fl' cs cb pk t a read source r Hp Hc Hr _
    |s s' fl fl' cs cb pk r r' a source Hp Hc|s fl fl' cs cb pk r a source now Hp Href|s fl fl' cs cb f Hp].
  - by eapply inv_file.
  - destruct (inv_take _ _ _ _ _ _ _ Hp Hi) as ((r & Hr & Hnil) & Hi' & Hno & _).
    destruct (set_assignees_row pk users s r Hr) as [E1 E2].
    destruct (log_write_requests a pk ADDITION source (set_assignees pk users s)) as [E3 E4].
    eapply (inv_row gone s); [exact Hi'|exact Hr|by cbn; rewrite E3, E1|by cbn; rewrite E4, E2|by split_and!|by split_and!|].
    right. split; [done|]. by apply Hno.
  - apply inv_put_quiet; [done| |done|done]. by exists r.
  - destruct (inv_take _ _ _ _ _ _ _ Hp Hi) as ((x & Hx & Hs) & Hi' & _ & _).
    apply inv_put_quiet; [done| |done|done]. exists x. split; [done|].
    unfold decide_verdict in Hv. destruct (st_enabled settings); [|done]. cbn in Hv. destruct (is_overdue now r); [done|].
    destruct (is_pending r); [|done]. cbn in Hv. destruct (can_decide settings registry a r (assignees_of pk s)) eqn:Ec; [|done].
    injection Hv as <-. apply (can_decide_entitled gone r); [done| |done]. unfold assignees_of. by rewrite Hx.
  - destruct (inv_take _ _ _ _ _ _ _ Hp Hi) as ((x & Hx & Hs) & Hi' & _ & _).
    apply inv_put_quiet; [done| |done|done]. exists x. split; [done|].
    unfold decide_verdict in Hv. destruct (st_enabled settings); [|done]. cbn in Hv.
    destruct (is_overdue now r) eqn:Eo.
    + injection Hv as <-. apply andb_true_iff in Eo as [_ Eo]. by eapply lapse_entitled.
    + destruct (is_pending r); [|done]. cbn in Hv. by destruct (can_decide settings registry a r read).
  - destruct (inv_take _ _ _ _ _ _ _ Hp Hi) as ((x & Hx & Hs) & Hi' & _ & _).
    apply inv_put_quiet; [done| |done|done]. exists x. split; [done|].
    unfold cancel_verdict in Hv. destruct (st_enabled settings); [|done]. cbn in Hv.
    destruct (can_cancel a r) eqn:Ec; [|done]. injection Hv as <-. by apply (can_cancel_entitled gone r).
  - apply inv_put_quiet; [done| |done|done]. exists r. split; [done|].
    apply andb_true_iff in Ho as [_ Ho]. by apply (lapse_entitled gone r).
  - destruct (inv_take _ _ _ _ _ _ _ Hp Hi) as (Hok & Hi' & _ & _). by eapply inv_claim.
  - destruct (inv_take _ _ _ _ _ _ _ Hp Hi) as ((Hin & x & Hx & Hs) & Hi' & _ & Hfin).
    destruct (run_callback_keeps _ _ _ _ _ _ _ Hx Hs Hc) as (x' & E1 & E2 & A & B & C & D).
    assert (inv gone (Build_World s' fl' cs cb)) as Hi2 by (eapply inv_row; [exact Hi'|exact Hx|done|done|done|done|by left]).
    specialize (Hfin pk eq_refl). clear Hi Hi'. destruct Hi2. apply inv_put_quiet; [split; cbn in *; try done| |done|done].
    + rewrite <- app_assoc. cbn. rewrite <- Permutation_middle. apply NoDup_cons. split; [done|done].
    + intros k [Hk| ->%list_elem_of_singleton]%elem_of_app; [by apply iv_called_claims0|done].
    + split; [done|]. exists x'. rewrite E1, lookup_insert_eq. done.
  - destruct (inv_take _ _ _ _ _ _ _ Hp Hi) as ((Hin & x & Hx & Hs) & Hi' & _ & _).
    destruct (after_callback_requests pk r a source now s) as [E1 E2].
    eapply (inv_row gone s _ _ _ _ pk x (resave r now x)); [exact Hi'|exact Hx| |done|by split_and!| |by left].
    + rewrite E1. by apply update_row_requests.
    + destruct Hs as (F1 & F2 & F3 & F4). apply still_named_refers in F2; [|done].
      split_and!; cbn; [done|by left|done|done].
  - by destruct (inv_take _ _ _ _ _ _ _ Hp Hi) as (_ & ? & _).
Qed.

(** The deletion of an account is seen in the columns that name it, and nowhere
    else. *)
Lemma forget_named user gone x :
  still_named (user :: gone) x (if bool_decide (x = Some user) then None else x).
Proof. case_bool_decide as E; [right; exists user; split; [by left|done]|by left]. Qed.

Lemma forget_keeps user gone r :
  same_request (user :: gone) r (forget_account user r) /\ decision_kept (user :: gone) r (forget_account user r)
  /\ forall x, x ∈ rq_assignees r -> x ∈ rq_assignees (forget_account user r) \/ x ∈ user :: gone.
Proof.
  split; [split_and!; [done|apply forget_named|done]|]. split; [split_and!; [done|apply forget_named|done|done]|].
  intros x Hx. destruct (decide (x = user)) as [->|Hne]; [right; by left|left].
  cbn. apply list_elem_of_In, filter_In. split; [by apply list_elem_of_In|lia].
Qed.

Lemma account_deleted_row user s k :
  requests (account_deleted user s) !! k = forget_account user <$> requests s !! k.
Proof. apply lookup_fmap. Qed.

Lemma inv_account_deleted user gone s fl cs cb :
  inv gone (Build_World s fl cs cb) -> inv (user :: gone) (Build_World (account_deleted user s) fl cs cb).
Proof.
  intros []. cbn in *. assert (gone ⊆ user :: gone) as Hg by (intros x; by right).
  assert (forall k r, requests s !! k = Some r -> requests (account_deleted user s) !! k = Some (forget_account user r)) as Hrow
    by (intros k r Hr; rewrite account_deleted_row, Hr; reflexivity).
  split; cbn [store claims flights called]; try done.
  - intros k r'. rewrite account_deleted_row. intros (r & Hr & _)%fmap_Some. by eapply iv_fresh0.
  - intros k r'. rewrite account_deleted_row. intros (r & Hr & ->)%fmap_Some E.
    destruct (iv_undecided0 k r Hr E) as (A & B & C). cbn. rewrite A. by split_and!.
  - intros c Hc. destruct (iv_claims0 c Hc) as (r & Hr & Hs & He). exists (forget_account user r).
    destruct (forget_keeps user gone r) as (K1 & K2 & K3). split; [by apply Hrow|]. split.
    + eapply shows_keep; [exact K2|by eapply shows_mono].
    + eapply entitled_keep; [exact K1|exact K3|by eapply entitled_mono].
  - intros k r'. rewrite account_deleted_row. intros (r & Hr & ->)%fmap_Some E. by eapply iv_decided0.
  - eapply Forall_impl; [exact iv_flights0|]. intros f Hok.
    destruct f as [k us a src|k x|k t a read src|k x a src|k x a src]; cbn [flight_ok] in *.
    + destruct Hok as (r & Hr & E). exists (forget_account user r). split; [by apply Hrow|]. cbn. by rewrite E.
    + destruct Hok as (r & Hr & E). exists (forget_account user r). split; [by apply Hrow|].
      eapply same_request_trans; [by eapply same_request_mono|apply forget_keeps].
    + destruct Hok as (r & Hr & E). exists (forget_account user r). destruct (forget_keeps user gone r) as (K1 & _ & K3).
      split; [by apply Hrow|]. eapply entitled_keep; [exact K1|exact K3|by eapply entitled_mono].
    + destruct Hok as (Hin & r & Hr & E). split; [done|]. exists (forget_account user r). split; [by apply Hrow|].
      eapply decision_kept_trans; [by eapply decision_kept_mono|apply forget_keeps].
    + destruct Hok as (Hin & r & Hr & E). split; [done|]. exists (forget_account user r). split; [by apply Hrow|].
      eapply decision_kept_trans; [by eapply decision_kept_mono|apply forget_keeps].
Qed.

Lemma approvals_reachable_inv gone w : reachable gone w -> inv gone w.
Proof.
  induction 1 as [|gone w w' _ IH Hs|user gone s fl cs cb _ IH]; [|by eapply approvals_step_inv|by apply inv_account_deleted].
  split; cbn; try (by intros ? ? ?%lookup_empty_Some); try constructor; by intros ? ?%elem_of_nil.
Qed.

(** A request is decided once, for good. However filings, decisions on rows read
    long before, withdrawals, sweeps and crashes interleave, at most one claim
    wins each request and its callback runs at most once; the row shows the
    transition that won, to whom (as long as the account exists) and when,
    whatever the callback raises and whatever is saved after it; and a row that
    is no longer pending was claimed. *)
Theorem decided_once gone w :
  reachable gone w ->
  NoDup (cl_pk <$> claims w) /\ NoDup (called w)
  /\ (forall c, c ∈ claims w -> exists r, requests (store w) !! cl_pk c = Some r /\ shows gone (cl_transition c) r)
  /\ forall pk r, requests (store w) !! pk = Some r -> rq_status r <> PENDING -> pk ∈ cl_pk <$> claims w.
Proof.
  intros Hw. destruct (approvals_reachable_inv gone w Hw) as [_ _ Honce Hclaims Hdec _ _ Hcalled _]. split_and!; [done| | |done].
  - by apply NoDup_app in Hcalled as [? _].
  - intros c Hc. destruct (Hclaims c Hc) as (r & Hr & Hs & _). by exists r.
Qed.

Lemma claim_of gone w pk r :
  inv gone w -> requests (store w) !! pk = Some r -> rq_status r <> PENDING ->
  exists c, c ∈ claims w /\ cl_pk c = pk /\ shows gone (cl_transition c) r
    /\ entitled gone r (cl_transition c) (cl_actor c) (cl_read c).
Proof.
  intros [] Hr Hne. apply (iv_decided0 pk r Hr), list_elem_of_fmap in Hne as (c & -> & Hc).
  destruct (iv_claims0 c Hc) as (r' & Hr' & Hs & He). exists c. assert (r' = r) as -> by congruence. by split_and!.
Qed.


(** ** One definition of the queue *)

Lemma rows_lookup s x : x ∈ rows s <-> requests s !! x.1 = Some x.2.
Proof. destruct x as [pk r]. apply elem_of_map_to_list. Qed.

Lemma overdue_elem now s x : x ∈ overdue now (rows s) <-> x ∈ rows s /\ is_overdue now x.2 = true.
Proof.
  unfold overdue, pending, is_overdue, is_pending. rewrite !list_elem_of_filter, andb_true_iff, bool_decide_eq_true. tauto.
Qed.

Lemma overdue_key now s x : x ∈ rows s -> x.1 ∈ (overdue now (rows s)).*1 -> is_overdue now x.2 = true.
Proof.
  intros Hx ([k r] & E & Hin)%list_elem_of_fmap. apply overdue_elem in Hin as [Hk%rows_lookup Ho].
  apply rows_lookup in Hx. cbn in *. subst. assert (x.2 = r) as -> by congruence. done.
Qed.

Lemma effective_cases now r :
  effective_status now r = match rq_status r, past now r with PENDING, true => EXPIRED | v, _ => v end
  /\ is_overdue now r = match rq_status r, past now r with PENDING, true => true | _, _ => false end.
Proof. unfold effective_status, is_overdue, is_pending. by destruct (rq_status r), (past now r). Qed.

Lemma by_status now s v x :
  x ∈ for_effective_status v now (rows s) <-> x ∈ rows s /\ effective_status now x.2 = v.
Proof.
  pose proof (overdue_key now s x) as Hkey. pose proof (overdue_elem now s x) as Hel.
  assert (x ∈ overdue now (rows s) -> x.1 ∈ (overdue now (rows s)).*1) as Hin by apply list_elem_of_fmap_2.
  destruct (effective_cases now x.2) as [E1 E2]. rewrite E1. rewrite E2 in *. clear E1 E2.
  destruct v; cbn; unfold actionable, pending; rewrite ?list_elem_of_filter;
    destruct (rq_status x.2), (past now x.2); intuition congruence.
Qed.

Lemma viewable_elem a l x : x ∈ viewable_requests a l <-> x ∈ l /\ can_view a x.2 = true.
Proof.
  unfold viewable_requests, can_view. destruct (actor_pk a) as [me|]; [|rewrite elem_of_nil; by split; [|intros [_ ?]]].
  destruct (is_staff a); cbn; [tauto|]. rewrite list_elem_of_filter, orb_true_iff. unfold requested_by.
  rewrite !bool_decide_eq_true. tauto.
Qed.

(** Every surface counts the same queue. Asked for a status, the table answers
    exactly the rows whose badge shows it, so that the statuses share the rows
    out between them; and a user's decision queue is exactly the rows that
    show as pending among those the row-by-row rule lets the user see. *)
Theorem queue_agrees a now s x :
  (forall v, x ∈ for_effective_status v now (rows s) <-> x ∈ rows s /\ effective_status now x.2 = v)
  /\ (x ∈ pending_for a now s <-> x ∈ rows s /\ effective_status now x.2 = PENDING /\ can_view a x.2 = true).
Proof.
  split; [intros v; apply by_status|]. unfold pending_for. rewrite viewable_elem.
  rewrite (by_status now s PENDING x). tauto.
Qed.

(** ** The sweep *)

Lemma finish_keeps pk x a source now s :
  requests s !! pk = Some x ->
  exists x', requests (finish settings registry import_callable pk x a source now s) = <[pk := x']> (requests s)
    /\ same_request [] x x' /\ decision_kept [] x x'.
Proof.
  intros Hx. unfold finish. destruct (run_callback registry import_callable pk x s) as [r' s1] eqn:Ec.
  destruct (run_callback_keeps [] _ _ _ _ _ _ Hx (decision_kept_refl [] x) Ec) as (x1 & E1 & _ & A & B & _ & C).
  destruct (after_callback_requests pk r' a source now s1) as [-> _].
  assert (requests s1 !! pk = Some x1) as Hx1 by by rewrite E1, lookup_insert_eq.
  rewrite (update_row_requests _ _ _ _ Hx1), E1, insert_insert_eq. eexists. split; [done|]. split; [done|].
  apply decision_kept_nil in B as (B1 & B2 & B3 & B4), C as (C1 & C2 & C3 & C4).
  apply same_decision_kept. unfold same_decision. cbn. split_and!; congruence.
Qed.

Lemma expire_all_spec ids now s :
  NoDup ids -> (forall k, k ∈ ids -> exists r, requests s !! k = Some r /\ rq_status r = PENDING) ->
  let '(n, s') := expire_all settings registry import_callable ids now s in
  n = zlen ids
  /\ (forall k, k ∉ ids -> requests s' !! k = requests s !! k)
  /\ forall k r, k ∈ ids -> requests s !! k = Some r -> exists r', requests s' !! k = Some r' /\ decision_kept [] (transition (lapse now) r) r'.
Proof.
  revert s. induction ids as [|pk ids IH]; intros s Hnd Hids; cbn [expire_all].
  { split; [done|]. split; [done|]. by intros k r Hk%elem_of_nil. }
  apply NoDup_cons in Hnd as [Hpk Hnd].
  destruct (Hids pk) as (x & Hx & Hpend); [apply list_elem_of_here|].
  destruct (claim pk (lapse now) s) as [[] s1] eqn:Ec.
  2:{ unfold claim, is_pending in Ec. rewrite Hx, bool_decide_eq_true_2 in Ec by done. done. }
  destruct (claim_wins _ _ _ _ Ec) as (x0 & Hx0 & _ & E1 & _). assert (x0 = x) as -> by congruence.
  assert (requests s1 !! pk = Some (transition (lapse now) x)) as Hx1 by by rewrite E1, lookup_insert_eq.
  rewrite Hx1. destruct (finish_keeps pk _ nobody (u "expiry") now s1 Hx1) as (x2 & E2 & _ & Hsame).
  set (s2 := finish _ _ _ _ _ _ _ _ _) in *. clearbody s2.
  assert (forall k, k <> pk -> requests s2 !! k = requests s !! k) as Hother.
  { intros k Hne. rewrite E2, E1, insert_insert_eq, lookup_insert_ne; [done|congruence]. }
  assert (requests s2 !! pk = Some x2) as Hx2 by by rewrite E2, lookup_insert_eq.
  specialize (IH s2 Hnd). destruct (expire_all settings registry import_callable ids now s2) as [n s3].
  destruct IH as (-> & I1 & I2).
  { intros k Hk. rewrite Hother by (by intros ->). apply Hids. by apply list_elem_of_further. }
  split; [unfold zlen; cbn [length]; lia|]. split.
  - intros k [Hne Hk]%not_elem_of_cons. by rewrite I1, Hother.
  - intros k r [->|Hk]%elem_of_cons Hr.
    + exists x2. rewrite I1 by done. split; [done|]. by assert (r = x) as -> by congruence.
    + apply I2; [done|]. rewrite Hother; [done|]. by intros ->.
Qed.

Lemma overdue_keys now s : (overdue now (rows s)).*1 `sublist_of` (map_to_list (requests s)).*1.
Proof. apply fmap_sublist. unfold overdue, pending. etrans; apply sublist_filter. Qed.

Lemma overdue_sorted now s :
  let l := merge_sort expires_first (overdue now (rows s)) in
  NoDup l.*1 /\ (forall x, x ∈ l <-> x ∈ overdue now (rows s)) /\ StronglySorted expires_first l
  /\ length l = length (overdue now (rows s)).
Proof.
  intros l. assert (l ≡ₚ overdue now (rows s)) as Hp by apply merge_sort_Permutation.
  assert (Transitive expires_first) by (intros x y z; unfold expires_first; lia).
  assert (Total expires_first) by (intros x y; unfold expires_first; lia).
  split_and!; [|intros x; by rewrite Hp|by apply StronglySorted_merge_sort|by rewrite Hp].
  rewrite Hp. eapply sublist_NoDup; [apply (NoDup_fst_map_to_list (requests s))|]. apply overdue_keys.
Qed.

(** The keys of a sweep: overdue, the oldest first, as many as allowed. *)
Lemma overdue_ids_spec now limit s :
  let ids := overdue_ids now limit (rows s) in
  NoDup ids
  /\ length ids = match limit with Some n => Nat.min n (length (overdue now (rows s))) | None => length (overdue now (rows s)) end
  /\ (forall k, k ∈ ids -> exists r, requests s !! k = Some r /\ is_overdue now r = true)
  /\ (forall k r y, k ∈ ids -> requests s !! k = Some r -> y ∈ overdue now (rows s) -> y.1 ∉ ids -> expires_first (k, r) y)
  /\ (limit = None -> forall y, y ∈ overdue now (rows s) -> y.1 ∈ ids).
Proof.
  destruct (overdue_sorted now s) as (Hnd & Hin & Hsort & Hlen). set (l := merge_sort _ _) in *.
  set (n := match limit with Some n => n | None => length l end).
  assert (overdue_ids now limit (rows s) = (take n l).*1) as ->.
  { unfold overdue_ids. fold l. subst n. destruct limit; [by rewrite fmap_take|by rewrite take_ge]. }
  cbn zeta. split_and!.
  - rewrite fmap_take. eapply sublist_NoDup; [exact Hnd|apply sublist_take].
  - rewrite length_fmap, length_take. subst n. destruct limit; lia.
  - intros k ([k' r] & -> & Hk)%list_elem_of_fmap. apply elem_of_take in Hk as (i & Hi & _).
    apply list_elem_of_lookup_2, Hin, overdue_elem in Hi as [Hi%rows_lookup Ho]. by exists r.
  - intros k r y ([k' r'] & -> & Hk)%list_elem_of_fmap Hr Hy Hno. cbn in *.
    assert (r' = r) as ->.
    { apply elem_of_take in Hk as (i & Hi & _). apply list_elem_of_lookup_2, Hin, overdue_elem in Hi as [Hi%rows_lookup _].
      cbn in Hi. congruence. }
    apply Hin in Hy. rewrite <- (take_drop n l) in Hsort, Hy. apply elem_of_app in Hy as [Hy|Hy].
    { destruct Hno. by apply list_elem_of_fmap_2. }
    eapply StronglySorted_app_1_elem_of; [exact Hsort|exact Hk|exact Hy].
  - intros -> y Hy. apply list_elem_of_fmap_2. subst n. rewrite take_ge by done. by apply Hin.
Qed.

(** A sweep expires what is overdue, the oldest first, and nothing else. It
    counts what it expired: everything overdue without a limit, else up to the
    limit, so that repeated page loads drain any backlog; what stays overdue
    is no older than what was expired. Other rows are not touched, and the
    expired show the time of the sweep and nobody as the one who decided. *)
Theorem sweep_drains now limit s :
  (forall pk r, requests s !! pk = Some r -> rq_status r = PENDING -> rq_decided_by r = None) ->
  let backlog := length (overdue now (rows s)) in
  let '(n, s') := mark_expired settings registry import_callable (rows s) limit now s in
  n = Z.of_nat (match limit with Some m => Nat.min m backlog | None => backlog end)
  /\ Z.of_nat (length (overdue now (rows s'))) = Z.of_nat backlog - n
  /\ (forall pk r, requests s !! pk = Some r -> requests s' !! pk = Some r
       \/ (is_overdue now r = true /\ exists r', requests s' !! pk = Some r' /\ shows [] (lapse now) r'
           /\ forall y, y ∈ overdue now (rows s') -> expires_first (pk, r) y)).
Proof.
  intros Hund backlog. destruct (overdue_ids_spec now limit s) as (Hnd & Hlen & Hids & Hold & _).
  unfold mark_expired. set (ids := overdue_ids now limit (rows s)) in *.
  assert (forall k, k ∈ ids -> exists r, requests s !! k = Some r /\ rq_status r = PENDING) as Hpend.
  { intros k Hk. destruct (Hids k Hk) as (r & Hr & [Ho _]%andb_true_iff). exists r.
    split; [done|by apply bool_decide_eq_true in Ho]. }
  pose proof (expire_all_spec ids now s Hnd Hpend) as Hspec.
  destruct (expire_all settings registry import_callable ids now s) as [n s']. destruct Hspec as (-> & Hkept & Hdone).
  assert (forall k r, k ∈ ids -> requests s !! k = Some r -> exists r', requests s' !! k = Some r' /\ shows [] (lapse now) r') as Hshows.
  { intros k r Hk Hr. destruct (Hdone k r Hk Hr) as (r' & Hr' & Hsame). exists r'. split; [done|].
    destruct (Hpend k Hk) as (r0 & Hr0 & Hp). assert (r0 = r) as -> by congruence.
    eapply shows_keep; [exact Hsame|]. apply transition_shows. by eapply Hund. }
  assert (forall y, y ∈ overdue now (rows s') <-> y ∈ overdue now (rows s) /\ y.1 ∉ ids) as Hafter.
  { intros [k r]. rewrite !overdue_elem, !rows_lookup. cbn. split.
    - intros [Hr Ho]. assert (k ∉ ids) as Hk; [|by rewrite <- Hkept].
      intros Hk. destruct (Hpend k Hk) as (r0 & Hr0 & _). destruct (Hshows k r0 Hk Hr0) as (r' & Hr' & Hst & _).
      assert (r' = r) as -> by congruence. unfold is_overdue, is_pending in Ho. by rewrite Hst in Ho.
    - intros [[Hr Ho] Hk]. by rewrite Hkept. }
  split_and!.
  - unfold zlen. f_equal. rewrite Hlen. by destruct limit.
  - assert (overdue now (rows s) ≡ₚ overdue now (rows s') ++ filter (fun x => x.1 ∈ ids) (overdue now (rows s))) as Hp.
    { apply NoDup_Permutation.
      - unfold overdue, pending. do 2 apply NoDup_filter. apply NoDup_map_to_list.
      - apply NoDup_app. split_and!.
        + unfold overdue, pending. do 2 apply NoDup_filter. apply NoDup_map_to_list.
        + intros y [_ Hy]%Hafter [Hy' _]%list_elem_of_filter. done.
        + apply NoDup_filter. unfold overdue, pending. do 2 apply NoDup_filter. apply NoDup_map_to_list.
      - intros y. rewrite elem_of_app, list_elem_of_filter, Hafter. destruct (decide (y.1 ∈ ids)); tauto. }
    assert (length (filter (fun x => x.1 ∈ ids) (overdue now (rows s))) = length ids) as Hl.
    { rewrite <- (length_fmap fst). apply Permutation_length, NoDup_Permutation; [|done|].
      - eapply sublist_NoDup; [apply (NoDup_fst_map_to_list (requests s))|].
        etrans; [apply fmap_sublist, sublist_filter|apply overdue_keys].
      - intros k. split.
        + by intros (y & -> & [? _]%list_elem_of_filter)%list_elem_of_fmap.
        + intros Hk. destruct (Hids k Hk) as (r & Hr & Ho). apply list_elem_of_fmap. exists (k, r). split; [done|].
          apply list_elem_of_filter. split; [done|]. apply overdue_elem. by rewrite rows_lookup. }
    apply Permutation_length in Hp. rewrite length_app in Hp. unfold zlen. subst backlog. lia.
  - intros pk r Hr. destruct (decide (pk ∈ ids)) as [Hk|Hk]; [right|left; by rewrite Hkept].
    split; [destruct (Hids pk Hk) as (r0 & Hr0 & Ho); congruence|].
    destruct (Hshows pk r Hk Hr) as (r' & Hr' & Hs). exists r'. split_and!; [done|done|].
    intros y [Hy Hno]%Hafter. by apply Hold.
Qed.
End Approvals.

(** ** Where the code differs from its comments *)

(** Withdrawing a request that is already decided is refused as not eligible,
    even to its requester: the error [decide] avoids as misleading. *)
Lemma cancel_decided_not_eligible settings r a note now :
  st_enabled settings = true -> rq_status r <> PENDING ->
  exists text, cancel_verdict settings r a note now = Refuse (NotEligible text).
Proof.
  intros He Hne. unfold cancel_verdict, can_cancel, is_pending. rewrite He. cbn.
  rewrite bool_decide_eq_false_2 by done. destruct (actor_pk a); by eexists.
Qed.

(** A callback path that does not import is skipped without a trace: nothing
    reaches [callback_error]. *)
Lemma unresolved_callback_silent registry import_callable pk r s k path :
  get_kind (rq_kind r) registry = Some k -> k_on_decision k = Some (Dotted path) -> import_callable path = None ->
  run_callback registry import_callable pk r s = (r, s).
Proof. intros Hk Ho Hi. unfold run_callback, resolve_on_decision. rewrite Hk. cbn. rewrite Ho. cbn. by rewrite Hi. Qed.

(** ** A filing, two people *)

Module ApprovalDemo.
Definition settings : ApprovalSettings :=
  {| st_enabled := true; st_max_pending := 50; st_default_minutes := 0; st_allow_self := false;
     st_staff_override := false; st_lazy_limit := 25; st_system_user := true |}.

(** A kind whose callback succeeds and whose hook refuses account 9. *)
Definition publish : ApprovalKind :=
  {| k_key := u "calendar.publish"; k_on_decision := Some (Callable (fun r => (r, None)));
     k_can_decide := Some (fun a _ => Some (negb (bool_decide (ac_pk a = Some 9)))); k_default_expires_in := None |}.
Definition registry : list ApprovalKind := register_kind publish [].
Definition no_import : pystr -> option Callback := fun _ => None.

Lemma read_only : callbacks_read_only registry no_import.
Proof.
  intros key f r. unfold registry, register_kind, get_kind. cbn. destruct (str_eqb _ key); [|done].
  cbn. by intros [= <-].
Qed.

Definition author : Actor := {| ac_pk := Some 1; ac_active := true; ac_staff := true |}.
Definition named : Actor := {| ac_pk := Some 7; ac_active := true; ac_staff := false |}.
Definition other : Actor := {| ac_pk := Some 3; ac_active := true; ac_staff := true |}.

Definition filed : ApprovalRequest := new_request (u "calendar.publish") (u "May") [] (u "{}") None author (Some 100) 10.
Definition s1 : Store := (insert_request filed empty_store).2.
Definition s2 : Store := filing_done 1 [Some 7] author (u "web") s1.

Definition decision (who : Z) : Transition := {| tr_status := APPROVED; tr_at := 20; tr_by := Some (Some who, u "ok") |}.
Definition row (s : Store) : ApprovalRequest := default filed (requests s !! 1).

(** The person named approves. *)
Definition s3 : Store := (claim 1 (decision 7) s2).2.
Definition s4 : Store := after_callback settings 1 (row s3) named (u "web") 21 s3.

(** Somebody else approves before the assignees are set. *)
Definition g2 : Store := (claim 1 (decision 3) s1).2.
Definition g3 : Store := filing_done 1 [Some 7] author (u "web") g2.

Notation world := (reachable settings registry no_import []).

Lemma filed_reachable :
  world (Build_World s1 [Assigning 1 [Some 7] author (u "web")] [] []).
Proof.
  eapply w_step; [apply w_init|].
  apply (w_file settings registry no_import [] empty_store [] [] [] filed [Some 7] author (u "web")
           (u "calendar.publish") (u "May") [] (u "{}") None (Some 100) 10); [reflexivity|apply refers_nil].
Qed.

Definition web : pystr := u "web".
Definition claimed (who : Z) (a : Actor) (read : list Z) : Claimed := Build_Claimed 1 (decision who) a read.

Ltac go W := apply (w_step _ _ _ [] W).

Lemma approved_reachable : world (Build_World s4 [] [claimed 7 named [7]] [1]).
Proof.
  go (Build_World s3 [Saving 1 (row s3) named web] [claimed 7 named [7]] [1]);
    [|by apply (w_save _ _ _ _ s3 _ [] _ _ 1 (row s3) named web 21), refers_nil].
  go (Build_World s3 [Finishing 1 (row s3) named web] [claimed 7 named [7]] []);
    [|apply (w_callback _ _ _ _ s3 s3 _ [] _ [] 1 (row s3) (row s3) named web); [done|by vm_compute]].
  go (Build_World s2 [Claiming 1 (decision 7) named [7] web] [] []);
    [|apply (w_claim _ _ _ _ s2 s3 _ [] [] [] 1 (decision 7) named [7] web (row s3)); [done|by vm_compute|by vm_compute|apply refers_nil]].
  go (Build_World s2 [Loaded 1 (row s2)] [] []);
    [|apply (w_decide _ _ _ _ s2 _ [] [] [] 1 (row s2) named true (u "ok") web 20); [done|by vm_compute]].
  go (Build_World s2 [] [] []); [|apply w_load; by vm_compute].
  go (Build_World s1 [Assigning 1 [Some 7] author web] [] []); [exact filed_reachable|apply w_assign; [done|intros x _; apply refers_nil]].
Qed.

(** With the override off, staff the request does not name can still decide it. *)
Lemma unassigned_window :
  exists w r, world w /\ st_staff_override settings = false /\ requests (store w) !! 1 = Some r
    /\ rq_status r = APPROVED /\ rq_decided_by r = Some 3 /\ rq_assignees r = [7].
Proof.
  set (filing := Assigning 1 [Some 7] author web).
  exists (Build_World g3 [Finishing 1 (row g2) other web] [claimed 3 other []] []), (row g3).
  split; [|by vm_compute].
  go (Build_World g2 [Finishing 1 (row g2) other web; filing] [claimed 3 other []] []);
    [|apply w_assign; [apply Permutation_swap|intros x _; apply refers_nil]].
  go (Build_World s1 [Claiming 1 (decision 3) other [] web; filing] [] []);
    [|apply (w_claim _ _ _ _ s1 g2 _ [filing] [] [] 1 (decision 3) other [] web (row g2)); [done|by vm_compute|by vm_compute|apply refers_nil]].
  go (Build_World s1 [Loaded 1 (row s1); filing] [] []);
    [|apply (w_decide _ _ _ _ s1 _ [filing] [] [] 1 (row s1) other true (u "ok") web 20); [done|by vm_compute]].
  go (Build_World s1 [filing] [] []); [exact filed_reachable|apply w_load; by vm_compute].
Qed.

(** Two requests are overdue at 300, one is not. *)
Definition backlog : Store :=
  (insert_request (filed <| rq_expires_at := Some 250 |>)
    (insert_request (filed <| rq_expires_at := Some 900 |>) s1).2).2.
End ApprovalDemo.

Section Witnesses.
Import ApprovalDemo.

Lemma decided_once_witness :
  exists r, requests s4 !! 1 = Some r /\ shows [] (decision 7) r.
Proof.
  destruct (decided_once settings registry no_import read_only [] _ approved_reachable) as (_ & _ & H & _).
  apply (H (claimed 7 named [7])). apply list_elem_of_here.
Defined.


Lemma sweep_drains_witness :
  (mark_expired settings registry no_import (rows backlog) (Some 1%nat) 300 backlog).1 = 1.
Proof.
  pose proof (sweep_drains settings registry no_import read_only 300 (Some 1%nat) backlog) as H.
  destruct (mark_expired _ _ _ _ _ _ _) as [n s']. destruct H as [H _]; [|exact H].
  intros pk r Hr _. assert (map_Forall (fun _ r => rq_decided_by r = None) (requests backlog)) as Hall by by_compute.
  by apply (Hall pk).
Defined.
End Witnesses.
