(* ===== verification/ApprovalsSteps.v ===== *)
(** * Approvals: the whole operations are runs of the step relation

    Filing, deciding, withdrawing and the queue page, as services.py and
    views.py compose them, take the steps ApprovalsFacts interleaves. *)
From stdpp Require Import sorting.
From S2P Require Import Prelude PyFloat PyStr Schedules Approvals ApprovalsFacts.
Open Scope Z_scope.

#[local] Opaque u.

Section Operations.
Context (settings : ApprovalSettings) (registry : list ApprovalKind) (import_callable : pystr -> option Callback).

#[local] Hint Resolve refers_nil : core.

Notation run := (rtc (step settings registry import_callable [])).

Lemma claim_row pk t s s' : claim pk t s = (true, s') -> exists r, requests s' !! pk = Some r.
Proof.
  intros (r & _ & _ & E & _)%claim_wins. exists (transition t r). by rewrite E, lookup_insert_eq.
Qed.

Lemma claim_lost pk t s s' : claim pk t s = (false, s') -> s' = s.
Proof. unfold claim. destruct (requests s !! pk) as [r|]; [destruct (is_pending r)|]; congruence. Qed.

(** A claim that wins runs the callback and saves. *)
Lemma carried_run s s1 fl cs cb pk t a read source now r :
  claim pk t s = (true, s1) -> requests s1 !! pk = Some r ->
  run (Build_World s (Claiming pk t a read source :: fl) cs cb)
    (Build_World (finish settings registry import_callable pk r a source now s1) fl
       (cs ++ [Build_Claimed pk t a read]) (cb ++ [pk])).
Proof.
  intros Hc Hr. unfold finish. destruct (run_callback registry import_callable pk r s1) as [r' s2] eqn:Ecb.
  eapply rtc_l; [by eapply w_claim|]. eapply rtc_l; [by eapply w_callback|]. by eapply rtc_once, w_save.
Qed.

(** The claim and what follows it, from its flight: it wins, or it is dropped. *)
Lemma pursued_run s fl cs cb pk t a read source now :
  let '(won, s') := match claim pk t s with
                    | (true, s1) => (true, match requests s1 !! pk with
                                           | Some r => finish settings registry import_callable pk r a source now s1
                                           | None => s1 end)
                    | (false, s1) => (false, s1)
                    end in
  let c := if won : bool then [Build_Claimed pk t a read] else [] in
  run (Build_World s (Claiming pk t a read source :: fl) cs cb) (Build_World s' fl (cs ++ c) (cb ++ (cl_pk <$> c)))
  /\ (won = false -> s' = s).
Proof.
  destruct (claim pk t s) as [[] s1] eqn:Ec.
  - destruct (claim_row _ _ _ _ Ec) as [r Hr]. rewrite Hr. split; [|done]. by apply carried_run.
  - apply claim_lost in Ec as ->. cbn. rewrite !app_nil_r. split; [|done]. by eapply rtc_once, w_drop.
Qed.

(** ** Decisions *)

(** What an operation that pursues the verdict [v] reports of the claims it won. *)
Definition reported (v : Verdict) (pk : Z) (a : Actor) (read : list Z) (res : result ApprovalError unit)
    (won : list Claimed) : Prop :=
  match res with
  | Ok _ => exists t, v = Go t /\ won = [Build_Claimed pk t a read]
  | Err _ => won = [] \/ exists t, v = Lapse t /\ won = [Build_Claimed pk t nobody []]
  end.

Lemma pursue_run v pk r a read source now s fl cs cb :
  (forall t, v = Go t -> step settings registry import_callable [] (Build_World s (Loaded pk r :: fl) cs cb)
     (Build_World s (Claiming pk t a read source :: fl) cs cb)) ->
  (forall t, v = Lapse t -> step settings registry import_callable [] (Build_World s (Loaded pk r :: fl) cs cb)
     (Build_World s (Claiming pk t nobody [] (u "expiry") :: fl) cs cb)) ->
  let '(res, s') := pursue settings registry import_callable v pk a source now s in
  exists won, run (Build_World s (Loaded pk r :: fl) cs cb) (Build_World s' fl (cs ++ won) (cb ++ (cl_pk <$> won)))
    /\ reported v pk a read res won /\ (won = [] -> s' = s).
Proof.
  intros Hgo Hlapse. destruct v as [t|t|e]; cbn [pursue].
  - pose proof (pursued_run s fl cs cb pk t nobody [] (u "expiry") now) as H. cbn zeta in H.
    destruct (claim pk t s) as [[] s1]; destruct H as [H E]; eexists; (split; [eapply rtc_l; [by apply Hlapse|exact H]|]);
      (split; [|by auto]); [right; by eexists|by left].
  - pose proof (pursued_run s fl cs cb pk t a read source now) as H. cbn zeta in H.
    destruct (claim pk t s) as [[] s1]; destruct H as [H E]; eexists; (split; [eapply rtc_l; [by apply Hgo|exact H]|]);
      (split; [|by auto]); [by eexists|by left].
  - exists []. cbn. rewrite !app_nil_r. split; [by eapply rtc_once, w_drop|]. split; [by left|done].
Qed.

Lemma decide_request_run pk r a approved note source now s fl cs cb :
  let v := decide_verdict settings registry r (assignees_of pk s) a approved note now in
  let '(res, s') := decide_request settings registry import_callable pk r a approved note source now s in
  exists won, run (Build_World s (Loaded pk r :: fl) cs cb) (Build_World s' fl (cs ++ won) (cb ++ (cl_pk <$> won)))
    /\ reported v pk a (assignees_of pk s) res won /\ (won = [] -> s' = s).
Proof.
  intros v. apply pursue_run; intros t Hv; [by eapply w_decide|by eapply w_lapse].
Qed.

Lemma cancel_run pk r a note source now s fl cs cb :
  let '(res, s') := cancel settings registry import_callable pk r a note source now s in
  exists won, run (Build_World s (Loaded pk r :: fl) cs cb) (Build_World s' fl (cs ++ won) (cb ++ (cl_pk <$> won)))
    /\ reported (cancel_verdict settings r a note now) pk a [] res won /\ (won = [] -> s' = s).
Proof.
  apply pursue_run; intros t Hv; [by eapply w_cancel|].
  unfold cancel_verdict in Hv. destruct (st_enabled settings), (can_cancel a r); done.
Qed.

(** ** The sweep: every key is read first, then each is claimed in turn *)

Definition expired (now : Z) (pk : Z) : Claimed := Build_Claimed pk (lapse now) nobody [].
Definition sweeping (now : Z) (ids : list Z) : list Flight :=
  (fun pk => Claiming pk (lapse now) nobody [] (u "expiry")) <$> ids.

Lemma sweep_read_run ids now s fl cs cb :
  (forall k, k ∈ ids -> exists r, requests s !! k = Some r /\ is_overdue now r = true) ->
  run (Build_World s fl cs cb) (Build_World s (sweeping now ids ++ fl) cs cb).
Proof.
  induction ids as [|pk ids IH]; intros H; [done|]. eapply rtc_r.
  - apply IH. intros k Hk. apply H. by apply list_elem_of_further.
  - destruct (H pk) as (r & Hr & Ho); [apply list_elem_of_here|]. by eapply w_sweep.
Qed.

Lemma expire_all_run ids now s fl cs cb :
  let '(n, s') := expire_all settings registry import_callable ids now s in
  exists won, won `sublist_of` ids /\ n = zlen won
    /\ run (Build_World s (sweeping now ids ++ fl) cs cb) (Build_World s' fl (cs ++ (expired now <$> won)) (cb ++ won)).
Proof.
  revert s cs cb. induction ids as [|pk ids IH]; intros s cs cb; cbn [expire_all].
  { exists []. cbn. rewrite !app_nil_r. by split_and!. }
  pose proof (pursued_run s (sweeping now ids ++ fl) cs cb pk (lapse now) nobody [] (u "expiry") now) as H.
  destruct (claim pk (lapse now) s) as [[] s1]; cbn zeta in H; destruct H as [H _].
  - set (s2 := match requests s1 !! pk with Some _ => _ | None => _ end) in *. clearbody s2.
    specialize (IH s2 (cs ++ [expired now pk]) (cb ++ [pk])).
    destruct (expire_all settings registry import_callable ids now s2) as [n s3]. destruct IH as (won & Hs & -> & Hr).
    exists (pk :: won). split; [by constructor|]. split; [unfold zlen; cbn [length]; lia|].
    rewrite <- !app_assoc in Hr. etrans; [exact H|exact Hr].
  - specialize (IH s1 cs cb). destruct (expire_all settings registry import_callable ids now s1) as [n s3].
    destruct IH as (won & Hs & -> & Hr). exists won. split; [by constructor|]. split; [done|].
    cbn [fmap list_fmap] in H. rewrite !app_nil_r in H. etrans; [exact H|exact Hr].
Qed.

Lemma overdue_ids_among now limit l k :
  k ∈ overdue_ids now limit l -> exists r, (k, r) ∈ l /\ is_overdue now r = true.
Proof.
  intros Hk. assert (k ∈ (merge_sort expires_first (overdue now l)).*1) as ([k' r] & -> & Hin)%list_elem_of_fmap.
  { unfold overdue_ids in Hk. destruct limit; [|done]. by apply elem_of_take in Hk as (i & Hi%list_elem_of_lookup_2 & _). }
  rewrite merge_sort_Permutation in Hin. exists r. unfold overdue, pending in Hin.
  rewrite !list_elem_of_filter in Hin. destruct Hin as (Hp & Hs & Hin). cbn in *. split; [done|].
  unfold is_overdue, is_pending. by rewrite bool_decide_eq_true_2.
Qed.

Lemma mark_expired_run among limit now s fl cs cb :
  (forall x, x ∈ among -> x ∈ rows s) ->
  let '(n, s') := mark_expired settings registry import_callable among limit now s in
  exists won, n = zlen won
    /\ (forall k, k ∈ won -> exists r, (k, r) ∈ among /\ is_overdue now r = true)
    /\ run (Build_World s fl cs cb) (Build_World s' fl (cs ++ (expired now <$> won)) (cb ++ won)).
Proof.
  intros Hamong. unfold mark_expired. set (ids := overdue_ids now limit among).
  pose proof (expire_all_run ids now s fl cs cb) as H.
  destruct (expire_all settings registry import_callable ids now s) as [n s']. destruct H as (won & Hs & -> & H).
  exists won. split; [done|]. split.
  - intros k Hk. apply (overdue_ids_among now limit). by eapply elem_of_sublist.
  - etrans; [|exact H]. apply sweep_read_run. intros k (r & Hin & Ho)%overdue_ids_among.
    exists r. split; [|done]. by apply Hamong, rows_lookup in Hin.
Qed.

(** ** Filings *)

(** What [_check_pending_cap] counts. *)
Definition outstanding (me : Z) (kind : pystr) (now : Z) (s : Store) : Z :=
  zlen (filter (fun x => rq_requested_by x.2 = Some me /\ rq_kind x.2 = kind) (actionable now (rows s))).

Lemma submseteq_filter {A} (P : A -> Prop) `{forall x, Decision (P x)} (l k : list A) :
  l ⊆+ k -> filter P l ⊆+ filter P k.
Proof. intros [rest ->]%submseteq_Permutation. rewrite filter_app. by apply submseteq_inserts_r. Qed.

Lemma outstanding_insert me kind now s m pk r :
  requests m = <[pk := r]> (requests s) -> outstanding me kind now m <= outstanding me kind now s + 1.
Proof.
  intros E. assert (rows m ⊆+ [(pk, r)] ++ rows s) as Hsub.
  { unfold rows. rewrite E, <- insert_delete_eq, map_to_list_insert by apply lookup_delete_eq.
    apply submseteq_skip, map_to_list_submseteq, delete_subseteq. }
  unfold outstanding, actionable, pending, zlen.
  set (P := fun x : Z * ApprovalRequest => rq_requested_by x.2 = Some me /\ rq_kind x.2 = kind).
  set (Q := fun x : Z * ApprovalRequest => past now x.2 = false).
  set (R := fun x : Z * ApprovalRequest => rq_status x.2 = PENDING).
  apply (submseteq_filter R), (submseteq_filter Q), (submseteq_filter P), submseteq_length in Hsub.
  rewrite !filter_app, length_app in Hsub.
  assert (length (filter P (filter Q (filter R [(pk, r)]))) <= 1)%nat; [|lia].
  etrans; [apply length_filter|]. etrans; [apply length_filter|]. apply length_filter.
Qed.

Lemma request_approval_run kind title description context target a assignees expires_at expires_in require_known source now s
    fl cs cb :
  let '(res, s') := request_approval settings registry kind title description context target a assignees
                      expires_at expires_in require_known source now s in
  match res with
  | Ok pk =>
      (exists r, requests s' = <[pk := r]> (requests s) /\ pk = next_pk s /\ rq_status r = PENDING
         /\ rq_requested_by r = ac_pk a /\ rq_kind r = kind /\ rq_assignees r = omap id assignees)
      /\ signals s' = signals s ++ [Requested pk]
      /\ (forall me, ac_pk a = Some me -> 0 < st_max_pending settings -> outstanding me kind now s' <= st_max_pending settings)
      /\ run (Build_World s fl cs cb) (Build_World s' fl cs cb)
  | Err _ => s' = s
  end.
Proof.
  unfold request_approval. destruct (st_enabled settings); cbn [negb]; [|done].
  destruct (check_pending_cap settings kind a now s) as [e|] eqn:Ecap; [done|].
  destruct (require_known && negb (known registry kind)); [done|].
  destruct (expiry settings registry kind expires_at expires_in now) as [at_|e]; [|done].
  set (r := new_request kind title description context target a at_ now).
  destruct (insert_request r s) as [pk s1] eqn:Ei.
  set (s' := log_write a pk ADDITION source (set_assignees pk assignees s1)).
  assert (requests s1 = <[pk := r]> (requests s) /\ pk = next_pk s /\ signals s1 = signals s) as (E1 & Epk & Esig)
    by by injection Ei as <- <-.
  assert (requests s1 !! pk = Some r) as Hr by by rewrite E1, lookup_insert_eq.
  destruct (set_assignees_row pk assignees s1 r Hr) as [E2 _].
  destruct (log_write_requests a pk ADDITION source (set_assignees pk assignees s1)) as [E3 _].
  assert (requests s' = <[pk := r <| rq_assignees := omap id assignees |>]> (requests s)) as E.
  { subst s'. rewrite E3, E2, E1, insert_insert_eq. by destruct assignees. }
  assert (signals s' = signals s) as Es.
  { subst s'. rewrite <- Esig. unfold log_write. destruct (ac_pk a), assignees; done. }
  split_and!.
  - eexists. split_and!; [exact E|done..].
  - cbn. by rewrite Es.
  - intros me Hme Hmax. unfold check_pending_cap in Ecap. rewrite Hme in Ecap. destruct (Z.leb_spec (st_max_pending settings) 0); [lia|].
    fold (outstanding me kind now s) in Ecap. destruct (Z.leb_spec (st_max_pending settings) (outstanding me kind now s)); [done|].
    pose proof (outstanding_insert me kind now s s' pk _ E). unfold outstanding, rows in *. cbn. lia.
  - eapply rtc_l; [by eapply (w_file _ _ _ _ s fl cs cb r assignees a source)|]. rewrite Ei. eapply rtc_once, w_assign; [done|intros x _; apply refers_nil].
Qed.

(** ** The queue page *)

Lemma get_list_queryset_run a now s fl cs cb :
  exists won,
    run (Build_World s fl cs cb)
      (Build_World (get_list_queryset settings registry import_callable a now s) fl (cs ++ (expired now <$> won)) (cb ++ won))
    /\ forall k, k ∈ won -> exists r, requests s !! k = Some r /\ is_overdue now r = true /\ can_view a r = true.
Proof.
  unfold get_list_queryset.
  set (limit := if st_lazy_limit settings <? 0 then None else Some (Z.to_nat (st_lazy_limit settings))).
  pose proof (mark_expired_run (viewable_requests a (rows s)) limit now s fl cs cb) as H.
  destruct (mark_expired _ _ _ _ _ _ _) as [n s']. destruct H as (won & _ & Hwon & H); [by intros x [? _]%viewable_elem|].
  exists won. split; [exact H|]. intros k Hk. destruct (Hwon k Hk) as (r & [Hin%rows_lookup Hv]%viewable_elem & Ho). by exists r.
Qed.

(** The service does what the step relation allows, from any state and beside
    any operation in flight. A filing accepted adds one pending row of the
    requester's, signals it, and keeps the requester's pending requests of
    the kind within the cap; one refused changes nothing. A decision on a row
    loaded earlier, and a withdrawal, report success exactly when their own
    transition won the row, and otherwise either change nothing or expire
    the request in its place. Opening the queue page expires rows only of
    those overdue that the visitor may see. Every transition won has run the
    callback of its request. *)
Theorem approval_operations_are_steps s fl cs cb :
  (forall kind title description context target a assignees expires_at expires_in require_known source now,
     let '(res, s') := request_approval settings registry kind title description context target a assignees
                         expires_at expires_in require_known source now s in
     match res with
     | Ok pk =>
         (exists r, requests s' = <[pk := r]> (requests s) /\ pk = next_pk s /\ rq_status r = PENDING
            /\ rq_requested_by r = ac_pk a /\ rq_kind r = kind /\ rq_assignees r = omap id assignees)
         /\ signals s' = signals s ++ [Requested pk]
         /\ (forall me, ac_pk a = Some me -> 0 < st_max_pending settings -> outstanding me kind now s' <= st_max_pending settings)
         /\ run (Build_World s fl cs cb) (Build_World s' fl cs cb)
     | Err _ => s' = s
     end)
  /\ (forall pk r a approved note source now,
        let '(res, s') := decide_request settings registry import_callable pk r a approved note source now s in
        exists won,
          run (Build_World s (Loaded pk r :: fl) cs cb) (Build_World s' fl (cs ++ won) (cb ++ (cl_pk <$> won)))
          /\ reported (decide_verdict settings registry r (assignees_of pk s) a approved note now) pk a (assignees_of pk s) res won
          /\ (won = [] -> s' = s))
  /\ (forall pk r a note source now,
        let '(res, s') := cancel settings registry import_callable pk r a note source now s in
        exists won,
          run (Build_World s (Loaded pk r :: fl) cs cb) (Build_World s' fl (cs ++ won) (cb ++ (cl_pk <$> won)))
          /\ reported (cancel_verdict settings r a note now) pk a [] res won /\ (won = [] -> s' = s))
  /\ (forall a now, exists won,
        run (Build_World s fl cs cb)
          (Build_World (get_list_queryset settings registry import_callable a now s) fl (cs ++ (expired now <$> won)) (cb ++ won))
        /\ forall k, k ∈ won -> exists r, requests s !! k = Some r /\ is_overdue now r = true /\ can_view a r = true).
Proof.
  split_and!.
  - intros. apply request_approval_run.
  - intros. apply decide_request_run.
  - intros. apply cancel_run.
  - intros. apply get_list_queryset_run.
Qed.
End Operations.

(** ** At concrete inputs *)

Section Witnesses.
Import ApprovalDemo.

(** The person named decides what is filed, from the row just loaded. *)
Lemma approval_operations_are_steps_witness :
  exists won, (decide_request settings registry no_import 1 (row s2) named true (u "ok") web 20 s2).1 = Ok tt
    /\ reported (decide_verdict settings registry (row s2) [7] named true (u "ok") 20) 1 named [7] (Ok tt) won.
Proof.
  pose proof (approval_operations_are_steps settings registry no_import s2 [] [] []) as (_ & H & _).
  specialize (H 1 (row s2) named true (u "ok") web 20).
  assert ((decide_request settings registry no_import 1 (row s2) named true (u "ok") web 20 s2).1 = Ok tt) as E by by vm_compute.
  destruct (decide_request _ _ _ _ _ _ _ _ _ _ _) as [res s']. cbn in E. subst res.
  destruct H as (won & _ & Hrep & _). by exists won.
Defined.
End Witnesses.
