(* ===== verification/Tables.v ===== *)
(** * Database tables

    What the tables of Django's models are here: rows by primary key, and the
    key the next row gets, which no row had before. *)
From S2P Require Import Prelude.
Open Scope Z_scope.

(** ** Tables: rows by primary key, and the key of the next insertion *)

Record Table (A : Type) := { rows : gmap Z A; next_pk : Z }.
Arguments rows {A} _.
Arguments next_pk {A} _.

Section Tables.
Context {A : Type}.
Implicit Types t : Table A.

Definition empty_table : Table A := {| rows := ∅; next_pk := 1 |}.
Definition insert_row (x : A) t : Z * Table A :=
  (next_pk t, {| rows := <[next_pk t := x]> (rows t); next_pk := next_pk t + 1 |}).
Definition update_row (pk : Z) (f : A -> A) t : Table A := {| rows := alter f pk (rows t); next_pk := next_pk t |}.
Definition delete_rows (p : Z -> A -> bool) t : Table A :=
  {| rows := filter (fun x => p x.1 x.2 = false) (rows t); next_pk := next_pk t |}.
(** [update] of every row *)
Definition map_rows (f : A -> A) t : Table A := {| rows := f <$> rows t; next_pk := next_pk t |}.

(** [filter(...)] and [filter(...).first()] *)
Definition where_ (p : Z -> A -> bool) t : list (Z * A) := List.filter (fun x => p x.1 x.2) (map_to_list (rows t)).
Definition first_where (p : Z -> A -> bool) t : option (Z * A) := head (where_ p t).
End Tables.

(** ** Their laws *)

Section TableLaws.
Context {A : Type}.
Implicit Types (t : Table A) (x : A) (p : Z -> A -> bool).

(** Every key in use is below the next. *)
Definition fresh t : Prop := forall pk x, rows t !! pk = Some x -> pk < next_pk t.

Lemma where_elem p t pk x : (pk, x) ∈ where_ p t <-> rows t !! pk = Some x /\ p pk x = true.
Proof.
  unfold where_. rewrite list_elem_of_In, filter_In. cbn.
  rewrite <- list_elem_of_In, elem_of_map_to_list. done.
Qed.

Lemma where_nil p t : where_ p t = [] <-> forall pk x, rows t !! pk = Some x -> p pk x = false.
Proof.
  split.
  - intros E pk x Hx. apply not_true_iff_false. intros Hp.
    assert (H : (pk, x) ∈ where_ p t) by (by apply where_elem). rewrite E in H. by apply elem_of_nil in H.
  - intros H. destruct (where_ p t) as [|[pk x] l] eqn:E; [done|].
    assert (Hx : (pk, x) ∈ where_ p t) by (rewrite E; apply elem_of_cons; by left).
    apply where_elem in Hx as [Hx Hp]. by rewrite (H pk x Hx) in Hp.
Qed.

Lemma first_where_some p t pk x : first_where p t = Some (pk, x) -> rows t !! pk = Some x /\ p pk x = true.
Proof.
  unfold first_where. intros E. apply where_elem. destruct (where_ p t); [done|].
  injection E as ->. apply elem_of_cons. by left.
Qed.

Lemma first_where_none p t : first_where p t = None -> forall pk x, rows t !! pk = Some x -> p pk x = false.
Proof. unfold first_where. intros E. apply where_nil. by destruct (where_ p t). Qed.

(** A test that one row at most passes finds that row. *)
Lemma first_where_unique p t pk x :
  rows t !! pk = Some x -> p pk x = true ->
  (forall pk' x', rows t !! pk' = Some x' -> p pk' x' = true -> pk' = pk) -> first_where p t = Some (pk, x).
Proof.
  intros Hx Hp Hu. destruct (first_where p t) as [[pk' x']|] eqn:E.
  - apply first_where_some in E as [Hx' Hp']. pose proof (Hu pk' x' Hx' Hp') as ->. congruence.
  - by rewrite (first_where_none p t E pk x Hx) in Hp.
Qed.

Lemma where_nodup p t : NoDup (where_ p t).
Proof. apply NoDup_ListNoDup, List.NoDup_filter, NoDup_ListNoDup, NoDup_map_to_list. Qed.
Lemma where_unique p t pk x :
  rows t !! pk = Some x -> p pk x = true ->
  (forall pk' x', rows t !! pk' = Some x' -> p pk' x' = true -> pk' = pk) -> where_ p t = [(pk, x)].
Proof.
  intros Hx Hp Hu. pose proof (where_nodup p t) as N.
  assert (Hin : (pk, x) ∈ where_ p t) by (by apply where_elem).
  assert (Hall : forall y, y ∈ where_ p t -> y = (pk, x)).
  { intros [pk' x'] [Hx' Hp']%where_elem. pose proof (Hu pk' x' Hx' Hp'). naive_solver. }
  destruct (where_ p t) as [|y [|z l]]; [by apply elem_of_nil in Hin| |].
  - f_equal. apply Hall. by apply list_elem_of_singleton.
  - exfalso. apply NoDup_cons in N as [N _]. apply N. rewrite (Hall y), <- (Hall z); set_solver.
Qed.

Lemma lookup_insert_row x t : rows (insert_row x t).2 !! next_pk t = Some x.
Proof. apply lookup_insert_eq. Qed.

(** A row of the table after an insertion is the new one or an old one. *)
Lemma insert_row_inv x t pk y :
  rows (insert_row x t).2 !! pk = Some y -> pk = next_pk t /\ y = x \/ pk <> next_pk t /\ rows t !! pk = Some y.
Proof. cbn. intros [[? ?]|[? ?]]%lookup_insert_Some; naive_solver. Qed.

Lemma insert_row_old x t pk y : fresh t -> rows t !! pk = Some y -> rows (insert_row x t).2 !! pk = Some y.
Proof. intros F H. cbn. rewrite lookup_insert_ne; [done|]. specialize (F pk y H). lia. Qed.

Lemma insert_row_new t x : fresh t -> rows t !! next_pk t = None.
Proof. intros F. destruct (rows t !! next_pk t) eqn:E; [|done]. specialize (F _ _ E). lia. Qed.

Lemma fresh_insert x t : fresh t -> fresh (insert_row x t).2.
Proof. intros F pk y [[-> _]|[_ H]]%insert_row_inv; cbn; [lia|]. specialize (F pk y H). lia. Qed.

Lemma lookup_update pk f t k :
  rows (update_row pk f t) !! k = if decide (k = pk) then f <$> rows t !! k else rows t !! k.
Proof.
  cbn. case_decide as E; [subst; apply lookup_alter_eq|]. by apply lookup_alter_ne.
Qed.

Lemma update_row_inv pk f t k y :
  rows (update_row pk f t) !! k = Some y ->
  exists x, rows t !! k = Some x /\ (k = pk /\ y = f x \/ k <> pk /\ y = x).
Proof.
  rewrite lookup_update. case_decide as E; [|naive_solver].
  destruct (rows t !! k) as [x|]; cbn; naive_solver.
Qed.

Lemma update_row_hit pk f t x : rows t !! pk = Some x -> rows (update_row pk f t) !! pk = Some (f x).
Proof. intros E. rewrite lookup_update, decide_True, E by done. done. Qed.

Lemma update_row_miss pk f t k : k <> pk -> rows (update_row pk f t) !! k = rows t !! k.
Proof. intros E. by rewrite lookup_update, decide_False by done. Qed.

Lemma fresh_update pk f t : fresh t -> fresh (update_row pk f t).
Proof. intros F k y (x & H & _)%update_row_inv. by apply (F k x). Qed.

Lemma lookup_delete p t k y :
  rows (delete_rows p t) !! k = Some y <-> rows t !! k = Some y /\ p k y = false.
Proof. cbn. by rewrite map_lookup_filter_Some. Qed.

Lemma fresh_delete p t : fresh t -> fresh (delete_rows p t).
Proof. intros F k y [H _]%lookup_delete. by apply (F k y). Qed.
End TableLaws.

#[export] Hint Resolve fresh_insert fresh_update fresh_delete : tables.
