(* ===== verification/CaseInsensitiveDict.v ===== *)
(** * apps/webhooks/hooks.py: [CaseInsensitiveDict]

    The dict handed to a verifier, method by method, over the [dict] of PyLib.
    [None] is the [KeyError]. Its methods refine the operations of a finite map
    over lower-cased names; [dict]'s own [|=] does not. *)
From S2P Require Import Prelude PyFloat PyStr PyLib.
Open Scope Z_scope.

Section CaseInsensitiveDict.
Context {A : Type}.
Implicit Types (d : list (pystr * A)) (key : pystr) (value : A).

Definition fold_index d : list (pystr * pystr) := foldl (fun f x => dict_set f (lower x.1) x.1) [] d.

(** [_actual_key] *)
Definition actual_key d key : option pystr :=
  if decide (key ∈ d.*1) then Some key else dict_get (fold_index d) (lower key).

(** [d[key]] and [get]: [None] for the [KeyError]. *)
Definition getitem d key : option A := actual ← actual_key d key; dict_get d actual.
Definition has d key : bool := bool_decide (is_Some (actual_key d key)).
Definition delitem d key : option (list (pystr * A)) := actual ← actual_key d key; Some (dict_del d actual).
(** [pop(key)]: the value and the dict without it. *)
Definition pop d key : option (A * list (pystr * A)) :=
  actual ← actual_key d key; v ← dict_get d actual; Some (v, dict_del d actual).
Definition setdefault d key value : A * list (pystr * A) :=
  match actual_key d key with
  | None => (value, dict_set d key value)
  | Some actual => (default value (dict_get d actual), d)
  end.
Definition setitem d key value : list (pystr * A) := dict_set d (default key (actual_key d key)) value.
Definition update d (items : list (pystr * A)) : list (pystr * A) := foldl (fun d x => setitem d x.1 x.2) d items.
Definition of_items (items : list (pystr * A)) : list (pystr * A) := update [] items.

(** [d |= items], which the class does not define: [dict]'s own writes. *)
Definition ior d (items : list (pystr * A)) : list (pystr * A) := dict_update d items.
End CaseInsensitiveDict.

(** * What the mapping refines *)

#[local] Opaque u lower.

Section Facts.
Context {A : Type}.
Implicit Types (d : list (pystr * A)) (key : pystr) (value : A).

(** The names of a dict, whatever their case, and the map it stands for. *)
Definition names d : list pystr := (fun x => lower x.1) <$> d.
Definition well_keyed d : Prop := NoDup (names d).
Definition as_map d : gmap pystr A := list_to_map ((fun x => (lower x.1, x.2)) <$> d).

Lemma names_keys d k : k ∈ d.*1 -> lower k ∈ names d.
Proof.
  intros (x & -> & Hx)%list_elem_of_fmap. unfold names. apply list_elem_of_fmap. by exists x.
Qed.

Lemma names_inv d n : n ∈ names d -> exists k, k ∈ d.*1 /\ lower k = n.
Proof.
  intros (x & -> & Hx)%list_elem_of_fmap. exists x.1. split; [by apply list_elem_of_fmap_2|done].
Qed.

Lemma names_same d k k' : well_keyed d -> k ∈ d.*1 -> k' ∈ d.*1 -> lower k = lower k' -> k = k'.
Proof.
  induction d as [|[k0 v0] d IH]; cbn; intros Hnd Hk Hk' E; [by apply elem_of_nil in Hk|].
  apply NoDup_cons in Hnd as [Hno Hnd].
  apply elem_of_cons in Hk as [->|Hk], Hk' as [->|Hk']; try done; [| |by apply IH].
  - destruct Hno. cbn in *. rewrite E. by apply names_keys.
  - destruct Hno. cbn in *. rewrite <- E. by apply names_keys.
Qed.

Lemma well_keyed_NoDup d : well_keyed d -> NoDup d.*1.
Proof.
  unfold well_keyed, names. induction d as [|x d IH]; cbn; [constructor|]. intros [Hno Hnd]%NoDup_cons.
  constructor; [|by apply IH]. intros Hin. by apply Hno, names_keys.
Qed.

Lemma fold_index_snoc d x : fold_index (d ++ [x]) = dict_set (fold_index d) (lower x.1) x.1.
Proof. unfold fold_index. by rewrite foldl_app. Qed.

Lemma fold_index_Some d n k : dict_get (fold_index d) n = Some k -> k ∈ d.*1 /\ lower k = n.
Proof.
  induction d as [|x d IH] using rev_ind; [done|]. rewrite fold_index_snoc, dict_get_set, fmap_app, elem_of_app.
  case_decide; [intros [= <-]; split; [right; by left|done]|]. intros H'%IH. naive_solver.
Qed.

Lemma fold_index_None d n : dict_get (fold_index d) n = None -> n ∉ names d.
Proof.
  induction d as [|x d IH] using rev_ind; [by intros _ ?%elem_of_nil|].
  rewrite fold_index_snoc, dict_get_set. unfold names. rewrite fmap_app, elem_of_app. case_decide; [done|].
  intros Hn%IH [?|?%list_elem_of_singleton]; [done|]. by subst.
Qed.

Lemma actual_key_Some d key k : actual_key d key = Some k -> k ∈ d.*1 /\ lower k = lower key.
Proof. unfold actual_key. case_decide; [by intros [= <-]|apply fold_index_Some]. Qed.

Lemma actual_key_None d key : actual_key d key = None -> lower key ∉ names d.
Proof. unfold actual_key. case_decide; [done|apply fold_index_None]. Qed.

Lemma as_map_None d n : n ∉ names d -> as_map d !! n = None.
Proof.
  intros Hn. unfold as_map. apply not_elem_of_list_to_map_1. unfold names in Hn.
  by rewrite <- list_fmap_compose.
Qed.

Lemma as_map_get d k : well_keyed d -> k ∈ d.*1 -> as_map d !! lower k = dict_get d k.
Proof.
  induction d as [|[k0 v0] d IH]; cbn; intros Hnd Hk; [by apply elem_of_nil in Hk|].
  apply NoDup_cons in Hnd as [Hno Hnd]. cbn in Hno. unfold as_map. cbn. fold (as_map d).
  case_decide as Hc; [subst; apply lookup_insert_eq|].
  apply elem_of_cons in Hk as [->|Hk]; [done|]. rewrite lookup_insert_ne; [by apply IH|].
  intros E. destruct Hno. rewrite E. by apply names_keys.
Qed.

Lemma getitem_map d key : well_keyed d -> getitem d key = as_map d !! lower key.
Proof.
  intros Hnd. unfold getitem. destruct (actual_key d key) as [k|] eqn:E; cbn.
  - apply actual_key_Some in E as [Hk <-]. symmetry. by apply as_map_get.
  - symmetry. by apply as_map_None, actual_key_None.
Qed.

Lemma has_map d key : well_keyed d -> has d key = bool_decide (is_Some (as_map d !! lower key)).
Proof.
  intros Hnd. unfold has. apply bool_decide_ext. destruct (actual_key d key) as [k|] eqn:E.
  - apply actual_key_Some in E as [Hk <-]. rewrite as_map_get by done. split; [|by eauto].
    intros _. destruct (dict_get d k) eqn:Hg; [by eauto|]. by apply dict_get_None in Hg.
  - rewrite as_map_None by by apply actual_key_None. by split; intros [].
Qed.

(** [dict]'s write under a name of its own, or under one the dict has. *)
Lemma dict_set_map d k value : well_keyed (dict_set d k value) -> as_map (dict_set d k value) = <[lower k := value]> (as_map d).
Proof.
  induction d as [|[k0 v0] d IH]; cbn; intros Hnd; [done|]. case_decide as Hc; [subst|].
  - unfold as_map. cbn. by rewrite insert_insert_eq.
  - apply NoDup_cons in Hnd as [Hno Hnd]. cbn in Hno. unfold as_map. cbn. fold (as_map d).
    fold (as_map (dict_set d k value)). rewrite IH by done. apply insert_insert_ne. intros E.
    destruct Hno. rewrite E. apply names_keys. rewrite dict_set_keys. case_decide; [done|].
    apply elem_of_app. right. by left.
Qed.

Lemma dict_set_names d k value : k ∈ d.*1 -> names (dict_set d k value) = names d.
Proof.
  induction d as [|[k0 v0] d IH]; cbn; [by intros ?%elem_of_nil|]. case_decide; [done|].
  intros [->|Hk]%elem_of_cons; [done|]. unfold names in *. cbn. f_equal. by apply IH.
Qed.

Lemma setitem_well_keyed d key value : well_keyed d -> well_keyed (setitem d key value).
Proof.
  intros Hnd. unfold setitem, well_keyed. destruct (actual_key d key) as [k|] eqn:E; cbn.
  - apply actual_key_Some in E as [Hk _]. by rewrite dict_set_names.
  - apply actual_key_None in E. rewrite dict_set_new by by intros ?%names_keys.
    unfold names. rewrite fmap_app. apply NoDup_app. split_and!; [done| |apply NoDup_singleton].
    intros n Hn ->%list_elem_of_singleton. done.
Qed.

Lemma setitem_map d key value : well_keyed d -> as_map (setitem d key value) = <[lower key := value]> (as_map d).
Proof.
  intros Hnd. pose proof (setitem_well_keyed d key value Hnd) as Hk. unfold setitem in *.
  rewrite dict_set_map by done. destruct (actual_key d key) as [k|] eqn:E; cbn; [|done].
  apply actual_key_Some in E as [_ ->]. done.
Qed.

Lemma dict_del_names d k : names (dict_del d k) `sublist_of` names d.
Proof. unfold names, dict_del. apply fmap_sublist, sublist_filter. Qed.

Lemma dict_del_map d k : well_keyed d -> k ∈ d.*1 -> as_map (dict_del d k) = delete (lower k) (as_map d).
Proof.
  intros Hnd Hk. apply map_eq. intros n. rewrite lookup_delete. case_decide as Hc; [subst|].
  - apply as_map_None. intros (k' & Hk' & E)%names_inv. unfold dict_del in Hk'.
    apply list_elem_of_fmap in Hk' as (x & -> & [Hx Hin]%list_elem_of_filter).
    apply Hx, (names_same d); try done. by apply list_elem_of_fmap_2.
  - destruct (decide (n ∈ names d)) as [(k' & Hk' & <-)%names_inv|Hn].
    + assert (k <> k') as Hne by by intros ->.
      rewrite (as_map_get d k'), (as_map_get (dict_del d k) k'), dict_get_del, decide_False; try done.
      * by eapply sublist_NoDup; [exact Hnd|apply dict_del_names].
      * apply list_elem_of_fmap in Hk' as (x & -> & Hx). by apply list_elem_of_fmap_2, list_elem_of_filter.
    + rewrite !as_map_None; [done|done|]. intros Hin. apply Hn. eapply elem_of_sublist; [|apply dict_del_names]. done.
Qed.

Lemma del_well_keyed d k : well_keyed d -> well_keyed (dict_del d k).
Proof. intros Hnd. by eapply sublist_NoDup; [exact Hnd|apply dict_del_names]. Qed.

Lemma update_map d items :
  well_keyed d ->
  well_keyed (update d items)
  /\ as_map (update d items) = foldl (fun m x => <[lower x.1 := x.2]> m) (as_map d) items.
Proof.
  unfold update. revert d. induction items as [|x items IH]; intros d Hnd; cbn; [done|].
  rewrite <- setitem_map by done. by apply IH, setitem_well_keyed.
Qed.

(** What one operation does to the map of the dict. *)
Definition writes (d d' : list (pystr * A)) (m : gmap pystr A) : Prop := well_keyed d' /\ as_map d' = m.

(** [CaseInsensitiveDict] refines a map over lower-cased names: built from
    any items it holds one entry per name whatever the case, and from then on
    [d[k]], [in], [d[k] = v], [del], [pop], [setdefault] and [update] act as
    the operations of that map on the name of [k], [KeyError] included. *)
Theorem case_insensitive_refines d key value items :
  well_keyed d ->
  let m := as_map d in
  let n := lower key in
  getitem d key = m !! n
  /\ has d key = bool_decide (is_Some (m !! n))
  /\ writes d (setitem d key value) (<[n := value]> m)
  /\ match delitem d key with
     | Some d' => is_Some (m !! n) /\ writes d d' (delete n m)
     | None => m !! n = None
     end
  /\ match pop d key with
     | Some (v, d') => m !! n = Some v /\ writes d d' (delete n m)
     | None => m !! n = None
     end
  /\ (setdefault d key value).1 = default value (m !! n)
  /\ writes d (setdefault d key value).2 (<[n := default value (m !! n)]> m)
  /\ writes d (update d items) (foldl (fun m x => <[lower x.1 := x.2]> m) m items)
  /\ writes [] (of_items items) (foldl (fun m x => <[lower x.1 := x.2]> m) ∅ items).
Proof.
  intros Hnd m n. subst m n. pose proof (getitem_map d key Hnd) as Hget.
  split_and!; [done|by apply has_map|by split; [apply setitem_well_keyed|apply setitem_map]| | | | | |].
  - unfold delitem. destruct (actual_key d key) as [k|] eqn:E; cbn.
    + apply actual_key_Some in E as [Hk <-]. split; [|split; [by apply del_well_keyed|by apply dict_del_map]].
      rewrite as_map_get by done. destruct (dict_get d k) eqn:Hg; [by eauto|]. by apply dict_get_None in Hg.
    + by apply as_map_None, actual_key_None.
  - rewrite <- Hget. unfold pop, getitem. destruct (actual_key d key) as [k|] eqn:E; cbn; [|done].
    apply actual_key_Some in E as [Hk <-]. destruct (dict_get d k) as [v|] eqn:Hg; cbn; [|done].
    split; [done|]. split; [by apply del_well_keyed|by apply dict_del_map].
  - rewrite <- Hget. unfold setdefault, getitem. by destruct (actual_key d key).
  - unfold setdefault. destruct (actual_key d key) as [k|] eqn:E; cbn.
    + split; [done|]. rewrite <- Hget. apply actual_key_Some in E as E'. destruct E' as [Hk Hl].
      symmetry. apply insert_id. rewrite <- Hget. unfold getitem. rewrite E. cbn.
      destruct (dict_get d k) eqn:Hg; [done|]. by apply dict_get_None in Hg.
    + apply actual_key_None in E. rewrite as_map_None by done. cbn.
      assert (well_keyed (dict_set d key value)) as Hs.
      { pose proof (setitem_well_keyed d key value Hnd) as Hs. unfold setitem in Hs.
        destruct (actual_key d key) as [k|] eqn:E'; [|done]. apply actual_key_Some in E' as [Hk Hl].
        destruct E. rewrite <- Hl. by apply names_keys. }
      split; [done|by apply dict_set_map].
  - by apply update_map.
  - apply (update_map [] items). constructor.
Qed.

(** [|=] is [dict]'s own: it writes a second entry beside the name's. *)
Lemma ior_shadows (v v' : A) :
  let d := of_items [(u "X-Signature", v)] in
  well_keyed d /\ ~ well_keyed (ior d [(u "x-signature", v')])
  /\ getitem (ior d [(u "x-signature", v')]) (u "X-Signature") = Some v
  /\ getitem (setitem d (u "x-signature") v') (u "X-Signature") = Some v'.
Proof.
  split_and!; [by vm_compute; apply NoDup_singleton| |reflexivity|reflexivity].
  intros Hn. vm_compute in Hn. apply NoDup_cons in Hn as [Hn _]. destruct Hn. by left.
Qed.
End Facts.

Example case_insensitive_refines_witness :
  let d := CaseInsensitiveDict.of_items [(u "X-Smallstack-Signature", 1); (u "Content-Type", 2)] in
  well_keyed d
  /\ CaseInsensitiveDict.getitem d (u "X-SmallStack-Signature") = Some 1.
Proof.
  assert (well_keyed
    (CaseInsensitiveDict.of_items [(u "X-Smallstack-Signature", 1); (u "Content-Type", 2)])) as Hw by by_compute.
  split; [exact Hw|].
  rewrite (proj1 (case_insensitive_refines _ (u "X-SmallStack-Signature") 0 [] Hw)).
  vm_compute. reflexivity.
Defined.
