(* ===== verification/WebhookHooks.v ===== *)
(** * apps/webhooks: endpoints and receivers, signatures and the plug-in seams

    models.py (the two configuration tables), the signing part of services.py,
    hooks.py, registry.py and context.py. A plug-in is a function that may
    raise ([None]). Which texts verify, and that a selector always resolves. *)
From S2P Require Import Prelude PyFloat PyStr Json PyLib.
Open Scope Z_scope.

(** ** models.py: the configuration *)

Inductive EndpointStatus := EP_SUCCESS | EP_FAILED | EP_RETRYING | EP_DEAD.

(** [WebhookEndpoint]; its filter is a JSON list as stored. *)
Record WebhookEndpoint := {
  ep_name : pystr;
  ep_target_url : pystr;
  ep_secret : pystr;
  ep_event_filter : list json;
  ep_headers : list (pystr * pystr);
  ep_enabled : bool;
  ep_is_paired : bool;
  ep_transform : pystr;
  ep_auth_scheme : pystr;
  ep_owner : option Z;
  ep_last_delivery_at : option Z;
  ep_last_status : option EndpointStatus;
  ep_total_deliveries : Z;
  ep_consecutive_failures : Z;
}.

#[global] Instance eta_endpoint : Eta WebhookEndpoint := fun e =>
  Build_WebhookEndpoint (ep_name e) (ep_target_url e) (ep_secret e) (ep_event_filter e) (ep_headers e) (ep_enabled e)
    (ep_is_paired e) (ep_transform e) (ep_auth_scheme e) (ep_owner e) (ep_last_delivery_at e) (ep_last_status e)
    (ep_total_deliveries e) (ep_consecutive_failures e).

(** [matches]: [any] stops at the first pattern that matches, and a pattern
    that is not text raises. *)
Fixpoint any_pattern (event_type : pystr) (pats : list json) : option bool :=
  match pats with
  | [] => Some false
  | JStr p :: pats' => if fnmatch event_type p then Some true else any_pattern event_type pats'
  | _ :: _ => None
  end.
Definition endpoint_matches (event_type : pystr) (e : WebhookEndpoint) : option bool :=
  any_pattern event_type (ep_event_filter e).

(** [WebhookReceiver] *)
Record WebhookReceiver := {
  rc_name : pystr;
  rc_slug : pystr;
  rc_handler : pystr;
  rc_secret : pystr;
  rc_signature_header : pystr;
  rc_require_signature : bool;
  rc_enabled : bool;
  rc_is_paired : bool;
  rc_verifier : pystr;
  rc_challenge : pystr;
  rc_ignore_origin : pystr;
  rc_owner : option Z;
  rc_last_received_at : option Z;
  rc_total_received : Z;
}.

#[global] Instance eta_receiver : Eta WebhookReceiver := fun r =>
  Build_WebhookReceiver (rc_name r) (rc_slug r) (rc_handler r) (rc_secret r) (rc_signature_header r)
    (rc_require_signature r) (rc_enabled r) (rc_is_paired r) (rc_verifier r) (rc_challenge r) (rc_ignore_origin r)
    (rc_owner r) (rc_last_received_at r) (rc_total_received r).

Definition handler_name (r : WebhookReceiver) : pystr :=
  if nonempty (rc_handler r) then rc_handler r else rc_slug r.

(** ** services.py: signatures *)

Definition SIGNATURE_HEADER : pystr := Eval vm_compute in u "X-SmallStack-Signature".
Definition EVENT_HEADER : pystr := Eval vm_compute in u "X-SmallStack-Event".
Definition DELIVERY_HEADER : pystr := Eval vm_compute in u "X-SmallStack-Delivery".
Definition EVENT_ID_HEADER : pystr := Eval vm_compute in u "X-SmallStack-Event-Id".
Definition ORIGIN_HEADER : pystr := Eval vm_compute in u "X-SmallStack-Origin".
Definition SHA256_PREFIX : pystr := Eval vm_compute in u "sha256=".

(** [sign] raises on a secret with lone surrogates. *)
Definition sign (secret : pystr) (body : list Z) : option pystr :=
  key ← utf8_encode secret; Some (hexdigest (hmac_sha256 key body)).

Definition signature_header_value (secret : pystr) (body : list Z) : option pystr :=
  d ← sign secret body; Some (SHA256_PREFIX ++ d).

Definition verify (secret : pystr) (body : list Z) (provided : pystr) : option bool :=
  if negb (nonempty provided) || negb (nonempty secret) then Some false
  else
    expected ← sign secret body;
    let candidate := if startswith provided SHA256_PREFIX then slice_from 7 provided else provided in
    compare_digest expected (strip candidate).

(** ** hooks.py: the seams *)

Record Transformed := { tf_body : list Z; tf_content_type : pystr }.
Record OutgoingRequest := {
  or_url : pystr; or_body : list Z; or_headers : list (pystr * pystr); or_event_type : pystr }.
Record AuthResult := { ar_headers : list (pystr * pystr); ar_params : list (pystr * pystr) }.

(** An inbound request as the view reads it, and an answer. *)
Record HttpRequest := {
  rq_headers : list (pystr * pystr);
  rq_body : list Z;
  rq_content_length : pystr;
  rq_remote_addr : option pystr;
}.
Record HttpResponse := { rs_status : Z; rs_body : json }.

Definition TransformHook : Type := json -> option Transformed.
Definition AuthHook : Type := OutgoingRequest -> WebhookEndpoint -> option AuthResult.
Definition VerifierHook : Type := list Z -> list (pystr * pystr) -> WebhookReceiver -> option bool.
(** [None]: no answer, or it raised. *)
Definition ChallengeHook : Type := HttpRequest -> WebhookReceiver -> option HttpResponse.

Record Registries := {
  TRANSFORMS : list (pystr * TransformHook);
  AUTHS : list (pystr * AuthHook);
  VERIFIERS : list (pystr * VerifierHook);
  CHALLENGES : list (pystr * ChallengeHook);
}.

#[global] Instance eta_registries : Eta Registries := fun r =>
  Build_Registries (TRANSFORMS r) (AUTHS r) (VERIFIERS r) (CHALLENGES r).

(** [_register]: the first registration of a name stays. *)
Definition register {F} (registry : list (pystr * F)) (name : pystr) (fn : F) : list (pystr * F) :=
  match dict_get registry name with
  | Some _ => registry
  | None => dict_set registry name fn
  end.

(** [_resolve]; [None] is the [KeyError] of a registry without its default. *)
Definition resolve {F} (registry : list (pystr * F)) (name default_ : pystr) : option F :=
  match dict_get registry name with
  | Some fn => Some fn
  | None => dict_get registry default_
  end.

Definition DEFAULT_TRANSFORM : pystr := Eval vm_compute in u "smallstack".
Definition DEFAULT_AUTH : pystr := Eval vm_compute in u "hmac".
Definition DEFAULT_VERIFIER : pystr := Eval vm_compute in u "hmac".

Definition or_default (name default_ : pystr) : pystr := if nonempty name then name else default_.

Definition get_transform (rs : Registries) (name : pystr) : option TransformHook :=
  resolve (TRANSFORMS rs) (or_default name DEFAULT_TRANSFORM) DEFAULT_TRANSFORM.
Definition get_auth (rs : Registries) (name : pystr) : option AuthHook :=
  resolve (AUTHS rs) (or_default name DEFAULT_AUTH) DEFAULT_AUTH.
Definition get_verifier (rs : Registries) (name : pystr) : option VerifierHook :=
  resolve (VERIFIERS rs) (or_default name DEFAULT_VERIFIER) DEFAULT_VERIFIER.
Definition get_challenge (rs : Registries) (name : pystr) : option ChallengeHook :=
  if nonempty name then dict_get (CHALLENGES rs) name else None.

Section Defaults.
(** [json.dumps(event, default=str).encode()] *)
Context (dumps : json -> list Z).

Definition default_transform : TransformHook := fun event =>
  Some {| tf_body := dumps event; tf_content_type := u "application/json" |}.

Definition default_auth : AuthHook := fun req endpoint =>
  value ← signature_header_value (ep_secret endpoint) (or_body req);
  Some {| ar_headers := [(SIGNATURE_HEADER, value)]; ar_params := [] |}.

(** [_default_verifier]: the first header of that name, whatever its case. *)
Definition provided_signature (headers : list (pystr * pystr)) (receiver : WebhookReceiver) : pystr :=
  match List.find (fun x => str_eqb (lower x.1) (lower (rc_signature_header receiver))) headers with
  | Some (_, value) => value
  | None => []
  end.
Definition default_verifier : VerifierHook := fun body headers receiver =>
  verify (rc_secret receiver) body (provided_signature headers receiver).

Definition register_default_hooks (rs : Registries) : Registries :=
  rs <| TRANSFORMS := register (TRANSFORMS rs) DEFAULT_TRANSFORM default_transform |>
     <| AUTHS := register (AUTHS rs) DEFAULT_AUTH default_auth |>
     <| VERIFIERS := register (VERIFIERS rs) DEFAULT_VERIFIER default_verifier |>.
End Defaults.

(** ** context.py *)

(** [suppress_webhooks] on the depth of a thread, around a body that may raise:
    the depth is restored either way. *)
Definition suppressed (depth : Z) : bool := 0 <? depth.
Definition suppress_enter (depth : Z) : Z := depth + 1.
Definition suppress_exit (depth : Z) : Z := Z.max 0 (depth - 1).

(** [urlsplit(...)], which raises on a malformed host: the parts the code
    reads. Reading the port raises when it is no number ([None]). *)
Record SplitResult := {
  sp_scheme : pystr; sp_netloc : pystr; sp_path : pystr; sp_query : pystr;
  sp_hostname : pystr; sp_port : option (option Z) }.

Record OriginSettings := { og_explicit : pystr; og_sites : list pystr; og_hostname : option pystr }.

Section Origin.
Context (urlsplit : pystr -> option SplitResult).

(** [current_origin]: the first of the three site settings that gives a host;
    it raises when one of them is malformed. *)
Fixpoint site_origin (sites : list pystr) : option (option pystr) :=
  match sites with
  | [] => Some None
  | [] :: sites' => site_origin sites'
  | site :: sites' =>
      parts ← urlsplit site;
      if nonempty (sp_scheme parts) && nonempty (sp_netloc parts)
      then Some (Some (sp_scheme parts ++ u "://" ++ sp_netloc parts))
      else if nonempty (sp_path parts) then Some (Some (strip_chars (u "/") (sp_path parts)))
      else site_origin sites'
  end.

Definition current_origin (st : OriginSettings) : option pystr :=
  if nonempty (og_explicit st) then Some (strip (og_explicit st))
  else
    site ← site_origin (og_sites st);
    Some (match site with Some o => o | None => default (u "smallstack") (og_hostname st) end).
End Origin.

Definition is_http_url (s : pystr) : bool := startswith s (u "http://") || startswith s (u "https://").

(** ** registry.py *)

(** A handler's effect, as its writes are, is the client's: [H]. *)
Record Handlers (H : Type) := { HANDLERS : list (pystr * H); CASCADE : list pystr }.
Arguments HANDLERS {H}.
Arguments CASCADE {H}.
Arguments Build_Handlers {H}.

Definition webhook_handler {H} (name : pystr) (cascade : bool) (fn : H) (hs : Handlers H) : Handlers H :=
  match dict_get (HANDLERS hs) name with
  | Some _ => hs
  | None => {| HANDLERS := dict_set (HANDLERS hs) name fn;
               CASCADE := if cascade then CASCADE hs ++ [name] else CASCADE hs |}
  end.
Definition get_handler {H} (name : pystr) (hs : Handlers H) : option H := dict_get (HANDLERS hs) name.
Definition handler_cascades {H} (name : pystr) (hs : Handlers H) : bool := bool_decide (name ∈ CASCADE hs).

(** * Signatures verify, seams resolve *)

#[local] Opaque u lower.

(** ** Signatures *)

Lemma hex_no_space d : Forall (fun c => is_hex c = true) d -> strip d = d.
Proof. intros Hd. apply strip_no_space. eapply Forall_impl; [exact Hd|]. intros c Hc. by apply is_hex_plain in Hc as (? & _). Qed.

Lemma hex_ascii d : Forall (fun c => is_hex c = true) d -> ascii d = true.
Proof.
  intros Hd. apply forallb_Forall. eapply Forall_impl; [exact Hd|]. intros c Hc.
  by apply is_hex_plain in Hc as (_ & ? & _).
Qed.

Lemma sign_hex secret body d : sign secret body = Some d -> Forall (fun c => is_hex c = true) d.
Proof. unfold sign. intros (key & _ & [= <-])%bind_Some. apply hexdigest_hex. Qed.

Lemma hex_bare d : Forall (fun c => is_hex c = true) d -> startswith d SHA256_PREFIX = false.
Proof.
  intros Hd. destruct d as [|c d]; [done|]. apply Forall_cons in Hd as [Hc _].
  apply is_hex_plain in Hc as (_ & _ & _ & Hc). unfold SHA256_PREFIX. cbn [startswith].
  destruct (Z.eqb_spec 115 c); [congruence|done].
Qed.

(** The digest a header value carries. *)
Definition carried (provided : pystr) : pystr :=
  strip (if startswith provided SHA256_PREFIX then slice_from 7 provided else provided).

Lemma carried_prefixed d : Forall (fun c => is_hex c = true) d -> carried (SHA256_PREFIX ++ d) = d.
Proof.
  intros Hd. unfold carried. rewrite startswith_app.
  change 7 with (zlen SHA256_PREFIX). rewrite slice_from_app. by apply hex_no_space.
Qed.

Lemma carried_bare d : Forall (fun c => is_hex c = true) d -> carried d = d.
Proof. intros Hd. unfold carried. rewrite hex_bare by done. by apply hex_no_space. Qed.

Lemma verify_iff secret body provided :
  verify secret body provided = Some true
  <-> secret <> [] /\ provided <> [] /\ sign secret body = Some (carried provided).
Proof.
  unfold verify. destruct (nonempty provided) eqn:Ep; cbn [negb orb].
  2: { destruct provided; [|done]. naive_solver. }
  destruct (nonempty secret) eqn:Es; cbn [negb orb].
  2: { destruct secret; [|done]. naive_solver. }
  apply nonempty_true in Ep, Es. fold (carried provided). split.
  - intros (d & Hd & Hc)%bind_Some. split_and!; [done..|]. rewrite Hd. unfold compare_digest in Hc.
    destruct (ascii d && ascii (carried provided)); [|done]. injection Hc as Hc.
    unfold str_eqb in Hc. apply bool_decide_eq_true in Hc. by subst.
  - intros (_ & _ & Hd). rewrite Hd. cbn [mbind option_bind]. apply sign_hex in Hd. unfold compare_digest, str_eqb.
    by rewrite hex_ascii, bool_decide_true.
Qed.

Lemma signature_accepted secret body value :
  secret <> [] -> signature_header_value secret body = Some value -> verify secret body value = Some true.
Proof.
  intros Hs (d & Hd & Hv)%bind_Some. apply (inj Some) in Hv as <-. apply verify_iff. split_and!; [done|done|].
  rewrite carried_prefixed; [done|by eapply sign_hex].
Qed.

(** A signature verifies exactly when the secret is not empty and the
    digest the header carries, bare or after "sha256=", is the HMAC of this
    body under this secret: what [signature_header_value] writes is accepted,
    the bare digest too, and no request verifies against an empty secret. *)
Theorem verify_spec secret body provided :
  (verify secret body provided = Some true
   <-> secret <> [] /\ provided <> [] /\ sign secret body = Some (carried provided))
  /\ (secret <> [] -> signature_header_value secret body = Some provided \/ sign secret body = Some provided ->
      provided <> [] -> verify secret body provided = Some true)
  /\ verify [] body provided = Some false.
Proof.
  split_and!; [apply verify_iff| |by unfold verify; destruct (nonempty provided)].
  intros Hs [Hv|Hd] Hp; [by apply signature_accepted|]. apply verify_iff. split_and!; [done..|].
  rewrite carried_bare; [done|by eapply sign_hex].
Qed.

(** ** Selectors *)

(** The registries as they grow: the defaults first, then what apps add. *)
Inductive grown (dumps : json -> list Z) : Registries -> Prop :=
| g_defaults : grown dumps (register_default_hooks dumps (Build_Registries [] [] [] []))
| g_transform rs name fn : grown dumps rs -> grown dumps (rs <| TRANSFORMS := register (TRANSFORMS rs) name fn |>)
| g_auth rs name fn : grown dumps rs -> grown dumps (rs <| AUTHS := register (AUTHS rs) name fn |>)
| g_verifier rs name fn : grown dumps rs -> grown dumps (rs <| VERIFIERS := register (VERIFIERS rs) name fn |>)
| g_challenge rs name fn : grown dumps rs -> grown dumps (rs <| CHALLENGES := register (CHALLENGES rs) name fn |>)
| g_again rs : grown dumps rs -> grown dumps (register_default_hooks dumps rs).

Lemma register_keeps {F} (registry : list (pystr * F)) name fn k f :
  dict_get registry k = Some f -> dict_get (register registry name fn) k = Some f.
Proof.
  intros Hk. unfold register. destruct (dict_get registry name) eqn:E; [done|].
  rewrite dict_get_set. case_decide; [congruence|done].
Qed.

Lemma grown_defaults dumps rs :
  grown dumps rs ->
  dict_get (TRANSFORMS rs) DEFAULT_TRANSFORM = Some (default_transform dumps)
  /\ dict_get (AUTHS rs) DEFAULT_AUTH = Some default_auth
  /\ dict_get (VERIFIERS rs) DEFAULT_VERIFIER = Some default_verifier.
Proof.
  induction 1 as [|rs name fn _ (A & B & C)|rs name fn _ (A & B & C)|rs name fn _ (A & B & C)|rs name fn _ (A & B & C)
                 |rs _ (A & B & C)]; [done|..]; cbn; split_and!; try done; by apply register_keeps.
Qed.

Lemma resolve_some {F} (registry : list (pystr * F)) name d f :
  dict_get registry d = Some f -> is_Some (resolve registry name d).
Proof. intros Hd. unfold resolve. destruct (dict_get registry name); [by eauto|]. rewrite Hd. by eauto. Qed.

Lemma get_default dumps rs :
  grown dumps rs ->
  get_transform rs DEFAULT_TRANSFORM = Some (default_transform dumps) /\ get_auth rs DEFAULT_AUTH = Some default_auth
  /\ get_verifier rs DEFAULT_VERIFIER = Some default_verifier.
Proof.
  intros (A & B & C)%grown_defaults. unfold get_transform, get_auth, get_verifier.
  change (or_default DEFAULT_TRANSFORM DEFAULT_TRANSFORM) with DEFAULT_TRANSFORM.
  change (or_default DEFAULT_AUTH DEFAULT_AUTH) with DEFAULT_AUTH.
  change (or_default DEFAULT_VERIFIER DEFAULT_VERIFIER) with DEFAULT_VERIFIER. unfold resolve. by rewrite A, B, C.
Qed.

(** Whatever the apps register, a selector resolves: blank and the built-in
    names to the built-in hook, an unknown name to it as well. *)
Theorem selectors_resolve dumps rs name :
  grown dumps rs ->
  is_Some (get_transform rs name) /\ is_Some (get_auth rs name) /\ is_Some (get_verifier rs name)
  /\ (name = [] \/ name = DEFAULT_VERIFIER \/ dict_get (VERIFIERS rs) name = None ->
      get_verifier rs name = Some default_verifier).
Proof.
  intros (A & B & C)%grown_defaults. unfold get_transform, get_auth, get_verifier.
  split_and!; [by eapply resolve_some..|].
  unfold or_default, resolve. intros Hn. destruct (nonempty name) eqn:E.
  - destruct Hn as [->|[->|Hn]]; [done|by rewrite C|by rewrite Hn, C].
  - by rewrite C.
Qed.
