(* ===== verification/Webhooks.v ===== *)
(** * apps/webhooks: deliveries, retries, the inbound view and pairing

    services.py, tasks.py, signals.py and [incoming_webhook] of views.py over
    the four tables and the task queue. A delivery is cut where the code talks
    to the network, and the tick between its query and its claims, so that
    WebhooksFacts can interleave them. *)
From stdpp Require Import sorting.
From S2P Require Import Prelude PyFloat PyStr Json PyLib CaseInsensitiveDict Schedules WebhookHooks.
Open Scope Z_scope.

(** ** Tables *)

Inductive DeliveryStatus := DL_PENDING | DL_RETRYING | DL_SUCCESS | DL_FAILED | DL_DEAD.
#[global] Instance delivery_status_eq_dec : EqDecision DeliveryStatus.
Proof. solve_decision. Defined.

(** [WebhookDelivery] *)
Record WebhookDelivery := {
  dl_endpoint : Z;
  dl_event_type : pystr;
  dl_payload : json;
  dl_event_id : option pystr;
  dl_status : DeliveryStatus;
  dl_attempt : Z;
  dl_max_attempts : Z;
  dl_next_attempt_at : option Z;
  dl_response_status : option Z;
  dl_response_ms : option Z;
  dl_error : pystr;
  dl_created_at : Z;
}.

#[global] Instance eta_delivery : Eta WebhookDelivery := fun d =>
  Build_WebhookDelivery (dl_endpoint d) (dl_event_type d) (dl_payload d) (dl_event_id d) (dl_status d) (dl_attempt d)
    (dl_max_attempts d) (dl_next_attempt_at d) (dl_response_status d) (dl_response_ms d) (dl_error d) (dl_created_at d).

(** [is_terminal] *)
Definition is_terminal (d : WebhookDelivery) : bool :=
  match dl_status d with DL_SUCCESS | DL_DEAD => true | _ => false end.

Inductive ReceiptStatus := RT_ACCEPTED | RT_REJECTED | RT_PROCESSED | RT_FAILED | RT_IGNORED.
#[global] Instance receipt_status_eq_dec : EqDecision ReceiptStatus.
Proof. solve_decision. Defined.

(** [WebhookReceipt] *)
Record WebhookReceipt := {
  rt_receiver : Z;
  rt_received_at : Z;
  rt_source_ip : option pystr;
  rt_headers : list (pystr * pystr);
  rt_body : pystr;
  rt_verified : bool;
  rt_origin : pystr;
  rt_status : ReceiptStatus;
  rt_error : pystr;
}.

#[global] Instance eta_receipt : Eta WebhookReceipt := fun r =>
  Build_WebhookReceipt (rt_receiver r) (rt_received_at r) (rt_source_ip r) (rt_headers r) (rt_body r) (rt_verified r)
    (rt_origin r) (rt_status r) (rt_error r).

(** What is enqueued: a delivery, an inbound dispatch, the mail about a dead
    delivery. *)
Inductive Job := Deliver (pk : Z) | Dispatch (pk : Z) | DeadMail (pk : Z).
#[global] Instance job_eq_dec : EqDecision Job.
Proof. solve_decision. Defined.

Record Hub := {
  endpoints : gmap Z WebhookEndpoint;
  deliveries : gmap Z WebhookDelivery;
  receivers : gmap Z WebhookReceiver;
  receipts : gmap Z WebhookReceipt;
  next_id : Z;
  jobs : list Job;
}.

#[global] Instance eta_hub : Eta Hub := fun s =>
  Build_Hub (endpoints s) (deliveries s) (receivers s) (receipts s) (next_id s) (jobs s).

(** One counter serves the four tables: only that a new key is new is used. *)
Definition insert_delivery (d : WebhookDelivery) (s : Hub) : Z * Hub :=
  (next_id s, s <| deliveries := <[next_id s := d]> (deliveries s) |> <| next_id := next_id s + 1 |>).
Definition insert_receipt (r : WebhookReceipt) (s : Hub) : Z * Hub :=
  (next_id s, s <| receipts := <[next_id s := r]> (receipts s) |> <| next_id := next_id s + 1 |>).
Definition update_endpoint (pk : Z) (f : WebhookEndpoint -> WebhookEndpoint) (s : Hub) : Hub :=
  s <| endpoints := alter f pk (endpoints s) |>.
Definition update_receiver (pk : Z) (f : WebhookReceiver -> WebhookReceiver) (s : Hub) : Hub :=
  s <| receivers := alter f pk (receivers s) |>.

(** [.enqueue(...)] inside a [try]: a job the broker refuses is only logged. *)
Definition enqueue (broker : Job -> bool) (j : Job) (s : Hub) : Hub :=
  if broker j then s <| jobs := jobs s ++ [j] |> else s.

(** ** Settings and the library *)

Record WebhookSettings := {
  wh_enabled : bool;
  wh_outbound : bool;
  wh_inbound : bool;
  wh_max_attempts : Z;
  wh_backoff : list Z;
  wh_max_backoff : Z;
  wh_allowlist : list pystr;
  wh_allow_private : bool;
  wh_auto_disable_after : Z;
  wh_failure_emails : bool;
  wh_inbound_max_bytes : Z;
  wh_rejected_per_minute : Z;
  wh_origin : OriginSettings;
}.

(** [ipaddress]: the flags of an address, and for IPv6 those of the IPv4
    address it maps. *)
Record AddrFlags := {
  is_private : bool; is_loopback : bool; is_link_local : bool;
  is_reserved : bool; is_multicast : bool; is_unspecified : bool }.
Inductive IPAddress := IPv4 (f : AddrFlags) | IPv6 (ipv4_mapped : option AddrFlags) (f : AddrFlags).

(** [getaddrinfo]: its answers, an [OSError], or another exception. *)
Inductive Lookup := Addresses (l : list pystr) | Unresolvable | LookupRaises.

Class WebLib := {
  urlsplit : pystr -> option SplitResult;
  (** [urlunsplit(urlsplit(url)._replace(query=...))] and [urlencode] *)
  with_query : pystr -> pystr -> pystr;
  urlencode : list (pystr * pystr) -> pystr;
  getaddrinfo : pystr -> Z -> Lookup;
  ip_address : pystr -> option IPAddress;
  repr : pystr -> pystr;
  (** [parsedate_to_datetime], in UTC; [None] when it raises. *)
  parsedate : pystr -> option Z;
  (** [json.dumps], as text. *)
  dumps : json -> pystr;
  decode_replace : list Z -> pystr;
}.

Section Webhooks.
Context `{WebLib} (settings : WebhookSettings) (hooks : Registries).

Definition our_origin : option pystr := current_origin urlsplit (wh_origin settings).

(** ** services.py: the guard on targets *)

Definition flags_blocked (f : AddrFlags) : bool :=
  is_private f || is_loopback f || is_link_local f || is_reserved f || is_multicast f || is_unspecified f.

Definition ip_is_blocked (ip : pystr) : bool :=
  match ip_address (default [] (head (split_char 37 ip))) with
  | None => false
  | Some (IPv6 (Some mapped) _) => flags_blocked mapped
  | Some (IPv4 f) | Some (IPv6 None f) => flags_blocked f
  end.

Definition in_allowlist (host : pystr) : bool :=
  existsb (fun a => str_eqb (lower host) a || endswith (lower host) (u "." ++ a)) (wh_allowlist settings).

(** [url_is_allowed]: the verdict and its reason, or an exception. *)
Definition url_is_allowed (url : pystr) : option (bool * pystr) :=
  parts ← urlsplit url;
  if negb (str_eqb (sp_scheme parts) (u "http") || str_eqb (sp_scheme parts) (u "https"))
  then Some (false, u "URL must be http or https.")
  else
    let host := sp_hostname parts in
    if negb (nonempty host) then Some (false, u "URL has no host.")
    else if match wh_allowlist settings with [] => false | _ => negb (in_allowlist host) end
    then Some (false, u "Host " ++ repr host ++ u " is not in SMALLSTACK_WEBHOOK_ALLOWLIST.")
    else if wh_allow_private settings then Some (true, [])
    else
      port ← sp_port parts;
      let port := match port with
                  | Some p => if p =? 0 then None else Some p
                  | None => None
                  end in
      match getaddrinfo host (default (if str_eqb (sp_scheme parts) (u "https") then 443 else 80) port) with
      | LookupRaises => None
      | Unresolvable => Some (true, [])
      | Addresses l =>
          Some (match List.find ip_is_blocked l with
                | Some ip => (false, u "Host " ++ repr host ++ u " resolves to a private/loopback address (" ++ ip
                    ++ u "). Set SMALLSTACK_WEBHOOK_ALLOW_PRIVATE=true to allow (dev only).")
                | None => (true, [])
                end)
      end.

(** ** services.py: fan-out *)

Definition new_delivery (endpoint : Z) (event_type : pystr) (payload : json) (event_id : option pystr) (max_attempts now : Z)
    : WebhookDelivery :=
  {| dl_endpoint := endpoint; dl_event_type := event_type; dl_payload := payload; dl_event_id := event_id;
     dl_status := DL_PENDING; dl_attempt := 0; dl_max_attempts := max_attempts; dl_next_attempt_at := None;
     dl_response_status := None; dl_response_ms := None; dl_error := []; dl_created_at := now |}.

(** A row created and its task enqueued. *)
Definition send_new (broker : Job -> bool) (d : WebhookDelivery) (s : Hub) : Z * Hub :=
  let '(pk, s1) := insert_delivery d s in (pk, enqueue broker (Deliver pk) s1).

(** The table's own order: by name, then by key. *)
Definition by_name (x y : Z * WebhookEndpoint) : Prop :=
  str_ltb (ep_name x.2) (ep_name y.2) = true \/ (ep_name x.2 = ep_name y.2 /\ x.1 <= y.1).
#[global] Instance by_name_dec x y : Decision (by_name x y).
Proof. unfold by_name. apply _. Defined.

Definition enabled_endpoints (s : Hub) : list (Z * WebhookEndpoint) :=
  merge_sort by_name (filter (fun x => ep_enabled x.2 = true) (map_to_list (endpoints s))).

Section Broker.
Context (broker : Job -> bool).

(** The loop: an exception ends it, and what was created stays. *)
Fixpoint fan_loop (event_type : pystr) (payload : json) (event_id : option pystr) (now : Z)
    (eps : list (Z * WebhookEndpoint)) (created : Z) (s : Hub) : Z * Hub :=
  match eps with
  | [] => (created, s)
  | (pk, ep) :: eps' =>
      match endpoint_matches event_type ep with
      | None => (created, s)
      | Some false => fan_loop event_type payload event_id now eps' created s
      | Some true =>
          let s1 := (send_new broker (new_delivery pk event_type payload event_id (wh_max_attempts settings) now) s).2 in
          fan_loop event_type payload event_id now eps' (created + 1) s1
      end
  end.

Definition fan_out (event_type : pystr) (payload : json) (event_id : option pystr) (now : Z) (s : Hub) : Z * Hub :=
  if negb (wh_enabled settings) then (0, s)
  else if negb (wh_outbound settings) then (0, s)
  else fan_loop event_type payload event_id now (enabled_endpoints s) 0 s.

(** ** services.py: backoff and the tick *)

Definition DEFAULT_BACKOFF : list Z := [60; 300; 1800; 7200; 21600].

Definition backoff_seconds (attempt : Z) : Z :=
  let schedule := match wh_backoff settings with [] => DEFAULT_BACKOFF | l => l end in
  let idx := Z.max 0 (Z.min (attempt - 1) (zlen schedule - 1)) in
  default 0 (schedule !! Z.to_nat idx).

Definition clamp_backoff (seconds : Z) : Z := Z.max 0 (Z.min seconds (wh_max_backoff settings)).

(** [parse_retry_after]: [int] raises on the superscripts [isdigit] lets
    through, and past 4300 digits. *)
Definition INT_MAX_STR_DIGITS : Z := 4300.
Definition parse_retry_after (value : option pystr) (now : Z) : option (option Z) :=
  match value with
  | None | Some [] => Some None
  | Some value =>
      let value := strip value in
      if isdigit value then
        if INT_MAX_STR_DIGITS <? zlen value then None
        else match digits value with Some n => Some (Some n) | None => None end
      else
        Some (match parsedate value with
              | None => None
              | Some when => Some (Z.max 0 (default 0 (num_trunc (total_seconds (when - now)))))
              end)
  end.

Definition next_first (x y : Z * Z) : Prop := x.2 <= y.2.
#[global] Instance next_first_dec x y : Decision (next_first x y).
Proof. unfold next_first. apply _. Defined.

(** The tick's query: the key and the cursor of every row that is due. *)
Definition due_row (now : Z) (x : Z * WebhookDelivery) : option (Z * Z) :=
  match dl_status x.2, dl_next_attempt_at x.2 with
  | DL_RETRYING, Some t => if t <=? now then Some (x.1, t) else None
  | _, _ => None
  end.
Definition due_deliveries (now : Z) (limit : nat) (s : Hub) : list (Z * Z) :=
  take limit (merge_sort next_first (omap (due_row now) (map_to_list (deliveries s)))).

(** The conditional UPDATE of one of them, and its task. *)
Definition claim_delivery (x : Z * Z) (s : Hub) : bool * Hub :=
  match deliveries s !! x.1 with
  | Some d =>
      if decide (dl_next_attempt_at d = Some x.2)
      then (true, s <| deliveries := <[x.1 := d <| dl_status := DL_PENDING |> <| dl_next_attempt_at := None |>]> (deliveries s) |>)
      else (false, s)
  | None => (false, s)
  end.
Definition claim_due (x : Z * Z) (s : Hub) : bool * Hub :=
  match claim_delivery x s with
  | (true, s1) => (true, enqueue broker (Deliver x.1) s1)
  | (false, s1) => (false, s1)
  end.

Fixpoint claim_each (due : list (Z * Z)) (claimed : Z) (s : Hub) : Z * Hub :=
  match due with
  | [] => (claimed, s)
  | x :: due' => let '(won, s1) := claim_due x s in claim_each due' (if won then claimed + 1 else claimed) s1
  end.

Definition run_due_deliveries (now : Z) (limit : nat) (s : Hub) : Z * Hub :=
  if negb (wh_enabled settings) then (0, s) else claim_each (due_deliveries now limit s) 0 s.

(** ** services.py: replay *)

Definition replay_of (d : WebhookDelivery) (now : Z) : WebhookDelivery :=
  new_delivery (dl_endpoint d) (dl_event_type d) (dl_payload d) (dl_event_id d) (dl_max_attempts d) now.
Definition replay_delivery (d : WebhookDelivery) (now : Z) (s : Hub) : Z * Hub := send_new broker (replay_of d now) s.

Definition created_first (x y : Z * WebhookDelivery) : Prop := dl_created_at x.2 <= dl_created_at y.2.
#[global] Instance created_first_dec x y : Decision (created_first x y).
Proof. unfold created_first. apply _. Defined.

Definition dead_letters (endpoint_id since : option Z) (limit : nat) (s : Hub) : list (Z * WebhookDelivery) :=
  let wanted (x : Z * WebhookDelivery) :=
    dl_status x.2 = DL_DEAD /\ match endpoint_id with Some e => dl_endpoint x.2 = e | None => True end
    /\ match since with Some t => t <= dl_created_at x.2 | None => True end in
  let wanted_dec x : Decision (wanted x) := ltac:(unfold wanted; destruct endpoint_id, since; apply _) in
  take limit (merge_sort created_first (filter wanted (map_to_list (deliveries s)))).

Fixpoint replay_each (l : list (Z * WebhookDelivery)) (now : Z) (s : Hub) : list Z * Hub :=
  match l with
  | [] => ([], s)
  | (_, d) :: l' =>
      let '(pk, s1) := replay_delivery d now s in
      let '(pks, s2) := replay_each l' now s1 in (pk :: pks, s2)
  end.

Definition replay_dead (endpoint_id since : option Z) (limit : nat) (now : Z) (s : Hub) : list Z * Hub :=
  replay_each (dead_letters endpoint_id since limit s) now s.
End Broker.

(** ** tasks.py: one delivery *)

(** What the task finds for its row. *)
Inductive Found := NotFound | AlreadyTerminal (status : DeliveryStatus) | ToSend (d : WebhookDelivery) (ep : WebhookEndpoint).

Definition load_delivery (pk : Z) (s : Hub) : Found :=
  match deliveries s !! pk with
  | None => NotFound
  | Some d =>
      match endpoints s !! dl_endpoint d with
      | None => NotFound
      | Some ep => if is_terminal d then AlreadyTerminal (dl_status d) else ToSend d ep
      end
  end.

(** Static headers, where no header of that very spelling is set. *)
Definition merge_static (headers static : list (pystr * pystr)) : list (pystr * pystr) :=
  foldl (fun h x => match dict_get h x.1 with Some _ => h | None => dict_set h x.1 x.2 end) headers static.

Record Wire := { wr_url : pystr; wr_headers : list (pystr * pystr); wr_body : list Z }.

(** The request of a delivery; a seam that raises ends the task. *)
Definition prepare (pk : Z) (d : WebhookDelivery) (ep : WebhookEndpoint) : option Wire :=
  transform ← get_transform hooks (ep_transform ep);
  transformed ← transform (dl_payload d);
  origin ← our_origin;
  let headers := [(u "Content-Type", tf_content_type transformed); (EVENT_HEADER, dl_event_type d);
                  (DELIVERY_HEADER, str_of_Z pk); (ORIGIN_HEADER, origin);
                  (u "User-Agent", u "SmallStack-Webhooks/1.0")] in
  let headers := match dl_event_id d with
                 | Some i => dict_set headers EVENT_ID_HEADER i
                 | None => headers
                 end in
  auth ← get_auth hooks (ep_auth_scheme ep);
  result ← auth {| or_url := ep_target_url ep; or_body := tf_body transformed; or_headers := headers;
                   or_event_type := dl_event_type d |} ep;
  let headers := dict_update headers (ar_headers result) in
  url ← match ar_params result with
        | [] => Some (ep_target_url ep)
        | params =>
            parts ← urlsplit (ep_target_url ep);
            Some (with_query (ep_target_url ep)
              (join (u "&") (List.filter nonempty [sp_query parts; urlencode params])))
        end;
  Some {| wr_url := url; wr_headers := merge_static headers (ep_headers ep); wr_body := tf_body transformed |}.

(** [urllib.request.Request] keys its headers by [key.capitalize()]. *)
Definition capitalize (k : pystr) : pystr := match k with [] => [] | c :: k' => upper_char c ++ lower k' end.
Definition wire_headers (headers : list (pystr * pystr)) : list (pystr * pystr) :=
  foldl (fun h x => dict_set h (capitalize x.1) x.2) [] headers.

(** What the network does with the request: whether an environment proxy is
    used, the address the socket is connected to, and the answer. *)
Inductive Answer := Status (code : Z) (retry_after : option pystr) | Broken (error : pystr).
Inductive Connection := Refused (error : pystr) | Connected (peer : pystr) (answer : Answer).
Record Net := { nt_proxied : bool; nt_connection : Connection }.

(** The end of a request: whether its bytes left for the peer, and what the
    task goes on to record, unless it raised. *)
Record Outcome := { oc_code : option Z; oc_error : pystr; oc_retry_after : option Z }.
Record Posted := { ps_sent : bool; ps_outcome : option Outcome }.

Definition failed_outcome (error : pystr) : Outcome := {| oc_code := None; oc_error := error; oc_retry_after := None |}.

Definition peer_allowed (peer : pystr) : bool := wh_allow_private settings || negb (ip_is_blocked peer).

(** [_open] through the guarded opener, and the [except] clauses around it:
    only an error status has its [Retry-After] read, in a handler, where an
    exception is not caught. *)
Definition open_guarded (net : Net) (now : Z) : Posted :=
  match nt_connection net with
  | Refused error => {| ps_sent := false; ps_outcome := Some (failed_outcome error) |}
  | Connected peer answer =>
      if negb (nt_proxied net) && negb (peer_allowed peer)
      then {| ps_sent := false;
              ps_outcome := Some (failed_outcome (u "blocked by SSRF guard: connected peer " ++ peer
                                                    ++ u " is a private/loopback address")) |}
      else
        {| ps_sent := true;
           ps_outcome :=
             match answer with
             | Broken error => Some (failed_outcome error)
             | Status code header =>
                 if ((code =? 429) || (code =? 503))%Z then
                   retry ← parse_retry_after header now;
                   Some {| oc_code := Some code; oc_error := []; oc_retry_after := retry |}
                 else Some {| oc_code := Some code; oc_error := []; oc_retry_after := None |}
             end |}
  end.

Definition nothing_posted : Posted := {| ps_sent := false; ps_outcome := None |}.

Definition post (w : Wire) (net : Net) (now : Z) : Posted :=
  match url_is_allowed (wr_url w) with
  | None => nothing_posted
  | Some (false, reason) =>
      {| ps_sent := false; ps_outcome := Some (failed_outcome (u "blocked by SSRF guard: " ++ reason)) |}
  | Some (true, _) => open_guarded net now
  end.

Definition succeeded (o : Outcome) : bool :=
  match oc_code o with Some c => (200 <=? c) && (c <? 300) | None => false end.

(** [_bump_endpoint] *)
Definition bump_endpoint (pk : Z) (ok dead : bool) (now : Z) (s : Hub) : Hub :=
  let rolled f := update_endpoint pk (fun e => f (e <| ep_last_delivery_at := Some now |>
                                             <| ep_total_deliveries := ep_total_deliveries e + 1 |>)) s in
  if ok then rolled (fun e => e <| ep_last_status := Some EP_SUCCESS |> <| ep_consecutive_failures := 0 |>)
  else
    let s1 := rolled (fun e => e <| ep_last_status := Some (if dead then EP_DEAD else EP_RETRYING) |>
                                 <| ep_consecutive_failures := ep_consecutive_failures e + 1 |>) in
    if wh_auto_disable_after settings =? 0 then s1
    else match endpoints s1 !! pk with
         | Some e =>
             if (wh_auto_disable_after settings <=? ep_consecutive_failures e) && ep_enabled e
             then update_endpoint pk (fun e => e <| ep_enabled := false |>) s1
             else s1
         | None => s1
         end.

(** What [_record_attempt] makes of the row: its status and its cursor. *)
Inductive Fate := Delivered | Dead | RetryAt (t : Z).

Definition fate (d : WebhookDelivery) (attempt : Z) (o : Outcome) (now : Z) : option Fate :=
  if succeeded o then Some Delivered
  else if dl_max_attempts d <=? attempt then Some Dead
  else
    let wait := match oc_retry_after o with
                | Some r => clamp_backoff r
                | None => backoff_seconds attempt
                end in
    match dt_add now (wait * SECOND) with Ok t => Some (RetryAt t) | Err _ => None end.

Definition ERROR_MAX : Z := 2000.

(** The seven fields saved, on the row as it is. *)
Definition write_attempt (attempt ms : Z) (o : Outcome) (f : Fate) (d : WebhookDelivery) : WebhookDelivery :=
  d <| dl_attempt := attempt |> <| dl_response_status := oc_code o |> <| dl_response_ms := Some ms |>
    <| dl_error := slice_to ERROR_MAX (oc_error o) |>
    <| dl_status := match f with Delivered => DL_SUCCESS | Dead => DL_DEAD | RetryAt _ => DL_RETRYING end |>
    <| dl_next_attempt_at := match f with RetryAt t => Some t | _ => None end |>.

Section Tasks.
Context (broker : Job -> bool).

(** [_record_attempt] from the object [d]; saving a row that is gone raises. *)
Definition record_attempt (pk : Z) (d : WebhookDelivery) (attempt ms : Z) (o : Outcome) (now : Z) (s : Hub) : option Hub :=
  f ← fate d attempt o now;
  row ← deliveries s !! pk;
  let s1 := s <| deliveries := <[pk := write_attempt attempt ms o f row]> (deliveries s) |> in
  Some (match f with
        | Delivered => bump_endpoint (dl_endpoint d) true false now s1
        | Dead =>
            let s2 := bump_endpoint (dl_endpoint d) false true now s1 in
            if wh_failure_emails settings then enqueue broker (DeadMail pk) s2 else s2
        | RetryAt _ => bump_endpoint (dl_endpoint d) false false now s1
        end).

Inductive TaskReturn :=
| TR_NotFound
| TR_Skipped (status : DeliveryStatus)
| TR_Attempted (attempt : Z) (code : option Z) (success : bool)
| TR_Raised.

(** The task from the row and the endpoint it loaded. *)
Definition finish_delivery (pk : Z) (d : WebhookDelivery) (p : Posted) (ms now : Z) (s : Hub) : TaskReturn * Hub :=
  match ps_outcome p with
  | None => (TR_Raised, s)
  | Some o =>
      match record_attempt pk d (dl_attempt d + 1) ms o now s with
      | Some s1 => (TR_Attempted (dl_attempt d + 1) (oc_code o) (succeeded o), s1)
      | None => (TR_Raised, s)
      end
  end.

Definition send_delivery (pk : Z) (d : WebhookDelivery) (ep : WebhookEndpoint) (net : Net) (now : Z) : Posted :=
  match prepare pk d ep with Some w => post w net now | None => nothing_posted end.

(** [deliver_webhook] *)
Definition deliver_webhook (pk : Z) (net : Net) (ms now : Z) (s : Hub) : TaskReturn * Hub :=
  match load_delivery pk s with
  | NotFound => (TR_NotFound, s)
  | AlreadyTerminal status => (TR_Skipped status, s)
  | ToSend d ep => finish_delivery pk d (send_delivery pk d ep net now) ms now s
  end.

(** ** signals.py *)

(** What a registered view says of a model. *)
Record CrudView := {
  vw_label : pystr;
  vw_enable_webhooks : bool;
  vw_webhook_events : option (list pystr);
  vw_url_base : pystr;
}.

(** A save or a delete: the model, the action, the key, the record serialised
    and the instant as text, and the identifier drawn for the event. *)
Record ModelWrite := {
  mw_label : pystr; mw_action : pystr; mw_id : Z; mw_data : option json; mw_at : pystr; mw_event_id : pystr }.

Context (views : list CrudView).

(** [_view_for] and [_wants] *)
Definition view_for (label : pystr) : option CrudView :=
  match List.find (fun v => str_eqb (vw_label v) label) views with
  | Some v => if vw_enable_webhooks v then Some v else None
  | None => None
  end.
Definition wants (v : CrudView) (action : pystr) : bool :=
  match vw_webhook_events v with None => true | Some l => bool_decide (action ∈ l) end.

Definition resource_url (v : CrudView) (origin : pystr) (id : Z) : json :=
  if negb (nonempty (vw_url_base v)) then JNull
  else if negb (is_http_url origin) then JNull
  else JStr (rstrip_chars (u "/") origin ++ u "/smallstack/api/" ++ vw_url_base v ++ u "/" ++ str_of_Z id ++ u "/").

Definition event_type_of (w : ModelWrite) : pystr := mw_label w ++ u "." ++ mw_action w.

(** [_build_payload]; on a delete, or when serialising raised, only the key. *)
Definition build_payload (v : CrudView) (w : ModelWrite) (origin : pystr) : json :=
  let bare := JObj [(u "id", JInt (mw_id w))] in
  let data := if str_eqb (mw_action w) (u "deleted") then bare else default bare (mw_data w) in
  JObj [(u "event", JStr (event_type_of w)); (u "action", JStr (mw_action w)); (u "model", JStr (mw_label w));
        (u "id", JInt (mw_id w)); (u "occurred_at", JStr (mw_at w)); (u "data", data);
        (u "event_id", JStr (mw_event_id w)); (u "origin", JStr origin);
        (u "resource", JObj [(u "type", JStr (mw_label w)); (u "id", JInt (mw_id w));
                             (u "url", resource_url v origin (mw_id w))])].

(** [_fire], in a thread whose suppression is [depth] deep. *)
Definition fire (depth : Z) (w : ModelWrite) (now : Z) (s : Hub) : Hub :=
  if suppressed depth then s
  else match view_for (mw_label w) with
       | Some v =>
           if wants v (mw_action w) then
             match our_origin with
             | Some origin => (fan_out broker (event_type_of w) (build_payload v w origin) (Some (mw_event_id w)) now s).2
             | None => s
             end
           else s
       | None => s
       end.

Definition fire_all (depth : Z) (ws : list ModelWrite) (now : Z) (s : Hub) : Hub :=
  foldl (fun s w => fire depth w now s) s ws.

(** ** tasks.py: the dispatch of a receipt *)

(** A handler: the model writes it makes, and what it raised, as [repr]. *)
Definition Handler : Type := WebhookReceipt -> list ModelWrite * option pystr.

Definition set_receipt (pk : Z) (status : ReceiptStatus) (error : option pystr) (s : Hub) : Hub :=
  s <| receipts := alter (fun r => let r := r <| rt_status := status |> in
                                   match error with Some e => r <| rt_error := e |> | None => r end) pk (receipts s) |>.

(** [dispatch_incoming], in a thread whose suppression is [depth] deep: the
    depth it leaves, and the tables. *)
Definition dispatch_incoming (handlers : Handlers Handler) (pk depth now : Z) (s : Hub) : Z * Hub :=
  match receipts s !! pk with
  | None => (depth, s)
  | Some r =>
      match receivers s !! rt_receiver r with
      | None => (depth, s)
      | Some rc =>
          match get_handler (handler_name rc) handlers with
          | None => (depth, set_receipt pk RT_FAILED (Some (u "no handler registered for " ++ repr (handler_name rc))) s)
          | Some handler =>
              let cascades := handler_cascades (handler_name rc) handlers in
              let inside := if cascades then depth else suppress_enter depth in
              let '(writes, raised) := handler r in
              let s1 := fire_all inside writes now s in
              let outside := if cascades then inside else suppress_exit inside in
              (outside, match raised with
                        | Some e => set_receipt pk RT_FAILED (Some (slice_to ERROR_MAX e)) s1
                        | None => set_receipt pk RT_PROCESSED None s1
                        end)
          end
      end
  end.
End Tasks.

(** ** views.py: [incoming_webhook] *)

(** [request.headers.get]: names are matched whatever their case. *)
Definition request_header (name : pystr) (rq : HttpRequest) : option pystr :=
  snd <$> List.find (fun x => str_eqb (lower x.1) (lower name)) (rq_headers rq).

Definition json_error (status : Z) (text : pystr) : HttpResponse :=
  {| rs_status := status; rs_body := JObj [(u "error", JStr text)] |}.

Definition declared_length (rq : HttpRequest) : Z :=
  if nonempty (rq_content_length rq) then default 0 (parse_int (rq_content_length rq)) else 0.

Definition safe_headers (rq : HttpRequest) : list (pystr * pystr) :=
  List.filter (fun x => negb (str_eqb (lower x.1) (u "cookie") || str_eqb (lower x.1) (u "authorization"))) (rq_headers rq).

(** A verifier that raises does not verify. *)
Definition verified_by (rc : WebhookReceiver) (rq : HttpRequest) : bool :=
  match get_verifier hooks (rc_verifier rc) with
  | Some verifier => default false (verifier (rq_body rq) (CaseInsensitiveDict.of_items (rq_headers rq)) rc)
  | None => false
  end.

Definition recent_rejections (pk now : Z) (s : Hub) : Z :=
  zlen (filter (fun x => rt_receiver x.2 = pk /\ rt_status x.2 = RT_REJECTED /\ now - 60 * SECOND <= rt_received_at x.2)
          (map_to_list (receipts s))).

Definition BODY_KEPT : Z := 100000.
Definition EXCERPT : Z := 1024.
Definition ORIGIN_MAX : Z := 200.

Definition rejection (pk : Z) (rq : HttpRequest) (origin : pystr) (now : Z) : WebhookReceipt :=
  {| rt_receiver := pk; rt_received_at := now; rt_source_ip := rq_remote_addr rq; rt_headers := safe_headers rq;
     rt_body := decode_replace (slice_to EXCERPT (rq_body rq)); rt_verified := false;
     rt_origin := slice_to ORIGIN_MAX origin; rt_status := RT_REJECTED;
     rt_error := u "signature verification failed (body " ++ str_of_Z (zlen (rq_body rq)) ++ u " bytes, sha256 "
                 ++ hexdigest (sha256 (rq_body rq)) ++ u "; first 1 KB kept)" |}.

Definition received (pk : Z) (rq : HttpRequest) (origin : pystr) (verified : bool) (status : ReceiptStatus) (error : pystr)
    (now : Z) : WebhookReceipt :=
  {| rt_receiver := pk; rt_received_at := now; rt_source_ip := rq_remote_addr rq; rt_headers := safe_headers rq;
     rt_body := slice_to BODY_KEPT (decode_replace (rq_body rq)); rt_verified := verified; rt_origin := origin;
     rt_status := status; rt_error := error |}.

Definition count_received (pk now : Z) (s : Hub) : Hub :=
  update_receiver pk (fun r => r <| rc_last_received_at := Some now |> <| rc_total_received := rc_total_received r + 1 |>) s.

Definition receiver_at (slug : pystr) (s : Hub) : option (Z * WebhookReceiver) :=
  List.find (fun x => str_eqb (rc_slug x.2) slug && rc_enabled x.2) (map_to_list (receivers s)).

(** What follows the size checks. *)
Definition receive (broker : Job -> bool) (pk : Z) (rc : WebhookReceiver) (rq : HttpRequest) (now : Z) (s : Hub)
    : HttpResponse * Hub :=
  let origin := default [] (request_header ORIGIN_HEADER rq) in
  let verified := verified_by rc rq in
  if rc_require_signature rc && negb verified then
    (json_error 401 (u "invalid signature"),
     if recent_rejections pk now s <? wh_rejected_per_minute settings
     then (insert_receipt (rejection pk rq origin now) s).2 else s)
  else if nonempty (rc_ignore_origin rc) && nonempty origin && str_eqb origin (rc_ignore_origin rc) then
    ({| rs_status := 202; rs_body := JObj [(u "ignored", JBool true); (u "reason", JStr (u "self-origin"))] |},
     count_received pk now
       (insert_receipt (received pk rq origin verified RT_IGNORED (u "self-originated event dropped (ignore_origin)") now) s).2)
  else
    let '(receipt, s1) := insert_receipt (received pk rq origin verified RT_ACCEPTED [] now) s in
    ({| rs_status := 202; rs_body := JObj [(u "accepted", JBool true); (u "receipt", JInt receipt)] |},
     enqueue broker (Dispatch receipt) (count_received pk now s1)).

Definition incoming_webhook (broker : Job -> bool) (slug : pystr) (rq : HttpRequest) (now : Z) (s : Hub) : HttpResponse * Hub :=
  if negb (wh_enabled settings) || negb (wh_inbound settings) then (json_error 404 (u "inbound webhooks disabled"), s)
  else match receiver_at slug s with
       | None => (json_error 404 (u "no such receiver"), s)
       | Some (pk, rc) =>
           match (challenge ← get_challenge hooks (rc_challenge rc); challenge rq rc) with
           | Some answer => (answer, s)
           | None =>
               if wh_inbound_max_bytes settings <? declared_length rq then (json_error 413 (u "payload too large"), s)
               else if wh_inbound_max_bytes settings <? zlen (rq_body rq) then (json_error 413 (u "payload too large"), s)
               else receive broker pk rc rq now s
           end
       end.
End Webhooks.
