(* ===== verification/WebhookPairing.v ===== *)
(** * apps/webhooks: this side of a link between two installations

    [pairing_slug], [pair_smallstack] and [pair_verify] of services.py, the
    command [webhook pair] that runs them, and the route that inbound requests
    come in by. The endpoint is written before the receiver, so an error of the
    second leaves the first. *)
From S2P Require Import Prelude PyFloat PyStr Json PyLib Schedules WebhookHooks Webhooks.
Open Scope Z_scope.

(** [objects.create] on a slug already taken, [get] with two rows, a target
    that is no URL, and a target that is not encodable. *)
Inductive PairError := IntegrityError | MultipleObjectsReturned | ValueError | UnicodeEncodeError.

Record PairArgs := {
  pa_target_url : pystr;
  pa_events : list pystr;
  pa_name : option pystr;
  pa_slug : option pystr;
  pa_send_secret : option pystr;
  pa_recv_secret : option pystr;
  pa_secret : option pystr;
  pa_one_way : bool;
  pa_owner : option Z;
}.

Record PairResult := {
  pr_endpoint_id : Z;
  pr_receiver_id : option Z;
  pr_receiver_slug : option pystr;
  pr_inbound_url : option pystr;
  pr_inbound_url_absolute : option pystr;
  pr_send_secret : pystr;
  pr_recv_secret : pystr;
  pr_origin : pystr;
  pr_events : list pystr;
  pr_one_way : bool;
  pr_endpoint_created : bool;
  pr_mirror_command : pystr;
  pr_warnings : list pystr;
}.

(** [a or b] on texts that may be [None]. *)
Definition or_text (a b : option pystr) : option pystr :=
  match a with Some (_ :: _) => a | _ => b end.
Definition text_or (a : option pystr) (b : pystr) : pystr :=
  match a with Some (c :: s) => c :: s | _ => b end.

(** [pairing_slug] *)
Definition pairing_slug (target_url : pystr) : option pystr :=
  bs ← utf8_encode target_url; Some (u "paired-" ++ slice_to 8 (hexdigest (sha256 bs))).

Section Pairing.
Context `{WebLib} (settings : WebhookSettings).

Definition paired_endpoints (target : pystr) (s : Hub) : list (Z * WebhookEndpoint) :=
  filter (fun x => ep_target_url x.2 = target /\ ep_is_paired x.2 = true) (map_to_list (endpoints s)).
Definition receivers_at (slug : pystr) (paired : bool) (s : Hub) : list (Z * WebhookReceiver) :=
  filter (fun x => rc_slug x.2 = slug /\ rc_is_paired x.2 = paired) (map_to_list (receivers s)).

Definition events_of (a : PairArgs) : list pystr := match pa_events a with [] => [u "*"] | l => l end.
Definition base_name (a : PairArgs) : pystr := text_or (pa_name a) (u "SmallStack " ++ pa_target_url a).

(** The fields a pairing writes on its endpoint, new or not. *)
Definition paired_config (a : PairArgs) (secret : option pystr) (e : WebhookEndpoint) : WebhookEndpoint :=
  let e := e <| ep_name := base_name a ++ u " (out)" |> <| ep_event_filter := JStr <$> events_of a |>
             <| ep_transform := DEFAULT_TRANSFORM |> <| ep_auth_scheme := DEFAULT_AUTH |> <| ep_enabled := true |> in
  match secret with Some (c :: s) => e <| ep_secret := c :: s |> | _ => e end.

Definition new_paired_endpoint (a : PairArgs) (secret : pystr) : WebhookEndpoint :=
  {| ep_name := base_name a ++ u " (out)"; ep_target_url := pa_target_url a; ep_secret := secret;
     ep_event_filter := JStr <$> events_of a; ep_headers := []; ep_enabled := true; ep_is_paired := true;
     ep_transform := DEFAULT_TRANSFORM; ep_auth_scheme := DEFAULT_AUTH; ep_owner := pa_owner a;
     ep_last_delivery_at := None; ep_last_status := None; ep_total_deliveries := 0; ep_consecutive_failures := 0 |}.

(** The outbound half: the key, the endpoint, whether it is new. *)
Definition pair_endpoint (a : PairArgs) (fresh : pystr) (s : Hub) : result PairError (Z * WebhookEndpoint * bool * Hub) :=
  let send := or_text (pa_send_secret a) (pa_secret a) in
  match paired_endpoints (pa_target_url a) s with
  | [] =>
      let e := new_paired_endpoint a (text_or send fresh) in
      Ok (next_id s, e, true, s <| endpoints := <[next_id s := e]> (endpoints s) |> <| next_id := next_id s + 1 |>)
  | [(pk, e)] =>
      let e := paired_config a send e in
      Ok (pk, e, false, s <| endpoints := <[pk := e]> (endpoints s) |>)
  | _ => Err MultipleObjectsReturned
  end.

Definition paired_receiver (a : PairArgs) (origin : pystr) (secret : option pystr) (r : WebhookReceiver) : WebhookReceiver :=
  let r := r <| rc_name := base_name a ++ u " (in)" |> <| rc_verifier := DEFAULT_VERIFIER |>
             <| rc_require_signature := true |> <| rc_ignore_origin := origin |> <| rc_enabled := true |> in
  match secret with Some (c :: s) => r <| rc_secret := c :: s |> | _ => r end.

Definition new_paired_receiver (a : PairArgs) (origin slug secret : pystr) : WebhookReceiver :=
  {| rc_name := base_name a ++ u " (in)"; rc_slug := slug; rc_handler := []; rc_secret := secret;
     rc_signature_header := SIGNATURE_HEADER; rc_require_signature := true; rc_enabled := true; rc_is_paired := true;
     rc_verifier := DEFAULT_VERIFIER; rc_challenge := []; rc_ignore_origin := origin; rc_owner := pa_owner a;
     rc_last_received_at := None; rc_total_received := 0 |}.

(** The slug: a default one steps aside for a receiver made by hand. *)
Definition receiver_slug (a : PairArgs) (s : Hub) : option pystr :=
  base ← match pa_slug a with
         | Some (c :: r) => Some (c :: r)
         | _ => pairing_slug (pa_target_url a)
         end;
  Some (match pa_slug a, receivers_at base false s with
        | None, _ :: _ => if pa_one_way a then base else base ++ u "-p"
        | _, _ => base
        end).

Definition pair_receiver (a : PairArgs) (origin slug fresh : pystr) (s : Hub)
    : result PairError (Z * WebhookReceiver * Hub) :=
  let recv := or_text (pa_recv_secret a) (pa_secret a) in
  match receivers_at slug true s with
  | [] =>
      match receivers_at slug false s with
      | _ :: _ => Err IntegrityError
      | [] =>
          let r := new_paired_receiver a origin slug (text_or recv fresh) in
          Ok (next_id s, r, s <| receivers := <[next_id s := r]> (receivers s) |> <| next_id := next_id s + 1 |>)
      end
  | [(pk, r)] =>
      let r := paired_receiver a origin recv r in
      Ok (pk, r, s <| receivers := <[pk := r]> (receivers s) |>)
  | _ => Err MultipleObjectsReturned
  end.

Definition inbound_path (slug : pystr) : pystr := u "/webhooks/in/" ++ slug ++ u "/".
Definition inbound_absolute (origin slug : pystr) : pystr :=
  if is_http_url origin then rstrip_chars (u "/") origin ++ inbound_path slug else inbound_path slug.

Definition mirror_command (absolute recv send : pystr) (events : list pystr) : pystr :=
  u "sc webhook pair --target " ++ absolute ++ u " --send-secret " ++ recv ++ u " --recv-secret " ++ send
  ++ u " --events '" ++ dumps (JArr (JStr <$> events)) ++ u "'".

(** [pair_smallstack]; [fresh1] and [fresh2] are the secrets it generates. *)
Definition pair_smallstack (a : PairArgs) (fresh1 fresh2 : pystr) (s : Hub) : result PairError PairResult * Hub :=
  match our_origin settings with
  | None => (Err ValueError, s)
  | Some origin =>
      match receiver_slug a s with
      | None => (Err UnicodeEncodeError, s)
      | Some slug =>
          match pair_endpoint a fresh1 s with
          | Err e => (Err e, s)
          | Ok (pk, ep, created, s1) =>
              let halves :=
                if pa_one_way a
                then Ok (None, text_or (or_text (pa_recv_secret a) (pa_secret a)) fresh2, s1)
                else match pair_receiver a origin slug fresh2 s1 with
                     | Ok (rpk, r, s2) => Ok (Some rpk, rc_secret r, s2)
                     | Err e => Err e
                     end in
              match halves with
              | Err e => (Err e, s1)
              | Ok (rpk, recv, s2) =>
                  let absolute := inbound_absolute origin slug in
                  let two_way {T} (x : T) := if pa_one_way a then None else Some x in
                  match url_is_allowed settings (pa_target_url a) with
                  | None => (Err ValueError, s2)
                  | Some (ok, reason) =>
                      (Ok {| pr_endpoint_id := pk; pr_receiver_id := rpk; pr_receiver_slug := two_way slug;
                             pr_inbound_url := two_way (inbound_path slug); pr_inbound_url_absolute := two_way absolute;
                             pr_send_secret := ep_secret ep; pr_recv_secret := recv; pr_origin := origin;
                             pr_events := events_of a; pr_one_way := pa_one_way a; pr_endpoint_created := created;
                             pr_mirror_command := mirror_command absolute recv (ep_secret ep) (events_of a);
                             pr_warnings :=
                               if ok then []
                               else [u "Deliveries to " ++ pa_target_url a ++ u " will be BLOCKED before they are sent: " ++ reason] |},
                       s2)
                  end
              end
          end
      end
  end.

(** [pair_verify]: one attempt, never retried. *)
Definition pair_verify (broker : Job -> bool) (endpoint : Z) (at_ : pystr) (now : Z) (s : Hub) : Z * Hub :=
  send_new broker
    (new_delivery endpoint (u "webhooks.pair.verify")
       (JObj [(u "event", JStr (u "webhooks.pair.verify")); (u "action", JStr (u "verify")); (u "occurred_at", JStr at_);
              (u "data", JObj [(u "message", JStr (u "SmallStack pairing round-trip check."))])]) None 1 now) s.

(** *** config/urls.py: [webhooks/in/<slug:slug>/] *)

Definition is_slug_char (c : Z) : bool := is_ascii_upper c || is_ascii_lower c || is_decimal c || (c =? 45) || (c =? 95).
Definition inbound_base (origin : pystr) : pystr := rstrip_chars (u "/") origin ++ u "/webhooks/in/".

(** The slug that the installation at [origin] reads out of a URL, where the
    URL is one of its inbound route. *)
Definition inbound_slug (origin url : pystr) : option pystr :=
  if startswith url (inbound_base origin) then
    let tail := drop (length (inbound_base origin)) url in
    let slug := take (length tail - 1) tail in
    if str_eqb tail (slug ++ u "/") && nonempty slug && forallb is_slug_char slug then Some slug else None
  else None.

(** A request posted to a URL, where the installation serves it at all. *)
Definition arrives (hooks : Registries) (broker : Job -> bool) (url : pystr) (rq : HttpRequest) (now : Z) (s : Hub) :
    option (HttpResponse * Hub) :=
  origin ← our_origin settings;
  slug ← inbound_slug origin url;
  Some (incoming_webhook settings hooks broker slug rq now s).
End Pairing.

(** ** management/commands/webhook.py: [webhook pair] *)

(** The options of [add_arguments] that [_pair] reads. *)
Record PairOptions := {
  po_operand : option pystr;
  po_target : option pystr;
  po_events : option pystr;
  po_slug : option pystr;
  po_secret : option pystr;
  po_send_secret : option pystr;
  po_recv_secret : option pystr;
  po_one_way : bool;
}.
#[export] Instance eta_pair_options : Eta PairOptions := fun o =>
  Build_PairOptions (po_operand o) (po_target o) (po_events o) (po_slug o) (po_secret o) (po_send_secret o)
    (po_recv_secret o) (po_one_way o).
Definition no_options : PairOptions :=
  {| po_operand := None; po_target := None; po_events := None; po_slug := None; po_secret := None;
     po_send_secret := None; po_recv_secret := None; po_one_way := false |}.

(** The options that take a value. *)
Definition with_value (name v : pystr) (o : PairOptions) : option PairOptions :=
  if str_eqb name (u "--target") then Some (o <| po_target := Some v |>)
  else if str_eqb name (u "--events") then Some (o <| po_events := Some v |>)
  else if str_eqb name (u "--slug") then Some (o <| po_slug := Some v |>)
  else if str_eqb name (u "--secret") then Some (o <| po_secret := Some v |>)
  else if str_eqb name (u "--send-secret") then Some (o <| po_send_secret := Some v |>)
  else if str_eqb name (u "--recv-secret") then Some (o <| po_recv_secret := Some v |>)
  else None.

(** argparse takes a word that starts with a dash for an option. *)
Definition dashed (word : pystr) : bool := match word with 45 :: _ :: _ => true | _ => false end.

(** The words after the subcommand: [None] is argparse's error, or a spelling
    that is not modelled (an abbreviated option, [--option=value], a value with a
    dash in front that is a number or holds a space, an operand after the
    options). *)
Fixpoint parse_options (argv : list pystr) (o : PairOptions) : option PairOptions :=
  match argv with
  | [] => Some o
  | name :: rest =>
      if str_eqb name (u "--one-way") then parse_options rest (o <| po_one_way := true |>)
      else match rest with
           | v :: rest => if dashed v then None else o ← with_value name v o; parse_options rest o
           | [] => None
           end
  end.
Definition parse_pair (argv : list pystr) : option PairOptions :=
  match argv with
  | word :: rest => if dashed word then parse_options argv no_options else parse_options rest (no_options <| po_operand := Some word |>)
  | [] => Some no_options
  end.

(** [_pair]; [loads] is [json.loads]. [None] is [CommandError], or a pattern
    that is no text. *)
Definition pattern_text (j : json) : option pystr := match j with JStr s => Some s | _ => None end.
Definition pair_args (loads : pystr -> option json) (o : PairOptions) : option PairArgs :=
  match or_text (po_target o) (po_operand o) with
  | Some ((_ :: _) as target) =>
      events ← match po_events o with
               | Some ((_ :: _) as text) => match loads text with Some (JArr l) => mapM pattern_text l | _ => None end
               | _ => Some [u "*"]
               end;
      Some {| pa_target_url := target; pa_events := events; pa_name := None; pa_slug := po_slug o;
              pa_send_secret := po_send_secret o; pa_recv_secret := po_recv_secret o; pa_secret := po_secret o;
              pa_one_way := po_one_way o; pa_owner := None |}
  | _ => None
  end.

(** A line typed at a shell: the words the shell makes of it, and what [sc]
    hands on to [webhook pair]. *)
Definition run_line (shell : pystr -> option (list pystr)) (loads : pystr -> option json) (line : pystr) : option PairArgs :=
  words ← shell line;
  match words with
  | sc :: webhook :: verb :: rest =>
      if str_eqb sc (u "sc") && str_eqb webhook (u "webhook") && str_eqb verb (u "pair")
      then o ← parse_pair rest; pair_args loads o
      else None
  | _ => None
  end.
