(* ===== verification/WebhooksFacts.v ===== *)
(** * Webhooks: each attempt sent once, and never after the end

    Fan-outs, workers and ticks interleave between their statements: a worker
    between what it loaded and what it records, a tick between its query and
    its claims. The engine hands a queued job to one worker, once: the task has
    no retry policy and the default budget is one run. An operator who runs a
    failed job of the engine again by hand is not a step. *)
From stdpp Require Import sorting relations.
From S2P Require Import Prelude PyFloat PyStr Json PyLib Schedules WebhookHooks Webhooks.
Open Scope Z_scope.

#[local] Opaque u.
#[local] Arguments enqueue : simpl never.

Section World.
Context `{WebLib} (settings : WebhookSettings) (hooks : Registries).

(** ** The world *)

(** A worker that has sent, or failed to send, and has yet to record. *)
Record Flying := { fy_pk : Z; fy_row : WebhookDelivery; fy_posted : Posted }.

(** [ticks]: what the ticks have read as due; [posts]: the requests whose bytes
    left, with their attempt number. *)
Record World := { hub : Hub; flying : list Flying; ticks : list (Z * Z); posts : list (Z * Z) }.

Definition deliver_pk (j : Job) : option Z := match j with Deliver pk => Some pk | _ => None end.
Definition queued (s : Hub) : list Z := omap deliver_pk (jobs s).

(** Everything else the application does: it leaves the deliveries alone. *)
Definition elsewhere (s s' : Hub) : Prop :=
  deliveries s' = deliveries s /\ next_id s <= next_id s' /\ queued s' = queued s.

Definition logged (pk : Z) (d : WebhookDelivery) (p : Posted) : list (Z * Z) :=
  if ps_sent p then [(pk, dl_attempt d + 1)] else [].

Inductive step : World -> World -> Prop :=
| w_new s fl tk ps broker endpoint event_type payload event_id max_attempts now :
    step (Build_World s fl tk ps)
      (Build_World (send_new broker (new_delivery endpoint event_type payload event_id max_attempts now) s).2 fl tk ps)
| w_skip s fl tk ps pk js :
    jobs s ≡ₚ Deliver pk :: js -> (forall d ep, load_delivery pk s <> ToSend d ep) ->
    step (Build_World s fl tk ps) (Build_World (s <| jobs := js |>) fl tk ps)
| w_send s fl tk ps pk js d ep net now p :
    jobs s ≡ₚ Deliver pk :: js -> load_delivery pk s = ToSend d ep ->
    p = send_delivery settings hooks pk d ep net now ->
    step (Build_World s fl tk ps)
      (Build_World (s <| jobs := js |>) (Build_Flying pk d p :: fl) tk (ps ++ logged pk d p))
| w_record s fl fl' tk ps f broker ms now :
    fl ≡ₚ f :: fl' ->
    step (Build_World s fl tk ps)
      (Build_World (finish_delivery settings broker (fy_pk f) (fy_row f) (fy_posted f) ms now s).2 fl' tk ps)
| w_lost s fl fl' tk ps f : fl ≡ₚ f :: fl' -> step (Build_World s fl tk ps) (Build_World s fl' tk ps)
| w_tick s fl tk ps now limit :
    step (Build_World s fl tk ps) (Build_World s fl (due_deliveries now limit s ++ tk) ps)
| w_claim s fl tk ps broker x :
    x ∈ tk -> step (Build_World s fl tk ps) (Build_World (claim_due broker x s).2 fl tk ps)
| w_delete s fl tk ps pk :
    step (Build_World s fl tk ps) (Build_World (s <| deliveries := delete pk (deliveries s) |>) fl tk ps)
| w_elsewhere s s' fl tk ps :
    elsewhere s s' -> step (Build_World s fl tk ps) (Build_World s' fl tk ps).

Definition empty_hub : Hub := Build_Hub ∅ ∅ ∅ ∅ 1 [].
Definition start : World := Build_World empty_hub [] [] [].

Notation reachable := (rtc step start).

(** ** The invariant *)

(** What is outstanding: a queued job or a worker for it. *)
Definition outstanding (w : World) : list Z := queued (hub w) ++ (fy_pk <$> flying w).

Definition row_ok (d : WebhookDelivery) : Prop :=
  0 <= dl_attempt d
  /\ match dl_status d with
     | DL_RETRYING => is_Some (dl_next_attempt_at d) /\ dl_attempt d < dl_max_attempts d
     | DL_FAILED => False
     | _ => dl_next_attempt_at d = None
     end.

Definition may_send (d : WebhookDelivery) : Prop :=
  dl_status d = DL_PENDING /\ (dl_attempt d = 0 \/ dl_attempt d < dl_max_attempts d).

(** A request sent: recorded, or the last one of a delivery that has not come
    to an end, with nothing left to send it again. *)
Definition post_ok (s : Hub) (pk n : Z) (d : WebhookDelivery) : Prop :=
  1 <= n /\ n <= Z.max 1 (dl_max_attempts d)
  /\ (n <= dl_attempt d \/ (n = dl_attempt d + 1 /\ pk ∉ queued s /\ dl_next_attempt_at d = None /\ is_terminal d = false)).

Record inv (w : World) : Prop := {
  iv_rows : forall pk d, deliveries (hub w) !! pk = Some d -> pk < next_id (hub w) /\ row_ok d;
  iv_once : NoDup (outstanding w);
  iv_out : forall pk, pk ∈ outstanding w -> pk < next_id (hub w)
    /\ forall d, deliveries (hub w) !! pk = Some d -> may_send d;
  iv_flying : forall f d, f ∈ flying w -> deliveries (hub w) !! fy_pk f = Some d -> d = fy_row f;
  iv_posts_once : NoDup (posts w);
  iv_posts : forall pk n, (pk, n) ∈ posts w -> pk < next_id (hub w)
    /\ forall d, deliveries (hub w) !! pk = Some d -> post_ok (hub w) pk n d;
}.

(** ** What the operations do to the rows and the queue *)

Lemma queued_enqueue broker j s : queued (enqueue broker j s) = queued s ++ (if broker j then omap deliver_pk [j] else []).
Proof.
  unfold enqueue, queued. destruct (broker j); cbn; [by rewrite omap_app|by rewrite app_nil_r].
Qed.

Lemma enqueue_rows broker j s : deliveries (enqueue broker j s) = deliveries s /\ next_id (enqueue broker j s) = next_id s.
Proof. unfold enqueue. by destruct (broker j). Qed.

Lemma bump_elsewhere pk ok dead now s : elsewhere s (bump_endpoint settings pk ok dead now s).
Proof.
  unfold bump_endpoint, elsewhere. destruct ok; cbn; [split_and!; [done|lia|done]|].
  destruct (_ =? 0); [split_and!; [done|cbn; lia|done]|].
  destruct (_ !! pk); [|split_and!; [done|cbn; lia|done]].
  destruct (_ && _); split_and!; try done; cbn; lia.
Qed.

Lemma elsewhere_trans s1 s2 s3 : elsewhere s1 s2 -> elsewhere s2 s3 -> elsewhere s1 s3.
Proof. intros (A & B & C) (A' & B' & C'). split_and!; [congruence|lia|congruence]. Qed.

Lemma record_attempt_rows broker pk d attempt ms o now s s' :
  record_attempt settings broker pk d attempt ms o now s = Some s' ->
  exists f row, fate settings d attempt o now = Some f /\ deliveries s !! pk = Some row
    /\ elsewhere (s <| deliveries := <[pk := write_attempt attempt ms o f row]> (deliveries s) |>) s'.
Proof.
  unfold record_attempt. intros (f & Hf & Hr)%bind_Some. apply bind_Some in Hr as (row & Hrow & E).
  apply (inj Some) in E as <-. exists f, row. split_and!; [done..|].
  destruct f; try apply bump_elsewhere.
  destruct (wh_failure_emails settings); [|apply bump_elsewhere].
  eapply elsewhere_trans; [apply (bump_elsewhere (dl_endpoint d) false true now)|].
  pose proof (enqueue_rows broker (DeadMail pk)) as Hq. split_and!.
  - by apply Hq.
  - by rewrite (proj2 (Hq _)).
  - rewrite queued_enqueue. cbn. destruct (broker _); by rewrite app_nil_r.
Qed.

Lemma fate_row_ok d attempt ms o f now row :
  fate settings d attempt o now = Some f -> dl_max_attempts row = dl_max_attempts d -> 0 <= attempt ->
  row_ok (write_attempt attempt ms o f row).
Proof.
  unfold fate, row_ok. intros Hf Hmax Ha. cbn. split; [done|].
  destruct (succeeded o); [by injection Hf as <-|]. destruct (_ <=? attempt) eqn:E; [by injection Hf as <-|].
  destruct (dt_add now _); [|done]. injection Hf as <-. cbn. rewrite Hmax. bool_to_prop. split; [by eauto|lia].
Qed.

(** ** Lemmas on the invariant *)

Lemma elsewhere_inv s s' fl tk ps : elsewhere s s' -> inv (Build_World s fl tk ps) -> inv (Build_World s' fl tk ps).
Proof.
  intros (A & B & C) []. unfold outstanding, post_ok in *. split; unfold outstanding, post_ok; cbn in *; rewrite ?A, ?C; try done.
  - intros pk d Hd. destruct (iv_rows0 pk d Hd). split; [lia|done].
  - intros pk Hpk. destruct (iv_out0 pk Hpk). split; [lia|done].
  - intros pk n Hn. destruct (iv_posts0 pk n Hn). split; [lia|done].
Qed.

(** A worker leaves. *)
Lemma land s fl fl' tk ps f :
  fl ≡ₚ f :: fl' -> inv (Build_World s fl tk ps) ->
  inv (Build_World s fl' tk ps) /\ fy_pk f ∉ outstanding (Build_World s fl' tk ps)
  /\ fy_pk f < next_id s
  /\ (forall d, deliveries s !! fy_pk f = Some d -> d = fy_row f /\ may_send d).
Proof.
  intros Hp []. cbn in *.
  assert (outstanding (Build_World s fl tk ps) ≡ₚ fy_pk f :: outstanding (Build_World s fl' tk ps)) as Ho.
  { unfold outstanding. cbn. rewrite Hp. cbn. by rewrite <- Permutation_middle. }
  rewrite Ho in iv_once0. apply NoDup_cons in iv_once0 as [Hno Hnd].
  assert (forall pk, pk ∈ outstanding (Build_World s fl' tk ps) -> pk ∈ outstanding (Build_World s fl tk ps)) as Hsub.
  { intros pk Hpk. rewrite Ho. by right. }
  split_and!; [split; cbn; try done|done| |].
  - intros pk Hpk. by apply iv_out0, Hsub.
  - intros f' d Hf'. apply iv_flying0. rewrite Hp. by right.
  - apply iv_out0. rewrite Ho. by left.
  - intros d Hd. split; [apply iv_flying0; [rewrite Hp; by left|done]|].
    eapply iv_out0; [rewrite Ho; by left|done].
Qed.

(** A row nothing is outstanding for changes without losing its attempts. *)
Lemma rewrite_row s fl tk ps pk d d' :
  inv (Build_World s fl tk ps) -> deliveries s !! pk = Some d -> pk ∉ outstanding (Build_World s fl tk ps) ->
  row_ok d' -> dl_max_attempts d' = dl_max_attempts d ->
  dl_attempt d + 1 <= dl_attempt d' -> 
  inv (Build_World (s <| deliveries := <[pk := d']> (deliveries s) |>) fl tk ps).
Proof.
  intros [] Hd Hno Hok Hmax Hatt. cbn in *. split; cbn; try done.
  - intros k x. rewrite lookup_insert_Some. intros [[<- <-]|[_ Hx]]; [|by apply iv_rows0].
    split; [by eapply iv_rows0|done].
  - intros k Hk. split; [by apply iv_out0|]. intros x. rewrite lookup_insert_Some.
    intros [[<- _]|[_ Hx]]; [by destruct Hno|]. by eapply iv_out0.
  - intros f x Hf. rewrite lookup_insert_Some. intros [[E _]|[_ Hx]]; [|by apply iv_flying0].
    destruct Hno. rewrite E. unfold outstanding. apply elem_of_app. right. by apply list_elem_of_fmap_2.
  - intros k n Hn. split; [by eapply iv_posts0|]. intros x. rewrite lookup_insert_Some.
    intros [[<- <-]|[_ Hx]]; [|by eapply iv_posts0].
    destruct (proj2 (iv_posts0 _ _ Hn) _ Hd) as (H1 & H2 & H3). split_and!; [done|by rewrite Hmax|].
    left. destruct H3 as [?|(? & _)]; lia.
Qed.

(** A job leaves the queue. *)
Lemma take_job s fl tk ps pk js :
  jobs s ≡ₚ Deliver pk :: js -> inv (Build_World s fl tk ps) ->
  let s' := s <| jobs := js |> in
  inv (Build_World s' fl tk ps) /\ pk ∉ outstanding (Build_World s' fl tk ps) /\ pk < next_id s
  /\ forall d, deliveries s !! pk = Some d -> may_send d /\ forall n, (pk, n) ∈ ps -> n <= dl_attempt d.
Proof.
  intros Hp [] s'. cbn in *.
  assert (queued s ≡ₚ pk :: queued s') as Hq by (unfold queued, s'; cbn; by rewrite Hp).
  assert (outstanding (Build_World s fl tk ps) ≡ₚ pk :: outstanding (Build_World s' fl tk ps)) as Ho.
  { unfold outstanding. cbn. by rewrite Hq. }
  rewrite Ho in iv_once0. apply NoDup_cons in iv_once0 as [Hno Hnd].
  assert (forall k, k ∈ outstanding (Build_World s' fl tk ps) -> k ∈ outstanding (Build_World s fl tk ps)) as Hsub.
  { intros k Hk. rewrite Ho. by right. }
  split_and!; [split; cbn; try done|done| |].
  - intros k Hk. by apply iv_out0, Hsub.
  - intros k n Hn. destruct (iv_posts0 k n Hn) as [Hlt Hk]. split; [done|]. intros d Hd.
    destruct (Hk d Hd) as (A & B & [C|(C & D & E & F)]); (split_and!; [done|done|]); [by left|right].
    split_and!; [done| |done|done]. intros Hin. apply D. rewrite Hq. by right.
  - apply iv_out0. rewrite Ho. by left.
  - intros d Hd. split; [eapply iv_out0; [rewrite Ho; by left|done]|]. intros n Hn.
    destruct (proj2 (iv_posts0 _ _ Hn) _ Hd) as (_ & _ & [?|(_ & D & _)]); [done|].
    destruct D. rewrite Hq. by left.
Qed.

(** A worker takes off, its request sent or not. *)
Lemma take_off s fl tk ps pk d p :
  inv (Build_World s fl tk ps) -> deliveries s !! pk = Some d -> may_send d ->
  pk ∉ outstanding (Build_World s fl tk ps) -> (forall n, (pk, n) ∈ ps -> n <= dl_attempt d) ->
  inv (Build_World s (Build_Flying pk d p :: fl) tk (ps ++ logged pk d p)).
Proof.
  intros [] Hd Hms Hno Hps. cbn in *. destruct (iv_rows0 pk d Hd) as [Hlt Hok].
  assert (outstanding (Build_World s (Build_Flying pk d p :: fl) tk (ps ++ logged pk d p))
          ≡ₚ pk :: outstanding (Build_World s fl tk ps)) as Ho.
  { unfold outstanding. cbn. by rewrite <- Permutation_middle. }
  split; cbn; try done.
  - rewrite Ho. by constructor.
  - intros k. rewrite Ho. intros [->|Hk]%elem_of_cons; [|by apply iv_out0].
    split; [done|]. intros x Hx. by assert (x = d) as -> by congruence.
  - intros f x [->|Hf]%elem_of_cons; [cbn; congruence|by apply iv_flying0].
  - unfold logged. destruct (ps_sent p); [|by rewrite app_nil_r].
    apply NoDup_app. split_and!; [done| |apply NoDup_singleton].
    intros [k n] Hin [= -> ->]%list_elem_of_singleton. specialize (Hps _ Hin). lia.
  - intros k n [Hn|Hn]%elem_of_app; [by apply iv_posts0|].
    unfold logged in Hn. destruct (ps_sent p); [|by apply elem_of_nil in Hn].
    apply list_elem_of_singleton in Hn as [= -> ->]. split; [done|]. intros x Hx.
    assert (x = d) as -> by congruence. destruct Hok as [H0 Hok]. destruct Hms as [Hst Hms].
    rewrite Hst in Hok. split_and!; [lia|lia|right; split_and!; [done| |done|unfold is_terminal; by rewrite Hst]].
    intros Hin. apply Hno. unfold outstanding. apply elem_of_app. by left.
Qed.

Lemma send_new_inv s fl tk ps broker d :
  inv (Build_World s fl tk ps) -> dl_status d = DL_PENDING -> dl_attempt d = 0 -> dl_next_attempt_at d = None ->
  inv (Build_World (send_new broker d s).2 fl tk ps).
Proof.
  intros [] Hst Hatt Hnext. cbn in *.
  set (s1 := s <| deliveries := <[next_id s := d]> (deliveries s) |> <| next_id := next_id s + 1 |>).
  change (inv (Build_World (enqueue broker (Deliver (next_id s)) s1) fl tk ps)).
  destruct (enqueue_rows broker (Deliver (next_id s)) s1) as [Er En].
  pose proof (queued_enqueue broker (Deliver (next_id s)) s1) as Eq. change (queued s1) with (queued s) in Eq.
  set (s2 := enqueue broker (Deliver (next_id s)) s1) in *. clearbody s2. cbn in Er, En, Eq.
  assert (forall k, k ∈ queued s2 -> k = next_id s \/ k ∈ queued s) as Hin.
  { intros k. rewrite Eq. intros [?|Hk]%elem_of_app; [by right|left].
    destruct (broker _); cbn in Hk; [by apply list_elem_of_singleton in Hk|by apply elem_of_nil in Hk]. }
  assert (forall k, k ∈ outstanding (Build_World s fl tk ps) -> k < next_id s) as Hlt by (intros; by apply iv_out0).
  assert (forall k x, deliveries s !! k = Some x -> k < next_id s) as Hrlt by (intros k x Hx; by eapply iv_rows0).
  split; cbn; rewrite ?Er, ?En; try done.
  - intros k x. rewrite lookup_insert_Some. intros [[<- <-]|[_ Hx]].
    + split; [lia|]. split; [lia|]. by rewrite Hst.
    + destruct (iv_rows0 k x Hx). split; [lia|done].
  - unfold outstanding. cbn. rewrite Eq. destruct (broker _); cbn; [|by rewrite app_nil_r].
    rewrite <- app_assoc. cbn. rewrite <- Permutation_middle. constructor; [|done].
    intros Hx. specialize (Hlt _ Hx). lia.
  - intros k Hk. assert (k = next_id s \/ k ∈ outstanding (Build_World s fl tk ps)) as Hk'.
    { unfold outstanding in *. cbn in *. apply elem_of_app in Hk as [[?|?]%Hin|?]; [by left|right..]; apply elem_of_app; auto. }
    split; [destruct Hk' as [->|Hk']; [lia|specialize (Hlt _ Hk'); lia]|].
    intros x. rewrite lookup_insert_Some. intros [[<- <-]|[Hne Hx]]; [split; [done|by left]|].
    destruct Hk' as [->|Hk']; [done|]. by eapply iv_out0.
  - intros f x Hf. rewrite lookup_insert_Some. intros [[E _]|[_ Hx]]; [|by apply iv_flying0].
    assert (fy_pk f < next_id s); [|lia]. apply Hlt. unfold outstanding. apply elem_of_app. right.
    by apply list_elem_of_fmap_2.
  - intros k n Hn. destruct (iv_posts0 k n Hn) as [Hk Hrow]. split; [lia|]. intros x.
    rewrite lookup_insert_Some. intros [[<- _]|[Hne Hx]]; [lia|].
    destruct (Hrow x Hx) as (A & B & [C|(C & D & E & F)]); (split_and!; [done|done|]); [by left|right].
    split_and!; [done| |done|done]. by intros [?|?]%Hin.
Qed.

(** The tick's claim: a row waiting for its retry is pending again. *)
Lemma claim_inv s fl tk ps broker x :
  inv (Build_World s fl tk ps) -> inv (Build_World (claim_due broker x s).2 fl tk ps).
Proof.
  intros Hinv. unfold claim_due, claim_delivery. destruct (deliveries s !! x.1) as [d|] eqn:Hd; [|done].
  destruct (decide _) as [Hnext|]; [|done]. set (d' := d <| dl_status := DL_PENDING |> <| dl_next_attempt_at := None |>).
  set (s1 := s <| deliveries := <[x.1 := d']> (deliveries s) |>).
  destruct Hinv. cbn in *. destruct (iv_rows0 _ _ Hd) as [Hlt [H0 Hok]].
  assert (dl_attempt d < dl_max_attempts d) as Hmax by (destruct (dl_status d); try congruence; naive_solver).
  assert (x.1 ∉ outstanding (Build_World s fl tk ps)) as Hno.
  { intros Hin. destruct (proj2 (iv_out0 _ Hin) _ Hd) as [Hst _]. rewrite Hst in Hok. congruence. }
  change (inv (Build_World (enqueue broker (Deliver x.1) s1) fl tk ps)).
  destruct (enqueue_rows broker (Deliver x.1) s1) as [Er En].
  pose proof (queued_enqueue broker (Deliver x.1) s1) as Eq. change (queued s1) with (queued s) in Eq.
  set (s2 := enqueue broker (Deliver x.1) s1) in *. clearbody s2. cbn in Er, En, Eq.
  assert (forall k, k ∈ queued s2 -> k = x.1 \/ k ∈ queued s) as Hin.
  { intros k. rewrite Eq. intros [?|Hk]%elem_of_app; [by right|left].
    destruct (broker _); cbn in Hk; [by apply list_elem_of_singleton in Hk|by apply elem_of_nil in Hk]. }
  split; cbn; rewrite ?Er, ?En; try done.
  - intros k y. rewrite lookup_insert_Some. intros [[<- <-]|[_ Hy]]; [by split|by apply iv_rows0].
  - unfold outstanding. cbn. rewrite Eq. destruct (broker _); cbn; [|by rewrite app_nil_r].
    rewrite <- app_assoc. cbn. rewrite <- Permutation_middle. by constructor.
  - intros k Hk. assert (k = x.1 \/ k ∈ outstanding (Build_World s fl tk ps)) as Hk'.
    { unfold outstanding in *. cbn in *. apply elem_of_app in Hk as [[?|?]%Hin|?]; [by left|right..]; apply elem_of_app; auto. }
    split; [destruct Hk' as [->|Hk']; [done|by apply iv_out0]|]. intros y. rewrite lookup_insert_Some.
    intros [[<- <-]|[Hne Hy]]; [split; [done|by right]|]. destruct Hk' as [->|Hk']; [done|]. by eapply iv_out0.
  - intros f y Hf. rewrite lookup_insert_Some. intros [[E _]|[_ Hy]]; [|by apply iv_flying0].
    destruct Hno. rewrite E. unfold outstanding. apply elem_of_app. right. by apply list_elem_of_fmap_2.
  - intros k n Hn. destruct (iv_posts0 k n Hn) as [Hk Hrow]. split; [done|]. intros y.
    rewrite lookup_insert_Some. intros [[<- <-]|[Hne Hy]].
    + destruct (Hrow d Hd) as (A & B & [C|(_ & _ & E & _)]); [|congruence]. split_and!; [done|done|by left].
    + destruct (Hrow y Hy) as (A & B & [C|(C & D & E & F)]); (split_and!; [done|done|]); [by left|right].
      split_and!; [done| |done|done]. by intros [?|?]%Hin.
Qed.

Lemma delete_inv s fl tk ps pk :
  inv (Build_World s fl tk ps) -> inv (Build_World (s <| deliveries := delete pk (deliveries s) |>) fl tk ps).
Proof.
  intros []. cbn in *. split; cbn; try done.
  - intros k d [_ Hd]%lookup_delete_Some. by apply iv_rows0.
  - intros k Hk. split; [by apply iv_out0|]. intros d [_ Hd]%lookup_delete_Some. by eapply iv_out0.
  - intros f d Hf [_ Hd]%lookup_delete_Some. by apply iv_flying0.
  - intros k n Hn. split; [by eapply iv_posts0|]. intros d [_ Hd]%lookup_delete_Some. by eapply iv_posts0.
Qed.

Lemma record_inv s fl tk ps f broker ms now :
  inv (Build_World s fl tk ps) -> fy_pk f ∉ outstanding (Build_World s fl tk ps) ->
  (forall d, deliveries s !! fy_pk f = Some d -> d = fy_row f /\ may_send d) ->
  inv (Build_World (finish_delivery settings broker (fy_pk f) (fy_row f) (fy_posted f) ms now s).2 fl tk ps).
Proof.
  intros Hinv Hno Hrow. unfold finish_delivery. destruct (ps_outcome (fy_posted f)) as [o|]; [|done].
  destruct (record_attempt _ _ _ _ _ _ _ _) as [s'|] eqn:E; [|done]. cbn.
  apply record_attempt_rows in E as (fa & row & Hf & Hd & He). destruct (Hrow row Hd) as [-> Hms].
  eapply elsewhere_inv; [exact He|]. pose proof (proj2 (iv_rows _ Hinv _ _ Hd)) as [H0 _].
  eapply rewrite_row; [done|done|done| |done|cbn; lia].
  eapply fate_row_ok; [done|done|lia].
Qed.

Lemma webhook_step_inv w w' : step w w' -> inv w -> inv w'.
Proof.
  destruct 1 as [s fl tk ps broker ep ev pl ei ma now|s fl tk ps pk js Hp _|s fl tk ps pk js d ep net now p Hp Hl Hpo
    |s fl fl' tk ps f broker ms now Hp|s fl fl' tk ps f Hp|s fl tk ps now limit|s fl tk ps broker x Hx|s fl tk ps pk
    |s s' fl tk ps He]; intros Hinv.
  - by apply send_new_inv.
  - by eapply take_job.
  - destruct (take_job _ _ _ _ _ _ Hp Hinv) as (Hinv' & Hno & Hlt & Hrow).
    unfold load_delivery in Hl. destruct (deliveries s !! pk) as [x|] eqn:Hd; [|done].
    destruct (endpoints s !! dl_endpoint x); [|done]. destruct (is_terminal x); [done|]. injection Hl as -> ->.
    destruct (Hrow d eq_refl) as [Hms Hps]. by apply take_off.
  - destruct (land _ _ _ _ _ _ Hp Hinv) as (Hinv' & Hno & Hlt & Hrow). by apply record_inv.
  - by eapply land.
  - by destruct Hinv.
  - by apply claim_inv.
  - by apply delete_inv.
  - by eapply elsewhere_inv.
Qed.

Lemma webhook_start_inv : inv start.
Proof.
  split; cbn; try done.
  - constructor.
  - intros pk Hpk. by apply elem_of_nil in Hpk.
  - constructor.
  - intros pk n Hn. by apply elem_of_nil in Hn.
Qed.

Lemma webhook_reachable_inv w : reachable w -> inv w.
Proof. intros Hr. apply rtc_ind_r with (P := inv) (z := w) in Hr; [done|apply webhook_start_inv|]. intros x y _ Hxy. by apply webhook_step_inv. Qed.

(** C6: However fan-outs, workers, ticks, replays and deletions interleave, an
    attempt of a delivery is sent to the network at most once: no two requests
    carry the same delivery and attempt number, the number is never above the
    attempts allowed (one at least), a delivery has at most one queued job or
    worker, and once it succeeded or died nothing of it is outstanding and every
    request that went out is one that was recorded. *)
Theorem sent_once w :
  reachable w ->
  NoDup (posts w) /\ NoDup (outstanding w)
  /\ forall pk n d, (pk, n) ∈ posts w -> deliveries (hub w) !! pk = Some d ->
       1 <= n <= Z.max 1 (dl_max_attempts d) /\ n <= dl_attempt d + 1
       /\ (is_terminal d = true -> n <= dl_attempt d /\ pk ∉ outstanding w /\ dl_next_attempt_at d = None).
Proof.
  intros []%webhook_reachable_inv. split_and!; [done..|]. intros pk n d Hn Hd.
  destruct (proj2 (iv_posts0 _ _ Hn) _ Hd) as (A & B & C). split; [lia|]. split; [lia|].
  intros Ht. split; [destruct C as [?|(_ & _ & _ & ?)]; [done|congruence]|].
  unfold is_terminal in Ht. destruct (proj2 (iv_rows0 _ _ Hd)) as [_ Hok]. split.
  - intros Hin. destruct (proj2 (iv_out0 _ Hin) _ Hd) as [Hst _]. by rewrite Hst in Ht.
  - by destruct (dl_status d).
Qed.

(** ** A delivery whose job is lost *)

Definition stranded (pk : Z) (d : WebhookDelivery) (w : World) : Prop :=
  pk < next_id (hub w) /\ pk ∉ outstanding w
  /\ (deliveries (hub w) !! pk = Some d \/ deliveries (hub w) !! pk = None).

Lemma stranded_step pk d w w' :
  dl_next_attempt_at d = None -> step w w' -> stranded pk d w ->
  stranded pk d w' /\ (forall n, (pk, n) ∈ posts w' -> (pk, n) ∈ posts w).
Proof.
  intros Hnext Hstep (Hlt & Hno & Hrow). revert Hlt Hno Hrow. unfold stranded.
  destruct Hstep as [s fl tk ps broker ep ev pl ei ma now|s fl tk ps pk0 js Hp _
    |s fl tk ps pk0 js d0 ep net now p Hp Hl Hpo|s fl fl' tk ps f broker ms now Hp|s fl fl' tk ps f Hp
    |s fl tk ps now limit|s fl tk ps broker x Hx|s fl tk ps pk0|s s' fl tk ps (E1 & E2 & E3)];
    unfold outstanding; cbn [hub flying posts]; intros Hlt Hno Hrow.
  - split; [|done]. set (d1 := new_delivery _ _ _ _ _ _).
    set (s1 := s <| deliveries := <[next_id s := d1]> (deliveries s) |> <| next_id := next_id s + 1 |>).
    change (send_new broker d1 s).2 with (enqueue broker (Deliver (next_id s)) s1).
    destruct (enqueue_rows broker (Deliver (next_id s)) s1) as [-> ->]. rewrite queued_enqueue.
    change (queued s1) with (queued s). split_and!; [cbn; lia| |cbn; rewrite lookup_insert_ne by lia; done].
    rewrite !not_elem_of_app in *. destruct Hno. split_and!; [done| |done].
    destruct (broker _); cbn; [|by intros ?%elem_of_nil]. intros ->%list_elem_of_singleton. lia.
  - split; [|done]. split_and!; [done| |done]. rewrite !not_elem_of_app in *. destruct Hno as [Hq Hf].
    split; [|done]. intros Hin. apply Hq. unfold queued. rewrite Hp. cbn. by right.
  - assert (queued s ≡ₚ pk0 :: omap deliver_pk js) as Hq by (unfold queued; by rewrite Hp).
    rewrite not_elem_of_app, Hq, not_elem_of_cons in Hno. destruct Hno as ((Hne & Hq') & Hf). split.
    + split_and!; [done| |done]. unfold queued. cbn. by rewrite not_elem_of_app, not_elem_of_cons.
    + intros n [?|Hn]%elem_of_app; [done|]. unfold logged in Hn. destruct (ps_sent p); [|by apply elem_of_nil in Hn].
      by apply list_elem_of_singleton in Hn as [= -> _].
  - split; [|done]. rewrite Hp in Hno. cbn in Hno. rewrite not_elem_of_app, not_elem_of_cons in Hno.
    destruct Hno as (Hq & Hne & Hf). unfold finish_delivery.
    destruct (ps_outcome (fy_posted f)) as [o|]; [|cbn; by rewrite not_elem_of_app].
    destruct (record_attempt _ _ _ _ _ _ _ _) as [s'|] eqn:E; [|cbn; by rewrite not_elem_of_app].
    apply record_attempt_rows in E as (fa & row & _ & _ & (E1 & E2 & E3)). cbn in *. rewrite E1, E3.
    split_and!; [lia|by rewrite not_elem_of_app|by rewrite lookup_insert_ne].
  - split; [|done]. rewrite Hp in Hno. cbn in Hno. rewrite not_elem_of_app, not_elem_of_cons in Hno.
    rewrite not_elem_of_app. tauto.
  - by split.
  - split; [|done]. unfold claim_due, claim_delivery. destruct (deliveries s !! x.1) as [d0|] eqn:Hd0; [|done].
    destruct (decide _) as [Hn0|]; [|done]. assert (x.1 <> pk) as Hne.
    { intros <-. destruct Hrow as [Hr|Hr]; [|congruence]. assert (d0 = d) as -> by congruence. congruence. }
    cbn [snd].
    destruct (enqueue_rows broker (Deliver x.1) (s <| deliveries := <[x.1 := d0 <| dl_status := DL_PENDING |>
      <| dl_next_attempt_at := None |>]> (deliveries s) |>)) as [-> ->].
    rewrite queued_enqueue. cbn. rewrite lookup_insert_ne by done. split_and!; [done| |done].
    rewrite !not_elem_of_app in *. destruct Hno. split_and!; [done| |done].
    destruct (broker _); cbn; [|by intros ?%elem_of_nil]. by intros ->%list_elem_of_singleton.
  - split; [|done]. split_and!; [done|done|]. cbn. rewrite lookup_delete. case_decide; [by right|done].
  - split; [|done]. rewrite E1, E3. split_and!; [lia|done|done].
Qed.

(** A pending delivery whose job the broker refused, or whose worker died, is
    never sent again: the tick takes rows waiting for a retry only. *)
Lemma stranded_forever pk d w w' :
  dl_status d = DL_PENDING -> dl_next_attempt_at d = None -> stranded pk d w -> rtc step w w' ->
  stranded pk d w' /\ (forall n, (pk, n) ∈ posts w' -> (pk, n) ∈ posts w).
Proof.
  intros _ Hnext Hs Hr. induction Hr as [w|w1 w2 w3 H12 _ IH]; [done|].
  destruct (stranded_step _ _ _ _ Hnext H12 Hs) as [Hs2 Hp]. destruct (IH Hs2) as [Hs3 Hp3]. split; [done|].
  intros n Hn. by apply Hp, Hp3.
Qed.

(** So is one whose receiver answers 429 with [Retry-After: ²]: the task raises
    where it reads the header, the attempt unrecorded. *)
Lemma superscript_raises now net peer :
  nt_connection net = Connected peer (Status 429 (Some [178])) ->
  nt_proxied net = true ->
  open_guarded settings net now = {| ps_sent := true; ps_outcome := None |}.
Proof. intros Hc Hp. unfold open_guarded. rewrite Hc, Hp. reflexivity. Qed.

Lemma refused_is_stranded broker d s fl tk ps :
  inv (Build_World s fl tk ps) -> broker (Deliver (next_id s)) = false ->
  stranded (next_id s) d (Build_World (send_new broker d s).2 fl tk ps).
Proof.
  intros [] Hb. cbn in *. unfold send_new, insert_delivery, enqueue. rewrite Hb. unfold stranded. cbn.
  split_and!; [lia| |left; apply lookup_insert_eq].
  intros Hin. assert (next_id s < next_id s); [|lia]. by apply iv_out0.
Qed.

(** ** The operations are paths of steps *)

Lemma send_new_steps broker endpoint ev pl ei ma now s fl tk ps :
  rtc step (Build_World s fl tk ps) (Build_World (send_new broker (new_delivery endpoint ev pl ei ma now) s).2 fl tk ps).
Proof. apply rtc_once, w_new. Qed.

Lemma fan_out_steps broker ev pl ei now s fl tk ps :
  rtc step (Build_World s fl tk ps) (Build_World (fan_out settings broker ev pl ei now s).2 fl tk ps).
Proof.
  unfold fan_out. destruct (wh_enabled settings); cbn; [|done]. destruct (wh_outbound settings); cbn; [|done].
  generalize 0 as n. generalize (enabled_endpoints s) as eps. intros eps. revert s.
  induction eps as [|[pk ep] eps IH]; intros s n; cbn; [done|].
  destruct (endpoint_matches ev ep) as [[]|]; [|apply IH|done].
  etrans; [apply send_new_steps|apply IH].
Qed.

Lemma claim_each_steps broker due n s fl tk ps :
  due ⊆ tk -> rtc step (Build_World s fl tk ps) (Build_World (claim_each broker due n s).2 fl tk ps).
Proof.
  revert n s. induction due as [|x due IH]; intros n s Hsub; cbn; [done|].
  destruct (claim_due broker x s) as [won s1] eqn:E. etrans; [|apply IH; set_solver].
  apply rtc_once. replace s1 with (claim_due broker x s).2 by by rewrite E. apply w_claim. set_solver.
Qed.

Lemma run_due_steps broker now limit s fl tk ps :
  exists tk', rtc step (Build_World s fl tk ps) (Build_World (run_due_deliveries settings broker now limit s).2 fl tk' ps).
Proof.
  unfold run_due_deliveries. destruct (wh_enabled settings); cbn; [|by exists tk].
  exists (due_deliveries now limit s ++ tk). eapply rtc_l; [apply (w_tick s fl tk ps now limit)|].
  apply claim_each_steps. set_solver.
Qed.

Lemma replay_dead_steps broker endpoint since limit now s fl tk ps :
  rtc step (Build_World s fl tk ps) (Build_World (replay_dead broker endpoint since limit now s).2 fl tk ps).
Proof.
  unfold replay_dead. generalize (dead_letters endpoint since limit s) as l. intros l. revert s.
  induction l as [|[pk d] l IH]; intros s; cbn [replay_each]; [done|].
  destruct (replay_delivery broker d now s) as [new s1] eqn:E1. destruct (replay_each broker l now s1) as [news s2] eqn:E2.
  cbn. replace s2 with (replay_each broker l now s1).2 by by rewrite E2. etrans; [|apply (IH s1)].
  replace s1 with (replay_delivery broker d now s).2 by by rewrite E1. apply send_new_steps.
Qed.

Lemma deliver_steps broker pk js net ms now s fl tk ps :
  jobs s ≡ₚ Deliver pk :: js ->
  exists ps', rtc step (Build_World s fl tk ps)
    (Build_World (deliver_webhook settings hooks broker pk net ms now (s <| jobs := js |>)).2 fl tk ps').
Proof.
  intros Hp. unfold deliver_webhook. change (load_delivery pk (s <| jobs := js |>)) with (load_delivery pk s).
  destruct (load_delivery pk s) as [|status|d ep] eqn:E.
  1, 2: exists ps; by apply rtc_once, (w_skip _ _ _ _ _ _ Hp); intros d ep; rewrite E.
  exists (ps ++ logged pk d (send_delivery settings hooks pk d ep net now)).
  eapply rtc_l; [exact (w_send s fl tk ps pk js d ep net now _ Hp E eq_refl)|].
  apply rtc_once.
  set (f := Build_Flying pk d (send_delivery settings hooks pk d ep net now)).
  exact (w_record (s <| jobs := js |>) (f :: fl) fl tk _ f broker ms now (reflexivity _)).
Qed.

Lemma fire_steps broker views depth w now s fl tk ps :
  rtc step (Build_World s fl tk ps) (Build_World (fire settings broker views depth w now s) fl tk ps).
Proof.
  unfold fire. destruct (suppressed depth); [done|]. destruct (view_for views (mw_label w)); [|done].
  destruct (wants _ _); [|done]. destruct (our_origin settings); [|done]. apply fan_out_steps.
Qed.

Lemma fire_all_steps broker views depth ws now s fl tk ps :
  rtc step (Build_World s fl tk ps) (Build_World (fire_all settings broker views depth ws now s) fl tk ps).
Proof.
  unfold fire_all. revert s. induction ws as [|w ws IH]; intros s; cbn; [done|].
  etrans; [apply fire_steps|apply IH].
Qed.

Lemma set_receipt_elsewhere pk status error s : elsewhere s (set_receipt pk status error s).
Proof. split_and!; [done|cbn; lia|done]. Qed.

Lemma dispatch_steps broker views handlers pk depth now s fl tk ps :
  rtc step (Build_World s fl tk ps)
    (Build_World (dispatch_incoming settings broker views handlers pk depth now s).2 fl tk ps).
Proof.
  unfold dispatch_incoming. destruct (receipts s !! pk) as [r|]; [|done].
  destruct (receivers s !! rt_receiver r) as [rc|]; [|done].
  destruct (get_handler (handler_name rc) handlers) as [handler|]; [|apply rtc_once, w_elsewhere, set_receipt_elsewhere].
  destruct (handler r) as [writes raised]. cbn. etrans; [apply fire_all_steps|].
  destruct raised; apply rtc_once, w_elsewhere, set_receipt_elsewhere.
Qed.

Lemma incoming_elsewhere broker slug rq now s : elsewhere s (incoming_webhook settings hooks broker slug rq now s).2.
Proof.
  assert (forall s, elsewhere s s) as Hid by (intros; split_and!; [done|lia|done]).
  unfold incoming_webhook. destruct (_ || _); [done|]. destruct (receiver_at slug s) as [[pk rc]|]; [|done].
  destruct (mbind _ _); [done|]. repeat (destruct (_ <? _); [done|]).
  unfold receive, insert_receipt, count_received. destruct (_ && negb _).
  { destruct (_ <? _); [split_and!; [done|cbn; lia|done]|done]. }
  destruct (_ && _); [split_and!; [done|cbn; lia|done]|].
  set (s1 := update_receiver _ _ _). cbn [snd].
  destruct (enqueue_rows broker (Dispatch (next_id s)) s1) as [E1 E2]. split_and!.
  - by rewrite E1.
  - rewrite E2. cbn. lia.
  - rewrite queued_enqueue. cbn. destruct (broker _); by rewrite app_nil_r.
Qed.

(** Every operation of the application is a path of the steps above, so
    what holds of every reachable state holds however the operations overlap:
    a fan-out, the tick, a bulk replay, a worker on a queued delivery, the
    dispatch of a receipt with all its handler writes, and an inbound
    request. *)
Theorem operations_are_steps broker s fl tk ps :
  let w := Build_World s fl tk ps in
  (forall ev pl ei now, rtc step w (Build_World (fan_out settings broker ev pl ei now s).2 fl tk ps))
  /\ (forall now limit, exists tk', rtc step w (Build_World (run_due_deliveries settings broker now limit s).2 fl tk' ps))
  /\ (forall endpoint since limit now, rtc step w (Build_World (replay_dead broker endpoint since limit now s).2 fl tk ps))
  /\ (forall pk js net ms now, jobs s ≡ₚ Deliver pk :: js -> exists ps', rtc step w
       (Build_World (deliver_webhook settings hooks broker pk net ms now (s <| jobs := js |>)).2 fl tk ps'))
  /\ (forall views handlers pk depth now, rtc step w
       (Build_World (dispatch_incoming settings broker views handlers pk depth now s).2 fl tk ps))
  /\ (forall slug rq now, rtc step w (Build_World (incoming_webhook settings hooks broker slug rq now s).2 fl tk ps)).
Proof.
  split_and!; intros.
  - apply fan_out_steps.
  - apply run_due_steps.
  - apply replay_dead_steps.
  - by apply deliver_steps.
  - apply dispatch_steps.
  - apply rtc_once, w_elsewhere, incoming_elsewhere.
Qed.
End World.

(** ** A delivery that fails once and is sent again *)

Module WebhookDemo.

Definition public : AddrFlags := Build_AddrFlags false false false false false false.
Definition loopback : AddrFlags := Build_AddrFlags true true false false false false.

(** One host, two addresses, and no more of the library than that needs. *)
#[global] Instance demo_lib : WebLib := {|
  urlsplit url := Some {| sp_scheme := u "https"; sp_netloc := u "peer.example"; sp_path := u "/hook"; sp_query := [];
                          sp_hostname := u "peer.example"; sp_port := Some None |};
  with_query url q := url ++ u "?" ++ q;
  urlencode ps := join (u "&") ((fun x => x.1 ++ u "=" ++ x.2) <$> ps);
  getaddrinfo host port := Addresses [u "203.0.113.7"];
  ip_address ip := Some (IPv4 (if str_eqb ip (u "127.0.0.1") then loopback else public));
  repr s := u "'" ++ s ++ u "'";
  parsedate s := None;
  dumps j := match j with JStr s => s | _ => u "{}" end;
  decode_replace bs := bs;
|}.

Definition settings_at (origin : pystr) : WebhookSettings := {|
  wh_enabled := true; wh_outbound := true; wh_inbound := true; wh_max_attempts := 3; wh_backoff := [];
  wh_max_backoff := 21600; wh_allowlist := []; wh_allow_private := false; wh_auto_disable_after := 20;
  wh_failure_emails := true; wh_inbound_max_bytes := 1048576; wh_rejected_per_minute := 30;
  wh_origin := {| og_explicit := origin; og_sites := []; og_hostname := None |} |}.
Definition demo_settings : WebhookSettings := settings_at (u "https://us.example").

Definition demo_hooks : Registries := register_default_hooks dumps (Build_Registries [] [] [] []).

Definition demo_endpoint : WebhookEndpoint := {|
  ep_name := u "peer"; ep_target_url := u "https://peer.example/hook"; ep_secret := u "k3y";
  ep_event_filter := [JStr (u "*.created")]; ep_headers := []; ep_enabled := true; ep_is_paired := false;
  ep_transform := []; ep_auth_scheme := []; ep_owner := None; ep_last_delivery_at := None; ep_last_status := None;
  ep_total_deliveries := 0; ep_consecutive_failures := 0 |}.

Definition yes (j : Job) : bool := true.
Definition busy : Net := Build_Net false (Connected (u "203.0.113.7") (Status 503 (Some (u "5")))).
Definition fine : Net := Build_Net false (Connected (u "203.0.113.7") (Status 200 None)).

Definition hub1 : Hub := empty_hub <| endpoints := {[1 := demo_endpoint]} |> <| next_id := 2 |>.
Definition row1 : WebhookDelivery := new_delivery 1 (u "app.thing.created") JNull None 3 0.
Definition hub2 : Hub := (send_new yes row1 hub1).2.
Definition hub3 : Hub := hub2 <| jobs := [] |>.
Definition sent1 : Posted := send_delivery demo_settings demo_hooks 2 row1 demo_endpoint busy 10.
Definition world3 : World := Build_World hub3 [Build_Flying 2 row1 sent1] [] (logged 2 row1 sent1).
Definition hub4 : Hub := (finish_delivery demo_settings yes 2 row1 sent1 7 11 hub3).2.
Definition due4 : list (Z * Z) := due_deliveries (6 * SECOND) 200 hub4.
Definition hub5 : Hub := (claim_due yes (2, 5 * SECOND + 11) hub4).2.
Definition row5 : WebhookDelivery := default row1 (deliveries hub5 !! 2).
Definition ep5 : WebhookEndpoint := default demo_endpoint (endpoints hub5 !! 1).
Definition sent2 : Posted := send_delivery demo_settings demo_hooks 2 row5 ep5 fine (7 * SECOND).
Definition world6 : World :=
  Build_World (hub5 <| jobs := [] |>) [Build_Flying 2 row5 sent2] due4 (logged 2 row1 sent1 ++ logged 2 row5 sent2).

Notation demo_step := (step demo_settings demo_hooks).

Lemma demo_path1 : rtc demo_step start (Build_World hub2 [] [] []).
Proof.
  apply (rtc_l _ _ (Build_World hub1 [] [] [])); [apply w_elsewhere; by split_and!|].
  apply rtc_once, (w_new _ _ hub1 [] [] [] yes).
Qed.

Lemma demo_path2 : rtc demo_step (Build_World hub2 [] [] []) (Build_World hub4 [] [] (logged 2 row1 sent1)).
Proof.
  apply (rtc_l _ _ world3).
  - assert (load_delivery 2 hub2 = ToSend row1 demo_endpoint) as Hl by (vm_compute; reflexivity).
    exact (w_send demo_settings demo_hooks hub2 [] [] [] 2 [] row1 demo_endpoint busy 10 sent1 (reflexivity _) Hl eq_refl).
  - apply rtc_once. exact (w_record demo_settings demo_hooks hub3 _ [] [] _ (Build_Flying 2 row1 sent1) yes 7 11 (reflexivity _)).
Qed.

Lemma demo_path3 : rtc demo_step (Build_World hub4 [] [] (logged 2 row1 sent1)) world6.
Proof.
  apply (rtc_l _ _ (Build_World hub4 [] due4 (logged 2 row1 sent1))).
  { rewrite <- (app_nil_r due4). apply w_tick. }
  apply (rtc_l _ _ (Build_World hub5 [] due4 (logged 2 row1 sent1))).
  { apply w_claim. by_compute. }
  apply rtc_once.
  assert (load_delivery 2 hub5 = ToSend row5 ep5) as Hl by (vm_compute; reflexivity).
  assert (jobs hub5 ≡ₚ [Deliver 2]) as Hj by (vm_compute; reflexivity).
  exact (w_send demo_settings demo_hooks hub5 [] due4 _ 2 [] row5 ep5 fine (7 * SECOND) sent2 Hj Hl eq_refl).
Qed.

Lemma demo_reachable : rtc demo_step start world6.
Proof. etrans; [apply demo_path1|]. etrans; [apply demo_path2|apply demo_path3]. Qed.

Example sent_once_witness :
  posts world6 = [(2, 1); (2, 2)] /\ NoDup (posts world6)
  /\ (1 <= 2 <= 3 /\ 2 <= dl_attempt row5 + 1).
Proof.
  destruct (sent_once demo_settings demo_hooks world6 demo_reachable) as (A & B & C).
  assert (deliveries (hub world6) !! 2 = Some row5) as Hrow by (vm_compute; reflexivity).
  assert ((2, 2) ∈ posts world6) as Hin by by_compute.
  destruct (C 2 2 row5 Hin Hrow) as ([H1 _] & H2 & _).
  split; [vm_compute; reflexivity|]. split; [exact A|]. split; [lia|exact H2].
Defined.

Example operations_are_steps_witness :
  jobs hub2 ≡ₚ [Deliver 2]
  /\ exists ps', rtc demo_step (Build_World hub2 [] [] [])
       (Build_World (deliver_webhook demo_settings demo_hooks yes 2 fine 3 20 (hub2 <| jobs := [] |>)).2 [] [] ps').
Proof.
  assert (jobs hub2 ≡ₚ [Deliver 2]) as Hj by (vm_compute; reflexivity). split; [exact Hj|].
  destruct (operations_are_steps demo_settings demo_hooks yes hub2 [] [] []) as (_ & _ & _ & Hd & _).
  exact (Hd 2 [] fine 3 20 Hj).
Defined.
End WebhookDemo.
