(* ===== verification/WebhookLinksFacts.v ===== *)
(** * Webhooks: what is recorded, what may be posted, what is admitted, and two
    installations linked

    The operations of Webhooks and WebhookPairing one by one, and the way of a
    delivery from a paired sender to its peer. *)
From stdpp Require Import sorting.
From S2P Require Import Prelude PyFloat PyStr PyTime Json PyLib CaseInsensitiveDict Schedules.
From S2P Require Import WebhookHooks Webhooks WebhookPairing WebhooksFacts.
Open Scope Z_scope.

#[local] Opaque u.
#[local] Arguments enqueue : simpl never.

Section Recording.
Context `{WebLib} (settings : WebhookSettings) (hooks : Registries).

(** ** The record of an attempt *)

Definition schedule_of : list Z := match wh_backoff settings with [] => DEFAULT_BACKOFF | l => l end.

Lemma backoff_entry attempt : backoff_seconds settings attempt ∈ schedule_of.
Proof.
  unfold backoff_seconds, schedule_of. set (l := match wh_backoff settings with [] => _ | l => l end).
  assert (l <> []) as Hl by (subst l; destruct (wh_backoff settings); done).
  assert (0 < zlen l) as Hlen by (unfold zlen; destruct l; [done|cbn; lia]).
  set (i := Z.max 0 _). assert (Z.to_nat i < length l)%nat as Hi by (subst i; unfold zlen in *; lia).
  apply lookup_lt_is_Some in Hi as [x Hx]. rewrite Hx. by eapply list_elem_of_lookup_2.
Qed.

(** The [k]-th wait of the table, the last one from there on. *)
Lemma backoff_table attempt :
  1 <= attempt -> backoff_seconds settings attempt
    = default 0 (schedule_of !! Z.to_nat (Z.min (attempt - 1) (zlen schedule_of - 1))).
Proof.
  intros Ha. unfold backoff_seconds, schedule_of. set (l := match wh_backoff settings with [] => _ | l => l end).
  pose proof (zlen_nonneg l). destruct (decide (zlen l = 0)) as [E|E].
  - assert (l = []) as -> by (destruct l; [done|unfold zlen in E; cbn in E; lia]). by rewrite !lookup_nil.
  - by rewrite Z.max_r by lia.
Qed.

Definition disables (e : WebhookEndpoint) (ok : bool) : bool :=
  negb ok && negb (wh_auto_disable_after settings =? 0)
  && (wh_auto_disable_after settings <=? ep_consecutive_failures e + 1).

Lemma bump_spec pk ok dead now s e :
  endpoints s !! pk = Some e ->
  exists e', endpoints (bump_endpoint settings pk ok dead now s) !! pk = Some e'
    /\ ep_total_deliveries e' = ep_total_deliveries e + 1
    /\ ep_consecutive_failures e' = (if ok then 0 else ep_consecutive_failures e + 1)
    /\ ep_enabled e' = ep_enabled e && negb (disables e ok)
    /\ ep_secret e' = ep_secret e /\ ep_target_url e' = ep_target_url e.
Proof.
  intros He. unfold bump_endpoint, disables. destruct ok; cbn.
  { rewrite lookup_alter_eq, He. cbn. eexists. split; [done|]. cbn. by rewrite andb_true_r. }
  destruct (_ =? 0) eqn:E0; cbn.
  { rewrite lookup_alter_eq, He. cbn. eexists. split; [done|]. cbn. by rewrite andb_true_r. }
  rewrite lookup_alter_eq, He. cbn. destruct (wh_auto_disable_after settings <=? ep_consecutive_failures e + 1) eqn:E1; cbn.
  - destruct (ep_enabled e) eqn:E2; cbn; rewrite ?lookup_alter_eq, He; cbn; eexists; (split; [done|]); cbn; by rewrite ?E2.
  - rewrite lookup_alter_eq, He. cbn. eexists. split; [done|]. cbn. by rewrite andb_true_r.
Qed.

Lemma record_endpoint broker pk d attempt ms o now s s' e :
  record_attempt settings broker pk d attempt ms o now s = Some s' -> endpoints s !! dl_endpoint d = Some e ->
  exists e', endpoints s' !! dl_endpoint d = Some e'
    /\ ep_total_deliveries e' = ep_total_deliveries e + 1
    /\ ep_consecutive_failures e' = (if succeeded o then 0 else ep_consecutive_failures e + 1)
    /\ ep_enabled e' = ep_enabled e && negb (disables e (succeeded o))
    /\ ep_secret e' = ep_secret e /\ ep_target_url e' = ep_target_url e.
Proof.
  unfold record_attempt. intros (f & Hf & Hr)%bind_Some He. apply bind_Some in Hr as (row & Hrow & E).
  apply (inj Some) in E as <-. unfold fate in Hf.
  set (s1 := s <| deliveries := _ |>). assert (endpoints s1 !! dl_endpoint d = Some e) as He1 by done.
  destruct (succeeded o); [injection Hf as <-; by apply bump_spec|].
  destruct (_ <=? attempt); [injection Hf as <-|].
  - destruct (bump_spec (dl_endpoint d) false true now s1 e He1) as (e' & A & B).
    exists e'. split; [|done]. destruct (wh_failure_emails settings); [|done]. unfold enqueue. by destruct (broker _).
  - destruct (dt_add now _); [|done]. injection Hf as <-. by apply bump_spec.
Qed.

(** What the row becomes. *)
Definition recorded (d row : WebhookDelivery) (attempt : Z) (o : Outcome) (now : Z) (row' : WebhookDelivery) : Prop :=
  dl_attempt row' = attempt /\ dl_max_attempts row' = dl_max_attempts row /\ dl_response_status row' = oc_code o
  /\ zlen (dl_error row') <= ERROR_MAX
  /\ if succeeded o then dl_status row' = DL_SUCCESS /\ dl_next_attempt_at row' = None
     else if dl_max_attempts d <=? attempt then dl_status row' = DL_DEAD /\ dl_next_attempt_at row' = None
     else dl_status row' = DL_RETRYING
       /\ exists wait, dl_next_attempt_at row' = Some (now + wait * SECOND)
            /\ match oc_retry_after o with
               | Some r => 0 <= wait <= Z.max 0 (wh_max_backoff settings)
                   /\ (0 <= r <= wh_max_backoff settings -> wait = r)
               | None => wait ∈ schedule_of
               end.

Lemma slice_to_length (n : Z) (t : pystr) : 0 <= n -> zlen (slice_to n t) <= n.
Proof. intros Hn. unfold zlen, slice_to. rewrite length_take. lia. Qed.

Lemma recorded_fate d row attempt ms o now f :
  fate settings d attempt o now = Some f -> recorded d row attempt o now (write_attempt attempt ms o f row).
Proof.
  unfold recorded, fate. intros Hf. cbn. split; [done|]. split; [done|]. split; [done|].
  split; [apply slice_to_length; unfold ERROR_MAX; lia|].
  destruct (succeeded o); [by injection Hf as <-|]. destruct (_ <=? attempt); [by injection Hf as <-|].
  unfold dt_add in Hf. destruct (oc_retry_after o) as [r|].
  - destruct (_ <=? MAX_STAMP); [|done]. injection Hf as <-. split; [done|]. eexists. split; [done|].
    unfold clamp_backoff. lia.
  - destruct (_ <=? MAX_STAMP); [|done]. injection Hf as <-. split; [done|]. eexists. split; [done|apply backoff_entry].
Qed.

(** Recording an attempt writes exactly one row: the attempt number and
    the answer, at most two thousand characters of error, and one of three
    ends. A 2xx ends in success; the last attempt allowed ends dead; else the
    retry is due after a wait the receiver asked for, clamped to the ceiling
    and honoured exactly within it, or after an entry of the backoff table.
    The endpoint counts one more delivery, its run of failures restarts at
    zero or grows by one, and it is switched off exactly when the run reaches
    the threshold. *)
Theorem record_attempt_spec broker pk d attempt ms o now s s' e :
  record_attempt settings broker pk d attempt ms o now s = Some s' ->
  endpoints s !! dl_endpoint d = Some e ->
  (exists row row', deliveries s !! pk = Some row /\ deliveries s' = <[pk := row']> (deliveries s)
    /\ recorded d row attempt o now row')
  /\ exists e', endpoints s' !! dl_endpoint d = Some e'
    /\ ep_total_deliveries e' = ep_total_deliveries e + 1
    /\ ep_consecutive_failures e' = (if succeeded o then 0 else ep_consecutive_failures e + 1)
    /\ ep_enabled e' = ep_enabled e && negb (disables e (succeeded o)).
Proof.
  intros Hr He. split.
  - apply record_attempt_rows in Hr as (f & row & Hf & Hrow & (E & _)). exists row, (write_attempt attempt ms o f row).
    split; [done|]. split; [done|]. by apply recorded_fate.
  - destruct (record_endpoint _ _ _ _ _ _ _ _ _ _ Hr He) as (e' & A & B & C & D & _). by exists e'.
Qed.

(** ** What may be posted *)

(** The bytes of a delivery leave only for a target that is http or
    https, names a host, and is under an allowlisted suffix when there is a
    list; and unless private targets are allowed, only when none of the
    addresses the host resolved to is private or local and, without a proxy,
    the address the socket is connected to is not either, whatever the name
    resolved to in between. *)
Theorem posts_guarded pk d ep net now :
  ps_sent (send_delivery settings hooks pk d ep net now) = true ->
  exists w parts peer answer,
    prepare settings hooks pk d ep = Some w /\ urlsplit (wr_url w) = Some parts
    /\ nt_connection net = Connected peer answer
    /\ (sp_scheme parts = u "http" \/ sp_scheme parts = u "https") /\ sp_hostname parts <> []
    /\ (wh_allowlist settings = [] \/ in_allowlist settings (sp_hostname parts) = true)
    /\ (wh_allow_private settings = false ->
        (nt_proxied net = false -> ip_is_blocked peer = false)
        /\ exists port, forall l, getaddrinfo (sp_hostname parts) port = Addresses l ->
             Forall (fun ip => ip_is_blocked ip = false) l).
Proof.
  unfold send_delivery. destruct (prepare settings hooks pk d ep) as [w|]; [|done]. unfold post.
  destruct (url_is_allowed settings (wr_url w)) as [[[] reason]|] eqn:Ha; [|done..]. intros Hs.
  unfold open_guarded in Hs. destruct (nt_connection net) as [|peer answer] eqn:Hc; [done|].
  destruct (negb (nt_proxied net) && negb (peer_allowed settings peer)) eqn:Hp; [done|].
  unfold url_is_allowed in Ha. apply bind_Some in Ha as (parts & Hparts & Ha).
  exists w, parts, peer, answer. split; [done|]. split; [done|]. split; [done|].
  destruct (negb (_ || _)) eqn:E1; [done|]. apply negb_false_iff, orb_true_iff in E1.
  split; [unfold str_eqb in E1; by rewrite !bool_decide_eq_true in E1|].
  destruct (nonempty (sp_hostname parts)) eqn:E2; [|done]. apply nonempty_true in E2. cbn in Ha. split; [done|].
  destruct (match wh_allowlist settings with [] => _ | _ => _ end) eqn:E3; [done|].
  split. { destruct (wh_allowlist settings) eqn:El; [by left|right]. by apply negb_false_iff in E3. }
  intros Hpriv. rewrite Hpriv in Ha. apply bind_Some in Ha as (port & Hport & Ha). split.
  - intros Hprox. rewrite Hprox in Hp. unfold peer_allowed in Hp. rewrite Hpriv in Hp. cbn in Hp.
    by rewrite negb_involutive in Hp.
  - eexists. intros l Hl. rewrite Hl in Ha. apply (inj Some) in Ha.
    destruct (List.find ip_is_blocked l) eqn:Hf; [done|]. apply Forall_forall. intros ip Hin.
    by apply (List.find_none _ _ Hf), list_elem_of_In.
Qed.

(** ** The loop guard of the dispatch *)

Lemma fire_suppressed broker views depth w now s :
  0 < depth -> fire settings broker views depth w now s = s.
Proof. intros Hd. unfold fire, suppressed. by rewrite (proj2 (Z.ltb_lt 0 depth)). Qed.

Lemma fire_all_suppressed broker views depth ws now s :
  0 < depth -> fire_all settings broker views depth ws now s = s.
Proof.
  intros Hd. unfold fire_all. revert s. induction ws as [|w ws IH]; intros s; cbn; [done|].
  rewrite fire_suppressed by done. apply IH.
Qed.

(** The dispatch of a receipt leaves the thread's suppression as it found it,
    and a handler that did not opt into cascading emits nothing: no delivery,
    no job, whatever it writes and whether it raises or not. *)
Theorem dispatch_quiet broker views handlers pk depth now s :
  0 <= depth ->
  let r := dispatch_incoming settings broker views handlers pk depth now s in
  r.1 = depth
  /\ ((forall name, handler_cascades name handlers = false) ->
      deliveries r.2 = deliveries s /\ endpoints r.2 = endpoints s /\ jobs r.2 = jobs s).
Proof.
  intros Hd r. subst r. unfold dispatch_incoming. destruct (receipts s !! pk) as [rt|]; [|done].
  destruct (receivers s !! rt_receiver rt) as [rc|]; [|done].
  destruct (get_handler _ _) as [handler|]; [|done]. destruct (handler rt) as [writes raised]. split.
  - cbn. destruct (handler_cascades _ _); [done|]. unfold suppress_exit, suppress_enter. lia.
  - intros Hno. cbn. rewrite Hno, fire_all_suppressed by (unfold suppress_enter; lia). by destruct raised.
Qed.
End Recording.

Section Fanning.
Context `{WebLib} (settings : WebhookSettings).

(** ** Fan-out *)

Definition subscribed (event_type : pystr) (x : Z * WebhookEndpoint) : bool :=
  default false (endpoint_matches event_type x.2).

Definition textual (e : WebhookEndpoint) : Prop := Forall (fun j => exists p, j = JStr p) (ep_event_filter e).

Lemma textual_matches ev e : textual e ->
  endpoint_matches ev e = Some (existsb (fun j => match j with JStr p => fnmatch ev p | _ => false end) (ep_event_filter e)).
Proof.
  unfold textual, endpoint_matches. induction 1 as [|j l [p ->] _ IH]; [done|]. cbn.
  destruct (fnmatch ev p); [done|]. exact IH.
Qed.

Lemma send_new_rows broker d s :
  deliveries (send_new broker d s).2 = <[next_id s := d]> (deliveries s)
  /\ next_id (send_new broker d s).2 = next_id s + 1 /\ endpoints (send_new broker d s).2 = endpoints s.
Proof. unfold send_new, insert_delivery, enqueue. by destruct (broker _). Qed.

Lemma fan_loop_spec broker ev pl ei now eps n s :
  Forall (fun x => textual x.2) eps ->
  let ms := List.filter (subscribed ev) eps in
  let r := fan_loop settings broker ev pl ei now eps n s in
  r.1 = n + zlen ms /\ next_id r.2 = next_id s + zlen ms /\ endpoints r.2 = endpoints s
  /\ (forall i x, ms !! i = Some x ->
        deliveries r.2 !! (next_id s + Z.of_nat i) = Some (new_delivery x.1 ev pl ei (wh_max_attempts settings) now))
  /\ (forall k, k < next_id s \/ next_id s + zlen ms <= k -> deliveries r.2 !! k = deliveries s !! k).
Proof.
  intros Htx. cbn zeta. revert n s. induction Htx as [|[pk ep] eps Hx _ IH]; intros n s; cbn [fan_loop List.filter].
  { unfold zlen. cbn. split_and!; [lia|lia|done|done|done]. }
  assert (endpoint_matches ev ep = Some (subscribed ev (pk, ep))) as ->.
  { unfold subscribed. cbn [snd] in *. by rewrite textual_matches. }
  destruct (subscribed ev (pk, ep)); [|apply IH].
  set (d := new_delivery _ _ _ _ _ _). set (s1 := (send_new broker d s).2).
  destruct (send_new_rows broker d s) as (E1 & E2 & E3). fold s1 in E1, E2, E3.
  destruct (IH (n + 1) s1) as (A & B & C & D & E). rewrite E2 in B, D, E. rewrite zlen_cons.
  split_and!; [lia|lia|congruence| |].
  - intros [|i] x; cbn [lookup list_lookup].
    + intros [= <-]. rewrite Z.add_0_r, E by lia. by rewrite E1, lookup_insert_eq.
    + intros Hi. rewrite <- (D _ _ Hi). f_equal. lia.
  - intros k Hk. pose proof (zlen_nonneg (List.filter (subscribed ev) eps)). rewrite E by lia. rewrite E1, lookup_insert_ne by lia. done.
Qed.

(** Every enabled endpoint one of whose patterns matches gets exactly one
    delivery of the event, pending and with the same event key, no other
    endpoint gets any, and no delivery that was there changes. *)
Theorem fan_out_spec broker ev pl ei now s :
  wh_enabled settings = true -> wh_outbound settings = true ->
  map_Forall (fun _ e => textual e) (endpoints s) ->
  exists ms : list (Z * WebhookEndpoint),
    NoDup ms.*1
    /\ (forall k e, (k, e) ∈ ms <-> endpoints s !! k = Some e /\ ep_enabled e = true /\ endpoint_matches ev e = Some true)
    /\ let r := fan_out settings broker ev pl ei now s in
       r.1 = zlen ms
       /\ (forall i x, ms !! i = Some x ->
             deliveries r.2 !! (next_id s + Z.of_nat i) = Some (new_delivery x.1 ev pl ei (wh_max_attempts settings) now))
       /\ (forall k, k < next_id s \/ next_id s + zlen ms <= k -> deliveries r.2 !! k = deliveries s !! k).
Proof.
  intros H1 H2 Htx. set (eps := enabled_endpoints s).
  assert (forall k e, (k, e) ∈ eps <-> endpoints s !! k = Some e /\ ep_enabled e = true) as Heps.
  { intros k e. unfold eps, enabled_endpoints. rewrite merge_sort_Permutation, list_elem_of_filter, elem_of_map_to_list.
    cbn. tauto. }
  assert (NoDup eps.*1) as Hnd.
  { unfold eps, enabled_endpoints. rewrite merge_sort_Permutation. eapply sublist_NoDup; [apply (NoDup_fst_map_to_list (endpoints s))|].
    apply fmap_sublist, sublist_filter. }
  exists (List.filter (subscribed ev) eps). split.
  { eapply sublist_NoDup; [exact Hnd|]. apply fmap_sublist. clear. induction eps as [|x l IH]; cbn; [done|].
    destruct (subscribed ev x); by constructor. }
  split.
  { intros k e. rewrite list_elem_of_In, List.filter_In, <- list_elem_of_In, Heps. unfold subscribed. cbn.
    split; [intros [[? ?] Hs]|intros (? & ? & Hs)]; [|by rewrite Hs].
    split_and!; [done|done|]. destruct (endpoint_matches ev e) as [[]|]; done. }
  cbn zeta. unfold fan_out. rewrite H1, H2. cbn [negb].
  destruct (fan_loop_spec broker ev pl ei now eps 0 s) as (A & _ & _ & D & E).
  { apply Forall_forall. intros [k e] Hin. apply Heps in Hin as [Hk _]. by apply (Htx k). }
  split_and!; [etrans; [exact A|lia]|exact D|exact E].
Qed.

(** ** Replays *)

(** A replay leaves the dead letters dead. *)
Lemma replay_keeps broker l now s k :
  k < next_id s -> deliveries (replay_each broker l now s).2 !! k = deliveries s !! k.
Proof.
  revert s. induction l as [|[pk d] l IH]; intros s Hk; cbn [replay_each]; [done|].
  destruct (replay_delivery broker d now s) as [new s1] eqn:E1. destruct (replay_each broker l now s1) as [news s2] eqn:E2.
  cbn. replace s2 with (replay_each broker l now s1).2 by by rewrite E2.
  assert (s1 = (send_new broker (replay_of d now) s).2) as E.
  { unfold replay_delivery in E1. by rewrite E1. }
  destruct (send_new_rows broker (replay_of d now) s) as (A & B & _). rewrite <- E in A, B.
  rewrite IH by lia. by rewrite A, lookup_insert_ne by lia.
Qed.
End Fanning.

Section Admission.
Context `{WebLib} (settings : WebhookSettings) (hooks : Registries).

(** ** Inbound requests *)

Definition receipts_fresh (s : Hub) : Prop := forall k, is_Some (receipts s !! k) -> k < next_id s.

Definition self_origin (rc : WebhookReceiver) (rq : HttpRequest) : bool :=
  let origin := default [] (request_header ORIGIN_HEADER rq) in
  nonempty (rc_ignore_origin rc) && nonempty origin && str_eqb origin (rc_ignore_origin rc).

Lemma receiver_at_Some slug s pk rc :
  receiver_at slug s = Some (pk, rc) -> receivers s !! pk = Some rc /\ rc_slug rc = slug /\ rc_enabled rc = true.
Proof.
  unfold receiver_at. intros [Hin Hb]%List.find_some. apply list_elem_of_In, elem_of_map_to_list in Hin.
  apply andb_true_iff in Hb as [Hs He]. unfold str_eqb in Hs. by apply bool_decide_eq_true in Hs.
Qed.

Lemma recent_insert s pk now r :
  receipts_fresh s ->
  recent_rejections pk now (insert_receipt r s).2
  = recent_rejections pk now s
    + (if bool_decide (rt_receiver r = pk /\ rt_status r = RT_REJECTED /\ now - 60 * SECOND <= rt_received_at r) then 1 else 0).
Proof.
  intros Hf. unfold recent_rejections, insert_receipt, zlen. cbn.
  assert (receipts s !! next_id s = None) as Hnone.
  { destruct (receipts s !! next_id s) eqn:E; [|done]. assert (next_id s < next_id s); [apply Hf; by eexists|lia]. }
  rewrite (map_to_list_insert _ _ _ Hnone), filter_cons. cbn. case_decide; case_bool_decide; try done; cbn; lia.
Qed.

Lemma count_recent pk0 pk now s : recent_rejections pk now (count_received pk0 now s) = recent_rejections pk now s.
Proof. done. Qed.

(** What being let in means: the route is on, an enabled receiver has the slug
    and does not take the request for a handshake, its body is within the size
    limit, its signature verified if the receiver requires one, and it is not
    our own event echoed. *)
Definition lets_in (slug : pystr) (rq : HttpRequest) (s : Hub) (pk : Z) (rc : WebhookReceiver) : Prop :=
  wh_enabled settings = true /\ wh_inbound settings = true /\ receiver_at slug s = Some (pk, rc)
  /\ (challenge ← get_challenge hooks (rc_challenge rc); challenge rq rc) = None
  /\ declared_length rq <= wh_inbound_max_bytes settings /\ zlen (rq_body rq) <= wh_inbound_max_bytes settings
  /\ (rc_require_signature rc = true -> verified_by hooks rc rq = true) /\ self_origin rc rq = false.

(** What a request that is let in leaves, and one that is not. *)
Definition taken_in (broker : Job -> bool) (rq : HttpRequest) (now : Z) (s : Hub) (pk : Z) (rc : WebhookReceiver)
    (answer : HttpResponse) (s' : Hub) : Prop :=
  rs_status answer = 202 /\ jobs s' = jobs s ++ (if broker (Dispatch (next_id s)) then [Dispatch (next_id s)] else [])
  /\ receipts s' = <[next_id s := received pk rq (default [] (request_header ORIGIN_HEADER rq)) (verified_by hooks rc rq)
                                   RT_ACCEPTED [] now]> (receipts s).
Definition turned_away (rq : HttpRequest) (now : Z) (s s' : Hub) : Prop :=
  jobs s' = jobs s
  /\ (forall k r, receipts s' !! k = Some r -> receipts s !! k = None -> rt_status r <> RT_ACCEPTED)
  /\ (forall pk, recent_rejections pk now s' <= Z.max (recent_rejections pk now s) (wh_rejected_per_minute settings))
  /\ (forall k r, receipts s' !! k = Some r -> receipts s !! k = None -> rt_status r = RT_REJECTED ->
       rt_verified r = false /\ rt_body r = decode_replace (slice_to EXCERPT (rq_body rq))).

(** C28: An inbound request is answered 202, kept as one accepted receipt and put on
    the queue for its handler exactly when the route is on, an enabled receiver
    has the slug, no handshake answers it, its body is within the size limit,
    its signature verified if the receiver requires one, and it is not our own
    event echoed. In every other case nothing is queued and no receipt is an
    accepted one, and a request turned away for its signature is kept at most
    as often in a minute as the limit says, with no more than the first 1 KB
    of its body. *)
Theorem incoming_admission broker slug rq now s :
  receipts_fresh s ->
  let '(answer, s') := incoming_webhook settings hooks broker slug rq now s in
  (forall pk rc, lets_in slug rq s pk rc -> taken_in broker rq now s pk rc answer s')
  /\ ((forall pk rc, ~ lets_in slug rq s pk rc) -> turned_away rq now s s').
Proof.
  intros Hf. unfold incoming_webhook.
  assert (Hsame : turned_away rq now s s) by (split_and!; [done|congruence|lia|congruence]).
  destruct (wh_enabled settings) eqn:E1; [|split; [by intros ?? [? _]; congruence|done]].
  destruct (wh_inbound settings) eqn:E2; [|split; [by intros ?? (_ & ? & _); congruence|done]]. cbn [negb orb].
  destruct (receiver_at slug s) as [[pk rc]|] eqn:Hr; [|split; [by intros ?? (_ & _ & ? & _); congruence|done]].
  assert (Only : forall pk' rc', lets_in slug rq s pk' rc' -> pk' = pk /\ rc' = rc)
    by (intros ?? (_ & _ & H' & _); rewrite Hr in H'; by simplify_eq).
  destruct (mbind _ _) as [answer|] eqn:Hc.
  { split; [|done]. intros pk' rc' Hl. destruct (Only _ _ Hl) as [-> ->]. destruct Hl as (_ & _ & _ & H' & _). congruence. }
  destruct (_ <? declared_length rq) eqn:Hd.
  { split; [|done]. intros pk' rc' Hl. destruct (Only _ _ Hl) as [-> ->]. destruct Hl as (_ & _ & _ & _ & H' & _). lia. }
  destruct (_ <? zlen (rq_body rq)) eqn:Hb.
  { split; [|done]. intros pk' rc' Hl. destruct (Only _ _ Hl) as [-> ->]. destruct Hl as (_ & _ & _ & _ & _ & H' & _). lia. }
  bool_to_prop. unfold receive. fold (self_origin rc rq).
  destruct (rc_require_signature rc && negb (verified_by hooks rc rq)) eqn:Hv.
  - apply andb_true_iff in Hv as [Hv1 Hv2%negb_true_iff]. split.
    { intros pk' rc' Hl. destruct (Only _ _ Hl) as [-> ->]. destruct Hl as (_ & _ & _ & _ & _ & _ & H' & _).
      rewrite H' in Hv2 by done. done. }
    intros _. destruct (_ <? wh_rejected_per_minute settings) eqn:Hlim; [|done]. bool_to_prop. split_and!.
    + done.
    + intros k r. cbn. rewrite lookup_insert_Some. intros [[<- <-]|[_ ?]]; [done|congruence].
    + intros k. rewrite recent_insert by done. destruct (decide (k = pk)) as [->|Hne]; [case_bool_decide; lia|].
      rewrite bool_decide_false; [lia|]. cbn. intros [? _]. done.
    + intros k r. cbn. rewrite lookup_insert_Some. intros [[<- <-]|[_ ?]]; [done|congruence].
  - destruct (self_origin rc rq) eqn:Hself.
    + split; [intros pk' rc' Hl; destruct (Only _ _ Hl) as [-> ->]; destruct Hl as (_ & _ & _ & _ & _ & _ & _ & H'); congruence|].
      intros _. split_and!.
      * done.
      * intros k r. cbn. rewrite lookup_insert_Some. intros [[<- <-]|[_ ?]]; [done|congruence].
      * intros k. rewrite count_recent, recent_insert by done. rewrite bool_decide_false; [lia|]. by intros (_ & ? & _).
      * intros k r. cbn. rewrite lookup_insert_Some. intros [[<- <-]|[_ ?]]; [done|congruence].
    + set (rt := received pk rq _ _ RT_ACCEPTED [] now).
      change (insert_receipt rt s) with (next_id s, (insert_receipt rt s).2). cbv beta iota. split.
      * intros pk' rc' Hl. destruct (Only _ _ Hl) as [-> ->]. unfold taken_in, enqueue. destruct (broker _); cbn;
          (split_and!; [done|by rewrite ?app_nil_r|done]).
      * intros Hno. exfalso. apply (Hno pk rc). split_and!; try done. intros Hreq. rewrite Hreq in Hv. by destruct (verified_by hooks rc rq).
Qed.
End Admission.

(** ** Rows picked out of a table *)

Section Picked.
Context {A : Type} (P : Z * A -> Prop) `{!forall x, Decision (P x)}.

Lemma picked_one (m : gmap Z A) k v :
  m !! k = Some v -> P (k, v) -> (forall k' v', m !! k' = Some v' -> P (k', v') -> k' = k) ->
  filter P (map_to_list m) = [(k, v)].
Proof.
  intros Hk HP Huniq. apply Permutation_singleton_r, NoDup_Permutation.
  - apply NoDup_filter, NoDup_map_to_list.
  - apply NoDup_singleton.
  - intros [k' v']. rewrite list_elem_of_filter, elem_of_map_to_list, list_elem_of_singleton. split.
    + intros [HP' Hk']. assert (k' = k) as -> by by eapply Huniq. congruence.
    + by intros [= -> ->].
Qed.

Lemma picked_none (m : gmap Z A) :
  filter P (map_to_list m) = [] <-> forall k v, m !! k = Some v -> ~ P (k, v).
Proof.
  split.
  - intros E k v Hk HP. assert ((k, v) ∈ filter P (map_to_list m)) as Hin.
    { by rewrite list_elem_of_filter, elem_of_map_to_list. }
    rewrite E in Hin. by apply elem_of_nil in Hin.
  - intros Hno. destruct (filter P (map_to_list m)) as [|[k v] l] eqn:E; [done|].
    assert ((k, v) ∈ filter P (map_to_list m)) as Hin by (rewrite E; by left).
    rewrite list_elem_of_filter, elem_of_map_to_list in Hin. destruct Hin as [HP Hk]. by destruct (Hno k v).
Qed.

Lemma picked_single (m : gmap Z A) k v :
  filter P (map_to_list m) = [(k, v)] ->
  m !! k = Some v /\ P (k, v) /\ forall k' v', m !! k' = Some v' -> P (k', v') -> k' = k.
Proof.
  intros E. assert (forall x, x ∈ filter P (map_to_list m) <-> x = (k, v)) as Hin.
  { intros x. by rewrite E, list_elem_of_singleton. }
  pose proof (proj2 (Hin _) eq_refl) as Hk. rewrite list_elem_of_filter, elem_of_map_to_list in Hk.
  destruct Hk as [HP Hk]. split_and!; [done|done|]. intros k' v' Hk' HP'.
  assert ((k', v') = (k, v)); [|congruence]. apply Hin. by rewrite list_elem_of_filter, elem_of_map_to_list.
Qed.
End Picked.

Lemma filter_first {A} (P : Z * A -> bool) (m : gmap Z A) k v :
  m !! k = Some v -> P (k, v) = true -> (forall k' v', m !! k' = Some v' -> P (k', v') = true -> k' = k) ->
  List.find P (map_to_list m) = Some (k, v).
Proof.
  intros Hk HP Huniq. destruct (List.find P (map_to_list m)) as [[k' v']|] eqn:E.
  - apply List.find_some in E as [Hin HP']. apply list_elem_of_In, elem_of_map_to_list in Hin.
    assert (k' = k) as -> by by eapply Huniq. congruence.
  - exfalso. assert (P (k, v) = false); [|congruence].
    apply (List.find_none _ _ E). by apply list_elem_of_In, elem_of_map_to_list.
Qed.

(** ** Pairing *)

Section Pairing.
Context `{WebLib} (settings : WebhookSettings).

Definition keys_fresh (s : Hub) : Prop :=
  (forall k, is_Some (endpoints s !! k) -> k < next_id s) /\ (forall k, is_Some (receivers s !! k) -> k < next_id s).

(** [slug] is a unique column. *)
Definition slugs_unique (s : Hub) : Prop :=
  forall k1 k2 r1 r2, receivers s !! k1 = Some r1 -> receivers s !! k2 = Some r2 -> rc_slug r1 = rc_slug r2 -> k1 = k2.

Lemma fresh_none {A} (m : gmap Z A) n : (forall k, is_Some (m !! k) -> k < n) -> m !! n = None.
Proof. intros Hf. destruct (m !! n) eqn:E; [|done]. assert (n < n); [apply Hf; by eexists|lia]. Qed.

Definition only_paired (target : pystr) (s : Hub) (k : Z) : Prop :=
  forall k' e, endpoints s !! k' = Some e -> ep_target_url e = target -> ep_is_paired e = true -> k' = k.

(** What the outbound half leaves: the one paired endpoint of the target. *)
Lemma pair_endpoint_spec a fresh s pk e created s1 :
  keys_fresh s -> pair_endpoint a fresh s = Ok (pk, e, created, s1) ->
  endpoints s1 !! pk = Some e /\ receivers s1 = receivers s /\ next_id s <= next_id s1 /\ keys_fresh s1
  /\ only_paired (pa_target_url a) s1 pk
  /\ ep_target_url e = pa_target_url a /\ ep_is_paired e = true /\ ep_transform e = DEFAULT_TRANSFORM
  /\ ep_auth_scheme e = DEFAULT_AUTH
  /\ paired_config a (or_text (pa_send_secret a) (pa_secret a)) e = e
  /\ match or_text (pa_send_secret a) (pa_secret a) with Some (c :: t) => ep_secret e = c :: t | _ => True end.
Proof.
  intros [Hfe Hfr]. unfold pair_endpoint. destruct (paired_endpoints (pa_target_url a) s) as [|[k e0] []] eqn:E; [| |done].
  - intros [= <- <- <- <-]. pose proof (proj1 (picked_none _ _) E) as Hnone. cbn. split_and!; try done.
    + apply lookup_insert_eq.
    + lia.
    + split; cbn; intros k Hk; [|specialize (Hfr k Hk); lia].
      destruct (decide (k = next_id s)) as [->|Hne]; [lia|]. rewrite lookup_insert_ne in Hk by done.
      specialize (Hfe k Hk). lia.
    + intros k' e. cbn. rewrite lookup_insert_Some. intros [[<- _]|[_ Hk']]; [done|]. intros Ht Hp.
      by destruct (Hnone k' e Hk').
    + unfold new_paired_endpoint, paired_config. by destruct (or_text _ _) as [[]|].
    + by destruct (or_text _ _) as [[]|].
  - intros [= <- <- <- <-]. destruct (picked_single _ _ _ _ E) as (Hk & [Ht Hp] & Huniq). cbn in Ht, Hp.
    cbn. split_and!; try done.
    + apply lookup_insert_eq.
    + split; cbn; intros k' Hk'; [|by apply Hfr]. apply Hfe.
      destruct (decide (k' = k)) as [->|Hne]; [by eexists|by rewrite lookup_insert_ne in Hk'].
    + intros k' e. cbn. rewrite lookup_insert_Some. intros [[<- _]|[_ Hk']]; [done|]. intros Ht' Hp'. by apply (Huniq k' e).
    + unfold paired_config. by destruct (or_text _ _) as [[]|].
    + unfold paired_config. by destruct (or_text _ _) as [[]|].
    + unfold paired_config. by destruct (or_text _ _) as [[]|].
    + unfold paired_config. by destruct (or_text _ _) as [[]|].
    + unfold paired_config. by destruct (or_text _ _) as [[]|].
    + unfold paired_config. by destruct (or_text _ _) as [[]|].
Qed.

Lemma hub_endpoint_id s pk e : endpoints s !! pk = Some e -> s <| endpoints := <[pk := e]> (endpoints s) |> = s.
Proof. intros He. destruct s. cbn in *. by rewrite insert_id. Qed.
Lemma hub_receiver_id s pk r : receivers s !! pk = Some r -> s <| receivers := <[pk := r]> (receivers s) |> = s.
Proof. intros Hr. destruct s. cbn in *. by rewrite insert_id. Qed.

(** Where the one paired endpoint is configured already, nothing changes. *)
Lemma pair_endpoint_again a fresh s pk e :
  endpoints s !! pk = Some e -> only_paired (pa_target_url a) s pk -> ep_target_url e = pa_target_url a ->
  ep_is_paired e = true -> paired_config a (or_text (pa_send_secret a) (pa_secret a)) e = e ->
  pair_endpoint a fresh s = Ok (pk, e, false, s).
Proof.
  intros He Huniq Ht Hp Hc. unfold pair_endpoint. 
  assert (paired_endpoints (pa_target_url a) s = [(pk, e)]) as ->.
  { apply picked_one; [done|done|]. intros k' v' Hk' [Ht' Hp']. by eapply Huniq. }
  by rewrite Hc, hub_endpoint_id.
Qed.

(** The inbound half. *)
Lemma pair_receiver_spec a origin slug fresh s pk r s1 :
  keys_fresh s -> slugs_unique s -> pair_receiver a origin slug fresh s = Ok (pk, r, s1) ->
  receivers s1 !! pk = Some r /\ endpoints s1 = endpoints s /\ slugs_unique s1
  /\ rc_slug r = slug /\ rc_is_paired r = true /\ rc_require_signature r = true /\ rc_enabled r = true
  /\ rc_verifier r = DEFAULT_VERIFIER /\ rc_ignore_origin r = origin
  /\ paired_receiver a origin (or_text (pa_recv_secret a) (pa_secret a)) r = r
  /\ match or_text (pa_recv_secret a) (pa_secret a) with Some (c :: t) => rc_secret r = c :: t | _ => True end
  /\ (forall b, receivers_at b false s1 = [] <-> receivers_at b false s = []).
Proof.
  intros [_ Hfr] Hu. pose proof (fresh_none _ _ Hfr) as Hnew. unfold pair_receiver.
  destruct (receivers_at slug true s) as [|[k r0] []] eqn:E; [| |done].
  - destruct (receivers_at slug false s) eqn:E'; [|done]. intros [= <- <- <-].
    pose proof (proj1 (picked_none _ _) E) as Hn1. pose proof (proj1 (picked_none _ _) E') as Hn2.
    assert (forall k r, receivers s !! k = Some r -> rc_slug r <> slug) as Hno.
    { intros k r Hk Hs. destruct (rc_is_paired r) eqn:Hp; [by destruct (Hn1 k r Hk)|by destruct (Hn2 k r Hk)]. }
    cbn. split_and!; try done.
    + apply lookup_insert_eq.
    + intros k1 k2 r1 r2. cbn. rewrite !lookup_insert_Some.
      intros [[<- <-]|[_ H1]] [[<- <-]|[_ H2]]; cbn; [done|intros E2; by destruct (Hno _ _ H2)|intros E2; by destruct (Hno _ _ H1)|].
      by apply Hu.
    + unfold new_paired_receiver, paired_receiver. by destruct (or_text _ _) as [[]|].
    + by destruct (or_text _ _) as [[]|].
    + intros b. unfold receivers_at. cbn. rewrite !picked_none. split; intros Hall k r Hk.
      * apply Hall. rewrite lookup_insert_ne; [done|]. intros <-. congruence.
      * apply lookup_insert_Some in Hk as [[<- <-]|[_ Hk]]; [by intros [_ ?]|by apply Hall].
  - intros [= <- <- <-]. destruct (picked_single _ _ _ _ E) as (Hk & [Hs Hp] & Huniq). cbn in Hs, Hp.
    set (r := paired_receiver a origin _ r0).
    assert (rc_slug r = rc_slug r0 /\ rc_is_paired r = rc_is_paired r0) as [Er Ep].
    { subst r. unfold paired_receiver. by destruct (or_text _ _) as [[]|]. }
    cbn. split_and!; try done; try (subst r; unfold paired_receiver; by destruct (or_text _ _) as [[]|]).
    + apply lookup_insert_eq.
    + intros k1 k2 r1 r2. cbn. rewrite !lookup_insert_Some.
      intros [[<- <-]|[_ H1]] [[<- <-]|[_ H2]]; [done| | |by apply Hu]; rewrite Er; by apply Hu.
    + intros b. unfold receivers_at. cbn. rewrite !picked_none. split; intros Hall k' r' Hk'.
      * destruct (decide (k' = k)) as [->|Hne].
        -- assert (r' = r0) as -> by congruence. by intros [_ ?]; cbn in *; congruence.
        -- apply Hall. by rewrite lookup_insert_ne.
      * apply lookup_insert_Some in Hk' as [[<- <-]|[_ Hk']]; [|by apply Hall].
        intros [_ Hf]. cbn [snd] in Hf. congruence.
Qed.

Lemma pair_receiver_again a origin slug fresh s pk r :
  receivers s !! pk = Some r -> slugs_unique s -> rc_slug r = slug -> rc_is_paired r = true ->
  paired_receiver a origin (or_text (pa_recv_secret a) (pa_secret a)) r = r ->
  pair_receiver a origin slug fresh s = Ok (pk, r, s).
Proof.
  intros Hr Hu Hs Hp Hc. unfold pair_receiver.
  assert (receivers_at slug true s = [(pk, r)]) as ->.
  { apply picked_one; [done|done|]. intros k' v' Hk' [Hs' _]. cbn in Hs'. eapply Hu; [done|done|congruence]. }
  by rewrite Hc, hub_receiver_id.
Qed.

Lemma receiver_slug_ext a s s' :
  (forall b, receivers_at b false s' = [] <-> receivers_at b false s = []) -> receiver_slug a s' = receiver_slug a s.
Proof.
  intros Hb. unfold receiver_slug. destruct (match pa_slug a with Some (_ :: _) => _ | _ => _ end) as [b|]; [|done]. cbn.
  destruct (pa_slug a); [done|]. specialize (Hb b).
  destruct (receivers_at b false s'), (receivers_at b false s); try done; naive_solver.
Qed.

Lemma pair_endpoint_receivers a fresh s pk e created s1 :
  keys_fresh s -> pair_endpoint a fresh s = Ok (pk, e, created, s1) ->
  forall b, receivers_at b false s1 = [] <-> receivers_at b false s = [].
Proof.
  intros Hf Hp b. destruct (pair_endpoint_spec _ _ _ _ _ _ _ Hf Hp) as (_ & E & _).
  unfold receivers_at. by rewrite E.
Qed.

(** The two halves of a pairing that succeeded. *)
Lemma pair_smallstack_Ok a f1 f2 s res s' :
  pa_one_way a = false -> pair_smallstack settings a f1 f2 s = (Ok res, s') ->
  exists origin slug pk e created s1 rpk r,
    our_origin settings = Some origin /\ receiver_slug a s = Some slug
    /\ pair_endpoint a f1 s = Ok (pk, e, created, s1) /\ pair_receiver a origin slug f2 s1 = Ok (rpk, r, s')
    /\ pr_endpoint_id res = pk /\ pr_receiver_id res = Some rpk /\ pr_receiver_slug res = Some slug
    /\ pr_send_secret res = ep_secret e /\ pr_recv_secret res = rc_secret r /\ pr_origin res = origin
    /\ pr_events res = events_of a
    /\ pr_inbound_url_absolute res = Some (inbound_absolute origin slug)
    /\ pr_mirror_command res
       = mirror_command (inbound_absolute origin slug) (rc_secret r) (ep_secret e) (events_of a)
    /\ is_Some (url_is_allowed settings (pa_target_url a)).
Proof.
  intros Hw. unfold pair_smallstack. destruct (our_origin settings) as [origin|]; [|done].
  destruct (receiver_slug a s) as [slug|]; [|done].
  destruct (pair_endpoint a f1 s) as [[[[pk e] created] s1]|] eqn:E1; [|done]. rewrite Hw.
  destruct (pair_receiver a origin slug f2 s1) as [[[rpk r] s2]|] eqn:E2; [|done].
  destruct (url_is_allowed settings (pa_target_url a)) as [[ok reason]|] eqn:E3; [|done].
  intros [= <- <-]. exists origin, slug, pk, e, created, s1, rpk, r. split_and!; done.
Qed.

(** Pairing again with the same target changes nothing: the same endpoint and
    receiver, the same two secrets although none is given, no new row, and the
    same command for the peer. *)
Theorem pair_idempotent a f1 f2 g1 g2 s res s' :
  keys_fresh s -> slugs_unique s -> pa_one_way a = false ->
  pair_smallstack settings a f1 f2 s = (Ok res, s') ->
  exists res', pair_smallstack settings a g1 g2 s' = (Ok res', s')
    /\ pr_endpoint_id res' = pr_endpoint_id res /\ pr_receiver_id res' = pr_receiver_id res
    /\ pr_send_secret res' = pr_send_secret res /\ pr_recv_secret res' = pr_recv_secret res
    /\ pr_receiver_slug res' = pr_receiver_slug res /\ pr_mirror_command res' = pr_mirror_command res
    /\ pr_endpoint_created res' = false.
Proof.
  intros Hf Hu Hw Hp.
  destruct (pair_smallstack_Ok _ _ _ _ _ _ Hw Hp)
    as (origin & slug & pk & e & created & s1 & rpk & r & Ho & Hs & He & Hr & -> & -> & -> & -> & -> & _ & _ & _ & -> & Hurl).
  destruct (pair_endpoint_spec _ _ _ _ _ _ _ Hf He) as (A1 & A2 & A3 & A4 & A5 & A6 & A7 & _ & _ & A8 & _).
  assert (slugs_unique s1) as Hu1 by (unfold slugs_unique in *; by rewrite A2).
  destruct (pair_receiver_spec _ _ _ _ _ _ _ _ A4 Hu1 Hr) as (B1 & B2 & B3 & B4 & B5 & _ & _ & _ & _ & B6 & _ & B7).
  assert (receiver_slug a s' = Some slug) as Hs'.
  { rewrite <- Hs. apply receiver_slug_ext. intros b. rewrite B7. by eapply pair_endpoint_receivers. }
  assert (only_paired (pa_target_url a) s' pk) as Ho' by (unfold only_paired in *; by rewrite B2).
  unfold pair_smallstack. rewrite Ho, Hs', Hw.
  rewrite (pair_endpoint_again a g1 s' pk e) by (try done; by rewrite B2).
  rewrite (pair_receiver_again a origin slug g2 s' rpk r) by done.
  destruct Hurl as [[ok reason] ->]. eexists. split; [done|]. by split_and!.
Qed.
End Pairing.

(** ** A delivery from one installation to the other *)

Section Link.
Context `{WebLib}.

(** The header a request carries to the peer: urllib's spelling, looked up as
    the peer does. *)
Definition transports (w : Wire) (rq : HttpRequest) : Prop :=
  rq_body rq = wr_body w
  /\ CaseInsensitiveDict.well_keyed (rq_headers rq)
  /\ forall k v, dict_get (wire_headers (wr_headers w)) k = Some v -> request_header k rq = Some v.

Lemma request_header_lower k k' rq : lower k = lower k' -> request_header k rq = request_header k' rq.
Proof. intros E. unfold request_header. by rewrite E. Qed.

Lemma wire_headers_last headers k v :
  dict_get (wire_headers (headers ++ [(k, v)])) (capitalize k) = Some v.
Proof. unfold wire_headers. rewrite foldl_app. cbn. rewrite dict_get_set. by rewrite decide_True. Qed.

Lemma wire_headers_other headers k v k' :
  capitalize k <> k' -> dict_get (wire_headers (headers ++ [(k, v)])) k' = dict_get (wire_headers headers) k'.
Proof. intros Hne. unfold wire_headers. rewrite foldl_app. cbn. rewrite dict_get_set. by rewrite decide_False. Qed.

Lemma of_items_id {A} (d : list (pystr * A)) :
  CaseInsensitiveDict.well_keyed d -> CaseInsensitiveDict.of_items d = d.
Proof.
  unfold CaseInsensitiveDict.of_items, CaseInsensitiveDict.update. rewrite <- (app_nil_l d) at 1 3.
  generalize (@nil (pystr * A)) as acc. induction d as [|[k v] d IH]; intros acc Hw; cbn [foldl fst snd]; [by rewrite app_nil_r|].
  assert (CaseInsensitiveDict.setitem acc k v = acc ++ [(k, v)]) as ->.
  { unfold CaseInsensitiveDict.well_keyed, CaseInsensitiveDict.names in Hw.
    rewrite fmap_app in Hw. cbn in Hw. apply NoDup_app in Hw as (_ & Hdis & _).
    unfold CaseInsensitiveDict.setitem. destruct (CaseInsensitiveDict.actual_key acc k) as [k'|] eqn:E; cbn.
    - apply CaseInsensitiveDict.actual_key_Some in E as [Hk El].
      destruct (Hdis (lower k')); [by apply CaseInsensitiveDict.names_keys|rewrite El; by left].
    - apply CaseInsensitiveDict.actual_key_None in E. apply dict_set_new.
      by intros ?%CaseInsensitiveDict.names_keys. }
  rewrite IH; [by rewrite <- app_assoc|]. by rewrite <- app_assoc.
Qed.

Lemma capital_signature : lower (capitalize SIGNATURE_HEADER) = lower SIGNATURE_HEADER.
Proof. by_compute. Qed.
Lemma capital_origin : lower (capitalize ORIGIN_HEADER) = lower ORIGIN_HEADER.
Proof. by_compute. Qed.

(** The headers [prepare] sets before the seams add theirs. *)
Definition base_headers (content_type event_type pk origin : pystr) (event_id : option pystr) : list (pystr * pystr) :=
  let h := [(u "Content-Type", content_type); (EVENT_HEADER, event_type); (DELIVERY_HEADER, pk); (ORIGIN_HEADER, origin);
            (u "User-Agent", u "SmallStack-Webhooks/1.0")] in
  match event_id with Some i => h ++ [(EVENT_ID_HEADER, i)] | None => h end.

Lemma base_headers_keys ct ev pk o i : SIGNATURE_HEADER ∉ (base_headers ct ev pk o i).*1.
Proof. by destruct i; cbn; by_compute. Qed.

Lemma base_headers_origin ct ev pk o i :
  dict_get (wire_headers (base_headers ct ev pk o i)) (capitalize ORIGIN_HEADER) = Some o.
Proof.
  set (h4 := [(u "Content-Type", ct); (EVENT_HEADER, ev); (DELIVERY_HEADER, pk)]).
  assert (dict_get (wire_headers ((h4 ++ [(ORIGIN_HEADER, o)]) ++ [(u "User-Agent", u "SmallStack-Webhooks/1.0")]))
            (capitalize ORIGIN_HEADER) = Some o) as Ho.
  { rewrite wire_headers_other by by_compute. apply wire_headers_last. }
  destruct i as [i|]; [|exact Ho]. unfold base_headers. rewrite wire_headers_other by by_compute. exact Ho.
Qed.

(** A delivery of an endpoint with the built-in seams and no static header. *)
Lemma prepare_default settings hooks dumps pk d e w :
  grown dumps hooks -> ep_transform e = DEFAULT_TRANSFORM -> ep_auth_scheme e = DEFAULT_AUTH -> ep_headers e = [] ->
  prepare settings hooks pk d e = Some w ->
  exists origin value, our_origin settings = Some origin /\ signature_header_value (ep_secret e) (wr_body w) = Some value
    /\ dict_get (wire_headers (wr_headers w)) (capitalize SIGNATURE_HEADER) = Some value
    /\ dict_get (wire_headers (wr_headers w)) (capitalize ORIGIN_HEADER) = Some origin.
Proof.
  intros (Ht & Ha & _)%get_default Et Ea Eh. unfold prepare. rewrite Et, Ea, Eh, Ht, Ha. cbn [mbind option_bind].
  unfold default_transform. cbn [tf_body tf_content_type].
  destruct (our_origin settings) as [origin|]; [|done]. cbn [mbind option_bind].
  set (body := dumps (dl_payload d)).
  set (h := match dl_event_id d with Some i => _ | None => _ end).
  assert (h = base_headers (u "application/json") (dl_event_type d) (str_of_Z pk) origin (dl_event_id d)) as ->.
  { subst h. destruct (dl_event_id d); [|done]. apply dict_set_new. cbn. by_compute. }
  unfold default_auth. cbn [or_body tf_body tf_content_type].
  destruct (signature_header_value (ep_secret e) body) as [value|] eqn:Ev; [|done]. cbn [mbind option_bind ar_headers ar_params].
  intros Hw. apply (inj Some) in Hw as <-. cbn [wr_headers wr_body]. unfold merge_static. cbn [foldl].
  unfold dict_update. cbn [foldl fst snd]. rewrite dict_set_new by apply base_headers_keys.
  exists origin, value. split_and!; [done|done|apply wire_headers_last|].
  rewrite wire_headers_other by by_compute. apply base_headers_origin.
Qed.

Lemma receiver_found s k r :
  receivers s !! k = Some r -> rc_enabled r = true -> slugs_unique s -> receiver_at (rc_slug r) s = Some (k, r).
Proof.
  intros Hr He Hu. unfold receiver_at. apply filter_first; [done| |].
  - cbn. rewrite He, andb_true_r. unfold str_eqb. by rewrite bool_decide_true.
  - intros k' r' Hr' Hb. cbn in Hb. apply andb_true_iff in Hb as [Hs _]. unfold str_eqb in Hs.
    apply bool_decide_eq_true in Hs. by eapply Hu.
Qed.

Lemma default_verified hooks dumps r rq value :
  grown dumps hooks -> rc_verifier r = DEFAULT_VERIFIER -> CaseInsensitiveDict.well_keyed (rq_headers rq) ->
  rc_secret r <> [] -> signature_header_value (rc_secret r) (rq_body rq) = Some value ->
  request_header (rc_signature_header r) rq = Some value -> verified_by hooks r rq = true.
Proof.
  intros (_ & _ & Hv)%get_default Er Hk Hs Hval Hreq. unfold verified_by. rewrite Er, Hv, of_items_id by done.
  unfold default_verifier.
  assert (provided_signature (rq_headers rq) r = value) as ->; [|by rewrite (signature_accepted _ _ _ Hs Hval)].
  unfold provided_signature. unfold request_header in Hreq.
  destruct (List.find _ (rq_headers rq)) as [[k v]|]; [|done]. by injection Hreq as ->.
Qed.

(** The peer's view of a request signed under the secret of its receiver. *)
Lemma signed_admitted settings hooks dumps broker s k r rq value origin now :
  grown dumps hooks -> receivers s !! k = Some r -> slugs_unique s -> rc_enabled r = true ->
  rc_verifier r = DEFAULT_VERIFIER -> rc_challenge r = [] -> rc_secret r <> [] ->
  wh_enabled settings = true -> wh_inbound settings = true ->
  declared_length rq <= wh_inbound_max_bytes settings -> zlen (rq_body rq) <= wh_inbound_max_bytes settings ->
  CaseInsensitiveDict.well_keyed (rq_headers rq) ->
  signature_header_value (rc_secret r) (rq_body rq) = Some value ->
  request_header (rc_signature_header r) rq = Some value -> request_header ORIGIN_HEADER rq = Some origin ->
  let s' := (incoming_webhook settings hooks broker (rc_slug r) rq now s).2 in
  let status := (incoming_webhook settings hooks broker (rc_slug r) rq now s).1 in
  rs_status status = 202
  /\ receipts s' !! next_id s
     = Some (if nonempty (rc_ignore_origin r) && nonempty origin && str_eqb origin (rc_ignore_origin r)
             then received k rq origin true RT_IGNORED (u "self-originated event dropped (ignore_origin)") now
             else received k rq origin true RT_ACCEPTED [] now)
  /\ jobs s' = jobs s
     ++ (if nonempty (rc_ignore_origin r) && nonempty origin && str_eqb origin (rc_ignore_origin r)
         then [] else if broker (Dispatch (next_id s)) then [Dispatch (next_id s)] else []).
Proof.
  intros Hg Hr Hu Hen Hvf Hch Hsec He Hi Hl1 Hl2 Hk Hval Hsig Horg s' status. subst s' status.
  unfold incoming_webhook. rewrite He, Hi, (receiver_found _ _ _ Hr Hen Hu). cbn [negb orb]. rewrite Hch.
  change (get_challenge hooks []) with (@None ChallengeHook). cbn [mbind option_bind].
  rewrite !(proj2 (Z.ltb_ge _ _)) by done. unfold receive.
  rewrite (default_verified _ _ _ _ value Hg Hvf Hk Hsec Hval Hsig), andb_false_r, Horg. cbn [from_option id].
  destruct (nonempty (rc_ignore_origin r) && nonempty origin && str_eqb origin (rc_ignore_origin r)); cbn.
  - split_and!; [done|apply lookup_insert_eq|by rewrite app_nil_r].
  - unfold enqueue. destruct (broker _); cbn; (split_and!; [done|apply lookup_insert_eq|by rewrite ?app_nil_r]).
Qed.

(** *** The printed command, run *)

(** Text a shell takes as it stands. *)
Definition is_plain_char (c : Z) : bool :=
  is_ascii_upper c || is_ascii_lower c || is_decimal c || bool_decide (c ∈ u "-_./:@%+,=").
Definition plain (w : pystr) : Prop := w <> [] /\ Forall (fun c => is_plain_char c = true) w.

(** What a POSIX shell makes of plain words and one in single quotes. *)
Definition splits_words (shell : pystr -> option (list pystr)) : Prop :=
  forall words quoted, words <> [] -> Forall plain words -> 39 ∉ quoted ->
    shell (join (u " ") words ++ u " '" ++ quoted ++ u "'") = Some (words ++ [quoted]).

Definition mirror_words (absolute recv send : pystr) : list pystr :=
  [u "sc"; u "webhook"; u "pair"; u "--target"; absolute; u "--send-secret"; recv; u "--recv-secret"; send; u "--events"].

Lemma mirror_command_words absolute recv send events :
  mirror_command absolute recv send events
  = join (u " ") (mirror_words absolute recv send) ++ u " '" ++ dumps (JArr (JStr <$> events)) ++ u "'".
Proof.
  assert (E1 : u "sc webhook pair --target "
    = u "sc" ++ u " " ++ u "webhook" ++ u " " ++ u "pair" ++ u " " ++ u "--target" ++ u " ") by by_compute.
  assert (E2 : u " --send-secret " = u " " ++ u "--send-secret" ++ u " ") by by_compute.
  assert (E3 : u " --recv-secret " = u " " ++ u "--recv-secret" ++ u " ") by by_compute.
  assert (E4 : u " --events '" = u " " ++ u "--events" ++ u " '") by by_compute.
  unfold mirror_command, mirror_words. cbn [join]. rewrite E1, E2, E3, E4. by rewrite !app_assoc.
Qed.

Lemma patterns_text l : mapM pattern_text (JStr <$> l) = Some l.
Proof. induction l as [|t l IH]; [done|]. cbn. by rewrite IH. Qed.

Lemma plain_literals : Forall plain [u "sc"; u "webhook"; u "pair"; u "--target"; u "--send-secret"; u "--recv-secret"; u "--events"].
Proof. unfold plain. repeat constructor; by_compute. Qed.

(** The options of the printed command, in their order. *)
Lemma mirror_options absolute recv send events :
  dashed absolute = false -> dashed recv = false -> dashed send = false -> dashed events = false ->
  parse_pair [u "--target"; absolute; u "--send-secret"; recv; u "--recv-secret"; send; u "--events"; events]
  = Some (no_options <| po_target := Some absolute |> <| po_send_secret := Some recv |> <| po_recv_secret := Some send |>
            <| po_events := Some events |>).
Proof.
  intros D1 D2 D3 D4. unfold parse_pair.
  assert (N : dashed (u "--target") = true /\ str_eqb (u "--target") (u "--one-way") = false
    /\ str_eqb (u "--send-secret") (u "--one-way") = false /\ str_eqb (u "--recv-secret") (u "--one-way") = false
    /\ str_eqb (u "--events") (u "--one-way") = false) by by_compute.
  destruct N as (N1 & N2 & N3 & N4 & N5). rewrite N1. cbn [parse_options]. rewrite N2, D1, N3, D2, N4, D3, N5, D4.
  assert (W : forall v o, with_value (u "--target") v o = Some (o <| po_target := Some v |>)
    /\ with_value (u "--send-secret") v o = Some (o <| po_send_secret := Some v |>)
    /\ with_value (u "--recv-secret") v o = Some (o <| po_recv_secret := Some v |>)
    /\ with_value (u "--events") v o = Some (o <| po_events := Some v |>)) by (intros; split_and!; reflexivity).
  rewrite (proj1 (W _ _)). cbn [mbind option_bind]. rewrite (proj1 (proj2 (W _ _))). cbn [mbind option_bind].
  rewrite (proj1 (proj2 (proj2 (W _ _)))). cbn [mbind option_bind]. by rewrite (proj2 (proj2 (proj2 (W _ _)))).
Qed.

(** The two secrets and the address, as the peer takes them. *)
Definition swapped (absolute recv send : pystr) (events : list pystr) : PairArgs :=
  {| pa_target_url := absolute; pa_events := events; pa_name := None; pa_slug := None;
     pa_send_secret := Some recv; pa_recv_secret := Some send; pa_secret := None; pa_one_way := false; pa_owner := None |}.

Lemma run_mirror shell loads absolute recv send events :
  splits_words shell -> plain absolute -> plain recv -> plain send ->
  dashed absolute = false -> dashed recv = false -> dashed send = false ->
  let text := dumps (JArr (JStr <$> events)) in
  text <> [] -> 39 ∉ text -> dashed text = false -> loads text = Some (JArr (JStr <$> events)) ->
  run_line shell loads (mirror_command absolute recv send events) = Some (swapped absolute recv send events).
Proof.
  intros Sh P1 P2 P3 D1 D2 D3 text Ne Q D4 Ld. unfold run_line. rewrite mirror_command_words, Sh; [|done| |done].
  2: { pose proof plain_literals as L. rewrite Forall_forall in L |- *. intros w Hw. unfold mirror_words in Hw. set_solver. }
  fold text. unfold mirror_words. cbn [mbind option_bind app].
  assert (E : str_eqb (u "sc") (u "sc") && str_eqb (u "webhook") (u "webhook") && str_eqb (u "pair") (u "pair") = true) by by_compute.
  rewrite E, mirror_options by done. cbn [mbind option_bind]. unfold pair_args. cbn.
  destruct absolute as [|c absolute]; [by destruct P1|]. cbn. clearbody text. destruct text as [|c' t']; [done|].
  rewrite Ld, patterns_text. done.
Qed.

(** *** The way of a delivery *)

Lemma inbound_slug_own origin slug :
  is_http_url origin = true -> slug <> [] -> forallb is_slug_char slug = true ->
  inbound_slug origin (inbound_absolute origin slug) = Some slug.
Proof.
  intros Ho Hn Hs. unfold inbound_absolute. rewrite Ho. unfold inbound_slug, inbound_path.
  assert (rstrip_chars (u "/") origin ++ u "/webhooks/in/" ++ slug ++ u "/" = inbound_base origin ++ slug ++ u "/") as ->
    by (unfold inbound_base; by rewrite <- app_assoc).
  rewrite startswith_app, drop_app_length. assert (Hl : length (u "/") = 1%nat) by by_compute.
  rewrite length_app, Hl, Nat.add_sub, take_app_length. unfold str_eqb. rewrite bool_decide_true by done.
  rewrite (proj2 (nonempty_true slug)) by done. by rewrite Hs.
Qed.

Lemma default_slug target slug : pairing_slug target = Some slug -> slug <> [] /\ forallb is_slug_char slug = true.
Proof.
  unfold pairing_slug. intros (bs & _ & [= <-])%bind_Some.
  assert (P : u "paired-" <> [] /\ forallb is_slug_char (u "paired-") = true) by by_compute. destruct P as [P1 P2].
  split; [intros E; by apply app_eq_nil in E as [E _]|]. rewrite forallb_app, P2. apply forallb_forall. intros c Hc.
  apply list_elem_of_In in Hc. unfold slice_to in Hc. 
  pose proof (Forall_take (fun c => is_hex c = true) (Z.to_nat 8) _ (hexdigest_hex (sha256 bs))) as X.
  rewrite Forall_forall in X. specialize (X c Hc). revert X.
  unfold is_hex, is_slug_char, is_ascii_upper, is_ascii_lower, is_decimal. rewrite !orb_true_iff, !andb_true_iff, !Z.leb_le, !Z.eqb_eq. lia.
Qed.

Lemma receiver_slug_text a s slug :
  (forall t, pa_slug a = Some t -> forallb is_slug_char t = true) -> receiver_slug a s = Some slug ->
  slug <> [] /\ forallb is_slug_char slug = true.
Proof.
  intros Ha. unfold receiver_slug. intros (base & Hb & [= <-])%bind_Some.
  assert (B : base <> [] /\ forallb is_slug_char base = true).
  { destruct (pa_slug a) as [[|c t]|]; [by apply default_slug in Hb| |by apply default_slug in Hb].
    injection Hb as <-. split; [done|by apply Ha]. }
  destruct B as [B1 B2]. assert (P : forallb is_slug_char (u "-p") = true) by by_compute.
  repeat case_match; split; try done; [intros E; by apply app_eq_nil in E as [E _]|by rewrite forallb_app, B2, P].
Qed.

(** Every delivery of an endpoint, posted to its address, is let in by the
    installation there, for that receiver. *)
Definition delivers (setX : WebhookSettings) (hooksX : Registries) (e : WebhookEndpoint) (originX : pystr)
    (setY : WebhookSettings) (hooksY : Registries) (rid : Z) (originY : pystr) (s : Hub) : Prop :=
  forall pk d w rq broker now,
    prepare setX hooksX pk d e = Some w -> transports w rq ->
    declared_length rq <= wh_inbound_max_bytes setY -> zlen (wr_body w) <= wh_inbound_max_bytes setY ->
    exists answer s', arrives setY hooksY broker (ep_target_url e) rq now s = Some (answer, s')
      /\ rs_status answer = 202
      /\ (originX <> originY ->
          receipts s' !! next_id s = Some (received rid rq originX true RT_ACCEPTED [] now)
          /\ (broker (Dispatch (next_id s)) = true -> jobs s' = jobs s ++ [Dispatch (next_id s)]))
      /\ (originX = originY -> originX <> [] -> jobs s' = jobs s).

(** An endpoint a pairing configured, and a receiver a pairing configured. *)
Definition sends_default (e : WebhookEndpoint) : Prop :=
  ep_transform e = DEFAULT_TRANSFORM /\ ep_auth_scheme e = DEFAULT_AUTH /\ ep_headers e = [].
Definition as_configured (r : WebhookReceiver) (origin : pystr) : Prop :=
  rc_enabled r = true /\ rc_verifier r = DEFAULT_VERIFIER /\ rc_ignore_origin r = origin.
(** ... what else an edit of a paired receiver could have changed. *)
Definition takes_default (r : WebhookReceiver) : Prop :=
  lower (rc_signature_header r) = lower SIGNATURE_HEADER /\ rc_challenge r = [].

Lemma paired_delivers setX hooksX dumpsX e originX setY hooksY dumpsY rid r originY s :
  grown dumpsX hooksX -> grown dumpsY hooksY -> our_origin setX = Some originX -> our_origin setY = Some originY ->
  sends_default e -> as_configured r originY -> takes_default r -> receivers s !! rid = Some r -> slugs_unique s ->
  ep_secret e = rc_secret r -> rc_secret r <> [] -> wh_enabled setY = true -> wh_inbound setY = true ->
  inbound_slug originY (ep_target_url e) = Some (rc_slug r) ->
  delivers setX hooksX e originX setY hooksY rid originY s.
Proof.
  intros HgX HgY HoX HoY (A6 & A7 & Hhead) (D7 & D8 & D9) (Hsig & Hch) Hr Hu Hsec Hne Hen Hin Hroute
    pk d w rq broker now Hprep (Hbody & Hkeyed & Hcarry) Hdl Hbl.
  destruct (prepare_default _ _ _ _ _ _ _ HgX A6 A7 Hhead Hprep) as (origin & value & Ho & Hval & Hh1 & Hh2).
  assert (origin = originX) as -> by congruence. apply Hcarry in Hh1, Hh2.
  rewrite (request_header_lower _ ORIGIN_HEADER _ capital_origin) in Hh2.
  rewrite (request_header_lower _ (rc_signature_header r)) in Hh1 by by rewrite capital_signature.
  destruct (signed_admitted setY hooksY dumpsY broker s rid r rq value originX now) as (R1 & R2 & R3); try done.
  { by rewrite Hbody. }
  { by rewrite Hbody, <- Hsec. }
  unfold arrives. rewrite HoY. cbn [mbind option_bind]. rewrite Hroute. cbn [mbind option_bind].
  eexists _, _. split; [by rewrite (surjective_pairing (incoming_webhook _ _ _ _ _ _ _))|].
  split; [exact R1|]. rewrite D9 in R2, R3. split.
  - intros Hno. assert (str_eqb originX originY = false) as Hf by (unfold str_eqb; by apply bool_decide_false).
    rewrite Hf, andb_false_r in R2, R3. split; [done|]. intros Hb. by rewrite Hb in R3.
  - intros -> Hnon. assert (nonempty originY = true) as Hn by by apply nonempty_true.
    rewrite Hn in R3. unfold str_eqb in R3. rewrite bool_decide_true in R3 by done. by rewrite app_nil_r in R3.
Qed.

End Link.

(** ** Instances *)

Module LinkDemo.
Import WebhookDemo.

Example record_attempt_spec_witness :
  is_Some (ps_outcome sent1)
  /\ exists row', deliveries hub4 = <[2 := row']> (deliveries hub3) /\ dl_attempt row' = 1.
Proof.
  set (o := default (failed_outcome []) (ps_outcome sent1)).
  assert (record_attempt demo_settings yes 2 row1 1 7 o 11 hub3 = Some hub4) as Hr by (vm_compute; reflexivity).
  assert (endpoints hub3 !! dl_endpoint row1 = Some demo_endpoint) as He by (vm_compute; reflexivity).
  destruct (record_attempt_spec demo_settings yes 2 row1 1 7 o 11 hub3 hub4 demo_endpoint Hr He)
    as [(row & row' & _ & Hd & (Ha & _)) _].
  split; [by vm_compute; eauto|]. exists row'. split; [exact Hd|exact Ha].
Defined.

Example posts_guarded_witness :
  exists peer answer, nt_connection busy = Connected peer answer /\ ip_is_blocked peer = false.
Proof.
  assert (ps_sent (send_delivery demo_settings demo_hooks 2 row1 demo_endpoint busy 10) = true) as Hs by (vm_compute; reflexivity).
  destruct (posts_guarded demo_settings demo_hooks 2 row1 demo_endpoint busy 10 Hs)
    as (w & parts & peer & answer & _ & _ & Hc & _ & _ & _ & Hp).
  exists peer, answer. split; [exact Hc|]. exact (proj1 (Hp eq_refl) eq_refl).
Defined.

(** A name that moves to a private address between the check and the connect. *)
Example rebinding_refused :
  send_delivery demo_settings demo_hooks 2 row1 demo_endpoint
    (Build_Net false (Connected (u "127.0.0.1") (Status 200 None))) 10
  = {| ps_sent := false;
       ps_outcome := Some (failed_outcome (u "blocked by SSRF guard: connected peer 127.0.0.1 is a private/loopback address")) |}.
Proof. vm_compute. reflexivity. Qed.

(** A static header in another spelling replaces the signature on the wire. *)
Example static_header_wins :
  let e := demo_endpoint <| ep_headers := [(u "x-smallstack-signature", u "forged")] |> in
  match prepare demo_settings demo_hooks 2 row1 e with
  | Some w => dict_get (wire_headers (wr_headers w)) (capitalize SIGNATURE_HEADER) = Some (u "forged")
  | None => False
  end.
Proof. vm_compute. reflexivity. Qed.

(** Three dead letters replayed two at a time: the same two, again and again. *)
Definition dead_at (t : Z) : WebhookDelivery := new_delivery 1 (u "app.thing.created") JNull None 3 t <| dl_status := DL_DEAD |>.
Definition morgue : Hub :=
  empty_hub <| endpoints := {[1 := demo_endpoint]} |>
    <| deliveries := {[2 := dead_at 10; 3 := dead_at 20; 4 := dead_at 30]} |> <| next_id := 5 |>.

Example replay_dead_repeats :
  let once := (replay_dead yes None None 2 100 morgue).2 in
  let twice := (replay_dead yes None None 2 200 once).2 in
  (dead_letters None None 2 morgue).*1 = [2; 3] /\ (dead_letters None None 2 once).*1 = [2; 3]
  /\ (dead_letters None None 2 twice).*1 = [2; 3].
Proof. vm_compute. split_and!; reflexivity. Qed.

(** ** The two installations *)

Definition peer_settings : WebhookSettings := settings_at (u "https://peer.example").

(** A shell that knows spaces and single quotes. *)
Fixpoint words_of (quoted : bool) (word : option pystr) (line : pystr) : option (list pystr) :=
  match line with
  | [] => if quoted then None else Some (match word with Some w => [w] | None => [] end)
  | c :: line =>
      if quoted then if c =? 39 then words_of false word line else words_of true (Some (default [] word ++ [c])) line
      else if c =? 39 then words_of true (Some (default [] word)) line
      else if c =? 32 then match word with Some w => cons w <$> words_of false None line | None => words_of false None line end
      else words_of false (Some (default [] word ++ [c])) line
  end.
Definition demo_shell : pystr -> option (list pystr) := words_of false None.

Lemma plain_char c : is_plain_char c = true -> (c =? 39) = false /\ (c =? 32) = false.
Proof.
  unfold is_plain_char, is_ascii_upper, is_ascii_lower, is_decimal. assert (N : 39 ∉ u "-_./:@%+,=" /\ 32 ∉ u "-_./:@%+,=") by by_compute.
  intros H. split; apply Z.eqb_neq; intros ->; destruct N as [N1 N2];
    [rewrite (bool_decide_false _ N1) in H|rewrite (bool_decide_false _ N2) in H]; by vm_compute in H.
Qed.
Lemma words_plain w acc line :
  Forall (fun c => is_plain_char c = true) w -> words_of false (Some acc) (w ++ line) = words_of false (Some (acc ++ w)) line.
Proof.
  revert acc. induction w as [|c w IH]; intros acc Hw; [by rewrite app_nil_r|]. apply Forall_cons in Hw as [Hc Hw].
  cbn [app words_of]. destruct (plain_char c Hc) as [-> ->]. cbn [default from_option id].
  rewrite IH by done. by rewrite <- app_assoc.
Qed.
Lemma words_begin w line : plain w -> words_of false None (w ++ line) = words_of false (Some w) line.
Proof.
  intros [Hn Hw]. destruct w as [|c w]; [done|]. apply Forall_cons in Hw as [Hc Hw]. cbn [app words_of].
  destruct (plain_char c Hc) as [-> ->]. cbn [default from_option id app]. by rewrite words_plain.
Qed.
Lemma words_quoted q acc : 39 ∉ q -> words_of true (Some acc) (q ++ [39]) = Some [acc ++ q].
Proof.
  revert acc. induction q as [|c q IH]; intros acc Hq; [by rewrite app_nil_r|]. apply not_elem_of_cons in Hq as [Hc Hq].
  cbn [app words_of]. rewrite (proj2 (Z.eqb_neq c 39)) by done. cbn [default from_option id]. rewrite IH by done. by rewrite <- app_assoc.
Qed.
Lemma demo_shell_splits : splits_words demo_shell.
Proof.
  assert (L : u " '" = [32; 39] /\ u "'" = [39] /\ u " " = [32]) by by_compute. destruct L as (L1 & L2 & L3).
  intros words q Hn Hw Hq. unfold demo_shell. rewrite L1, L2, L3. induction words as [|w words IH]; [done|].
  apply Forall_cons in Hw as [Hp Hw]. destruct words as [|w' words].
  - cbn [join]. rewrite words_begin by done. cbn. by rewrite words_quoted.
  - cbn [join] in *. rewrite <- !app_assoc in *. rewrite words_begin by done. cbn [app words_of].
    change (32 =? 39) with false. change (32 =? 32) with true. cbn iota beta. cbn [app] in IH. by rewrite IH.
Qed.
Definition demo_loads (_ : pystr) : option json := Some (JArr [JStr (u "*")]).

(** We ask for the slug [us], so the peer's is known beforehand. *)
Definition their_slug : pystr := Eval vm_compute in default [] (pairing_slug (u "https://us.example/webhooks/in/us/")).
Definition to_peer : PairArgs := {|
  pa_target_url := u "https://peer.example" ++ inbound_path their_slug; pa_events := []; pa_name := None; pa_slug := Some (u "us");
  pa_send_secret := None; pa_recv_secret := None; pa_secret := None; pa_one_way := false; pa_owner := None |}.

Definition no_result : PairResult := {|
  pr_endpoint_id := 0; pr_receiver_id := None; pr_receiver_slug := None; pr_inbound_url := None;
  pr_inbound_url_absolute := None; pr_send_secret := []; pr_recv_secret := []; pr_origin := []; pr_events := [];
  pr_one_way := false; pr_endpoint_created := false; pr_mirror_command := []; pr_warnings := [] |}.
Definition outcome_of (x : result PairError PairResult * Hub) : PairResult := match x.1 with Ok r => r | Err _ => no_result end.

Definition ours : result PairError PairResult * Hub := pair_smallstack demo_settings to_peer (u "s3nd") (u "r3cv") empty_hub.
Definition theirs : result PairError PairResult * Hub :=
  pair_smallstack peer_settings (default to_peer (run_line demo_shell demo_loads (pr_mirror_command (outcome_of ours))))
    (u "x") (u "y") empty_hub.

Definition our_endpoint : WebhookEndpoint := default demo_endpoint (endpoints ours.2 !! pr_endpoint_id (outcome_of ours)).
Definition their_endpoint : WebhookEndpoint := default demo_endpoint (endpoints theirs.2 !! pr_endpoint_id (outcome_of theirs)).
Definition no_receiver : WebhookReceiver := new_paired_receiver to_peer [] [] [].
Definition our_receiver : WebhookReceiver := default no_receiver (k ← pr_receiver_id (outcome_of ours); receivers ours.2 !! k).
Definition their_receiver : WebhookReceiver := default no_receiver (receivers theirs.2 !! 2).

Definition the_wire : Wire :=
  default (Build_Wire [] [] []) (prepare demo_settings demo_hooks 7 (new_delivery 1 (u "app.thing.created") JNull None 3 0) our_endpoint).
Definition the_request : HttpRequest := {|
  rq_headers := wire_headers (wr_headers the_wire); rq_body := wr_body the_wire; rq_content_length := u "2";
  rq_remote_addr := None |}.

Lemma find_dict {A} (d : list (pystr * A)) k v :
  CaseInsensitiveDict.well_keyed d -> dict_get d k = Some v ->
  List.find (fun x => str_eqb (lower x.1) (lower k)) d = Some (k, v).
Proof.
  induction d as [|[k0 v0] d IH]; cbn; intros Hk Hg; [done|]. apply NoDup_cons in Hk as [Hno Hk].
  case_decide as Hc; [subst; injection Hg as ->; unfold str_eqb; by rewrite bool_decide_true|].
  unfold str_eqb at 1. rewrite bool_decide_false; [by apply IH|]. intros E. destruct Hno. cbn. rewrite E.
  apply CaseInsensitiveDict.names_keys. destruct (decide (k ∈ d.*1)) as [|Hn]; [done|].
  apply dict_get_None in Hn. congruence.
Qed.

Lemma request_transported : transports the_wire the_request.
Proof.
  assert (CaseInsensitiveDict.well_keyed (rq_headers the_request)) as Hk by (unfold CaseInsensitiveDict.well_keyed; by_compute).
  split; [done|]. split; [done|]. intros k v Hg. unfold request_header.
  rewrite (find_dict _ k v); [done|done|exact Hg].
Qed.

Lemma empty_fresh : keys_fresh empty_hub /\ slugs_unique empty_hub.
Proof. split; [split; intros k [? ?]; done|by intros ????]. Qed.

Lemma demo_grown : grown dumps demo_hooks.
Proof. apply g_defaults. Qed.


(** The address the documentation gives as its example, and no slug: the
    peer's deliveries come in here, and ours find no receiver there. *)
Definition documented : PairArgs := {|
  pa_target_url := u "https://peer.example/webhooks/in/paired/"; pa_events := []; pa_name := None; pa_slug := None;
  pa_send_secret := None; pa_recv_secret := None; pa_secret := None; pa_one_way := false; pa_owner := None |}.
Definition documented_ours : result PairError PairResult * Hub :=
  pair_smallstack demo_settings documented (u "s3nd") (u "r3cv") empty_hub.
Definition documented_theirs : result PairError PairResult * Hub :=
  pair_smallstack peer_settings (default to_peer (run_line demo_shell demo_loads (pr_mirror_command (outcome_of documented_ours))))
    (u "x") (u "y") empty_hub.
Example documented_link_is_one_way :
  (rs_status ∘ fst <$> arrives peer_settings demo_hooks yes (pa_target_url documented) the_request 50 documented_theirs.2) = Some 404.
Proof. vm_compute. reflexivity. Qed.

(** A secret that is generated may start with a dash: the printed command is
    then refused. *)
Example dashed_secret_refused :
  run_line demo_shell demo_loads (mirror_command (u "https://us.example/webhooks/in/us/") (u "-r3cv") (u "s3nd") [u "*"]) = None.
Proof. vm_compute. reflexivity. Qed.

(** ** An admitted request *)

Example incoming_admission_witness :
  receipts_fresh theirs.2
  /\ taken_in demo_hooks yes the_request 50 theirs.2 2 their_receiver
       (incoming_webhook peer_settings demo_hooks yes (rc_slug their_receiver) the_request 50 theirs.2).1
       (incoming_webhook peer_settings demo_hooks yes (rc_slug their_receiver) the_request 50 theirs.2).2.
Proof.
  assert (receipts_fresh theirs.2) as Hf by (assert (receipts theirs.2 = ∅) as E by reflexivity; intros k; rewrite E; by intros [? ?]).
  split; [exact Hf|].
  pose proof (incoming_admission peer_settings demo_hooks yes (rc_slug their_receiver) the_request 50 theirs.2 Hf) as A.
  destruct (incoming_webhook _ _ _ _ _ _ _) as [answer s']. apply (proj1 A).
  unfold lets_in. split_and!; vm_compute; first [reflexivity | discriminate].
Defined.
End LinkDemo.
