(* ===== verification/Heartbeat.v ===== *)
(** * apps/heartbeat: beats, windows, daily summaries and uptime

    models.py, services.py, maintenance.py, status.py and the commands. One
    beat per monitor and minute; old beats are folded into one summary per
    monitor and local day. Instants are microseconds since year 1 in UTC and
    dates are proleptic ordinals, so an instant's UTC date is a quotient. *)
From Stdlib Require Import SpecFloat.
From stdpp Require Import sorting.
From S2P Require Import Prelude PyFloat FloatDiv PyStr PyLib Schedules.
Open Scope Z_scope.

Definition MINUTE : Z := 60 * SECOND.
Definition HOUR : Z := 60 * MINUTE.

(** ** Aware datetimes

    The current time zone: the local date of an instant, and the instant a
    local day begins. *)
Class LocalZone := {
  local_date : Z -> Z;
  midnight : Z -> Z;
}.

(** Midnights come in order, and a local day is the span from its midnight to
    the next. *)
Class LawfulZone `{LocalZone} : Prop := {
  midnights_ordered : forall d, midnight d <= midnight (d + 1);
  day_of_midnight : forall t d, local_date t = d <-> midnight d <= t < midnight (d + 1);
}.

(** Two datetimes of one zone are compared and subtracted on the wall clock;
    any others by instant. [wall] is set for the local ones. *)
Record Aware := { instant : Z; wall : option Z }.

Definition utc_at (t : Z) : Aware := {| instant := t; wall := None |}.

Definition aware_sub (a b : Aware) : Z :=
  match wall a, wall b with
  | Some x, Some y => x - y
  | _, _ => instant a - instant b
  end.
Definition aware_leb (a b : Aware) : bool := aware_sub a b <=? 0.
Definition aware_ltb (a b : Aware) : bool := aware_sub a b <? 0.
Definition aware_max (a b : Aware) : Aware := if aware_ltb a b then b else a.
Definition aware_min (a b : Aware) : Aware := if aware_ltb b a then b else a.

(** [sum] of floats, which compensates for what each addition loses. *)
Definition num_abs {F} `{Num F} (x : F) : F := if (x <? num_of_Z 0)%num then (num_of_Z 0 - x)%num else x.
Definition sum_step {F} `{Num F} (acc : F * F) (x : F) : F * F :=
  let '(s, c) := acc in
  let t := (s + x)%num in
  (t, if (num_abs x <=? num_abs s)%num then (c + ((s - t) + x))%num else (c + ((x - t) + s))%num).
Definition py_sum {F} `{Num F} (l : list F) : F :=
  let '(s, c) := foldl sum_step (num_of_Z 0, num_of_Z 0) l in
  if (c =? num_of_Z 0)%num then s else (s + c)%num.

(** [int(seconds // interval)] *)
Definition whole_intervals (seconds : float) (interval : positive) : Z :=
  default 0 (float_floordiv seconds (num_of_Z (Zpos interval))).

(** [min(round(ok / expected * 100, digits), 100.0)] *)
Definition percent (digits ok expected : Z) : float :=
  num_min (num_round digits (num_ratio ok (Z.to_pos expected) * num_of_Z 100)%num) (num_of_Z 100).

(** ** models.py *)

Record Beat := {
  hb_ok : bool;
  hb_ms : Z;
  hb_note : pystr;
  hb_maintenance : bool;
}.

Record Daily := {
  hd_ok : Z;
  hd_fail : Z;
  hd_maintenance : Z;
  hd_expected : Z;
  hd_avg_ms : Z;
  hd_pct : float;
}.

(** The targets are decimals with two places, kept in hundredths. *)
Record Epoch := {
  ep_started : Z;
  ep_note : pystr;
  ep_target : Z;
  ep_minimum : Z;
}.

Record Window := {
  mw_key : pystr;
  mw_title : pystr;
  mw_start : Z;
  mw_end : Z;
  mw_note : pystr;
  mw_exclude : bool;
}.

#[global] Instance eta_window : Eta Window := fun w =>
  Build_Window (mw_key w) (mw_title w) (mw_start w) (mw_end w) (mw_note w) (mw_exclude w).

#[global] Instance window_eq_dec : EqDecision Window.
Proof. solve_decision. Defined.

(** The tables; the keys are their uniqueness constraints. *)
Record Board := {
  beats : gmap (pystr * Z) Beat;
  daily : gmap (pystr * Z) Daily;
  windows : gmap Z Window;
  next_window : Z;
  epochs : gmap pystr Epoch;
}.

#[global] Instance eta_board : Eta Board := fun b =>
  Build_Board (beats b) (daily b) (windows b) (next_window b) (epochs b).

Definition SITE : pystr := u "site".

(** The beats of a monitor, and its oldest. *)
Definition beats_of (key : pystr) (b : Board) : list (Z * Beat) :=
  omap (fun x : pystr * Z * Beat => if str_eqb x.1.1 key then Some (x.1.2, x.2) else None) (map_to_list (beats b)).

Definition earliest (l : list Z) : option Z :=
  foldr (fun t acc => Some (match acc with Some s => Z.min t s | None => t end)) None l.
Definition latest (l : list Z) : option Z :=
  foldr (fun t acc => Some (match acc with Some s => Z.max t s | None => t end)) None l.
Definition oldest_beat (key : pystr) (b : Board) : option Z := earliest (beats_of key b).*1.

(** [HeartbeatEpoch.get_epoch], [get_sla_targets], [reset] and [ensure_epoch] *)
Definition get_epoch (key : pystr) (b : Board) : option Z :=
  match epochs b !! key with Some e => Some (ep_started e) | None => oldest_beat key b end.

Definition DEFAULT_TARGET : Z := 9990.
Definition DEFAULT_MINIMUM : Z := 9950.
Definition percent_of (hundredths : Z) : float := num_ratio hundredths 100.

Definition get_sla_targets (key : pystr) (b : Board) : float * float :=
  match epochs b !! key with
  | Some e => (percent_of (ep_target e), percent_of (ep_minimum e))
  | None => (percent_of DEFAULT_TARGET, percent_of DEFAULT_MINIMUM)
  end.

Definition minute_of (t : Z) : Z := t - t mod MINUTE.

Definition reset (key note : pystr) (started_at target minimum : option Z) (now : Z) (b : Board) : Board :=
  let old := epochs b !! key in
  let keep (given : option Z) (f : Epoch -> Z) (d : Z) :=
    match given with Some x => x | None => match old with Some e => f e | None => d end end in
  b <| epochs := <[key := {| ep_started := minute_of (default now started_at); ep_note := note;
                             ep_target := keep target ep_target DEFAULT_TARGET;
                             ep_minimum := keep minimum ep_minimum DEFAULT_MINIMUM |}]> (epochs b) |>.

Definition ensure_epoch (key : pystr) (b : Board) : Board :=
  match epochs b !! key with
  | Some _ => b
  | None =>
      match oldest_beat key b with
      | Some t => b <| epochs := <[key := {| ep_started := t; ep_note := u "Auto-created from first heartbeat";
                                              ep_target := DEFAULT_TARGET; ep_minimum := DEFAULT_MINIMUM |}]> (epochs b) |>
      | None => b
      end
  end.

(** [MaintenanceWindow.is_in_maintenance] *)
Definition window_list (b : Board) : list Window := (map_to_list (windows b)).*2.

Definition in_window (t : Z) (w : Window) : bool := (mw_start w <=? t) && (t <? mw_end w).

Definition is_in_maintenance (t : Z) (key : pystr) (b : Board) : bool :=
  existsb (fun w => str_eqb (mw_key w) key && in_window t w) (window_list b).

(** [get_excluded_ranges]: the ranges merged so far, the last first. *)
Definition starts_first (v w : Window) : Prop := mw_start v <= mw_start w.
#[global] Instance starts_first_dec v w : Decision (starts_first v w).
Proof. unfold starts_first. apply _. Defined.

Definition overlapping (lo hi : Z) (w : Window) : bool := (mw_start w <? hi) && (lo <? mw_end w).

Definition excluding (range_start range_end : Aware) (key : pystr) (b : Board) : list Window :=
  merge_sort starts_first
    (List.filter (fun w => str_eqb (mw_key w) key && mw_exclude w
                           && overlapping (instant range_start) (instant range_end) w) (window_list b)).

Definition merge_window (range_start range_end : Aware) (merged : list (Aware * Aware)) (w : Window)
    : list (Aware * Aware) :=
  let s := aware_max (utc_at (mw_start w)) range_start in
  let e := aware_min (utc_at (mw_end w)) range_end in
  match merged with
  | (last_s, last_e) :: rest =>
      if aware_leb s last_e then (last_s, aware_max last_e e) :: rest else (s, e) :: merged
  | [] => [(s, e)]
  end.

Definition get_excluded_ranges (range_start range_end : Aware) (key : pystr) (b : Board) : list (Aware * Aware) :=
  rev (foldl (merge_window range_start range_end) [] (excluding range_start range_end key b)).

Definition get_excluded_seconds (range_start range_end : Aware) (key : pystr) (b : Board) : float :=
  py_sum ((fun r : Aware * Aware => total_seconds (aware_sub r.2 r.1)) <$> get_excluded_ranges range_start range_end key b).

(** [HeartbeatDaily.sla_status] *)
Inductive SlaStatus := SlaSuccess | SlaWarning | SlaDanger.

Definition sla_status (key : pystr) (d : Daily) (b : Board) : option SlaStatus :=
  if hd_ok d + hd_fail d =? 0 then None
  else
    let '(target, minimum) := get_sla_targets key b in
    Some (if (target <=? hd_pct d)%num then SlaSuccess
          else if (minimum <=? hd_pct d)%num then SlaWarning else SlaDanger).

Record BeatSettings := {
  interval : positive;
  retention_days : Z;
}.

Section Heartbeat.
Context `{LocalZone} (settings : BeatSettings).

(** ** services.py *)

Record CheckResult := { cr_ok : bool; cr_ms : Z; cr_note : pystr }.

(** A monitor of the registry: its check raises or answers. *)
Record Monitor := {
  mon_key : pystr;
  mon_service : pystr;
  mon_order : Z;
  mon_public : bool;
  mon_orphaned : bool;
  mon_check : result pystr CheckResult;
}.

Record RunResult := {
  rr_ok : bool;
  rr_ms : Z;
  rr_maintenance : bool;
  rr_created : bool;
  rr_note : option pystr;
}.

Definition or_none (s : pystr) : option pystr := if nonempty s then Some s else None.

(** [run_monitor_check], when the database answers. *)
Definition run_monitor_check (m : Monitor) (now : Z) (b : Board) : RunResult * Board :=
  let minute := minute_of now in
  let in_maintenance := is_in_maintenance minute (mon_key m) b in
  let '(ok, ms, note) := match mon_check m with
                         | Ok r => (cr_ok r, cr_ms r, take 255 (cr_note r))
                         | Err text => (false, 0, take 255 text)
                         end in
  let created := bool_decide (beats b !! (mon_key m, minute) = None) in
  let beat := {| hb_ok := ok; hb_ms := ms; hb_note := if ok then [] else note; hb_maintenance := in_maintenance |} in
  ({| rr_ok := ok; rr_ms := ms; rr_maintenance := in_maintenance; rr_created := created; rr_note := or_none note |},
   ensure_epoch (mon_key m) (b <| beats := <[(mon_key m, minute) := beat]> (beats b) |>)).

(** Where the database may fail a check: before the beat is stored, or after,
    when the epoch is looked up. *)
Inductive Fault := NotStored (text : pystr) | Stored (text : pystr).

Definition failed_run (text : pystr) : RunResult :=
  {| rr_ok := false; rr_ms := 0; rr_maintenance := false; rr_created := false; rr_note := Some (take 255 text) |}.

(** [run_all_monitors]: one result for every key, faults isolated. *)
Definition run_one (fault : option Fault) (m : Monitor) (now : Z) (b : Board) : RunResult * Board :=
  match fault with
  | None => run_monitor_check m now b
  | Some (NotStored text) => (failed_run text, b)
  | Some (Stored text) =>
      let '(_, b') := run_monitor_check m now b in (failed_run text, b' <| epochs := epochs b |>)
  end.

(** Each monitor comes with the time its check begins and its fault, if any. *)
Fixpoint run_all_monitors (due : list (Monitor * Z * option Fault)) (b : Board) : list (pystr * RunResult) * Board :=
  match due with
  | [] => ([], b)
  | (m, now, fault) :: due' =>
      if mon_orphaned m then run_all_monitors due' b
      else
        let '(r, b1) := run_one fault m now b in
        let '(rs, b2) := run_all_monitors due' b1 in
        (dict_update [(mon_key m, r)] rs, b2)
  end.

(** [_day_bounds]: adding a day to a local midnight gives the next one. *)
Definition local_midnight (day : Z) : Aware := {| instant := midnight day; wall := Some (day * DAY) |}.
Definition day_bounds (day : Z) : Aware * Aware := (local_midnight day, local_midnight (day + 1)).

(** [expected_intervals_for_day] *)
Definition expected_intervals_for_day (day : Z) (key : pystr) (epoch_start : option Z) (now : Z) (b : Board) : Z :=
  let '(day_start, day_end) := day_bounds day in
  let start := match epoch_start with Some e => aware_max day_start (utc_at e) | None => day_start end in
  let end_ := aware_min day_end (utc_at now) in
  if aware_leb end_ start then 0
  else
    let seconds := (total_seconds (aware_sub end_ start) - get_excluded_seconds start end_ key b)%num in
    Z.max (whole_intervals seconds (interval settings)) 0.

Definition epoch_start (key : pystr) (b : Board) : option Z := ep_started <$> epochs b !! key.

(** A beat of a batch, with its monitor and time. *)
Definition KeyedBeat : Type := pystr * Z * Beat.
Definition kb_key (x : KeyedBeat) : pystr := x.1.1.
Definition kb_at (x : KeyedBeat) : Z := x.1.2.
Definition kb_ok (x : KeyedBeat) : bool := hb_ok x.2.

Definition count {A} (p : A -> bool) (l : list A) : Z := zlen (List.filter p l).

Definition within (lo hi : Aware) (t : Z) : bool := (instant lo <=? t) && (t <? instant hi).

(** The beats of one group of the aggregate: a monitor and a local date. *)
Definition day_group (key : pystr) (day : Z) (l : list KeyedBeat) : list KeyedBeat :=
  List.filter (fun x => str_eqb (kb_key x) key && (local_date (kb_at x) =? day)) l.

(** What a group adds: beats outside the excluded windows, and those inside. *)
Record Share := { sh_ok : Z; sh_fail : Z; sh_excluded : Z; sh_avg : float }.

Definition share_of (key : pystr) (day : Z) (queryset : list KeyedBeat) (b : Board) : Share :=
  let group := day_group key day queryset in
  let '(day_start, day_end) := day_bounds day in
  let batch := List.filter (fun x => str_eqb (kb_key x) key && within day_start day_end (kb_at x)) queryset in
  let spans := get_excluded_ranges day_start day_end key b in
  let inside (p : KeyedBeat -> bool) (r : Aware * Aware) :=
    count (fun x => within r.1 r.2 (kb_at x) && p x) batch in
  let excluded_total := foldl Z.add 0 (inside (fun _ => true) <$> spans) in
  let excluded_ok := foldl Z.add 0 (inside kb_ok <$> spans) in
  {| sh_ok := count kb_ok group - excluded_ok;
     sh_fail := count (fun x => negb (kb_ok x)) group - (excluded_total - excluded_ok);
     sh_excluded := excluded_total;
     sh_avg := num_ratio (foldl Z.add 0 ((fun x => hb_ms x.2) <$> group)) (Z.to_pos (zlen group)) |}.

Definition merged_avg (row : Daily) (s : Share) : Z :=
  let prior := hd_ok row + hd_fail row in
  let batch := sh_ok s + sh_fail s in
  if prior + batch =? 0 then hd_avg_ms row
  else default 0 (num_rint ((num_of_Z (hd_avg_ms row * prior) + sh_avg s * num_of_Z batch)
                            / num_of_Z (prior + batch))%num).

Definition row_pct (ok fail expected : Z) : float :=
  let denominator := Z.max (ok + fail) expected in
  if denominator =? 0 then num_of_Z 0 else percent 3 ok denominator.

(** One turn of the loop of [_write_daily_summaries]. *)
Definition fold_group (queryset : list KeyedBeat) (now : Z) (b : Board) (g : pystr * Z) : Board :=
  let '(key, day) := g in
  let expected := expected_intervals_for_day day key (epoch_start key b) now b in
  let s := share_of key day queryset b in
  let row := default {| hd_ok := 0; hd_fail := 0; hd_maintenance := 0; hd_expected := expected; hd_avg_ms := 0;
                        hd_pct := num_of_Z 0 |} (daily b !! (key, day)) in
  let ok := hd_ok row + sh_ok s in
  let fail := hd_fail row + sh_fail s in
  b <| daily := <[(key, day) := {| hd_ok := ok; hd_fail := fail; hd_maintenance := hd_maintenance row + sh_excluded s;
                                   hd_expected := expected; hd_avg_ms := merged_avg row s;
                                   hd_pct := row_pct ok fail expected |}]> (daily b) |>.

(** The groups, each once; a group writes its own row, so their order does not
    matter. *)
Definition groups (queryset : list KeyedBeat) : list (pystr * Z) :=
  remove_dups ((fun x => (kb_key x, local_date (kb_at x))) <$> queryset).

Definition write_daily_summaries (queryset : list KeyedBeat) (now : Z) (b : Board) : Board :=
  foldl (fold_group queryset now) b (groups queryset).

(** [prune_old_heartbeats] *)
Definition cutoff (now : Z) : Z := now - retention_days settings * DAY.
Definition old_records (now : Z) (b : Board) : list KeyedBeat :=
  List.filter (fun x => kb_at x <? cutoff now) (map_to_list (beats b)).

Definition prune_old_heartbeats (now : Z) (b : Board) : Z * Board :=
  match old_records now b with
  | [] => (0, b)
  | old =>
      let b1 := write_daily_summaries old now b in
      (zlen old, b1 <| beats := filter (fun x => cutoff now <= x.1.2) (beats b1) |>)
  end.

(** ** maintenance.py *)

Definition open_window (title : pystr) (start end_ : Z) (key note : pystr) (exclude : bool) (b : Board) : option (Z * Board) :=
  if end_ <=? start then None
  else
    let w := {| mw_key := key; mw_title := title; mw_start := start; mw_end := end_; mw_note := note; mw_exclude := exclude |} in
    Some (next_window b, b <| windows := <[next_window b := w]> (windows b) |> <| next_window := next_window b + 1 |>).

Definition open_window_for (minutes : Z) (title key note : pystr) (exclude : bool) (now : Z) (b : Board) : option (Z * Board) :=
  if minutes <=? 0 then None
  else open_window title now (now + minutes * MINUTE) key note exclude b.

Definition of_monitor (key : pystr) (w : Window) : bool := str_eqb (mw_key w) key.

(** The number of windows ended and of those deleted. *)
Definition close_windows (key : pystr) (delete_future : bool) (moment : Z) (b : Board) : Z * Z * Board :=
  let active w := of_monitor key w && in_window moment w in
  let ended := count active (window_list b) in
  let ws := (fun w => if active w then w <| mw_end := moment |> else w) <$> windows b in
  let future w := of_monitor key w && (moment <? mw_start w) in
  if delete_future
  then (ended, count future (map_to_list ws).*2, b <| windows := filter (fun x => future x.2 = false) ws |>)
  else (ended, 0, b <| windows := ws |>).

(** [list_windows] *)
Definition list_windows (key : option pystr) (active_only : bool) (moment : Z) (b : Board) : list Window :=
  List.filter (fun w => match key with Some k => of_monitor k w | None => true end
                        && (negb active_only || in_window moment w)) (window_list b).

(** ** status.py *)

Record UptimeResult := { uptime : option float; covered_seconds : float; window_seconds : float }.

Definition coverage (r : UptimeResult) : option float :=
  if (window_seconds r <=? num_of_Z 0)%num then None
  else Some (num_min (covered_seconds r / window_seconds r)%num (num_of_Z 1)).

(** [_last_beat_age_seconds], over all monitors *)
Definition last_beat_age_seconds (now : Z) (b : Board) : option Z :=
  match latest ((map_to_list (beats b)).*1).*2 with
  | None => None
  | Some t => Some (default 0 (num_trunc (total_seconds (now - t))))
  end.

Inductive SlaState := Muted | Success | Warning | Danger.

(** [_sla_state]; [_sla_color] is its colour. *)
Definition sla_state (uptime_pct : option float) (use_target : bool) (key : pystr) (b : Board) : SlaState :=
  match uptime_pct with
  | None => Muted
  | Some pct =>
      let '(target, minimum) := get_sla_targets key b in
      if use_target then
        if (target <=? pct)%num then Success else if (minimum <=? pct)%num then Warning else Danger
      else if (minimum <=? pct)%num then Success else Danger
  end.

(** [_get_status_data] *)
Inductive LiveStatus := Unknown | UnderMaintenance | Down | Degraded | Operational.

Definition newest_first (x y : Z * Beat) : Prop := y.1 <= x.1.
#[global] Instance newest_first_dec x y : Decision (newest_first x y).
Proof. unfold newest_first. apply _. Defined.

Definition recent_beats (key : pystr) (b : Board) : list (Z * Beat) :=
  take 5 (merge_sort newest_first (beats_of key b)).

Definition live_status (key : pystr) (now : Z) (b : Board) : LiveStatus :=
  match recent_beats key b with
  | [] => Unknown
  | (t, last) :: _ =>
      let age := total_seconds (now - t) in
      if is_in_maintenance now key b then UnderMaintenance
      else if negb (hb_ok last) || (num_of_Z (Zpos (interval settings) * 5) <? age)%num then Down
      else if existsb (fun x => negb (hb_ok x.2)) (recent_beats key b) then Degraded
      else Operational
  end.

Record StatusData := {
  sd_status : LiveStatus;
  sd_last : option Z;
  sd_ms : Z;
  sd_age : option Z;
  sd_note : option pystr;
}.

Definition get_status_data (key : pystr) (now : Z) (b : Board) : StatusData :=
  match recent_beats key b with
  | [] => {| sd_status := Unknown; sd_last := None; sd_ms := 0; sd_age := None; sd_note := None |}
  | (t, last) :: _ =>
      {| sd_status := live_status key now b; sd_last := Some t; sd_ms := hb_ms last;
         sd_age := num_trunc (total_seconds (now - t)); sd_note := Some (hb_note last) |}
  end.

(** [_get_non_maintenance_counts] *)
Definition excluded_at (ranges : list (Aware * Aware)) (t : Z) : bool := existsb (fun r => within r.1 r.2 t) ranges.

Definition get_non_maintenance_counts (window_start window_end : Aware) (key : pystr) (b : Board) : Z * Z :=
  let ranges := get_excluded_ranges window_start window_end key b in
  let qs := List.filter (fun x => within window_start window_end x.1 && negb (excluded_at ranges x.1)) (beats_of key b) in
  (count (fun x => hb_ok x.2) qs, zlen qs).

(** [_uptime_over_window] *)
Definition utc_date (t : Z) : Z := t / DAY.

Definition summaries_between (key : pystr) (lo hi : Z) (b : Board) : list Daily :=
  omap (fun x : pystr * Z * Daily => if str_eqb x.1.1 key && (lo <=? x.1.2) && (x.1.2 <? hi) then Some x.2 else None)
    (map_to_list (daily b)).

Definition uptime_over_window (window_start : Z) (key : pystr) (now : Z) (b : Board) : UptimeResult :=
  let window := total_seconds (now - window_start) in
  if (window <=? num_of_Z 0)%num
  then {| uptime := None; covered_seconds := num_of_Z 0; window_seconds := num_max window (num_of_Z 0) |}
  else
    let '(raw_start, summary_end) :=
      match oldest_beat key b with
      | None => (now, Some (utc_date now + 1))
      | Some t => if window_start <? t then (t, Some (utc_date t)) else (window_start, None)
      end in
    let rows := match summary_end with
                | Some d => summaries_between key (utc_date window_start) d b
                | None => []
                end in
    let summarized_ok := foldl Z.add 0 (hd_ok <$> rows) in
    let summarized_expected := foldl Z.add 0 (hd_expected <$> rows) in
    let covered_recent := if raw_start <? now then total_seconds (now - raw_start) else num_of_Z 0 in
    let '(raw_ok, raw_expected) :=
      if raw_start <? now then
        let effective := (covered_recent - get_excluded_seconds (utc_at raw_start) (utc_at now) key b)%num in
        if (num_of_Z 0 <? effective)%num
        then ((get_non_maintenance_counts (utc_at raw_start) (utc_at now) key b).1,
              whole_intervals effective (interval settings))
        else (0, 0)
      else (0, 0) in
    let covered := num_min (covered_recent + num_of_Z (zlen rows * 86400))%num window in
    let total_expected := raw_expected + summarized_expected in
    {| uptime := if 1 <=? total_expected then Some (percent 2 (raw_ok + summarized_ok) total_expected) else None;
       covered_seconds := covered; window_seconds := window |}.

Definition calc_uptime (hours : Z) (key : pystr) (now : Z) (b : Board) : option float :=
  let window_start := now - hours * HOUR in
  let from := match get_epoch key b with
              | Some e => if window_start <? e then e else window_start
              | None => window_start
              end in
  uptime (uptime_over_window from key now b).

Definition calc_overall_uptime (key : pystr) (now : Z) (b : Board) : option float :=
  e ← get_epoch key b; uptime (uptime_over_window e key now b).

Definition coverage_since_epoch (key : pystr) (now : Z) (b : Board) : option float :=
  e ← get_epoch key b; coverage (uptime_over_window e key now b).

(** *** The timelines *)

Definition touching (key : pystr) (lo hi : Z) (b : Board) : list Window :=
  List.filter (fun w => of_monitor key w && overlapping lo hi w) (window_list b).

Definition oldest_first (x y : Z * Beat) : Prop := x.1 <= y.1.
#[global] Instance oldest_first_dec x y : Decision (oldest_first x y).
Proof. unfold oldest_first. apply _. Defined.

Definition beats_since (key : pystr) (lo : Z) (b : Board) : list (Z * Beat) :=
  merge_sort oldest_first (List.filter (fun x => lo <=? x.1) (beats_of key b)).

(** The slot [i] of width [step], and the beats in it. *)
Definition slot_at (lo step : Z) (i : nat) : Z := lo + Z.of_nat i * step.
Definition slot_beats (lo step : Z) (i : nat) (l : list (Z * Beat)) : list (Z * Beat) :=
  List.filter (fun x => (slot_at lo step i <=? x.1) && (x.1 <? slot_at lo step (S i))) l.

Definition before_epoch (epoch : option Z) (slot_end : Z) : bool :=
  match epoch with Some e => slot_end <=? e | None => false end.

(** [_build_minute_timeline] *)
Inductive MinuteStatus := MPreEpoch | MMaintenance | MFail | MOk | MMissed.
Record MinuteSlot := { ms_status : MinuteStatus; ms_at : Z; ms_ms : Z }.

Definition average_ms (l : list (Z * Beat)) : Z :=
  match l with [] => 0 | _ => foldl Z.add 0 ((fun x => hb_ms x.2) <$> l) / zlen l end.

Definition build_minute_timeline (minutes : nat) (key : pystr) (now : Z) (b : Board) : list MinuteSlot :=
  let lo := now - Z.of_nat minutes * MINUTE in
  let epoch := get_epoch key b in
  let recorded := beats_since key lo b in
  let maint := touching key lo now b in
  (fun i =>
     let start := slot_at lo MINUTE i in
     if before_epoch epoch (slot_at lo MINUTE (S i)) then {| ms_status := MPreEpoch; ms_at := start; ms_ms := 0 |}
     else
       let inside := slot_beats lo MINUTE i recorded in
       if existsb (in_window start) maint then {| ms_status := MMaintenance; ms_at := start; ms_ms := average_ms inside |}
       else match inside with
            | [] => {| ms_status := MMissed; ms_at := start; ms_ms := 0 |}
            | x :: _ => {| ms_status := if existsb (fun y => negb (hb_ok y.2)) inside then MFail else MOk;
                           ms_at := x.1; ms_ms := average_ms inside |}
            end) <$> seq 0 minutes.

(** [_build_24h_timeline] *)
Inductive BucketStatus := BPreEpoch | BMaintenance | BMissed | BPartial | BFail | BOk.
Record Bucket := { bk_status : BucketStatus; bk_ok : Z; bk_fail : Z; bk_total : Z; bk_at : Z }.

Definition QUARTER : Z := 15 * MINUTE.

Definition build_24h_timeline (key : pystr) (now : Z) (b : Board) : list Bucket :=
  let lo := now - 24 * HOUR in
  let epoch := get_epoch key b in
  let recorded := beats_since key lo b in
  let maint := touching key lo now b in
  (fun i =>
     let start := slot_at lo QUARTER i in
     let end_ := slot_at lo QUARTER (S i) in
     if before_epoch epoch end_ then {| bk_status := BPreEpoch; bk_ok := 0; bk_fail := 0; bk_total := 0; bk_at := start |}
     else
       let inside := slot_beats lo QUARTER i recorded in
       let ok := count (fun x => hb_ok x.2) inside in
       let fail := count (fun x => negb (hb_ok x.2)) inside in
       {| bk_status := if existsb (overlapping start end_) maint then BMaintenance
                       else if zlen inside =? 0 then BMissed
                       else if (0 <? fail) && (0 <? ok) then BPartial
                       else if 0 <? fail then BFail else BOk;
          bk_ok := ok; bk_fail := fail; bk_total := zlen inside; bk_at := start |}) <$> seq 0 96.

(** [_build_hourly_timeline] *)
Inductive BarStatus := BarUp | BarDegraded | BarDown | BarMaintenance | BarNoData.
Record HourBar := { hbar_status : BarStatus; hbar_ok : Z; hbar_fail : Z; hbar_monitored : bool }.

Definition build_hourly_timeline (hours : nat) (key : pystr) (now : Z) (b : Board) : list HourBar :=
  let lo := now - Z.of_nat hours * HOUR in
  let epoch := get_epoch key b in
  let recorded := beats_since key lo b in
  let maint := touching key lo now b in
  (fun i =>
     let start := slot_at lo HOUR i in
     let end_ := slot_at lo HOUR (S i) in
     if before_epoch epoch end_ then {| hbar_status := BarNoData; hbar_ok := 0; hbar_fail := 0; hbar_monitored := false |}
     else
       let bucket := slot_beats lo HOUR i recorded in
       let ok := count (fun x => hb_ok x.2) bucket in
       let fail := count (fun x => negb (hb_ok x.2)) bucket in
       {| hbar_status := if existsb (overlapping start end_) maint then BarMaintenance
                         else match bucket with
                              | [] => BarNoData
                              | _ => if (0 <? fail) && (0 <? ok) then BarDegraded
                                     else if 0 <? fail then BarDown else BarUp
                              end;
          hbar_ok := ok; hbar_fail := fail; hbar_monitored := true |}) <$> seq 0 hours.

(** [_daily_uptime_map]: what a day's two sources add up to. *)
Definition day_counts (key : pystr) (day : Z) (b : Board) : Z * Z :=
  let '(day_start, day_end) := day_bounds day in
  get_non_maintenance_counts day_start day_end key b.

Definition daily_uptime (key : pystr) (start end_ day now : Z) (b : Board) : option float :=
  let raw := List.filter (fun x => (midnight start <=? x.1) && (x.1 <? midnight (end_ + 1)) && (local_date x.1 =? day))
               (beats_of key b) in
  let has_raw := negb (zlen raw =? 0) in
  let summary := daily b !! (key, day) in
  let '(ok0, observed0) := match summary with Some d => (hd_ok d, hd_ok d + hd_fail d) | None => (0, 0) end in
  let '(raw_ok, raw_observed) := if has_raw then day_counts key day b else (0, 0) in
  let ok := ok0 + raw_ok in
  let observed := observed0 + raw_observed in
  if negb (bool_decide (summary = None) && negb has_raw) then
    if day =? local_date now then if observed =? 0 then None else Some (percent 2 ok observed)
    else
      let denominator := Z.max observed (expected_intervals_for_day day key (epoch_start key b) now b) in
      if denominator =? 0 then None else Some (percent 2 ok denominator)
  else None.

Definition daily_uptime_map (key : pystr) (start end_ now : Z) (b : Board) : list (Z * option float) :=
  (fun day => (day, daily_uptime key start end_ day now b)) <$> seqZ start (end_ - start + 1).

(** [_classify_day] *)
Inductive DayStatus := DayUp | DayDegraded | DayDown | DayNoData.

Definition classify_day (pct : option float) (day : Z) (epoch_date : option Z) (target minimum : float) : DayStatus :=
  if match epoch_date with Some e => day <? e | None => false end then DayNoData
  else match pct with
       | None => DayNoData
       | Some x => if (target <=? x)%num then DayUp else if (minimum <=? x)%num then DayDegraded else DayDown
       end.

(** [_build_daily_timeline] *)
Definition build_daily_timeline (days : nat) (key : pystr) (now : Z) (b : Board) : list (Z * DayStatus * option float) :=
  let today := local_date now in
  let start := today - (Z.of_nat days - 1) in
  let epoch_date := local_date <$> get_epoch key b in
  let '(target, minimum) := get_sla_targets key b in
  let uptime_map := daily_uptime_map key start today now b in
  (fun i => let day := start + Z.of_nat i in
            let pct := default None (dict_get uptime_map day) in
            (day, classify_day pct day epoch_date target minimum, pct)) <$> seq 0 days.

(** [build_stacked_timelines]: the uptimes beside the bars. *)
Definition build_stacked_timelines (key : pystr) (now : Z) (b : Board)
    : list (option float) * list (list HourBar) * list (Z * DayStatus * option float) :=
  ([calc_uptime 24 key now b; calc_uptime 168 key now b; calc_uptime (90 * 24) key now b],
   [build_hourly_timeline 24 key now b; build_hourly_timeline 168 key now b],
   build_daily_timeline 90 key now b).
End Heartbeat.
