(* ===== verification/HeartbeatFacts.v ===== *)
(** * Heartbeat: what is excluded, what a day is worth, and what pruning keeps

    The merged maintenance ranges against the windows themselves, and the
    daily fold against a table that is never pruned. *)
From Stdlib Require Import SpecFloat.
From stdpp Require Import sorting.
From S2P Require Import Prelude PyFloat FloatDiv PyStr PyLib Schedules Heartbeat.
Open Scope Z_scope.

#[local] Opaque u.

(** ** Counting *)

Section Counting.
Context {A : Type}.
Implicit Types (l : list A) (p q : A -> bool).

Lemma count_app p l k : count p (l ++ k) = count p l + count p k.
Proof. unfold count. by rewrite List.filter_app, zlen_app. Qed.

Lemma count_cons p x l : count p (x :: l) = (if p x then 1 else 0) + count p l.
Proof. unfold count. cbn [List.filter]. destruct (p x); [by rewrite zlen_cons|lia]. Qed.

Lemma count_nonneg p l : 0 <= count p l.
Proof. apply zlen_nonneg. Qed.

Lemma count_ext p q l : (forall x, x ∈ l -> p x = q x) -> count p l = count q l.
Proof.
  induction l as [|x l IH]; intros H; [done|]. rewrite !count_cons, (H x) by apply list_elem_of_here.
  rewrite IH; [done|]. intros y Hy. apply H. by apply list_elem_of_further.
Qed.

Lemma count_false p l : (forall x, x ∈ l -> p x = false) -> count p l = 0.
Proof.
  intros H. rewrite (count_ext p (fun _ => false)) by done. clear H. induction l as [|x l IH]; [done|]. by rewrite count_cons, IH.
Qed.

(** A case split of what is counted. *)
Lemma count_split p q l : count p l = count (fun x => p x && q x) l + count (fun x => p x && negb (q x)) l.
Proof. induction l as [|x l IH]; [done|]. rewrite !count_cons, IH. destruct (p x), (q x); cbn; lia. Qed.

Lemma count_filter p q l : count p (List.filter q l) = count (fun x => p x && q x) l.
Proof.
  induction l as [|x l IH]; [done|]. cbn [List.filter]. rewrite count_cons, <- IH.
  destruct (q x); [rewrite count_cons|]; destruct (p x); cbn; lia.
Qed.

Lemma zlen_count l : zlen l = count (fun _ => true) l.
Proof. unfold count. f_equal. symmetry. by induction l as [|x l IH]; cbn; [|rewrite IH]. Qed.

#[global] Instance count_permutation p : Proper (Permutation ==> eq) (count p).
Proof.
  intros l k Hp. induction Hp; rewrite ?count_cons; try lia.
Qed.

Lemma count_zero p l : count p l = 0 <-> forall x, x ∈ l -> p x = false.
Proof.
  split; [|apply count_false]. induction l as [|x l IH]; [by intros _ x ?%elem_of_nil|].
  rewrite count_cons. pose proof (count_nonneg p l). intros E y [->|Hy]%elem_of_cons.
  - destruct (p x); [lia|done].
  - apply IH; [destruct (p x); lia|done].
Qed.
End Counting.

(** ** The excluded ranges *)

Section Ranges.

(** Range bounds whose order on the clock is that of their instants. *)
Definition spans (lo hi : Aware) : Prop := aware_leb lo hi = true /\ instant lo <= instant hi.

Lemma spans_utc lo hi : lo <= hi -> spans (utc_at lo) (utc_at hi).
Proof. intros H. split; [|done]. unfold aware_leb, aware_sub. cbn. lia. Qed.

Definition span_of (r : Aware * Aware) : Z * Z := (instant r.1, instant r.2).

(** The loop on instants. *)
Definition merge_span (lo hi : Z) (merged : list (Z * Z)) (w : Window) : list (Z * Z) :=
  let s := Z.max (mw_start w) lo in
  let e := Z.min (mw_end w) hi in
  match merged with
  | (last_s, last_e) :: rest => if s <=? last_e then (last_s, Z.max last_e e) :: rest else (s, e) :: merged
  | [] => [(s, e)]
  end.

Lemma aware_max_utc t a : instant (aware_max (utc_at t) a) = Z.max t (instant a).
Proof. unfold aware_max, aware_ltb, aware_sub. cbn. destruct (Z.ltb_spec (t - instant a) 0); cbn; lia. Qed.
Lemma aware_min_utc t a : instant (aware_min (utc_at t) a) = Z.min t (instant a).
Proof.
  unfold aware_min, aware_ltb, aware_sub. cbn. destruct (wall a); destruct (Z.ltb_spec (instant a - t) 0); cbn; lia.
Qed.

(** The bounds the loop meets: instants, or the bound it was given. *)
Definition bound_of (a x : Aware) : Prop := wall x = None \/ x = a.

Lemma aware_max_bound t a : bound_of a (aware_max (utc_at t) a).
Proof. unfold aware_max. destruct (aware_ltb _ _); [by right|by left]. Qed.
Lemma aware_min_bound t a : bound_of a (aware_min (utc_at t) a).
Proof. unfold aware_min. destruct (aware_ltb _ _); [by right|by left]. Qed.

Lemma aware_max_same a x y :
  bound_of a x -> bound_of a y -> bound_of a (aware_max x y) /\ instant (aware_max x y) = Z.max (instant x) (instant y).
Proof.
  intros Hx Hy. assert (aware_sub x y = instant x - instant y) as E.
  { unfold aware_sub. destruct Hx as [Hx| ->]; [by rewrite Hx|]. destruct Hy as [Hy| ->]; [rewrite Hy|]; destruct (wall a); lia. }
  unfold aware_max, aware_ltb. rewrite E. destruct (Z.ltb_spec (instant x - instant y) 0); (split; [done|lia]).
Qed.

Lemma aware_leb_bounds lo hi x y :
  spans lo hi -> bound_of lo x -> bound_of hi y -> aware_leb x y = (instant x <=? instant y).
Proof.
  intros [H1 H2] Hx Hy. assert (wall x = None \/ wall y = None -> aware_leb x y = (instant x <=? instant y)) as Hutc.
  { intros H. unfold aware_leb. replace (aware_sub x y) with (instant x - instant y); [lia|].
    unfold aware_sub. destruct H as [-> | ->]; [done|by destruct (wall x)]. }
  destruct Hx as [Hx| ->]; [by apply Hutc; left|]. destruct Hy as [Hy| ->]; [by apply Hutc; right|].
  rewrite H1. symmetry. by apply Z.leb_le.
Qed.

Lemma merge_span_of lo hi merged w :
  spans lo hi -> Forall (fun r => bound_of hi r.2) merged ->
  span_of <$> merge_window lo hi merged w = merge_span (instant lo) (instant hi) (span_of <$> merged) w
  /\ Forall (fun r => bound_of hi r.2) (merge_window lo hi merged w).
Proof.
  intros Hs Hm. unfold merge_window, merge_span. destruct merged as [|[ls le] rest]; cbn.
  - unfold span_of. cbn. rewrite aware_max_utc, aware_min_utc. split; [done|]. constructor; [apply aware_min_bound|done].
  - apply Forall_cons in Hm as [Hle Hrest]. cbn in Hle.
    rewrite (aware_leb_bounds lo hi) by (done || apply aware_max_bound). rewrite aware_max_utc.
    destruct (aware_max_same hi le (aware_min (utc_at (mw_end w)) hi) Hle (aware_min_bound _ _)) as [Hb Ei].
    destruct (Z.max (mw_start w) (instant lo) <=? instant le); cbn; unfold span_of; cbn;
      rewrite ?Ei, ?aware_max_utc, ?aware_min_utc; (split; [done|]).
    + by apply Forall_cons.
    + apply Forall_cons. split; [apply aware_min_bound|]. by apply Forall_cons.
Qed.

(** What is merged so far, the last range first: apart, inside the bounds, and
    covering what the windows seen cover. *)
Definition covered (l : list (Z * Z)) (t : Z) : Prop := exists r, r ∈ l /\ r.1 <= t < r.2.

Definition apart (later earlier : Z * Z) : Prop := earlier.2 < later.1.

Record merged_ok (lo hi : Z) (seen : list Window) (m : list (Z * Z)) : Prop := {
  mg_covered : forall t, covered m t <-> lo <= t < hi /\ exists w, w ∈ seen /\ mw_start w <= t < mw_end w;
  mg_apart : StronglySorted apart m;
  mg_inside : Forall (fun r => lo <= r.1 /\ r.2 <= hi) m;
  mg_last : forall r, head m = Some r -> exists w, w ∈ seen /\ r.1 <= Z.max (mw_start w) lo;
}.

Lemma merge_span_ok lo hi seen m w :
  merged_ok lo hi seen m -> (forall v, v ∈ seen -> mw_start v <= mw_start w) ->
  merged_ok lo hi (seen ++ [w]) (merge_span lo hi m w).
Proof.
  intros [Hc Ha Hi Hl] Hseen.
  assert (forall t, (exists v, v ∈ seen ++ [w] /\ mw_start v <= t < mw_end v)
    <-> (exists v, v ∈ seen /\ mw_start v <= t < mw_end v) \/ mw_start w <= t < mw_end w) as Hsnoc.
  { intros t. setoid_rewrite elem_of_app. setoid_rewrite list_elem_of_singleton. naive_solver. }
  assert (forall r k t, covered (r :: k) t <-> r.1 <= t < r.2 \/ covered k t) as Hcons.
  { intros r k t. unfold covered. setoid_rewrite elem_of_cons. naive_solver. }
  assert (w ∈ seen ++ [w]) as Hw by (apply elem_of_app; right; by apply list_elem_of_singleton).
  unfold merge_span. set (s := Z.max (mw_start w) lo). set (e := Z.min (mw_end w) hi).
  assert (forall t, s <= t < e <-> lo <= t < hi /\ mw_start w <= t < mw_end w) as Hse by (intros t; lia).
  assert (forall r k, m = r :: k -> r.1 <= s) as Hstart.
  { intros r k ->. destruct (Hl r eq_refl) as (v & Hv%Hseen & ?). lia. }
  destruct m as [|[ls le] k]; [|specialize (Hstart _ _ eq_refl); cbn in Hstart; destruct (Z.leb_spec s le)].
  - split; [|by repeat constructor| |].
    + intros t. specialize (Hc t). rewrite Hcons, Hsnoc. cbn. specialize (Hse t). tauto.
    + constructor; [cbn; lia|done].
    + intros r [= <-]. exists w. split; [done|cbn; lia].
  - apply StronglySorted_inv in Ha as [Ha1 Ha2]. apply Forall_cons in Hi as [Hi1 Hi2]. cbn in *. split.
    + intros t. specialize (Hc t). rewrite Hcons in *. rewrite Hsnoc. cbn in *. specialize (Hse t).
      assert (ls <= t < Z.max le e <-> ls <= t < le \/ s <= t < e) as -> by lia. tauto.
    + constructor; [done|]. eapply Forall_impl; [exact Ha2|]. done.
    + constructor; [cbn; lia|done].
    + intros r [= <-]. destruct (Hl _ eq_refl) as (v & Hv & ?). exists v. split; [apply elem_of_app; by left|done].
  - split.
    + intros t. specialize (Hc t). rewrite Hcons, Hsnoc. cbn. specialize (Hse t). tauto.
    + constructor; [done|]. apply StronglySorted_inv in Ha as [_ Ha]. constructor; [unfold apart; cbn; lia|].
      eapply Forall_impl; [exact Ha|]. unfold apart. cbn. intros q Hq. lia.
    + constructor; [cbn; lia|done].
    + intros r [= <-]. exists w. split; [done|cbn; lia].
Qed.

Lemma merge_spans_ok lo hi ws seen m :
  merged_ok lo hi seen m -> StronglySorted starts_first ws ->
  (forall v w, v ∈ seen -> w ∈ ws -> mw_start v <= mw_start w) ->
  merged_ok lo hi (seen ++ ws) (foldl (merge_span lo hi) m ws).
Proof.
  revert seen m. induction ws as [|w ws IH]; intros seen m Hm Hs Hle; cbn [foldl]; [by rewrite app_nil_r|].
  apply StronglySorted_inv in Hs as [Hs Hw]. rewrite Forall_forall in Hw.
  change (w :: ws) with ([w] ++ ws). rewrite app_assoc. apply IH; [|done|].
  - apply merge_span_ok; [done|]. intros v Hv. apply Hle; [done|apply list_elem_of_here].
  - intros v x [Hv| ->%list_elem_of_singleton]%elem_of_app Hx; [|by apply Hw].
    apply Hle; [done|by apply list_elem_of_further].
Qed.

Lemma merge_spans_of lo hi ws merged :
  spans lo hi -> Forall (fun r => bound_of hi r.2) merged ->
  span_of <$> foldl (merge_window lo hi) merged ws = foldl (merge_span (instant lo) (instant hi)) (span_of <$> merged) ws.
Proof.
  intros Hs. revert merged. induction ws as [|w ws IH]; intros merged Hm; [done|]. cbn [foldl].
  destruct (merge_span_of lo hi merged w Hs Hm) as [<- Hm']. by apply IH.
Qed.

(** The windows that count against a monitor's time. *)
Definition excluded (key : pystr) (t : Z) (b : Board) : bool :=
  existsb (fun w => of_monitor key w && mw_exclude w && in_window t w) (window_list b).

Lemma excluded_iff key t b :
  excluded key t b = true
  <-> exists w, w ∈ window_list b /\ mw_key w = key /\ mw_exclude w = true /\ mw_start w <= t < mw_end w.
Proof.
  unfold excluded, of_monitor, in_window, str_eqb. rewrite existsb_exists. setoid_rewrite <- list_elem_of_In.
  split; intros (w & Hw & H); exists w; (split; [done|]).
  - apply andb_true_iff in H as [[->%bool_decide_eq_true ->]%andb_true_iff H]. split_and!; [done|done|lia..].
  - destruct H as (-> & -> & H). rewrite bool_decide_eq_true_2 by done. cbn. lia.
Qed.

Lemma excluding_elem lo hi key b w :
  w ∈ excluding lo hi key b
  <-> w ∈ window_list b /\ mw_key w = key /\ mw_exclude w = true /\ mw_start w < instant hi /\ instant lo < mw_end w.
Proof.
  unfold excluding. rewrite merge_sort_Permutation, list_elem_of_In, filter_In, <- list_elem_of_In.
  unfold overlapping, str_eqb. rewrite !andb_true_iff, bool_decide_eq_true, !Z.ltb_lt. tauto.
Qed.

Lemma excluding_sorted lo hi key b : StronglySorted starts_first (excluding lo hi key b).
Proof.
  assert (Transitive starts_first) by (intros x y z; unfold starts_first; lia).
  assert (Total starts_first) by (intros x y; unfold starts_first; lia). by apply StronglySorted_merge_sort.
Qed.

Lemma rev_fmap {A B} (f : A -> B) l : rev (f <$> l) = f <$> rev l.
Proof. induction l as [|x l IH]; [done|]. cbn. by rewrite fmap_app, <- IH. Qed.

Lemma get_excluded_ranges_ok lo hi key b :
  spans lo hi ->
  merged_ok (instant lo) (instant hi) (excluding lo hi key b) (rev (span_of <$> get_excluded_ranges lo hi key b)).
Proof.
  intros Hs. unfold get_excluded_ranges. rewrite rev_fmap, rev_involutive, (merge_spans_of lo hi _ []) by done.
  apply (merge_spans_ok _ _ _ [] []).
  - split; [|constructor|done|done]. intros t. split; [by intros (r & ?%elem_of_nil & _)|by intros (_ & w & ?%elem_of_nil & _)].
  - apply excluding_sorted.
  - intros v w ?%elem_of_nil. done.
Qed.

Lemma elem_of_rev {A} (x : A) l : x ∈ rev l <-> x ∈ l.
Proof. by rewrite !list_elem_of_In, <- in_rev. Qed.

Lemma StronglySorted_rev {A} (R : A -> A -> Prop) l : StronglySorted R l -> StronglySorted (flip R) (rev l).
Proof.
  induction 1 as [|x l _ IH Hx]; cbn; [constructor|]. apply StronglySorted_app_2; [|done|by repeat constructor].
  intros y z Hy ->%list_elem_of_singleton. rewrite elem_of_rev in Hy. rewrite Forall_forall in Hx. by apply Hx.
Qed.

Lemma within_span lo hi t : within lo hi t = true <-> instant lo <= t < instant hi.
Proof. unfold within. lia. Qed.

Lemma excluded_at_covered ranges t : excluded_at ranges t = true <-> covered (span_of <$> ranges) t.
Proof.
  unfold excluded_at, covered. rewrite existsb_exists. setoid_rewrite <- list_elem_of_In.
  setoid_rewrite within_span. split.
  - intros (r & Hr & Ht). exists (span_of r). split; [by apply list_elem_of_fmap_2|done].
  - intros (r & (r' & -> & Hr)%list_elem_of_fmap & Ht). by exists r'.
Qed.

Lemma excluded_ranges_ok lo hi key b :
  spans lo hi ->
  let ranges := get_excluded_ranges lo hi key b in
  (forall t, excluded_at ranges t = true
     <-> instant lo <= t < instant hi
         /\ exists w, w ∈ window_list b /\ mw_key w = key /\ mw_exclude w = true /\ mw_start w <= t < mw_end w)
  /\ StronglySorted (fun r r' => instant r.2 < instant r'.1) ranges
  /\ Forall (fun r => instant lo <= instant r.1 /\ instant r.2 <= instant hi) ranges.
Proof.
  intros Hs ranges. destruct (get_excluded_ranges_ok lo hi key b Hs) as [Hc Ha Hi _]. fold ranges in Hc, Ha, Hi.
  split_and!.
  - intros t. rewrite excluded_at_covered.
    assert (covered (span_of <$> ranges) t <-> covered (rev (span_of <$> ranges)) t) as ->.
    { unfold covered. by setoid_rewrite elem_of_rev. }
    rewrite Hc. setoid_rewrite excluding_elem. split.
    + intros (Ht & w & (H1 & H2 & H3 & _) & H4). split; [done|]. by exists w.
    + intros (Ht & w & H1 & H2 & H3 & H4). split; [done|]. exists w. split_and!; try done; lia.
  - apply StronglySorted_rev in Ha. rewrite rev_involutive in Ha. clear -Ha.
    induction ranges as [|r l IH]; [constructor|]. cbn in Ha. apply StronglySorted_inv in Ha as [Ha Hr].
    constructor; [by apply IH|]. rewrite Forall_fmap in Hr. exact Hr.
  - rewrite Forall_forall in Hi. apply Forall_forall. intros r Hr. apply (Hi (span_of r)). rewrite elem_of_rev. by apply list_elem_of_fmap_2.
Qed.

(** The time left out of a span is exactly the time of the span that lies in a
    window of the monitor excluded from its agreement, however the windows
    overlap, touch or nest, and each instant of it is in one range only: the
    ranges come in order, apart from each other and inside the span. *)
Theorem excluded_ranges_spec lo hi key b :
  spans lo hi ->
  let ranges := get_excluded_ranges lo hi key b in
  (forall t, excluded_at ranges t = true
     <-> instant lo <= t < instant hi
         /\ exists w, w ∈ window_list b /\ mw_key w = key /\ mw_exclude w = true /\ mw_start w <= t < mw_end w)
  /\ StronglySorted (fun r r' => instant r.2 < instant r'.1) ranges
  /\ Forall (fun r => instant lo <= instant r.1 /\ instant r.2 <= instant hi) ranges.
Proof. apply excluded_ranges_ok. Qed.
End Ranges.

(** ** What a day is worth *)

Section Days.
Context `{LawfulZone}.

Lemma spans_day day : spans (local_midnight day) (local_midnight (day + 1)).
Proof.
  split; [|apply midnights_ordered]. unfold aware_leb, aware_sub, local_midnight, DAY, SECOND. cbn. lia.
Qed.

Lemma within_day day t : within (local_midnight day) (local_midnight (day + 1)) t = (local_date t =? day).
Proof.
  unfold within. cbn. pose proof (day_of_midnight t day). destruct (Z.eqb_spec (local_date t) day); [lia|].
  apply not_true_iff_false. lia.
Qed.

Definition day_ranges (key : pystr) (day : Z) (b : Board) : list (Aware * Aware) :=
  get_excluded_ranges (local_midnight day) (local_midnight (day + 1)) key b.

Lemma excluded_on_day key day t b : local_date t = day -> excluded_at (day_ranges key day b) t = excluded key t b.
Proof.
  intros Ht. destruct (excluded_ranges_ok _ _ key b (spans_day day)) as [Hc _].
  apply eq_true_iff_eq. unfold day_ranges. rewrite Hc, excluded_iff. apply day_of_midnight in Ht. cbn. tauto.
Qed.

Lemma foldl_add l z : foldl Z.add z l = z + foldl Z.add 0 l.
Proof. revert z. induction l as [|x l IH]; intros z; cbn [foldl]; [lia|]. rewrite IH, (IH (0 + x)). lia. Qed.

(** Ranges apart from each other count each beat once. *)
Lemma count_ranges {A} (f : A -> Z) (p : A -> bool) (l : list A) ranges :
  StronglySorted (fun r r' : Aware * Aware => instant r.2 < instant r'.1) ranges ->
  foldl Z.add 0 ((fun r => count (fun x => within r.1 r.2 (f x) && p x) l) <$> ranges)
  = count (fun x => excluded_at ranges (f x) && p x) l.
Proof.
  induction 1 as [|r ranges _ IH Hr]; [by symmetry; apply count_false|]. cbn [fmap list_fmap foldl].
  rewrite foldl_add, IH, (count_split (fun x => excluded_at (r :: ranges) (f x) && p x) (fun x => within r.1 r.2 (f x))).
  cbn [excluded_at existsb]. f_equal; apply count_ext; intros x _.
  - destruct (within r.1 r.2 (f x)), (p x); cbn; rewrite ?andb_false_r; done.
  - destruct (within r.1 r.2 (f x)) eqn:E; cbn; [|by rewrite andb_true_r].
    rewrite andb_false_r. fold (excluded_at ranges (f x)). destruct (excluded_at ranges (f x)) eqn:E'; [|done].
    apply existsb_exists in E' as (r' & Hr' & E').
    rewrite Forall_forall in Hr. apply list_elem_of_In, Hr in Hr'. apply within_span in E, E'. lia.
Qed.

(** Everything is a count over the table of beats. *)
Definition tally (p : KeyedBeat -> bool) (m : gmap (pystr * Z) Beat) : Z := count p (map_to_list m).

Definition on_day (key : pystr) (day : Z) (x : KeyedBeat) : bool :=
  str_eqb (kb_key x) key && (local_date (kb_at x) =? day).
Definition agreed (key : pystr) (b : Board) (x : KeyedBeat) : bool := negb (excluded key (kb_at x) b).

Lemma tally_ext p q m : (forall x, p x = q x) -> tally p m = tally q m.
Proof. intros Hpq. by apply count_ext. Qed.

Lemma tally_split p q m : tally p m = tally (fun x => p x && q x) m + tally (fun x => p x && negb (q x)) m.
Proof. apply count_split. Qed.

Lemma tally_filter p (P : pystr * Z * Beat -> Prop) `{forall x, Decision (P x)} m :
  tally p (filter P m) = tally (fun x => p x && bool_decide (P x)) m.
Proof.
  unfold tally. assert (map_to_list (filter P m) ≡ₚ List.filter (fun x => bool_decide (P x)) (map_to_list m)) as ->.
  - apply NoDup_Permutation; [apply NoDup_map_to_list|apply NoDup_ListNoDup, List.NoDup_filter, NoDup_ListNoDup, NoDup_map_to_list|].
    intros [k x]. rewrite elem_of_map_to_list, map_lookup_filter_Some, list_elem_of_In, filter_In, <- list_elem_of_In,
      elem_of_map_to_list, bool_decide_eq_true. done.
  - apply count_filter.
Qed.

Lemma count_omap {A B} (f : A -> option B) (p : B -> bool) l :
  count p (omap f l) = count (fun x => match f x with Some y => p y | None => false end) l.
Proof.
  induction l as [|x l IH]; [done|]. rewrite count_cons, <- IH. cbn.
  destruct (f x); [by rewrite count_cons|done].
Qed.

Lemma count_beats_of p key b :
  count p (beats_of key b) = tally (fun x => str_eqb (kb_key x) key && p (kb_at x, x.2)) (beats b).
Proof.
  unfold beats_of, tally. rewrite count_omap. apply count_ext. intros [[k t] x] _. unfold kb_key, kb_at. cbn.
  by destruct (str_eqb k key).
Qed.

Lemma day_counts_tally key day b :
  day_counts key day b
  = (tally (fun x => on_day key day x && agreed key b x && kb_ok x) (beats b),
     tally (fun x => on_day key day x && agreed key b x) (beats b)).
Proof.
  unfold day_counts, get_non_maintenance_counts. cbn [day_bounds]. fold (day_ranges key day b).
  rewrite zlen_count, !count_filter, !count_beats_of. f_equal; apply tally_ext; intros x; cbn [fst snd];
    rewrite within_day; unfold on_day, agreed, kb_ok;
    destruct (str_eqb (kb_key x) key); cbn; try done;
    destruct (Z.eqb_spec (local_date (kb_at x)) day) as [E|]; cbn; rewrite ?andb_false_r; try done;
    rewrite (excluded_on_day key day _ b E); destruct (excluded key (kb_at x) b), (hb_ok x.2); done.
Qed.

(** The share of a batch of the table. *)
Lemma share_tally key day cut b :
  let old := List.filter (fun x => kb_at x <? cut) (map_to_list (beats b)) in
  let mine p := tally (fun x => on_day key day x && p x && (kb_at x <? cut)) (beats b) in
  sh_ok (share_of key day old b) = mine (fun x => agreed key b x && kb_ok x)
  /\ sh_fail (share_of key day old b) = mine (fun x => agreed key b x && negb (kb_ok x))
  /\ sh_excluded (share_of key day old b) = mine (fun x => negb (agreed key b x)).
Proof.
  intros old mine. unfold share_of. cbn [day_bounds sh_ok sh_fail sh_excluded]. fold (day_ranges key day b).
  destruct (excluded_ranges_ok _ _ key b (spans_day day)) as (_ & Hsort & _). fold (day_ranges key day b) in Hsort.
  rewrite !(count_ranges kb_at) by done. unfold day_group. rewrite !count_filter. subst old. rewrite !count_filter.
  assert (forall p, count (fun x => excluded_at (day_ranges key day b) (kb_at x) && p x
      && (str_eqb (kb_key x) key && within (local_midnight day) (local_midnight (day + 1)) (kb_at x)) && (kb_at x <? cut))
      (map_to_list (beats b)) = mine (fun x => negb (agreed key b x) && p x)) as Hin.
  { intros p. apply tally_ext. intros x. rewrite within_day. unfold on_day, agreed.
    destruct (Z.eqb_spec (local_date (kb_at x)) day) as [E|]; [|by rewrite !andb_false_r].
    rewrite (excluded_on_day key day _ b E), negb_involutive, !andb_true_r.
    destruct (str_eqb (kb_key x) key), (excluded key (kb_at x) b), (p x), (kb_at x <? cut); done. }
  rewrite !Hin.
  assert (forall p, count (fun x => p x && (str_eqb (kb_key x) key && (local_date (kb_at x) =? day)) && (kb_at x <? cut))
      (map_to_list (beats b)) = mine (fun x => agreed key b x && p x) + mine (fun x => negb (agreed key b x) && p x)) as Hall.
  { intros p. subst mine. unfold tally. rewrite (count_split _ (agreed key b)). f_equal; apply count_ext; intros x _;
      unfold on_day; destruct (p x), (agreed key b x), (str_eqb (kb_key x) key), (local_date (kb_at x) =? day), (kb_at x <? cut); done. }
  rewrite !Hall. assert (mine (fun x => negb (agreed key b x) && true)
    = mine (fun x => negb (agreed key b x) && kb_ok x) + mine (fun x => negb (agreed key b x) && negb (kb_ok x))) as ->.
  { subst mine. cbn. rewrite (tally_split _ kb_ok). f_equal; apply tally_ext; intros x;
      destruct (on_day key day x), (agreed key b x), (kb_ok x), (kb_at x <? cut); done. }
  split_and!; [lia|lia|]. subst mine. cbn. rewrite (tally_split (fun x => on_day key day x && negb _ && _) kb_ok).
  f_equal; apply tally_ext; intros x; destruct (on_day key day x), (agreed key b x), (kb_ok x), (kb_at x <? cut); done.
Qed.
End Days.

(** ** The fold *)

Section Fold.
Context `{Zone : LocalZone} (settings : BeatSettings).

Lemma share_of_windows key day qs b b' : windows b' = windows b -> share_of key day qs b' = share_of key day qs b.
Proof. intros E. unfold share_of, get_excluded_ranges, excluding, window_list. by rewrite E. Qed.

Definition row_or_zero (o : option Daily) : Z * Z := match o with Some d => (hd_ok d, hd_fail d) | None => (0, 0) end.

(** A row as the share of its group leaves it. *)
Definition added (o : option Daily) (s : Share) (d : Daily) : Prop :=
  hd_ok d = (row_or_zero o).1 + sh_ok s /\ hd_fail d = (row_or_zero o).2 + sh_fail s.

Lemma fold_group_row qs now b key day :
  exists d, daily (fold_group settings qs now b (key, day)) = <[(key, day) := d]> (daily b)
    /\ added (daily b !! (key, day)) (share_of key day qs b) d.
Proof. eexists. split; [done|]. unfold added, row_or_zero. by destruct (daily b !! (key, day)). Qed.

Lemma fold_groups_rows qs now gs b :
  NoDup gs ->
  let b' := foldl (fold_group settings qs now) b gs in
  beats b' = beats b /\ windows b' = windows b /\ epochs b' = epochs b
  /\ forall key day, if decide ((key, day) ∈ gs)
       then exists d, daily b' !! (key, day) = Some d /\ added (daily b !! (key, day)) (share_of key day qs b) d
       else daily b' !! (key, day) = daily b !! (key, day).
Proof.
  revert b. induction gs as [|[k d] gs IH]; intros b Hnd b'; [by split_and!|].
  apply NoDup_cons in Hnd as [Hno Hnd].
  destruct (fold_group_row qs now b k d) as (row & Er & Ha).
  assert (beats (fold_group settings qs now b (k, d)) = beats b /\ windows (fold_group settings qs now b (k, d)) = windows b
    /\ epochs (fold_group settings qs now b (k, d)) = epochs b) as (E1 & E2 & E3) by done.
  subst b'. cbn [foldl]. set (b1 := fold_group settings qs now b (k, d)) in *. clearbody b1.
  destruct (IH b1 Hnd) as (F1 & F2 & F3 & Frow). rewrite F1, F2, F3. split_and!; [done..|].
  intros key day. specialize (Frow key day).
  destruct (decide ((key, day) = (k, d))) as [[= -> ->]|Hne].
  - rewrite decide_True by apply list_elem_of_here. rewrite decide_False in Frow by done. exists row.
    split; [|done]. by rewrite Frow, Er, lookup_insert_eq.
  - assert (daily b1 !! (key, day) = daily b !! (key, day)) as E by (by rewrite Er, lookup_insert_ne by congruence).
    rewrite E, (share_of_windows _ _ _ b b1 E2) in Frow.
    destruct (decide ((key, day) ∈ gs)) as [Hin|Hno'].
    + by rewrite decide_True by by apply list_elem_of_further.
    + rewrite decide_False; [done|]. intros [?|?]%elem_of_cons; done.
Qed.

Lemma groups_elem key day qs : (key, day) ∈ groups qs <-> exists x, x ∈ qs /\ kb_key x = key /\ local_date (kb_at x) = day.
Proof.
  unfold groups. rewrite elem_of_remove_dups, list_elem_of_fmap. split.
  - intros (x & [= -> ->] & Hx). by exists x.
  - intros (x & Hx & <- & <-). by exists x.
Qed.
End Fold.

(** ** A table that is never pruned *)

Section World.
Context `{Lawful : LawfulZone} (settings : BeatSettings).

(** What happened beside what is kept: every beat ever recorded, and the
    instant up to which beats were folded. *)
Record History := { board : Board; ever : gmap (pystr * Z) Beat; pruned : Z }.

(** The same board, had nothing been folded. *)
Definition unpruned (h : History) : Board := board h <| beats := ever h |> <| daily := ∅ |>.

Definition with_board (b : Board) (h : History) : History := Build_History b (ever h) (pruned h).

(** What a check recorded is remembered. *)
Definition remember (k : pystr * Z) (b : Board) (h : History) : History :=
  Build_History b (match beats b !! k with Some x => <[k := x]> (ever h) | None => ever h end) (pruned h).

(** A check records its minute, which was not folded yet; windows change from
    the folded instant on. *)
Inductive step : History -> History -> Prop :=
| h_check h m now fault :
    pruned h <= minute_of now ->
    step h (remember (mon_key m, minute_of now) (run_one fault m now (board h)).2 h)
| h_prune h now :
    step h (Build_History (prune_old_heartbeats settings now (board h)).2 (ever h) (Z.max (pruned h) (cutoff settings now)))
| h_reset h key note started_at target minimum now :
    step h (with_board (reset key note started_at target minimum now (board h)) h)
| h_open h title start end_ key note exclude pk b :
    open_window title start end_ key note exclude (board h) = Some (pk, b) -> pruned h <= start -> step h (with_board b h)
| h_close h key delete_future moment :
    pruned h <= moment -> step h (with_board (close_windows key delete_future moment (board h)).2 h)
| h_edit h pk w :
    is_Some (windows (board h) !! pk) ->
    (forall key t, t < pruned h ->
       excluded key t (board h <| windows := <[pk := w]> (windows (board h)) |>) = excluded key t (board h)) ->
    step h (with_board (board h <| windows := <[pk := w]> (windows (board h)) |>) h).

Definition start : History := Build_History (Build_Board ∅ ∅ ∅ 1 ∅) ∅ 0.

Definition older (cut : Z) (m : gmap (pystr * Z) Beat) : gmap (pystr * Z) Beat := filter (fun x => x.1.2 < cut) m.
Definition newer (cut : Z) (m : gmap (pystr * Z) Beat) : gmap (pystr * Z) Beat := filter (fun x => cut <= x.1.2) m.

(** The folded beats of a day that satisfy [p]. *)
Definition past (key : pystr) (day : Z) (p : KeyedBeat -> bool) (h : History) : Z :=
  tally (fun x => on_day key day x && p x) (older (pruned h) (ever h)).

Record inv (h : History) : Prop := {
  iv_beats : beats (board h) = newer (pruned h) (ever h);
  iv_rows : forall key day,
    row_or_zero (daily (board h) !! (key, day))
      = (past key day (fun x => agreed key (board h) x && kb_ok x) h,
         past key day (fun x => agreed key (board h) x && negb (kb_ok x)) h)
    /\ (daily (board h) !! (key, day) = None <-> past key day (fun _ => true) h = 0);
  iv_fresh : forall pk w, windows (board h) !! pk = Some w -> pk < next_window (board h);
}.

(** Operations that leave the beats, the rows and the past of the windows. *)
Lemma inv_quiet h b :
  inv h -> beats b = beats (board h) -> daily b = daily (board h) ->
  (forall key t, t < pruned h -> excluded key t b = excluded key t (board h)) ->
  (forall pk w, windows b !! pk = Some w -> pk < next_window b) ->
  inv (with_board b h).
Proof.
  intros [Hb Hr _] E1 E2 Hpast Hf. split; cbn; rewrite ?E1, ?E2; [done| |done].
  intros key day. destruct (Hr key day) as [Hrow Hnone]. split; [|exact Hnone]. rewrite Hrow.
  assert (forall q, past key day (fun x => agreed key b x && q x) (with_board b h)
    = past key day (fun x => agreed key (board h) x && q x) h) as Hq; [|by rewrite !Hq].
  intros q. unfold past. cbn. unfold older. rewrite !tally_filter. apply tally_ext. intros x.
  case_bool_decide as Hx; [|by rewrite !andb_false_r]. unfold agreed, kb_at. by rewrite Hpast.
Qed.

Lemma excluded_windows b b' key t : windows b' = windows b -> excluded key t b' = excluded key t b.
Proof. intros E. unfold excluded, window_list. by rewrite E. Qed.

Lemma in_window_list w b : w ∈ window_list b <-> exists pk, windows b !! pk = Some w.
Proof.
  unfold window_list. rewrite list_elem_of_fmap. split.
  - intros ([pk x] & -> & Hx%elem_of_map_to_list). by exists pk.
  - intros (pk & Hpk%elem_of_map_to_list). by exists (pk, w).
Qed.

Lemma excluded_by key t b :
  excluded key t b = true
  <-> exists pk w, windows b !! pk = Some w /\ mw_key w = key /\ mw_exclude w = true /\ mw_start w <= t < mw_end w.
Proof. rewrite excluded_iff. setoid_rewrite in_window_list. naive_solver. Qed.

Lemma open_window_past title from end_ key note exclude b pk b' :
  open_window title from end_ key note exclude b = Some (pk, b') ->
  (forall k w, windows b !! k = Some w -> k < next_window b) ->
  (forall key' t, t < from -> excluded key' t b' = excluded key' t b)
  /\ (forall k w, windows b' !! k = Some w -> k < next_window b') /\ beats b' = beats b /\ daily b' = daily b.
Proof.
  unfold open_window. destruct (end_ <=? from); [done|]. intros [= <- <-] Hf. split_and!; [|cbn|done|done].
  - intros key' t Ht. apply eq_true_iff_eq. rewrite !excluded_by. cbn. split.
    + intros (k & w & [[<- <-]|[_ Hw]]%lookup_insert_Some & H1 & H2 & H3); [cbn in H3; lia|]. by exists k, w.
    + intros (k & w & Hw & H1). exists k, w. split; [|done]. rewrite lookup_insert_ne; [done|].
      apply Hf in Hw. lia.
  - intros k w [[<- _]|[_ Hw%Hf]]%lookup_insert_Some; lia.
Qed.

Lemma close_windows_past key delete_future moment b b' e d :
  close_windows key delete_future moment b = (e, d, b') ->
  (forall key' t, t < moment -> excluded key' t b' = excluded key' t b)
  /\ (forall k w, windows b' !! k = Some w -> is_Some (windows b !! k))
  /\ beats b' = beats b /\ daily b' = daily b /\ next_window b' = next_window b.
Proof.
  intros E. set (active := fun w => of_monitor key w && in_window moment w).
  set (shorten := fun w : Window => if active w then w <| mw_end := moment |> else w).
  assert (beats b' = beats b /\ daily b' = daily b /\ next_window b' = next_window b
    /\ (forall k w, windows b' !! k = Some w -> exists v, windows b !! k = Some v /\ w = shorten v)
    /\ (forall k v, windows b !! k = Some v -> windows b' !! k = Some (shorten v) \/ moment < mw_start v))
    as (E1 & E2 & E3 & Hto & Hfrom).
  { unfold close_windows in E. destruct delete_future; injection E as <- <- <-; cbn; (split_and!; [done..| |]).
    - intros k w [Hw _]%map_lookup_filter_Some. rewrite lookup_fmap in Hw. apply fmap_Some in Hw as (v & Hv & ->). by exists v.
    - intros k v Hv. destruct (moment <? mw_start v) eqn:Ef; [right; lia|left].
      apply map_lookup_filter_Some. rewrite lookup_fmap, Hv. split; [done|]. cbn. fold active. change (mw_start _) with (mw_start (shorten v)).
      assert (mw_start (shorten v) = mw_start v) as -> by (unfold shorten; by destruct (active v)). by rewrite Ef, andb_false_r.
    - intros k w Hw. rewrite lookup_fmap in Hw. apply fmap_Some in Hw as (v & Hv & ->). by exists v.
    - intros k v Hv. left. by rewrite lookup_fmap, Hv. }
  split_and!; [| |done..].
  - intros key' t Ht. assert (forall v, mw_key (shorten v) = mw_key v /\ mw_exclude (shorten v) = mw_exclude v
      /\ (mw_start (shorten v) <= t < mw_end (shorten v) <-> mw_start v <= t < mw_end v)) as Hsh.
    { intros v. unfold shorten, active, in_window. destruct (of_monitor key v); cbn; [|done].
      destruct (Z.leb_spec (mw_start v) moment), (Z.ltb_spec moment (mw_end v)); cbn; split_and!; try done; lia. }
    apply eq_true_iff_eq. rewrite !excluded_by. split.
    + intros (k & w & (v & Hv & ->)%Hto & H1 & H2 & H3). destruct (Hsh v) as (E4 & E5 & H4). exists k, v.
      rewrite E4 in H1. rewrite E5 in H2. split_and!; [done..|apply H4; lia|apply H4; lia].
    + intros (k & v & Hv & H1 & H2 & H3). destruct (Hsh v) as (E4 & E5 & H4). destruct (Hfrom k v Hv) as [Hw|]; [|lia].
      exists k, (shorten v). rewrite E4, E5. split_and!; [done..|apply H4; lia|apply H4; lia].
  - intros k w (v & Hv & _)%Hto. by eexists.
Qed.

(** *** A check *)

Lemma run_one_board fault m now b :
  let b' := (run_one fault m now b).2 in
  daily b' = daily b /\ windows b' = windows b /\ next_window b' = next_window b
  /\ (beats b' = beats b \/ exists x, beats b' = <[(mon_key m, minute_of now) := x]> (beats b)).
Proof.
  assert (forall k b, daily (ensure_epoch k b) = daily b /\ windows (ensure_epoch k b) = windows b
    /\ next_window (ensure_epoch k b) = next_window b /\ beats (ensure_epoch k b) = beats b) as He.
  { intros k b0. unfold ensure_epoch. destruct (epochs b0 !! k); [done|]. by destruct (oldest_beat k b0). }
  unfold run_one, run_monitor_check. destruct fault as [[text|text]|]; cbn; [by split_and!; [..|left]| |];
    destruct (match mon_check m with Ok _ => _ | Err _ => _ end) as [[ok ms] note]; cbn;
    match goal with |- context [ensure_epoch ?k ?b0] => destruct (He k b0) as (-> & -> & -> & ->) end;
    (split_and!; [done..|]); right; by eexists.
Qed.

Lemma older_insert k x cut m : cut <= k.2 -> older cut (<[k := x]> m) = older cut (delete k m).
Proof. intros Hk. apply map_filter_insert_False. cbn. lia. Qed.

Lemma older_delete k cut m : cut <= k.2 -> older cut (delete k m) = older cut m.
Proof.
  intros Hk. apply map_eq. intros i. apply option_eq. intros x. unfold older. rewrite !map_lookup_filter_Some.
  split; intros [H1 H2]; (split; [|done]).
  - by apply lookup_delete_Some in H1 as [_ ?].
  - rewrite lookup_delete_ne; [done|]. intros ->. cbn in H2. lia.
Qed.

Lemma inv_check h m now fault :
  inv h -> pruned h <= minute_of now -> inv (remember (mon_key m, minute_of now) (run_one fault m now (board h)).2 h).
Proof.
  intros [Hb Hr Hf] Hm. set (k := (mon_key m, minute_of now)).
  destruct (run_one_board fault m now (board h)) as (Ed & Ew & En & Eb). set (b' := (run_one fault m now (board h)).2) in *.
  clearbody b'. fold k in Eb.
  assert (older (pruned h) (ever (remember k b' h)) = older (pruned h) (ever h)) as Eold.
  { cbn. destruct (beats b' !! k); [|done]. rewrite older_insert, older_delete; done. }
  split; cbn.
  - destruct Eb as [Eb|[x Eb]]; rewrite Eb.
    + destruct (beats (board h) !! k) as [x|] eqn:Ex; [|done]. unfold newer.
      rewrite map_filter_insert_True by (cbn; lia). fold (newer (pruned h) (ever h)). rewrite <- Hb. by rewrite insert_id.
    + rewrite lookup_insert_eq. unfold newer. rewrite map_filter_insert_True by (cbn; lia).
      fold (newer (pruned h) (ever h)). by rewrite <- Hb.
  - intros key day. rewrite Ed. destruct (Hr key day) as [Hrow Hnone].
    assert (forall q, past key day (fun x => agreed key b' x && q x) (remember k b' h)
      = past key day (fun x => agreed key (board h) x && q x) h) as Hq.
    { intros q. unfold past. cbn [pruned remember]. rewrite Eold. apply tally_ext. intros x. unfold agreed.
      by rewrite (excluded_windows _ _ _ _ Ew). }
    rewrite !Hq. unfold past. cbn [pruned remember]. rewrite Eold. by split.
  - rewrite Ew, En. exact Hf.
Qed.

(** *** A pruning *)

Lemma old_elem now b x : x ∈ old_records settings now b <-> x ∈ map_to_list (beats b) /\ kb_at x < cutoff settings now.
Proof. unfold old_records. by rewrite list_elem_of_In, filter_In, <- list_elem_of_In, Z.ltb_lt. Qed.

Lemma prune_board now b :
  let b' := (prune_old_heartbeats settings now b).2 in
  let old := old_records settings now b in
  beats b' = newer (cutoff settings now) (beats b) /\ windows b' = windows b /\ next_window b' = next_window b
  /\ forall key day, if decide ((key, day) ∈ groups old)
       then exists d, daily b' !! (key, day) = Some d /\ added (daily b !! (key, day)) (share_of key day old b) d
       else daily b' !! (key, day) = daily b !! (key, day).
Proof.
  assert (forall qs gs b0, next_window (foldl (fold_group settings qs now) b0 gs) = next_window b0) as Hnext.
  { intros qs gs. induction gs as [|[k d] gs IH]; intros b0; [done|]. cbn [foldl]. by rewrite IH. }
  intros b' old. unfold prune_old_heartbeats in b'. fold old in b'.
  destruct (fold_groups_rows settings old now (groups old) b (NoDup_remove_dups _)) as (E1 & E2 & _ & E4).
  destruct old as [|x l] eqn:Eo.
  - subst b'. cbn in *. split_and!; [|done..|exact E4]. symmetry. apply map_filter_id. intros [k t] y Hy. cbn.
    destruct (Z.le_gt_cases (cutoff settings now) t) as [|Hlt]; [done|].
    assert ((k, t, y) ∈ old) as Hin; [|by rewrite Eo in Hin; apply elem_of_nil in Hin].
    apply old_elem. split; [by apply elem_of_map_to_list|done].
  - subst b'. rewrite <- Eo in *. cbn. unfold write_daily_summaries. rewrite E1, E2, Hnext. split_and!; [done..|exact E4].
Qed.

Lemma past_grows key day p h cut :
  pruned h <= cut ->
  past key day p (Build_History (board h) (ever h) cut)
  = past key day p h + tally (fun x => on_day key day x && p x && (kb_at x <? cut)) (newer (pruned h) (ever h)).
Proof.
  intros Hle. unfold past, older, newer. cbn [ever pruned]. rewrite !tally_filter.
  rewrite (tally_split _ (fun x => kb_at x <? pruned h)). f_equal; apply tally_ext; intros x; unfold kb_at;
    repeat case_bool_decide; destruct (on_day key day x), (p x), (Z.ltb_spec x.1.2 (pruned h)), (Z.ltb_spec x.1.2 cut);
    cbn; try done; lia.
Qed.

Lemma past_nonneg key day p h : 0 <= past key day p h.
Proof. apply count_nonneg. Qed.

Lemma inv_prune h now :
  inv h -> inv (Build_History (prune_old_heartbeats settings now (board h)).2 (ever h) (Z.max (pruned h) (cutoff settings now))).
Proof.
  intros [Hb Hr Hf]. destruct (prune_board now (board h)) as (Eb & Ew & En & Erow).
  set (b' := (prune_old_heartbeats settings now (board h)).2) in *. clearbody b'.
  set (cut := cutoff settings now) in *. set (old := old_records settings now (board h)) in *.
  split; cbn.
  - rewrite Eb, Hb. unfold newer. rewrite map_filter_filter. apply map_filter_ext. intros [k t] x _. cbn. lia.
  - intros key day. specialize (Erow key day). destruct (Hr key day) as [Hrow Hnone].
    set (mine := fun p : KeyedBeat -> bool => tally (fun x => on_day key day x && p x && (kb_at x <? cut)) (beats (board h))).
    assert (forall p, past key day p (Build_History b' (ever h) (Z.max (pruned h) cut)) = past key day p h + mine p) as Hgrow.
    { intros p. change (past key day p (Build_History (board h) (ever h) (Z.max (pruned h) cut)) = past key day p h + mine p).
      rewrite past_grows by lia. f_equal. subst mine. cbn. rewrite Hb. unfold newer. rewrite !tally_filter. apply tally_ext.
      intros x. unfold kb_at. case_bool_decide; destruct (on_day key day x), (p x), (Z.ltb_spec x.1.2 cut),
        (Z.ltb_spec x.1.2 (Z.max (pruned h) cut)); cbn; try done; lia. }
    assert (forall q, past key day (fun x => agreed key b' x && q x) (Build_History b' (ever h) (Z.max (pruned h) cut))
      = past key day (fun x => agreed key (board h) x && q x) h + mine (fun x => agreed key (board h) x && q x)) as Hq.
    { intros q. rewrite <- Hgrow. apply tally_ext. intros x. unfold agreed. by rewrite (excluded_windows _ _ _ _ Ew). }
    rewrite !Hq, Hgrow. destruct (share_tally key day cut (board h)) as (S1 & S2 & _).
    change (List.filter (fun x => kb_at x <? cut) (map_to_list (beats (board h)))) with old in S1, S2.
    fold (mine (fun x => agreed key (board h) x && kb_ok x)) in S1.
    fold (mine (fun x => agreed key (board h) x && negb (kb_ok x))) in S2.
    assert ((key, day) ∈ groups old <-> mine (fun _ => true) <> 0) as Hgroup.
    { rewrite groups_elem. subst mine. cbn. split.
      - intros (x & [Hx Ht]%old_elem & <- & <-) E. apply (proj1 (count_zero _ _)) with x in E; [|done].
        unfold on_day, str_eqb in E. rewrite bool_decide_eq_true_2, Z.eqb_refl in E by done. cbn in E. lia.
      - intros Hne. destruct (List.existsb (fun x => on_day key day x && true && (kb_at x <? cut)) (map_to_list (beats (board h)))) eqn:Ex.
        + apply existsb_exists in Ex as (x & Hx & E). apply list_elem_of_In in Hx. exists x.
          unfold on_day, str_eqb in E. bool_to_prop. split; [by apply old_elem|done].
        + destruct Hne. apply count_zero. intros x Hx. rewrite <- not_true_iff_false in *. contradict Ex.
          apply existsb_exists. exists x. by rewrite <- list_elem_of_In. }
    destruct (decide ((key, day) ∈ groups old)) as [Hin|Hout].
    + destruct Erow as (d & Ed & A1 & A2). rewrite S1, Hrow in A1. rewrite S2, Hrow in A2.
      split; [cbn; by rewrite Ed; cbn; rewrite A1, A2|]. rewrite Ed. split; [done|]. apply Hgroup in Hin.
      pose proof (past_nonneg key day (fun _ => true) h). assert (0 <= mine (fun _ => true)) by apply count_nonneg. lia.
    + rewrite Erow, Hrow. assert (mine (fun _ => true) = 0) as Hz by (destruct (decide (mine (fun _ => true) = 0)); tauto).
      assert (forall q, mine q = 0) as Hzq.
      { intros q. apply count_zero. intros x Hx. apply (proj1 (count_zero _ _)) with x in Hz; [|done].
        destruct (on_day key day x), (q x), (kb_at x <? cut); done. }
      rewrite !Hzq, !Z.add_0_r. split; [done|exact Hnone].
  - rewrite Ew, En. exact Hf.
Qed.

Lemma heartbeat_step_inv h h' : step h h' -> inv h -> inv h'.
Proof.
  intros Hs Hi. destruct Hs as [h m now fault Hm|h now|h key note started_at target minimum now
    |h title from end_ key note exclude pk b Ho Hle|h key delete_future moment Hle|h pk w Hw He].
  - by apply inv_check.
  - by apply inv_prune.
  - apply inv_quiet; [done|done|done|done|]. by destruct Hi.
  - destruct (open_window_past _ _ _ _ _ _ _ _ _ Ho (iv_fresh _ Hi)) as (H1 & H2 & H3 & H4).
    apply inv_quiet; [done|done|done| |done]. intros k t Ht. apply H1. lia.
  - destruct (close_windows key delete_future moment (board h)) as [[e d] b] eqn:E. cbn.
    destruct (close_windows_past _ _ _ _ _ _ _ E) as (H1 & H2 & H3 & H4 & H5).
    apply inv_quiet; [done|done|done| |].
    + intros k t Ht. apply H1. lia.
    + intros k w [v Hv]%H2. rewrite H5. by eapply (iv_fresh _ Hi).
  - apply inv_quiet; [done|done|done|exact He|]. cbn. destruct Hw as [v Hv].
    intros k x [[<- _]|[_ Hx]]%lookup_insert_Some; by eapply (iv_fresh _ Hi).
Qed.

Lemma start_ok : inv start.
Proof.
  split; cbn; [done| |by intros pk w ?%lookup_empty_Some].
  intros key day. rewrite lookup_empty. unfold past, tally, older. cbn. rewrite map_filter_empty, map_to_list_empty. done.
Qed.

Lemma heartbeat_inv h : rtc step start h -> inv h.
Proof. intros Hr. apply rtc_ind_r with (P := inv) (z := h) in Hr; [done|apply start_ok|]. intros x y _ Hs. by apply heartbeat_step_inv. Qed.

(** *** The days are worth the same *)

Lemma midnights_mono a b : a <= b -> midnight a <= midnight b.
Proof.
  intros Hle. replace b with (a + Z.of_nat (Z.to_nat (b - a))) by lia. induction (Z.to_nat (b - a)) as [|n IH].
  - by rewrite Z.add_0_r.
  - rewrite Nat2Z.inj_succ, <- Z.add_1_r, Z.add_assoc. etrans; [exact IH|apply midnights_ordered].
Qed.

(** What [daily_uptime] answers, from the counts of the day. *)
Definition verdict (key : pystr) (day now : Z) (present : bool) (ok observed : Z) (b : Board) : option float :=
  if present then
    if day =? local_date now then if observed =? 0 then None else Some (percent 2 ok observed)
    else
      let denominator := Z.max observed (expected_intervals_for_day settings day key (epoch_start key b) now b) in
      if denominator =? 0 then None else Some (percent 2 ok denominator)
  else None.

Lemma daily_uptime_verdict key from to day now b :
  from <= day <= to ->
  let n := tally (on_day key day) (beats b) in
  let row := row_or_zero (daily b !! (key, day)) in
  let raw_ok := tally (fun x => on_day key day x && agreed key b x && kb_ok x) (beats b) in
  let raw := tally (fun x => on_day key day x && agreed key b x) (beats b) in
  daily_uptime settings key from to day now b
  = verdict key day now (negb (bool_decide (daily b !! (key, day) = None) && (n =? 0)))
      (row.1 + raw_ok) (row.1 + row.2 + raw) b.
Proof.
  intros Hd n row raw_ok raw. unfold daily_uptime.
  assert (zlen (List.filter (fun x => (midnight from <=? x.1) && (x.1 <? midnight (to + 1)) && (local_date x.1 =? day)) (beats_of key b)) = n) as ->.
  { rewrite zlen_count, count_filter, count_beats_of. apply tally_ext. intros x. unfold on_day. cbn.
    destruct (str_eqb (kb_key x) key); [|done]. cbn. destruct (Z.eqb_spec (local_date (kb_at x)) day) as [E|]; [|by rewrite andb_false_r].
    apply day_of_midnight in E. pose proof (midnights_mono from day). pose proof (midnights_mono (day + 1) (to + 1)). lia. }
  rewrite day_counts_tally. fold raw_ok raw. rewrite negb_involutive.
  assert ((n =? 0) = true -> raw_ok = 0 /\ raw = 0) as Hzero.
  { intros En%Z.eqb_eq. split; apply count_zero; intros x Hx; apply (proj1 (count_zero _ _)) with x in En; try done; by rewrite En. }
  unfold verdict. destruct (daily b !! (key, day)) as [d|] eqn:Er; cbn [row_or_zero] in row; subst row; cbn [fst snd];
    destruct (n =? 0) eqn:En; cbn [negb andb]; try destruct (Hzero eq_refl) as [-> ->]; rewrite ?Z.add_0_r; done.
Qed.

(** C29: Beats are folded away and no bar changes. Whatever checks, failures of the
    database, prunings, windows opened or closed and resets of the epoch came
    before, the day-by-day uptime of every monitor is the one a table
    never pruned would give: a day half folded, folded in a thousand batches
    or not at all is worth the same. Windows may be edited as long as what
    they exclude of the time already folded stays as it was. *)
Theorem pruning_invisible h key from to now :
  rtc step start h ->
  daily_uptime_map settings key from to now (board h) = daily_uptime_map settings key from to now (unpruned h)
  /\ forall days, is_Some (epochs (board h) !! key) ->
       build_daily_timeline settings days key now (board h) = build_daily_timeline settings days key now (unpruned h).
Proof.
  intros Hr%heartbeat_inv.
  assert (forall from to, daily_uptime_map settings key from to now (board h) = daily_uptime_map settings key from to now (unpruned h)) as Hmap.
  { clear from to. intros from to. unfold daily_uptime_map. apply list_fmap_ext. intros i day Hday%list_elem_of_lookup_2%elem_of_seqZ.
    f_equal. destruct Hr as [Hb Hrows _]. destruct (Hrows key day) as [Hrow Hnone].
    rewrite !daily_uptime_verdict by lia.
    change (daily (unpruned h)) with (∅ : gmap (pystr * Z) Daily). change (beats (unpruned h)) with (ever h). rewrite lookup_empty.
    assert (forall p, tally (fun x => on_day key day x && p x) (ever h)
      = past key day p h + tally (fun x => on_day key day x && p x) (beats (board h))) as Hsplit.
    { intros p. rewrite Hb. unfold past, older, newer. rewrite !tally_filter, (tally_split _ (fun x => kb_at x <? pruned h)).
      f_equal; apply tally_ext; intros x; unfold kb_at; case_bool_decide; destruct (on_day key day x), (p x), (Z.ltb_spec x.1.2 (pruned h)); cbn; done || lia. }
    assert (forall m, tally (on_day key day) m = tally (fun x => on_day key day x && true) m) as Hall
      by (intros m; apply tally_ext; intros x; by rewrite andb_true_r).
    assert (forall m b, tally (fun x => on_day key day x && agreed key b x && kb_ok x) m
      = tally (fun x => on_day key day x && (agreed key b x && kb_ok x)) m) as Hok
      by (intros m b; apply tally_ext; intros x; by rewrite andb_assoc).
    assert (past key day (agreed key (board h)) h = past key day (fun x => agreed key (board h) x && kb_ok x) h
      + past key day (fun x => agreed key (board h) x && negb (kb_ok x)) h) as Hpast.
    { unfold past. rewrite (tally_split _ kb_ok). f_equal; apply tally_ext; intros x; by rewrite andb_assoc. }
    rewrite Hrow, !Hall, !Hok. cbn [row_or_zero fst snd].
    change (agreed key (unpruned h)) with (agreed key (board h)).
    rewrite !(Hsplit (fun _ => true)), !(Hsplit (fun x => agreed key (board h) x && kb_ok x)), (Hsplit (agreed key (board h))), Hpast.
    pose proof (past_nonneg key day (fun _ => true) h). set (n := tally (fun x => on_day key day x && true) (beats (board h))).
    assert (0 <= n) by apply count_nonneg.
    assert (bool_decide (daily (board h) !! (key, day) = None) && (n =? 0) = true && (past key day (fun _ => true) h + n =? 0)) as ->.
    { case_bool_decide as Hd; cbn; [apply Hnone in Hd; by rewrite Hd|].
      symmetry. apply Z.eqb_neq. rewrite Hnone in Hd. lia. }
    rewrite bool_decide_eq_true_2 by done. cbn. done. }
  split; [apply Hmap|]. intros days Hep. unfold build_daily_timeline. rewrite Hmap. unfold get_epoch. cbn. by destruct Hep as [e ->].
Qed.
End World.
