(* ===== verification/HeartbeatViews.v ===== *)
(** * apps/heartbeat: the registry, the boards, the calendars and the endpoint

    smallstack/monitors.py, what views.py computes for the overview and the
    public page, the calendars of status.py and the heartbeat command. Rows
    carry what is computed; labels, icons and links are left out. *)
From Stdlib Require Import SpecFloat.
From stdpp Require Import sorting.
From S2P Require Import Prelude PyFloat FloatDiv PyStr PyTime PyLib Schedules Heartbeat.
Open Scope Z_scope.

(** ** smallstack/monitors.py *)

Record Service := { sv_key : pystr; sv_order : Z; sv_public : bool; sv_category : pystr }.

(** [sorted(..., key=lambda m: (m.order, m.key))] *)
Definition ordered_before (a b : Z * pystr) : Prop := a.1 < b.1 \/ (a.1 = b.1 /\ str_ltb b.2 a.2 = false).
#[global] Instance ordered_before_dec a b : Decision (ordered_before a b).
Proof. unfold ordered_before. apply _. Defined.

Definition monitor_before (m n : Monitor) : Prop := ordered_before (mon_order m, mon_key m) (mon_order n, mon_key n).
#[global] Instance monitor_before_dec m n : Decision (monitor_before m n).
Proof. unfold monitor_before. apply _. Defined.
Definition service_before (s t : Service) : Prop := ordered_before (sv_order s, sv_key s) (sv_order t, sv_key t).
#[global] Instance service_before_dec s t : Decision (service_before s t).
Proof. unfold service_before. apply _. Defined.

(** The registry: what code registered, and what the sources yield now. *)
Record Registry := { code_monitors : list (pystr * Monitor); sources : list (list Monitor); services : list (pystr * Service) }.

Definition register_monitor (m : Monitor) (r : Registry) : Registry :=
  {| code_monitors := dict_set (code_monitors r) (mon_key m) m; sources := sources r; services := services r |}.
Definition register_service (s : Service) (r : Registry) : Registry :=
  {| code_monitors := code_monitors r; sources := sources r; services := dict_set (services r) (sv_key s) s |}.

Definition keyed (l : list Monitor) : list (pystr * Monitor) := (fun m => (mon_key m, m)) <$> l.

Definition get_services (r : Registry) : list Service := merge_sort service_before (services r).*2.

Definition get_monitors (r : Registry) : list Monitor :=
  merge_sort monitor_before (foldl (fun d s => dict_update d (keyed s)) (code_monitors r) (sources r)).*2.

Definition get_monitor (key : pystr) (r : Registry) : option Monitor :=
  List.find (fun m => str_eqb (mon_key m) key) (get_monitors r).

Section Views.
Context `{LocalZone} (settings : BeatSettings).

(** ** The overview *)

Definition severity (s : LiveStatus) : Z :=
  match s with Operational => 0 | UnderMaintenance | Unknown => 1 | Degraded => 2 | Down => 3 end.

Record OverviewState := {
  os_state : LiveStatus;
  os_ms : Z;
  os_uptime : option float;
  os_warming : bool;
  os_note : pystr;
}.

(** [_monitor_overview_state], under [HEARTBEAT_WARMUP_MINUTES]. *)
Definition monitor_overview_state (warmup : Z) (m : Monitor) (now : Z) (b : Board) : OverviewState :=
  let data := get_status_data settings (mon_key m) now b in
  let known := match sd_status data with Unknown => false | _ => true end in
  let warming := match get_epoch (mon_key m) b with Some e => now - e <? warmup * MINUTE | None => false end in
  {| os_state := sd_status data; os_ms := sd_ms data;
     os_uptime := if warming then None else if known then calc_uptime settings 24 (mon_key m) now b else None;
     os_warming := warming; os_note := default [] (sd_note data) |}.

#[global] Instance live_status_eq_dec : EqDecision LiveStatus.
Proof. solve_decision. Defined.

(** The precedence of every roll-up. *)
Definition roll_up (l : list LiveStatus) : LiveStatus :=
  if decide (Down ∈ l) then Down
  else if decide (Degraded ∈ l) then Degraded
  else if decide (UnderMaintenance ∈ l) then UnderMaintenance
  else if decide (Operational ∈ l) then Operational else Unknown.

Definition worse (worst s : LiveStatus) : LiveStatus := if severity worst <? severity s then s else worst.

Record ServiceRow := { sr_service : Service; sr_rows : list (Monitor * OverviewState); sr_state : LiveStatus }.

Definition service_row (warmup : Z) (now : Z) (b : Board) (mons : list Monitor) (s : Service) : ServiceRow :=
  let rows := (fun m => (m, monitor_overview_state warmup m now b)) <$> mons in
  {| sr_service := s; sr_rows := rows; sr_state := foldl (fun w x => worse w (os_state x.2)) Operational rows |}.

Definition service_rows (warmup : Z) (public_only : bool) (r : Registry) (now : Z) (b : Board) : list ServiceRow :=
  let listed := List.filter (fun m => negb public_only || mon_public m) (get_monitors r) in
  omap (fun s =>
          match List.filter (fun m => str_eqb (mon_service m) (sv_key s)) listed with
          | [] => if public_only then None else Some (service_row warmup now b [] s)
          | mons => Some (service_row warmup now b mons s)
          end) (get_services r).

(** [_build_site_card]: a core service is on when its live inventory says so
    and its recorded state is not bad. [None] is an inventory that raised. *)
Definition core_ok (inventory : pystr -> option bool) (row : ServiceRow) : bool :=
  let live := match sr_rows row with
              | [] => match sr_state row with Operational => true | _ => false end
              | (m, _) :: _ => default false (inventory (mon_key m))
              end in
  live && negb (severity Degraded <=? severity (sr_state row)).

Definition live_state (oks : list bool) : LiveStatus :=
  match oks with
  | [] => Unknown
  | _ => if forallb id oks then Operational else if existsb id oks then Degraded else Down
  end.

Record Tier := { ti_category : pystr; ti_rows : list ServiceRow; ti_state : LiveStatus; ti_count : Z }.

Definition CORE : pystr := u "core".
Definition category_order (c : pystr) : Z :=
  if str_eqb c CORE then 0 else if str_eqb c (u "internal") then 1 else if str_eqb c (u "external") then 2 else 99.

Definition states_of (rows : list ServiceRow) : list LiveStatus :=
  rows ≫= (fun r => (fun x => os_state x.2) <$> sr_rows r).

Definition tier (inventory : pystr -> option bool) (rows : list ServiceRow) (c : pystr) : Tier :=
  let mine := List.filter (fun r => str_eqb (sv_category (sr_service r)) c) rows in
  {| ti_category := c; ti_rows := mine;
     ti_state := if str_eqb c CORE then live_state (core_ok inventory <$> mine) else roll_up (states_of mine);
     ti_count := zlen (states_of mine) |}.

Definition category_before (a b : pystr) : Prop := category_order a <= category_order b.
#[global] Instance category_before_dec a b : Decision (category_before a b).
Proof. unfold category_before. apply _. Defined.

Record Overview := {
  ov_services : list ServiceRow;
  ov_tiers : list Tier;
  ov_monitors : Z;
  ov_state : LiveStatus;
  ov_down : Z;
  ov_degraded : Z;
  ov_maintenance : Z;
}.

Definition is_state (s : LiveStatus) (t : LiveStatus) : bool := bool_decide (t = s).

(** [_status_overview_context] *)
Definition status_overview (warmup : Z) (public_only : bool) (inventory : pystr -> option bool) (r : Registry)
    (now : Z) (b : Board) : Overview :=
  let rows := service_rows warmup public_only r now b in
  let states := states_of rows in
  {| ov_services := rows;
     ov_tiers := tier inventory rows <$> merge_sort category_before (remove_dups ((fun x => sv_category (sr_service x)) <$> rows));
     ov_monitors := zlen states; ov_state := roll_up states; ov_down := count (is_state Down) states;
     ov_degraded := count (is_state Degraded) states; ov_maintenance := count (is_state UnderMaintenance) states |}.

(** [_runner_health]: the age of the freshest beat, and whether it is stale. *)
Definition runner_health (now : Z) (b : Board) : option Z * bool :=
  let age := last_beat_age_seconds now b in
  (age, match age with Some a => Zpos (interval settings) * 5 <? a | None => false end).

(** [status_json] and the rows of the public page: public monitors whose
    surface is still exposed. *)
Definition public_monitors (r : Registry) : list Monitor :=
  List.filter (fun m => mon_public m && negb (mon_orphaned m)) (get_monitors r).

Definition public_states (r : Registry) (now : Z) (b : Board) : list LiveStatus :=
  (fun m => sd_status (get_status_data settings (mon_key m) now b)) <$> public_monitors r.

Definition public_overall (r : Registry) (now : Z) (b : Board) : LiveStatus :=
  roll_up (public_states r now b).

(** [_resolve_status_monitor]: an unknown key is the site's. *)
Definition resolve_status_monitor (key : pystr) (r : Registry) : pystr * option Monitor :=
  match get_monitor key r with
  | None => (SITE, get_monitor SITE r)
  | Some m => (key, Some m)
  end.

(** [heartbeat_ping]: the status code, and the board after the checks and the
    pruning. The time each check begins comes with its monitor. *)
Definition LOCALHOST_IPS : list pystr := [u "127.0.0.1"; u "::1"].

Definition heartbeat_ping (remote : pystr) (due : list (Monitor * Z * option Fault)) (prune_at : Z) (b : Board) : Z * Board :=
  if decide (remote ∈ LOCALHOST_IPS) then
    let '(results, b1) := run_all_monitors due b in
    let '(_, b2) := prune_old_heartbeats settings prune_at b1 in
    (match dict_get results SITE with Some r => if rr_ok r then 200 else 503 | None => 503 end, b2)
  else (403, b).

(** ** The heartbeat command *)

(** [_repair_summaries]: rows with under a twentieth of their checks. *)
Definition corrupt (d : Daily) : bool :=
  (0 <? hd_expected d) && (num_ratio (hd_ok d + hd_fail d) (Z.to_pos (hd_expected d)) <? lit 5 100)%num.

Definition repair_summaries (b : Board) : Z * Board :=
  (count (fun x => corrupt x.2) (map_to_list (daily b)), b <| daily := filter (fun x => corrupt x.2 = false) (daily b) |>).

(** [_reprorate] *)
Definition reprorated (now : Z) (b : Board) (k : pystr * Z) (d : Daily) : Daily :=
  let expected := expected_intervals_for_day settings k.2 k.1 (epoch_start k.1 b) now b in
  {| hd_ok := hd_ok d; hd_fail := hd_fail d; hd_maintenance := hd_maintenance d; hd_expected := expected;
     hd_avg_ms := hd_avg_ms d; hd_pct := row_pct (hd_ok d) (hd_fail d) expected |}.

Definition changed (old new : Daily) : bool :=
  negb (hd_expected old =? hd_expected new) || negb (hd_pct old =? hd_pct new)%num.

Definition reprorate (now : Z) (b : Board) : Z * Board :=
  (count (fun x => changed x.2 (reprorated now b x.1 x.2)) (map_to_list (daily b)),
   b <| daily := map_imap (fun k d => Some (let d' := reprorated now b k d in if changed d d' then d' else d)) (daily b) |>).

(** ** The calendars

    [None] is ValueError, raised for a date outside the years 1 to 9999. *)
Definition ordinal (y m d : Z) : Z := dt_ordinal (Build_datetime y m d 0 0 0 0).
Definition MAX_ORDINAL : Z := ordinal 9999 12 31.

(** [date.fromordinal(n)], as a year and a month. *)
Definition year_of (n : Z) : Z :=
  let n := n - 1 in
  let n400 := n / 146097 in let n := n mod 146097 in
  let n100 := n / 36524 in let n := n mod 36524 in
  let n4 := n / 1461 in let n := n mod 1461 in
  let n1 := n / 365 in
  let y := n400 * 400 + n100 * 100 + n4 * 4 + n1 in
  if (n1 =? 4) || (n100 =? 4) then y else y + 1.
Definition month_of (n : Z) : Z :=
  let y := year_of n in
  zlen (List.filter (fun m => ordinal y m 1 <=? n) (seqZ 1 12)).

(** A month by its number since year 0, and the months of a range of numbers. *)
Definition month_index (y m : Z) : Z := y * 12 + (m - 1).
Definition month_at (idx : Z) : Z * Z := (idx / 12, idx mod 12 + 1).

(** [Calendar(firstweekday=6).monthdatescalendar(y, m)]: the ordinals of whole
    weeks from Sunday, that contain the month. *)
Definition weekday (n : Z) : Z := (n + 6) mod 7.
Definition month_weeks (y m : Z) : option (list (list Z)) :=
  if (1 <=? y) && (y <=? 9999) then
    let first := ordinal y m 1 in
    let days := days_in_month y m in
    let before := (weekday first - 6) mod 7 in
    let after := (6 - weekday first - days) mod 7 in
    if (1 <=? first - before) && (first + days - 1 + after <=? MAX_ORDINAL)
    then Some ((fun k => seqZ (first - before + 7 * k) 7) <$> seqZ 0 ((before + days + after) / 7))
    else None
  else None.

(** Whether a date of the grid is in the month. *)
Definition in_month (y m n : Z) : bool := (ordinal y m 1 <=? n) && (n <? ordinal y m 1 + days_in_month y m).

(** [if monitor_key:], so an empty key is every monitor too. *)
Definition of_any (key : option pystr) (w : Window) : bool :=
  match key with Some k => negb (nonempty k) || of_monitor k w | None => true end.

(** [_maintenance_by_date]: the windows that touch each date of a range. *)
Definition maintenance_on (key : option pystr) (start end_ day : Z) (b : Board) : list Window :=
  merge_sort starts_first
    (List.filter (fun w => of_any key w
                           && overlapping (midnight start) (midnight (end_ + 1)) w
                           && (start <=? day) && (day <=? end_)
                           && (local_date (mw_start w) <=? day) && (day <=? local_date (mw_end w))) (window_list b)).

Inductive CellStatus := Future | InMaintenance | Judged (s : DayStatus).

Record Cell := { ce_day : Z; ce_status : CellStatus; ce_uptime : option float; ce_windows : list Window }.
Record CalendarMonth := { cm_year : Z; cm_month : Z; cm_pct : option float; cm_weeks : list (list (option Cell)) }.

Definition cell (key : pystr) (range_start range_end today now y m n : Z) (b : Board) : option Cell :=
  if negb (in_month y m n) then None
  else
    let day := n - ordinal y m 1 + 1 in
    Some
      (if today <? n then {| ce_day := day; ce_status := Future; ce_uptime := None; ce_windows := [] |}
       else
         let up := default None (dict_get (daily_uptime_map settings key range_start range_end now b) n) in
         let maint := maintenance_on (Some key) range_start range_end n b in
         let '(target, minimum) := get_sla_targets key b in
         {| ce_day := day;
            ce_status := match maint with
                         | [] => Judged (classify_day up n (local_date <$> get_epoch key b) target minimum)
                         | _ => InMaintenance
                         end;
            ce_uptime := up; ce_windows := maint |}).

(** [round(sum(month_upts) / len(month_upts), 2)] *)
Definition month_pct (l : list float) : option float :=
  match l with [] => None | _ => Some (num_round 2 (py_sum l / num_of_Z (zlen l))%num) end.

(** [_build_calendar_months]: the month asked for and those before it. *)
Definition build_calendar_months (key : pystr) (end_month : option (Z * Z)) (months : Z) (now : Z) (b : Board)
    : option (list CalendarMonth) :=
  let today := local_date now in
  let '(ey, em) := default (year_of today, month_of today) end_month in
  let last := month_index ey em in
  let ym := month_at <$> seqZ (last - months + 1) months in
  let '(y0, m0) := default (0, 0) (head ym) in
  if negb ((1 <=? y0) && (y0 <=? 9999) && (1 <=? ey) && (ey <=? 9999)) then None
  else
    let range_start := ordinal y0 m0 1 in
    let range_end := ordinal ey em (days_in_month ey em) in
    mapM (fun p : Z * Z =>
            let '(y, m) := p in
            weeks ← month_weeks y m;
            let cells := (fmap (fun n => cell key range_start range_end today now y m n b)) <$> weeks in
            Some {| cm_year := y; cm_month := m; cm_pct := month_pct (omap id (ce_uptime <$> (omap id (mjoin cells))));
                    cm_weeks := cells |}) ym.

(** [_build_maintenance_calendar]: every month around the current one, and
    the days windows touch. *)
Record MaintMonth := { mm_year : Z; mm_month : Z; mm_weeks : list (list (option (Z * list Window))); mm_count : Z }.

Definition build_maintenance_calendar (back forward : Z) (key : option pystr) (now : Z) (b : Board) : option (list MaintMonth) :=
  let today := local_date now in
  let first := month_index (year_of today) (month_of today) - back in
  let ym := month_at <$> seqZ first (back + 1 + forward) in
  let '(y0, m0) := default (0, 0) (head ym) in
  let '(y1, m1) := default (0, 0) (last ym) in
  if negb ((1 <=? y0) && (y0 <=? 9999) && (1 <=? y1) && (y1 <=? 9999)) then None
  else
    let range_start := ordinal y0 m0 1 in
    let range_end := ordinal y1 m1 (days_in_month y1 m1) in
    mapM (fun p : Z * Z =>
            let '(y, m) := p in
            weeks ← month_weeks y m;
            let cells := (fmap (fun n => if in_month y m n
                                         then Some (n, maintenance_on key range_start range_end n b) else None)) <$> weeks in
            Some {| mm_year := y; mm_month := m; mm_weeks := cells;
                    mm_count := count (fun c => negb (bool_decide (c.2 = []))) (omap id (mjoin cells)) |}) ym.

(** The [cal] parameter of the public page; a bad one is ignored. *)
Definition cal_param (param : pystr) : option (Z * Z) :=
  match split_char 45 param with
  | [ys; ms] => y ← parse_int ys; m ← parse_int ms; if (1 <=? m) && (m <=? 12) then Some (y, m) else None
  | _ => None
  end.

(** The calendar of the public page, whose current month is the one in UTC. *)
Definition public_calendar (param : pystr) (now : Z) (b : Board) : option (list CalendarMonth) :=
  let current := (year_of (utc_date now), month_of (utc_date now)) in
  build_calendar_months SITE (Some (default current (cal_param param))) 3 now b.

(** [_upcoming_maintenance]: each window with its minutes and whether it is on. *)
Definition upcoming_maintenance (days : Z) (key : option pystr) (now : Z) (b : Board) : list (Window * Z * bool) :=
  (fun w => (w, (mw_end w - mw_start w) / MINUTE, (mw_start w <=? now) && (now <=? mw_end w))) <$>
    merge_sort starts_first
      (List.filter (fun w => (now <=? mw_end w) && (mw_start w <=? now + days * DAY)
                             && of_any key w) (window_list b)).

(** [HeartbeatDaily.get_daily_summary]: the last days, oldest first. *)
Definition get_daily_summary (days : Z) (key : pystr) (now : Z) (b : Board) : list (Z * Z * Z) :=
  (fun i => let day := local_date now - (days - 1 - i) in
            let '(ok, fail) := match daily b !! (key, day) with Some d => (hd_ok d, hd_fail d) | None => (0, 0) end in
            (day, ok, fail)) <$> seqZ 0 days.
End Views.
