(* ===== verification/HeartbeatOverview.v ===== *)
(** * Heartbeat: what the overview shows

    The registry keeps one service and one monitor per key, and the board
    shows each monitor of a known service once, under its service and in its
    tier, and each roll-up is the one the states it sums up call for. *)
From Stdlib Require Import SpecFloat.
From stdpp Require Import sorting.
From S2P Require Import Prelude PyFloat FloatDiv PyStr PyTime PyLib Schedules Heartbeat HeartbeatFacts HeartbeatViews.
Open Scope Z_scope.

#[local] Opaque u.

(** ** Grouping by key *)

Section Grouping.
Context {A K : Type} `{EqDecision K} (f : A -> K).

(** The groups of distinct keys, one after the other, are the elements whose
    key is one of them. *)
Lemma groups_permutation (ks : list K) (l : list A) :
  NoDup ks -> (ks ≫= fun k => filter (fun x => f x = k) l) ≡ₚ filter (fun x => f x ∈ ks) l.
Proof.
  intros Hks. induction l as [|x l IH].
  - induction ks as [|k ks IHk]; [done|]. cbn. apply IHk. by apply NoDup_cons in Hks as [_ ?].
  - assert (forall ks, NoDup ks -> (ks ≫= fun k => filter (fun y => f y = k) (x :: l))
        ≡ₚ (if decide (f x ∈ ks) then [x] else []) ++ (ks ≫= fun k => filter (fun y => f y = k) l)) as Hcons.
    { clear. intros ks. induction ks as [|k ks IHk]; intros Hnd; [done|]. apply NoDup_cons in Hnd as [Hk Hnd].
      cbn [mbind list_bind]. rewrite IHk by done. rewrite filter_cons. destruct (decide (f x = k)) as [<-|Hne].
      - rewrite (decide_False (P := f x ∈ ks)) by done. rewrite (decide_True (P := f x ∈ f x :: ks)) by by left. done.
      - destruct (decide (f x ∈ ks)) as [Hin|Hin].
        + rewrite (decide_True (P := f x ∈ k :: ks)) by by right. solve_Permutation.
        + rewrite (decide_False (P := f x ∈ k :: ks)); [done|]. by intros [?|?]%elem_of_cons. }
    rewrite Hcons by done. rewrite filter_cons, IH. destruct (decide (f x ∈ ks)); done.
Qed.

Lemma groups_whole (ks : list K) (l : list A) :
  NoDup ks -> Forall (fun x => f x ∈ ks) l -> (ks ≫= fun k => filter (fun x => f x = k) l) ≡ₚ l.
Proof.
  intros Hks Hl. rewrite groups_permutation by done.
  assert (filter (fun x => f x ∈ ks) l = l) as ->; [|done].
  induction Hl as [|x l Hx _ IH]; [done|]. by rewrite filter_cons_True, IH.
Qed.
End Grouping.

(** The filter of a boolean test on a text is the one on its equality. *)
Lemma filter_str_eqb {A} (f : A -> pystr) (k : pystr) (l : list A) :
  List.filter (fun x => str_eqb (f x) k) l = filter (fun x => f x = k) l.
Proof.
  induction l as [|x l IH]; [done|]. cbn [List.filter]. rewrite filter_cons, IH. unfold str_eqb.
  destruct (decide (f x = k)); [by rewrite bool_decide_eq_true_2|by rewrite bool_decide_eq_false_2].
Qed.

(** ** The registry *)

Definition nothing : Registry := {| code_monitors := []; sources := []; services := [] |}.

(** How the registry comes about: apps register services, monitors and
    sources as they start. *)
Inductive registering : Registry -> Registry -> Prop :=
  | r_monitor m r : registering r (register_monitor m r)
  | r_service s r : registering r (register_service s r)
  | r_source src r : registering r {| code_monitors := code_monitors r; sources := sources r ++ [src]; services := services r |}.

Definition by_key {A} (key : A -> pystr) (d : list (pystr * A)) : Prop :=
  NoDup d.*1 /\ Forall (fun x => x.1 = key x.2) d.

Lemma by_key_set {A} (key : A -> pystr) d v : by_key key d -> by_key key (dict_set d (key v) v).
Proof.
  intros [Hnd Hk]. split; [by apply dict_set_NoDup|]. clear Hnd.
  induction Hk as [|[k x] d Hx Hd IH]; cbn; [by constructor|]. case_decide as E; constructor; try done.
Qed.

Lemma by_key_values {A} (key : A -> pystr) d : by_key key d -> NoDup (key <$> d.*2).
Proof.
  intros [Hnd Hk]. assert (key <$> d.*2 = d.*1) as ->; [|done]. clear Hnd.
  induction Hk as [|[k x] d Hx _ IH]; [done|]. cbn in *. by rewrite IH, Hx.
Qed.

Definition registry_ok (r : Registry) : Prop := by_key mon_key (code_monitors r) /\ by_key sv_key (services r).

Lemma registered_ok r : rtc registering nothing r -> registry_ok r.
Proof.
  intros H. apply (rtc_ind_r registry_ok nothing) with (z := r) in H; [done|repeat constructor|].
  intros x y _ Hstep [Hm Hs]. destruct Hstep; split; cbn; try done; by apply by_key_set.
Qed.

Lemma get_monitors_keys r : registry_ok r -> NoDup (mon_key <$> get_monitors r).
Proof.
  intros [Hm _]. unfold get_monitors. rewrite merge_sort_Permutation. apply by_key_values.
  revert Hm. generalize (code_monitors r). induction (sources r) as [|src l IH]; intros d Hd; [done|]. cbn [foldl].
  apply IH. clear IH. revert d Hd. unfold keyed, dict_update. induction src as [|m src IH]; intros d Hd; [done|].
  cbn. apply IH. by apply (by_key_set mon_key).
Qed.

Lemma get_services_keys r : registry_ok r -> NoDup (sv_key <$> get_services r).
Proof. intros [_ Hs]. unfold get_services. rewrite merge_sort_Permutation. by apply by_key_values. Qed.

(** ** Roll-ups *)

(** What the banner and a tier sum up to: the worst of the real problems, then
    a window, then what is good, and no data only where there is nothing but. *)
Definition sums_up (states : list LiveStatus) (s : LiveStatus) : Prop :=
  match s with
  | Down => Down ∈ states
  | Degraded => Degraded ∈ states /\ Down ∉ states
  | UnderMaintenance => UnderMaintenance ∈ states /\ Down ∉ states /\ Degraded ∉ states
  | Operational => Operational ∈ states /\ Forall (fun s => s = Operational \/ s = Unknown) states
  | Unknown => Forall (fun s => s = Unknown) states
  end.

Lemma roll_up_sums l : sums_up l (roll_up l).
Proof.
  unfold roll_up. repeat case_decide; cbn; try done.
  - split; [done|]. apply Forall_forall. intros s Hs. destruct s; auto; done.
  - apply Forall_forall. intros s Hs. destruct s; done.
Qed.

Lemma sums_up_perm l l' s : l ≡ₚ l' -> sums_up l s -> sums_up l' s.
Proof. intros E. destruct s; cbn; by rewrite E. Qed.

Lemma worse_fold (l : list (Monitor * OverviewState)) w :
  let worst := foldl (fun w x => worse w (os_state x.2)) w l in
  severity w <= severity worst /\ (forall x, x ∈ l -> severity (os_state x.2) <= severity worst)
  /\ (worst = w \/ exists x, x ∈ l /\ os_state x.2 = worst).
Proof.
  revert w. induction l as [|x l IH]; intros w; cbn [foldl]; [split_and!; [done|by intros x ?%elem_of_nil|by left]|].
  destruct (IH (worse w (os_state x.2))) as (H1 & H2 & H3). cbn zeta.
  assert (severity w <= severity (worse w (os_state x.2)) /\ severity (os_state x.2) <= severity (worse w (os_state x.2))) as [Hw Hx].
  { unfold worse. destruct (Z.ltb_spec (severity w) (severity (os_state x.2))); lia. }
  split_and!; [lia| |].
  - intros y [->|Hy]%elem_of_cons; [lia|by apply H2].
  - destruct H3 as [E|(y & Hy & E)]; [|right; exists y; split; [by right|done]]. rewrite E.
    unfold worse. destruct (_ <? _); [right; exists x; split; [by left|done]|by left].
Qed.

Section Overview.
Context `{LocalZone} (settings : BeatSettings).

Definition shown_state (now : Z) (b : Board) (m : Monitor) : LiveStatus :=
  sd_status (get_status_data settings (mon_key m) now b).

Definition listed (public_only : bool) (r : Registry) : list Monitor :=
  filter (fun m => mon_service m ∈ sv_key <$> get_services r)
    (List.filter (fun m => negb public_only || mon_public m) (get_monitors r)).

Lemma service_rows_monitors warmup public_only r now b :
  registry_ok r ->
  fst <$> (service_rows settings warmup public_only r now b ≫= sr_rows) ≡ₚ listed public_only r.
Proof.
  intros Hr. unfold listed. rewrite <- (groups_permutation mon_service) by by apply get_services_keys.
  unfold service_rows. set (ms := List.filter _ (get_monitors r)). clearbody ms.
  induction (get_services r) as [|s ss IH]; [done|]. cbn [fmap list_fmap mbind list_bind omap list_omap].
  rewrite <- filter_str_eqb.
  assert (forall mons, fst <$> sr_rows (service_row settings warmup now b mons s) = mons) as Hrow.
  { intros mons. cbn. rewrite <- list_fmap_compose. by apply list_fmap_id. }
  destruct (List.filter (fun x => str_eqb (mon_service x) (sv_key s)) ms) as [|m l] eqn:E.
  - destruct public_only; [exact IH|]. cbn [mbind list_bind]. rewrite fmap_app, Hrow. exact IH.
  - cbn [mbind list_bind]. rewrite fmap_app, Hrow. f_equiv. exact IH.
Qed.

Lemma service_rows_states warmup public_only r now b row x :
  row ∈ service_rows settings warmup public_only r now b -> x ∈ sr_rows row ->
  os_state x.2 = shown_state now b x.1 /\ severity (os_state x.2) <= severity (sr_state row).
Proof.
  unfold service_rows. intros (s & Hs & E)%list_elem_of_omap Hx.
  assert (exists mons, row = service_row settings warmup now b mons s) as [mons ->].
  { destruct (List.filter _ _) as [|m l]; [destruct public_only|]; try done; injection E as <-; by eexists. }
  cbn in Hx. split; [by apply list_elem_of_fmap in Hx as (m & -> & _)|].
  cbn [sr_state service_row]. destruct (worse_fold ((fun m => (m, monitor_overview_state settings warmup m now b)) <$> mons) Operational) as (_ & H2 & _).
  by apply H2.
Qed.

Lemma states_of_listed warmup public_only r now b :
  registry_ok r ->
  states_of (service_rows settings warmup public_only r now b) ≡ₚ shown_state now b <$> listed public_only r.
Proof.
  intros Hr. rewrite <- (service_rows_monitors warmup public_only r now b Hr).
  pose proof (service_rows_states warmup public_only r now b) as Hst.
  induction (service_rows settings warmup public_only r now b) as [|row rows IH]; [done|].
  unfold states_of in *. cbn [mbind list_bind]. rewrite !fmap_app. f_equiv.
  - rewrite <- list_fmap_compose.
    assert ((fun x => os_state x.2) <$> sr_rows row = (shown_state now b ∘ fst) <$> sr_rows row) as ->; [|done].
    apply list_fmap_ext. intros i x Hx%list_elem_of_lookup_2. apply (Hst row); [by left|done].
  - apply IH. intros row' x' Hrow'. apply Hst. by right.
Qed.

(** The tiers, each with its own services. *)
Lemma tiers_services (rows : list ServiceRow) inventory :
  (tier inventory rows <$> merge_sort category_before (remove_dups ((fun x => sv_category (sr_service x)) <$> rows)))
    ≫= ti_rows ≡ₚ rows.
Proof.
  rewrite list_fmap_bind. rewrite merge_sort_Permutation.
  assert (forall cs, (cs ≫= ti_rows ∘ tier inventory rows) = cs ≫= fun c => filter (fun r => sv_category (sr_service r) = c) rows) as ->.
  { intros cs. apply list_bind_ext; [|done]. intros c. cbn. by rewrite (filter_str_eqb (fun r => sv_category (sr_service r))). }
  apply groups_whole; [apply NoDup_remove_dups|]. apply Forall_forall. intros row Hrow. apply elem_of_remove_dups.
  by apply (list_elem_of_fmap_2 (fun r => sv_category (sr_service r))).
Qed.

(** A core service is on when the live inventory of its first monitor says so
    and no check of one of its monitors recorded a problem; and what its tier
    then says. *)
Definition core_on (inventory : pystr -> option bool) (row : ServiceRow) : Prop :=
  (forall m os rows, sr_rows row = (m, os) :: rows -> inventory (mon_key m) = Some true)
  /\ forall x, x ∈ sr_rows row -> severity (os_state x.2) < severity Degraded.
Definition core_state (inventory : pystr -> option bool) (rows : list ServiceRow) (s : LiveStatus) : Prop :=
  match s with
  | Operational => rows <> [] /\ forall row, row ∈ rows -> core_on inventory row
  | Degraded => (exists row, row ∈ rows /\ core_on inventory row) /\ exists row, row ∈ rows /\ ~ core_on inventory row
  | Down => rows <> [] /\ forall row, row ∈ rows -> ~ core_on inventory row
  | Unknown => rows = []
  | UnderMaintenance => False
  end.

(** A service's own state is the worst of its monitors', by the code's order. *)
Definition worst_of (row : ServiceRow) : Prop :=
  (forall x, x ∈ sr_rows row -> severity (os_state x.2) <= severity (sr_state row))
  /\ (sr_state row = Operational \/ exists x, x ∈ sr_rows row /\ os_state x.2 = sr_state row)
  /\ (sr_rows row = [] -> sr_state row = Operational).

Lemma service_row_worst warmup now b mons s : worst_of (service_row settings warmup now b mons s).
Proof.
  unfold service_row. cbn zeta. set (rows := _ <$> mons).
  destruct (worse_fold rows Operational) as (_ & H2 & H3). unfold worst_of. cbn [sr_rows sr_state].
  split_and!; [exact H2|exact H3|by intros ->].
Qed.

Lemma core_ok_on inventory row : worst_of row -> core_ok inventory row = true <-> core_on inventory row.
Proof.
  intros (H1 & H2 & H3). unfold core_ok, core_on. rewrite andb_true_iff, negb_true_iff, Z.leb_gt.
  assert (Sev : severity (sr_state row) < severity Degraded <-> forall x, x ∈ sr_rows row -> severity (os_state x.2) < severity Degraded).
  { split; [intros Hs x Hx; specialize (H1 x Hx); lia|]. intros Hall. destruct H2 as [->|(x & Hx & <-)]; [done|by apply Hall]. }
  rewrite Sev. destruct (sr_rows row) as [|[m os] rows] eqn:E.
  - rewrite H3 by done. naive_solver.
  - split; intros [Hl Hs]; (split; [|done]).
    + intros m' os' rows' [= <- _ _]. by destruct (inventory (mon_key m)) as [[]|].
    + by rewrite (Hl m os rows).
Qed.

Lemma live_state_core inventory rows :
  (forall row, row ∈ rows -> worst_of row) -> core_state inventory rows (live_state (core_ok inventory <$> rows)).
Proof.
  intros Hw. assert (On : forall row, row ∈ rows -> core_ok inventory row = true <-> core_on inventory row) by (intros row Hrow; exact (core_ok_on inventory row (Hw row Hrow))).
  destruct rows as [|row0 rows]; [done|]. unfold live_state. rewrite fmap_cons.
  change (core_ok inventory row0 :: (core_ok inventory <$> rows)) with (core_ok inventory <$> row0 :: rows).
  destruct (forallb id _) eqn:Hall.
  - rewrite forallb_forall in Hall. split; [done|]. intros row Hrow. apply On; [done|]. apply (Hall (core_ok inventory row)).
    rewrite <- list_elem_of_In. by apply list_elem_of_fmap_2.
  - assert (exists row, row ∈ row0 :: rows /\ ~ core_on inventory row) as Hoff.
    { apply not_true_iff_false in Hall. rewrite forallb_forall in Hall.
      destruct (decide (Exists (fun row => core_ok inventory row = false) (row0 :: rows))) as [He|He].
      - apply Exists_exists in He as (row & Hrow & Hf). exists row. split; [done|]. rewrite <- On, Hf by done. done.
      - exfalso. apply Hall. intros o Ho. apply list_elem_of_In in Ho. apply list_elem_of_fmap in Ho as (row & -> & Hrow).
        apply not_Exists_Forall in He; [|intros ?; apply _]. rewrite Forall_forall in He. specialize (He row Hrow). destruct (core_ok inventory row) eqn:Ec; [done|]. by destruct (He Ec). }
    destruct (existsb id _) eqn:Hex.
    + split; [|exact Hoff]. apply existsb_exists in Hex as (o & Ho & Hid). apply list_elem_of_In in Ho. apply list_elem_of_fmap in Ho as (row & -> & Hrow).
      exists row. split; [done|]. by apply On.
    + split; [done|]. intros row Hrow Hon. apply On in Hon; [|done]. apply not_true_iff_false in Hex. apply Hex, existsb_exists.
      exists (core_ok inventory row). split; [|exact Hon]. rewrite <- list_elem_of_In. by apply list_elem_of_fmap_2.
Qed.

Lemma service_rows_worst warmup public_only r now b row :
  row ∈ service_rows settings warmup public_only r now b -> worst_of row.
Proof.
  unfold service_rows. intros (s & Hs & E)%list_elem_of_omap.
  destruct (List.filter _ _) as [|m l]; [destruct public_only|]; try done; injection E as <-; apply service_row_worst.
Qed.

End Overview.
