(* ===== verification/HeartbeatCalendars.v ===== *)
(** * Heartbeat: the calendars

    The weeks of a month, the months of a range, and the days of a calendar
    against the strip of days beside it. *)
From Stdlib Require Import SpecFloat.
From stdpp Require Import sorting.
From S2P Require Import Prelude PyFloat FloatDiv PyStr PyTime PyLib Schedules Heartbeat HeartbeatFacts HeartbeatViews.
Open Scope Z_scope.

#[local] Opaque u.

(** Quotients and remainders by constants, for [lia]. *)
#[local] Ltac Zify.zify_post_hook ::= Z.to_euclidean_division_equations.

(** ** Months in order *)

Lemma seqZ_one z : seqZ z 1 = [z].
Proof. by rewrite seqZ_cons. Qed.

Lemma days_before_next y m : 1 <= m -> days_before_month y (m + 1) = days_before_month y m + days_in_month y m.
Proof.
  intros Hm. unfold days_before_month. replace (m + 1 - 1) with ((m - 1) + 1) by lia.
  rewrite seqZ_app by lia. rewrite fmap_app, foldl_app, seqZ_one. cbn.
  by replace (1 + (m - 1)) with m by lia.
Qed.

Lemma days_in_month_bounds y m : 28 <= days_in_month y m <= 31.
Proof. unfold days_in_month. repeat case_match; lia. Qed.

Lemma days_before_bounds y m : 1 <= m <= 12 -> 0 <= days_before_month y m <= 31 * (m - 1).
Proof.
  intros Hm. replace m with (1 + Z.of_nat (Z.to_nat (m - 1))) by lia. induction (Z.to_nat (m - 1)) as [|k IH]; [by vm_compute|].
  replace (1 + Z.of_nat (S k)) with (1 + Z.of_nat k + 1) by lia. rewrite days_before_next by lia.
  pose proof (days_in_month_bounds y (1 + Z.of_nat k)). lia.
Qed.

Lemma ordinal_day y m d : ordinal y m d = ordinal y m 1 + (d - 1).
Proof. unfold ordinal, dt_ordinal. cbn [dt_year dt_month dt_day]. lia. Qed.

Lemma ordinal_next_year y : ordinal (y + 1) 1 1 = ordinal y 12 1 + days_in_month y 12.
Proof.
  unfold ordinal, dt_ordinal. cbn [dt_year dt_month dt_day].
  assert (days_before_month y 12 = if is_leap y then 335 else 334) as ->.
  { unfold days_before_month. change (seqZ 1 (12 - 1)) with [1; 2; 3; 4; 5; 6; 7; 8; 9; 10; 11].
    unfold days_in_month. cbn [fmap list_fmap foldl Z.eqb Pos.eqb orb]. destruct (is_leap y); reflexivity. }
  change (days_before_month (y + 1) 1) with 0. change (days_in_month y 12) with 31. unfold is_leap.
  replace (y + 1 - 1) with y by lia.
  assert (forall k, 0 < k -> (y - 1) / k = y / k - (if y mod k =? 0 then 1 else 0)) as Hk.
  { intros k Hk. pose proof (Z.div_mod y k ltac:(lia)). pose proof (Z.mod_pos_bound y k Hk). generalize dependent (y mod k).
    generalize (y / k). intros q r Ey Er. subst y. destruct (Z.eqb_spec r 0).
    - symmetry. apply (Z.div_unique_pos _ _ _ (k - 1)); [lia|subst r; ring].
    - symmetry. apply (Z.div_unique_pos _ _ _ (r - 1)); [lia|ring]. }
  rewrite !Hk by lia.
  assert (y mod 400 = 0 -> y mod 100 = 0) as H400.
  { intros [q ->]%Z.mod_divide; [|done]. replace (q * 400) with (q * 4 * 100) by ring. by rewrite Z.mod_mul. }
  assert (y mod 100 = 0 -> y mod 4 = 0) as H100.
  { intros [q ->]%Z.mod_divide; [|done]. replace (q * 100) with (q * 25 * 4) by ring. by rewrite Z.mod_mul. }
  destruct (Z.eqb_spec (y mod 4) 0), (Z.eqb_spec (y mod 100) 0), (Z.eqb_spec (y mod 400) 0); cbn [andb orb negb]; lia.
Qed.

(** The first day of a month, by its number. *)
Definition month_start (idx : Z) : Z := let '(y, m) := month_at idx in ordinal y m 1.
Definition month_days (idx : Z) : Z := let '(y, m) := month_at idx in days_in_month y m.

Lemma month_start_next idx : month_start (idx + 1) = month_start idx + month_days idx.
Proof.
  unfold month_start, month_days, month_at. destruct (decide (idx mod 12 = 11)) as [E|E].
  - replace ((idx + 1) / 12) with (idx / 12 + 1) by lia. replace ((idx + 1) mod 12 + 1) with 1 by lia.
    rewrite E. apply ordinal_next_year.
  - replace ((idx + 1) / 12) with (idx / 12) by lia. replace ((idx + 1) mod 12 + 1) with (idx mod 12 + 1 + 1) by lia.
    unfold ordinal, dt_ordinal. cbn [dt_year dt_month dt_day]. rewrite days_before_next; lia.
Qed.

Lemma month_start_mono i j : i <= j -> month_start i <= month_start j.
Proof.
  intros Hij. replace j with (i + Z.of_nat (Z.to_nat (j - i))) by lia. induction (Z.to_nat (j - i)) as [|k IH]; [by rewrite Z.add_0_r|].
  rewrite Nat2Z.inj_succ, <- Z.add_1_r, Z.add_assoc, month_start_next. unfold month_days. destruct (month_at _) as [y m].
  pose proof (days_in_month_bounds y m). lia.
Qed.

Lemma month_at_index y m : 1 <= m <= 12 -> month_at (month_index y m) = (y, m).
Proof. intros Hm. unfold month_at, month_index. f_equal; lia. Qed.

Lemma month_index_at idx : month_index (month_at idx).1 (month_at idx).2 = idx /\ 1 <= (month_at idx).2 <= 12.
Proof. unfold month_at, month_index. cbn. lia. Qed.

(** ** The weeks of a month *)

Lemma weeks_days a (n : nat) : mjoin ((fun k => seqZ (a + 7 * k) 7) <$> seqZ 0 (Z.of_nat n)) = seqZ a (7 * Z.of_nat n).
Proof.
  induction n as [|n IH]; [done|]. rewrite Nat2Z.inj_succ, <- Z.add_1_r, seqZ_app by lia.
  rewrite fmap_app, join_app, IH. replace (7 * (Z.of_nat n + 1)) with (7 * Z.of_nat n + 7) by lia. rewrite (seqZ_app a) by lia.
  done.
Qed.

(** The grid of a month: from Sunday to Saturday, less than a week on either
    side of it. *)
Lemma month_weeks_grid y m weeks :
  month_weeks y m = Some weeks ->
  exists before after,
    mjoin weeks = seqZ (ordinal y m 1 - before) (before + days_in_month y m + after)
    /\ 0 <= before < 7 /\ 0 <= after < 7 /\ weekday (ordinal y m 1 - before) = 6
    /\ forall k week, weeks !! k = Some week -> week = seqZ (ordinal y m 1 - before + 7 * Z.of_nat k) 7.
Proof.
  unfold month_weeks. destruct (_ && _); [|done]. cbn zeta.
  set (first := ordinal y m 1). set (days := days_in_month y m).
  set (before := (weekday first - 6) mod 7). set (after := (6 - weekday first - days) mod 7).
  destruct (_ && _); [|done]. intros [= <-]. exists before, after.
  assert (28 <= days <= 31) as Hd by apply days_in_month_bounds. unfold weekday in *.
  assert (exists q, before + days + after = 7 * q /\ 0 <= q) as (q & Eq & Hq).
  { exists ((before + days + after) / 7). subst before after. lia. }
  split_and!; try (subst before after; lia).
  - rewrite Eq, Z.mul_comm, Z.div_mul by lia. rewrite <- (Z2Nat.id q) by lia. rewrite weeks_days. f_equal. lia.
  - intros k week Hk. rewrite list_lookup_fmap in Hk. destruct (seqZ 0 _ !! k) as [z|] eqn:Ez; [|done].
    apply lookup_seqZ in Ez as [-> _]. cbn in Hk. by injection Hk as <-.
Qed.

Lemma month_weeks_some y m : 2 <= y <= 9998 -> 1 <= m <= 12 -> is_Some (month_weeks y m).
Proof.
  intros Hy Hm. unfold month_weeks. rewrite (proj2 (andb_true_iff _ _)) by lia. cbn zeta.
  pose proof (days_in_month_bounds y m). pose proof (days_before_bounds y m Hm).
  assert (365 < ordinal y m 1 < MAX_ORDINAL - 100) as Ho.
  { change MAX_ORDINAL with 3652059. unfold ordinal, dt_ordinal. cbn [dt_year dt_month dt_day]. lia. }
  unfold weekday. rewrite (proj2 (andb_true_iff _ _)); [by eexists|]. lia.
Qed.

(** ** The months of a calendar *)

Section Calendar.
Context `{Zone : LocalZone} (settings : BeatSettings).

Definition month_shown (c : CalendarMonth) : Z := month_index (cm_year c) (cm_month c).

(** The days a calendar covers. *)
Definition first_day (ey em months : Z) : Z := month_start (month_index ey em - months + 1).
Definition last_day (ey em : Z) : Z := ordinal ey em (days_in_month ey em).

Lemma calendar_range ey em months :
  1 <= months ->
  head (month_at <$> seqZ (month_index ey em - months + 1) months) = Some (month_at (month_index ey em - months + 1)).
Proof. intros Hm. by rewrite seqZ_cons by lia. Qed.

Lemma calendar_shape key ey em months now b cal :
  1 <= months -> build_calendar_months settings key (Some (ey, em)) months now b = Some cal ->
  fmap (M:=list) month_shown cal = seqZ (month_index ey em - months + 1) months
  /\ forall c, c ∈ cal -> 1 <= cm_month c <= 12 /\ exists weeks : list (list Z), month_weeks (cm_year c) (cm_month c) = Some weeks
       /\ cm_weeks c = fmap (M:=list) (fun n => cell settings key (first_day ey em months) (last_day ey em) (local_date now) now
                                        (cm_year c) (cm_month c) n b) <$> weeks.
Proof.
  intros Hm. unfold build_calendar_months. cbn [from_option id]. cbn zeta. rewrite calendar_range by done. cbn [from_option id].
  unfold first_day, month_start. destruct (month_at (month_index ey em - months + 1)) as [y0 m0] eqn:E0.
  destruct (negb _); [done|]. intros Hcal%mapM_Some_1. apply Forall2_fmap_l in Hcal.
  induction Hcal as [|idx c idxs cs Hc _ [IH1 IH2]]; [by split; [|intros c ?%elem_of_nil]|]. cbn in Hc.
  destruct (month_weeks (idx / 12) (idx mod 12 + 1)) as [weeks|] eqn:Ew; [|done]. cbn in Hc. injection Hc as <-.
  destruct (month_index_at idx) as [Hi Hb]. split.
  - cbn. f_equal; [exact Hi|exact IH1].
  - intros c [->|Hc]%elem_of_cons; [|by apply IH2]. split; [exact Hb|]. by exists weeks.
Qed.

Lemma mjoin_fmap {A B} (f : A -> B) (ll : list (list A)) : mjoin (fmap (M:=list) f <$> ll) = f <$> mjoin ll.
Proof.
  induction ll as [|l ll IH]; [done|]. change (f <$> mjoin (l :: ll)) with (f <$> (l ++ mjoin ll)). rewrite fmap_app, <- IH. done.
Qed.

Lemma omap_fmap {A B C} (g : A -> B) (f : B -> option C) (l : list A) : omap f (g <$> l) = omap (fun x => f (g x)) l.
Proof. induction l as [|x l IH]; [done|]. cbn. destruct (f (g x)); by rewrite IH. Qed.

Lemma omap_none {A B} (f : A -> option B) (l : list A) : (forall x, x ∈ l -> f x = None) -> omap f l = [].
Proof.
  induction l as [|x l IH]; intros Hl; [done|]. cbn. rewrite Hl by by left. apply IH. intros y Hy. apply Hl. by right.
Qed.

Lemma omap_some {A B} (f : A -> option B) (g : A -> B) (l : list A) : (forall x, x ∈ l -> f x = Some (g x)) -> omap f l = g <$> l.
Proof.
  induction l as [|x l IH]; intros Hl; [done|]. cbn. rewrite Hl by by left. f_equal. apply IH. intros y Hy. apply Hl. by right.
Qed.

Lemma cell_out key lo hi today now y m n b : in_month y m n = false -> cell settings key lo hi today now y m n b = None.
Proof. intros E. unfold cell. by rewrite E. Qed.

Lemma cell_in key lo hi today now y m n b :
  in_month y m n = true ->
  exists ce, cell settings key lo hi today now y m n b = Some ce /\ ordinal y m (ce_day ce) = n
    /\ (ce_status ce = Future <-> today < n).
Proof.
  intros E. unfold cell. rewrite E. cbn [negb]. eexists. split; [done|]. rewrite ordinal_day.
  destruct (Z.ltb_spec today n); cbn [ce_day ce_status].
  - split; [lia|done].
  - destruct (get_sla_targets key b). cbn [ce_day ce_status]. split; [lia|]. split; [by destruct (maintenance_on _ _ _ _ _)|lia].
Qed.

(** A month of cells: its days in order, each in the column of its weekday. *)
Lemma month_cells key lo hi today now y m weeks b :
  month_weeks y m = Some weeks ->
  let cells := fmap (M:=list) (fun n => cell settings key lo hi today now y m n b) <$> weeks in
  Forall (fun week => length week = 7%nat) cells
  /\ ce_day <$> omap id (mjoin cells) = seqZ 1 (days_in_month y m)
  /\ forall k j week ce, cells !! k = Some week -> week !! j = Some (Some ce) ->
       Z.of_nat j = (weekday (ordinal y m (ce_day ce)) + 1) mod 7
       /\ (ce_status ce = Future <-> today < ordinal y m (ce_day ce)).
Proof.
  intros (before & after & Hj & Hb & Ha & Hw & Hk)%month_weeks_grid cells. subst cells.
  pose proof (days_in_month_bounds y m) as Hd. split_and!.
  - apply Forall_fmap, Forall_lookup. intros k week E. rewrite (Hk k week E). unfold compose. by rewrite length_fmap, length_seqZ.
  - rewrite mjoin_fmap, Hj, omap_fmap, !seqZ_app, !omap_app by lia.
    rewrite omap_none, (omap_none _ (seqZ _ after)), app_nil_r; cbn [app].
    2, 3: intros n Hn%elem_of_seqZ; apply cell_out; unfold in_month; lia.
    rewrite list_fmap_omap. rewrite (omap_some _ (fun n => n - ordinal y m 1 + 1)).
    + replace (ordinal y m 1 - before + before) with (ordinal y m 1) by lia.
      etrans; [|etrans; [apply (fmap_add_seqZ (1 - ordinal y m 1) (ordinal y m 1))|f_equal; lia]].
      apply list_fmap_ext. intros i n _. lia.
    + intros n Hn%elem_of_seqZ. unfold compose, id. destruct (cell_in key lo hi today now y m n b) as (ce & -> & E & _); [unfold in_month; lia|].
      cbn. rewrite ordinal_day in E. f_equal. lia.
  - intros k j week ce Ek Ej. rewrite list_lookup_fmap in Ek. destruct (weeks !! k) as [ns|] eqn:En; [|done]. cbn in Ek. injection Ek as <-.
    rewrite (Hk k ns En), list_lookup_fmap in Ej. destruct (seqZ _ 7 !! j) as [n|] eqn:Es; [|done]. cbn in Ej.
    apply lookup_seqZ in Es as [-> Hj7]. injection Ej as Ej.
    destruct (in_month y m (ordinal y m 1 - before + 7 * Z.of_nat k + Z.of_nat j)) eqn:Ein; [|by rewrite cell_out in Ej].
    destruct (cell_in key lo hi today now y m _ b Ein) as (ce' & Ec & Eo & Ef). rewrite Ec in Ej. injection Ej as ->.
    rewrite Eo. split; [|exact Ef]. unfold weekday in *. lia.
Qed.

Lemma month_at_year idx y y' : month_index y 1 <= idx -> idx <= month_index y' 12 -> y <= (month_at idx).1 <= y'.
Proof. unfold month_index, month_at. cbn. lia. Qed.

(** A calendar asked for some months within the years it can show comes out
    whole: those months in order and no other, each in weeks of seven columns
    from Sunday, in which every day of the month is found once, in order and
    under its weekday; the days to come are marked as such and no other. *)
Theorem calendar_complete key ey em months now b :
  1 <= months -> 1 <= em <= 12 -> month_index 2 1 <= month_index ey em - months + 1 -> ey <= 9998 ->
  exists cal, build_calendar_months settings key (Some (ey, em)) months now b = Some cal
    /\ fmap (M:=list) month_shown cal = seqZ (month_index ey em - months + 1) months
    /\ forall c, c ∈ cal ->
         Forall (fun week => length week = 7%nat) (cm_weeks c)
         /\ ce_day <$> omap id (mjoin (cm_weeks c)) = seqZ 1 (days_in_month (cm_year c) (cm_month c))
         /\ forall k j week ce, cm_weeks c !! k = Some week -> week !! j = Some (Some ce) ->
              let day := ordinal (cm_year c) (cm_month c) (ce_day ce) in
              Z.of_nat j = (weekday day + 1) mod 7 /\ (ce_status ce = Future <-> local_date now < day).
Proof.
  intros Hm Hem Hlo Hhi.
  assert (month_index ey em <= month_index 9998 12) as Hey by (unfold month_index; lia).
  assert (2 <= ey) as Hey2 by (unfold month_index in Hlo; lia).
  assert (is_Some (build_calendar_months settings key (Some (ey, em)) months now b)) as [cal Hcal].
  { unfold build_calendar_months. cbn [from_option id]. cbn zeta. rewrite calendar_range by done. cbn [from_option id].
    pose proof (month_at_year (month_index ey em - months + 1) 2 9998) as Hy.
    destruct (month_at (month_index ey em - months + 1)) as [y0 m0]. cbn [fst] in Hy.
    assert (negb ((1 <=? y0) && (y0 <=? 9999) && (1 <=? ey) && (ey <=? 9999)) = false) as -> by (apply negb_false_iff; lia).
    apply mapM_is_Some_2, Forall_fmap, Forall_forall. intros idx Hidx%elem_of_seqZ. unfold compose.
    pose proof (month_at_year idx 2 9998). destruct (month_index_at idx) as [_ Hi]. destruct (month_at idx) as [y m]. cbn [fst snd] in *.
    destruct (month_weeks_some y m) as [weeks ->]; [lia|done|]. by eexists. }
  exists cal. split; [done|]. destruct (calendar_shape _ _ _ _ _ _ _ Hm Hcal) as [H1 H2]. split; [exact H1|].
  intros c Hc. destruct (H2 c Hc) as (_ & weeks & Hw & ->). by apply month_cells.
Qed.

Lemma dict_get_keyed {A} (f : Z -> A) (ks : list Z) k :
  dict_get (fmap (M:=list) (fun k => (k, f k)) ks) k = if decide (k ∈ ks) then Some (f k) else None.
Proof.
  induction ks as [|k' ks IH]; [done|]. cbn. rewrite IH. destruct (decide (k' = k)) as [->|Hne].
  - by rewrite decide_True by by left.
  - destruct (decide (k ∈ ks)) as [Hin|Hin]; [by rewrite decide_True by by right|].
    rewrite decide_False; [done|]. by intros [?|?]%elem_of_cons.
Qed.

Lemma uptime_looked_up key lo hi now b day :
  lo <= day <= hi ->
  default None (dict_get (daily_uptime_map settings key lo hi now b) day) = daily_uptime settings key lo hi day now b.
Proof. intros Hd. unfold daily_uptime_map. rewrite dict_get_keyed, decide_True; [done|]. apply elem_of_seqZ. lia. Qed.

(** The days of a month lie in the range its calendar looks up. *)
Lemma shown_in_range ey em months c (cal : list CalendarMonth) n :
  1 <= em <= 12 -> fmap (M:=list) month_shown cal = seqZ (month_index ey em - months + 1) months -> c ∈ cal -> 1 <= cm_month c <= 12 ->
  in_month (cm_year c) (cm_month c) n = true -> first_day ey em months <= n <= last_day ey em.
Proof.
  intros Hem Hcal Hc Hcm Hn. apply (list_elem_of_fmap_2 month_shown) in Hc. rewrite Hcal in Hc. apply elem_of_seqZ in Hc.
  pose proof (month_start_mono (month_index ey em - months + 1) (month_shown c)) as H1.
  pose proof (month_start_mono (month_shown c + 1) (month_index ey em + 1)) as H2. rewrite !month_start_next in H2.
  unfold month_days in H2. unfold first_day, last_day. rewrite ordinal_day. unfold month_shown in *.
  assert (forall y m, 1 <= m <= 12 -> month_start (month_index y m) = ordinal y m 1) as Hst
    by (intros y m Hm; unfold month_start; by rewrite month_at_index).
  rewrite !Hst, !month_at_index in H2 by done. rewrite Hst in H1 by done. unfold in_month in Hn. lia.
Qed.
End Calendar.

Section Agreement.
Context `{Lawful : LawfulZone} (settings : BeatSettings).

(** The calendar and the strip of days agree: a day shown by both has the same
    uptime and, unless a maintenance window touches it, the same verdict;
    how far back either looks makes no difference. *)
Theorem calendar_agrees key ey em months days now b cal c ce cls pct :
  1 <= months -> 1 <= em <= 12 ->
  build_calendar_months settings key (Some (ey, em)) months now b = Some cal -> c ∈ cal ->
  Some ce ∈ mjoin (cm_weeks c) ->
  let day := ordinal (cm_year c) (cm_month c) (ce_day ce) in
  (day, cls, pct) ∈ build_daily_timeline settings days key now b ->
  ce_uptime ce = pct
  /\ ce_status ce = match ce_windows ce with [] => Judged cls | _ => InMaintenance end
  /\ forall w, w ∈ ce_windows ce <->
       w ∈ window_list b /\ of_any (Some key) w = true /\ local_date (mw_start w) <= day <= local_date (mw_end w)
       /\ overlapping (midnight (first_day ey em months)) (midnight (last_day ey em + 1)) w = true.
Proof.
  intros Hm Hem Hcal Hc Hce day Hstrip.
  destruct (calendar_shape settings _ _ _ _ _ _ _ Hm Hcal) as [Hidx Hshape]. destruct (Hshape c Hc) as (Hcm & weeks & _ & Hw).
  rewrite Hw, mjoin_fmap in Hce. apply list_elem_of_fmap in Hce as (n & Hn & _).
  set (lo := first_day ey em months) in *. set (hi := last_day ey em) in *.
  destruct (in_month (cm_year c) (cm_month c) n) eqn:Ein; [|by rewrite cell_out in Hn].
  destruct (cell_in settings key lo hi (local_date now) now (cm_year c) (cm_month c) n b Ein) as (ce' & Ec & Eo & Ef).
  rewrite Ec in Hn. injection Hn as ->. subst day. rewrite Eo in *. clear Eo.
  assert (lo <= n <= hi) as Hr by by apply (shown_in_range ey em months c cal).
  unfold build_daily_timeline in Hstrip. cbn zeta in Hstrip. destruct (get_sla_targets key b) as [target minimum] eqn:Esla.
  apply list_elem_of_fmap in Hstrip as (i & E & Hi%elem_of_seq). injection E as En -> ->.
  rewrite uptime_looked_up by lia. rewrite <- En.
  rewrite daily_uptime_verdict by lia.
  unfold cell in Ec. rewrite Ein in Ec. cbn [negb] in Ec. rewrite Esla in Ec.
  rewrite uptime_looked_up, daily_uptime_verdict in Ec by lia.
  destruct (Z.ltb_spec (local_date now) n) as [Hlt|Hle]; [lia|]. injection Ec as <-. cbn [ce_uptime ce_status ce_windows].
  split; [done|]. split; [by destruct (maintenance_on _ _ _ _ _)|]. intros w. unfold maintenance_on.
  rewrite merge_sort_Permutation, list_elem_of_In, filter_In, <- list_elem_of_In, !andb_true_iff, !Z.leb_le.
  clear -Hr. naive_solver lia.
Qed.
End Agreement.
