(* ===== verification/HeartbeatPages.v ===== *)
(** * Heartbeat: the runner, the bars and the maintenance windows

    What a pass over the monitors records, what the bars of the last hours
    add up to, how long a deploy is masked, and where the code does something
    else than it says. *)
From Stdlib Require Import SpecFloat.
From stdpp Require Import sorting.
From S2P Require Import Prelude PyFloat FloatDiv PyStr PyTime PyLib Schedules Heartbeat HeartbeatFacts.
From S2P Require Import HeartbeatViews HeartbeatOverview HeartbeatCalendars.
Open Scope Z_scope.

#[local] Opaque u.

(** ** The runner *)

Section Runner.

Definition recorded_ok (m : Monitor) : bool := match mon_check m with Ok r => cr_ok r | Err _ => false end.

Definition stored (fault : option Fault) : bool := match fault with Some (NotStored _) => false | _ => true end.

Lemma run_one_beats fault m now b :
  let '(r, b') := run_one fault m now b in
  (forall k, k.1 <> mon_key m -> beats b' !! k = beats b !! k)
  /\ (stored fault = true -> exists x, beats b' !! (mon_key m, minute_of now) = Some x /\ hb_ok x = recorded_ok m
        /\ (length (hb_note x) <= 255)%nat /\ (hb_ok x = true -> hb_note x = [])
        /\ hb_maintenance x = is_in_maintenance (minute_of now) (mon_key m) b)
  /\ (stored fault = false -> b' = b).
Proof.
  assert (forall k b0, beats (ensure_epoch k b0) = beats b0) as He.
  { intros k b0. unfold ensure_epoch. destruct (epochs b0 !! k); [done|]. by destruct (oldest_beat k b0). }
  assert (forall fault', stored fault' = true -> let '(r, b') := run_one fault' m now b in
    exists x, beats b' = <[(mon_key m, minute_of now) := x]> (beats b) /\ hb_ok x = recorded_ok m
      /\ (length (hb_note x) <= 255)%nat /\ (hb_ok x = true -> hb_note x = [])
      /\ hb_maintenance x = is_in_maintenance (minute_of now) (mon_key m) b) as Hall.
  { intros [[text|text]|] Hs; [done| |]; unfold run_one, run_monitor_check, recorded_ok;
      destruct (mon_check m) as [[ok ms note]|text']; cbn; rewrite He; cbn; eexists; (split; [done|]); cbn;
      (split; [done|]); split_and!; try done; try (destruct ok; cbn [length]; [lia|]); rewrite ?length_take; try lia; by destruct ok. }
  destruct (run_one fault m now b) as [r b'] eqn:E. split_and!.
  - intros k Hk. destruct (stored fault) eqn:Hs.
    + specialize (Hall fault Hs). rewrite E in Hall. destruct Hall as (x & -> & _). rewrite lookup_insert_ne; [done|].
      intros <-. by apply Hk.
    + destruct fault as [[text|text]|]; try done. cbn in E. by injection E as <- <-.
  - intros Hs. specialize (Hall fault Hs). rewrite E in Hall. destruct Hall as (x & -> & H). exists x.
    by rewrite lookup_insert_eq.
  - intros Hs. destruct fault as [[text|text]|]; try done. cbn in E. by injection E as <- <-.
Qed.

Definition due_key (x : Monitor * Z * option Fault) : pystr := mon_key x.1.1.

(** A pass over the monitors reports on each that is not orphaned, once and in
    order, and leaves its beat of the minute, whatever the checks of the
    others do: a check that raises is a failure with at most 255 characters
    of its message, a database that fails for one monitor costs that
    monitor's beat at most, and an orphan or another minute is not touched. *)
Theorem every_monitor_reports due b :
  NoDup (due_key <$> due) ->
  let '(results, b') := run_all_monitors due b in
  results.*1 = due_key <$> List.filter (fun x => negb (mon_orphaned x.1.1)) due
  /\ (forall m now fault, (m, now, fault) ∈ due -> mon_orphaned m = false -> stored fault = true ->
        exists x, beats b' !! (mon_key m, minute_of now) = Some x /\ hb_ok x = recorded_ok m
          /\ (length (hb_note x) <= 255)%nat /\ (hb_ok x = true -> hb_note x = []))
  /\ (forall k, (forall m now fault, (m, now, fault) ∈ due -> mon_key m = k.1 -> mon_orphaned m = true \/ stored fault = false) ->
        beats b' !! k = beats b !! k).
Proof.
  revert b. induction due as [|[[m now] fault] due IH]; intros b Hnd; cbn [run_all_monitors].
  { split_and!; [done|by intros m now fault ?%elem_of_nil|done]. }
  cbn [fmap list_fmap] in Hnd. apply NoDup_cons in Hnd as [Hno Hnd].
  assert (forall m' now' fault', (m', now', fault') ∈ due -> mon_key m' <> mon_key m) as Hother.
  { intros m' now' fault' Hin E. apply Hno. apply list_elem_of_fmap. by exists (m', now', fault'). }
  destruct (mon_orphaned m) eqn:Eo.
  - specialize (IH b Hnd). destruct (run_all_monitors due b) as [rs b2]. destruct IH as (Hk & Hb & Ho).
    cbn [List.filter fst]. rewrite Eo. split_and!; [done| |].
    + intros m' now' fault' [[= -> -> ->]|Hin]%elem_of_cons Ho' Hs; [congruence|by eapply Hb].
    + intros k Hk'. apply Ho. intros m' now' fault' Hin. apply (Hk' m' now' fault'). by apply list_elem_of_further.
  - pose proof (run_one_beats fault m now b) as H1. destruct (run_one fault m now b) as [r b1].
    destruct H1 as (H1 & H2 & H3). specialize (IH b1 Hnd). destruct (run_all_monitors due b1) as [rs b2].
    destruct IH as (Hk & Hb & Ho). cbn [List.filter fst]. rewrite Eo. cbn [negb fmap list_fmap]. split_and!.
    + rewrite dict_update_new; [cbn; by rewrite Hk|]. cbn. rewrite Hk. apply NoDup_cons. split.
      * intros (m' & Hm' & Hin)%list_elem_of_fmap. apply Hno, list_elem_of_fmap. exists m'. split; [done|].
        by apply list_elem_of_In, filter_In, proj1, list_elem_of_In in Hin.
      * eapply sublist_NoDup; [exact Hnd|]. apply fmap_sublist. clear. induction due as [|x due IH]; [done|]. cbn.
        destruct (negb (mon_orphaned x.1.1)); by constructor.
    + intros m' now' fault' [[= -> -> ->]|Hin]%elem_of_cons Ho' Hs; [|by eapply Hb].
      destruct (H2 Hs) as (x & Hx & A & B & C & _). exists x. split; [|done]. rewrite Ho; [done|].
      intros m' now' fault' Hin E. by destruct (Hother _ _ _ Hin E).
    + intros k Hk'. rewrite Ho.
      * destruct (decide (k.1 = mon_key m)) as [E|]; [|by apply H1].
        destruct (Hk' m now fault) as [?|Hs]; [apply list_elem_of_here|done|congruence|]. by rewrite H3.
      * intros m' now' fault' Hin. apply (Hk' m' now' fault'). by apply list_elem_of_further.
Qed.
End Runner.

(** ** The bars *)

Section Bars.

Definition during (lo hi : Z) (x : Z * Beat) : bool := (lo <=? x.1) && (x.1 <? hi).

Lemma slots_count (p : Z * Beat -> bool) lo step n l :
  0 <= step ->
  foldl Z.add 0 ((fun i => count p (slot_beats lo step i l)) <$> seq 0 n) = count (fun x => p x && during lo (slot_at lo step n) x) l.
Proof.
  intros Hs. induction n as [|n IH].
  - symmetry. apply count_false. intros x _. unfold during, slot_at. rewrite Z.add_0_r.
    apply andb_false_iff. right. apply not_true_iff_false. lia.
  - rewrite seq_S, fmap_app, foldl_app, IH. cbn [fmap list_fmap foldl Nat.add]. unfold slot_beats. rewrite count_filter.
    rewrite (count_split (fun x => p x && during lo (slot_at lo step (S n)) x) (during lo (slot_at lo step n))).
    assert (slot_at lo step (S n) = slot_at lo step n + step /\ lo <= slot_at lo step n) as [-> Hlo] by (unfold slot_at; nia).
    generalize dependent (slot_at lo step n). intros t _ Hlo.
    f_equal; apply count_ext; intros x _; unfold during; destruct (p x); cbn; lia.
Qed.

Lemma beats_since_count p key lo b : count p (beats_since key lo b) = count (fun x => p x && (lo <=? x.1)) (beats_of key b).
Proof. unfold beats_since. rewrite merge_sort_Permutation. apply count_filter. Qed.

(** The beats of a monitor since [lo] that satisfy [p]. *)
Definition since (key : pystr) (lo : Z) (p : Z * Beat -> bool) (b : Board) : Z :=
  count (fun x => p x && (lo <=? x.1)) (beats_of key b).

Lemma slots_complete p key lo step n now b :
  0 <= step -> slot_at lo step n = now -> (forall x, x ∈ beats_of key b -> x.1 < now) ->
  foldl Z.add 0 ((fun i => count p (slot_beats lo step i (beats_since key lo b))) <$> seq 0 n) = since key lo p b.
Proof.
  intros Hs Hn Hpast. rewrite slots_count, beats_since_count by done. apply count_ext. intros x Hx. apply Hpast in Hx.
  unfold during. rewrite Hn. destruct (p x); cbn; lia.
Qed.

Lemma count_ok_fail (l : list (Z * Beat)) : count (fun x => hb_ok x.2) l + count (fun x => negb (hb_ok x.2)) l = zlen l.
Proof. rewrite zlen_count. symmetry. apply (count_split (fun _ => true) (fun x : Z * Beat => hb_ok x.2)). Qed.

(** A bar tells what was recorded in it: a failure shows unless it was
    announced, and nothing shows that was not recorded. *)
Definition bucket_tells (k : Bucket) : Prop :=
  bk_total k = bk_ok k + bk_fail k /\ 0 <= bk_ok k /\ 0 <= bk_fail k
  /\ match bk_status k with
     | BPreEpoch | BMissed => bk_total k = 0
     | BMaintenance => True
     | BPartial => 0 < bk_ok k /\ 0 < bk_fail k
     | BFail => bk_ok k = 0 /\ 0 < bk_fail k
     | BOk => 0 < bk_ok k /\ bk_fail k = 0
     end.

Definition bar_tells (k : HourBar) : Prop :=
  0 <= hbar_ok k /\ 0 <= hbar_fail k
  /\ match hbar_status k with
     | BarNoData => hbar_ok k + hbar_fail k = 0
     | BarMaintenance => True
     | BarDegraded => 0 < hbar_ok k /\ 0 < hbar_fail k
     | BarDown => hbar_ok k = 0 /\ 0 < hbar_fail k
     | BarUp => 0 < hbar_ok k /\ hbar_fail k = 0
     end.

Definition started (key : pystr) (lo : Z) (b : Board) : Prop := forall e, get_epoch key b = Some e -> e <= lo.

Lemma started_shown key lo step i b : 0 < step -> started key lo b -> before_epoch (get_epoch key b) (slot_at lo step (S i)) = false.
Proof.
  intros Hs He. unfold before_epoch, slot_at. destruct (get_epoch key b) as [e|] eqn:E; [|done]. specialize (He e E). apply Z.leb_gt. nia.
Qed.

(** The bars account for every beat. Once a monitor has been watched for the
    whole span, the beats of the last 24 hours are shared out among the 96
    quarter-hour bars and those of the last [hours] hours among as many hour
    bars, each in exactly one, successes and failures alike; and every bar
    has the colour of what it counts. *)
Theorem bars_complete key hours now b :
  (forall x, x ∈ beats_of key b -> x.1 < now) ->
  let day := build_24h_timeline key now b in
  let bars := build_hourly_timeline hours key now b in
  length day = 96%nat /\ length bars = hours /\ Forall bucket_tells day /\ Forall bar_tells bars
  /\ (started key (now - 24 * HOUR) b ->
        foldl Z.add 0 (bk_ok <$> day) = since key (now - 24 * HOUR) (fun x => hb_ok x.2) b
        /\ foldl Z.add 0 (bk_fail <$> day) = since key (now - 24 * HOUR) (fun x => negb (hb_ok x.2)) b)
  /\ (started key (now - Z.of_nat hours * HOUR) b ->
        foldl Z.add 0 (hbar_ok <$> bars) = since key (now - Z.of_nat hours * HOUR) (fun x => hb_ok x.2) b
        /\ foldl Z.add 0 (hbar_fail <$> bars) = since key (now - Z.of_nat hours * HOUR) (fun x => negb (hb_ok x.2)) b).
Proof.
  intros Hpast day bars. unfold day, bars, build_24h_timeline, build_hourly_timeline. rewrite !length_fmap, !length_seq.
  split_and!; [done|done| | | |].
  - apply Forall_fmap, Forall_forall. intros i _. cbn. destruct (before_epoch _ _); [by split_and!|].
    set (l := slot_beats _ _ _ _). pose proof (count_ok_fail l). pose proof (count_nonneg (fun x => hb_ok x.2) l).
    pose proof (count_nonneg (fun x => negb (hb_ok x.2)) l). unfold bucket_tells. cbn. split_and!; [lia..|].
    destruct (existsb _ _); [done|]. destruct (Z.eqb_spec (zlen l) 0); [done|].
    destruct (Z.ltb_spec 0 (count (fun x => negb (hb_ok x.2)) l)), (Z.ltb_spec 0 (count (fun x => hb_ok x.2) l)); cbn; lia.
  - apply Forall_fmap, Forall_forall. intros i _. cbn. destruct (before_epoch _ _); [by split_and!|].
    set (l := slot_beats _ _ _ _). pose proof (count_ok_fail l). pose proof (count_nonneg (fun x => hb_ok x.2) l).
    pose proof (count_nonneg (fun x => negb (hb_ok x.2)) l). unfold bar_tells. cbn. split_and!; [lia..|].
    destruct (existsb _ _); [done|]. destruct l as [|x l'] eqn:El; [done|]. rewrite <- El in *.
    assert (zlen l <> 0) by (rewrite El, zlen_cons; pose proof (zlen_nonneg l'); lia).
    destruct (Z.ltb_spec 0 (count (fun x => negb (hb_ok x.2)) l)), (Z.ltb_spec 0 (count (fun x => hb_ok x.2) l)); cbn; lia.
  - intros He. rewrite <- !list_fmap_compose.
    rewrite <- !(slots_complete _ key (now - 24 * HOUR) QUARTER 96 now b) by (done || unfold slot_at, QUARTER, HOUR, MINUTE, SECOND; lia).
    split; f_equal; apply list_fmap_ext; intros i j _; unfold compose; by rewrite started_shown.
  - intros He. rewrite <- !list_fmap_compose.
    rewrite <- !(slots_complete _ key (now - Z.of_nat hours * HOUR) HOUR hours now b) by (done || unfold slot_at, HOUR, MINUTE, SECOND; lia).
    split; f_equal; apply list_fmap_ext; intros i j _; unfold compose; by rewrite started_shown.
Qed.
End Bars.

(** ** Maintenance *)

Section Maintenance.

Lemma in_maintenance_iff t key b :
  is_in_maintenance t key b = true <-> exists pk w, windows b !! pk = Some w /\ mw_key w = key /\ mw_start w <= t < mw_end w.
Proof.
  unfold is_in_maintenance, in_window, str_eqb. rewrite existsb_exists. setoid_rewrite <- list_elem_of_In.
  setoid_rewrite in_window_list. split.
  - intros (w & (pk & Hpk) & [Hk%bool_decide_eq_true Ht]%andb_true_iff). exists pk, w. split_and!; [done|done|lia..].
  - intros (pk & w & Hpk & Hk & Ht). exists w. split; [by exists pk|]. rewrite bool_decide_eq_true_2 by done. cbn. lia.
Qed.

Lemma close_windows_live key delete_future moment b :
  let '(_, _, b') := close_windows key delete_future moment b in
  is_in_maintenance moment key b' = false
  /\ forall t k, k <> key -> is_in_maintenance t k b' = is_in_maintenance t k b.
Proof.
  unfold close_windows.
  set (active := fun w => of_monitor key w && in_window moment w).
  set (shorten := fun w : Window => if active w then w <| mw_end := moment |> else w).
  assert (forall w, mw_key (shorten w) = mw_key w /\ mw_start (shorten w) = mw_start w) as Hsh
    by (intros w; unfold shorten; by destruct (active w)).
  assert (forall w, mw_key w = key -> mw_start w <= moment -> mw_end (shorten w) <= moment) as Hend.
  { intros w Hk Hs. unfold shorten, active, of_monitor, in_window, str_eqb. rewrite bool_decide_eq_true_2 by done.
    destruct (Z.leb_spec (mw_start w) moment), (Z.ltb_spec moment (mw_end w)); cbn; lia. }
  assert (forall w, mw_key w <> key -> shorten w = w) as Hoth.
  { intros w Hk. unfold shorten, active, of_monitor, str_eqb. by rewrite bool_decide_eq_false_2. }
  assert (forall ws, (forall pk w, ws !! pk = Some w -> exists v, windows b !! pk = Some v /\ w = shorten v) ->
    (forall pk v, windows b !! pk = Some v -> mw_key v <> key -> ws !! pk = Some v) ->
    is_in_maintenance moment key (b <| windows := ws |>) = false
    /\ forall t k, k <> key -> is_in_maintenance t k (b <| windows := ws |>) = is_in_maintenance t k b) as Hboth.
  { intros ws Hto Hfrom. split.
    - apply not_true_iff_false. rewrite in_maintenance_iff. intros (pk & w & (v & Hv & ->)%Hto & Hk & Ht).
      destruct (Hsh v) as [E1 E2]. rewrite E1 in Hk. rewrite E2 in Ht. specialize (Hend v Hk). lia.
    - intros t k Hne. apply eq_true_iff_eq. rewrite !in_maintenance_iff. cbn. split.
      + intros (pk & w & (v & Hv & ->)%Hto & Hk & Ht). destruct (Hsh v) as [E1 _]. rewrite E1 in Hk.
        rewrite Hoth in Ht by congruence. by exists pk, v.
      + intros (pk & v & Hv & Hk & Ht). exists pk, v. split; [|done]. apply Hfrom; [done|congruence]. }
  destruct delete_future; apply Hboth.
  + intros pk w [Hw _]%map_lookup_filter_Some. rewrite lookup_fmap in Hw. apply fmap_Some in Hw as (v & Hv & ->). by exists v.
  + intros pk v Hv Hk. apply map_lookup_filter_Some. rewrite lookup_fmap, Hv. change (_ <$> Some v) with (Some (shorten v)).
    rewrite Hoth by done. split; [done|]. cbn. unfold of_monitor, str_eqb. by rewrite bool_decide_eq_false_2.
  + intros pk w Hw. rewrite lookup_fmap in Hw. apply fmap_Some in Hw as (v & Hv & ->). by exists v.
  + intros pk v Hv Hk. rewrite lookup_fmap, Hv. change (_ <$> Some v) with (Some (shorten v)). by rewrite Hoth.
Qed.

(** A window opened for so many minutes covers them and no more, so a deploy
    that never closes it is not masked beyond them; closing leaves the
    monitor out of maintenance at once and other monitors as they were. *)
Theorem deploy_window minutes title key note exclude now b :
  (forall pk w, windows b !! pk = Some w -> pk < next_window b) ->
  (open_window_for minutes title key note exclude now b = None <-> minutes <= 0)
  /\ (forall pk b', open_window_for minutes title key note exclude now b = Some (pk, b') ->
        forall t k, is_in_maintenance t k b' = is_in_maintenance t k b || (bool_decide (k = key) && (now <=? t) && (t <? now + minutes * MINUTE)))
  /\ (forall delete_future moment, let '(_, _, b') := close_windows key delete_future moment b in
        is_in_maintenance moment key b' = false
        /\ forall t k, k <> key -> is_in_maintenance t k b' = is_in_maintenance t k b).
Proof.
  intros Hf. split_and!.
  - unfold open_window_for, open_window, MINUTE, SECOND. destruct (Z.leb_spec minutes 0); [by split|].
    destruct (Z.leb_spec (now + minutes * (60 * 1000000)) now); [lia|]. split; [done|lia].
  - intros pk b'. unfold open_window_for, open_window. destruct (minutes <=? 0); [done|].
    destruct (now + minutes * MINUTE <=? now); [done|]. intros [= <- <-] t k. apply eq_true_iff_eq.
    rewrite orb_true_iff, !in_maintenance_iff, !andb_true_iff, bool_decide_eq_true. cbn. split.
    + intros (j & w & [[<- <-]|[_ Hw]]%lookup_insert_Some & Hk & Ht); [right; cbn in *; split_and!; [done|lia..]|].
      left. by exists j, w.
    + intros [(j & w & Hw & H1)|[[-> H1] H2]].
      * exists j, w. split; [|done]. rewrite lookup_insert_ne; [done|]. apply Hf in Hw. lia.
      * eexists _, _. rewrite lookup_insert_eq. split; [done|]. cbn. split; [done|lia].
  - intros delete_future moment. apply close_windows_live.
Qed.
End Maintenance.

(** ** Where the code does something else *)

(** The bounds of a local day are subtracted on the wall clock: a day of 23
    hours is expected to have the checks of 24. *)
Lemma short_day_expected `{LawfulZone} settings key day now b :
  interval settings = 60%positive -> midnight (day + 1) <= now ->
  (forall e, epochs b !! key = Some e -> ep_started e <= midnight day) ->
  excluding (local_midnight day) (local_midnight (day + 1)) key b = [] ->
  expected_intervals_for_day settings day key (epoch_start key b) now b = 1440.
Proof.
  intros Hi Hnow He Hx. unfold expected_intervals_for_day. cbn [day_bounds].
  assert (match epoch_start key b with Some e => aware_max (local_midnight day) (utc_at e) | None => local_midnight day end
    = local_midnight day) as ->.
  { unfold epoch_start. destruct (epochs b !! key) as [e|]; [|done]. cbn. specialize (He e eq_refl).
    unfold aware_max, aware_ltb, aware_sub. cbn. destruct (Z.ltb_spec (midnight day - ep_started e) 0); [lia|done]. }
  assert (aware_min (local_midnight (day + 1)) (utc_at now) = local_midnight (day + 1)) as ->.
  { unfold aware_min, aware_ltb, aware_sub. cbn. destruct (Z.ltb_spec (now - midnight (day + 1)) 0); [lia|done]. }
  unfold aware_leb. assert (aware_sub (local_midnight (day + 1)) (local_midnight day) = DAY) as ->.
  { unfold aware_sub. cbn [local_midnight wall]. ring. }
  unfold get_excluded_seconds, get_excluded_ranges. rewrite Hx. cbn [foldl rev fmap list_fmap]. rewrite Hi. by vm_compute.
Qed.

(** So the day the clocks go forward, with a good beat in each of its 1380
    minutes, is shown as down. *)
Lemma short_day_down `{LawfulZone} settings key from to day now b :
  interval settings = 60%positive -> from <= day <= to -> day < local_date now ->
  (forall e, epochs b !! key = Some e -> ep_started e <= midnight day) ->
  excluding (local_midnight day) (local_midnight (day + 1)) key b = [] -> daily b !! (key, day) = None ->
  (forall t, excluded key t b = false) ->
  tally (on_day key day) (beats b) = 1380 -> tally (fun x => on_day key day x && kb_ok x) (beats b) = 1380 ->
  exists pct, daily_uptime settings key from to day now b = Some pct
    /\ classify_day (Some pct) day None (percent_of DEFAULT_TARGET) (percent_of DEFAULT_MINIMUM) = DayDown.
Proof.
  intros Hi Hd Hday He Hx Hnone Hex Hn Hok. exists (percent 2 1380 1440). split; [|by vm_compute].
  rewrite daily_uptime_verdict, Hnone by done. cbn [row_or_zero fst snd].
  assert (tally (fun x => on_day key day x && agreed key b x && kb_ok x) (beats b) = 1380) as ->.
  { rewrite <- Hok. apply tally_ext. intros x. unfold agreed. rewrite Hex. by rewrite andb_true_r. }
  assert (tally (fun x => on_day key day x && agreed key b x) (beats b) = 1380) as ->.
  { rewrite <- Hn. apply tally_ext. intros x. unfold agreed. rewrite Hex. by rewrite andb_true_r. }
  rewrite Hn. unfold verdict. cbn [negb andb Z.eqb]. rewrite bool_decide_eq_true_2 by done. cbn [negb andb].
  assert ((day =? local_date now) = false) as -> by lia.
  rewrite short_day_expected; [done|done| |done|done].
  pose proof (midnights_mono (day + 1) (local_date now)). pose proof (proj1 (day_of_midnight now (local_date now)) eq_refl). lia.
Qed.

(** ** A monitor west of Greenwich, checked every hour *)

Definition zone_west (west : Z) : LocalZone :=
  {| local_date := fun t => (t - west) / DAY; midnight := fun d => d * DAY + west |}.

Lemma zone_west_lawful west : @LawfulZone (zone_west west).
Proof.
  split; cbn; [unfold DAY, SECOND; lia|]. intros t d. unfold DAY, SECOND. split.
  - intros <-. pose proof (Z.div_mod (t - west) (86400 * 1000000) ltac:(lia)).
    pose proof (Z.mod_pos_bound (t - west) (86400 * 1000000) ltac:(lia)). lia.
  - intros Ht. symmetry. apply (Z.div_unique_pos _ _ d (t - west - d * (86400 * 1000000))); lia.
Qed.

Module BeatDemo.
#[export] Instance eastern : LocalZone := zone_west (5 * HOUR).
#[export] Instance eastern_lawful : LawfulZone := zone_west_lawful _.

Definition settings : BeatSettings := {| interval := 3600; retention_days := 1 |}.
Definition site : Monitor :=
  {| mon_key := u "site"; mon_service := u "site"; mon_order := 10; mon_public := true; mon_orphaned := false;
     mon_check := Ok {| cr_ok := true; cr_ms := 2; cr_note := [] |} |}.

(** The local midnight of a day, and the instant [n] hours after it. *)
Definition DAY_ONE : Z := 738000.
Definition hour (n : Z) : Z := midnight DAY_ONE + n * HOUR.

Definition checked (h : History) (now : Z) : History :=
  remember (mon_key site, minute_of now) (run_one None site now (board h)).2 h.
Definition swept (now : Z) (h : History) : History :=
  Build_History (prune_old_heartbeats settings now (board h)).2 (ever h) (Z.max (pruned h) (cutoff settings now)).

Lemma checked_steps times h :
  Forall (fun t => pruned h <= minute_of t) times -> rtc (step settings) h (foldl checked h times).
Proof.
  revert h. induction times as [|t times IH]; intros h Ht; [done|]. apply Forall_cons in Ht as [Ht Hts]. cbn [foldl].
  eapply rtc_l; [by apply (h_check settings h site t None)|]. by apply IH.
Qed.

(** 44 hours of good beats, of which the first 20 are folded. *)
Definition running : History := foldl checked start (hour <$> seqZ 0 44).
Definition folded : History := swept (hour 44) running.

Lemma folded_reachable : rtc (step settings) start folded.
Proof.
  etrans; [|apply rtc_once, h_prune]. apply checked_steps. by_compute.
Qed.

(** The day half folded: 20 beats in the summary, 4 in the table. *)
Lemma half_folded :
  (fun d => (hd_ok d, hd_fail d)) <$> daily (board folded) !! (u "site", DAY_ONE) = Some (20, 0)
  /\ day_counts (u "site") DAY_ONE (board folded) = (4, 4)
  /\ (daily_uptime settings (u "site") DAY_ONE DAY_ONE DAY_ONE (hour 44) (board folded)) = Some (num_of_Z 100).
Proof. split_and!; vm_compute; reflexivity. Qed.

(** The summaries before the oldest beat are chosen by its date in UTC, so
    between the two midnights the day being folded is expected once in full
    and once more from its beats: nothing failed, and the uptime since the
    epoch is 91.67%. *)
Lemma half_folded_day_expected_twice :
  (forall x, x ∈ map_to_list (ever folded) -> hb_ok x.2 = true)
  /\ calc_overall_uptime settings (u "site") (hour 44) (board folded) = Some (num_ratio 9167 100)%num.
Proof.
  split; [|vm_compute; reflexivity]. assert (Forall (fun x => hb_ok x.2 = true) (map_to_list (ever folded))) as H by by_compute.
  by apply Forall_forall.
Qed.
End BeatDemo.

Section Witnesses.
Import BeatDemo.

(** Three windows that overlap and touch, one of another monitor, one that is
    not excluded. *)
Definition planned (from to : Z) (key : pystr) (exclude : bool) : Window :=
  {| mw_key := key; mw_title := u "Deploy"; mw_start := hour from; mw_end := hour to; mw_note := []; mw_exclude := exclude |}.
Definition windowed : Board :=
  board folded <| windows := list_to_map [(1, planned 4 6 (u "site") true); (2, planned 2 5 (u "site") true);
                                          (3, planned 6 7 (u "site") true); (4, planned 10 12 (u "api") true);
                                          (5, planned 20 22 (u "site") false)] |>.

Lemma excluded_ranges_spec_witness :
  let ranges := get_excluded_ranges (utc_at (hour 3)) (utc_at (hour 24)) (u "site") windowed in
  (span_of <$> ranges) = [(hour 3, hour 7)] /\ excluded_at ranges (hour 6) = true.
Proof.
  split; [by_compute|].
  destruct (excluded_ranges_spec (utc_at (hour 3)) (utc_at (hour 24)) (u "site") windowed) as [H _];
    [apply spans_utc; by_compute|].
  apply H. split; [by_compute|]. exists (planned 6 7 (u "site") true). split_and!; [|done|done|by_compute|by_compute]. by_compute.
Defined.

Lemma pruning_invisible_witness :
  daily_uptime_map settings (u "site") DAY_ONE (DAY_ONE + 1) (hour 44) (board folded)
  = daily_uptime_map settings (u "site") DAY_ONE (DAY_ONE + 1) (hour 44) (unpruned folded)
  /\ daily (board folded) <> ∅ /\ length (build_daily_timeline settings 2 (u "site") (hour 44) (unpruned folded)) = 2%nat.
Proof.
  destruct (pruning_invisible settings folded (u "site") DAY_ONE (DAY_ONE + 1) (hour 44) folded_reachable) as [H1 H2].
  split; [exact H1|]. split.
  - intros E. assert (daily (board folded) !! (u "site", DAY_ONE) = None) as E' by by rewrite E, lookup_empty.
    assert (is_Some (daily (board folded) !! (u "site", DAY_ONE))) as [d Hd] by by_compute. by rewrite E' in Hd.
  - rewrite <- H2; [by vm_compute|]. by_compute.
Defined.

(** A good check, one that raises, an orphan, and one the database refuses. *)
Definition named (key : pystr) (orphaned : bool) (check : result pystr CheckResult) : Monitor :=
  {| mon_key := key; mon_service := u "custom"; mon_order := 50; mon_public := false; mon_orphaned := orphaned; mon_check := check |}.
Definition good : result pystr CheckResult := Ok {| cr_ok := true; cr_ms := 7; cr_note := u "HTTP 200" |}.
Definition pass : list (Monitor * Z * option Fault) :=
  [(named (u "ep_a") false good, hour 50, None); (named (u "ep_b") false (Err (u "timed out")), hour 50, None);
   (named (u "sm_c") true good, hour 50, None); (named (u "ep_d") false good, hour 50, Some (NotStored (u "locked")))].

Lemma every_monitor_reports_witness :
  (run_all_monitors pass (board folded)).1.*1 = [u "ep_a"; u "ep_b"; u "ep_d"]
  /\ exists x, beats (run_all_monitors pass (board folded)).2 !! (u "ep_b", hour 50) = Some x /\ hb_ok x = false.
Proof.
  pose proof (every_monitor_reports pass (board folded)) as H.
  destruct (run_all_monitors pass (board folded)) as [rs b']. destruct H as (H1 & H2 & _); [by_compute|].
  split; [cbn [fst]; rewrite H1; by_compute|].
  destruct (H2 (named (u "ep_b") false (Err (u "timed out"))) (hour 50) None) as (x & Hx & Hok & _); [right; left|done|done|].
  exists x. split; [exact Hx|exact Hok].
Defined.

Lemma bars_complete_witness :
  foldl Z.add 0 (hbar_ok <$> build_hourly_timeline 24 (u "site") (hour 44) (board folded)) = 24.
Proof.
  destruct (bars_complete (u "site") 24 (hour 44) (board folded)) as (_ & _ & _ & _ & _ & H).
  - apply Forall_forall. by_compute.
  - etrans; [apply H|vm_compute; reflexivity]. intros e E.
    assert (get_epoch (u "site") (board folded) = Some (hour 0)) as E' by by_compute. rewrite E' in E. injection E as <-. by_compute.
Defined.

Definition quiet : Board := Build_Board ∅ ∅ ∅ 1 ∅.
Definition deploying : option (Z * Board) := open_window_for 15 (u "Deploy") (u "site") [] true (hour 44) quiet.

Lemma deploy_window_witness :
  exists pk b', deploying = Some (pk, b')
    /\ is_in_maintenance (hour 44) (u "site") b' = true /\ is_in_maintenance (hour 45) (u "site") b' = false.
Proof.
  destruct (deploy_window 15 (u "Deploy") (u "site") [] true (hour 44) quiet) as (_ & H & _).
  { intros pk w E. by vm_compute in E. }
  assert (is_Some deploying) as [[pk b'] E] by by_compute. exists pk, b'. split; [done|].
  rewrite !(H pk b' E). split; by_compute.
Defined.

(** Three apps register; the surface of one monitor is gone since hour 48. *)
Definition category_of (key category : pystr) : Service := {| sv_key := key; sv_order := 10; sv_public := true; sv_category := category |}.
Definition gone : Monitor := named (u "sm_gone") true good.
Definition registry : Registry :=
  register_monitor site (register_monitor gone
    (register_service (category_of (u "custom") (u "internal")) (register_service (category_of (u "site") CORE) nothing))).

Lemma registry_reached : rtc registering nothing registry.
Proof. do 4 (eapply rtc_r; [|constructor]). done. Qed.

Definition surface_gone : Board :=
  (run_all_monitors [(site, hour 50, None); (gone, hour 50, None)]
     (run_one None (named (u "sm_gone") false good) (hour 48) (board folded)).2).2.
Definition board_shown : Overview := status_overview settings 60 false (fun _ => Some true) registry (hour 51) surface_gone.


(** One core service down and one on: the code calls the core tier degraded,
    which is better than the worst of its services. *)
Definition off : Monitor :=
  {| mon_key := u "sm_off"; mon_service := u "off"; mon_order := 10; mon_public := true; mon_orphaned := false;
     mon_check := Err (u "refused") |}.
Definition two_cores : Registry :=
  register_monitor site (register_monitor off
    (register_service (category_of (u "off") CORE) (register_service (category_of (u "site") CORE) nothing))).
Lemma core_tier_averages :
  (fun t => (ti_state t, sr_state <$> ti_rows t)) <$>
    ov_tiers (status_overview settings 60 false (fun _ => Some true) two_cores (hour 51)
      (run_all_monitors [(site, hour 50, None); (off, hour 50, None)] surface_gone).2)
  = [(Degraded, [Down; Operational])].
Proof. vm_compute. reflexivity. Qed.

(** The monitor whose surface was deregistered gets no more beats, so its last
    one goes stale and turns its tier and the banner red: nothing failed. *)
Lemma orphan_turns_board_red :
  (forall x, x ∈ map_to_list (beats surface_gone) -> hb_ok x.2 = true) /\ mon_orphaned gone = true
  /\ ov_state board_shown = Operational
  /\ ov_state (status_overview settings 60 false (fun _ => Some true) registry (hour 57)
                 (run_all_monitors [(site, hour 57, None); (gone, hour 57, None)] surface_gone).2) = Down.
Proof.
  split_and!; [|done|by vm_compute|by vm_compute].
  assert (Forall (fun x => hb_ok x.2 = true) (map_to_list (beats surface_gone))) as Hok by by_compute. by apply Forall_forall.
Qed.

(** July 2021, of which the 29th and the 30th have beats. *)
Definition july : option (list CalendarMonth) := build_calendar_months settings (u "site") (Some (2021, 7)) 1 (hour 44) (board folded).

Lemma calendar_complete_witness :
  exists cal, july = Some cal /\ fmap (M:=list) month_shown cal = [month_index 2021 7].
Proof.
  destruct (calendar_complete settings (u "site") 2021 7 1 (hour 44) (board folded)) as (cal & H1 & H2 & _);
    [lia|lia|unfold month_index; lia|lia|].
  exists cal. split; [exact H1|]. etrans; [apply H2|by vm_compute].
Defined.

Lemma calendar_agrees_witness :
  exists cal c ce, july = Some cal /\ c ∈ cal /\ Some ce ∈ mjoin (cm_weeks c) /\ ce_day ce = 29 /\ ce_uptime ce = Some (num_of_Z 100).
Proof.
  assert (match july with
          | Some (c :: _) => match mjoin (cm_weeks c) !! 32%nat with
                             | Some (Some ce) => (ce_day ce =? 29) && (ordinal (cm_year c) (cm_month c) (ce_day ce) =? DAY_ONE)
                             | _ => false end
          | _ => false end = true) as E by (vm_compute; reflexivity).
  destruct july as [[|c cal]|] eqn:Ec; [done| |done]. destruct (mjoin (cm_weeks c) !! 32%nat) as [[ce|]|] eqn:El; try done.
  apply andb_true_iff in E as [E1%Z.eqb_eq E2%Z.eqb_eq]. exists (c :: cal), c, ce.
  apply list_elem_of_lookup_2 in El. split_and!; [done|by left|done|done|].
  destruct (calendar_agrees settings (u "site") 2021 7 1 2 (hour 44) (board folded) (c :: cal) c ce DayUp (Some (num_of_Z 100)))
    as [H _]; [lia|lia|exact Ec|by left|exact El| |exact H].
  rewrite E2. assert (build_daily_timeline settings 2 (u "site") (hour 44) (board folded) !! 0%nat = Some (DAY_ONE, DayUp, Some (num_of_Z 100))) as Hs
    by (vm_compute; reflexivity).
  by apply list_elem_of_lookup_2 in Hs.
Defined.

(** A month of year 0 passes the check of the parameter and no calendar has
    it: the page raises. *)
Lemma calendar_parameter_raises :
  cal_param (u "0-05") = Some (0, 5) /\ public_calendar settings (u "0-05") (hour 44) quiet = None
  /\ is_Some (public_calendar settings (u "2021-13") (hour 44) quiet).
Proof. split_and!; [by vm_compute|by vm_compute|by_compute]. Qed.
End Witnesses.
