(* ===== verification/Runbook.v ===== *)
(** * apps/runbook: the tables, and who may see and change what

    models.py and permissions.py: runbooks of sections and markdown documents,
    each document a chain of versions with a head. The body of a version is the
    text of its file. *)
From S2P Require Import Prelude PyFloat PyStr Regex PyLib Tables.
Open Scope Z_scope.

(** ** models.py *)

Record RunbookRow := {
  rb_name : pystr;
  rb_slug : pystr;
  rb_description : pystr;
  rb_icon : pystr;
  rb_owner : option Z;
  rb_public : bool;
  rb_template : bool;
  rb_max_versions : option Z;
  rb_max_version_age_days : option Z;
  rb_ttl_days : option Z;
}.

#[global] Instance eta_runbook : Eta RunbookRow := fun r =>
  Build_RunbookRow (rb_name r) (rb_slug r) (rb_description r) (rb_icon r) (rb_owner r) (rb_public r) (rb_template r)
    (rb_max_versions r) (rb_max_version_age_days r) (rb_ttl_days r).

Record SectionRow := {
  sc_runbook : Z;
  sc_name : pystr;
  sc_slug : pystr;
  sc_description : pystr;
  sc_icon : pystr;
  sc_order : Z;
}.

Inductive ExpireAction := ArchiveIt | DeleteIt.

Record Document := {
  dc_uid : pystr;
  dc_runbook : option Z;
  dc_section : option Z;
  dc_key : option pystr;
  dc_slug : pystr;
  dc_title : pystr;
  dc_description : pystr;
  dc_current : option Z;
  dc_version : Z;
  dc_text : pystr;
  dc_generated : bool;
  dc_template : bool;
  dc_type : pystr;
  dc_source : pystr;
  dc_via : pystr;
  dc_created_by : option Z;
  dc_archived : bool;
  dc_archived_at : option Z;
  dc_locked : bool;
  dc_max_versions : option Z;
  dc_max_version_age_days : option Z;
  dc_ttl_days : option Z;
  dc_on_expire : ExpireAction;
  dc_created_at : Z;
  dc_updated_at : Z;
}.

#[global] Instance eta_document : Eta Document := fun d =>
  Build_Document (dc_uid d) (dc_runbook d) (dc_section d) (dc_key d) (dc_slug d) (dc_title d) (dc_description d)
    (dc_current d) (dc_version d) (dc_text d) (dc_generated d) (dc_template d) (dc_type d) (dc_source d) (dc_via d)
    (dc_created_by d) (dc_archived d) (dc_archived_at d) (dc_locked d) (dc_max_versions d) (dc_max_version_age_days d)
    (dc_ttl_days d) (dc_on_expire d) (dc_created_at d) (dc_updated_at d).

Record DocumentVersion := {
  vn_document : Z;
  vn_number : Z;
  vn_body : pystr;
  vn_text : pystr;
  vn_title : pystr;
  vn_description : pystr;
  vn_source : pystr;
  vn_via : pystr;
  vn_created_by : option Z;
  vn_created_at : Z;
}.

#[global] Instance eta_version : Eta DocumentVersion := fun v =>
  Build_DocumentVersion (vn_document v) (vn_number v) (vn_body v) (vn_text v) (vn_title v) (vn_description v)
    (vn_source v) (vn_via v) (vn_created_by v) (vn_created_at v).

(** An image, with the extension and the bytes of its stored file. *)
Record DocumentImage := {
  im_document : Z;
  im_ext : pystr;
  im_data : list Z;
  im_alt : pystr;
  im_uploaded_by : option Z;
}.

(** [document_image_upload_to]: the part of a drawn name that depends on the
    uploader's. *)
Definition IMAGE_EXTENSIONS : list pystr := [u ".png"; u ".jpg"; u ".jpeg"; u ".gif"; u ".webp"].
Definition last_part (name : pystr) : pystr := List.last (split_char 46 name) [].
Definition stored_ext (filename : pystr) : pystr :=
  let ext := if contains (u ".") filename then u "." ++ lower (last_part filename) else [] in
  if bool_decide (ext ∈ IMAGE_EXTENSIONS) then ext else u ".bin".

(** *** [strip_frontmatter] *)

(** [text.splitlines(keepends=True)] *)
Fixpoint keep_lines (cr : bool) (acc s : pystr) : list pystr :=
  match s with
  | [] => if nonempty acc then [acc] else []
  | c :: s' =>
      if cr then
        (* the line ends here unless a line feed completes the break *)
        if c =? 10 then (acc ++ [c]) :: keep_lines false [] s'
        else acc :: (if is_line_break c then if c =? 13 then keep_lines true [c] s' else [c] :: keep_lines false [] s'
                     else keep_lines false [c] s')
      else if is_line_break c then
        if c =? 13 then keep_lines true (acc ++ [c]) s' else (acc ++ [c]) :: keep_lines false [] s'
      else keep_lines false (acc ++ [c]) s'
  end.

Definition not_newline (c : Z) : bool := negb (c =? 10).
Definition FM_KEYVAL : regex :=
  r_seq [r_plus (fun c => is_word c || (c =? 46) || (c =? 45)); r_star is_space; r_char 58; r_star is_space; r_star not_newline].
Definition FM_IMAGE : regex :=
  r_seq [r_lit (u "!["); r_star (fun c => negb (c =? 93)); r_lit (u "]("); r_star (fun c => negb (c =? 41)); r_char 41].
Definition full (r : regex) (s : pystr) : bool := bool_decide (is_Some (fullmatch r s)).

Definition FENCE : pystr := u "---".
Definition is_fence (line : pystr) : bool := str_eqb (strip line) FENCE.
Definition skipped (line : pystr) : bool := negb (nonempty (strip line)) || full FM_IMAGE (strip line).

(** The lines a test accepts, then the rest. *)
Fixpoint span_lines (p : pystr -> bool) (l : list pystr) : list pystr * list pystr :=
  match l with
  | [] => ([], [])
  | x :: l' => if p x then let '(a, b) := span_lines p l' in (x :: a, b) else ([], l)
  end.

Definition strip_frontmatter (text : pystr) : pystr :=
  let text := match text with 65279 :: rest => rest | _ => text end in
  let '(leading, after) := span_lines skipped (keep_lines false [] text) in
  match after with
  | fence :: rest =>
      if is_fence fence then
        match span_lines (fun l => negb (is_fence l)) rest with
        | (inner, _ :: tail) =>
            let body := List.filter nonempty (strip <$> inner) in
            if negb (bool_decide (body = [])) && forallb (full FM_KEYVAL) body
            then strip (mjoin (leading ++ tail))
            else strip text
        | (_, []) => strip text
        end
      else strip text
  | [] => strip text
  end.

(** ** The tables, and the signals sent once a transaction commits *)

Inductive ChangeType := Created | NewVersion | Overwrite | Append | AppendVersion.

Inductive Event :=
  | DocumentWritten (document : Z) (change : ChangeType) (previous : option Z) (source via : pystr)
  | DocumentArchived (document : Z)
  | DocumentExpired (document : Z)
  | ImageAttached (document image : Z)
  | DocumentMoved (document : Z) (from to_ : option Z).

Record Library := {
  runbooks : Table RunbookRow;
  sections : Table SectionRow;
  documents : Table Document;
  versions : Table DocumentVersion;
  images : Table DocumentImage;
  subscriptions : gset (Z * Z);
  events : list Event;
}.

#[global] Instance eta_library : Eta Library := fun l =>
  Build_Library (runbooks l) (sections l) (documents l) (versions l) (images l) (subscriptions l) (events l).

Definition no_library : Library :=
  {| runbooks := empty_table; sections := empty_table; documents := empty_table; versions := empty_table;
     images := empty_table; subscriptions := ∅; events := [] |}.

Definition emit (e : Event) (l : Library) : Library := l <| events := events l ++ [e] |>.

Definition document_at (pk : Z) (l : Library) : option Document := rows (documents l) !! pk.
Definition version_at (pk : Z) (l : Library) : option DocumentVersion := rows (versions l) !! pk.

(** *** [on_delete] *)

(** [doc.delete()]: with its versions, images and subscriptions. *)
Definition drop_documents (p : Z -> Document -> bool) (l : Library) : Library :=
  let gone pk := match document_at pk l with Some d => p pk d | None => false end in
  l <| documents := delete_rows p (documents l) |>
    <| versions := delete_rows (fun _ vn => gone (vn_document vn)) (versions l) |>
    <| images := delete_rows (fun _ im => gone (im_document im)) (images l) |>
    <| subscriptions := filter (fun x => gone x.1 = false) (subscriptions l) |>.

(** [section.delete()]: its documents stay, outside any section. *)
Definition unfile (gone : Z -> bool) (d : Document) : Document :=
  match dc_section d with Some s => if gone s then d <| dc_section := None |> else d | None => d end.
Definition drop_section (s : Z) (l : Library) : Library :=
  l <| sections := delete_rows (fun s' _ => s' =? s) (sections l) |>
    <| documents := map_rows (unfile (fun s' => s' =? s)) (documents l) |>.

(** [runbook.delete()]: its sections go with it, its documents stay, detached. *)
Definition section_in (rb : Z) (l : Library) (s : Z) : bool :=
  match rows (sections l) !! s with Some sec => sc_runbook sec =? rb | None => false end.
Definition detach (rb : Z) (d : Document) : Document :=
  if bool_decide (dc_runbook d = Some rb) then d <| dc_runbook := None |> else d.
Definition unkey (rb : Z) (d : Document) : Document :=
  if bool_decide (dc_runbook d = Some rb) then d <| dc_key := None |> else d.
Definition drop_runbook (rb : Z) (l : Library) : Library :=
  l <| runbooks := delete_rows (fun pk _ => pk =? rb) (runbooks l) |>
    <| sections := delete_rows (fun _ sec => sc_runbook sec =? rb) (sections l) |>
    <| documents := map_rows (fun d => detach rb (unfile (section_in rb l) d)) (documents l) |>.

(** ** permissions.py *)

(** A user; [None] is no user at all: an internal caller. *)
Record Caller := { cl_id : option Z; cl_staff : bool; cl_superuser : bool }.
Definition Actor : Type := option Caller.

Definition anonymous : Caller := {| cl_id := None; cl_staff := false; cl_superuser := false |}.
Definition caller_of (a : Actor) : Caller := default anonymous a.
Definition actor_id (a : Actor) : option Z := cl_id (caller_of a).

Definition owns (c : Caller) (rb : RunbookRow) : bool :=
  bool_decide (is_Some (rb_owner rb) /\ rb_owner rb = cl_id c).

Definition can_view (c : Caller) (rb : option RunbookRow) : bool :=
  match rb with
  | None => cl_staff c
  | Some rb =>
      if cl_staff c then true
      else if negb (bool_decide (is_Some (cl_id c))) then false
      else if rb_public rb then true else owns c rb
  end.

Definition can_edit (c : Caller) (rb : option RunbookRow) : bool :=
  match rb with
  | None => cl_staff c
  | Some rb => if cl_staff c then true else owns c rb
  end.

Definition runbook_row (pk : Z) (l : Library) : option RunbookRow := rows (runbooks l) !! pk.

Definition runbook_of (d : Document) (l : Library) : option RunbookRow :=
  match dc_runbook d with
  | Some pk => runbook_row pk l
  | None =>
      match dc_section d with
      | Some s => sec ← rows (sections l) !! s; runbook_row (sc_runbook sec) l
      | None => None
      end
  end.

Definition can_view_doc (c : Caller) (d : Document) (l : Library) : bool := can_view c (runbook_of d l).
Definition can_edit_doc (c : Caller) (d : Document) (l : Library) : bool := can_edit c (runbook_of d l).

Definition public_or_own (c : Caller) (rb : option RunbookRow) : bool :=
  match rb with Some rb => rb_public rb || bool_decide (rb_owner rb = cl_id c) | None => false end.

Definition viewable_runbooks (c : Caller) (l : Library) : list (Z * RunbookRow) :=
  if cl_staff c then map_to_list (rows (runbooks l))
  else if negb (bool_decide (is_Some (cl_id c))) then []
  else where_ (fun _ rb => public_or_own c (Some rb)) (runbooks l).

Definition viewable_document (c : Caller) (l : Library) (d : Document) : bool :=
  if cl_staff c then true
  else if negb (bool_decide (is_Some (cl_id c))) then false
  else public_or_own c (pk ← dc_runbook d; runbook_row pk l).
