(* ===== verification/RunbookService.v ===== *)
(** * apps/runbook/service.py: the one write path of the documents, and retention.py

    An operation takes the tables and returns its answer with the tables it
    leaves, or the exception it raises; [after_error] is what an exception
    leaves. [now] is the clock, and the [uid] of a new document is drawn by the
    caller. Strings that go into a column are taken to be encodable. *)
From stdpp Require Import sorting.
From S2P Require Import Prelude PyFloat PyStr Regex PyLib Tables Runbook.
Open Scope Z_scope.

(** ** service.py *)

(** What a [NotAuthorized] says may not be done. *)
Inductive Deed := EditDocument (name : pystr) | AddTo (slug : pystr) | MoveInto (slug : pystr) | Modify (slug : pystr).

Inductive Missing := NoDocument | NoVersion (n : Z) | NoAddress.

(** What an encoding error leaves behind: nothing, the file of a version that
    was opened for writing and so emptied, or a new document without a version. *)
Inductive Torn := Intact | Emptied (version : Z) | RowLeft (document : Document).

(** The service's errors, by what their messages are made of, and below them
    the exceptions no caller of the service expects. *)
Inductive SvcError :=
  | RunbookNotFound (slug : pystr)
  | SectionNotFound (section : option pystr) (slug : pystr)
  | DocumentNotFound (what : Missing)
  | DocumentAlreadyExists (slug key : pystr)
  | RunbookAlreadyExists (slug : pystr)
  | VersionConflict (expected head : Z)
  | DocumentLocked (name : pystr)
  | NotAuthorized (what : Deed)
  | SlugRequired
  | UnknownMode (mode : pystr)
  | NotEncodable (left : Torn)
  | NoHead
  | IntegrityError.

Definition after_error (e : SvcError) (l : Library) : Library :=
  match e with
  | NotEncodable (Emptied v) => l <| versions := update_row v (fun vn => vn <| vn_body := [] |>) (versions l) |>
  | NotEncodable (RowLeft d) => l <| documents := (insert_row d (documents l)).2 |>
  | _ => l
  end.

(** [@transaction.atomic]: the rows are brought back, a file is not. *)
Definition atomic {A} (r : result SvcError A) : result SvcError A :=
  match r with Err (NotEncodable (RowLeft _)) => Err (NotEncodable Intact) | _ => r end.

(** Django's slugs, the database's case-insensitive test and the path the app
    is mounted at. *)
Class RunbookLib := {
  slugify : pystr -> pystr;
  icontains : pystr -> pystr -> bool;
  mount : pystr;
}.

Inductive RunbookRef := BookRow (pk : Z) | BookSlug (slug : pystr).
Inductive SectionRef := SectionPk (pk : Z) | SectionSlug (slug : pystr).

(** A document given as an instance, or by what addresses it. *)
Record Address := { ad_uid : option pystr; ad_id : option Z; ad_runbook : option RunbookRef; ad_key : option pystr }.
Inductive DocRef := Instance (pk : Z) | At (a : Address).

Definition keyed (slug key : pystr) : DocRef :=
  At {| ad_uid := None; ad_id := None; ad_runbook := Some (BookSlug slug); ad_key := Some key |}.

Definition guard (b : bool) (e : SvcError) : result SvcError () := if b then Ok () else Err e.
Definition found {A} (o : option A) (e : SvcError) : result SvcError A := match o with Some x => Ok x | None => Err e end.

Record DocumentResult := {
  dr_id : Z;
  dr_uid : pystr;
  dr_runbook : option pystr;
  dr_key : option pystr;
  dr_title : pystr;
  dr_version : Z;
  dr_source : pystr;
  dr_via : pystr;
  dr_generated : bool;
  dr_archived : bool;
  dr_locked : bool;
  dr_updated_at : Z;
  dr_body : option pystr;
}.

Section Service.
Context `{RunbookLib}.

(** [_resolve_runbook] and [_resolve_section] *)
Definition resolve_runbook (r : RunbookRef) (l : Library) : result SvcError (Z * RunbookRow) :=
  match r with
  | BookRow pk => rb ← found (runbook_row pk l) (RunbookNotFound []); Ok (pk, rb)
  | BookSlug slug => found (first_where (fun _ rb => str_eqb (rb_slug rb) slug) (runbooks l)) (RunbookNotFound slug)
  end.

Definition resolve_section (rb : Z * RunbookRow) (s : option SectionRef) (l : Library) : result SvcError (option Z) :=
  match s with
  | None => Ok None
  | Some (SectionPk pk) =>
      sec ← found (rows (sections l) !! pk) (SectionNotFound None (rb_slug rb.2));
      _ ← guard (sc_runbook sec =? rb.1) (SectionNotFound None (rb_slug rb.2));
      Ok (Some pk)
  | Some (SectionSlug slug) =>
      x ← found (first_where (fun _ sec => (sc_runbook sec =? rb.1) && str_eqb (sc_slug sec) slug) (sections l))
            (SectionNotFound (Some slug) (rb_slug rb.2));
      Ok (Some x.1)
  end.

(** [read_head] *)
Definition read_head (d : Document) (l : Library) : pystr :=
  match dc_current d with Some v => default [] (vn_body <$> version_at v l) | None => [] end.

Definition result_of (pk : Z) (d : Document) (with_body : bool) (l : Library) : DocumentResult :=
  {| dr_id := pk; dr_uid := dc_uid d; dr_runbook := rb_slug <$> (r ← dc_runbook d; runbook_row r l); dr_key := dc_key d;
     dr_title := dc_title d; dr_version := dc_version d; dr_source := dc_source d; dr_via := dc_via d;
     dr_generated := dc_generated d; dr_archived := dc_archived d; dr_locked := dc_locked d;
     dr_updated_at := dc_updated_at d; dr_body := if with_body then Some (read_head d l) else None |}.

(** The result of a document that was just written. *)
Definition result_at (pk : Z) (l : Library) : result SvcError DocumentResult :=
  d ← found (document_at pk l) (DocumentNotFound NoDocument); Ok (result_of pk d false l).

Definition doc_name (d : Document) : pystr :=
  match dc_key d with Some k => if nonempty k then k else dc_uid d | None => dc_uid d end.

(** [_check_writable] *)
Definition check_writable (d : Document) (actor : Actor) (bypass_lock : bool) (l : Library) : result SvcError () :=
  let trusted := bool_decide (actor = None) || bypass_lock in
  _ ← (if negb trusted && negb (can_edit_doc (caller_of actor) d l)
       then if negb (can_view_doc (caller_of actor) d l) then Err (DocumentNotFound NoDocument)
            else Err (NotAuthorized (EditDocument (doc_name d)))
       else Ok ());
  guard (negb (dc_locked d && negb bypass_lock && negb (cl_superuser (caller_of actor)))) (DocumentLocked (doc_name d)).

(** [Document.create_new_version]: the next version, and the head moved to it. *)
Definition next_number (d : Document) (l : Library) : Z :=
  match dc_current d with Some v => default 0 (vn_number <$> version_at v l) + 1 | None => 1 end.

Definition sync_head (v : Z) (vn : DocumentVersion) (now : Z) (d : Document) : Document :=
  d <| dc_current := Some v |> <| dc_version := vn_number vn |> <| dc_text := vn_text vn |> <| dc_updated_at := now |>.

Definition create_new_version (pk : Z) (body : pystr) (created_by : option Z) (description source via : pystr)
    (now : Z) (l : Library) : result SvcError Library :=
  d ← found (document_at pk l) (DocumentNotFound NoDocument);
  _ ← guard (encodable body) (NotEncodable Intact);
  let n := next_number d l in
  _ ← guard (bool_decide (where_ (fun _ vn => (vn_document vn =? pk) && (vn_number vn =? n)) (versions l) = [])) IntegrityError;
  let vn := {| vn_document := pk; vn_number := n; vn_body := body; vn_text := strip_frontmatter body; vn_title := dc_title d;
               vn_description := description; vn_source := source; vn_via := via; vn_created_by := created_by;
               vn_created_at := now |} in
  let '(v, vs) := insert_row vn (versions l) in
  Ok (l <| versions := vs |> <| documents := update_row pk (sync_head v vn now) (documents l) |>).

(** [_overwrite_head] *)
Definition overwrite_head (pk : Z) (body source via : pystr) (now : Z) (l : Library) : result SvcError Library :=
  d ← found (document_at pk l) (DocumentNotFound NoDocument);
  v ← found (dc_current d) NoHead;
  _ ← guard (encodable body) (NotEncodable (Emptied v));
  let f vn := vn <| vn_body := body |> <| vn_text := strip_frontmatter body |>
                 <| vn_source := if nonempty source then source else vn_source vn |> <| vn_via := via |> in
  Ok (l <| versions := update_row v f (versions l) |>
        <| documents := update_row pk (fun d => d <| dc_text := strip_frontmatter body |> <| dc_updated_at := now |>) (documents l) |>).

(** The modes, as the strings callers pass. *)
Inductive WriteMode := MNewVersion | MOverwrite | MAppend | MAppendVersion.
Definition mode_of (mode : pystr) : option WriteMode :=
  if str_eqb mode (u "new_version") then Some MNewVersion
  else if str_eqb mode (u "overwrite") then Some MOverwrite
  else if str_eqb mode (u "append") then Some MAppend
  else if str_eqb mode (u "append_version") then Some MAppendVersion else None.

Definition NEWLINE : pystr := [10].
Definition appended (head body : pystr) : pystr :=
  lstrip_chars NEWLINE (rstrip head ++ NEWLINE ++ NEWLINE ++ strip body ++ NEWLINE).

(** [write_version] *)
Definition write_version (pk : Z) (body mode description source via : pystr) (actor : Actor) (bypass_lock : bool)
    (now : Z) (l : Library) : result SvcError Library :=
  d ← found (document_at pk l) (DocumentNotFound NoDocument);
  _ ← check_writable d actor bypass_lock l;
  match mode_of mode with
  | None => Err (UnknownMode mode)
  | Some MNewVersion =>
      l' ← create_new_version pk body (actor_id actor) description source via now l;
      Ok (emit (DocumentWritten pk NewVersion (dc_current d) source via) l')
  | Some MOverwrite =>
      l' ← overwrite_head pk body source via now l; Ok (emit (DocumentWritten pk Overwrite None source via) l')
  | Some MAppend =>
      l' ← overwrite_head pk (appended (read_head d l) body) source via now l;
      Ok (emit (DocumentWritten pk Append None source via) l')
  | Some MAppendVersion =>
      l' ← create_new_version pk (appended (read_head d l) body) (actor_id actor) description source via now l;
      Ok (emit (DocumentWritten pk AppendVersion (dc_current d) source via) l')
  end.

(** Where a caller may not edit a runbook: hidden when it may not view it. *)
Definition may_edit_runbook (rb : RunbookRow) (deed : pystr -> Deed) (actor : Actor) : result SvcError () :=
  if negb (bool_decide (actor = None)) && negb (can_edit (caller_of actor) (Some rb))
  then if negb (can_view (caller_of actor) (Some rb)) then Err (RunbookNotFound (rb_slug rb))
       else Err (NotAuthorized (deed (rb_slug rb)))
  else Ok ().

(** [create_document]. The new row's [uid] is drawn by the caller. *)
Definition new_document (uid : pystr) (rb : Z) (section : option Z) (key : option pystr) (title description source via : pystr)
    (generated : bool) (doc_type : pystr) (locked : bool) (created_by : option Z) (now : Z) : Document :=
  {| dc_uid := uid; dc_runbook := Some rb; dc_section := section; dc_key := key; dc_slug := slugify title; dc_title := title;
     dc_description := description; dc_current := None; dc_version := 1; dc_text := []; dc_generated := generated;
     dc_template := false; dc_type := doc_type; dc_source := source; dc_via := via; dc_created_by := created_by;
     dc_archived := false; dc_archived_at := None; dc_locked := locked; dc_max_versions := None;
     dc_max_version_age_days := None; dc_ttl_days := None; dc_on_expire := ArchiveIt; dc_created_at := now;
     dc_updated_at := now |}.

(** The unique columns of a document: [uid], and [key] in a runbook. *)
Definition same_place (d d' : Document) : bool :=
  bool_decide (is_Some (dc_runbook d) /\ is_Some (dc_key d) /\ dc_runbook d = dc_runbook d' /\ dc_key d = dc_key d').
Definition clashes (pk : Z) (d : Document) (l : Library) : bool :=
  negb (bool_decide (where_ (fun pk' d' => negb (pk' =? pk) && (str_eqb (dc_uid d) (dc_uid d') || same_place d d')) (documents l) = [])).

Definition insert_document (d : Document) (l : Library) : result SvcError (Z * Library) :=
  let '(pk, ds) := insert_row d (documents l) in
  _ ← guard (negb (clashes pk d l)) IntegrityError;
  Ok (pk, l <| documents := ds |>).

Definition create_document (r : RunbookRef) (uid body title : pystr) (key : option pystr) (section : option SectionRef)
    (description source via : pystr) (generated : bool) (doc_type : pystr) (locked : bool) (actor : Actor) (now : Z)
    (l : Library) : result SvcError (Z * Library) :=
  rb ← resolve_runbook r l;
  _ ← may_edit_runbook rb.2 AddTo actor;
  sec ← resolve_section rb section l;
  let d := new_document uid rb.1 sec key title description source via generated doc_type locked (actor_id actor) now in
  '(pk, l1) ← insert_document d l;
  _ ← guard (encodable body) (NotEncodable (RowLeft d));
  l2 ← create_new_version pk body (actor_id actor) [] source via now l1;
  Ok (pk, emit (DocumentWritten pk Created None source via) l2).

(** [_get_doc]; [viewer] is set for an interactive caller. *)
Definition get_doc (a : Address) (viewer : Actor) (l : Library) : result SvcError (Z * Document) :=
  x ← (match ad_uid a, ad_id a, ad_runbook a, ad_key a with
       | Some uid, _, _, _ =>
           found (first_where (fun _ d => str_eqb (dc_uid d) uid) (documents l)) (DocumentNotFound NoDocument)
       | None, Some id, _, _ => d ← found (document_at id l) (DocumentNotFound NoDocument); Ok (id, d)
       | None, None, Some r, Some key =>
           rb ← resolve_runbook r l;
           found (first_where (fun _ d => bool_decide (dc_runbook d = Some rb.1) && bool_decide (dc_key d = Some key)) (documents l))
             (DocumentNotFound NoDocument)
       | _, _, _, _ => Err (DocumentNotFound NoAddress)
       end);
  _ ← guard (bool_decide (viewer = None) || can_view_doc (caller_of viewer) x.2 l) (DocumentNotFound NoDocument);
  Ok x.

Definition doc_of (r : DocRef) (l : Library) : result SvcError (Z * Document) :=
  match r with
  | Instance pk => d ← found (document_at pk l) (DocumentNotFound NoDocument); Ok (pk, d)
  | At a => get_doc a None l
  end.

(** [archive_document] and [unarchive_document] *)
Definition save_document (pk : Z) (f : Document -> Document) (now : Z) (l : Library) : Library :=
  l <| documents := update_row pk (fun d => f d <| dc_updated_at := now |>) (documents l) |>.

Definition archive_document (r : DocRef) (actor : Actor) (bypass_lock : bool) (now : Z) (l : Library)
    : result SvcError (DocumentResult * Library) :=
  x ← doc_of r l;
  _ ← check_writable x.2 actor bypass_lock l;
  let l' := if dc_archived x.2 then l
            else emit (DocumentArchived x.1)
                   (save_document x.1 (fun d => d <| dc_archived := true |> <| dc_archived_at := Some now |>) now l) in
  res ← result_at x.1 l'; Ok (res, l').

Definition unarchive_document (r : DocRef) (actor : Actor) (bypass_lock : bool) (now : Z) (l : Library)
    : result SvcError (DocumentResult * Library) :=
  x ← doc_of r l;
  _ ← check_writable x.2 actor bypass_lock l;
  let l' := if dc_archived x.2
            then save_document x.1 (fun d => d <| dc_archived := false |> <| dc_archived_at := None |>) now l else l in
  res ← result_at x.1 l'; Ok (res, l').

(** [restore_version]. The answer is the document's key. *)
Definition restore_version (r : DocRef) (version : Z) (via : pystr) (actor : Actor) (bypass_lock : bool) (now : Z)
    (l : Library) : result SvcError (Z * Library) :=
  x ← doc_of r l;
  old ← found (first_where (fun _ vn => (vn_document vn =? x.1) && (vn_number vn =? version)) (versions l))
          (DocumentNotFound (NoVersion version));
  l' ← write_version x.1 (vn_body old.2) (u "new_version") (u "Restored from version " ++ str_of_Z version) [] via
         actor bypass_lock now l;
  Ok (x.1, l').

Definition delete_document (r : DocRef) (force : bool) (actor : Actor) (bypass_lock : bool) (now : Z) (l : Library)
    : result SvcError Library :=
  x ← doc_of r l;
  _ ← check_writable x.2 actor bypass_lock l;
  if force then Ok (drop_documents (fun pk _ => pk =? x.1) l)
  else snd <$> archive_document (Instance x.1) actor bypass_lock now l.

(** [put_document] *)
Record Put := {
  pt_body : pystr;
  pt_title : option pystr;
  pt_section : option SectionRef;
  pt_on_exists : pystr;
  pt_expected : option Z;
  pt_source : pystr;
  pt_via : pystr;
  pt_generated : bool;
  pt_doc_type : pystr;
  pt_locked : option bool;
}.

Definition or_else (s : option pystr) (alternative : pystr) : pystr :=
  match s with Some s => if nonempty s then s else alternative | None => alternative end.

Definition find_keyed (rb : Z) (key : pystr) (l : Library) : option (Z * Document) :=
  first_where (fun _ d => bool_decide (dc_runbook d = Some rb) && bool_decide (dc_key d = Some key)) (documents l).

(** The metadata of an existing document, saved when any of it changes. *)
Definition put_metadata (rb : Z * RunbookRow) (p : Put) (pk : Z) (d : Document) (now : Z) (l : Library)
    : result SvcError Library :=
  sec ← resolve_section rb (pt_section p) l;
  let retitled := match pt_title p with Some t => negb (str_eqb t (dc_title d)) | None => false end in
  let relocked := match pt_locked p with Some b => negb (Bool.eqb b (dc_locked d)) | None => false end in
  let resectioned := bool_decide (is_Some (pt_section p)) in
  if retitled || resectioned || relocked
  then Ok (save_document pk (fun d => d <| dc_title := default (dc_title d) (pt_title p) |>
                                        <| dc_section := if resectioned then sec else dc_section d |>
                                        <| dc_locked := default (dc_locked d) (pt_locked p) |>) now l)
  else Ok l.

Definition put_document (r : RunbookRef) (key : pystr) (p : Put) (uid : pystr) (actor : Actor) (bypass_lock : bool)
    (now : Z) (l : Library) : result SvcError (DocumentResult * Library) :=
  rb ← resolve_runbook r l;
  atomic
    match find_keyed rb.1 key l with
    | None =>
        '(pk, l') ← create_document (BookRow rb.1) uid (pt_body p) (or_else (pt_title p) key) (Some key) (pt_section p) []
                      (pt_source p) (pt_via p) (pt_generated p) (pt_doc_type p) (default false (pt_locked p)) actor now l;
        res ← result_at pk l'; Ok (res, l')
    | Some (pk, d) =>
        _ ← check_writable d actor bypass_lock l;
        _ ← guard (negb (str_eqb (pt_on_exists p) (u "fail"))) (DocumentAlreadyExists (rb_slug rb.2) key);
        _ ← match pt_expected p with Some n => guard (dc_version d =? n) (VersionConflict n (dc_version d)) | None => Ok () end;
        l1 ← put_metadata rb p pk d now l;
        l2 ← write_version pk (pt_body p) (pt_on_exists p) [] (pt_source p) (pt_via p) actor bypass_lock now l1;
        res ← result_at pk l2; Ok (res, l2)
    end.

(** [append_to_document] and [append_version] *)
Definition with_mode (mode : pystr) (p : Put) : Put :=
  {| pt_body := pt_body p; pt_title := pt_title p; pt_section := pt_section p; pt_on_exists := mode;
     pt_expected := pt_expected p; pt_source := pt_source p; pt_via := pt_via p; pt_generated := pt_generated p;
     pt_doc_type := pt_doc_type p; pt_locked := pt_locked p |}.
Definition append_to_document (r : RunbookRef) (key : pystr) (p : Put) := put_document r key (with_mode (u "append") p).
Definition append_version (r : RunbookRef) (key : pystr) (p : Put) := put_document r key (with_mode (u "append_version") p).

(** [get_document] *)
Definition get_document (a : Address) (with_body : bool) (viewer : Actor) (l : Library) : result SvcError DocumentResult :=
  x ← get_doc a viewer l; Ok (result_of x.1 x.2 with_body l).

(** [move_document] *)
Definition move_document (r : DocRef) (to_runbook : option RunbookRef) (to_section : option SectionRef) (actor : Actor)
    (bypass_lock : bool) (now : Z) (l : Library) : result SvcError (DocumentResult * Library) :=
  x ← doc_of r l;
  _ ← check_writable x.2 actor bypass_lock l;
  place ← match to_runbook with
          | None => Ok (None, None, None)
          | Some target =>
              rb ← resolve_runbook target l;
              _ ← (if bypass_lock then Ok () else may_edit_runbook rb.2 MoveInto actor);
              sec ← resolve_section rb to_section l;
              _ ← match dc_key x.2 with
                  | Some key =>
                      guard (negb (nonempty key) || bool_decide
                        (where_ (fun pk d => bool_decide (dc_runbook d = Some rb.1) && bool_decide (dc_key d = Some key) &&
                                             negb (pk =? x.1)) (documents l) = []))
                        (DocumentAlreadyExists (rb_slug rb.2) key)
                  | None => Ok ()
                  end;
              Ok (Some rb.1, sec, dc_key x.2)
          end;
  let '(rb, sec, key) := place in
  let f d := d <| dc_runbook := rb |> <| dc_section := sec |> <| dc_key := key |> in
  _ ← guard (negb (clashes x.1 (f x.2) l)) IntegrityError;
  let l' := emit (DocumentMoved x.1 (dc_runbook x.2) rb) (save_document x.1 f now l) in
  res ← result_at x.1 l'; Ok (res, l').

(** [list_documents]: the newest first, as the model orders them. *)
Record DocumentSummary := {
  ds_id : Z;
  ds_uid : pystr;
  ds_runbook : option pystr;
  ds_key : option pystr;
  ds_title : pystr;
  ds_version : Z;
  ds_source : pystr;
  ds_generated : bool;
  ds_archived : bool;
  ds_updated_at : Z;
}.

Definition summary_of (l : Library) (x : Z * Document) : DocumentSummary :=
  {| ds_id := x.1; ds_uid := dc_uid x.2; ds_runbook := rb_slug <$> (r ← dc_runbook x.2; runbook_row r l);
     ds_key := dc_key x.2; ds_title := dc_title x.2; ds_version := dc_version x.2; ds_source := dc_source x.2;
     ds_generated := dc_generated x.2; ds_archived := dc_archived x.2; ds_updated_at := dc_updated_at x.2 |}.

Definition newest_first (x y : Z * Document) : Prop := dc_updated_at y.2 <= dc_updated_at x.2.
#[export] Instance newest_first_dec x y : Decision (newest_first x y) := decide (_ <= _).

Definition viewer_sees (viewer : Actor) (l : Library) (d : Document) : bool :=
  match viewer with Some c => viewable_document c l d | None => true end.
Definition in_section (s : option SectionRef) (l : Library) (d : Document) : bool :=
  match s with
  | None => true
  | Some (SectionPk pk) => bool_decide (dc_section d = Some pk)
  | Some (SectionSlug slug) => bool_decide ((s ← dc_section d; sc_slug <$> rows (sections l) !! s) = Some slug)
  end.
Definition in_runbook (rb : option Z) (d : Document) : bool :=
  match rb with Some rb => bool_decide (dc_runbook d = Some rb) | None => true end.
Definition equals (wanted : option pystr) (s : pystr) : bool :=
  match wanted with Some w => negb (nonempty w) || str_eqb s w | None => true end.
Definition mentions (query : option pystr) (d : Document) : bool :=
  match query with
  | Some q => negb (nonempty q) || icontains q (dc_title d) || icontains q (dc_text d)
  | None => true
  end.

(** A runbook given as a filter, looked up. *)
Definition scope_of (r : option RunbookRef) (l : Library) : result SvcError (option Z) :=
  match r with Some r => rb ← resolve_runbook r l; Ok (Some rb.1) | None => Ok None end.

Definition list_documents (r : option RunbookRef) (s : option SectionRef) (source doc_type query : option pystr)
    (include_archived : bool) (viewer : Actor) (l : Library) : result SvcError (list DocumentSummary) :=
  rb ← scope_of r l;
  let keep (_ : Z) d := viewer_sees viewer l d && (include_archived || negb (dc_archived d)) && in_runbook rb d && in_section s l d &&
                        equals source (dc_source d) && equals doc_type (dc_type d) && mentions query d in
  Ok (summary_of l <$> merge_sort newest_first (where_ keep (documents l))).

(** [search_documents], given the hits of the search engine, most relevant
    first; [None] where there is no engine. *)
Definition search_documents (hits : option (list Z)) (viewer : Actor) (r : option RunbookRef) (source : option pystr)
    (l : Library) : result SvcError (option (list DocumentSummary)) :=
  match hits with
  | None => Ok None
  | Some hits =>
      rb ← scope_of r l;
      let keep d := negb (dc_archived d) && viewer_sees viewer l d && in_runbook rb d && equals source (dc_source d) in
      Ok (Some (omap (fun pk => d ← document_at pk l; if keep d then Some (summary_of l (pk, d)) else None) hits))
  end.

(** ** Runbooks and sections *)

Definition slug_free (slug : pystr) (l : Library) : bool :=
  bool_decide (where_ (fun _ rb => str_eqb (rb_slug rb) slug) (runbooks l) = []).

Definition insert_runbook (rb : RunbookRow) (l : Library) : result SvcError (Z * Library) :=
  _ ← guard (slug_free (rb_slug rb) l) IntegrityError;
  let '(pk, rbs) := insert_row rb (runbooks l) in Ok (pk, l <| runbooks := rbs |>).

Definition create_runbook (slug : pystr) (name : option pystr) (description : pystr) (owner : Actor) (public : bool)
    (l : Library) : result SvcError (Z * Library) :=
  let slug := slugify slug in
  _ ← guard (nonempty slug) SlugRequired;
  _ ← guard (slug_free slug l) (RunbookAlreadyExists slug);
  insert_runbook {| rb_name := or_else name slug; rb_slug := slug; rb_description := description; rb_icon := [];
                    rb_owner := actor_id owner; rb_public := public; rb_template := false; rb_max_versions := None;
                    rb_max_version_age_days := None; rb_ttl_days := None |} l.

(** [Section.save]: an empty slug is made from the name, each time; a slug the
    runbook has in another section is for the database to refuse. *)
Definition saved_slug (sec : SectionRow) : SectionRow :=
  if nonempty (sc_slug sec) then sec
  else {| sc_runbook := sc_runbook sec; sc_name := sc_name sec; sc_slug := slugify (sc_name sec);
          sc_description := sc_description sec; sc_icon := sc_icon sec; sc_order := sc_order sec |}.
Definition section_free (pk : option Z) (sec : SectionRow) (l : Library) : bool :=
  bool_decide (where_ (fun k x => negb (bool_decide (pk = Some k)) && (sc_runbook x =? sc_runbook sec)
                                  && str_eqb (sc_slug x) (sc_slug sec)) (sections l) = []).
Definition insert_section (sec : SectionRow) (l : Library) : result SvcError (Z * Library) :=
  let sec := saved_slug sec in
  _ ← guard (section_free None sec l) IntegrityError;
  let '(pk, ss) := insert_row sec (sections l) in Ok (pk, l <| sections := ss |>).
Definition save_section (pk : Z) (sec : SectionRow) (l : Library) : result SvcError Library :=
  let sec := saved_slug sec in
  _ ← guard (section_free (Some pk) sec l) IntegrityError;
  Ok (l <| sections := update_row pk (fun _ => sec) (sections l) |>).

(** [create_section]: [get_or_create] by slug. *)
Definition create_section (r : RunbookRef) (slug : pystr) (name : option pystr) (order : Z) (actor : Actor) (l : Library)
    : result SvcError (Z * Library) :=
  rb ← resolve_runbook r l;
  _ ← may_edit_runbook rb.2 Modify actor;
  let slug := slugify slug in
  _ ← guard (nonempty slug) SlugRequired;
  match first_where (fun _ sec => (sc_runbook sec =? rb.1) && str_eqb (sc_slug sec) slug) (sections l) with
  | Some x => Ok (x.1, l)
  | None => insert_section {| sc_runbook := rb.1; sc_name := or_else name slug; sc_slug := slug; sc_description := [];
                              sc_icon := []; sc_order := order |} l
  end.

Definition set_runbook_public (r : RunbookRef) (public : bool) (actor : Actor) (l : Library) : result SvcError (Z * Library) :=
  rb ← resolve_runbook r l;
  _ ← may_edit_runbook rb.2 Modify actor;
  Ok (rb.1, if Bool.eqb (rb_public rb.2) public then l
            else l <| runbooks := update_row rb.1 (fun rb => rb <| rb_public := public |>) (runbooks l) |>).

(** ** Cloning *)

(** [_unique_slug]; one more try than there are runbooks is enough. *)
Definition numbered (base : pystr) (n : Z) : pystr := base ++ u "-" ++ str_of_Z n.
Fixpoint free_slug (fuel : nat) (base : pystr) (counter : Z) (slug : pystr) (l : Library) : option pystr :=
  if slug_free slug l then Some slug
  else match fuel with
       | O => None
       | S fuel => free_slug fuel base (counter + 1) (numbered base counter) l
       end.
Definition unique_slug (base : pystr) (l : Library) : option pystr :=
  let base := if nonempty base then base else u "runbook" in
  free_slug (size (rows (runbooks l))) base 2 base l.

(** The path that serves an image. *)
Definition serve_url (pk : Z) : pystr := mount ++ u "images/" ++ str_of_Z pk ++ u "/".

(** [attach_image], given the name and the bytes of the file. *)
Definition attach_image (r : DocRef) (name : pystr) (data : list Z) (alt : pystr) (actor : Actor) (l : Library)
    : result SvcError (Z * pystr * Library) :=
  x ← doc_of r l;
  let '(pk, ims) := insert_row {| im_document := x.1; im_ext := stored_ext name; im_data := data; im_alt := alt;
                                  im_uploaded_by := actor_id actor |} (images l) in
  Ok (pk, u "![" ++ alt ++ u "](" ++ serve_url pk ++ u ")", emit (ImageAttached x.1 pk) (l <| images := ims |>)).

Definition later_pk {A} (x y : Z * A) : Prop := y.1 <= x.1.
#[export] Instance later_pk_dec {A} (x y : Z * A) : Decision (later_pk x y) := decide (_ <= _).

(** [document.images.all()]: the newest first. *)
Definition images_of (pk : Z) (l : Library) : list (Z * DocumentImage) :=
  merge_sort later_pk (where_ (fun _ im => im_document im =? pk) (images l)).

(** [clone_referenced_images] *)
Definition clone_image (target : Z) (actor : Actor) (bl : pystr * Library) (x : Z * DocumentImage) : pystr * Library :=
  let '(body, l) := bl in
  if contains (serve_url x.1) body then
    let '(pk, ims) := insert_row {| im_document := target; im_ext := stored_ext (im_ext x.2); im_data := im_data x.2;
                                    im_alt := im_alt x.2; im_uploaded_by := actor_id actor |} (images l) in
    (replace (serve_url x.1) (serve_url pk) body, l <| images := ims |>)
  else (body, l).
Definition clone_referenced_images (body : pystr) (source target : Z) (actor : Actor) (l : Library) : pystr * Library :=
  foldl (clone_image target actor) (body, l) (images_of source l).

(** [list_template_documents], with what they are ordered by. *)
Definition is_template_document (l : Library) (d : Document) : bool :=
  negb (dc_archived d) &&
  (dc_template d || match (r ← dc_runbook d; runbook_row r l) with Some rb => rb_template rb | None => false end).
Definition by_runbook_name (l : Library) (x y : Z * Document) : Prop :=
  let name z := rb_name <$> (r ← dc_runbook z.2; runbook_row r l) in
  match name x, name y with
  | None, Some _ => True
  | Some _, None => False
  | None, None => str_ltb (dc_title y.2) (dc_title x.2) = false
  | Some a, Some b => str_ltb a b = true \/ a = b /\ str_ltb (dc_title y.2) (dc_title x.2) = false
  end.
#[export] Instance by_runbook_name_dec l x y : Decision (by_runbook_name l x y).
Proof. unfold by_runbook_name. repeat case_match; apply _. Defined.
Definition list_template_documents (viewer : Actor) (l : Library) : list (Z * Document) :=
  merge_sort (by_runbook_name l) (where_ (fun _ d => is_template_document l d && viewer_sees viewer l d) (documents l)).

(** The copy of a body's images, and the body rewritten to them when that
    changes it. *)
Definition own_images (body : pystr) (source target : Z) (via : pystr) (actor : Actor) (now : Z) (l : Library)
    : result SvcError Library :=
  let '(rewritten, l') := clone_referenced_images body source target actor l in
  if str_eqb rewritten body then Ok l'
  else write_version target rewritten (u "overwrite") [] [] via actor false now l'.

Definition create_from_template (r : RunbookRef) (uid title : pystr) (template : Z) (section : option SectionRef)
    (description : pystr) (actor : Actor) (now : Z) (l : Library) : result SvcError (Z * Library) :=
  rb ← resolve_runbook r l;
  t ← found (document_at template l) (DocumentNotFound NoDocument);
  let head := read_head t l in
  let body := if nonempty head then head else u "# " ++ title ++ NEWLINE ++ NEWLINE in
  '(pk, l1) ← create_document (BookRow rb.1) uid body title None section description [] (u "web") false (dc_type t) false actor now l;
  l2 ← own_images body template pk (u "web") actor now l1;
  Ok (pk, l2).

Definition copy_document (source : DocRef) (viewer : Actor) (to_runbook : RunbookRef) (to_key : pystr) (title : option pystr)
    (section : option SectionRef) (on_exists via uid : pystr) (actor : Actor) (now : Z) (l : Library)
    : result SvcError (DocumentResult * Library) :=
  src ← match source with Instance _ => doc_of source l | At a => get_doc a viewer l end;
  rb ← resolve_runbook to_runbook l;
  let body := read_head src.2 l in
  '(res, l1) ← put_document (BookSlug (rb_slug rb.2)) to_key
                 {| pt_body := body; pt_title := Some (or_else title (dc_title src.2)); pt_section := section;
                    pt_on_exists := on_exists; pt_expected := None; pt_source := dc_source src.2; pt_via := via;
                    pt_generated := true; pt_doc_type := dc_type src.2; pt_locked := None |} uid actor false now l;
  target ← found (first_where (fun _ d => str_eqb (dc_uid d) (dr_uid res)) (documents l1)) (DocumentNotFound NoDocument);
  l2 ← own_images body src.1 target.1 via actor now l1;
  res' ← result_at target.1 l2;
  Ok (res', l2).

(** [clone_runbook]: the sections in their order, then the documents by key. *)
Definition by_order (x y : Z * SectionRow) : Prop :=
  sc_order x.2 < sc_order y.2 \/ sc_order x.2 = sc_order y.2 /\ str_ltb (sc_name y.2) (sc_name x.2) = false.
#[export] Instance by_order_dec x y : Decision (by_order x y).
Proof. unfold by_order. apply _. Defined.
Definition earlier_pk {A} (x y : Z * A) : Prop := x.1 <= y.1.
#[export] Instance earlier_pk_dec {A} (x y : Z * A) : Decision (earlier_pk x y) := decide (_ <= _).

Definition sections_of (rb : Z) (l : Library) : list (Z * SectionRow) :=
  merge_sort by_order (where_ (fun _ sec => sc_runbook sec =? rb) (sections l)).

Fixpoint clone_sections (target : Z) (m : gmap Z Z) (l : Library) (xs : list (Z * SectionRow))
    : result SvcError (gmap Z Z * Library) :=
  match xs with
  | [] => Ok (m, l)
  | (s, sec) :: xs =>
      '(pk, l') ← insert_section {| sc_runbook := target; sc_name := sc_name sec; sc_slug := sc_slug sec;
                                    sc_description := sc_description sec; sc_icon := sc_icon sec; sc_order := sc_order sec |} l;
      clone_sections target (<[s := pk]> m) l' xs
  end.

Definition clone_document (target : Z) (m : gmap Z Z) (copy_locked : bool) (uid : Z -> pystr) (actor : Actor) (now : Z)
    (l : Library) (x : Z * Document) : result SvcError Library :=
  let d := x.2 in
  '(pk, l1) ← insert_document
    {| dc_uid := uid x.1; dc_runbook := Some target; dc_section := s ← dc_section d; m !! s; dc_key := dc_key d;
       dc_slug := if nonempty (dc_slug d) then dc_slug d else slugify (dc_title d); dc_title := dc_title d;
       dc_description := dc_description d; dc_current := None; dc_version := 1; dc_text := []; dc_generated := dc_generated d;
       dc_template := false; dc_type := dc_type d; dc_source := dc_source d; dc_via := u "clone"; dc_created_by := actor_id actor;
       dc_archived := false; dc_archived_at := None; dc_locked := dc_locked d && copy_locked; dc_max_versions := None;
       dc_max_version_age_days := None; dc_ttl_days := None; dc_on_expire := ArchiveIt; dc_created_at := now;
       dc_updated_at := now |} l;
  let '(body, l2) := clone_referenced_images (read_head d l1) x.1 pk actor l1 in
  create_new_version pk body (actor_id actor) [] (dc_source d) (u "clone") now l2.

Fixpoint each {A} (f : Library -> A -> result SvcError Library) (l : Library) (xs : list A) : result SvcError Library :=
  match xs with [] => Ok l | x :: xs => l' ← f l x; each f l' xs end.

Definition clone_runbook (source : RunbookRef) (new_slug new_name : option pystr) (as_template copy_locked : bool)
    (uid : Z -> pystr) (actor owner : Actor) (now : Z) (l : Library) : result SvcError (Z * Library) :=
  src ← resolve_runbook source l;
  atomic (
    let base := match new_name with Some n => if nonempty n then slugify n else rb_slug src.2 | None => rb_slug src.2 end in
    let slug := or_else new_slug (default [] (unique_slug base l)) in
    '(target, l1) ← insert_runbook
      {| rb_name := or_else new_name (rb_name src.2); rb_slug := slug; rb_description := rb_description src.2;
         rb_icon := rb_icon src.2; rb_owner := actor_id owner; rb_public := false; rb_template := as_template;
         rb_max_versions := rb_max_versions src.2; rb_max_version_age_days := rb_max_version_age_days src.2;
         rb_ttl_days := rb_ttl_days src.2 |} l;
    '(m, l2) ← clone_sections target ∅ l1 (sections_of src.1 l1);
    let docs := merge_sort earlier_pk
      (where_ (fun _ d => bool_decide (dc_runbook d = Some src.1) && negb (dc_archived d)) (documents l2)) in
    l3 ← each (clone_document target m copy_locked uid actor now) l2 docs;
    Ok (target, l3)).
End Service.

(** * apps/runbook/retention.py: how long versions and documents are kept

    With conf.py, the receivers of [document_written] and the tasks they
    enqueue. Times are microseconds since 0001-01-01; [now] is the clock. *)

(** conf.py: the defaults of generated documents; the others have none. *)
Record Settings := {
  GENERATED_MAX_VERSIONS : option Z;
  GENERATED_MAX_VERSION_AGE_DAYS : option Z;
  GENERATED_TTL_DAYS : option Z;
}.
Definition DEFAULTS : Settings :=
  {| GENERATED_MAX_VERSIONS := Some 100; GENERATED_MAX_VERSION_AGE_DAYS := None; GENERATED_TTL_DAYS := None |}.
Definition global_max_versions (s : Settings) (generated : bool) : option Z :=
  if generated then GENERATED_MAX_VERSIONS s else None.
Definition global_max_version_age_days (s : Settings) (generated : bool) : option Z :=
  if generated then GENERATED_MAX_VERSION_AGE_DAYS s else None.
Definition global_ttl_days (s : Settings) (generated : bool) : option Z :=
  if generated then GENERATED_TTL_DAYS s else None.

Record RetentionPolicy := {
  rp_max_versions : option Z;
  rp_max_version_age_days : option Z;
  rp_ttl_days : option Z;
  rp_on_expire : ExpireAction;
}.

(** [effective_policy] *)
Definition resolve (doc_value : option Z) (rb_value : option (option Z)) (global_value : option Z) : option Z :=
  match doc_value with
  | Some v => Some v
  | None => match rb_value with Some (Some v) => Some v | _ => global_value end
  end.

Definition effective_policy (s : Settings) (d : Document) (l : Library) : RetentionPolicy :=
  let rb := r ← dc_runbook d; runbook_row r l in
  let gen := dc_generated d in
  {| rp_max_versions := resolve (dc_max_versions d) (rb_max_versions <$> rb) (global_max_versions s gen);
     rp_max_version_age_days :=
       resolve (dc_max_version_age_days d) (rb_max_version_age_days <$> rb) (global_max_version_age_days s gen);
     rp_ttl_days := resolve (dc_ttl_days d) (rb_ttl_days <$> rb) (global_ttl_days s gen);
     rp_on_expire := dc_on_expire d |}.

(** [now - timedelta(days=days)], [None] for an [OverflowError]. *)
Definition DAY : Z := 86400 * 1000000.
Definition LAST_INSTANT : Z := 3652059 * DAY - 1.
Definition days_before (now days : Z) : option Z :=
  let t := now - days * DAY in
  if (Z.abs days <=? 999999999) && (0 <=? t) && (t <=? LAST_INSTANT) then Some t else None.

(** [l[k:]] for any integer *)
Definition tail_from {A} (k : Z) (l : list A) : list A :=
  drop (Z.to_nat (if k <? 0 then zlen l + k else k)) l.

Definition newest_number (x y : Z * DocumentVersion) : Prop := vn_number y.2 <= vn_number x.2.
#[export] Instance newest_number_dec x y : Decision (newest_number x y) := decide (_ <= _).
Definition versions_of (pk : Z) (l : Library) : list (Z * DocumentVersion) :=
  merge_sort newest_number (where_ (fun _ vn => vn_document vn =? pk) (versions l)).

(** What [prune_versions] deletes; [None] for an [OverflowError]. *)
Definition doomed (policy : RetentionPolicy) (head : option Z) (now : Z) (vs : list (Z * DocumentVersion)) : option (list Z) :=
  let by_count := match rp_max_versions policy with Some k => (tail_from k vs).*1 | None => [] end in
  by_age ← match rp_max_version_age_days policy with
           | Some days => cutoff ← days_before now days;
                          Some (List.filter (fun x => vn_created_at x.2 <? cutoff) vs).*1
           | None => Some []
           end;
  Some (List.filter (fun v => negb (bool_decide (head = Some v))) (by_count ++ by_age)).

Definition delete_versions (vs : list Z) (l : Library) : Library :=
  l <| versions := delete_rows (fun v _ => bool_decide (v ∈ vs)) (versions l) |>.

(** [prune_versions]: how many went. No other document's head is among them. *)
Definition prune_versions (s : Settings) (pk : Z) (d : Document) (now : Z) (l : Library) : option (Z * Library) :=
  let policy := effective_policy s d l in
  if bool_decide (rp_max_versions policy = None) && bool_decide (rp_max_version_age_days policy = None) then Some (0, l)
  else dead ← doomed policy (dc_current d) now (versions_of pk l);
       Some (zlen (remove_dups dead), delete_versions dead l).

(** [is_expired] *)
Definition is_expired (s : Settings) (d : Document) (now : Z) (l : Library) : option bool :=
  match rp_ttl_days (effective_policy s d l) with
  | Some days => if dc_archived d then Some false else t ← days_before now days; Some (dc_updated_at d <? t)
  | None => Some false
  end.

(** [expire_document] *)
Definition expire_document (s : Settings) (pk : Z) (d : Document) (now : Z) (l : Library) : Library :=
  let l := emit (DocumentExpired pk) l in
  match rp_on_expire (effective_policy s d l) with
  | DeleteIt => drop_documents (fun pk' _ => pk' =? pk) l
  | ArchiveIt => save_document pk (fun d => d <| dc_archived := true |> <| dc_archived_at := Some now |>) now l
  end.

(** [run_sweep]: the live documents, newest first. An [OverflowError] ends the
    sweep where it is. *)
Record Sweep := { sw_pruned : Z; sw_expired : Z; sw_library : Library; sw_raised : bool }.

Definition sweep_document (s : Settings) (now : Z) (w : Sweep) (x : Z * Document) : Sweep :=
  if sw_raised w then w
  else match prune_versions s x.1 x.2 now (sw_library w) with
       | None => {| sw_pruned := sw_pruned w; sw_expired := sw_expired w; sw_library := sw_library w; sw_raised := true |}
       | Some (n, l) =>
           match is_expired s x.2 now l with
           | None => {| sw_pruned := sw_pruned w + n; sw_expired := sw_expired w; sw_library := l; sw_raised := true |}
           | Some true => {| sw_pruned := sw_pruned w + n; sw_expired := sw_expired w + 1;
                             sw_library := expire_document s x.1 x.2 now l; sw_raised := false |}
           | Some false => {| sw_pruned := sw_pruned w + n; sw_expired := sw_expired w; sw_library := l; sw_raised := false |}
           end
       end.

Definition live_documents (l : Library) : list (Z * Document) :=
  merge_sort newest_first (where_ (fun _ d => negb (dc_archived d)) (documents l)).
Definition run_sweep (s : Settings) (now : Z) (l : Library) : Sweep :=
  foldl (sweep_document s now) {| sw_pruned := 0; sw_expired := 0; sw_library := l; sw_raised := false |} (live_documents l).

(** ** receivers.py, subscriptions.py and tasks.py *)

Definition subscribe (who pk : Z) (l : Library) : Library := l <| subscriptions := {[ (pk, who) ]} ∪ subscriptions l |>.
Definition unsubscribe (who pk : Z) (l : Library) : Library := l <| subscriptions := subscriptions l ∖ {[ (pk, who) ]} |>.
Definition is_subscribed (who : option Z) (pk : Z) (l : Library) : bool :=
  match who with Some who => bool_decide ((pk, who) ∈ subscriptions l) | None => false end.
Definition subscribers_of (pk : Z) (l : Library) : list Z := snd <$> List.filter (fun x => x.1 =? pk) (elements (subscriptions l)).

Inductive Task := PruneVersions (document : Z) | NotifySubscribers (document : Z) (change : ChangeType).

#[export] Instance change_type_dec : EqDecision ChangeType.
Proof. solve_decision. Defined.

(** [prune_on_write] and [notify_subscribers_on_write] *)
Definition prune_on_write (document : Z) (change : ChangeType) : list Task :=
  if bool_decide (change = NewVersion) then [PruneVersions document] else [].
Definition notify_subscribers_on_write (document : Z) (change : ChangeType) (l : Library) : list Task :=
  if bool_decide (subscribers_of document l = []) then [] else [NotifySubscribers document change].
Definition on_event (e : Event) (l : Library) : list Task :=
  match e with
  | DocumentWritten document change _ _ _ => prune_on_write document change ++ notify_subscribers_on_write document change l
  | _ => []
  end.

(** [prune_versions_task] *)
Definition prune_versions_task (s : Settings) (pk now : Z) (l : Library) : option (Z * Library) :=
  match document_at pk l with Some d => prune_versions s pk d now l | None => Some (0, l) end.

(** [send_update_notifications]: the message, given the mail addresses of
    users; the delivery may fail, and then the answer is 0. *)
Definition send_update_notifications (email : Z -> pystr) (delivered : bool) (pk : Z) (change : pystr) (l : Library)
    : option (pystr * pystr * list pystr) * Z :=
  match document_at pk l with
  | None => (None, 0)
  | Some d =>
      let recipients := List.filter nonempty (email <$> subscribers_of pk l) in
      if bool_decide (recipients = []) then (None, 0)
      else
        let where_is := match (r ← dc_runbook d; runbook_row r l) with Some rb => rb_name rb | None => u "Runbook" end in
        (Some (u "[Runbook] " ++ dc_title d ++ u " was updated",
               [34] ++ dc_title d ++ [34] ++ u " in " ++ where_is ++ u " changed (" ++ change ++ u ").", recipients),
         if delivered then zlen recipients else 0)
  end.
