(* ===== verification/RunbookSound.v ===== *)
(** * What every write of the document service keeps true

    [sound] is the contract of the tables that the foreign keys, the unique
    columns and the denormalised head of a document promise: the head is the
    newest version of its document and the document's columns repeat it,
    numbers and addresses are unique, a section belongs to the runbook of its
    documents. Each way a service operation changes a table keeps it. *)
From stdpp Require Import sorting.
From S2P Require Import Prelude PyFloat PyStr Regex PyLib Tables Runbook RunbookService.
Open Scope Z_scope.

#[export] Instance filter_proper {A} (p : A -> bool) : Proper (Permutation ==> Permutation) (List.filter p).
Proof. intros l l'. induction 1; cbn; repeat case_match; eauto using Permutation; by constructor. Qed.

(** ** The contract *)

Definition slugs_unique (t : Table RunbookRow) : Prop :=
  forall pk rb pk' rb', rows t !! pk = Some rb -> rows t !! pk' = Some rb' -> rb_slug rb = rb_slug rb' -> pk = pk'.

Record sections_ok (rbs : Table RunbookRow) (secs : Table SectionRow) : Prop := {
  section_parent : forall s sec, rows secs !! s = Some sec -> is_Some (rows rbs !! sc_runbook sec);
  section_unique : forall s sec s' sec', rows secs !! s = Some sec -> rows secs !! s' = Some sec' ->
    sc_runbook sec = sc_runbook sec' -> sc_slug sec = sc_slug sec' -> s = s';
}.

(** Where a document is: in a runbook there is, and in a section of it. *)
Record placed (rbs : Table RunbookRow) (secs : Table SectionRow) (d : Document) : Prop := {
  in_a_runbook : forall r, dc_runbook d = Some r -> is_Some (rows rbs !! r);
  in_a_section : forall s, dc_section d = Some s ->
    exists sec, rows secs !! s = Some sec /\ dc_runbook d = Some (sc_runbook sec);
}.

Record documents_ok (rbs : Table RunbookRow) (secs : Table SectionRow) (docs : Table Document) : Prop := {
  doc_placed : forall pk d, rows docs !! pk = Some d -> placed rbs secs d;
  uid_unique : forall pk d pk' d', rows docs !! pk = Some d -> rows docs !! pk' = Some d' -> dc_uid d = dc_uid d' -> pk = pk';
  key_unique : forall pk d pk' d', rows docs !! pk = Some d -> rows docs !! pk' = Some d' -> same_place d d' = true -> pk = pk';
}.

(** The head of a document is its newest version, which its columns repeat; a
    document without a head has no version. *)
Definition heads (vs : Table DocumentVersion) (pk : Z) (d : Document) : Prop :=
  match dc_current d with
  | Some v => exists vn, rows vs !! v = Some vn /\ vn_document vn = pk /\ vn_number vn = dc_version d /\
                         vn_text vn = dc_text d /\
                         forall v' vn', rows vs !! v' = Some vn' -> vn_document vn' = pk -> vn_number vn' <= dc_version d
  | None => forall v' vn', rows vs !! v' = Some vn' -> vn_document vn' <> pk
  end.

Record versions_ok (docs : Table Document) (vs : Table DocumentVersion) : Prop := {
  doc_head : forall pk d, rows docs !! pk = Some d -> heads vs pk d;
  version_parent : forall v vn, rows vs !! v = Some vn -> is_Some (rows docs !! vn_document vn);
  number_unique : forall v vn v' vn', rows vs !! v = Some vn -> rows vs !! v' = Some vn' ->
    vn_document vn = vn_document vn' -> vn_number vn = vn_number vn' -> v = v';
  number_positive : forall v vn, rows vs !! v = Some vn -> 1 <= vn_number vn;
}.

Record attached_ok (docs : Table Document) (ims : Table DocumentImage) (subs : gset (Z * Z)) : Prop := {
  image_parent : forall i im, rows ims !! i = Some im -> is_Some (rows docs !! im_document im);
  subscription_parent : forall pk who, (pk, who) ∈ subs -> is_Some (rows docs !! pk);
}.

Record sound (l : Library) : Prop := {
  fresh_runbooks : fresh (runbooks l);
  fresh_sections : fresh (sections l);
  fresh_documents : fresh (documents l);
  fresh_versions : fresh (versions l);
  fresh_images : fresh (images l);
  sound_slugs : slugs_unique (runbooks l);
  sound_sections : sections_ok (runbooks l) (sections l);
  sound_documents : documents_ok (runbooks l) (sections l) (documents l);
  sound_versions : versions_ok (documents l) (versions l);
  sound_attached : attached_ok (documents l) (images l) (subscriptions l);
}.
#[export] Hint Resolve fresh_runbooks fresh_sections fresh_documents fresh_versions fresh_images sound_slugs sound_sections
  sound_documents sound_versions sound_attached : tables.

Lemma sound_empty : sound no_library.
Proof.
  split; try split; cbn; try (intros ? ?; cbn; by rewrite ?lookup_empty); try set_solver.
Qed.

Lemma sound_emit e l : sound l -> sound (emit e l).
Proof. by intros []. Qed.
#[export] Hint Resolve sound_emit : tables.

(** ** One change at a time *)

Lemma same_place_spec d d' :
  same_place d d' = true <->
  exists r k, dc_runbook d = Some r /\ dc_key d = Some k /\ dc_runbook d' = Some r /\ dc_key d' = Some k.
Proof.
  unfold same_place. rewrite bool_decide_eq_true. split.
  - intros ([r Er] & [k Ek] & E1 & E2). exists r, k. by rewrite <- E1, <- E2.
  - intros (r & k & -> & -> & -> & ->). eauto.
Qed.

Lemma clashes_false pk d l :
  clashes pk d l = false <->
  forall pk' d', rows (documents l) !! pk' = Some d' -> pk' <> pk -> dc_uid d <> dc_uid d' /\ same_place d d' = false.
Proof.
  unfold clashes. rewrite negb_false_iff, bool_decide_eq_true, where_nil.
  split; intros H pk' d' Hd'.
  - intros Hne. specialize (H pk' d' Hd'). rewrite (proj2 (Z.eqb_neq _ _) Hne) in H. cbn in H.
    apply orb_false_iff in H as [H1 H2]. unfold str_eqb in H1. by apply bool_decide_eq_false in H1.
  - destruct (pk' =? pk) eqn:E; [done|]. apply Z.eqb_neq in E. destruct (H pk' d' Hd' E) as [H1 H2].
    cbn. rewrite H2, orb_false_r. unfold str_eqb. by apply bool_decide_eq_false.
Qed.

(** A document with another's place and identity. *)
Definition unmoved (d d' : Document) : Prop :=
  dc_uid d' = dc_uid d /\ dc_runbook d' = dc_runbook d /\ dc_section d' = dc_section d /\ dc_key d' = dc_key d.
Definition same_head (d d' : Document) : Prop :=
  dc_current d' = dc_current d /\ dc_version d' = dc_version d /\ dc_text d' = dc_text d.

Lemma unmoved_placed rbs secs d d' : unmoved d d' -> placed rbs secs d -> placed rbs secs d'.
Proof. intros (_ & E1 & E2 & _) []. split; rewrite ?E1, ?E2; done. Qed.

Lemma unmoved_clashes l pk d d' :
  sound l -> rows (documents l) !! pk = Some d -> unmoved d d' -> clashes pk d' l = false.
Proof.
  intros S Hd (E1 & E2 & _ & E3). apply clashes_false. intros pk' e He Hne.
  destruct (sound_documents l S) as [_ U K]. split.
  - rewrite E1. intros Eu. by apply Hne, (U pk' e pk d).
  - apply not_true_iff_false. rewrite same_place_spec, E2, E3. intros (r & k & H1 & H2 & H3 & H4).
    apply Hne, (K pk' e pk d); [done..|]. apply same_place_spec. by exists r, k.
Qed.

Lemma heads_same_head vs pk d d' : same_head d d' -> heads vs pk d -> heads vs pk d'.
Proof. unfold heads. by intros (-> & -> & ->). Qed.

Lemma documents_ok_update l pk f :
  sound l ->
  (forall d, rows (documents l) !! pk = Some d -> placed (runbooks l) (sections l) (f d) /\ clashes pk (f d) l = false) ->
  documents_ok (runbooks l) (sections l) (update_row pk f (documents l)).
Proof.
  intros S Hf. destruct (sound_documents l S) as [P U K]. split.
  - intros k d (x & Hx & [[-> ->]|[_ ->]])%update_row_inv; [by apply Hf|by apply (P k)].
  - intros k d k' d' (x & Hx & Dx)%update_row_inv (y & Hy & Dy)%update_row_inv E.
    destruct Dx as [[-> ->]|[N ->]], Dy as [[-> ->]|[N' ->]]; [done| | |by apply (U k x k' y)].
    + destruct (Hf x Hx) as [_ C]. rewrite clashes_false in C. by destruct (C k' y Hy N') as [[] _].
    + destruct (Hf y Hy) as [_ C]. rewrite clashes_false in C. by destruct (C k x Hx N) as [[] _].
  - intros k d k' d' (x & Hx & Dx)%update_row_inv (y & Hy & Dy)%update_row_inv E.
    destruct Dx as [[-> ->]|[N ->]], Dy as [[-> ->]|[N' ->]]; [done| | |by apply (K k x k' y)].
    + destruct (Hf x Hx) as [_ C]. rewrite clashes_false in C. destruct (C k' y Hy N') as [_ C']. congruence.
    + destruct (Hf y Hy) as [_ C]. rewrite clashes_false in C. destruct (C k x Hx N) as [_ C'].
      apply same_place_spec in E as (r & key & ? & ? & ? & ?).
      assert (same_place (f y) x = true) by (apply same_place_spec; by exists r, key). congruence.
Qed.

Lemma is_Some_update {A} pk f (t : Table A) k : is_Some (rows t !! k) -> is_Some (rows (update_row pk f t) !! k).
Proof. rewrite lookup_update. by case_decide; [rewrite fmap_is_Some|]. Qed.

Lemma attached_ok_update docs ims subs pk f :
  attached_ok docs ims subs -> attached_ok (update_row pk f docs) ims subs.
Proof. intros [I S]. split; intros; apply is_Some_update; eauto. Qed.

Lemma versions_ok_update docs vs pk f :
  (forall d, rows docs !! pk = Some d -> same_head d (f d)) -> versions_ok docs vs -> versions_ok (update_row pk f docs) vs.
Proof.
  intros Hf [H P N Q]. split; try done.
  - intros k d (x & Hx & [[-> ->]|[_ ->]])%update_row_inv; [|by apply H].
    apply (heads_same_head vs pk x); [by apply Hf|by apply H].
  - intros. apply is_Some_update. eauto.
Qed.

(** A document's columns changed, the head apart. *)
Lemma sound_update_document pk f l :
  sound l ->
  (forall d, rows (documents l) !! pk = Some d ->
    placed (runbooks l) (sections l) (f d) /\ clashes pk (f d) l = false /\ same_head d (f d)) ->
  sound (l <| documents := update_row pk f (documents l) |>).
Proof.
  intros S Hf. destruct S as [? ? ? ? ? ? ? D V A] eqn:ES. split; cbn; eauto with tables.
  - apply documents_ok_update; [done|]. intros d Hd. by destruct (Hf d Hd) as (? & ? & _).
  - apply versions_ok_update; [|done]. intros d Hd. by destruct (Hf d Hd) as (_ & _ & ?).
  - by apply attached_ok_update.
Qed.

Lemma sound_update_unmoved pk f l :
  sound l -> (forall d, unmoved d (f d) /\ same_head d (f d)) -> sound (l <| documents := update_row pk f (documents l) |>).
Proof.
  intros S Hf. apply sound_update_document; [done|]. intros d Hd. destruct (Hf d) as [U H].
  split_and!; [|by eapply unmoved_clashes|done].
  eapply unmoved_placed; [done|]. by apply (doc_placed _ _ _ (sound_documents l S) pk).
Qed.

Lemma sound_save_document pk f now l :
  sound l -> (forall d, unmoved d (f d) /\ same_head d (f d)) -> sound (save_document pk f now l).
Proof. intros S Hf. apply sound_update_unmoved; [done|]. intros d. by destruct (Hf d). Qed.

(** A new document, still without a version. *)
Lemma insert_document_ok d l pk l' :
  insert_document d l = Ok (pk, l') ->
  pk = next_pk (documents l) /\ l' = l <| documents := (insert_row d (documents l)).2 |> /\ clashes pk d l = false.
Proof. unfold insert_document. cbn. destruct (clashes _ d l) eqn:E; cbn; [done|]. by intros [= <- <-]. Qed.

Lemma sound_insert_document d l pk l' :
  sound l -> insert_document d l = Ok (pk, l') -> dc_current d = None -> placed (runbooks l) (sections l) d -> sound l'.
Proof.
  intros S (-> & -> & C)%insert_document_ok Hc Hp. rewrite clashes_false in C.
  pose proof (fresh_documents l S) as F. destruct (sound_documents l S) as [P U K].
  destruct (sound_versions l S) as [H VP N Q]. destruct (sound_attached l S) as [IP SP].
  assert (Keep : forall k e, rows (documents l) !! k = Some e -> k <> next_pk (documents l)).
  { intros k e He. specialize (F k e He). lia. }
  assert (Old : forall k, is_Some (rows (documents l) !! k) -> is_Some (rows (insert_row d (documents l)).2 !! k)).
  { intros k [e He]. exists e. by apply insert_row_old. }
  split; cbn [runbooks sections documents versions images subscriptions upd]; eauto with tables; split.
  - intros k e [[-> ->]|[_ He]]%insert_row_inv; eauto.
  - intros k e k' e' [[-> ->]|[Nk He]]%insert_row_inv [[-> ->]|[Nk' He']]%insert_row_inv E; eauto.
    + by destruct (C k' e' He' Nk') as [[] _].
    + by destruct (C k e He Nk) as [[] _].
  - intros k e k' e' [[-> ->]|[Nk He]]%insert_row_inv [[-> ->]|[Nk' He']]%insert_row_inv E; eauto.
    + destruct (C k' e' He' Nk') as [_ C']. congruence.
    + destruct (C k e He Nk) as [_ C']. apply same_place_spec in E as (r & key & ? & ? & ? & ?).
      assert (same_place d e = true) by (apply same_place_spec; by exists r, key). congruence.
  - intros k e [[-> ->]|[_ He]]%insert_row_inv; [|eauto]. unfold heads. rewrite Hc.
    intros v vn Hv E. destruct (VP v vn Hv) as [e He]. by apply (Keep _ _ He).
  - eauto.
  - done.
  - done.
  - eauto.
  - eauto.
Qed.

(** Nothing but the encoding stops a new version: its number is free. *)
Lemma next_number_above l pk d :
  sound l -> rows (documents l) !! pk = Some d ->
  1 <= next_number d l /\
  (forall v vn, rows (versions l) !! v = Some vn -> vn_document vn = pk -> vn_number vn < next_number d l) /\
  (dc_current d <> None -> next_number d l = dc_version d + 1).
Proof.
  intros S Hd. pose proof (doc_head _ _ (sound_versions l S) pk d Hd) as H. unfold heads in H.
  unfold next_number, version_at. destruct (dc_current d) as [v|].
  - destruct H as (vn & Hv & _ & En & _ & Max). rewrite Hv. cbn.
    pose proof (number_positive _ _ (sound_versions l S) v vn Hv). split_and!; [lia| |lia].
    intros v' vn' Hv' E. specialize (Max v' vn' Hv' E). lia.
  - split_and!; [lia| |done]. intros v vn Hv E. by destruct (H v vn Hv).
Qed.

Definition new_version (d : Document) (pk : Z) (body : pystr) (who : option Z) (description source via : pystr) (now : Z)
    (l : Library) : DocumentVersion :=
  {| vn_document := pk; vn_number := next_number d l; vn_body := body; vn_text := strip_frontmatter body;
     vn_title := dc_title d; vn_description := description; vn_source := source; vn_via := via; vn_created_by := who;
     vn_created_at := now |}.

Definition with_version (d : Document) (pk : Z) (vn : DocumentVersion) (now : Z) (l : Library) : Library :=
  l <| versions := (insert_row vn (versions l)).2 |>
    <| documents := update_row pk (sync_head (next_pk (versions l)) vn now) (documents l) |>.

Lemma create_new_version_eq pk d body who description source via now l :
  sound l -> rows (documents l) !! pk = Some d ->
  create_new_version pk body who description source via now l =
    if encodable body then Ok (with_version d pk (new_version d pk body who description source via now l) now l)
    else Err (NotEncodable Intact).
Proof.
  intros S Hd. destruct (next_number_above l pk d S Hd) as (_ & Hn & _).
  unfold create_new_version, document_at. rewrite Hd. cbn [found mbind result_bind guard].
  destruct (encodable body); [|done]. cbn [guard mbind result_bind].
  rewrite bool_decide_true; [done|]. apply where_nil. intros v vn Hv. apply not_true_iff_false. intros E.
  bool_to_prop. specialize (Hn v vn Hv ltac:(done)). lia.
Qed.

Lemma create_new_version_ok pk body who description source via now l l' :
  sound l -> create_new_version pk body who description source via now l = Ok l' ->
  exists d, rows (documents l) !! pk = Some d /\ encodable body = true /\
            l' = with_version d pk (new_version d pk body who description source via now l) now l.
Proof.
  intros S E. destruct (rows (documents l) !! pk) as [d|] eqn:Hd.
  - rewrite (create_new_version_eq pk d) in E by done. exists d. destruct (encodable body); [|done]. by injection E.
  - unfold create_new_version, document_at in E. rewrite Hd in E. done.
Qed.

Lemma sync_head_unmoved v vn now d : unmoved d (sync_head v vn now d).
Proof. done. Qed.

Lemma sound_with_version d pk body who description source via now l :
  sound l -> rows (documents l) !! pk = Some d ->
  sound (with_version d pk (new_version d pk body who description source via now l) now l).
Proof.
  intros S Hd. destruct (next_number_above l pk d S Hd) as (H1 & Hn & _).
  pose proof (fresh_versions l S) as FV. destruct (sound_versions l S) as [H P N Q].
  set (vn := new_version d pk body who description source via now l).
  split; cbn [runbooks sections documents versions images subscriptions upd with_version]; eauto with tables.
  - apply documents_ok_update; [done|]. intros e He. split.
    + eapply unmoved_placed; [apply sync_head_unmoved|]. by apply (doc_placed _ _ _ (sound_documents l S) pk).
    + eapply unmoved_clashes; [done..|apply sync_head_unmoved].
  - split.
    + intros k e (x & Hx & [[-> ->]|[Nk ->]])%update_row_inv.
      * cbn. exists vn. rewrite lookup_insert_eq. split_and!; try done.
        intros v' vn' [[_ ->]|[_ Hv']]%(insert_row_inv vn) E; [done|]. pose proof (Hn v' vn' Hv' E). cbn. lia.
      * specialize (H k x Hx). unfold heads in *. destruct (dc_current x) as [v|].
        -- destruct H as (w & Hw & D & Nw & Tx & Max). exists w.
           split_and!; try done; [by apply insert_row_old|].
           intros v' vn' [[_ ->]|[_ Hv']]%(insert_row_inv vn) E; [by destruct Nk|by apply (Max v')].
        -- intros v' vn' [[_ ->]|[_ Hv']]%(insert_row_inv vn); [done|by apply (H v')].
    + intros v w [[_ ->]|[_ Hw]]%insert_row_inv; apply is_Some_update; [by eexists|by apply (P v)].
    + intros v w v' w' [[-> ->]|[Nv Hw]]%insert_row_inv [[-> ->]|[Nv' Hw']]%insert_row_inv ED EN; [done| | |by apply (N v w v' w')].
      * pose proof (Hn v' w' Hw' (eq_sym ED)). cbn in EN. lia.
      * pose proof (Hn v w Hw ED). cbn in EN. lia.
    + intros v w [[_ ->]|[_ Hw]]%insert_row_inv; [done|by apply (Q v)].
  - apply attached_ok_update. eauto with tables.
Qed.

(** The head's content replaced. *)
Lemma overwrite_head_ok pk body source via now l l' :
  overwrite_head pk body source via now l = Ok l' ->
  exists d v, rows (documents l) !! pk = Some d /\ dc_current d = Some v /\ encodable body = true /\
    l' = l <| versions := update_row v (fun vn => vn <| vn_body := body |> <| vn_text := strip_frontmatter body |>
                             <| vn_source := if nonempty source then source else vn_source vn |> <| vn_via := via |>) (versions l) |>
           <| documents := update_row pk (fun d => d <| dc_text := strip_frontmatter body |> <| dc_updated_at := now |>) (documents l) |>.
Proof.
  unfold overwrite_head, document_at. destruct (rows (documents l) !! pk) as [d|]; [|done]. cbn.
  destruct (dc_current d) as [v|] eqn:Ev; [|done]. cbn. destruct (encodable body); [|done]. intros [= <-]. by exists d, v.
Qed.

Lemma sound_overwrite_head pk body source via now l l' :
  sound l -> overwrite_head pk body source via now l = Ok l' -> sound l'.
Proof.
  intros S (d & v & Hd & Ev & _ & ->)%overwrite_head_ok. destruct (sound_versions l S) as [H P N Q].
  pose proof (H pk d Hd) as Hh. unfold heads in Hh. rewrite Ev in Hh. destruct Hh as (h & Hv & Dh & Nh & Th & Mh).
  split; cbn [runbooks sections documents versions images subscriptions upd]; eauto with tables.
  - apply documents_ok_update; [done|]. intros e He. split.
    + eapply (unmoved_placed _ _ e); [done|]. by apply (doc_placed _ _ _ (sound_documents l S) pk).
    + by eapply (unmoved_clashes _ _ e).
  - split.
    + intros k e (x & Hx & [[-> ->]|[Nk ->]])%update_row_inv.
      * assert (x = d) as -> by congruence. cbn. unfold heads. cbn. rewrite Ev. eexists.
        split; [by apply update_row_hit|]. split_and!; try done.
        intros v' w' (y & Hy & [[-> ->]|[_ ->]])%update_row_inv E; cbn in *; by eapply Mh.
      * specialize (H k x Hx). unfold heads in *. destruct (dc_current x) as [c|].
        -- destruct H as (w & Hw & Dw & Nw & Tw & Mw). exists w. assert (c <> v) by (intros ->; naive_solver).
           rewrite update_row_miss by done. split_and!; try done.
           intros v' w' (y & Hy & [[-> ->]|[_ ->]])%update_row_inv E; cbn in *; by eapply Mw.
        -- intros v' w' (y & Hy & [[-> ->]|[_ ->]])%update_row_inv; cbn; by eapply H.
    + intros w x (y & Hy & [[-> ->]|[_ ->]])%update_row_inv; cbn; apply is_Some_update; by eapply P.
    + intros w x w' x' (y & Hy & Dy)%update_row_inv (y' & Hy' & Dy')%update_row_inv ED EN.
      apply (N w y w' y'); try done; destruct Dy as [[-> ->]|[_ ->]], Dy' as [[-> ->]|[_ ->]]; done.
    + intros w x (y & Hy & [[-> ->]|[_ ->]])%update_row_inv; cbn; by eapply Q.
  - apply attached_ok_update. eauto with tables.
Qed.

(** Documents gone, and with them their versions, images and subscriptions. *)
Lemma sound_drop_documents p l : sound l -> sound (drop_documents p l).
Proof.
  intros S. destruct (sound_documents l S) as [P U K]. destruct (sound_versions l S) as [H VP N Q].
  destruct (sound_attached l S) as [IP SP].
  assert (Keep : forall k, is_Some (rows (documents l) !! k) ->
    match document_at k l with Some d => p k d | None => false end = false ->
    is_Some (rows (delete_rows p (documents l)) !! k)).
  { unfold document_at. intros k [d Hd] E. rewrite Hd in E. exists d. by apply lookup_delete. }
  split; cbn [runbooks sections documents versions images subscriptions upd drop_documents]; eauto with tables; split.
  - intros k d [Hd _]%lookup_delete. eauto.
  - intros k d k' d' [? _]%lookup_delete [? _]%lookup_delete. eauto.
  - intros k d k' d' [? _]%lookup_delete [? _]%lookup_delete. eauto.
  - intros k d [Hd E]%lookup_delete. specialize (H k d Hd). unfold heads in *. destruct (dc_current d) as [v|].
    + destruct H as (vn & Hv & D & Nv & Tv & M). exists vn. split_and!; try done.
      * apply lookup_delete. rewrite D. unfold document_at. by rewrite Hd.
      * intros v' vn' [? _]%lookup_delete. eauto.
    + intros v' vn' [? _]%lookup_delete. eauto.
  - intros v vn [? E]%lookup_delete. apply Keep; eauto.
  - intros v vn v' vn' [? _]%lookup_delete [? _]%lookup_delete. eauto.
  - intros v vn [? _]%lookup_delete. eauto.
  - intros i im [? E]%lookup_delete. apply Keep; eauto.
  - intros k who [E ?]%elem_of_filter. apply Keep; eauto.
Qed.

(** Old versions gone, a head apart. *)
Lemma sound_delete_versions p l :
  sound l ->
  (forall v vn pk d, rows (versions l) !! v = Some vn -> p v vn = true -> rows (documents l) !! pk = Some d -> dc_current d <> Some v) ->
  sound (l <| versions := delete_rows p (versions l) |>).
Proof.
  intros S Hp. destruct (sound_versions l S) as [H VP N Q].
  split; cbn [runbooks sections documents versions images subscriptions upd]; eauto with tables; split.
  - intros k d Hd. specialize (H k d Hd). unfold heads in *. destruct (dc_current d) as [v|] eqn:Ev.
    + destruct H as (vn & Hv & D & Nv & Tv & M). exists vn. split_and!; try done.
      * apply lookup_delete. split; [done|]. apply not_true_iff_false. intros E. by apply (Hp v vn k d).
      * intros v' vn' [? _]%lookup_delete. eauto.
    + intros v' vn' [? _]%lookup_delete. eauto.
  - intros v vn [? _]%lookup_delete. eauto.
  - intros v vn v' vn' [? _]%lookup_delete [? _]%lookup_delete. eauto.
  - intros v vn [? _]%lookup_delete. eauto.
Qed.

(** A new image of a document. *)
Lemma sound_insert_image im l :
  sound l -> is_Some (rows (documents l) !! im_document im) -> sound (l <| images := (insert_row im (images l)).2 |>).
Proof.
  intros S Hd. destruct (sound_attached l S) as [IP SP].
  split; cbn [runbooks sections documents versions images subscriptions upd]; eauto with tables. split; [|done].
  intros i x [[_ ->]|[_ Hx]]%insert_row_inv; eauto.
Qed.

(** Runbooks and sections. *)
Lemma placed_mono rbs secs rbs' secs' d :
  (forall r, is_Some (rows rbs !! r) -> is_Some (rows rbs' !! r)) ->
  (forall s sec, rows secs !! s = Some sec -> rows secs' !! s = Some sec) ->
  placed rbs secs d -> placed rbs' secs' d.
Proof. intros HR HS [P1 P2]. split; [eauto|]. intros s E. destruct (P2 s E) as (sec & Hs & ?). eauto. Qed.

Lemma documents_ok_mono rbs secs rbs' secs' docs :
  (forall r, is_Some (rows rbs !! r) -> is_Some (rows rbs' !! r)) ->
  (forall s sec, rows secs !! s = Some sec -> rows secs' !! s = Some sec) ->
  documents_ok rbs secs docs -> documents_ok rbs' secs' docs.
Proof. intros HR HS [P U K]. split; [|done..]. intros pk d Hd. eapply placed_mono; eauto. Qed.

Lemma slug_free_true slug l :
  slug_free slug l = true <-> forall pk rb, rows (runbooks l) !! pk = Some rb -> rb_slug rb <> slug.
Proof.
  unfold slug_free. rewrite bool_decide_eq_true, where_nil. unfold str_eqb.
  split; intros H pk rb Hr; specialize (H pk rb Hr); [by apply bool_decide_eq_false in H|by apply bool_decide_eq_false].
Qed.

Lemma insert_runbook_ok rb l pk l' :
  insert_runbook rb l = Ok (pk, l') ->
  pk = next_pk (runbooks l) /\ l' = l <| runbooks := (insert_row rb (runbooks l)).2 |> /\ slug_free (rb_slug rb) l = true.
Proof. unfold insert_runbook. destruct (slug_free _ l); cbn; [|done]. by intros [= <- <-]. Qed.

Lemma sound_insert_runbook rb l pk l' : sound l -> insert_runbook rb l = Ok (pk, l') -> sound l'.
Proof.
  intros S (-> & -> & F)%insert_runbook_ok. rewrite slug_free_true in F.
  assert (Old : forall r, is_Some (rows (runbooks l) !! r) -> is_Some (rows (insert_row rb (runbooks l)).2 !! r)).
  { intros r [x Hx]. exists x. apply insert_row_old; eauto with tables. }
  split; cbn [runbooks sections documents versions images subscriptions upd]; eauto with tables.
  - intros k x k' x' [[-> ->]|[_ Hx]]%insert_row_inv [[-> ->]|[_ Hx']]%insert_row_inv E; [done| | |].
    + by destruct (F k' x' Hx').
    + by destruct (F k x Hx).
    + by apply (sound_slugs l S k x k' x').
  - destruct (sound_sections l S) as [P U]. split; [|done]. intros s sec Hs. eauto.
  - eapply documents_ok_mono; eauto with tables.
Qed.

Lemma is_Some_update_iff {A} pk f (t : Table A) k : is_Some (rows (update_row pk f t) !! k) <-> is_Some (rows t !! k).
Proof. rewrite lookup_update. by case_decide; [rewrite fmap_is_Some|]. Qed.

Lemma sound_update_runbook pk f l :
  sound l -> (forall rb, rb_slug (f rb) = rb_slug rb) -> sound (l <| runbooks := update_row pk f (runbooks l) |>).
Proof.
  intros S Hf. split; cbn [runbooks sections documents versions images subscriptions upd]; eauto with tables.
  - intros k x k' x' (y & Hy & Dy)%update_row_inv (y' & Hy' & Dy')%update_row_inv E.
    apply (sound_slugs l S k y k' y'); [done..|].
    destruct Dy as [[-> ->]|[_ ->]], Dy' as [[-> ->]|[_ ->]]; rewrite ?Hf in E; done.
  - destruct (sound_sections l S) as [P U]. split; [|done]. intros s sec Hs. apply is_Some_update. eauto.
  - eapply documents_ok_mono; [|done|eauto with tables]. intros r. apply is_Some_update.
Qed.

Lemma sound_insert_section sec l :
  sound l -> is_Some (rows (runbooks l) !! sc_runbook sec) ->
  (forall s x, rows (sections l) !! s = Some x -> sc_runbook x = sc_runbook sec -> sc_slug x <> sc_slug sec) ->
  sound (l <| sections := (insert_row sec (sections l)).2 |>).
Proof.
  intros S Hr Hf. destruct (sound_sections l S) as [P U].
  split; cbn [runbooks sections documents versions images subscriptions upd]; eauto with tables.
  - split.
    + intros s x [[_ ->]|[_ Hx]]%insert_row_inv; eauto.
    + intros s x s' x' [[-> ->]|[_ Hx]]%insert_row_inv [[-> ->]|[_ Hx']]%insert_row_inv E E'; [done| | |by apply (U s x s' x')].
      * by destruct (Hf s' x' Hx' (eq_sym E)).
      * by destruct (Hf s x Hx E).
  - eapply documents_ok_mono; [done| |eauto with tables]. intros s x Hx. apply insert_row_old; eauto with tables.
Qed.

(** ** Sections and runbooks gone *)

Lemma map_rows_inv {A} (f : A -> A) (t : Table A) k y :
  rows (map_rows f t) !! k = Some y -> exists x, rows t !! k = Some x /\ y = f x.
Proof. cbn. rewrite lookup_fmap. destruct (rows t !! k); cbn; naive_solver. Qed.

Lemma map_rows_hit {A} (f : A -> A) (t : Table A) k x : rows t !! k = Some x -> rows (map_rows f t) !! k = Some (f x).
Proof. cbn. intros E. by rewrite lookup_fmap, E. Qed.

Lemma is_Some_map {A} (f : A -> A) (t : Table A) k : is_Some (rows t !! k) -> is_Some (rows (map_rows f t) !! k).
Proof. intros [x E]. exists (f x). by apply map_rows_hit. Qed.

Lemma fresh_map {A} (f : A -> A) (t : Table A) : fresh t -> fresh (map_rows f t).
Proof. intros F k y (x & Hx & _)%map_rows_inv. by apply (F k x). Qed.
#[export] Hint Resolve fresh_map : tables.

(** Documents that lose a place keep everything else. *)
Definition displaced (d d' : Document) : Prop :=
  dc_uid d' = dc_uid d /\ same_head d d' /\ (dc_runbook d' = dc_runbook d \/ dc_runbook d' = None) /\
  (dc_section d' = dc_section d \/ dc_section d' = None) /\ (dc_key d' = dc_key d \/ dc_key d' = None).

Lemma sound_displaced f rbs secs l :
  sound l -> (forall d, displaced d (f d)) ->
  (forall pk d, rows (documents l) !! pk = Some d -> placed rbs secs (f d)) ->
  documents_ok rbs secs (map_rows f (documents l)) /\ versions_ok (map_rows f (documents l)) (versions l) /\
  attached_ok (map_rows f (documents l)) (images l) (subscriptions l).
Proof.
  intros S Hf HP. destruct (sound_documents l S) as [P U K]. destruct (sound_versions l S) as [H VP N Q].
  destruct (sound_attached l S) as [IP SP]. split_and!; split.
  - intros pk d (x & Hx & ->)%map_rows_inv. by eapply HP.
  - intros pk d pk' d' (x & Hx & ->)%map_rows_inv (y & Hy & ->)%map_rows_inv.
    destruct (Hf x) as [-> _], (Hf y) as [-> _]. eauto.
  - intros pk d pk' d' (x & Hx & ->)%map_rows_inv (y & Hy & ->)%map_rows_inv E.
    apply (K pk x pk' y); [done..|]. apply same_place_spec in E as (r & k & E1 & E2 & E3 & E4).
    destruct (Hf x) as (_ & _ & A1 & _ & A2), (Hf y) as (_ & _ & B1 & _ & B2).
    apply same_place_spec. exists r, k. intuition congruence.
  - intros pk d (x & Hx & ->)%map_rows_inv. apply (heads_same_head _ _ x); [apply Hf|eauto].
  - intros v vn Hv. apply is_Some_map. eauto.
  - eauto.
  - eauto.
  - intros i im Hi. apply is_Some_map. eauto.
  - intros pk who Hin. apply is_Some_map. eauto.
Qed.

Lemma unfile_displaced gone d : displaced d (unfile gone d).
Proof. unfold unfile, displaced. destruct (dc_section d) as [s|] eqn:E; [destruct (gone s)|]; cbn; rewrite ?E; by repeat split; auto. Qed.

Lemma displaced_trans d d' d'' : displaced d d' -> displaced d' d'' -> displaced d d''.
Proof. unfold displaced, same_head. intros (? & (? & ? & ?) & ? & ? & ?) (? & (? & ? & ?) & ? & ? & ?). intuition congruence. Qed.

Lemma detach_displaced rb d : displaced d (detach rb d).
Proof. unfold detach, displaced. case_bool_decide; cbn; by repeat split; auto. Qed.

Lemma unkey_displaced rb d : displaced d (unkey rb d).
Proof. unfold unkey, displaced. case_bool_decide; cbn; by repeat split; auto. Qed.

Lemma sound_unkey rb l : sound l -> sound (l <| documents := map_rows (unkey rb) (documents l) |>).
Proof.
  intros S. destruct (sound_displaced (unkey rb) (runbooks l) (sections l) l S) as (D & V & A).
  - apply unkey_displaced.
  - intros pk d Hd. pose proof (doc_placed _ _ _ (sound_documents l S) pk d Hd) as [P1 P2].
    unfold unkey. case_bool_decide; by split.
  - split; cbn [runbooks sections documents versions images subscriptions upd]; eauto with tables.
Qed.

Lemma unfile_section gone d s : dc_section (unfile gone d) = Some s -> dc_section d = Some s /\ gone s = false.
Proof. unfold unfile. destruct (dc_section d) as [s0|] eqn:E; [|by rewrite E]. destruct (gone s0) eqn:G; cbn; [done|]. rewrite E. naive_solver. Qed.
Lemma unfile_runbook gone d : dc_runbook (unfile gone d) = dc_runbook d.
Proof. unfold unfile. destruct (dc_section d) as [s0|]; [|done]. by destruct (gone s0). Qed.

Lemma sound_drop_section s l : sound l -> sound (drop_section s l).
Proof.
  intros S. destruct (sound_sections l S) as [P U].
  set (secs := delete_rows (fun s' _ => s' =? s) (sections l)).
  destruct (sound_displaced (unfile (fun s' => s' =? s)) (runbooks l) secs l S) as (D & V & A).
  - apply unfile_displaced.
  - intros pk d Hd. destruct (doc_placed _ _ _ (sound_documents l S) pk d Hd) as [P1 P2].
    split; rewrite unfile_runbook; [done|]. intros s' [E G]%unfile_section. destruct (P2 s' E) as (sec & Hs & ?).
    exists sec. split; [|done]. by apply lookup_delete.
  - split; cbn [runbooks sections documents versions images subscriptions upd drop_section]; eauto with tables. split.
    + intros s' sec [Hs _]%lookup_delete. eauto.
    + intros s1 x1 s2 x2 [? _]%lookup_delete [? _]%lookup_delete. eauto.
Qed.

Lemma sound_drop_runbook rb l : sound l -> sound (drop_runbook rb l).
Proof.
  intros S. destruct (sound_sections l S) as [P U].
  set (rbs := delete_rows (fun pk _ => pk =? rb) (runbooks l)).
  set (secs := delete_rows (fun _ sec => sc_runbook sec =? rb) (sections l)).
  assert (Keep : forall r, r <> rb -> is_Some (rows (runbooks l) !! r) -> is_Some (rows rbs !! r)).
  { intros r N [x Hx]. exists x. apply lookup_delete. split; [done|]. by apply Z.eqb_neq. }
  destruct (sound_displaced (fun d => detach rb (unfile (section_in rb l) d)) rbs secs l S) as (D & V & A).
  - intros d. eapply displaced_trans; [apply unfile_displaced|apply detach_displaced].
  - intros pk d Hd. destruct (doc_placed _ _ _ (sound_documents l S) pk d Hd) as [P1 P2].
    unfold detach. rewrite unfile_runbook. split.
    + intros r. case_bool_decide as E; cbn; [done|]. rewrite unfile_runbook. intros Er. apply Keep; [congruence|by apply P1].
    + intros s Es. assert (Es' : dc_section (unfile (section_in rb l) d) = Some s) by (revert Es; by case_bool_decide).
      apply unfile_section in Es' as [E G]. destruct (P2 s E) as (sec & Hs & Er).
      unfold section_in in G. rewrite Hs in G. exists sec. split; [by apply lookup_delete|].
      case_bool_decide as E'; cbn; [|by rewrite unfile_runbook]. apply Z.eqb_neq in G. congruence.
  - split; cbn [runbooks sections documents versions images subscriptions upd drop_runbook]; eauto with tables.
    + intros pk x pk' x' [? _]%lookup_delete [? _]%lookup_delete. apply (sound_slugs l S); done.
    + split.
      * intros s sec [Hs E]%lookup_delete. apply Keep; [by apply Z.eqb_neq|eauto].
      * intros s1 x1 s2 x2 [? _]%lookup_delete [? _]%lookup_delete. eauto.
Qed.

(** What [section_free] rules out. *)
Lemma section_free_true pk sec l :
  section_free pk sec l = true <->
  forall s x, rows (sections l) !! s = Some x -> pk <> Some s -> sc_runbook x = sc_runbook sec -> sc_slug x <> sc_slug sec.
Proof.
  unfold section_free, str_eqb. rewrite bool_decide_eq_true, where_nil. split.
  - intros H s x Hx Hne Er Es. specialize (H s x Hx). rewrite Er, Es, Z.eqb_refl, bool_decide_eq_false_2 in H by done.
    by rewrite bool_decide_eq_true_2 in H.
  - intros H s x Hx. apply not_true_iff_false. intros E. bool_to_prop. by apply (H s x).
Qed.

Lemma sound_update_section pk sec0 sec l :
  sound l -> rows (sections l) !! pk = Some sec0 -> sc_runbook sec = sc_runbook sec0 -> section_free (Some pk) sec l = true ->
  sound (l <| sections := update_row pk (fun _ => sec) (sections l) |>).
Proof.
  intros S Hpk Er Hf. rewrite section_free_true in Hf. destruct (sound_sections l S) as [P U].
  split; cbn [runbooks sections documents versions images subscriptions upd]; eauto with tables.
  - split.
    + intros s x (y & Hy & [[-> ->]|[_ ->]])%update_row_inv; [rewrite Er|]; eauto.
    + intros s x s' x' (y & Hy & Dy)%update_row_inv (z & Hz & Dz)%update_row_inv E1 E2.
      destruct Dy as [[-> ->]|[Ny ->]], Dz as [[-> ->]|[Nz ->]]; [done| | |by apply (U s y s' z)].
      * destruct (Hf s' z Hz); [congruence|done|done].
      * destruct (Hf s y Hy); [congruence|done|done].
  - destruct (sound_documents l S) as [DP DU DK]. split; [|done..]. intros k d Hd. destruct (DP k d Hd) as [P1 P2].
    split; [done|]. intros s Es. destruct (P2 s Es) as (y & Hs & Ey). rewrite lookup_update.
    destruct (decide (s = pk)) as [->|N]; [|eauto]. rewrite Hs. exists sec. split; [done|]. congruence.
Qed.

Lemma sound_subscriptions subs l :
  sound l -> (forall pk who, (pk, who) ∈ subs -> is_Some (rows (documents l) !! pk)) -> sound (l <| subscriptions := subs |>).
Proof.
  intros S Hs. destruct (sound_attached l S) as [IP SP].
  split; cbn [runbooks sections documents versions images subscriptions upd]; eauto with tables. by split.
Qed.
