(* ===== verification/RunbookSteps.v ===== *)
(** * The operations of the document service, as changes of one row at a time

    Every operation of service.py that succeeds is a chain of [change]s, each
    of them a change of the documents its caller may write, or of documents the
    operation made. What every change keeps, every sequence of operations
    keeps: the contract of the tables ([sound]), the identity of a document,
    and whatever the caller may not write. *)
From stdpp Require Import sorting relations.
From S2P Require Import Prelude PyFloat PyStr Regex PyLib Tables Runbook RunbookService RunbookSound.
Open Scope Z_scope.

(** ** Computations that may raise, inverted *)

Section Inversion.
Context {E A B : Type}.

Lemma bind_Ok (m : result E A) (f : A -> result E B) y : mbind f m = Ok y <-> exists x, m = Ok x /\ f x = Ok y.
Proof. destruct m; cbn; [naive_solver|]. split; [done|]. by intros (? & ? & _). Qed.

Lemma fmap_Ok (m : result E A) (f : A -> B) y : f <$> m = Ok y <-> exists x, m = Ok x /\ f x = y.
Proof. destruct m; cbn; [naive_solver|]. split; [done|]. by intros (? & ? & _). Qed.
End Inversion.

Lemma Ok_inj {E A} (x y : A) : @Ok E A x = Ok y -> x = y.
Proof. by intros [= ->]. Qed.

Lemma guard_Ok b e x : guard b e = Ok x <-> b = true.
Proof. destruct b, x; cbn; naive_solver. Qed.

Lemma found_Ok {A} (o : option A) e x : found o e = Ok x <-> o = Some x.
Proof. destruct o; cbn; naive_solver. Qed.

Lemma atomic_Ok {A} (r : result SvcError A) x : atomic r = Ok x <-> r = Ok x.
Proof. destruct r as [|e]; cbn; [done|]. split; [|done]. by destruct e as [| | | | | | | | | |[]| |]. Qed.

Ltac ok_step :=
  match goal with
  | H : mbind _ _ = Ok _ |- _ => apply bind_Ok in H as (? & ? & H)
  | H : _ <$> _ = Ok _ |- _ => apply fmap_Ok in H as (? & ? & H)
  | H : guard _ _ = Ok _ |- _ => apply guard_Ok in H
  | H : found _ _ = Ok _ |- _ => apply found_Ok in H
  | H : atomic _ = Ok _ |- _ => apply (proj1 (atomic_Ok _ _)) in H
  | H : Ok _ = Ok _ |- _ => apply Ok_inj in H; subst
  | H : (_, _) = (_, _) |- _ => apply pair_equal_spec in H as [? ?]; subst
  | H : Err _ = Ok _ |- _ => discriminate H
  | H : (let '(_, _) := ?x in _) = Ok _ |- _ => destruct x
  end.
Ltac ok_steps := repeat (ok_step; cbn [fst snd] in * ).

(** ** Changes *)

Section Changes.
(** The documents that may be touched. *)
Context (T : Z -> Prop).

Inductive change (l : Library) : Library -> Prop :=
| ch_emit e : change l (emit e l)
| ch_save pk f : T pk -> (forall d, unmoved d (f d) /\ same_head d (f d)) ->
    change l (l <| documents := update_row pk f (documents l) |>)
| ch_place pk f : T pk ->
    (forall d, rows (documents l) !! pk = Some d ->
      dc_uid (f d) = dc_uid d /\ placed (runbooks l) (sections l) (f d) /\ clashes pk (f d) l = false /\ same_head d (f d)) ->
    change l (l <| documents := update_row pk f (documents l) |>)
| ch_insert d pk l' : insert_document d l = Ok (pk, l') -> dc_current d = None -> placed (runbooks l) (sections l) d ->
    change l l'
| ch_version pk d body who description source via now : T pk -> rows (documents l) !! pk = Some d ->
    change l (with_version d pk (new_version d pk body who description source via now l) now l)
| ch_overwrite pk body source via now l' : T pk -> overwrite_head pk body source via now l = Ok l' -> change l l'
| ch_tear v : (forall vn, rows (versions l) !! v = Some vn -> T (vn_document vn)) ->
    change l (l <| versions := update_row v (fun vn => vn <| vn_body := [] |>) (versions l) |>)
| ch_drop p : (forall pk d, rows (documents l) !! pk = Some d -> p pk d = true -> T pk) -> change l (drop_documents p l)
| ch_prune p :
    (forall v vn, rows (versions l) !! v = Some vn -> p v vn = true ->
      T (vn_document vn) /\ forall pk d, rows (documents l) !! pk = Some d -> dc_current d <> Some v) ->
    change l (l <| versions := delete_rows p (versions l) |>)
| ch_image im : is_Some (rows (documents l) !! im_document im) -> change l (l <| images := (insert_row im (images l)).2 |>)
| ch_runbook rb pk l' : insert_runbook rb l = Ok (pk, l') -> change l l'
| ch_update_runbook pk f : (forall rb, rb_slug (f rb) = rb_slug rb) ->
    change l (l <| runbooks := update_row pk f (runbooks l) |>)
| ch_section sec : is_Some (rows (runbooks l) !! sc_runbook sec) ->
    (forall s x, rows (sections l) !! s = Some x -> sc_runbook x = sc_runbook sec -> sc_slug x <> sc_slug sec) ->
    change l (l <| sections := (insert_row sec (sections l)).2 |>)
| ch_update_section pk sec0 sec : rows (sections l) !! pk = Some sec0 -> sc_runbook sec = sc_runbook sec0 ->
    section_free (Some pk) sec l = true ->
    change l (l <| sections := update_row pk (fun _ => sec) (sections l) |>)
| ch_drop_section s : (forall pk d, rows (documents l) !! pk = Some d -> dc_section d = Some s -> T pk) ->
    change l (drop_section s l)
| ch_unkey rb : (forall pk d, rows (documents l) !! pk = Some d -> dc_runbook d = Some rb -> T pk) ->
    change l (l <| documents := map_rows (unkey rb) (documents l) |>)
| ch_drop_runbook rb : (forall pk d, rows (documents l) !! pk = Some d -> dc_runbook d = Some rb -> T pk) ->
    change l (drop_runbook rb l)
| ch_subscriptions subs : (forall pk who, (pk, who) ∈ subs -> is_Some (rows (documents l) !! pk)) ->
    change l (l <| subscriptions := subs |>).

Definition changes : Library -> Library -> Prop := rtc change.

Lemma sound_tear v l :
  sound l -> sound (l <| versions := update_row v (fun vn => vn <| vn_body := [] |>) (versions l) |>).
Proof.
  intros S. destruct (sound_versions l S) as [H P N Q].
  split; cbn [runbooks sections documents versions images subscriptions upd]; eauto with tables; split.
  - intros k d Hd. specialize (H k d Hd). unfold heads in *. destruct (dc_current d) as [c|].
    + destruct H as (vn & Hv & D & Nv & Tv & M). rewrite lookup_update, Hv.
      exists (if decide (c = v) then vn <| vn_body := [] |> else vn). split_and!; try (by case_decide).
      intros v' vn' (y & Hy & [[-> ->]|[_ ->]])%update_row_inv E; cbn in *; by eapply M.
    + intros v' vn' (y & Hy & [[-> ->]|[_ ->]])%update_row_inv; cbn; by eapply H.
  - intros w x (y & Hy & [[-> ->]|[_ ->]])%update_row_inv; cbn; by eapply P.
  - intros w x w' x' (y & Hy & Dy)%update_row_inv (y' & Hy' & Dy')%update_row_inv ED EN.
    apply (N w y w' y'); try done; destruct Dy as [[-> ->]|[_ ->]], Dy' as [[-> ->]|[_ ->]]; done.
  - intros w x (y & Hy & [[-> ->]|[_ ->]])%update_row_inv; cbn; by eapply Q.
Qed.

Lemma sound_change l l' : sound l -> change l l' -> sound l'.
Proof.
  intros S C. destruct C as
    [e|pk f _ Hf|pk f _ Hf|d pk l' E Hc Hp|pk d body who de so vi now _ Hd|pk body so vi now l' _ E|v _|p _|p Hp|im Hi
    |rb pk l' E|pk f Hf|sec Hr Hs|pk sec0 sec Hpk Hrb Hfree|sc HT|rb HT|rb HT|subs Hs].
  - by apply sound_emit.
  - by apply sound_update_unmoved.
  - apply sound_update_document; [done|]. intros d Hd. by destruct (Hf d Hd) as (_ & ? & ? & ?).
  - by eapply sound_insert_document.
  - by apply sound_with_version.
  - by eapply sound_overwrite_head.
  - by apply sound_tear.
  - by apply sound_drop_documents.
  - apply sound_delete_versions; [done|]. intros v vn pk d Hv Hpv Hd. by apply (Hp v vn Hv Hpv) with pk.
  - by apply sound_insert_image.
  - by eapply sound_insert_runbook.
  - by apply sound_update_runbook.
  - by apply sound_insert_section.
  - by eapply sound_update_section.
  - by apply sound_drop_section.
  - by apply sound_unkey.
  - by apply sound_drop_runbook.
  - by apply sound_subscriptions.
Qed.

Lemma sound_changes l l' : sound l -> changes l l' -> sound l'.
Proof. intros S C. induction C as [|l l1 l' H _ IH]; [done|]. apply IH. by eapply sound_change. Qed.

(** ** What every change keeps of a document *)

(** Its identity for life: a key is given once, and its [uid] with it. *)
Definition outlives (l l' : Library) : Prop :=
  next_pk (documents l) <= next_pk (documents l') /\
  forall pk d', rows (documents l') !! pk = Some d' ->
    next_pk (documents l) <= pk \/ exists d, rows (documents l) !! pk = Some d /\ dc_uid d' = dc_uid d.

Lemma outlives_docs l l' : documents l' = documents l -> outlives l l'.
Proof. intros E. split; rewrite E; [done|]. eauto. Qed.

Lemma outlives_update l l' pk f :
  (forall d, rows (documents l) !! pk = Some d -> dc_uid (f d) = dc_uid d) ->
  documents l' = update_row pk f (documents l) -> outlives l l'.
Proof.
  intros Hf E. split; rewrite E; [done|]. intros k d' (x & Hx & [[-> ->]|[_ ->]])%update_row_inv; right; eauto.
Qed.

Lemma outlives_map l l' f :
  (forall d, displaced d (f d)) -> documents l' = map_rows f (documents l) -> outlives l l'.
Proof.
  intros Hf E. split; rewrite E; [done|]. intros k d' (x & Hx & ->)%map_rows_inv. right. exists x. split; [done|]. by apply Hf.
Qed.

Lemma outlives_change l l' : change l l' -> outlives l l'.
Proof.
  intros C. destruct C as
    [e|pk f _ Hf|pk f _ Hf|d pk l' E Hc Hp|pk d body who de so vi now _ Hd|pk body so vi now l' _ E|v _|p _|p Hp|im Hi
    |rb pk l' E|pk f Hf|sec Hr Hs|pk sec0 sec Hpk Hrb Hfree|sc HT|rb HT|rb HT|subs Hs]; try (by apply outlives_docs).
  - apply outlives_update with pk f; [|done]. intros d _. by destruct (Hf d) as [[? _] _].
  - apply outlives_update with pk f; [|done]. intros d Hd. by destruct (Hf d Hd) as [? _].
  - apply insert_document_ok in E as (_ & -> & _). split; cbn; [lia|].
    intros k d' [[-> ->]|[_ H]]%(insert_row_inv d); [by left|right; eauto].
  - eapply outlives_update; [|reflexivity]. done.
  - apply overwrite_head_ok in E as (d & v & _ & _ & _ & ->). eapply outlives_update; [|reflexivity]. done.
  - split; cbn; [done|]. intros k d' [H _]%(lookup_delete p). eauto.
  - apply insert_runbook_ok in E as (_ & -> & _). by apply outlives_docs.
  - eapply outlives_map; [apply unfile_displaced|done].
  - eapply outlives_map; [apply unkey_displaced|done].
  - eapply outlives_map; [|done]. intros d. eapply displaced_trans; [apply unfile_displaced|apply detach_displaced].
Qed.

Lemma outlives_changes l l' : changes l l' -> outlives l l'.
Proof.
  induction 1 as [l|l l1 l' H _ [N2 O2]]; [by apply outlives_docs|].
  apply outlives_change in H as [N1 O1]. split; [lia|]. intros pk d' Hd'.
  destruct (O2 pk d' Hd') as [?|(d1 & Hd1 & E1)]; [left; lia|].
  destruct (O1 pk d1 Hd1) as [?|(d & Hd & E)]; [by left|]. right. exists d. by rewrite E1.
Qed.

(** A document that may not be touched stays, with its versions. *)
Definition versions_agree (pk : Z) (l l' : Library) : Prop :=
  forall v vn, vn_document vn = pk -> rows (versions l) !! v = Some vn <-> rows (versions l') !! v = Some vn.
Definition untouched (pk : Z) (l l' : Library) : Prop :=
  rows (documents l') !! pk = rows (documents l) !! pk /\ versions_agree pk l l'.

Lemma untouched_trans pk l l1 l' : untouched pk l l1 -> untouched pk l1 l' -> untouched pk l l'.
Proof. intros [D1 V1] [D2 V2]. split; [congruence|]. intros v vn E. by rewrite (V1 v vn E), (V2 v vn E). Qed.

Lemma untouched_same pk l l' :
  rows (documents l') !! pk = rows (documents l) !! pk -> versions l' = versions l -> untouched pk l l'.
Proof. intros D V. split; [done|]. intros v vn E. by rewrite V. Qed.

(** Versions of another document updated. *)
Lemma versions_agree_update pk l l' v f :
  versions l' = update_row v f (versions l) -> (forall vn, vn_document (f vn) = vn_document vn) ->
  (forall vn, rows (versions l) !! v = Some vn -> vn_document vn <> pk) -> versions_agree pk l l'.
Proof.
  intros V Hf Hv w vn E. rewrite V. split.
  - intros H. rewrite update_row_miss; [done|]. intros ->. by apply (Hv vn).
  - intros (x & Hx & [[-> ->]|[_ ->]])%update_row_inv; [|done]. rewrite Hf in E. by destruct (Hv x).
Qed.

Lemma unfile_none gone d : (forall s, dc_section d = Some s -> gone s = false) -> unfile gone d = d.
Proof. unfold unfile. destruct (dc_section d) as [s|]; [|done]. intros Hg. by rewrite (Hg s eq_refl). Qed.

Lemma untouched_change l l' pk :
  sound l -> change l l' -> ~ T pk -> is_Some (rows (documents l) !! pk) -> untouched pk l l'.
Proof.
  intros S C NT [d0 Hd0]. destruct C as
    [e|k f HT Hf|k f HT Hf|d k l' E Hc Hp|k d body who de so vi now HT Hd|k body so vi now l' HT E|v HT|p HT|p Hp|im Hi
    |rb k l' E|k f Hf|sec Hr Hs|k f Hf|sc HT|rb HT|rb HT|subs Hs]; try (by apply untouched_same).
  - apply untouched_same; [|done]. apply update_row_miss. by intros ->.
  - apply untouched_same; [|done]. apply update_row_miss. by intros ->.
  - apply insert_document_ok in E as (_ & -> & _). apply untouched_same; [|done].
    pose proof (fresh_documents l S pk d0 Hd0). cbn. rewrite lookup_insert_ne; [done|lia].
  - split; [apply update_row_miss; by intros ->|]. intros v vn E. cbn [versions with_version upd]. split.
    + intros H. by apply insert_row_old; [apply fresh_versions|].
    + intros [[_ ->]|[_ H]]%insert_row_inv; [|done]. cbn in E. by subst.
  - apply overwrite_head_ok in E as (d & v & Hd & Ev & _ & ->).
    split; [apply update_row_miss; by intros ->|].
    eapply (versions_agree_update pk l _ v); [done|done|]. intros vn Hv E.
    pose proof (doc_head _ _ (sound_versions l S) k d Hd) as H. unfold heads in H. rewrite Ev in H.
    destruct H as (w & Hw & D & _). assert (w = vn) as -> by congruence. by subst.
  - split; [done|]. eapply (versions_agree_update pk l _ v); [done|done|]. intros vn Hv E. apply NT. rewrite <- E. by apply HT.
  - assert (Hp : p pk d0 = false) by (apply not_true_iff_false; intros E; by apply NT, (HT pk d0)).
    split; cbn [documents versions drop_documents upd].
    + rewrite Hd0. by apply lookup_delete.
    + intros v vn E. cbn [versions drop_documents upd]. rewrite lookup_delete, E. unfold document_at. by rewrite Hd0, Hp; intuition.
  - split; [done|]. intros v vn E. cbn [versions upd]. rewrite lookup_delete. split; [|by intros []]. intros H.
    split; [done|]. apply not_true_iff_false. intros Hpv. destruct (Hp v vn H Hpv) as [HT _]. by rewrite E in HT.
  - apply insert_runbook_ok in E as (_ & -> & _). by apply untouched_same.
  - apply untouched_same; [|done]. cbn [documents drop_section upd]. rewrite (map_rows_hit _ _ _ d0 Hd0), Hd0. f_equal.
    apply unfile_none. intros s Es. apply Z.eqb_neq. intros ->. by apply NT, (HT pk d0).
  - apply untouched_same; [|done]. cbn [documents upd]. rewrite (map_rows_hit _ _ _ d0 Hd0), Hd0. f_equal.
    unfold unkey. rewrite bool_decide_false; [done|]. intros Er. by apply NT, (HT pk d0).
  - apply untouched_same; [|done]. cbn [documents drop_runbook upd]. rewrite (map_rows_hit _ _ _ d0 Hd0), Hd0. f_equal.
    assert (Nr : dc_runbook d0 <> Some rb) by (intros Er; by apply NT, (HT pk d0)).
    rewrite unfile_none; [unfold detach; by rewrite bool_decide_false|]. intros s Es.
    destruct (in_a_section _ _ _ (doc_placed _ _ _ (sound_documents l S) pk d0 Hd0) s Es) as (sec & Hs & Er).
    unfold section_in. rewrite Hs. apply Z.eqb_neq. congruence.
Qed.

Lemma untouched_changes l l' pk :
  sound l -> changes l l' -> ~ T pk -> is_Some (rows (documents l) !! pk) -> untouched pk l l'.
Proof.
  intros S C NT. revert S. induction C as [l|l l1 l' H _ IH]; intros S Hd; [by apply untouched_same|].
  pose proof (untouched_change l l1 pk S H NT Hd) as U. eapply untouched_trans; [exact U|].
  apply IH; [by eapply sound_change|]. destruct U as [-> _]. done.
Qed.
End Changes.
#[export] Hint Resolve sound_changes : tables.

(** * Every operation is a chain of changes *)

Section Steps.
Context `{RunbookLib}.

(** The caller may write the document a key stands for, if it stands for one. *)
Definition may_write (actor : Actor) (bypass_lock : bool) (l : Library) (pk : Z) : Prop :=
  forall d, document_at pk l = Some d -> check_writable d actor bypass_lock l = Ok ().

Lemma may_write_new actor bypass_lock l pk : sound l -> next_pk (documents l) <= pk -> may_write actor bypass_lock l pk.
Proof. intros S Hpk d Hd. pose proof (fresh_documents l S pk d Hd). lia. Qed.

Lemma changes_one (T : Z -> Prop) l l' : change T l l' -> changes T l l'.
Proof. apply rtc_once. Qed.

Lemma changes_emit (T : Z -> Prop) e l l' : changes T l l' -> changes T l (emit e l').
Proof. intros C. eapply rtc_r; [exact C|constructor]. Qed.

(** A row still there after a chain of changes of its own. *)
Lemma resolve_runbook_Ok r l x : resolve_runbook r l = Ok x -> runbook_row x.1 l = Some x.2.
Proof.
  destruct r; cbn; intros E; ok_steps; [done|]. destruct x as [pk rb].
  by apply first_where_some in E as [? _].
Qed.

Lemma resolve_section_Ok rb s l x : resolve_section rb s l = Ok x ->
  forall pk, x = Some pk -> exists sec, rows (sections l) !! pk = Some sec /\ sc_runbook sec = rb.1.
Proof.
  destruct s as [[pk|slug]|]; cbn; intros E; ok_steps; try done; intros pk' [= <-].
  - bool_to_prop. eauto.
  - match goal with Hf : first_where _ _ = Some ?y |- _ =>
      destruct y as [pk sec]; apply first_where_some in Hf as [? E] end. cbn in *. bool_to_prop. eauto.
Qed.

Lemma doc_of_Ok r l x : doc_of r l = Ok x -> document_at x.1 l = Some x.2.
Proof.
  destruct r as [pk|a]; cbn; intros E; ok_steps; [done|]. unfold get_doc in E. ok_steps.
  unfold document_at. destruct (ad_uid a), (ad_id a), (ad_runbook a), (ad_key a); ok_steps; try done;
    destruct x as [pk d]; cbn;
    repeat match goal with Hf : first_where _ _ = Some _ |- _ => apply first_where_some in Hf as [? _] end; done.
Qed.

(** *** write_version *)

Lemma create_new_version_changes (T : Z -> Prop) pk body who description source via now l l' :
  sound l -> T pk -> create_new_version pk body who description source via now l = Ok l' -> changes T l l'.
Proof. intros S HT (d & Hd & _ & ->)%create_new_version_ok; [|done]. by apply changes_one, ch_version. Qed.

Lemma write_version_changes (T : Z -> Prop) pk body mode description source via actor bypass_lock now l l' :
  sound l -> T pk -> write_version pk body mode description source via actor bypass_lock now l = Ok l' -> changes T l l'.
Proof.
  intros S HT E. unfold write_version in E. ok_steps.
  destruct (mode_of mode) as [[]|]; ok_steps; apply changes_emit.
  - by eapply create_new_version_changes.
  - by eapply changes_one, ch_overwrite.
  - by eapply changes_one, ch_overwrite.
  - by eapply create_new_version_changes.
Qed.

Lemma write_version_kept pk body mode description source via actor bypass_lock now l l' :
  sound l -> write_version pk body mode description source via actor bypass_lock now l = Ok l' ->
  exists d d', document_at pk l = Some d /\ document_at pk l' = Some d' /\ unmoved d d' /\
               runbooks l' = runbooks l /\ sections l' = sections l /\ next_pk (documents l') = next_pk (documents l).
Proof.
  intros S E. unfold write_version in E. ok_steps. exists x. unfold document_at in *.
  destruct (mode_of mode) as [[]|]; ok_steps; cbn [documents runbooks sections emit upd].
  1,4: match goal with H : create_new_version _ _ _ _ _ _ _ _ = Ok _ |- _ =>
         apply create_new_version_ok in H as (d & Hd & _ & ->); [|done]; assert (d = x) as -> by congruence end;
       cbn [documents with_version upd runbooks sections]; eexists; split_and!; [done|by apply update_row_hit|done..].
  all: match goal with H : overwrite_head _ _ _ _ _ _ = Ok _ |- _ =>
         apply overwrite_head_ok in H as (d & v & Hd & _ & _ & ->); assert (d = x) as -> by congruence end;
       cbn [documents with_version upd runbooks sections]; eexists; split_and!; [done|by apply update_row_hit|done..].
Qed.

(** *** create_document *)

Lemma create_document_changes (T : Z -> Prop) r uid body title key section description source via generated doc_type locked
    actor now l pk l' :
  sound l -> T (next_pk (documents l)) ->
  create_document r uid body title key section description source via generated doc_type locked actor now l = Ok (pk, l') ->
  changes T l l' /\ pk = next_pk (documents l) /\ is_Some (document_at pk l') /\
  (exists d, document_at pk l' = Some d /\ dc_uid d = uid).
Proof.
  intros S HT E. unfold create_document in E. ok_steps.
  match goal with E : insert_document ?d l = Ok _ |- _ => rename E into EI; set (d0 := d) in * end.
  match goal with E : create_new_version _ _ _ _ _ _ _ _ = Ok _ |- _ => rename E into EV end.
  assert (P : placed (runbooks l) (sections l) d0).
  { match goal with E : resolve_runbook _ _ = Ok _ |- _ => apply resolve_runbook_Ok in E as ER end.
    match goal with E : resolve_section _ _ _ = Ok _ |- _ => rename E into ES end.
    split; cbn.
    - intros ? [= <-]. by eexists.
    - intros s ->. destruct (resolve_section_Ok _ _ _ _ ES s eq_refl) as (sec & Hs & Er). exists sec. by rewrite Er. }
  assert (C : change T l l0) by (eapply ch_insert; [exact EI|done|done]).
  assert (S1 : sound l0) by (by eapply sound_change).
  apply insert_document_ok in EI as EI'. destruct EI' as (-> & El & _).
  pose proof (create_new_version_changes T _ _ _ _ _ _ _ _ _ S1 HT EV) as C2.
  apply create_new_version_ok in EV as (d & Hd & _ & ->); [|done].
  assert (d = d0) as ->. { rewrite El in Hd. cbn in Hd. rewrite lookup_insert_eq in Hd. by injection Hd. }
  split_and!; [apply changes_emit; by eapply rtc_l|done| |].
  - unfold document_at. cbn [documents emit with_version upd]. apply is_Some_update. by eexists.
  - unfold document_at. cbn [documents emit with_version upd]. eexists. split; [by apply update_row_hit|done].
Qed.

(** *** Archiving, deleting, restoring *)

Lemma may_write_checked actor bypass_lock l pk d x :
  document_at pk l = Some d -> check_writable d actor bypass_lock l = Ok x -> may_write actor bypass_lock l pk.
Proof. intros Hd E d' Hd'. assert (d' = d) as -> by congruence. by destruct x. Qed.

Lemma changes_save (T : Z -> Prop) pk f now l :
  T pk -> (forall d, unmoved d (f d) /\ same_head d (f d)) -> changes T l (save_document pk f now l).
Proof. intros HT Hf. apply changes_one, ch_save; [done|]. intros d. by destruct (Hf d). Qed.

Lemma archive_document_changes r actor bypass_lock now l res l' :
  archive_document r actor bypass_lock now l = Ok (res, l') -> changes (may_write actor bypass_lock l) l l'.
Proof.
  intros E. unfold archive_document in E. ok_steps. destruct (dc_archived (snd x)); [done|].
  apply changes_emit, changes_save; [|done]. eapply may_write_checked; [by apply (doc_of_Ok r)|done].
Qed.

Lemma unarchive_document_changes r actor bypass_lock now l res l' :
  unarchive_document r actor bypass_lock now l = Ok (res, l') -> changes (may_write actor bypass_lock l) l l'.
Proof.
  intros E. unfold unarchive_document in E. ok_steps. destruct (dc_archived (snd x)); [|done].
  apply changes_save; [|done]. eapply may_write_checked; [by apply (doc_of_Ok r)|done].
Qed.

Lemma write_version_checks pk body mode description source via actor bypass_lock now l l' :
  write_version pk body mode description source via actor bypass_lock now l = Ok l' -> may_write actor bypass_lock l pk.
Proof. intros E. unfold write_version in E. ok_steps. by eapply may_write_checked. Qed.

Lemma restore_version_changes r n via actor bypass_lock now l pk l' :
  sound l -> restore_version r n via actor bypass_lock now l = Ok (pk, l') -> changes (may_write actor bypass_lock l) l l'.
Proof.
  intros S E. unfold restore_version in E. ok_steps.
  eapply write_version_changes; [done| |done]. by eapply write_version_checks.
Qed.

Lemma delete_document_changes r force actor bypass_lock now l l' :
  delete_document r force actor bypass_lock now l = Ok l' -> changes (may_write actor bypass_lock l) l l'.
Proof.
  intros E. unfold delete_document in E. ok_steps. destruct force; ok_steps.
  - apply changes_one, ch_drop. intros pk d Hd Ep. apply Z.eqb_eq in Ep. subst pk.
    eapply may_write_checked; [by apply (doc_of_Ok r)|done].
  - match goal with y : DocumentResult * Library |- _ => destruct y as [res l1] end.
    cbn in E. subst l1. by eapply archive_document_changes.
Qed.

(** *** put_document *)

Lemma find_keyed_Some rb key l pk d :
  find_keyed rb key l = Some (pk, d) -> document_at pk l = Some d /\ dc_runbook d = Some rb /\ dc_key d = Some key.
Proof. intros [? E]%first_where_some. bool_to_prop. done. Qed.

Lemma unclashed pk d l : sound l -> document_at pk l = Some d -> clashes pk d l = false.
Proof. intros S Hd. by eapply unmoved_clashes. Qed.

Lemma put_metadata_changes (T : Z -> Prop) rb p pk d now l l' :
  sound l -> T pk -> document_at pk l = Some d -> dc_runbook d = Some rb.1 -> put_metadata rb p pk d now l = Ok l' ->
  changes T l l'.
Proof.
  intros S HT Hd Hr E. unfold put_metadata in E. apply bind_Ok in E as (sec & Hs & E).
  match type of E with (if ?b then _ else _) = _ => destruct b end; ok_steps; [|done].
  apply changes_one. apply ch_place; [done|]. intros d' Hd'. assert (d' = d) as -> by (unfold document_at in Hd; congruence).
  pose proof (doc_placed _ _ _ (sound_documents l S) pk d Hd) as [P1 P2]. split_and!; [done| |exact (unclashed pk d l S Hd)|done].
  split; cbn; [done|]. case_bool_decide; [|done]. intros s ->.
  destruct (resolve_section_Ok _ _ _ _ Hs s eq_refl) as (y & Hy & Ey). exists y. by rewrite Hr, Ey.
Qed.

Lemma put_metadata_kept rb p pk d now l l' :
  document_at pk l = Some d -> put_metadata rb p pk d now l = Ok l' ->
  runbooks l' = runbooks l /\ exists d', document_at pk l' = Some d' /\ dc_uid d' = dc_uid d.
Proof.
  intros Hd E. unfold put_metadata in E. apply bind_Ok in E as (sec & Hs & E).
  match type of E with (if ?b then _ else _) = _ => destruct b end; ok_steps; [|eauto].
  split; [done|]. unfold document_at in *. eexists. split; [by apply update_row_hit|done].
Qed.

Lemma put_document_changes r key p uid actor bypass_lock now l res l' :
  sound l -> put_document r key p uid actor bypass_lock now l = Ok (res, l') ->
  changes (may_write actor bypass_lock l) l l' /\
  exists pk d, document_at pk l' = Some d /\ dc_uid d = dr_uid res /\ may_write actor bypass_lock l pk.
Proof.
  intros S E. unfold put_document in E. ok_steps. destruct (find_keyed _ key l) as [[pk d]|] eqn:Ef; ok_steps.
  - apply find_keyed_Some in Ef as (Hd & Hr & _).
    match goal with E : check_writable _ _ _ _ = Ok _ |- _ => pose proof (may_write_checked _ _ _ _ _ _ Hd E) as HT end.
    match goal with E : put_metadata _ _ _ _ _ _ = Ok ?y |- _ => rename E into EM; rename y into l1 end.
    match goal with E : write_version _ _ _ _ _ _ _ _ _ _ = Ok ?y |- _ => rename E into EW end.
    pose proof (put_metadata_changes _ _ _ _ _ _ _ _ S HT Hd Hr EM) as C1.
    assert (S1 : sound l1) by (by eapply sound_changes).
    pose proof (write_version_changes (may_write actor bypass_lock l) _ _ _ _ _ _ _ _ _ _ _ S1 HT EW) as C2.
    split; [by etrans|].
    destruct (write_version_kept _ _ _ _ _ _ _ _ _ _ _ S1 EW) as (? & d' & _ & Hd' & _).
    exists pk, d'. split_and!; [done| |done].
    match goal with E : result_at _ _ = Ok _ |- _ => unfold result_at in E; rewrite Hd' in E; cbn in E; by ok_steps end.
  - match goal with E : create_document _ _ _ _ _ _ _ _ _ _ _ _ _ _ _ = Ok _ |- _ => rename E into EC end.
    apply (create_document_changes (may_write actor bypass_lock l)) in EC as (C & -> & _ & d & Hd & _);
      [|done|by apply may_write_new].
    split; [done|]. eexists _, d. split_and!; [done| |by apply may_write_new].
    match goal with E : result_at _ _ = Ok _ |- _ => unfold result_at in E; rewrite Hd in E; cbn in E; by ok_steps end.
Qed.

(** *** move_document *)

Lemma move_document_changes r to_runbook to_section actor bypass_lock now l res l' :
  sound l -> move_document r to_runbook to_section actor bypass_lock now l = Ok (res, l') ->
  changes (may_write actor bypass_lock l) l l'.
Proof.
  intros S E. unfold move_document in E.
  apply bind_Ok in E as (x & Ex & E). apply bind_Ok in E as (y & Ey & E). apply bind_Ok in E as ([[rb sec] key] & Ep & E).
  ok_steps. apply doc_of_Ok in Ex as Hd. apply changes_emit, changes_one. apply ch_place; [by eapply may_write_checked|].
  intros d Hd'. assert (d = snd x) as -> by (unfold document_at in Hd; congruence).
  split_and!; [done| | |done].
  - destruct to_runbook as [target|]; ok_steps; [|done].
    match goal with E : resolve_runbook _ _ = Ok ?z |- _ => apply resolve_runbook_Ok in E as ER end.
    match goal with E : resolve_section _ _ _ = Ok _ |- _ => rename E into ES end.
    split; cbn.
    + intros ? [= <-]. by eexists.
    + intros s ->. destruct (resolve_section_Ok _ _ _ _ ES s eq_refl) as (z & Hz & Er). exists z. by rewrite Er.
  - match goal with E : negb (clashes _ _ _) = true |- _ => by apply negb_true_iff in E end.
Qed.
End Steps.

(** * Copies: images, sections, documents and whole runbooks *)

Section Copies.
Context `{RunbookLib}.

(** ** Images *)

(** Nothing but the images differs. *)
Definition only_images (l l' : Library) : Prop :=
  runbooks l' = runbooks l /\ sections l' = sections l /\ documents l' = documents l /\ versions l' = versions l.

Lemma clone_image_changes (T : Z -> Prop) target actor bl x :
  is_Some (rows (documents bl.2) !! target) ->
  changes T bl.2 (clone_image target actor bl x).2 /\ only_images bl.2 (clone_image target actor bl x).2.
Proof.
  destruct bl as [body l]. intros Ht. unfold clone_image. destruct (contains _ body); [|done].
  split; [|done]. by apply changes_one, (ch_image T l {| im_document := target; im_ext := _; im_data := _; im_alt := _; im_uploaded_by := _ |}).
Qed.

Lemma clone_referenced_images_changes (T : Z -> Prop) body source target actor l :
  is_Some (rows (documents l) !! target) ->
  changes T l (clone_referenced_images body source target actor l).2 /\
  only_images l (clone_referenced_images body source target actor l).2.
Proof.
  unfold clone_referenced_images. generalize (images_of source l). intros xs Ht.
  change (changes T (body, l).2 (foldl (clone_image target actor) (body, l) xs).2 /\
          only_images (body, l).2 (foldl (clone_image target actor) (body, l) xs).2).
  revert Ht. change (is_Some (rows (documents l) !! target)) with (is_Some (rows (documents (body, l).2) !! target)).
  generalize (body, l). induction xs as [|x xs IH]; intros bl Ht; [done|]. cbn [foldl].
  destruct (clone_image_changes T target actor bl x Ht) as [C1 (E1 & E2 & E3 & E4)].
  destruct (IH (clone_image target actor bl x)) as [C2 (F1 & F2 & F3 & F4)]; [by rewrite E3|].
  split; [by etrans|]. split_and!; congruence.
Qed.

Lemma attach_image_changes (T : Z -> Prop) r name data alt actor l pk md l' :
  attach_image r name data alt actor l = Ok (pk, md, l') -> changes T l l'.
Proof.
  intros E. unfold attach_image in E. apply bind_Ok in E as (x & Hd & E). apply doc_of_Ok in Hd. injection E as <- <- <-.
  apply changes_emit, changes_one.
  apply (ch_image T l {| im_document := fst x; im_ext := _; im_data := _; im_alt := _; im_uploaded_by := _ |}). by eexists.
Qed.

Lemma own_images_changes (T : Z -> Prop) body source target via actor now l l' :
  sound l -> T target -> is_Some (rows (documents l) !! target) -> own_images body source target via actor now l = Ok l' ->
  changes T l l'.
Proof.
  intros S HT Hd E. unfold own_images in E.
  destruct (clone_referenced_images_changes T body source target actor l Hd) as [C _].
  destruct (clone_referenced_images body source target actor l) as [rewritten l1]. cbn [snd] in C.
  destruct (str_eqb rewritten body); ok_steps; [done|].
  etrans; [exact C|]. eapply write_version_changes; [|done..]. by eapply sound_changes.
Qed.

(** ** Runbooks and sections *)

Lemma create_runbook_changes (T : Z -> Prop) slug name description owner public l pk l' :
  create_runbook slug name description owner public l = Ok (pk, l') -> changes T l l'.
Proof. intros E. unfold create_runbook in E. ok_steps. by eapply changes_one, ch_runbook. Qed.

Lemma saved_slug_runbook sec : sc_runbook (saved_slug sec) = sc_runbook sec.
Proof. unfold saved_slug. by destruct (nonempty _). Qed.

Lemma insert_section_ok sec l pk l' :
  insert_section sec l = Ok (pk, l') ->
  pk = next_pk (sections l) /\ l' = l <| sections := (insert_row (saved_slug sec) (sections l)).2 |>
  /\ section_free None (saved_slug sec) l = true.
Proof. unfold insert_section. destruct (section_free _ _ l); cbn; [|done]. by intros [= <- <-]. Qed.

Lemma insert_section_change (T : Z -> Prop) sec l pk l' :
  insert_section sec l = Ok (pk, l') -> is_Some (rows (runbooks l) !! sc_runbook sec) -> change T l l'.
Proof.
  intros (-> & -> & F)%insert_section_ok Hr. apply ch_section; [by rewrite saved_slug_runbook|].
  intros s x Hx. by eapply section_free_true.
Qed.

Lemma save_section_change (T : Z -> Prop) pk sec0 sec l l' :
  save_section pk sec l = Ok l' -> rows (sections l) !! pk = Some sec0 -> sc_runbook sec = sc_runbook sec0 -> change T l l'.
Proof.
  unfold save_section. destruct (section_free _ _ l) eqn:F; cbn; [|done]. intros [= <-] Hpk Hr.
  eapply ch_update_section; [exact Hpk|by rewrite saved_slug_runbook|done].
Qed.

Lemma create_section_changes (T : Z -> Prop) r slug name order actor l pk l' :
  create_section r slug name order actor l = Ok (pk, l') -> changes T l l'.
Proof.
  intros E. unfold create_section in E. ok_steps.
  match goal with E : resolve_runbook _ _ = Ok _ |- _ => apply resolve_runbook_Ok in E as ER end.
  destruct (first_where _ (sections l)) as [y|] eqn:Ef; [by ok_steps|].
  eapply changes_one, insert_section_change; [exact E|by eexists].
Qed.

Lemma set_runbook_public_changes (T : Z -> Prop) r public actor l pk l' :
  set_runbook_public r public actor l = Ok (pk, l') -> changes T l l'.
Proof.
  intros E. unfold set_runbook_public in E. ok_steps. destruct (Bool.eqb _ _); [done|].
  by apply changes_one, ch_update_runbook.
Qed.

(** ** Copies of a document *)

Lemma create_from_template_changes r uid title template section description actor now l pk l' :
  sound l -> create_from_template r uid title template section description actor now l = Ok (pk, l') ->
  changes (may_write actor false l) l l'.
Proof.
  intros S E. unfold create_from_template in E. ok_steps.
  match goal with E : create_document _ _ _ _ _ _ _ _ _ _ _ _ _ _ _ = Ok _ |- _ =>
    apply (create_document_changes (may_write actor false l)) in E as (C & -> & Hd & _); [|done|by apply may_write_new] end.
  etrans; [exact C|]. eapply own_images_changes; [|by apply may_write_new|done..]. by eapply sound_changes.
Qed.

Lemma copy_document_changes source viewer to_runbook to_key title section on_exists via uid actor now l res l' :
  sound l ->
  copy_document source viewer to_runbook to_key title section on_exists via uid actor now l = Ok (res, l') ->
  changes (may_write actor false l) l l'.
Proof.
  intros S E. unfold copy_document in E.
  apply bind_Ok in E as (src & _ & E). apply bind_Ok in E as (rb & _ & E). apply bind_Ok in E as ([res1 l1] & Ep & E).
  apply (put_document_changes _ _ _ _ _ _ _ _ _ _ S) in Ep as (C & pk & d & Hd & Eu & HT).
  assert (S1 : sound l1) by (by eapply sound_changes). ok_steps.
  match goal with E : first_where _ _ = Some ?y |- _ => destruct y as [pk' d']; apply first_where_some in E as [Hd' Eq] end.
  unfold str_eqb in Eq. bool_to_prop.
  assert (pk' = pk) as -> by (apply (uid_unique _ _ _ (sound_documents l1 S1) pk' d' pk d); [done..|congruence]).
  etrans; [exact C|]. eapply own_images_changes; [done|exact HT|by eexists|done].
Qed.

(** ** Copies of a runbook *)

Lemma sections_of_elem rb l s sec :
  (s, sec) ∈ sections_of rb l <-> rows (sections l) !! s = Some sec /\ sc_runbook sec = rb.
Proof.
  unfold sections_of. rewrite merge_sort_Permutation, where_elem. by rewrite Z.eqb_eq.
Qed.

Lemma where_NoDup {A} (p : Z -> A -> bool) (t : Table A) : NoDup (where_ p t).*1.
Proof.
  unfold where_. pose proof (NoDup_fst_map_to_list (rows t)) as N.
  induction (map_to_list (rows t)) as [|x l IH]; [constructor|]. cbn in *. apply NoDup_cons in N as [N1 N2].
  destruct (p x.1 x.2); [|auto]. cbn. constructor; [|auto]. rewrite list_elem_of_fmap. intros (y & Ey & Hy).
  apply N1. apply list_elem_of_fmap. exists y. split; [done|].
  rewrite list_elem_of_In, filter_In in Hy. rewrite list_elem_of_In. by destruct Hy.
Qed.

Lemma sections_of_NoDup rb l : NoDup (sections_of rb l).*1.
Proof. unfold sections_of. rewrite merge_sort_Permutation. apply where_NoDup. Qed.

(** The copies of the sections: each has one, in the target. *)
Definition only_sections (l l' : Library) : Prop :=
  runbooks l' = runbooks l /\ documents l' = documents l /\ versions l' = versions l.

Lemma clone_sections_changes (T : Z -> Prop) target xs m l m' l' :
  sound l -> is_Some (rows (runbooks l) !! target) ->
  (forall s s', m !! s = Some s' -> exists sec, rows (sections l) !! s' = Some sec /\ sc_runbook sec = target) ->
  clone_sections target m l xs = Ok (m', l') ->
  changes T l l' /\ only_sections l l' /\
  (forall s s', m' !! s = Some s' -> exists sec, rows (sections l') !! s' = Some sec /\ sc_runbook sec = target).
Proof.
  revert m l. induction xs as [|[s sec] xs IH]; intros m l S Ht Hm E; cbn [clone_sections] in E; [by injection E as <- <-|].
  apply bind_Ok in E as ([pk l1] & EI & E).
  pose proof (insert_section_change T _ _ _ _ EI Ht) as C.
  assert (S1 : sound l1) by (by eapply sound_change).
  apply insert_section_ok in EI as (-> & -> & _). set (row := saved_slug _) in *.
  destruct (IH (<[s := next_pk (sections l)]> m) _ S1 Ht) as (C2 & (E1 & E2 & E3) & H5); [|exact E|].
  - intros a b [[_ <-]|[_ Hb]]%lookup_insert_Some.
    + exists row. split; [apply (lookup_insert_row row)|apply saved_slug_runbook].
    + destruct (Hm a b Hb) as (y & Hy & Ey). exists y. split; [|done].
      apply insert_row_old; [apply fresh_sections; done|done].
  - split_and!; [by eapply rtc_l|split_and!; done|done].
Qed.

Lemma no_copies (P : Z -> Prop) (s s' : Z) : (∅ : gmap Z Z) !! s = Some s' -> P s'.
Proof. by rewrite lookup_empty. Qed.

Lemma clone_document_changes (T : Z -> Prop) target m copy_locked uid actor now l x l' :
  sound l -> T (next_pk (documents l)) -> is_Some (rows (runbooks l) !! target) ->
  (forall s s', m !! s = Some s' -> exists sec, rows (sections l) !! s' = Some sec /\ sc_runbook sec = target) ->
  clone_document target m copy_locked uid actor now l x = Ok l' ->
  changes T l l' /\ runbooks l' = runbooks l /\ sections l' = sections l.
Proof.
  intros S HT Ht Hm E. unfold clone_document in E. apply bind_Ok in E as ([pk l1] & EI & E).
  match type of EI with insert_document ?d _ = _ => set (d0 := d) in * end.
  assert (C1 : change T l l1).
  { eapply ch_insert; [exact EI|done|]. split; cbn; [by intros ? [= <-]|].
    intros s Es. destruct (dc_section (snd x)) as [s0|]; [|done]. cbn in Es.
    destruct (Hm s0 s Es) as (sec & Hs & <-). by exists sec. }
  assert (S1 : sound l1) by (by eapply sound_change).
  apply insert_document_ok in EI as (-> & El & _).
  assert (Hd : rows (documents l1) !! next_pk (documents l) = Some d0) by (rewrite El; apply (lookup_insert_row d0)).
  destruct (clone_referenced_images_changes T (read_head (snd x) l1) (fst x) (next_pk (documents l)) actor l1) as [C2 (E1 & E2 & E3 & E4)];
    [by eexists|].
  destruct (clone_referenced_images _ _ _ _ l1) as [body l2]. cbn [snd] in *.
  assert (S2 : sound l2) by (by eapply sound_changes).
  pose proof (create_new_version_changes T _ _ _ _ _ _ _ _ _ S2 HT E) as C3.
  apply create_new_version_ok in E as (d & _ & _ & ->); [|done].
  split; [eapply rtc_l; [exact C1|by etrans]|]. cbn [runbooks sections with_version upd].
  rewrite E1, E2, El. done.
Qed.

Lemma clone_documents_changes (T : Z -> Prop) n target m copy_locked uid actor now xs l l' :
  (forall pk, n <= pk -> T pk) -> n <= next_pk (documents l) -> sound l -> is_Some (rows (runbooks l) !! target) ->
  (forall s s', m !! s = Some s' -> exists sec, rows (sections l) !! s' = Some sec /\ sc_runbook sec = target) ->
  each (clone_document target m copy_locked uid actor now) l xs = Ok l' -> changes T l l'.
Proof.
  intros HT. revert l. induction xs as [|x xs IH]; intros l Hn S Ht Hm E; cbn in E; [by ok_steps|].
  apply bind_Ok in E as (l1 & E1 & E).
  destruct (clone_document_changes T _ _ _ _ _ _ _ _ _ S (HT _ Hn) Ht Hm E1) as (C & ER & ES).
  etrans; [exact C|]. apply IH; [|by eapply sound_changes|by rewrite ER|by rewrite ES|done].
  apply outlives_changes in C as [? _]. lia.
Qed.

Lemma clone_runbook_changes actor0 bypass_lock source new_slug new_name as_template copy_locked uid actor owner now l pk l' :
  sound l ->
  clone_runbook source new_slug new_name as_template copy_locked uid actor owner now l = Ok (pk, l') ->
  changes (may_write actor0 bypass_lock l) l l'.
Proof.
  intros S E. unfold clone_runbook in E. apply bind_Ok in E as (src & Es & E). apply (proj1 (atomic_Ok _ _)) in E.
  apply resolve_runbook_Ok in Es. apply bind_Ok in E as ([target l1] & EI & E).
  assert (C1 : change (may_write actor0 bypass_lock l) l l1) by (by eapply ch_runbook).
  assert (S1 : sound l1) by (by eapply sound_change).
  apply insert_runbook_ok in EI as (-> & El & _).
  set (target := next_pk (runbooks l)) in *.
  assert (Ht : is_Some (rows (runbooks l1) !! target)) by (rewrite El; eexists; apply lookup_insert_row).
  apply bind_Ok in E as ([m l2] & ES & E).
  destruct (clone_sections_changes (may_write actor0 bypass_lock l) _ _ _ _ _ _ S1 Ht (no_copies _) ES) as (C2 & (ER & ED & _) & Hm).
  apply bind_Ok in E as (l3 & E & E'). injection E' as _ <-.
    eapply rtc_l; [exact C1|]. etrans; [exact C2|].
    eapply clone_documents_changes with (n := next_pk (documents l)); [|rewrite ED, El; done| | | |exact E].
    + intros pk' Hpk. by apply may_write_new.
    + by eapply sound_changes.
    + by rewrite ER.
    + done.
Qed.

(** ** The slug of a copy *)

Lemma str_of_Z_inj m n : 0 <= m -> 0 <= n -> str_of_Z m = str_of_Z n -> m = n.
Proof.
  intros Hm Hn. unfold str_of_Z. rewrite !(proj2 (Z.ltb_ge _ 0)) by lia. intros E.
  destruct (dec_spec m Hm) as (_ & _ & Em), (dec_spec n Hn) as (_ & _ & En). rewrite E in Em. congruence.
Qed.

Lemma numbered_inj base m n : 0 <= m -> 0 <= n -> numbered base m = numbered base n -> m = n.
Proof. intros Hm Hn E. unfold numbered in E. apply app_inv_head, app_inv_head in E. by apply str_of_Z_inj. Qed.

Lemma numbered_longer base n : numbered base n <> base.
Proof. unfold numbered. intros E. apply (f_equal length) in E. rewrite !length_app in E. change (length (u "-")) with 1%nat in E. lia. Qed.

(** The slugs the search tries. *)
Definition tries (fuel : nat) (base : pystr) (counter : Z) (slug : pystr) : list pystr :=
  slug :: ((fun i => numbered base (counter + Z.of_nat i)) <$> seq 0 fuel).

Lemma free_slug_tries fuel base counter slug l :
  (exists s, free_slug fuel base counter slug l = Some s /\ slug_free s l = true) \/
  (free_slug fuel base counter slug l = None /\ forall s, s ∈ tries fuel base counter slug -> slug_free s l = false).
Proof.
  revert counter slug. induction fuel as [|fuel IH]; intros counter slug; cbn [free_slug]; destruct (slug_free slug l) eqn:E;
    try (left; by exists slug).
  - right. split; [done|]. intros s Hs. apply list_elem_of_singleton in Hs. by subst.
  - destruct (IH (counter + 1) (numbered base counter)) as [?|[En Ht]]; [by left|right]. split; [done|].
    intros s [->|Hs]%elem_of_cons; [done|]. apply Ht. cbn [seq fmap list_fmap] in Hs.
    apply elem_of_cons. apply elem_of_cons in Hs as [->|Hs]; [left; f_equal; lia|right].
    rewrite <- seq_shift in Hs. apply list_elem_of_fmap in Hs as (i & -> & Hi).
    change (map S (seq 0 fuel)) with (S <$> seq 0 fuel) in Hi. apply list_elem_of_fmap in Hi as (j & -> & Hj).
    apply list_elem_of_fmap. exists j. split; [|done]. f_equal. lia.
Qed.

Lemma tries_NoDup fuel base counter : 0 <= counter -> NoDup (tries fuel base counter base).
Proof.
  intros Hc. apply NoDup_cons. split.
  - intros Hin. apply list_elem_of_fmap in Hin as (i & E & _). by apply (numbered_longer base (counter + Z.of_nat i)).
  - apply NoDup_ListNoDup. apply Finite.Injective_map_NoDup_in; [|apply seq_NoDup].
    intros i j _ _ E. apply numbered_inj in E; lia.
Qed.

Lemma taken_slug s l : slug_free s l = false -> s ∈ (fun x => rb_slug x.2) <$> map_to_list (rows (runbooks l)).
Proof.
  intros E. destruct (decide (s ∈ (fun x => rb_slug x.2) <$> map_to_list (rows (runbooks l)))) as [|N]; [done|].
  assert (F : slug_free s l = true); [|congruence]. apply slug_free_true. intros pk rb Hr Es.
  apply N, list_elem_of_fmap. exists (pk, rb). split; [by cbn|by apply elem_of_map_to_list].
Qed.

(** [_unique_slug] ends, on a slug that is free: its loop finds one after
    as many tries as there are runbooks, at the latest. *)
Theorem unique_slug_ends base l : exists s, unique_slug base l = Some s /\ slug_free s l = true.
Proof.
  unfold unique_slug. set (b := if nonempty base then base else u "runbook").
  destruct (free_slug_tries (size (rows (runbooks l))) b 2 b l) as [?|[_ Ht]]; [done|exfalso].
  pose proof (tries_NoDup (size (rows (runbooks l))) b 2 ltac:(lia)) as N.
  assert (L : (length (tries (size (rows (runbooks l))) b 2 b) <= length ((fun x => rb_slug x.2) <$> map_to_list (rows (runbooks l))))%nat).
  { apply submseteq_length, NoDup_submseteq; [done|]. intros s Hs. by apply taken_slug, Ht. }
  unfold tries in L. cbn [length] in L. rewrite !length_fmap, length_seq, length_map_to_list in L. lia.
Qed.
End Copies.
