(* ===== verification/RunbookApi.v ===== *)
(** * apps/runbook/api.py: the REST endpoints of the document service

    A request that [api_view] let through: a caller, the access level of the
    token it came with, and an endpoint with the fields of its body, which have
    the types the schema of the API gives them. An error's text is the error
    itself. *)
From stdpp Require Import sorting.
From S2P Require Import Prelude PyFloat PyStr Regex PyLib Tables Json Runbook RunbookService.
Open Scope Z_scope.

Record RunbookSummary := {
  rs_slug : pystr;
  rs_name : pystr;
  rs_description : pystr;
  rs_owner : option Z;
  rs_public : bool;
  rs_template : bool;
  rs_pages : Z;
}.
Record SectionSummary := { ss_slug : pystr; ss_name : pystr; ss_order : Z }.

Inductive Body :=
  | BError (message : pystr)
  | BService (e : SvcError)
  | BDocument (d : DocumentResult)
  | BDocuments (ds : list DocumentSummary)
  | BDeleted (force : bool)
  | BRunbook (rb : RunbookSummary)
  | BRunbooks (rbs : list RunbookSummary)
  | BDetail (rb : RunbookSummary) (secs : list (SectionSummary * list DocumentSummary)) (sectionless : list DocumentSummary)
  | BSection (s : SectionSummary)
  | BSections (ss : list SectionSummary).

(** An answer, or an exception the handler lets through (a 500): the service's,
    or the [OverflowError] of [int]. *)
Inductive Response := Reply (status : Z) (body : Body) | ServerError (e : SvcError) | IntOverflow.

Definition api_error (message : pystr) (status : Z) : Response := Reply status (BError message).
Definition NOT_FOUND : Response := api_error (u "Not found") 404.

(** [_error_for] *)
Definition error_for (e : SvcError) : Response :=
  match e with
  | RunbookNotFound _ | SectionNotFound _ _ | DocumentNotFound _ => NOT_FOUND
  | DocumentLocked _ | NotAuthorized _ => Reply 403 (BService e)
  | VersionConflict _ _ | DocumentAlreadyExists _ _ | RunbookAlreadyExists _ => Reply 409 (BService e)
  | SlugRequired => Reply 400 (BService e)
  | UnknownMode _ | NotEncodable _ | NoHead | IntegrityError => ServerError e
  end.

(** [_require_write] *)
Definition require_write (c : Caller) (access : pystr) : option Response :=
  if bool_decide (cl_id c = None) then Some (api_error (u "Authentication required") 403)
  else if str_eqb access (u "readonly") then Some (api_error (u "Token is read-only") 403)
  else None.

(** The fields of the bodies of PUT and of a copy. *)
Record PutBody := {
  pb_body : option pystr;
  pb_title : option pystr;
  pb_section : option pystr;
  pb_on_exists : option pystr;
  pb_expected_version : option Z;
  pb_source : option pystr;
  pb_doc_type : option pystr;
}.
Record CopyBody := {
  cb_to_runbook : option pystr;
  cb_to_key : option pystr;
  cb_title : option pystr;
  cb_section : option pystr;
  cb_on_exists : option pystr;
}.
Record ContainerBody := {
  nb_slug : option pystr;
  nb_name : option pystr;
  nb_description : option pystr;
  nb_public : bool;
  nb_order : option Z;
}.

Inductive Endpoint :=
  | ListDocuments (runbook source q limit : option pystr)
  | ByUid (uid : pystr)
  | GetDocument (runbook key : pystr)
  | PutDocument (runbook key : pystr) (data : PutBody)
  | DeleteDocument (runbook key : pystr) (force : option pystr)
  | AppendDocument (runbook key : pystr) (body source : option pystr)
  | ArchiveDocument (runbook key : pystr)
  | UnarchiveDocument (runbook key : pystr)
  | MoveDocument (runbook key : pystr) (to_runbook to_section : option pystr)
  | RevertDocument (runbook key : pystr) (to_ : json)
  | CopyDocument (runbook key : pystr) (data : CopyBody)
  | ListRunbooks
  | CreateRunbook (data : ContainerBody)
  | RunbookDetail (slug : pystr)
  | ListSections (slug : pystr)
  | CreateSection (slug : pystr) (data : ContainerBody)
  | Publish (slug : pystr)
  | Unpublish (slug : pystr).

Section Api.
Context `{RunbookLib}.
(** The search engine, where it is installed: the hits of a query, the most
    relevant first. *)
Context (engine : option (pystr -> Z -> list Z)).

Definition answer {A} (f : A -> Body) (r : result SvcError (A * Library)) (l : Library) : Response * Library :=
  match r with Ok (x, l') => (Reply 200 (f x), l') | Err e => (error_for e, after_error e l) end.
Definition read {A} (f : A -> Body) (r : result SvcError A) : Response :=
  match r with Ok x => Reply 200 (f x) | Err e => error_for e end.

(** A filter of the query string: an empty one is none. *)
Definition filled (s : option pystr) : option pystr := s ← s; if nonempty s then Some s else None.

Definition api_list_documents (c : Caller) (runbook source q limit : option pystr) (l : Library) : Response :=
  let runbook := BookSlug <$> filled runbook in
  match match limit with Some s => parse_int s | None => Some 50 end with
  | None => api_error (u "'limit' must be an integer") 400
  | Some n =>
      match (match filled q with
             | Some query => search_documents ((fun hits => hits query (Z.min n 200)) <$> engine) (Some c) runbook (filled source) l
             | None => Ok None
             end) with
      | Err e => error_for e
      | Ok (Some docs) => Reply 200 (BDocuments docs)
      | Ok None => read BDocuments (list_documents runbook None (filled source) None (filled q) false (Some c) l)
      end
  end.

Definition uid_address (uid : pystr) : Address := {| ad_uid := Some uid; ad_id := None; ad_runbook := None; ad_key := None |}.
Definition key_address (runbook key : pystr) : Address :=
  {| ad_uid := None; ad_id := None; ad_runbook := Some (BookSlug runbook); ad_key := Some key |}.

Definition api_document_by_uid (c : Caller) (uid : pystr) (l : Library) : Response :=
  read BDocument (get_document (uid_address uid) true (Some c) l).

(** [api_document], by method *)
Definition api_document_get (c : Caller) (runbook key : pystr) (l : Library) : Response :=
  read BDocument (get_document (key_address runbook key) true (Some c) l).
Definition api_document_delete (c : Caller) (runbook key : pystr) (force : option pystr) (now : Z) (l : Library)
    : Response * Library :=
  let force := bool_decide (force = Some (u "true")) in
  match delete_document (keyed runbook key) force (Some c) false now l with
  | Ok l' => (Reply 200 (BDeleted force), l')
  | Err e => (error_for e, after_error e l)
  end.
Definition api_document_put (c : Caller) (runbook key : pystr) (data : PutBody) (uid : pystr) (now : Z) (l : Library)
    : Response * Library :=
  match pb_body data with
  | None => (api_error (u "body is required") 400, l)
  | Some body =>
      answer BDocument (put_document (BookSlug runbook) key
        {| pt_body := body; pt_title := pb_title data; pt_section := SectionSlug <$> pb_section data;
           pt_on_exists := default (u "new_version") (pb_on_exists data); pt_expected := pb_expected_version data;
           pt_source := default [] (pb_source data); pt_via := u "api"; pt_generated := true;
           pt_doc_type := default [] (pb_doc_type data); pt_locked := None |} uid (Some c) false now l) l
  end.

Definition api_document_append (c : Caller) (runbook key : pystr) (body source : option pystr) (uid : pystr) (now : Z)
    (l : Library) : Response * Library :=
  match body with
  | None => (api_error (u "body is required") 400, l)
  | Some body =>
      answer BDocument (append_to_document (BookSlug runbook) key
        {| pt_body := body; pt_title := None; pt_section := None; pt_on_exists := []; pt_expected := None;
           pt_source := default [] source; pt_via := u "api"; pt_generated := true; pt_doc_type := []; pt_locked := None |}
        uid (Some c) false now l) l
  end.

Definition api_document_archive (c : Caller) (runbook key : pystr) (now : Z) (l : Library) : Response * Library :=
  answer BDocument (archive_document (keyed runbook key) (Some c) false now l) l.
Definition api_document_unarchive (c : Caller) (runbook key : pystr) (now : Z) (l : Library) : Response * Library :=
  answer BDocument (unarchive_document (keyed runbook key) (Some c) false now l) l.

Definition api_document_move (c : Caller) (runbook key : pystr) (to_runbook to_section : option pystr) (now : Z) (l : Library)
    : Response * Library :=
  answer BDocument (move_document (keyed runbook key) (BookSlug <$> to_runbook) (SectionSlug <$> to_section) (Some c) false now l) l.

(** [to_] is [data.get("to", data.get("version"))]. *)
Definition api_document_revert (c : Caller) (runbook key : pystr) (to_ : json) (now : Z) (l : Library) : Response * Library :=
  match to_ with
  | JNull => (api_error (u "'to' (version number) is required") 400, l)
  | _ =>
      match jint to_ with
      | Err TypeOrValueError => (api_error (u "'to' must be an integer") 400, l)
      | Err OverflowError => (IntOverflow, l)
      | Ok n =>
          match restore_version (keyed runbook key) n (u "api") (Some c) false now l with
          | Err e => (error_for e, after_error e l)
          | Ok (pk, l') =>
              (* read back by the document's uid *)
              match document_at pk l' with
              | Some d => (read BDocument (get_document (uid_address (dc_uid d)) true (Some c) l'), l')
              | None => (NOT_FOUND, l')
              end
          end
      end
  end.

Definition api_document_copy (c : Caller) (runbook key : pystr) (data : CopyBody) (uid : pystr) (now : Z) (l : Library)
    : Response * Library :=
  match filled (cb_to_runbook data), filled (cb_to_key data) with
  | Some to_runbook, Some to_key =>
      answer BDocument (copy_document (At (key_address runbook key)) (Some c) (BookSlug to_runbook) to_key (cb_title data)
        (SectionSlug <$> cb_section data) (default (u "fail") (cb_on_exists data)) (u "api") uid (Some c) now l) l
  | _, _ => (api_error (u "'to_runbook' and 'to_key' are required") 400, l)
  end.

(** ** Runbooks *)

Definition runbook_summary (l : Library) (x : Z * RunbookRow) : RunbookSummary :=
  {| rs_slug := rb_slug x.2; rs_name := rb_name x.2; rs_description := rb_description x.2; rs_owner := rb_owner x.2;
     rs_public := rb_public x.2; rs_template := rb_template x.2;
     rs_pages := zlen (where_ (fun _ d => bool_decide (dc_runbook d = Some x.1) && negb (dc_archived d)) (documents l)) |}.
Definition section_summary (sec : SectionRow) : SectionSummary :=
  {| ss_slug := sc_slug sec; ss_name := sc_name sec; ss_order := sc_order sec |}.

Definition by_name (x y : Z * RunbookRow) : Prop := str_ltb (rb_name y.2) (rb_name x.2) = false.
#[local] Instance by_name_dec x y : Decision (by_name x y) := decide (_ = _).

(** [api_runbooks], by method *)
Definition api_runbooks_list (c : Caller) (l : Library) : Response :=
  Reply 200 (BRunbooks (runbook_summary l <$> merge_sort by_name (viewable_runbooks c l))).

Definition named_runbook (r : result SvcError (Z * Library)) (l : Library) : Response * Library :=
  match r with
  | Ok (pk, l') => match runbook_row pk l' with
                   | Some rb => (Reply 200 (BRunbook (runbook_summary l' (pk, rb))), l')
                   | None => (NOT_FOUND, l')
                   end
  | Err e => (error_for e, after_error e l)
  end.

Definition slug_or_name (data : ContainerBody) : option pystr :=
  match filled (nb_slug data) with Some s => Some s | None => filled (nb_name data) end.

Definition api_runbooks_create (c : Caller) (data : ContainerBody) (l : Library) : Response * Library :=
  match slug_or_name data with
  | None => (api_error (u "slug (or name) is required") 400, l)
  | Some slug => named_runbook (create_runbook slug (nb_name data) (default [] (nb_description data)) (Some c) (nb_public data) l) l
  end.

(** The slug of the section a listed document is in. *)
Definition section_slug (l : Library) (pk : Z) : option pystr :=
  d ← document_at pk l; s ← dc_section d; sc_slug <$> rows (sections l) !! s.

Definition api_runbook_detail (c : Caller) (slug : pystr) (l : Library) : Response :=
  match resolve_runbook (BookSlug slug) l with
  | Err e => error_for e
  | Ok (pk, rb) =>
      if negb (can_view c (Some rb)) then NOT_FOUND
      else match list_documents (Some (BookSlug (rb_slug rb))) None None None None false (Some c) l with
           | Err e => error_for e
           | Ok docs =>
               let in_ s := List.filter (fun d => bool_decide (section_slug l (ds_id d) = s)) docs in
               Reply 200 (BDetail (runbook_summary l (pk, rb))
                 ((fun x => (section_summary x.2, in_ (Some (sc_slug x.2)))) <$> sections_of pk l) (in_ None))
           end
  end.

(** [api_runbook_sections], by method *)
Definition api_sections_list (c : Caller) (slug : pystr) (l : Library) : Response :=
  match resolve_runbook (BookSlug slug) l with
  | Err e => error_for e
  | Ok (pk, rb) => if negb (can_view c (Some rb)) then NOT_FOUND
                   else Reply 200 (BSections ((fun x => section_summary x.2) <$> sections_of pk l))
  end.
Definition api_sections_create (c : Caller) (slug : pystr) (data : ContainerBody) (l : Library) : Response * Library :=
  match slug_or_name data with
  | None => (api_error (u "slug (or name) is required") 400, l)
  | Some sec =>
      match create_section (BookSlug slug) sec (nb_name data) (default 0 (nb_order data)) (Some c) l with
      | Err e => (error_for e, after_error e l)
      | Ok (pk, l') => match rows (sections l') !! pk with
                       | Some s => (Reply 200 (BSection (section_summary s)), l')
                       | None => (NOT_FOUND, l')
                       end
      end
  end.

(** [_set_runbook_visibility] *)
Definition set_runbook_visibility (c : Caller) (slug : pystr) (public : bool) (l : Library) : Response * Library :=
  named_runbook (set_runbook_public (BookSlug slug) public (Some c) l) l.

(** ** The endpoints *)

Definition writing (c : Caller) (access : pystr) (l : Library) (k : Response * Library) : Response * Library :=
  match require_write c access with Some r => (r, l) | None => k end.

Definition serve (c : Caller) (access : pystr) (e : Endpoint) (uid : pystr) (now : Z) (l : Library) : Response * Library :=
  match e with
  | ListDocuments runbook source q limit => (api_list_documents c runbook source q limit l, l)
  | ByUid d => (api_document_by_uid c d l, l)
  | GetDocument runbook key => (api_document_get c runbook key l, l)
  | PutDocument runbook key data => writing c access l (api_document_put c runbook key data uid now l)
  | DeleteDocument runbook key force => writing c access l (api_document_delete c runbook key force now l)
  | AppendDocument runbook key body source => writing c access l (api_document_append c runbook key body source uid now l)
  | ArchiveDocument runbook key => writing c access l (api_document_archive c runbook key now l)
  | UnarchiveDocument runbook key => writing c access l (api_document_unarchive c runbook key now l)
  | MoveDocument runbook key rb sec => writing c access l (api_document_move c runbook key rb sec now l)
  | RevertDocument runbook key to_ => writing c access l (api_document_revert c runbook key to_ now l)
  | CopyDocument runbook key data => writing c access l (api_document_copy c runbook key data uid now l)
  | ListRunbooks => (api_runbooks_list c l, l)
  | CreateRunbook data => writing c access l (api_runbooks_create c data l)
  | RunbookDetail slug => (api_runbook_detail c slug l, l)
  | ListSections slug => (api_sections_list c slug l, l)
  | CreateSection slug data => writing c access l (api_sections_create c slug data l)
  | Publish slug => writing c access l (set_runbook_visibility c slug true l)
  | Unpublish slug => writing c access l (set_runbook_visibility c slug false l)
  end.
End Api.
