(* ===== verification/RunbookViews.v ===== *)
(** * apps/runbook/views.py: the pages that change something

    A visit is a POST by a signed-in user, with the cleaned data of its form
    ([None] where the form does not validate). A page answers with a redirect,
    an error page or an exception; the tables follow. *)
From stdpp Require Import sorting.
From S2P Require Import Prelude PyFloat PyStr Regex PyLib Tables Runbook RunbookService.
Open Scope Z_scope.

Inductive Page :=
  | ToLogin
  | Http404
  | PermissionDenied
  | FormAgain
  | ToDashboard
  | ToRunbook (slug : pystr)
  | ToInstantiate (slug : pystr)
  | ToDocument (pk : Z)
  | ToDocumentList
  | ToEditor (pk : Z)
  | JsonError (message : pystr) (status : Z)
  | JsonImage (pk : Z) (url markdown : pystr)
  | NoReverseMatch
  | Crashed (e : SvcError).

(** Forms: RunbookForm and RunbookCreateForm, SectionForm, DocumentForm and
    DocumentCreateFromScratchForm. *)
Record RunbookForm := { rf_name : pystr; rf_description : pystr; rf_icon : pystr; rf_public : bool; rf_template : option Z }.
Record SectionForm := { sf_name : pystr; sf_description : pystr; sf_icon : pystr; sf_order : Z }.
Record DocumentForm := { df_title : pystr; df_section : option Z; df_description : pystr; df_file : option pystr; df_template : option Z }.

Section Views.
Context `{RunbookLib}.

(** The router matches no empty slug. *)
Definition get_runbook (slug : pystr) (l : Library) : option (Z * RunbookRow) :=
  if negb (nonempty slug) then None else first_where (fun _ rb => str_eqb (rb_slug rb) slug) (runbooks l).

(** [_editable] *)
Definition editable (c : Caller) (d : Document) : bool := negb (dc_locked d) || cl_superuser c.

(** A page of a runbook the user may edit, or of a document: a locked one
    sends back to the document. *)
Definition with_runbook (c : Caller) (slug : pystr) (l : Library) (k : Z * RunbookRow -> Page * Library) : Page * Library :=
  match get_runbook slug l with
  | None => (Http404, l)
  | Some x => if can_edit c (Some x.2) then k x else (PermissionDenied, l)
  end.
Definition with_document (c : Caller) (pk : Z) (l : Library) (k : Document -> Page * Library) : Page * Library :=
  match document_at pk l with
  | None => (Http404, l)
  | Some d => if can_edit_doc c d l then k d else (PermissionDenied, l)
  end.
Definition unless_locked (c : Caller) (pk : Z) (d : Document) (l : Library) (k : Page * Library) : Page * Library :=
  if editable c d then k else (ToDocument pk, l).

(** An operation of the service, and where it leads. *)
Definition leads {A} (r : result SvcError (A * Library)) (l : Library) (to : A -> Library -> Page) : Page * Library :=
  match r with Ok (x, l') => (to x l', l') | Err e => (Crashed e, after_error e l) end.
(** [get_absolute_url] of a runbook, or of a section of it: there is none for an
    empty slug. *)
Definition runbook_page (rb : RunbookRow) : Page :=
  if nonempty (rb_slug rb) then ToRunbook (rb_slug rb) else NoReverseMatch.
Definition to_runbook (pk : Z) (l : Library) : Page :=
  match runbook_row pk l with Some rb => runbook_page rb | None => Http404 end.

(** ** Runbooks *)

Definition runbook_of_form (f : RunbookForm) (owner : option Z) : RunbookRow :=
  {| rb_name := rf_name f; rb_slug := slugify (rf_name f); rb_description := rf_description f; rb_icon := rf_icon f;
     rb_owner := owner; rb_public := rf_public f; rb_template := false; rb_max_versions := None;
     rb_max_version_age_days := None; rb_ttl_days := None |}.

(** What the creator typed goes over what the template had. *)
Definition override (f : RunbookForm) (rb : RunbookRow) : RunbookRow :=
  rb <| rb_description := if nonempty (rf_description f) then rf_description f else rb_description rb |>
     <| rb_icon := if nonempty (rf_icon f) then rf_icon f else rb_icon rb |>
     <| rb_public := rf_public f |>.

(** [RunbookCreateView] *)
Definition runbook_create (c : Caller) (form : option RunbookForm) (uid : Z -> pystr) (now : Z) (l : Library) : Page * Library :=
  match form with
  | None => (FormAgain, l)
  | Some f =>
      match t ← rf_template f; rb ← runbook_row t l; Some (t, rb) with
      | Some (t, rb) =>
          if can_view c (Some rb) then
            match clone_runbook (BookRow t) None (Some (rf_name f)) false false uid (Some c) (Some c) now l with
            | Err e => (Crashed e, after_error e l)
            | Ok (pk, l') =>
                let l'' := l' <| runbooks := update_row pk (override f) (runbooks l') |> in (to_runbook pk l'', l'')
            end
          else (PermissionDenied, l)
      | None => leads (insert_runbook (runbook_of_form f (cl_id c)) l) l to_runbook
      end
  end.

(** [RunbookUpdateView] *)
Definition runbook_update (c : Caller) (slug : pystr) (form : option RunbookForm) (l : Library) : Page * Library :=
  with_runbook c slug l (fun x =>
    match form with
    | None => (FormAgain, l)
    | Some f => (runbook_page x.2,
                 l <| runbooks := update_row x.1 (fun rb => rb <| rb_name := rf_name f |> <| rb_description := rf_description f |>
                                                              <| rb_icon := rf_icon f |> <| rb_public := rf_public f |>) (runbooks l) |>)
    end).

(** [RunbookDeleteView] *)
Definition runbook_delete (c : Caller) (slug mode : pystr) (l : Library) : Page * Library :=
  with_runbook c slug l (fun x =>
    let l' := if str_eqb mode (u "cascade")
              then drop_documents (fun _ d => bool_decide (dc_runbook d = Some x.1)) l
              else l <| documents := map_rows (unkey x.1) (documents l) |> in
    (ToDashboard, drop_runbook x.1 l')).

(** [RunbookMakeTemplateView] *)
Definition runbook_make_template (c : Caller) (slug name : pystr) (uid : Z -> pystr) (now : Z) (l : Library) : Page * Library :=
  if bool_decide ((rb_template <$> (snd <$> get_runbook slug l)) = Some true) then (Http404, l)
  else with_runbook c slug l (fun x =>
    leads (clone_runbook (BookRow x.1) None (Some (if nonempty name then name else rb_name x.2 ++ u " Template"))
             true false uid (Some c) (Some c) now l) l to_runbook).

(** [RunbookFromTemplateView] *)
Definition runbook_from_template (c : Caller) (slug name new_slug : pystr) (uid : Z -> pystr) (now : Z) (l : Library)
    : Page * Library :=
  match get_runbook slug l with
  | None => (Http404, l)
  | Some x =>
      if negb (rb_template x.2) then (Http404, l)
      else if negb (can_view c (Some x.2)) then (PermissionDenied, l)
      else if negb (nonempty (strip name)) then (ToInstantiate slug, l)
      else leads (clone_runbook (BookRow x.1) (if nonempty (strip new_slug) then Some (strip new_slug) else None)
                    (Some (strip name)) false false uid (Some c) (Some c) now l) l to_runbook
  end.

(** [RunbookPublishToggleView] *)
Definition runbook_publish_toggle (c : Caller) (slug : pystr) (l : Library) : Page * Library :=
  with_runbook c slug l (fun x =>
    (runbook_page x.2, l <| runbooks := update_row x.1 (fun rb => rb <| rb_public := negb (rb_public rb) |>) (runbooks l) |>)).

(** ** Sections *)

(** [SectionCreateView]; the form knows neither the runbook nor the slug. *)
Definition section_of_form (rb : Z) (slug : pystr) (f : SectionForm) : SectionRow :=
  {| sc_runbook := rb; sc_name := sf_name f; sc_slug := slug; sc_description := sf_description f; sc_icon := sf_icon f;
     sc_order := sf_order f |}.
Definition section_create (c : Caller) (slug : pystr) (form : option SectionForm) (l : Library) : Page * Library :=
  with_runbook c slug l (fun x =>
    match form with
    | None => (FormAgain, l)
    | Some f => leads (insert_section (section_of_form x.1 [] f) l) l (fun _ _ => runbook_page x.2)
    end).

Definition with_section (c : Caller) (pk : Z) (l : Library) (k : SectionRow -> RunbookRow -> Page * Library) : Page * Library :=
  match sec ← rows (sections l) !! pk; rb ← runbook_row (sc_runbook sec) l; Some (sec, rb) with
  | None => (Http404, l)
  | Some (sec, rb) => if can_edit c (Some rb) then k sec rb else (PermissionDenied, l)
  end.

(** [SectionUpdateView] and [SectionDeleteView] *)
Definition section_update (c : Caller) (pk : Z) (form : option SectionForm) (l : Library) : Page * Library :=
  with_section c pk l (fun sec rb =>
    match form with
    | None => (FormAgain, l)
    | Some f => leads ((fun l' => (tt, l')) <$> save_section pk (section_of_form (sc_runbook sec) (sc_slug sec) f) l) l
                  (fun _ _ => runbook_page rb)
    end).
Definition section_delete (c : Caller) (pk : Z) (l : Library) : Page * Library :=
  with_section c pk l (fun _ rb => (runbook_page rb, drop_section pk l)).

(** ** Documents *)

(** [DocumentCreateView] *)
Definition document_create (c : Caller) (slug : pystr) (form : option DocumentForm) (uid : pystr) (now : Z) (l : Library)
    : Page * Library :=
  with_runbook c slug l (fun x =>
    match f ← form; body ← df_file f; Some (f, body) with
    | None => (FormAgain, l)
    | Some (f, body) =>
        leads (create_document (BookRow x.1) uid body (df_title f) None (SectionPk <$> df_section f) (df_description f) []
                 (u "web") false [] false (Some c) now l) l (fun pk _ => ToDocument pk)
    end).

(** [DocumentCreateFromScratchView] *)
Definition document_create_scratch (c : Caller) (slug : pystr) (form : option DocumentForm) (uid : pystr) (now : Z) (l : Library)
    : Page * Library :=
  with_runbook c slug l (fun x =>
    match form with
    | None => (FormAgain, l)
    | Some f =>
        leads (match df_template f with
               | Some t => create_from_template (BookRow x.1) uid (df_title f) t (SectionPk <$> df_section f) (df_description f) (Some c) now l
               | None => create_document (BookRow x.1) uid (u "# " ++ df_title f ++ NEWLINE ++ NEWLINE) (df_title f) None
                           (SectionPk <$> df_section f) (df_description f) [] (u "web") false [] false (Some c) now l
               end) l (fun pk _ => ToEditor pk)
    end).

(** [DocumentMakeTemplateView] *)
Definition document_make_template (c : Caller) (pk now : Z) (l : Library) : Page * Library :=
  with_document c pk l (fun _ => (ToDocument pk, save_document pk (fun d => d <| dc_template := negb (dc_template d) |>) now l)).

(** [DocumentUpdateView]: the sections offered are those of the document's
    runbook, or all of them. *)
Definition section_offered (d : Document) (l : Library) (s : Z) : bool :=
  match rows (sections l) !! s with
  | None => false
  | Some sec =>
      match match dc_runbook d with Some r => Some r | None => s' ← dc_section d; sc_runbook <$> rows (sections l) !! s' end with
      | Some r => sc_runbook sec =? r
      | None => true
      end
  end.
Definition document_update (c : Caller) (pk : Z) (form : option DocumentForm) (now : Z) (l : Library) : Page * Library :=
  with_document c pk l (fun d => unless_locked c pk d l
    match form with
    | None => (FormAgain, l)
    | Some f =>
        if match df_section f with Some s => negb (section_offered d l s) | None => false end then (FormAgain, l)
        else
          let l1 := save_document pk (fun d => d <| dc_title := df_title f |> <| dc_section := df_section f |>
                                                 <| dc_description := df_description f |>) now l in
          match df_file f with
          | None => (ToDocument pk, l1)
          | Some body =>
              match write_version pk body (u "new_version") [] [] (u "web") (Some c) false now l1 with
              | Ok l2 => (ToDocument pk, l2)
              | Err e => (Crashed e, after_error e l1)
              end
          end
    end).

(** [DocumentDeleteView] *)
Definition document_delete (c : Caller) (pk : Z) (l : Library) : Page * Library :=
  with_document c pk l (fun d => unless_locked c pk d l (ToDocumentList, drop_documents (fun pk' _ => pk' =? pk) l)).

(** [DocumentLockView] *)
Definition document_lock (c : Caller) (pk now : Z) (l : Library) : Page * Library :=
  if negb (cl_superuser c) then (PermissionDenied, l)
  else match document_at pk l with
       | None => (Http404, l)
       | Some _ => (ToDocument pk, save_document pk (fun d => d <| dc_locked := negb (dc_locked d) |>) now l)
       end.

(** [DocumentSubscribeView] *)
Definition document_subscribe (c : Caller) (pk : Z) (l : Library) : Page * Library :=
  match document_at pk l, cl_id c with
  | Some d, Some who =>
      if can_view_doc c d l
      then (ToDocument pk, if is_subscribed (Some who) pk l then unsubscribe who pk l else subscribe who pk l)
      else (PermissionDenied, l)
  | _, _ => (Http404, l)
  end.

(** [NewVersionView] and [RestoreVersionView] *)
Definition written (pk : Z) (r : result SvcError Library) (l : Library) : Page * Library :=
  match r with Ok l' => (ToDocument pk, l') | Err e => (Crashed e, after_error e l) end.
Definition new_version (c : Caller) (pk : Z) (form : option (pystr * pystr)) (now : Z) (l : Library) : Page * Library :=
  with_document c pk l (fun d => unless_locked c pk d l
    match form with
    | None => (FormAgain, l)
    | Some (body, description) =>
        written pk (write_version pk body (u "new_version") description [] (u "web") (Some c) false now l) l
    end).
Definition restore_old_version (c : Caller) (v now : Z) (l : Library) : Page * Library :=
  match version_at v l with
  | None => (Http404, l)
  | Some old =>
      with_document c (vn_document old) l (fun d => unless_locked c (vn_document old) d l
        (written (vn_document old)
           (write_version (vn_document old) (vn_body old) (u "new_version") (u "Restored from version " ++ str_of_Z (vn_number old))
              [] (u "web") (Some c) false now l) l))
  end.

(** [DocumentEditContentView]: a document with a version is a markdown one. *)
Definition document_edit_content (c : Caller) (pk : Z) (content : pystr) (save_as_version : bool) (now : Z) (l : Library)
    : Page * Library :=
  match document_at pk l with
  | None => (Http404, l)
  | Some d =>
      if bool_decide (dc_current d = None) then (Http404, l)
      else with_document c pk l (fun d => unless_locked c pk d l
        (if save_as_version then
           if str_eqb content (read_head d l) then (ToDocument pk, l)
           else written pk (write_version pk content (u "new_version") (u "Edited content") [] (u "web") (Some c) false now l) l
         else written pk (write_version pk content (u "overwrite") [] [] (u "web") (Some c) false now l) l))
  end.

(** [DocumentImageUploadView]; [form] is the name, the bytes and the text of
    the image, or what is wrong with it. *)
Definition document_image_upload (c : Caller) (pk : Z) (form : pystr * list Z * pystr + pystr) (l : Library) : Page * Library :=
  match document_at pk l with
  | None => (Http404, l)
  | Some d =>
      if negb (can_edit_doc c d l) then (JsonError (u "You do not have permission to edit this document.") 403, l)
      else if negb (editable c d) then (JsonError (u "Document is locked.") 403, l)
      else match form with
           | inr error => (JsonError error 400, l)
           | inl (name, data, alt) =>
               leads (attach_image (Instance pk) name data alt (Some c) l) l (fun x _ => JsonImage x.1 (serve_url x.1) x.2)
           end
  end.

(** ** The pages *)

Inductive Visit :=
  | RunbookCreate (form : option RunbookForm) (uid : Z -> pystr)
  | RunbookUpdate (slug : pystr) (form : option RunbookForm)
  | RunbookDelete (slug mode : pystr)
  | RunbookMakeTemplate (slug name : pystr) (uid : Z -> pystr)
  | RunbookFromTemplate (slug name new_slug : pystr) (uid : Z -> pystr)
  | RunbookPublishToggle (slug : pystr)
  | SectionCreate (slug : pystr) (form : option SectionForm)
  | SectionUpdate (pk : Z) (form : option SectionForm)
  | SectionDelete (pk : Z)
  | DocumentCreate (slug : pystr) (form : option DocumentForm) (uid : pystr)
  | DocumentCreateFromScratch (slug : pystr) (form : option DocumentForm) (uid : pystr)
  | DocumentMakeTemplate (pk : Z)
  | DocumentUpdate (pk : Z) (form : option DocumentForm)
  | DocumentDelete (pk : Z)
  | DocumentLock (pk : Z)
  | DocumentSubscribe (pk : Z)
  | NewVersionOf (pk : Z) (form : option (pystr * pystr))
  | RestoreVersion (version : Z)
  | DocumentEditContent (pk : Z) (content : pystr) (save_as_version : bool)
  | DocumentImageUpload (pk : Z) (form : pystr * list Z * pystr + pystr).

(** The pages whose [dispatch] looks the object up before the login is asked
    for, and whether it is there. *)
Definition looked_up (v : Visit) (l : Library) : bool :=
  match v with
  | SectionCreate slug _ | DocumentCreate slug _ _ | DocumentCreateFromScratch slug _ _ =>
      bool_decide (is_Some (get_runbook slug l))
  | DocumentUpdate pk _ | NewVersionOf pk _ => bool_decide (is_Some (document_at pk l))
  | _ => true
  end.

Definition visit (c : Caller) (now : Z) (v : Visit) (l : Library) : Page * Library :=
  if bool_decide (cl_id c = None) then (if looked_up v l then ToLogin else Http404, l)
  else match v with
  | RunbookCreate form uid => runbook_create c form uid now l
  | RunbookUpdate slug form => runbook_update c slug form l
  | RunbookDelete slug mode => runbook_delete c slug mode l
  | RunbookMakeTemplate slug name uid => runbook_make_template c slug name uid now l
  | RunbookFromTemplate slug name new_slug uid => runbook_from_template c slug name new_slug uid now l
  | RunbookPublishToggle slug => runbook_publish_toggle c slug l
  | SectionCreate slug form => section_create c slug form l
  | SectionUpdate pk form => section_update c pk form l
  | SectionDelete pk => section_delete c pk l
  | DocumentCreate slug form uid => document_create c slug form uid now l
  | DocumentCreateFromScratch slug form uid => document_create_scratch c slug form uid now l
  | DocumentMakeTemplate pk => document_make_template c pk now l
  | DocumentUpdate pk form => document_update c pk form now l
  | DocumentDelete pk => document_delete c pk l
  | DocumentLock pk => document_lock c pk now l
  | DocumentSubscribe pk => document_subscribe c pk l
  | NewVersionOf pk form => new_version c pk form now l
  | RestoreVersion version => restore_old_version c version now l
  | DocumentEditContent pk content save_as_version => document_edit_content c pk content save_as_version now l
  | DocumentImageUpload pk form => document_image_upload c pk form l
  end.
End Views.
