(* ===== verification/RunbookFacts.v ===== *)
(** * Calls of the document service and visits of its pages, in any order

    Whatever is called, with whatever errors, the tables keep their contract;
    what a caller may not write stays as it is; a document keeps its identity.
    A visit is a chain of changes of documents its user may edit, possibly cut
    by an exception; two pages do not look at the lock of what they delete or
    change. *)
From stdpp Require Import sorting relations.
From S2P Require Import Prelude PyFloat PyStr Regex PyLib Tables Runbook RunbookService RunbookSound RunbookSteps RunbookViews.
Open Scope Z_scope.

Section Facts.
Context `{RunbookLib}.

(** A call of the service by an actor. *)
Inductive Call :=
  | Write (pk : Z) (body mode description source via : pystr)
  | Create (r : RunbookRef) (uid body title : pystr) (key : option pystr) (section : option SectionRef)
      (description source via : pystr) (generated : bool) (doc_type : pystr) (locked : bool)
  | Attach (r : DocRef) (name : pystr) (data : list Z) (alt : pystr)
  | Archive (r : DocRef)
  | Unarchive (r : DocRef)
  | RestoreTo (r : DocRef) (version : Z) (via : pystr)
  | Delete (r : DocRef) (force : bool)
  | PutKeyed (r : RunbookRef) (key : pystr) (p : Put) (uid : pystr)
  | Move (r : DocRef) (to_runbook : option RunbookRef) (to_section : option SectionRef)
  | NewRunbook (slug : pystr) (name : option pystr) (description : pystr) (public : bool)
  | NewSection (r : RunbookRef) (slug : pystr) (name : option pystr) (order : Z)
  | SetPublic (r : RunbookRef) (public : bool)
  | FromTemplate (r : RunbookRef) (uid title : pystr) (template : Z) (section : option SectionRef) (description : pystr)
  | Copy (source : DocRef) (to_runbook : RunbookRef) (to_key : pystr) (title : option pystr) (section : option SectionRef)
      (on_exists via uid : pystr)
  | Clone (source : RunbookRef) (new_slug new_name : option pystr) (as_template copy_locked : bool) (uid : Z -> pystr).

Definition call (a : Actor) (now : Z) (c : Call) (l : Library) : result SvcError Library :=
  match c with
  | Write pk body mode description source via => write_version pk body mode description source via a false now l
  | Create r uid body title key section description source via generated doc_type locked =>
      snd <$> create_document r uid body title key section description source via generated doc_type locked a now l
  | Attach r name data alt => snd <$> attach_image r name data alt a l
  | Archive r => snd <$> archive_document r a false now l
  | Unarchive r => snd <$> unarchive_document r a false now l
  | RestoreTo r version via => snd <$> restore_version r version via a false now l
  | Delete r force => delete_document r force a false now l
  | PutKeyed r key p uid => snd <$> put_document r key p uid a false now l
  | Move r to_runbook to_section => snd <$> move_document r to_runbook to_section a false now l
  | NewRunbook slug name description public => snd <$> create_runbook slug name description a public l
  | NewSection r slug name order => snd <$> create_section r slug name order a l
  | SetPublic r public => snd <$> set_runbook_public r public a l
  | FromTemplate r uid title template section description =>
      snd <$> create_from_template r uid title template section description a now l
  | Copy source to_runbook to_key title section on_exists via uid =>
      snd <$> copy_document source a to_runbook to_key title section on_exists via uid a now l
  | Clone source new_slug new_name as_template copy_locked uid =>
      snd <$> clone_runbook source new_slug new_name as_template copy_locked uid a a now l
  end.

(** The tables after a call, failed or not. *)
Definition after_call (a : Actor) (now : Z) (c : Call) (l : Library) : Library :=
  match call a now c l with Ok l' => l' | Err e => after_error e l end.

Definition after_calls (cs : list (Actor * Z * Call)) (l : Library) : Library :=
  foldl (fun l x => after_call x.1.1 x.1.2 x.2 l) l cs.

Lemma call_changes a now c l l' : sound l -> call a now c l = Ok l' -> changes (may_write a false l) l l'.
Proof.
  intros S E. destruct c; cbn [call] in E;
    try (apply fmap_Ok in E as ([x l1] & E & Ex); cbn [snd] in Ex; subst l1).
  - eapply write_version_changes; [done| |done]. by eapply write_version_checks.
  - eapply create_document_changes; [done| |done]. by apply may_write_new.
  - destruct x. by eapply attach_image_changes.
  - by eapply archive_document_changes.
  - by eapply unarchive_document_changes.
  - by eapply restore_version_changes.
  - by eapply delete_document_changes.
  - by eapply put_document_changes.
  - by eapply move_document_changes.
  - by eapply create_runbook_changes.
  - by eapply create_section_changes.
  - by eapply set_runbook_public_changes.
  - by eapply create_from_template_changes.
  - by eapply copy_document_changes.
  - by eapply clone_runbook_changes.
Qed.

(** ** What an error leaves *)

(** A document left without a version could have been inserted. *)
Definition tears (l : Library) (e : SvcError) : Prop :=
  match e with
  | NotEncodable (RowLeft d) => clashes (next_pk (documents l)) d l = false /\ dc_current d = None /\
                                placed (runbooks l) (sections l) d
  | _ => True
  end.
Definition safe {A} (l : Library) (r : result SvcError A) : Prop := forall e, r = Err e -> tears l e.

Lemma safe_ok {A} l (x : A) : safe l (Ok x).
Proof. done. Qed.
Lemma safe_err {A} l e : tears l e -> safe l (@Err SvcError A e).
Proof. by intros Ht e' [= <-]. Qed.
Lemma safe_then {A B} l (m : result SvcError A) (f : A -> result SvcError B) :
  safe l m -> (forall x, m = Ok x -> safe l (f x)) -> safe l (mbind f m).
Proof. unfold safe. destruct m as [x|e]; cbn; naive_solver. Qed.
Lemma safe_fmap {A B} l (m : result SvcError A) (f : A -> B) : safe l m -> safe l (f <$> m).
Proof. unfold safe. destruct m as [x|e]; cbn; naive_solver. Qed.
Lemma safe_guard l b e : tears l e -> safe l (guard b e).
Proof. destruct b; intros Ht e'; cbn; [done|]. by intros [= <-]. Qed.
Lemma safe_found {A} l (o : option A) e : tears l e -> safe l (found o e).
Proof. destruct o; intros Ht e'; cbn; [done|]. by intros [= <-]. Qed.
Lemma safe_atomic {A} l (r : result SvcError A) : safe l r -> safe l (atomic r).
Proof.
  intros Hr e. destruct r as [|e0]; cbn; [done|]. specialize (Hr e0 eq_refl).
  destruct e0 as [| | | | | | | | | |[]| |]; cbn; intros [= <-]; done.
Qed.

Create HintDb safe.
Ltac safe_step :=
  match goal with
  | |- safe _ (Ok _) => apply safe_ok
  | |- safe _ (Err _) => apply safe_err; exact I
  | |- safe _ (mbind _ _) => apply safe_then; [|intros ? ?]
  | |- safe _ (_ <$> _) => apply safe_fmap
  | |- safe _ (guard _ _) => apply safe_guard; exact I
  | |- safe _ (found _ _) => apply safe_found; exact I
  | |- safe _ (atomic _) => apply safe_atomic
  | |- safe _ (let '(_, _) := ?x in _) => destruct x eqn:?
  | |- safe _ (match ?x with _ => _ end) => destruct x eqn:?
  end.
Ltac safe_steps := repeat (safe_step; cbn [fst snd]); auto with safe.

Lemma safe_resolve_runbook l0 r l : safe l0 (resolve_runbook r l).
Proof. unfold resolve_runbook. safe_steps. Qed.
Lemma safe_resolve_section l0 rb s l : safe l0 (resolve_section rb s l).
Proof. unfold resolve_section. safe_steps. Qed.
Lemma safe_check_writable l0 d a b l : safe l0 (check_writable d a b l).
Proof. unfold check_writable. safe_steps. Qed.
Lemma safe_may_edit l0 rb deed a : safe l0 (may_edit_runbook rb deed a).
Proof. unfold may_edit_runbook. safe_steps. Qed.
Hint Resolve safe_resolve_runbook safe_resolve_section safe_check_writable safe_may_edit : safe.
Lemma safe_create_new_version l0 pk body who de so vi now l : safe l0 (create_new_version pk body who de so vi now l).
Proof. unfold create_new_version. safe_steps. Qed.
Lemma safe_overwrite_head l0 pk body so vi now l : safe l0 (overwrite_head pk body so vi now l).
Proof. unfold overwrite_head. safe_steps. Qed.
Lemma safe_get_doc l0 a v l : safe l0 (get_doc a v l).
Proof. unfold get_doc. safe_steps. Qed.
Hint Resolve safe_create_new_version safe_overwrite_head safe_get_doc : safe.
Lemma safe_doc_of l0 r l : safe l0 (doc_of r l).
Proof. unfold doc_of. safe_steps. Qed.
Lemma safe_write_version l0 pk body mode de so vi a b now l : safe l0 (write_version pk body mode de so vi a b now l).
Proof. unfold write_version. safe_steps. Qed.
Lemma safe_result_at l0 pk l : safe l0 (result_at pk l).
Proof. unfold result_at. safe_steps. Qed.
Lemma safe_insert_document l0 d l : safe l0 (insert_document d l).
Proof. unfold insert_document. safe_steps. Qed.
Lemma safe_insert_runbook l0 rb l : safe l0 (insert_runbook rb l).
Proof. unfold insert_runbook. safe_steps. Qed.
Hint Resolve safe_doc_of safe_write_version safe_result_at safe_insert_document safe_insert_runbook : safe.
Lemma safe_put_metadata l0 rb p pk d now l : safe l0 (put_metadata rb p pk d now l).
Proof. unfold put_metadata. safe_steps. Qed.
Lemma safe_own_images l0 body s t vi a now l : safe l0 (own_images body s t vi a now l).
Proof. unfold own_images. safe_steps. Qed.
Lemma safe_each {A} l0 (f : Library -> A -> result SvcError Library) xs :
  (forall l x, safe l0 (f l x)) -> forall l, safe l0 (each f l xs).
Proof. intros Hf. induction xs as [|x xs IH]; intros l; cbn; safe_steps. Qed.
Lemma safe_insert_section l0 sec l : safe l0 (insert_section sec l).
Proof. unfold insert_section. safe_steps. Qed.
Hint Resolve safe_put_metadata safe_own_images safe_insert_section : safe.
Lemma safe_clone_sections l0 target m l xs : safe l0 (clone_sections target m l xs).
Proof. revert m l. induction xs as [|[s sec] xs IH]; intros m l; cbn [clone_sections]; safe_steps. Qed.
Hint Resolve safe_clone_sections : safe.

(** The document [create_document] leaves when its body cannot be encoded. *)
Lemma safe_create_document r uid body title key sec de so vi ge ty lo a now l :
  safe l (create_document r uid body title key sec de so vi ge ty lo a now l).
Proof.
  unfold create_document. safe_steps.
  match goal with E : resolve_runbook _ _ = Ok _ |- _ => apply resolve_runbook_Ok in E as ER end.
  match goal with E : resolve_section _ _ _ = Ok _ |- _ => rename E into ES end.
  match goal with E : insert_document _ _ = Ok _ |- _ => apply insert_document_ok in E as (Epk & _ & C); rewrite Epk in C end.
  apply safe_guard. split; [done|]. split; [done|]. split; cbn.
  - intros ? [= <-]. by eexists.
  - intros s ->. destruct (resolve_section_Ok _ _ _ _ ES s eq_refl) as (y & Hy & Ey). exists y. by rewrite Ey.
Qed.
Hint Resolve safe_create_document : safe.

Lemma safe_archive l r a b now : safe l (archive_document r a b now l).
Proof. unfold archive_document. safe_steps. Qed.
Hint Resolve safe_archive : safe.

Lemma safe_call a now c l : safe l (call a now c l).
Proof.
  destruct c; cbn [call]; try apply safe_fmap; auto with safe.
  - unfold attach_image. safe_steps.
  - unfold unarchive_document. safe_steps.
  - unfold restore_version. safe_steps.
  - unfold delete_document. safe_steps.
  - unfold put_document. safe_steps.
  - unfold move_document. safe_steps.
  - unfold create_runbook. safe_steps.
  - unfold create_section. safe_steps.
  - unfold set_runbook_public. safe_steps.
  - unfold create_from_template. safe_steps.
  - unfold copy_document, put_document. safe_steps.
  - unfold clone_runbook. safe_steps. apply safe_each. intros. unfold clone_document. safe_steps.
Qed.

Lemma sound_after_error e l : sound l -> tears l e -> sound (after_error e l).
Proof.
  intros S Ht. destruct e as [| | | | | | | | | |[|v|d]| |]; try done; cbn.
  - by apply sound_tear.
  - destruct Ht as (C & Hc & P). eapply (sound_insert_document d l (next_pk (documents l))); [done| |done|done].
    unfold insert_document. cbn. by rewrite C.
Qed.

Lemma sound_after_call a now c l : sound l -> sound (after_call a now c l).
Proof.
  intros S. unfold after_call. destruct (call a now c l) as [l'|e] eqn:E.
  - eapply sound_changes; [done|]. by eapply call_changes.
  - apply sound_after_error; [done|]. by eapply safe_call.
Qed.

Lemma sound_after_calls cs l : sound l -> sound (after_calls cs l).
Proof.
  unfold after_calls. revert l. induction cs as [|[[a now] c] cs IH]; intros l S; [done|]. cbn. apply IH. by apply sound_after_call.
Qed.

(** C8: whatever is called, by whom and in which order, and whichever calls
    fail, the tables of the documents keep their contract: the head of a
    document is its newest version and its columns repeat it, version numbers,
    uids, slugs and the keys of a runbook are unique, a document's section is of
    its runbook, and nothing refers to a row that is gone. *)
Theorem calls_keep_the_contract cs : sound (after_calls cs no_library).
Proof. apply sound_after_calls, sound_empty. Qed.

Lemma check_writable_refuses c d l :
  can_edit_doc c d l = false \/ dc_locked d = true /\ cl_superuser c = false ->
  exists e, check_writable d (Some c) false l = Err e.
Proof.
  unfold check_writable. cbn. intros [->|[-> ->]]; cbn; [destruct (can_view_doc c d l)|destruct (can_edit_doc c d l)]; cbn;
    repeat case_match; cbn; eauto.
Qed.

(** C9: a call that succeeds leaves a document its caller may not write
    exactly as it was, with every version of it: a document in a runbook the
    caller does not own (unless staff), and a locked one (unless a superuser). *)
Theorem protected_stays_untouched c now k l l' pk d :
  sound l -> call (Some c) now k l = Ok l' -> document_at pk l = Some d ->
  can_edit_doc c d l = false \/ dc_locked d = true /\ cl_superuser c = false ->
  untouched pk l l'.
Proof.
  intros S E Hd Hc. destruct (check_writable_refuses c d l Hc) as [e Ec].
  eapply untouched_changes; [done|by eapply call_changes| |by eexists].
  intros HT. specialize (HT d Hd). congruence.
Qed.

(** a primary key is one document's for life: after a call that succeeds
    the document under a key is the one that was there, by its uid, or one made
    since under a key never given before. *)
Theorem identity_is_for_life a now c l l' : sound l -> call a now c l = Ok l' -> outlives l l'.
Proof. intros S E. eapply outlives_changes. by eapply call_changes. Qed.
End Facts.

(** * The pages, and what they leave alone *)

Lemma change_mono (T T' : Z -> Prop) l l' : (forall pk, T pk -> T' pk) -> change T l l' -> change T' l l'.
Proof.
  intros HT C. destruct C as
    [e|k f H1 Hf|k f H1 Hf|d k l' E Hc Hp|k d body who de so vi now H1 Hd|k body so vi now l' H1 E|v H1|p H1|p Hp|im Hi
    |rb k l' E|k f Hf|sec Hr Hs|k f Hf|sc H1|rb H1|rb H1|subs Hs].
  - apply ch_emit.
  - apply ch_save; eauto.
  - apply ch_place; eauto.
  - by eapply ch_insert.
  - apply ch_version; eauto.
  - eapply ch_overwrite; eauto.
  - apply ch_tear; eauto.
  - apply ch_drop; eauto.
  - apply ch_prune. intros v vn Hv E. destruct (Hp v vn Hv E). eauto.
  - by apply ch_image.
  - by eapply ch_runbook.
  - by apply ch_update_runbook.
  - by apply ch_section.
  - by eapply ch_update_section.
  - apply ch_drop_section; eauto.
  - apply ch_unkey; eauto.
  - apply ch_drop_runbook; eauto.
  - by apply ch_subscriptions.
Qed.

Lemma changes_mono (T T' : Z -> Prop) l l' : (forall pk, T pk -> T' pk) -> changes T l l' -> changes T' l l'.
Proof. intros HT. induction 1; [done|]. eapply rtc_l; [by eapply change_mono|done]. Qed.

Section ViewsFacts.
Context `{RunbookLib}.
Context (c : Caller) (now : Z).

(** The documents the user may change from a page, and those there are not yet. *)
Definition editable_in (l : Library) (pk : Z) : Prop :=
  forall d, document_at pk l = Some d -> can_edit_doc c d l = true \/ cl_superuser c = true.

Lemma may_write_editable l pk : may_write (Some c) false l pk -> editable_in l pk.
Proof.
  intros Hw d Hd. specialize (Hw d Hd). unfold check_writable in Hw. cbn in Hw.
  destruct (can_edit_doc c d l); [by left|]. cbn in Hw. by destruct (can_view_doc c d l).
Qed.

(** What a visit is: changes, and then possibly an exception. *)
Definition goes (l : Library) (r : Page * Library) : Prop :=
  changes (editable_in l) l r.2 \/
  exists e l1, r.1 = Crashed e /\ r.2 = after_error e l1 /\ changes (editable_in l) l l1 /\ tears l1 e.

Lemma goes_nowhere l p : goes l (p, l).
Proof. by left. Qed.
Lemma goes_change l l' p : change (editable_in l) l l' -> goes l (p, l').
Proof. intros C. left. by apply changes_one. Qed.
Lemma goes_crash l e : tears l e -> goes l (Crashed e, after_error e l).
Proof. intros Ht. right. by exists e, l. Qed.

(** A page that calls the service. *)
Lemma goes_call {A} l (r : result SvcError (A * Library)) to k :
  sound l -> snd <$> r = call (Some c) now k l -> goes l (leads r l to).
Proof.
  intros S E. destruct r as [[x l']|e]; cbn in E.
  - left. cbn. eapply changes_mono; [apply may_write_editable|]. eapply (call_changes (Some c) now k); [done|by symmetry].
  - apply goes_crash. by apply (safe_call (Some c) now k l).
Qed.

Lemma goes_write l pk l1 body mode de so vi :
  sound l1 -> changes (editable_in l) l l1 -> editable_in l pk ->
  goes l (match write_version pk body mode de so vi (Some c) false now l1 with
          | Ok l2 => (ToDocument pk, l2) | Err e => (Crashed e, after_error e l1) end).
Proof.
  intros S C HT. destruct (write_version _ _ _ _ _ _ _ _ _ _) as [l2|e] eqn:E.
  - left. cbn. etrans; [exact C|]. by eapply write_version_changes.
  - right. exists e, l1. split_and!; [done..|]. by eapply safe_write_version.
Qed.

Lemma goes_with_runbook l slug k :
  (forall x, runbook_row x.1 l = Some x.2 -> can_edit c (Some x.2) = true -> goes l (k x)) -> goes l (with_runbook c slug l k).
Proof.
  intros Hk. unfold with_runbook, get_runbook. destruct (negb (nonempty slug)); [apply goes_nowhere|]. destruct (first_where _ _) as [[pk rb]|] eqn:E; [|apply goes_nowhere].
  apply first_where_some in E as [Hr _]. cbn. destruct (cl_staff c || owns c rb) eqn:Ec.
  - replace (can_edit c (Some rb)) with true in * by (cbn; by destruct (cl_staff c)).
    replace (if cl_staff c then true else owns c rb) with true by (by destruct (cl_staff c)). apply Hk; [done|].
    cbn. by destruct (cl_staff c).
  - replace (if cl_staff c then true else owns c rb) with false by (by destruct (cl_staff c)). apply goes_nowhere.
Qed.

Lemma goes_with_document l pk k :
  (forall d, document_at pk l = Some d -> can_edit_doc c d l = true -> goes l (k d)) -> goes l (with_document c pk l k).
Proof.
  intros Hk. unfold with_document. destruct (document_at pk l) as [d|]; [|apply goes_nowhere].
  destruct (can_edit_doc c d l) eqn:E; [by apply Hk|apply goes_nowhere].
Qed.

Lemma goes_unless_locked l pk d k : goes l k -> goes l (unless_locked c pk d l k).
Proof. unfold unless_locked. destruct (editable c d); [done|]. intros _. apply goes_nowhere. Qed.

Lemma editable_of l pk d : document_at pk l = Some d -> can_edit_doc c d l = true -> editable_in l pk.
Proof. intros Hd He d' Hd'. left. congruence. Qed.

(** The documents of a runbook the user may edit. *)
Lemma editable_runbook l r rb pk d :
  runbook_row r l = Some rb -> can_edit c (Some rb) = true -> document_at pk l = Some d -> dc_runbook d = Some r -> editable_in l pk.
Proof.
  intros Hr He Hd Er d' Hd'. left. assert (d' = d) as -> by congruence. unfold can_edit_doc, runbook_of. by rewrite Er, Hr.
Qed.

Lemma snd_fmap {A B} (r : result SvcError (A * B)) x y : r = x -> snd <$> x = y -> snd <$> r = y.
Proof. by intros ->. Qed.

(** A visit that does not file a detached document in a section. *)
Definition tame (v : Visit) (l : Library) : Prop :=
  match v with
  | DocumentUpdate pk (Some f) => df_section f <> None -> forall d, document_at pk l = Some d -> dc_runbook d <> None
  | _ => True
  end.

Lemma goes_runbook_create l form uid : sound l -> goes l (runbook_create c form uid now l).
Proof.
  intros S. unfold runbook_create. destruct form as [f|]; [|apply goes_nowhere].
  destruct (t ← rf_template f; rb ← runbook_row t l; Some (t, rb)) as [[t rb]|].
  - destruct (can_view c (Some rb)); [|apply goes_nowhere].
    destruct (clone_runbook _ _ _ _ _ _ _ _ _ l) as [[pk l']|e] eqn:E.
    + left. cbn. eapply rtc_r; [|by apply ch_update_runbook].
      eapply changes_mono; [apply may_write_editable|]. by eapply clone_runbook_changes.
    + apply goes_crash. apply (safe_call (Some c) now (Clone (BookRow t) None (Some (rf_name f)) false false uid) l).
      cbn [call]. by rewrite E.
  - destruct (insert_runbook _ l) as [[pk l']|e] eqn:E; cbn [leads].
    + by eapply goes_change, ch_runbook.
    + apply goes_crash. by eapply safe_insert_runbook.
Qed.

Lemma goes_runbook_delete l slug mode : sound l -> goes l (runbook_delete c slug mode l).
Proof.
  intros S. apply goes_with_runbook. intros [r rb] Hr He. cbn [fst snd] in *. left. cbn [snd].
  destruct (str_eqb mode _).
  - eapply rtc_l; [eapply ch_drop|apply changes_one, ch_drop_runbook].
    + intros pk d Hd E. apply bool_decide_eq_true in E. by eapply editable_runbook.
    + intros pk d Hd E. cbn [documents drop_documents upd] in Hd. apply lookup_delete in Hd as [Hd _].
      by eapply editable_runbook.
  - eapply rtc_l; [eapply ch_unkey|apply changes_one, ch_drop_runbook].
    + intros pk d Hd E. by eapply editable_runbook.
    + intros pk d Hd E. cbn [documents upd] in Hd. apply map_rows_inv in Hd as (x & Hx & ->).
      eapply editable_runbook; [done..|]. revert E. unfold unkey. by case_bool_decide.
Qed.

Lemma goes_section l pk k :
  (forall sec rb, rows (sections l) !! pk = Some sec -> runbook_row (sc_runbook sec) l = Some rb ->
     can_edit c (Some rb) = true -> goes l (k sec rb)) -> goes l (with_section c pk l k).
Proof.
  intros Hk. unfold with_section. destruct (rows (sections l) !! pk) as [sec|] eqn:Es; cbn; [|apply goes_nowhere].
  destruct (runbook_row (sc_runbook sec) l) as [rb|] eqn:Er; cbn; [|apply goes_nowhere].
  destruct (if cl_staff c then true else owns c rb) eqn:E; [|apply goes_nowhere]. by apply Hk.
Qed.

Lemma goes_document_update l pk form : sound l -> tame (DocumentUpdate pk form) l -> goes l (document_update c pk form now l).
Proof.
  intros S Ht. apply goes_with_document. intros d Hd He. apply goes_unless_locked.
  destruct form as [f|]; [|apply goes_nowhere].
  destruct (match df_section f with Some s => negb (section_offered d l s) | None => false end) eqn:Eo; [apply goes_nowhere|].
  set (g := fun d => d <| dc_title := df_title f |> <| dc_section := df_section f |> <| dc_description := df_description f |>).
  assert (C : change (editable_in l) l (save_document pk g now l)).
  { apply ch_place; [by eapply editable_of|]. intros d' Hd'. assert (d' = d) as -> by (unfold document_at in Hd; congruence).
    destruct (doc_placed _ _ _ (sound_documents l S) pk d Hd) as [P1 P2].
    split_and!; [done| |exact (unclashed pk d l S Hd)|done]. split; [done|]. cbn. intros s Es.
    rewrite Es in Eo. apply negb_false_iff in Eo. unfold section_offered in Eo.
    destruct (rows (sections l) !! s) as [sec|]; [|done]. exists sec. split; [done|].
    cbn in Ht. specialize (Ht ltac:(congruence) d Hd). destruct (dc_runbook d) as [r|]; [|done].
    apply Z.eqb_eq in Eo. by subst r. }
  destruct (df_file f) as [body|]; [|by left; apply changes_one].
  apply goes_write; [by eapply sound_change|by apply changes_one|by eapply editable_of].
Qed.

Lemma visit_goes v l : sound l -> tame v l -> goes l (visit c now v l).
Proof.
  intros S Ht. unfold visit. destruct (bool_decide _); [apply goes_nowhere|].
  destruct v as [form uid|slug form|slug mode|slug name uid|slug name ns uid|slug|slug form|pk form|pk|slug form uid|slug form uid
    |pk|pk form|pk|pk|pk|pk form|v|pk content as_v|pk form].
  - by apply goes_runbook_create.
  - apply goes_with_runbook. intros x Hr He. destruct form; [|apply goes_nowhere]. by apply goes_change, ch_update_runbook.
  - by apply goes_runbook_delete.
  - unfold runbook_make_template. destruct (bool_decide _); [apply goes_nowhere|]. apply goes_with_runbook. intros x Hr He.
    by eapply (goes_call l _ _ (Clone _ _ _ _ _ _)).
  - unfold runbook_from_template. destruct (get_runbook slug l) as [x|]; [|apply goes_nowhere].
    destruct (negb (rb_template x.2)); [apply goes_nowhere|]. destruct (negb (can_view c _)); [apply goes_nowhere|].
    destruct (negb (nonempty _)); [apply goes_nowhere|]. by eapply (goes_call l _ _ (Clone _ _ _ _ _ _)).
  - apply goes_with_runbook. intros x Hr He. by apply goes_change, ch_update_runbook.
  - apply goes_with_runbook. intros x Hr He. destruct form as [f|]; [|apply goes_nowhere].
    destruct (insert_section _ l) as [[pk l']|e] eqn:E; cbn [leads].
    + apply goes_change. eapply insert_section_change; [exact E|by eexists].
    + unfold insert_section in E. destruct (section_free _ _ l); cbn in E; [done|injection E as <-]. by apply (goes_crash l IntegrityError).
  - apply goes_section. intros sec rb Hs _ _. destruct form as [f|]; [|apply goes_nowhere].
    destruct (save_section _ _ l) as [l'|e] eqn:E; cbn [leads fmap result_fmap].
    + apply goes_change. by eapply save_section_change.
    + unfold save_section in E. destruct (section_free _ _ l); cbn in E; [done|injection E as <-]. by apply (goes_crash l IntegrityError).
  - apply goes_section. intros sec rb Hs Hr He. apply goes_change, ch_drop_section. intros k d Hd Es.
    destruct (in_a_section _ _ _ (doc_placed _ _ _ (sound_documents l S) k d Hd) pk Es) as (sec' & Hs' & Er).
    assert (sec' = sec) as -> by congruence. by eapply editable_runbook.
  - apply goes_with_runbook. intros x Hr He. destruct (f ← form; body ← df_file f; Some (f, body)) as [[f body]|]; [|apply goes_nowhere].
    by eapply (goes_call l _ _ (Create _ _ _ _ _ _ _ _ _ _ _ _)).
  - apply goes_with_runbook. intros x Hr He. destruct form as [f|]; [|apply goes_nowhere]. destruct (df_template f).
    + by eapply (goes_call l _ _ (FromTemplate _ _ _ _ _ _)).
    + by eapply (goes_call l _ _ (Create _ _ _ _ _ _ _ _ _ _ _ _)).
  - apply goes_with_document. intros d Hd He. left. cbn. apply changes_save; [by eapply editable_of|done].
  - by apply goes_document_update.
  - apply goes_with_document. intros d Hd He. apply goes_unless_locked. apply goes_change, ch_drop.
    intros k d' Hd' E. apply Z.eqb_eq in E. subst k. exact (editable_of l pk d Hd He).
  - unfold document_lock. destruct (cl_superuser c) eqn:Es; [|apply goes_nowhere]. cbn.
    destruct (document_at pk l) eqn:Hd; [|apply goes_nowhere]. left. cbn. apply changes_save; [|done].
    intros d' _. by right.
  - unfold document_subscribe. destruct (document_at pk l) as [d|] eqn:Hd; [|apply goes_nowhere].
    destruct (cl_id c) as [who|]; [|apply goes_nowhere]. destruct (can_view_doc c d l); [|apply goes_nowhere].
    destruct (sound_attached l S) as [_ SP].
    destruct (is_subscribed _ _ _); apply goes_change, ch_subscriptions; intros k w Hin.
    + apply elem_of_difference in Hin as [Hin _]. eauto.
    + apply elem_of_union in Hin as [Hin|Hin]; [|eauto]. apply elem_of_singleton in Hin. injection Hin as -> _. by eexists.
  - apply goes_with_document. intros d Hd He. apply goes_unless_locked. destruct form as [[body de]|]; [|apply goes_nowhere].
    apply goes_write; [done|done|by eapply editable_of].
  - unfold restore_old_version. destruct (version_at v l) as [old|]; [|apply goes_nowhere].
    apply goes_with_document. intros d Hd He. apply goes_unless_locked. apply goes_write; [done|done|by eapply editable_of].
  - unfold document_edit_content. destruct (document_at pk l) as [d0|]; [|apply goes_nowhere].
    destruct (bool_decide _); [apply goes_nowhere|]. apply goes_with_document. intros d Hd He. apply goes_unless_locked. destruct as_v; [destruct (str_eqb _ _); [apply goes_nowhere|]|];
      (apply goes_write; [done|done|by eapply editable_of]).
  - unfold document_image_upload. destruct (document_at pk l) as [d|]; [|apply goes_nowhere].
    destruct (negb (can_edit_doc c d l)); [apply goes_nowhere|]. destruct (negb (editable c d)); [apply goes_nowhere|].
    destruct form as [[[name data] alt]|]; [|apply goes_nowhere]. by eapply (goes_call l _ _ (Attach _ _ _ _)).
Qed.

(** C13: the pages keep the contract of the tables as the service does, an
    exception half-way included: every visit, save one that files a detached
    document in a section, leaves the tables sound. *)
Theorem visits_keep_the_contract v l : sound l -> tame v l -> sound (visit c now v l).2.
Proof.
  intros S Ht. destruct (visit_goes v l S Ht) as [C|(e & l1 & _ & -> & C & Te)]; [by eapply sound_changes|].
  apply sound_after_error; [by eapply sound_changes|done].
Qed.

(** a section whose slug is empty gets one from its name whenever it is saved:
    renamed to what another section of the runbook is called, it crashes. *)
Lemma renamed_section_crashes pk sec s other rb f l :
  rows (sections l) !! pk = Some sec -> sc_slug sec = [] -> runbook_row (sc_runbook sec) l = Some rb ->
  can_edit c (Some rb) = true -> s <> pk -> rows (sections l) !! s = Some other -> sc_runbook other = sc_runbook sec ->
  sc_slug other = slugify (sf_name f) -> section_update c pk (Some f) l = (Crashed IntegrityError, l).
Proof.
  intros Hpk Hslug Hrb He Hne Hs Hr Ho. unfold section_update, with_section. rewrite Hpk. cbn [mbind option_bind].
  rewrite Hrb. cbn [mbind option_bind]. destruct (can_edit c (Some rb)); [clear He|done].
  unfold save_section, section_of_form, saved_slug. cbn [sc_slug sc_name sc_runbook]. rewrite Hslug. cbn [nonempty].
  match goal with |- context [section_free ?p ?x l] => replace (section_free p x l) with false; [done|] end.
  symmetry. apply not_true_iff_false. rewrite section_free_true. intros H'. by apply (H' s other Hs); [congruence|..].
Qed.

(** no page lets a user change a document that is not theirs to edit: it
    stays as it was with all its versions, whatever page they post to. *)
Theorem visits_leave_others_alone v l pk d :
  sound l -> tame v l -> (forall e, (visit c now v l).1 <> Crashed e) -> document_at pk l = Some d ->
  can_edit_doc c d l = false -> cl_superuser c = false -> untouched pk l (visit c now v l).2.
Proof.
  intros S Ht Hp Hd He Hs. destruct (visit_goes v l S Ht) as [C|(e & l1 & E & _)]; [|by destruct (Hp e)].
  eapply untouched_changes; [done|exact C| |by eexists]. intros HT. destruct (HT d Hd); congruence.
Qed.

(** a lock does not hold against the deletion of the runbook. On its own
    page a locked document sends its owner away and stays; deleting the runbook
    in the mode "cascade" takes it with the others. *)
Theorem runbook_deletion_ignores_locks l pk d slug r rb :
  document_at pk l = Some d -> dc_locked d = true -> dc_runbook d = Some r -> cl_superuser c = false ->
  get_runbook slug l = Some (r, rb) -> runbook_row r l = Some rb -> can_edit c (Some rb) = true ->
  document_delete c pk l = (ToDocument pk, l) /\
  document_at pk (runbook_delete c slug (u "cascade") l).2 = None.
Proof.
  intros Hd Hl Hr Hs Hg Hrb He. split.
  - unfold document_delete, with_document, unless_locked, editable. rewrite Hd.
    unfold can_edit_doc, runbook_of. by rewrite Hr, Hrb, He, Hl, Hs.
  - unfold runbook_delete, with_runbook. rewrite Hg. cbn [snd fst]. rewrite He.
    replace (str_eqb (u "cascade") (u "cascade")) with true by (unfold str_eqb; by rewrite bool_decide_true). cbv zeta.
    unfold document_at in *. cbn [snd documents drop_runbook drop_documents upd].
    destruct (rows (map_rows _ _) !! pk) as [d'|] eqn:E; [|done].
    apply map_rows_inv in E as (x & Hx & _). apply lookup_delete in Hx as [Hx Ex]. rewrite Hd in Hx. injection Hx as <-.
    by rewrite bool_decide_true in Ex.
Qed.
End ViewsFacts.
