(* ===== verification/RunbookApiFacts.v ===== *)
(** * What the REST endpoints tell, and whom

    A runbook a caller may not see is answered for as one that does not exist,
    at every endpoint that names it; what is listed is what may be read. *)
From stdpp Require Import sorting relations.
From S2P Require Import Prelude PyFloat PyStr Regex PyLib Tables Json Runbook RunbookService RunbookSound RunbookSteps RunbookApi RunbookViews RunbookFacts.
Open Scope Z_scope.

Section ApiFacts.
Context `{RunbookLib}.
Context (engine : option (pystr -> Z -> list Z)).

(** The runbook an endpoint names in its path. *)
Definition addressed (e : Endpoint) : option pystr :=
  match e with
  | GetDocument rb _ | PutDocument rb _ _ | DeleteDocument rb _ _ | AppendDocument rb _ _ _ | ArchiveDocument rb _
  | UnarchiveDocument rb _ | MoveDocument rb _ _ _ | RevertDocument rb _ _ | CopyDocument rb _ _ | RunbookDetail rb
  | ListSections rb | CreateSection rb _ | Publish rb | Unpublish rb => Some rb
  | _ => None
  end.

(** No runbook of that slug is one the caller may see. *)
Definition hidden (c : Caller) (slug : pystr) (l : Library) : Prop :=
  forall pk rb, runbook_row pk l = Some rb -> rb_slug rb = slug -> can_view c (Some rb) = false.

(** The answer such a request has, by what is in the request alone. *)
Definition writes (e : Endpoint) : bool :=
  match e with
  | GetDocument _ _ | RunbookDetail _ | ListSections _ | ListDocuments _ _ _ _ | ByUid _ | ListRunbooks => false
  | _ => true
  end.
Definition malformed (e : Endpoint) : option Response :=
  match e with
  | PutDocument _ _ data => if bool_decide (is_Some (pb_body data)) then None else Some (api_error (u "body is required") 400)
  | AppendDocument _ _ body _ => if bool_decide (is_Some body) then None else Some (api_error (u "body is required") 400)
  | RevertDocument _ _ JNull => Some (api_error (u "'to' (version number) is required") 400)
  | RevertDocument _ _ to_ =>
      match jint to_ with
      | Err TypeOrValueError => Some (api_error (u "'to' must be an integer") 400)
      | Err OverflowError => Some IntOverflow
      | Ok _ => None
      end
  | CopyDocument _ _ data =>
      if bool_decide (is_Some (filled (cb_to_runbook data))) && bool_decide (is_Some (filled (cb_to_key data))) then None
      else Some (api_error (u "'to_runbook' and 'to_key' are required") 400)
  | CreateSection _ data =>
      if bool_decide (is_Some (slug_or_name data)) then None else Some (api_error (u "slug (or name) is required") 400)
  | _ => None
  end.
Definition refusal (c : Caller) (access : pystr) (e : Endpoint) : Response :=
  match (if writes e then require_write c access else None), malformed e with
  | Some r, _ => r
  | None, Some r => r
  | None, None => NOT_FOUND
  end.

(** ** The service's errors for what is hidden *)

Definition is_missing (e : SvcError) : bool :=
  match e with RunbookNotFound _ | SectionNotFound _ _ | DocumentNotFound _ => true | _ => false end.
Definition missing {A} (r : result SvcError A) : Prop := exists e, r = Err e /\ is_missing e = true.

Lemma missing_err {A} e : is_missing e = true -> missing (@Err SvcError A e).
Proof. by exists e. Qed.
Lemma missing_bind {A B} (m : result SvcError A) (f : A -> result SvcError B) :
  missing m \/ (exists x, m = Ok x /\ missing (f x)) -> missing (mbind f m).
Proof. intros [(e & -> & ?)|(x & -> & ?)]; [by exists e|done]. Qed.
Lemma missing_bind_all {A B} (m : result SvcError A) (f : A -> result SvcError B) :
  (forall x, m = Ok x -> missing (f x)) -> (forall e, m = Err e -> is_missing e = true) -> missing (mbind f m).
Proof. intros Hf Hm. destruct m as [x|e]; [by apply Hf|exists e; split; [done|by apply Hm]]. Qed.
Lemma missing_atomic {A} (r : result SvcError A) : missing r -> missing (atomic r).
Proof. intros (e & -> & E). by destruct e; try done; exists (DocumentNotFound what) || eexists. Qed.

Lemma error_for_missing e : is_missing e = true -> error_for e = NOT_FOUND.
Proof. by destruct e. Qed.
Lemma after_missing e l : is_missing e = true -> after_error e l = l.
Proof. by destruct e. Qed.

Lemma can_view_edit c rb : can_view c rb = false -> can_edit c rb = false.
Proof.
  destruct rb as [rb|]; cbn; [|done]. unfold owns. destruct (cl_staff c); [done|]. cbn.
  destruct (cl_id c) as [i|]; cbn; [destruct (rb_public rb); done|].
  intros _. apply bool_decide_eq_false. intros [[o Ho] E]. congruence.
Qed.

(** An interactive read is a trusted one and a check. *)
Lemma get_doc_viewer a c l :
  get_doc a (Some c) l = (x ← get_doc a None l; _ ← guard (can_view_doc c x.2 l) (DocumentNotFound NoDocument); Ok x).
Proof. unfold get_doc. match goal with |- mbind _ ?m = _ => destruct m as [x|e] end; done. Qed.

Section Hidden.
Context (c : Caller) (slug : pystr) (l : Library).
Hypothesis Hid : hidden c slug l.

Lemma hidden_resolve : missing (resolve_runbook (BookSlug slug) l) \/
  exists pk rb, resolve_runbook (BookSlug slug) l = Ok (pk, rb) /\ runbook_row pk l = Some rb /\ can_view c (Some rb) = false.
Proof.
  cbn. destruct (first_where _ _) as [[pk rb]|] eqn:E; [right|left; by eexists]. exists pk, rb. split; [done|].
  apply first_where_some in E as [Hr Es]. unfold str_eqb in Es. bool_to_prop. split; [done|]. by apply (Hid pk).
Qed.

(** A document addressed in the runbook is not one the caller may see. *)
Lemma hidden_doc key x :
  doc_of (keyed slug key) l = Ok x -> document_at x.1 l = Some x.2 /\ can_view_doc c x.2 l = false.
Proof.
  intros E. apply doc_of_Ok in E as Hd. split; [done|]. cbn in E. unfold get_doc in E. cbn in E.
  apply bind_Ok in E as (y & Ey & E). apply bind_Ok in Ey as ([pk rb] & Er & Ey).
  destruct hidden_resolve as [(e & F & _)|(pk' & rb' & F & Hr & Hv)]; [cbn in F; congruence|].
  assert (pk' = pk /\ rb' = rb) as [-> ->] by (cbn in F; split; congruence). ok_steps.
  match goal with E : first_where _ _ = Some ?z |- _ => destruct z as [k d]; apply first_where_some in E as [_ Ek] end.
  bool_to_prop. unfold can_view_doc, runbook_of. cbn.
  match goal with E : dc_runbook d = _ |- _ => by rewrite E, Hr end.
Qed.

Lemma hidden_writable d : can_view_doc c d l = false -> missing (check_writable d (Some c) false l).
Proof.
  intros Hv. unfold check_writable. cbn. pose proof (can_view_edit c (runbook_of d l) Hv) as He.
  unfold can_edit_doc. unfold can_view_doc in *. rewrite He, Hv. cbn. by eexists.
Qed.

(** Whatever starts with the address and the right to write it. *)
Lemma hidden_write {A} key (f : Z * Document -> result SvcError A) :
  (forall x, doc_of (keyed slug key) l = Ok x -> can_view_doc c x.2 l = false -> missing (f x)) ->
  missing (mbind f (doc_of (keyed slug key) l)).
Proof.
  intros Hf. apply missing_bind_all.
  - intros x Ex. apply Hf; [done|]. by apply (hidden_doc key).
  - intros e Ee. cbn in Ee. unfold get_doc in Ee. cbn in Ee.
    destruct (first_where _ (runbooks l)) as [[pk rb]|]; cbn in Ee; [|by injection Ee as <-].
    destruct (first_where _ (documents l)) as [y|]; cbn in Ee; [done|by injection Ee as <-].
Qed.

Lemma hidden_may_edit rb deed : can_view c (Some rb) = false -> missing (may_edit_runbook rb deed (Some c)).
Proof.
  intros Hv. unfold may_edit_runbook. change (caller_of (Some c)) with c.
  rewrite Hv, (can_view_edit c (Some rb) Hv). cbn. by eexists.
Qed.

Lemma hidden_get key : missing (get_document (key_address slug key) true (Some c) l).
Proof.
  unfold get_document. apply missing_bind. left. rewrite get_doc_viewer. apply hidden_write. intros x _ Hv. rewrite Hv. by eexists.
Qed.

Lemma hidden_archive key now : missing (archive_document (keyed slug key) (Some c) false now l).
Proof. apply hidden_write. intros x _ Hv. apply missing_bind. left. by apply hidden_writable. Qed.
Lemma hidden_unarchive key now : missing (unarchive_document (keyed slug key) (Some c) false now l).
Proof. apply hidden_write. intros x _ Hv. apply missing_bind. left. by apply hidden_writable. Qed.
Lemma hidden_delete key force now : missing (delete_document (keyed slug key) force (Some c) false now l).
Proof. apply hidden_write. intros x _ Hv. apply missing_bind. left. by apply hidden_writable. Qed.
Lemma hidden_move key rb sec now : missing (move_document (keyed slug key) rb sec (Some c) false now l).
Proof. apply hidden_write. intros x _ Hv. apply missing_bind. left. by apply hidden_writable. Qed.
Lemma hidden_restore key n via now : missing (restore_version (keyed slug key) n via (Some c) false now l).
Proof.
  apply hidden_write. intros x Ex Hv. apply doc_of_Ok in Ex as Hd. apply missing_bind_all.
  - intros old _. apply missing_bind. left. unfold write_version. rewrite Hd. cbn [found mbind result_bind].
    apply missing_bind. left. by apply hidden_writable.
  - intros e E. destruct (first_where _ _); cbn in E; [done|by injection E as <-].
Qed.

Lemma hidden_put key p uid now : missing (put_document (BookSlug slug) key p uid (Some c) false now l).
Proof.
  unfold put_document. apply missing_bind.
  destruct hidden_resolve as [F|(pk & rb & F & Hr & Hv)]; [by left|right]. exists (pk, rb). split; [done|].
  apply missing_atomic. cbn [fst snd]. destruct (find_keyed pk key l) as [[k d]|] eqn:Ef.
  - apply find_keyed_Some in Ef as (Hd & Er & _). apply missing_bind. left. apply hidden_writable.
    unfold can_view_doc, runbook_of. by rewrite Er, Hr.
  - apply missing_bind. left. unfold create_document. apply missing_bind. right. exists (pk, rb). cbn. rewrite Hr.
    split; [done|]. apply missing_bind. left. by apply hidden_may_edit.
Qed.

Lemma hidden_copy key to_runbook to_key title sec mode via uid now :
  missing (copy_document (At (key_address slug key)) (Some c) to_runbook to_key title sec mode via uid (Some c) now l).
Proof.
  unfold copy_document. apply missing_bind. left. pose proof (hidden_get key) as G. unfold get_document in G.
  destruct G as (e & E & Em). destruct (get_doc _ _ l) as [x|e']; cbn in E; [done|]. injection E as ->. by exists e.
Qed.

Lemma hidden_section sec name order : missing (create_section (BookSlug slug) sec name order (Some c) l).
Proof.
  unfold create_section. apply missing_bind.
  destruct hidden_resolve as [F|(pk & rb & F & Hr & Hv)]; [by left|right]. exists (pk, rb). split; [done|].
  apply missing_bind. left. by apply hidden_may_edit.
Qed.
Lemma hidden_public public : missing (set_runbook_public (BookSlug slug) public (Some c) l).
Proof.
  unfold set_runbook_public. apply missing_bind.
  destruct hidden_resolve as [F|(pk & rb & F & Hr & Hv)]; [by left|right]. exists (pk, rb). split; [done|].
  apply missing_bind. left. by apply hidden_may_edit.
Qed.
End Hidden.

Lemma answer_missing {A} (f : A -> Body) r l : missing r -> answer f r l = (NOT_FOUND, l).
Proof. intros (e & -> & Em). cbn. by rewrite (error_for_missing e), (after_missing e). Qed.
Lemma read_missing {A} (f : A -> Body) r : missing r -> read f r = NOT_FOUND.
Proof. intros (e & -> & Em). cbn. by apply error_for_missing. Qed.
Lemma named_missing r l : missing r -> named_runbook r l = (NOT_FOUND, l).
Proof. intros (e & -> & Em). cbn. by rewrite (error_for_missing e), (after_missing e). Qed.

(** C10: a request whose path names a runbook its caller may not see, one there
    is or one there is not, gets the one answer the request itself determines
    (404 unless the token is read-only or a field is missing) and changes
    nothing: no table decides anything of it, so the answer does not tell
    whether the runbook exists. Requests that name a slug elsewhere do tell it:
    the filter of the listing ([filter_tells_existence]) and the creation of a
    runbook ([creation_tells_existence]). *)
Theorem hidden_is_absent c access e slug uid now l :
  addressed e = Some slug -> hidden c slug l -> serve engine c access e uid now l = (refusal c access e, l).
Proof.
  intros Ha Hid. unfold serve, refusal, writing.
  destruct e; cbn [addressed] in Ha; try discriminate; injection Ha as ->; cbn [writes malformed];
    try (destruct (require_write c access); [done|]).
  - unfold api_document_get. by rewrite (read_missing _ _ (hidden_get c slug l Hid key)).
  - unfold api_document_put. destruct (pb_body data); cbn [bool_decide]; [|done].
    by rewrite (answer_missing _ _ _ (hidden_put c slug l Hid key _ uid now)).
  - unfold api_document_delete. destruct (hidden_delete c slug l Hid key (bool_decide (force = Some (u "true"))) now) as (e & -> & Em).
    by rewrite (error_for_missing e), (after_missing e).
  - unfold api_document_append, append_to_document. destruct body; [|done].
    by rewrite (answer_missing _ _ _ (hidden_put c slug l Hid key _ uid now)).
  - apply answer_missing, hidden_archive, Hid.
  - apply answer_missing, hidden_unarchive, Hid.
  - apply answer_missing, hidden_move, Hid.
  - unfold api_document_revert.
    destruct to_; [done|..]; (destruct (jint _) as [to|[]]; [|done..];
      destruct (hidden_restore c slug l Hid key to (u "api") now) as (e & -> & Em); by rewrite (error_for_missing e), (after_missing e)).
  - unfold api_document_copy. destruct (filled (cb_to_runbook data)), (filled (cb_to_key data)); try done.
    by rewrite (answer_missing _ _ _ (hidden_copy c slug l Hid key _ _ _ _ _ _ uid now)).
  - unfold api_runbook_detail. destruct (hidden_resolve c slug l Hid) as [(e & -> & Em)|(pk & rb & -> & _ & Hv)].
    + by rewrite (error_for_missing e).
    + by rewrite Hv.
  - unfold api_sections_list. destruct (hidden_resolve c slug l Hid) as [(e & -> & Em)|(pk & rb & -> & _ & Hv)].
    + by rewrite (error_for_missing e).
    + by rewrite Hv.
  - unfold api_sections_create. destruct (slug_or_name data) as [sec|]; [|done].
    destruct (hidden_section c slug l Hid sec (nb_name data) (default 0 (nb_order data))) as (e & -> & Em).
    by rewrite (error_for_missing e), (after_missing e).
  - apply named_missing, hidden_public, Hid.
  - apply named_missing, hidden_public, Hid.
Qed.

(** ** Listing and reading *)

(** The scope of a listing is the permission to read. *)
Lemma viewable_is_readable c l pk d :
  sound l -> document_at pk l = Some d -> viewable_document c l d = can_view_doc c d l.
Proof.
  intros S Hd. destruct (doc_placed _ _ _ (sound_documents l S) pk d Hd) as [P1 P2].
  unfold viewable_document, can_view_doc, runbook_of, runbook_row.
  destruct (dc_runbook d) as [r|] eqn:Er; cbn.
  - destruct (P1 r eq_refl) as [rb Hrb]. rewrite Hrb. cbn. unfold owns. destruct (cl_staff c); [done|].
    destruct (cl_id c) as [i|] eqn:Ei; cbn; [|done]. destruct (rb_public rb); cbn; [done|].
    apply bool_decide_ext. split; [|by intros []]. intros ->. by split.
  - destruct (dc_section d) as [s|] eqn:Es.
    + by destruct (P2 s eq_refl) as (sec & _ & ?).
    + cbn. by destruct (cl_staff c), (bool_decide (is_Some (cl_id c))).
Qed.

Lemma get_by_uid c l pk d :
  sound l -> document_at pk l = Some d -> can_view_doc c d l = true ->
  get_document (uid_address (dc_uid d)) true (Some c) l = Ok (result_of pk d true l).
Proof.
  intros S Hd Hv. unfold get_document. rewrite get_doc_viewer. unfold get_doc. cbn [uid_address ad_uid ad_id ad_runbook ad_key].
  rewrite (first_where_unique _ _ pk d); [|done|unfold str_eqb; by apply bool_decide_eq_true|].
  - cbn. by rewrite Hv.
  - intros pk' d' Hd' E. unfold str_eqb in E. bool_to_prop.
    by apply (uid_unique _ _ _ (sound_documents l S) pk' d' pk d).
Qed.

(** What a listing without a query holds: the live documents that match, each
    one the caller may read. *)
Lemma listed_spec c r s source doc_type query l docs x :
  sound l -> list_documents r s source doc_type query false (Some c) l = Ok docs -> x ∈ docs ->
  exists pk d, document_at pk l = Some d /\ x = summary_of l (pk, d) /\ can_view_doc c d l = true /\ dc_archived d = false.
Proof.
  intros S E Hx. unfold list_documents in E. apply bind_Ok in E as (rb & _ & E). apply Ok_inj in E. subst docs.
  apply list_elem_of_fmap in Hx as ([pk d] & -> & Hx). rewrite merge_sort_Permutation in Hx.
  apply where_elem in Hx as [Hd E]. bool_to_prop. cbn in *. exists pk, d.
  rewrite <- (viewable_is_readable c l pk d) by done. split_and!; [done..|]. by apply negb_true_iff.
Qed.

(** The libraries that calls of the service, failed ones included, and visits of
    the pages lead to, but for a page that files a detached document. *)
Inductive built : Library -> Prop :=
| built_empty : built no_library
| built_call a now k l : built l -> built (after_call a now k l)
| built_visit c now v l : built l -> tame v l -> built (visit c now v l).2.

Lemma built_calls cs l : built l -> built (after_calls cs l).
Proof. revert l. induction cs as [|[[a now] k] cs IH]; intros l B; [done|]. by apply IH, built_call. Qed.

Lemma built_sound l : built l -> sound l.
Proof.
  induction 1 as [|a now k l _ IH|c now v l _ IH Ht]; [apply sound_empty|by apply sound_after_call|].
  by apply visits_keep_the_contract.
Qed.

(** C14: what is listed is what may be read. In every library that calls of the
    service and visits of the pages have led to, those aside that file a
    document of no runbook in a section: each document of the listing without a
    filter can be read by its uid, and read it is the document listed; and the
    listing holds every live document the caller may read. (A document that was
    filed so is missing from the listing: see [filed_page_is_not_listed].) *)
Theorem listed_is_readable c access uid now l docs :
  built l -> serve engine c access (ListDocuments None None None None) uid now l = (Reply 200 (BDocuments docs), l) ->
  (forall x, x ∈ docs -> exists d, serve engine c access (ByUid (ds_uid x)) uid now l = (Reply 200 (BDocument d), l) /\
                                   dr_id d = ds_id x /\ dr_title d = ds_title x /\ dr_version d = ds_version x) /\
  (forall pk d, document_at pk l = Some d -> dc_archived d = false -> can_view_doc c d l = true ->
     exists x, x ∈ docs /\ ds_id x = pk /\ ds_uid x = dc_uid d).
Proof.
  intros S%built_sound E. cbn [serve api_list_documents] in E. injection E as E. split.
  - intros x Hx. destruct (listed_spec c None None None None None l docs x S) as (pk & d & Hd & -> & Hv & _); [|done|].
    + unfold list_documents. cbn. by subst docs.
    + exists (result_of pk d true l). cbn [serve]. unfold api_document_by_uid. cbn [ds_uid summary_of snd].
      by rewrite (get_by_uid c l pk d).
  - intros pk d Hd Ha Hv. exists (summary_of l (pk, d)). split; [|done]. subst docs. apply list_elem_of_fmap.
    exists (pk, d). split; [done|]. rewrite merge_sort_Permutation. apply where_elem. split; [done|].
    cbn. rewrite (viewable_is_readable c l pk d), Hv, Ha by done. done.
Qed.

(** Where existence shows: a listing filtered by the slug of a
    runbook that may not be seen is empty, and by a slug there is not a 404. *)
Theorem filter_tells_existence c access uid now l slug :
  sound l -> hidden c slug l -> slug <> [] ->
  serve engine c access (ListDocuments (Some slug) None None None) uid now l =
    (if slug_free slug l then NOT_FOUND else Reply 200 (BDocuments []), l).
Proof.
  intros S Hid Hne. cbn [serve]. f_equal. unfold api_list_documents. cbn [filled mbind option_bind].
  destruct slug as [|ch slug]; [done|]. cbn [nonempty fmap option_fmap option_map].
  set (sl := ch :: slug) in *. unfold list_documents, scope_of.
  destruct (hidden_resolve c sl l Hid) as [(e & E & Em)|(pk & rb & E & Hr & Hv)]; rewrite E; cbn [mbind result_bind read].
  - rewrite (error_for_missing e Em). replace (slug_free sl l) with true; [done|]. symmetry. apply slug_free_true.
    intros pk rb Hr Es. cbn in E. destruct (first_where _ _) as [y|] eqn:F; cbn in E; [done|].
    pose proof (first_where_none _ _ F pk rb Hr) as N. cbn in N. unfold str_eqb in N. bool_to_prop. done.
  - replace (slug_free sl l) with false.
    + match goal with |- context [where_ ?p (documents l)] => assert (N : where_ p (documents l) = []) end; [|by rewrite N].
      apply where_nil. intros k d Hd. apply not_true_iff_false. intros Et. bool_to_prop. cbn [in_runbook viewer_sees] in *. bool_to_prop. cbn [fst] in *.
      match goal with Ev : viewable_document c l d = true |- _ =>
        rewrite (viewable_is_readable c l k d) in Ev by done; unfold can_view_doc, runbook_of in Ev;
        match goal with E : dc_runbook d = Some _ |- _ => rewrite E, Hr in Ev end end. congruence.
    + symmetry. apply not_true_iff_false. rewrite slug_free_true. intros Hf. apply (Hf pk rb Hr).
      cbn in E. destruct (first_where _ _) as [y|] eqn:F; cbn in E; [|done]. injection E as ->.
      apply first_where_some in F as [_ F]. unfold str_eqb in F. by bool_to_prop.
Qed.

(** And the creation of a runbook: a slug that is taken is answered 409,
    whoever may see the runbook that has it. *)
Theorem creation_tells_existence c access data slug uid now l pk rb :
  require_write c access = None -> slug_or_name data = Some slug -> nonempty (slugify slug) = true ->
  runbook_row pk l = Some rb -> rb_slug rb = slugify slug ->
  serve engine c access (CreateRunbook data) uid now l = (Reply 409 (BService (RunbookAlreadyExists (slugify slug))), l).
Proof.
  intros Hw Hs Hne Hr Es. cbn [serve]. unfold writing, api_runbooks_create, create_runbook. rewrite Hw, Hs, Hne. cbn [guard mbind result_bind].
  replace (slug_free (slugify slug) l) with false; [done|]. symmetry. apply not_true_iff_false. rewrite slug_free_true.
  intros Hf. by apply (Hf pk rb).
Qed.
End ApiFacts.
