(* ===== verification/RunbookHistory.v ===== *)
(** * A document is the list of its bodies

    The abstract document is the list of the contents it had, oldest first, and
    a write either adds one or replaces the last. [write_version] implements
    that on the tables of versions, files and heads. Retention prunes from the
    old end and keeps the head; a sweep run again finds nothing to do; and one
    document with a lifetime that reaches before the calendar stops it for
    all. *)
From stdpp Require Import sorting relations.
From S2P Require Import Prelude PyFloat PyStr Regex PyLib Tables Runbook RunbookService RunbookSound RunbookSteps.
Open Scope Z_scope.

(** ** Sorted tables *)

Definition older (x y : Z * DocumentVersion) : Prop := vn_number x.2 <= vn_number y.2.
#[export] Instance older_dec x y : Decision (older x y) := decide (_ <= _).
#[export] Instance older_trans : Transitive older.
Proof. intros x y z. unfold older. lia. Qed.
#[export] Instance older_total : Total older.
Proof. intros x y. unfold older. lia. Qed.

Lemma older_sorted l : StronglySorted older (merge_sort older l).
Proof. apply StronglySorted_merge_sort; apply _. Qed.

Definition of_document (pk : Z) (_ : Z) (vn : DocumentVersion) : bool := vn_document vn =? pk.
Definition timeline (pk : Z) (l : Library) : list (Z * DocumentVersion) := merge_sort older (where_ (of_document pk) (versions l)).
Definition history (pk : Z) (l : Library) : list pystr := (fun x => vn_body x.2) <$> timeline pk l.

(** The specification: what a write does to the contents. *)
Definition replace_last (body : pystr) (h : list pystr) : list pystr := take (length h - 1) h ++ [body].
Definition spec_write (mode : WriteMode) (body : pystr) (h : list pystr) : list pystr :=
  let head := default [] (last h) in
  match mode with
  | MNewVersion => h ++ [body]
  | MOverwrite => replace_last body h
  | MAppend => replace_last (appended head body) h
  | MAppendVersion => h ++ [appended head body]
  end.

Section History.

Lemma timeline_elem pk l v vn :
  (v, vn) ∈ timeline pk l <-> rows (versions l) !! v = Some vn /\ vn_document vn = pk.
Proof. unfold timeline. rewrite merge_sort_Permutation, where_elem. unfold of_document. by rewrite Z.eqb_eq. Qed.

(** A sorted list of the versions is the timeline. *)
Lemma timeline_unique pk l xs :
  sound l -> StronglySorted older xs -> xs ≡ₚ where_ (of_document pk) (versions l) -> timeline pk l = xs.
Proof.
  intros S Hs Hp.
  assert (P : timeline pk l ≡ₚ xs) by (unfold timeline; by rewrite merge_sort_Permutation, Hp).
  eapply StronglySorted_unique_strong; [|apply older_sorted|done|done].
  intros [v vn] [v' vn'] H1 H2 L1 L2. rewrite <- P in H2. apply timeline_elem in H1 as [H1 D1], H2 as [H2 D2].
  unfold older in *. cbn in *.
  assert (v = v') as <- by (apply (number_unique _ _ (sound_versions l S) v vn v' vn'); [done..|congruence|lia]).
  congruence.
Qed.

Lemma StronglySorted_snoc xs y :
  StronglySorted older xs -> (forall x, x ∈ xs -> older x y) -> StronglySorted older (xs ++ [y]).
Proof.
  induction xs as [|x xs IH]; intros Hs Hy; cbn; [repeat constructor|].
  apply StronglySorted_inv in Hs as [Hs Hx]. constructor.
  - apply IH; [done|]. intros z Hz. apply Hy. by right.
  - rewrite Forall_app. split; [done|]. repeat constructor. apply Hy. by left.
Qed.

Lemma timeline_sorted pk l : StronglySorted older (timeline pk l).
Proof. apply older_sorted. Qed.

Lemma where_insert (p : Z -> DocumentVersion -> bool) t vn :
  fresh t -> where_ p (insert_row vn t).2 ≡ₚ where_ p t ++ (if p (next_pk t) vn then [(next_pk t, vn)] else []).
Proof.
  intros F. unfold where_. cbn [insert_row snd rows].
  assert (E : map_to_list (<[next_pk t := vn]> (rows t)) ≡ₚ (next_pk t, vn) :: map_to_list (rows t)).
  { apply map_to_list_insert. by apply insert_row_new. }
  rewrite E. cbn. destruct (p (next_pk t) vn); [|by rewrite app_nil_r]. by rewrite Permutation_app_comm.
Qed.

(** A row, and the others. *)
Lemma where_split (p : Z -> DocumentVersion -> bool) t v vn :
  rows t !! v = Some vn -> p v vn = true ->
  where_ p t ≡ₚ where_ p {| rows := delete v (rows t); next_pk := next_pk t |} ++ [(v, vn)].
Proof.
  intros Hv Hp. unfold where_. cbn [rows]. rewrite <- (insert_delete_id (rows t) v vn Hv) at 1.
  rewrite map_to_list_insert by apply lookup_delete_eq. cbn. rewrite Hp. by rewrite Permutation_app_comm.
Qed.

Lemma where_update (p : Z -> DocumentVersion -> bool) t v vn f :
  rows t !! v = Some vn -> p v vn = true -> p v (f vn) = true ->
  where_ p (update_row v f t) ≡ₚ where_ p {| rows := delete v (rows t); next_pk := next_pk t |} ++ [(v, f vn)].
Proof.
  intros Hv Hp Hf.
  rewrite (where_split p (update_row v f t) v (f vn)); [|by apply update_row_hit|done].
  apply Permutation_app_tail. unfold where_. cbn [rows update_row]. by rewrite delete_alter_eq.
Qed.

Lemma where_update_other (p : Z -> DocumentVersion -> bool) t v vn f :
  rows t !! v = Some vn -> p v vn = false -> p v (f vn) = false -> where_ p (update_row v f t) ≡ₚ where_ p t.
Proof.
  intros Hv Hp Hf. unfold where_. cbn [rows update_row].
  assert (E1 : alter f v (rows t) = <[v := f vn]> (delete v (rows t))).
  { apply map_eq. intros i. destruct (decide (i = v)) as [->|N].
    - by rewrite lookup_alter_eq, lookup_insert_eq, Hv.
    - by rewrite lookup_alter_ne, lookup_insert_ne, lookup_delete_ne by done. }
  rewrite E1. rewrite <- (insert_delete_id (rows t) v vn Hv) at 2.
  rewrite !map_to_list_insert by apply lookup_delete_eq. cbn. by rewrite Hp, Hf.
Qed.

(** The timeline of a document with a head ends with the head. *)
Lemma timeline_head l pk d v :
  sound l -> document_at pk l = Some d -> dc_current d = Some v ->
  exists xs vn, timeline pk l = xs ++ [(v, vn)] /\ rows (versions l) !! v = Some vn /\ vn_document vn = pk /\
    xs ≡ₚ where_ (of_document pk) {| rows := delete v (rows (versions l)); next_pk := next_pk (versions l) |} /\
    StronglySorted older xs /\ (forall x, x ∈ xs -> older x (v, vn)).
Proof.
  intros S Hd Ev. pose proof (doc_head _ _ (sound_versions l S) pk d Hd) as Hh. unfold heads in Hh. rewrite Ev in Hh.
  destruct Hh as (vn & Hv & D & N & _ & Max).
  assert (Hof : of_document pk v vn = true) by (by apply Z.eqb_eq).
  set (rest := where_ (of_document pk) {| rows := delete v (rows (versions l)); next_pk := next_pk (versions l) |}).
  exists (merge_sort older rest), vn.
  assert (P : merge_sort older rest ≡ₚ rest) by apply merge_sort_Permutation.
  assert (Hle : forall x, x ∈ merge_sort older rest -> older x (v, vn)).
  { intros [w wn] Hw. rewrite P in Hw. apply where_elem in Hw as [Hw E]. cbn in Hw. apply lookup_delete_Some in Hw as [_ Hw].
    apply Z.eqb_eq in E. unfold older. cbn. rewrite N. by apply (Max w). }
  split_and!; try done; [|apply older_sorted].
  apply timeline_unique; [done| |].
  - apply StronglySorted_snoc; [apply older_sorted|done].
  - rewrite (where_split (of_document pk) (versions l) v vn) by done. by rewrite P.
Qed.

(** What is read back is the last of the history. *)
Lemma read_head_last l pk d :
  sound l -> document_at pk l = Some d -> read_head d l = default [] (last (history pk l)).
Proof.
  intros S Hd. unfold read_head, version_at. destruct (dc_current d) as [v|] eqn:Ev.
  - destruct (timeline_head l pk d v S Hd Ev) as (xs & vn & E & Hv & _).
    unfold history. rewrite E, fmap_app, Hv. cbn. by rewrite last_snoc.
  - pose proof (doc_head _ _ (sound_versions l S) pk d Hd) as Hh. unfold heads in Hh. rewrite Ev in Hh.
    unfold history. destruct (timeline pk l) as [|[v vn] xs] eqn:E; [done|].
    assert (Hin : (v, vn) ∈ timeline pk l) by (rewrite E; by left). apply timeline_elem in Hin as [Hv D]. by destruct (Hh v vn).
Qed.

Lemma versions_emit e l : versions (emit e l) = versions l.
Proof. done. Qed.

Lemma history_versions pk l l' : versions l' = versions l -> history pk l' = history pk l.
Proof. unfold history, timeline. by intros ->. Qed.

Lemma history_unique pk l xs :
  sound l -> StronglySorted older xs -> xs ≡ₚ where_ (of_document pk) (versions l) -> history pk l = (fun x => vn_body x.2) <$> xs.
Proof. intros S Hs Hp. unfold history. by rewrite (timeline_unique pk l xs). Qed.

(** *** A new version *)

Lemma history_new_version pk body who de so vi now l l' :
  sound l -> create_new_version pk body who de so vi now l = Ok l' ->
  history pk l' = history pk l ++ [body] /\ forall pk', pk' <> pk -> history pk' l' = history pk' l.
Proof.
  intros S E. apply create_new_version_ok in E as (d & Hd & _ & ->); [|done].
  set (vn := new_version d pk body who de so vi now l).
  assert (S' : sound (with_version d pk vn now l)) by (by apply sound_with_version).
  destruct (next_number_above l pk d S Hd) as (_ & Above & _).
  pose proof (fun p => where_insert p (versions l) vn (fresh_versions l S)) as W. split.
  - rewrite (history_unique pk _ (timeline pk l ++ [(next_pk (versions l), vn)])); [|done| |].
    + by rewrite fmap_app.
    + apply StronglySorted_snoc; [apply timeline_sorted|]. intros [w wn] [Hw D]%timeline_elem.
      specialize (Above w wn Hw D). unfold older. cbn. lia.
    + cbn [versions with_version upd]. rewrite W. unfold of_document at 2. cbn. rewrite Z.eqb_refl.
      unfold timeline. by rewrite merge_sort_Permutation.
  - intros pk' Hne. unfold history. f_equal. apply timeline_unique; [done|apply timeline_sorted|].
    cbn [versions with_version upd]. rewrite W. unfold of_document at 2. cbn.
    rewrite (proj2 (Z.eqb_neq pk pk')) by done. rewrite app_nil_r. unfold timeline. by rewrite merge_sort_Permutation.
Qed.

(** *** The head replaced *)

Lemma replace_last_snoc body h x : replace_last body (h ++ [x]) = h ++ [body].
Proof. unfold replace_last. rewrite length_app. cbn. by rewrite Nat.add_sub, take_app_length. Qed.

Lemma history_overwrite pk body so vi now l l' :
  sound l -> overwrite_head pk body so vi now l = Ok l' ->
  history pk l' = replace_last body (history pk l) /\ forall pk', pk' <> pk -> history pk' l' = history pk' l.
Proof.
  intros S E. pose proof (sound_overwrite_head _ _ _ _ _ _ _ S E) as S'.
  apply overwrite_head_ok in E as (d & v & Hd & Ev & _ & ->).
  destruct (timeline_head l pk d v S Hd Ev) as (xs & vn & Et & Hv & D & Px & Sx & Lx).
  match type of S' with sound (_ <| documents := _ |>) => idtac end.
  match goal with |- context [update_row v ?f (versions l)] => set (g := f) in * end. split.
  - assert (Eh : history pk l = ((fun x => vn_body x.2) <$> xs) ++ [vn_body vn]) by (unfold history; by rewrite Et, fmap_app).
    rewrite Eh, replace_last_snoc. rewrite (history_unique pk _ (xs ++ [(v, g vn)])); [by rewrite fmap_app|done| |].
    + apply StronglySorted_snoc; [done|]. intros x Hx. by apply Lx.
    + cbn [versions upd]. rewrite (where_update _ _ v vn g Hv) by (by apply Z.eqb_eq). by rewrite Px.
  - intros pk' Hne. unfold history. f_equal. apply timeline_unique; [done|apply timeline_sorted|].
    cbn [versions upd]. rewrite (where_update_other _ _ v vn g Hv) by (apply Z.eqb_neq; cbn; congruence).
    unfold timeline. by rewrite merge_sort_Permutation.
Qed.
End History.

Section Writes.
Context `{RunbookLib}.

Lemma write_contents pk body mode de so vi a b now l l' :
  sound l -> write_version pk body mode de so vi a b now l = Ok l' ->
  exists m, mode_of mode = Some m /\ history pk l' = spec_write m body (history pk l) /\
            forall pk', pk' <> pk -> history pk' l' = history pk' l.
Proof.
  intros S E. unfold write_version in E. ok_steps.
  match goal with Hd : document_at pk l = Some _ |- _ => pose proof (read_head_last l pk _ S Hd) as RH end.
  destruct (mode_of mode) as [m|]; [|done]. exists m. split; [done|].
  destruct m; ok_steps; unfold spec_write; rewrite <- ?RH;
    match goal with
    | E : create_new_version _ _ _ _ _ _ _ _ = Ok _ |- _ => by apply history_new_version in E
    | E : overwrite_head _ _ _ _ _ _ = Ok _ |- _ => by apply history_overwrite in E
    end.
Qed.

(** C11: [write_version] is the specification: on the list of the contents of
    the document it adds the new content, or the last one with the new at its
    end, or puts it in place of the last; no other document's contents change. *)
Theorem write_refines_contents pk body mode de so vi a b now l l' :
  sound l -> write_version pk body mode de so vi a b now l = Ok l' ->
  exists m, mode_of mode = Some m /\ history pk l' = spec_write m body (history pk l) /\
            forall pk', pk' <> pk -> history pk' l' = history pk' l.
Proof. apply write_contents. Qed.

(** restoring a version brings its content back and forgets nothing: the
    contents are what they were, with the restored one again at the end. *)
Theorem restore_brings_back r n vi a b now l pk l' :
  sound l -> restore_version r n vi a b now l = Ok (pk, l') ->
  exists v vn, rows (versions l) !! v = Some vn /\ vn_document vn = pk /\ vn_number vn = n /\
               history pk l' = history pk l ++ [vn_body vn].
Proof.
  intros S E. unfold restore_version in E. ok_steps.
  match goal with E : first_where _ _ = Some ?y |- _ => destruct y as [v vn]; apply first_where_some in E as [Hv Ey] end.
  cbn [fst snd] in *. bool_to_prop. exists v, vn. split_and!; [done..|].
  match goal with E : write_version _ _ _ _ _ _ _ _ _ _ = Ok _ |- _ =>
    apply write_contents in E as (m & Em & Eh & _); [|done] end.
  rewrite Eh. injection Em as <-. done.
Qed.
End Writes.

(** ** Optimistic writes *)

Section Optimistic.
Context `{RunbookLib}.

Lemma create_new_version_number pk body who de so vi now l l' d :
  sound l -> document_at pk l = Some d -> dc_current d <> None -> create_new_version pk body who de so vi now l = Ok l' ->
  exists d', document_at pk l' = Some d' /\ dc_version d' = dc_version d + 1 /\ unmoved d d'.
Proof.
  intros S Hd Hc E. destruct (next_number_above l pk d S Hd) as (_ & _ & En). specialize (En Hc).
  apply create_new_version_ok in E as (e & He & _ & ->); [|done].
  assert (e = d) as -> by (unfold document_at in Hd; congruence). unfold document_at.
  eexists. split; [by apply update_row_hit|]. split; [exact En|done].
Qed.

Lemma find_keyed_unique l rb key pk d :
  sound l -> document_at pk l = Some d -> dc_runbook d = Some rb -> dc_key d = Some key -> find_keyed rb key l = Some (pk, d).
Proof.
  intros S Hd Hr Hk. apply first_where_unique; [done|by rewrite !bool_decide_true|].
  intros pk' d' Hd' E. bool_to_prop. apply (key_unique _ _ _ (sound_documents l S) pk' d' pk d); [done..|].
  apply same_place_spec. by exists rb, key.
Qed.

Lemma put_metadata_head rb p pk d now l l' :
  document_at pk l = Some d -> put_metadata rb p pk d now l = Ok l' ->
  exists d', document_at pk l' = Some d' /\ same_head d d' /\ dc_runbook d' = dc_runbook d /\ dc_key d' = dc_key d.
Proof.
  intros Hd E. unfold put_metadata in E. apply bind_Ok in E as (sec & _ & E).
  match type of E with (if ?b then _ else _) = _ => destruct b end; ok_steps; [|by exists d].
  unfold document_at in *. eexists. split; [by apply update_row_hit|done].
Qed.

(** C12: no update is lost. Of the writers that read version [n] of a document
    and write a new version expecting it, one succeeds and makes version
    [n + 1]; every other write that expects [n], whoever makes it and however,
    fails. *)
Theorem no_lost_update r key p uid a b now l res l' n pk d rb :
  sound l -> resolve_runbook r l = Ok rb -> find_keyed rb.1 key l = Some (pk, d) -> dc_current d <> None ->
  pt_on_exists p = u "new_version" -> pt_expected p = Some n ->
  put_document r key p uid a b now l = Ok (res, l') ->
  dc_version d = n /\
  (exists d', document_at pk l' = Some d' /\ dc_version d' = n + 1) /\
  forall r' p' uid' a' b' now', resolve_runbook r' l' = Ok rb -> pt_expected p' = Some n ->
    is_ok (put_document r' key p' uid' a' b' now' l') = false.
Proof.
  intros S Er Ef Hc Em En E. destruct (put_document_changes _ _ _ _ _ _ _ _ _ _ S E) as [C _].
  assert (S' : sound l') by (by eapply sound_changes).
  unfold put_document in E. rewrite Er in E. cbn [mbind result_bind] in E. apply (proj1 (atomic_Ok _ _)) in E. rewrite Ef in E.
  apply find_keyed_Some in Ef as (Hd & Hr & Hk). rewrite En in E. ok_steps. bool_to_prop.
  match goal with E : put_metadata _ _ _ _ _ _ = Ok ?y |- _ => rename E into EM; rename y into l1 end.
  match goal with E : write_version _ _ _ _ _ _ _ _ _ _ = Ok _ |- _ => rename E into EW end.
  assert (S1 : sound l1).
  { eapply sound_changes; [exact S|]. exact (put_metadata_changes (fun _ => True) _ _ _ _ _ _ _ S I Hd Hr EM). }
  destruct (put_metadata_head _ _ _ _ _ _ _ Hd EM) as (d1 & Hd1 & (E1 & E2 & _) & E3 & E4).
  rewrite Em in EW. unfold write_version in EW. rewrite Hd1 in EW. ok_steps.
  change (mode_of (u "new_version")) with (Some MNewVersion) in EW. cbv iota in EW. ok_steps.
  match goal with E : create_new_version _ _ _ _ _ _ _ _ = Ok _ |- _ =>
    apply (create_new_version_number _ _ _ _ _ _ _ _ _ d1) in E as (d' & Hd' & Ev & (_ & F1 & _ & F2)); [|done|done|by rewrite E1] end.
  split; [done|]. split; [exists d'; split; [done|lia]|].
  intros r' p' uid' a' b' now' Er' En'. unfold put_document. rewrite Er'. cbn [mbind result_bind].
  match goal with |- context [find_keyed _ _ ?lf] =>
    rewrite (find_keyed_unique lf rb.1 key pk d') by (first [done | exact Hd' | congruence]) end.
  rewrite En'.
  match goal with |- context [dc_version d' =? ?k] => replace (dc_version d' =? k) with false by (symmetry; apply Z.eqb_neq; lia) end.
  match goal with |- context [check_writable ?e ?w ?z ?y] => destruct (check_writable e w z y) as [?|e0] end;
    cbn [mbind result_bind]; [|by destruct e0 as [| | | | | | | | | |[]| |]].
  by destruct (str_eqb (pt_on_exists p') (u "fail")).
Qed.
End Optimistic.

(** * What retention leaves *)

(** ** Versions that go *)

Lemma filter_sorted (q : Z * DocumentVersion -> bool) xs :
  StronglySorted older xs -> StronglySorted older (List.filter q xs).
Proof.
  induction 1 as [|x xs Hs IH Hx]; cbn; [constructor|]. destruct (q x); [|done]. constructor; [done|].
  rewrite Forall_forall in *. intros y Hy. apply Hx. apply list_elem_of_In in Hy. apply filter_In in Hy as [Hy _].
  by apply list_elem_of_In.
Qed.

Lemma where_delete (p q : Z -> DocumentVersion -> bool) (t : Table DocumentVersion) :
  where_ p (delete_rows q t) ≡ₚ List.filter (fun x => negb (q x.1 x.2)) (where_ p t).
Proof.
  apply NoDup_Permutation.
  - unfold where_. apply NoDup_ListNoDup, List.NoDup_filter, NoDup_ListNoDup, NoDup_map_to_list.
  - unfold where_. apply NoDup_ListNoDup, List.NoDup_filter, List.NoDup_filter, NoDup_ListNoDup, NoDup_map_to_list.
  - intros [k x]. rewrite where_elem, lookup_delete, list_elem_of_In, filter_In, <- list_elem_of_In, where_elem. cbn.
    rewrite negb_true_iff. naive_solver.
Qed.

Definition spares (vs : list Z) (l : Library) : Prop :=
  forall v pk d, v ∈ vs -> document_at pk l = Some d -> dc_current d <> Some v.

Lemma sound_delete_them vs l : sound l -> spares vs l -> sound (delete_versions vs l).
Proof.
  intros S Hv. apply sound_delete_versions; [done|]. intros v vn pk d _ E Hd. bool_to_prop. by apply (Hv v pk d).
Qed.

Lemma timeline_delete vs pk l :
  sound l -> spares vs l ->
  timeline pk (delete_versions vs l) = List.filter (fun x => negb (bool_decide (x.1 ∈ vs))) (timeline pk l).
Proof.
  intros S Hv. apply timeline_unique; [by apply sound_delete_them|apply filter_sorted, timeline_sorted|].
  cbn [delete_versions versions upd]. rewrite where_delete. unfold timeline. by rewrite merge_sort_Permutation.
Qed.

(** The newest first is the timeline reversed. *)
#[local] Instance newest_trans : Transitive newest_number.
Proof. intros x y z. unfold newest_number. lia. Qed.
#[local] Instance newest_total : Total newest_number.
Proof. intros x y. unfold newest_number. lia. Qed.

Lemma reverse_sorted xs : StronglySorted older xs -> StronglySorted newest_number (reverse xs).
Proof.
  induction 1 as [|x xs Hs IH Hx]; [constructor|]. rewrite reverse_cons.
  assert (Hall : forall y, y ∈ reverse xs -> newest_number y x).
  { intros y Hy. rewrite elem_of_reverse in Hy. rewrite Forall_forall in Hx. by apply Hx. }
  revert IH Hall. generalize (reverse xs). clear. intros ys.
  induction ys as [|y ys IH]; intros Hs Hall; cbn; [repeat constructor|].
  apply StronglySorted_inv in Hs as [Hs Hy]. constructor.
  - apply IH; [done|]. intros z Hz. apply Hall. by right.
  - rewrite Forall_app. split; [done|]. repeat constructor. apply Hall. by left.
Qed.

Lemma versions_of_reverse pk l : sound l -> versions_of pk l = reverse (timeline pk l).
Proof.
  intros S. eapply (StronglySorted_unique_strong newest_number).
  - intros [v vn] [v' vn'] H1 H2 L1 L2. unfold versions_of in H1. rewrite merge_sort_Permutation in H1.
    rewrite elem_of_reverse in H2. apply where_elem in H1 as [H1 D1]. apply timeline_elem in H2 as [H2 D2]. apply Z.eqb_eq in D1.
    unfold newest_number in *. cbn in *.
    assert (v = v') as <- by (apply (number_unique _ _ (sound_versions l S) v vn v' vn'); [done..|congruence|lia]).
    congruence.
  - apply StronglySorted_merge_sort; apply _.
  - apply reverse_sorted, timeline_sorted.
  - unfold versions_of, timeline. rewrite reverse_Permutation. by rewrite !merge_sort_Permutation.
Qed.

Lemma doomed_elem policy head now vs dead v :
  doomed policy head now vs = Some dead ->
  v ∈ dead <-> head <> Some v /\
    ((exists k, rp_max_versions policy = Some k /\ v ∈ (tail_from k vs).*1) \/
     (exists days t, rp_max_version_age_days policy = Some days /\ days_before now days = Some t /\
                     exists vn, (v, vn) ∈ vs /\ vn_created_at vn < t)).
Proof.
  unfold doomed. intros E.
  assert (A : exists by_age, dead = List.filter (fun v => negb (bool_decide (head = Some v)))
    ((match rp_max_versions policy with Some k => (tail_from k vs).*1 | None => [] end) ++ by_age) /\
    (forall w, w ∈ by_age <-> exists days t, rp_max_version_age_days policy = Some days /\ days_before now days = Some t /\
                     exists vn, (w, vn) ∈ vs /\ vn_created_at vn < t)).
  { destruct (rp_max_version_age_days policy) as [days|].
    - destruct (days_before now days) as [t|] eqn:Et; [|done]. cbn in E. injection E as <-. eexists. split; [done|].
      intros w. rewrite list_elem_of_fmap. split.
      + intros ([w' vn] & -> & Hw). apply list_elem_of_In, filter_In in Hw as [Hw C]. rewrite <- list_elem_of_In in Hw.
        cbn in *. apply Z.ltb_lt in C. naive_solver.
      + intros (days' & t' & [= <-] & E' & vn & Hw & C). assert (t' = t) as -> by congruence. exists (w, vn).
        split; [done|]. apply list_elem_of_In, filter_In. rewrite <- list_elem_of_In. split; [done|]. by apply Z.ltb_lt.
    - injection E as <-. exists []. split; [done|]. intros w. split; [by intros ?%elem_of_nil|]. naive_solver. }
  destruct A as (by_age & -> & Ha). rewrite list_elem_of_In, filter_In, <- list_elem_of_In, elem_of_app, Ha.
  rewrite negb_true_iff, bool_decide_eq_false.
  destruct (rp_max_versions policy) as [k|]; [naive_solver|]. rewrite elem_of_nil. naive_solver.
Qed.

Lemma table_eta {A} (t : Table A) : {| rows := rows t; next_pk := next_pk t |} = t.
Proof. by destruct t. Qed.

Lemma delete_none l : delete_versions [] l = l.
Proof.
  unfold delete_versions, delete_rows. cbn.
  replace (filter _ (rows (versions l))) with (rows (versions l)).
  - rewrite table_eta. by destruct l.
  - symmetry. apply map_filter_id. intros v vn _. cbn. apply bool_decide_eq_false. apply not_elem_of_nil.
Qed.

Lemma tail_from_subset {A} k (vs : list A) x : x ∈ tail_from k vs -> x ∈ vs.
Proof. unfold tail_from. apply subseteq_drop. Qed.

Lemma prune_versions_eq s pk d now l :
  prune_versions s pk d now l =
    (dead ← doomed (effective_policy s d l) (dc_current d) now (versions_of pk l);
     Some (zlen (remove_dups dead), delete_versions dead l)).
Proof.
  unfold prune_versions. destruct (bool_decide _ && _) eqn:E; [|done]. bool_to_prop. unfold doomed.
  match goal with H1 : rp_max_versions _ = None, H2 : rp_max_version_age_days _ = None |- _ => rewrite H1, H2 end.
  cbn. by rewrite delete_none.
Qed.

(** The doomed are versions of the document, and none is a head. *)
Lemma doomed_spec s pk d now l dead :
  sound l -> document_at pk l = Some d -> doomed (effective_policy s d l) (dc_current d) now (versions_of pk l) = Some dead ->
  spares dead l /\ (forall v, v ∈ dead -> exists vn, rows (versions l) !! v = Some vn /\ vn_document vn = pk).
Proof.
  intros S Hd Ed.
  assert (Own : forall v, v ∈ dead -> exists vn, rows (versions l) !! v = Some vn /\ vn_document vn = pk).
  { intros v Hv. assert (Hin : exists vn, (v, vn) ∈ versions_of pk l).
    { apply (doomed_elem _ _ _ _ _ _ Ed) in Hv as [_ [(k & _ & Hv)|(days & t & _ & _ & vn & Hv & _)]]; [|by exists vn].
      apply list_elem_of_fmap in Hv as ([w vn] & -> & Hv). exists vn. by apply tail_from_subset in Hv. }
    destruct Hin as [vn Hin]. rewrite versions_of_reverse, elem_of_reverse, timeline_elem in Hin by done. eauto. }
  split; [|done]. intros v pk' d' Hv Hd' Ec. destruct (Own v Hv) as (vn & Hvn & D).
  pose proof (doc_head _ _ (sound_versions l S) pk' d' Hd') as Hh. unfold heads in Hh. rewrite Ec in Hh.
  destruct Hh as (w & Hw & D' & _). assert (w = vn) as -> by congruence. assert (pk' = pk) as -> by congruence.
  assert (d' = d) as -> by congruence. by apply (doomed_elem _ _ _ _ _ _ Ed) in Hv as [? _].
Qed.

Lemma prune_versions_Some s pk d now l n l' :
  sound l -> document_at pk l = Some d -> prune_versions s pk d now l = Some (n, l') ->
  exists dead, doomed (effective_policy s d l) (dc_current d) now (versions_of pk l) = Some dead /\
    n = zlen (remove_dups dead) /\ l' = delete_versions dead l /\ spares dead l /\
    (forall v, v ∈ dead -> exists vn, rows (versions l) !! v = Some vn /\ vn_document vn = pk).
Proof.
  intros S Hd E. rewrite prune_versions_eq in E. destruct (doomed _ _ _ _) as [dead|] eqn:Ed; [|done].
  injection E as <- <-. exists dead. destruct (doomed_spec s pk d now l dead S Hd Ed). done.
Qed.

Lemma versions_of_delete dead pk l :
  sound l -> spares dead l ->
  versions_of pk (delete_versions dead l) = List.filter (fun x => negb (bool_decide (x.1 ∈ dead))) (versions_of pk l).
Proof.
  intros S Sp. rewrite !versions_of_reverse, timeline_delete by (try apply sound_delete_them; done).
  generalize (timeline pk l). intros xs. induction xs as [|x xs IH]; [done|].
  rewrite reverse_cons, List.filter_app, <- IH. cbn [List.filter].
  destruct (bool_decide (x.1 ∈ dead)); cbn [negb]; [by rewrite app_nil_r|by rewrite reverse_cons].
Qed.

Lemma elem_of_drop_filter {A} (q : A -> bool) (xs : list A) n x :
  x ∈ drop n (List.filter q xs) -> x ∈ drop n xs /\ q x = true.
Proof.
  revert n. induction xs as [|y xs IH]; intros n Hx; cbn [List.filter] in Hx; [by rewrite drop_nil in Hx; apply elem_of_nil in Hx|]. destruct (q y) eqn:Eq.
  - destruct n as [|n]; cbn in *; [|by apply IH].
    apply elem_of_cons in Hx as [->|Hx]; [split; [by left|done]|]. destruct (IH 0%nat) as [? ?]; [by rewrite drop_0|].
    rewrite drop_0 in *. split; [by right|done].
  - destruct (IH n Hx) as [H1 H2]. split; [|done]. destruct n as [|n]; cbn; [by right|].
    replace (S n) with (n + 1)%nat in H1 by lia. rewrite <- drop_drop in H1. by apply subseteq_drop in H1.
Qed.

(** A policy of this document that counts no versions from the old end. *)
Definition counts_forward (policy : RetentionPolicy) : Prop := forall k, rp_max_versions policy = Some k -> 0 <= k.

Lemma doomed_again policy head now vs dead :
  counts_forward policy -> doomed policy head now vs = Some dead ->
  doomed policy head now (List.filter (fun x => negb (bool_decide (x.1 ∈ dead))) vs) = Some [].
Proof.
  intros Hk Ed. set (vs' := List.filter _ vs).
  assert (Hsome : is_Some (doomed policy head now vs')).
  { unfold doomed in *. destruct (rp_max_version_age_days policy) as [days|]; [|by eexists].
    destruct (days_before now days); [by eexists|done]. }
  destruct Hsome as [dead' Ed']. rewrite Ed'. f_equal. apply elem_of_nil_inv. intros v Hv.
  apply (doomed_elem _ _ _ _ _ _ Ed') in Hv as [Hh Hv].
  assert (Old : v ∈ dead /\ v ∉ dead); [|tauto].
  destruct Hv as [(k & Ek & Hv)|(days & t & E1 & E2 & vn & Hv & Hc)].
  - apply list_elem_of_fmap in Hv as ([w vn] & -> & Hv). unfold tail_from in Hv.
    destruct (k <? 0) eqn:E0; [specialize (Hk k Ek); bool_to_prop; lia|].
    apply elem_of_drop_filter in Hv as [Hv Hq]. apply negb_true_iff in Hq. bool_to_prop. cbn in *. split; [|done].
    apply (doomed_elem _ _ _ _ _ _ Ed). split; [done|]. left. exists k. split; [done|].
    apply list_elem_of_fmap. exists (w, vn). split; [done|]. unfold tail_from. rewrite (proj2 (Z.ltb_ge k 0)) by lia. done.
  - rewrite <- (drop_0 vs') in Hv. apply elem_of_drop_filter in Hv as [Hv Hq]. rewrite drop_0 in Hv.
    apply negb_true_iff in Hq. bool_to_prop. split; [|done].
    apply (doomed_elem _ _ _ _ _ _ Ed). split; [done|]. right. exists days, t. naive_solver.
Qed.

(** Pruned, a document has nothing to prune. *)
Lemma prune_again s pk d now l n l' :
  sound l -> document_at pk l = Some d -> counts_forward (effective_policy s d l) ->
  prune_versions s pk d now l = Some (n, l') -> prune_versions s pk d now l' = Some (0, l').
Proof.
  intros S Hd Hk E. destruct (prune_versions_Some s pk d now l n l' S Hd E) as (dead & Ed & _ & -> & Sp & _).
  rewrite prune_versions_eq. change (effective_policy s d (delete_versions dead l)) with (effective_policy s d l).
  rewrite versions_of_delete by done. rewrite (doomed_again _ _ _ _ dead Hk Ed). cbn. by rewrite delete_none.
Qed.

(** The timeline without all but the last [k], where the last stays. *)
Lemma filter_split {A} (q : A -> bool) (a b : list A) :
  (forall x, x ∈ a -> q x = false) -> (forall x, x ∈ b -> q x = true) -> List.filter q (a ++ b) = b.
Proof.
  intros Ha Hb. rewrite List.filter_app.
  replace (List.filter q a) with (@nil A).
  - cbn. apply forallb_filter_id, forallb_forall. intros x Hx. by apply Hb, list_elem_of_In.
  - symmetry. induction a as [|x a IH]; cbn; [done|]. rewrite Ha by by left. apply IH. intros y Hy. apply Ha. by right.
Qed.

Lemma timeline_NoDup pk l : NoDup (timeline pk l).*1.
Proof. unfold timeline. rewrite merge_sort_Permutation. apply where_NoDup. Qed.

Lemma NoDup_fst_apart {A} (n : nat) (xs : list (Z * A)) v : NoDup xs.*1 -> v ∈ (take n xs).*1 -> v ∈ (drop n xs).*1 -> False.
Proof.
  intros N H1 H2. rewrite <- (take_drop n xs), fmap_app in N. apply NoDup_app in N as (_ & N & _). by apply (N v).
Qed.

Lemma filter_last (dead : list Z) v k (xs : list (Z * DocumentVersion)) :
  (exists ys vn, xs = ys ++ [(v, vn)]) -> NoDup xs.*1 -> 0 <= k ->
  (forall w, w ∈ dead <-> w <> v /\ w ∈ (take (length xs - Z.to_nat k) xs).*1) ->
  List.filter (fun x => negb (bool_decide (x.1 ∈ dead))) xs = drop (length xs - Z.to_nat (Z.max k 1)) xs.
Proof.
  intros (ys & vn & Exs) N Hk Hd. set (m := (length xs - Z.to_nat (Z.max k 1))%nat).
  assert (Hm : (m <= length ys)%nat) by (unfold m; rewrite Exs, length_app; cbn; lia).
  assert (Hv : v ∈ (drop m xs).*1).
  { rewrite Exs, drop_app_le by done. rewrite fmap_app, elem_of_app. right. by left. }
  rewrite <- (take_drop m xs) at 1. apply filter_split.
  - intros x Hx. apply negb_false_iff, bool_decide_eq_true, Hd.
    assert (Hx' : x.1 ∈ (take m xs).*1) by (apply list_elem_of_fmap; eauto). split.
    + intros Ex. rewrite Ex in Hx'. by apply (NoDup_fst_apart m xs v N).
    + replace m with (Nat.min m (length xs - Z.to_nat k)) in Hx' by (unfold m; lia).
      rewrite <- take_take, fmap_take in Hx'. by apply subseteq_take in Hx'.
  - intros x Hx. apply negb_true_iff, bool_decide_eq_false. rewrite Hd. intros [Hne Hx'].
    assert (Hd' : x.1 ∈ (drop m xs).*1) by (apply list_elem_of_fmap; eauto).
    destruct (decide (k = 0)) as [->|Hk0].
    + assert (E : m = length ys) by (unfold m; rewrite Exs, length_app; cbn; lia).
      rewrite E, Exs, drop_app_length in Hx. apply list_elem_of_singleton in Hx. by subst x.
    + apply (NoDup_fst_apart m xs x.1 N); [|done]. by replace (length xs - Z.to_nat k)%nat with m in Hx' by (unfold m; lia).
Qed.

(** pruning by count keeps the newest: of the contents of the document
    the last [k] are left, and the head if [k] is 0; no other document loses
    any. *)
Theorem prune_keeps_the_newest s pk d now l n l' k :
  sound l -> document_at pk l = Some d -> prune_versions s pk d now l = Some (n, l') ->
  rp_max_versions (effective_policy s d l) = Some k -> 0 <= k -> rp_max_version_age_days (effective_policy s d l) = None ->
  history pk l' = drop (length (history pk l) - Z.to_nat (Z.max k 1)) (history pk l) /\
  forall pk', pk' <> pk -> history pk' l' = history pk' l.
Proof.
  intros S Hd E Ek Hk Ea. destruct (prune_versions_Some s pk d now l n l' S Hd E) as (dead & Ed & _ & -> & Sp & Own). split.
  - unfold history. rewrite timeline_delete by done. rewrite length_fmap, <- fmap_drop. f_equal.
    assert (Hdead : forall v, v ∈ dead <-> dc_current d <> Some v /\ v ∈ (take (length (timeline pk l) - Z.to_nat k) (timeline pk l)).*1).
    { intros v. rewrite (doomed_elem _ _ _ _ _ _ Ed), Ek, Ea. unfold tail_from.
      assert (R : forall k', k = k' -> (drop (Z.to_nat (if k' <? 0 then zlen (versions_of pk l) + k' else k')) (versions_of pk l)).*1 ≡ₚ
        (take (length (timeline pk l) - Z.to_nat k) (timeline pk l)).*1).
      { intros ? <-. rewrite (proj2 (Z.ltb_ge k 0)) by lia. rewrite versions_of_reverse by done.
        by rewrite drop_reverse, reverse_Permutation. }
      split.
      - intros [Hne [(k' & [= Ek'] & Hv)|(days & t & ? & _)]]; [|done]. by rewrite (R k' Ek') in Hv.
      - intros [Hne Hv]. split; [done|]. left. exists k. split; [done|]. by rewrite (R k eq_refl). }
    destruct (dc_current d) as [v|] eqn:Ev.
    + destruct (timeline_head l pk d v S Hd Ev) as (xs & vn & Et & _).
      apply (filter_last dead v k); [by rewrite Et; eauto|by apply timeline_NoDup|done|].
      intros w. rewrite Hdead. naive_solver.
    + pose proof (doc_head _ _ (sound_versions l S) pk d Hd) as Hh. unfold heads in Hh. rewrite Ev in Hh.
      destruct (timeline pk l) as [|[v vn] xs] eqn:E'; [by rewrite drop_nil|].
      assert (Hin : (v, vn) ∈ timeline pk l) by (rewrite E'; by left). apply timeline_elem in Hin as [Hv D]. by destruct (Hh v vn).
  - intros pk' Hne. unfold history. rewrite timeline_delete by done. f_equal.
    apply forallb_filter_id, forallb_forall. intros [v vn] Hv. apply list_elem_of_In, timeline_elem in Hv as [Hv D].
    apply negb_true_iff, bool_decide_eq_false. intros Hin. destruct (Own v Hin) as (w & Hw & D'). cbn in *. congruence.
Qed.

(** ** The sweep *)

Section Sweeps.
Context (s : Settings) (now : Z).

(** Nothing to prune and not expired. *)
Definition settled (l : Library) (pk : Z) (d : Document) : Prop :=
  doomed (effective_policy s d l) (dc_current d) now (versions_of pk l) = Some [] /\ is_expired s d now l = Some false.

Definition agrees (pk : Z) (l l' : Library) : Prop :=
  runbooks l' = runbooks l /\
  forall v vn, vn_document vn = pk -> rows (versions l') !! v = Some vn <-> rows (versions l) !! v = Some vn.

Lemma policy_agrees d l l' : runbooks l' = runbooks l -> effective_policy s d l' = effective_policy s d l.
Proof. unfold effective_policy, runbook_row. by intros ->. Qed.
Lemma expired_agrees d l l' : runbooks l' = runbooks l -> is_expired s d now l' = is_expired s d now l.
Proof. intros E. unfold is_expired. by rewrite (policy_agrees d l l' E). Qed.

Lemma settled_agrees pk d l l' : sound l -> sound l' -> agrees pk l l' -> settled l pk d -> settled l' pk d.
Proof.
  intros S S' [Er Ev] [H1 H2]. split; [|by rewrite (expired_agrees d l l' Er)].
  rewrite (policy_agrees d l l' Er). replace (versions_of pk l') with (versions_of pk l); [done|].
  rewrite !versions_of_reverse by done. f_equal. symmetry. apply timeline_unique; [done|apply timeline_sorted|].
  unfold timeline. rewrite merge_sort_Permutation. apply NoDup_Permutation.
  - eapply NoDup_fmap_1, where_NoDup.
  - eapply NoDup_fmap_1, where_NoDup.
  - intros [v vn]. rewrite !where_elem. unfold of_document. rewrite Z.eqb_eq. split; intros [Hv D]; (split; [by apply Ev|done]).
Qed.

Lemma sweep_sticky w x : sw_raised w = true -> sweep_document s now w x = w.
Proof. unfold sweep_document. by intros ->. Qed.
Lemma sweeps_sticky xs w : sw_raised w = true -> foldl (sweep_document s now) w xs = w.
Proof. induction xs as [|x xs IH]; intros E; cbn; [done|]. rewrite sweep_sticky by done. by apply IH. Qed.

Lemma expire_document_spec pk d l :
  sound l -> document_at pk l = Some d ->
  let l' := expire_document s pk d now l in
  sound l' /\ (forall pk', pk' <> pk -> agrees pk' l l' /\ document_at pk' l' = document_at pk' l) /\
  (forall d', document_at pk l' = Some d' -> dc_archived d' = true).
Proof.
  intros S Hd. unfold expire_document. destruct (rp_on_expire _).
  - split_and!; [by apply sound_save_document; [apply sound_emit|]| |].
    + intros pk' Hne. split; [by split|]. unfold document_at. cbn [documents save_document upd emit]. by apply update_row_miss.
    + intros d'. unfold document_at in *. cbn [documents save_document upd emit].
      rewrite (update_row_hit _ _ _ d Hd). by intros [= <-].
  - split_and!; [by apply sound_drop_documents, sound_emit| |].
    + intros pk' Hne. unfold agrees, document_at in *. cbn [documents versions runbooks drop_documents upd emit]. split_and!; [done| |].
      * intros v vn D. rewrite lookup_delete. split; [by intros []|]. intros Hv. split; [done|].
        rewrite D. unfold document_at. cbn [documents emit upd]. destruct (rows (documents l) !! pk'); [|done]. by apply Z.eqb_neq.
      * destruct (rows (documents l) !! pk') as [d'|] eqn:E.
        -- apply lookup_delete. split; [done|]. by apply Z.eqb_neq.
        -- destruct (rows (delete_rows _ _) !! pk') eqn:E2; [|done]. apply lookup_delete in E2 as [E2 _]. congruence.
    + intros d' H. unfold document_at in *. cbn [documents drop_documents upd emit] in H. apply lookup_delete in H as [_ E].
      by rewrite Z.eqb_refl in E.
Qed.

(** What has been swept is settled, what is still to come is as it was. *)
Record swept (w : Sweep) (todo : list (Z * Document)) : Prop := {
  swept_sound : sound (sw_library w);
  swept_todo : forall pk d, (pk, d) ∈ todo -> document_at pk (sw_library w) = Some d;
  swept_done : forall pk d, document_at pk (sw_library w) = Some d -> dc_archived d = false ->
    (pk, d) ∈ todo \/ settled (sw_library w) pk d;
}.

Definition forward (l : Library) : Prop :=
  forall pk d, document_at pk l = Some d -> counts_forward (effective_policy s d l).

Lemma sweep_step w pk d todo :
  swept w ((pk, d) :: todo) -> NoDup ((pk, d) :: todo).*1 -> counts_forward (effective_policy s d (sw_library w)) ->
  sw_raised w = false -> sw_raised (sweep_document s now w (pk, d)) = false ->
  swept (sweep_document s now w (pk, d)) todo /\ runbooks (sw_library (sweep_document s now w (pk, d))) = runbooks (sw_library w).
Proof.
  intros [S Ht Hs] ND Hf Er Er'. set (l := sw_library w) in *. apply NoDup_cons in ND as [ND _].
  assert (Hd : document_at pk l = Some d) by (apply Ht; by left).
  assert (Hne : forall pk' d', (pk', d') ∈ todo -> pk' <> pk).
  { intros pk' d' Hin ->. apply ND. apply list_elem_of_fmap. by exists (pk, d'). }
  unfold sweep_document in *. rewrite Er in *. cbn [fst snd] in *. fold l in Er' |- *.
  destruct (prune_versions s pk d now l) as [[n l1]|] eqn:Ep; [|done].
  pose proof (prune_again s pk d now l n l1 S Hd Hf Ep) as Again.
  destruct (prune_versions_Some s pk d now l n l1 S Hd Ep) as (dead & Ed & _ & E1 & Sp & Own).
  assert (S1 : sound l1) by (rewrite E1; by apply sound_delete_them).
  assert (A1 : forall pk', pk' <> pk -> agrees pk' l l1).
  { intros pk' N. rewrite E1. split; [done|]. intros v vn D. cbn [versions delete_versions upd]. rewrite lookup_delete.
    split; [by intros []|]. intros Hv. split; [done|]. apply bool_decide_eq_false. intros Hin.
    destruct (Own v Hin) as (vn' & Hv' & D'). congruence. }
  assert (Doc1 : documents l1 = documents l) by (by rewrite E1).
  destruct (is_expired s d now l1) as [[|]|] eqn:Ex; [| |done]; cbn [sw_library].
  - destruct (expire_document_spec pk d l1 S1) as (S2 & A2 & Dead); [unfold document_at; by rewrite Doc1|].
    set (l2 := expire_document s pk d now l1) in *. split.
    + split; cbn [sw_library].
      * done.
      * intros pk' d' Hin. destruct (A2 pk' (Hne pk' d' Hin)) as [_ ->]. unfold document_at. rewrite Doc1. apply Ht. by right.
      * intros pk' d' Hd' Hl. destruct (decide (pk' = pk)) as [->|N]; [specialize (Dead d' Hd'); congruence|].
        destruct (A2 pk' N) as [Ag Eq]. rewrite Eq in Hd'. unfold document_at in Hd'. rewrite Doc1 in Hd'.
        destruct (Hs pk' d' Hd' Hl) as [[E|Hin]%elem_of_cons|Hset]; [by injection E as -> _|by left|right].
        eapply settled_agrees; [exact S1|done|done|]. eapply settled_agrees; [exact S|done|by apply A1|done].
    + unfold l2, expire_document. by destruct (rp_on_expire _); rewrite E1.
  - split; [|by rewrite E1]. split; cbn [sw_library].
    + done.
    + intros pk' d' Hin. unfold document_at. rewrite Doc1. apply Ht. by right.
    + intros pk' d' Hd' Hl. unfold document_at in Hd'. rewrite Doc1 in Hd'.
      destruct (decide (pk' = pk)) as [->|N].
      * assert (d' = d) as -> by (unfold document_at in Hd; congruence). right. split; [|done].
        rewrite E1. change (effective_policy s d (delete_versions dead l)) with (effective_policy s d l).
        rewrite versions_of_delete by done. by apply doomed_again.
      * destruct (Hs pk' d' Hd' Hl) as [[E|Hin]%elem_of_cons|Hset]; [by injection E as -> _|by left|right].
        eapply settled_agrees; [exact S|done|by apply A1|done].
Qed.

Lemma sweep_all xs w :
  swept w xs -> NoDup xs.*1 -> (forall pk d, (pk, d) ∈ xs -> counts_forward (effective_policy s d (sw_library w))) ->
  sw_raised w = false -> sw_raised (foldl (sweep_document s now) w xs) = false ->
  swept (foldl (sweep_document s now) w xs) [].
Proof.
  revert w. induction xs as [|[pk d] xs IH]; intros w Hw ND Hf Er Er'; [done|]. cbn [foldl] in *.
  destruct (sw_raised (sweep_document s now w (pk, d))) eqn:E1.
  { rewrite sweeps_sticky in Er' by done. congruence. }
  destruct (sweep_step w pk d xs Hw ND (Hf pk d ltac:(by left)) Er E1) as [Hw' Erb]. apply NoDup_cons in ND as [_ ND].
  apply IH; [done..| |done|done]. intros pk' d' Hin. rewrite (policy_agrees d' (sw_library w)); [apply (Hf pk'); by right|done].
Qed.

Lemma live_documents_elem l pk d :
  (pk, d) ∈ live_documents l <-> document_at pk l = Some d /\ dc_archived d = false.
Proof. unfold live_documents. by rewrite merge_sort_Permutation, where_elem, negb_true_iff. Qed.

Lemma sweep_settled xs l :
  (forall pk d, (pk, d) ∈ xs -> settled l pk d) ->
  foldl (sweep_document s now) {| sw_pruned := 0; sw_expired := 0; sw_library := l; sw_raised := false |} xs =
    {| sw_pruned := 0; sw_expired := 0; sw_library := l; sw_raised := false |}.
Proof.
  induction xs as [|[pk d] xs IH]; intros Hx; [done|]. cbn [foldl]. destruct (Hx pk d) as [H1 H2]; [by left|].
  unfold sweep_document at 2. cbn [sw_raised sw_library fst snd]. rewrite prune_versions_eq, H1. cbn [mbind option_bind].
  rewrite delete_none, H2. cbn. apply IH. intros pk' d' Hin. apply Hx. by right.
Qed.

(** a sweep that ends keeps the contract of the tables, and run again at
    once it prunes and expires nothing: it is safe to run on any schedule. *)
Theorem sweep_idempotent l :
  sound l -> forward l -> sw_raised (run_sweep s now l) = false ->
  sound (sw_library (run_sweep s now l)) /\
  run_sweep s now (sw_library (run_sweep s now l)) =
    {| sw_pruned := 0; sw_expired := 0; sw_library := sw_library (run_sweep s now l); sw_raised := false |}.
Proof.
  intros S Hf Er.
  assert (W : swept (run_sweep s now l) []).
  { apply sweep_all; [|unfold live_documents; rewrite merge_sort_Permutation; apply where_NoDup| |done|done].
    2: { intros pk d [Hd _]%live_documents_elem. by apply (Hf pk). }
    split; cbn [sw_library]; [done| |].
    - intros pk d Hin. by apply live_documents_elem in Hin as [? _].
    - intros pk d Hd Hl. left. by apply live_documents_elem. }
  destruct W as [S' _ Hs]. split; [done|]. unfold run_sweep at 1. apply sweep_settled.
  intros pk d [Hd Hl]%live_documents_elem. destruct (Hs pk d Hd Hl) as [Hin|?]; [by apply elem_of_nil in Hin|done].
Qed.

(** *** A lifetime that reaches before the calendar *)

Lemma sweep_runbooks xs w : runbooks (sw_library (foldl (sweep_document s now) w xs)) = runbooks (sw_library w).
Proof.
  revert w. induction xs as [|[pk d] xs IH]; intros w; cbn [foldl]; [done|]. rewrite IH. unfold sweep_document. cbn [fst snd].
  destruct (sw_raised w); [done|]. rewrite prune_versions_eq.
  destruct (doomed _ _ _ _) as [dead|]; cbn [mbind option_bind]; [|done].
  destruct (is_expired _ _ _ _) as [[|]|]; [|done|done]. cbn. unfold expire_document. by destruct (rp_on_expire _).
Qed.

(** one live document kept for more days than the calendar has behind it
    (an [OverflowError]) stops the sweep, wherever it stands in it. *)
Theorem long_lifetime_stops_the_sweep l pk d days :
  document_at pk l = Some d -> dc_archived d = false -> rp_ttl_days (effective_policy s d l) = Some days ->
  now < days * DAY -> sw_raised (run_sweep s now l) = true.
Proof.
  intros Hd Hl Et Hlong. assert (Hin : (pk, d) ∈ live_documents l) by (by apply live_documents_elem).
  apply list_elem_of_split in Hin as (xs & ys & Exs). unfold run_sweep. rewrite Exs, foldl_app. cbn [foldl].
  set (w := foldl (sweep_document s now) _ xs).
  assert (R : sw_raised (sweep_document s now w (pk, d)) = true); [|by rewrite sweeps_sticky].
  assert (Erb : runbooks (sw_library w) = runbooks l) by (unfold w; by rewrite sweep_runbooks).
  unfold sweep_document. cbn [fst snd]. destruct (sw_raised w) eqn:Er; [done|]. rewrite prune_versions_eq.
  destruct (doomed _ _ _ _) as [dead|]; cbn [mbind option_bind]; [|done].
  rewrite (expired_agrees d l (delete_versions dead (sw_library w))) by done.
  unfold is_expired. rewrite Et, Hl. unfold days_before.
  replace (0 <=? now - days * DAY) with false by (symmetry; apply Z.leb_gt; lia). by rewrite andb_false_r.
Qed.
End Sweeps.
