(* ===== verification/RunbookDemo.v ===== *)
(** * A small library, and the theorems of the runbook app on it

    Two owners, a runbook each, documents with a few versions; made by calls of
    the service on empty tables. *)
From stdpp Require Import sorting relations.
From S2P Require Import Prelude PyFloat PyStr Regex PyLib Tables Json Runbook RunbookService RunbookSound RunbookSteps RunbookFacts RunbookApi RunbookApiFacts RunbookHistory RunbookViews.
Open Scope Z_scope.

Module RunbookDemo.

#[export] Instance demo_lib : RunbookLib :=
  {| slugify := lower; icontains q s := contains (lower q) (lower s); mount := u "/runbook/" |}.

Definition person (i : Z) : Caller := {| cl_id := Some i; cl_staff := false; cl_superuser := false |}.
Definition alice : Caller := person 7.
Definition bob : Caller := person 8.

(** Noon of a day of 2021. *)
Definition day (n : Z) : Z := (738000 + n) * DAY + 43200 * 1000000.

Definition put_of (body : pystr) (expected : option Z) : Put :=
  {| pt_body := body; pt_title := None; pt_section := None; pt_on_exists := u "new_version"; pt_expected := expected;
     pt_source := u "cron"; pt_via := u "api"; pt_generated := true; pt_doc_type := u "markdown"; pt_locked := None |}.

(** Alice's runbook "ops" has the document "boot", of three versions, and bob's
    "lab" the document "notes". *)
Definition opening : list (Actor * Z * Call) :=
  [ (Some alice, day 0, NewRunbook (u "ops") (Some (u "Operations")) [] false);
    (Some alice, day 0, NewSection (BookSlug (u "ops")) (u "start") None 0);
    (Some bob, day 0, NewRunbook (u "lab") None [] false);
    (Some alice, day 0, PutKeyed (BookSlug (u "ops")) (u "boot") (put_of (u "one") None) (u "u-boot"));
    (Some alice, day 1, PutKeyed (BookSlug (u "ops")) (u "boot") (put_of (u "two") (Some 1)) []);
    (Some alice, day 2, PutKeyed (BookSlug (u "ops")) (u "boot") (put_of (u "three") None) []);
    (Some bob, day 2, PutKeyed (BookSlug (u "lab")) (u "notes") (put_of (u "mine") None) (u "u-notes")) ].
Definition library : Library := after_calls opening no_library.

Lemma library_sound : sound library.
Proof. apply sound_after_calls, sound_empty. Qed.
Lemma library_built : built library.
Proof. apply built_calls, built_empty. Qed.

(** A row there is. *)
Definition held {A} (o : option A) (default : A) : A := match o with Some x => x | None => default end.
Definition blank : Document :=
  new_document [] 0 None None [] [] [] [] false [] false None 0.
Definition boot : Document := held (document_at 1 library) blank.
Definition ops : RunbookRow := held (runbook_row 1 library) (runbook_of_form {| rf_name := []; rf_description := []; rf_icon := []; rf_public := false; rf_template := None |} None).

Lemma boot_there : document_at 1 library = Some boot.
Proof. vm_compute. reflexivity. Qed.
Lemma ops_there : resolve_runbook (BookSlug (u "ops")) library = Ok (1, ops).
Proof. vm_compute. reflexivity. Qed.
Lemma boot_keyed : find_keyed 1 (u "boot") library = Some (1, boot).
Proof. vm_compute. reflexivity. Qed.

Lemma boot_history : history 1 library = [u "one"; u "two"; u "three"].
Proof. vm_compute. reflexivity. Qed.

(** *** The service *)

Lemma protected_stays_untouched_witness :
  exists l', call (Some bob) (day 3) (Write 2 (u "more") (u "append") [] [] (u "api")) library = Ok l' /\ untouched 1 library l'.
Proof.
  destruct (call (Some bob) (day 3) (Write 2 (u "more") (u "append") [] [] (u "api")) library) as [l'|e] eqn:E.
  - exists l'. split; [done|]. eapply (protected_stays_untouched bob); [exact library_sound|exact E|exact boot_there|].
    left. vm_compute. reflexivity.
  - exfalso. assert (T : is_ok (call (Some bob) (day 3) (Write 2 (u "more") (u "append") [] [] (u "api")) library) = true)
      by (vm_compute; reflexivity). rewrite E in T. discriminate.
Defined.

Lemma write_refines_contents_witness :
  exists l', write_version 1 (u "four") (u "append") [] [] (u "api") (Some alice) false (day 3) library = Ok l' /\
             history 2 l' = history 2 library /\ last (history 1 l') <> last (history 1 library).
Proof.
  destruct (write_version 1 (u "four") (u "append") [] [] (u "api") (Some alice) false (day 3) library) as [l'|e] eqn:E.
  - exists l'. destruct (write_refines_contents _ _ _ _ _ _ _ _ _ _ _ library_sound E) as (m & Em & Eh & Eo).
    split_and!; [done|by apply Eo|]. injection Em as <-. rewrite Eh, boot_history. vm_compute. discriminate.
  - exfalso. assert (T : is_ok (write_version 1 (u "four") (u "append") [] [] (u "api") (Some alice) false (day 3) library) = true)
      by (vm_compute; reflexivity). rewrite E in T. discriminate.
Defined.

Lemma restore_brings_back_witness :
  exists l', restore_version (Instance 1) 1 (u "api") (Some alice) false (day 3) library = Ok (1, l') /\
             exists body, history 1 l' = [u "one"; u "two"; u "three"; body].
Proof.
  destruct (restore_version (Instance 1) 1 (u "api") (Some alice) false (day 3) library) as [[pk l']|e] eqn:E.
  - assert (T : (x ← restore_version (Instance 1) 1 (u "api") (Some alice) false (day 3) library; Ok x.1) = Ok 1) by (vm_compute; reflexivity).
    rewrite E in T. injection T as ->. exists l'. split; [done|].
    destruct (restore_brings_back _ _ _ _ _ _ _ _ _ library_sound E) as (v & vn & _ & _ & _ & Eh).
    exists (vn_body vn). rewrite Eh, boot_history. reflexivity.
  - exfalso. assert (T : is_ok (restore_version (Instance 1) 1 (u "api") (Some alice) false (day 3) library) = true)
      by (vm_compute; reflexivity). rewrite E in T. discriminate.
Defined.

Lemma no_lost_update_witness :
  exists res l', put_document (BookSlug (u "ops")) (u "boot") (put_of (u "four") (Some 3)) [] (Some alice) false (day 3) library = Ok (res, l') /\
    is_ok (put_document (BookSlug (u "ops")) (u "boot") (put_of (u "other") (Some 3)) [] (Some alice) false (day 3) l') = false.
Proof.
  destruct (put_document (BookSlug (u "ops")) (u "boot") (put_of (u "four") (Some 3)) [] (Some alice) false (day 3) library)
    as [[res l']|e] eqn:E.
  - exists res, l'. split; [done|].
    destruct (no_lost_update _ _ (put_of (u "four") (Some 3)) _ _ _ _ _ _ _ 3 1 boot (1, ops) library_sound ops_there boot_keyed ltac:(by vm_compute)
                eq_refl eq_refl E) as (_ & _ & Hf).
    apply Hf; [|reflexivity].
    assert (T : (x ← put_document (BookSlug (u "ops")) (u "boot") (put_of (u "four") (Some 3)) [] (Some alice) false (day 3) library;
                 resolve_runbook (BookSlug (u "ops")) x.2) = Ok (1, ops)) by (vm_compute; reflexivity).
    by rewrite E in T.
  - exfalso. assert (T : is_ok (put_document (BookSlug (u "ops")) (u "boot") (put_of (u "four") (Some 3)) [] (Some alice) false (day 3) library) = true)
      by (vm_compute; reflexivity). rewrite E in T. discriminate.
Defined.

(** *** Retention: two versions of a generated document, for thirty days *)

Definition keep_two : Settings :=
  {| GENERATED_MAX_VERSIONS := Some 2; GENERATED_MAX_VERSION_AGE_DAYS := None; GENERATED_TTL_DAYS := Some 30 |}.

Lemma prune_keeps_the_newest_witness :
  exists n l', prune_versions keep_two 1 boot (day 3) library = Some (n, l') /\ history 1 l' = [u "two"; u "three"].
Proof.
  destruct (prune_versions keep_two 1 boot (day 3) library) as [[n l']|] eqn:E.
  - exists n, l'. split; [done|].
    destruct (prune_keeps_the_newest keep_two 1 boot (day 3) library n l' 2 library_sound boot_there E) as [Eh _];
      [by vm_compute|lia|by vm_compute|]. rewrite Eh, boot_history. reflexivity.
  - exfalso. assert (T : bool_decide (is_Some (prune_versions keep_two 1 boot (day 3) library)) = true) by (vm_compute; reflexivity).
    rewrite E in T. discriminate.
Defined.

Lemma sweep_idempotent_witness :
  sw_expired (run_sweep keep_two (day 33) library) = 2 /\
  sw_pruned (run_sweep keep_two (day 33) (sw_library (run_sweep keep_two (day 33) library))) = 0.
Proof.
  split; [vm_compute; reflexivity|].
  destruct (sweep_idempotent keep_two (day 33) library library_sound) as [_ ->]; [|by vm_compute|done].
  assert (A : map_Forall (fun _ d => rp_max_versions (effective_policy keep_two d library) = Some 2) (rows (documents library)))
    by by_compute.
  intros pk d Hd k Ek. specialize (A pk d Hd). cbn beta in A. rewrite A in Ek. injection Ek as <-. lia.
Defined.

Lemma long_lifetime_stops_the_sweep_witness :
  sw_raised (run_sweep {| GENERATED_MAX_VERSIONS := None; GENERATED_MAX_VERSION_AGE_DAYS := None; GENERATED_TTL_DAYS := Some 800000 |}
               (day 3) library) = true.
Proof.
  apply (long_lifetime_stops_the_sweep _ (day 3) library 1 boot 800000);
    [exact boot_there|vm_compute; reflexivity|vm_compute; reflexivity|unfold day, DAY; lia].
Defined.

(** *** The endpoints *)

Lemma hidden_is_absent_witness :
  serve None bob (u "staff") (DeleteDocument (u "ops") (u "boot") None) [] (day 3) library = (NOT_FOUND, library).
Proof.
  rewrite (hidden_is_absent None bob (u "staff") _ (u "ops") [] (day 3) library); [reflexivity|reflexivity|].
  assert (A : map_Forall (fun _ rb => rb_slug rb = u "ops" -> can_view bob (Some rb) = false) (rows (runbooks library))) by by_compute.
  intros pk rb Hr Es. by apply (A pk rb Hr).
Defined.

Definition listing : Endpoint := ListDocuments None None None None.
Definition bobs : list DocumentSummary :=
  match api_list_documents None bob None None None None library with Reply _ (BDocuments docs) => docs | _ => [] end.
Lemma bobs_listed : serve None bob (u "staff") listing [] (day 3) library = (Reply 200 (BDocuments bobs), library).
Proof. reflexivity. Qed.

Lemma listed_is_readable_witness :
  exists d, serve None bob (u "staff") (ByUid (u "u-notes")) [] (day 3) library = (Reply 200 (BDocument d), library) /\ dr_version d = 1.
Proof.
  destruct (listed_is_readable None bob (u "staff") [] (day 3) library bobs library_built bobs_listed) as [H _].
  assert (T : (fun x => (ds_uid x, ds_version x)) <$> bobs = [(u "u-notes", 1)]) by (vm_compute; reflexivity).
  destruct bobs as [|x [|]]; try discriminate. injection T as Eu Ev.
  destruct (H x) as (d & Hd & _ & _ & Ed); [by left|]. exists d. rewrite <- Eu. split; [exact Hd|congruence].
Defined.

(** *** The pages *)

Definition upload : Visit := NewVersionOf 1 (Some (u "four", [])).

Lemma visits_keep_the_contract_witness :
  (visit alice (day 3) upload library).1 = ToDocument 1 /\ sound (visit alice (day 3) upload library).2.
Proof. split; [vm_compute; reflexivity|]. exact (visits_keep_the_contract alice (day 3) upload library library_sound I). Defined.

Lemma visits_leave_others_alone_witness :
  (visit bob (day 3) (RunbookDelete (u "lab") (u "cascade")) library).1 = ToDashboard /\
  untouched 1 library (visit bob (day 3) (RunbookDelete (u "lab") (u "cascade")) library).2.
Proof.
  assert (P : (visit bob (day 3) (RunbookDelete (u "lab") (u "cascade")) library).1 = ToDashboard) by (vm_compute; reflexivity).
  split; [exact P|]. apply (visits_leave_others_alone bob (day 3) _ library 1 boot);
    [exact library_sound|exact I|rewrite P; discriminate|exact boot_there|by vm_compute|reflexivity].
Defined.

(** ** What the app does not mean to do *)

(** A body that cannot be encoded empties the file of the head. *)
Definition surrogate : pystr := [55296].
Lemma surrogate_empties_the_head :
  exists e, write_version 1 surrogate (u "overwrite") [] [] (u "api") (Some alice) false (day 3) library = Err e /\
            history 1 (after_error e library) = [u "one"; u "two"; []].
Proof. eexists. split; [vm_compute; reflexivity|vm_compute; reflexivity]. Qed.

(** Bob deletes his runbook and keeps its page; staff file the page in a section
    of alice's. She may read it then, and no listing of hers has it. *)
Definition staff : Caller := {| cl_id := Some 1; cl_staff := true; cl_superuser := false |}.
Definition detached : Library := (visit bob (day 3) (RunbookDelete (u "lab") (u "keep")) library).2.
Definition filing : Visit :=
  DocumentUpdate 2 (Some {| df_title := u "notes"; df_section := Some 1; df_description := []; df_file := None; df_template := None |}).
Definition filed : Library := (visit staff (day 4) filing detached).2.
Lemma filed_page_is_not_listed :
  (visit staff (day 4) filing detached).1 = ToDocument 2 /\
  exists d, document_at 2 filed = Some d /\ can_view_doc alice d filed = true /\ viewable_document alice filed d = false.
Proof. split; [vm_compute; reflexivity|]. eexists. split_and!; vm_compute; reflexivity. Qed.

(** A version appended is not followed by a pruning. *)
Lemma appended_version_unpruned : prune_on_write 1 AppendVersion = [] /\ prune_on_write 1 NewVersion = [PruneVersions 1].
Proof. split; reflexivity. Qed.
End RunbookDemo.
