(* ===== verification/Tokens.v ===== *)
(** * Bearer tokens and accounts

    The APIToken model and the authentication endpoints of apps/smallstack
    (models.py, api.py) with the pagination they share, the sign-in backends of
    apps/accounts and the token manager (apps/tokenmgr). The tables of the OAuth
    exchange are declared here too; OAuth has its operations. Times are
    microseconds, [now] is the clock, and random keys are drawn by the caller.
    Header values and form fields can always be encoded, and fit their columns. *)
From stdpp Require Import sorting.
From S2P Require Import Prelude PyFloat PyStr PyLib Json Tables.
Open Scope Z_scope.

(** ** smallstack/models.py *)

Inductive TokenType := LoginToken | ManualToken | OAuthToken.
#[export] Instance token_type_dec : EqDecision TokenType.
Proof. solve_decision. Defined.

Record APIToken := {
  tk_name : pystr;
  tk_prefix : pystr;
  tk_hashed : pystr;
  tk_description : pystr;
  tk_type : TokenType;
  tk_access : pystr;
  tk_created : Z;
  tk_last_used : option Z;
  tk_expires : option Z;
  tk_revoked : option Z;
  tk_active : bool;
  tk_requests : Z;
  tk_user : Z;
}.
#[global] Instance eta_token : Eta APIToken := fun t =>
  Build_APIToken (tk_name t) (tk_prefix t) (tk_hashed t) (tk_description t) (tk_type t) (tk_access t) (tk_created t)
    (tk_last_used t) (tk_expires t) (tk_revoked t) (tk_active t) (tk_requests t) (tk_user t).

(** The account: Django's user. *)
Record User := {
  us_username : pystr;
  us_email : option pystr;
  us_first_name : pystr;
  us_last_name : pystr;
  us_staff : bool;
  us_superuser : bool;
  us_active : bool;
  us_password : pystr;
}.
#[global] Instance eta_user : Eta User := fun x =>
  Build_User (us_username x) (us_email x) (us_first_name x) (us_last_name x) (us_staff x) (us_superuser x) (us_active x)
    (us_password x).

(** mcp/models.py *)
Record OAuthAuthorizationCode := {
  oc_code : pystr;
  oc_user : Z;
  oc_token : Z;
  oc_raw_key : pystr;
  oc_redirect : pystr;
  oc_challenge : pystr;
  oc_scope : pystr;
  oc_client : pystr;
  oc_created : Z;
  oc_used : option Z;
}.
#[global] Instance eta_code : Eta OAuthAuthorizationCode := fun c =>
  Build_OAuthAuthorizationCode (oc_code c) (oc_user c) (oc_token c) (oc_raw_key c) (oc_redirect c) (oc_challenge c)
    (oc_scope c) (oc_client c) (oc_created c) (oc_used c).

(** The tables, and the key each session has yet to reveal. *)
Record Vault := {
  tokens : Table APIToken;
  users : Table User;
  codes : Table OAuthAuthorizationCode;
  reveals : gmap Z pystr;
}.
#[global] Instance eta_vault : Eta Vault := fun v => Build_Vault (tokens v) (users v) (codes v) (reveals v).
Definition no_vault : Vault := {| tokens := empty_table; users := empty_table; codes := empty_table; reveals := ∅ |}.

Definition token_at (pk : Z) (v : Vault) : option APIToken := rows (tokens v) !! pk.
Definition user_at (pk : Z) (v : Vault) : option User := rows (users v) !! pk.
Definition update_token (pk : Z) (f : APIToken -> APIToken) (v : Vault) : Vault :=
  v <| tokens := update_row pk f (tokens v) |>.
Definition update_user (pk : Z) (f : User -> User) (v : Vault) : Vault := v <| users := update_row pk f (users v) |>.

(** *** [APIToken] *)

Definition PREFIX_LENGTH : nat := 8.
Definition revoke_token (now : Z) (t : APIToken) : APIToken := t <| tk_active := false |> <| tk_revoked := Some now |>.
Definition past_expiry (t : APIToken) (now : Z) : bool := match tk_expires t with Some e => e <? now | None => false end.
Definition is_valid (t : APIToken) (now : Z) : bool := if negb (tk_active t) then false else negb (past_expiry t now).

Inductive Rejection := REJECT_REVOKED | REJECT_EXPIRED | REJECT_USER_INACTIVE.

Definition account_active (pk : Z) (v : Vault) : bool := match user_at pk v with Some x => us_active x | None => false end.
Definition is_staff (pk : Z) (v : Vault) : bool := match user_at pk v with Some x => us_staff x | None => false end.
Definition is_superuser (pk : Z) (v : Vault) : bool := match user_at pk v with Some x => us_superuser x | None => false end.

Definition rejection_reason (t : APIToken) (now : Z) (v : Vault) : option Rejection :=
  if bool_decide (is_Some (tk_revoked t)) || negb (tk_active t) then Some REJECT_REVOKED
  else if past_expiry t now then Some REJECT_EXPIRED
  else if negb (account_active (tk_user t) v) then Some REJECT_USER_INACTIVE
  else None.

(** [hashlib.sha256(raw_key.encode()).hexdigest()] *)
Definition hash_key (raw : pystr) : pystr := hexdigest (sha256 (default [] (utf8_encode raw))).

(** [_generate_raw_key] on the keys [token_urlsafe] draws; [None] when they run
    out. *)
Fixpoint generate_raw_key (draws : list pystr) : option (pystr * pystr * pystr) :=
  match draws with
  | [] => None
  | raw :: draws =>
      let prefix := take PREFIX_LENGTH raw in
      if startswith prefix (u "-") then generate_raw_key draws else Some (raw, prefix, hash_key raw)
  end.

Definition new_token (user : Z) (name prefix hashed description : pystr) (expires : option Z) (type : TokenType) (access : pystr)
    (now : Z) : APIToken :=
  {| tk_name := name; tk_prefix := prefix; tk_hashed := hashed; tk_description := description; tk_type := type;
     tk_access := access; tk_created := now; tk_last_used := None; tk_expires := expires; tk_revoked := None;
     tk_active := true; tk_requests := 0; tk_user := user |}.

(** [create_token]: the new row's key and the raw key. *)
Definition create_token (user : Z) (name description : pystr) (expires : option Z) (type : TokenType) (access : pystr)
    (draws : list pystr) (now : Z) (v : Vault) : option (Z * pystr * Vault) :=
  '(raw, prefix, hashed) ← generate_raw_key draws;
  let '(pk, ts) := insert_row (new_token user name prefix hashed description expires type access now) (tokens v) in
  Some (pk, raw, v <| tokens := ts |>).

(** [authenticate]. Two rows of one key would be [MultipleObjectsReturned]. *)
Inductive Credential := NotFound | Rejected (pk : Z) (t : APIToken) (why : Rejection) | Accepted (user pk : Z) (t : APIToken) | Ambiguous.

Definition matching (raw : pystr) (v : Vault) : list (Z * APIToken) :=
  where_ (fun _ t => str_eqb (tk_prefix t) (take PREFIX_LENGTH raw) && str_eqb (tk_hashed t) (hash_key raw)) (tokens v).

Definition touch (now : Z) (t : APIToken) : APIToken := t <| tk_last_used := Some now |> <| tk_requests := tk_requests t + 1 |>.

Definition authenticate (raw : pystr) (now : Z) (v : Vault) : Credential * Vault :=
  if (length raw <? PREFIX_LENGTH)%nat then (NotFound, v)
  else match matching raw v with
       | [] => (NotFound, v)
       | [(pk, t)] =>
           match rejection_reason t now v with
           | Some why => (Rejected pk t why, v)
           | None => (Accepted (tk_user t) pk t, update_token pk (touch now) v)
           end
       | _ => (Ambiguous, v)
       end.

(** ** Requests and what Django contributes *)

(** A request: its method, Authorization header, the user its session signed
    in and its body. *)
Inductive Content := NoBody | FormBody | JsonBody (j : json) | BadBody.
Record Request := { rq_method : pystr; rq_auth : pystr; rq_session : option Z; rq_content : Content }.

Record AuthSettings := {
  LOGIN_TOKEN_EXPIRY_HOURS : Z;
  LOGIN_TOKEN_MAX_HOURS : Z;
  API_REGISTER_ENABLED : bool;
  MCP_OAUTH_CODE_TTL_SECONDS : Z;
  MCP_TOKEN_NAME_PREFIX : pystr;
}.

(** The parts of a URL the code looks at; [None] is [ValueError]. *)
Record Parsed := { pr_scheme : pystr; pr_netloc : pystr; pr_hostname : option pystr }.

(** Password storage and validators, normalised addresses, the text matches of
    the database, the text of a value that is not one, and urllib. *)
Class AuthLib := {
  make_password : pystr -> pystr;
  check_password : json -> pystr -> bool;
  password_errors : pystr -> option User -> list pystr;
  normalize_email : pystr -> pystr;
  same_text : pystr -> pystr -> bool;
  text_contains : pystr -> pystr -> bool;
  text_of : json -> pystr;
  urlparse : pystr -> option Parsed;
  urlencode : list (pystr * pystr) -> pystr;
}.

(** [_user_json], but for the date of joining. *)
Record UserJson := {
  uj_id : Z;
  uj_username : pystr;
  uj_email : option pystr;
  uj_staff : bool;
  uj_extended : option (pystr * pystr * bool);
}.

(** What a page of a list says of itself: the pages before and after it are
    told by their numbers. *)
Record Page := { pg_count : Z; pg_number : Z; pg_total : Z; pg_next : option Z; pg_previous : option Z }.

(** An answer; [Updated] shows the fields given as they were given, [Raised] is an exception that was let through, and [Drawing] a
    key that was not drawn yet. *)
Inductive Answer :=
  | Problem (message : pystr) (status : Z)
  | ExpiredToken (at_ : option Z)
  | FieldErrors (errors : list (pystr * list pystr))
  | Lockout
  | IssuedKey (status : Z) (key : pystr) (user : UserJson) (expires : Z)
  | TheUser (user : UserJson)
  | Updated (user : UserJson) (given : jobj)
  | UserPage (page : Page) (users : list UserJson)
  | Message (text : pystr)
  | Methods (methods : list pystr)
  | Raised
  | Drawing.

Section Tokens.
Context `{AuthLib} (settings : AuthSettings).

Definition HOUR : Z := 3600 * 1000000.

(** *** [_authenticate_api_request] *)

Definition BEARER : pystr := u "Bearer ".

(** The user a session signed in; Django signs no inactive one in. *)
Definition session_user (r : Request) (v : Vault) : option Z :=
  pk ← rq_session r; if account_active pk v then Some pk else None.

Definition rejected (t : APIToken) (why : Rejection) : Answer :=
  match why with
  | REJECT_REVOKED => Problem (u "Token revoked") 401
  | REJECT_EXPIRED => ExpiredToken (tk_expires t)
  | REJECT_USER_INACTIVE => Problem (u "Account is deactivated") 401
  end.

(** The caller, and the token a caller came with. *)
Definition Caller : Type := Z * option (Z * APIToken).

Definition authenticate_api_request (r : Request) (now : Z) (v : Vault) : (Answer + Caller) * Vault :=
  if startswith (rq_auth r) BEARER then
    match authenticate (drop 7 (rq_auth r)) now v with
    | (Accepted user pk t, v') => (inr (user, Some (pk, t)), v')
    | (Rejected _ t why, v') => (inl (rejected t why), v')
    | (NotFound, v') => (inl (Problem (u "Invalid token") 401), v')
    | (Ambiguous, v') => (inl Raised, v')
    end
  else match session_user r v with
       | Some pk => (inr (pk, None), v)
       | None => (inl (Problem (u "Authentication required") 401), v)
       end.

(** [_require_auth_token] *)
Definition require_auth_token (c : Caller) : option Answer :=
  match c.2 with
  | Some (_, t) => if bool_decide (tk_type t = ManualToken) && str_eqb (tk_access t) (u "auth") then None
                   else Some (Problem (u "Auth-level token required") 403)
  | None => Some (Problem (u "Auth-level token required") 403)
  end.

(** [_load_json_body] *)
Definition load_json_body (r : Request) : Answer + jobj :=
  match rq_content r with JsonBody (JObj d) => inr d | _ => inl (Problem (u "Invalid JSON") 400) end.

(** *** [api_view]: who reaches the view, with what body *)

Definition reads (method : pystr) : bool := bool_decide (method ∈ [u "GET"; u "HEAD"; u "OPTIONS"]).
Definition readonly (c : Caller) : bool := match c.2 with Some (_, t) => str_eqb (tk_access t) (u "readonly") | None => false end.

Record ViewOptions := { vo_methods : list pystr; vo_auth : bool; vo_staff : bool; vo_auth_token : bool }.

(** The body handed to the view. *)
Definition parsed_body (r : Request) : Answer + option json :=
  if bool_decide (rq_method r ∈ [u "GET"; u "HEAD"]) then inr None
  else match rq_content r with
       | NoBody | FormBody => inr None
       | JsonBody j => inr (Some j)
       | BadBody => inl (Problem (u "Invalid JSON") 400)
       end.

Definition admitted (o : ViewOptions) (r : Request) (c : Caller) (v : Vault) : option Answer :=
  match (if vo_auth_token o then require_auth_token c else None) with
  | Some a => Some a
  | None =>
      if vo_staff o && negb (is_staff c.1 v) then Some (Problem (u "Staff access required") 403)
      else if readonly c && negb (reads (rq_method r)) then Some (Problem (u "Token is read-only") 403)
      else None
  end.

Definition api_view (o : ViewOptions) (r : Request) (now : Z) (v : Vault) : (Answer + option Caller * option json) * Vault :=
  if str_eqb (rq_method r) (u "OPTIONS") then (inl (Methods (vo_methods o)), v)
  else if negb (bool_decide (rq_method r ∈ vo_methods o)) then (inl (Problem (u "Method not allowed") 405), v)
  else if vo_auth o then
    match authenticate_api_request r now v with
    | (inl a, v') => (inl a, v')
    | (inr c, v') =>
        match admitted o r c v' with
        | Some a => (inl a, v')
        | None => (match parsed_body r with inl a => inl a | inr j => inr (Some c, j) end, v')
        end
    end
  else (match parsed_body r with inl a => inl a | inr j => inr (None, j) end, v).

(** [_check_api_permissions]; [staff] tells whether the view is for staff. *)
Definition check_api_permissions (staff : bool) (c : Caller) (method : pystr) (v : Vault) : option Answer :=
  if staff && negb (is_staff c.1 v) then Some (Problem (u "Staff access required") 403)
  else if readonly c && negb (reads method) then Some (Problem (u "Token is read-only") 403)
  else None.

(** *** Login *)

(** [_resolve_token_expiry], in hours. *)
Definition resolve_token_expiry (requested : json) : result ConvErr Z :=
  hours ← match requested with
          | JNull => Ok (LOGIN_TOKEN_EXPIRY_HOURS settings)
          | j => match jint j with
                 | Err TypeOrValueError => Ok (LOGIN_TOKEN_EXPIRY_HOURS settings)
                 | x => x
                 end
          end;
  Ok (Z.min (Z.max 1 hours) (LOGIN_TOKEN_MAX_HOURS settings)).

Definition user_json (extended : bool) (pk : Z) (v : Vault) : option UserJson :=
  x ← user_at pk v;
  Some {| uj_id := pk; uj_username := us_username x; uj_email := us_email x; uj_staff := us_staff x;
          uj_extended := if extended then Some (us_first_name x, us_last_name x, us_active x) else None |}.

(** accounts/backends.py: [EmailOrUsernameBackend], then Django's own, which
    takes the username to the letter. Where there is no account both hash the
    password, and only a text can be hashed: [None] is [TypeError]. *)
Definition nobody (password : json) : option (option Z) := match password with JStr _ => Some None | _ => None end.
Definition checked_user (password : json) (pk : Z) (x : User) : option Z :=
  if check_password password (us_password x) && us_active x then Some pk else None.
Definition email_or_username (username : pystr) (password : json) (v : Vault) : option (option Z) :=
  let ident := strip username in
  match where_ (fun _ x => if contains (u "@") ident then match us_email x with Some e => same_text e ident | None => false end
                           else same_text (us_username x) ident) (users v) with
  | [] => nobody password
  | [(pk, x)] => Some (checked_user password pk x)
  | _ => Some None
  end.
Definition model_backend (username : pystr) (password : json) (v : Vault) : option (option Z) :=
  match first_where (fun _ x => str_eqb (us_username x) username) (users v) with
  | Some (pk, x) => Some (checked_user password pk x)
  | None => nobody password
  end.
Definition credentials (username : pystr) (password : json) (v : Vault) : option (option Z) :=
  match email_or_username username password v with Some None => model_backend username password v | x => x end.

Definition newest_token (x y : Z * APIToken) : Prop := tk_created y.2 <= tk_created x.2.
#[export] Instance newest_token_dec x y : Decision (newest_token x y) := decide (_ <= _).

Definition rekey (prefix hashed : pystr) (expires now : Z) (t : APIToken) : APIToken :=
  t <| tk_prefix := prefix |> <| tk_hashed := hashed |> <| tk_expires := Some expires |> <| tk_last_used := Some now |>.

(** The key of the user's login token, or a new login token. *)
Definition upsert_login (user : Z) (expires now : Z) (draws : list pystr) (v : Vault) : option (pystr * Vault) :=
  '(raw, prefix, hashed) ← generate_raw_key draws;
  match head (merge_sort newest_token
                (where_ (fun _ t => (tk_user t =? user) && bool_decide (tk_type t = LoginToken) && tk_active t) (tokens v))) with
  | Some (pk, _) => Some (raw, update_token pk (rekey prefix hashed expires now) v)
  | None =>
      Some (raw, v <| tokens := (insert_row (new_token user (u "Login token") prefix hashed [] (Some expires) LoginToken [] now)
                                   (tokens v)).2 |>)
  end.

Definition issued (status : Z) (user : Z) (expires : Z) (kv : option (pystr * Vault)) (v : Vault) : Answer * Vault :=
  match kv with
  | None => (Drawing, v)
  | Some (raw, v') => match user_json false user v' with
                      | Some x => (IssuedKey status raw x expires, v')
                      | None => (Raised, v')
                      end
  end.

Definition not_allowed : Answer := Problem (u "Method not allowed") 405.

(** A field [data.get(name, "")] of which the text is stripped: any other value
    has no [strip]. *)
Definition stripped_field (name : pystr) (d : jobj) : option pystr :=
  match default (JStr []) (jget name d) with JStr s => Some (strip s) | _ => None end.

(** [api_auth_token]; [allowed] and [locked] are the verdicts of django-axes
    before and after the attempt. *)
Definition api_auth_token (r : Request) (allowed locked : bool) (draws : list pystr) (now : Z) (v : Vault) : Answer * Vault :=
  if negb (str_eqb (rq_method r) (u "POST")) then (not_allowed, v)
  else match load_json_body r with
  | inl a => (a, v)
  | inr data =>
      match stripped_field (u "username") data with
      | None => (Raised, v)
      | Some username =>
          let password := default (JStr []) (jget (u "password") data) in
          if negb (nonempty username) || negb (jtruthy password) then (Problem (u "username and password are required") 400, v)
          else if negb allowed then (Lockout, v)
          else if locked then (Lockout, v)
          else match credentials username password v with
               | None => (Raised, v)
               | Some None => (Problem (u "Invalid credentials") 401, v)
               | Some (Some user) =>
                   match resolve_token_expiry (jget_null (u "expires_hours") data) with
                   | Err _ => (Raised, v)
                   | Ok hours => issued 200 user (now + hours * HOUR) (upsert_login user (now + hours * HOUR) now draws v) v
                   end
               end
      end
  end.

(** *** The account endpoints *)

(** What the endpoints that are not an [api_view] share. *)
Definition endpoint (method : pystr) (auth_level : bool) (r : Request) (now : Z) (v : Vault)
    (k : Caller -> Vault -> Answer * Vault) : Answer * Vault :=
  if negb (str_eqb (rq_method r) method) then (not_allowed, v)
  else match authenticate_api_request r now v with
       | (inl a, v') => (a, v')
       | (inr c, v') => match (if auth_level then require_auth_token c else None) with
                        | Some a => (a, v')
                        | None => k c v'
                        end
       end.
Definition with_body (r : Request) (v : Vault) (k : jobj -> Answer * Vault) : Answer * Vault :=
  match load_json_body r with inl a => (a, v) | inr d => k d end.
Definition field (name : pystr) (d : jobj) : json := default (JStr []) (jget name d).

(** The unique columns of an account. *)
Definition username_taken (name : pystr) (v : Vault) : bool :=
  negb (bool_decide (where_ (fun _ x => str_eqb (us_username x) name) (users v) = [])).
Definition email_taken (pk : Z) (email : option pystr) (v : Vault) : bool :=
  match email with
  | Some e => negb (bool_decide (where_ (fun pk' x => negb (pk' =? pk) && bool_decide (us_email x = Some e)) (users v) = []))
  | None => false
  end.

(** [api_auth_register]; the validators of a password, and its hasher, take a
    text. *)
Definition new_user (username : pystr) (address : option pystr) (password : pystr) : User :=
  {| us_username := username; us_email := address; us_first_name := []; us_last_name := []; us_staff := false;
     us_superuser := false; us_active := true; us_password := password |}.
Definition api_auth_register (r : Request) (draws : list pystr) (now : Z) (v : Vault) : Answer * Vault :=
  endpoint (u "POST") true r now v (fun _ v =>
    if negb (API_REGISTER_ENABLED settings) then (Problem (u "Registration is disabled") 403, v)
    else with_body r v (fun data =>
      match stripped_field (u "username") data, stripped_field (u "email") data with
      | Some username, Some email =>
          let password := field (u "password") data in
          if negb (nonempty username) || negb (jtruthy password) then (Problem (u "username and password are required") 400, v)
          else if username_taken username v
          then (FieldErrors [(u "username", [u "A user with that username already exists."])], v)
          else match password with
               | JStr password =>
                   match password_errors password None with
                   | (_ :: _) as errors => (FieldErrors [(u "password", errors)], v)
                   | [] =>
                       let address := if nonempty email then Some (normalize_email email) else None in
                       if email_taken (-1) address v then (Raised, v)
                       else
                         let '(pk, us) := insert_row (new_user username address (make_password password)) (users v) in
                         let v1 := v <| users := us |> in
                         match resolve_token_expiry JNull with
                         | Err _ => (Raised, v1)
                         | Ok hours =>
                             let expires := now + hours * HOUR in
                             issued 201 pk expires
                               ((fun x => (x.1.2, x.2)) <$> create_token pk (u "Login token") [] (Some expires) LoginToken [] draws now v1) v1
                         end
                   end
               | _ => (Raised, v)
               end
      | _, _ => (Raised, v)
      end)).

(** [api_auth_me] *)
Definition profile (extended : bool) (pk : Z) (v : Vault) : Answer :=
  match user_json extended pk v with Some x => TheUser x | None => Raised end.
Definition api_auth_me (r : Request) (now : Z) (v : Vault) : Answer * Vault :=
  endpoint (u "GET") false r now v (fun c v => (profile false c.1 v, v)).

(** [api_auth_password] and [api_auth_user_password] *)
Definition set_password (pk : Z) (new : json) (x : User) (v : Vault) : Answer * Vault :=
  match new with
  | JStr new =>
      match password_errors new (Some x) with
      | (_ :: _) as errors => (FieldErrors [(u "new_password", errors)], v)
      | [] => (Message (u "Password updated"), update_user pk (fun x => x <| us_password := make_password new |>) v)
      end
  | _ => (Raised, v)
  end.
Definition api_auth_password (r : Request) (now : Z) (v : Vault) : Answer * Vault :=
  endpoint (u "POST") false r now v (fun c v => with_body r v (fun data =>
    let current := field (u "current_password") data in
    let new := field (u "new_password") data in
    if negb (jtruthy current) || negb (jtruthy new) then (Problem (u "current_password and new_password are required") 400, v)
    else match user_at c.1 v with
         | None => (Raised, v)
         | Some x => if negb (check_password current (us_password x)) then (Problem (u "Current password is incorrect") 400, v)
                     else set_password c.1 new x v
         end)).

Definition user_not_found : Answer := Problem (u "User not found") 404.
Definition api_auth_user_password (r : Request) (target now : Z) (v : Vault) : Answer * Vault :=
  endpoint (u "POST") true r now v (fun _ v => with_body r v (fun data =>
    let new := field (u "new_password") data in
    if negb (jtruthy new) then (Problem (u "new_password is required") 400, v)
    else match user_at target v with
         | None => (user_not_found, v)
         | Some x => set_password target new x v
         end)).

(** [api_auth_user_deactivate] *)
Definition revoke_all (user now : Z) (v : Vault) : Vault :=
  v <| tokens := map_rows (fun t => if (tk_user t =? user) && tk_active t then revoke_token now t else t) (tokens v) |>.
Definition api_auth_user_deactivate (r : Request) (target now : Z) (v : Vault) : Answer * Vault :=
  endpoint (u "POST") true r now v (fun _ v =>
    match user_at target v with
    | None => (user_not_found, v)
    | Some _ => (Message (u "User deactivated"),
                 revoke_all target now (update_user target (fun x => x <| us_active := false |>) v))
    end).

(** [api_auth_user_detail]: a text column takes any value as text, [None] is
    refused by the database where the column is not nullable; a boolean column
    takes what [BooleanField.to_python] takes. *)
Definition text_field (j : json) : option pystr := match j with JNull => None | JStr s => Some s | j => Some (text_of j) end.
Definition boolean_field (j : json) : option bool :=
  match j with
  | JBool b => Some b
  | JInt n => if n =? 0 then Some false else if n =? 1 then Some true else None
  | JFloat x => if num_eqb x (num_of_Z 0) then Some false else if num_eqb x (num_of_Z 1) then Some true else None
  | JStr s => if bool_decide (s ∈ [u "t"; u "True"; u "1"]) then Some true
              else if bool_decide (s ∈ [u "f"; u "False"; u "0"]) then Some false else None
  | _ => None
  end.

(** A row being changed; [Refused]: the database refuses it, [Invalid]: the save
    raises before it gets there. *)
Inductive Patch := Patched (x : User) | Refused | Invalid.
Definition text_patch (j : json) (set : pystr -> User) : Patch := match text_field j with Some s => Patched (set s) | None => Refused end.
Definition boolean_patch (j : json) (set : bool -> User) : Patch :=
  match j with JNull => Refused | _ => match boolean_field j with Some b => Patched (set b) | None => Invalid end end.
Definition patch_field (x : User) (kj : pystr * json) : Patch :=
  let '(k, j) := kj in
  if str_eqb k (u "email") then Patched (x <| us_email := text_field j |>)
  else if str_eqb k (u "first_name") then text_patch j (fun s => x <| us_first_name := s |>)
  else if str_eqb k (u "last_name") then text_patch j (fun s => x <| us_last_name := s |>)
  else if str_eqb k (u "is_staff") then boolean_patch j (fun b => x <| us_staff := b |>)
  else boolean_patch j (fun b => x <| us_active := b |>).
Definition patch_step (p : Patch) (kj : pystr * json) : Patch :=
  match p with
  | Patched x => patch_field x kj
  | Refused => match patch_field (new_user [] None []) kj with Invalid => Invalid | _ => Refused end
  | Invalid => Invalid
  end.

Definition ALLOWED_FIELDS : list pystr := [u "email"; u "first_name"; u "last_name"; u "is_staff"; u "is_active"].
Definition email_exists : Answer := FieldErrors [(u "email", [u "A user with that email already exists."])].
Definition api_auth_user_detail (r : Request) (target now : Z) (v : Vault) : Answer * Vault :=
  if negb (bool_decide (rq_method r ∈ [u "GET"; u "PATCH"])) then (not_allowed, v)
  else endpoint (rq_method r) true r now v (fun _ v =>
    match user_at target v with
    | None => (user_not_found, v)
    | Some x =>
        if str_eqb (rq_method r) (u "GET") then (profile true target v, v)
        else with_body r v (fun data =>
          match List.filter (fun k => negb (bool_decide (k ∈ ALLOWED_FIELDS))) data.*1 with
          | (_ :: _) as unknown => (FieldErrors ((fun k => (k, [u "Field '" ++ k ++ u "' is not allowed"])) <$> unknown), v)
          | [] =>
              match foldl patch_step (Patched x) data with
              | Invalid => (Raised, v)
              | Refused => (email_exists, v)
              | Patched x' =>
                  if email_taken target (us_email x') v then (email_exists, v)
                  else let v' := update_user target (fun _ => x') v in
                       (match user_json true target v' with Some y => Updated y data | None => Raised end, v')
              end
          end)
    end).

(** [api_auth_token_refresh] and [api_auth_logout] *)
Definition api_auth_token_refresh (r : Request) (draws : list pystr) (now : Z) (v : Vault) : Answer * Vault :=
  endpoint (u "POST") false r now v (fun c v =>
    match c.2 with
    | Some (pk, t) =>
        if bool_decide (tk_type t = LoginToken) then
          let requested := match load_json_body r with inr data => jget_null (u "expires_hours") data | inl _ => JNull end in
          match resolve_token_expiry requested with
          | Err _ => (Raised, v)
          | Ok hours =>
              issued 200 c.1 (now + hours * HOUR)
                ('(raw, prefix, hashed) ← generate_raw_key draws; Some (raw, update_token pk (rekey prefix hashed (now + hours * HOUR) now) v)) v
          end
        else (Problem (u "Only login tokens can be refreshed") 403, v)
    | None => (Problem (u "Only login tokens can be refreshed") 403, v)
    end).
Definition api_auth_logout (r : Request) (now : Z) (v : Vault) : Answer * Vault :=
  endpoint (u "POST") false r now v (fun c v =>
    (Message (u "Logged out"), match c.2 with Some (pk, _) => update_token pk (revoke_token now) v | None => v end)).

(** *** Pages *)

(** [_resolve_page], as it is called: without a current page. *)
Definition resolve_page (raw : pystr) (total_pages : Z) : Z :=
  let key := lower (strip raw) in
  if str_eqb key (u "first") then 1
  else if str_eqb key (u "last") then total_pages
  else if str_eqb key (u "next") then Z.min 2 total_pages
  else if bool_decide (key ∈ [u "prev"; u "previous"]) then Z.max 0 1
  else match parse_int raw with Some page => Z.max 1 (Z.min page total_pages) | None => 1 end.

Definition MAX_PAGE_SIZE : Z := 1000.
Definition DEFAULT_PAGE_SIZE : Z := 25.

(** [_paginate]; the query string's two parameters. *)
Definition page_size_of (raw : option pystr) (page_size : Z) : Z :=
  match strip (default [] raw) with
  | [] => page_size
  | raw => match parse_int raw with Some n => Z.max 1 (Z.min n MAX_PAGE_SIZE) | None => page_size end
  end.
Definition page_count (total page_size : Z) : Z := Z.max 1 ((total + page_size - 1) / page_size).
Definition paginate {A} (page raw_size : option pystr) (qs : list A) (page_size : Z) : list A * Page :=
  let page_size := page_size_of raw_size page_size in
  let total := zlen qs in
  let total_pages := page_count total page_size in
  let page_num := resolve_page (default (u "1") page) total_pages in
  let start := (page_num - 1) * page_size in
  (take (Z.to_nat page_size) (drop (Z.to_nat start) qs),
   {| pg_count := total; pg_number := page_num; pg_total := total_pages;
      pg_next := if page_num <? total_pages then Some (page_num + 1) else None;
      pg_previous := if 1 <? page_num then Some (page_num - 1) else None |}).

(** [api_auth_users], of a request that asks for no order. *)
Definition by_pk (x y : Z * User) : Prop := x.1 <= y.1.
#[export] Instance by_pk_dec x y : Decision (by_pk x y) := decide (_ <= _).
Definition searched (q : pystr) (x : User) : bool :=
  negb (nonempty q) || text_contains (us_username x) q || match us_email x with Some e => text_contains e q | None => false end.
Definition api_auth_users (r : Request) (q : pystr) (page raw_size : option pystr) (now : Z) (v : Vault) : Answer * Vault :=
  endpoint (u "GET") true r now v (fun _ v =>
    let '(items, meta) := paginate page raw_size (merge_sort by_pk (where_ (fun _ x => searched (strip q) x) (users v))) DEFAULT_PAGE_SIZE in
    (UserPage meta (omap (fun x => user_json true x.1 v) items), v)).

(** *** apps/tokenmgr *)

(** forms.py: what is posted, each field as its widget reads it. *)
Record TokenForm := {
  tf_user : option Z;
  tf_name : pystr;
  tf_description : pystr;
  tf_access : pystr;
  tf_expires : option (option Z);
}.

Definition NON_STAFF_ACCESS_LEVELS : list pystr := [u "readonly"].
Definition STAFF_ACCESS_LEVELS : list pystr := [u "staff"; u "readonly"].
Definition SUPERUSER_ACCESS_LEVELS : list pystr := [u "auth"; u "staff"; u "readonly"].

(** The choices of the two fields, by the role of the one who asks. *)
Definition access_choices (requester : Z) (v : Vault) : list pystr :=
  if negb (is_staff requester v) then NON_STAFF_ACCESS_LEVELS
  else if is_superuser requester v then SUPERUSER_ACCESS_LEVELS
  else STAFF_ACCESS_LEVELS.
Definition user_choice (requester target : Z) (v : Vault) : bool :=
  bool_decide (is_Some (user_at target v)) && (is_staff requester v || (target =? requester)).

(** [clean_access_level], [clean_user] and [clean]; the requester signed in. *)
Definition clean_access_level (requester : Z) (level : pystr) (v : Vault) : bool :=
  if negb (is_staff requester v) && negb (str_eqb level (u "readonly")) then false
  else negb (str_eqb level (u "auth") && negb (is_superuser requester v)).
Definition clean_user (requester target : Z) (v : Vault) : bool := is_staff requester v || (target =? requester).
Definition clean (target : Z) (level : pystr) (v : Vault) : bool :=
  negb (bool_decide (level ∈ [u "staff"; u "auth"]) && negb (is_staff target v)).

Definition no_nul (s : pystr) : bool := forallb (fun c => negb (c =? 0)) s.
(** The cleaned form, or [None]: it has errors. *)
Definition clean_form (requester : Z) (f : TokenForm) (v : Vault) : option (Z * pystr * pystr * pystr * option Z) :=
  target ← tf_user f;
  expires ← tf_expires f;
  let name := strip (tf_name f) in
  let description := strip (tf_description f) in
  if user_choice requester target v && clean_user requester target v
     && nonempty name && (zlen name <=? 100) && no_nul name && no_nul description
     && bool_decide (tf_access f ∈ access_choices requester v) && clean_access_level requester (tf_access f) v
     && clean target (tf_access f) v
  then Some (target, name, description, tf_access f, expires) else None.

(** mixins.py *)
Definition is_owner_or_staff (viewer : Z) (t : APIToken) (v : Vault) : bool := is_staff viewer v || (tk_user t =? viewer).

(** views.py; [sid] is the browser's session, [viewer] who it signed in. *)
Inductive TokenPage := SignIn | FormAgain | ToReveal (pk : Z) | Revealed (pk : Z) (raw : pystr) | NoLongerShown | ToList
  | PermissionDenied | NoSuchToken | NotDrawn.

Definition with_token (viewer : option Z) (pk : Z) (v : Vault) (k : Z -> APIToken -> TokenPage * Vault) : TokenPage * Vault :=
  match viewer with
  | None => (SignIn, v)
  | Some me => match token_at pk v with
               | None => (NoSuchToken, v)
               | Some t => if negb (is_owner_or_staff me t v) then (PermissionDenied, v) else k me t
               end
  end.

Definition token_create (sid : Z) (viewer : option Z) (f : TokenForm) (draws : list pystr) (now : Z) (v : Vault) : TokenPage * Vault :=
  match viewer with
  | None => (SignIn, v)
  | Some me =>
      match clean_form me f v with
      | None => (FormAgain, v)
      | Some (target, name, description, access, expires) =>
          match create_token target name description expires ManualToken access draws now v with
          | None => (NotDrawn, v)
          | Some (pk, raw, v') => (ToReveal pk, v' <| reveals := <[sid := raw]> (reveals v') |>)
          end
      end
  end.

Definition token_reveal (sid : Z) (viewer : option Z) (pk : Z) (v : Vault) : TokenPage * Vault :=
  with_token viewer pk v (fun _ _ =>
    let v' := v <| reveals := delete sid (reveals v) |> in
    match reveals v !! sid with
    | None | Some [] => (NoLongerShown, v')
    | Some raw => (Revealed pk raw, v')
    end).

Definition token_revoke (viewer : option Z) (pk now : Z) (v : Vault) : TokenPage * Vault :=
  with_token viewer pk v (fun _ t =>
    (ToList, if tk_active t then update_token pk (revoke_token now) v else v)).

(** The rows of a token's list page: the viewer's own, or all to staff; those
    in use unless the query string says otherwise. *)
Definition listed_tokens (viewer : option Z) (is_active_asked : bool) (v : Vault) : list (Z * APIToken) :=
  match viewer with
  | None => []
  | Some me => where_ (fun _ t => (is_staff me v || (tk_user t =? me)) && (is_active_asked || tk_active t)) (tokens v)
  end.
End Tokens.
