(* ===== verification/TokensFacts.v ===== *)
(** * What holds of tokens and accounts

    Keys open the account they were issued for, a token that was revoked stays
    so whatever is called, nobody mints above a role, the gate in front of the
    REST views, and pages that are the list. *)
From stdpp Require Import sorting.
From S2P Require Import Prelude PyFloat PyStr PyLib Json Tables Tokens.
Open Scope Z_scope.

(** ** How a token may change *)

(** A live token was never revoked. *)
Definition lawful (t : APIToken) : Prop := tk_active t = true -> tk_revoked t = None.

(** The owner, the kind and the level are for good; a revoked token stays
    revoked, and its key, like that of a token no login made, stays. *)
Definition evolves (t t' : APIToken) : Prop :=
  tk_user t' = tk_user t /\ tk_type t' = tk_type t /\ tk_access t' = tk_access t
  /\ (tk_active t = false -> tk_active t' = false)
  /\ (tk_active t = false \/ tk_type t <> LoginToken -> tk_prefix t' = tk_prefix t /\ tk_hashed t' = tk_hashed t)
  /\ (lawful t -> lawful t').

Lemma evolves_refl t : evolves t t.
Proof. by split_and!. Qed.
Lemma evolves_trans t1 t2 t3 : evolves t1 t2 -> evolves t2 t3 -> evolves t1 t3.
Proof.
  intros (E1 & E2 & E3 & E4 & E5 & E6) (F1 & F2 & F3 & F4 & F5 & F6). split_and!; try congruence; [auto| |auto].
  intros D. destruct (E5 D) as [P1 H1].
  assert (D2 : tk_active t2 = false \/ tk_type t2 <> LoginToken) by (destruct D; [left; auto|right; congruence]).
  destruct (F5 D2) as [P2 H2]. split; congruence.
Qed.
Lemma evolves_touch now t : evolves t (touch now t).
Proof. by split_and!. Qed.
Lemma evolves_revoke now t : evolves t (revoke_token now t).
Proof. by split_and!. Qed.
Lemma evolves_rekey prefix hashed e now t :
  tk_active t = true -> tk_type t = LoginToken -> evolves t (rekey prefix hashed e now t).
Proof. intros A L. split_and!; cbn; try done; intros [?|?]; congruence. Qed.
Create HintDb vault.
#[export] Hint Resolve evolves_refl evolves_touch evolves_revoke : vault.

(** The keys of the rows to come are unused, and every token is lawful. *)
Definition sound (v : Vault) : Prop := fresh (tokens v) /\ forall pk t, token_at pk v = Some t -> lawful t.

(** The tokens there were are there still, each as it may have changed. *)
Record advances (v v' : Vault) : Prop := {
  adv_sound : sound v -> sound v';
  adv_token pk t : sound v -> token_at pk v = Some t -> exists t', token_at pk v' = Some t' /\ evolves t t';
}.
#[global] Instance advances_preorder : PreOrder advances.
Proof.
  split.
  - intros v. split; [done|]. intros pk t _ E. exists t. eauto with vault.
  - intros v1 v2 v3 [F1 T1] [F2 T2]. split; [auto|]. intros pk t F E.
    destruct (T1 pk t F E) as (t2 & E2 & V2). destruct (T2 pk t2 (F1 F) E2) as (t3 & E3 & V3).
    exists t3. eauto using evolves_trans.
Qed.

(** ... and no authorization code changed. *)
Definition quiet (v v' : Vault) : Prop := advances v v' /\ codes v' = codes v.
#[global] Instance quiet_preorder : PreOrder quiet.
Proof. split; [split; reflexivity|]. intros v1 v2 v3 [A1 C1] [A2 C2]. split; [by transitivity v2|congruence]. Qed.
Lemma quiet_refl v : quiet v v.
Proof. reflexivity. Qed.

Lemma advances_same v v' : tokens v' = tokens v -> advances v v'.
Proof. intros E. split; unfold sound, token_at; rewrite E; eauto using evolves_refl. Qed.
Lemma quiet_same v v' : tokens v' = tokens v -> codes v' = codes v -> quiet v v'.
Proof. intros E C. split; [by apply advances_same|done]. Qed.
Lemma quiet_insert t v : lawful t -> quiet v (v <| tokens := (insert_row t (tokens v)).2 |>).
Proof.
  intros L. split; [|done]. split.
  - intros [F A]. split; [by apply fresh_insert|]. intros pk t' [[_ ->]|[_ E]]%insert_row_inv; eauto.
  - intros pk t' [F _] E. exists t'. split; [by apply insert_row_old|apply evolves_refl].
Qed.

(** A change of every row, each as it may change. *)
Lemma advances_rows (f : Z -> APIToken -> APIToken) v v' :
  (forall pk, token_at pk v' = f pk <$> token_at pk v) -> next_pk (tokens v') = next_pk (tokens v) ->
  (forall pk t, token_at pk v = Some t -> evolves t (f pk t)) -> advances v v'.
Proof.
  intros R N Hf. split.
  - intros [F A]. split.
    + intros pk t' E. rewrite N. specialize (R pk). unfold token_at in R. rewrite R in E.
      apply fmap_Some in E as (t & E & _). by apply (F pk t).
    + intros pk t'. rewrite R. intros (t & E & ->)%fmap_Some. by apply (Hf pk t E), (A pk).
  - intros pk t _ E. exists (f pk t). rewrite R, E. split; [done|]. by apply Hf.
Qed.
Lemma token_at_update pk f v k :
  token_at k (update_token pk f v) = if decide (k = pk) then f <$> token_at k v else token_at k v.
Proof. apply (lookup_update pk f (tokens v) k). Qed.
Lemma quiet_update pk f v :
  (forall t, token_at pk v = Some t -> evolves t (f t)) -> quiet v (update_token pk f v).
Proof.
  intros Hf. split; [|done]. apply (advances_rows (fun k t => if decide (k = pk) then f t else t)); [|done|].
  - intros k. rewrite token_at_update. case_decide; [done|]. by destruct (token_at k v).
  - intros k t E. case_decide; [subst; auto|apply evolves_refl].
Qed.
Lemma quiet_revoke_all user now v : quiet v (revoke_all user now v).
Proof.
  split; [|done].
  apply (advances_rows (fun _ t => if (tk_user t =? user) && tk_active t then revoke_token now t else t)); [|done|].
  - intros k. apply lookup_fmap.
  - intros k t _. case_match; auto with vault.
Qed.
Lemma quiet_update_user pk f v : quiet v (update_user pk f v).
Proof. by apply quiet_same. Qed.
#[export] Hint Resolve quiet_refl quiet_insert quiet_update quiet_revoke_all quiet_update_user : vault.

(** ** Authentication *)

Section Facts.
Context `{AuthLib} (settings : AuthSettings).

Lemma authenticate_accepted raw now v user pk t v' :
  authenticate raw now v = (Accepted user pk t, v') ->
  (PREFIX_LENGTH <= length raw)%nat /\ matching raw v = [(pk, t)] /\ rejection_reason t now v = None /\ user = tk_user t
  /\ v' = update_token pk (touch now) v.
Proof. unfold authenticate. intros E. repeat case_match; simplify_eq. split_and!; try done. by apply Nat.ltb_ge. Qed.

Lemma matching_at raw v pk t :
  matching raw v = [(pk, t)] -> token_at pk v = Some t /\ tk_prefix t = take PREFIX_LENGTH raw /\ tk_hashed t = hash_key raw.
Proof.
  intros E. assert (I : (pk, t) ∈ matching raw v) by (rewrite E; by apply list_elem_of_singleton).
  apply where_elem in I as [I [H1 H2]%andb_true_iff]. unfold str_eqb in *. by rewrite bool_decide_eq_true in H1, H2.
Qed.

Lemma authenticate_quiet raw now v : quiet v (authenticate raw now v).2.
Proof. unfold authenticate. repeat case_match; cbn [snd]; auto with vault. Qed.

Lemma rejection_none t now v :
  rejection_reason t now v = None ->
  tk_active t = true /\ tk_revoked t = None /\ past_expiry t now = false /\ account_active (tk_user t) v = true.
Proof.
  unfold rejection_reason. intros E. repeat case_match; simplify_eq.
  match goal with H : _ || _ = false |- _ => apply orb_false_iff in H as [R A] end. apply negb_false_iff in A.
  apply bool_decide_eq_false in R. split_and!; try done; first [by apply eq_None_not_Some|by apply negb_false_iff].
Qed.

Lemma authenticate_request_quiet r now v : quiet v (authenticate_api_request r now v).2.
Proof.
  unfold authenticate_api_request. pose proof (authenticate_quiet (drop 7 (rq_auth r)) now v).
  repeat case_match; simplify_eq; cbn [snd] in *; auto with vault.
Qed.

(** A caller that came with a token is the one the token is for. *)
Definition caller_ok (now : Z) (c : Caller) (v : Vault) : Prop :=
  forall pk t, c.2 = Some (pk, t) -> token_at pk v = Some (touch now t) /\ tk_active t = true /\ c.1 = tk_user t.
Lemma authenticate_request_caller r now v c v' : authenticate_api_request r now v = (inr c, v') -> caller_ok now c v'.
Proof.
  unfold authenticate_api_request, caller_ok. intros E pk t Ec. repeat case_match; simplify_eq; try done.
  match goal with H : authenticate _ _ _ = _ |- _ => apply authenticate_accepted in H as (_ & M & R & -> & ->) end.
  cbn in Ec. simplify_eq. apply matching_at in M as (E & _). apply rejection_none in R as (A & _). split_and!; try done.
  by apply update_row_hit.
Qed.

(** ** Every endpoint *)

Lemma endpoint_quiet method lvl r now v k :
  (forall c v1, caller_ok now c v1 -> quiet v1 (k c v1).2) -> quiet v (endpoint method lvl r now v k).2.
Proof.
  intros Hk. unfold endpoint. case_match; [auto with vault|].
  pose proof (authenticate_request_quiet r now v) as Q. pose proof (authenticate_request_caller r now v) as C.
  destruct (authenticate_api_request r now v) as [[a|c] v']; cbn [snd] in *; [done|].
  destruct (if lvl then _ else _); [done|]. etransitivity; [exact Q|]. apply Hk. by apply C.
Qed.
Lemma with_body_quiet r v k : (forall d, quiet v (k d).2) -> quiet v (with_body r v k).2.
Proof. unfold with_body. case_match; cbn [snd]; auto with vault. Qed.

Lemma issued_quiet status user e kv v :
  (forall x, kv = Some x -> quiet v x.2) -> quiet v (issued status user e kv v).2.
Proof. intros Hk. unfold issued. destruct kv as [[raw v']|]; [|apply quiet_refl]. case_match; by apply (Hk _ eq_refl). Qed.

Lemma create_token_inv user name description e type access draws now v pk raw v' :
  create_token user name description e type access draws now v = Some (pk, raw, v') ->
  exists prefix hashed, generate_raw_key draws = Some (raw, prefix, hashed) /\ pk = next_pk (tokens v)
    /\ v' = v <| tokens := (insert_row (new_token user name prefix hashed description e type access now) (tokens v)).2 |>.
Proof.
  unfold create_token. intros E. destruct (generate_raw_key draws) as [[[raw' prefix] hashed]|]; [|done].
  cbn in E. simplify_eq. eauto.
Qed.
Lemma create_token_quiet user name description e type access draws now v pk raw v' :
  create_token user name description e type access draws now v = Some (pk, raw, v') -> quiet v v'.
Proof. intros (prefix & hashed & _ & _ & ->)%create_token_inv. by apply quiet_insert. Qed.

Lemma generate_raw_key_some draws raw prefix hashed :
  generate_raw_key draws = Some (raw, prefix, hashed) ->
  raw ∈ draws /\ prefix = take PREFIX_LENGTH raw /\ hashed = hash_key raw.
Proof.
  induction draws as [|d draws IH]; [done|]. cbn [generate_raw_key]. case_match; intros E.
  - destruct (IH E) as (? & ? & ?). split_and!; try done. apply elem_of_cons. by right.
  - simplify_eq. split_and!; try done. apply elem_of_cons. by left.
Qed.

(** The token a login takes over is the user's, live and a login's. *)
Lemma upsert_login_inv user e now draws v raw v' :
  upsert_login user e now draws v = Some (raw, v') ->
  exists prefix hashed, generate_raw_key draws = Some (raw, prefix, hashed) /\
   ((exists pk t, token_at pk v = Some t /\ tk_user t = user /\ tk_type t = LoginToken /\ tk_active t = true
       /\ v' = update_token pk (rekey prefix hashed e now) v)
    \/ v' = v <| tokens := (insert_row (new_token user (u "Login token") prefix hashed [] (Some e) LoginToken [] now) (tokens v)).2 |>).
Proof.
  unfold upsert_login. intros E. destruct (generate_raw_key draws) as [[[raw' prefix] hashed]|]; [|done]. cbn [mbind option_bind] in E.
  exists prefix, hashed. destruct (merge_sort _ _) as [|[pk t] l] eqn:S; cbn [head] in E; simplify_eq; (split; [done|]); [by right|left].
  assert (I : (pk, t) ∈ (pk, t) :: l) by (apply elem_of_cons; by left). rewrite <- S, merge_sort_Permutation in I.
  apply where_elem in I as [I [[U L]%andb_true_iff A]%andb_true_iff]. exists pk, t. split_and!; try done; [by apply Z.eqb_eq|].
  by apply bool_decide_eq_true in L.
Qed.

Lemma upsert_login_quiet user e now draws v raw v' : upsert_login user e now draws v = Some (raw, v') -> quiet v v'.
Proof.
  intros (prefix & hashed & _ & [(pk & t & E & _ & L & A & ->)| ->])%upsert_login_inv; [|by apply quiet_insert].
  apply quiet_update. intros t' E'. simplify_eq. by apply evolves_rekey.
Qed.

Ltac quietly :=
  repeat (first
    [ apply quiet_refl
    | progress cbn [fst snd]
    | apply endpoint_quiet; intros ? ? ?
    | apply with_body_quiet; intros ?
    | apply quiet_update_user
    | case_match ]).

Lemma login_quiet r allowed locked draws now v : quiet v (api_auth_token settings r allowed locked draws now v).2.
Proof. unfold api_auth_token. quietly. apply issued_quiet. intros [raw v'] E. by eapply upsert_login_quiet. Qed.

Lemma register_quiet r draws now v : quiet v (api_auth_register settings r draws now v).2.
Proof.
  unfold api_auth_register. quietly; simplify_eq; try by apply quiet_same.
  all: etransitivity; [|apply issued_quiet; intros [raw' v'] E]; [by apply quiet_same|].
  all: apply fmap_Some in E as ([[? ?] v''] & E & [= -> ->]); by eapply create_token_quiet.
Qed.

Lemma me_quiet r now v : quiet v (api_auth_me r now v).2.
Proof. unfold api_auth_me. quietly. Qed.
Lemma set_password_quiet pk new x v : quiet v (set_password pk new x v).2.
Proof. unfold set_password. quietly. Qed.
Lemma password_quiet r now v : quiet v (api_auth_password r now v).2.
Proof. unfold api_auth_password. quietly. apply set_password_quiet. Qed.
Lemma user_password_quiet r target now v : quiet v (api_auth_user_password r target now v).2.
Proof. unfold api_auth_user_password. quietly. apply set_password_quiet. Qed.
Lemma deactivate_quiet r target now v : quiet v (api_auth_user_deactivate r target now v).2.
Proof.
  unfold api_auth_user_deactivate. quietly. etransitivity; [apply quiet_update_user|apply quiet_revoke_all].
Qed.
Lemma user_detail_quiet r target now v : quiet v (api_auth_user_detail r target now v).2.
Proof. unfold api_auth_user_detail. quietly. Qed.
Lemma users_quiet r q page size now v : quiet v (api_auth_users r q page size now v).2.
Proof. unfold api_auth_users. quietly. Qed.

Lemma refresh_quiet r draws now v : quiet v (api_auth_token_refresh settings r draws now v).2.
Proof.
  unfold api_auth_token_refresh. quietly.
  all: apply issued_quiet; intros [raw' v'] E.
  all: destruct (generate_raw_key draws) as [[[raw prefix] hashed]|]; [|done]; cbn in E; simplify_eq.
  all: apply quiet_update; intros t' E'.
  all: match goal with C : caller_ok _ _ _, E : _.2 = Some _ |- _ => destruct (C _ _ E) as (E1 & A & _) end.
  all: match goal with L : bool_decide _ = true |- _ => apply bool_decide_eq_true in L end.
  all: simplify_eq; by apply evolves_rekey.
Qed.
Lemma logout_quiet r now v : quiet v (api_auth_logout r now v).2.
Proof. unfold api_auth_logout. quietly. apply quiet_update. auto with vault. Qed.
Lemma api_view_quiet o r now v : quiet v (api_view o r now v).2.
Proof.
  unfold api_view. pose proof (authenticate_request_quiet r now v). repeat case_match; simplify_eq; cbn [snd] in *; auto with vault.
Qed.

Lemma create_quiet sid viewer f draws now v : quiet v (token_create sid viewer f draws now v).2.
Proof.
  unfold token_create. quietly. simplify_eq.
  match goal with E : create_token _ _ _ _ _ _ _ _ _ = _ |- _ => apply create_token_quiet in E as Q end.
  etransitivity; [exact Q|by apply quiet_same].
Qed.
Lemma reveal_quiet sid viewer pk v : quiet v (token_reveal sid viewer pk v).2.
Proof. unfold token_reveal, with_token. quietly; by apply quiet_same. Qed.
Lemma revoke_quiet viewer pk now v : quiet v (token_revoke viewer pk now v).2.
Proof. unfold token_revoke, with_token. quietly. apply quiet_update. auto with vault. Qed.

(** ** A login's key opens its account *)

Lemma resolve_bounds requested hours :
  1 <= LOGIN_TOKEN_MAX_HOURS settings -> resolve_token_expiry settings requested = Ok hours ->
  1 <= hours <= LOGIN_TOKEN_MAX_HOURS settings.
Proof. unfold resolve_token_expiry. intros M E. repeat case_match; simplify_eq; cbn in E; simplify_eq; lia. Qed.

Lemma active_at pk x v (b : bool) :
  user_at pk v = Some x -> b && us_active x = true -> account_active pk v = true.
Proof. unfold account_active. by intros -> [_ ?]%andb_true_iff. Qed.
Lemma checked_active password pk x v pk' : user_at pk v = Some x -> checked_user password pk x = Some pk' -> account_active pk' v = true.
Proof. unfold checked_user. intros E. case_match eqn:C; [|done]. intros [= <-]. eapply active_at; [exact E|exact C]. Qed.
Lemma nobody_none password pk : nobody password <> Some (Some pk).
Proof. by destruct password. Qed.
Lemma email_or_username_active username password v pk :
  email_or_username username password v = Some (Some pk) -> account_active pk v = true.
Proof.
  unfold email_or_username. intros E. destruct (where_ _ _) as [|[k x] [|]] eqn:W; [by apply nobody_none in E| |done].
  injection E as E. apply (checked_active password k x v); [|done].
  match type of W with where_ ?p ?t = _ => apply (where_elem p t k x) end. rewrite W. by apply list_elem_of_singleton.
Qed.
Lemma model_backend_active username password v pk : model_backend username password v = Some (Some pk) -> account_active pk v = true.
Proof.
  unfold model_backend. intros E. destruct (first_where _ _) as [[k x]|] eqn:W; [|by apply nobody_none in E].
  injection E as E. apply (checked_active password k x v); [|done]. by apply first_where_some in W as [W _].
Qed.
Lemma credentials_active username password v pk : credentials username password v = Some (Some pk) -> account_active pk v = true.
Proof.
  unfold credentials. destruct (email_or_username _ _ _) as [[pk'|]|] eqn:E; [|apply model_backend_active|done].
  intros [= <-]. by eapply email_or_username_active.
Qed.

(** The one row that carries a key is what that key authenticates. *)
Lemma key_authenticates raw now v pk t :
  (PREFIX_LENGTH <= length raw)%nat -> token_at pk v = Some t -> tk_prefix t = take PREFIX_LENGTH raw -> tk_hashed t = hash_key raw ->
  (forall pk' t', token_at pk' v = Some t' -> tk_hashed t' = hash_key raw -> pk' = pk) -> rejection_reason t now v = None ->
  authenticate raw now v = (Accepted (tk_user t) pk t, update_token pk (touch now) v).
Proof.
  intros L E P K U R. unfold authenticate. rewrite (proj2 (Nat.ltb_ge _ _) L).
  assert (M : matching raw v = [(pk, t)]); [|by rewrite M, R].
  apply where_unique; [done|by rewrite P, K; unfold str_eqb; rewrite !bool_decide_true|].
  intros pk' t' E' [_ K']%andb_true_iff. apply (U pk' t' E'). unfold str_eqb in K'. by apply bool_decide_eq_true in K'.
Qed.

(** What a login leaves: the row that carries the new key. *)
Definition carries (raw : pystr) (user e pk : Z) (t : APIToken) (v : Vault) : Prop :=
  token_at pk v = Some t /\ tk_user t = user /\ tk_prefix t = take PREFIX_LENGTH raw /\ tk_hashed t = hash_key raw
  /\ tk_expires t = Some e /\ tk_active t = true
  /\ (forall pk' t', token_at pk' v = Some t' -> tk_hashed t' = hash_key raw -> pk' = pk).
Lemma upsert_login_row user e now draws v raw v' :
  upsert_login user e now draws v = Some (raw, v') ->
  (forall pk t, token_at pk v = Some t -> tk_hashed t <> hash_key raw) ->
  users v' = users v /\ raw ∈ draws /\ exists pk t, carries raw user e pk t v'.
Proof.
  intros (prefix & hashed & G & [(pk & t & E & U & L & A & ->)| ->])%upsert_login_inv N;
    apply generate_raw_key_some in G as (D & -> & ->); (split; [done|split; [done|]]).
  - exists pk, (rekey (take PREFIX_LENGTH raw) (hash_key raw) e now t). unfold carries. rewrite token_at_update, decide_True, E by done.
    split_and!; try done. intros pk' t' E' K. rewrite token_at_update in E'. case_decide; [done|].
    by destruct (N pk' t' E').
  - exists (next_pk (tokens v)). eexists. split; [apply lookup_insert_row|]. split_and!; try done.
    intros pk' t' E' K. apply insert_row_inv in E' as [[-> _]|[_ E']]; [done|]. by destruct (N pk' t' E').
Qed.

(** A key carried by the token of an active account signs it in until it
    expires. *)
Lemma carried_opens raw user e pk t x v now :
  carries raw user e pk t v -> lawful t -> (PREFIX_LENGTH <= length raw)%nat -> now <= e ->
  user_at user v = Some x -> us_active x = true ->
  authenticate raw now v = (Accepted user pk t, update_token pk (touch now) v).
Proof.
  intros (E & <- & P & K & X & A & U) L N T Eu Ax. apply key_authenticates; try done.
  unfold rejection_reason, past_expiry, account_active. rewrite (L A), A, X, Eu, Ax. cbn. by rewrite (proj2 (Z.ltb_ge _ _) T).
Qed.

(** A request that carries a key and nothing else. *)
Definition bearing (method raw : pystr) : Request :=
  {| rq_method := method; rq_auth := BEARER ++ raw; rq_session := None; rq_content := NoBody |}.

Lemma bearing_caller method raw user pk t v v' now :
  authenticate raw now v = (Accepted user pk t, v') ->
  authenticate_api_request (bearing method raw) now v = (inr (user, Some (pk, t)), v').
Proof.
  intros E. unfold authenticate_api_request, bearing. cbn [rq_auth].
  assert (S : startswith (BEARER ++ raw) BEARER = true) by (by vm_compute). rewrite S.
  change (drop 7 (BEARER ++ raw)) with raw. by rewrite E.
Qed.

(** *** Requests that only read *)

(** What is left of a token when its uses are not counted. *)
Definition unused (t : APIToken) : APIToken := t <| tk_last_used := None |> <| tk_requests := 0 |>.
Definition touched (v v' : Vault) : Prop := users v' = users v /\ forall pk, unused <$> token_at pk v' = unused <$> token_at pk v.
#[global] Instance touched_preorder : PreOrder touched.
Proof. split; [done|]. intros v1 v2 v3 [U1 T1] [U2 T2]. split; [congruence|]. intros pk. by rewrite T2. Qed.

Lemma touch_touched pk now v : touched v (update_token pk (touch now) v).
Proof. split; [done|]. intros k. rewrite token_at_update. case_decide; [|done]. by destruct (token_at k v). Qed.
Lemma authenticate_touched raw now v : touched v (authenticate raw now v).2.
Proof. unfold authenticate. repeat case_match; cbn [snd]; try reflexivity. apply touch_touched. Qed.
Lemma request_touched r now v : touched v (authenticate_api_request r now v).2.
Proof.
  unfold authenticate_api_request. pose proof (authenticate_touched (drop 7 (rq_auth r)) now v).
  repeat case_match; simplify_eq; cbn [snd] in *; first [reflexivity|done].
Qed.
Lemma endpoint_touched method lvl r now v k :
  (forall c v1, (k c v1).2 = v1) -> touched v (endpoint method lvl r now v k).2.
Proof.
  intros Hk. unfold endpoint. case_match; [reflexivity|]. pose proof (request_touched r now v) as Q.
  destruct (authenticate_api_request r now v) as [[a|c] v']; cbn [snd] in *; [done|].
  destruct (if lvl then _ else _); [done|]. by rewrite Hk.
Qed.

(** Anyone's requests for their own account and for the list of accounts, and
    every request the gate of a REST view lets pass or refuses. *)
Inductive Reading :=
  | ReadMe (r : Request)
  | ReadUsers (r : Request) (q : pystr) (page size : option pystr)
  | ReadView (o : ViewOptions) (r : Request).
Definition read (c : Reading) (now : Z) (v : Vault) : Vault :=
  match c with
  | ReadMe r => (api_auth_me r now v).2
  | ReadUsers r q page size => (api_auth_users r q page size now v).2
  | ReadView o r => (api_view o r now v).2
  end.
Definition reads_from (v : Vault) (l : list (Reading * Z)) : Vault := foldl (fun v c => read c.1 c.2 v) v l.

Lemma read_touched c now v : touched v (read c now v).
Proof.
  destruct c; cbn [read].
  - unfold api_auth_me. apply endpoint_touched. intros. by repeat case_match.
  - unfold api_auth_users. apply endpoint_touched. intros. by repeat case_match.
  - unfold api_view. pose proof (request_touched r now v) as Q. repeat case_match; simplify_eq; cbn [snd] in *; first [reflexivity|done].
Qed.
Lemma reads_touched v l : touched v (reads_from v l).
Proof.
  revert v. induction l as [|c l IH]; intros v; [reflexivity|]. cbn [reads_from foldl].
  etransitivity; [apply (read_touched c.1 c.2)|apply IH].
Qed.

Lemma carries_touched raw user e pk t v v' :
  carries raw user e pk t v -> touched v v' -> exists t', carries raw user e pk t' v' /\ (lawful t -> lawful t').
Proof.
  intros (E & Us & P & K & X & A & U) [_ T]. pose proof (T pk) as Tp. rewrite E in Tp. cbn in Tp.
  apply fmap_Some in Tp as (t' & E' & Et). exists t'.
  assert (F : tk_user t' = tk_user t /\ tk_prefix t' = tk_prefix t /\ tk_hashed t' = tk_hashed t /\ tk_expires t' = tk_expires t
    /\ tk_active t' = tk_active t /\ tk_revoked t' = tk_revoked t).
  { unfold unused in Et. destruct t, t'. cbn in Et. injection Et. intros. cbn. by split_and!. }
  destruct F as (F1 & F2 & F3 & F4 & F5 & F6). split; [|unfold lawful; by rewrite F5, F6].
  split_and!; [done|congruence..|]. intros pk' t0 E0 K0. pose proof (T pk') as Tp'. rewrite E0 in Tp'. cbn in Tp'. symmetry in Tp'.
  apply fmap_Some in Tp' as (t1 & E1 & Et1). apply (U pk' t1 E1). rewrite <- K0.
  unfold unused in Et1. destruct t0, t1. cbn in Et1. by injection Et1.
Qed.

(** C26: A login that answers with a key answers for the account that the user name
    and the password of its own body open; and until the key expires, at least
    an hour and at most the longest time allowed later, a request with that key
    is made by that account, whoever else asked for accounts, lists of them or
    views in between and however often the key was used. (A later login of the
    same account, a revocation or a change of the account may end it earlier.) *)
Theorem login_opens_the_account r allowed locked draws now v status raw who e v' between when :
  sound v -> 1 <= LOGIN_TOKEN_MAX_HOURS settings ->
  api_auth_token settings r allowed locked draws now v = (IssuedKey status raw who e, v') ->
  (forall pk t, token_at pk v = Some t -> tk_hashed t <> hash_key raw) -> (PREFIX_LENGTH <= length raw)%nat ->
  when <= e ->
  now + HOUR <= e <= now + LOGIN_TOKEN_MAX_HOURS settings * HOUR
  /\ (exists data username, rq_content r = JsonBody (JObj data) /\ stripped_field (u "username") data = Some username
        /\ credentials username (field (u "password") data) v = Some (Some (uj_id who)))
  /\ (api_auth_me (bearing (u "GET") raw) when (reads_from v' between)).1 = TheUser who.
Proof.
  intros S M E N L T. pose proof (login_quiet r allowed locked draws now v) as Q. rewrite E in Q. cbn [snd] in Q.
  revert E. unfold api_auth_token, load_json_body. case_match; [done|]. destruct (rq_content r) as [| |[| | | | | |data]|]; try done.
  destruct (stripped_field (u "username") data) as [username|] eqn:Un; [|done]. fold (field (u "password") data).
  repeat (case_match; try done). unfold issued.
  match goal with C : credentials ?n ?p v = Some (Some ?z) |- _ => pose proof (credentials_active n p v z C) as A; rename C into Hc end.
  match goal with R : resolve_token_expiry _ _ = Ok _ |- _ => pose proof (resolve_bounds _ _ M R) as B end.
  destruct (upsert_login _ _ _ _ _) as [[raw' v1]|] eqn:Up; [|done]. destruct (user_json _ _ _) as [x|] eqn:J; [|done].
  intros [= <- <- <- <- <-]. split; [unfold HOUR in *; lia|].
  pose proof (upsert_login_row _ _ _ _ _ _ _ Up N) as (Us & _ & pk & t & C).
  unfold user_json in J. destruct (user_at _ v1) as [ux|] eqn:Eu; [|done]. cbn in J. simplify_eq. cbn [uj_id].
  split; [by exists data, username|].
  unfold api_auth_me, endpoint. cbn [bearing rq_method].
  assert (G : negb (str_eqb (u "GET") (u "GET")) = false) by by_compute. rewrite G.
  assert (Ax : us_active ux = true). { unfold account_active, user_at in A, Eu. rewrite Us in Eu. by rewrite Eu in A. }
  pose proof (reads_touched v1 between) as Tv. destruct (carries_touched _ _ _ _ _ _ _ C Tv) as (t' & C' & Lw).
  match type of Eu with user_at ?z _ = _ =>
    assert (Eu' : user_at z (reads_from v1 between) = Some ux) by (unfold user_at in *; by rewrite (proj1 Tv)) end.
  rewrite (bearing_caller _ _ _ _ _ _ _ _ (carried_opens _ _ _ _ _ _ _ _ C' (Lw (proj2 (adv_sound _ _ (proj1 Q) S) _ _ (proj1 C))) L T Eu' Ax)).
  cbn [fst snd]. unfold profile, user_json. unfold user_at in *. cbn [update_token users].
  change (users (update_token pk (touch when) (reads_from v1 between))) with (users (reads_from v1 between)).
  by rewrite Eu'.
Qed.

(** ** Minting *)

Lemma clean_form_inv me f v target name description access e :
  clean_form me f v = Some (target, name, description, access, e) ->
  (is_staff me v = true \/ target = me) /\ access ∈ access_choices me v
  /\ (access ∈ [u "staff"; u "auth"] -> is_staff target v = true)
  /\ (access = u "auth" -> is_superuser me v = true).
Proof.
  unfold clean_form. destruct (tf_user f) as [target'|]; [|done]. destruct (tf_expires f) as [e'|]; [|done]. cbn [mbind option_bind].
  destruct (_ && _) eqn:C; [|done]. intros [= -> <- <- <- ->].
  repeat match goal with H : _ && _ = true |- _ => apply andb_true_iff in H as [? ?] end.
  match goal with H : clean_user _ _ _ = true |- _ => unfold clean_user in H; apply orb_true_iff in H; rewrite Z.eqb_eq in H end.
  match goal with H : bool_decide _ = true |- _ => apply bool_decide_eq_true in H end.
  match goal with H : clean _ _ _ = true |- _ => unfold clean in H; apply negb_true_iff, andb_false_iff in H as CL end.
  match goal with H : clean_access_level _ _ _ = true |- _ => unfold clean_access_level in H; rename H into CA end.
  split_and!; try done.
  - intros I. destruct CL as [CL|CL]; [by apply bool_decide_eq_false in CL|by apply negb_false_iff].
  - intros Ea. rewrite Ea in CA. case_match; [done|]. unfold str_eqb in CA. rewrite (bool_decide_true (u "auth" = u "auth")) in CA by done.
    by destruct (is_superuser me v).
Qed.

(** Whoever mints a token is signed in; without staff's role it is for
    themselves and reads only, a level above that is for a member of staff and
    one that manages users is minted by a superuser. The key is shown to the
    browser that asked, hashed as the token has it, and to no other. *)
Theorem mints_within_role sid viewer f draws now v pk v' :
  token_create sid viewer f draws now v = (ToReveal pk, v') ->
  exists me t raw, viewer = Some me /\ token_at pk v' = Some t /\ tk_type t = ManualToken
    /\ (is_staff me v = false -> tk_user t = me /\ tk_access t = u "readonly")
    /\ (tk_access t = u "auth" -> is_superuser me v = true)
    /\ (tk_access t <> u "readonly" -> is_staff (tk_user t) v = true)
    /\ hash_key raw = tk_hashed t /\ reveals v' = <[sid := raw]> (reveals v)
    /\ (forall pk', pk' <> pk -> token_at pk' v' = token_at pk' v).
Proof.
  unfold token_create. intros E. destruct viewer as [me|]; [|done].
  destruct (clean_form me f v) as [[[[[target name] description] access] e]|] eqn:C; [|done].
  destruct (create_token _ _ _ _ _ _ _ _ _) as [[[pk' raw] v1]|] eqn:M; [|done]. simplify_eq.
  apply create_token_inv in M as (prefix & hashed & G & -> & ->). apply generate_raw_key_some in G as (_ & -> & ->).
  apply clean_form_inv in C as (U & L & T & A).
  exists me. eexists. exists raw. split; [done|]. split; [apply lookup_insert_row|].
  cbn [new_token tk_type tk_user tk_access tk_hashed]. split_and!; try done.
  - intros S. destruct U as [U| ->]; [congruence|]. split; [done|]. unfold access_choices in L. rewrite S in L. by apply list_elem_of_singleton in L.
  - intros R. apply T. unfold access_choices in L. repeat case_match; set_solver.
  - intros pk' N. unfold token_at. cbn. by rewrite lookup_insert_ne by congruence.
Qed.

(** ** The gate in front of the REST views *)

(** A view that asks for a caller is reached by an account that is active, of
    staff where the view asks so, signed in by the session or with a token
    that is its own, live and unexpired, and that writes with no read-only
    one. *)
Theorem gate_admits o r now v c j v' :
  vo_auth o = true -> api_view o r now v = (inr (Some c, j), v') ->
  account_active c.1 v = true
  /\ (vo_staff o = true -> is_staff c.1 v = true)
  /\ rq_method r ∈ vo_methods o
  /\ match c.2 with
     | Some (pk, t) => token_at pk v = Some t /\ is_valid t now = true /\ tk_revoked t = None /\ c.1 = tk_user t
                       /\ tk_hashed t = hash_key (drop 7 (rq_auth r))
                       /\ (tk_access t = u "readonly" -> reads (rq_method r) = true)
                       /\ (vo_auth_token o = true -> tk_type t = ManualToken /\ tk_access t = u "auth")
     | None => rq_session r = Some c.1 /\ vo_auth_token o = false
     end.
Proof.
  unfold api_view. intros -> E. case_match; [done|]. case_match eqn:Ms; [done|]. apply negb_false_iff, bool_decide_eq_true in Ms.
  destruct (authenticate_api_request r now v) as [[a|c'] v1] eqn:Ar; [done|]. case_match eqn:Ad; [done|].
  assert (c' = c /\ v1 = v') as [-> ->] by (destruct (parsed_body r); naive_solver). clear E.
  revert Ar. unfold authenticate_api_request. case_match.
  - destruct (authenticate _ now v) as [[| | |] v2] eqn:Au; try done. intros [= <- <-]. cbn [fst snd] in *.
    apply authenticate_accepted in Au as (_ & M & R & -> & ->). apply matching_at in M as (E & _ & K).
    apply rejection_none in R as (A & Rv & X & Ac). revert Ad. unfold admitted, readonly, require_auth_token. cbn [fst snd].
    change (is_staff (tk_user t) (update_token pk (touch now) v)) with (is_staff (tk_user t) v).
    unfold is_valid. rewrite A, X. cbn [negb]. intros Ad. split_and!; try done.
    + intros S. rewrite S in Ad. repeat case_match; simplify_eq; by destruct (is_staff _ _).
    + intros Ro. unfold str_eqb in Ad. rewrite Ro, (bool_decide_true (u "readonly" = u "readonly")) in Ad by done. repeat case_match; simplify_eq.
      all: by destruct (reads _).
    + intros V. rewrite V in Ad. destruct (_ && str_eqb _ _) eqn:B; [|done]. apply andb_true_iff in B as [B1 B2].
      unfold str_eqb in B2. by rewrite bool_decide_eq_true in B1, B2.
  - unfold session_user. destruct (rq_session r) as [pk|]; [|done]. cbn [mbind option_bind]. destruct (account_active pk v) eqn:Ac; [|done].
    intros [= <- <-]. revert Ad. unfold admitted, require_auth_token. cbn [fst snd]. intros Ad. split_and!; try done.
    + intros S. rewrite S in Ad. repeat case_match; simplify_eq; by destruct (is_staff _ _).
    + by destruct (vo_auth_token o).
Qed.
End Facts.

(** ** Pages *)

Lemma page_count_covers n size : 0 <= n -> 1 <= size -> (page_count n size - 1) * size < Z.max 1 n <= page_count n size * size.
Proof.
  intros Hn Hs. unfold page_count. pose proof (Z.div_mod (n + size - 1) size) as D.
  pose proof (Z.mod_pos_bound (n + size - 1) size ltac:(lia)) as B. nia.
Qed.

Lemma page_size_bounds raw size : 1 <= size -> 1 <= page_size_of raw size <= Z.max size MAX_PAGE_SIZE.
Proof. intros S. unfold page_size_of, MAX_PAGE_SIZE. repeat case_match; lia. Qed.

Lemma resolve_page_bounds raw total : 1 <= total -> 1 <= resolve_page raw total <= total.
Proof. intros T. unfold resolve_page. repeat case_match; lia. Qed.

(** A number is no name of a page. *)
Lemma digits_no_alias ds alias : Forall (fun c => is_decimal c = true) ds -> forallb is_decimal alias = false -> lower (strip ds) <> alias.
Proof.
  intros D A E. assert (L : lower (strip ds) = ds).
  { rewrite strip_no_space by (eapply Forall_impl; [exact D|apply decimal_no_space]). unfold lower.
    clear E. induction D as [|c ds Hc _ IH]; [done|]. cbn. f_equal; [|exact IH].
    unfold lower_char, is_decimal, is_ascii_upper in *. repeat case_match; lia. }
  rewrite L in E. subst. apply not_true_iff_false in A. apply A, forallb_forall. intros c Hc%list_elem_of_In.
  by apply (proj1 (Forall_forall _ _) D).
Qed.
Lemma resolve_page_number k total : 1 <= k <= total -> resolve_page (dec k) total = k.
Proof.
  intros K. destruct (dec_spec k ltac:(lia)) as (_ & D & _). unfold resolve_page, str_eqb.
  pose proof (fun a => digits_no_alias (dec k) a D) as N.
  rewrite (bool_decide_false (_ = u "first")), (bool_decide_false (_ = u "last")), (bool_decide_false (_ = u "next")) by (apply N; by_compute).
  rewrite bool_decide_false by (rewrite elem_of_cons, list_elem_of_singleton; intros [E|E]; revert E; apply N; by_compute).
  rewrite parse_int_dec by lia. lia.
Qed.

Lemma pages_take {A} (qs : list A) (size m : nat) :
  mjoin ((fun k => take size (drop (Z.to_nat ((k - 1) * Z.of_nat size)) qs)) <$> seqZ 1 (Z.of_nat m)) = take (m * size) qs.
Proof.
  induction m as [|m IH]; [done|]. rewrite seqZ_S, fmap_app, join_app, IH by lia. cbn [fmap list_fmap mjoin list_join].
  rewrite app_nil_r. replace (Z.to_nat ((1 + Z.of_nat m - 1) * Z.of_nat size)) with (m * size)%nat by lia.
  rewrite take_take_drop. f_equal. lia.
Qed.

(** Whatever is asked for, the page is one there is, of the size asked for
    within its bounds, with its neighbours where there are any; and the pages
    one after the other are the list. *)
Theorem pages_are_the_list {A} (qs : list A) page raw_size size :
  1 <= size ->
  let '(items, m) := paginate page raw_size qs size in
  1 <= pg_number m <= pg_total m /\ zlen items <= Z.max size MAX_PAGE_SIZE /\ pg_count m = zlen qs
  /\ (pg_next m = None <-> pg_number m = pg_total m) /\ (pg_previous m = None <-> pg_number m = 1)
  /\ mjoin ((fun k => (paginate (Some (dec k)) raw_size qs size).1) <$> seqZ 1 (pg_total m)) = qs.
Proof.
  intros S. unfold paginate. cbn [pg_number pg_total pg_count pg_next pg_previous fst].
  pose proof (page_size_bounds raw_size size S) as B. set (s := page_size_of raw_size size) in *. clearbody s.
  pose proof (page_count_covers (zlen qs) s ltac:(unfold zlen; lia) ltac:(lia)) as Cv.
  assert (T : 1 <= page_count (zlen qs) s) by (unfold page_count; lia). set (total := page_count (zlen qs) s) in *. clearbody total.
  pose proof (resolve_page_bounds (default (u "1") page) total T) as R. split_and!; try (done || lia).
  - unfold zlen. rewrite length_take. lia.
  - case_match; [split; [done|lia]|]. split; [lia|done].
  - case_match; [split; [done|lia]|]. split; [lia|done].
  - replace (seqZ 1 total) with (seqZ 1 (Z.of_nat (Z.to_nat total))) by (f_equal; lia).
    etransitivity; [|etransitivity; [apply (pages_take qs (Z.to_nat s) (Z.to_nat total))|]].
    + f_equal. apply list_fmap_ext. intros i k [Ek K]%lookup_seqZ. rewrite Z2Nat.id by lia.
      change (default (u "1") (Some (dec k))) with (dec k). by rewrite resolve_page_number by lia.
    + apply take_ge. unfold zlen in Cv. nia.
Qed.
