(* ===== verification/OAuth.v ===== *)
(** * The OAuth exchange, the tool endpoint and sign-in codes

    apps/mcp (oauth.py, oauth_views.py, models.py, auth.py, views.py): the
    consent page, the code exchange as the two statements a redemption is
    (reading the row, claiming it), revocation, and the JSON-RPC endpoint with
    its gate on tools; and the one-time sign-in codes of apps/accounts
    (models.py, views.py), whose verification is three statements. A request
    that is one statement, or whose statements nothing here depends on the
    interleaving of, is one step. *)
From stdpp Require Import sorting.
From S2P Require Import Prelude PyFloat PyStr PyLib Json Tables Tokens.
Open Scope Z_scope.

(** ** oauth.py *)

Definition base64_symbol (n : Z) : Z :=
  if n <? 26 then 65 + n else if n <? 52 then 71 + n else if n <? 62 then n - 4 else if n =? 62 then 45 else 95.
Definition sextets (count : nat) (n : Z) : pystr :=
  (fun i => base64_symbol (Z.shiftr n (18 - 6 * Z.of_nat i) mod 64)) <$> seq 0 count.

(** [urlsafe_b64encode(...).rstrip(b"=")] *)
Fixpoint base64url (bs : list Z) : pystr :=
  match bs with
  | a :: b :: c :: bs => sextets 4 (65536 * a + 256 * b + c) ++ base64url bs
  | [a; b] => sextets 3 (65536 * a + 256 * b)
  | [a] => sextets 2 (65536 * a)
  | [] => []
  end.

(** [verify_pkce]; [None] is an exception: a verifier or a challenge that is
    not ASCII. *)
Definition verify_pkce (code_verifier code_challenge method : pystr) : option bool :=
  if negb (nonempty code_verifier) || negb (nonempty code_challenge) then Some false
  else if negb (str_eqb method (u "S256")) then Some false
  else if negb (ascii code_verifier) then None
  else compare_digest (base64url (sha256 code_verifier)) code_challenge.

(** ** oauth_views.py *)

Inductive Reply :=
  | LoginFirst
  | InvalidRedirect
  | RedirectTo (url : pystr)
  | UnsupportedGrant
  | InvalidGrant (description : pystr)
  | BearerToken (access_token scope : pystr)
  | Done
  | Exception
  | Undrawn.

(** The values a form posts. *)
Definition posted (name : pystr) (form : list (pystr * pystr)) : option pystr := dict_get form name.
Definition post_get (name : pystr) (form : list (pystr * pystr)) (otherwise : pystr) : pystr := default otherwise (posted name form).

Section OAuth.
Context `{AuthLib} (settings : AuthSettings).

(** [_is_safe_redirect_uri] *)
Definition loopback (host : pystr) : bool := bool_decide (host ∈ [u "127.0.0.1"; u "::1"; u "localhost"]).
Definition is_safe_redirect_uri (redirect_uri : pystr) : bool :=
  match urlparse redirect_uri with
  | None => false
  | Some parsed =>
      if negb (nonempty (pr_scheme parsed)) || negb (nonempty (pr_netloc parsed)) then false
      else if str_eqb (pr_scheme parsed) (u "https") then true
      else if str_eqb (pr_scheme parsed) (u "http") then loopback (lower (default [] (pr_hostname parsed)))
      else false
  end.

Definition SECOND : Z := 1000000.
Definition TTL : Z := MCP_OAUTH_CODE_TTL_SECONDS settings * SECOND.

(** [expire_unredeemed_codes] *)
Definition stale (now : Z) (c : OAuthAuthorizationCode) : bool :=
  bool_decide (oc_used c = None) && (oc_created c <? now - TTL) && nonempty (oc_raw_key c).
Definition expire_unredeemed_codes (now : Z) (v : Vault) : Vault :=
  let token_ids := (fun x => oc_token x.2) <$> where_ (fun _ => stale now) (codes v) in
  let expire pk t := if bool_decide (pk ∈ token_ids) && bool_decide (tk_type t = OAuthToken) && tk_active t
                     then revoke_token now t else t in
  v <| tokens := {| rows := map_imap (fun pk t => Some (expire pk t)) (rows (tokens v)); next_pk := next_pk (tokens v) |} |>
    <| codes := map_rows (fun c => if stale now c then c <| oc_raw_key := [] |> else c) (codes v) |>.

(** [AuthorizeView.post]; [code] is the code that is drawn. *)
Definition with_query (redirect_uri : pystr) (query : list (pystr * pystr)) : Reply :=
  RedirectTo (redirect_uri ++ (if contains (u "?") redirect_uri then u "&" else u "?") ++ urlencode query).

Definition authorize (viewer : option Z) (post : list (pystr * pystr)) (draws : list pystr) (code : pystr) (now : Z) (v : Vault)
    : Reply * Vault :=
  match viewer with
  | None => (LoginFirst, v)
  | Some me =>
      let client_id := post_get (u "client_id") post [] in
      let redirect_uri := post_get (u "redirect_uri") post [] in
      let state := post_get (u "state") post [] in
      let scope := post_get (u "scope") post (u "read") in
      if negb (is_safe_redirect_uri redirect_uri) then (InvalidRedirect, v)
      else if negb (str_eqb (post_get (u "decision") post (u "deny")) (u "allow"))
      then (with_query redirect_uri [(u "error", u "access_denied"); (u "state", state)], v)
      else
        let wants_write := bool_decide (u "write" ∈ words scope) in
        let access_level := if wants_write && is_staff me v then u "staff" else u "readonly" in
        match create_token me (MCP_TOKEN_NAME_PREFIX settings ++ u " — " ++ client_id)
                (u "Auto-minted via OAuth (scope=" ++ scope ++ u ")") None OAuthToken access_level draws now v with
        | None => (Undrawn, v)
        | Some (pk, raw_key, v1) =>
            let v2 := expire_unredeemed_codes now v1 in
            if negb (bool_decide (where_ (fun _ c => str_eqb (oc_code c) code) (codes v2) = [])) then (Exception, v2)
            else
              (with_query redirect_uri [(u "code", code); (u "state", state)],
               v2 <| codes := (insert_row {| oc_code := code; oc_user := me; oc_token := pk; oc_raw_key := raw_key;
                                             oc_redirect := redirect_uri;
                                             oc_challenge := post_get (u "code_challenge") post [];
                                             oc_scope := scope; oc_client := client_id; oc_created := now;
                                             oc_used := None |} (codes v2)).2 |>)
        end
  end.

(** *** [token]: the row is read and checked, then claimed *)

(** What a redemption holds between its two statements. *)
Record Redemption := { rd_code : Z; rd_row : OAuthAuthorizationCode; rd_verifier : pystr; rd_redirect : pystr }.

Definition redeem (post : list (pystr * pystr)) (now : Z) (v : Vault) : (Reply + Redemption) * Vault :=
  if negb (str_eqb (post_get (u "grant_type") post []) (u "authorization_code")) then (inl UnsupportedGrant, v)
  else
    let code := post_get (u "code") post [] in
    let code_verifier := post_get (u "code_verifier") post [] in
    match first_where (fun _ c => str_eqb (oc_code c) code) (codes v) with
    | None => (inl (InvalidGrant (u "Unknown code")), v)
    | Some (pk, row) =>
        let req_redirect := post_get (u "redirect_uri") post [] in
        if nonempty req_redirect && negb (str_eqb req_redirect (oc_redirect row))
        then (inl (InvalidGrant (u "redirect_uri mismatch")), v)
        else if bool_decide (is_Some (oc_used row)) then (inl (InvalidGrant (u "Code already used")), v)
        else if TTL <? now - oc_created row
        then (inl (InvalidGrant (u "Code expired")), expire_unredeemed_codes now v)
        else match verify_pkce code_verifier (oc_challenge row) (u "S256") with
             | None => (inl Exception, v)
             | Some false => (inl (InvalidGrant (u "PKCE verification failed")), v)
             | Some true => (inr {| rd_code := pk; rd_row := row; rd_verifier := code_verifier; rd_redirect := req_redirect |}, v)
             end
    end.

(** The conditional update, and what follows it. *)
Definition claim (d : Redemption) (now : Z) (v : Vault) : Reply * Vault :=
  match rows (codes v) !! rd_code d with
  | Some c =>
      if bool_decide (oc_used c = None) then
        (if nonempty (oc_raw_key (rd_row d))
         then BearerToken (oc_raw_key (rd_row d)) (if nonempty (oc_scope (rd_row d)) then oc_scope (rd_row d) else u "read")
         else InvalidGrant (u "Key already revealed"),
         v <| codes := update_row (rd_code d) (fun c => c <| oc_used := Some now |> <| oc_raw_key := [] |>) (codes v) |>)
      else (InvalidGrant (u "Code already used"), v)
  | None => (InvalidGrant (u "Code already used"), v)
  end.

(** [revoke] *)
Definition revoke (post : list (pystr * pystr)) (now : Z) (v : Vault) : Reply * Vault :=
  let raw_key := post_get (u "token") post [] in
  if negb (nonempty raw_key) then (Done, v)
  else match authenticate raw_key now v with
       | (Accepted _ pk _, v') | (Rejected pk _ _, v') => (Done, update_token pk (revoke_token now) v')
       | (NotFound, v') => (Done, v')
       | (Ambiguous, v') => (Exception, v')
       end.
End OAuth.

(** ** auth.py *)

Record ToolDef := {
  td_name : pystr;
  td_write : bool;
  td_requires : option pystr;
  td_visible : option (User -> option bool);
}.

(** What a handler does: a value, or the text of an exception. *)
Inductive ToolResult := Value (j : json) | ToolRaised (text : pystr).

(** The registries: what each tool is, in the order they registered, and the
    handlers. *)
Record Registry := { TOOL_REGISTRY : list (pystr * ToolDef); TOOL_HANDLERS : list (pystr * (json -> ToolResult)) }.

(** [tool]: the first registration of a name stays. *)
Definition register_tool (td : ToolDef) (handler : json -> ToolResult) (g : Registry) : Registry :=
  match dict_get (TOOL_REGISTRY g) (td_name td) with
  | Some _ => g
  | None => {| TOOL_REGISTRY := dict_set (TOOL_REGISTRY g) (td_name td) td;
               TOOL_HANDLERS := dict_set (TOOL_HANDLERS g) (td_name td) handler |}
  end.

Definition mcp_reason (why : Rejection) : pystr :=
  match why with
  | REJECT_REVOKED => u "token_revoked"
  | REJECT_EXPIRED => u "token_expired"
  | REJECT_USER_INACTIVE => u "account_deactivated"
  end.

(** [authenticate] of the Authorization header: the caller and its token, or
    the reason; [None] is an exception. *)
Definition mcp_authenticate (auth_header : pystr) (now : Z) (v : Vault) : option (pystr + Z * APIToken) * Vault :=
  if negb (startswith auth_header BEARER) then (Some (inl (u "missing_bearer")), v)
  else
    let raw_key := strip (drop 7 auth_header) in
    if negb (nonempty raw_key) then (Some (inl (u "empty_bearer")), v)
    else match authenticate raw_key now v with
         | (Accepted user _ t, v') => (Some (inr (user, t)), v')
         | (Rejected _ _ why, v') => (Some (inl (mcp_reason why)), v')
         | (NotFound, v') => (Some (inl (u "invalid_token")), v')
         | (Ambiguous, v') => (None, v')
         end.

(** [check_tool_access]; [staff_view] tells whether a [StaffRequiredMixin] is
    among the mixins. *)
Definition level_rank (level : pystr) : Z :=
  if str_eqb level (u "auth") then 1 else if str_eqb level (u "staff") then 2 else 0.
Definition effective_level (t : APIToken) (staff : bool) : pystr :=
  if nonempty (tk_access t) then tk_access t else if staff then u "staff" else u "auth".

Definition check_tool_access (t : APIToken) (td : ToolDef) (staff_view : bool) (v : Vault) : option pystr :=
  let staff := is_staff (tk_user t) v in
  let rest :=
    if td_write td && str_eqb (tk_access t) (u "readonly") then Some (u "readonly_blocked")
    else if staff_view && negb staff then Some (u "staff_required") else None in
  match td_requires td with
  | Some needed =>
      if negb (nonempty needed) then rest
      else if level_rank (effective_level t staff) <? level_rank needed then Some (u "access_required:" ++ needed)
      else if str_eqb needed (u "staff") && negb staff then Some (u "staff_required")
      else rest
  | None => rest
  end.

(** ** views.py *)

Inductive RpcBody :=
  | RpcError (code : Z) (message : pystr)
  | Banner
  | Initialized (version : pystr)
  | Empty
  | NoResources
  | NoPrompts
  | Tools (names : list pystr)
  | Content (value : json) (is_error : bool).
Inductive Rpc := Accepted202 | RpcAnswer (id : json) (body : RpcBody) (status : Z) | Http500.

Definition RPC_PARSE_ERROR : Z := -32700.
Definition RPC_INVALID_REQUEST : Z := -32600.
Definition RPC_METHOD_NOT_FOUND : Z := -32601.
Definition RPC_INTERNAL_ERROR : Z := -32603.

Section Endpoint.
Context `{AuthLib} (supported : list pystr) (g : Registry).

(** [(d.get(name) or "").strip()]; [None]: what is there has no [strip]. *)
Definition stripped (name : pystr) (d : jobj) : option pystr :=
  let j := jget_null name d in
  if negb (jtruthy j) then Some [] else match j with JStr s => Some (strip s) | _ => None end.
(** [d.get(name) or {}] *)
Definition or_object (name : pystr) (d : jobj) : json :=
  let j := jget_null name d in if jtruthy j then j else JObj [].

Definition negotiate_protocol_version (client_version : pystr) : option pystr :=
  if nonempty client_version && bool_decide (client_version ∈ supported) then Some client_version else head supported.

Definition visible (td : ToolDef) (user : Z) (v : Vault) : bool :=
  match td_visible td with
  | None => true
  | Some f => match user_at user v with Some x => default false (f x) | None => false end
  end.
Definition callable (t : APIToken) (v : Vault) (td : ToolDef) : bool := bool_decide (check_tool_access t td false v = None).
Definition tools_list (user : Z) (t : APIToken) (v : Vault) : list pystr :=
  (fun x => td_name x.2) <$> List.filter (fun x => callable t v x.2 && visible x.2 user v) (TOOL_REGISTRY g).

(** [tools/call] *)
Definition tools_call (rpc_id : json) (params : jobj) (t : APIToken) (v : Vault) : Rpc :=
  match stripped (u "name") params with
  | None => Http500
  | Some name =>
      match dict_get (TOOL_REGISTRY g) name with
      | None => RpcAnswer rpc_id (RpcError RPC_METHOD_NOT_FOUND (u "Unknown tool: " ++ name)) 200
      | Some td =>
          match check_tool_access t td false v with
          | Some deny => RpcAnswer rpc_id (RpcError RPC_INVALID_REQUEST (u "Forbidden: " ++ deny)) 403
          | None =>
              match dict_get (TOOL_HANDLERS g) name with
              | None => RpcAnswer rpc_id (RpcError RPC_INTERNAL_ERROR (u "Tool " ++ name ++ u " has no handler")) 200
              | Some handler =>
                  match handler (or_object (u "arguments") params) with
                  | ToolRaised text => RpcAnswer rpc_id (RpcError RPC_INTERNAL_ERROR (u "Tool " ++ name ++ u " raised: " ++ text)) 200
                  | Value j =>
                      let is_error := match j with JObj d => bool_decide (is_Some (jget (u "error") d)) | _ => false end in
                      RpcAnswer rpc_id (Content j is_error) 200
                  end
              end
          end
      end
  end.

(** What is answered to anyone. *)
Definition open_method (method : pystr) (rpc_id : json) (params : jobj) : option Rpc :=
  if startswith method (u "notifications/") then Some Accepted202
  else if str_eqb method (u "initialize") then
    Some (match stripped (u "protocolVersion") params with
          | None => Http500
          | Some client_version => match negotiate_protocol_version client_version with
                                   | None => Http500
                                   | Some version => RpcAnswer rpc_id (Initialized version) 200
                                   end
          end)
  else if str_eqb method (u "ping") then Some (RpcAnswer rpc_id Empty 200)
  else if str_eqb method (u "resources/list") then Some (RpcAnswer rpc_id NoResources 200)
  else if str_eqb method (u "prompts/list") then Some (RpcAnswer rpc_id NoPrompts 200)
  else None.

(** [McpHttpView.post]; [body] is the decoded body ([{}] where there is none),
    [None] one that does not decode. *)
Definition mcp_post (body : option json) (auth_header : pystr) (now : Z) (v : Vault) : Rpc * Vault :=
  match body with
  | None => (RpcAnswer JNull (RpcError RPC_PARSE_ERROR (u "Parse error")) 400, v)
  | Some (JObj payload) =>
      let rpc_id := jget_null (u "id") payload in
      match or_object (u "params") payload with
      | JObj params =>
          match default (JStr []) (jget (u "method") payload) with
          | JStr method =>
              match open_method method rpc_id params with
              | Some a => (a, v)
              | None =>
                  match mcp_authenticate auth_header now v with
                  | (None, v') => (Http500, v')
                  | (Some (inl auth_err), v') =>
                      (RpcAnswer rpc_id (RpcError RPC_INVALID_REQUEST (u "Unauthorized: " ++ auth_err)) 401, v')
                  | (Some (inr (user, t)), v') =>
                      (if str_eqb method (u "tools/list") then RpcAnswer rpc_id (Tools (tools_list user t v')) 200
                       else if str_eqb method (u "tools/call") then tools_call rpc_id params t v'
                       else RpcAnswer rpc_id (RpcError RPC_METHOD_NOT_FOUND (u "Method not found: " ++ method)) 200, v')
                  end
              end
          | _ => (Http500, v)
          end
      | _ => (RpcAnswer rpc_id (RpcError RPC_INVALID_REQUEST (u "Invalid Request: params must be an object")) 400, v)
      end
  | Some _ => (RpcAnswer JNull (RpcError RPC_INVALID_REQUEST (u "Invalid Request: body must be a JSON object")) 400, v)
  end.
End Endpoint.

(** ** accounts/models.py and views.py: one-time sign-in codes *)

Record LoginCode := {
  lc_user : Z;
  lc_hash : pystr;
  lc_created : Z;
  lc_expires : Z;
  lc_attempts : Z;
  lc_consumed : bool;
}.
#[global] Instance eta_login_code : Eta LoginCode := fun c =>
  Build_LoginCode (lc_user c) (lc_hash c) (lc_created c) (lc_expires c) (lc_attempts c) (lc_consumed c).

Record CodeSettings := {
  SMALLSTACK_PASSWORDLESS_LOGIN : bool;
  SMALLSTACK_LOGIN_CODE_TTL : Z;
  SMALLSTACK_LOGIN_CODES_PER_HOUR : Z;
}.

Definition MAX_ATTEMPTS : Z := 5.
Definition RESEND_THROTTLE_SECONDS : Z := 60.

Definition oldest_user (x y : Z * User) : Prop := x.1 <= y.1.
#[export] Instance oldest_user_dec x y : Decision (oldest_user x y) := decide (_ <= _).
Definition newest_code (x y : Z * LoginCode) : Prop := lc_created y.2 <= lc_created x.2.
#[export] Instance newest_code_dec x y : Decision (newest_code x y) := decide (_ <= _).

(** What a verification holds between its statements. *)
Record Attempt := { at_code : Z; at_hash : pystr; at_raw : pystr; at_user : Z }.

(** What the page answers; [CodeSent] asks for the code whether one was sent
    or not. *)
Inductive SignInPage := PageNotFound | GoHome | AskEmail (error : bool) | CodeSent (email : pystr) | InvalidCode.

Section Codes.
Context `{AuthLib} (cs : CodeSettings).
Notation Codes := (Table LoginCode).

(** [dispatch] *)
Definition sign_in_dispatch (authenticated : bool) : option SignInPage :=
  if negb (SMALLSTACK_PASSWORDLESS_LOGIN cs) then Some PageNotFound else if authenticated then Some GoHome else None.

(** [LoginCode.issue] of the code that is drawn. *)
Definition issue (user : Z) (code : pystr) (now : Z) (t : Codes) : Codes :=
  (insert_row {| lc_user := user; lc_hash := make_password code; lc_created := now;
                 lc_expires := now + SMALLSTACK_LOGIN_CODE_TTL cs * SECOND; lc_attempts := 0; lc_consumed := false |} t).2.

Definition is_live (c : LoginCode) (now : Z) : bool :=
  negb (lc_consumed c) && (lc_attempts c <? MAX_ATTEMPTS) && (now <? lc_expires c).
Definition check_code (raw hash : pystr) : bool := check_password (JStr raw) hash.

(** The active account of an address, the one of the lowest key. *)
Definition account_of (email : pystr) (v : Vault) : option (Z * User) :=
  head (merge_sort oldest_user
          (where_ (fun _ x => match us_email x with Some e => same_text e email | None => false end && us_active x) (users v))).

(** [action = "request"] *)
Definition clean_email (posted : pystr) : pystr := lower (strip posted).
Definition may_issue (user now : Z) (t : Codes) : bool :=
  let recent := where_ (fun _ c => (lc_user c =? user) && negb (lc_consumed c)
                                   && (now - RESEND_THROTTLE_SECONDS * SECOND <=? lc_created c)) t in
  let issued_last_hour := where_ (fun _ c => (lc_user c =? user) && (now - HOUR <=? lc_created c)) t in
  bool_decide (recent = []) && (zlen issued_last_hour <? SMALLSTACK_LOGIN_CODES_PER_HOUR cs).
Definition request_code (posted code : pystr) (now : Z) (v : Vault) (t : Codes) : SignInPage * Codes :=
  let email := clean_email posted in
  if negb (nonempty email) then (AskEmail true, t)
  else (CodeSent email,
        match account_of email v with
        | Some (user, x) =>
            if match us_email x with Some e => nonempty e | None => false end && may_issue user now t
            then issue user code now t else t
        | None => t
        end).

(** [action = "verify"]: the row is read; [held] is the session's address. *)
Definition begin_verify (held : option pystr) (posted_email posted_code : pystr) (now : Z) (v : Vault) (t : Codes) : option Attempt :=
  let email := match held with Some ((_ :: _) as e) => e | _ => clean_email posted_email end in
  let code := strip posted_code in
  '(user, _) ← account_of email v;
  if negb (nonempty code) then None
  else
    '(pk, c) ← head (merge_sort newest_code (where_ (fun _ c => (lc_user c =? user) && negb (lc_consumed c)) t));
    if is_live c now then Some {| at_code := pk; at_hash := lc_hash c; at_raw := code; at_user := user |} else None.

(** An attempt is spent by a conditional update; then the code is checked, and
    consumed by another. *)
Definition spend (a : Attempt) (now : Z) (t : Codes) : bool * Codes :=
  match rows t !! at_code a with
  | Some c => if is_live c now
              then (true, update_row (at_code a) (fun c => c <| lc_attempts := lc_attempts c + 1 |>) t)
              else (false, t)
  | None => (false, t)
  end.
Definition consume (a : Attempt) (t : Codes) : bool * Codes :=
  if negb (check_code (at_raw a) (at_hash a)) then (false, t)
  else match rows t !! at_code a with
       | Some c => if lc_consumed c then (false, t)
                   else (true, update_row (at_code a) (fun c => c <| lc_consumed := true |>) t)
       | None => (false, t)
       end.

(** A whole verification, nothing in between. *)
Definition verify (held : option pystr) (posted_email posted_code : pystr) (now : Z) (v : Vault) (t : Codes) : SignInPage * Codes :=
  match begin_verify held posted_email posted_code now v t with
  | None => (InvalidCode, t)
  | Some a => match spend a now t with
              | (false, t) => (InvalidCode, t)
              | (true, t) => match consume a t with (true, t) => (GoHome, t) | (false, t) => (InvalidCode, t) end
              end
  end.
End Codes.
