(* ===== verification/OAuthFacts.v ===== *)
(** * What holds of the exchange, the tools and the sign-in codes

    Whatever requests come, in whatever order, and however the two statements
    of a redemption fall among them: a code is redeemed once, by the one that
    asked for it, for the key of its own token; what was revoked stays revoked;
    a tool runs for those its definition lets; and a sign-in code is guessed at
    five times at most and opens the door once. *)
From stdpp Require Import sorting relations.
From S2P Require Import Prelude PyFloat PyStr PyLib Json Tables Tokens OAuth TokensFacts.
Open Scope Z_scope.
#[local] Opaque u.

(** ** How an authorization code may change *)

(** What was asked for is for good; a key is only ever cleared, and a code that
    is used stays used and holds none. *)
Definition same_grant (c c' : OAuthAuthorizationCode) : Prop :=
  oc_code c' = oc_code c /\ oc_user c' = oc_user c /\ oc_token c' = oc_token c /\ oc_redirect c' = oc_redirect c
  /\ oc_challenge c' = oc_challenge c /\ oc_scope c' = oc_scope c /\ oc_created c' = oc_created c.
Definition settles (c c' : OAuthAuthorizationCode) : Prop :=
  same_grant c c' /\ (oc_raw_key c' = oc_raw_key c \/ oc_raw_key c' = [])
  /\ (is_Some (oc_used c) -> oc_used c' = oc_used c).

(** The key a code holds is that of its token, which is its user's; and a used
    one holds none. *)
Definition backed (user token : Z) (raw : pystr) (v : Vault) : Prop :=
  exists t, token_at token v = Some t /\ tk_type t = OAuthToken /\ tk_user t = user /\ tk_hashed t = hash_key raw.
Definition honest (v : Vault) (c : OAuthAuthorizationCode) : Prop :=
  (oc_raw_key c <> [] -> backed (oc_user c) (oc_token c) (oc_raw_key c) v) /\ (is_Some (oc_used c) -> oc_raw_key c = []).

Lemma settles_refl c : settles c c.
Proof. unfold settles, same_grant. split_and!; auto. Qed.
Lemma settles_trans c1 c2 c3 : settles c1 c2 -> settles c2 c3 -> settles c1 c3.
Proof.
  intros (E & K & U) (E' & K' & U'). split_and!.
  - unfold same_grant in *. destruct_and!. split_and!; congruence.
  - destruct K as [K|K], K' as [K'|K']; [left|right|right|right]; congruence.
  - intros Us. rewrite U'; [auto|]. by rewrite U.
Qed.

(** The state kept between the requests. *)
Definition kept (v : Vault) : Prop :=
  sound v /\ fresh (codes v) /\ forall pk c, rows (codes v) !! pk = Some c -> honest v c.
(** A step: tokens as they may change, and so the codes there were. *)
Record steps (v v' : Vault) : Prop := {
  st_advances : advances v v';
  st_kept : kept v -> kept v';
  st_code pk c : kept v -> rows (codes v) !! pk = Some c -> exists c', rows (codes v') !! pk = Some c' /\ settles c c';
}.

Lemma backed_advances user token raw v v' : advances v v' -> sound v -> backed user token raw v -> backed user token raw v'.
Proof.
  intros A S (t & E & T & U & K). destruct (adv_token _ _ A _ _ S E) as (t' & E' & V1 & V2 & _ & _ & V5 & _).
  exists t'. destruct V5 as [_ V5]; [right; congruence|]. split_and!; congruence.
Qed.
Lemma honest_advances v v' c : advances v v' -> sound v -> honest v c -> honest v' c.
Proof. intros A S [B U]. split; [|done]. intros N. by apply (backed_advances _ _ _ v), B. Qed.

(** Every call that leaves the codes alone is a step. *)
Lemma quiet_steps v v' : quiet v v' -> steps v v'.
Proof.
  intros [A C]. split; [done| |].
  - intros (S & F & Hc). split; [by apply (adv_sound _ _ A)|]. rewrite C. split; [done|].
    intros pk c E. by apply (honest_advances v), (Hc pk).
  - intros pk c _ E. rewrite C. exists c. split; [done|apply settles_refl].
Qed.
#[export] Hint Resolve quiet_steps settles_refl : vault.

#[global] Instance steps_preorder : PreOrder steps.
Proof.
  split; [intros v; by apply quiet_steps|]. intros v1 v2 v3 [A1 K1 C1] [A2 K2 C2]. split; [by transitivity v2|auto|].
  intros pk c K E. destruct (C1 pk c K E) as (c2 & E2 & S2). destruct (C2 pk c2 (K1 K) E2) as (c3 & E3 & S3).
  exists c3. eauto using settles_trans.
Qed.
Lemma steps_refl v : steps v v.
Proof. reflexivity. Qed.

(** A change of every code, each as it may change. *)
Lemma steps_codes (f : Z -> OAuthAuthorizationCode -> OAuthAuthorizationCode) v v' :
  advances v v' -> (forall pk, rows (codes v') !! pk = f pk <$> rows (codes v) !! pk) -> next_pk (codes v') = next_pk (codes v) ->
  (forall pk c, rows (codes v) !! pk = Some c -> settles c (f pk c)) ->
  (forall pk c, rows (codes v) !! pk = Some c -> honest v' c -> honest v' (f pk c)) -> steps v v'.
Proof.
  intros A R N Hs Hh. split; [done| |].
  - intros (S & F & Hc). split_and!; [by apply (adv_sound _ _ A)| |].
    + intros pk c. rewrite R, N. intros (c0 & E & _)%fmap_Some. by apply (F pk c0).
    + intros pk c. rewrite R. intros (c0 & E & ->)%fmap_Some. apply (Hh pk c0 E).
      by apply (honest_advances v), (Hc pk).
  - intros pk c _ E. exists (f pk c). rewrite R, E. split; [done|]. by apply Hs.
Qed.

Section Facts.
Context `{AuthLib} (settings : AuthSettings).

Lemma expire_advances now v : advances v (expire_unredeemed_codes settings now v).
Proof.
  unfold expire_unredeemed_codes. set (ids := _ <$> where_ _ _).
  apply (advances_rows (fun pk t => if bool_decide (pk ∈ ids) && bool_decide (tk_type t = OAuthToken) && tk_active t
                                    then revoke_token now t else t)); [|done|].
  - intros pk. unfold token_at. cbn. rewrite map_lookup_imap. by destruct (rows (tokens v) !! pk).
  - intros pk t _. case_match; auto with vault.
Qed.
Lemma cleared_settles c : settles c (c <| oc_raw_key := [] |>).
Proof. unfold settles, same_grant. split_and!; auto. Qed.
Lemma cleared_honest v c : honest v (c <| oc_raw_key := [] |>).
Proof. by split. Qed.
Lemma expire_steps now v : steps v (expire_unredeemed_codes settings now v).
Proof.
  apply (steps_codes (fun _ c => if stale settings now c then c <| oc_raw_key := [] |> else c)); [apply expire_advances| |done| |].
  - intros pk. apply lookup_fmap.
  - intros pk c _. case_match; auto using cleared_settles, settles_refl.
  - intros pk c _. case_match; auto using cleared_honest.
Qed.

(** A code for a token just made. *)
Lemma insert_code_steps c v :
  honest v c -> steps v (v <| codes := (insert_row c (codes v)).2 |>).
Proof.
  intros Hc. split.
  - by apply advances_same.
  - intros (S & F & Hh). split_and!; [done|by apply fresh_insert|]. intros pk c' [[_ ->]|[_ E]]%insert_row_inv; [done|].
    exact (Hh pk c' E).
  - intros pk c' (_ & F & _) E. exists c'. split; [by apply insert_row_old|apply settles_refl].
Qed.

Lemma revoke_steps post now v : steps v (revoke post now v).2.
Proof.
  unfold revoke. case_match; [apply steps_refl|]. pose proof (authenticate_quiet (post_get (u "token") post []) now v) as Q.
  repeat case_match; simplify_eq; cbn [snd] in *; auto with vault.
  all: apply quiet_steps; etransitivity; [exact Q|]; apply quiet_update; auto with vault.
Qed.

Lemma expire_backed now user token raw v : backed user token raw v -> backed user token raw (expire_unredeemed_codes settings now v).
Proof.
  intros (t & E & T & U & K). unfold expire_unredeemed_codes. set (ids := _ <$> where_ _ _). unfold backed, token_at in *. cbn.
  rewrite map_lookup_imap, E. cbn. eexists. split; [done|]. by case_match.
Qed.

Lemma authorize_steps viewer post draws code now v : steps v (authorize settings viewer post draws code now v).2.
Proof.
  unfold authorize. destruct viewer as [me|]; [|apply steps_refl]. case_match; [apply steps_refl|]. case_match; [apply steps_refl|].
  destruct (create_token _ _ _ _ _ _ _ _ _) as [[[pk raw] v1]|] eqn:M; [|apply steps_refl].
  pose proof (create_token_quiet _ _ _ _ _ _ _ _ _ _ _ _ M) as Q.
  apply create_token_inv in M as (prefix & hashed & G & -> & ->). apply generate_raw_key_some in G as (_ & -> & ->).
  etransitivity; [by apply quiet_steps|]. set (v1 := v <| tokens := _ |>) in *. pose proof (expire_steps now v1) as X.
  case_match; cbn [snd]; [exact X|]. etransitivity; [exact X|]. apply insert_code_steps. split; [|by intros [? ?]].
  intros _. apply expire_backed. eexists. split; [apply lookup_insert_row|done].
Qed.

(** What a redemption holds: a row that was there, checked. *)
Definition checked (d : Redemption) (v : Vault) : Prop :=
  verify_pkce (rd_verifier d) (oc_challenge (rd_row d)) (u "S256") = Some true
  /\ (rd_redirect d = [] \/ rd_redirect d = oc_redirect (rd_row d))
  /\ exists c, rows (codes v) !! rd_code d = Some c /\ same_grant (rd_row d) c.

Lemma nonempty_false s : nonempty s = false -> s = [].
Proof. by destruct s. Qed.
Lemma redeem_checked post now v d v' : redeem settings post now v = (inr d, v') ->
  v' = v /\ rows (codes v) !! rd_code d = Some (rd_row d) /\ checked d v /\ oc_used (rd_row d) = None
  /\ now - oc_created (rd_row d) <= TTL settings.
Proof.
  unfold redeem. intros E. repeat (case_match; try done). simplify_eq. cbn.
  match goal with H : first_where _ _ = _ |- _ => apply first_where_some in H as [R _] end.
  match goal with H : bool_decide (is_Some _) = false |- _ => apply bool_decide_eq_false, eq_None_not_Some in H end.
  split_and!; try done; [|lia]. unfold checked. cbn. split; [done|]. split; [|by exists o].
  match goal with H : nonempty _ && _ = false |- _ => apply andb_false_iff in H as [N|N] end.
  - left. by apply nonempty_false.
  - right. apply negb_false_iff in N. unfold str_eqb in N. by apply bool_decide_eq_true in N.
Qed.
Lemma redeem_steps post now v : steps v (redeem settings post now v).2.
Proof. unfold redeem. repeat (case_match; try apply steps_refl). cbn [snd]. apply expire_steps. Qed.

Lemma used_settles c now : oc_used c = None -> settles c (c <| oc_used := Some now |> <| oc_raw_key := [] |>).
Proof. intros N. unfold settles, same_grant. split_and!; auto. rewrite N. by intros [? ?]. Qed.
Lemma claim_steps d now v : steps v (claim d now v).2.
Proof.
  unfold claim. destruct (rows (codes v) !! rd_code d) as [c|] eqn:E; [|apply steps_refl].
  case_match eqn:N; [|apply steps_refl]. apply bool_decide_eq_true in N. cbn [snd].
  apply (steps_codes (fun pk c => if decide (pk = rd_code d) then c <| oc_used := Some now |> <| oc_raw_key := [] |> else c));
    [by apply advances_same| |done| |].
  - intros pk. cbn [codes]. etransitivity; [apply lookup_update|]. case_decide; [done|]. by destruct (rows (codes v) !! pk).
  - intros pk c' E'. case_decide; [|apply settles_refl]. subst. apply used_settles. congruence.
  - intros pk c' _ Hc. case_decide; [|done]. by split.
Qed.

(** ** The tool endpoint *)

Lemma mcp_authenticate_quiet h now v : quiet v (mcp_authenticate h now v).2.
Proof.
  unfold mcp_authenticate. pose proof (authenticate_quiet (strip (drop 7 h)) now v).
  repeat case_match; simplify_eq; cbn [snd] in *; auto with vault.
Qed.
Lemma mcp_post_quiet supported g body h now v : quiet v (mcp_post supported g body h now v).2.
Proof.
  unfold mcp_post. pose proof (mcp_authenticate_quiet h now v). repeat case_match; simplify_eq; cbn [snd] in *; auto with vault.
Qed.

(** ** Everything that may be called *)

Inductive Call :=
  | Login (r : Request) (allowed locked : bool) (draws : list pystr)
  | Register (r : Request) (draws : list pystr)
  | Me (r : Request)
  | Password (r : Request)
  | UserPassword (r : Request) (target : Z)
  | Deactivate (r : Request) (target : Z)
  | UserDetail (r : Request) (target : Z)
  | Users (r : Request) (q : pystr) (page size : option pystr)
  | Refresh (r : Request) (draws : list pystr)
  | Logout (r : Request)
  | View (o : ViewOptions) (r : Request)
  | Create (sid : Z) (viewer : option Z) (f : TokenForm) (draws : list pystr)
  | Reveal (sid : Z) (viewer : option Z) (pk : Z)
  | RevokeToken (viewer : option Z) (pk : Z)
  | Authorize (viewer : option Z) (post : list (pystr * pystr)) (draws : list pystr) (code : pystr)
  | Revoke (post : list (pystr * pystr))
  | Mcp (supported : list pystr) (g : Registry) (body : option json) (header : pystr).

Definition call (c : Call) (now : Z) (v : Vault) : Vault :=
  match c with
  | Login r allowed locked draws => (api_auth_token settings r allowed locked draws now v).2
  | Register r draws => (api_auth_register settings r draws now v).2
  | Me r => (api_auth_me r now v).2
  | Password r => (api_auth_password r now v).2
  | UserPassword r target => (api_auth_user_password r target now v).2
  | Deactivate r target => (api_auth_user_deactivate r target now v).2
  | UserDetail r target => (api_auth_user_detail r target now v).2
  | Users r q page size => (api_auth_users r q page size now v).2
  | Refresh r draws => (api_auth_token_refresh settings r draws now v).2
  | Logout r => (api_auth_logout r now v).2
  | View o r => (api_view o r now v).2
  | Create sid viewer f draws => (token_create sid viewer f draws now v).2
  | Reveal sid viewer pk => (token_reveal sid viewer pk v).2
  | RevokeToken viewer pk => (token_revoke viewer pk now v).2
  | Authorize viewer post draws code => (authorize settings viewer post draws code now v).2
  | Revoke post => (revoke post now v).2
  | Mcp supported g body header => (mcp_post supported g body header now v).2
  end.

Lemma call_steps c now v : steps v (call c now v).
Proof.
  destruct c; cbn [call]; try apply authorize_steps; try apply revoke_steps; apply quiet_steps;
    auto using login_quiet, register_quiet, me_quiet, password_quiet, user_password_quiet, deactivate_quiet, user_detail_quiet,
      users_quiet, refresh_quiet, logout_quiet, api_view_quiet, create_quiet, reveal_quiet, revoke_quiet, mcp_post_quiet.
Qed.

(** The tables, the redemptions between their statements, and the keys that
    were handed out, each with its redemption. *)
Record World := { vault : Vault; reading : list Redemption; handed : list (Redemption * pystr) }.

Inductive exchange (w : World) : World -> Prop :=
  | ex_call c now : exchange w {| vault := call c now (vault w); reading := reading w; handed := handed w |}
  | ex_read post now d v' :
      redeem settings post now (vault w) = (inr d, v') ->
      exchange w {| vault := v'; reading := d :: reading w; handed := handed w |}
  | ex_refuse post now a v' :
      redeem settings post now (vault w) = (inl a, v') ->
      exchange w {| vault := v'; reading := reading w; handed := handed w |}
  | ex_hand l1 d l2 now key scope v' :
      reading w = l1 ++ d :: l2 -> claim d now (vault w) = (BearerToken key scope, v') ->
      exchange w {| vault := v'; reading := l1 ++ l2; handed := (d, key) :: handed w |}
  | ex_late l1 d l2 now a v' :
      reading w = l1 ++ d :: l2 -> claim d now (vault w) = (a, v') -> (forall key scope, a <> BearerToken key scope) ->
      exchange w {| vault := v'; reading := l1 ++ l2; handed := handed w |}.

Definition opening (v : Vault) : World := {| vault := v; reading := []; handed := [] |}.

(** What holds of a redemption that has read its row. *)
Definition held (v : Vault) (d : Redemption) : Prop :=
  checked d v /\ (oc_raw_key (rd_row d) <> [] -> backed (oc_user (rd_row d)) (oc_token (rd_row d)) (oc_raw_key (rd_row d)) v).
(** ... and of one that was handed a key: its code is used up. *)
Definition spent_code (v : Vault) (d : Redemption) : Prop :=
  exists c, rows (codes v) !! rd_code d = Some c /\ is_Some (oc_used c).

Record just (w : World) : Prop := {
  ju_kept : kept (vault w);
  ju_reading d : d ∈ reading w -> held (vault w) d;
  ju_handed d key : (d, key) ∈ handed w ->
    held (vault w) d /\ spent_code (vault w) d /\ key = oc_raw_key (rd_row d) /\ key <> [];
  ju_once : NoDup ((fun x => rd_code x.1) <$> handed w);
}.

Lemma same_grant_trans c1 c2 c3 : same_grant c1 c2 -> same_grant c2 c3 -> same_grant c1 c3.
Proof. unfold same_grant. intros; destruct_and!. split_and!; congruence. Qed.

Lemma held_steps v v' d : steps v v' -> kept v -> held v d -> held v' d.
Proof.
  intros S K ((P & R & c & E & G) & B). destruct (st_code _ _ S _ _ K E) as (c' & E' & (G' & _)). split.
  - split_and!; try done. exists c'. split; [done|]. by apply (same_grant_trans _ c).
  - intros N. apply (backed_advances _ _ _ v); [apply S|apply K|auto].
Qed.
Lemma spent_steps v v' d : steps v v' -> kept v -> spent_code v d -> spent_code v' d.
Proof.
  intros S K (c & E & U). destruct (st_code _ _ S _ _ K E) as (c' & E' & (_ & _ & U')). exists c'. split; [done|]. by rewrite U'.
Qed.

(** A step of the tables keeps what was just so. *)
Lemma just_steps w v' : steps (vault w) v' -> just w -> just {| vault := v'; reading := reading w; handed := handed w |}.
Proof.
  intros S [K R Hd O]. split; cbn [vault reading handed].
  - by apply (st_kept _ _ S).
  - intros d I. eapply held_steps; eauto.
  - intros d key I. destruct (Hd d key I) as (? & ? & ? & ?). split_and!; eauto using held_steps, spent_steps.
  - done.
Qed.
Lemma just_fewer w v' l1 d l2 : steps (vault w) v' -> reading w = l1 ++ d :: l2 -> just w ->
  just {| vault := v'; reading := l1 ++ l2; handed := handed w |}.
Proof.
  intros S E [K R Hd O]%(just_steps w v' S). split; try done. cbn [reading vault] in *. intros d' I. apply R. rewrite E. set_solver.
Qed.

Lemma claim_bearer d now v key scope v' :
  claim d now v = (BearerToken key scope, v') ->
  key = oc_raw_key (rd_row d) /\ key <> [] /\ spent_code v' d /\ ~ spent_code v d.
Proof.
  unfold claim. destruct (rows (codes v) !! rd_code d) as [c|] eqn:E; [|done]. destruct (bool_decide _) eqn:N; [|done].
  apply bool_decide_eq_true in N. destruct (nonempty _) eqn:Ne; [|done]. intros [= <- _ <-]. split_and!; [done|by intros Z; rewrite Z in Ne| |].
  - eexists. split; [by apply update_row_hit|]. by eexists.
  - intros (c' & E' & [? U]). congruence.
Qed.

Lemma exchange_just w w' : exchange w w' -> just w -> just w'.
Proof.
  intros X J. destruct X as [c now|post now d v' E|post now a v' E|l1 d l2 now key scope v' Er E|l1 d l2 now a v' Er E _].
  - apply just_steps; [apply call_steps|done].
  - pose proof (redeem_checked _ _ _ _ _ E) as (-> & Er & Ck & _). destruct J as [K R Hd O]. split; try done. cbn [reading vault].
    intros d' [->|I]%elem_of_cons; [|auto]. split; [done|]. apply K in Er. apply Er.
  - apply just_steps; [|done]. pose proof (redeem_steps post now (vault w)) as S. by rewrite E in S.
  - pose proof (claim_steps d now (vault w)) as S. rewrite E in S. cbn [snd] in S.
    apply claim_bearer in E as (Ek & Nk & Sp & Ns). pose proof (ju_handed _ J) as Hd. pose proof (just_fewer _ _ _ _ _ S Er J) as [K R Hd' O].
    split; cbn [vault reading handed] in *; try done.
    + intros d' key' [[= -> ->]|I]%elem_of_cons; [|auto]. split_and!; try done.
      apply (held_steps (vault w)); [done|apply J|]. apply J. rewrite Er. set_solver.
    + rewrite fmap_cons. apply NoDup_cons. split; [|done]. intros ([d' key'] & Ed & I)%list_elem_of_fmap. cbn in Ed.
      apply Ns. destruct (Hd d' key' I) as (_ & (c & Ec & U) & _). exists c. by rewrite Ed.
  - pose proof (claim_steps d now (vault w)) as S. rewrite E in S. by eapply just_fewer.
Qed.

(** C21: From tables with no code in them, whatever requests come and however the
    statements of redemptions fall among them: no code is redeemed twice; each
    redemption showed the verifier of the code's challenge and, if it named an
    address, the one consented to; it was handed the key of the token made for
    that consent, the consenting user's; and the code, used up, holds no key. *)
Theorem code_redeemed_once v w :
  sound v -> codes v = empty_table -> rtc exchange (opening v) w ->
  NoDup ((fun x => rd_code x.1) <$> handed w)
  /\ forall d key, (d, key) ∈ handed w ->
       exists c, rows (codes (vault w)) !! rd_code d = Some c /\ is_Some (oc_used c) /\ oc_raw_key c = []
         /\ verify_pkce (rd_verifier d) (oc_challenge c) (u "S256") = Some true
         /\ (rd_redirect d = [] \/ rd_redirect d = oc_redirect c)
         /\ backed (oc_user c) (oc_token c) key (vault w).
Proof.
  intros S E R. assert (J : just w).
  { assert (J0 : just (opening v)).
    { split; cbn; try (by intros ? ?%elem_of_nil); [|by intros ? ? ?%elem_of_nil|by apply NoDup_nil].
      split_and!; [done|by rewrite E; intros ? ? ?|by rewrite E; intros ? ? ?]. }
    remember (opening v) as w0. clear Heqw0. induction R; eauto using exchange_just. }
  split; [apply J|]. intros d key I. destruct (ju_handed _ J d key I) as (((P & Rd & c & Ec & G) & B) & (c' & Ec' & U) & -> & N).
  exists c. rewrite Ec in Ec'. injection Ec' as <-. destruct G as (_ & Gu & Gt & Gr & Gc & _).
  rewrite Gu, Gt, Gr, Gc. split_and!; try done; [|auto]. pose proof (ju_kept _ J) as (_ & _ & Hc). by apply (Hc _ _ Ec).
Qed.

(** ** Offboarding *)

Lemma exchange_steps w w' : exchange w w' -> steps (vault w) (vault w').
Proof.
  intros [c now|post now d v' E|post now a v' E|l1 d l2 now key scope v' _ E|l1 d l2 now a v' _ E _]; cbn [vault].
  - apply call_steps.
  - pose proof (redeem_steps post now (vault w)) as S. by rewrite E in S.
  - pose proof (redeem_steps post now (vault w)) as S. by rewrite E in S.
  - pose proof (claim_steps d now (vault w)) as S. by rewrite E in S.
  - pose proof (claim_steps d now (vault w)) as S. by rewrite E in S.
Qed.
Lemma exchanges_steps w w' : rtc exchange w w' -> steps (vault w) (vault w').
Proof. induction 1; [reflexivity|]. etransitivity; [by apply exchange_steps|done]. Qed.

Lemma revoked_never_accepted v pk t raw now user t' :
  token_at pk v = Some t -> tk_active t = false -> (authenticate raw now v).1 <> Accepted user pk t'.
Proof.
  intros E A X. destruct (authenticate raw now v) as [c v'] eqn:Au. cbn in X. subst.
  apply authenticate_accepted in Au as (_ & M & R & _). apply matching_at in M as [M _]. apply rejection_none in R as [R _]. congruence.
Qed.

(** C22: Once an account is deactivated, the account is inactive, and no key ever
    authenticates as one of the tokens it had: whatever is called, a PATCH that
    reactivates the account included, and whatever redemptions were under way. *)
Theorem offboarding_is_final r target now w v1 pk t w' raw when user t' :
  kept (vault w) -> api_auth_user_deactivate r target now (vault w) = (Message (u "User deactivated"), v1) ->
  token_at pk (vault w) = Some t -> tk_user t = target ->
  rtc exchange {| vault := v1; reading := reading w; handed := handed w |} w' ->
  account_active target v1 = false
  /\ (exists t2, token_at pk (vault w') = Some t2 /\ tk_user t2 = target /\ rejection_reason t2 when (vault w') = Some REJECT_REVOKED)
  /\ (authenticate raw when (vault w')).1 <> Accepted user pk t'.
Proof.
  intros K E Et Eu R. pose proof (deactivate_quiet r target now (vault w)) as Q. rewrite E in Q. cbn [snd] in Q.
  assert (D : account_active target v1 = false /\ exists t1, token_at pk v1 = Some t1 /\ tk_user t1 = target /\ tk_active t1 = false).
  { revert E. unfold api_auth_user_deactivate, endpoint. case_match; [done|]. pose proof (authenticate_request_quiet r now (vault w)) as Qa.
    destruct (authenticate_api_request r now (vault w)) as [[a|c] v2] eqn:Ar; cbn [snd] in *.
    { intros [= -> _]. unfold authenticate_api_request in Ar. repeat case_match; simplify_eq. by destruct why. }
    destruct (require_auth_token c) as [a|] eqn:Ra; [unfold require_auth_token in Ra; repeat case_match; simplify_eq; done|].
    destruct (user_at target v2) as [x|] eqn:Ux; [|done]. intros [= <-].
    destruct (adv_token _ _ (proj1 Qa) pk t (proj1 K) Et) as (t2 & E2 & V2 & _). split.
    - unfold account_active, user_at. cbn. unfold user_at in Ux. by rewrite lookup_alter_eq, Ux.
    - unfold token_at in *. cbn. rewrite lookup_fmap, E2. cbn. eexists. split; [done|]. rewrite V2, Eu, Z.eqb_refl. cbn [andb].
      destruct (tk_active t2) eqn:A2; cbn; split; congruence. }
  destruct D as [D (t1 & E1 & U1 & A1)]. split; [done|].
  pose proof (exchanges_steps _ _ R) as S. cbn [vault] in S. pose proof (st_kept _ _ (quiet_steps _ _ Q) K) as K1.
  destruct (adv_token _ _ (st_advances _ _ S) pk t1 (proj1 K1) E1) as (t2 & E2 & V2 & _ & _ & V4 & _). specialize (V4 A1). split.
  - exists t2. split_and!; [done|congruence|]. unfold rejection_reason. by rewrite V4, orb_true_r.
  - by apply (revoked_never_accepted _ _ t2).
Qed.

(** ** A consent carried through *)

Lemma first_code_inserted c v code :
  where_ (fun _ x => str_eqb (oc_code x) code) (codes v) = [] -> oc_code c = code -> fresh (codes v) ->
  first_where (fun _ x => str_eqb (oc_code x) code) (insert_row c (codes v)).2 = Some (next_pk (codes v), c).
Proof.
  intros N E F. apply first_where_unique; [apply lookup_insert_row|unfold str_eqb; by apply bool_decide_eq_true|].
  intros pk x [[-> _]|[_ X]]%insert_row_inv P; [done|]. by rewrite (proj1 (where_nil _ _) N pk x X) in P.
Qed.

(** The post a client makes of a code, its verifier and the address. *)
Definition token_post (code verifier redirect : pystr) : list (pystr * pystr) :=
  [(u "grant_type", u "authorization_code"); (u "code", code); (u "code_verifier", verifier); (u "redirect_uri", redirect)].
Lemma token_post_fields code verifier redirect :
  post_get (u "grant_type") (token_post code verifier redirect) [] = u "authorization_code"
  /\ post_get (u "code") (token_post code verifier redirect) [] = code
  /\ post_get (u "code_verifier") (token_post code verifier redirect) [] = verifier
  /\ post_get (u "redirect_uri") (token_post code verifier redirect) [] = redirect.
Proof. by vm_compute. Qed.

(** Expiring codes spares a token that no code is for. *)
Lemma expire_spares now v pk t :
  token_at pk v = Some t -> (forall k c, rows (codes v) !! k = Some c -> oc_raw_key c <> [] -> oc_token c <> pk) ->
  token_at pk (expire_unredeemed_codes settings now v) = Some t.
Proof.
  intros E N. unfold expire_unredeemed_codes. set (ids := _ <$> where_ _ _). unfold token_at in *. cbn. rewrite map_lookup_imap, E. cbn.
  rewrite bool_decide_false; [done|]. unfold ids. intros ([k c] & Ec & I)%list_elem_of_fmap. apply where_elem in I as [I St].
  unfold stale in St. apply andb_true_iff in St as [_ St]. apply (N k c I); [by destruct (oc_raw_key c)|done].
Qed.
Lemma expire_hashed now v pk t :
  token_at pk (expire_unredeemed_codes settings now v) = Some t ->
  exists t0, token_at pk v = Some t0 /\ tk_hashed t = tk_hashed t0.
Proof.
  unfold expire_unredeemed_codes. set (ids := _ <$> where_ _ _). unfold token_at. cbn. rewrite map_lookup_imap.
  destruct (rows (tokens v) !! pk) as [t0|]; [|done]. cbn. intros [= <-]. exists t0. split; [done|]. by case_match.
Qed.

(** What a consent leaves. *)
Lemma authorize_inv me post draws code now v url v1 :
  kept v -> post_get (u "decision") post (u "deny") = u "allow" ->
  authorize settings (Some me) post draws code now v = (RedirectTo url, v1) ->
  exists raw t c, raw ∈ draws /\ first_where (fun _ x => str_eqb (oc_code x) code) (codes v1) = Some (next_pk (codes v), c)
    /\ oc_used c = None /\ oc_raw_key c = raw /\ oc_created c = now /\ oc_challenge c = post_get (u "code_challenge") post []
    /\ oc_redirect c = post_get (u "redirect_uri") post []
    /\ token_at (next_pk (tokens v)) v1 = Some t /\ tk_type t = OAuthToken /\ tk_user t = me /\ tk_active t = true /\ tk_revoked t = None /\ tk_expires t = None
    /\ tk_prefix t = take PREFIX_LENGTH raw /\ tk_hashed t = hash_key raw
    /\ (tk_access t = u "readonly" \/ tk_access t = u "staff" /\ is_staff me v = true)
    /\ users v1 = users v
    /\ (forall pk t', token_at pk v1 = Some t' -> pk = next_pk (tokens v) \/ exists t0, token_at pk v = Some t0 /\ tk_hashed t' = tk_hashed t0).
Proof.
  intros K Al. unfold authorize. case_match; [done|]. rewrite Al. unfold str_eqb at 1. rewrite (bool_decide_true (u "allow" = u "allow")) by done. cbn [negb].
  destruct (create_token _ _ _ _ _ _ _ _ _) as [[[pk raw] va]|] eqn:M; [|done].
  apply create_token_inv in M as (prefix & hashed & G & -> & ->). apply generate_raw_key_some in G as (D & -> & ->).
  set (va := v <| tokens := _ |>). case_match eqn:N; [done|]. apply negb_false_iff, bool_decide_eq_true in N. intros [= _ <-].
  exists raw. eexists. eexists. split; [done|]. destruct K as (S & F & Hc).
  split.
  { refine (first_code_inserted _ (expire_unredeemed_codes settings now va) code N _ _); [done|]. intros k c. unfold expire_unredeemed_codes. cbn.
    rewrite lookup_fmap. intros (c0 & Ec & _)%fmap_Some. by apply (F k c0). }
  do 5 (split; [done|]). split.
  { refine (expire_spares now va (next_pk (tokens v)) _ _ _); [apply lookup_insert_row|]. intros k c Ec Nr Et. destruct (proj1 (Hc k c Ec) Nr) as (t & E & _).
    rewrite Et in E. apply (proj1 S) in E. lia. }
  do 7 (split; [done|]). split_and!; try done.
  - cbn [new_token tk_access]. case_match eqn:B; [right|by left]. apply andb_true_iff in B as [_ B]. done.
  - intros pk t' E'. destruct (expire_hashed now va pk t' E') as (t0 & E & Hh). apply insert_row_inv in E as [[-> _]|[_ E]]; [by left|right; eauto].
Qed.

(** No two codes are one text: the column is unique. *)
Definition distinct (v : Vault) : Prop :=
  forall pk c pk' c', rows (codes v) !! pk = Some c -> rows (codes v) !! pk' = Some c' -> oc_code c = oc_code c' -> pk = pk'.

Lemma distinct_mapped (f : Z -> OAuthAuthorizationCode -> OAuthAuthorizationCode) v v' :
  (forall pk, rows (codes v') !! pk = f pk <$> rows (codes v) !! pk) -> (forall pk c, oc_code (f pk c) = oc_code c) ->
  distinct v -> distinct v'.
Proof.
  intros R F D pk c pk' c'. rewrite !R. intros (c0 & E & ->)%fmap_Some (c0' & E' & ->)%fmap_Some. rewrite !F. by apply (D pk c0 pk' c0').
Qed.
Lemma distinct_same v v' : codes v' = codes v -> distinct v -> distinct v'.
Proof. unfold distinct. by intros ->. Qed.
Lemma expire_distinct now v : distinct v -> distinct (expire_unredeemed_codes settings now v).
Proof.
  apply (distinct_mapped (fun _ c => if stale settings now c then c <| oc_raw_key := [] |> else c)); [intros; apply lookup_fmap|].
  intros pk c. by case_match.
Qed.
Lemma authorize_distinct viewer post draws code now v : distinct v -> distinct (authorize settings viewer post draws code now v).2.
Proof.
  intros D. unfold authorize. destruct viewer as [me|]; [|done]. case_match; [done|]. case_match; [done|].
  destruct (create_token _ _ _ _ _ _ _ _ _) as [[[pk raw] v1]|] eqn:M; [|done].
  apply create_token_quiet in M as [_ M]. pose proof (expire_distinct now v1 (distinct_same _ _ M D)) as D1.
  case_match eqn:N; [done|]. apply negb_false_iff, bool_decide_eq_true in N. cbn [snd]. intros k c k' c'. cbn [codes].
  assert (Free : forall k c, rows (codes (expire_unredeemed_codes settings now v1)) !! k = Some c -> oc_code c <> code).
  { intros k0 c0 E0 X. pose proof (proj1 (where_nil _ _) N k0 c0 E0) as Y. cbn in Y. unfold str_eqb in Y.
    by apply bool_decide_eq_false in Y. }
  intros [[-> ->]|[_ E]]%insert_row_inv [[-> ->]|[_ E']]%insert_row_inv X; [done|..].
  - cbn in X. by destruct (Free k' c' E').
  - cbn in X. by destruct (Free k c E).
  - by apply (D1 k c k' c').
Qed.
Lemma revoke_codes post now v : codes (revoke post now v).2 = codes v.
Proof.
  unfold revoke. case_match; [done|]. pose proof (authenticate_quiet (post_get (u "token") post []) now v) as [_ Q].
  repeat case_match; simplify_eq; done.
Qed.
Lemma call_distinct c now v : distinct v -> distinct (call c now v).
Proof.
  destruct c; cbn [call]; try apply authorize_distinct; apply distinct_same; try apply revoke_codes;
    match goal with |- codes ?v' = codes ?v => enough (Q : quiet v v') by apply Q end;
    auto using login_quiet, register_quiet, me_quiet, password_quiet, user_password_quiet, deactivate_quiet, user_detail_quiet,
      users_quiet, refresh_quiet, logout_quiet, api_view_quiet, create_quiet, reveal_quiet, revoke_quiet, mcp_post_quiet.
Qed.
Lemma redeem_distinct post now v : distinct v -> distinct (redeem settings post now v).2.
Proof. intros D. unfold redeem. repeat (case_match; try done). by apply expire_distinct. Qed.
Lemma claim_distinct d now v : distinct v -> distinct (claim d now v).2.
Proof.
  intros D. unfold claim. destruct (rows (codes v) !! rd_code d); [|done]. case_match; [|done]. cbn [snd]. revert D.
  apply (distinct_mapped (fun pk c => if decide (pk = rd_code d) then c <| oc_used := Some now |> <| oc_raw_key := [] |> else c)).
  - intros pk. cbn [codes]. etransitivity; [apply lookup_update|]. case_decide; [done|]. by destruct (rows (codes v) !! pk).
  - intros pk c. by case_decide.
Qed.
Lemma exchange_distinct w w' : exchange w w' -> distinct (vault w) -> distinct (vault w').
Proof.
  intros X D. destruct X as [c now|post now d v' E|post now a v' E|l1 d l2 now key scope v' _ E|l1 d l2 now a v' _ E _]; cbn [vault].
  - by apply call_distinct.
  - pose proof (redeem_distinct post now _ D) as S. by rewrite E in S.
  - pose proof (redeem_distinct post now _ D) as S. by rewrite E in S.
  - pose proof (claim_distinct d now _ D) as S. by rewrite E in S.
  - pose proof (claim_distinct d now _ D) as S. by rewrite E in S.
Qed.
Lemma exchanges_distinct w w' : rtc exchange w w' -> distinct (vault w) -> distinct (vault w').
Proof. induction 1; eauto using exchange_distinct. Qed.

(** A code that nobody redeemed and whose key was not cleared; and a row that
    nobody claimed. *)
Definition waiting (code : pystr) (v : Vault) : Prop :=
  exists pk c, first_where (fun _ x => str_eqb (oc_code x) code) (codes v) = Some (pk, c) /\ oc_used c = None /\ oc_raw_key c <> [].
Definition unclaimed (d : Redemption) (v : Vault) : Prop :=
  exists c, rows (codes v) !! rd_code d = Some c /\ oc_used c = None.

(** The redemption of a code that waits, with its verifier and its address. *)
Lemma redeem_waiting code verifier redirect when v pk c :
  first_where (fun _ x => str_eqb (oc_code x) code) (codes v) = Some (pk, c) -> oc_used c = None -> oc_redirect c = redirect ->
  when - oc_created c <= TTL settings -> verify_pkce verifier (oc_challenge c) (u "S256") = Some true ->
  redeem settings (token_post code verifier redirect) when v
  = (inr {| rd_code := pk; rd_row := c; rd_verifier := verifier; rd_redirect := redirect |}, v).
Proof.
  intros Fc Un Rd T P. unfold redeem. destruct (token_post_fields code verifier redirect) as (-> & -> & -> & ->).
  unfold str_eqb at 1. rewrite (bool_decide_true (u "authorization_code" = _)) by done. cbn [negb]. rewrite Fc, Rd.
  assert (Sr : forall s, nonempty s && negb (str_eqb s s) = false) by (intros s; unfold str_eqb; rewrite bool_decide_true by done; apply andb_false_r).
  rewrite Sr, Un, P. rewrite bool_decide_false by (by intros [? ?]). by rewrite (proj2 (Z.ltb_ge _ _)) by lia.
Qed.

(** C23: A consent leaves a code that waits. Followed up in time, from where it was
    consented to and with the verifier of its challenge, while it still waits,
    it is read; claimed, while nobody else claimed it, it gets a key: whatever
    is asked before the reading and between the reading and the claim. The key
    is that of a token of the one who consented, with staff's level only for a
    member of staff, and opens that account at any time at which the token is
    not revoked or expired nor the account inactive; where nothing came in
    between, it is none of these while the account is active. *)
Theorem consent_becomes_a_key me post draws code now v url v1 verifier when w1 w2 later :
  kept v -> distinct v -> post_get (u "decision") post (u "deny") = u "allow" ->
  authorize settings (Some me) post draws code now v = (RedirectTo url, v1) ->
  verify_pkce verifier (post_get (u "code_challenge") post []) (u "S256") = Some true ->
  when <= now + TTL settings -> (forall raw, raw ∈ draws -> (PREFIX_LENGTH <= length raw)%nat) ->
  rtc exchange (opening v1) w1 ->
  waiting code v1
  /\ (waiting code (vault w1) ->
      exists d, redeem settings (token_post code verifier (post_get (u "redirect_uri") post [])) when (vault w1) = (inr d, vault w1)
        /\ (rtc exchange {| vault := vault w1; reading := d :: reading w1; handed := handed w1 |} w2 -> unclaimed d (vault w2) ->
            exists key scope v3 pk t,
              claim d later (vault w2) = (BearerToken key scope, v3)
              /\ token_at pk v3 = Some t /\ tk_user t = me /\ tk_hashed t = hash_key key
              /\ (tk_access t = u "readonly" \/ tk_access t = u "staff" /\ is_staff me v = true)
              /\ (vault w2 = v1 -> account_active me v = true -> forall at_, rejection_reason t at_ v3 = None)
              /\ ((forall pk' t', token_at pk' v3 = Some t' -> tk_hashed t' = hash_key key -> pk' = pk) ->
                  forall at_, rejection_reason t at_ v3 = None -> (authenticate key at_ v3).1 = Accepted me pk t))).
Proof.
  intros K Di Al E P T Dr R1. destruct (authorize_inv _ _ _ _ _ _ _ _ K Al E)
    as (raw & t & c & D & Fc & Un & Rk & Cr & Ch & Rd & Et & Ty & Us & Ac & Rv & Ex & Px & Hx & Lv & Uv & _).
  pose proof (Dr raw D) as L. assert (Nr : raw <> []) by (intros ->; cbn in L; unfold PREFIX_LENGTH in L; lia).
  pose proof (authorize_steps (Some me) post draws code now v) as S1. rewrite E in S1. cbn [snd] in S1.
  pose proof (authorize_distinct (Some me) post draws code now v Di) as D1. rewrite E in D1. cbn [snd] in D1.
  pose proof (exchanges_steps _ _ R1) as S2. pose proof (exchanges_distinct _ _ R1 D1) as D2. cbn [vault opening] in S2.
  pose proof (st_kept _ _ S1 K) as K1. apply first_where_some in Fc as Fc'. destruct Fc' as [Ec Cc].
  split; [exists (next_pk (codes v)), c; split_and!; congruence|]. intros (pk' & c1 & F1 & Un1 & Rk1).
  destruct (st_code _ _ S2 _ _ K1 Ec) as (c1' & Ec1 & ((Gc & Gu & Gt & Gr & Gch & Gs & Gcr) & Sk & _)).
  apply first_where_some in F1 as F1'. destruct F1' as [E1 C1]. unfold str_eqb in Cc, C1. apply bool_decide_eq_true in Cc, C1.
  assert (pk' = next_pk (codes v)) as -> by (apply (D2 _ c1 _ c1'); congruence). rewrite E1 in Ec1. injection Ec1 as <-.
  assert (Rc : oc_raw_key c1 = raw) by (destruct Sk; congruence).
  eexists. split; [apply (redeem_waiting _ _ _ _ _ (next_pk (codes v)) c1); [done|done|congruence|rewrite Gcr; lia|congruence]|].
  intros R2 (c2 & Ec2 & Un2). cbn [rd_code] in Ec2.
  pose proof (exchanges_steps _ _ R2) as S3. cbn [vault] in S3. assert (S4 : steps v1 (vault w2)) by (by transitivity (vault w1)).
  destruct (adv_token _ _ (st_advances _ _ S4) _ _ (proj1 K1) Et) as (t2 & Et2 & V1 & V2 & V3 & _ & V5 & _).
  destruct V5 as [V5 V6]; [right; congruence|].
  eexists raw, _, _, (next_pk (tokens v)), t2. unfold claim. cbn [rd_code rd_row]. rewrite Ec2, Un2, Rc.
  rewrite bool_decide_true by done. assert (N : nonempty raw = true) by (destruct raw; [by destruct (Nr eq_refl)|reflexivity]).
  rewrite N. split; [reflexivity|].
  split; [exact Et2|]. split_and!; [by rewrite V1|rewrite V6; exact Hx|by rewrite V3| |].
  - intros Ev A at_. rewrite Ev in Et2. rewrite Et in Et2. injection Et2 as <-. unfold rejection_reason, past_expiry.
    rewrite Rv, Ac, Ex, Us. unfold account_active, user_at in *. cbn. by rewrite Ev, Uv, A.
  - intros U at_ Rj. rewrite <- V1 in Us. rewrite <- V5 in Px. rewrite <- V6 in Hx. rewrite <- Us.
    match goal with |- (authenticate _ _ ?v3).1 = _ => pose proof (key_authenticates raw at_ v3 _ t2 L Et2 Px Hx U Rj) as X end.
    by rewrite X.
Qed.

(** ** Tools *)

Lemma mcp_authenticate_ok h now v user t v' :
  mcp_authenticate h now v = (Some (inr (user, t)), v') ->
  exists pk, startswith h BEARER = true /\ token_at pk v = Some t /\ tk_hashed t = hash_key (strip (drop 7 h))
    /\ user = tk_user t /\ rejection_reason t now v = None /\ v' = update_token pk (touch now) v.
Proof.
  unfold mcp_authenticate. intros E. destruct (startswith h BEARER); [|done]. repeat case_match; simplify_eq.
  match goal with H : authenticate _ _ _ = _ |- _ => apply authenticate_accepted in H as (_ & M & R & -> & ->) end.
  apply matching_at in M as (M & _ & Hh). eexists. split_and!; done.
Qed.

Lemma names_not_empty : [] <> u "staff" /\ [] <> u "auth".
Proof. by vm_compute. Qed.
Lemma tool_access_granted t td staff_view v :
  check_tool_access t td staff_view v = None ->
  (td_write td = true -> tk_access t <> u "readonly")
  /\ (td_requires td = Some (u "staff") -> is_staff (tk_user t) v = true)
  /\ (forall needed, td_requires td = Some needed -> level_rank needed <= level_rank (effective_level t (is_staff (tk_user t) v)))
  /\ (staff_view = true -> is_staff (tk_user t) v = true).
Proof.
  unfold check_tool_access. set (rest := if td_write td && _ then _ else _). intros E.
  assert (R : rest = None -> (td_write td = true -> tk_access t <> u "readonly") /\ (staff_view = true -> is_staff (tk_user t) v = true)).
  { unfold rest, str_eqb. intros X. split; intros Y; rewrite Y in X.
    - intros Z. rewrite Z, bool_decide_true in X by done. done.
    - destruct (is_staff _ _); [done|]. by destruct (_ && _). }
  destruct (td_requires td) as [needed|]; [|destruct (R E); split_and!; done].
  destruct (negb (nonempty needed)) eqn:N.
  - destruct (R E). apply negb_true_iff, nonempty_false in N. subst needed. split_and!; try done.
    intros needed [= <-]. destruct names_not_empty as [N1 N2]. unfold level_rank at 1, str_eqb. rewrite !bool_decide_false by done.
      unfold level_rank. repeat case_match; lia.
  - destruct (_ <? _) eqn:L; [done|]. destruct (str_eqb needed (u "staff") && _) eqn:St; [done|]. destruct (R E). split_and!; try done.
    + intros [= ->]. unfold str_eqb in St. rewrite bool_decide_true in St by done. by destruct (is_staff _ _).
    + intros needed' [= <-]. lia.
Qed.

(** C25: A tool answers only to the token whose key is in the header of the request,
    live, of an active account; one that writes, to none that is read-only; one
    for staff, to a member of staff as of now, whatever the token says; and one
    of a level, to a token of at least that level. It is the tool the request
    names, run on the arguments of the request, and what it answers is flagged
    as an error exactly when it is an object with an error in it. *)
Theorem tool_answers_to supported g body h now v rpc_id j is_error st v' :
  mcp_post supported g body h now v = (RpcAnswer rpc_id (OAuth.Content j is_error) st, v') ->
  exists payload params name td handler pk t,
    body = Some (JObj payload) /\ jget (u "method") payload = Some (JStr (u "tools/call"))
    /\ rpc_id = jget_null (u "id") payload
    /\ or_object (u "params") payload = JObj params /\ stripped (u "name") params = Some name
    /\ dict_get (TOOL_REGISTRY g) name = Some td /\ dict_get (TOOL_HANDLERS g) name = Some handler
    /\ handler (or_object (u "arguments") params) = Value j
    /\ startswith h BEARER = true /\ token_at pk v = Some t /\ tk_hashed t = hash_key (strip (drop 7 h))
    /\ rejection_reason t now v = None
    /\ (td_write td = true -> tk_access t <> u "readonly")
    /\ (td_requires td = Some (u "staff") -> is_staff (tk_user t) v = true)
    /\ (forall needed, td_requires td = Some needed -> level_rank needed <= level_rank (effective_level t (is_staff (tk_user t) v)))
    /\ (is_error = true <-> exists d, j = JObj d /\ is_Some (jget (u "error") d)).
Proof.
  unfold mcp_post, open_method. intros E. destruct body as [[| | | | | |payload]|]; try done.
  destruct (or_object (u "params") payload) as [| | | | | |params] eqn:Hp; try done.
  destruct (jget (u "method") payload) as [m|] eqn:Hm.
  2: { cbv beta delta [default from_option id] iota in E. destruct (if startswith [] _ then _ else _) as [a|] eqn:O; [repeat case_match; simplify_eq|].
       destruct (mcp_authenticate h now v) as [[[reason|[user t]]|] v1]; [done| |done].
       assert (N : str_eqb [] (u "tools/list") = false /\ str_eqb [] (u "tools/call") = false) by by_compute.
       destruct N as [N1 N2]. rewrite N1, N2 in E. congruence. }
  cbv beta delta [default from_option id] iota in E. destruct m as [| | | |method| |]; try done. destruct (if startswith method _ then _ else _) as [a|] eqn:O.
  { repeat case_match; simplify_eq. }
  destruct (mcp_authenticate h now v) as [[[reason|[user t]]|] v1] eqn:A; [done| |done].
  apply mcp_authenticate_ok in A as (pk & Sw & Et & Hh & -> & Rt & ->). injection E as E _. case_match; [done|]. case_match eqn:Mc; [|done].
  unfold str_eqb in Mc. apply bool_decide_eq_true in Mc. subst method.
  revert E. unfold tools_call. destruct (stripped (u "name") params) as [name|] eqn:Hn; [|done].
  destruct (dict_get (TOOL_REGISTRY g) name) as [td|] eqn:Td; [|done]. destruct (check_tool_access _ _ _ _) as [deny|] eqn:Ac; [done|].
  destruct (dict_get (TOOL_HANDLERS g) name) as [handler|] eqn:Th; [|done].
  destruct (handler _) as [j'|text] eqn:Hj; [|done]. intros [= <- <- <- _].
  apply tool_access_granted in Ac as (W & S & L & _). change (is_staff (tk_user t) (update_token pk (touch now) v)) with (is_staff (tk_user t) v) in *.
  exists payload, params, name, td, handler, pk, t. split_and!; try done. split.
  - destruct j'; try done. intros X%bool_decide_eq_true. eauto.
  - intros (d & -> & X). by apply bool_decide_eq_true.
Qed.
End Facts.

(** ** Sign-in codes *)

(** A verification under way: what it holds, and the code that was posted. *)
Definition Guess : Type := Attempt * pystr.

(** The codes, the verifications that read their row and those that spent an
    attempt, the code of each guess made, and the guesses that opened the
    door. *)
Record Door := {
  dr_codes : Table LoginCode;
  dr_reading : list Guess;
  dr_spent : list Guess;
  dr_guesses : list Z;
  dr_entries : list Guess;
}.
Definition closed_door : Door := {| dr_codes := empty_table; dr_reading := []; dr_spent := []; dr_guesses := []; dr_entries := [] |}.

Section Codes.
Context `{AuthLib} (cs : CodeSettings).

(** The accounts may be other ones at each visit. *)
Inductive visit (w : Door) : Door -> Prop :=
  | vi_request posted code now v :
      visit w {| dr_codes := (request_code cs posted code now v (dr_codes w)).2; dr_reading := dr_reading w; dr_spent := dr_spent w;
                 dr_guesses := dr_guesses w; dr_entries := dr_entries w |}
  | vi_read held email code now v a :
      begin_verify held email code now v (dr_codes w) = Some a ->
      visit w {| dr_codes := dr_codes w; dr_reading := (a, code) :: dr_reading w; dr_spent := dr_spent w;
                 dr_guesses := dr_guesses w; dr_entries := dr_entries w |}
  | vi_spend l1 g l2 now t :
      dr_reading w = l1 ++ g :: l2 -> spend g.1 now (dr_codes w) = (true, t) ->
      visit w {| dr_codes := t; dr_reading := l1 ++ l2; dr_spent := g :: dr_spent w;
                 dr_guesses := at_code g.1 :: dr_guesses w; dr_entries := dr_entries w |}
  | vi_none_left l1 g l2 now t :
      dr_reading w = l1 ++ g :: l2 -> spend g.1 now (dr_codes w) = (false, t) ->
      visit w {| dr_codes := t; dr_reading := l1 ++ l2; dr_spent := dr_spent w;
                 dr_guesses := dr_guesses w; dr_entries := dr_entries w |}
  | vi_enter l1 g l2 t :
      dr_spent w = l1 ++ g :: l2 -> consume g.1 (dr_codes w) = (true, t) ->
      visit w {| dr_codes := t; dr_reading := dr_reading w; dr_spent := l1 ++ l2;
                 dr_guesses := dr_guesses w; dr_entries := g :: dr_entries w |}
  | vi_wrong l1 g l2 t :
      dr_spent w = l1 ++ g :: l2 -> consume g.1 (dr_codes w) = (false, t) ->
      visit w {| dr_codes := t; dr_reading := dr_reading w; dr_spent := l1 ++ l2;
                 dr_guesses := dr_guesses w; dr_entries := dr_entries w |}.

Definition guesses_at (pk : Z) (l : list Z) : Z := zlen (filter (fun x => x = pk) l).
Definition attempts_at (pk : Z) (t : Table LoginCode) : Z := match rows t !! pk with Some c => lc_attempts c | None => 0 end.
(** A guess is at a code of its user's, knows its hash, and is at what was
    posted, but for the space around it. *)
Definition at_row (t : Table LoginCode) (g : Guess) : Prop :=
  (exists c, rows t !! at_code g.1 = Some c /\ lc_user c = at_user g.1 /\ lc_hash c = at_hash g.1) /\ at_raw g.1 = strip g.2.
Definition entered (t : Table LoginCode) (g : Guess) : Prop :=
  exists c, rows t !! at_code g.1 = Some c /\ lc_user c = at_user g.1 /\ lc_consumed c = true
    /\ check_code (strip g.2) (lc_hash c) = true.
Definition code_of (g : Guess) : Z := at_code g.1.

Record guarded (w : Door) : Prop := {
  gu_fresh : fresh (dr_codes w);
  gu_count pk : guesses_at pk (dr_guesses w) = attempts_at pk (dr_codes w) /\ attempts_at pk (dr_codes w) <= MAX_ATTEMPTS;
  gu_reading g : g ∈ dr_reading w -> at_row (dr_codes w) g;
  gu_spent g : g ∈ dr_spent w -> at_row (dr_codes w) g;
  gu_entries g : g ∈ dr_entries w -> entered (dr_codes w) g;
  gu_once : NoDup (code_of <$> dr_entries w);
}.

(** A row keeps its user and its hash, and stays consumed. *)
Definition code_kept (c c' : LoginCode) : Prop :=
  lc_user c' = lc_user c /\ lc_hash c' = lc_hash c /\ (lc_consumed c = true -> lc_consumed c' = true).
Definition rows_kept (t t' : Table LoginCode) : Prop :=
  forall pk c, rows t !! pk = Some c -> exists c', rows t' !! pk = Some c' /\ code_kept c c'.

Lemma at_row_kept t t' g : rows_kept t t' -> at_row t g -> at_row t' g.
Proof.
  intros K [(c & E & U & Hh) R]. split; [|done]. destruct (K _ _ E) as (c' & E' & U' & H' & _). exists c'. split_and!; congruence.
Qed.
Lemma entered_kept t t' g : rows_kept t t' -> entered t g -> entered t' g.
Proof.
  intros K (c & E & U & C & X). destruct (K _ _ E) as (c' & E' & U' & H' & C'). exists c'. rewrite H'.
  split_and!; try done; [congruence|auto].
Qed.
Lemma rows_kept_update pk f t : (forall c, rows t !! pk = Some c -> code_kept c (f c)) -> rows_kept t (update_row pk f t).
Proof.
  intros Hf k c E. rewrite lookup_update. case_decide; [subst|]; rewrite E; cbn; eexists; (split; [done|]); [auto|by split_and!].
Qed.

(** A step that keeps the rows and accounts for its guesses. *)
Lemma guarded_step w t rd sp g :
  guarded w -> rows_kept (dr_codes w) t -> fresh t ->
  (forall a, a ∈ rd -> a ∈ dr_reading w \/ at_row t a) -> (forall a, a ∈ sp -> a ∈ dr_spent w \/ a ∈ dr_reading w) ->
  (forall pk, guesses_at pk g = attempts_at pk t /\ attempts_at pk t <= MAX_ATTEMPTS) ->
  guarded {| dr_codes := t; dr_reading := rd; dr_spent := sp; dr_guesses := g; dr_entries := dr_entries w |}.
Proof.
  intros [F C R S E O] K F' HR HS HC. split; cbn; try done.
  - intros a [I|I]%HR; eauto using at_row_kept.
  - intros a [I|I]%HS; eauto using at_row_kept.
  - intros e I. eauto using entered_kept.
Qed.

Lemma issue_attempts user code now t pk : fresh t -> attempts_at pk (issue cs user code now t) = attempts_at pk t.
Proof.
  intros F. unfold attempts_at, issue. cbn. destruct (decide (pk = next_pk t)) as [->|N].
  - rewrite lookup_insert_eq. destruct (rows t !! next_pk t) eqn:E; [|done]. specialize (F _ _ E). lia.
  - by rewrite lookup_insert_ne by done.
Qed.

Lemma guesses_cons pk x l : guesses_at pk (x :: l) = (if decide (x = pk) then 1 else 0) + guesses_at pk l.
Proof. unfold guesses_at. rewrite filter_cons. case_decide; unfold zlen; cbn [length]; lia. Qed.

Lemma request_guarded w posted code now v : guarded w ->
  guarded {| dr_codes := (request_code cs posted code now v (dr_codes w)).2; dr_reading := dr_reading w; dr_spent := dr_spent w;
             dr_guesses := dr_guesses w; dr_entries := dr_entries w |}.
Proof.
  intros G. assert (D : (request_code cs posted code now v (dr_codes w)).2 = dr_codes w
    \/ exists user, (request_code cs posted code now v (dr_codes w)).2 = issue cs user code now (dr_codes w)).
  { unfold request_code. repeat case_match; cbn [snd]; eauto. }
  destruct D as [->|[user ->]]; [by destruct w|]. apply guarded_step; try done.
  - intros pk c E. exists c. split; [|by split_and!]. by apply insert_row_old; [apply G|].
  - apply fresh_insert, G.
  - auto.
  - auto.
  - intros pk. rewrite issue_attempts by apply G. apply G.
Qed.

Lemma begin_verify_row held email code now v t a : begin_verify held email code now v t = Some a -> at_row t (a, code).
Proof.
  unfold begin_verify. destruct (account_of _ v) as [[user x]|]; [|done]. cbn [mbind option_bind]. case_match; [done|].
  destruct (merge_sort _ _) as [|[pk c] l] eqn:S; [done|]. cbn [head mbind option_bind]. case_match; [|done]. intros [= <-].
  assert (I : (pk, c) ∈ (pk, c) :: l) by (apply elem_of_cons; by left). rewrite <- S, merge_sort_Permutation in I.
  apply where_elem in I as [I [U _]%andb_true_iff]. split; [|done]. exists c. cbn. split_and!; [done|by apply Z.eqb_eq|done].
Qed.

Lemma spend_true a now t t' : spend a now t = (true, t') ->
  exists c, rows t !! at_code a = Some c /\ lc_attempts c < MAX_ATTEMPTS
    /\ t' = update_row (at_code a) (fun c => c <| lc_attempts := lc_attempts c + 1 |>) t.
Proof.
  unfold spend. destruct (rows t !! at_code a) as [c|]; [|done]. case_match eqn:L; [|done]. intros [= <-]. exists c.
  unfold is_live in L. split_and!; try done. lia.
Qed.
Lemma spend_false a now t t' : spend a now t = (false, t') -> t' = t.
Proof. unfold spend. repeat case_match; naive_solver. Qed.
Lemma consume_true a t t' : consume a t = (true, t') ->
  check_code (at_raw a) (at_hash a) = true /\ exists c, rows t !! at_code a = Some c /\ lc_consumed c = false
    /\ t' = update_row (at_code a) (fun c => c <| lc_consumed := true |>) t.
Proof.
  unfold consume. case_match eqn:C; [done|]. apply negb_false_iff in C. destruct (rows t !! at_code a) as [c|]; [|done].
  case_match; [done|]. intros [= <-]. eauto.
Qed.
Lemma consume_false a t t' : consume a t = (false, t') -> t' = t.
Proof. unfold consume. repeat case_match; naive_solver. Qed.

Lemma visit_guarded w w' : visit w w' -> guarded w -> guarded w'.
Proof.
  intros V G. destruct V as [posted code now v|held email code now v a E|l1 [a p] l2 now t Er E|l1 [a p] l2 now t Er E|l1 [a p] l2 t Er E|l1 [a p] l2 t Er E].
  - by apply request_guarded.
  - apply guarded_step; try done; [by intros ? ? ?; eexists|apply G| |auto|apply G].
    intros a' [->|I]%elem_of_cons; [right; by eapply begin_verify_row|by left].
  - cbn [fst] in E |- *. apply spend_true in E as (c & Ec & L & ->). apply guarded_step; try done.
    + apply rows_kept_update. intros c' _. by split_and!.
    + apply fresh_update, G.
    + intros a' I. left. rewrite Er. set_solver.
    + intros a' [->|I]%elem_of_cons; [right; rewrite Er; set_solver|by left].
    + intros pk. rewrite guesses_cons. destruct (gu_count _ G pk) as [C B]. rewrite C. unfold attempts_at in *. rewrite lookup_update.
      destruct (decide (pk = at_code a)) as [->|N]; [rewrite decide_True, Ec by done; rewrite Ec in B; cbn; lia|].
      rewrite decide_False by done. lia.
  - apply spend_false in E as ->. apply guarded_step; try done; [by intros ? ? ?; eexists|apply G| |auto|apply G].
    intros a' I. left. rewrite Er. set_solver.
  - apply consume_true in E as (X & c & Ec & N & ->). pose proof (gu_spent _ G (a, p) ltac:(rewrite Er; set_solver)) as [(c0 & E0 & U & Hh) Hp].
    cbn [fst snd] in *. rewrite Ec in E0. injection E0 as <-. set (t := update_row _ _ _).
    assert (K : rows_kept (dr_codes w) t) by (apply rows_kept_update; intros; by split_and!).
    assert (G' : guarded {| dr_codes := t; dr_reading := dr_reading w; dr_spent := l1 ++ l2;
                            dr_guesses := dr_guesses w; dr_entries := dr_entries w |}).
    { apply guarded_step; try done; [apply fresh_update, G|auto|intros a' I; left; rewrite Er; set_solver|].
      intros pk. destruct (gu_count _ G pk) as [C B]. unfold t, attempts_at in *. rewrite lookup_update.
      case_decide; [subst; rewrite Ec in *; cbn; done|done]. }
    destruct G' as [F C R S En O]. split; cbn [dr_codes dr_reading dr_spent dr_guesses dr_entries] in *; try done.
    + intros e [->|I]%elem_of_cons; [|auto]. eexists. cbn [fst snd]. split; [by apply update_row_hit|].
      cbn. rewrite Hh, <- Hp. split_and!; done.
    + rewrite fmap_cons. apply NoDup_cons. split; [|done]. intros (g & Ep & I)%list_elem_of_fmap. unfold code_of in Ep. cbn in Ep.
      destruct (gu_entries _ G _ I) as (c' & E' & _ & C' & _). rewrite <- Ep in E'. congruence.
  - apply consume_false in E as ->. apply guarded_step; try done; [by intros ? ? ?; eexists|apply G|auto| |apply G].
    intros a' I. left. rewrite Er. set_solver.
Qed.

(** C24: However the statements of sign-ins fall among each other, with requests for
    codes in between: a code is guessed at five times at most, opens the door
    once at most, and only to its own user, and only where the text that was
    posted, without the space around it, passes the check against its hash. *)
Theorem codes_are_guarded w :
  rtc visit closed_door w ->
  (forall pk, guesses_at pk (dr_guesses w) <= MAX_ATTEMPTS) /\ NoDup (code_of <$> dr_entries w)
  /\ forall a posted, (a, posted) ∈ dr_entries w ->
       exists c, rows (dr_codes w) !! at_code a = Some c /\ lc_user c = at_user a /\ lc_consumed c = true
         /\ check_code (strip posted) (lc_hash c) = true.
Proof.
  intros V. assert (G : guarded w).
  { assert (G0 : guarded closed_door).
    { split; cbn; try (by intros ? ?%elem_of_nil); [by intros ? ? ?|by intros pk|by apply NoDup_nil]. }
    remember closed_door as w0. clear Heqw0. induction V; eauto using visit_guarded. }
  split_and!; [|apply G|].
  - intros pk. destruct (gu_count _ G pk) as [-> B]. done.
  - intros a posted I. apply (gu_entries _ G _ I).
Qed.
End Codes.
