(* ===== verification/TokensDemo.v ===== *)
(** * Accounts, tokens and exchanges on concrete inputs

    A server of two accounts, and every property of the tokens applied there;
    and what the code does that it does not mean to. *)
From Stdlib Require Import SpecFloat.
From stdpp Require Import sorting relations.
From S2P Require Import Prelude PyFloat PyStr PyLib Json Tables Tokens TokensFacts OAuth OAuthFacts.
Open Scope Z_scope.

Module TokensDemo.

#[export] Instance demo_lib : AuthLib := {|
  make_password s := u "#" ++ s;
  check_password j hash := match j with JStr s => str_eqb hash (u "#" ++ s) | _ => false end;
  password_errors _ _ := [];
  normalize_email s := s;
  same_text s q := str_eqb (lower s) (lower q);
  text_contains s q := contains (lower q) (lower s);
  text_of _ := [];
  urlparse s := if startswith s (u "https://") then Some {| pr_scheme := u "https"; pr_netloc := drop 8 s; pr_hostname := None |} else None;
  urlencode l := join (u "&") ((fun x => x.1 ++ u "=" ++ x.2) <$> l);
|}.
Definition demo_settings : AuthSettings := {|
  LOGIN_TOKEN_EXPIRY_HOURS := 24; LOGIN_TOKEN_MAX_HOURS := 720; API_REGISTER_ENABLED := true;
  MCP_OAUTH_CODE_TTL_SECONDS := 600; MCP_TOKEN_NAME_PREFIX := u "MCP" |}.

(** Ada is a superuser, Bob has no role. *)
Definition ada : User := {| us_username := u "ada"; us_email := Some (u "ada@example.org"); us_first_name := []; us_last_name := [];
  us_staff := true; us_superuser := true; us_active := true; us_password := u "#secret" |}.
Definition bob : User := {| us_username := u "bob"; us_email := None; us_first_name := []; us_last_name := [];
  us_staff := false; us_superuser := false; us_active := true; us_password := u "#hunter2" |}.
Definition start : Vault := no_vault <| users := (insert_row bob (insert_row ada empty_table).2).2 |>.

(** Ada mints herself a token that manages users. *)
Definition ADMIN_KEY : pystr := Eval vm_compute in u "admin-key-1".
Definition admin_form : TokenForm :=
  {| tf_user := Some 1; tf_name := u "admin"; tf_description := []; tf_access := u "auth"; tf_expires := Some None |}.
Definition minted : Vault := (token_create 7 (Some 1) admin_form [ADMIN_KEY] 0 start).2.
Definition json_post (auth : pystr) (d : jobj) : Request :=
  {| rq_method := u "POST"; rq_auth := auth; rq_session := None; rq_content := JsonBody (JObj d) |}.

(** Bob signs in. *)
Definition BOB_KEY : pystr := Eval vm_compute in u "bobs-key-01".
Definition bob_login : Request := json_post [] [(u "username", JStr (u "bob")); (u "password", JStr (u "hunter2"))].
Definition bob_json : UserJson := {| uj_id := 2; uj_username := u "bob"; uj_email := None; uj_staff := false; uj_extended := None |}.
Definition signed_in : Vault := (api_auth_token demo_settings bob_login true false [BOB_KEY] 1000 minted).2.
Definition bob_until : Z := 1000 + 24 * HOUR.

(** What the rows of a table, of which there are few, satisfy. *)
Lemma sound_by v : map_Forall (fun pk t => pk < next_pk (tokens v) /\ lawful t) (rows (tokens v)) -> sound v.
Proof. intros F. split; intros pk t E; by apply (F pk t E). Qed.
Lemma unhashed_by v raw :
  map_Forall (fun _ t => tk_hashed t <> hash_key raw) (rows (tokens v)) -> forall pk t, token_at pk v = Some t -> tk_hashed t <> hash_key raw.
Proof. intros F. exact F. Qed.
#[export] Instance lawful_dec t : Decision (lawful t).
Proof. unfold lawful. apply _. Defined.

Lemma minted_sound : sound minted.
Proof. apply sound_by. by_compute. Qed.

(** Bob's key is used, and Ada's list of accounts is asked for, in between. *)
Definition lookers : list (Reading * Z) :=
  [(ReadMe (bearing (u "GET") BOB_KEY), 2000); (ReadUsers (bearing (u "GET") ADMIN_KEY) [] None None, 3000)].
Lemma login_opens_the_account_witness :
  (api_auth_me (bearing (u "GET") BOB_KEY) bob_until (reads_from signed_in lookers)).1 = TheUser bob_json.
Proof.
  apply (login_opens_the_account demo_settings bob_login true false [BOB_KEY] 1000 minted 200 BOB_KEY bob_json bob_until signed_in
           lookers bob_until minted_sound); [done|by vm_compute|apply unhashed_by; by_compute|by_compute|lia].
Defined.

Lemma mints_within_role_witness :
  exists me t raw, Some 1 = Some me /\ token_at 1 minted = Some t /\ tk_type t = ManualToken /\ hash_key raw = tk_hashed t.
Proof.
  destruct (mints_within_role 7 (Some 1) admin_form [ADMIN_KEY] 0 start 1 minted) as (me & t & raw & ? & ? & ? & _ & _ & _ & ? & _);
    [by vm_compute|]. exists me, t, raw. done.
Defined.

(** A staff view, asked with Ada's token. *)
Definition staff_view : ViewOptions := {| vo_methods := [u "GET"; u "POST"]; vo_auth := true; vo_staff := true; vo_auth_token := true |}.
Definition admin_post : Request := json_post (BEARER ++ ADMIN_KEY) [].
Definition admin_token : APIToken := default (new_token 0 [] [] [] [] None LoginToken [] 0) (token_at 1 minted).
Definition admin_touched : Vault := update_token 1 (touch 5) minted.
Lemma gate_admits_witness : account_active 1 minted = true /\ is_valid admin_token 5 = true.
Proof.
  destruct (gate_admits staff_view admin_post 5 minted (1, Some (1, admin_token)) (Some (JObj [])) admin_touched eq_refl)
    as (A & _ & _ & _ & V & _); [by vm_compute|]. split; [exact A|exact V].
Defined.

Lemma pages_are_the_list_witness :
  mjoin ((fun k => (paginate (Some (dec k)) (Some (u "2")) [1; 2; 3; 4; 5] 25).1) <$> seqZ 1 3) = [1; 2; 3; 4; 5].
Proof. apply (pages_are_the_list [1; 2; 3; 4; 5] None (Some (u "2")) 25). lia. Defined.

(** Bob consents to a client, with the verifier and the challenge that RFC 7636
    gives as its example. *)
Definition VERIFIER : pystr := Eval vm_compute in u "dBjftJeZ4CVP-mB92K27uhbUJU1p1r_wW1gFWFOEjXk".
Definition OAUTH_KEY : pystr := Eval vm_compute in u "oauth-key-1".
Definition consent : list (pystr * pystr) :=
  [(u "client_id", u "mcp_1"); (u "redirect_uri", u "https://client/cb"); (u "scope", u "read write"); (u "decision", u "allow");
   (u "code_challenge", u "E9Melhoa2OwvFrEMTJguCHaoeK1t8URWbuGJSstw-cM")].
Definition consented : Vault := call demo_settings (Authorize (Some 2) consent [OAUTH_KEY] (u "code-1")) 2000 minted.
Definition redemption : list (pystr * pystr) := token_post (u "code-1") VERIFIER (u "https://client/cb").
Definition granted : OAuthAuthorizationCode :=
  {| oc_code := u "code-1"; oc_user := 2; oc_token := 2; oc_raw_key := OAUTH_KEY; oc_redirect := u "https://client/cb";
     oc_challenge := u "E9Melhoa2OwvFrEMTJguCHaoeK1t8URWbuGJSstw-cM"; oc_scope := u "read write"; oc_client := u "mcp_1";
     oc_created := 2000; oc_used := None |}.
Definition reader : Redemption :=
  {| rd_code := 1; rd_row := granted; rd_verifier := VERIFIER; rd_redirect := u "https://client/cb" |}.
Definition claimed : Vault := (claim reader 3000 consented).2.

Example rfc_7636 : verify_pkce VERIFIER (oc_challenge granted) (u "S256") = Some true.
Proof. vm_compute. reflexivity. Qed.

Lemma minted_kept : kept minted.
Proof. split_and!; [apply minted_sound|by intros ? ? ?|by intros ? ? ?]. Qed.

(** The clock of another request goes on while the redemption is between its
    statements. *)
Definition halfway : World := {| vault := consented; reading := [reader]; handed := [] |}.
Definition later_world : World :=
  {| vault := call demo_settings (Me (bearing (u "GET") ADMIN_KEY)) 600002000 consented; reading := [reader]; handed := [] |}.
Lemma consent_becomes_a_key_witness :
  waiting (u "code-1") consented
  /\ exists key scope v3 pk t, claim reader 0 (vault later_world) = (BearerToken key scope, v3)
       /\ tk_user t = 2 /\ tk_hashed t = hash_key key /\ token_at pk v3 = Some t.
Proof.
  assert (R1 : rtc (exchange demo_settings) (opening consented) (opening consented)) by apply rtc_refl.
  assert (D : distinct minted) by (by intros ? ? ? ?).
  destruct (consent_becomes_a_key demo_settings 2 consent [OAUTH_KEY] (u "code-1") 2000 minted
           (u "https://client/cb?code=code-1&state=") consented VERIFIER 600002000 (opening consented) later_world 0 minted_kept D)
    as [W H]; [by vm_compute|by vm_compute|by vm_compute|done|intros raw ->%list_elem_of_singleton; by_compute|exact R1|].
  split; [exact W|]. destruct (H W) as (d & E & H2).
  assert (E' : redeem demo_settings (token_post (u "code-1") VERIFIER (post_get (u "redirect_uri") consent [])) 600002000
                 (vault (opening consented)) = (inr reader, vault (opening consented))) by (by vm_compute).
  pose proof (f_equal (fun x => match x.1 with inr d => d | inl _ => reader end) (eq_trans (eq_sym E) E')) as Ed. cbn [fst] in Ed. subst d.
  destruct H2 as (key & scope & v3 & pk & t & C & Et & Us & Hh & _).
  - apply rtc_once. exact (ex_call demo_settings halfway (Me (bearing (u "GET") ADMIN_KEY)) 600002000).
  - exists granted. split; vm_compute; reflexivity.
  - exists key, scope, v3, pk, t. split_and!; [exact C|exact Us|exact Hh|exact Et].
Defined.

(** Two redemptions of the code read its row, then one claims it. *)
Definition both : World := {| vault := consented; reading := [reader; reader]; handed := [] |}.
Definition one_left : World := {| vault := claimed; reading := [reader]; handed := [(reader, OAUTH_KEY)] |}.
Definition none_left : World := {| vault := claimed; reading := []; handed := [(reader, OAUTH_KEY)] |}.
Lemma redeemed : rtc (exchange demo_settings) (opening minted) none_left.
Proof.
  eapply rtc_l; [apply (ex_call _ _ (Authorize (Some 2) consent [OAUTH_KEY] (u "code-1")) 2000)|].
  eapply rtc_l; [apply (ex_read _ _ redemption 2500 reader consented); by vm_compute|].
  eapply rtc_l; [apply (ex_read _ _ redemption 2600 reader consented); by vm_compute|].
  eapply rtc_l; [apply (ex_hand _ both [] reader [reader] 3000 OAUTH_KEY (u "read write") claimed); by vm_compute|].
  eapply rtc_l; [apply (ex_late _ one_left [] reader [] 3000 (InvalidGrant (u "Code already used")) claimed); by vm_compute|].
  apply rtc_refl.
Qed.
Lemma code_redeemed_once_witness :
  NoDup [1] /\ exists c, rows (codes claimed) !! 1 = Some c /\ oc_raw_key c = [] /\ backed (oc_user c) (oc_token c) OAUTH_KEY claimed.
Proof.
  destruct (code_redeemed_once demo_settings minted none_left minted_sound eq_refl redeemed) as [N C]. split; [exact N|].
  destruct (C reader OAUTH_KEY) as (c & E & _ & K & _ & _ & B); [by apply list_elem_of_singleton|]. exists c. done.
Defined.

(** Ada deactivates Bob; Bob is made active again. *)
Definition admin (method : pystr) (d : jobj) : Request :=
  {| rq_method := method; rq_auth := BEARER ++ ADMIN_KEY; rq_session := None; rq_content := JsonBody (JObj d) |}.
Definition offboarded : Vault := (api_auth_user_deactivate (admin (u "POST") []) 2 5000 signed_in).2.
Definition patch : Request := admin (u "PATCH") [(u "is_active", JBool true)].
Definition reactivated : Vault := call demo_settings (UserDetail patch 2) 6000 offboarded.
Definition bob_token : APIToken := default admin_token (token_at 2 signed_in).
Lemma signed_in_kept : kept signed_in.
Proof. split_and!; [apply sound_by; by_compute|by intros ? ? ?|by intros ? ? ?]. Qed.
Lemma offboarding_is_final_witness : account_active 2 reactivated = true /\ (authenticate BOB_KEY 7000 reactivated).1 <> Accepted 2 2 bob_token.
Proof.
  split; [by vm_compute|].
  refine (proj2 (proj2 (offboarding_is_final demo_settings (admin (u "POST") []) 2 5000 (opening signed_in) offboarded 2 bob_token
           {| vault := reactivated; reading := []; handed := [] |} BOB_KEY 7000 2 bob_token signed_in_kept _ _ _ _)));
    [by vm_compute|by vm_compute|by vm_compute|].
  apply rtc_once. exact (ex_call demo_settings {| vault := offboarded; reading := []; handed := [] |} (UserDetail patch 2) 6000).
Defined.

(** A tool for staff that writes. *)
Definition stamp : ToolDef := {| td_name := u "stamp"; td_write := true; td_requires := Some (u "auth"); td_visible := None |}.
Definition registry : Registry := register_tool stamp (fun j => Value (JObj [(u "stamped", j)])) {| TOOL_REGISTRY := []; TOOL_HANDLERS := [] |}.
Definition stamp_call : json :=
  JObj [(u "id", JInt 1); (u "method", JStr (u "tools/call"));
        (u "params", JObj [(u "name", JStr (u "stamp")); (u "arguments", JObj [])])].
Lemma tool_answers_to_witness :
  exists pk t, token_at pk minted = Some t /\ tk_hashed t = hash_key (strip (drop 7 (BEARER ++ ADMIN_KEY))).
Proof.
  destruct (tool_answers_to [u "2025-06-18"] registry (Some stamp_call) (BEARER ++ ADMIN_KEY) 5 minted (JInt 1)
              (JObj [(u "stamped", JObj [])]) false 200 admin_touched) as (payload & params & name & td & handler & pk & t & _ & _ & _ & _ & _ & _ & _ & _ & _ & Et & Eh & _);
    [by vm_compute|]. exists pk, t. split; [exact Et|exact Eh].
Defined.

(** Ada has a code sent, and enters with it. *)
Definition code_settings : CodeSettings :=
  {| SMALLSTACK_PASSWORDLESS_LOGIN := true; SMALLSTACK_LOGIN_CODE_TTL := 600; SMALLSTACK_LOGIN_CODES_PER_HOUR := 5 |}.
Definition sent : Table LoginCode := (request_code code_settings (u " Ada@example.org") (u "123456") 0 start empty_table).2.
Definition guess : Attempt := {| at_code := 1; at_hash := u "#123456"; at_raw := u "123456"; at_user := 1 |}.
Definition counted : Table LoginCode := (spend guess 9 sent).2.
Definition entered_by : Table LoginCode := (consume guess counted).2.
Definition inside : Door := {| dr_codes := entered_by; dr_reading := []; dr_spent := []; dr_guesses := [1]; dr_entries := [(guess, u "123456 ")] |}.
Lemma walked_in : rtc (visit code_settings) closed_door inside.
Proof.
  eapply rtc_l; [apply (vi_request _ _ (u " Ada@example.org") (u "123456") 0 start)|].
  eapply rtc_l; [apply (vi_read _ _ None (u "ada@example.org") (u "123456 ") 5 start guess); by vm_compute|].
  eapply rtc_l; [apply (vi_spend _ _ [] (guess, u "123456 ") [] 9 counted); by vm_compute|].
  eapply rtc_l; [apply (vi_enter _ _ [] (guess, u "123456 ") [] entered_by); by vm_compute|].
  apply rtc_refl.
Qed.
Lemma codes_are_guarded_witness :
  guesses_at 1 [1] <= MAX_ATTEMPTS
  /\ exists c, rows (dr_codes inside) !! 1 = Some c /\ lc_user c = 1 /\ check_code (strip (u "123456 ")) (lc_hash c) = true.
Proof.
  destruct (codes_are_guarded code_settings inside walked_in) as (G & _ & En). split; [exact (G 1)|].
  destruct (En guess (u "123456 ")) as (c & E & Us & _ & C); [by apply list_elem_of_singleton|].
  exists c. split; [exact E|]. split; [exact Us|exact C].
Defined.

(** ** What the code does not mean to do *)

(** A JSON-RPC method that is no text raises before anyone is authenticated. *)
Lemma method_no_text_raises now v : (mcp_post [] registry (Some (JObj [(u "method", JInt 5)])) [] now v).1 = Http500.
Proof. reflexivity. Qed.

(** A redemption that read its row in time and claims it after the code was
    expired is handed the key of a token that was just revoked. *)
Definition expired : Vault := expire_unredeemed_codes demo_settings 600002001 consented.
Lemma dead_key_handed_out :
  (claim reader 600002002 expired).1 = BearerToken OAUTH_KEY (u "read write")
  /\ match (authenticate OAUTH_KEY 600002003 expired).1 with Rejected 2 _ REJECT_REVOKED => True | _ => False end.
Proof. by vm_compute. Qed.

(** The page that shows a key once shows the last one made in the session, as
    the key of whichever token is asked about. *)
Definition ci_form : TokenForm := {| tf_user := Some 1; tf_name := u "ci"; tf_description := []; tf_access := u "readonly"; tf_expires := Some None |}.
Lemma key_shown_for_another_token :
  (token_reveal 7 (Some 1) 1 (token_create 7 (Some 1) ci_form [BOB_KEY] 1 minted).2).1 = Revealed 1 BOB_KEY.
Proof. by vm_compute. Qed.

(** A superuser who lost every role makes themselves staff again with the token
    minted before. *)
Definition demoted : Vault := update_user 1 (fun x => x <| us_staff := false |> <| us_superuser := false |>) minted.
Lemma demoted_promotes_itself :
  is_staff 1 (api_auth_user_detail (admin (u "PATCH") [(u "is_staff", JBool true)]) 1 5 demoted).2 = true.
Proof. by vm_compute. Qed.

(** A read-only token changes its user's password. *)
Definition read_only : Vault := (token_create 7 (Some 1) ci_form [BOB_KEY] 1 start).2.
Lemma read_only_changes_password :
  let '(a, v) := api_auth_password (json_post (BEARER ++ BOB_KEY)
                   [(u "current_password", JStr (u "secret")); (u "new_password", JStr (u "other"))]) 5 read_only in
  a = Message (u "Password updated") /\ (us_password <$> user_at 1 v) = Some (u "#other").
Proof. by vm_compute. Qed.

(** A password that is no text, for a name there is not, an address that is
    taken, and a lifetime without end are not answered but raise. *)
Lemma number_for_nobody_raises :
  (api_auth_token demo_settings (json_post [] [(u "username", JStr (u "eve")); (u "password", JInt 5)]) true false [BOB_KEY] 5 minted).1 = Raised.
Proof. by vm_compute. Qed.
Lemma taken_address_raises :
  (api_auth_register demo_settings
     (admin (u "POST") [(u "username", JStr (u "eve")); (u "password", JStr (u "x")); (u "email", JStr (u "ada@example.org"))])
     [BOB_KEY] 5 minted).1 = Raised.
Proof. by vm_compute. Qed.
Lemma endless_login_raises :
  (api_auth_token demo_settings (json_post [] [(u "username", JStr (u "bob")); (u "password", JStr (u "hunter2"));
     (u "expires_hours", JFloat (S754_infinity false))]) true false [BOB_KEY] 5 minted).1 = Raised.
Proof. by vm_compute. Qed.
End TokensDemo.
