(* ===== verification/StationApi.v ===== *)
(** * api.py, views.py and models.py: the station's endpoints and rows

    The requests an operator sends about what the station keeps for them: the
    log and its edit forms, the credentials, the photos of the rigs, the
    receiver, the surveys of the antennas and the live tape. A handler takes
    the parts of the station it touches and returns its answer, or the way it
    failed, with the parts it leaves. [serve] is one request on the whole
    station. *)
From stdpp Require Import sorting.
From S2P Require Import Prelude PyFloat PyStr Json Regex PyTime PyLib Tables Bridge Credentials Logbook Sync Radio RadioDaemon BandScan.
Open Scope Z_scope.

Definition not_an_object : Failure := ApiError (u "Expected a JSON object") 400.

(** ** What the handlers use of the standard library *)

(** [os.path.splitext] *)
Definition splitext (p : pystr) : pystr * pystr :=
  let base := rev (span (fun c => negb (c =? 47)) (rev p)).1 in
  let name := (span (fun c => c =? 46) base).2 in
  let '(ext, stem) := span (fun c => negb (c =? 46)) (rev name) in
  match stem with
  | [] => (p, [])
  | _ => (take (length p - length ext - 1) p, 46 :: rev ext)
  end.

(** [bytes.decode("utf-8", "replace")]: what a first byte begins, as the
    characters it gives at once, the ranges the bytes after it must lie in and
    the bits so far. *)
Definition utf8_start (b : Z) : pystr * list (Z * Z) * Z :=
  let cont := (128, 191) in
  if b <? 128 then ([b], [], 0)
  else if within 194 b 223 then ([], [cont], b - 192)
  else if b =? 224 then ([], [(160, 191); cont], b - 224)
  else if b =? 237 then ([], [(128, 159); cont], b - 224)
  else if within 225 b 239 then ([], [cont; cont], b - 224)
  else if b =? 240 then ([], [(144, 191); cont; cont], b - 240)
  else if within 241 b 243 then ([], [cont; cont; cont], b - 240)
  else if b =? 244 then ([], [(128, 143); cont; cont], b - 240)
  else ([65533], [], 0).

Fixpoint utf8_replace (need : list (Z * Z)) (acc : Z) (bs : list Z) : pystr :=
  match bs with
  | [] => match need with [] => [] | _ => [65533] end
  | b :: r =>
      match need with
      | [] => let '(out, need, acc) := utf8_start b in out ++ utf8_replace need acc r
      | (lo, hi) :: need =>
          if within lo b hi then
            let acc := acc * 64 + (b - 128) in
            match need with [] => acc :: utf8_replace [] 0 r | _ => utf8_replace need acc r end
          else let '(out, need, acc) := utf8_start b in 65533 :: out ++ utf8_replace need acc r
      end
  end.
Definition decode_replace (bs : list Z) : pystr := utf8_replace [] 0 bs.

(** Of an [UploadedFile], the name and the size may be missing. *)
Record Upload := { up_name : option pystr; up_size : option Z; up_data : list Z }.

(** ** The live tape *)

(** [live_group_name] *)
Definition live_group_name (user : Z) : pystr := u "cw-live-" ++ str_of_Z user.

Definition MAX_BATCH_BYTES : Z := 256 * 1024.

(** The group a batch is sent to, with its payload; [layer] tells whether a
    channel layer is configured. *)
Definition live_ingest (layer : bool) (user body_len : Z) (payload : json) : result Failure (pystr * json) :=
  match payload with
  | JObj _ =>
      if MAX_BATCH_BYTES <? body_len then Err (ApiError (u "Batch too large") 413)
      else if negb layer then Err (ApiError (u "Channel layer not configured") 503)
      else Ok (live_group_name user, payload)
  | _ => Err not_an_object
  end.

(** The open tabs, by channel, with the group each has joined. *)
Notation Tabs := (gmap Z pystr).

(** [LiveTapeConsumer.connect]: no user, no group. *)
Definition tape_connect (channel : Z) (user : option Z) (tabs : Tabs) : Tabs :=
  match user with None => tabs | Some user => <[channel := live_group_name user]> tabs end.
Definition tape_disconnect (channel : Z) (tabs : Tabs) : Tabs := delete channel tabs.
(** [cw_batch]: the tabs of the group are sent the payload. *)
Definition cw_batch (group : pystr) (payload : json) (tabs : Tabs) : list (Z * json) :=
  (fun channel => (channel, payload)) <$> (map_to_list (filter (fun x => x.2 = group) tabs)).*1.

(** ** Credentials *)

Record QrzRow := { qr_username : pystr; qr_password : pystr; qr_session_key : pystr; qr_logbook_key : pystr }.
#[export] Instance eta_qrz_row : Eta QrzRow := fun r =>
  Build_QrzRow (qr_username r) (qr_password r) (qr_session_key r) (qr_logbook_key r).
Record EqslRow := { eq_username : pystr; eq_password : pystr }.
#[export] Instance eta_eqsl_row : Eta EqslRow := fun r => Build_EqslRow (eq_username r) (eq_password r).

Definition no_qrz : QrzRow := {| qr_username := []; qr_password := []; qr_session_key := []; qr_logbook_key := [] |}.
Definition no_eqsl : EqslRow := {| eq_username := []; eq_password := [] |}.

(** The keys, the two tables by operator, and the world outside. *)
Record Desk (K X : Type) := {
  dk_keys : KeyStore K;
  dk_qrz : gmap Z QrzRow;
  dk_eqsl : gmap Z EqslRow;
  dk_out : X;
}.
Arguments Build_Desk {K X} _ _ _ _.
Arguments dk_keys {K X} _.
Arguments dk_qrz {K X} _.
Arguments dk_eqsl {K X} _.
Arguments dk_out {K X} _.
#[export] Instance eta_desk K X : Eta (Desk K X) := fun d => Build_Desk (dk_keys d) (dk_qrz d) (dk_eqsl d) (dk_out d).

(** ** Log *)

Record LogRows := { lg_rows : list Entry; lg_next : Z }.
#[export] Instance eta_log_rows : Eta LogRows := fun g => Build_LogRows (lg_rows g) (lg_next g).

Definition is_callsign (call : pystr) : bool := bool_decide (is_Some (fullmatch CALLSIGN_RE call)).

(** The logbook page's form after its fields are read: the fields of the row it
    edits, the time as it was typed. *)
Record QSOForm := {
  qf_call : pystr;
  qf_when : datetime;
  qf_freq_mhz : option float;
  qf_mode : pystr;
  qf_rst_sent : pystr;
  qf_rst_rcvd : pystr;
  qf_name : pystr;
  qf_qth : pystr;
  qf_gridsquare : pystr;
  qf_country : pystr;
  qf_comment : pystr;
}.

(** What the columns ask of the form: what may not be blank, and the lengths. *)
Definition fits_columns (f : QSOForm) : bool :=
  nonempty (qf_call f) && (zlen (qf_call f) <=? 20) && nonempty (qf_mode f) && (zlen (qf_mode f) <=? 12)
  && (zlen (qf_rst_sent f) <=? 8) && (zlen (qf_rst_rcvd f) <=? 8) && (zlen (qf_name f) <=? 120)
  && (zlen (qf_qth f) <=? 120) && (zlen (qf_gridsquare f) <=? 8) && (zlen (qf_country f) <=? 64).

(** [clean_call] and the fields of the form, onto a row. *)
Definition fill (f : QSOForm) (q : QSO) : QSO :=
  q <| qs_call := upper (strip (qf_call f)) |> <| qs_when := qf_when f |> <| qs_freq_mhz := qf_freq_mhz f |>
    <| qs_mode := qf_mode f |> <| qs_rst_sent := qf_rst_sent f |> <| qs_rst_rcvd := qf_rst_rcvd f |>
    <| qs_name := qf_name f |> <| qs_qth := qf_qth f |> <| qs_gridsquare := qf_gridsquare f |>
    <| qs_country := qf_country f |> <| qs_comment := qf_comment f |>.

(** [on_form_valid]: the owner, the call and the band of the row. *)
Definition on_form_valid (user : Z) (q : QSO) : QSO :=
  q <| qs_user := user |> <| qs_call := upper (qs_call q) |> <| qs_band := band_for_freq (qs_freq_mhz q) |>.

(** The row behind a new form: the model's defaults. *)
Definition blank_qso (f : QSOForm) : QSO :=
  {| qs_user := 0; qs_call := []; qs_when := qf_when f; qs_freq_mhz := None; qs_band := []; qs_mode := u "CW";
     qs_rst_sent := u "599"; qs_rst_rcvd := []; qs_name := []; qs_qth := []; qs_gridsquare := []; qs_country := [];
     qs_comment := []; qs_session := None; qs_source := u "manual" |}.

(** How a page ends. *)
Inductive Page := Saved (pk : Z) | Gone | FormShown | NotThere.

(** [get_queryset] of the pages: the operator's own rows. *)
Definition own_entry (user pk : Z) (g : LogRows) : option Entry :=
  List.find (fun e => (en_pk e =? pk) && (qs_user (en_qso e) =? user)) (lg_rows g).

Definition set_entry (pk : Z) (f : Entry -> Entry) (g : LogRows) : LogRows :=
  g <| lg_rows := (fun e => if en_pk e =? pk then f e else e) <$> lg_rows g |>.

Definition append_qso (q : QSO) (g : LogRows) : Entry * LogRows :=
  let e := {| en_pk := lg_next g; en_qso := q; en_qrz_sent := None; en_eqsl_sent := None |} in
  (e, {| lg_rows := lg_rows g ++ [e]; lg_next := lg_next g + 1 |}).

Section Pages.
(** Django reads a typed time in the server's zone first, and refuses one that
    the zone skips or repeats. *)
Context (zone_takes : datetime -> bool).

(** [QSOForm.is_valid] *)
Definition form_valid (f : QSOForm) : bool := fits_columns f && zone_takes (qf_when f).

Definition log_create (user : Z) (f : QSOForm) (g : LogRows) : Page * LogRows :=
  if form_valid f then
    let '(e, g) := append_qso (on_form_valid user (fill f (blank_qso f))) g in (Saved (en_pk e), g)
  else (FormShown, g).

Definition log_update (user pk : Z) (f : QSOForm) (g : LogRows) : Page * LogRows :=
  match own_entry user pk g with
  | None => (NotThere, g)
  | Some _ =>
      if form_valid f
      then (Saved pk, set_entry pk (fun e => e <| en_qso := on_form_valid user (fill f (en_qso e)) |>) g)
      else (FormShown, g)
  end.
End Pages.

Definition log_delete (user pk : Z) (g : LogRows) : Page * LogRows :=
  match own_entry user pk g with
  | None => (NotThere, g)
  | Some _ => (Gone, g <| lg_rows := List.filter (fun e => negb (en_pk e =? pk)) (lg_rows g) |>)
  end.

(** Deleting a session leaves the contacts that were copied in it. *)
Definition own_session (user pk : Z) (sessions : list (Z * Session)) : option Session :=
  snd <$> List.find (fun x => (ss_id x.2 =? pk) && (x.1 =? user)) sessions.
Definition unlink_session (pk : Z) (e : Entry) : Entry :=
  if bool_decide (qs_session (en_qso e) = Some pk) then e <| en_qso := en_qso e <| qs_session := None |> |> else e.
Definition session_delete (user pk : Z) (sessions : list (Z * Session)) (g : LogRows) :
    Page * list (Z * Session) * LogRows :=
  match own_session user pk sessions with
  | None => (NotThere, sessions, g)
  | Some _ =>
      (Gone, List.filter (fun x => negb (ss_id x.2 =? pk)) sessions, g <| lg_rows := unlink_session pk <$> lg_rows g |>)
  end.

(** ** Photos of the rigs *)

Record Photo := { ph_user : Z; ph_model : Z; ph_image : pystr }.
#[export] Instance eta_photo : Eta Photo := fun p => Build_Photo (ph_user p) (ph_model p) (ph_image p).

(** The files under MEDIA_ROOT, by name. *)
Notation Media := (gmap pystr (list Z)).

(** [_rig_photo_path] *)
Definition rig_photo_path (user model : Z) (filename : pystr) : pystr :=
  let ext := lower (splitext filename).2 in
  u "cw/rig_photos/user_" ++ str_of_Z user ++ u "/" ++ str_of_Z model ++ (if nonempty ext then ext else u ".png").

Definition RIG_PHOTO_EXTS : list pystr := [u ".png"; u ".webp"; u ".jpg"; u ".jpeg"; u ".gif"].
Definition wrong_image : Failure := ApiError (u "Use a PNG, JPG, WEBP, or GIF image") 415.

(** [CWRigPhoto.objects.filter(user=user, rig_model=model).first()] *)
Definition photo_of (user model : Z) (photos : Table Photo) : option (Z * Photo) :=
  first_where (fun _ p => (ph_user p =? user) && (ph_model p =? model)) photos.

(** [CWRigPhoto.delete]: the file goes with the row. *)
Definition photo_delete (x : Z * Photo) (photos : Table Photo) (media : Media) : Table Photo * Media :=
  (delete_rows (fun pk _ => pk =? x.1) photos, delete (ph_image x.2) media).

Section Photos.
(** The storage gives a free name, and the database takes a model number into
    its column or raises. *)
Context (available : pystr -> gset pystr -> pystr) (column_takes : Z -> bool) (media_url static_url : pystr -> pystr).

(** [photo.image = upload; photo.save()]: the file is written before the row. *)
Definition photo_save (user model : Z) (old : option (Z * Photo)) (name : pystr) (data : list Z)
    (photos : Table Photo) (media : Media) : result Failure pystr * Table Photo * Media :=
  let image := available (rig_photo_path user model name) (dom media) in
  let media := <[image := data]> media in
  match old with
  | Some (pk, _) => (Ok image, update_row pk (fun p => p <| ph_image := image |>) photos, media)
  | None =>
      if column_takes model
      then (Ok image, (insert_row {| ph_user := user; ph_model := model; ph_image := image |} photos).2, media)
      else (Err Uncaught, photos, media)
  end.

(** The number of digits [int] reads of a text. *)
Definition MAX_INT_DIGITS : Z := 4300.

(** What an upload must be before anything changes: the model number, the name
    and the bytes. *)
Definition photo_upload (image : option Upload) (model : option pystr) : result Failure (Z * pystr * list Z) :=
  match image, model with
  | Some upload, Some raw =>
      if negb (isdigit raw) then Err (ApiError (u "'model' must be a Hamlib model number") 400)
      else
        match (if MAX_INT_DIGITS <? zlen raw then None else parse_int raw) with
        | None => Err Uncaught
        | Some model =>
            match up_name upload, up_size upload with
            | Some name, Some size =>
                if negb (nonempty name) then Err wrong_image
                else if negb (bool_decide (lower (splitext name).2 ∈ RIG_PHOTO_EXTS)) then Err wrong_image
                else if 8 * 1024 * 1024 <? size then Err (ApiError (u "Image too large (8 MB max)") 413)
                else Ok (model, name, up_data upload)
            | _, _ => Err wrong_image
            end
        end
  | _, _ => Err (ApiError (u "Attach an image as 'image' and the rig 'model' number") 400)
  end.

(** The model a removal names: an [int], which a boolean is too, with its text. *)
Definition removal (body : json) : option (option (Z * pystr)) :=
  match body with
  | JObj o =>
      match jget_null (u "action") o with
      | JStr a =>
          if str_eqb a (u "delete") then
            Some (match jget_null (u "model") o with
                  | JInt n => Some (n, str_of_Z n)
                  | JBool b => Some (if b then 1 else 0, if b then u "True" else u "False")
                  | _ => None
                  end)
          else None
      | _ => None
      end
  | _ => None
  end.

(** The answer is the model number with the address of its photo. *)
Definition rig_photo (user : Z) (body : json) (image : option Upload) (model : option pystr)
    (photos : Table Photo) (media : Media) : result Failure (pystr * option pystr) * Table Photo * Media :=
  match removal body with
  | Some None => (Err (ApiError (u "Provide the rig 'model' number to remove") 400), photos, media)
  | Some (Some (model, text)) =>
      let '(photos, media) :=
        match photo_of user model photos with
        | Some x => photo_delete x photos media
        | None => (photos, media)
        end in
      (Ok (text, None), photos, media)
  | None =>
      match photo_upload image model with
      | Err e => (Err e, photos, media)
      | Ok (model, name, data) =>
          let old := photo_of user model photos in
          (* the old file is dropped before the new one is written *)
          let media := match old with Some (_, p) => delete (ph_image p) media | None => media end in
          match photo_save user model old name data photos media with
          | (Ok image, photos, media) => (Ok (str_of_Z model, Some (media_url image)), photos, media)
          | (Err e, photos, media) => (Err e, photos, media)
          end
      end
  end.

Definition SITE_EXTS : list pystr := [u ".png"; u ".webp"; u ".jpg"; u ".jpeg"].

(** The site's own pictures, of the names in its directory. *)
Definition site_images (names : list pystr) : gmap pystr pystr :=
  foldl (fun out fname =>
    let '(stem, ext) := splitext fname in
    if isdigit stem && bool_decide (lower ext ∈ SITE_EXTS)
    then <[stem := static_url (u "cw/rigs/" ++ fname)]> out else out) ∅ names.

(** [_custom_rig_images]: the operator's photos over the site's. *)
Definition custom_rig_images (names : list pystr) (user : Z) (photos : Table Photo) : gmap pystr pystr :=
  foldl (fun out x => <[str_of_Z (ph_model x.2) := media_url (ph_image x.2)]> out)
    (site_images names) (where_ (fun _ p => ph_user p =? user) photos).
End Photos.

(** ** The receiver *)

(** The supervisor, the machine and the devices it last found. *)
Record Receiver := { rv_radio : Radio; rv_os : OS; rv_devices : option (list Device) }.
#[export] Instance eta_receiver : Eta Receiver := fun r => Build_Receiver (rv_radio r) (rv_os r) (rv_devices r).

Definition playing (r : Receiver) : bool := su_running (status (rv_radio r)).

(** What a look at the devices meets: whether [ps] answers for the pidfile, and
    what an rtl_test would print, [None] where it is not installed or fails. *)
Record Probe := { pb_ps : bool; pb_text : option pystr }.

(** [list_devices] *)
Definition list_devices (refresh : bool) (probe : Probe) (r : Receiver) : list Device * Receiver :=
  match rv_devices r, refresh with
  | Some devices, false => (devices, r)
  | known, _ =>
      if playing r || foreign_rtl_fm (pb_ps probe) (rv_radio r) (rv_os r) then (default [] known, r)
      else
        match pb_text probe with
        | None => ([], r)
        | Some text =>
            match parse_devices text with
            | [] => ([], r)
            | devices => (devices, r <| rv_devices := Some devices |>)
            end
        end
  end.

(** A call of the supervisor: its [RadioError] is a 409. *)
Definition radio_call {A} (message : RadioErr -> pystr) (x : result RadioErr A * (Radio * OS)) (r : Receiver) :
    result Failure A * Receiver :=
  (match x.1 with Ok a => Ok a | Err e => Err (ApiError (message e) 409) end,
   r <| rv_radio := x.2.1 |> <| rv_os := x.2.2 |>).

(** [int(data.get(key) or 0)] *)
Definition int_or_0 (key : pystr) (o : jobj) : result Failure Z :=
  let j := jget_null key o in if jtruthy j then unguarded (jint j) else Ok 0.

(** The devices, the status, and what a seek found. *)
Definition RadioAnswer : Type := list Device * Status * option (float * list (float * float)).

Section Radio.
Context (repr : json -> pystr) (message : RadioErr -> pystr).

(** [str(data.get(key) or "")] *)
Definition text_or_empty (key : pystr) (o : jobj) : pystr :=
  let j := jget_null key o in if jtruthy j then jstr repr j else [].

(** The [try] of a POST that tunes or seeks. *)
Definition radio_tune (m : Machine) (sw : Sweep) (seeks : bool) (freq : float) (device_index : Z) (o : jobj)
    (r : Receiver) : result Failure (option (float * list (float * float))) * Receiver :=
  if seeks then
    let direction := text_or_empty (u "direction") o in
    if str_eqb direction (u "up") || str_eqb direction (u "down") then
      let '(res, r) := radio_call message (seek m sw (str_eqb direction (u "up")) freq device_index (rv_radio r) (rv_os r)) r in
      (Some <$> res, r)
    else (Err (ApiError (u "direction must be 'up' or 'down'") 409), r)
  else
    let '(res, r) := radio_call message
      (retune m freq device_index None (jtruthy (jget_null (u "direct_sampling") o)) (rv_radio r) (rv_os r)) r in
    ((fun _ => None) <$> res, r).

Definition radio_get (refresh : bool) (probe : Probe) (r : Receiver) : RadioAnswer * Receiver :=
  let '(devices, r) := list_devices refresh probe r in (devices, status (rv_radio r), None, r).

Definition radio_post (m : Machine) (sw : Sweep) (probe : Probe) (data : json) (r : Receiver) :
    result Failure RadioAnswer * Receiver :=
  match data with
  | JObj o =>
      let action := match jget_null (u "action") o with JStr a => a | _ => [] end in
      if str_eqb action (u "stop") then
        let '(devices, r) := list_devices false probe r in
        let '(radio, os) := stop m (rv_radio r) (rv_os r) in
        (Ok (devices, status radio, None), r <| rv_radio := radio |> <| rv_os := os |>)
      else if str_eqb action (u "tune") || str_eqb action (u "seek") then
        match (freq ← or_error (ApiError (u "A frequency in MHz is required") 400)
                 (jfloat (default (JStr []) (jget (u "freq_mhz") o)));
               index ← int_or_0 (u "device_index") o; Ok (freq, index)) with
        | Err e => (Err e, r)
        | Ok (freq, device_index) =>
            match radio_tune m sw (str_eqb action (u "seek")) freq device_index o r with
            | (Err e, r) => (Err e, r)
            | (Ok found, r) =>
                let state := status (rv_radio r) in
                let '(devices, r) := list_devices false probe r in (Ok (devices, state, found), r)
            end
        end
      else (Err (ApiError (u "action must be 'tune', 'seek' or 'stop'") 400), r)
  | _ => (Err not_an_object, r)
  end.
End Radio.

(** ** Surveys *)

Record Survey := {
  sv_user : Z;
  sv_antenna : pystr;
  sv_gain_db : float;
  sv_device : pystr;
  sv_results : list (Score float);
  sv_notes : pystr;
  sv_created : datetime;
}.

(** [score_for]: the SNR of the first row of a band. *)
Definition score_for (s : Survey) (band_key : pystr) : option float :=
  match List.find (fun row => str_eqb (bn_key (sc_band row)) band_key) (sv_results s) with
  | Some row => sc_snr_db row
  | None => None
  end.

(** [ordering = ["-created_at"]] *)
Definition later_survey (x y : Z * Survey) : Prop := dt_stamp (sv_created y.2) <= dt_stamp (sv_created x.2).
#[export] Instance later_survey_dec x y : Decision (later_survey x y) := ltac:(unfold later_survey; apply _).
(** [operator.antenna_surveys.all()[:12]] *)
Definition recent_surveys (user : Z) (surveys : Table Survey) : list (Z * Survey) :=
  take 12 (merge_sort later_survey (where_ (fun _ s => sv_user s =? user) surveys)).

Section Surveys.
Context {X : Type}.
Context (repr : json -> pystr) (message : ScanErr -> pystr).
(** The clock, and whether the database takes a row. *)
Context (clock : X -> datetime) (row_fits : Survey -> bool).

(** What the worker thread writes to. *)
Notation Bench := (Table Survey * X)%type.

(** [persist] *)
Definition persist (user : Z) (o : jobj) (antenna : pystr) (gain_db : float) (results : list (Score float))
    (device : pystr) (b : Bench) : option Z * Bench :=
  let '(surveys, x) := b in
  let survey := {|
    sv_user := user; sv_antenna := antenna; sv_gain_db := gain_db; sv_device := slice_to 120 device;
    sv_results := results; sv_notes := slice_to 200 (text_or_empty repr (u "notes") o); sv_created := clock x |} in
  if row_fits survey then let '(pk, surveys) := insert_row survey surveys in (Some pk, (surveys, x)) else (None, b).

(** [[str(k) for k in (data.get("bands") or [])]]; [None]: not iterable. *)
Definition band_keys (o : jobj) : option (list pystr) :=
  let j := jget_null (u "bands") o in
  if jtruthy j then
    match j with
    | JArr l => Some (jstr repr <$> l)
    | JStr s => Some ((fun c => [c]) <$> s)
    | JObj d => Some d.*1
    | _ => None
    end
  else Some [].

(** [data.get("save", True) is not False] *)
Definition saves (o : jobj) : bool := match jget (u "save") o with Some (JBool false) => false | _ => true end.

(** The arguments of a start, converted. *)
Definition survey_arguments (o : jobj) : result Failure (list pystr * float * Z) :=
  keys ← match band_keys o with Some keys => Ok keys | None => Err Uncaught end;
  gain ← (let j := jget_null (u "gain_db") o in if jtruthy j then unguarded (jfloat j) else Ok DEFAULT_GAIN_DB);
  index ← int_or_0 (u "device_index") o;
  Ok (keys, gain, index).

(** Did a start get as far as asking for the devices? *)
Definition asked_devices {A} (r : result ScanErr A) : bool :=
  match r with Err (NeedAntenna | NoBands | ReceiverPlaying) => false | _ => true end.

Definition survey_start (user : Z) (probe : Probe) (o : jobj) (r : Receiver) (s : Scan) :
    result Failure (Job (W := Bench)) * Receiver * Scan :=
  match survey_arguments o with
  | Err e => (Err e, r, s)
  | Ok (keys, gain_db, device_index) =>
      let '(devices, probed) := list_devices false probe r in
      let '(res, s) := BandScan.start (text_or_empty repr (u "antenna") o) keys gain_db
        (if saves o then Some (persist user o) else None) device_index
        (jtruthy (jget_null (u "direct_sampling") o)) (playing r) devices s in
      (match res with Ok job => Ok job | Err e => Err (ApiError (message e) 409) end,
       if asked_devices res then probed else r, s)
  end.

(** [{action: "delete", id}] *)
Definition survey_delete (user : Z) (o : jobj) (surveys : Table Survey) : result Failure unit * Table Survey :=
  match or_error (ApiError (u "A survey id is required") 400) (jint (default (JStr []) (jget (u "id") o))) with
  | Err e => (Err e, surveys)
  | Ok pk =>
      match first_where (fun k s => (k =? pk) && (sv_user s =? user)) surveys with
      | None => (Err (ApiError (u "No such survey") 404), surveys)
      | Some (pk, _) => (Ok tt, delete_rows (fun k _ => k =? pk) surveys)
      end
  end.

Inductive SurveyAnswer := Deleted | Begun.

(** The job a start leaves for the worker. *)
Definition survey_post (user : Z) (probe : Probe) (data : json) (surveys : Table Survey) (r : Receiver) (s : Scan) :
    result Failure SurveyAnswer * Table Survey * Receiver * Scan * option (Job (W := Bench)) :=
  match data with
  | JObj o =>
      let action := match jget_null (u "action") o with JStr a => a | _ => [] end in
      if str_eqb action (u "delete") then
        let '(res, surveys) := survey_delete user o surveys in ((fun _ => Deleted) <$> res, surveys, r, s, None)
      else if str_eqb action (u "start") then
        match survey_start user probe o r s with
        | (Ok job, r, s) => (Ok Begun, surveys, r, s, Some job)
        | (Err e, r, s) => (Err e, surveys, r, s, None)
        end
      else (Err (ApiError (u "action must be 'start' or 'delete'") 400), surveys, r, s, None)
  | _ => (Err not_an_object, surveys, r, s, None)
  end.

(** The worker on the bench. *)
Definition bench_power (power : list pystr -> X -> PowerRun * X) (argv : list pystr) (b : Bench) : PowerRun * Bench :=
  let '(run, x) := power argv b.2 in (run, (b.1, x)).
End Surveys.

(** ** The whole station *)

(** What the station takes from outside: Fernet and a key drawn for it, QRZ and
    eQSL, Python's text of a list or an object and of a quoted string, the
    database's reading of posted keys and of what its columns take, Django's
    zone, storage and addresses, the texts of two errors, rtl_power, the clock
    of the worker. *)
Class StationLib (K R X : Type) := {
  fernet_encrypt : K -> R -> pystr -> pystr;
  fernet_decrypt : K -> pystr -> option pystr;
  fresh_key : K;
  qrz_fetch : list (pystr * pystr) -> X -> result pystr (pystr -> option pystr) * X;
  post_form : list (pystr * pystr) -> X -> result pystr pystr * X;
  unescape : pystr -> pystr;
  post_file : pystr -> X -> result pystr pystr * X;
  icontains : pystr -> pystr -> bool;
  repr : json -> pystr;
  quoted : pystr -> pystr;
  pk_of : json -> option Z;
  stores_nan : bool;
  column_takes : Z -> bool;
  survey_fits : Survey -> bool;
  zone_takes : datetime -> bool;
  available : pystr -> gset pystr -> pystr;
  media_url : pystr -> pystr;
  radio_message : RadioErr -> pystr;
  scan_message : ScanErr -> pystr;
  have_power : bool;
  power : list pystr -> X -> PowerRun * X;
  clock : X -> datetime;
}.

(** What is documented of it: a token decrypts to what it was made of, and a
    name the storage gives is not taken. *)
Class StationLaws {K R X} (L : StationLib K R X) : Prop := {
  fernet_roundtrip : forall k n s, fernet_decrypt k (fernet_encrypt k n s) = Some s;
  available_free : forall path taken, available path taken ∉ taken;
}.

Section Station.
Context {K R X : Type} {L : StationLib K R X}.
Notation Desk := (Desk K X).
Notation Bench := (Table Survey * X)%type.

Definition seal : R -> pystr -> KeyStore K -> pystr * KeyStore K := encrypt fernet_encrypt fresh_key.
Definition unseal : pystr -> KeyStore K -> pystr * KeyStore K := decrypt fernet_decrypt fresh_key.

(** [set_password], [set_logbook_key]: [value.encode()] raises on a text that
    is not encodable, after the key was fetched. *)
Definition sealed_into {A} (set : pystr -> A -> A) (nonce : R) (raw : pystr) (row : A) (ks : KeyStore K) :
    result Failure A * KeyStore K :=
  if negb (encodable raw) then (Err Uncaught, (get_fernet fresh_key ks).2)
  else let '(token, ks) := seal nonce raw ks in (Ok (set token row), ks).

(** [profile.get_password()] of the two tables. *)
Definition qrz_password (nonce : R) (row : QrzRow) (ks : KeyStore K) : pystr * QrzRow * KeyStore K :=
  let '(raw, stored, _, ks) := get_password fernet_encrypt fernet_decrypt fresh_key nonce (qr_password row) ks in
  (raw, row <| qr_password := stored |>, ks).
Definition eqsl_password (nonce : R) (row : EqslRow) (ks : KeyStore K) : pystr * EqslRow * KeyStore K :=
  let '(raw, stored, _, ks) := get_password fernet_encrypt fernet_decrypt fresh_key nonce (eq_password row) ks in
  (raw, row <| eq_password := stored |>, ks).

Definition put_qrz (user : Z) (row : QrzRow) (ks : KeyStore K) (x : X) (d : Desk) : Desk :=
  d <| dk_keys := ks |> <| dk_qrz := <[user := row]> (dk_qrz d) |> <| dk_out := x |>.
Definition put_eqsl (user : Z) (row : EqslRow) (ks : KeyStore K) (d : Desk) : Desk :=
  d <| dk_keys := ks |> <| dk_eqsl := <[user := row]> (dk_eqsl d) |>.

(** [lookup_for_user] on the operator's row. *)
Definition callbook (nonce : R) (user : Z) (call : pystr) (d : Desk) : option QRZInfo * Desk :=
  match dk_qrz d !! user with
  | None => (None, d)
  | Some row =>
      if negb (nonempty (qr_username row)) || negb (nonempty (qr_password row)) then (None, d)
      else
        let '(password, row, ks) := qrz_password nonce row (dk_keys d) in
        let profile := {| qp_username := qr_username row; qp_password := password;
                          qp_session_key := qr_session_key row |} in
        let '(info, profile, x) := lookup_for_user qrz_fetch (Some profile) call (dk_out d) in
        (info, put_qrz user (row <| qr_session_key := from_option qp_session_key [] profile |>) ks x d)
  end.

(** *** Logging *)

(** A NaN in a nullable column is stored as NULL where the database has none. *)
Definition as_stored (q : QSO) : QSO :=
  match qs_freq_mhz q with
  | Some f => if float_is_nan f && negb stores_nan then q <| qs_freq_mhz := None |> else q
  | None => q
  end.

(** The session named in the body, of the operator's own. *)
Definition posted_session (user : Z) (o : jobj) (sessions : list (Z * Session)) : result Failure (option Session) :=
  let j := jget_null (u "session_id") o in
  if jtruthy j then match pk_of j with None => Err Uncaught | Some pk => Ok (own_session user pk sessions) end
  else Ok None.

(** [float(freq_hz) if freq_hz else None] *)
Definition posted_freq (o : jobj) : result Failure (option float) :=
  let j := jget_null (u "freq_hz") o in
  if jtruthy j then Some <$> unguarded (jfloat j) else Ok None.

(** The row, and how often the call was worked before. *)
Definition log_quick (now : datetime) (nonce : R) (user : Z) (data : json) (sessions : list (Z * Session))
    (g : LogRows) (d : Desk) : result Failure (Entry * Z) * LogRows * Desk :=
  match data with
  | JObj o =>
      let posted := jget_null (u "call") o in
      if negb (jtruthy posted) then (Err (ApiError (u "call is required") 400), g, d)
      else
        let call := upper (strip (jstr repr posted)) in
        if negb (is_callsign call) then (Err (ApiError (quoted call ++ u " doesn't look like a callsign") 400), g, d)
        else
          match (s ← posted_session user o sessions; f ← posted_freq o; Ok (s, f)) with
          | Err e => (Err e, g, d)
          | Ok (session, freq_hz) =>
              let db := en_qso <$> lg_rows g in
              let j := jget_null (u "source") o in
              let source := if jtruthy j then jstr repr j else u "session" in
              let '(qso, _, d) := quick_log (callbook nonce) now db user call session freq_hz source (u "599") d in
              let '(e, g) := append_qso (as_stored qso) g in
              (Ok (e, zlen (worked_before db user call)), g, d)
          end
  | _ => (Err (ApiError (u "call is required") 400), g, d)
  end.

(** [log_lookup] *)
Record Intel := { in_call : pystr; in_worked : Z; in_last : option QSO; in_qrz : option QRZInfo }.
Definition log_lookup (nonce : R) (user : Z) (asked : option pystr) (g : LogRows) (d : Desk) :
    result Failure Intel * Desk :=
  let call := upper (strip (default [] asked)) in
  if negb (is_callsign call) then (Err (ApiError (u "Not a callsign") 400), d)
  else
    let history := worked_before (en_qso <$> lg_rows g) user call in
    let '(info, d) := callbook nonce user call d in
    (Ok {| in_call := call; in_worked := zlen history; in_last := newest history; in_qrz := info |}, d).

(** The rows an import added, with their keys. *)
Definition added (db : list QSO) (g : LogRows) : LogRows :=
  let new := drop (length (lg_rows g)) db in
  {| lg_rows := lg_rows g ++ numbered (lg_next g) new; lg_next := lg_next g + zlen new |}.

Definition log_import (user : Z) (file : option Upload) (g : LogRows) : result Failure Counts * LogRows :=
  match file with
  | None => (Err (ApiError (u "Attach an ADIF file as 'adif'") 400), g)
  | Some upload =>
      match up_size upload with
      | Some size =>
          if 10 * 1024 * 1024 <? size then (Err (ApiError (u "File too large (10 MB max)") 413), g)
          else
            match import_adif user (decode_replace (up_data upload)) (en_qso <$> lg_rows g) with
            | Ok (counts, db) => (Ok counts, added db g)
            | Err db => (Err Uncaught, added db g)
            end
      | None => (Err (ApiError (u "File too large (10 MB max)") 413), g)
      end
  end.

(** *** Credentials *)

(** [str(data["username"]).strip()], where there is one *)
Definition posted_username (o : jobj) (current : pystr) : pystr :=
  match jget (u "username") o with Some j => strip (jstr repr j) | None => current end.
(** [if key in data and data[key]] *)
Definition posted_secret (key : pystr) (o : jobj) : option pystr :=
  let j := jget_null key o in if jtruthy j then Some (jstr repr j) else None.

Definition eqsl_update (nonce : R) (o : jobj) (row : EqslRow) (ks : KeyStore K) : result Failure EqslRow * KeyStore K :=
  let row := row <| eq_username := posted_username o (eq_username row) |> in
  match posted_secret (u "password") o with
  | Some raw => sealed_into (fun t row => row <| eq_password := t |>) nonce raw row ks
  | None => (Ok row, ks)
  end.

(** [profile.save()]: the driver raises on a user name it cannot encode. *)
Definition profile_save {A} (username : A -> pystr) (r : result Failure A) : result Failure A :=
  row ← r; if encodable (username row) then Ok row else Err Uncaught.

(** The body of a POST, [None] on a GET. A POST that raises leaves the row as it
    was, or as [get_or_create] made it. *)
Definition eqsl_config (nonce : R) (user : Z) (body : option json) (d : Desk) : result Failure (bool * pystr) * Desk :=
  let row := default no_eqsl (dk_eqsl d !! user) in
  let answer row := Ok (nonempty (eq_username row) && nonempty (eq_password row), eq_username row) in
  match body with
  | None => (answer row, put_eqsl user row (dk_keys d) d)
  | Some (JObj o) =>
      let '(updated, ks) := eqsl_update nonce o row (dk_keys d) in
      match profile_save eq_username updated with
      | Err e => (Err e, put_eqsl user row ks d)
      | Ok row => (answer row, put_eqsl user row ks d)
      end
  | Some _ => (Err not_an_object, put_eqsl user row (dk_keys d) d)
  end.

(** [unlink], or the fields that were posted. *)
Definition qrz_update (nonce : Z -> R) (o : jobj) (row : QrzRow) (ks : KeyStore K) :
    result Failure QrzRow * KeyStore K :=
  if jtruthy (jget_null (u "unlink") o) then (Ok no_qrz, ks)
  else
    let row := row <| qr_username := posted_username o (qr_username row) |> in
    let '(r, ks) :=
      match posted_secret (u "password") o with
      | Some raw => sealed_into (fun t row => row <| qr_password := t |> <| qr_session_key := [] |>) (nonce 0) raw row ks
      | None => (Ok row, ks)
      end in
    match r, posted_secret (u "logbook_key") o with
    | Ok row, Some raw => sealed_into (fun t row => row <| qr_logbook_key := t |>) (nonce 1) (strip raw) row ks
    | _, _ => (r, ks)
    end.

(** The live lookup that proves the login: the row and the world after it.
    [urlencode] raises on a call that is not encodable. *)
Definition qrz_test (nonce : R) (call : pystr) (row : QrzRow) (ks : KeyStore K) (x : X) :
    result Failure (option QRZInfo) * QrzRow * KeyStore K * X :=
  let '(password, row, ks) := qrz_password nonce row ks in
  match authenticate qrz_fetch (qr_username row) password x with
  | (Err e, x) => (Err (ApiError e 502), row, ks, x)
  | (Ok key, x) =>
      let row := row <| qr_session_key := key |> in
      if negb (encodable call) then (Err Uncaught, row, ks, x)
      else
        let '(r, x) := Credentials.lookup qrz_fetch key call x in
        (match r with Ok info => Ok info | Err e => Err (ApiError e 502) end, row, ks, x)
  end.

Inductive QrzAnswer :=
| QrzState (configured : bool) (username : pystr) (logbook_configured : bool) (unsent total : Z)
| QrzTested (info : option QRZInfo).

Definition qrz_state (user : Z) (row : QrzRow) (g : LogRows) : QrzAnswer :=
  QrzState (nonempty (qr_username row) && nonempty (qr_password row)) (qr_username row) (nonempty (qr_logbook_key row))
    (zlen (unsent_qrz user (lg_rows g))) (zlen (List.filter (fun e => qs_user (en_qso e) =? user) (lg_rows g))).

Definition qrz_config (nonce : Z -> R) (user : Z) (body : option json) (g : LogRows) (d : Desk) :
    result Failure QrzAnswer * Desk :=
  let row := default no_qrz (dk_qrz d !! user) in
  match body with
  | None => (Ok (qrz_state user row g), put_qrz user row (dk_keys d) (dk_out d) d)
  | Some (JObj o) =>
      let '(updated, ks) := qrz_update nonce o row (dk_keys d) in
      match profile_save qr_username updated with
      | Err e => (Err e, put_qrz user row ks (dk_out d) d)
      | Ok row =>
          match posted_secret (u "test_call") o with
          | None => (Ok (qrz_state user row g), put_qrz user row ks (dk_out d) d)
          | Some call =>
              let '(r, row, ks, x) := qrz_test (nonce 2) (upper (strip call)) row ks (dk_out d) in
              (QrzTested <$> r, put_qrz user row ks x d)
          end
      end
  | Some _ => (Err not_an_object, put_qrz user row (dk_keys d) (dk_out d) d)
  end.

(** [profile.get_logbook_key() if profile else ""] *)
Definition logbook_key (user : Z) (d : Desk) : pystr * KeyStore K :=
  match dk_qrz d !! user with Some row => unseal (qr_logbook_key row) (dk_keys d) | None => ([], dk_keys d) end.

(** The sync endpoints of [Sync], with the stored secrets. *)
Definition numbered_log (db : list Entry) (g : LogRows) : LogRows :=
  {| lg_rows := db; lg_next := lg_next g + (zlen db - zlen (lg_rows g)) |}.

Definition qrz_sync (now : datetime) (user : Z) (data : json) (g : LogRows) (d : Desk) :
    result Failure SyncAnswer * LogRows * Desk :=
  let '(key, ks) := logbook_key user d in
  let '(r, db, x) := qrz_logbook_sync post_form unescape now key user (lg_next g) data (lg_rows g) (dk_out d) in
  (r, numbered_log db g, d <| dk_keys := ks |> <| dk_out := x |>).

Definition eqsl_upload (now : datetime) (nonce : R) (station_call : pystr) (user : Z) (lf : LogFilter) (data : json)
    (g : LogRows) (d : Desk) : result Failure (Z * pystr) * LogRows * Desk :=
  let '(profile, d) :=
    match dk_eqsl d !! user with
    | None => (None, d)
    | Some row =>
        if negb (nonempty (eq_username row)) then (Some ([], []), d)
        else
          let '(password, row, ks) := eqsl_password nonce row (dk_keys d) in
          (Some (eq_username row, password), put_eqsl user row ks d)
    end in
  let '(r, db, x) := log_eqsl_upload post_file icontains now profile station_call user lf data (lg_rows g) (dk_out d) in
  (r, g <| lg_rows := db |>, d <| dk_out := x |>).

(** *** One request *)

Record Station := {
  st_desk : Desk;
  st_log : LogRows;
  st_sessions : list (Z * Session);
  st_photos : Table Photo;
  st_media : Media;
  st_surveys : Table Survey;
  st_receiver : Receiver;
  st_scan : Scan;
  st_job : option (Z * Job (W := Bench));  (** the operator and the survey the worker has *)
  st_files : gmap pystr (option pystr);
  st_tabs : Tabs;
  st_tape : list (Z * json);               (** what each channel was sent *)
}.
#[export] Instance eta_station : Eta Station := fun s =>
  Build_Station (st_desk s) (st_log s) (st_sessions s) (st_photos s) (st_media s) (st_surveys s) (st_receiver s)
    (st_scan s) (st_job s) (st_files s) (st_tabs s) (st_tape s).

(** Who asks, when, and what the machine has for the request. *)
Record Moment := {
  mo_user : Z;
  mo_now : datetime;
  mo_nonce : Z -> R;
  mo_probe : Probe;
  mo_machine : Machine;
  mo_sweep : Sweep;
  mo_layer : bool;
  mo_call : pystr;
}.

(** The requests, and the two events that are not requests. *)
Inductive Call :=
| LiveIngest (body_len : Z) (payload : json)
| TabOpens (channel : Z)
| TabCloses (channel : Z)
| LogQuick (data : json)
| LogLookup (call : option pystr)
| LogImport (file : option Upload)
| LogCreate (f : QSOForm)
| LogUpdate (pk : Z) (f : QSOForm)
| LogDelete (pk : Z)
| SessionDelete (pk : Z)
| EqslConfig (body : option json)
| QrzConfig (body : option json)
| QrzSync (data : json)
| EqslUpload (lf : LogFilter) (data : json)
| RigPhoto (body : json) (image : option Upload) (model : option pystr)
| RadioControl (refresh : bool) (body : option json)
| BandSurvey (refresh : bool) (body : option json)
| SurveyRuns
| ServerRestarts.

Inductive Reply :=
| Relayed | Done | PageShown (p : Page)
| Logged (e : Entry) (worked_before : Z)
| Told (i : Intel)
| ImportedFile (c : Counts)
| EqslState (configured : bool) (username : pystr)
| Qrz (a : QrzAnswer)
| Synced (a : SyncAnswer)
| Uploaded (n : Z) (message : pystr)
| PhotoAt (model : pystr) (url : option pystr)
| Radioed (a : RadioAnswer)
| SurveyPage (devices : list Device) (scan : Scan) (surveys : list (Z * Survey))
| SurveyPosted (a : SurveyAnswer).

(** The worker thread, from its first band to the row it saves. *)
Definition survey_runs (s : Station) : Station :=
  match st_job s with
  | None => s
  | Some (_, job) =>
      let '(scan, (files, (surveys, x))) :=
        worker have_power (bench_power power) job (st_scan s) (st_files s, (st_surveys s, dk_out (st_desk s))) in
      s <| st_scan := scan |> <| st_files := files |> <| st_surveys := surveys |>
        <| st_desk := st_desk s <| dk_out := x |> |> <| st_job := None |>
  end.

Definition serve (m : Moment) (c : Call) (s : Station) : result Failure Reply * Station :=
  let user := mo_user m in let nonce := mo_nonce m 0 in
  match c with
  | LiveIngest len payload =>
      match live_ingest (mo_layer m) user len payload with
      | Err e => (Err e, s)
      | Ok (group, payload) => (Ok Relayed, s <| st_tape := st_tape s ++ cw_batch group payload (st_tabs s) |>)
      end
  | TabOpens channel => (Ok Done, s <| st_tabs := tape_connect channel (Some user) (st_tabs s) |>)
  | TabCloses channel => (Ok Done, s <| st_tabs := tape_disconnect channel (st_tabs s) |>)
  | LogQuick data =>
      let '(r, g, d) := log_quick (mo_now m) nonce user data (st_sessions s) (st_log s) (st_desk s) in
      ((fun x => Logged x.1 x.2) <$> r, s <| st_log := g |> <| st_desk := d |>)
  | LogLookup call =>
      let '(r, d) := log_lookup nonce user call (st_log s) (st_desk s) in (Told <$> r, s <| st_desk := d |>)
  | LogImport file =>
      let '(r, g) := log_import user file (st_log s) in (ImportedFile <$> r, s <| st_log := g |>)
  | LogCreate f => let '(p, g) := log_create zone_takes user f (st_log s) in (Ok (PageShown p), s <| st_log := g |>)
  | LogUpdate pk f => let '(p, g) := log_update zone_takes user pk f (st_log s) in (Ok (PageShown p), s <| st_log := g |>)
  | LogDelete pk => let '(p, g) := log_delete user pk (st_log s) in (Ok (PageShown p), s <| st_log := g |>)
  | SessionDelete pk =>
      let '(p, sessions, g) := session_delete user pk (st_sessions s) (st_log s) in
      (Ok (PageShown p), s <| st_sessions := sessions |> <| st_log := g |>)
  | EqslConfig body =>
      let '(r, d) := eqsl_config nonce user body (st_desk s) in
      ((fun x => EqslState x.1 x.2) <$> r, s <| st_desk := d |>)
  | QrzConfig body =>
      let '(r, d) := qrz_config (mo_nonce m) user body (st_log s) (st_desk s) in (Qrz <$> r, s <| st_desk := d |>)
  | QrzSync data =>
      let '(r, g, d) := qrz_sync (mo_now m) user data (st_log s) (st_desk s) in
      (Synced <$> r, s <| st_log := g |> <| st_desk := d |>)
  | EqslUpload lf data =>
      let '(r, g, d) := eqsl_upload (mo_now m) nonce (mo_call m) user lf data (st_log s) (st_desk s) in
      ((fun x => Uploaded x.1 x.2) <$> r, s <| st_log := g |> <| st_desk := d |>)
  | RigPhoto body image model =>
      let '(r, photos, media) := rig_photo available column_takes media_url user body image model (st_photos s) (st_media s) in
      ((fun x => PhotoAt x.1 x.2) <$> r, s <| st_photos := photos |> <| st_media := media |>)
  | RadioControl refresh None =>
      let '(a, r) := radio_get refresh (mo_probe m) (st_receiver s) in (Ok (Radioed a), s <| st_receiver := r |>)
  | RadioControl _ (Some data) =>
      let '(a, r) := radio_post repr radio_message (mo_machine m) (mo_sweep m) (mo_probe m) data (st_receiver s) in
      (Radioed <$> a, s <| st_receiver := r |>)
  | BandSurvey refresh None =>
      let '(devices, r) := list_devices refresh (mo_probe m) (st_receiver s) in
      (Ok (SurveyPage devices (st_scan s) (recent_surveys user (st_surveys s))), s <| st_receiver := r |>)
  | BandSurvey _ (Some data) =>
      let '(r, surveys, receiver, scan, job) :=
        survey_post repr scan_message clock survey_fits user (mo_probe m) data (st_surveys s) (st_receiver s) (st_scan s) in
      (SurveyPosted <$> r,
       s <| st_surveys := surveys |> <| st_receiver := receiver |> <| st_scan := scan |>
         <| st_job := match job with Some job => Some (user, job) | None => st_job s end |>)
  | SurveyRuns => (Ok Done, survey_runs s)
  | ServerRestarts =>
      (Ok Done, s <| st_desk := st_desk s <| dk_keys := reset_cache (dk_keys (st_desk s)) |> |>
        <| st_receiver := {| rv_radio := fresh_radio; rv_os := rv_os (st_receiver s); rv_devices := None |} |>
        <| st_scan := idle |> <| st_job := None |> <| st_tabs := ∅ |>)
  end.

Definition serve_all (calls : list (Moment * Call)) (s : Station) : Station :=
  foldl (fun s c => (serve c.1 c.2 s).2) s calls.
End Station.
