(* ===== verification/StationKeeping.v ===== *)
(** * What one request leaves of the station

    Whose rows a request may touch and how, component by component: the log,
    the credentials and the key store, the photos and their files, the surveys
    and the worker's job. [tidy] is what the station keeps, [stepped] what one
    request of an operator comes to; [serve_step] puts them together. *)
From stdpp Require Import sorting.
From S2P Require Import Prelude PyFloat PyStr Json Regex PyTime PyLib Tables Bridge Credentials Logbook LogbookFacts Sync SyncFacts Radio RadioDaemon BandScan BandScanFacts StationApi.
Open Scope Z_scope.

(** ** The log *)

Definition owner (e : Entry) : Z := qs_user (en_qso e).

(** The call is upper case, and the band is that of the frequency where the
    station itself wrote the row. *)
Definition well_logged (q : QSO) : Prop :=
  upper (qs_call q) = qs_call q
  /\ (qs_source q <> u "import" -> qs_band q = band_for_freq (qs_freq_mhz q)).

(** A contact is linked to sessions of its own operator only. *)
Definition linked (sessions : list (Z * Session)) (q : QSO) : Prop :=
  forall x, x ∈ sessions -> qs_session q = Some (ss_id x.2) -> x.1 = qs_user q.

Record tidy_log (sessions : list (Z * Session)) (g : LogRows) : Prop := {
  tl_pks : NoDup (en_pk <$> lg_rows g);
  tl_next : Forall (fun e => en_pk e < lg_next g) (lg_rows g);
  tl_rows : Forall (fun e => well_logged (en_qso e)) (lg_rows g);
  tl_links : Forall (fun e => linked sessions (en_qso e)) (lg_rows g);
}.

(** What an operator's request may do to a row of theirs. *)
Definition rewrites (user : Z) (e e' : Entry) : Prop :=
  owner e = user /\ owner e' = user /\ (well_logged (en_qso e) -> well_logged (en_qso e'))
  /\ (qs_session (en_qso e') = qs_session (en_qso e) \/ qs_session (en_qso e') = None).

(** The changes the requests are made of. *)
Inductive log_change (user : Z) (sessions : list (Z * Session)) : LogRows -> LogRows -> Prop :=
| lc_refl g : log_change user sessions g g
| lc_map f g :
    (forall e, e ∈ lg_rows g -> en_pk (f e) = en_pk e /\ (f e = e \/ rewrites user e (f e))) ->
    log_change user sessions g (g <| lg_rows := f <$> lg_rows g |>)
| lc_add qs g :
    Forall (fun q => qs_user q = user /\ well_logged q /\ linked sessions q) qs ->
    log_change user sessions g {| lg_rows := lg_rows g ++ numbered (lg_next g) qs; lg_next := lg_next g + zlen qs |}
| lc_drop (p : Entry -> bool) g :
    (forall e, e ∈ lg_rows g -> p e = false -> owner e = user) ->
    log_change user sessions g (g <| lg_rows := List.filter p (lg_rows g) |>)
| lc_trans g g1 g2 : log_change user sessions g g1 -> log_change user sessions g1 g2 -> log_change user sessions g g2.

Lemma filter_in {A} (p : A -> bool) (l : list A) x : x ∈ List.filter p l <-> x ∈ l /\ p x = true.
Proof. by rewrite !list_elem_of_In, filter_In. Qed.

Lemma numbered_in next qs e :
  e ∈ numbered next qs -> en_qso e ∈ qs /\ next <= en_pk e < next + zlen qs.
Proof.
  unfold numbered. rewrite list_elem_of_lookup. intros [i Hi].
  rewrite list_lookup_imap, fmap_Some in Hi. destruct Hi as (q & Hq & ->). cbn.
  apply lookup_lt_Some in Hq as Hl. split; [by eapply list_elem_of_lookup_2|]. unfold zlen. lia.
Qed.

Lemma numbered_pks next qs : NoDup (en_pk <$> numbered next qs).
Proof.
  apply NoDup_alt. intros i j pk Hi Hj. unfold numbered in *.
  rewrite list_lookup_fmap, list_lookup_imap in Hi, Hj.
  destruct (qs !! i); [|done]. destruct (qs !! j); [|done]. cbn in *. injection Hi as <-. injection Hj as E. lia.
Qed.

Lemma map_pks (f : Entry -> Entry) (l : list Entry) : (forall e, e ∈ l -> en_pk (f e) = en_pk e) -> en_pk <$> (f <$> l) = en_pk <$> l.
Proof. intros H. rewrite <- list_fmap_compose. apply list_fmap_ext. intros i e He. by apply H, (list_elem_of_lookup_2 _ i). Qed.

Lemma log_change_tidy user sessions g g' : log_change user sessions g g' -> tidy_log sessions g -> tidy_log sessions g'.
Proof.
  induction 1 as [g|f g Hf|qs g Hq|p g Hp|g g1 g2 _ IH1 _ IH2]; intros T; [done| | | |auto]; destruct T as [T1 T2 T3 T4].
  - rewrite Forall_forall in T2, T3, T4. split; cbn.
    + rewrite map_pks; [done|]. intros e He. by apply Hf.
    + apply Forall_fmap, Forall_forall. intros e He. cbn. destruct (Hf e He) as [-> _]. auto.
    + apply Forall_fmap, Forall_forall. intros e He. cbn.
      destruct (Hf e He) as [_ [-> |(_ & _ & H & _)]]; auto.
    + apply Forall_fmap, Forall_forall. intros e He x Hx. cbn.
      destruct (Hf e He) as [_ [-> |(H1 & H2 & _ & [H|H])]]; [by apply T4| |by rewrite H].
      rewrite H. intros E. unfold owner in *. rewrite H2, <- H1. by apply T4.
  - rewrite Forall_forall in Hq. split; cbn.
    + rewrite fmap_app. apply NoDup_app. split; [done|]. split; [|apply numbered_pks].
      intros pk (e & -> & He)%list_elem_of_fmap (e' & E & He')%list_elem_of_fmap.
      apply numbered_in in He' as [_ H]. rewrite Forall_forall in T2. specialize (T2 e He). lia.
    + pose proof (zlen_nonneg qs). apply Forall_app. split; apply Forall_forall; intros e He.
      * rewrite Forall_forall in T2. specialize (T2 e He). lia.
      * apply numbered_in in He as [_ H']. lia.
    + apply Forall_app. split; [done|]. apply Forall_forall. intros e [He _]%numbered_in. by apply Hq.
    + apply Forall_app. split; [done|]. apply Forall_forall. intros e [He _]%numbered_in. by apply Hq.
  - split; cbn.
    + apply (sublist_NoDup _ _ T1), fmap_sublist. clear. induction (lg_rows g) as [|e l IH]; cbn; [done|].
      destruct (p e); by constructor.
    + rewrite Forall_forall in *. intros e [He _]%filter_in. auto.
    + rewrite Forall_forall in *. intros e [He _]%filter_in. auto.
    + rewrite Forall_forall in *. intros e [He _]%filter_in. auto.
Qed.

(** Another operator's rows. *)
Definition entries_of (v : Z) (g : LogRows) : list Entry := List.filter (fun e => owner e =? v) (lg_rows g).

Lemma filter_app {A} (p : A -> bool) l l' : List.filter p (l ++ l') = List.filter p l ++ List.filter p l'.
Proof. induction l as [|x l IH]; cbn; [done|]. destruct (p x); cbn; by rewrite IH. Qed.

Lemma filter_nothing {A} (p : A -> bool) l : (forall x, x ∈ l -> p x = false) -> List.filter p l = [].
Proof.
  induction l as [|x l IH]; cbn; intros H; [done|]. rewrite (H x) by apply list_elem_of_here.
  apply IH. intros y Hy. apply H. by apply list_elem_of_further.
Qed.

Lemma log_change_mine user sessions v g g' :
  v <> user -> log_change user sessions g g' -> entries_of v g' = entries_of v g.
Proof.
  intros Hv. unfold entries_of.
  induction 1 as [g|f g Hf|qs g Hq|p g Hp|g g1 g2 _ IH1 _ IH2]; [done| | | |congruence]; cbn.
  - induction (lg_rows g) as [|e l IH]; cbn; [done|].
    assert (He : e ∈ e :: l) by apply list_elem_of_here. destruct (Hf e He) as [_ [-> |(H1 & H2 & _)]].
    + rewrite IH; [done|]. intros e' He'. apply Hf. by apply list_elem_of_further.
    + rewrite H1, H2, (proj2 (Z.eqb_neq _ _)) by done. apply IH. intros e' He'. apply Hf. by apply list_elem_of_further.
  - rewrite filter_app, (filter_nothing _ (numbered _ _)); [apply app_nil_r|].
    intros e [He _]%numbered_in. rewrite Forall_forall in Hq. unfold owner. destruct (Hq _ He) as [-> _].
    by apply Z.eqb_neq.
  - induction (lg_rows g) as [|e l IH]; cbn; [done|].
    rewrite <- IH by (intros e' He'; apply Hp; by apply list_elem_of_further).
    destruct (p e) eqn:E; cbn; [done|]. rewrite (Hp e) by (done || apply list_elem_of_here).
    by rewrite (proj2 (Z.eqb_neq _ _)).
Qed.

(** Keys tell rows apart. *)
Lemma same_entry sessions g e e' :
  tidy_log sessions g -> e ∈ lg_rows g -> e' ∈ lg_rows g -> en_pk e = en_pk e' -> e = e'.
Proof.
  intros [T _ _ _] [i Hi]%list_elem_of_lookup [j Hj]%list_elem_of_lookup E.
  assert (i = j) as ->; [|congruence].
  eapply NoDup_lookup; [exact T| |]; rewrite list_lookup_fmap; [by rewrite Hi|]. rewrite Hj. cbn. by rewrite E.
Qed.

(** *** The pages *)

Definition good_row (user : Z) (sessions : list (Z * Session)) (q : QSO) : Prop :=
  qs_user q = user /\ well_logged q /\ linked sessions q.

Lemma append_change user sessions q g :
  good_row user sessions q -> log_change user sessions g (append_qso q g).2.
Proof.
  intros H. pose proof (lc_add user sessions [q] g) as C. unfold numbered in C. cbn in C.
  rewrite Z.add_0_r in C. apply C. by constructor.
Qed.

Lemma own_entry_spec user pk g e :
  own_entry user pk g = Some e -> e ∈ lg_rows g /\ en_pk e = pk /\ owner e = user.
Proof.
  unfold own_entry. intros [H E]%find_some. rewrite <- list_elem_of_In in H.
  apply andb_true_iff in E as [E1%Z.eqb_eq E2%Z.eqb_eq]. done.
Qed.

(** A row found by its key and owner is the only one with the key. *)
Lemma own_pk user sessions pk g e e' :
  tidy_log sessions g -> own_entry user pk g = Some e -> e' ∈ lg_rows g -> en_pk e' = pk -> owner e' = user.
Proof.
  intros T (H & E & O)%own_entry_spec H' E'.
  rewrite (same_entry sessions g e' e); [done|done|done|done|congruence].
Qed.

Lemma set_change user sessions pk f g e :
  tidy_log sessions g -> own_entry user pk g = Some e ->
  (forall e, owner e = user -> en_pk (f e) = en_pk e /\ rewrites user e (f e)) ->
  log_change user sessions g (set_entry pk f g).
Proof.
  intros T He Hf. apply lc_map. intros e' He'. destruct (en_pk e' =? pk) eqn:E; [|auto].
  apply Z.eqb_eq in E. destruct (Hf e') as [? ?]; [|auto]. by apply (own_pk user sessions pk g e).
Qed.

Lemma filled_good user f q : well_logged (on_form_valid user (fill f q)).
Proof. split; [apply upper_upper|done]. Qed.

Lemma log_create_change takes user sessions f g : log_change user sessions g (log_create takes user f g).2.
Proof.
  unfold log_create. destruct (form_valid takes f); [|apply lc_refl].
  pose proof (append_change user sessions (on_form_valid user (fill f (blank_qso f))) g) as C.
  destruct (append_qso _ g) as [e g']. apply C. split; [done|]. split; [apply filled_good|done].
Qed.

Lemma log_update_change takes user sessions pk f g :
  tidy_log sessions g -> log_change user sessions g (log_update takes user pk f g).2.
Proof.
  intros T. unfold log_update. destruct (own_entry user pk g) as [e|] eqn:He; [|apply lc_refl].
  destruct (form_valid takes f); [|apply lc_refl]. apply (set_change user sessions pk _ g e T He).
  intros e' He'. split; [done|]. split; [done|]. split; [done|]. split; [|by left].
  intros _. apply filled_good.
Qed.

Lemma log_delete_change user sessions pk g : tidy_log sessions g -> log_change user sessions g (log_delete user pk g).2.
Proof.
  intros T. unfold log_delete. destruct (own_entry user pk g) as [e|] eqn:He; [|apply lc_refl].
  apply lc_drop. intros e' He' E%negb_false_iff%Z.eqb_eq. by apply (own_pk user sessions pk g e).
Qed.

(** Sessions have keys of their own. *)
Definition keyed (sessions : list (Z * Session)) : Prop := NoDup ((fun x => ss_id x.2) <$> sessions).

Lemma own_session_spec user pk sessions s :
  own_session user pk sessions = Some s -> (user, s) ∈ sessions /\ ss_id s = pk.
Proof.
  unfold own_session. intros ([o s'] & E & ->)%fmap_Some. apply find_some in E as [H E].
  rewrite <- list_elem_of_In in H. cbn in *. apply andb_true_iff in E as [E1%Z.eqb_eq E2%Z.eqb_eq]. by subst.
Qed.

Lemma keyed_owner sessions user s x :
  keyed sessions -> (user, s) ∈ sessions -> x ∈ sessions -> ss_id s = ss_id x.2 -> x.1 = user.
Proof.
  intros K [i Hi]%list_elem_of_lookup [j Hj]%list_elem_of_lookup E.
  assert (i = j) as ->; [|by rewrite Hi in Hj; injection Hj as <-].
  eapply NoDup_lookup; [exact K| |]; rewrite list_lookup_fmap; [by rewrite Hi|]. rewrite Hj. cbn. by rewrite E.
Qed.

Lemma session_delete_spec user pk sessions g :
  keyed sessions -> tidy_log sessions g ->
  let '(_, sessions', g') := session_delete user pk sessions g in
  log_change user sessions g g' /\ keyed sessions' /\ tidy_log sessions' g'
  /\ (forall v, v <> user -> List.filter (fun x => x.1 =? v) sessions' = List.filter (fun x => x.1 =? v) sessions).
Proof.
  intros K T. unfold session_delete. destruct (own_session user pk sessions) as [s|] eqn:E.
  2: { split_and!; [apply lc_refl|done|done|done]. }
  apply own_session_spec in E as [Hs <-].
  assert (C : log_change user sessions g (g <| lg_rows := unlink_session (ss_id s) <$> lg_rows g |>)).
  { apply lc_map. intros e He. unfold unlink_session. case_bool_decide as E; [|auto]. split; [done|]. right.
    destruct T as [_ _ _ TL]. rewrite Forall_forall in TL. specialize (TL e He (user, s) Hs E). cbn in TL.
    split; [done|]. split; [done|]. split; [done|]. by right. }
  split; [exact C|]. apply log_change_tidy in C; [|done]. split_and!.
  - unfold keyed. eapply sublist_NoDup; [exact K|]. apply fmap_sublist. clear.
    induction sessions as [|x l IH]; cbn; [done|]. destruct (negb _); by constructor.
  - destruct C as [C1 C2 C3 C4]. split; try done. eapply Forall_impl; [exact C4|].
    intros e H x [Hx _]%filter_in. by apply H.
  - intros v Hv. assert (D : forall x, x ∈ sessions -> ss_id x.2 = ss_id s -> x.1 = user)
      by (intros x Hx Ex; by apply (keyed_owner sessions user s)).
    clear -D Hv. induction sessions as [|x l IH]; cbn; [done|].
    rewrite <- IH by (intros y Hy; apply D; by apply list_elem_of_further).
    destruct (ss_id x.2 =? ss_id s) eqn:Ex; cbn; [|done].
    apply Z.eqb_eq in Ex. rewrite (D x) by (done || apply list_elem_of_here).
    by rewrite (proj2 (Z.eqb_neq _ _)) by done.
Qed.

(** *** Imports *)

Lemma import_record_new user r c db c' db' sessions :
  import_record user r (c, db) = Some (c', db') ->
  exists new, db' = db ++ new /\ Forall (good_row user sessions) new.
Proof.
  unfold import_record. destruct (parse_adif_when r) as [when|].
  2: { intros [= <- <-]. exists []. by rewrite app_nil_r. }
  destruct (negb _). { intros [= <- <-]. exists []. by rewrite app_nil_r. }
  destruct (MAX_STAMP <? _); [done|]. destruct (logged _ _ _ _); intros [= <- <-].
  - exists []. by rewrite app_nil_r.
  - eexists. split; [done|]. constructor; [|done]. split; [done|]. split; [|done]. split; [apply upper_upper|done].
Qed.

(** The log after an import, whether it ended or raised. *)
Definition import_log (r : result (list QSO) (Counts * list QSO)) : list QSO :=
  match r with Ok (_, db) => db | Err db => db end.

Lemma import_records_new user sessions records c db :
  exists new, import_log (import_records user records (c, db)) = db ++ new /\ Forall (good_row user sessions) new.
Proof.
  revert c db. induction records as [|r rs IH]; intros c db; cbn [import_records].
  { exists []. by rewrite app_nil_r. }
  destruct (import_record user r (c, db)) as [[c1 db1]|] eqn:E; [|exists []; by rewrite app_nil_r].
  apply (import_record_new _ _ _ _ _ _ sessions) in E as (n1 & -> & H1).
  destruct (IH c1 (db ++ n1)) as (n2 & -> & H2). exists (n1 ++ n2). by rewrite app_assoc, Forall_app.
Qed.

Lemma imported_rows user text g sessions :
  let db := import_log (import_adif user text (en_qso <$> lg_rows g)) in
  Forall (good_row user sessions) (drop (length (lg_rows g)) db).
Proof.
  unfold import_adif. destruct (import_records_new user sessions (parse_adif text) (Build_Counts 0 0 0)
    (en_qso <$> lg_rows g)) as (new & -> & H).
  by rewrite drop_app_length' by (by rewrite length_fmap).
Qed.

Lemma added_change user sessions g text :
  log_change user sessions g (added (import_log (import_adif user text (en_qso <$> lg_rows g))) g).
Proof. apply lc_add, imported_rows. Qed.

Lemma log_import_change user sessions file g : log_change user sessions g (log_import user file g).2.
Proof.
  unfold log_import. destruct file as [[n [size|] data]|]; cbn [up_size]; [|apply lc_refl..].
  destruct (_ <? _); [apply lc_refl|]. cbn [up_data].
  pose proof (added_change user sessions g (decode_replace data)) as C.
  by destruct (import_adif _ _ _) as [[c db]|db].
Qed.

Section Keeping.
Context {K R X : Type} {L : StationLib K R X}.
Notation Station := (Station (K := K) (X := X)).
Notation Moment := (Moment (R := R)).
Implicit Types (d : Desk K X) (ks : KeyStore K) (st : Station).

(** *** Keys and credentials *)

(** The key store later: still in order, with the key it had. *)
Definition key_later ks ks' : Prop :=
  coherent ks -> coherent ks' /\ forall k, ks_file ks = Some k -> ks_file ks' = Some k.

Lemma key_later_refl ks : key_later ks ks.
Proof. done. Qed.
Lemma key_later_trans ks ks1 ks2 : key_later ks ks1 -> key_later ks1 ks2 -> key_later ks ks2.
Proof. intros H1 H2 C. destruct (H1 C) as [C1 F1]. destruct (H2 C1) as [C2 F2]. auto. Qed.
Lemma key_later_reset ks : key_later ks (reset_cache ks).
Proof. intros _. split; [by left|done]. Qed.

Lemma get_fernet_keeps fresh ks : key_later ks (get_fernet fresh ks).2.
Proof.
  intros C. split; [by apply get_fernet_file|]. intros k Hk. unfold get_fernet.
  destruct (ks_cache ks) eqn:E; [done|]. by rewrite Hk.
Qed.

Lemma seal_keeps (n : R) v ks : key_later ks (seal n v ks).2.
Proof.
  unfold seal, encrypt. destruct (nonempty v); [|done].
  pose proof (get_fernet_keeps fresh_key ks) as H. by destruct (get_fernet fresh_key ks).
Qed.

Lemma unseal_keeps v ks : key_later ks (unseal v ks).2.
Proof.
  unfold unseal, decrypt. destruct (nonempty v); [|done]. destruct (startswith v PREFIX); [|done].
  pose proof (get_fernet_keeps fresh_key ks) as H. by destruct (get_fernet fresh_key ks).
Qed.

(** What is stored of a secret is nothing, or sealed. *)
Definition at_rest (stored : pystr) : Prop := stored = [] \/ startswith stored PREFIX = true.

Lemma seal_at_rest (n : R) v ks : at_rest (seal n v ks).1.
Proof.
  destruct v as [|c v]; [by left|]. right. by apply encrypt_marked.
Qed.

Lemma get_password_keeps (n : R) stored ks :
  let '(_, stored', _, ks') := get_password fernet_encrypt fernet_decrypt fresh_key n stored ks in
  key_later ks ks' /\ (at_rest stored -> stored' = stored).
Proof.
  unfold get_password. pose proof (unseal_keeps stored ks) as H1. unfold unseal in H1.
  destruct (decrypt fernet_decrypt fresh_key stored ks) as [raw ks1] eqn:E. cbn in H1.
  destruct (nonempty raw && negb (startswith stored (u "enc:"))) eqn:Eg; [|done].
  pose proof (seal_keeps n raw ks1) as H2. unfold seal in H2.
  destruct (encrypt fernet_encrypt fresh_key n raw ks1) as [p ks2]. split; [by eapply key_later_trans|].
  apply andb_true_iff in Eg as [Er Ep%negb_true_iff]. intros [-> |A]; [by cbn in E; injection E as <- _|].
  change (u "enc:") with PREFIX in Ep. congruence.
Qed.

(** What a request of an operator leaves of the desk. *)
Record desk_change (user : Z) d d' : Prop := {
  dc_qrz : forall v, v <> user -> dk_qrz d' !! v = dk_qrz d !! v;
  dc_eqsl : forall v, v <> user -> dk_eqsl d' !! v = dk_eqsl d !! v;
  dc_keys : key_later (dk_keys d) (dk_keys d');
}.

Lemma desk_refl user d : desk_change user d d.
Proof. done. Qed.

(** The secrets of a row that is not posted to stay as they are. *)
Definition row_kept (row row' : QrzRow) : Prop :=
  qr_logbook_key row' = qr_logbook_key row /\ (at_rest (qr_password row) -> qr_password row' = qr_password row).
Definition secrets_kept (v : Z) d d' : Prop :=
  forall row, dk_qrz d !! v = Some row -> exists row', dk_qrz d' !! v = Some row' /\ row_kept row row'.

Lemma row_kept_refl row : row_kept row row.
Proof. done. Qed.
Lemma row_kept_trans r r1 r2 : row_kept r r1 -> row_kept r1 r2 -> row_kept r r2.
Proof.
  intros [H1 H2] [H3 H4]. split; [congruence|]. intros A. specialize (H2 A). rewrite H4; [done|]. by rewrite H2.
Qed.
Lemma secrets_kept_same v d d' : dk_qrz d' !! v = dk_qrz d !! v -> secrets_kept v d d'.
Proof. intros E row H. exists row. by rewrite E. Qed.
Lemma secrets_kept_trans v d d1 d2 : secrets_kept v d d1 -> secrets_kept v d1 d2 -> secrets_kept v d d2.
Proof.
  intros H1 H2 row Hr. destruct (H1 row Hr) as (r1 & Hr1 & K1). destruct (H2 r1 Hr1) as (r2 & Hr2 & K2).
  exists r2. split; [done|]. by eapply row_kept_trans.
Qed.

Lemma put_qrz_change user row ks x d : key_later (dk_keys d) ks -> desk_change user d (put_qrz user row ks x d).
Proof. intros H. split; [|done|done]. intros v Hv. cbn. by apply lookup_insert_ne. Qed.
Lemma put_eqsl_change user row ks d : key_later (dk_keys d) ks -> desk_change user d (put_eqsl user row ks d).
Proof. intros H. split; [done| |done]. intros v Hv. cbn. by apply lookup_insert_ne. Qed.

Lemma put_qrz_kept v row row' ks x d : dk_qrz d !! v = Some row -> row_kept row row' -> secrets_kept v d (put_qrz v row' ks x d).
Proof. intros E H r Hr. exists row'. cbn. rewrite lookup_insert_eq. split; [done|]. congruence. Qed.

(** Reading a password keeps the row. *)
Lemma qrz_password_keeps (n : R) row ks :
  let '(_, row', ks') := qrz_password n row ks in key_later ks ks' /\ row_kept row row'.
Proof.
  unfold qrz_password. pose proof (get_password_keeps n (qr_password row) ks) as H.
  destruct (get_password _ _ _ _ _ _) as [[[raw p] saved] ks']. destruct H as [H1 H2]. by split.
Qed.
Lemma eqsl_password_keeps (n : R) row ks : key_later ks (eqsl_password n row ks).2.
Proof.
  unfold eqsl_password. pose proof (get_password_keeps n (eq_password row) ks) as H.
  destruct (get_password _ _ _ _ _ _) as [[[raw p] saved] ks']. by destruct H.
Qed.

Lemma callbook_keeps (n : R) user call d :
  desk_change user d (callbook n user call d).2 /\ secrets_kept user d (callbook n user call d).2.
Proof.
  unfold callbook. destruct (dk_qrz d !! user) as [row|] eqn:E; [|split; [done|by apply secrets_kept_same]].
  destruct (_ || _); [split; [done|by apply secrets_kept_same]|].
  pose proof (qrz_password_keeps n row (dk_keys d)) as H. destruct (qrz_password _ _ _) as [[pw row'] ks].
  destruct (lookup_for_user _ _ _ _) as [[info p] x]. destruct H as [H1 H2]. cbn. split.
  - by apply put_qrz_change.
  - by apply (put_qrz_kept user row).
Qed.

(** *** Logging a contact *)

Lemma quick_log_row {W} (lookup : Z -> pystr -> W -> option QRZInfo * W) now db user call session freq source rst w :
  let '(q, db', w') := quick_log lookup now db user call session freq source rst w in
  qs_user q = user /\ qs_call q = upper (strip call) /\ qs_band q = band_for_freq (qs_freq_mhz q)
  /\ qs_session q = ss_id <$> session /\ (w' = w \/ w' = (lookup user (upper (strip call)) w).2).
Proof.
  unfold quick_log. cbv zeta. match goal with |- context [band_for_freq ?f] => generalize f end. intros f.
  generalize (upper (strip call)). intros c.
  destruct (lookup user c w) as [info w1]. destruct (newest _) as [p|]; cbn.
  - destruct (nonempty (qs_name p)); [cbn; auto 10|]. destruct info; split_and!; auto.
  - destruct info; split_and!; auto.
Qed.

Lemma band_of_nan f : float_is_nan f = true -> band_for_freq (Some f) = [].
Proof. by destruct f. Qed.

Lemma as_stored_row q :
  qs_user (as_stored q) = qs_user q /\ qs_call (as_stored q) = qs_call q /\ qs_session (as_stored q) = qs_session q
  /\ (qs_band q = band_for_freq (qs_freq_mhz q) -> qs_band (as_stored q) = band_for_freq (qs_freq_mhz (as_stored q))).
Proof.
  unfold as_stored. destruct (qs_freq_mhz q) as [f|] eqn:E; [|by rewrite E].
  destruct (float_is_nan f) eqn:En; cbn [andb]; [|by rewrite E].
  destruct (negb _); [|by rewrite E]. cbn. split_and!; try done. rewrite (band_of_nan f En). by intros ->.
Qed.

Lemma posted_session_spec user o sessions r :
  posted_session user o sessions = Ok r -> forall x, r = Some x -> (user, x) ∈ sessions.
Proof.
  unfold posted_session. destruct (jtruthy _); [|by intros [= <-]].
  destruct (pk_of _) as [pk|]; [|done]. intros [= <-] x H. by apply own_session_spec in H as [? _].
Qed.

Lemma log_quick_change now (n : R) user data sessions g d :
  keyed sessions ->
  let '(_, g', d') := log_quick now n user data sessions g d in
  log_change user sessions g g' /\ desk_change user d d' /\ secrets_kept user d d'.
Proof.
  intros Hk. assert (Same : log_change user sessions g g /\ desk_change user d d /\ secrets_kept user d d).
  { split_and!; [apply lc_refl|done|by apply secrets_kept_same]. }
  unfold log_quick. destruct data as [| | | | | |o]; try done.
  destruct (negb (jtruthy _)); [done|]. destruct (negb (is_callsign _)); [done|].
  set (call := upper (strip _)).
  destruct (posted_session user o sessions) as [session|e] eqn:Es; [|done].
  destruct (posted_freq o) as [f|e]; [|done]. cbn [mbind result_bind].
  match goal with |- context [quick_log ?lk ?now ?db ?us ?c ?se ?fr ?so ?rst ?w] =>
    pose proof (quick_log_row lk now db us c se fr so rst w) as H;
    destruct (quick_log lk now db us c se fr so rst w) as [[q db'] d'] eqn:E end.
  destruct H as (H1 & H2 & H3 & H4 & H5). destruct (as_stored_row q) as (A1 & A2 & A3 & A4).
  pose proof (append_change user sessions (as_stored q) g) as C. destruct (append_qso (as_stored q) g) as [e g'].
  split.
  - apply C. split; [congruence|]. split.
    + split; [rewrite A2, H2; apply upper_upper|]. intros _. by apply A4.
    + intros x Hx. rewrite A3, H4, A1, H1. destruct session as [s|]; [|done]. intros [= Ei].
      apply (keyed_owner sessions user s x); [done| |done|done]. by eapply posted_session_spec.
  - destruct H5 as [-> | ->]; [apply Same|]. apply callbook_keeps.
Qed.

Lemma log_lookup_change (n : R) user asked g d :
  let d' := (log_lookup n user asked g d).2 in desk_change user d d' /\ secrets_kept user d d'.
Proof.
  unfold log_lookup. destruct (negb _); [split; [done|by apply secrets_kept_same]|].
  match goal with |- context [callbook n user ?c d] => pose proof (callbook_keeps n user c d) as H;
    by destruct (callbook n user c d) as [info d'] end.
Qed.

(** *** The services *)

Lemma zlen_fmap {A B} (f : A -> B) l : zlen (f <$> l) = zlen l.
Proof. unfold zlen. by rewrite length_fmap. Qed.
Lemma zlen_numbered next qs : zlen (numbered next qs) = zlen qs.
Proof. unfold zlen, numbered. by rewrite length_imap. Qed.

Lemma numbered_log_length db g : zlen db = zlen (lg_rows g) -> numbered_log db g = g <| lg_rows := db |>.
Proof. intros E. unfold numbered_log. cbn. f_equal. lia. Qed.
Lemma numbered_log_same g : numbered_log (lg_rows g) g = g.
Proof. rewrite numbered_log_length by done. by destruct g. Qed.

(** The rows with these keys are the operator's. *)
Definition own_keys (user : Z) (pks : list Z) (db : list Entry) : Prop :=
  forall e, e ∈ db -> en_pk e ∈ pks -> owner e = user.

Lemma own_keys_listed user pks db sessions g (p : Entry -> bool) :
  tidy_log sessions g -> db = lg_rows g -> pks = en_pk <$> newest_first (List.filter p db) ->
  (forall e, p e = true -> owner e = user) -> own_keys user pks db.
Proof.
  intros T -> -> Hp e He (e' & E & He')%list_elem_of_fmap. rewrite newest_first_perm in He'.
  apply filter_in in He' as [He' Hpe]. rewrite (same_entry sessions g e e') by done. auto.
Qed.

Lemma mark_change {B} user sessions (f : Entry -> Entry) (pks : list B) (hit : Entry -> bool) g :
  (forall e, en_pk (f e) = en_pk e /\ en_qso (f e) = en_qso e) ->
  (forall e, e ∈ lg_rows g -> hit e = true -> owner e = user) ->
  log_change user sessions g (g <| lg_rows := (fun e => if hit e then f e else e) <$> lg_rows g |>).
Proof.
  intros Hf Ho. apply lc_map. intros e He. destruct (hit e) eqn:E; [|auto].
  destruct (Hf e) as [H1 H2]. split; [done|]. right. unfold rewrites, owner. rewrite H2.
  specialize (Ho e He E). unfold owner in Ho. auto 10.
Qed.

Lemma mark_qrz_change user sessions now pk g :
  own_keys user [pk] (lg_rows g) -> log_change user sessions g (g <| lg_rows := mark_qrz now pk (lg_rows g) |>).
Proof.
  intros Ho. apply (mark_change user sessions (fun e => e <| en_qrz_sent := Some now |>) [pk]); [done|].
  intros e He E%Z.eqb_eq. apply Ho; [done|]. rewrite E. apply list_elem_of_here.
Qed.

Lemma export_loop_change user sessions (post : list (pystr * pystr) -> X -> result pystr pystr * X) un now key todo n m g x :
  own_keys user (en_pk <$> todo) (lg_rows g) ->
  let '(_, _, _, db, _) := export_loop post un now key todo n m (lg_rows g) x in
  log_change user sessions g (g <| lg_rows := db |>) /\ zlen db = zlen (lg_rows g).
Proof.
  revert n m g x. induction todo as [|q todo IH]; intros n m g x Ho; cbn [export_loop].
  { split; [|done]. destruct g. apply lc_refl. }
  destruct (insert_record _ _ _ _ _) as [[o|e] x']; [|split; [|done]; destruct g; apply lc_refl].
  destruct (match o with Inserted => _ | Duplicate => _ end) as [n' m'].
  assert (H1 : log_change user sessions g (g <| lg_rows := mark_qrz now (en_pk q) (lg_rows g) |>)).
  { apply mark_qrz_change. intros e He Hin. apply Ho; [done|]. rewrite list_elem_of_singleton in Hin. rewrite Hin.
    apply list_elem_of_here. }
  specialize (IH n' m' (g <| lg_rows := mark_qrz now (en_pk q) (lg_rows g) |>) x'). cbn [lg_rows] in IH.
  destruct (export_loop _ _ _ _ _ _ _ _ _) as [[[[? ?] ?] db] ?]. destruct IH as [IH1 IH2].
  - intros e (e0 & -> & He0)%list_elem_of_fmap Hin.
    assert (E : en_pk (if en_pk e0 =? en_pk q then e0 <| en_qrz_sent := Some now |> else e0) = en_pk e0
      /\ owner (if en_pk e0 =? en_pk q then e0 <| en_qrz_sent := Some now |> else e0) = owner e0)
      by (by destruct (en_pk e0 =? en_pk q)).
    destruct E as [E1 E2]. rewrite E1 in Hin. rewrite E2. apply Ho; [done|]. by apply list_elem_of_further.
  - split; [by eapply lc_trans|]. rewrite IH2. cbn. unfold mark_qrz. apply zlen_fmap.
Qed.

Lemma qrz_sync_change now user data sessions g d :
  tidy_log sessions g ->
  let '(_, g', d') := qrz_sync now user data g d in
  log_change user sessions g g' /\ desk_change user d d' /\ secrets_kept user d d'.
Proof.
  intros T. unfold qrz_sync. destruct (logbook_key user d) as [key ks] eqn:Ek.
  assert (Hks : key_later (dk_keys d) ks).
  { unfold logbook_key in Ek. destruct (dk_qrz d !! user) as [row|]; [|by injection Ek as _ <-].
    pose proof (unseal_keeps (qr_logbook_key row) (dk_keys d)) as H. by rewrite Ek in H. }
  assert (HD : forall x, desk_change user d (d <| dk_keys := ks |> <| dk_out := x |>)
                 /\ secrets_kept user d (d <| dk_keys := ks |> <| dk_out := x |>)).
  { intros x. split; [done|by apply secrets_kept_same]. }
  destruct (qrz_logbook_sync _ _ _ _ _ _ _ _ _) as [[r db] x] eqn:E. split; [|apply HD].
  assert (Same : log_change user sessions g (numbered_log (lg_rows g) g)) by (rewrite numbered_log_same; apply lc_refl).
  revert E. unfold qrz_logbook_sync. destruct (negb _); [by intros [= _ <- _]|].
  destruct (match data with JObj _ => _ | _ => _ end); try by intros [= _ <- _].
  destruct (str_eqb _ _); [|destruct (str_eqb _ _); [|by intros [= _ <- _]]].
  - unfold qrz_import. destruct (fetch_adif _ _ _ _) as [[adif|e] x']; [|by intros [= _ <- _]].
    pose proof (imported_rows user adif g sessions) as Hn. cbv zeta in Hn.
    assert (Add : log_change user sessions g
      (numbered_log (lg_rows g ++ numbered (lg_next g) (drop (length (lg_rows g))
         (import_log (import_adif user adif (en_qso <$> lg_rows g))))) g)).
    { pose proof (lc_add user sessions _ g Hn) as C. unfold numbered_log.
      rewrite zlen_app, zlen_numbered. by replace (zlen _ + zlen _ - zlen _) with
        (zlen (drop (length (lg_rows g)) (import_log (import_adif user adif (en_qso <$> lg_rows g))))) by lia. }
    destruct (import_adif _ _ _) as [[c qs]|qs]; by intros [= _ <- _].
  - unfold qrz_export. destruct (unsent_qrz user (lg_rows g)) as [|e todo] eqn:Et; [by intros [= _ <- _]|].
    pose proof (export_loop_change user sessions post_form unescape now key (e :: todo) 0 0 g (dk_out d)) as C.
    destruct (export_loop _ _ _ _ _ _ _ _ _) as [[[[er ?] ?] db'] ?]. destruct C as [C1 C2].
    { rewrite <- Et. eapply (own_keys_listed user _ _ sessions g); [done|done|reflexivity|].
      intros e' [He' _]%andb_true_iff. by apply Z.eqb_eq. }
    destruct er; intros [= _ <- _]; by rewrite numbered_log_length.
Qed.

Lemma eqsl_upload_change now (n : R) station user lf data sessions g d :
  tidy_log sessions g ->
  let '(_, g', d') := eqsl_upload now n station user lf data g d in
  log_change user sessions g g' /\ desk_change user d d' /\ dk_qrz d' = dk_qrz d.
Proof.
  intros T. unfold eqsl_upload.
  assert (HP : forall p d1 (H : desk_change user d d1 /\ dk_qrz d1 = dk_qrz d),
    let '(r, db, x) := log_eqsl_upload post_file icontains now p station user lf data (lg_rows g) (dk_out d1) in
    log_change user sessions g (g <| lg_rows := db |>) /\ desk_change user d (d1 <| dk_out := x |>)
    /\ dk_qrz (d1 <| dk_out := x |>) = dk_qrz d).
  { intros p d1 [H1 H2].
    assert (HD : forall x, desk_change user d (d1 <| dk_out := x |>) /\ dk_qrz (d1 <| dk_out := x |>) = dk_qrz d)
      by (intros x; split; [by destruct H1; split|done]).
    assert (Same : log_change user sessions g (g <| lg_rows := lg_rows g |>)) by (destruct g; apply lc_refl).
    unfold log_eqsl_upload. destruct p as [[us pw]|]; [|by split].
    destruct (_ || _); [by split|].
    destruct (eqsl_todo icontains user lf data (lg_rows g)) as [|e todo] eqn:Et; [by split|].
    destruct (upload_adif _ _ _ _ _) as [[v|er] x]; [|by split]. split; [|apply HD].
    apply (mark_change user sessions (fun e => e <| en_eqsl_sent := Some now |>) (en_pk <$> e :: todo)
      (fun e' => bool_decide (en_pk e' ∈ en_pk <$> e :: todo))); [done|].
    intros e' He' Hin%bool_decide_eq_true. rewrite <- Et in Hin.
    eapply (own_keys_listed user _ _ sessions g); [done|done|reflexivity| |done|exact Hin].
    intros e0 [H0 _]%andb_true_iff. unfold passes_filter in H0. rewrite !andb_true_iff in H0.
    destruct H0 as [[[H0 _] _] _]. by apply Z.eqb_eq. }
  destruct (dk_eqsl d !! user) as [row|].
  2: { specialize (HP None d). by destruct (log_eqsl_upload _ _ _ _ _ _ _ _ _ _) as [[r db] x]; apply HP. }
  destruct (negb (nonempty _)).
  { specialize (HP (Some ([], [])) d). by destruct (log_eqsl_upload _ _ _ _ _ _ _ _ _ _) as [[r db] x]; apply HP. }
  pose proof (eqsl_password_keeps n row (dk_keys d)) as Hk. destruct (eqsl_password _ _ _) as [[pw row'] ks].
  specialize (HP (Some (eq_username row', pw)) (put_eqsl user row' ks d)).
  destruct (log_eqsl_upload _ _ _ _ _ _ _ _ _ _) as [[r db] x]. apply HP. split; [by apply put_eqsl_change|done].
Qed.

(** *** The credential forms *)

Lemma sealed_into_keeps {A} (set : pystr -> A -> A) (n : R) raw row ks :
  key_later ks (sealed_into set n raw row ks).2.
Proof.
  unfold sealed_into. destruct (encodable raw); cbn [negb]; [|apply get_fernet_keeps].
  pose proof (seal_keeps n raw ks). by destruct (seal n raw ks).
Qed.

Lemma eqsl_update_keeps (n : R) o row ks : key_later ks (eqsl_update n o row ks).2.
Proof. unfold eqsl_update. destruct (posted_secret _ _); [apply sealed_into_keeps|done]. Qed.

Lemma eqsl_config_change (n : R) user body d :
  let d' := (eqsl_config n user body d).2 in desk_change user d d' /\ dk_qrz d' = dk_qrz d.
Proof.
  unfold eqsl_config. destruct body as [[| | | | | |o]|]; try (split; [by apply put_eqsl_change|done]).
  match goal with |- context [eqsl_update ?n ?o ?row ?ks] =>
    pose proof (eqsl_update_keeps n o row ks) as H; destruct (eqsl_update n o row ks) as [r ks'] end.
  destruct (profile_save _ _); (split; [by apply put_eqsl_change|done]).
Qed.

Lemma qrz_update_keeps (n : Z -> R) o row ks : key_later ks (qrz_update n o row ks).2.
Proof.
  unfold qrz_update. destruct (jtruthy _); [done|].
  destruct (posted_secret (u "password") o) as [pw|]; [|destruct (posted_secret _ _); [apply sealed_into_keeps|done]].
  match goal with |- context [sealed_into ?set ?n pw ?row ks] =>
    pose proof (sealed_into_keeps set n pw row ks) as H; destruct (sealed_into set n pw row ks) as [[row2|e] ks2] end; [|done].
  destruct (posted_secret (u "logbook_key") o); [|done]. eapply key_later_trans; [exact H|apply sealed_into_keeps].
Qed.

Lemma qrz_test_keeps (n : R) call row ks x :
  let '(_, row', ks', _) := qrz_test n call row ks x in key_later ks ks' /\ row_kept row row'.
Proof.
  unfold qrz_test. pose proof (qrz_password_keeps n row ks) as H. destruct (qrz_password n row ks) as [[pw row'] ks'].
  destruct (authenticate _ _ _ _) as [[key|e] x']; [|done]. destruct (negb _); [done|].
  by destruct (Credentials.lookup _ _ _ _).
Qed.

Lemma qrz_config_change (n : Z -> R) user body g d : desk_change user d (qrz_config n user body g d).2.
Proof.
  unfold qrz_config. destruct body as [[| | | | | |o]|]; try by apply put_qrz_change.
  pose proof (qrz_update_keeps n o (default no_qrz (dk_qrz d !! user)) (dk_keys d)) as H.
  destruct (qrz_update _ _ _ _) as [updated ks]. destruct (profile_save _ _) as [row|e]; [|by apply put_qrz_change].
  destruct (posted_secret _ _) as [call|]; [|by apply put_qrz_change].
  pose proof (qrz_test_keeps (n 2) (upper (strip call)) row ks (dk_out d)) as H'.
  destruct (qrz_test _ _ _ _ _) as [[[r row'] ks'] x]. destruct H' as [H' _]. apply put_qrz_change.
  by eapply key_later_trans.
Qed.

(** ** The photos *)

Record tidy_photos (photos : Table Photo) (media : Media) : Prop := {
  tp_fresh : fresh photos;
  tp_one : forall pk p pk' p', rows photos !! pk = Some p -> rows photos !! pk' = Some p' ->
    ph_user p = ph_user p' -> ph_model p = ph_model p' -> pk = pk';
  tp_files : forall pk p, rows photos !! pk = Some p -> is_Some (media !! ph_image p);
  tp_apart : forall pk p pk' p', rows photos !! pk = Some p -> rows photos !! pk' = Some p' ->
    ph_image p = ph_image p' -> pk = pk';
}.

(** An operator's photos, with the contents of their files. *)
Definition photos_of (v : Z) (photos : Table Photo) (media : Media) : gmap Z (Photo * option (list Z)) :=
  (fun p => (p, media !! ph_image p)) <$> filter (fun x => ph_user x.2 = v) (rows photos).

Lemma photos_of_eq v photos media photos' media' :
  (forall pk p, ph_user p = v -> rows photos' !! pk = Some p <-> rows photos !! pk = Some p) ->
  (forall pk p, ph_user p = v -> rows photos !! pk = Some p -> media' !! ph_image p = media !! ph_image p) ->
  photos_of v photos' media' = photos_of v photos media.
Proof.
  intros Hr Hm. unfold photos_of. apply map_eq. intros pk. apply option_eq. intros [p c].
  rewrite !lookup_fmap, !fmap_Some. split; intros (p0 & H & E); injection E as -> ->;
    apply map_lookup_filter_Some in H as [H Hv]; cbn in Hv; exists p0;
    rewrite map_lookup_filter_Some; cbn.
  - apply Hr in H; [|done]. split; [done|]. by rewrite (Hm pk).
  - split; [split; [by apply Hr|done]|]. by rewrite (Hm pk).
Qed.

(** The row a lookup finds, and that there is no other. *)
Lemma photo_of_some user model photos pk p :
  photo_of user model photos = Some (pk, p) -> rows photos !! pk = Some p /\ ph_user p = user /\ ph_model p = model.
Proof.
  unfold photo_of. intros [H E]%first_where_some. apply andb_true_iff in E as [E1%Z.eqb_eq E2%Z.eqb_eq]. done.
Qed.
Lemma photo_of_none user model photos pk p :
  photo_of user model photos = None -> rows photos !! pk = Some p -> ph_user p = user -> ph_model p <> model.
Proof.
  unfold photo_of. intros H Hp Hu Hm. pose proof (first_where_none _ _ H pk p Hp) as E. cbn in E.
  rewrite Hu, Hm, !Z.eqb_refl in E. done.
Qed.

Lemma photo_delete_tidy x photos media :
  rows photos !! x.1 = Some x.2 -> tidy_photos photos media ->
  let '(photos', media') := photo_delete x photos media in
  tidy_photos photos' media'
  /\ (forall v, v <> ph_user x.2 -> photos_of v photos' media' = photos_of v photos media).
Proof.
  destruct x as [k q]. cbn [fst snd]. intros Hq [T1 T2 T3 T4]. unfold photo_delete. cbn [fst snd].
  assert (Hl : forall pk p, rows (delete_rows (fun pk _ => pk =? k) photos) !! pk = Some p
                 <-> rows photos !! pk = Some p /\ pk <> k).
  { intros pk p. rewrite lookup_delete. by rewrite Z.eqb_neq. }
  assert (Hm : forall pk p, rows photos !! pk = Some p -> pk <> k -> delete (ph_image q) media !! ph_image p = media !! ph_image p).
  { intros pk p Hp Hk. apply lookup_delete_ne. intros E. apply Hk. by apply (T4 pk p k q). }
  split.
  - split; [by apply fresh_delete| | |].
    + intros pk p pk' p' [H _]%Hl [H' _]%Hl. by apply T2.
    + intros pk p [H Hk]%Hl. rewrite (Hm pk) by done. by apply (T3 pk).
    + intros pk p pk' p' [H _]%Hl [H' _]%Hl. by apply T4.
  - intros v Hv. apply photos_of_eq.
    + intros pk p Hp. rewrite Hl. split; [by intros []|]. intros H. split; [done|]. intros ->. congruence.
    + intros pk p Hp H. apply (Hm pk); [done|]. intros ->. congruence.
Qed.

(** An upload, from the old file to the new row. *)
Definition photo_replace (user model : Z) (name : pystr) (data : list Z) (photos : Table Photo) (media : Media) :
    result Failure pystr * Table Photo * Media :=
  let old := photo_of user model photos in
  photo_save available column_takes user model old name data photos
    (match old with Some (_, p) => delete (ph_image p) media | None => media end).

Context {Laws : StationLaws L}.

(** What an upload leaves: the others' photos, and where it was taken one row of
    its own, in a file that no other row names. *)
Definition replaced (user model : Z) (data : list Z) (photos : Table Photo) (media : Media) (r : result Failure pystr)
    (photos' : Table Photo) (media' : Media) : Prop :=
  tidy_photos photos' media'
  /\ (forall v, v <> user -> photos_of v photos' media' = photos_of v photos media)
  /\ (forall image, r = Ok image ->
        media' !! image = Some data
        /\ (exists pk, rows photos' !! pk = Some {| ph_user := user; ph_model := model; ph_image := image |})
        /\ (forall pk p, ph_user p = user -> ph_model p <> model ->
              (rows photos' !! pk = Some p <-> rows photos !! pk = Some p))).

(** A new file over an old row. *)
Lemma replace_old user model data photos media k q image :
  tidy_photos photos media -> rows photos !! k = Some q -> ph_user q = user -> ph_model q = model ->
  delete (ph_image q) media !! image = None ->
  replaced user model data photos media (Ok image) (update_row k (fun p => p <| ph_image := image |>) photos)
    (<[image := data]> (delete (ph_image q) media)).
Proof.
  intros [T1 T2 T3 T4] Hk Hu Hmo Hfree. set (media1 := delete (ph_image q) media) in *.
  assert (Hm1 : forall pk p, rows photos !! pk = Some p -> pk <> k -> media1 !! ph_image p = media !! ph_image p).
  { intros pk p Hp Hn. apply lookup_delete_ne. intros E. apply Hn. by apply (T4 pk p k q). }
  assert (Hi : forall pk p, rows photos !! pk = Some p -> pk <> k -> image <> ph_image p).
  { intros pk p Hp Hn E. destruct (T3 pk p Hp) as [c Hc]. rewrite E, (Hm1 pk), Hc in Hfree by done. done. }
  set (photos' := update_row k (fun p => p <| ph_image := image |>) photos).
  assert (Hrow : rows photos' !! k = Some (q <| ph_image := image |>)) by (by apply update_row_hit).
  assert (Hinv : forall pk p, rows photos' !! pk = Some p ->
            (pk = k /\ p = q <| ph_image := image |>) \/ (pk <> k /\ rows photos !! pk = Some p)).
  { intros pk p (p0 & H & [[-> ->]|[Hn ->]])%update_row_inv; [left|by right]. split; [done|]. congruence. }
  assert (Heq : q <| ph_image := image |> = {| ph_user := user; ph_model := model; ph_image := image |})
    by (by rewrite <- Hu, <- Hmo).
  split; [|split].
  - split; [by apply fresh_update| | |].
    + intros pk p pk' p' [[-> ->]|[Hn H]]%Hinv [[-> ->]|[Hn' H']]%Hinv Eu Em; [done| | |by eapply T2];
        cbn in Eu, Em; [symmetry|]; eapply T2; eauto.
    + intros pk p [[-> ->]|[Hn H]]%Hinv; [cbn; rewrite lookup_insert_eq; by eexists|].
      rewrite lookup_insert_ne, (Hm1 pk) by (done || by eapply Hi). by eapply T3.
    + intros pk p pk' p' [[-> ->]|[Hn H]]%Hinv [[-> ->]|[Hn' H']]%Hinv Eu; [done| | |by eapply T4];
        cbn in Eu; exfalso; eapply Hi; eauto.
  - intros v Hv. apply photos_of_eq.
    + intros pk p Hp. destruct (decide (pk = k)) as [->|Hn]; [|by subst photos'; rewrite update_row_miss].
      rewrite Hrow, Hk. split; intros [= E]; exfalso; apply Hv; by rewrite <- Hp, <- E.
    + intros pk p Hp H. assert (pk <> k) by (intros ->; congruence).
      rewrite lookup_insert_ne by (by eapply Hi). by apply (Hm1 pk).
  - intros i [= <-]. split_and!; [apply lookup_insert_eq|exists k; by rewrite <- Heq|].
    intros pk p Hp Hn. destruct (decide (pk = k)) as [->|Hk']; [|by subst photos'; rewrite update_row_miss].
    rewrite Hrow, Heq. split; [by intros [= <-]|]. intros H. congruence.
Qed.

(** A first photo of a model, or one whose row the database does not take. *)
Lemma replace_new user model data photos media image :
  tidy_photos photos media -> photo_of user model photos = None -> media !! image = None ->
  replaced user model data photos media (Ok image)
    (insert_row {| ph_user := user; ph_model := model; ph_image := image |} photos).2 (<[image := data]> media)
  /\ replaced user model data photos media (Err Uncaught) photos (<[image := data]> media).
Proof.
  intros [T1 T2 T3 T4] Eo Hfree.
  assert (Hi : forall pk p, rows photos !! pk = Some p -> image <> ph_image p).
  { intros pk p Hp E. destruct (T3 pk p Hp) as [c Hc]. congruence. }
  assert (Hm : forall pk p, rows photos !! pk = Some p -> <[image := data]> media !! ph_image p = media !! ph_image p).
  { intros pk p Hp. rewrite lookup_insert_ne by (by eapply Hi). done. }
  set (row := {| ph_user := user; ph_model := model; ph_image := image |}).
  assert (Hold : forall pk p, rows photos !! pk = Some p -> rows (insert_row row photos).2 !! pk = Some p)
    by (intros pk p; by apply insert_row_old).
  assert (Hno : forall pk p, rows photos !! pk = Some p -> ph_user p = user -> ph_model p = model -> False)
    by (intros pk p Hp Hu Hm'; by apply (photo_of_none user model photos pk p)).
  split; (split; [|split]); [| | | | |done].
  - split; [by apply fresh_insert| | |].
    + intros pk p pk' p' [[-> ->]|[_ H]]%insert_row_inv [[-> ->]|[_ H']]%insert_row_inv Eu Em; [done| | |by eapply T2];
        cbn in Eu, Em; exfalso; eapply Hno; eauto.
    + intros pk p [[-> ->]|[_ H]]%insert_row_inv; [cbn; rewrite lookup_insert_eq; by eexists|].
      rewrite (Hm pk) by done. by eapply T3.
    + intros pk p pk' p' [[-> ->]|[_ H]]%insert_row_inv [[-> ->]|[_ H']]%insert_row_inv Eu; [done| | |by eapply T4];
        cbn in Eu; exfalso; eapply Hi; eauto.
  - intros v Hv. apply photos_of_eq.
    + intros pk p Hp. split; [|apply Hold]. intros [[-> ->]|[_ H]]%insert_row_inv; [by cbn in Hp|done].
    + intros pk p _ Hp. by apply (Hm pk).
  - intros i [= <-]. split_and!; [apply lookup_insert_eq|exists (next_pk photos); apply lookup_insert_row|].
    intros pk p Hp Hn. split; [|apply Hold]. intros [[-> ->]|[_ H]]%insert_row_inv; [by cbn in Hn|done].
  - split; [done|done| |done]. intros pk p Hp. rewrite (Hm pk) by done. by eapply T3.
  - intros v Hv. apply photos_of_eq; [done|]. intros pk p _ Hp. by apply (Hm pk).
Qed.

Lemma photo_replace_spec user model name data photos media :
  tidy_photos photos media ->
  let '(r, photos', media') := photo_replace user model name data photos media in
  replaced user model data photos media r photos' media'.
Proof.
  intros T. unfold photo_replace, photo_save.
  destruct (photo_of user model photos) as [[k q]|] eqn:Eo.
  - apply photo_of_some in Eo as (Hk & Hu & Hmo). apply replace_old; try done.
    apply not_elem_of_dom, available_free.
  - assert (Hfree : media !! available (rig_photo_path user model name) (dom media) = None)
      by (apply not_elem_of_dom, available_free).
    destruct (replace_new user model data photos media _ T Eo Hfree) as [H1 H2]. by destruct (column_takes model).
Qed.

Lemma rig_photo_unfold user body image model photos media :
  rig_photo available column_takes media_url user body image model photos media =
  match removal body with
  | Some None => (Err (ApiError (u "Provide the rig 'model' number to remove") 400), photos, media)
  | Some (Some (model, text)) =>
      let '(photos, media) :=
        match photo_of user model photos with Some x => photo_delete x photos media | None => (photos, media) end in
      (Ok (text, None), photos, media)
  | None =>
      match photo_upload image model with
      | Err e => (Err e, photos, media)
      | Ok (model, name, data) =>
          let '(r, photos, media) := photo_replace user model name data photos media in
          ((fun image => (str_of_Z model, Some (media_url image))) <$> r, photos, media)
      end
  end.
Proof.
  unfold rig_photo, photo_replace. destruct (removal body) as [[[mo t]|]|]; [done|done|].
  destruct (photo_upload image model) as [[[mo name] data]|e]; [|done].
  by destruct (photo_save _ _ _ _ _ _ _ _ _) as [[[i|e] p] me].
Qed.

Lemma rig_photo_keeps user body image model photos media :
  tidy_photos photos media ->
  let '(_, photos', media') := rig_photo available column_takes media_url user body image model photos media in
  tidy_photos photos' media' /\ (forall v, v <> user -> photos_of v photos' media' = photos_of v photos media).
Proof.
  intros T. rewrite rig_photo_unfold. destruct (removal body) as [[[mo t]|]|]; [|done|].
  - destruct (photo_of user mo photos) as [[k q]|] eqn:E; [|done]. apply photo_of_some in E as (Hk & Hu & _).
    pose proof (photo_delete_tidy (k, q) photos media Hk T) as H. destruct (photo_delete _ _ _) as [p me].
    cbn in H. by rewrite Hu in H.
  - destruct (photo_upload image model) as [[[mo name] data]|e]; [|done].
    pose proof (photo_replace_spec user mo name data photos media T) as H.
    destruct (photo_replace _ _ _ _ _ _) as [[r p] me]. by destruct H as (H1 & H2 & _).
Qed.

(** ** The surveys *)

Record tidy_surveys (surveys : Table Survey) : Prop := {
  ts_fresh : fresh surveys;
  ts_rows : forall pk s, rows surveys !! pk = Some s ->
    sv_antenna s <> [] /\ sv_results s <> [] /\ Forall (fun row => sc_band row ∈ BandScan.BANDS) (sv_results s);
}.

Definition surveys_of (v : Z) (surveys : Table Survey) : gmap Z Survey := filter (fun x => sv_user x.2 = v) (rows surveys).

Lemma surveys_of_delete v user pk s surveys :
  rows surveys !! pk = Some s -> sv_user s = user -> v <> user ->
  surveys_of v (delete_rows (fun k _ => k =? pk) surveys) = surveys_of v surveys.
Proof.
  intros Hs Hu Hv. unfold surveys_of. apply map_eq. intros k. apply option_eq. intros x.
  rewrite !map_lookup_filter_Some, lookup_delete, Z.eqb_neq. cbn. split; [naive_solver|].
  intros [Hk Hx]. split; [split; [done|]|done]. intros ->. congruence.
Qed.

Lemma surveys_of_insert v s surveys :
  fresh surveys -> v <> sv_user s -> surveys_of v (insert_row s surveys).2 = surveys_of v surveys.
Proof.
  intros F Hv. unfold surveys_of. apply map_eq. intros k. apply option_eq. intros x.
  rewrite !map_lookup_filter_Some. cbn. split.
  - intros [[[-> ->]|[_ H]]%insert_row_inv Hx]; [by cbn in Hx|done].
  - intros [H Hx]. split; [by apply insert_row_old|done].
Qed.

Notation Bench := (Table Survey * X)%type.
Notation job := (Job (W := Bench)).

Lemma survey_delete_spec user o surveys :
  tidy_surveys surveys ->
  let surveys' := (survey_delete user o surveys).2 in
  tidy_surveys surveys' /\ (forall v, v <> user -> surveys_of v surveys' = surveys_of v surveys).
Proof.
  intros [T1 T2]. unfold survey_delete. destruct (or_error _ _) as [pk|e]; [|done].
  destruct (first_where _ surveys) as [[k s]|] eqn:E; [|done]. apply first_where_some in E as [Hs E].
  apply andb_true_iff in E as [_ Hu%Z.eqb_eq]. cbn [snd]. split.
  - split; [by apply fresh_delete|]. intros k' s' [H _]%lookup_delete. by apply (T2 k').
  - intros v Hv. by apply (surveys_of_delete v user k s).
Qed.

(** A job the worker has not begun: who asked for it, and what it may save. *)
Definition job_ok (st_job : option (Z * job)) (scan : Scan) : Prop :=
  match st_job with
  | None => sn_running scan = false
  | Some (user, job) =>
      sn_running scan = true /\ sn_error scan = None /\ sn_results scan = [] /\ sn_done scan = 0
      /\ jb_bands job <> [] /\ Forall (fun b => b ∈ BandScan.BANDS) (jb_bands job)
      /\ (jb_on_finish job = None
          \/ (exists o, jb_on_finish job = Some (persist repr clock survey_fits user o)) /\ jb_antenna job <> [])
  end.

Lemma known_bands keys : Forall (fun b : Band float => b ∈ BandScan.BANDS) (omap BANDS_BY_KEY keys).
Proof.
  apply Forall_forall. intros b (key & _ & H)%list_elem_of_omap. unfold BANDS_BY_KEY in H.
  apply find_some in H as [H _]. by apply list_elem_of_In.
Qed.

Lemma survey_start_job user probe o r s :
  let '(res, r', s') := survey_start (X := X) repr scan_message clock survey_fits user probe o r s in
  match res with
  | Err _ => s' = s
  | Ok job => sn_running s = false /\ job_ok (Some (user, job)) s'
      /\ (exists keys gain index, survey_arguments repr o = Ok (keys, gain, index) /\ jb_bands job = omap BANDS_BY_KEY keys)
      /\ jb_on_finish job = (if saves o then Some (persist repr clock survey_fits user o) else None)
  end.
Proof.
  unfold survey_start. destruct (survey_arguments repr o) as [[[keys gain] index]|e] eqn:Ea; [|done].
  destruct (list_devices false probe r) as [devices probed].
  destruct (BandScan.start _ _ _ _ _ _ _ _ _) as [res s'] eqn:E. apply survey_start_spec in E.
  destruct res as [job|e]; [|done].
  destruct E as (H1 & _ & H2 & H3 & H4 & H5 & H6 & _ & _ & H7 & H8 & H9 & _).
  split_and!; [done| |by eauto 10|done]. unfold job_ok. split_and!; try done; [rewrite H3; apply known_bands|].
  rewrite H5. destruct (saves o); [right|by left]. split; [by eexists|]. by apply H6.
Qed.

(** The worker leaves the surveys alone while it sweeps. *)
Lemma sweep_band_bench band gain dev direct files surveys x :
  (sweep_band have_power (bench_power power) band gain dev direct (files, (surveys, x))).2.2.1 = surveys.
Proof.
  unfold sweep_band, bench_power. destruct (negb have_power); [done|]. cbn [snd fst].
  destruct (power _ x) as [run x']. by destruct run.
Qed.

Lemma sweep_bands_bench (j : job) bands results s files surveys x :
  (sweep_bands have_power (bench_power power) j bands results s (files, (surveys, x))).2.2.1 = surveys.
Proof.
  revert results s files x. induction bands as [|b bands IH]; intros results s files x; cbn [sweep_bands]; [done|].
  match goal with |- context [sweep_band ?a ?b ?c ?d ?e ?f ?g] =>
    pose proof (sweep_band_bench c d e f files surveys x) as H; destruct (sweep_band a b c d e f g) as [r [fs [t x']]] end.
  cbn in H. subst t. destruct r as [score|e]; [apply IH|done].
Qed.

(** What the worker's run comes to: the scanner free, and one survey more
    exactly when every band was swept, it was to be kept and the database took
    it. *)
Lemma worker_kept user (j : job) s files surveys x :
  job_ok (Some (user, j)) s ->
  let '(s', (_, (surveys', _))) := worker have_power (bench_power power) j s (files, (surveys, x)) in
  sn_running s' = false
  /\ (sn_error s' = None -> sc_band <$> sn_results s' = jb_bands j)
  /\ (surveys' = surveys /\ (sn_error s' = None -> jb_on_finish j = None)
      \/ exists row, surveys' = (insert_row row surveys).2 /\ sn_error s' = None /\ jb_on_finish j <> None
           /\ sv_user row = user /\ sv_antenna row = jb_antenna j /\ sv_results row = sn_results s'
           /\ sv_device row = slice_to 120 (jb_device j) /\ sv_gain_db row = jb_gain_db j).
Proof.
  intros (Hrun & He & Hr & Hd & Hb & Hall & Hf). unfold worker.
  pose proof (sweep_bands_bench j (jb_bands j) [] s files surveys x) as Hs.
  destruct (sweep_bands _ _ j _ _ s _) as [[results s1] [fs [t x1]]] eqn:E. cbn in Hs. subst t.
  apply sweep_bands_swept in E as ((dn & left & Hl & Hm & Hle) & Hr1 & _); [|done|done|by rewrite Hd].
  cbn in Hm. unfold finish.
  destruct Hf as [Hf | [(o & Hf) Ha]]; rewrite Hf.
  { cbn. split; [done|]. split; [|by left]. intros E. apply Hle in E as ->.
    by rewrite Hr1, Hl, app_nil_r. }
  destruct (decide (sn_error s1 = None)) as [E|E].
  - pose proof (proj1 Hle E) as ->. rewrite app_nil_r in Hl.
    assert (Hne : results <> []) by (intros ->; cbn in Hm; congruence).
    rewrite (bool_decide_eq_false_2 _ Hne), (bool_decide_eq_true_2 _ E). cbn [negb andb]. unfold persist.
    destruct (survey_fits _); cbn; (split; [done|]); (split; [|]).
    + intros _. by rewrite Hr1, Hl.
    + right. eexists. split; [reflexivity|]. rewrite E, Hr1. by split_and!.
    + done.
    + by left.
  - rewrite (bool_decide_eq_false_2 _ E), andb_false_r. cbn. split; [done|]. split; [done|]. by left.
Qed.

Lemma insert_survey_tidy row surveys :
  tidy_surveys surveys -> sv_antenna row <> [] -> sv_results row <> [] ->
  Forall (fun r => sc_band r ∈ BandScan.BANDS) (sv_results row) -> tidy_surveys (insert_row row surveys).2.
Proof.
  intros [T1 T2] H1 H2 H3. split; [by apply fresh_insert|].
  intros pk s [[-> ->]|[_ H]]%insert_row_inv; [done|]. by apply (T2 pk).
Qed.

(** ** The station *)

Record tidy (st : Station) : Prop := {
  t_keys : coherent (dk_keys (st_desk st));
  t_keyed : keyed (st_sessions st);
  t_log : tidy_log (st_sessions st) (st_log st);
  t_photos : tidy_photos (st_photos st) (st_media st);
  t_surveys : tidy_surveys (st_surveys st);
  t_job : job_ok (st_job st) (st_scan st);
}.

(** What the station keeps for an operator. *)
Definition belongings (v : Z) st :=
  (entries_of v (st_log st), List.filter (fun x : Z * Session => x.1 =? v) (st_sessions st),
   dk_qrz (st_desk st) !! v, dk_eqsl (st_desk st) !! v, photos_of v (st_photos st) (st_media st),
   surveys_of v (st_surveys st)).

(** No survey of theirs is running. *)
Definition no_survey_of (v : Z) st : Prop := forall j, st_job st <> Some (v, j).

(** One step of an operator: the station stays in order, and what is not
    theirs as it was. *)
Definition stepped (user : Z) st st' : Prop :=
  tidy st' /\ forall v, v <> user -> no_survey_of v st -> belongings v st' = belongings v st /\ no_survey_of v st'.

Lemma log_step user g d st :
  tidy st -> log_change user (st_sessions st) (st_log st) g -> desk_change user (st_desk st) d ->
  stepped user st (st <| st_log := g |> <| st_desk := d |>).
Proof.
  intros [T1 T2 T3 T4 T5 T6] Hg [D1 D2 D3]. split.
  - split; try done; cbn; [by apply D3|]. by eapply log_change_tidy.
  - intros v Hv Hj. split; [|done]. unfold belongings. cbn.
    rewrite D1, D2 by done. by erewrite (log_change_mine user _ v) by done.
Qed.

Lemma log_only_step user g st :
  tidy st -> log_change user (st_sessions st) (st_log st) g -> stepped user st (st <| st_log := g |>).
Proof.
  intros T Hg. replace (st <| st_log := g |>) with (st <| st_log := g |> <| st_desk := st_desk st |>) by by destruct st.
  by apply log_step.
Qed.
Lemma desk_step user d st :
  tidy st -> desk_change user (st_desk st) d -> stepped user st (st <| st_desk := d |>).
Proof.
  intros T Hd. replace (st <| st_desk := d |>) with (st <| st_log := st_log st |> <| st_desk := d |>) by by destruct st.
  apply log_step; [done|apply lc_refl|done].
Qed.

(** A step that touches nothing an operator owns. *)
Lemma shared_step user st st' :
  tidy st -> st_desk st' = st_desk st -> st_log st' = st_log st -> st_sessions st' = st_sessions st ->
  st_photos st' = st_photos st -> st_media st' = st_media st -> st_surveys st' = st_surveys st ->
  st_scan st' = st_scan st -> st_job st' = st_job st -> stepped user st st'.
Proof.
  intros [T1 T2 T3 T4 T5 T6] E1 E2 E3 E4 E5 E6 E7 E8. split.
  - split; congruence.
  - intros v Hv Hj. unfold belongings, no_survey_of. by rewrite E1, E2, E3, E4, E5, E6, E8.
Qed.

Lemma survey_step user r probe o st :
  tidy st ->
  let '(res, surveys, receiver, scan, j) :=
    survey_post repr scan_message clock survey_fits user probe o (st_surveys st) r (st_scan st) in
  stepped user st (st <| st_surveys := surveys |> <| st_receiver := receiver |> <| st_scan := scan |>
                     <| st_job := match j with Some job => Some (user, job) | None => st_job st end |>).
Proof.
  intros T. assert (Same : forall receiver, stepped user st (st <| st_surveys := st_surveys st |> <| st_receiver := receiver |>
    <| st_scan := st_scan st |> <| st_job := st_job st |>)) by (intros receiver; by apply shared_step).
  unfold survey_post. destruct o as [| | | | | |o]; try apply Same.
  destruct (str_eqb _ _).
  { pose proof (survey_delete_spec user o (st_surveys st)) as H. destruct (survey_delete user o _) as [res surveys].
    destruct T as [T1 T2 T3 T4 T5 T6]. destruct H as [H1 H2]; [done|]. cbn in H1, H2. split; [by split|].
    intros v Hv Hj. split; [|done]. unfold belongings. cbn. by rewrite H2. }
  destruct (str_eqb _ _); [|apply Same].
  pose proof (survey_start_job user probe o r (st_scan st)) as H.
  destruct (survey_start _ _ _ _ _ _ _ _ _) as [[[job|e] receiver] scan]; [|subst scan; apply Same].
  destruct H as (Hrun & Hok & _). destruct T as [T1 T2 T3 T4 T5 T6]. split; [by split|].
  intros v Hv Hj. split; [done|]. intros j. cbn. congruence.
Qed.

Lemma survey_runs_step user st :
  tidy st -> (forall v, v <> user -> no_survey_of v st ->
    belongings v (survey_runs st) = belongings v st /\ no_survey_of v (survey_runs st)) /\ tidy (survey_runs st).
Proof.
  intros [T1 T2 T3 T4 T5 T6]. unfold survey_runs. destruct (st_job st) as [[w j]|] eqn:Ej; [|by split; [|split; rewrite ?Ej]].
  pose proof (worker_kept w j (st_scan st) (st_files st) (st_surveys st) (dk_out (st_desk st)) T6) as H.
  destruct (worker _ _ _ _ _) as [scan [files [surveys x]]]. destruct H as (H1 & H2 & H3).
  assert (Hs : tidy_surveys surveys /\ forall v, v <> w -> surveys_of v surveys = surveys_of v (st_surveys st)).
  { destruct H3 as [[-> _] | (row & -> & He & Hf & <- & Ha & Hr & _)]; [done|]. split.
    - destruct T6 as (_ & _ & _ & _ & Hb & Hall & [?|[_ Hne]]); [done|].
      apply insert_survey_tidy; [done|congruence| |]; rewrite Hr.
      + intros E. rewrite E in H2. by rewrite <- H2 in Hb.
      + rewrite <- H2 in Hall by done. by rewrite Forall_fmap in Hall.
    - intros v Hv. apply surveys_of_insert; [by destruct T5|done]. }
  destruct Hs as [Hs1 Hs2]. split; [|by split].
  intros v Hv Hj. split; [|done]. unfold belongings. cbn. rewrite Hs2; [done|].
  intros ->. by apply (Hj j).
Qed.

Lemma serve_step m c st : tidy st -> stepped (mo_user m) st (serve m c st).2.
Proof.
  intros T. pose proof T as [T1 T2 T3 T4 T5 T6]. destruct c as
    [len payload|channel|channel|data|call|file|f|pk f|pk|pk|body|body|data|lf data|body image model|refresh [data|]|refresh [data|]| |];
    cbn [serve].
  - destruct (live_ingest _ _ _ _) as [[group p]|e]; by apply shared_step.
  - by apply shared_step.
  - by apply shared_step.
  - pose proof (log_quick_change (mo_now m) (mo_nonce m 0) (mo_user m) data _ (st_log st) (st_desk st) T2) as H.
    destruct (log_quick _ _ _ _ _ _ _) as [[r g] d]. destruct H as (H1 & H2 & _). by apply log_step.
  - pose proof (log_lookup_change (mo_nonce m 0) (mo_user m) call (st_log st) (st_desk st)) as H.
    destruct (log_lookup _ _ _ _ _) as [r d]. destruct H as [H _]. by apply desk_step.
  - pose proof (log_import_change (mo_user m) (st_sessions st) file (st_log st)) as H.
    destruct (log_import _ _ _) as [r g]. by apply log_only_step.
  - pose proof (log_create_change zone_takes (mo_user m) (st_sessions st) f (st_log st)) as H.
    destruct (log_create _ _ _ _) as [r g]. by apply log_only_step.
  - pose proof (log_update_change zone_takes (mo_user m) (st_sessions st) pk f (st_log st) T3) as H.
    destruct (log_update _ _ _ _ _) as [r g]. by apply log_only_step.
  - pose proof (log_delete_change (mo_user m) (st_sessions st) pk (st_log st) T3) as H.
    destruct (log_delete _ _ _) as [r g]. by apply log_only_step.
  - pose proof (session_delete_spec (mo_user m) pk (st_sessions st) (st_log st) T2 T3) as H.
    destruct (session_delete _ _ _ _) as [[p sessions] g]. destruct H as (H1 & H2 & H3 & H4). split; [by split|].
    intros v Hv Hj. split; [|done]. unfold belongings. cbn. rewrite H4 by done.
    by erewrite (log_change_mine (mo_user m) _ v) by done.
  - pose proof (eqsl_config_change (mo_nonce m 0) (mo_user m) body (st_desk st)) as H.
    destruct (eqsl_config _ _ _ _) as [r d]. destruct H as [H _]. by apply desk_step.
  - pose proof (qrz_config_change (mo_nonce m) (mo_user m) body (st_log st) (st_desk st)) as H.
    destruct (qrz_config _ _ _ _ _) as [r d]. by apply desk_step.
  - pose proof (qrz_sync_change (mo_now m) (mo_user m) data _ (st_log st) (st_desk st) T3) as H.
    destruct (qrz_sync _ _ _ _ _) as [[r g] d]. destruct H as (H1 & H2 & _). by apply log_step.
  - pose proof (eqsl_upload_change (mo_now m) (mo_nonce m 0) (mo_call m) (mo_user m) lf data _ (st_log st) (st_desk st) T3) as H.
    destruct (eqsl_upload _ _ _ _ _ _ _ _) as [[r g] d]. destruct H as (H1 & H2 & _). by apply log_step.
  - pose proof (rig_photo_keeps (mo_user m) body image model (st_photos st) (st_media st) T4) as H.
    destruct (rig_photo _ _ _ _ _ _ _ _ _) as [[r photos] media]. destruct H as [H1 H2]. split; [by split|].
    intros v Hv Hj. split; [|done]. unfold belongings. cbn. by rewrite H2.
  - destruct (radio_post _ _ _ _ _ _ _) as [a r]. by apply shared_step.
  - destruct (radio_get _ _ _) as [a r]. by apply shared_step.
  - pose proof (survey_step (mo_user m) (st_receiver st) (mo_probe m) data st T) as H.
    destruct (survey_post _ _ _ _ _ _ _ _ _ _) as [[[[r surveys] receiver] scan] j]. exact H.
  - destruct (list_devices _ _ _) as [devices r]. by apply shared_step.
  - destruct (survey_runs_step (mo_user m) st T) as [H1 H2]. by split.
  - split; [split; cbn; [by left|done..]|]. intros v Hv Hj. by split.
Qed.
End Keeping.
