(* ===== verification/StationApiFacts.v ===== *)
(** * The station over any requests

    What holds of the station after any requests, and what one operator's
    requests leave of another's; photos, secrets, surveys and the tape followed
    through a history of requests. [StationDemo] applies it to a small
    station. *)
From stdpp Require Import sorting.
From S2P Require Import Prelude PyFloat PyStr Json Regex PyTime PyLib Tables Credentials Logbook Sync Radio RadioDaemon BandScan BandScanFacts StationApi StationKeeping.
Open Scope Z_scope.

Section History.
Context {K R X : Type} {L : StationLib K R X} {Laws : StationLaws L}.
Notation Station := (Station (K := K) (X := X)).
Notation Moment := (Moment (R := R)).
Implicit Types (d : Desk K X) (ks : KeyStore K) (st : Station).

(** ** What holds after any requests *)

Lemma serve_all_tidy calls st : tidy st -> tidy (serve_all calls st).
Proof.
  revert st. induction calls as [|[m c] calls IH]; intros st T; [done|]. cbn. apply IH. by apply serve_step.
Qed.

(** C15: the station stays in order whatever is asked of it: after any requests of
    any operators, with sweeps ending and restarts in between, the contacts
    have keys of their own, upper-case calls, the band of their frequency
    unless they were imported, and sessions of their own operator; a photo is
    the only one of its operator and model and its file is there and is no
    other's; a saved survey names an antenna and has scored known bands; a
    survey is marked as running exactly while the worker has it. *)
Theorem requests_keep_the_station (calls : list (Moment * Call)) st : tidy st -> tidy (serve_all calls st).
Proof. apply serve_all_tidy. Qed.

(** C16: operators are apart: whatever others ask, in whatever order, the contacts,
    sessions, credentials, photos with the contents of their files, and surveys
    of an operator who asks nothing, and has no survey running, are exactly
    what they were. *)
Theorem others_keep_theirs (v : Z) (calls : list (Moment * Call)) st :
  tidy st -> no_survey_of v st -> Forall (fun c => mo_user c.1 <> v) calls ->
  belongings v (serve_all calls st) = belongings v st.
Proof.
  revert st. induction calls as [|[m c] calls IH]; intros st T Hj Hc; [done|].
  apply Forall_cons in Hc as [Hm Hc]. change (serve_all _ st) with (serve_all calls (serve m c st).2).
  destruct (serve_step m c st T) as [T' H'].
  destruct (H' v) as [B J]; [by apply not_eq_sym|done|]. by rewrite IH.
Qed.

(** ** A photo is what was uploaded *)

Lemma str_of_Z_injective n m : str_of_Z n = str_of_Z m -> n = m.
Proof.
  assert (P : forall n, 0 <= n -> parse_int (dec n) = Some n) by apply parse_int_dec.
  assert (D : forall n l, 0 <= n -> dec n <> 45 :: l).
  { intros k l Hk E. destruct (dec_spec k Hk) as (_ & F & _). rewrite E in F. by apply Forall_cons in F as [F _]. }
  unfold str_of_Z. change (u "-") with [45]. destruct (Z.ltb_spec n 0), (Z.ltb_spec m 0); cbn [app]; intros E.
  - injection E as E. apply (f_equal parse_int) in E. rewrite !P in E by lia. injection E. lia.
  - exfalso. symmetry in E. by apply (D m (dec (- n))).
  - exfalso. by apply (D n (dec (- m))).
  - apply (f_equal parse_int) in E. rewrite !P in E by lia. by injection E.
Qed.

Section Assign.
Context {A : Type} (key : A -> pystr) (val : A -> pystr).

(** A loop of assignments: the last one to a key counts. *)
Lemma assigned_other (l : list A) (out : gmap pystr pystr) k :
  (forall x, x ∈ l -> key x <> k) -> foldl (fun out x => <[key x := val x]> out) out l !! k = out !! k.
Proof.
  revert out. induction l as [|x l IH]; intros out H; cbn; [done|].
  rewrite IH by (intros y Hy; apply H; by apply list_elem_of_further).
  apply lookup_insert_ne, H, list_elem_of_here.
Qed.

Lemma assigned (l : list A) (out : gmap pystr pystr) x :
  x ∈ l -> (forall y, y ∈ l -> key y = key x -> val y = val x) ->
  foldl (fun out x => <[key x := val x]> out) out l !! key x = Some (val x).
Proof.
  revert out. induction l as [|y l IH] using rev_ind; intros out Hx Hu; [by apply elem_of_nil in Hx|].
  rewrite foldl_app. cbn. destruct (decide (key y = key x)) as [E|E].
  - rewrite E, lookup_insert_eq. f_equal. apply Hu; [|done]. apply elem_of_app. right. apply list_elem_of_here.
  - rewrite lookup_insert_ne by done. apply elem_of_app in Hx as [Hx | ->%list_elem_of_singleton]; [|done].
    apply IH; [done|]. intros z Hz. apply Hu. apply elem_of_app. by left.
Qed.
End Assign.

Section Shown.
Context (static_url : pystr -> pystr) (names : list pystr).
Notation images := (custom_rig_images media_url static_url names).

Lemma shown_own user photos media pk p :
  tidy_photos photos media -> rows photos !! pk = Some p -> ph_user p = user ->
  images user photos !! str_of_Z (ph_model p) = Some (media_url (ph_image p)).
Proof.
  intros [T1 T2 T3 T4] Hp Hu. unfold custom_rig_images.
  apply (assigned (fun x : Z * Photo => str_of_Z (ph_model x.2)) (fun x => media_url (ph_image x.2)) _ _ (pk, p)).
  - apply where_elem. split; [done|]. by apply Z.eqb_eq.
  - intros [pk' p'] [Hp' Hu'%Z.eqb_eq]%where_elem E%str_of_Z_injective. cbn in *.
    assert (pk' = pk) as -> by (eapply T2; eauto; congruence). congruence.
Qed.

Lemma shown_site user photos k :
  (forall pk p, rows photos !! pk = Some p -> ph_user p = user -> str_of_Z (ph_model p) <> k) ->
  images user photos !! k = site_images static_url names !! k.
Proof.
  intros H. unfold custom_rig_images.
  apply (assigned_other (fun x : Z * Photo => str_of_Z (ph_model x.2)) (fun x => media_url (ph_image x.2))).
  intros [pk p] [Hp Hu%Z.eqb_eq]%where_elem. by apply (H pk).
Qed.

(** Pictures under another number stay when only rows of one number change. *)
Lemma shown_others user n photos media photos' media' k :
  tidy_photos photos media -> tidy_photos photos' media' ->
  (forall pk p, ph_user p = user -> ph_model p <> n -> rows photos' !! pk = Some p <-> rows photos !! pk = Some p) ->
  k <> str_of_Z n -> images user photos' !! k = images user photos !! k.
Proof.
  intros T T' H Hk. destruct (first_where (fun _ p => (ph_user p =? user) && str_eqb (str_of_Z (ph_model p)) k) photos)
    as [[pk p]|] eqn:E.
  - apply first_where_some in E as [Hp E]. apply andb_true_iff in E as [Hu%Z.eqb_eq E%bool_decide_eq_true].
    subst k. assert (ph_model p <> n) by congruence.
    rewrite (shown_own user photos media pk p) by done. eapply shown_own; [exact T'| |done]. by apply H.
  - assert (Hn : forall pk p, rows photos !! pk = Some p -> ph_user p = user -> str_of_Z (ph_model p) <> k).
    { intros pk p Hp Hu Ek. pose proof (first_where_none _ _ E pk p Hp) as F. cbn in F.
      rewrite Hu, Z.eqb_refl in F. cbn in F. by apply bool_decide_eq_false in F. }
    rewrite (shown_site user photos) by done. apply shown_site. intros pk p Hp Hu Ek.
    apply (Hn pk p); [|done|done]. apply H; [done|congruence|done].
Qed.

Lemma photo_upload_data image model n name data :
  photo_upload image model = Ok (n, name, data) -> exists up, image = Some up /\ data = up_data up.
Proof.
  unfold photo_upload. intros E. destruct image as [up|]; [|done]. exists up. split; [done|].
  repeat case_match; try done. by injection E.
Qed.

(** C17: a rig shows the photo its operator gave it: an upload that is answered
    with an address is a file with the bytes that were sent, shown under the
    model it was sent for; a removal shows the site's own picture again, if it
    has one; and in either case what is shown for every other model stays. *)
Theorem photo_shown m body image model text url st st' :
  tidy st -> serve m (RigPhoto body image model) st = (Ok (PhotoAt text url), st') ->
  exists n,
    match url with
    | Some a => text = str_of_Z n /\ (exists file upload, a = media_url file /\ image = Some upload
        /\ st_media st' !! file = Some (up_data upload)) /\ images (mo_user m) (st_photos st') !! str_of_Z n = Some a
    | None => removal body = Some (Some (n, text))
        /\ images (mo_user m) (st_photos st') !! str_of_Z n = site_images static_url names !! str_of_Z n
    end
    /\ forall k, k <> str_of_Z n -> images (mo_user m) (st_photos st') !! k = images (mo_user m) (st_photos st) !! k.
Proof.
  intros T. cbn [serve]. rewrite rig_photo_unfold. pose proof (t_photos st T) as TP.
  destruct (removal body) as [[[n t]|]|] eqn:Er; [| |].
  - intros E. exists n. destruct (photo_of (mo_user m) n (st_photos st)) as [[k q]|] eqn:Eo.
    + apply photo_of_some in Eo as (Hk & Hu & Hm).
      pose proof (photo_delete_tidy (k, q) _ _ Hk TP) as [TP' _]. cbn in E, TP'. injection E as -> <- <-. cbn.
      assert (Hl : forall pk p, rows (delete_rows (fun pk _ => pk =? k) (st_photos st)) !! pk = Some p
                     <-> rows (st_photos st) !! pk = Some p /\ pk <> k)
        by (intros pk p; by rewrite lookup_delete, Z.eqb_neq).
      split; [split; [done|]|].
      * apply shown_site. intros pk p [Hp Hn]%Hl Hu' En%str_of_Z_injective. apply Hn.
        apply (tp_one _ _ TP pk p k q); congruence.
      * intros j Hj. eapply shown_others; [exact TP|exact TP'| |exact Hj].
        intros pk p _ Hpm. rewrite Hl. split; [by intros []|]. intros H. split; [done|]. congruence.
    + injection E as -> <- <-. cbn. split; [split; [done|]|done].
      apply shown_site. intros pk p Hp Hu En%str_of_Z_injective. by apply (photo_of_none _ _ _ pk p Eo Hp).
  - by intros [=].
  - destruct (photo_upload image model) as [[[n name] data]|e] eqn:Eu; [|by intros [=]].
    pose proof (photo_replace_spec (mo_user m) n name data _ _ TP) as H.
    destruct (photo_replace _ _ _ _ _ _) as [[[file|e] photos] media]; [|by intros [=]].
    destruct H as (TP' & _ & H). destruct (H file eq_refl) as (Hf & (pk & Hpk) & Ho).
    cbn. intros [= <- <- <-]. exists n. cbn. split; [split; [done|split]|].
    + apply photo_upload_data in Eu as (up & -> & ->). by exists file, up.
    + exact (shown_own _ _ _ pk _ TP' Hpk eq_refl).
    + intros k Hk. eapply shown_others; [exact TP|exact TP'|exact Ho|exact Hk].
Qed.
End Shown.

(** ** Secrets last *)

(** A token that was made of a text, under a key the store still has. *)
Definition sealed_as (raw token : pystr) ks : Prop :=
  exists (n : R) k0, coherent k0 /\ token = (seal n raw k0).1 /\ key_later (seal n raw k0).2 ks.

Lemma sealed_as_later raw token ks ks' : sealed_as raw token ks -> key_later ks ks' -> sealed_as raw token ks'.
Proof. intros (n & k0 & H1 & H2 & H3) H. exists n, k0. split_and!; [done|done|by eapply key_later_trans]. Qed.

Lemma sealed_as_new (n : R) raw ks : coherent ks -> sealed_as raw (seal n raw ks).1 (seal n raw ks).2.
Proof. intros C. exists n, ks. by split_and!. Qed.

Lemma sealed_at_rest raw token ks : sealed_as raw token ks -> at_rest token.
Proof. intros (n & k0 & _ & -> & _). apply seal_at_rest. Qed.

Lemma unseal_sealed raw token ks : sealed_as raw token ks -> coherent ks -> (unseal token ks).1 = raw.
Proof.
  intros (n & k0 & C0 & -> & H) C. destruct raw as [|c raw]; [done|].
  destruct (seal_keeps n (c :: raw) k0 C0) as [C1 _]. destruct (H C1) as [_ F].
  apply (decrypt_encrypt _ _ _ fernet_roundtrip); [done|done|].
  assert (G : ks_file (seal n (c :: raw) k0).2 = Some (get_fernet fresh_key k0).1).
  { destruct (get_fernet_file fresh_key k0 C0) as [G _]. unfold seal, encrypt. cbn [nonempty].
    by destruct (get_fernet fresh_key k0). }
  unfold seal in *. rewrite G. by apply F.
Qed.

Lemma sealed_into_sealed {A} (set : pystr -> A -> A) (n : R) raw row ks row' ks' :
  coherent ks -> sealed_into set n raw row ks = (Ok row', ks') ->
  exists token, row' = set token row /\ sealed_as raw token ks' /\ coherent ks' /\ key_later ks ks'.
Proof.
  intros C. unfold sealed_into. destruct (encodable raw); [|done]. cbn [negb].
  pose proof (sealed_as_new n raw ks C) as H. pose proof (seal_keeps n raw ks) as Ks. destruct (Ks C) as [C1 _].
  destruct (seal n raw ks) as [t ks1]. intros [= <- <-]. by exists t.
Qed.

Lemma qrz_update_sealed (n : Z -> R) o row ks row' ks' :
  coherent ks -> jtruthy (jget_null (u "unlink") o) = false -> qrz_update n o row ks = (Ok row', ks') ->
  (forall raw, posted_secret (u "logbook_key") o = Some raw -> sealed_as (strip raw) (qr_logbook_key row') ks')
  /\ (forall raw, posted_secret (u "password") o = Some raw -> sealed_as raw (qr_password row') ks').
Proof.
  intros C Hu. unfold qrz_update. rewrite Hu. set (row0 := row <| qr_username := _ |>).
  destruct (posted_secret (u "password") o) as [pw|].
  - destruct (sealed_into _ _ pw row0 ks) as [[row1|e] ks1] eqn:E1; [|done].
    apply sealed_into_sealed in E1 as (t1 & -> & S1 & C1 & _); [|done].
    destruct (posted_secret (u "logbook_key") o) as [lk|].
    + intros E2. apply sealed_into_sealed in E2 as (t2 & -> & S2 & _ & K2); [|done].
      split; intros raw [= <-]; [done|by eapply sealed_as_later].
    + intros [= <- <-]. by split; [|intros raw [= <-]].
  - destruct (posted_secret (u "logbook_key") o) as [lk|].
    + intros E2. apply sealed_into_sealed in E2 as (t2 & -> & S2 & _ & _); [|done]. split; [by intros raw [= <-]|done].
    + by intros [= <- <-].
Qed.

(** What a request that posts no credentials of an operator leaves of theirs. *)
Definition desk_kept (v : Z) d d' : Prop := secrets_kept v d d' /\ key_later (dk_keys d) (dk_keys d').

Lemma desk_kept_of user v d d' : desk_change user d d' -> (user = v -> secrets_kept v d d') -> desk_kept v d d'.
Proof.
  intros [H1 H2 H3] H. split; [|done]. destruct (decide (user = v)) as [E|E]; [by apply H|].
  apply secrets_kept_same, H1. congruence.
Qed.
Lemma desk_kept_refl v d : desk_kept v d d.
Proof. split; [by apply secrets_kept_same|done]. Qed.
Lemma desk_kept_trans v d d1 d2 : desk_kept v d d1 -> desk_kept v d1 d2 -> desk_kept v d d2.
Proof. intros [H1 H2] [H3 H4]. split; [by eapply secrets_kept_trans|by eapply key_later_trans]. Qed.

(** A request that posts QRZ credentials for an operator. *)
Definition posts_credentials (v : Z) (c : Moment * Call) : Prop :=
  mo_user c.1 = v /\ exists body, c.2 = QrzConfig (Some body).

Lemma serve_secrets v m c st :
  tidy st -> ~ (mo_user m = v /\ exists body, c = QrzConfig (Some body)) -> desk_kept v (st_desk st) (st_desk (serve m c st).2).
Proof.
  intros T Hno. pose proof T as [T1 T2 T3 T4 T5 T6]. destruct c as
    [len payload|channel|channel|data|call|file|f|pk f|pk|pk|body|[body|]|data|lf data|body image model|refresh [data|]|refresh [data|]| |];
    cbn [serve].
  - destruct (live_ingest _ _ _ _) as [[group p]|e]; apply desk_kept_refl.
  - apply desk_kept_refl.
  - apply desk_kept_refl.
  - pose proof (log_quick_change (mo_now m) (mo_nonce m 0) (mo_user m) data _ (st_log st) (st_desk st) T2) as H.
    destruct (log_quick _ _ _ _ _ _ _) as [[r g] d]. destruct H as (_ & H2 & H3).
    apply (desk_kept_of (mo_user m)); [done|by intros <-].
  - pose proof (log_lookup_change (mo_nonce m 0) (mo_user m) call (st_log st) (st_desk st)) as H.
    destruct (log_lookup _ _ _ _ _) as [r d]. destruct H as [H2 H3].
    apply (desk_kept_of (mo_user m)); [done|by intros <-].
  - destruct (log_import _ _ _) as [r g]. apply desk_kept_refl.
  - destruct (log_create _ _ _ _) as [r g]. apply desk_kept_refl.
  - destruct (log_update _ _ _ _ _) as [r g]. apply desk_kept_refl.
  - destruct (log_delete _ _ _) as [r g]. apply desk_kept_refl.
  - destruct (session_delete _ _ _ _) as [[p sessions] g]. apply desk_kept_refl.
  - pose proof (eqsl_config_change (mo_nonce m 0) (mo_user m) body (st_desk st)) as H.
    destruct (eqsl_config _ _ _ _) as [r d]. destruct H as [H E]. apply (desk_kept_of (mo_user m)); [done|].
    intros _. apply secrets_kept_same. cbn in *. by rewrite E.
  - pose proof (qrz_config_change (mo_nonce m) (mo_user m) (Some body) (st_log st) (st_desk st)) as H.
    destruct (qrz_config _ _ _ _ _) as [r d]. apply (desk_kept_of (mo_user m)); [done|].
    intros E. exfalso. apply Hno. eauto.
  - apply (desk_kept_of (mo_user m)); [by apply put_qrz_change|]. intros <- row Hr.
    exists row. cbn. rewrite lookup_insert_eq, Hr. by split.
  - pose proof (qrz_sync_change (mo_now m) (mo_user m) data _ (st_log st) (st_desk st) T3) as H.
    destruct (qrz_sync _ _ _ _ _) as [[r g] d]. destruct H as (_ & H2 & H3).
    apply (desk_kept_of (mo_user m)); [done|by intros <-].
  - pose proof (eqsl_upload_change (mo_now m) (mo_nonce m 0) (mo_call m) (mo_user m) lf data _ (st_log st) (st_desk st) T3) as H.
    destruct (eqsl_upload _ _ _ _ _ _ _ _) as [[r g] d]. destruct H as (_ & H2 & E).
    apply (desk_kept_of (mo_user m)); [done|]. intros _. apply secrets_kept_same. cbn in *. by rewrite E.
  - destruct (rig_photo _ _ _ _ _ _ _ _ _) as [[r photos] media]. apply desk_kept_refl.
  - destruct (radio_post _ _ _ _ _ _ _) as [a r]. apply desk_kept_refl.
  - destruct (radio_get _ _ _) as [a r]. apply desk_kept_refl.
  - destruct (survey_post _ _ _ _ _ _ _ _ _ _) as [[[[r surveys] receiver] scan] j]. apply desk_kept_refl.
  - destruct (list_devices _ _ _) as [devices r]. apply desk_kept_refl.
  - unfold survey_runs. destruct (st_job st) as [[w j]|]; [|apply desk_kept_refl].
    destruct (worker _ _ _ _ _) as [scan [files [surveys x]]]. apply (desk_kept_of v); [done|].
    intros _. by apply secrets_kept_same.
  - split; [by apply secrets_kept_same|apply key_later_reset].
Qed.

Lemma serve_all_secrets v calls st :
  tidy st -> Forall (fun c => ~ posts_credentials v c) calls -> desk_kept v (st_desk st) (st_desk (serve_all calls st)).
Proof.
  revert st. induction calls as [|[m c] calls IH]; intros st T Hc; [apply desk_kept_refl|].
  apply Forall_cons in Hc as [Hm Hc]. change (serve_all _ st) with (serve_all calls (serve m c st).2).
  eapply desk_kept_trans; [by apply serve_secrets|]. apply IH; [|done]. by apply serve_step.
Qed.

Lemma sealed_into_uncaught {A} (set : pystr -> A -> A) (n : R) raw row ks e ks' :
  sealed_into set n raw row ks = (Err e, ks') -> e = Uncaught.
Proof. unfold sealed_into. destruct (encodable raw); cbn [negb]; [by destruct (seal n raw ks)|by intros [= <- _]]. Qed.

Lemma qrz_update_uncaught (n : Z -> R) o row ks e ks' : qrz_update n o row ks = (Err e, ks') -> e = Uncaught.
Proof.
  unfold qrz_update. destruct (jtruthy _); [done|].
  destruct (posted_secret (u "password") o) as [pw|]; [|destruct (posted_secret _ _); [apply sealed_into_uncaught|done]].
  match goal with |- context [sealed_into ?set ?n pw ?row ks] => destruct (sealed_into set n pw row ks) as [[r|e'] ks1] eqn:E1 end.
  - destruct (posted_secret _ _); [apply sealed_into_uncaught|done].
  - intros [= <- _]. by apply sealed_into_uncaught in E1.
Qed.

(** The operator's row right after a POST of credentials that did not raise. *)
Lemma qrz_config_sealed m o st :
  tidy st -> jtruthy (jget_null (u "unlink") o) = false ->
  (serve m (QrzConfig (Some (JObj o))) st).1 <> Err Uncaught ->
  let d := st_desk (serve m (QrzConfig (Some (JObj o))) st).2 in
  exists row, dk_qrz d !! mo_user m = Some row
    /\ (forall raw, posted_secret (u "logbook_key") o = Some raw -> sealed_as (strip raw) (qr_logbook_key row) (dk_keys d))
    /\ (forall raw, posted_secret (u "password") o = Some raw -> sealed_as raw (qr_password row) (dk_keys d)).
Proof.
  intros T Hu. cbn [serve]. unfold qrz_config.
  destruct (qrz_update _ _ _ _) as [[row|e] ks] eqn:Eq; [|by apply qrz_update_uncaught in Eq as ->].
  destruct (qrz_update_sealed _ _ _ _ _ _ (t_keys st T) Hu Eq) as [H1 H2].
  unfold profile_save. cbn [mbind result_bind]. destruct (encodable (qr_username row)); [|done]. intros _.
  destruct (posted_secret (u "test_call") o) as [call|].
  - pose proof (qrz_test_keeps (mo_nonce m 2) (upper (strip call)) row ks (dk_out (st_desk st))) as HK.
    destruct (qrz_test _ _ _ _ _) as [[[r row'] ks'] x]. destruct HK as (K1 & K2 & K3). cbn.
    exists row'. split; [apply lookup_insert_eq|]. split; intros raw Hr.
    + rewrite K2. eapply sealed_as_later; [by apply H1|done].
    + rewrite K3 by (eapply sealed_at_rest; by apply H2). eapply sealed_as_later; [by apply H2|done].
  - cbn. exists row. split; [apply lookup_insert_eq|done].
Qed.

(** C18: what was entered is what is used: after a POST of QRZ credentials that was
    answered, and not cut short by an exception, every later sync runs with the
    logbook key it saved, and every later use of the password it saved decrypts
    to that password and the column holds it sealed, whatever requests and
    restarts come in between, until the operator posts credentials again. *)
Theorem entered_secrets_last m o (calls : list (Moment * Call)) st :
  tidy st -> jtruthy (jget_null (u "unlink") o) = false ->
  (serve m (QrzConfig (Some (JObj o))) st).1 <> Err Uncaught ->
  Forall (fun c => ~ posts_credentials (mo_user m) c) calls ->
  let st' := serve_all calls (serve m (QrzConfig (Some (JObj o))) st).2 in
  (forall raw m' data, posted_secret (u "logbook_key") o = Some raw -> mo_user m' = mo_user m ->
     (serve m' (QrzSync data) st').1
     = Synced <$> (qrz_logbook_sync post_form unescape (mo_now m') (strip raw) (mo_user m) (lg_next (st_log st')) data
                     (lg_rows (st_log st')) (dk_out (st_desk st'))).1.1)
  /\ (forall raw, posted_secret (u "password") o = Some raw ->
        exists row, dk_qrz (st_desk st') !! mo_user m = Some row
          /\ (unseal (qr_password row) (dk_keys (st_desk st'))).1 = raw
          /\ (raw <> [] -> startswith (qr_password row) PREFIX = true)).
Proof.
  intros T Hu Ha Hc. cbv zeta. destruct (qrz_config_sealed m o st T Hu Ha) as (row & Hr & H1 & H2).
  pose proof (serve_step m (QrzConfig (Some (JObj o))) st T) as [T1 _].
  revert Hr H1 H2 T1. generalize (serve m (QrzConfig (Some (JObj o))) st).2. intros st1 Hr H1 H2 T1.
  destruct (serve_all_secrets (mo_user m) calls st1 T1 Hc) as [S HK].
  pose proof (t_keys _ (serve_all_tidy calls st1 T1)) as C.
  revert S HK C. generalize (serve_all calls st1). intros st' S HK C.
  destruct (S row Hr) as (row' & Hr' & E1 & E2). split.
  - intros raw m' data Hp Hm. specialize (H1 raw Hp).
    assert (Hk : (logbook_key (mo_user m) (st_desk st')).1 = strip raw).
    { unfold logbook_key. rewrite Hr', E1. apply unseal_sealed; [|done]. by eapply sealed_as_later. }
    cbn [serve]. unfold qrz_sync. rewrite Hm. destruct (logbook_key (mo_user m) (st_desk st')) as [key ks].
    cbn in Hk. subst key. by destruct (qrz_logbook_sync _ _ _ _ _ _ _ _ _) as [[r db] x].
  - intros raw Hp. specialize (H2 raw Hp). exists row'. split; [done|].
    pose proof (sealed_at_rest _ _ _ H2) as A. rewrite (E2 A).
    assert (U : (unseal (qr_password row) (dk_keys (st_desk st'))).1 = raw)
      by (apply unseal_sealed; [by eapply sealed_as_later|done]).
    split; [done|]. intros Hne. destruct A as [E|]; [|done]. by rewrite E in U.
Qed.

(** A password or a user name that UTF-8 does not encode: the request ends in an
    exception, and the operator's row is what it was. *)
Lemma unencodable_not_saved m o st raw :
  jtruthy (jget_null (u "unlink") o) = false ->
  posted_secret (u "password") o = Some raw /\ encodable raw = false
  \/ posted_secret (u "password") o = None /\ posted_secret (u "logbook_key") o = None
     /\ encodable (posted_username o []) = false /\ is_Some (jget (u "username") o) ->
  let '(r, st') := serve m (QrzConfig (Some (JObj o))) st in
  r = Err Uncaught /\ dk_qrz (st_desk st') !! mo_user m = Some (default no_qrz (dk_qrz (st_desk st) !! mo_user m)).
Proof.
  intros Hu H. cbn [serve]. unfold qrz_config, qrz_update, sealed_into. rewrite Hu.
  destruct H as [[-> ->]|(-> & -> & Hn & [j Hj])].
  - cbn. split; [done|apply lookup_insert_eq].
  - unfold posted_username in *. rewrite Hj in Hn. cbn [profile_save mbind result_bind]. rewrite Hj. cbn. rewrite Hn. cbn.
    split; [done|apply lookup_insert_eq].
Qed.

(** ** A survey outlives other requests *)

(** Requests that do not end the worker. *)
Definition spares_worker (c : Moment * Call) : Prop := c.2 <> SurveyRuns /\ c.2 <> ServerRestarts.

Lemma serve_spares m c st w j :
  spares_worker (m, c) -> st_job st = Some (w, j) -> sn_running (st_scan st) = true ->
  st_job (serve m c st).2 = Some (w, j) /\ st_scan (serve m c st).2 = st_scan st.
Proof.
  intros [H1 H2] Hj Hr. destruct c as
    [len payload|channel|channel|data|call|file|f|pk f|pk|pk|body|body|data|lf data|body image model|refresh [data|]|refresh [data|]| |];
    cbn [serve]; try done.
  - by destruct (live_ingest _ _ _ _) as [[group p]|e].
  - by destruct (log_quick _ _ _ _ _ _ _) as [[r g] d].
  - by destruct (log_lookup _ _ _ _ _) as [r d].
  - by destruct (log_import _ _ _) as [r g].
  - by destruct (log_create _ _ _ _) as [r g].
  - by destruct (log_update _ _ _ _ _) as [r g].
  - by destruct (log_delete _ _ _) as [r g].
  - by destruct (session_delete _ _ _ _) as [[p sessions] g].
  - by destruct (eqsl_config _ _ _ _) as [r d].
  - by destruct (qrz_config _ _ _ _ _) as [r d].
  - by destruct (qrz_sync _ _ _ _ _) as [[r g] d].
  - by destruct (eqsl_upload _ _ _ _ _ _ _ _) as [[r g] d].
  - by destruct (rig_photo _ _ _ _ _ _ _ _ _) as [[r photos] media].
  - by destruct (radio_post _ _ _ _ _ _ _) as [a r].
  - by destruct (radio_get _ _ _) as [a r].
  - unfold survey_post. destruct data as [| | | | | |o]; try done.
    destruct (str_eqb _ _); [by destruct (survey_delete _ _ _)|]. destruct (str_eqb _ _); [|done].
    pose proof (survey_start_job (mo_user m) (mo_probe m) o (st_receiver st) (st_scan st)) as H.
    destruct (survey_start _ _ _ _ _ _ _ _ _) as [[[j'|e] r] s']; [|by subst s'].
    destruct H as [H _]. congruence.
  - by destruct (list_devices _ _ _) as [devices r].
Qed.

Lemma serve_all_spares calls st w j :
  Forall spares_worker calls -> st_job st = Some (w, j) -> sn_running (st_scan st) = true ->
  st_job (serve_all calls st) = Some (w, j) /\ st_scan (serve_all calls st) = st_scan st.
Proof.
  revert st. induction calls as [|[m c] calls IH]; intros st Hc Hj Hr; [done|].
  apply Forall_cons in Hc as [Hm Hc]. change (serve_all _ st) with (serve_all calls (serve m c st).2).
  destruct (serve_spares m c st w j Hm Hj Hr) as [J S]. rewrite <- S in Hr |- *. by apply IH.
Qed.

(** C19: a survey that was begun ends with the scanner free and is saved exactly
    when it should be, whatever is asked of the station while it runs: without
    an error it has scored the bands that were asked for, in their order, and
    is kept as one more row of the operator who asked, with what the page
    showed, unless they wanted it unsaved; with an error, or unsaved, the saved
    surveys are as the other requests left them. *)
Theorem survey_outlives_requests m refresh o (calls : list (Moment * Call)) m' st st1 :
  tidy st -> serve m (BandSurvey refresh (Some (JObj o))) st = (Ok (SurveyPosted Begun), st1) ->
  Forall spares_worker calls ->
  let st2 := serve_all calls st1 in
  let st3 := (serve m' SurveyRuns st2).2 in
  st_job st3 = None /\ sn_running (st_scan st3) = false
  /\ (exists keys gain index, survey_arguments repr o = Ok (keys, gain, index)
        /\ (sn_error (st_scan st3) = None -> sc_band <$> sn_results (st_scan st3) = omap BANDS_BY_KEY keys))
  /\ (st_surveys st3 = st_surveys st2 /\ (sn_error (st_scan st3) = None -> saves o = false)
      \/ exists row, st_surveys st3 = (insert_row row (st_surveys st2)).2 /\ sn_error (st_scan st3) = None
           /\ saves o = true /\ sv_user row = mo_user m /\ sv_results row = sn_results (st_scan st3) /\ sv_antenna row <> []).
Proof.
  intros T E Hc. cbv zeta.
  assert (B : exists j, st_job st1 = Some (mo_user m, j) /\ job_ok (st_job st1) (st_scan st1)
    /\ (exists keys gain index, survey_arguments repr o = Ok (keys, gain, index) /\ jb_bands j = omap BANDS_BY_KEY keys)
    /\ jb_on_finish j = (if saves o then Some (persist repr clock survey_fits (mo_user m) o) else None)).
  { revert E. cbn [serve]. unfold survey_post.
    destruct (str_eqb _ _); [by destruct (survey_delete _ _ _) as [[]]|]. destruct (str_eqb _ _); [|done].
    pose proof (survey_start_job (mo_user m) (mo_probe m) o (st_receiver st) (st_scan st)) as H.
    destruct (survey_start _ _ _ _ _ _ _ _ _) as [[[j|e] r] s']; [|done]. destruct H as (_ & H1 & H2 & H3).
    intros [= <-]. exists j. by split_and!. }
  destruct B as (j & Hj & Hok & Hargs & Hf). rewrite Hj in Hok.
  destruct (serve_all_spares calls st1 _ j Hc Hj) as [Hj2 Hs2]; [by destruct Hok|].
  revert Hj2 Hs2. generalize (serve_all calls st1). intros st2 Hj2 Hs2. cbn [serve snd]. unfold survey_runs. rewrite Hj2.
  rewrite <- Hs2 in Hok. pose proof (worker_kept _ j _ (st_files st2) (st_surveys st2) (dk_out (st_desk st2)) Hok) as W.
  destruct (worker _ _ _ _ _) as [scan [files [surveys x]]]. destruct W as (W1 & W2 & W3). cbn.
  destruct Hargs as (keys & gain & index & Ha & Hb).
  split_and!; [done|done|exists keys, gain, index; rewrite <- Hb; by split|].
  destruct W3 as [[-> W3] | (row & -> & He & Hk & Hu & Han & Hr & _)]; [left|right].
  - split; [done|]. intros He. specialize (W3 He). rewrite Hf in W3. by destruct (saves o).
  - exists row. split_and!; try done; [rewrite Hf in Hk; by destruct (saves o)|].
    rewrite Han. destruct Hok as (_ & _ & _ & _ & _ & _ & [?|[_ ?]]); done.
Qed.

(** ** The tape is one's own *)

(** A tab is in the group of the operator who opened it. *)
Definition tabs_opened (calls : list (Moment * Call)) (tabs : Tabs) : Prop :=
  forall channel group, tabs !! channel = Some group ->
    exists m, (m, TabOpens channel) ∈ calls /\ group = live_group_name (mo_user m).

Definition tape_owned (calls : list (Moment * Call)) (tape : list (Z * json)) : Prop :=
  forall channel payload, (channel, payload) ∈ tape ->
    exists before m len after m0, calls = before ++ (m, LiveIngest len payload) :: after
      /\ (m0, TabOpens channel) ∈ before /\ mo_user m0 = mo_user m /\ len <= MAX_BATCH_BYTES.

Lemma live_group_inj a b : live_group_name a = live_group_name b -> a = b.
Proof. unfold live_group_name. intros E%app_inv_head. by apply str_of_Z_injective. Qed.

Lemma tape_owned_more calls c tape : tape_owned calls tape -> tape_owned (calls ++ [c]) tape.
Proof.
  intros H channel payload Hin. destruct (H channel payload Hin) as (b & m & len & a & m0 & -> & Hrest).
  exists b, m, len, (a ++ [c]), m0. by rewrite <- app_assoc.
Qed.
Lemma tabs_opened_more calls c tabs : tabs_opened calls tabs -> tabs_opened (calls ++ [c]) tabs.
Proof. intros H ch g E. destruct (H ch g E) as (m & Hm & Hg). exists m. split; [apply elem_of_app; by left|done]. Qed.

Lemma serve_tape calls m c st :
  tabs_opened calls (st_tabs st) -> tape_owned calls (st_tape st) ->
  tabs_opened (calls ++ [(m, c)]) (st_tabs (serve m c st).2) /\ tape_owned (calls ++ [(m, c)]) (st_tape (serve m c st).2).
Proof.
  intros Ht Hp. assert (Same : forall st', st_tabs st' = st_tabs st -> st_tape st' = st_tape st ->
    tabs_opened (calls ++ [(m, c)]) (st_tabs st') /\ tape_owned (calls ++ [(m, c)]) (st_tape st')).
  { intros st' -> ->. split; [by apply tabs_opened_more|by apply tape_owned_more]. }
  destruct c as
    [len payload|channel|channel|data|call|file|f|pk f|pk|pk|body|body|data|lf data|body image model|refresh [data|]|refresh [data|]| |];
    cbn [serve].
  - destruct (live_ingest _ _ _ _) as [[group p]|e] eqn:E; [|by apply Same]. unfold live_ingest in E.
    destruct payload as [| | | | | |o]; try done. destruct (Z.ltb_spec MAX_BATCH_BYTES len); [done|].
    destruct (negb _); [done|]. injection E as <- <-. split; [by apply tabs_opened_more|]. cbn.
    intros ch q [Hin|Hin]%elem_of_app; [by apply (tape_owned_more calls (m, LiveIngest len (JObj o)) _ Hp)|].
    unfold cw_batch in Hin. apply list_elem_of_fmap in Hin as (ch' & [= -> ->] & Hin).
    apply list_elem_of_fmap in Hin as ([ch2 g] & -> & Hin). apply elem_of_map_to_list, map_lookup_filter_Some in Hin as [Hin Hg].
    cbn in Hg. subst g. destruct (Ht ch2 _ Hin) as (m0 & Hm0 & Eg). apply live_group_inj in Eg.
    by exists calls, m, len, [], m0.
  - split; [|by apply tape_owned_more]. cbn. intros ch g [[<- <-]|[_ E]]%lookup_insert_Some.
    + exists m. split; [apply elem_of_app; right; apply list_elem_of_here|done].
    + by apply (tabs_opened_more calls _ _ Ht).
  - split; [|by apply tape_owned_more]. cbn. unfold tape_disconnect. intros ch g [_ E]%lookup_delete_Some.
    by apply (tabs_opened_more calls _ _ Ht).
  - by destruct (log_quick _ _ _ _ _ _ _) as [[r g] d]; apply Same.
  - by destruct (log_lookup _ _ _ _ _) as [r d]; apply Same.
  - by destruct (log_import _ _ _) as [r g]; apply Same.
  - by destruct (log_create _ _ _ _) as [r g]; apply Same.
  - by destruct (log_update _ _ _ _ _) as [r g]; apply Same.
  - by destruct (log_delete _ _ _) as [r g]; apply Same.
  - by destruct (session_delete _ _ _ _) as [[p sessions] g]; apply Same.
  - by destruct (eqsl_config _ _ _ _) as [r d]; apply Same.
  - by destruct (qrz_config _ _ _ _ _) as [r d]; apply Same.
  - by destruct (qrz_sync _ _ _ _ _) as [[r g] d]; apply Same.
  - by destruct (eqsl_upload _ _ _ _ _ _ _ _) as [[r g] d]; apply Same.
  - by destruct (rig_photo _ _ _ _ _ _ _ _ _) as [[r photos] media]; apply Same.
  - by destruct (radio_post _ _ _ _ _ _ _) as [a r]; apply Same.
  - by destruct (radio_get _ _ _) as [a r]; apply Same.
  - by destruct (survey_post _ _ _ _ _ _ _ _ _ _) as [[[[r surveys] receiver] scan] j]; apply Same.
  - by destruct (list_devices _ _ _) as [devices r]; apply Same.
  - unfold survey_runs. destruct (st_job st) as [[w j]|]; [|by apply Same].
    by destruct (worker _ _ _ _ _) as [scan [files [surveys x]]]; apply Same.
  - split; [|by apply tape_owned_more]. cbn [snd st_tabs]. intros ch g E. cbn in E. by apply lookup_empty_Some in E.
Qed.

(** C20: the tape is one's own: whatever is asked of the station, every batch a tab
    is sent was posted, within the limit of a batch, by the operator who had
    opened that tab before. *)
Theorem tape_is_ones_own (calls : list (Moment * Call)) st channel payload :
  st_tabs st = ∅ -> st_tape st = [] -> (channel, payload) ∈ st_tape (serve_all calls st) ->
  exists before m len after m0, calls = before ++ (m, LiveIngest len payload) :: after
    /\ (m0, TabOpens channel) ∈ before /\ mo_user m0 = mo_user m /\ len <= MAX_BATCH_BYTES.
Proof.
  intros H1 H2. assert (P : tabs_opened calls (st_tabs (serve_all calls st)) /\ tape_owned calls (st_tape (serve_all calls st))).
  { induction calls as [|[m c] calls IH] using rev_ind.
    - cbn. rewrite H1, H2. split; [intros ch g E; by apply lookup_empty_Some in E|intros ch p E; by apply elem_of_nil in E].
    - unfold serve_all in *. rewrite foldl_app. cbn [foldl fst snd]. destruct IH as [I1 I2]. by apply serve_tape. }
  apply P.
Qed.
End History.

(** ** A small station

    Two operators, one dongle, a callbook that knows no call, and services that
    do not answer. *)
Module StationDemo.
Notation Station := (Station (K := Z) (X := Z)).
Notation Moment := (Moment (R := Z)).
(** The documented storage: the name asked for, or another that is free. *)
Definition storage (path : pystr) (taken : gset pystr) : pystr := if decide (path ∈ taken) then stdpp.base.fresh taken else path.
Definition session (path : pystr) : option pystr := if str_eqb path (u "Session/Key") then Some (u "k9") else None.

#[local] Instance lib : StationLib Z Z Z := {|
  fernet_encrypt := CryptoDemo.enc; fernet_decrypt := CryptoDemo.dec; fresh_key := 7;
  qrz_fetch _ x := (Ok session, x); post_form _ x := (Err (u "refused"), x); unescape s := s;
  post_file _ x := (Err (u "refused"), x); icontains _ _ := false; repr _ := u "?"; quoted s := s;
  pk_of j := match j with JInt n => Some n | _ => None end; stores_nan := false;
  column_takes n := n <? 2 ^ 63; survey_fits _ := true; zone_takes _ := true; available := storage;
  media_url path := u "/media/" ++ path; radio_message _ := u "no radio"; scan_message _ := u "no survey";
  have_power := true; power _ x := (PowerExit (Some (Some ScanDemo.csv)), x);
  clock _ := Build_datetime 2026 1 2 3 4 5 0 |}.

#[local] Instance laws : StationLaws lib.
Proof.
  split; [apply CryptoDemo.roundtrip|]. intros path taken. cbn. unfold storage. case_decide; [apply is_fresh|done].
Qed.

Definition st0 : Station := {|
  st_desk := {| dk_keys := Build_KeyStore None None; dk_qrz := ∅; dk_eqsl := ∅; dk_out := 0 |};
  st_log := {| lg_rows := []; lg_next := 1 |}; st_sessions := []; st_photos := empty_table; st_media := ∅;
  st_surveys := empty_table;
  st_receiver := {| rv_radio := fresh_radio; rv_os := {| os_procs := ∅; os_pidfile := None; os_ours := ∅; os_lost := ∅ |};
                    rv_devices := Some [ScanDemo.stick] |};
  st_scan := idle; st_job := None; st_files := ∅; st_tabs := ∅; st_tape := [] |}.

Definition at_ (user : Z) : Moment := {|
  mo_user := user; mo_now := Build_datetime 2026 1 2 3 4 5 0; mo_nonce n := n; mo_probe := {| pb_ps := true; pb_text := None |};
  mo_machine := {| mc_rtl_fm := false; mc_rtl_power := false; mc_spawn :=
    {| sp_pid := None; sp_stderr := []; sp_dies := false; sp_opens := false; sp_error := [] |};
    mc_write := Written; mc_reap _ := willing |};
  mo_sweep := SwTimeout; mo_layer := true; mo_call := u "K1A" |}.

Definition photo (name raw : string) (data : list Z) : Call :=
  RigPhoto JNull (Some {| up_name := Some (u name); up_size := Some (zlen data); up_data := data |}) (Some (u raw)).
Definition quick (call : string) (khz : Z) : Call :=
  LogQuick (JObj [(u "call", JStr (u call)); (u "freq_hz", JInt (khz * 1000))]).
Definition survey : jobj := [(u "action", JStr (u "start")); (u "antenna", JStr (u "dipole")); (u "bands", JArr [JStr (u "fm")])].
Definition credentials : jobj :=
  [(u "username", JStr (u "k1a")); (u "password", JStr (u "s3cret")); (u "logbook_key", JStr (u " ABCD-1234 "))].

(** A day of operator 1, and what operator 2 asks on it. *)
Definition day : list (Moment * Call) :=
  [(at_ 1, QrzConfig (Some (JObj credentials))); (at_ 1, quick "w1aw" 14055); (at_ 1, photo "rig.png" "2011" [1; 2; 3]);
   (at_ 1, BandSurvey false (Some (JObj survey))); (at_ 2, SurveyRuns)].
Definition other_day : list (Moment * Call) :=
  [(at_ 2, quick "k2b" 7030); (at_ 2, photo "x.jpg" "2011" [9]); (at_ 2, LogDelete 1); (at_ 2, ServerRestarts);
   (at_ 2, QrzConfig (Some (JObj [(u "unlink", JBool true)])));
   (at_ 2, BandSurvey false (Some (JObj [(u "action", JStr (u "delete")); (u "id", JInt 1)])))].

Lemma tidy_st0 : tidy st0.
Proof.
  split; cbn; [by left|by apply NoDup_nil| | | |done].
  - split; cbn; [by apply NoDup_nil|done..].
  - split; [intros pk p H|intros pk p pk' p' H|intros pk p H|intros pk p pk' p' H]; cbn in H; by apply lookup_empty_Some in H.
  - split; intros pk s H; cbn in H; by apply lookup_empty_Some in H.
Qed.

(** The station after the day: a contact on 20 m, a photo and its file, a
    survey of the one band. *)
Lemma day_done :
  let st := serve_all day st0 in
  ((fun e => (qs_call (en_qso e), qs_band (en_qso e))) <$> lg_rows (st_log st) = [(u "W1AW", u "20m")])
  /\ zlen (map_to_list (rows (st_photos st))) = 1 /\ zlen (map_to_list (st_media st)) = 1
  /\ zlen (map_to_list (rows (st_surveys st))) = 1.
Proof. vm_compute. repeat split. Qed.

Example requests_keep_the_station_witness : tidy (serve_all (day ++ other_day) st0).
Proof. apply (requests_keep_the_station (day ++ other_day) st0 tidy_st0). Defined.

Example others_keep_theirs_witness :
  let st := serve_all day st0 in belongings 1 (serve_all other_day st) = belongings 1 st /\ entries_of 1 (st_log st) <> [].
Proof.
  split; [|by vm_compute]. apply (others_keep_theirs 1 other_day (serve_all day st0)).
  - apply serve_all_tidy, tidy_st0.
  - intros j. vm_compute. discriminate.
  - repeat constructor; cbn; lia.
Defined.

Example photo_shown_witness :
  exists file, st_media (serve (at_ 1) (photo "rig.png" "2011" [1; 2; 3]) st0).2 !! file = Some [1; 2; 3]
    /\ custom_rig_images media_url id [u "2011.png"] 1
         (st_photos (serve (at_ 1) (photo "rig.png" "2011" [1; 2; 3]) st0).2) !! u "2011" = Some (media_url file).
Proof.
  set (url := u "/media/cw/rig_photos/user_1/2011.png").
  assert (E : serve (at_ 1) (photo "rig.png" "2011" [1; 2; 3]) st0
    = (Ok (PhotoAt (u "2011") (Some url)), (serve (at_ 1) (photo "rig.png" "2011" [1; 2; 3]) st0).2)).
  { rewrite (surjective_pairing (serve _ _ _)) at 1; f_equal; by vm_compute. }
  destruct (photo_shown id [u "2011.png"] _ _ _ _ _ _ _ _ tidy_st0 E) as (n & (Hn & (file & up & Hu & [= <-] & Hf) & Hs) & _).
  exists file. split; [exact Hf|]. by rewrite Hn, <- Hu.
Defined.

Example entered_secrets_last_witness :
  let st' := serve_all other_day (serve (at_ 1) (QrzConfig (Some (JObj credentials))) st0).2 in
  (serve (at_ 1) (QrzSync (JObj [(u "action", JStr (u "import"))])) st').1
    = Synced <$> (qrz_logbook_sync post_form unescape (mo_now (at_ 1)) (u "ABCD-1234") 1 (lg_next (st_log st'))
        (JObj [(u "action", JStr (u "import"))]) (lg_rows (st_log st')) (dk_out (st_desk st'))).1.1.
Proof.
  cbv zeta.
  pose proof (entered_secrets_last (at_ 1) credentials other_day st0 tidy_st0 eq_refl) as W. cbv zeta in W.
  destruct W as [W _].
  - by vm_compute.
  - repeat constructor; intros [H _]; cbn in H; lia.
  - change (u "ABCD-1234") with (strip (u " ABCD-1234 ")). by apply W.
Defined.

Example survey_outlives_requests_witness :
  let st1 := (serve (at_ 1) (BandSurvey false (Some (JObj survey))) st0).2 in
  let st2 := serve_all [(at_ 2, quick "k2b" 7030); (at_ 2, BandSurvey false (Some (JObj survey)))] st1 in
  let st3 := (serve (at_ 2) SurveyRuns st2).2 in
  st_job st3 = None
  /\ exists row, st_surveys st3 = (insert_row row (st_surveys st2)).2 /\ sv_user row = 1 /\ sv_antenna row <> [].
Proof.
  intros st1 st2 st3.
  assert (E : serve (at_ 1) (BandSurvey false (Some (JObj survey))) st0 = (Ok (SurveyPosted Begun), st1)).
  { rewrite (surjective_pairing (serve _ _ _)); f_equal; by vm_compute. }
  pose proof (survey_outlives_requests _ _ _ [(at_ 2, quick "k2b" 7030); (at_ 2, BandSurvey false (Some (JObj survey)))]
    (at_ 2) _ _ tidy_st0 E) as W. cbv zeta in W. destruct W as (W1 & _ & _ & W2); [by repeat constructor|].
  split; [exact W1|]. destruct W2 as [[_ W2] | (row & W2 & _ & _ & W3 & _ & W4)].
  - exfalso. pose proof (W2 ltac:(vm_compute; reflexivity)) as F. by vm_compute in F.
  - exists row. split; [exact W2|]. split; [exact W3|exact W4].
Defined.

Example tape_is_ones_own_witness :
  let calls := [(at_ 1, TabOpens 5); (at_ 2, TabOpens 6); (at_ 1, LiveIngest 10 (JObj []))] in
  exists before m len after m0, calls = before ++ (m, LiveIngest len (JObj [])) :: after
    /\ (m0, TabOpens 5) ∈ before /\ mo_user m0 = mo_user m /\ len <= MAX_BATCH_BYTES.
Proof.
  intros calls. apply (tape_is_ones_own calls st0 5 (JObj []) eq_refl eq_refl). vm_compute. left.
Defined.

(** *** What modelling showed *)

(** A new user name alone leaves the session of the old login, which lookups go
    on using. *)
Lemma username_keeps_session :
  let st := serve_all [(at_ 1, QrzConfig (Some (JObj (credentials ++ [(u "test_call", JStr (u "W1AW"))]))));
                       (at_ 1, QrzConfig (Some (JObj [(u "username", JStr (u "k2b"))])))] st0 in
  (fun row => (qr_username row, qr_session_key row)) <$> dk_qrz (st_desk st) !! 1 = Some (u "k2b", u "k9").
Proof. by vm_compute. Qed.

(** [true] is a model number: it removes the photo of model 1 and is echoed as
    a text that is none. *)
Lemma boolean_is_a_model :
  let st := (serve (at_ 1) (photo "dummy.png" "1" [1]) st0).2 in
  let '(r, st') := serve (at_ 1) (RigPhoto (JObj [(u "action", JStr (u "delete")); (u "model", JBool true)]) None None) st in
  r = Ok (PhotoAt (u "True") None) /\ map_to_list (rows (st_photos st')) = [].
Proof. by vm_compute. Qed.

(** A superscript passes [isdigit] and stops [int]. *)
Lemma superscript_model_raises : (serve (at_ 1) (photo "rig.png" "²" [1]) st0).1 = Err Uncaught.
Proof. by vm_compute. Qed.

(** A model number the column does not take leaves the file without a row. *)
Lemma refused_row_leaves_its_file :
  let '(r, st') := serve (at_ 1) (photo "rig.png" "99999999999999999999" [1]) st0 in
  r = Err Uncaught /\ map_to_list (rows (st_photos st')) = [] /\ zlen (map_to_list (st_media st')) = 1.
Proof. by vm_compute. Qed.

(** A lookup writes: it stores the session key of the login it made. *)
Lemma lookup_stores_a_key :
  let st := (serve (at_ 1) (QrzConfig (Some (JObj credentials))) st0).2 in
  let st' := (serve (at_ 1) (LogLookup (Some (u "W1AW"))) st).2 in
  (qr_session_key <$> dk_qrz (st_desk st) !! 1, qr_session_key <$> dk_qrz (st_desk st') !! 1) = (Some [], Some (u "k9")).
Proof. by vm_compute. Qed.

(** Numbers that are none, where the handlers convert without a [try]. *)
Lemma numbers_raise :
  (serve (at_ 1) (RadioControl false (Some (JObj
     [(u "action", JStr (u "tune")); (u "freq_mhz", JInt 100); (u "device_index", JStr (u "first"))]))) st0).1 = Err Uncaught
  /\ (serve (at_ 1) (BandSurvey false (Some (JObj (survey ++ [(u "gain_db", JStr (u "high"))])))) st0).1 = Err Uncaught
  /\ (serve (at_ 1) (LogQuick (JObj [(u "call", JStr (u "W1AW")); (u "freq_hz", JStr (u "7030 kHz"))])) st0).1 = Err Uncaught.
Proof. by vm_compute. Qed.

(** A UTC time that the server's own zone skips or repeats is not taken. *)
Lemma zone_refuses_utc (zone : datetime -> bool) (user : Z) (f : QSOForm) (g : LogRows) :
  zone (qf_when f) = false -> log_create zone user f g = (FormShown, g).
Proof. intros E. unfold log_create, form_valid. by rewrite E, andb_false_r. Qed.
End StationDemo.
